(* ===== verification/_CoqProject ===== *)
-Q . S2P
Prelude.v
Buf.v
Range.v
Bitmap.v
Ring.v
Chain.v
FrameAlloc.v
Sched.v
Tick.v
Pmm.v
Paging.v
VaAlloc.v
Cow.v
KernelMem.v
Kheap.v
KheapVa.v
KheapShape.v
KheapInv.v
KheapAlloc.v
KheapSpec.v
Strings.v
Printf.v
Disk.v
Icmp.v
Net.v
Myfs.v
MyfsBlocks.v
MyfsMap.v
MyfsInode.v
MyfsFile.v
MyfsDir.v
Vfs.v
VfsPath.v
MyfsDriver.v
VfsFd.v
Console.v
Wait.v
Tty.v
Modules.v
Ata.v
Vmspace.v
UserCopy.v
Proc.v
ProcSpec.v
Fault.v
Elf.v
Exec.v
Vi.v
ViSpec.v
Fat.v
FatSpec.v
BootInfo.v
BootInfoSpec.v
