(* ===== verification/Prelude.v ===== *)
(** * Kabanos: a verification of a 32-bit operating system

    The repository holds a kernel for the i686 ([src/kernel]), a two-stage
    bootloader ([src/bootloader]), user programs ([src/userland]) and the port
    of a C library. The development is a shallow embedding: every C function
    becomes a Rocq function that can be run, with the names of the source, and
    the theorems are about those functions.

    ** The parts and the files that model them

    - [Prelude]: integers of fixed width, the state monad in which the code is
      written, arrays, the rules and tactics of the proofs. [Buf]: buffers of
      bytes and packed structures. [Chain]: lists linked through fields of
      objects in memory.
    - [Range] ([adt/range.c], [utils/math.h], [mm/memory_map.c]), [Bitmap]
      ([adt/bitmap.h]), [Ring] ([adt/circular_buffer.c]), [Strings]
      ([klib/string.c], [klib/ctype.c]) and [Printf] ([klib/stdio.c]): the data
      structures and the library under everything else.
    - [FrameAlloc] is the interface of the physical frame allocator; [Pmm]
      ([mm/pmm.c]) implements it and [Paging] ([arch/i686/hal_vmm.c]), [VaAlloc]
      ([mm/va_allocation.c]) and [Cow] (copy on write, again [hal_vmm.c]) are
      proved against it. The state of [Paging] is the allocator and the words of
      physical memory; page directories and tables are words of that memory.
    - [KernelMem] is the interface of kernel virtual memory, implemented over
      [Paging]; the kernel heap [mm/kmalloc.c] is in [Kheap] and is proved
      against it: [KheapVa] (addresses), [KheapShape] and [KheapInv] (slabs,
      lists and what the operations do to them), [KheapAlloc] and [KheapSpec]
      (what clients may rely on).
    - [Vmspace] ([mm/vmspace.c]), [UserCopy] (its copies, byte by byte) and
      [Fault] (page faults, the heap break and kernel stacks): user address
      spaces over [Paging], [VaAlloc] and [Cow].
    - [Sched] ([sched/sched.c], [sched/dispatcher.c], [spinlock.c]) and [Tick]
      ([sched/sleep.c], [sched/timer.c], [sched/sys_yield.c]): threads in a map
      from addresses, linked in four ready queues and a queue of sleepers; the
      timer interrupt, yielding, sleeping. One processor: a lock that is found
      held is a fault. [Wait] ([sched/wait.c]): wait queues.
    - [Proc] ([proc/*.c], [sched/thread.c], [mm/sys_sbrk.c], [mm/uaccess.c],
      [page_fault_handler.c]): processes, with the scheduler, the address
      spaces, the file system and the sockets side by side; [ProcSpec]: what
      the calls do. [Elf] ([elf32.c]) and [Exec] ([proc/sys_exec.c],
      [proc/exec_table.c]): loading and starting programs.
    - [Disk] ([drivers/block/*.c]): the interface of block devices, the registry
      and the partitions, which implement the interface over a device. [Myfs] is
      all of the file system [fs/myfs/myfs.c] over that interface; its theorems
      are in [MyfsBlocks] (blocks and bitmaps), [MyfsMap] (the block map of an
      inode), [MyfsInode] (inodes on disk and in the cache), [MyfsFile] (the
      contents of files) and [MyfsDir] (directories). [Ata]
      ([drivers/block/ata.c]): the disk driver, for any drive that keeps the
      laws of the class [AtaDrive].
    - [Vfs] ([fs/vfs.c], [fs/fd.c], [fs/sys_fs.c], [sys_cwd.c]): the virtual
      file system over the class [Drivers]; [MyfsDriver]
      ([fs/myfs/myfs_driver.c]) is an instance of it. [VfsPath]: path
      resolution against the contract [FileTree]; [VfsFd]: descriptors against
      the contract [FileContract], which the MyFS driver keeps.
    - [Icmp] ([net/icmp.c]) and [Net] ([net/arp.c], [net/net_syscalls.c]): echo
      requests and replies, address resolution, raw sockets.
    - [Console] ([drivers/console/console.c], [vga.c], [console_dev.c]): the text
      screen and its escape sequences. [Tty] ([drivers/console/tty.c],
      [drivers/keyboard/*.c], [device.c], [sys_ioctl.c]): keyboard, line
      discipline and terminal reads. [Modules] ([modules.c]): the start of the
      subsystems.
    - [Vi] ([userland/user_src/vi/vi.c]) is the editor and [ViSpec] its
      theorems.
    - [Fat] ([bootloader/stage2/src/disk.c], [mbr.c], [fat.c]) and [FatSpec]:
      the disk and FAT driver of the boot loader, for any BIOS that keeps the
      laws of [BiosOk]. [BootInfo] ([bootloader/stage2/src/multiboot2.c],
      [kernel_boot_info.c]) and [BootInfoSpec]: the block of tags from the
      loader to the kernel.

    ** How the code is rendered

    A function that reads or changes state is a value of [M St A], a function
    from a state to a result and a new state, or to nothing when the C code
    faults: an access outside an array or to unmapped memory, a null pointer, a
    failed [ASSERT], a lock that is already held. "The code does not fault" is
    thus part of every theorem stated with [wp], which says that a run has a
    result and what holds of it. Integers are in [Z] with the wrap-around of
    their C type written out ([u8], [u16], [u32], [s32]).

    Loops with a known range are [for_range]; loops that run until a condition
    holds take fuel ([while_n]), and running out of it is a fault, so that a
    theorem about them includes that they end. The bounds are the number of
    bytes of the memory plus one for loops over strings, 1026 turns for loops
    over the tables of a page directory, 2^20 + 1 for loops over pages, 2^20 + 3
    for copies between address spaces and the strings of [Exec], 18 for the
    pages of a kernel stack, the number of objects for loops along linked lists,
    the pages of the heap plus one for its loops, 41 links of 256 characters
    for a walk along a path. Each is enough for every run from a state that
    satisfies the hypotheses of the theorem, because the theorem says that the
    run returns. Recursion that the code does not bound takes the depth of the
    kernel stack as an argument: path resolution through absolute links
    ([kstack]) and the loading of modules. The scan of a FAT directory takes a
    bound on its entries.

    Code that is not in the repository, and hardware, appears as an argument:
    the disk is any instance of [BlockDevice], the ATA drive of [AtaDrive], the
    BIOS of [BiosOk]; what happens while a thread yields is a script, and
    uninitialised memory holds arbitrary bytes. A function that gives up the
    processor in its middle is cut there: [wait_on_queue] and [tty_read] return,
    and [wait_on_queue_resume] and [tty_read_resume] are what follows when the
    thread runs again. Calls of a subsystem that another file models are calls
    of that model; in [Vfs], [Vmspace] and [Exec] the answers of the kernel heap
    come from a list, so that every failure is covered.

    ** What the theorems show

    - Scheduling: every reachable state of the queues is consistent and the
      handlers cannot fault in it; the tick handler's whole effect; each queue
      operation implements its counterpart on lists.
    - Memory: the frame allocator keeps its counts and bitmap consistent from
      bring-up on; mapping, unmapping, region allocation, cloning and
      copy-on-write faults change exactly the translations they should, and fail
      only when no frame is left; after any sequence of heap calls the blocks
      are apart and keep their contents; copies to user memory, page faults and
      kernel stacks.
    - Processes: waiting for children and exit, with the cases in which exit
      uses a freed parent or queues its parent twice; the memory of a loaded
      program and the stack it starts with; wait queues are first in, first
      out.
    - File system: writes are read back and leave other files alone, a directory
      is a map from names to inode numbers, the block map and the inode table
      keep what is stored in them; partitions stay in their sectors; the ATA
      driver reads and writes the sectors it is asked for; a path resolves to
      the inode it leads to; the life of a descriptor.
    - Network: a ping and an ARP exchange between two machines succeed; delivery,
      receiving and timeouts of sockets.
    - Console: text is shown as on a roll of paper whose last 25 lines are in
      view; no input makes the console leave its buffer. A line typed at the
      keyboard reaches the reader that waits for it.
    - Start: modules start in the order of their dependencies, and a cycle of
      them never ends; the boot information arrives; a file of a FAT volume is
      read whole.
    - Editor: keys keep it inside its buffers, apart from those that do not;
      what is typed, saved and read again is the same text; undo.
    - Library: formatting, tokenising, comparing and converting strings; the ring
      buffer is a bounded queue; bitmaps.

    Where the code does something else than its comments say, the theorem states
    what the code does.

    ** Not modelled

    Interrupt and descriptor tables, saving and restoring registers,
    address-translation caches, the receive side of the network card, the PCI
    bus and the interrupt controllers are effects of the machine without a
    counterpart in the model. The boot loader's sequence of BIOS calls and
    loads, the user programs other than the editor, the port of the C library
    and the tool that makes disk images are left out; the kernel's unit tests
    are test code. An interrupt arrives between two operations of the model,
    never inside one, except where a theorem is about that. *)

From Stdlib Require Export ZArith Lia Sorted.
From stdpp Require Export base numbers gmap option functions.
From stdpp Require Export list.
Export stdpp.list_basics.list.

#[export] Set Default Goal Selector "!".
Open Scope Z_scope.

(** [lia] sees through division and remainder by the literal widths. *)
Ltac Zify.zify_post_hook ::= Z.to_euclidean_division_equations.

(** Arithmetic is left alone by [simpl]; closed terms are for [vm_compute]. *)
#[global] Arguments Z.add : simpl never.
#[global] Arguments Z.sub : simpl never.
#[global] Arguments Z.mul : simpl never.
#[global] Arguments Z.div : simpl never.
#[global] Arguments Z.modulo : simpl never.
#[global] Arguments Z.pow : simpl never.
#[global] Arguments Z.land : simpl never.
#[global] Arguments Z.lor : simpl never.
#[global] Arguments Z.lxor : simpl never.
#[global] Arguments Z.lnot : simpl never.
#[global] Arguments Z.shiftl : simpl never.
#[global] Arguments Z.shiftr : simpl never.
#[global] Arguments Z.testbit : simpl never.
#[global] Arguments Z.leb : simpl never.
#[global] Arguments Z.ltb : simpl never.
#[global] Arguments Z.eqb : simpl never.
#[global] Arguments Z.of_nat : simpl never.
#[global] Arguments Z.to_nat : simpl never.

(* ------------------------------------------------------------------ *)
(** ** Machine integers

    A C integer of width [w] is the [Z] it denotes; every arithmetic
    operation that may leave the width is wrapped explicitly. *)

Definition u8 (z : Z) : Z := z mod 256.
Definition u16 (z : Z) : Z := z mod 65536.
Definition u32 (z : Z) : Z := z mod 4294967296.
Definition u64 (z : Z) : Z := z mod 18446744073709551616.

(** Conversion to a signed 32-bit [int] (two's complement). *)
Definition s32 (z : Z) : Z := (z + 2147483648) mod 4294967296 - 2147483648.

(** Bitwise complement of a 32-bit unsigned operand. *)
Definition not32 (z : Z) : Z := 4294967295 - z.

Definition is_u8 (z : Z) : Prop := 0 <= z < 256.
Definition is_u16 (z : Z) : Prop := 0 <= z < 65536.
Definition is_u32 (z : Z) : Prop := 0 <= z < 4294967296.
Definition is_u64 (z : Z) : Prop := 0 <= z < 18446744073709551616.

Create HintDb kint.
#[export] Hint Unfold u8 u16 u32 u64 s32 not32 is_u8 is_u16 is_u32 is_u64 : kint.

(** Unfold the widths and let [lia] finish. *)
Ltac ulia := autounfold with kint in *; lia.

Lemma u8_range z : is_u8 (u8 z). Proof. ulia. Qed.
Lemma u16_range z : is_u16 (u16 z). Proof. ulia. Qed.
Lemma u32_range z : is_u32 (u32 z). Proof. ulia. Qed.
Lemma u64_range z : is_u64 (u64 z). Proof. ulia. Qed.
Lemma u8_small z : is_u8 z → u8 z = z. Proof. ulia. Qed.
Lemma u16_small z : is_u16 z → u16 z = z. Proof. ulia. Qed.
Lemma u32_small z : is_u32 z → u32 z = z. Proof. ulia. Qed.
Lemma u64_small z : is_u64 z → u64 z = z. Proof. ulia. Qed.
Lemma s32_small z : -2147483648 <= z < 2147483648 → s32 z = z. Proof. ulia. Qed.

#[export] Hint Resolve u8_range u16_range u32_range u64_range : kint.

(* ------------------------------------------------------------------ *)
(** ** The effect monad

    A C function over a state [St] is a partial state transformer: [None]
    is a fault (an out-of-bounds access, a null dereference, a failed
    [ASSERT], or a loop that did not stop within its bound), so a theorem
    that a run ends in [Some] is a safety and termination theorem. *)

Definition M (St A : Type) : Type := St → option (A * St).

Definition ret {St A} (a : A) : M St A := λ s, Some (a, s).
Definition bind {St A B} (m : M St A) (k : A → M St B) : M St B := λ s,
  match m s with Some (a, s') => k a s' | None => None end.

Declare Scope kmonad_scope.
Delimit Scope kmonad_scope with kmonad.
Notation "x ← y ; z" := (bind y (λ x, z))
  (at level 20, y at level 100, z at level 200, only parsing) : kmonad_scope.
Notation "' x ← y ; z" := (bind y (λ x : _, z))
  (at level 20, x pattern, y at level 100, z at level 200, only parsing) : kmonad_scope.
Notation "x ;; z" := (bind x (λ _, z))
  (at level 100, z at level 200, only parsing, right associativity) : kmonad_scope.
Open Scope kmonad_scope.

Definition fault {St A} : M St A := λ _, None.
Definition gets {St A} (f : St → A) : M St A := λ s, Some (f s, s).
Definition modify {St} (f : St → St) : M St unit := λ s, Some (tt, f s).
Definition assert_ {St} (b : bool) : M St unit := if b then ret tt else fault.
Definition of_opt {St A} (o : option A) : M St A :=
  match o with Some a => ret a | None => fault end.
Definition when {St} (b : bool) (m : M St unit) : M St unit :=
  if b then m else ret tt.

(** [for (i = lo; i < lo + n; i++) body(i)] *)
Fixpoint for_n {St} (n : nat) (i : Z) (body : Z → M St unit) : M St unit :=
  match n with
  | O => ret tt
  | S n => body i ;; for_n n (i + 1) body
  end.
Definition for_range {St} (lo hi : Z) (body : Z → M St unit) : M St unit :=
  for_n (Z.to_nat (hi - lo)) lo body.

(** The same loop with an early [return]: it stops at the first index
    whose body yields a value. *)
Fixpoint scan_n {St A} (n : nat) (i : Z) (body : Z → M St (option A))
    : M St (option A) :=
  match n with
  | O => ret None
  | S n => r ← body i;
           match r with Some a => ret (Some a) | None => scan_n n (i + 1) body end
  end.
Definition scan_range {St A} (lo hi : Z) (body : Z → M St (option A))
    : M St (option A) := scan_n (Z.to_nat (hi - lo)) lo body.

(** A [for] loop over an array argument is a recursion over its elements. *)
Fixpoint for_each {St A} (l : list A) (body : A → M St unit) : M St unit :=
  match l with
  | [] => ret tt
  | x :: l => body x ;; for_each l body
  end.

(** [while] with loop variables [a]: a step either goes on with new ones or
    leaves the loop. [n] bounds the iterations; running out is a fault. *)
Fixpoint while_n {St A B} (n : nat) (step : A → M St (A + B)) (a : A) : M St B :=
  match n with
  | O => fault
  | S n => r ← step a;
           match r with inl a => while_n n step a | inr b => ret b end
  end.

(** A component's operations inside a larger state. *)
Definition zoom {St T A} (get : St → T) (set : T → St → St) (m : M T A) : M St A :=
  λ s, match m (get s) with Some (a, t) => Some (a, set t s) | None => None end.

(** Total correctness: the run does not fault and its result satisfies [Q]. *)
Definition wp {St A} (m : M St A) (s : St) (Q : A → St → Prop) : Prop :=
  match m s with Some (a, s') => Q a s' | None => False end.

Section wp_rules.
Context {St : Type}.
Implicit Types s : St.

Lemma wp_intro {A} (m : M St A) s a s' Q : m s = Some (a, s') → Q a s' → wp m s Q.
Proof. unfold wp. by intros ->. Qed.

Lemma wp_elim {A} (m : M St A) s Q : wp m s Q → ∃ a s', m s = Some (a, s') ∧ Q a s'.
Proof. unfold wp. destruct (m s) as [[a s']|]; [eauto|done]. Qed.

Lemma wp_run {A} (m : M St A) s a s' Q : wp m s Q → m s = Some (a, s') → Q a s'.
Proof. unfold wp. intros H E. by rewrite E in H. Qed.

Lemma wp_mono {A} (m : M St A) s (Q Q' : A → St → Prop) :
  wp m s Q → (∀ a s', Q a s' → Q' a s') → wp m s Q'.
Proof. unfold wp. destruct (m s) as [[a s']|]; eauto. Qed.

Lemma wp_ret {A} (a : A) s (Q : A → St → Prop) : Q a s → wp (ret a) s Q.
Proof. done. Qed.

Lemma wp_and {A} (m : M St A) s (P Q : A → St → Prop) : wp m s P → wp m s Q → wp m s (λ a s', P a s' ∧ Q a s').
Proof. unfold wp. by destruct (m s) as [[a s']|]. Qed.

Lemma wp_bind {A B} (m : M St A) (k : A → M St B) s Q :
  wp m s (λ a s', wp (k a) s' Q) → wp (bind m k) s Q.
Proof. unfold wp, bind. by destruct (m s) as [[a s']|]. Qed.

Lemma bind_ret {A B} (a : A) (k : A → M St B) : bind (ret a) k = k a.
Proof. done. Qed.

Lemma bind_gets {A B} (f : St → A) (k : A → M St B) s : bind (gets f) k s = k (f s) s.
Proof. done. Qed.

Lemma bind_assoc {A B C} (m : M St A) (k : A → M St B) (h : B → M St C) s :
  bind (bind m k) h s = bind m (λ a, bind (k a) h) s.
Proof. unfold bind. by destruct (m s) as [[a s']|]. Qed.

(** A run that reaches a fault is a fault. *)
Lemma bind_fault {A B} (m : M St A) (k : A → M St B) s :
  wp m s (λ a s', k a s' = None) → bind m k s = None.
Proof. unfold wp, bind. by destruct (m s) as [[a s']|]. Qed.

Lemma wp_assoc {A B C} (m : M St A) (k : A → M St B) (h : B → M St C) s Q :
  wp (bind (bind m k) h) s Q → wp (bind m (λ a, bind (k a) h)) s Q.
Proof. unfold wp, bind. by destruct (m s) as [[a s']|]. Qed.

Lemma wp_gets {A} (f : St → A) s (Q : A → St → Prop) : Q (f s) s → wp (gets f) s Q.
Proof. done. Qed.

Lemma wp_modify (f : St → St) s (Q : unit → St → Prop) :
  Q tt (f s) → wp (modify f) s Q.
Proof. done. Qed.

Lemma wp_assert (b : bool) s (Q : unit → St → Prop) :
  b = true → Q tt s → wp (assert_ b) s Q.
Proof. by intros ->. Qed.

Lemma wp_of_opt {A} (o : option A) a s (Q : A → St → Prop) :
  o = Some a → Q a s → wp (of_opt o) s Q.
Proof. by intros ->. Qed.

Lemma wp_when (b : bool) (m : M St unit) s Q :
  (b = true → wp m s Q) → (b = false → Q tt s) → wp (when b m) s Q.
Proof. destruct b; [by auto|]. intros _ H. by apply wp_ret, H. Qed.

Lemma wp_if {A} (b : bool) (m1 m2 : M St A) s Q :
  (b = true → wp m1 s Q) → (b = false → wp m2 s Q) →
  wp (if b then m1 else m2) s Q.
Proof. destruct b; auto. Qed.

(** The loop rule: [Inv i] holds before the iteration with index [i]. *)
Lemma wp_for_n (Inv : Z → St → Prop) n i (body : Z → M St unit) s :
  Inv i s →
  (∀ j s', i <= j < i + Z.of_nat n → Inv j s' →
     wp (body j) s' (λ _ s'', Inv (j + 1) s'')) →
  wp (for_n n i body) s (λ _ s', Inv (i + Z.of_nat n) s').
Proof.
  revert i s; induction n as [|n IH]; intros i s Hi Hb.
  - apply wp_ret. by replace (i + Z.of_nat 0) with i by lia.
  - simpl. apply wp_bind. eapply wp_mono; [apply Hb; [lia|done]|].
    intros [] s' Hs'. eapply wp_mono; [apply (IH (i + 1) s' Hs')|].
    + intros j s'' ? ?. apply Hb; [lia|done].
    + intros [] s''. by replace (i + 1 + Z.of_nat n) with (i + Z.of_nat (S n)) by lia.
Qed.

Lemma wp_for_range (Inv : Z → St → Prop) lo hi (body : Z → M St unit) s :
  Inv lo s →
  (∀ j s', lo <= j < hi → Inv j s' → wp (body j) s' (λ _ s'', Inv (j + 1) s'')) →
  wp (for_range lo hi body) s (λ _ s', Inv (Z.max lo hi) s').
Proof.
  intros Hi Hb. unfold for_range.
  eapply wp_mono; [apply (wp_for_n Inv); [done|]|].
  - intros j s' ?. apply Hb. lia.
  - intros [] s'.
    by replace (lo + Z.of_nat (Z.to_nat (hi - lo))) with (Z.max lo hi) by lia.
Qed.

(** An early-return loop either falls through, with the invariant at the
    end, or returns from some index. *)
Lemma wp_scan_n {A} (Inv : Z → St → Prop) (Q : option A → St → Prop) n i
    (body : Z → M St (option A)) s :
  Inv i s →
  (∀ j s', i <= j < i + Z.of_nat n → Inv j s' →
     wp (body j) s' (λ r s'', match r with
                              | Some a => Q (Some a) s''
                              | None => Inv (j + 1) s'' end)) →
  (∀ s', Inv (i + Z.of_nat n) s' → Q None s') →
  wp (scan_n n i body) s Q.
Proof.
  revert i s; induction n as [|n IH]; intros i s Hi Hb HQ.
  - apply wp_ret, HQ. by replace (i + Z.of_nat 0) with i by lia.
  - simpl. apply wp_bind. eapply wp_mono; [apply Hb; [lia|done]|].
    intros [a|] s' Hs'; [by apply wp_ret|].
    apply (IH (i + 1)); [done| |].
    + intros j s'' ? ?. apply Hb; [lia|done].
    + intros s''. replace (i + 1 + Z.of_nat n) with (i + Z.of_nat (S n)) by lia. auto.
Qed.

Lemma wp_scan_range {A} (Inv : Z → St → Prop) (Q : option A → St → Prop) lo hi
    (body : Z → M St (option A)) s :
  Inv lo s →
  (∀ j s', lo <= j < hi → Inv j s' →
     wp (body j) s' (λ r s'', match r with
                              | Some a => Q (Some a) s''
                              | None => Inv (j + 1) s'' end)) →
  (∀ s', Inv (Z.max lo hi) s' → Q None s') →
  wp (scan_range lo hi body) s Q.
Proof.
  intros Hi Hb HQ. unfold scan_range.
  apply (wp_scan_n Inv); [done|intros; apply Hb; [lia|done]|].
  replace (lo + Z.of_nat (Z.to_nat (hi - lo))) with (Z.max lo hi) by lia. done.
Qed.

(** A loop leaves when its invariant carries a number that decreases at
    every turn and starts below the fuel. *)
Lemma wp_while_n {A B} (Inv : nat → A → St → Prop) (Q : B → St → Prop)
    (step : A → M St (A + B)) n k a s :
  Inv k a s → (k < n)%nat →
  (∀ k a s, Inv k a s → wp (step a) s (λ r s', match r with
     | inl a' => ∃ k', (k' < k)%nat ∧ Inv k' a' s'
     | inr b => Q b s' end)) →
  wp (while_n n step a) s Q.
Proof.
  intros Hi Hn Hs. revert k a s Hi Hn. induction n as [|n IH]; intros k a s Hi Hn; [lia|].
  simpl. apply wp_bind. eapply wp_mono; [by apply Hs|].
  intros [a'|b] s' H; [|by apply wp_ret]. destruct H as (k' & Hlt & Hi').
  apply IH with k'; [done|lia].
Qed.

(** [Inv] is indexed by the elements processed so far. *)
Lemma wp_for_each {A} (Inv : list A → St → Prop) l (body : A → M St unit) s :
  Inv [] s →
  (∀ pre x s', x ∈ l → Inv pre s' → wp (body x) s' (λ _ s'', Inv (pre ++ [x]) s'')) →
  wp (for_each l body) s (λ _ s', Inv l s').
Proof.
  change (wp (for_each l body) s (λ _ s', Inv l s')) with
    ((λ pre, wp (for_each l body) s (λ _ s', Inv (pre ++ l) s')) []).
  intros Hi Hb. revert s Hi. generalize (@nil A) as pre.
  induction l as [|x l IH]; intros pre s Hi; simpl.
  - apply wp_ret. by rewrite app_nil_r.
  - apply wp_bind. eapply wp_mono; [apply Hb; [by constructor|done]|].
    intros [] s' Hs'. rewrite (cons_middle x pre l), app_assoc. apply IH; [|done].
    intros pre' y s'' Hy. apply Hb. by constructor.
Qed.

Lemma wp_zoom {T A} (get : St → T) (set : T → St → St) (m : M T A) s Q :
  wp m (get s) (λ a t, Q a (set t s)) → wp (zoom get set m) s Q.
Proof. unfold wp, zoom. by destruct (m (get s)) as [[a t]|]. Qed.
End wp_rules.

(** Runs of a sequence. *)
Lemma bind_run {St A B} (m : M St A) (k : A → M St B) (s : St) a (s' : St) : m s = Some (a, s') → bind m k s = k a s'.
Proof. unfold bind. by intros ->. Qed.

Lemma bind_inv {St A B} (m : M St A) (k : A → M St B) s b s' :
  bind m k s = Some (b, s') → ∃ a s1, m s = Some (a, s1) ∧ k a s1 = Some (b, s').
Proof. unfold bind. destruct (m s) as [[a s1]|]; [|done]. eauto. Qed.

(* ------------------------------------------------------------------ *)
(** ** What a run leaves alone

    [keeps f m]: no run of [m] changes the part [f] of the state. *)

Definition keeps {St T A} (f : St → T) (m : M St A) : Prop := ∀ s a s', m s = Some (a, s') → f s' = f s.

Section keeps.
Context {St T : Type} (f : St → T).

Lemma keeps_ret {A} (a : A) : keeps f (ret a).
Proof. intros s x s' [= <- <-]. done. Qed.

Lemma keeps_gets {A} (g : St → A) : keeps f (gets g).
Proof. intros s x s' [= <- <-]. done. Qed.

Lemma keeps_fault {A} : keeps f (@fault St A).
Proof. intros s x s' [=]. Qed.

Lemma keeps_assert b : keeps f (assert_ b).
Proof. destruct b; [apply keeps_ret|apply keeps_fault]. Qed.

Lemma keeps_of_opt {A} (o : option A) : keeps f (of_opt o).
Proof. destruct o; [apply keeps_ret|apply keeps_fault]. Qed.

Lemma keeps_modify (g : St → St) : (∀ s, f (g s) = f s) → keeps f (modify g).
Proof. intros H s x s' [= <- <-]. apply H. Qed.

Lemma keeps_zoom {U A} (get : St → U) (set : U → St → St) (m : M U A) :
  (∀ u s, f (set u s) = f s) → keeps f (zoom get set m).
Proof. intros H s x s'. unfold zoom. destruct (m (get s)) as [[a u]|]; [|done]. intros [= <- <-]. apply H. Qed.

Lemma keeps_bind {A B} (m : M St A) (k : A → M St B) : keeps f m → (∀ a, keeps f (k a)) → keeps f (bind m k).
Proof. intros Hm Hk s b s' (a & s1 & E1 & E2)%bind_inv. rewrite (Hk a s1 b s' E2). by apply Hm with a. Qed.

Lemma keeps_when b m : keeps f m → keeps f (when b m).
Proof. destruct b; [done|]. intros _. apply keeps_ret. Qed.

Lemma keeps_for_range lo hi (body : Z → M St unit) : (∀ i, keeps f (body i)) → keeps f (for_range lo hi body).
Proof.
  intros Hb. unfold for_range. generalize (Z.to_nat (hi - lo)) as n. revert lo.
  intros lo n. revert lo. induction n as [|n IH]; intros i; [apply keeps_ret|]. apply keeps_bind; [apply Hb|intros _; apply IH].
Qed.

Lemma keeps_scan_range {A} lo hi (body : Z → M St (option A)) : (∀ i, keeps f (body i)) → keeps f (scan_range lo hi body).
Proof.
  intros Hb. unfold scan_range. generalize (Z.to_nat (hi - lo)) as n. revert lo.
  intros lo n. revert lo. induction n as [|n IH]; intros i; [apply keeps_ret|]. apply keeps_bind; [apply Hb|]. intros [a|]; [apply keeps_ret|apply IH].
Qed.

Lemma keeps_while_n {A B} n (step : A → M St (A + B)) a : (∀ a, keeps f (step a)) → keeps f (while_n n step a).
Proof.
  intros Hs. revert a. induction n as [|n IH]; intros a; [apply keeps_fault|].
  apply keeps_bind; [apply Hs|]. intros [a'|b]; [apply IH|apply keeps_ret].
Qed.

Lemma wp_keeps {A} (m : M St A) s Q : keeps f m → wp m s Q → wp m s (λ a s', Q a s' ∧ f s' = f s).
Proof. intros Hk. unfold wp. destruct (m s) as [[a s']|] eqn:E; [|done]. intros HQ. split; [done|by apply Hk with a]. Qed.
End keeps.

#[export] Hint Resolve keeps_ret keeps_gets keeps_fault keeps_assert keeps_of_opt : keeps.

(** Peel the statements of a run that leaves something alone. *)
Ltac keeps_step :=
  lazymatch goal with
  | |- keeps _ (bind _ _) => apply keeps_bind; [|intros ?]
  | |- keeps _ (when _ _) => apply keeps_when
  | |- keeps _ (for_range _ _ _) => apply keeps_for_range; intros ?
  | |- keeps _ (scan_range _ _ _) => apply keeps_scan_range; intros ?
  | |- keeps _ (while_n _ _ _) => apply keeps_while_n; intros ?
  | |- keeps _ (if ?b then _ else _) => destruct b
  | |- keeps _ (match ?x with _ => _ end) => destruct x
  | |- _ => solve [auto with keeps]
  end.
Ltac keeps_steps := repeat keeps_step.

(** Peel the next statement of a run. *)
Ltac wp_step :=
  lazymatch goal with
  | |- wp (bind _ _) _ _ => apply wp_bind
  | |- wp (ret _) _ _ => apply wp_ret
  | |- wp (gets _) _ _ => apply wp_gets
  | |- wp (modify _) _ _ => apply wp_modify
  | |- wp (zoom _ _ _) _ _ => apply wp_zoom
  | |- wp (assert_ _) _ _ => apply wp_assert
  | |- wp (of_opt _) _ _ => eapply wp_of_opt
  | |- wp (when _ _) _ _ => apply wp_when; intros ?
  | |- wp (if _ then _ else _) _ _ => apply wp_if; intros ?
  end.
Ltac wp_steps := repeat (wp_step; simpl).

(** Tests as propositions, for [lia] where lengths of lists occur in them. *)
#[export] Hint Rewrite andb_true_iff andb_false_iff orb_true_iff orb_false_iff
  negb_true_iff negb_false_iff Z.leb_le Z.leb_gt Z.ltb_lt Z.ltb_ge Z.eqb_eq Z.eqb_neq : kbool.
Ltac blia := autorewrite with kbool in *; lia.

(** The next test of the goal holds, or does not, by arithmetic. *)
Ltac guard_true :=
  match goal with |- context [if ?b then _ else _] => assert (b = true) as -> by blia end.
Ltac guard_false :=
  match goal with |- context [if ?b then _ else _] => assert (b = false) as -> by blia end.

(* ------------------------------------------------------------------ *)
(** ** C arrays

    An array of fixed length whose unwritten cells hold the value it was
    initialised with (static arrays are zero-initialised). Access outside
    the bounds is a fault. *)

Record arr (A : Type) := Arr { alen : Z; adef : A; acells : gmap Z A }.
Arguments Arr {A} _ _ _.
Arguments alen {A} _.
Arguments adef {A} _.
Arguments acells {A} _.

Definition mk_arr {A} (n : Z) (d : A) : arr A := Arr n d ∅.
Definition aat {A} (a : arr A) (i : Z) : A := default (adef a) (acells a !! i).
Definition aput {A} (a : arr A) (i : Z) (v : A) : arr A :=
  Arr (alen a) (adef a) (<[i:=v]> (acells a)).
Definition in_bounds {A} (a : arr A) (i : Z) : bool := (0 <=? i) && (i <? alen a).

Definition ld {A} (i : Z) : M (arr A) A := λ a,
  if in_bounds a i then Some (aat a i, a) else None.
Definition st {A} (i : Z) (v : A) : M (arr A) unit := λ a,
  if in_bounds a i then Some (tt, aput a i v) else None.

(** [memset(a, v, n)] *)
Definition amemset {A} (v : A) (n : Z) : M (arr A) unit :=
  for_range 0 n (λ i, st i v).

Section arr_lemmas.
Context {A : Type}.
Implicit Types a : arr A.

Lemma in_bounds_true a i : 0 <= i < alen a → in_bounds a i = true.
Proof. unfold in_bounds. lia. Qed.

Lemma wp_ld a i (Q : A → arr A → Prop) :
  0 <= i < alen a → Q (aat a i) a → wp (ld i) a Q.
Proof. intros H. unfold wp, ld. by rewrite in_bounds_true. Qed.

Lemma wp_st a i v (Q : unit → arr A → Prop) :
  0 <= i < alen a → Q tt (aput a i v) → wp (st i v) a Q.
Proof. intros H. unfold wp, st. by rewrite in_bounds_true. Qed.

Lemma aat_aput_eq a i v : aat (aput a i v) i = v.
Proof. unfold aat. simpl. by rewrite lookup_insert_eq. Qed.

Lemma aat_aput_ne a i j v : i ≠ j → aat (aput a i v) j = aat a j.
Proof. intros. unfold aat. simpl. by rewrite lookup_insert_ne. Qed.

Lemma aat_aput a i j v : aat (aput a i v) j = if decide (i = j) then v else aat a j.
Proof. case_decide; subst; [apply aat_aput_eq|by apply aat_aput_ne]. Qed.

Lemma alen_aput a i v : alen (aput a i v) = alen a.
Proof. done. Qed.

Lemma wp_amemset a v n :
  0 <= n <= alen a →
  wp (amemset v n) a (λ _ a', alen a' = alen a ∧
    ∀ j, aat a' j = if decide (0 <= j < n) then v else aat a j).
Proof.
  intros Hn. unfold amemset. eapply wp_mono; [
    apply (wp_for_range (λ i a', alen a' = alen a ∧
      ∀ j, aat a' j = if decide (0 <= j < i) then v else aat a j))|].
  - split; [done|]. intros j. rewrite decide_False; [done|lia].
  - intros i a' Hi [Hl Ha]. apply wp_st; [lia|]. split; [done|]. intros j.
    rewrite aat_aput, Ha. repeat case_decide; (done || lia).
  - intros [] a' [Hl Ha]. rewrite Z.max_r in Ha by lia. done.
Qed.
End arr_lemmas.

(* ------------------------------------------------------------------ *)
(** ** Counting *)

(** How many indices below [n] satisfy [p]. *)
Fixpoint count_to (p : Z → bool) (n : nat) : Z :=
  match n with
  | O => 0
  | S m => count_to p m + Z.b2z (p (Z.of_nat m))
  end.

Lemma count_to_bound p n : 0 <= count_to p n <= Z.of_nat n.
Proof. induction n as [|n IH]; simpl; [lia|]. destruct (p (Z.of_nat n)); simpl; lia. Qed.

Lemma count_to_ext p q n :
  (∀ j, 0 <= j < Z.of_nat n → p j = q j) → count_to p n = count_to q n.
Proof.
  induction n as [|n IH]; intros H; [done|]. simpl.
  rewrite IH, H; [done|lia|]. intros j ?. apply H. lia.
Qed.

Lemma count_to_upd p q n i v :
  0 <= i < Z.of_nat n →
  (∀ j, 0 <= j < Z.of_nat n → q j = if decide (j = i) then v else p j) →
  count_to q n = count_to p n - Z.b2z (p i) + Z.b2z v.
Proof.
  induction n as [|n IH]; intros Hi H; [lia|]. simpl.
  rewrite (H (Z.of_nat n)) by lia. destruct (decide (Z.of_nat n = i)) as [<-|Hne].
  - rewrite (count_to_ext q p); [lia|]. intros j ?.
    rewrite H by lia. rewrite decide_False; [done|lia].
  - rewrite IH; [lia|lia|]. intros j ?. apply H. lia.
Qed.

Lemma count_to_all p n :
  (∀ j, 0 <= j < Z.of_nat n → p j = true) → count_to p n = Z.of_nat n.
Proof.
  induction n as [|n IH]; intros H; [done|]. simpl.
  rewrite (H (Z.of_nat n)) by lia. rewrite IH; [simpl; lia|]. intros j ?. apply H. lia.
Qed.

Lemma count_to_full p n :
  count_to p n = Z.of_nat n → ∀ j, 0 <= j < Z.of_nat n → p j = true.
Proof.
  induction n as [|n IH]; intros H j Hj; [lia|]. simpl in H.
  pose proof (count_to_bound p n).
  destruct (p (Z.of_nat n)) eqn:E; simpl in H; [|lia].
  destruct (decide (j = Z.of_nat n)) as [->|]; [done|]. apply IH; lia.
Qed.

Lemma count_to_negb p n : count_to (λ j, negb (p j)) n = Z.of_nat n - count_to p n.
Proof. induction n as [|n IH]; simpl; [done|]. rewrite IH. destruct (p _); simpl; lia. Qed.

(* ------------------------------------------------------------------ *)
(** ** Lists *)

Lemma filter_all {A} (P : A → Prop) `{!∀ x, Decision (P x)} (l : list A) :
  (∀ x, x ∈ l → P x) → filter P l = l.
Proof.
  induction l as [|x l IH]; intros Hl; [done|].
  rewrite filter_cons_True by (apply Hl; by constructor).
  f_equal. apply IH. intros y Hy. apply Hl. by constructor.
Qed.

Lemma filter_snoc {A} (W : A → bool) (d : list A) c :
  filter (λ x, W x) (d ++ [c]) = filter (λ x, W x) d ++ (if W c then [c] else []).
Proof.
  rewrite filter_app. f_equal. destruct (W c) eqn:E.
  - by rewrite filter_cons_True by (by rewrite E).
  - rewrite filter_cons_False; [done|]. rewrite E. by intros [].
Qed.

Lemma filter_bool_ext {A} (V W : A → bool) (l : list A) :
  (∀ x, x ∈ l → V x = W x) → filter (λ x, V x) l = filter (λ x, W x) l.
Proof.
  induction l as [|x l IH]; intros H; [done|]. rewrite !filter_cons.
  rewrite IH by (intros y ?; apply H; by constructor).
  specialize (H x ltac:(by constructor)). by destruct (decide (V x)), (decide (W x)); rewrite H in *.
Qed.

(** The list without an element. *)
Definition without (t : Z) (l : list Z) : list Z := filter (λ x, x ≠ t) l.

Lemma without_notin t l : t ∉ l → without t l = l.
Proof. intros H. apply filter_all. by intros x Hx ->. Qed.

Lemma without_split t l1 l2 : NoDup (l1 ++ t :: l2) → without t (l1 ++ t :: l2) = l1 ++ l2.
Proof.
  intros (_ & H1 & [H2 _]%NoDup_cons)%NoDup_app. unfold without.
  rewrite filter_app, filter_cons_False by (by intros []).
  f_equal; apply without_notin; [|done]. intros H. apply (H1 _ H). by constructor.
Qed.

Lemma elem_of_without t x l : x ∈ without t l ↔ x ≠ t ∧ x ∈ l.
Proof. unfold without. by rewrite list_elem_of_filter. Qed.
