(* ===== verification/Buf.v ===== *)
(** * Byte buffers

    Packets, disk blocks and image files are arrays of bytes accessed at
    computed offsets and through structures laid over them. A buffer is the
    list of its bytes; an access that leaves the list is a fault. Structures
    are read field by field, little-endian, at the offsets the packed C
    declarations give them. *)

From S2P Require Import Prelude.

Notation buf := (list Z).

Definition blen (b : buf) : Z := Z.of_nat (length b).

(** The bytes [off .. off + n). *)
Definition sub_bytes (off n : Z) (b : buf) : option buf :=
  if (0 <=? off) && (0 <=? n) && (off + n <=? blen b)
  then Some (take (Z.to_nat n) (drop (Z.to_nat off) b)) else None.

(** [memcpy(b + off, bytes, length bytes)] *)
Definition splice (off : Z) (bytes : buf) (b : buf) : option buf :=
  if (0 <=? off) && (off + blen bytes <=? blen b)
  then Some (take (Z.to_nat off) b ++ bytes ++ drop (Z.to_nat off + length bytes) b) else None.

(** Little-endian integers. *)
Fixpoint le_of (n : nat) (v : Z) : buf :=
  match n with O => [] | S n => u8 v :: le_of n (v / 256) end.
Fixpoint le_val (b : buf) : Z :=
  match b with [] => 0 | x :: b => x + 256 * le_val b end.

Definition get_bytes (off n : Z) : M buf buf := λ b,
  match sub_bytes off n b with Some x => Some (x, b) | None => None end.
Definition put_bytes (off : Z) (bytes : buf) : M buf unit := λ b,
  match splice off bytes b with Some b' => Some (tt, b') | None => None end.

Definition b8 (off : Z) : M buf Z := x ← get_bytes off 1; ret (le_val x).
Definition b16 (off : Z) : M buf Z := x ← get_bytes off 2; ret (le_val x).
Definition b32 (off : Z) : M buf Z := x ← get_bytes off 4; ret (le_val x).
Definition w8 (off v : Z) : M buf unit := put_bytes off (le_of 1 v).
Definition w16 (off v : Z) : M buf unit := put_bytes off (le_of 2 v).
Definition w32 (off v : Z) : M buf unit := put_bytes off (le_of 4 v).

(** [memset(b + off, v, n)] *)
Definition fill_bytes (off v n : Z) : M buf unit := put_bytes off (replicate (Z.to_nat n) (u8 v)).

(** Reading a buffer that is not the one being built. *)
Definition peek {St A} (m : M buf A) (b : buf) : M St A := of_opt (fst <$> m b).

(* ------------------------------------------------------------------ *)
(** ** Lemmas *)

Definition bytes_ok (b : buf) : Prop := Forall is_u8 b.

Lemma blen_app a b : blen (a ++ b) = blen a + blen b.
Proof. unfold blen. rewrite length_app. lia. Qed.

Lemma blen_nonneg b : 0 <= blen b.
Proof. unfold blen. lia. Qed.

Lemma length_le_of n v : length (le_of n v) = n.
Proof. revert v. induction n as [|n IH]; intros v; simpl; [done|by rewrite IH]. Qed.

Lemma le_of_ok n v : bytes_ok (le_of n v).
Proof. revert v. induction n as [|n IH]; intros v; constructor; [apply u8_range|apply IH]. Qed.

Lemma le_val_of n v : 0 <= v < 256 ^ Z.of_nat n → le_val (le_of n v) = v.
Proof.
  revert v. induction n as [|n IH]; intros v Hv; [change (256 ^ Z.of_nat 0) with 1 in Hv; simpl; lia|].
  cbn [le_of le_val]. rewrite Nat2Z.inj_succ, Z.pow_succ_r in Hv by lia. rewrite IH by lia. ulia.
Qed.

Lemma le_val_bound b : bytes_ok b → 0 <= le_val b < 256 ^ Z.of_nat (length b).
Proof.
  induction 1 as [|x b Hx _ IH]; [done|]. cbn [le_val length].
  rewrite Nat2Z.inj_succ, Z.pow_succ_r by lia. ulia.
Qed.

Lemma le_of_val b : bytes_ok b → le_of (length b) (le_val b) = b.
Proof.
  induction 1 as [|x b Hx Hb IH]; [done|]. cbn [le_of le_val length]. f_equal; [ulia|].
  replace ((x + 256 * le_val b) / 256) with (le_val b) by ulia. done.
Qed.

Lemma sub_bytes_app a b c :
  sub_bytes (blen a) (blen b) (a ++ b ++ c) = Some b.
Proof.
  unfold sub_bytes. rewrite !blen_app. unfold blen. rewrite !Nat2Z.id.
  guard_true.
  by rewrite drop_app_length, take_app_length.
Qed.

Lemma splice_app a x b c :
  length x = length b → splice (blen a) x (a ++ b ++ c) = Some (a ++ x ++ c).
Proof.
  intros H. unfold splice. rewrite !blen_app. unfold blen. rewrite !Nat2Z.id, H.
  guard_true.
  rewrite take_app_length. do 3 f_equal.
  by rewrite app_assoc, <- length_app, drop_app_length.
Qed.

Lemma splice_length off x b b' : splice off x b = Some b' → length b' = length b.
Proof.
  unfold splice. intros H. case_match eqn:E; [|done]. autorewrite with kbool in E. injection H as <-.
  unfold blen in E. rewrite !length_app, length_take, length_drop. lia.
Qed.

Lemma sub_bytes_length off n b x : sub_bytes off n b = Some x → blen x = n.
Proof.
  unfold sub_bytes. intros H. case_match eqn:E; [|done]. autorewrite with kbool in E. injection H as <-.
  unfold blen in *. rewrite length_take, length_drop. lia.
Qed.

Lemma sub_bytes_inv off n b x :
  sub_bytes off n b = Some x → 0 <= off ∧ 0 <= n ∧ off + n <= blen b.
Proof. unfold sub_bytes. intros H. case_match eqn:E; [|done]. autorewrite with kbool in E. lia. Qed.

Lemma sub_bytes_is_Some off n b :
  0 <= off → 0 <= n → off + n <= blen b →
  sub_bytes off n b = Some (take (Z.to_nat n) (drop (Z.to_nat off) b)).
Proof. intros. unfold sub_bytes. by guard_true. Qed.

Lemma splice_inv off x b b' :
  splice off x b = Some b' → 0 <= off ∧ off + blen x <= blen b ∧
  b' = take (Z.to_nat off) b ++ x ++ drop (Z.to_nat off + length x) b.
Proof.
  unfold splice. intros H. case_match eqn:E; [|done]. autorewrite with kbool in E.
  injection H as <-. split_and!; [lia..|done].
Qed.

Lemma splice_is_Some off x b :
  0 <= off → off + blen x <= blen b →
  splice off x b = Some (take (Z.to_nat off) b ++ x ++ drop (Z.to_nat off + length x) b).
Proof. intros. unfold splice. by guard_true. Qed.

(** What was written is read back; other places are untouched. *)
Lemma sub_splice_same off x b b' :
  splice off x b = Some b' → sub_bytes off (blen x) b' = Some x.
Proof.
  intros H. pose proof (splice_length _ _ _ _ H) as L. unfold splice in H.
  case_match eqn:E; [|done]. autorewrite with kbool in E. injection H as <-. unfold blen in *.
  rewrite sub_bytes_is_Some; [|lia|lia|unfold blen; rewrite L; lia].
  rewrite drop_app_length' by (rewrite length_take; lia).
  by rewrite take_app_length' by lia.
Qed.

Lemma sub_splice_other off x b b' o n :
  splice off x b = Some b' → o + n <= off ∨ off + blen x <= o →
  sub_bytes o n b' = sub_bytes o n b.
Proof.
  intros H Ho. pose proof (splice_length _ _ _ _ H) as L. unfold splice in H.
  case_match eqn:E; [|done]. autorewrite with kbool in E. injection H as <-. unfold sub_bytes, blen in *. rewrite L.
  case_match eqn:E2; [|done]. autorewrite with kbool in E2. f_equal.
  apply list_eq. intros i. destruct (decide (i < Z.to_nat n)%nat) as [Hi|Hi].
  - rewrite !lookup_take_lt, !lookup_drop by lia. destruct Ho as [Ho|Ho].
    + rewrite lookup_app_l by (rewrite length_take; lia). by rewrite lookup_take_lt by lia.
    + rewrite lookup_app_r by (rewrite length_take; lia). rewrite length_take.
      rewrite lookup_app_r by lia. rewrite lookup_drop. f_equal. lia.
  - by rewrite !lookup_take_ge by lia.
Qed.

(* ------------------------------------------------------------------ *)
(** ** Buffers cut into fields

    A structure laid over a buffer cuts it into consecutive fields, given by
    their sizes; writing a field replaces one piece. *)

Definition cut (sizes : list nat) (segs : list buf) : Prop :=
  Forall2 (λ n s, length s = n) sizes segs.

Lemma cut_total sizes segs : cut sizes segs → length (concat segs) = sum_list sizes.
Proof. induction 1 as [|n s ns ss Hn _ IH]; [done|]. simpl. rewrite length_app. lia. Qed.

Lemma cut_take k sizes segs : cut sizes segs → cut (take k sizes) (take k segs).
Proof. apply Forall2_take. Qed.

Lemma cut_drop k sizes segs : cut sizes segs → cut (drop k sizes) (drop k segs).
Proof. apply Forall2_drop. Qed.

Lemma cut_exists sizes b : length b = sum_list sizes → ∃ segs, cut sizes segs ∧ concat segs = b.
Proof.
  revert b. induction sizes as [|n ns IH]; intros b Hb.
  - exists []. destruct b; [by split; [constructor|]|done].
  - simpl in Hb. destruct (IH (drop n b)) as (segs & Hc & Hb').
    { rewrite length_drop. lia. }
    exists (take n b :: segs). split; [constructor; [rewrite length_take; lia|done]|].
    simpl. by rewrite Hb', take_drop.
Qed.

Lemma concat_parts {A} k m (segs : list (list A)) :
  concat segs = concat (take k segs) ++ concat (take m (drop k segs)) ++ concat (drop m (drop k segs)).
Proof. by rewrite <- !concat_app, !take_drop. Qed.

Lemma splice_field sizes segs k x off :
  cut sizes segs → sizes !! k = Some (length x) → off = Z.of_nat (sum_list (take k sizes)) →
  splice off x (concat segs) = Some (concat (<[k := x]> segs)) ∧ cut sizes (<[k := x]> segs).
Proof.
  intros Hc Hk ->. destruct (Forall2_lookup_l _ _ _ _ _ Hc Hk) as (s & Hs & Hl). split.
  - rewrite <- (take_drop_middle segs k s Hs) at 1. rewrite <- (cut_total _ _ (cut_take k _ _ Hc)).
    rewrite insert_take_drop by (by eapply lookup_lt_Some). rewrite !concat_app. simpl.
    by apply splice_app.
  - rewrite <- (list_insert_id sizes k (length x) Hk). by apply Forall2_insert.
Qed.

Lemma wp_put_field sizes segs k x off (Q : unit → buf → Prop) :
  cut sizes segs → sizes !! k = Some (length x) → off = Z.of_nat (sum_list (take k sizes)) →
  (cut sizes (<[k := x]> segs) → Q tt (concat (<[k := x]> segs))) →
  wp (put_bytes off x) (concat segs) Q.
Proof.
  intros Hc Hk Ho HQ. destruct (splice_field _ _ _ _ _ Hc Hk Ho) as [E Hc'].
  unfold wp, put_bytes. rewrite E. auto.
Qed.

(** Reading [m] consecutive fields. *)
Lemma sub_fields sizes segs k m off n :
  cut sizes segs → off = Z.of_nat (sum_list (take k sizes)) →
  n = Z.of_nat (sum_list (take m (drop k sizes))) →
  sub_bytes off n (concat segs) = Some (concat (take m (drop k segs))).
Proof.
  intros Hc -> ->. rewrite (concat_parts k m segs).
  rewrite <- (cut_total _ _ (cut_take k _ _ Hc)).
  rewrite <- (cut_total _ _ (cut_take m _ _ (cut_drop k _ _ Hc))). apply sub_bytes_app.
Qed.

Lemma wp_get_bytes off n b x (Q : buf → buf → Prop) :
  sub_bytes off n b = Some x → Q x b → wp (get_bytes off n) b Q.
Proof. unfold wp, get_bytes. by intros ->. Qed.

Lemma wp_peek {St A} (m : M buf A) b (s : St) (Q : A → St → Prop) :
  wp m b (λ a _, Q a s) → wp (peek m b) s Q.
Proof. unfold wp, peek, of_opt. by destruct (m b) as [[a b']|]. Qed.

(** A slice of a slice. *)
Lemma sub_bytes_sub off n b x o m :
  sub_bytes off n b = Some x → 0 <= o → 0 <= m → o + m <= n →
  sub_bytes (off + o) m b = sub_bytes o m x.
Proof.
  intros H Ho Hm Hn. pose proof (sub_bytes_length _ _ _ _ H) as L. unfold sub_bytes in H.
  case_match eqn:E; [|done]. autorewrite with kbool in E. injection H as <-.
  rewrite !sub_bytes_is_Some by lia. f_equal.
  apply list_eq. intros i. destruct (decide (i < Z.to_nat m)%nat) as [Hi|Hi].
  - rewrite !lookup_take_lt, !lookup_drop, lookup_take_lt, lookup_drop by lia. f_equal. lia.
  - by rewrite !lookup_take_ge by lia.
Qed.

(** Consecutive slices. *)
Lemma sub_bytes_split b n m :
  0 <= n → 0 <= m → blen b = n + m →
  ∃ x y, sub_bytes 0 n b = Some x ∧ sub_bytes n m b = Some y ∧ b = x ++ y.
Proof.
  intros Hn Hm Hb. exists (take (Z.to_nat n) b), (drop (Z.to_nat n) b).
  rewrite !sub_bytes_is_Some by lia. split; [done|]. split; [|by rewrite take_drop].
  f_equal. apply take_ge. unfold blen in Hb. rewrite length_drop. lia.
Qed.

Lemma sub_bytes_ok off n b x : bytes_ok b → sub_bytes off n b = Some x → bytes_ok x.
Proof.
  intros Hb H. unfold sub_bytes in H. case_match; [|done]. injection H as <-.
  by apply Forall_take, Forall_drop.
Qed.

Lemma bytes_ok_check b : forallb (λ x, (0 <=? x) && (x <? 256)) b = true → bytes_ok b.
Proof.
  intros H. apply Forall_forall. intros x Hx. rewrite forallb_forall in H.
  apply list_elem_of_In in Hx. specialize (H x Hx). unfold is_u8. blia.
Qed.

(** One field. *)
Lemma sub_field sizes segs k off n x :
  cut sizes segs → segs !! k = Some x → off = Z.of_nat (sum_list (take k sizes)) → n = blen x →
  sub_bytes off n (concat segs) = Some x.
Proof.
  intros Hc Hk -> ->. destruct (Forall2_lookup_r _ _ _ _ _ Hc Hk) as (m & Hm & Hl).
  rewrite (sub_fields sizes segs k 1 _ _ Hc eq_refl).
  - rewrite (drop_S segs x k Hk). cbn [take concat]. by rewrite app_nil_r.
  - rewrite (drop_S sizes m k Hm). cbn [take]. simpl. unfold blen. lia.
Qed.

Lemma b8_at off b x : sub_bytes off 1 b = Some [x] → b8 off b = Some (x, b).
Proof. intros H. unfold b8, get_bytes, bind. rewrite H. cbn. by rewrite Z.mul_0_r, Z.add_0_r. Qed.

Lemma b16_at off b x : sub_bytes off 2 b = Some x → b16 off b = Some (le_val x, b).
Proof. intros H. unfold b16, get_bytes, bind. by rewrite H. Qed.

Lemma sub_bytes_byte off b : 0 <= off < blen b → ∃ x, sub_bytes off 1 b = Some [x].
Proof.
  intros H. destruct (lookup_lt_is_Some_2 b (Z.to_nat off)) as [x Hx]; [unfold blen in H; lia|].
  exists x. rewrite sub_bytes_is_Some by lia. by rewrite (drop_S b x) by done.
Qed.
