(* ===== verification/Range.v ===== *)
(** * Address ranges and alignment

    [kernel/include/utils/math.h] (the alignment helpers),
    [kernel/src/adt/range.c] (half-open address ranges),
    [kernel/include/adt/binary.h] ([GET_BITS]) and the queries over the
    firmware memory map of [kernel/src/mm/memory_map.c] and
    [kernel/include/mm/memory_map.h]. *)

From S2P Require Import Prelude.

(* ------------------------------------------------------------------ *)
(** ** Definitions *)

Definition MIN (a b : Z) : Z := if a <? b then a else b.
Definition MAX (a b : Z) : Z := if a >? b then a else b.

(** [uintptr_t] is 32 bits wide on i686. *)
Definition align_down (num jump_size : Z) : Z :=
  Z.land num (not32 (u32 (jump_size - 1))).
Definition align_up (num jump_size : Z) : Z :=
  align_down (u32 (num + jump_size - 1)) jump_size.
Definition is_aligned (num jump_size : Z) : bool :=
  Z.land num (u32 (jump_size - 1)) =? 0.

(** [GET_BITS(val, from, count)] extracts [count + 1] bits. *)
Definition GET_BITS (val from count : Z) : Z :=
  Z.land (Z.shiftr val from) (u32 (Z.shiftl 1 (count + 1) - 1)).

Record range_t := Range { start : Z; end_ : Z }.

Definition range_clamp (src boundry : range_t) : range_t :=
  Range (MAX (start src) (start boundry)) (MIN (end_ src) (end_ boundry)).

(** [block_size] is a [uint64_t] that is truncated at the call. *)
Definition range_align_outward (range : range_t) (block_size : Z) : range_t :=
  Range (align_down (start range) (u32 block_size))
        (align_up (end_ range) (u32 block_size)).
Definition range_align_inward (range : range_t) (block_size : Z) : range_t :=
  Range (align_up (start range) (u32 block_size))
        (align_down (end_ range) (u32 block_size)).
Definition in_range (addr : Z) (range : range_t) : bool :=
  (start range <=? addr) && (addr <? end_ range).

(** The firmware memory map. *)
Definition E820_USABLE : Z := 1.
Record memory_region_t := Region { r_start : Z; r_size : Z; r_type : Z }.

Definition get_memory_range_step (acc : Z * Z) (region : memory_region_t) : Z * Z :=
  let '(min_addr, max_addr) := acc in
  if negb (r_type region =? E820_USABLE) then acc
  else
    let region_end := u32 (r_start region + r_size region) in
    (if r_start region <? min_addr then u32 (r_start region) else min_addr,
     if region_end >? max_addr then region_end else max_addr).

Definition get_memory_range (regions : list memory_region_t) : range_t :=
  let '(min_addr, max_addr) :=
    foldl get_memory_range_step (u32 18446744073709551615, 0) regions in
  Range min_addr max_addr.

(** The fixed-capacity list of ranges. *)
Definition MAX_USED_RANGES : Z := 64.
Definition range_list_push (ranges : list range_t) (r : range_t) : list range_t :=
  if Z.of_nat (length ranges) <? MAX_USED_RANGES then ranges ++ [r] else ranges.

(* ------------------------------------------------------------------ *)
(** ** Alignment *)

Definition is_pow2 (j : Z) : Prop := ∃ k, 0 <= k < 32 ∧ j = 2 ^ k.

Lemma pow2_bound k : 0 <= k < 32 → 0 < 2 ^ k <= 2147483648.
Proof.
  intros H. split; [apply Z.pow_pos_nonneg; lia|].
  change 2147483648 with (2 ^ 31). apply Z.pow_le_mono_r; lia.
Qed.

Lemma pow2_divides_word k : 0 <= k < 32 → 4294967296 = 2 ^ (32 - k) * 2 ^ k.
Proof.
  intros H. rewrite <- Z.pow_add_r by lia.
  replace (32 - k + k) with 32 by lia. done.
Qed.

Lemma align_mask k : 0 <= k < 32 → not32 (u32 (2 ^ k - 1)) = Z.ones (32 - k) * 2 ^ k.
Proof.
  intros H. pose proof (pow2_bound k H). pose proof (pow2_divides_word k H).
  rewrite u32_small by ulia. unfold not32. rewrite Z.ones_equiv. nia.
Qed.

Lemma align_down_mod num j :
  is_u32 num → is_pow2 j → align_down num j = num - num mod j.
Proof.
  intros Hn (k & Hk & ->). pose proof (pow2_bound k Hk) as Hb.
  pose proof (pow2_divides_word k Hk) as Hw.
  unfold align_down. rewrite align_mask by done.
  rewrite <- Z.shiftl_mul_pow2 by lia.
  rewrite <- (Z.land_ones (num) k) by lia.
  apply Z.bits_inj'. intros i Hi.
  assert (num - Z.land num (Z.ones k) = Z.ldiff num (Z.ones k)) as ->.
  { rewrite Z.sub_nocarry_ldiff.
    - apply Z.bits_inj'. intros n Hn'. rewrite !Z.ldiff_spec, Z.land_spec.
      by destruct (Z.testbit num n), (Z.testbit (Z.ones k) n).
    - apply Z.bits_inj'. intros n Hn'. rewrite Z.ldiff_spec, Z.land_spec, Z.bits_0.
      by destruct (Z.testbit num n), (Z.testbit (Z.ones k) n). }
  rewrite Z.land_spec, Z.ldiff_spec, Z.shiftl_spec by lia.
  destruct (decide (i < k)).
  - rewrite (Z.testbit_neg_r _ (i - k)) by lia. rewrite Z.ones_spec_low by lia. by rewrite !andb_false_r.
  - rewrite (Z.ones_spec_high k) by lia. destruct (decide (i < 32)).
    + rewrite Z.ones_spec_low by lia. done.
    + rewrite (Z.bits_above_log2 num i); [done|ulia|].
      destruct (decide (num = 0)) as [->|]; [simpl; lia|].
      apply Z.log2_lt_pow2; [ulia|]. apply Z.lt_le_trans with (2 ^ 32); [ulia|].
      apply Z.pow_le_mono_r; lia.
Qed.

Lemma is_aligned_mod num j :
  is_pow2 j → is_aligned num j = (num mod j =? 0).
Proof.
  intros (k & Hk & ->). pose proof (pow2_bound k Hk).
  unfold is_aligned. rewrite u32_small by ulia.
  replace (2 ^ k - 1) with (Z.ones k) by (rewrite Z.ones_equiv; lia).
  by rewrite Z.land_ones by lia.
Qed.

(** Rounding down gives the greatest multiple below. *)
Lemma align_down_spec num j :
  is_u32 num → is_pow2 j →
  align_down num j mod j = 0 ∧ align_down num j <= num < align_down num j + j.
Proof.
  intros Hn Hj. rewrite align_down_mod by done.
  destruct Hj as (k & Hk & ->). pose proof (pow2_bound k Hk).
  pose proof (Z.mod_pos_bound num (2 ^ k) ltac:(lia)).
  split; [|lia]. rewrite Zminus_mod_idemp_r, Z.sub_diag. apply Z.mod_0_l. lia.
Qed.

Lemma align_up_mod num j :
  is_u32 num → is_pow2 j → num + j - 1 < 4294967296 →
  align_up num j mod j = 0 ∧ num <= align_up num j < num + j.
Proof.
  intros Hn Hj Hov. unfold align_up.
  assert (0 < j) by (destruct Hj as (k & Hk & ->); pose proof (pow2_bound k Hk); lia).
  rewrite u32_small by ulia.
  pose proof (align_down_spec (num + j - 1) j ltac:(ulia) Hj). lia.
Qed.

(** Rounding up past the top of the address space wraps to zero. *)
Lemma align_up_wraps num j :
  is_u32 num → is_pow2 j → 4294967296 <= num + j - 1 → align_up num j = 0.
Proof.
  intros Hn Hj Hov. unfold align_up.
  assert (0 < j <= 2147483648) by (destruct Hj as (k & Hk & ->); apply (pow2_bound k Hk)).
  replace (u32 (num + j - 1)) with (num + j - 1 - 4294967296) by ulia.
  rewrite align_down_mod; [|ulia|done]. rewrite Z.mod_small; ulia.
Qed.

Lemma align_down_range num j : is_u32 num → is_pow2 j → is_u32 (align_down num j).
Proof.
  intros Hn Hj. rewrite align_down_mod by done.
  destruct Hj as (k & Hk & ->). pose proof (pow2_bound k Hk).
  pose proof (Z.mod_pos_bound num (2 ^ k) ltac:(lia)).
  pose proof (Z.mod_le num (2 ^ k) ltac:(ulia) ltac:(lia)). ulia.
Qed.

Lemma is_pow2_4096 : is_pow2 4096.
Proof. exists 12. done. Qed.
#[export] Hint Resolve is_pow2_4096 : kint.

(* ------------------------------------------------------------------ *)
(** ** Ranges *)

Definition range_ok (r : range_t) : Prop := is_u32 (start r) ∧ is_u32 (end_ r).

Lemma in_range_iff a r : in_range a r = true ↔ start r <= a < end_ r.
Proof. unfold in_range. lia. Qed.

(** Clamping is intersection. *)
Lemma range_clamp_in a r b :
  in_range a (range_clamp r b) = in_range a r && in_range a b.
Proof.
  unfold range_clamp, in_range, MIN, MAX; simpl.
  destruct (Z.gtb_spec (start r) (start b)), (Z.ltb_spec (end_ r) (end_ b)); lia.
Qed.

(** growing a range to block boundaries keeps every address of it, and
    shrinking adds none; both results are block aligned. The precondition on
    the top excludes exactly the wrap-around of [align_up]. *)
Theorem range_align_sound r b a :
  range_ok r → is_pow2 b → start r + b <= 4294967296 → end_ r + b <= 4294967296 →
  (in_range a r = true → in_range a (range_align_outward r b) = true) ∧
  (in_range a (range_align_inward r b) = true → in_range a r = true) ∧
  is_aligned (start (range_align_outward r b)) b = true ∧
  is_aligned (end_ (range_align_outward r b)) b = true ∧
  is_aligned (start (range_align_inward r b)) b = true ∧
  is_aligned (end_ (range_align_inward r b)) b = true.
Proof.
  intros [Hs He] Hb H1 H2.
  assert (is_u32 b) by (destruct Hb as (k & Hk & ->); pose proof (pow2_bound k Hk); unfold is_u32 in *; lia).
  unfold range_align_outward, range_align_inward. rewrite u32_small by done. simpl.
  destruct (align_down_spec _ b Hs Hb) as [D1 ?], (align_down_spec _ b He Hb) as [D2 ?].
  destruct (align_up_mod _ b Hs Hb ltac:(lia)) as [U1 ?].
  destruct (align_up_mod _ b He Hb ltac:(lia)) as [U2 ?].
  rewrite !in_range_iff, !is_aligned_mod, D1, D2, U1, U2 by done. clear D1 D2 U1 U2.
  simpl. lia.
Qed.

Lemma range_align_sound_witness :
  range_ok (Range 4097 8193) ∧ in_range 8192 (range_align_outward (Range 4097 8193) 4096) = true.
Proof.
  assert (range_ok (Range 4097 8193)) as H by (unfold range_ok; simpl; unfold is_u32 in *; lia).
  split; [exact H|].
  destruct (range_align_sound (Range 4097 8193) 4096 8192 H is_pow2_4096) as [Hout _];
    [simpl; lia|simpl; lia|apply Hout; reflexivity].
Defined.

(* ------------------------------------------------------------------ *)
(** ** The memory map *)

(** A region that ends below the top of the 32-bit space. *)
Definition region_ok (r : memory_region_t) : Prop :=
  0 <= r_start r ∧ 0 <= r_size r ∧ r_start r + r_size r < 4294967296.
Definition usable (r : memory_region_t) : Prop := r_type r = E820_USABLE.

Lemma get_memory_range_fold rs lo hi :
  Forall region_ok rs → is_u32 lo → is_u32 hi →
  let '(lo', hi') := foldl get_memory_range_step (lo, hi) rs in
  lo' <= lo ∧ hi <= hi' ∧ is_u32 lo' ∧ is_u32 hi' ∧
  (∀ r, r ∈ rs → usable r → lo' <= r_start r ∧ r_start r + r_size r <= hi') ∧
  (lo' = lo ∨ ∃ r, r ∈ rs ∧ usable r ∧ lo' = r_start r) ∧
  (hi' = hi ∨ ∃ r, r ∈ rs ∧ usable r ∧ hi' = r_start r + r_size r).
Proof.
  revert lo hi. induction rs as [|r rs IH]; intros lo hi Hok Hlo Hhi; simpl.
  { split_and!; [lia|lia|done|done| |by left|by left]. intros r Hr. by apply not_elem_of_nil in Hr. }
  inversion_clear Hok as [|? ? (H1 & H2 & H3) Hrs].
  destruct (Z.eqb_spec (r_type r) E820_USABLE) as [Hu|Hu]; simpl.
  - rewrite (u32_small (r_start r + r_size r)) by ulia.
    rewrite (u32_small (r_start r)) by ulia.
    set (lo1 := if r_start r <? lo then _ else lo).
    set (hi1 := if _ >? hi then _ else hi).
    assert (is_u32 lo1 ∧ lo1 <= lo ∧ lo1 <= r_start r ∧ (lo1 = lo ∨ lo1 = r_start r))
      as (L1 & L2 & L3 & L4) by (subst lo1; destruct (Z.ltb_spec (r_start r) lo); ulia).
    assert (is_u32 hi1 ∧ hi <= hi1 ∧ r_start r + r_size r <= hi1 ∧
            (hi1 = hi ∨ hi1 = r_start r + r_size r)) as (G1 & G2 & G3 & G4)
      by (subst hi1; destruct (Z.gtb_spec (r_start r + r_size r) hi); ulia).
    specialize (IH lo1 hi1 Hrs L1 G1). clearbody lo1 hi1.
    destruct (foldl _ _ _) as [lo' hi']. destruct IH as (A & B & C & D & E & F & G).
    split_and!; try done; try lia.
    + intros r' [->|Hr']%elem_of_cons ?; [lia|by apply E].
    + destruct F as [->|(r' & ? & ? & ->)]; [|right; exists r'; split; [by constructor|done]].
      destruct L4 as [->| ->]; [by left|right; exists r; split; [by constructor|done]].
    + destruct G as [->|(r' & ? & ? & ->)]; [|right; exists r'; split; [by constructor|done]].
      destruct G4 as [->| ->]; [by left|right; exists r; split; [by constructor|done]].
  - specialize (IH lo hi Hrs Hlo Hhi).
    destruct (foldl _ _ _) as [lo' hi']. destruct IH as (A & B & C & D & E & F & G).
    split_and!; try done.
    + intros r' [->|Hr']%elem_of_cons ?; [done|by apply E].
    + destruct F as [->|(r' & ? & ? & ->)]; [by left|right; exists r'; split; [by constructor|done]].
    + destruct G as [->|(r' & ? & ? & ->)]; [by left|right; exists r'; split; [by constructor|done]].
Qed.

(** for a memory map below 4 GiB with a usable region, the computed range
    spans every usable region and both its ends are ends of usable regions. *)
Theorem get_memory_range_spans rs r0 :
  Forall region_ok rs → r0 ∈ rs → usable r0 → 0 < r_size r0 →
  let m := get_memory_range rs in
  (∀ r, r ∈ rs → usable r → start m <= r_start r ∧ r_start r + r_size r <= end_ m) ∧
  (∃ r, r ∈ rs ∧ usable r ∧ start m = r_start r) ∧
  (∃ r, r ∈ rs ∧ usable r ∧ end_ m = r_start r + r_size r).
Proof.
  intros Hok Hin Hu Hsz. unfold get_memory_range.
  pose proof (get_memory_range_fold rs (u32 18446744073709551615) 0 Hok
                ltac:(ulia) ltac:(ulia)) as H.
  destruct (foldl _ _ _) as [lo hi]. destruct H as (A & B & C & D & E & F & G). simpl.
  assert (region_ok r0) as (? & ? & ?) by (by eapply list.Forall_forall in Hok; [|exact Hin]).
  pose proof (E r0 Hin Hu). split_and!; [done| |].
  - destruct F as [->|F]; [ulia|exact F].
  - destruct G as [->|G]; [lia|exact G].
Qed.

Lemma get_memory_range_spans_witness :
  let rs := [Region 0 654336 1; Region 983040 65536 2; Region 1048576 133038080 1] in
  Forall region_ok rs ∧ start (get_memory_range rs) = 0 ∧
  end_ (get_memory_range rs) = 134086656 ∧
  ∃ r, r ∈ rs ∧ usable r ∧ end_ (get_memory_range rs) = r_start r + r_size r.
Proof.
  intros rs. assert (Forall region_ok rs) as H
    by (subst rs; repeat constructor; simpl; unfold region_ok; simpl; lia).
  split; [exact H|]. split; [reflexivity|]. split; [reflexivity|].
  destruct (get_memory_range_spans rs (Region 0 654336 1) H) as (_ & _ & ?);
    [subst rs; apply elem_of_cons; left; reflexivity|reflexivity|simpl; lia|assumption].
Defined.

Lemma range_list_push_length l r :
  Z.of_nat (length l) <= MAX_USED_RANGES →
  Z.of_nat (length (range_list_push l r)) <= MAX_USED_RANGES.
Proof.
  unfold range_list_push. destruct (Z.ltb_spec (Z.of_nat (length l)) MAX_USED_RANGES); [|done].
  intros _. rewrite length_app. simpl. lia.
Qed.
