(* ===== verification/Bitmap.v ===== *)
(** * Byte-array bitmaps

    [kernel/include/adt/bitmap.h]. A bitmap is an array of bytes; bit [i]
    is bit [i mod 8] of byte [i / 8]. The specification of every primitive
    is given in terms of the boolean function [bit]. *)

From S2P Require Import Prelude.

(* ------------------------------------------------------------------ *)
(** ** Definitions *)

Definition bitmap_set (bit : Z) : M (arr Z) unit :=
  b ← ld (bit / 8); st (bit / 8) (u8 (Z.lor b (Z.shiftl 1 (bit mod 8)))).

Definition bitmap_clear (bit : Z) : M (arr Z) unit :=
  b ← ld (bit / 8); st (bit / 8) (u8 (Z.land b (Z.lnot (Z.shiftl 1 (bit mod 8))))).

(** [bool] is an integer type here; the callers only test it against zero. *)
Definition bitmap_test (bit : Z) : M (arr Z) bool :=
  b ← ld (bit / 8); ret (negb (Z.land b (Z.shiftl 1 (bit mod 8)) =? 0)).

Definition bitmap_set_range (lo hi : Z) : M (arr Z) unit := for_range lo hi bitmap_set.
Definition bitmap_clear_range (lo hi : Z) : M (arr Z) unit := for_range lo hi bitmap_clear.

Definition UINT64_MAX : Z := 18446744073709551615.

Definition bitmap_find_first_clear (size : Z) : M (arr Z) Z :=
  r ← scan_range 0 size (λ i, t ← bitmap_test i;
                              ret (if t then None else Some i));
  ret (default UINT64_MAX r).

Definition bitmap_fill (size_bytes value : Z) : M (arr Z) unit :=
  amemset value size_bytes.

(* ------------------------------------------------------------------ *)
(** ** Specification *)

Definition bit (bm : arr Z) (i : Z) : bool := Z.testbit (aat bm (i / 8)) (i mod 8).

Definition bytes_ok (bm : arr Z) : Prop := ∀ i, is_u8 (aat bm i).

(** [bm'] is [bm] with bit [i] set to [v]. *)
Record bit_upd (bm : arr Z) (i : Z) (v : bool) (bm' : arr Z) : Prop := {
  bu_len : alen bm' = alen bm;
  bu_bytes : bytes_ok bm → bytes_ok bm';
  bu_bit : ∀ j, 0 <= j → bit bm' j = if decide (j = i) then v else bit bm j
}.

Lemma land_pow2_testbit b k : 0 <= k → negb (Z.land b (Z.shiftl 1 k) =? 0) = Z.testbit b k.
Proof.
  intros Hk. rewrite Z.shiftl_1_l. destruct (Z.testbit b k) eqn:E.
  - apply negb_true_iff, Z.eqb_neq. intros H.
    apply (f_equal (λ z, Z.testbit z k)) in H.
    by rewrite Z.land_spec, E, Z.pow2_bits_true, Z.bits_0 in H by lia.
  - apply negb_false_iff, Z.eqb_eq. apply Z.bits_inj'. intros n Hn.
    rewrite Z.land_spec, Z.bits_0, Z.pow2_bits_eqb by lia.
    destruct (Z.eqb_spec k n) as [<-|]; [by rewrite E|by rewrite andb_false_r].
Qed.

Lemma u8_testbit z k : 0 <= k < 8 → Z.testbit (u8 z) k = Z.testbit z k.
Proof. intros H. unfold u8. change 256 with (2 ^ 8). apply Z.mod_pow2_bits_low. lia. Qed.

Lemma testbit_lor_pow2 b k n :
  0 <= k → 0 <= n →
  Z.testbit (Z.lor b (Z.shiftl 1 k)) n = if decide (n = k) then true else Z.testbit b n.
Proof.
  intros Hk Hn. rewrite Z.shiftl_1_l, Z.lor_spec, Z.pow2_bits_eqb by lia.
  case_decide as Hd.
  - rewrite (proj2 (Z.eqb_eq k n)) by lia. apply orb_true_r.
  - rewrite (proj2 (Z.eqb_neq k n)) by lia. apply orb_false_r.
Qed.

Lemma testbit_ldiff_pow2 b k n :
  0 <= k → 0 <= n →
  Z.testbit (Z.land b (Z.lnot (Z.shiftl 1 k))) n =
  if decide (n = k) then false else Z.testbit b n.
Proof.
  intros Hk Hn. rewrite Z.shiftl_1_l, Z.land_spec, Z.lnot_spec, Z.pow2_bits_eqb by lia.
  case_decide as Hd.
  - rewrite (proj2 (Z.eqb_eq k n)) by lia. apply andb_false_r.
  - rewrite (proj2 (Z.eqb_neq k n)) by lia. apply andb_true_r.
Qed.

(** Rewriting one byte so that exactly one of its bits changes. *)
Lemma bit_upd_byte bm i v b' :
  0 <= i →
  (∀ n, 0 <= n < 8 →
     Z.testbit b' n = if decide (n = i mod 8) then v else Z.testbit (aat bm (i / 8)) n) →
  is_u8 b' → bit_upd bm i v (aput bm (i / 8) b').
Proof.
  intros Hi Hb Hu. split; [done| |].
  - intros Hok j. rewrite aat_aput. case_decide; [done|apply Hok].
  - intros j Hj. unfold bit. rewrite aat_aput. destruct (decide (i / 8 = j / 8)) as [He|He].
    + rewrite Hb, He by (apply Z.mod_pos_bound; lia).
      destruct (decide (j mod 8 = i mod 8)), (decide (j = i)); (done || lia).
    + rewrite decide_False; [done|]. intros ->. done.
Qed.

Section primitives.
Context (bm : arr Z) (i : Z) (Hi : 0 <= i < 8 * alen bm).

Lemma wp_bitmap_test (Q : bool → arr Z → Prop) :
  Q (bit bm i) bm → wp (bitmap_test i) bm Q.
Proof.
  intros HQ. unfold bitmap_test. wp_step. apply wp_ld; [lia|]. wp_step.
  rewrite land_pow2_testbit by lia. done.
Qed.

Lemma wp_bitmap_set (Q : unit → arr Z → Prop) :
  (∀ bm', bit_upd bm i true bm' → Q tt bm') → wp (bitmap_set i) bm Q.
Proof.
  intros HQ. unfold bitmap_set. wp_step. apply wp_ld; [lia|]. apply wp_st; [lia|].
  apply HQ, bit_upd_byte; [lia| |apply u8_range].
  intros n Hn. rewrite u8_testbit by done. apply testbit_lor_pow2; lia.
Qed.

Lemma wp_bitmap_clear (Q : unit → arr Z → Prop) :
  (∀ bm', bit_upd bm i false bm' → Q tt bm') → wp (bitmap_clear i) bm Q.
Proof.
  intros HQ. unfold bitmap_clear. wp_step. apply wp_ld; [lia|]. apply wp_st; [lia|].
  apply HQ, bit_upd_byte; [lia| |apply u8_range].
  intros n Hn. rewrite u8_testbit by done. apply testbit_ldiff_pow2; lia.
Qed.
End primitives.

(** The range loops set (clear) exactly the bits of the half-open range. *)
Lemma wp_bitmap_range v op bm lo hi :
  (∀ b i (Q : unit → arr Z → Prop), 0 <= i < 8 * alen b →
     (∀ b', bit_upd b i v b' → Q tt b') → wp (op i) b Q) →
  0 <= lo → hi <= 8 * alen bm →
  wp (for_range lo hi op) bm (λ _ bm', alen bm' = alen bm ∧ (bytes_ok bm → bytes_ok bm') ∧
    ∀ j, 0 <= j → bit bm' j = if decide (lo <= j < hi) then v else bit bm j).
Proof.
  intros Hop Hlo Hhi. eapply wp_mono; [
    apply (wp_for_range (λ i bm', alen bm' = alen bm ∧ (bytes_ok bm → bytes_ok bm') ∧
      ∀ j, 0 <= j → bit bm' j = if decide (lo <= j < i) then v else bit bm j))|].
  - split_and!; [done|done|]. intros j ?. rewrite decide_False; [done|lia].
  - intros i b Hi (Hl & Hok & Hb). apply Hop; [lia|]. intros b' [L O B].
    split_and!; [lia|by auto|]. intros j Hj. rewrite B, Hb by done.
    repeat case_decide; (done || lia).
  - intros [] b (Hl & Hok & Hb). split_and!; [done|done|]. intros j Hj. rewrite Hb by done.
    repeat case_decide; (done || lia).
Qed.

Lemma wp_bitmap_set_range bm lo hi :
  0 <= lo → hi <= 8 * alen bm →
  wp (bitmap_set_range lo hi) bm (λ _ bm', alen bm' = alen bm ∧ (bytes_ok bm → bytes_ok bm') ∧
    ∀ j, 0 <= j → bit bm' j = if decide (lo <= j < hi) then true else bit bm j).
Proof. apply wp_bitmap_range. intros. by apply wp_bitmap_set. Qed.

Lemma wp_bitmap_clear_range bm lo hi :
  0 <= lo → hi <= 8 * alen bm →
  wp (bitmap_clear_range lo hi) bm (λ _ bm', alen bm' = alen bm ∧ (bytes_ok bm → bytes_ok bm') ∧
    ∀ j, 0 <= j → bit bm' j = if decide (lo <= j < hi) then false else bit bm j).
Proof. apply wp_bitmap_range. intros. by apply wp_bitmap_clear. Qed.

(** Within its bounds a bitmap behaves as a set of bit indices: the range
    operations set and clear exactly their range, and the search returns the
    least clear bit below [size], or [UINT64_MAX] when there is none. No
    access leaves the array. *)
Theorem bitmap_ops_spec bm lo hi size :
  0 <= lo → hi <= 8 * alen bm → 0 <= size <= 8 * alen bm →
  wp (bitmap_set_range lo hi) bm (λ _ bm',
    ∀ j, 0 <= j → bit bm' j = if decide (lo <= j < hi) then true else bit bm j) ∧
  wp (bitmap_clear_range lo hi) bm (λ _ bm',
    ∀ j, 0 <= j → bit bm' j = if decide (lo <= j < hi) then false else bit bm j) ∧
  wp (bitmap_find_first_clear size) bm (λ r bm', bm' = bm ∧
    ((0 <= r < size ∧ bit bm r = false ∧ ∀ j, 0 <= j < r → bit bm j = true) ∨
     (r = UINT64_MAX ∧ ∀ j, 0 <= j < size → bit bm j = true))).
Proof.
  intros Hlo Hhi Hsz. split_and!.
  - eapply wp_mono; [by apply wp_bitmap_set_range|]. by intros ? ? (? & ? & ?).
  - eapply wp_mono; [by apply wp_bitmap_clear_range|]. by intros ? ? (? & ? & ?).
  - unfold bitmap_find_first_clear. wp_step.
    apply (wp_scan_range (λ i b, b = bm ∧ ∀ j, 0 <= j < i → bit bm j = true)).
    + split; [done|]. intros; lia.
    + intros i b Hi [-> Hb]. wp_step. apply wp_bitmap_test; [lia|]. wp_step.
      destruct (bit bm i) eqn:E; simpl.
      * split; [done|]. intros j ?. destruct (decide (j = i)) as [->|]; [done|apply Hb; lia].
      * wp_step. simpl. eauto with lia.
    + intros b [-> Hb]. wp_step. simpl. split; [done|]. right. split; [done|].
      intros j ?. apply Hb. lia.
Qed.

Lemma bitmap_ops_spec_witness :
  wp (bitmap_set_range 3 12) (mk_arr 4 0) (λ _ bm', bit bm' 11 = true ∧ bit bm' 12 = false).
Proof.
  destruct (bitmap_ops_spec (mk_arr 4 0) 3 12 8) as (H & _ & _); [lia|simpl; lia|simpl; lia|].
  eapply wp_mono; [exact H|]. intros ? ? Hb. rewrite !Hb by lia. split; reflexivity.
Defined.
