(* ===== verification/Ring.v ===== *)
(** * The circular buffer

    [kernel/src/adt/circular_buffer.c]: a fixed-capacity ring of pointers
    used for keyboard and terminal input. The abstract specification is a
    bounded queue, a plain list, and each operation is shown to implement
    its list counterpart. *)

From S2P Require Import Prelude.

(* ------------------------------------------------------------------ *)
(** ** Definitions *)

Definition QUEUE_SIZE : Z := 256.
Definition NULL : Z := 0.

Record circular_buff_t := CB {
  data : arr Z;   (** element storage *)
  head : Z;       (** next write index *)
  tail : Z;       (** next read index *)
  count : Z       (** current number of elements *)
}.

Definition set_data (d : arr Z) (cb : circular_buff_t) : circular_buff_t :=
  CB d (head cb) (tail cb) (count cb).

Definition circular_buff_init : M circular_buff_t unit :=
  modify (λ cb, CB (data cb) 0 0 0).

Definition circular_buff_is_empty (cb : circular_buff_t) : bool := count cb =? 0.
Definition circular_buff_is_full (cb : circular_buff_t) : bool := count cb =? QUEUE_SIZE.

Definition circular_buff_enqueue (val : Z) : M circular_buff_t unit :=
  full ← gets circular_buff_is_full;
  if full then ret tt
  else
    h ← gets head;
    zoom data set_data (st h val) ;;
    modify (λ cb, CB (data cb) ((head cb + 1) mod QUEUE_SIZE) (tail cb) (count cb)) ;;
    modify (λ cb, CB (data cb) (head cb) (tail cb) (count cb + 1)).

Definition circular_buff_dequeue : M circular_buff_t Z :=
  empty ← gets circular_buff_is_empty;
  if empty then ret NULL
  else
    t ← gets tail;
    val ← zoom data set_data (ld t);
    modify (λ cb, CB (data cb) (head cb) ((tail cb + 1) mod QUEUE_SIZE) (count cb)) ;;
    modify (λ cb, CB (data cb) (head cb) (tail cb) (count cb - 1)) ;;
    ret val.

Definition circular_buff_dequeue_last : M circular_buff_t bool :=
  c ← gets count;
  if c =? 0 then ret false
  else
    modify (λ cb, CB (data cb) (if head cb =? 0 then QUEUE_SIZE - 1 else head cb - 1)
                     (tail cb) (count cb)) ;;
    modify (λ cb, CB (data cb) (head cb) (tail cb) (count cb - 1)) ;;
    ret true.

(* ------------------------------------------------------------------ *)
(** ** The abstract queue *)

Definition slot (cb : circular_buff_t) (k : nat) : Z :=
  aat (data cb) ((tail cb + Z.of_nat k) mod QUEUE_SIZE).

(** The queued elements, oldest first. *)
Definition contents (cb : circular_buff_t) : list Z :=
  slot cb <$> seq 0 (Z.to_nat (count cb)).

Record cb_inv (cb : circular_buff_t) : Prop := {
  ci_len : alen (data cb) = QUEUE_SIZE;
  ci_head : head cb = (tail cb + count cb) mod QUEUE_SIZE;
  ci_tail : 0 <= tail cb < QUEUE_SIZE;
  ci_count : 0 <= count cb <= QUEUE_SIZE
}.

Lemma contents_length cb : length (contents cb) = Z.to_nat (count cb).
Proof. unfold contents. by rewrite length_fmap, length_seq. Qed.

Lemma contents_ext cb cb' n :
  Z.to_nat (count cb') = n → (∀ k, (k < n)%nat → slot cb' k = slot cb k) →
  contents cb' = slot cb <$> seq 0 n.
Proof.
  intros <- H. unfold contents. apply list_fmap_ext. intros i k Hk.
  apply lookup_seq in Hk as [-> ?]. apply H. lia.
Qed.

Lemma contents_snoc cb :
  0 < count cb → contents cb = (slot cb <$> seq 0 (Z.to_nat (count cb - 1))) ++
                               [slot cb (Z.to_nat (count cb - 1))].
Proof.
  intros H. unfold contents.
  replace (Z.to_nat (count cb)) with (S (Z.to_nat (count cb - 1))) by lia.
  by rewrite seq_S, fmap_app.
Qed.

Lemma contents_cons cb :
  0 < count cb →
  contents cb = slot cb 0 :: (slot cb ∘ S <$> seq 0 (Z.to_nat (count cb - 1))).
Proof.
  intros H. unfold contents.
  replace (Z.to_nat (count cb)) with (S (Z.to_nat (count cb - 1))) by lia.
  simpl. f_equal. rewrite <- fmap_S_seq, <- list_fmap_compose. done.
Qed.

(** On a well-formed ring, enqueue appends to the abstract queue (and
    drops the value, changing nothing, when 256 elements are queued); the
    invariant is kept and no access leaves the array. *)
Theorem circular_buff_enqueue_refines cb v :
  cb_inv cb →
  wp (circular_buff_enqueue v) cb (λ _ cb', cb_inv cb' ∧
    contents cb' = if decide (length (contents cb) = Z.to_nat QUEUE_SIZE)
                   then contents cb else contents cb ++ [v]).
Proof.
  intros [L H T C]. unfold circular_buff_enqueue, circular_buff_is_full. wp_step.
  wp_step. rewrite contents_length. unfold QUEUE_SIZE in *.
  wp_step; [wp_step|].
  - rewrite decide_True by lia. done.
  - rewrite decide_False by lia. wp_step. wp_step. wp_step. wp_step.
    apply wp_st; [rewrite L, H; lia|]. wp_steps.
    split; [split; simpl; unfold QUEUE_SIZE; [done|lia|lia|lia]|].
    rewrite contents_snoc; simpl; [|lia]. f_equal.
    + symmetry. apply contents_ext; simpl; [lia|]. intros k Hk. unfold slot; simpl.
      rewrite aat_aput_ne; [done|]. rewrite H. unfold QUEUE_SIZE. lia.
    + unfold slot; simpl. f_equal. rewrite H. unfold QUEUE_SIZE.
      replace (tail cb + Z.of_nat (Z.to_nat (count cb + 1 - 1))) with (tail cb + count cb) by lia.
      apply aat_aput_eq.
Qed.

Definition cb_empty : circular_buff_t := CB (mk_arr QUEUE_SIZE 0) 0 0 0.
Lemma cb_empty_inv : cb_inv cb_empty.
Proof. split; unfold QUEUE_SIZE; simpl; try done; lia. Qed.

Lemma circular_buff_enqueue_refines_witness :
  cb_inv cb_empty ∧ wp (circular_buff_enqueue 7) cb_empty (λ _ cb', contents cb' = [7]).
Proof.
  split; [exact cb_empty_inv|].
  eapply wp_mono; [apply (circular_buff_enqueue_refines cb_empty 7 cb_empty_inv)|].
  intros ? ? [_ ->]. reflexivity.
Defined.

(** On a well-formed ring, dequeue returns and removes the oldest element,
    or returns [NULL] on an empty ring; dropping the last element removes the
    most recent one and reports whether there was one. *)
Theorem circular_buff_dequeue_refines cb :
  cb_inv cb →
  wp circular_buff_dequeue cb (λ r cb', cb_inv cb' ∧
    match contents cb with
    | [] => r = NULL ∧ contents cb' = []
    | x :: q => r = x ∧ contents cb' = q
    end) ∧
  wp circular_buff_dequeue_last cb (λ r cb', cb_inv cb' ∧
    r = bool_decide (contents cb ≠ []) ∧
    contents cb' = take (length (contents cb) - 1) (contents cb)).
Proof.
  intros [L H T C]. unfold QUEUE_SIZE in *. split.
  - unfold circular_buff_dequeue, circular_buff_is_empty. wp_step. wp_step.
    wp_step; wp_step.
    + assert (contents cb = []) as -> by (unfold contents; by replace (count cb) with 0 by lia).
      split; [done|]. split; [done|]. unfold contents. by replace (count cb) with 0 by lia.
    + wp_step. wp_step. wp_step. apply wp_ld; [lia|]. wp_steps.
      rewrite contents_cons by lia.
      split; [split; simpl; unfold QUEUE_SIZE; [done|lia|lia|lia]|].
      split; [unfold slot; f_equal; unfold QUEUE_SIZE; lia|].
      unfold contents. simpl. apply list_fmap_ext. intros i k _. unfold slot; simpl.
      f_equal. unfold QUEUE_SIZE. lia.
  - unfold circular_buff_dequeue_last. wp_step. wp_step. wp_step; [wp_step|wp_steps].
    + assert (contents cb = []) as -> by (unfold contents; by replace (count cb) with 0 by lia).
      done.
    + rewrite contents_snoc by lia.
      split; [split; simpl; unfold QUEUE_SIZE; [done| |lia|lia]|].
      { destruct (Z.eqb_spec (head cb) 0); lia. }
      split; [symmetry; apply bool_decide_eq_true_2; by intros [_ ?]%app_nil|].
      rewrite length_app, length_fmap, length_seq. simpl.
      rewrite take_app_length'; [|rewrite length_fmap, length_seq; lia]. done.
Qed.

Lemma circular_buff_dequeue_refines_witness :
  let cb := CB (aput (aput (mk_arr QUEUE_SIZE 0) 255 5) 0 6) 1 255 2 in
  cb_inv cb ∧ contents cb = [5; 6] ∧ wp circular_buff_dequeue cb (λ r cb', r = 5 ∧ contents cb' = [6]).
Proof.
  intros cb. assert (cb_inv cb) as Hi by (subst cb; split; unfold QUEUE_SIZE; simpl; lia).
  split; [exact Hi|]. split; [reflexivity|].
  destruct (circular_buff_dequeue_refines cb Hi) as [Hd _].
  eapply wp_mono; [exact Hd|]. intros r cb' [_ ?]. assumption.
Defined.
