(* ===== verification/Chain.v ===== *)
(** * Intrusive linked lists

    The kernel links its objects through pointer fields of the objects
    themselves: ready and wait queues through [thread.next], sleepers through
    [thread.next_sleep], children through [process.next_sibling]. Objects live
    in a finite map from addresses; [chain f m h l e] says that starting at [h]
    and following field [f] one visits exactly the addresses [l] and arrives
    at [e]. The null pointer is 0. *)

From S2P Require Import Prelude.

(* ------------------------------------------------------------------ *)
(** ** Pointer access *)

Section heap_ops.
Context {St V : Type} (get : St → gmap Z V) (set : gmap Z V → St → St).

(** [*p]; a null or dangling pointer is a fault. *)
Definition deref (p : Z) : M St V := λ s,
  match get s !! p with Some v => Some (v, s) | None => None end.

(** An assignment to fields of [*p]. *)
Definition assign (p : Z) (f : V → V) : M St unit := λ s,
  match get s !! p with Some v => Some (tt, set (<[p := f v]> (get s)) s) | None => None end.

Lemma wp_deref p v s (Q : V → St → Prop) :
  get s !! p = Some v → Q v s → wp (deref p) s Q.
Proof. unfold wp, deref. by intros ->. Qed.

Lemma wp_assign p f v s (Q : unit → St → Prop) :
  get s !! p = Some v → Q tt (set (<[p := f v]> (get s)) s) → wp (assign p f) s Q.
Proof. unfold wp, assign. by intros ->. Qed.
End heap_ops.

(* ------------------------------------------------------------------ *)
(** ** Chains *)

Section chain.
Context {V : Type} (f : V → Z).
Implicit Types (m : gmap Z V) (l : list Z) (h e p : Z).

Fixpoint chain m h l e : Prop :=
  match l with
  | [] => h = e
  | p :: l => h = p ∧ p ≠ 0 ∧ ∃ v, m !! p = Some v ∧ chain m (f v) l e
  end.

Lemma chain_app m h l1 l2 e :
  chain m h (l1 ++ l2) e ↔ ∃ x, chain m h l1 x ∧ chain m x l2 e.
Proof.
  revert h. induction l1 as [|p l1 IH]; intros h; simpl.
  - split; [by exists h|]. by intros (x & -> & ?).
  - split.
    + intros (-> & ? & v & ? & (x & ? & ?)%IH). exists x. eauto 10.
    + intros (x & (-> & ? & v & ? & ?) & ?). split_and!; [done..|]. exists v.
      rewrite IH. eauto.
Qed.

(** Only the link field of the members matters. *)
Lemma chain_ext m m' h l e :
  (∀ p, p ∈ l → f <$> m !! p = f <$> m' !! p) → chain m h l e → chain m' h l e.
Proof.
  revert h. induction l as [|p l IH]; intros h Hext; simpl; [done|].
  intros (-> & Hp & v & Hv & Hc). specialize (Hext p ltac:(by constructor)) as Hp'.
  rewrite Hv in Hp'. simpl in Hp'. symmetry in Hp'.
  apply fmap_Some in Hp' as (v' & Hv' & E). split_and!; [done..|]. exists v'. split; [done|].
  rewrite <- E. apply IH; [|done]. intros q ?. apply Hext. by constructor.
Qed.

Lemma chain_insert_ne m h l e p v :
  p ∉ l → chain m h l e → chain (<[p := v]> m) h l e.
Proof.
  intros Hp. apply chain_ext. intros q Hq. rewrite lookup_insert_ne; [done|]. by intros ->.
Qed.

Lemma chain_insert_same m h l e p v v' :
  m !! p = Some v → f v' = f v → chain m h l e → chain (<[p := v']> m) h l e.
Proof.
  intros Hv E. apply chain_ext. intros q Hq. destruct (decide (q = p)) as [->|].
  - by rewrite lookup_insert_eq, Hv; simpl; rewrite E.
  - by rewrite lookup_insert_ne.
Qed.

Lemma chain_elem m h l e p : chain m h l e → p ∈ l → p ≠ 0 ∧ is_Some (m !! p).
Proof.
  revert h. induction l as [|q l IH]; intros h; simpl; [by intros _ ?%not_elem_of_nil|].
  intros (-> & ? & v & ? & ?) [->|?]%elem_of_cons; [eauto|by eapply IH].
Qed.

Lemma chain_null m l : chain m 0 l 0 → l = [].
Proof. destruct l as [|p l]; [done|]. by intros (-> & ? & _). Qed.

Lemma chain_head m h l e : chain m h l e → h = default e (head l).
Proof. destruct l; simpl; [done|]. by intros (-> & _). Qed.

Lemma chain_nonnull m h l : chain m h l 0 → h ≠ 0 → ∃ l', l = h :: l'.
Proof. destruct l as [|p l]; simpl; [by intros ->|]. intros (-> & _). eauto. Qed.

(** Redirecting the last link. *)
Lemma chain_insert_last m h l p e v e' :
  p ∉ l → is_Some (m !! p) → f v = e' → chain m h (l ++ [p]) e →
  chain (<[p := v]> m) h (l ++ [p]) e'.
Proof.
  intros Hp [v0 Hv] E. rewrite !chain_app. intros (x & H1 & -> & ? & v' & ? & ?).
  exists p. split; [by apply chain_insert_ne|]. simpl. split_and!; [done..|].
  exists v. rewrite lookup_insert_eq. done.
Qed.

(** A chain without repetition is no longer than the map is large. *)
Lemma chain_size m h l e : NoDup l → chain m h l e → (length l <= size m)%nat.
Proof.
  intros Hn Hc. rewrite <- (size_dom (D := gset Z) m), <- (size_list_to_set (C := gset Z) l) by done.
  apply subseteq_size. intros p Hp%elem_of_list_to_set. apply elem_of_dom.
  by eapply chain_elem.
Qed.
End chain.

(** Where a queue's tail pointer points. *)
Definition tail_of (l : list Z) : Z := default 0 (last l).

Lemma tail_of_app l p : tail_of (l ++ [p]) = p.
Proof. unfold tail_of. by rewrite last_snoc. Qed.

Lemma tail_of_null {V} (f : V → Z) m h l :
  chain f m h l 0 → tail_of l = 0 ↔ l = [].
Proof.
  intros Hc. split; [|by intros ->]. destruct l as [|p l'] using rev_ind; [done|].
  rewrite tail_of_app. intros ->. eapply chain_elem in Hc as [? _]; [done|].
  apply elem_of_app. right. by constructor.
Qed.

Lemma tail_of_app_ne l1 l2 : l2 ≠ [] → tail_of (l1 ++ l2) = tail_of l2.
Proof.
  intros Hl. unfold tail_of. rewrite last_app. destruct (last l2) eqn:E; [done|].
  by apply last_None in E.
Qed.

Lemma tail_of_cons_ne x l : l ≠ [] → tail_of (x :: l) = tail_of l.
Proof. apply (tail_of_app_ne [x]). Qed.

Lemma tail_of_elem l : l ≠ [] → tail_of l ∈ l.
Proof.
  intros Hl. unfold tail_of. destruct (last l) eqn:E; simpl; [|by apply last_None in E].
  apply last_Some in E as [l' ->]. apply elem_of_app. right. by constructor.
Qed.
