(* ===== verification/FrameAlloc.v ===== *)
(** * The frame-allocator interface

    What the page-table code needs from the physical allocator: frames are
    named by their physical address, [fa_refs] counts the owners of a frame,
    [fa_avail] are the frames that can be handed out, and the operations move
    a count by one. An allocation fails only when no frame is available. The
    theorems of the clients are proved against this class; [Pmm] provides the
    instance. *)

From S2P Require Import Prelude.

Definition PAGE : Z := 4096.

(** The count of one frame changes, the others keep theirs. *)
Definition refs_upd (r : Z → Z) (a v : Z) (r' : Z → Z) : Prop :=
  ∀ b, r' b = if decide (b = a) then v else r b.

Class FrameAllocator (St : Type) := {
  fa_alloc : M St Z;
  fa_free : Z → M St unit;
  fa_inc : Z → M St unit;
  fa_get : Z → M St Z;
  fa_inv : St → Prop;
  fa_refs : St → Z → Z;
  (** The frames that are free to be handed out. *)
  fa_avail : St → Z → Prop;
  (** The end of the memory the allocator manages. *)
  fa_limit : St → Z;
  fa_owned s a : fa_inv s → 0 < fa_refs s a →
    0 < a < 4294967296 ∧ a mod PAGE = 0 ∧ a + PAGE <= fa_limit s;
  fa_bound s a : fa_inv s → 0 <= fa_refs s a < 65536;
  fa_unowned s a : fa_inv s → fa_avail s a → fa_refs s a = 0;
  fa_alloc_ok s : fa_inv s → wp fa_alloc s (λ a s', fa_inv s' ∧ fa_limit s' = fa_limit s ∧
    ((a = 0 ∧ s' = s ∧ ∀ b, ¬ fa_avail s b) ∨
     (fa_avail s a ∧ fa_refs s a = 0 ∧ fa_refs s' a = 1 ∧ refs_upd (fa_refs s) a 1 (fa_refs s') ∧
      ∀ b, fa_avail s' b ↔ b ≠ a ∧ fa_avail s b)));
  fa_free_ok s a : fa_inv s → 0 < fa_refs s a → wp (fa_free a) s (λ _ s',
    fa_inv s' ∧ fa_limit s' = fa_limit s ∧
    refs_upd (fa_refs s) a (fa_refs s a - 1) (fa_refs s') ∧
    ∀ b, fa_avail s' b ↔ (b = a ∧ fa_refs s a = 1) ∨ fa_avail s b);
  fa_inc_ok s a : fa_inv s → 0 < fa_refs s a < 65535 → wp (fa_inc a) s (λ _ s',
    fa_inv s' ∧ fa_limit s' = fa_limit s ∧
    refs_upd (fa_refs s) a (fa_refs s a + 1) (fa_refs s') ∧
    ∀ b, fa_avail s' b ↔ fa_avail s b);
  fa_get_ok s a : fa_inv s → 0 < fa_refs s a → wp (fa_get a) s (λ n s',
    s' = s ∧ n = fa_refs s a)
}.

Lemma refs_upd_eq r a v r' : refs_upd r a v r' → r' a = v.
Proof. intros H. rewrite H. by rewrite decide_True. Qed.

Lemma refs_upd_ne r a v r' b : refs_upd r a v r' → b ≠ a → r' b = r b.
Proof. intros H Hb. rewrite H. by rewrite decide_False. Qed.

(* ------------------------------------------------------------------ *)
(** ** Sharing and releasing a frame *)

Section sharing.
Context `{FA : FrameAllocator St}.

(** [n] address spaces take a reference, later [n] of them drop one. *)
Definition share (a : Z) (n : nat) : M St unit := for_n n 0 (λ _, fa_inc a).
Definition release (a : Z) (n : nat) : M St unit := for_n n 0 (λ _, fa_free a).

Lemma wp_share a n s :
  fa_inv s → 0 < fa_refs s a → fa_refs s a + Z.of_nat n <= 65535 →
  wp (share a n) s (λ _ s', fa_inv s' ∧
    refs_upd (fa_refs s) a (fa_refs s a + Z.of_nat n) (fa_refs s')).
Proof.
  intros Hi Hr Hn. eapply wp_mono; [
    apply (wp_for_n (λ i s', fa_inv s' ∧ refs_upd (fa_refs s) a (fa_refs s a + i) (fa_refs s')))|].
  - split; [done|]. intros b. rewrite Z.add_0_r. case_decide; by subst.
  - intros j s1 Hj [I1 R1]. pose proof (refs_upd_eq _ _ _ _ R1) as E.
    eapply wp_mono; [apply fa_inc_ok; [done|lia]|]. intros [] s2 (I2 & _ & R2 & _).
    split; [done|]. intros b. rewrite R2, E, R1. by case_decide; [lia|].
  - intros [] s' [I' R']. done.
Qed.

Lemma wp_release a n s :
  fa_inv s → Z.of_nat n <= fa_refs s a →
  wp (release a n) s (λ _ s', fa_inv s' ∧
    refs_upd (fa_refs s) a (fa_refs s a - Z.of_nat n) (fa_refs s')).
Proof.
  intros Hi Hn. eapply wp_mono; [
    apply (wp_for_n (λ i s', fa_inv s' ∧ refs_upd (fa_refs s) a (fa_refs s a - i) (fa_refs s')))|].
  - split; [done|]. intros b. rewrite Z.sub_0_r. case_decide; by subst.
  - intros j s1 Hj [I1 R1]. pose proof (refs_upd_eq _ _ _ _ R1) as E.
    eapply wp_mono; [apply fa_free_ok; [done|lia]|]. intros [] s2 (I2 & _ & R2 & _).
    split; [done|]. intros b. rewrite R2, E, R1. by case_decide; [lia|].
  - intros [] s' [I' R']. done.
Qed.

(** Whoever takes references and drops them leaves every count as it was;
    dropping the first owner's too makes the frame free. *)
Lemma wp_share_release a n k s :
  fa_inv s → 0 < fa_refs s a → fa_refs s a + Z.of_nat n <= 65535 →
  Z.of_nat k <= fa_refs s a + Z.of_nat n →
  wp (share a n ;; release a k) s (λ _ s', fa_inv s' ∧
    refs_upd (fa_refs s) a (fa_refs s a + Z.of_nat n - Z.of_nat k) (fa_refs s')).
Proof.
  intros Hi Hr Hn Hk. wp_step. eapply wp_mono; [by apply wp_share|]. intros [] s1 [I1 R1].
  pose proof (refs_upd_eq _ _ _ _ R1) as E.
  eapply wp_mono; [apply wp_release; [done|lia]|]. intros [] s2 [I2 R2].
  split; [done|]. intros b. rewrite R2, E, R1. by case_decide.
Qed.
End sharing.
