(* ===== verification/Sched.v ===== *)
(** * The multilevel ready queues

    [kernel/src/sched/sched.c], the thread control block of
    [kernel/include/sched/thread.h], [kernel/src/spinlock.c] and
    [kernel/src/sched/dispatcher.c]. Threads live in a map from addresses and
    are linked through their [next] field, as in the code; the specification
    sees four lists. *)

From S2P Require Import Prelude Chain.

(* ------------------------------------------------------------------ *)
(** ** Spinlocks

    One processor: a lock that is held is never released while its holder
    spins on it, so acquiring a held lock is a fault. The state is the lock
    and the processor's interrupt flag. *)

Record spinlock_t := Spinlock { sl_val : Z; sl_interrupts : bool }.

Definition spinlock_acquire : M (spinlock_t * bool) unit :=
  interrupts ← gets snd;
  modify (λ '(l, _), (l, false)) ;;
  v ← gets (λ '(l, _), sl_val l);
  assert_ (v =? 0) ;;
  modify (λ '(_, i), (Spinlock 1 interrupts, i)).

Definition spinlock_release : M (spinlock_t * bool) unit :=
  interrupts ← gets (λ '(l, _), sl_interrupts l);
  v ← gets (λ '(l, _), sl_val l);
  assert_ (v =? 1) ;;
  modify (λ '(l, i), (Spinlock 0 (sl_interrupts l), i)) ;;
  when interrupts (modify (λ '(l, _), (l, true))).

(* ------------------------------------------------------------------ *)
(** ** Threads and the scheduler's state *)

Inductive thread_state :=
  THREAD_STATE_NEW | THREAD_STATE_READY | THREAD_STATE_RUNNING | THREAD_STATE_DEAD
| THREAD_STATE_BLOCKED.
#[export] Instance thread_state_eq : EqDecision thread_state.
Proof. solve_decision. Defined.

Inductive thread_mode := THREAD_MODE_KERNEL | THREAD_MODE_USER.

Definition THREAD_PRIORITY_VERY_HIGH : Z := 0.
Definition THREAD_PRIORITY_HIGH : Z := 1.
Definition THREAD_PRIORITY_MEDIUM : Z := 2.
Definition THREAD_PRIORITY_LOW : Z := 3.
Definition THREAD_NUM_PRIORITIES : Z := 4.

(** The control block, without the saved stack pointer of [arch]. *)
Record thread_t := Thread {
  th_tid : Z;
  th_process : Z;
  th_rt_ticks : Z;
  th_quantum : Z;
  th_passed : Z;
  th_burst : Z;
  th_last_enqueue : Z;
  th_wakeup : Z;
  th_state : thread_state;
  th_priority : Z;
  th_mode : thread_mode;
  th_kstack_top : Z;
  th_next : Z;
  th_next_sleep : Z
}.

Definition set_next (v : Z) (t : thread_t) : thread_t :=
  Thread (th_tid t) (th_process t) (th_rt_ticks t) (th_quantum t) (th_passed t) (th_burst t)
    (th_last_enqueue t) (th_wakeup t) (th_state t) (th_priority t) (th_mode t)
    (th_kstack_top t) v (th_next_sleep t).
Definition set_next_sleep (v : Z) (t : thread_t) : thread_t :=
  Thread (th_tid t) (th_process t) (th_rt_ticks t) (th_quantum t) (th_passed t) (th_burst t)
    (th_last_enqueue t) (th_wakeup t) (th_state t) (th_priority t) (th_mode t)
    (th_kstack_top t) (th_next t) v.
Definition set_state (v : thread_state) (t : thread_t) : thread_t :=
  Thread (th_tid t) (th_process t) (th_rt_ticks t) (th_quantum t) (th_passed t) (th_burst t)
    (th_last_enqueue t) (th_wakeup t) v (th_priority t) (th_mode t)
    (th_kstack_top t) (th_next t) (th_next_sleep t).
Definition set_priority (v : Z) (t : thread_t) : thread_t :=
  Thread (th_tid t) (th_process t) (th_rt_ticks t) (th_quantum t) (th_passed t) (th_burst t)
    (th_last_enqueue t) (th_wakeup t) (th_state t) v (th_mode t)
    (th_kstack_top t) (th_next t) (th_next_sleep t).
Definition set_quantum (v : Z) (t : thread_t) : thread_t :=
  Thread (th_tid t) (th_process t) (th_rt_ticks t) v (th_passed t) (th_burst t)
    (th_last_enqueue t) (th_wakeup t) (th_state t) (th_priority t) (th_mode t)
    (th_kstack_top t) (th_next t) (th_next_sleep t).
Definition set_passed (v : Z) (t : thread_t) : thread_t :=
  Thread (th_tid t) (th_process t) (th_rt_ticks t) (th_quantum t) v (th_burst t)
    (th_last_enqueue t) (th_wakeup t) (th_state t) (th_priority t) (th_mode t)
    (th_kstack_top t) (th_next t) (th_next_sleep t).
Definition set_rt_ticks (v : Z) (t : thread_t) : thread_t :=
  Thread (th_tid t) (th_process t) v (th_quantum t) (th_passed t) (th_burst t)
    (th_last_enqueue t) (th_wakeup t) (th_state t) (th_priority t) (th_mode t)
    (th_kstack_top t) (th_next t) (th_next_sleep t).
Definition set_burst (v : Z) (t : thread_t) : thread_t :=
  Thread (th_tid t) (th_process t) (th_rt_ticks t) (th_quantum t) (th_passed t) v
    (th_last_enqueue t) (th_wakeup t) (th_state t) (th_priority t) (th_mode t)
    (th_kstack_top t) (th_next t) (th_next_sleep t).
Definition set_last_enqueue (v : Z) (t : thread_t) : thread_t :=
  Thread (th_tid t) (th_process t) (th_rt_ticks t) (th_quantum t) (th_passed t) (th_burst t)
    v (th_wakeup t) (th_state t) (th_priority t) (th_mode t)
    (th_kstack_top t) (th_next t) (th_next_sleep t).
Definition set_wakeup (v : Z) (t : thread_t) : thread_t :=
  Thread (th_tid t) (th_process t) (th_rt_ticks t) (th_quantum t) (th_passed t) (th_burst t)
    (th_last_enqueue t) v (th_state t) (th_priority t) (th_mode t)
    (th_kstack_top t) (th_next t) (th_next_sleep t).

Record wait_queue_t := WaitQueue { wq_head : Z; wq_tail : Z; wq_lock : spinlock_t }.

(** The static variables of the scheduler, the dispatcher, the sleeper list
    and the timer, with the objects they point to and the parts of the
    processor they touch: the interrupt flag and the kernel stack in the TSS. *)
Record sched := Sched {
  threads : gmap Z thread_t;
  ready_queue_heads : arr Z;
  ready_queue_tails : arr Z;
  kernel_idle_task : Z;
  sched_lock : spinlock_t;
  sleep_queue_head : Z;
  g_current_thread : Z;
  g_time_tick : Z;
  cpu_if : bool;
  tss_esp0 : Z;
  wait_queues : gmap Z wait_queue_t;
  cond_locks : gmap Z spinlock_t
}.

Definition set_threads (v : gmap Z thread_t) (s : sched) : sched :=
  Sched v (ready_queue_heads s) (ready_queue_tails s) (kernel_idle_task s) (sched_lock s)
    (sleep_queue_head s) (g_current_thread s) (g_time_tick s) (cpu_if s)
    (tss_esp0 s) (wait_queues s) (cond_locks s).
Definition set_heads (v : arr Z) (s : sched) : sched :=
  Sched (threads s) v (ready_queue_tails s) (kernel_idle_task s) (sched_lock s)
    (sleep_queue_head s) (g_current_thread s) (g_time_tick s) (cpu_if s)
    (tss_esp0 s) (wait_queues s) (cond_locks s).
Definition set_tails (v : arr Z) (s : sched) : sched :=
  Sched (threads s) (ready_queue_heads s) v (kernel_idle_task s) (sched_lock s)
    (sleep_queue_head s) (g_current_thread s) (g_time_tick s) (cpu_if s)
    (tss_esp0 s) (wait_queues s) (cond_locks s).
Definition set_sleep_head (v : Z) (s : sched) : sched :=
  Sched (threads s) (ready_queue_heads s) (ready_queue_tails s) (kernel_idle_task s) (sched_lock s)
    v (g_current_thread s) (g_time_tick s) (cpu_if s)
    (tss_esp0 s) (wait_queues s) (cond_locks s).
Definition set_current (v : Z) (s : sched) : sched :=
  Sched (threads s) (ready_queue_heads s) (ready_queue_tails s) (kernel_idle_task s) (sched_lock s)
    (sleep_queue_head s) v (g_time_tick s) (cpu_if s)
    (tss_esp0 s) (wait_queues s) (cond_locks s).
Definition set_tick (v : Z) (s : sched) : sched :=
  Sched (threads s) (ready_queue_heads s) (ready_queue_tails s) (kernel_idle_task s) (sched_lock s)
    (sleep_queue_head s) (g_current_thread s) v (cpu_if s)
    (tss_esp0 s) (wait_queues s) (cond_locks s).
Definition set_esp0 (v : Z) (s : sched) : sched :=
  Sched (threads s) (ready_queue_heads s) (ready_queue_tails s) (kernel_idle_task s) (sched_lock s)
    (sleep_queue_head s) (g_current_thread s) (g_time_tick s) (cpu_if s)
    v (wait_queues s) (cond_locks s).
Definition set_lock (p : spinlock_t * bool) (s : sched) : sched :=
  Sched (threads s) (ready_queue_heads s) (ready_queue_tails s) (kernel_idle_task s) p.1
    (sleep_queue_head s) (g_current_thread s) (g_time_tick s) (p.2)
    (tss_esp0 s) (wait_queues s) (cond_locks s).

(* ------------------------------------------------------------------ *)
(** ** Operations *)

Definition thread (p : Z) : M sched thread_t := deref threads p.
Definition thread_set (p : Z) (f : thread_t → thread_t) : M sched unit :=
  assign threads set_threads p f.
Definition head_get (i : Z) : M sched Z := zoom ready_queue_heads set_heads (ld i).
Definition head_set (i p : Z) : M sched unit := zoom ready_queue_heads set_heads (st i p).
Definition tail_get (i : Z) : M sched Z := zoom ready_queue_tails set_tails (ld i).
Definition tail_set (i p : Z) : M sched unit := zoom ready_queue_tails set_tails (st i p).
Definition sched_lock_acquire : M sched unit :=
  zoom (λ s, (sched_lock s, cpu_if s)) set_lock spinlock_acquire.
Definition sched_lock_release : M sched unit :=
  zoom (λ s, (sched_lock s, cpu_if s)) set_lock spinlock_release.

Definition time_quantums : list Z := [40; 80; 120; 200].
Definition quantum_get (i : Z) : M sched Z :=
  of_opt (if 0 <=? i then time_quantums !! Z.to_nat i else None).

(** Every list of threads is shorter than the set of threads; a walk that is
    longer goes round a cycle and would not stop. *)
Definition walk_fuel (s : sched) : nat := S (size (threads s)).

Definition timer_tick_get : M sched Z := gets g_time_tick.
Definition dispatch_get_current : M sched Z := gets g_current_thread.

(** The append shared by [sched_enqueue] and [sched_apply_aging]. *)
Definition queue_append (i t : Z) : M sched unit :=
  tl ← tail_get i;
  if tl =? 0 then head_set i t ;; tail_set i t
  else thread_set tl (set_next t) ;; tail_set i t.

Definition sched_enqueue (t : Z) : M sched unit :=
  if t =? 0 then ret tt
  else
    th ← thread t;
    if th_tid th =? 0 then ret tt
    else
      sched_lock_acquire ;;
      let priority :=
        if (th_priority th <? 0) || (THREAD_NUM_PRIORITIES <=? th_priority th)
        then THREAD_PRIORITY_MEDIUM else th_priority th in
      thread_set t (set_state THREAD_STATE_READY) ;;
      thread_set t (set_next 0) ;;
      queue_append priority t ;;
      q ← quantum_get priority;
      thread_set t (set_quantum q) ;;
      thread_set t (λ th, set_burst (th_quantum th) th) ;;
      tick ← timer_tick_get;
      thread_set t (set_last_enqueue (u32 tick)) ;;
      sched_lock_release.

(** The average of two 32-bit values is exact in [double]; converting it to
    [int] is defined below 2^31. *)
Definition sched_prepare_for_cpu_burst (t : Z) : M sched unit :=
  th ← thread t;
  let next_burst_ticks_estimate := (th_passed th + th_burst th) / 2 in
  assert_ (next_burst_ticks_estimate <? 2147483648) ;;
  thread_set t (set_priority THREAD_PRIORITY_LOW) ;;
  r ← scan_range 0 THREAD_NUM_PRIORITIES (λ i,
        q ← quantum_get i;
        if next_burst_ticks_estimate <=? q
        then thread_set t (set_priority i) ;; ret (Some tt) else ret None);
  thread_set t (set_burst next_burst_ticks_estimate) ;;
  th' ← thread t;
  q ← quantum_get (th_priority th');
  thread_set t (set_quantum q) ;;
  thread_set t (set_passed 0).

Definition TIMER_HZ : Z := 1000.
Definition AGING_THRESHOLD_MS : Z := 500.

(** [AGING_THRESHOLD_MS / TIMER_TICK_MS] with [TIMER_TICK_MS] the macro body
    [1000 / TIMER_HZ], which has no parentheses of its own. *)
Definition aging_threshold : Z := AGING_THRESHOLD_MS / 1000 / TIMER_HZ.

(** Taking [curr] out of queue [i] behind [prev] (step 1 of a promotion). *)
Definition aging_unlink (i curr prev : Z) : M sched unit :=
  th ← thread curr;
  (if negb (prev =? 0) then thread_set prev (set_next (th_next th))
   else head_set i (th_next th)) ;;
  tl ← tail_get i;
  when (tl =? curr) (tail_set i prev).

(** One turn of the inner loop; [threshold] is in ticks. *)
Definition aging_step (threshold i : Z) (v : Z * Z) : M sched ((Z * Z) + unit) :=
  let '(curr, prev) := v in
  if curr =? 0 then ret (inr tt)
  else
    tick ← timer_tick_get;
    th ← thread curr;
    let wait_time := u32 (tick - th_last_enqueue th) in
    if threshold <=? wait_time then
      aging_unlink i curr prev ;;
      th' ← thread curr;
      thread_set curr (set_priority (i - 1)) ;;
      thread_set curr (set_next 0) ;;
      thread_set curr (set_last_enqueue (u32 tick)) ;;
      queue_append (i - 1) curr ;;
      ret (inl (th_next th', prev))
    else ret (inl (th_next th, curr)).

Definition aging_level (threshold i : Z) : M sched unit :=
  curr ← head_get i;
  n ← gets walk_fuel;
  while_n n (aging_step threshold i) (curr, 0).

Definition sched_apply_aging : M sched unit :=
  for_range 1 THREAD_NUM_PRIORITIES (aging_level aging_threshold).

Definition sched_pick_next : M sched Z :=
  sched_lock_acquire ;;
  r ← scan_range 0 THREAD_NUM_PRIORITIES (λ priority,
        next ← head_get priority;
        if next =? 0 then ret None
        else
          th ← thread next;
          head_set priority (th_next th) ;;
          h ← head_get priority;
          when (h =? 0) (tail_set priority 0) ;;
          thread_set next (set_next 0) ;;
          sched_prepare_for_cpu_burst next ;;
          sched_lock_release ;;
          ret (Some next));
  match r with
  | Some t => ret t
  | None => sched_lock_release ;; gets kernel_idle_task
  end.

(** The unlinking part of [sched_dequeue]. *)
Definition queue_unlink (priority t : Z) : M sched unit :=
  h ← head_get priority;
  if h =? t then
    th ← thread t;
    head_set priority (th_next th) ;;
    tl ← tail_get priority;
    when (tl =? t) (tail_set priority 0)
  else
    n ← gets walk_fuel;
    curr ← while_n n (λ curr,
      if curr =? 0 then ret (inr 0)
      else c ← thread curr;
           if negb (th_next c =? t) then ret (inl (th_next c)) else ret (inr curr)) h;
    when (negb (curr =? 0))
      (th ← thread t;
       thread_set curr (set_next (th_next th)) ;;
       tl ← tail_get priority;
       when (tl =? t) (tail_set priority curr)).

Definition sched_dequeue (t : Z) : M sched unit :=
  if t =? 0 then ret tt
  else
    th ← thread t;
    if th_tid th =? 0 then ret tt
    else
      sched_lock_acquire ;;
      let priority := th_priority th in
      if (priority <? 0) || (THREAD_NUM_PRIORITIES <=? priority) then sched_lock_release
      else
        queue_unlink priority t ;;
        thread_set t (set_next 0) ;;
        thread_set t (set_state THREAD_STATE_DEAD) ;;
        sched_lock_release.

(** The switch proper: the stack of [next] becomes the kernel stack and
    [next] the running thread. [hal_thread_switch] reads both threads. *)
Definition dispatch_switch_to (next : Z) : M sched unit :=
  current ← dispatch_get_current;
  thread_set next (set_state THREAD_STATE_RUNNING) ;;
  if (next =? 0) || (current =? next) then ret tt
  else
    th ← thread next;
    modify (set_esp0 (th_kstack_top th)) ;;
    modify (set_current next) ;;
    _ ← thread current;
    ret tt.

Definition sched_switch_next : M sched unit :=
  next ← sched_pick_next; dispatch_switch_to next.

(** [sched_init] after the idle thread has been created at [idle]. *)
Definition sched_init (idle : Z) : M sched unit :=
  modify (λ s, Sched (threads s) (ready_queue_heads s) (ready_queue_tails s) idle
                 (sched_lock s) (sleep_queue_head s) (g_current_thread s) (g_time_tick s)
                 (cpu_if s) (tss_esp0 s) (wait_queues s) (cond_locks s)) ;;
  thread_set idle (λ t, Thread 0 (th_process t) (th_rt_ticks t) (th_quantum t) (th_passed t)
    (th_burst t) (th_last_enqueue t) (th_wakeup t) (th_state t) (th_priority t) (th_mode t)
    (th_kstack_top t) (th_next t) (th_next_sleep t)) ;;
  thread_set idle (set_priority THREAD_PRIORITY_LOW) ;;
  thread_set idle (set_quantum 0) ;;
  for_range 0 THREAD_NUM_PRIORITIES (λ i, head_set i 0 ;; tail_set i 0).

(* ------------------------------------------------------------------ *)
(** ** Representation *)

Ltac sched_cbn :=
  unfold set_threads, set_heads, set_tails, set_sleep_head, set_current, set_tick,
    set_esp0, set_lock;
  cbn [threads ready_queue_heads ready_queue_tails kernel_idle_task sched_lock
       sleep_queue_head g_current_thread g_time_tick cpu_if tss_esp0 wait_queues cond_locks
       fst snd sl_val sl_interrupts].

(** The queues hold the lists [q i]: linked through [next], with the tail
    pointer at the last element, without repetition and pairwise disjoint. *)
Record qrep (s : sched) (q : Z → list Z) : Prop := {
  q_hlen : alen (ready_queue_heads s) = THREAD_NUM_PRIORITIES;
  q_tlen : alen (ready_queue_tails s) = THREAD_NUM_PRIORITIES;
  q_chain : ∀ i, 0 <= i < 4 → chain th_next (threads s) (aat (ready_queue_heads s) i) (q i) 0;
  q_tail : ∀ i, 0 <= i < 4 → aat (ready_queue_tails s) i = tail_of (q i);
  q_nodup : ∀ i, 0 <= i < 4 → NoDup (q i);
  q_disj : ∀ i j t, 0 <= i < 4 → 0 <= j < 4 → t ∈ q i → t ∈ q j → i = j
}.

Definition tq (i : Z) : Z := default 0 (time_quantums !! Z.to_nat i).

(** A thread of queue [i]. *)
Record ready (i : Z) (th : thread_t) : Prop := {
  rd_priority : th_priority th = i;
  rd_tid : th_tid th ≠ 0;
  rd_state : th_state th = THREAD_STATE_READY;
  rd_passed : 0 <= th_passed th <= 200;
  rd_burst : 0 <= th_burst th <= 200
}.

Definition unqueued (q : Z → list Z) (t : Z) : Prop := ∀ i, 0 <= i < 4 → t ∉ q i.

(** Between operations: the lock is free, the queues hold ready threads of
    their own priority, and there is an idle thread. *)
Record rep (s : sched) (q : Z → list Z) : Prop := {
  r_lock : sl_val (sched_lock s) = 0;
  r_q : qrep s q;
  r_ready : ∀ i t, 0 <= i < 4 → t ∈ q i → ∃ th, threads s !! t = Some th ∧ ready i th;
  r_idle : ∃ th, threads s !! kernel_idle_task s = Some th ∧ th_tid th = 0
}.

Definition rest (s : sched) :=
  (kernel_idle_task s, sleep_queue_head s, g_current_thread s, g_time_tick s, cpu_if s,
   tss_esp0 s, wait_queues s, cond_locks s).

(** What an operation on the queues leaves alone: every variable but the
    queues and the lock, and every thread outside [X] up to its [next]. *)
Record frame (X : Z → Prop) (s s' : sched) : Prop := {
  fr_rest : rest s' = rest s;
  fr_threads : ∀ p, ¬ X p → set_next 0 <$> threads s' !! p = set_next 0 <$> threads s !! p;
  fr_dom : ∀ p, is_Some (threads s !! p) ↔ is_Some (threads s' !! p)
}.

Lemma frame_refl X s : frame X s s.
Proof. by split. Qed.

Lemma frame_trans X s1 s2 s3 : frame X s1 s2 → frame X s2 s3 → frame X s1 s3.
Proof.
  intros [R1 T1 D1] [R2 T2 D2]. split.
  - congruence.
  - intros p Hp. by rewrite T2, T1.
  - intros p. by rewrite D1, D2.
Qed.

Lemma frame_mono (X Y : Z → Prop) s s' : frame X s s' → (∀ p, X p → Y p) → frame Y s s'.
Proof. intros [R T D] H. split; [done| |done]. intros p Hp. apply T. auto. Qed.

Lemma set_next_idem a b th : set_next a (set_next b th) = set_next a th.
Proof. done. Qed.

(** A thread outside [X] keeps every field but [next]. *)
Lemma frame_thread X s s' p th :
  frame X s s' → ¬ X p → threads s !! p = Some th →
  ∃ n, threads s' !! p = Some (set_next n th).
Proof.
  intros F Hp E. pose proof (fr_threads _ _ _ F p Hp) as H. rewrite E in H. simpl in H.
  apply fmap_Some in H as (th' & E' & H). exists (th_next th'). rewrite E'. f_equal.
  transitivity (set_next (th_next th') (set_next 0 th')); [by destruct th'|by rewrite <- H].
Qed.

Lemma frame_intro (X : Z → Prop) s s' p v v0 :
  rest s' = rest s → threads s' = <[p := v]> (threads s) →
  threads s !! p = Some v0 → (X p ∨ set_next 0 v = set_next 0 v0) → frame X s s'.
Proof.
  intros Hr Et E H. split; [done|..]; rewrite Et.
  - intros p' Hp'. destruct (decide (p' = p)) as [->|]; [|by rewrite lookup_insert_ne].
    rewrite lookup_insert_eq, E. simpl. destruct H as [|H]; [done|by rewrite H].
  - intros p'. destruct (decide (p' = p)) as [->|]; [|by rewrite lookup_insert_ne].
    rewrite lookup_insert_eq, E. split; eauto.
Qed.

Lemma frame_thread_upd (X : Z → Prop) s p v v0 :
  threads s !! p = Some v0 → (X p ∨ set_next 0 v = set_next 0 v0) →
  frame X s (set_threads (<[p := v]> (threads s)) s).
Proof. by apply frame_intro. Qed.

Lemma qrep_thread_upd s q p v v0 :
  qrep s q → threads s !! p = Some v0 → (th_next v = th_next v0 ∨ unqueued q p) →
  qrep (set_threads (<[p := v]> (threads s)) s) q.
Proof.
  intros [H1 H2 H3 H4 H5 H6] E H. split; sched_cbn; try done.
  intros i Hi. destruct H as [H|H].
  - by apply chain_insert_same with v0; [| |apply H3].
  - apply chain_insert_ne; [by apply H|by apply H3].
Qed.

Lemma unqueued_insert (q : Z → list Z) i (l : list Z) t :
  0 <= i < 4 → unqueued (<[i := l]> q) t ↔ t ∉ l ∧ (∀ j, 0 <= j < 4 → j ≠ i → t ∉ q j).
Proof.
  intros Hi. split.
  - intros H. split; [by specialize (H i Hi); rewrite fn_lookup_insert in H|].
    intros j Hj Hne. specialize (H j Hj). by rewrite fn_lookup_insert_ne in H.
  - intros [H1 H2] j Hj. destruct (decide (j = i)) as [->|].
    + by rewrite fn_lookup_insert.
    + rewrite fn_lookup_insert_ne by done. by apply H2.
Qed.

(* ------------------------------------------------------------------ *)
(** ** The primitives *)

Section primitives.
Context (s : sched).

Lemma wp_thread p th (Q : thread_t → sched → Prop) :
  threads s !! p = Some th → Q th s → wp (thread p) s Q.
Proof. apply wp_deref. Qed.

Lemma wp_thread_set p f th (Q : unit → sched → Prop) :
  threads s !! p = Some th → Q tt (set_threads (<[p := f th]> (threads s)) s) →
  wp (thread_set p f) s Q.
Proof. apply wp_assign. Qed.

Lemma wp_quantum_get i (Q : Z → sched → Prop) :
  0 <= i < 4 → Q (tq i) s → wp (quantum_get i) s Q.
Proof.
  intros Hi HQ. unfold quantum_get. assert (i = 0 ∨ i = 1 ∨ i = 2 ∨ i = 3) as H by lia.
  by destruct H as [->|[->|[->| ->]]].
Qed.

Lemma tq_bound i : 0 <= i < 4 → 40 <= tq i <= 200.
Proof.
  intros Hi. assert (i = 0 ∨ i = 1 ∨ i = 2 ∨ i = 3) as H by lia.
  destruct H as [->|[->|[->| ->]]]; split; vm_compute; discriminate.
Qed.

Context (i : Z) (Hi : 0 <= i < 4).

Lemma wp_head_get (Q : Z → sched → Prop) :
  alen (ready_queue_heads s) = 4 → Q (aat (ready_queue_heads s) i) s → wp (head_get i) s Q.
Proof using Hi.
  intros Hl HQ. unfold head_get. wp_step. apply wp_ld; [lia|]. sched_cbn. by destruct s.
Qed.

Lemma wp_tail_get (Q : Z → sched → Prop) :
  alen (ready_queue_tails s) = 4 → Q (aat (ready_queue_tails s) i) s → wp (tail_get i) s Q.
Proof using Hi.
  intros Hl HQ. unfold tail_get. wp_step. apply wp_ld; [lia|]. sched_cbn. by destruct s.
Qed.

Lemma wp_head_set p (Q : unit → sched → Prop) :
  alen (ready_queue_heads s) = 4 →
  Q tt (set_heads (aput (ready_queue_heads s) i p) s) → wp (head_set i p) s Q.
Proof using Hi. intros Hl HQ. unfold head_set. wp_step. apply wp_st; [lia|]. done. Qed.

Lemma wp_tail_set p (Q : unit → sched → Prop) :
  alen (ready_queue_tails s) = 4 →
  Q tt (set_tails (aput (ready_queue_tails s) i p) s) → wp (tail_set i p) s Q.
Proof using Hi. intros Hl HQ. unfold tail_set. wp_step. apply wp_st; [lia|]. done. Qed.
End primitives.

Lemma wp_sched_lock_acquire s (Q : unit → sched → Prop) :
  sl_val (sched_lock s) = 0 → Q tt (set_lock (Spinlock 1 (cpu_if s), false) s) →
  wp sched_lock_acquire s Q.
Proof.
  intros H HQ. unfold sched_lock_acquire, spinlock_acquire. repeat wp_step; [|done].
  simpl. by rewrite H.
Qed.

Lemma wp_sched_lock_release s (Q : unit → sched → Prop) :
  sl_val (sched_lock s) = 1 →
  Q tt (set_lock (Spinlock 0 (sl_interrupts (sched_lock s)),
                  if sl_interrupts (sched_lock s) then true else cpu_if s) s) →
  wp sched_lock_release s Q.
Proof.
  intros H HQ. unfold sched_lock_release, spinlock_release.
  repeat wp_step; simpl in *; destruct (sl_interrupts (sched_lock s)); try done; by rewrite H.
Qed.

(** Replacing the contents of one queue. *)
Lemma qrep_set s q i l s' :
  qrep s q → 0 <= i < 4 →
  alen (ready_queue_heads s') = THREAD_NUM_PRIORITIES →
  alen (ready_queue_tails s') = THREAD_NUM_PRIORITIES →
  (∀ j, 0 <= j < 4 → j ≠ i → aat (ready_queue_heads s') j = aat (ready_queue_heads s) j ∧
     aat (ready_queue_tails s') j = aat (ready_queue_tails s) j ∧
     chain th_next (threads s') (aat (ready_queue_heads s) j) (q j) 0 ∧ ∀ t, t ∈ l → t ∉ q j) →
  chain th_next (threads s') (aat (ready_queue_heads s') i) l 0 →
  aat (ready_queue_tails s') i = tail_of l → NoDup l →
  qrep s' (<[i := l]> q).
Proof.
  intros R Hi Hh Ht Hj Hc Htl Hn. split; [done|done|..].
  - intros j ?. destruct (decide (j = i)) as [->|]; [by rewrite fn_lookup_insert|].
    rewrite fn_lookup_insert_ne by done. destruct (Hj j) as (-> & _ & ? & _); done.
  - intros j ?. destruct (decide (j = i)) as [->|]; [by rewrite fn_lookup_insert|].
    rewrite fn_lookup_insert_ne by done. destruct (Hj j) as (_ & -> & _); [done..|].
    by apply (q_tail s q R).
  - intros j ?. destruct (decide (j = i)) as [->|]; [by rewrite fn_lookup_insert|].
    rewrite fn_lookup_insert_ne by done. by apply (q_nodup s q R).
  - intros a b t ? ?. destruct (decide (a = i)) as [->|], (decide (b = i)) as [->|]; try done;
      rewrite ?fn_lookup_insert, ?fn_lookup_insert_ne by done; intros ? ?.
    + destruct (Hj b) as (_ & _ & _ & K); [done..|]. by destruct (K t).
    + destruct (Hj a) as (_ & _ & _ & K); [done..|]. by destruct (K t).
    + by eapply (q_disj s q R).
Qed.

(** An element of a queue is in no other. *)
Lemma queued_elsewhere s q i j t :
  qrep s q → 0 <= i < 4 → 0 <= j < 4 → j ≠ i → t ∈ q i → t ∉ q j.
Proof. intros R Hi Hj Hne H1 H2. by destruct (q_disj s q R i j t). Qed.

Lemma snoc_unqueued s q i t :
  qrep s q → 0 <= i < 4 → unqueued q t →
  NoDup (q i ++ [t]) ∧ ∀ j x, 0 <= j < 4 → j ≠ i → x ∈ q i ++ [t] → x ∉ q j.
Proof.
  intros R Hi Hu. split.
  - apply NoDup_app. split_and!; [by apply (q_nodup s q R)| |apply NoDup_singleton].
    intros x Hx ->%list_elem_of_singleton. by destruct (Hu i Hi).
  - intros j x Hj Hne [Hx| ->%list_elem_of_singleton]%elem_of_app; [|by apply Hu].
    by apply (queued_elsewhere s q i).
Qed.

(** Appending to queue [i] a thread that is in no queue. *)
Lemma wp_queue_append s q i t th :
  qrep s q → 0 <= i < 4 → t ≠ 0 → unqueued q t →
  threads s !! t = Some th → th_next th = 0 →
  wp (queue_append i t) s (λ _ s', qrep s' (<[i := q i ++ [t]]> q) ∧
    frame (λ _, False) s s' ∧ sched_lock s' = sched_lock s ∧ threads s' !! t = Some th).
Proof.
  intros R Hi Ht Hu E En. pose proof (q_chain s q R i Hi) as Hc.
  pose proof (tail_of_null _ _ _ _ Hc) as Hnull.
  destruct (snoc_unqueued s q i t R Hi Hu) as [Hnd Hdisj]. unfold queue_append.
  wp_step. apply wp_tail_get; [done|apply R|]. rewrite (q_tail s q R i Hi). wp_step.
  - assert (q i = []) as Eq by (apply Hnull; lia). rewrite Eq in *. simpl in *.
    wp_step. apply wp_head_set; [done|apply R|]. apply wp_tail_set; [done|apply R|]. sched_cbn.
    split; [|split; [by split|done]].
    apply qrep_set with (1 := R); sched_cbn; rewrite ?aat_aput_eq; try done; [apply R..| |].
    + intros j Hj Hne. rewrite !aat_aput_ne by done. split_and!; [done..|by apply (q_chain s q R)|].
      intros x Hx. by apply Hdisj.
    + simpl. eauto 10.
  - destruct (exists_last (l := q i)) as (l & tl & Eq); [intros Eq; by rewrite Eq in *|].
    assert (tl ∈ q i) as Hin by (rewrite Eq; apply elem_of_app; right; by constructor).
    destruct (chain_elem _ _ _ _ _ tl Hc Hin) as [Htl [thl El]].
    assert (tl ≠ t) as Hne by (intros ->; by apply (Hu i Hi)).
    assert (tl ∉ l) as Hl.
    { pose proof (q_nodup s q R i Hi) as Hn. rewrite Eq in Hn. apply NoDup_app in Hn as (_ & Hn & _).
      intros Hin'. apply (Hn _ Hin'). by constructor. }
    rewrite Eq, tail_of_app in *.
    wp_step. apply wp_thread_set with (1 := El). apply wp_tail_set; [done|apply R|]. sched_cbn.
    assert (frame (λ _, False) s (set_threads (<[tl := set_next t thl]> (threads s)) s)) as F
      by (apply frame_thread_upd with (1 := El); right; done).
    split; [|split; [by split; apply F|split; [done|by rewrite lookup_insert_ne]]].
    apply qrep_set with (1 := R); sched_cbn; rewrite ?aat_aput_eq, ?tail_of_app; try done; [apply R..| |].
    + intros j Hj Hji. rewrite !aat_aput_ne by done. split_and!; [done..| |].
      * apply chain_insert_ne; [|by apply (q_chain s q R)].
        apply (queued_elsewhere s q i); [done..|]. rewrite Eq. done.
      * intros x Hx. by apply Hdisj.
    + rewrite chain_app. exists t. split.
      * eapply chain_insert_last; [done|by eexists|done|done].
      * simpl. split_and!; [done..|]. exists th. by rewrite lookup_insert_ne.
Qed.

Lemma qrep_fun_ext s q q' : qrep s q → (∀ i, 0 <= i < 4 → q' i = q i) → qrep s q'.
Proof.
  intros [] H. split; try done.
  - intros i Hi. rewrite H by done. auto.
  - intros i Hi. rewrite H by done. auto.
  - intros i Hi. rewrite H by done. auto.
  - intros i j t Hi Hj. rewrite !H by done. eauto.
Qed.

(** Consecutive assignments to one thread are one assignment. *)
Lemma wp_thread_set_fuse {A} p f g (k : unit → M sched A) s Q :
  wp (bind (thread_set p (λ th, g (f th))) k) s Q →
  wp (bind (thread_set p f) (λ _, bind (thread_set p g) k)) s Q.
Proof.
  unfold wp, bind, thread_set, assign. destruct (threads s !! p) as [th|] eqn:E; [|done].
  sched_cbn. rewrite lookup_insert_eq. sched_cbn. by rewrite insert_insert_eq.
Qed.

(* ------------------------------------------------------------------ *)
(** ** Making a thread ready *)

(** The control block after [sched_enqueue] at tick [tick]. *)
Definition enqueued (tick : Z) (t : thread_t) : thread_t :=
  Thread (th_tid t) (th_process t) (th_rt_ticks t) (tq (th_priority t)) (th_passed t)
    (tq (th_priority t)) (u32 tick) (th_wakeup t) THREAD_STATE_READY (th_priority t) (th_mode t)
    (th_kstack_top t) 0 (th_next_sleep t).

(** What the scheduler expects of a thread it is given. *)
Record schedulable (th : thread_t) : Prop := {
  sc_tid : th_tid th ≠ 0;
  sc_priority : 0 <= th_priority th < 4;
  sc_passed : 0 <= th_passed th <= 200
}.

Lemma qrep_ext s s' q :
  threads s' = threads s → ready_queue_heads s' = ready_queue_heads s →
  ready_queue_tails s' = ready_queue_tails s → qrep s q → qrep s' q.
Proof. intros E1 E2 E3 []. split; by rewrite ?E1, ?E2, ?E3. Qed.

(** The state with the lock taken, and with it given back. *)
Definition locked (s : sched) : sched := set_lock (Spinlock 1 (cpu_if s), false) s.

Definition unlocked (s : sched) : sched :=
  set_lock (Spinlock 0 (sl_interrupts (sched_lock s)),
            if sl_interrupts (sched_lock s) then true else cpu_if s) s.

Lemma rest_unlocked s s' :
  rest s' = rest (locked s) → sched_lock s' = sched_lock (locked s) → rest (unlocked s') = rest s.
Proof.
  unfold rest, locked, unlocked. sched_cbn. intros H ->. simplify_eq. sched_cbn.
  destruct (cpu_if s); congruence.
Qed.

Lemma frame_unlocked X s s' :
  frame X (locked s) s' → sched_lock s' = sched_lock (locked s) → frame X s (unlocked s').
Proof. intros [Hr Ht Hd] Hl. split; [by apply rest_unlocked|exact Ht|exact Hd]. Qed.

Lemma frame_idle X s s' : frame X s s' → kernel_idle_task s' = kernel_idle_task s.
Proof. intros F. pose proof (fr_rest _ _ _ F) as H. unfold rest in H. congruence. Qed.

Lemma frame_tick X s s' : frame X s s' → g_time_tick s' = g_time_tick s.
Proof. intros F. pose proof (fr_rest _ _ _ F) as H. unfold rest in H. congruence. Qed.

Lemma ready_set_next i n th : ready i th → ready i (set_next n th).
Proof. intros []. by split. Qed.

(** The invariant after an operation that touched only the threads in [X]. *)
Lemma rep_frame (X : Z → Prop) s s' q q' :
  rep s q → frame X s s' → sl_val (sched_lock s') = 0 → qrep s' q' →
  ¬ X (kernel_idle_task s) →
  (∀ i t, 0 <= i < 4 → t ∈ q' i →
     (¬ X t ∧ t ∈ q i) ∨ ∃ th, threads s' !! t = Some th ∧ ready i th) →
  rep s' q'.
Proof.
  intros [Hl R Hr (thi & Ei & Hi)] F Hl' R' Hx Hq. split; [done|done| |].
  - intros i t Hi' Ht. destruct (Hq i t Hi' Ht) as [[Hn Ho]|H]; [|done].
    destruct (Hr i t Hi' Ho) as (th & E & Hrd).
    destruct (frame_thread _ _ _ _ _ F Hn E) as [n E']. eauto using ready_set_next.
  - rewrite (frame_idle _ _ _ F). destruct (frame_thread _ _ _ _ _ F Hx Ei) as [n E']. eauto.
Qed.

Lemma wp_sched_enqueue s q t th :
  rep s q → t ≠ 0 → unqueued q t → threads s !! t = Some th → schedulable th →
  wp (sched_enqueue t) s (λ _ s',
    rep s' (<[th_priority th := q (th_priority th) ++ [t]]> q) ∧ frame (eq t) s s' ∧
    threads s' !! t = Some (enqueued (g_time_tick s) th)).
Proof.
  intros HR Ht Hu E [S1 S2 S3]. pose proof HR as [Hl R Hr (thi & Ei & Hid)].
  set (p := th_priority th) in *. unfold sched_enqueue.
  wp_step; [lia|]. wp_step. apply wp_thread with (1 := E). wp_step; [lia|].
  wp_step. apply wp_sched_lock_acquire; [done|]. fold p (locked s). unfold THREAD_NUM_PRIORITIES.
  replace ((p <? 0) || (4 <=? p)) with false by lia. cbv zeta.
  apply wp_thread_set_fuse. wp_step. eapply wp_thread_set; [exact E|].
  set (th1 := set_next 0 _). set (s1 := set_threads _ _). wp_step.
  assert (qrep s1 q) as R1.
  { apply (qrep_thread_upd (locked s) q t th1 th); [by apply (qrep_ext s)|done|by right]. }
  assert (frame (eq t) (locked s) s1) as F1 by (apply frame_thread_upd with th; [done|by left]).
  eapply wp_mono; [apply (wp_queue_append s1 q p t th1); try done; apply lookup_insert_eq|].
  intros [] s2 (R2 & F2 & L2 & E2). wp_step. apply wp_quantum_get; [done|].
  apply wp_thread_set_fuse. wp_step. eapply wp_thread_set; [exact E2|].
  wp_step. unfold timer_tick_get. wp_step.
  wp_step. eapply wp_thread_set; [apply lookup_insert_eq|].
  apply wp_sched_lock_release; [by sched_cbn; rewrite L2|].
  match goal with |- context [set_lock _ ?x] => fold (unlocked x) end.
  match goal with |- context [unlocked ?x] => set (s3 := x) end.
  assert (frame (eq t) (locked s) s3) as F3.
  { eapply frame_trans; [exact F1|]. eapply frame_trans; [by apply (frame_mono _ _ _ _ F2)|].
    eapply frame_trans; [|eapply frame_thread_upd; [apply lookup_insert_eq|by left]].
    eapply frame_thread_upd; [exact E2|by left]. }
  assert (qrep s3 (<[p := q p ++ [t]]> q)) as R3.
  { eapply qrep_thread_upd; [|apply lookup_insert_eq|by left].
    eapply qrep_thread_upd; [exact R2|exact E2|by left]. }
  assert (threads s3 !! t = Some (enqueued (g_time_tick s) th)) as E3.
  { subst s3. sched_cbn. rewrite lookup_insert_eq, (frame_tick _ _ _ F2). done. }
  assert (frame (eq t) s (unlocked s3)) as F by (apply frame_unlocked; [done|exact L2]).
  split; [|split; [exact F|exact E3]].
  apply (rep_frame (eq t) s _ q); [done|done|done|by apply (qrep_ext s3)|congruence|].
  intros i x Hi Hx. destruct (decide (t = x)) as [<-|Hne].
  - right. eexists. split; [exact E3|]. pose proof (tq_bound p S2).
    destruct (decide (i = p)) as [->|Hip]; [split; cbn; fold p; (done || lia)|].
    rewrite fn_lookup_insert_ne in Hx by done. by destruct (Hu i Hi).
  - left. split; [done|]. destruct (decide (i = p)) as [->|Hip].
    + rewrite fn_lookup_insert in Hx. by apply elem_of_app in Hx as [?| ->%list_elem_of_singleton].
    + by rewrite fn_lookup_insert_ne in Hx.
Qed.

(* ------------------------------------------------------------------ *)
(** ** Choosing a thread *)

(** The level whose quantum is the least that covers the estimate. *)
Definition classify (e : Z) : Z :=
  if e <=? 40 then 0 else if e <=? 80 then 1 else if e <=? 120 then 2 else 3.

Definition estimate (th : thread_t) : Z := (th_passed th + th_burst th) / 2.

(** The control block after [sched_prepare_for_cpu_burst]. *)
Definition prepared (th : thread_t) : thread_t :=
  set_passed 0 (set_quantum (tq (classify (estimate th)))
    (set_burst (estimate th) (set_priority (classify (estimate th)) th))).

Lemma classify_bound e : 0 <= classify e < 4.
Proof. unfold classify. repeat case_match; lia. Qed.

Lemma tq_0 : tq 0 = 40. Proof. done. Qed.
Lemma tq_1 : tq 1 = 80. Proof. done. Qed.
Lemma tq_2 : tq 2 = 120. Proof. done. Qed.
Lemma tq_3 : tq 3 = 200. Proof. done. Qed.

Lemma classify_least e i :
  0 <= i < 4 → (∀ j, 0 <= j < i → tq j < e) → e <= tq i → classify e = i.
Proof.
  intros Hi Hj He. pose proof (Hj 0) as H0. pose proof (Hj 1) as H1. pose proof (Hj 2) as H2.
  rewrite tq_0, tq_1, tq_2 in *. unfold classify.
  assert (i = 0 ∨ i = 1 ∨ i = 2 ∨ i = 3) as H by lia.
  destruct H as [->|[->|[->| ->]]]; rewrite ?tq_0, ?tq_1, ?tq_2, ?tq_3 in *; repeat case_match; lia.
Qed.

Lemma classify_none e : (∀ j, 0 <= j < 4 → tq j < e) → classify e = 3.
Proof.
  intros Hj. pose proof (Hj 2). rewrite tq_2 in *. unfold classify. repeat case_match; lia.
Qed.

Lemma wp_sched_prepare s t th (Q : unit → sched → Prop) :
  threads s !! t = Some th → 0 <= th_passed th + th_burst th < 4294967296 →
  Q tt (set_threads (<[t := prepared th]> (threads s)) s) →
  wp (sched_prepare_for_cpu_burst t) s Q.
Proof.
  intros E Hb HQ. unfold sched_prepare_for_cpu_burst.
  wp_step. apply wp_thread with (1 := E). fold (estimate th).
  assert (estimate th < 2147483648) by (unfold estimate; lia).
  wp_step. wp_step; [lia|]. wp_step. eapply wp_thread_set; [exact E|]. wp_step.
  set (s1 := set_threads _ s). set (c := classify (estimate th)).
  eapply wp_mono; [apply (wp_scan_range
    (λ i s', s' = s1 ∧ ∀ j, 0 <= j < i → tq j < estimate th)
    (λ _ s', s' = set_threads (<[t := set_priority c th]> (threads s)) s)); [split; [done|lia]|..]|].
  - intros i s' Hi [-> Hj]. wp_step. apply wp_quantum_get; [done|]. wp_step.
    + assert (c = i) as -> by (apply classify_least; [done|done|lia]).
      wp_step. eapply wp_thread_set; [apply lookup_insert_eq|]. wp_step.
      unfold s1. sched_cbn. by rewrite insert_insert_eq.
    + wp_step. split; [done|]. intros j ?. destruct (decide (j = i)) as [->|]; [lia|apply Hj; lia].
  - intros s' [-> Hj]. unfold c. by rewrite classify_none.
  - intros _ s2 ->. wp_step. eapply wp_thread_set; [apply lookup_insert_eq|].
    wp_step. eapply wp_thread; [apply lookup_insert_eq|]. wp_step.
    apply wp_quantum_get; [apply classify_bound|]. wp_step.
    eapply wp_thread_set; [apply lookup_insert_eq|]. eapply wp_thread_set; [apply lookup_insert_eq|].
    sched_cbn. rewrite !insert_insert_eq. done.
Qed.

(** Taking the head of queue [i]. *)
Lemma qrep_pop s q i t l th th' lk :
  qrep s q → 0 <= i < 4 → q i = t :: l → threads s !! t = Some th →
  qrep (set_threads (<[t := th']> (threads s))
         (set_tails (if th_next th =? 0 then aput (ready_queue_tails s) i 0 else ready_queue_tails s)
           (set_heads (aput (ready_queue_heads s) i (th_next th)) (set_lock lk s)))) (<[i := l]> q).
Proof.
  intros R Hi Eq E. pose proof (q_chain s q R i Hi) as Hc. rewrite Eq in Hc.
  destruct Hc as (Hh & Ht & v & Ev & Hc). simplify_eq.
  pose proof (q_nodup s q R i Hi) as Hn. rewrite Eq in Hn. apply NoDup_cons in Hn as [Hn1 Hn2].
  apply qrep_set with (1 := R); sched_cbn; rewrite ?aat_aput_eq; try done.
  - apply R.
  - case_match; apply R.
  - intros j Hj Hne. rewrite aat_aput_ne by done. split_and!; [done|by case_match; rewrite ?aat_aput_ne| |].
    + apply chain_insert_ne; [|by apply (q_chain s q R)].
      apply (queued_elsewhere s q i); [done..|]. rewrite Eq. by constructor.
    + intros x Hx. apply (queued_elsewhere s q i); [done..|]. rewrite Eq. by constructor.
  - by apply chain_insert_ne.
  - pose proof (q_tail s q R i Hi) as Htl. rewrite Eq in Htl. destruct l as [|x l].
    + simpl in Hc. rewrite Hc, Z.eqb_refl. apply aat_aput_eq.
    + destruct Hc as (Hx & Hx0 & _). replace (th_next th =? 0) with false by lia. exact Htl.
Qed.

Lemma pop_members s q i t l j x :
  qrep s q → 0 <= i < 4 → q i = t :: l → 0 <= j < 4 → x ∈ (<[i := l]> q) j → t ≠ x ∧ x ∈ q j.
Proof.
  intros R Hi Eq Hj Hx. pose proof (q_nodup s q R i Hi) as Hn. rewrite Eq in Hn.
  apply NoDup_cons in Hn as [Hn1 Hn2]. destruct (decide (j = i)) as [->|Hji].
  - rewrite fn_lookup_insert in Hx. split; [by intros ->|rewrite Eq; by constructor].
  - rewrite fn_lookup_insert_ne in Hx by done. split; [|done]. intros ->.
    by apply (queued_elsewhere s q j i x); [..|rewrite Eq; constructor].
Qed.

Lemma wp_when_tail s i v (b : bool) (Q : unit → sched → Prop) :
  alen (ready_queue_tails s) = 4 → 0 <= i < 4 →
  Q tt (set_tails (if b then aput (ready_queue_tails s) i v else ready_queue_tails s) s) →
  wp (when b (tail_set i v)) s Q.
Proof.
  intros Hl Hi HQ. destruct b; [by apply wp_tail_set|].
  apply wp_ret. by destruct s.
Qed.

Lemma wp_sched_pick_next s q :
  rep s q →
  wp sched_pick_next s (λ t s',
    (t = kernel_idle_task s ∧ rep s' q ∧ frame (λ _, False) s s' ∧ ∀ i, 0 <= i < 4 → q i = []) ∨
    (∃ i l th, 0 <= i < 4 ∧ q i = t :: l ∧ (∀ j, 0 <= j < i → q j = []) ∧
       rep s' (<[i := l]> q) ∧ frame (eq t) s s' ∧ threads s !! t = Some th ∧ ready i th ∧
       threads s' !! t = Some (prepared (set_next 0 th)))).
Proof.
  intros HR. pose proof HR as [Hl R Hr (thi & Ei & Hid)]. unfold sched_pick_next.
  wp_step. apply wp_sched_lock_acquire; [done|]. fold (locked s).
  assert (qrep (locked s) q) as RL by (by apply (qrep_ext s)).
  wp_step. apply (wp_scan_range (λ i s', s' = locked s ∧ ∀ j, 0 <= j < i → q j = [])); [split; [done|lia]|..].
  - intros i s1 Hi [-> Hj]. change THREAD_NUM_PRIORITIES with 4 in Hi.
    wp_step. apply wp_head_get; [done|apply R|].
    change (ready_queue_heads (locked s)) with (ready_queue_heads s).
    pose proof (q_chain s q R i Hi) as Hc. set (t := aat _ i) in *. wp_step.
    { wp_step. split; [done|]. intros j ?. destruct (decide (j = i)) as [->|]; [|apply Hj; lia].
      apply (chain_null th_next (threads s)). by replace t with 0 in Hc by lia. }
    destruct (chain_nonnull _ _ _ _ Hc) as [l Eq]; [lia|].
    destruct (Hr i t Hi) as (th & E & Hrd); [rewrite Eq; by constructor|].
    wp_step. eapply wp_thread; [exact E|]. wp_step. apply wp_head_set; [done|apply R|].
    wp_step. apply wp_head_get; [done|apply R|].
    sched_cbn. rewrite aat_aput_eq. wp_step. apply wp_when_tail; [apply R|done|].
    wp_step. eapply wp_thread_set; [exact E|]. wp_step.
    eapply wp_sched_prepare; [apply lookup_insert_eq| |].
    { destruct Hrd. cbn. lia. }
    wp_step. apply wp_sched_lock_release; [done|]. wp_step. wp_step. right.
    match goal with |- context [set_lock _ ?x] => fold (unlocked x); set (s1 := x) end.
    assert (qrep s1 (<[i := l]> q)) as R1.
    { eapply qrep_ext; [..|by apply (qrep_pop s q i t l th (prepared (set_next 0 th)) (Spinlock 1 (cpu_if s), false))];
        [unfold s1; sched_cbn; by rewrite insert_insert_eq|done|done]. }
    assert (frame (eq t) s (unlocked s1)) as F1.
    { apply frame_unlocked; [|done]. eapply frame_trans; [eapply frame_thread_upd; [exact E|by left]|].
      eapply frame_trans; [eapply frame_thread_upd; [apply lookup_insert_eq|by left]|]. by split. }
    exists i, l, th. split_and!; [lia|lia|done|done| |done|done|done|].
    + apply (rep_frame (eq t) s _ q); [done|done|done|by apply (qrep_ext s1)|intros ->; destruct Hrd; congruence|].
      intros j x Hj' Hx. left. by apply (pop_members s q i t l).
    + apply lookup_insert_eq.
  - intros s1 [-> Hj]. wp_step. apply wp_sched_lock_release; [done|]. wp_step. left.
    match goal with |- context [set_lock _ ?x] => fold (unlocked x) end.
    assert (frame (λ _, False) s (unlocked (locked s))) as F by (by apply frame_unlocked).
    split_and!; [done| |done|intros i ?; by apply Hj].
    apply (rep_frame (λ _, False) s _ q); [done|done|done|by apply (qrep_ext s)|auto|by auto].
Qed.

(* ------------------------------------------------------------------ *)
(** ** Removing a thread *)

(** The walk of [sched_dequeue] to the predecessor of [t]. *)
Lemma wp_find_prev s q i t (Q : Z → sched → Prop) :
  qrep s q → 0 <= i < 4 → t ≠ 0 → (∀ l, q i ≠ t :: l) →
  (t ∉ q i → Q 0 s) →
  (∀ l1 c l2, q i = l1 ++ c :: t :: l2 → Q c s) →
  wp (while_n (walk_fuel s) (λ curr,
        if curr =? 0 then ret (inr 0)
        else c ← thread curr;
             if negb (th_next c =? t) then ret (inl (th_next c)) else ret (inr curr))
      (aat (ready_queue_heads s) i)) s Q.
Proof.
  intros R Hi Ht Hh Q0 Q1.
  apply (wp_while_n (λ k curr s', s' = s ∧ ∃ pre suf, q i = pre ++ suf ∧ t ∉ pre ∧
    (∀ l, suf ≠ t :: l) ∧ chain th_next (threads s) curr suf 0 ∧ k = length suf)) with (length (q i)).
  - split; [done|]. exists [], (q i). split_and!; [done|apply not_elem_of_nil|done|by apply R|done].
  - unfold walk_fuel. pose proof (chain_size _ _ _ _ _ (q_nodup s q R i Hi) (q_chain s q R i Hi)). lia.
  - intros k curr s' (-> & pre & suf & Eq & Hpre & Hsuf & Hc & ->). wp_step.
    + wp_step. apply Q0. replace curr with 0 in Hc by lia. apply chain_null in Hc as ->.
      by rewrite Eq, app_nil_r.
    + destruct (chain_nonnull _ _ _ _ Hc) as [suf' ->]; [lia|].
      destruct Hc as (_ & Hn & v & Ev & Hc). wp_step. eapply wp_thread; [exact Ev|].
      destruct (Z.eqb_spec (th_next v) t) as [Et|Et]; simpl; wp_step.
      * destruct suf' as [|x suf']; simpl in Hc.
        { congruence. }
        destruct Hc as (<- & _). eapply Q1. by rewrite Eq, Et.
      * exists (length suf'). split; [simpl; lia|]. split; [done|]. exists (pre ++ [curr]), suf'.
        rewrite <- app_assoc. split_and!; [done| | |done|done].
        -- rewrite elem_of_app, list_elem_of_singleton. intros [?|<-]; [done|]. by eapply Hsuf.
        -- intros l ->. destruct Hc as (? & _). done.
Qed.

(** Unlinking [t] from behind [c]. *)
Lemma qrep_unlink s q i l1 c t l2 thc th th' lk :
  qrep s q → 0 <= i < 4 → q i = l1 ++ c :: t :: l2 →
  threads s !! c = Some thc → threads s !! t = Some th →
  qrep (set_threads (<[t := th']> (<[c := set_next (th_next th) thc]> (threads s)))
         (set_tails (if tail_of (q i) =? t then aput (ready_queue_tails s) i c else ready_queue_tails s)
           (set_lock lk s))) (<[i := l1 ++ c :: l2]> q).
Proof.
  intros R Hi Eq Ec Et. pose proof (q_chain s q R i Hi) as Hc. pose proof (q_nodup s q R i Hi) as Hn.
  pose proof (q_tail s q R i Hi) as Htl. rewrite Eq in *.
  assert (∀ x, x ∈ l1 ++ c :: l2 → x ∈ q i) as Hsub.
  { rewrite Eq. intros x. rewrite !elem_of_app, !elem_of_cons. tauto. }
  assert (t ∉ l1 ∧ t ≠ c ∧ t ∉ l2 ∧ c ∉ l1 ∧ c ∉ l2) as (N1 & N2 & N3 & N4 & N5).
  { apply NoDup_app in Hn as (_ & A & [B [C _]%NoDup_cons]%NoDup_cons).
    repeat split; [intros H; apply (A _ H)| intros -> | |intros H; apply (A _ H)|]; rewrite ?elem_of_cons in *; tauto. }
  rewrite (cons_middle c l1 (t :: l2)), app_assoc, chain_app in Hc. destruct Hc as (x & Hc1 & -> & Ht0 & v & ? & Hc2).
  simplify_eq.
  apply qrep_set with (1 := R); sched_cbn; try done.
  - apply R.
  - case_match; apply R.
  - intros j Hj Hne. split_and!; [done|by case_match; rewrite ?aat_aput_ne| |].
    + apply chain_insert_ne; [|apply chain_insert_ne; [|by apply (q_chain s q R)]];
        apply (queued_elsewhere s q i); try done; rewrite Eq, elem_of_app, !elem_of_cons; tauto.
    + intros y Hy. apply (queued_elsewhere s q i); try done. by apply Hsub.
  - apply chain_insert_ne; [rewrite elem_of_app, elem_of_cons; tauto|].
    rewrite (cons_middle c l1 l2), app_assoc, chain_app. exists (th_next th). split.
    + eapply chain_insert_last; [done|by eexists|done|exact Hc1].
    + by apply chain_insert_ne.
  - destruct l2 as [|y l2].
    + rewrite (cons_middle c l1 [t]), app_assoc, tail_of_app, Z.eqb_refl, aat_aput_eq.
      by rewrite tail_of_app.
    + assert (∀ z l, tail_of (l1 ++ z :: l ++ y :: l2) = tail_of (y :: l2)) as K.
      { intros z l. rewrite tail_of_app_ne by done. by apply (tail_of_app_ne (z :: l)). }
      pose proof (K c [t]) as K1. pose proof (K c []) as K2. simpl in K1, K2. rewrite K1, K2 in *.
      destruct (Z.eqb_spec (tail_of (y :: l2)) t) as [Ht'|]; [|done].
      destruct N3. rewrite <- Ht'. by apply tail_of_elem.
  - rewrite (cons_middle c l1 (t :: l2)), app_assoc in Hn.
    rewrite (cons_middle c l1 l2), app_assoc, <- (without_split t) by done. by apply NoDup_filter.
Qed.

Lemma without_members s q i t j x :
  qrep s q → 0 <= i < 4 → (∀ j, 0 <= j < 4 → t ∈ q j → j = i) → 0 <= j < 4 →
  x ∈ (<[i := without t (q i)]> q) j → t ≠ x ∧ x ∈ q j.
Proof.
  intros R Hi Ht Hj Hx. destruct (decide (j = i)) as [->|Hji].
  - rewrite fn_lookup_insert, elem_of_without in Hx. naive_solver.
  - rewrite fn_lookup_insert_ne in Hx by done. split; [|done]. intros ->. by apply Hji, Ht.
Qed.

Lemma pop_tail_cond s q i t l th :
  qrep s q → 0 <= i < 4 → q i = t :: l → threads s !! t = Some th →
  (aat (ready_queue_tails s) i =? t) = (th_next th =? 0).
Proof.
  intros R Hi Eq E. pose proof (q_chain s q R i Hi) as Hc. pose proof (q_nodup s q R i Hi) as Hn.
  rewrite (q_tail s q R i Hi), Eq in *. destruct Hc as (_ & _ & v & Ev & Hc). simplify_eq.
  apply NoDup_cons in Hn as [Hn _]. destruct l as [|x l].
  - simpl in Hc. rewrite Hc. change (tail_of [t]) with t. lia.
  - destruct Hc as (-> & Hx & _). rewrite tail_of_cons_ne by done.
    pose proof (tail_of_elem (x :: l)). destruct (Z.eqb_spec (tail_of (x :: l)) t) as [Et|].
    + destruct Hn. rewrite <- Et. auto.
    + lia.
Qed.

Lemma without_head s q i t l : qrep s q → 0 <= i < 4 → q i = t :: l → without t (q i) = l.
Proof.
  intros R Hi Eq. pose proof (q_nodup s q R i Hi) as Hn. rewrite Eq in *.
  by apply (without_split t []).
Qed.

Lemma without_next s q i l1 c t l2 :
  qrep s q → 0 <= i < 4 → q i = l1 ++ c :: t :: l2 → c ≠ t ∧ without t (q i) = l1 ++ c :: l2.
Proof.
  intros R Hi Eq. pose proof (q_nodup s q R i Hi) as Hn.
  rewrite Eq, (cons_middle c l1 (t :: l2)), app_assoc in *. split.
  - apply NoDup_app in Hn as (_ & Hn & _). intros ->. apply (Hn t); [|by constructor].
    apply elem_of_app. right. by constructor.
  - rewrite without_split by done. by rewrite <- app_assoc.
Qed.

Lemma wp_queue_unlink s q i t th (Q : unit → sched → Prop) :
  qrep s q → 0 <= i < 4 → t ≠ 0 → threads s !! t = Some th →
  (∀ j, 0 <= j < 4 → t ∈ q j → j = i) →
  (∀ s', frame (λ _, False) s s' → sched_lock s' = sched_lock s → threads s' !! t = Some th →
     (∀ v, qrep (set_threads (<[t := v]> (threads s')) s') (<[i := without t (q i)]> q)) → Q tt s') →
  wp (queue_unlink i t) s Q.
Proof.
  intros R Hi Ht E Huniq HQ. pose proof (q_chain s q R i Hi) as Hc. unfold queue_unlink.
  wp_step. apply wp_head_get; [done|apply R|]. wp_step.
  - replace (aat _ i) with t in Hc by lia. destruct (chain_nonnull _ _ _ _ Hc) as [l Eq]; [lia|].
    wp_step. eapply wp_thread; [exact E|]. wp_step. apply wp_head_set; [done|apply R|].
    wp_step. apply wp_tail_get; [done|apply R|]. apply wp_when_tail; [apply R|done|].
    apply HQ; [by split|done|done|]. intros v. rewrite (without_head s q i t l) by done.
    eapply qrep_ext; [..|apply (qrep_pop s q i t l th v (sched_lock s, cpu_if s)); done]; [done|done|].
    sched_cbn. by rewrite (pop_tail_cond s q i t l th).
  - wp_step. wp_step. wp_step. apply (wp_find_prev s q); [done|done|done| | |].
    + intros l Eq. rewrite Eq in Hc. destruct Hc as [? _]. lia.
    + intros Hnot. simpl. wp_step. apply HQ; [apply frame_refl|done|done|].
      intros v. rewrite without_notin by done. apply (qrep_fun_ext _ q);
        [|intros j _; destruct (decide (j = i)) as [->|]; by rewrite ?fn_lookup_insert, ?fn_lookup_insert_ne].
      apply (qrep_thread_upd s q t v th); [done|done|].
      right. intros j Hj Hin. by rewrite (Huniq j Hj Hin) in Hin.
    + intros l1 c l2 Eq. destruct (chain_elem _ _ _ _ _ c Hc) as [Hc0 [thc Ec]];
        [rewrite Eq, elem_of_app, elem_of_cons; tauto|].
      destruct (without_next s q i l1 c t l2 R Hi Eq) as [Hct Hwo].
      replace (c =? 0) with false by lia. simpl.
      wp_step. eapply wp_thread; [exact E|].
      wp_step. eapply wp_thread_set; [exact Ec|]. wp_step. apply wp_tail_get; [done|apply R|].
      apply wp_when_tail; [apply R|done|].
      apply HQ; [by apply frame_intro with c (set_next (th_next th) thc) thc; [..|right]|done| |].
      * sched_cbn. by rewrite lookup_insert_ne.
      * intros v. rewrite Hwo.
        eapply qrep_ext; [..|by apply (qrep_unlink s q i l1 c t l2 thc th v (sched_lock s, cpu_if s))];
          [done|done|]. sched_cbn. by rewrite <- (q_tail s q R i Hi).
Qed.

Lemma wp_sched_dequeue s q t th :
  rep s q → t ≠ 0 → threads s !! t = Some th → th_tid th ≠ 0 → 0 <= th_priority th < 4 →
  wp (sched_dequeue t) s (λ _ s',
    rep s' (<[th_priority th := without t (q (th_priority th))]> q) ∧ frame (eq t) s s' ∧
    threads s' !! t = Some (set_state THREAD_STATE_DEAD (set_next 0 th))).
Proof.
  intros HR Ht E Htid Hi. pose proof HR as [Hl R Hr (thi & Ei & Hid)].
  assert (∀ j, 0 <= j < 4 → t ∈ q j → j = th_priority th) as Huniq.
  { intros j Hj Hin. destruct (Hr j t Hj Hin) as (th' & E' & []). congruence. }
  set (i := th_priority th) in *. set (thf := set_state _ _).
  unfold sched_dequeue. wp_step; [lia|]. wp_step. apply wp_thread with (1 := E). wp_step; [lia|].
  wp_step. apply wp_sched_lock_acquire; [done|]. fold i (locked s). unfold THREAD_NUM_PRIORITIES.
  replace ((i <? 0) || (4 <=? i)) with false by lia.
  wp_step. apply (wp_queue_unlink (locked s) q i t th); [by apply (qrep_ext s)|done..|].
  intros s1 F1 L1 E1 R1. apply wp_thread_set_fuse. wp_step. eapply wp_thread_set; [exact E1|].
  apply wp_sched_lock_release; [by sched_cbn; rewrite L1|].
  match goal with |- context [set_lock _ ?x] => fold (unlocked x); set (s2 := x) end.
  assert (frame (eq t) s (unlocked s2)) as F.
  { apply frame_unlocked; [|done]. eapply frame_trans; [by apply (frame_mono _ _ _ _ F1)|].
    by apply frame_intro with t thf th; [..|left]. }
  split; [|split; [done|apply lookup_insert_eq]].
  apply (rep_frame (eq t) s _ q); [done|done|done|by apply (qrep_ext s2), R1|congruence|].
  intros j x Hj Hx. left. by apply (without_members s q i t).
Qed.

(* ------------------------------------------------------------------ *)
(** ** Aging *)

Definition members (s : sched) (q : Z → list Z) : Prop :=
  ∀ i t, 0 <= i < 4 → t ∈ q i → ∃ th, threads s !! t = Some th ∧ ready i th.

(** [t] has waited [threshold] ticks at least. *)
Definition waited (s : sched) (threshold t : Z) : bool :=
  match threads s !! t with
  | Some th => threshold <=? u32 (g_time_tick s - th_last_enqueue th)
  | None => false
  end.

(** Queue [i] after the threads in [W] have gone to the back of queue [i - 1]. *)
Definition promote (W : Z → bool) (q : Z → list Z) (i : Z) : Z → list Z :=
  <[i - 1 := q (i - 1) ++ filter (λ x, W x) (q i)]> (<[i := filter (λ x, negb (W x)) (q i)]> q).

Definition promoted (tick p : Z) (th : thread_t) : thread_t :=
  set_last_enqueue (u32 tick) (set_next 0 (set_priority p th)).

Lemma wp_aging_unlink s q i kept c rem th (Q : unit → sched → Prop) :
  qrep s q → 0 <= i < 4 → q i = kept ++ c :: rem → threads s !! c = Some th →
  (∀ s', frame (λ _, False) s s' → sched_lock s' = sched_lock s → threads s' !! c = Some th →
     (∀ v, qrep (set_threads (<[c := v]> (threads s')) s') (<[i := kept ++ rem]> q)) → Q tt s') →
  wp (aging_unlink i c (tail_of kept)) s Q.
Proof.
  intros R Hi Eq E HQ. pose proof (q_chain s q R i Hi) as Hc. unfold aging_unlink.
  wp_step. eapply wp_thread; [exact E|].
  destruct kept as [|prev kept _] using rev_ind.
  - simpl in *. wp_step. apply wp_head_set; [done|apply R|].
    wp_step. apply wp_tail_get; [done|apply R|]. apply wp_when_tail; [apply R|done|].
    apply HQ; [by split|done|done|]. intros v.
    eapply qrep_ext; [..|apply (qrep_pop s q i c rem th v (sched_lock s, cpu_if s)); done]; [done|done|].
    sched_cbn. by rewrite (pop_tail_cond s q i c rem th).
  - rewrite tail_of_app. rewrite <- app_assoc in Eq. simpl in Eq.
    destruct (chain_elem _ _ _ _ _ prev Hc) as [Hp [thp Ep]];
      [rewrite Eq, elem_of_app, elem_of_cons; tauto|].
    destruct (without_next s q i kept prev c rem R Hi Eq) as [Hne _].
    replace (prev =? 0) with false by lia. simpl.
    wp_step. eapply wp_thread_set; [exact Ep|]. wp_step. apply wp_tail_get; [done|apply R|].
    apply wp_when_tail; [apply R|done|].
    apply HQ; [by apply frame_intro with prev (set_next (th_next th) thp) thp; [..|right]|done| |].
    + sched_cbn. by rewrite lookup_insert_ne.
    + intros v. rewrite <- app_assoc. simpl.
      eapply qrep_ext; [..|by apply (qrep_unlink s q i kept prev c rem thp th v (sched_lock s, cpu_if s))];
        [done|done|]. sched_cbn. by rewrite <- (q_tail s q R i Hi).
Qed.

Lemma set_next_promoted n tick p th :
  promoted tick p (set_next n th) = promoted tick p th.
Proof. done. Qed.

Section age_level.
Context (s : sched) (q : Z → list Z) (i thr : Z).
Context (R : qrep s q) (Hm : members s q) (Hi : 1 <= i < 4).

Let W (x : Z) : bool := waited s thr x.
Let kept (d : list Z) : list Z := filter (λ x, negb (W x)) d.
Let prom (d : list Z) : list Z := filter (λ x, W x) d.
Let mid (d suf : list Z) : Z → list Z :=
  <[i - 1 := q (i - 1) ++ prom d]> (<[i := kept d ++ suf]> q).

(** The state when the prefix [d] of queue [i] has been examined. *)
Record age_inv (d suf : list Z) (s1 : sched) : Prop := {
  ai_split : q i = d ++ suf;
  ai_q : qrep s1 (mid d suf);
  ai_frame : frame (λ x, x ∈ prom d) s s1;
  ai_lock : sched_lock s1 = sched_lock s;
  ai_prom : ∀ x th, x ∈ prom d → threads s !! x = Some th →
    ∃ n, threads s1 !! x = Some (set_next n (promoted (g_time_tick s) (i - 1) th))
}.

Lemma mid_i d suf : mid d suf i = kept d ++ suf.
Proof using Type. unfold mid. by rewrite fn_lookup_insert_ne, fn_lookup_insert by lia. Qed.

Lemma mid_pred d suf : mid d suf (i - 1) = q (i - 1) ++ prom d.
Proof using Type. unfold mid. by rewrite fn_lookup_insert. Qed.

Lemma age_inv_init : age_inv [] (q i) s.
Proof using R.
  split; [done| |apply frame_refl|done|by intros x th ?%not_elem_of_nil].
  apply (qrep_fun_ext _ q); [done|]. intros j _. unfold mid. simpl.
  destruct (decide (j = i - 1)) as [->|]; [by rewrite fn_lookup_insert, app_nil_r|].
  rewrite fn_lookup_insert_ne by done.
  destruct (decide (j = i)) as [->|]; by rewrite ?fn_lookup_insert, ?fn_lookup_insert_ne.
Qed.

(** The next candidate: its block is the old one up to [next]. *)
Lemma age_inv_next d c suf s1 :
  age_inv d (c :: suf) s1 →
  ∃ th n, threads s !! c = Some th ∧ ready i th ∧ c ≠ 0 ∧ c ∉ d ∧
    threads s1 !! c = Some (set_next n th) ∧ n = default 0 (head suf) ∧
    W c = (thr <=? u32 (g_time_tick s - th_last_enqueue th)).
Proof using R Hm Hi.
  intros [Es Rs F L P]. assert (c ∈ q i) as Hin by (rewrite Es, elem_of_app, elem_of_cons; tauto).
  destruct (Hm i c ltac:(lia) Hin) as (th & E & Hrd).
  pose proof (q_nodup s q R i ltac:(lia)) as Hn. rewrite Es in Hn.
  assert (c ∉ d) as Hd.
  { apply NoDup_app in Hn as (_ & Hn & _). intros Hc. apply (Hn _ Hc). by constructor. }
  destruct (frame_thread _ _ _ c th F) as [n En]; [|done|].
  { unfold prom. rewrite list_elem_of_filter. tauto. }
  pose proof (q_chain s1 _ Rs i ltac:(lia)) as Hc. rewrite mid_i, chain_app in Hc.
  destruct Hc as (x & _ & Hx & Hc0 & v & Ev & Hc). simplify_eq/=.
  exists th, n. split_and!; try done.
  - by apply chain_head in Hc.
  - unfold W, waited. by rewrite E.
Qed.

Lemma age_inv_keep d c suf s1 :
  age_inv d (c :: suf) s1 → W c = false → age_inv (d ++ [c]) suf s1.
Proof using Type.
  intros [Es Rs F L P] Hw.
  assert (kept (d ++ [c]) = kept d ++ [c] ∧ prom (d ++ [c]) = prom d) as [K1 K2].
  { unfold kept, prom. rewrite (filter_snoc W), (filter_snoc (λ x, negb (W x))), Hw. simpl.
    by rewrite app_nil_r. }
  split; rewrite ?K2; try done.
  - by rewrite <- app_assoc.
  - unfold mid. rewrite K1, K2, <- app_assoc. exact Rs.
Qed.

Lemma kept_tail d c : W c = false → tail_of (kept (d ++ [c])) = c.
Proof using Type.
  intros Hw. unfold kept. rewrite (filter_snoc (λ x, negb (W x))), Hw. apply tail_of_app.
Qed.

Lemma age_unqueued d c suf :
  q i = d ++ c :: suf → unqueued (<[i := kept d ++ suf]> (mid d (c :: suf))) c.
Proof using R Hi.
  intros Es. pose proof (q_nodup s q R i ltac:(lia)) as Hn. rewrite Es in Hn.
  apply NoDup_app in Hn as (_ & Hd & [Hs _]%NoDup_cons).
  assert (c ∉ d) as Hcd by (intros Hc; apply (Hd _ Hc); by constructor).
  assert (c ∈ q i) as Hin by (rewrite Es, elem_of_app, elem_of_cons; tauto).
  apply unqueued_insert; [lia|]. unfold mid, kept, prom. split.
  - rewrite elem_of_app, list_elem_of_filter. tauto.
  - intros j Hj Hji. destruct (decide (j = i - 1)) as [->|].
    + rewrite fn_lookup_insert, elem_of_app, list_elem_of_filter. intros [H|[_ H]]; [|done].
      by apply (queued_elsewhere s q i (i - 1) c R ltac:(lia) Hj).
    + rewrite !fn_lookup_insert_ne by done. by apply (queued_elsewhere s q i j c R ltac:(lia) Hj).
Qed.

Lemma age_inv_promote d c suf th s1 s4 n thc :
  age_inv d (c :: suf) s1 → W c = true → threads s !! c = Some th →
  frame (eq c) s1 s4 → sched_lock s4 = sched_lock s1 →
  threads s4 !! c = Some (set_next n thc) → thc = promoted (g_time_tick s) (i - 1) th →
  qrep s4 (<[i - 1 := (q (i - 1) ++ prom d) ++ [c]]> (<[i := kept d ++ suf]> (mid d (c :: suf)))) →
  age_inv (d ++ [c]) suf s4.
Proof using Hi.
  intros [Es Rs F L P] Hw E F4 L4 E4 -> R4.
  assert (kept (d ++ [c]) = kept d ∧ prom (d ++ [c]) = prom d ++ [c]) as [K1 K2].
  { unfold kept, prom. rewrite (filter_snoc W), (filter_snoc (λ x, negb (W x))), Hw. simpl.
    by rewrite app_nil_r. }
  split; rewrite ?K2.
  - by rewrite <- app_assoc.
  - apply (qrep_fun_ext _ _ _ R4). intros j _. unfold mid. rewrite K1, K2.
    destruct (decide (j = i - 1)) as [->|]; [by rewrite !fn_lookup_insert, app_assoc|].
    rewrite !(fn_lookup_insert_ne _ (i - 1)) by done.
    destruct (decide (j = i)) as [->|]; by rewrite ?fn_lookup_insert, ?fn_lookup_insert_ne.
  - eapply frame_trans; [apply (frame_mono _ _ _ _ F)|apply (frame_mono _ _ _ _ F4)];
      intros x; rewrite elem_of_app, list_elem_of_singleton; naive_solver.
  - congruence.
  - intros x thx [Hx| ->%list_elem_of_singleton]%elem_of_app Ex; [|simplify_eq; eauto].
    destruct (P x thx Hx Ex) as [n1 E1]. destruct (decide (c = x)) as [<-|Hne]; [simplify_eq; eauto|].
    destruct (frame_thread _ _ _ _ _ F4 Hne E1) as [n2 E2]. by exists n2.
Qed.

Lemma wp_aging_step d suf s1 (Q : (Z * Z) + unit → sched → Prop) :
  age_inv d suf s1 →
  (suf = [] → Q (inr tt) s1) →
  (∀ c suf' s2, suf = c :: suf' → age_inv (d ++ [c]) suf' s2 →
     Q (inl (default 0 (head suf'), tail_of (kept (d ++ [c])))) s2) →
  wp (aging_step thr i (default 0 (head suf), tail_of (kept d))) s1 Q.
Proof using R Hm Hi.
  intros A Q0 Q1. unfold aging_step. destruct suf as [|c suf]; simpl; [wp_step; by apply Q0|].
  destruct (age_inv_next d c suf s1 A) as (th & n & E & Hrd & Hc0 & Hd & E1 & Hn & Hw).
  replace (c =? 0) with false by lia. wp_step. unfold timer_tick_get. wp_step.
  wp_step. eapply wp_thread; [exact E1|]. pose proof A as [Es Rs F L P].
  rewrite (frame_tick _ _ _ F). change (th_last_enqueue (set_next n th)) with (th_last_enqueue th).
  rewrite <- Hw. destruct (W c) eqn:Ew; simpl.
  - wp_step. eapply (wp_aging_unlink s1 (mid d (c :: suf)) i (kept d) c suf); [done|lia|apply mid_i|exact E1|].
    intros s2 F2 L2 E2 R2. wp_step. eapply wp_thread; [exact E2|].
    do 2 apply wp_thread_set_fuse. wp_step. eapply wp_thread_set; [exact E2|].
    set (thp := set_last_enqueue _ _). set (s3 := set_threads _ s2). wp_step.
    eapply wp_mono; [apply (wp_queue_append s3 _ (i - 1) c thp (R2 thp)); [lia|done| |apply lookup_insert_eq|done]|].
    { by apply age_unqueued. }
    intros [] s4 (R4 & F4 & L4 & E4). wp_step. simpl.
    replace (tail_of (kept d)) with (tail_of (kept (d ++ [c]))).
    2:{ unfold kept. rewrite (filter_snoc (λ x, negb (W x))), Ew. simpl. by rewrite app_nil_r. }
    rewrite Hn. apply Q1; [done|].
    apply (age_inv_promote d c suf th s1 s4 0 thp); try done.
    + eapply frame_trans; [by apply (frame_mono _ _ _ _ F2)|].
      eapply frame_trans; [eapply frame_thread_upd; [exact E2|by left]|by apply (frame_mono _ _ _ _ F4)].
    + rewrite L4. exact L2.
    + rewrite fn_lookup_insert_ne, mid_pred in R4 by lia. exact R4.
  - wp_step. pose proof (Q1 c suf s1 eq_refl (age_inv_keep d c suf s1 A Ew)) as K.
    rewrite (kept_tail d c Ew), <- Hn in K. exact K.
Qed.

Lemma wp_aging_level (Q : unit → sched → Prop) :
  (∀ s', age_inv (q i) [] s' → Q tt s') → wp (aging_level thr i) s Q.
Proof using R Hm Hi.
  intros HQ. unfold aging_level. wp_step. apply wp_head_get; [lia|apply R|].
  wp_step. wp_step. pose proof (q_chain s q R i ltac:(lia)) as Hc.
  rewrite (chain_head _ _ _ _ _ Hc).
  apply (wp_while_n (λ k v s1, ∃ d suf, age_inv d suf s1 ∧ k = length suf ∧
    v = (default 0 (head suf), tail_of (kept d)))) with (length (q i)).
  - exists [], (q i). split_and!; [apply age_inv_init|done|done].
  - unfold walk_fuel. pose proof (chain_size _ _ _ _ _ (q_nodup s q R i ltac:(lia)) Hc). lia.
  - intros k v s1 (d & suf & A & -> & ->). apply wp_aging_step with (1 := A).
    + intros ->. apply HQ. pose proof (ai_split _ _ _ A) as Es. rewrite app_nil_r in Es. by rewrite Es.
    + intros c suf' s2 -> A2. exists (length suf'). split; [simpl; lia|]. eauto.
Qed.
End age_level.

Section aging.
Context (s : sched) (q : Z → list Z) (thr : Z).
Context (R : qrep s q) (Hm : members s q).

Let W (x : Z) : bool := waited s thr x.

(** The queues when the levels below [i] have been aged. *)
Definition aged_to (i j : Z) : list Z :=
  (if (j =? 0) || (i <=? j) then q j else filter (λ x, negb (W x)) (q j)) ++
  (if j + 1 <? i then filter (λ x, W x) (q (j + 1)) else []).

Record aging_inv (i : Z) (s1 : sched) : Prop := {
  gi_q : qrep s1 (aged_to i);
  gi_members : members s1 (aged_to i);
  gi_frame : frame (λ x, ∃ j, 1 <= j < i ∧ x ∈ q j) s s1;
  gi_lock : sched_lock s1 = sched_lock s;
  gi_prom : ∀ j x th, 1 <= j < i → x ∈ q j → W x = true → threads s !! x = Some th →
    ∃ n, threads s1 !! x = Some (set_next n (promoted (g_time_tick s) (j - 1) th))
}.

Lemma aged_to_ge i j : i <= j → aged_to i j = q j.
Proof using Type.
  intros H. unfold aged_to. replace ((j =? 0) || (i <=? j)) with true by lia.
  replace (j + 1 <? i) with false by lia. apply app_nil_r.
Qed.

Lemma aging_inv_init : aging_inv 1 s.
Proof using R Hm.
  assert (∀ j, 0 <= j < 4 → aged_to 1 j = q j) as H.
  { intros j Hj. unfold aged_to. replace ((j =? 0) || (1 <=? j)) with true by lia.
    replace (j + 1 <? 1) with false by lia. apply app_nil_r. }
  split; [by apply (qrep_fun_ext _ q)| |apply frame_refl|done|lia].
  intros j x Hj. rewrite H by done. by apply Hm.
Qed.

(** Threads of the levels still to come have not been touched. *)
Lemma aging_untouched i j s1 x :
  aging_inv i s1 → 1 <= i <= j → j < 4 → x ∈ q j →
  ∃ th n, threads s !! x = Some th ∧ threads s1 !! x = Some (set_next n th) ∧
          waited s1 thr x = W x.
Proof using R Hm.
  intros [Rs Ms F L P] Hi Hj Hx. destruct (Hm j x ltac:(lia) Hx) as (th & E & _).
  destruct (frame_thread _ _ _ x th F) as [n En]; [|done|].
  - intros (j' & Hj' & Hx'). pose proof (q_disj s q R j j' x ltac:(lia) ltac:(lia) Hx Hx'). lia.
  - exists th, n. split_and!; [done..|]. unfold W, waited. by rewrite E, En, (frame_tick _ _ _ F).
Qed.

Lemma aged_to_S i s1 j :
  aging_inv i s1 → 1 <= i < 4 → 0 <= j < 4 →
  promote (waited s1 thr) (aged_to i) i j = aged_to (i + 1) j.
Proof using R Hm.
  intros A Hi Hj. unfold promote. rewrite (aged_to_ge i i) by lia.
  assert (∀ x, x ∈ q i → waited s1 thr x = W x) as Hw.
  { intros x Hx. by destruct (aging_untouched i i s1 x A ltac:(lia) ltac:(lia) Hx) as (? & ? & _ & _ & ?). }
  rewrite (filter_bool_ext (waited s1 thr) W) by done.
  rewrite (filter_bool_ext (λ x, negb (waited s1 thr x)) (λ x, negb (W x))) by (intros; by rewrite Hw).
  destruct (decide (j = i - 1)) as [->|]; [|destruct (decide (j = i)) as [->|]];
    rewrite ?fn_lookup_insert, ?(fn_lookup_insert_ne _ (i - 1)), ?fn_lookup_insert,
      ?fn_lookup_insert_ne by lia; unfold aged_to.
  - replace (i - 1 + 1 <? i) with false by lia. replace (i - 1 + 1 <? i + 1) with true by lia.
    replace (i <=? i - 1) with (i + 1 <=? i - 1) by lia. rewrite app_nil_r. do 3 f_equal. lia.
  - replace ((i =? 0) || (i + 1 <=? i)) with false by lia.
    replace (i + 1 <? i + 1) with false by lia. by rewrite app_nil_r.
  - replace (i <=? j) with (i + 1 <=? j) by lia. by replace (j + 1 <? i) with (j + 1 <? i + 1) by lia.
Qed.

Lemma aging_members_S i s1 s2 :
  aging_inv i s1 → 1 <= i < 4 → age_inv s1 (aged_to i) i thr (aged_to i i) [] s2 →
  members s2 (promote (waited s1 thr) (aged_to i) i).
Proof using Type.
  intros [Rs Ms F L P] Hi [_ Rs2 F2 _ P2] j x Hj Hx. unfold promote in Hx.
  assert (∀ k, 0 <= k < 4 → x ∈ aged_to i k → (k = i → waited s1 thr x = false) →
               ∃ th, threads s2 !! x = Some th ∧ ready k th) as Hkeep.
  { intros k Hk Hin Hki. destruct (Ms k x Hk Hin) as (th & E & Hrd).
    destruct (frame_thread _ _ _ x th F2) as [n En]; [|done|eauto using ready_set_next].
    rewrite list_elem_of_filter. intros [Hw Hin'].
    pose proof (q_disj _ _ Rs k i x Hk ltac:(lia) Hin Hin'). rewrite Hki in Hw by done. done. }
  destruct (decide (j = i - 1)) as [->|]; [|destruct (decide (j = i)) as [->|]].
  - rewrite fn_lookup_insert in Hx. apply elem_of_app in Hx as [Hx|Hx]; [apply Hkeep; [lia|done|lia]|].
    pose proof Hx as [_ Hin]%list_elem_of_filter.
    destruct (Ms i x ltac:(lia) Hin) as (th & E & [? ? ? ? ?]).
    destruct (P2 x th Hx E) as [n En]. exists (set_next n (promoted (g_time_tick s1) (i - 1) th)).
    split; [done|]. by split.
  - rewrite fn_lookup_insert_ne, fn_lookup_insert in Hx by lia.
    apply list_elem_of_filter in Hx as [Hw Hin]. apply Hkeep; [lia|done|]. intros _.
    by destruct (waited s1 thr x).
  - rewrite !fn_lookup_insert_ne in Hx by lia. apply Hkeep; [lia|done|]. by intros ->.
Qed.

Lemma aging_inv_S i s1 s2 :
  aging_inv i s1 → 1 <= i < 4 → age_inv s1 (aged_to i) i thr (aged_to i i) [] s2 →
  aging_inv (i + 1) s2.
Proof using R Hm.
  intros A Hi B. pose proof A as [Rs Ms F L P]. pose proof B as [_ Rs2 F2 L2 P2].
  split.
  - apply (qrep_fun_ext _ _ _ Rs2). intros j Hj. rewrite <- (aged_to_S i s1 j) by done.
    unfold promote. by rewrite app_nil_r.
  - intros j x Hj. rewrite <- (aged_to_S i s1 j) by done. by apply aging_members_S.
  - eapply frame_trans; [apply (frame_mono _ _ _ _ F)|apply (frame_mono _ _ _ _ F2)].
    + intros x (j & ? & ?). exists j. split; [lia|done].
    + intros x [_ Hx]%list_elem_of_filter. rewrite aged_to_ge in Hx by lia. exists i. split; [lia|done].
  - congruence.
  - intros j x th Hj Hx Hw E. destruct (decide (j = i)) as [->|Hne].
    + destruct (aging_untouched i i s1 x A ltac:(lia) ltac:(lia) Hx) as (th' & n & E' & E1 & Hw1).
      simplify_eq. destruct (P2 x (set_next n th)) as [n2 E2]; [|done|].
      * apply list_elem_of_filter. rewrite aged_to_ge, Hw1, Hw by lia. done.
      * exists n2. by rewrite E2, (frame_tick _ _ _ F).
    + destruct (P j x th ltac:(lia) Hx Hw E) as [n E1].
      apply (frame_thread _ _ _ x _ F2) in E1 as [n2 E2]; [by exists n2|].
      rewrite list_elem_of_filter. intros [_ Hin]. rewrite aged_to_ge in Hin by lia.
      pose proof (q_disj s q R j i x ltac:(lia) ltac:(lia) Hx Hin). lia.
Qed.

Lemma wp_aging_levels :
  wp (for_range 1 THREAD_NUM_PRIORITIES (aging_level thr)) s (λ _, aging_inv 4).
Proof using R Hm.
  eapply wp_mono; [apply (wp_for_range aging_inv); [apply aging_inv_init|]|].
  - intros i s1 Hi A. apply (wp_aging_level s1 (aged_to i)); [by apply A|by apply A|done|].
    intros s2 B. by apply (aging_inv_S i s1).
  - by intros [] s'.
Qed.
End aging.

(** Every thread of the lower three queues goes up one level, in order, when
    the threshold is 0. *)
Definition all_promoted (q : Z → list Z) (j : Z) : list Z :=
  (if j =? 0 then q 0 else []) ++ (if j <? 3 then q (j + 1) else []).

Lemma aged_to_all s q thr j :
  members s q → thr <= 0 → 0 <= j < 4 → aged_to s q thr 4 j = all_promoted q j.
Proof.
  intros Hm Ht Hj. unfold aged_to, all_promoted.
  assert (∀ k x, 0 <= k < 4 → x ∈ q k → waited s thr x = true) as Hw.
  { intros k x Hk Hx. destruct (Hm k x Hk Hx) as (th & E & _). unfold waited. rewrite E.
    pose proof (u32_range (g_time_tick s - th_last_enqueue th)). ulia. }
  f_equal.
  - destruct (Z.eqb_spec j 0) as [->|]; [done|]. replace (false || (4 <=? j)) with false by lia.
    rewrite (filter_bool_ext _ (λ _, false)) by (intros x Hx; by rewrite (Hw j x)).
    by induction (q j).
  - replace (j + 1 <? 4) with (j <? 3) by lia. destruct (Z.ltb_spec j 3); [|done].
    apply filter_all. intros x Hx. rewrite (Hw (j + 1) x); [done|lia|done].
Qed.

(* ------------------------------------------------------------------ *)
(** ** Theorems *)

(** A small system: the idle thread, a running thread and a new one, all of
    the process at 1000. *)
Definition demo_thread (tid prio : Z) (st : thread_state) : thread_t :=
  Thread tid 1000 0 80 0 0 0 0 st prio THREAD_MODE_USER 0 0 0.
Definition demo : sched :=
  Sched (<[100 := demo_thread 0 3 THREAD_STATE_NEW]>
        (<[200 := demo_thread 1 1 THREAD_STATE_RUNNING]>
        (<[300 := demo_thread 2 2 THREAD_STATE_NEW]> ∅)))
    (mk_arr 4 0) (mk_arr 4 0) 100 (Spinlock 0 false) 0 200 0 true 0 ∅ ∅.

Lemma demo_rep : rep demo (λ _, []).
Proof.
  split; [done| |by intros i t ? ?%not_elem_of_nil|by eexists].
  split; [done|done|done|done|constructor|]. by intros i j t ? ? ?%not_elem_of_nil.
Qed.

Lemma demo_new : threads demo !! 300 = Some (demo_thread 2 2 THREAD_STATE_NEW).
Proof. reflexivity. Qed.

Lemma demo_unqueued t : unqueued (λ _, []) t.
Proof. intros i _. apply not_elem_of_nil. Qed.

(** Making a thread ready appends it to the queue of its priority. The
    lock is taken and given back with the interrupt flag as it was, the thread
    becomes READY with a fresh quantum, and no other thread changes beyond its
    link. *)
Theorem sched_enqueue_fifo s q t th :
  rep s q → t ≠ 0 → unqueued q t → threads s !! t = Some th → schedulable th →
  ∃ s', sched_enqueue t s = Some (tt, s') ∧
    rep s' (<[th_priority th := q (th_priority th) ++ [t]]> q) ∧
    threads s' !! t = Some (enqueued (g_time_tick s) th) ∧ cpu_if s' = cpu_if s ∧
    (∀ p thp, p ≠ t → threads s !! p = Some thp → ∃ n, threads s' !! p = Some (set_next n thp)).
Proof.
  intros R Ht Hu E Hs.
  destruct (wp_elim _ _ _ (wp_sched_enqueue s q t th R Ht Hu E Hs)) as ([] & s' & Es & R' & F & E').
  exists s'. split_and!; [done|done|done|pose proof (fr_rest _ _ _ F) as H; unfold rest in H; congruence|].
  intros p thp Hp Ep. by apply (frame_thread _ _ _ _ _ F).
Qed.

Lemma sched_enqueue_fifo_witness :
  ∃ s', sched_enqueue 300 demo = Some (tt, s') ∧ rep s' (<[2 := [300]]> (λ _, [])).
Proof.
  destruct (sched_enqueue_fifo demo (λ _, []) 300 (demo_thread 2 2 THREAD_STATE_NEW) demo_rep)
    as (s' & Es & R & _);
    [discriminate|apply demo_unqueued|exact demo_new|split; simpl; lia|].
  exists s'. split; [exact Es|exact R].
Defined.

(** The choice of the next thread is by strict priority and first come
    first served within a level: the head of the first non-empty queue leaves
    it, reclassified with a fresh slice; the idle thread is chosen exactly when
    all four queues are empty. *)
Theorem sched_pick_next_highest s q :
  rep s q →
  ∃ t s', sched_pick_next s = Some (t, s') ∧ cpu_if s' = cpu_if s ∧
    ((t = kernel_idle_task s ∧ (∀ i, 0 <= i < 4 → q i = []) ∧ rep s' q) ∨
     (∃ i l th, 0 <= i < 4 ∧ q i = t :: l ∧ (∀ j, 0 <= j < i → q j = []) ∧
        rep s' (<[i := l]> q) ∧ threads s !! t = Some th ∧
        threads s' !! t = Some (prepared (set_next 0 th)))).
Proof.
  intros R. destruct (wp_elim _ _ _ (wp_sched_pick_next s q R)) as (t & s' & Es & H).
  exists t, s'. split; [done|]. destruct H as [(-> & R' & F & He)|(i & l & th & Hi & Eq & Hj & R' & F & E & _ & E')];
    (split; [pose proof (fr_rest _ _ _ F) as H; unfold rest in H; congruence|]).
  - by left.
  - right. exists i, l, th. done.
Qed.

Lemma sched_pick_next_highest_witness :
  ∃ s1 t s', sched_enqueue 300 demo = Some (tt, s1) ∧ sched_pick_next s1 = Some (t, s') ∧
    t = 300 ∧ cpu_if s' = true.
Proof.
  destruct (wp_elim _ _ _ (wp_sched_enqueue demo (λ _, []) 300 (demo_thread 2 2 THREAD_STATE_NEW)
    demo_rep ltac:(discriminate) (demo_unqueued 300) demo_new ltac:(split; simpl; lia)))
    as ([] & s1 & Es & R & F & _).
  destruct (sched_pick_next_highest s1 _ R) as (t & s' & Ep & Hif & H).
  exists s1, t, s'. split; [exact Es|]. split; [exact Ep|]. split.
  - destruct H as [(_ & He & _)|(i & l & th & Hi & Eq & _)].
    + specialize (He 2 ltac:(lia)). discriminate He.
    + simpl in Eq. unfold insert, fn_insert in Eq. case_decide; [|discriminate Eq].
      injection Eq as Eq _. symmetry. exact Eq.
  - rewrite Hif. pose proof (fr_rest _ _ _ F) as H'. unfold rest in H'. simplify_eq/=. assumption.
Defined.

(** Taking a thread out of the scheduler removes it, wherever it is in its
    queue, keeps the order of the others and marks it DEAD; a thread in no
    queue is only marked. *)
Theorem sched_dequeue_removes s q t th :
  rep s q → t ≠ 0 → threads s !! t = Some th → th_tid th ≠ 0 → 0 <= th_priority th < 4 →
  ∃ s', sched_dequeue t s = Some (tt, s') ∧
    rep s' (<[th_priority th := without t (q (th_priority th))]> q) ∧
    threads s' !! t = Some (set_state THREAD_STATE_DEAD (set_next 0 th)) ∧
    (∀ p thp, p ≠ t → threads s !! p = Some thp → ∃ n, threads s' !! p = Some (set_next n thp)).
Proof.
  intros R Ht E Htid Hp.
  destruct (wp_elim _ _ _ (wp_sched_dequeue s q t th R Ht E Htid Hp)) as ([] & s' & Es & R' & F & E').
  exists s'. split_and!; [done|done|done|]. intros p thp Hne Ep. by apply (frame_thread _ _ _ _ _ F).
Qed.

Lemma sched_dequeue_removes_witness :
  ∃ s1 s2, sched_enqueue 300 demo = Some (tt, s1) ∧ sched_dequeue 300 s1 = Some (tt, s2) ∧
    rep s2 (<[2 := []]> (<[2 := [300]]> (λ _, []))).
Proof.
  destruct (wp_elim _ _ _ (wp_sched_enqueue demo (λ _, []) 300 (demo_thread 2 2 THREAD_STATE_NEW)
    demo_rep ltac:(discriminate) (demo_unqueued 300) demo_new ltac:(split; simpl; lia)))
    as ([] & s1 & Es & R & F & E).
  destruct (sched_dequeue_removes s1 _ 300 _ R ltac:(discriminate) E) as (s2 & Ed & R2 & _);
    [discriminate|simpl; lia|].
  exists s1, s2. split; [exact Es|]. split; [exact Ed|exact R2].
Defined.

(** One aging pass. With the threshold the code computes, every thread of
    the lower three queues goes up exactly one level, keeping its order behind
    the threads already there, whatever it has waited; each gets the level's
    priority and a new waiting clock. *)
Theorem sched_apply_aging_promotes s q :
  qrep s q → members s q →
  ∃ s', sched_apply_aging s = Some (tt, s') ∧ qrep s' (all_promoted q) ∧ members s' (all_promoted q) ∧
    (∀ j x th, 1 <= j < 4 → x ∈ q j → threads s !! x = Some th →
       ∃ n, threads s' !! x = Some (set_next n (promoted (g_time_tick s) (j - 1) th))).
Proof.
  intros R Hm. destruct (wp_elim _ _ _ (wp_aging_levels s q aging_threshold R Hm)) as ([] & s' & Es & [R' M' F L P]).
  assert (∀ j, 0 <= j < 4 → all_promoted q j = aged_to s q aging_threshold 4 j) as Hall.
  { intros j Hj. symmetry. by apply aged_to_all. }
  exists s'. split_and!; [done|by apply (qrep_fun_ext _ _ _ R')| |].
  - intros j x Hj. rewrite Hall by done. by apply M'.
  - intros j x th Hj Hx E. apply (P j); [done|done| |done]. unfold waited. rewrite E.
    pose proof (u32_range (g_time_tick s - th_last_enqueue th)). change aging_threshold with 0. unfold is_u32 in *. lia.
Qed.

Lemma sched_apply_aging_promotes_witness :
  ∃ s1 s2, sched_enqueue 300 demo = Some (tt, s1) ∧ sched_apply_aging s1 = Some (tt, s2) ∧
    qrep s2 (all_promoted (<[2 := [300]]> (λ _, []))).
Proof.
  destruct (wp_elim _ _ _ (wp_sched_enqueue demo (λ _, []) 300 (demo_thread 2 2 THREAD_STATE_NEW)
    demo_rep ltac:(discriminate) (demo_unqueued 300) demo_new ltac:(split; simpl; lia)))
    as ([] & s1 & Es & [_ R M _] & F & E).
  destruct (sched_apply_aging_promotes s1 _ R M) as (s2 & Ea & R2 & _).
  exists s1, s2. split; [exact Es|]. split; [exact Ea|exact R2].
Defined.
