(* ===== verification/Tick.v ===== *)
(** * Time, sleeping and blocking

    [kernel/src/sched/sleep.c], [kernel/src/sched/timer.c],
    [kernel/src/sched/sys_yield.c] and the tick
    handler of [kernel/src/sched/sched.c], over the queues of [Sched]. A call
    that switches threads is modelled up to the switch; what its caller does
    when it is resumed is a definition of its own. *)

From S2P Require Import Prelude Chain Sched.

(* ------------------------------------------------------------------ *)
(** ** Sleeping *)

Definition wake_up_sleeping (g_curr_tick : Z) : M sched unit :=
  n ← gets walk_fuel;
  while_n n (λ _ : unit,
    h ← gets sleep_queue_head;
    if h =? 0 then ret (inr tt)
    else
      th ← thread h;
      if th_wakeup th <=? g_curr_tick then
        modify (set_sleep_head (th_next_sleep th)) ;;
        thread_set h (set_next_sleep 0) ;;
        sched_enqueue h ;;
        ret (inl tt)
      else ret (inr tt)) tt.

(** The walk to the last sleeper that wakes no later than [t]. *)
Definition sleeper_before (t : Z) (curr : Z) : M sched (Z + Z) :=
  c ← thread curr;
  if th_next_sleep c =? 0 then ret (inr curr)
  else
    n ← thread (th_next_sleep c);
    me ← thread t;
    if th_wakeup n <=? th_wakeup me then ret (inl (th_next_sleep c)) else ret (inr curr).

Definition enqueue_sleeper (t wake_up_time : Z) : M sched unit :=
  thread_set t (set_wakeup wake_up_time) ;;
  thread_set t (set_next_sleep 0) ;;
  h ← gets sleep_queue_head;
  front ← (if h =? 0 then ret true
           else hd ← thread h; me ← thread t; ret (th_wakeup me <? th_wakeup hd));
  if front : bool then
    thread_set t (set_next_sleep h) ;;
    modify (set_sleep_head t)
  else
    n ← gets walk_fuel;
    curr ← while_n n (sleeper_before t) h;
    c ← thread curr;
    thread_set t (set_next_sleep (th_next_sleep c)) ;;
    thread_set curr (set_next_sleep t).

(** [(seconds * 1000) / TIMER_TICK_MS], the macro expanding to
    [1000 / TIMER_HZ] without parentheses. *)
Definition sleep_ticks (seconds : Z) : Z := u32 (seconds * 1000) / 1000 / TIMER_HZ.

Definition sys_sleep (seconds : Z) : M sched unit :=
  current ← dispatch_get_current;
  curr_tick ← timer_tick_get;
  enqueue_sleeper current (u32 (curr_tick + sleep_ticks seconds)) ;;
  sched_switch_next.

Record timespec_t := Timespec { tv_sec : Z; tv_nsec : Z }.
Definition EFAULT : Z := 14.

(** A request shorter than a tick busy-waits first, which changes nothing
    here. The result is returned when the thread runs again. *)
Definition sys_nanosleep (req : option timespec_t) : M sched Z :=
  match req with
  | None => ret (- EFAULT)
  | Some req =>
      let total_ns := u64 (u64 (tv_sec req * 1000000000) + tv_nsec req) in
      let delta_ticks := u64 (total_ns * TIMER_HZ) / 1000000000 in
      current ← dispatch_get_current;
      thread_set current (set_state THREAD_STATE_BLOCKED) ;;
      start_tick ← timer_tick_get;
      enqueue_sleeper current (u32 (start_tick + delta_ticks)) ;;
      sched_switch_next ;;
      ret 0
  end.

(* ------------------------------------------------------------------ *)
(** ** The tick *)

(** The accounting part of the handler: charge the running thread and
    preempt it when its slice is over. *)
Definition charge_current : M sched unit :=
  current ← dispatch_get_current;
  if current =? 0 then ret tt
  else
    th ← thread current;
    if negb (bool_decide (th_state th = THREAD_STATE_RUNNING)) then ret tt
    else
      thread_set current (λ th, set_rt_ticks (u32 (th_rt_ticks th + 1)) th) ;;
      thread_set current (λ th, set_passed (u32 (th_passed th + 1)) th) ;;
      th ← thread current;
      let remain_time := s32 (u32 (th_quantum th - th_passed th)) in
      when (remain_time <=? 0) (sched_enqueue current ;; sched_switch_next).

Definition sched_on_timer_tick : M sched unit :=
  tick ← timer_tick_get;
  wake_up_sleeping (u32 tick) ;;
  tick ← timer_tick_get;
  when (tick mod 100 =? 0)
    (sched_lock_acquire ;; sched_apply_aging ;; sched_lock_release) ;;
  charge_current.

Definition timer_on_tick : M sched unit :=
  modify (λ s, set_tick (u32 (g_time_tick s + 1)) s) ;;
  sched_on_timer_tick.

Definition boot_time_offset : timespec_t := Timespec 1771149600 0.

Definition timekeeping_get_walltime : M sched timespec_t :=
  ticks ← timer_tick_get;
  let total_ms := u64 (ticks * 1000) / TIMER_HZ in
  let seconds := total_ms / 1000 in
  let nanoseconds := u64 (total_ms mod 1000 * 1000000) in
  let sec := u64 (tv_sec boot_time_offset + seconds) in
  let nsec := s32 (tv_nsec boot_time_offset + nanoseconds) in
  ret (if 1000000000 <=? nsec then Timespec (u64 (sec + 1)) (nsec - 1000000000)
       else Timespec sec nsec).

Definition sys_yield : M sched unit :=
  curr ← dispatch_get_current;
  sched_enqueue curr ;;
  sched_switch_next.

(* ------------------------------------------------------------------ *)
(** ** The sleeper list *)

(** The wake-up time of a thread. *)
Definition wk (s : sched) (t : Z) : Z := from_option th_wakeup 0 (threads s !! t).

Record sleepers (s : sched) (sl : list Z) : Prop := {
  s_chain : chain th_next_sleep (threads s) (sleep_queue_head s) sl 0;
  s_nodup : NoDup sl;
  s_sched : ∀ t, t ∈ sl → ∃ th, threads s !! t = Some th ∧ schedulable th;
  s_sorted : StronglySorted (λ a b, wk s a <= wk s b) sl
}.

Lemma rep_ext s s' q :
  threads s' = threads s → ready_queue_heads s' = ready_queue_heads s →
  ready_queue_tails s' = ready_queue_tails s → kernel_idle_task s' = kernel_idle_task s →
  sl_val (sched_lock s') = sl_val (sched_lock s) → rep s q → rep s' q.
Proof.
  intros E1 E2 E3 E4 E5 []. split; rewrite ?E1, ?E4, ?E5; try done. by apply (qrep_ext s).
Qed.

(** Writing fields of a thread that the queues do not look at. *)
Lemma rep_thread_upd s q p v v0 :
  rep s q → threads s !! p = Some v0 → (th_next v = th_next v0 ∨ unqueued q p) →
  (∀ i, 0 <= i < 4 → p ∈ q i → ready i v0 → ready i v) → th_tid v = th_tid v0 →
  rep (set_threads (<[p := v]> (threads s)) s) q.
Proof.
  intros [Hl R Hr (thi & Ei & Hid)] E Hn Hrd Ht. split; sched_cbn; [done|by apply qrep_thread_upd with v0|..].
  - intros i t Hi Hin. destruct (Hr i t Hi Hin) as (th & Et & Hth).
    destruct (decide (t = p)) as [->|]; [|exists th; by rewrite lookup_insert_ne].
    exists v. rewrite lookup_insert_eq. simplify_eq. eauto.
  - destruct (decide (kernel_idle_task s = p)) as [<-|]; [|exists thi; by rewrite lookup_insert_ne].
    exists v. rewrite lookup_insert_eq. simplify_eq. split; congruence.
Qed.

Lemma StronglySorted_impl {A} (P Q : A → A → Prop) l :
  (∀ a b, a ∈ l → b ∈ l → P a b → Q a b) → StronglySorted P l → StronglySorted Q l.
Proof.
  intros H Hs. induction Hs as [|a l Hs IH Hf]; [constructor|]. constructor.
  - apply IH. intros x y ? ?. apply H; by constructor.
  - apply list.Forall_forall. intros x Hx. apply H; [by constructor..|].
    by apply (proj1 (list.Forall_forall _ _) Hf).
Qed.

Lemma sleepers_frame X s s' sl :
  sleepers s sl → frame X s s' → (∀ t, t ∈ sl → ¬ X t) → sleepers s' sl.
Proof.
  intros [C N S O] F HX. split.
  - replace (sleep_queue_head s') with (sleep_queue_head s)
      by (pose proof (fr_rest _ _ _ F) as H; unfold rest in H; congruence).
    apply (chain_ext _ (threads s)); [|done]. intros p Hp.
    destruct (S p Hp) as (th & E & _). destruct (frame_thread _ _ _ _ _ F (HX p Hp) E) as [n E'].
    by rewrite E, E'.
  - done.
  - intros t Ht. destruct (S t Ht) as (th & E & [? ? ?]).
    destruct (frame_thread _ _ _ _ _ F (HX t Ht) E) as [n E']. exists (set_next n th). by split.
  - apply (StronglySorted_impl (λ a b, wk s a <= wk s b)); [|done]. intros a b Ha Hb.
    assert (∀ t, t ∈ sl → wk s' t = wk s t) as K; [|by rewrite !K].
    intros t Ht. destruct (S t Ht) as (th & E & _).
    destruct (frame_thread _ _ _ _ _ F (HX t Ht) E) as [n E']. unfold wk. by rewrite E, E'.
Qed.

(** The sorted insertion: behind every sleeper that wakes no later. *)
Fixpoint sleep_insert (w : Z → Z) (t tm : Z) (sl : list Z) : list Z :=
  match sl with
  | [] => [t]
  | x :: l => if tm <? w x then t :: sl else x :: sleep_insert w t tm l
  end.

Lemma sleep_insert_split w t tm l1 l2 :
  (∀ x, x ∈ l1 → w x <= tm) → (∀ x, head l2 = Some x → tm < w x) →
  sleep_insert w t tm (l1 ++ l2) = l1 ++ t :: l2.
Proof.
  induction l1 as [|y l1 IH]; intros H1 H2; simpl.
  - destruct l2 as [|x l2]; [done|]. simpl. specialize (H2 x eq_refl).
    by replace (tm <? w x) with true by lia.
  - replace (tm <? w y) with false by (specialize (H1 y ltac:(by constructor)); lia).
    f_equal. apply IH; [|done]. intros x Hx. apply H1. by constructor.
Qed.

Lemma StronglySorted_insert (w : Z → Z) t l1 l2 :
  StronglySorted (λ a b, w a <= w b) (l1 ++ l2) →
  (∀ x, x ∈ l1 → w x <= w t) → (∀ x, head l2 = Some x → w t < w x) →
  StronglySorted (λ a b, w a <= w b) (l1 ++ t :: l2).
Proof.
  induction l1 as [|y l1 IH]; simpl; intros Hs H1 H2.
  - constructor; [done|]. destruct l2 as [|x l2]; [constructor|].
    specialize (H2 x eq_refl). inversion Hs as [|? ? _ Hf]. constructor; [lia|].
    eapply Forall_impl; [exact Hf|]. simpl. lia.
  - inversion Hs as [|? ? Hs' Hf]; subst. constructor.
    + apply IH; [done| |done]. intros x Hx. apply H1. by constructor.
    + apply Forall_app in Hf as [Hf1 Hf2]. apply Forall_app. split; [done|].
      constructor; [apply H1; by constructor|done].
Qed.

(** What putting [t] to sleep leaves alone: everything but the sleeper list,
    and of the other threads everything but [next_sleep]. *)
Definition srest (s : sched) :=
  (ready_queue_heads s, ready_queue_tails s, kernel_idle_task s, sched_lock s,
   g_current_thread s, g_time_tick s, cpu_if s, tss_esp0 s, wait_queues s, cond_locks s).

Record sframe (t : Z) (s s' : sched) : Prop := {
  sf_rest : srest s' = srest s;
  sf_threads : ∀ p, p ≠ t →
    set_next_sleep 0 <$> threads s' !! p = set_next_sleep 0 <$> threads s !! p
}.

Lemma sframe_thread t s s' p th :
  sframe t s s' → p ≠ t → threads s !! p = Some th →
  ∃ n, threads s' !! p = Some (set_next_sleep n th).
Proof.
  intros F Hp E. pose proof (sf_threads _ _ _ F p Hp) as H. rewrite E in H. simpl in H.
  apply fmap_Some in H as (th' & E' & H). exists (th_next_sleep th'). rewrite E'. f_equal.
  transitivity (set_next_sleep (th_next_sleep th') (set_next_sleep 0 th'));
    [by destruct th'|by rewrite <- H].
Qed.

Lemma sleepers_insert s s' t th l1 l2 :
  sleepers s (l1 ++ l2) → sframe t s s' → t ∉ l1 ++ l2 →
  threads s' !! t = Some th → schedulable th →
  (∀ x, x ∈ l1 → wk s x <= th_wakeup th) → (∀ x, head l2 = Some x → th_wakeup th < wk s x) →
  chain th_next_sleep (threads s') (sleep_queue_head s') (l1 ++ t :: l2) 0 →
  sleepers s' (l1 ++ t :: l2).
Proof.
  intros [C N S O] F Ht E Hs H1 H2 Hc.
  assert (∀ x, x ∈ l1 ++ l2 → wk s' x = wk s x) as K.
  { intros x Hx. destruct (S x Hx) as (thx & Ex & _).
    destruct (sframe_thread _ _ _ x thx F) as [n E']; [by intros ->|done|]. unfold wk. by rewrite Ex, E'. }
  assert (wk s' t = th_wakeup th) as Kt by (unfold wk; by rewrite E).
  split; [done| | |].
  - rewrite <- Permutation_middle. by constructor.
  - intros x. rewrite elem_of_app, elem_of_cons. intros Hx. destruct (decide (x = t)) as [->|Hne]; [eauto|].
    destruct (S x) as (thx & Ex & []); [rewrite elem_of_app; tauto|].
    destruct (sframe_thread _ _ _ x thx F Hne Ex) as [n E']. exists (set_next_sleep n thx). by split.
  - apply StronglySorted_insert.
    + apply (StronglySorted_impl (λ a b, wk s a <= wk s b)); [|done]. intros a b Ha Hb. by rewrite !K.
    + intros x Hx. rewrite (K x), Kt by (apply elem_of_app; by left). auto.
    + intros x Hx. rewrite (K x), Kt; [auto|]. apply elem_of_app. right.
      destruct l2; simplify_eq/=. by constructor.
Qed.

(** The links around an insertion behind [c]. *)
Lemma chain_insert_behind {V} (f : V → Z) m h l1 c t l2 vc vt vc' :
  chain f m h (l1 ++ c :: l2) 0 → NoDup (l1 ++ c :: l2) → t ∉ l1 ++ c :: l2 → t ≠ 0 →
  m !! c = Some vc → f vt = f vc → f vc' = t →
  chain f (<[c := vc']> (<[t := vt]> m)) h (l1 ++ c :: t :: l2) 0.
Proof.
  intros Hc Hn Ht H0 Ec Et Ec'. rewrite elem_of_app, elem_of_cons in Ht.
  apply NoDup_app in Hn as (_ & Hn & [Hcl _]%NoDup_cons).
  rewrite (cons_middle c l1 l2), app_assoc, chain_app in Hc. destruct Hc as (e & H1 & H2).
  assert (f vc = e) as <-.
  { rewrite chain_app in H1. destruct H1 as (? & _ & _ & _ & v & ? & ?). by simplify_eq. }
  rewrite (cons_middle c l1 (t :: l2)), app_assoc, chain_app. exists t. split.
  - eapply chain_insert_last; [|rewrite lookup_insert_ne by (intros ->; tauto); by eexists|done|].
    + intros Hin. apply (Hn _ Hin). by constructor.
    + apply chain_insert_ne; [|exact H1]. rewrite elem_of_app, list_elem_of_singleton. tauto.
  - simpl. split_and!; [done|done|]. exists vt.
    split; [rewrite lookup_insert_ne by (intros ->; tauto); apply lookup_insert_eq|].
    rewrite Et. apply chain_insert_ne; [done|]. apply chain_insert_ne; [tauto|done].
Qed.

Lemma ready_set_next_sleep i n th : ready i th → ready i (set_next_sleep n th).
Proof. intros []. by split. Qed.

Lemma rep_set_next_sleep s q p n th :
  rep s q → threads s !! p = Some th →
  rep (set_threads (<[p := set_next_sleep n th]> (threads s)) s) q.
Proof.
  intros R E. apply rep_thread_upd with th; [done|done|by left| |done].
  intros. by apply ready_set_next_sleep.
Qed.

(** The walk stops at the last sleeper that wakes no later than [tm]. *)
Lemma wp_sleeper_walk s sl h l t me (Q : Z → sched → Prop) :
  sleepers s sl → t ∉ sl →
  ∀ s1, sl = h :: l → sleep_queue_head s = h →
  (∀ p, p ≠ t → threads s1 !! p = threads s !! p) → threads s1 !! t = Some me →
  (size (threads s1) = size (threads s)) →
  wk s h <= th_wakeup me →
  (∀ l1 c l2, sl = l1 ++ c :: l2 → (∀ x, x ∈ l1 ++ [c] → wk s x <= th_wakeup me) →
     (∀ x, head l2 = Some x → th_wakeup me < wk s x) → Q c s1) →
  wp (while_n (walk_fuel s1) (sleeper_before t) h) s1 Q.
Proof.
  intros Hsl Ht s1 Esl Eh Hs1 Ht1 Hsz Hw HQ. pose proof Hsl as [C N S O].
  apply (wp_while_n (λ k c s', s' = s1 ∧ ∃ l1 l2, sl = l1 ++ c :: l2 ∧ k = length l2 ∧
    ∀ x, x ∈ l1 ++ [c] → wk s x <= th_wakeup me)) with (length l).
  - split; [done|]. exists [], l. split_and!; [done|done|]. by intros x ->%list_elem_of_singleton.
  - unfold walk_fuel. rewrite Hsz. pose proof (chain_size _ _ _ _ _ N C) as Hlen.
    rewrite Esl in Hlen. simpl in Hlen. lia.
  - intros k c s' (-> & l1 & l2 & E & -> & Hle). unfold sleeper_before.
    assert (∀ x, x ∈ sl → ∃ thx, threads s !! x = Some thx ∧ threads s1 !! x = Some thx ∧
              wk s x = th_wakeup thx) as Hx.
    { intros x Hx. destruct (S x Hx) as (thx & Ex & _). exists thx.
      rewrite Hs1 by (intros ->; done). split_and!; [done|done|]. unfold wk. by rewrite Ex. }
    destruct (Hx c) as (thc & Ec & Ec1 & _); [rewrite E, elem_of_app, elem_of_cons; tauto|].
    wp_step. eapply wp_thread; [exact Ec1|].
    rewrite E, chain_app in C. destruct C as (e & _ & _ & _ & v & Ev & C). simplify_eq.
    pose proof (chain_head _ _ _ _ _ C) as Hh. destruct l2 as [|n l2]; simpl in Hh; rewrite Hh.
    { simpl. wp_step. eapply HQ; [done|done|done]. }
    replace (n =? 0) with false by (destruct C as (_ & ? & _); lia).
    destruct (Hx n) as (thn & En & En1 & Hwn); [rewrite E, elem_of_app, !elem_of_cons; tauto|].
    wp_step. eapply wp_thread; [exact En1|]. wp_step. eapply wp_thread; [exact Ht1|]. wp_step.
    + wp_step. exists (length l2). split; [simpl; lia|]. split; [done|]. exists (l1 ++ [c]), l2.
      rewrite <- app_assoc. split_and!; [done|done|]. intros x [?| ->%list_elem_of_singleton]%elem_of_app; [auto|lia].
    + wp_step. eapply HQ; [done|done|]. intros x [= <-]. lia.
Qed.

Lemma rep_asleep s q t n w th :
  rep s q → threads s !! t = Some th →
  rep (set_threads (<[t := set_next_sleep n (set_wakeup w th)]> (threads s)) s) q.
Proof.
  intros R E. apply rep_thread_upd with th; [done|done|by left| |done].
  intros i _ _ []. by split.
Qed.

(** The two outcomes of [enqueue_sleeper]: at the front, or behind [c]. *)
Lemma sleeper_front s q sl t th w :
  rep s q → sleepers s sl → t ≠ 0 → t ∉ sl → threads s !! t = Some th → schedulable th →
  (∀ x, head sl = Some x → w < wk s x) →
  let s' := set_sleep_head t (set_threads
    (<[t := set_next_sleep (sleep_queue_head s) (set_wakeup w th)]> (threads s)) s) in
  rep s' q ∧ sleepers s' (sleep_insert (wk s) t w sl) ∧ sframe t s s' ∧
  ∃ n, threads s' !! t = Some (set_next_sleep n (set_wakeup w th)).
Proof.
  intros R Hsl H0 Ht E Hs Hh s'. set (th' := set_next_sleep _ _) in s'.
  assert (sframe t s s') as F by (split; [done|]; intros p Hp; unfold s'; sched_cbn; by rewrite lookup_insert_ne).
  assert (threads s' !! t = Some th') as E' by apply lookup_insert_eq.
  split_and!; [|rewrite (sleep_insert_split _ t w [] sl); [|by intros x ?%not_elem_of_nil|done]|done|eauto].
  - by eapply rep_ext; [..|apply (rep_asleep s q t (sleep_queue_head s) w th)].
  - apply (sleepers_insert s s' t th' []); [done|done|done|done|by destruct Hs|by intros x ?%not_elem_of_nil|done|].
    simpl. split_and!; [done|done|]. exists th'. split; [done|].
    apply chain_insert_ne; [done|]. apply Hsl.
Qed.

Lemma sleeper_behind s q l1 c l2 t th thc w :
  rep s q → sleepers s (l1 ++ c :: l2) → t ≠ 0 → t ∉ l1 ++ c :: l2 →
  threads s !! t = Some th → schedulable th → threads s !! c = Some thc →
  (∀ x, x ∈ l1 ++ [c] → wk s x <= w) → (∀ x, head l2 = Some x → w < wk s x) →
  let s' := set_threads (<[c := set_next_sleep t thc]>
    (<[t := set_next_sleep (th_next_sleep thc) (set_wakeup w th)]> (threads s))) s in
  rep s' q ∧ sleepers s' (sleep_insert (wk s) t w (l1 ++ c :: l2)) ∧ sframe t s s' ∧
  ∃ n, threads s' !! t = Some (set_next_sleep n (set_wakeup w th)).
Proof.
  intros R Hsl H0 Ht E Hs Ec Hle Hh s'. set (th' := set_next_sleep (th_next_sleep thc) _) in s'.
  assert (c ≠ t) as Hct by (intros ->; apply Ht; rewrite elem_of_app, elem_of_cons; tauto).
  assert (threads s' !! t = Some th') as E'.
  { unfold s'. sched_cbn. rewrite lookup_insert_ne by done. apply lookup_insert_eq. }
  assert (sframe t s s') as F.
  { split; [done|]. intros p Hp. unfold s'. sched_cbn. destruct (decide (p = c)) as [->|].
    - by rewrite lookup_insert_eq, Ec.
    - by rewrite !lookup_insert_ne. }
  rewrite (cons_middle c l1 l2), app_assoc, sleep_insert_split, <- app_assoc by done. simpl.
  split_and!; [| |done|eauto].
  - eapply rep_ext; [..|apply (rep_set_next_sleep _ q c t thc
      (rep_asleep s q t (th_next_sleep thc) w th R E)); sched_cbn; by rewrite lookup_insert_ne]; done.
  - rewrite (cons_middle c l1 (t :: l2)), app_assoc.
    apply (sleepers_insert s s' t th' (l1 ++ [c]) l2); rewrite <- ?app_assoc; try done; [by destruct Hs|].
    apply chain_insert_behind with thc; [apply Hsl|apply Hsl|done|done|done|done|done].
Qed.

Lemma wp_enqueue_sleeper s q sl t th w :
  rep s q → sleepers s sl → t ≠ 0 → t ∉ sl → threads s !! t = Some th → schedulable th →
  wp (enqueue_sleeper t w) s (λ _ s', rep s' q ∧ sleepers s' (sleep_insert (wk s) t w sl) ∧
    sframe t s s' ∧ ∃ n, threads s' !! t = Some (set_next_sleep n (set_wakeup w th))).
Proof.
  intros R Hsl H0 Ht E Hs. unfold enqueue_sleeper. apply wp_thread_set_fuse. wp_step.
  eapply wp_thread_set; [exact E|]. set (th1 := set_next_sleep _ _). set (s1 := set_threads _ s).
  assert (threads s1 !! t = Some th1) as E1 by apply lookup_insert_eq.
  pose proof Hsl as [C N S O].
  assert (∀ n, <[t := set_next_sleep n th1]> (threads s1) =
               <[t := set_next_sleep n (set_wakeup w th)]> (threads s)) as Hins.
  { intros n. unfold s1. sched_cbn. by rewrite insert_insert_eq. }
  assert (∀ m, set_threads m s1 = set_threads m s) as Hst by done.
  wp_step. wp_step. change (sleep_queue_head s1) with (sleep_queue_head s). wp_step.
  destruct sl as [|h l].
  { replace (sleep_queue_head s =? 0) with true by (simpl in C; lia). wp_step.
    wp_step. eapply wp_thread_set; [exact E1|]. wp_step. rewrite Hins, Hst. by apply sleeper_front. }
  destruct C as (Eh & Hh0 & thh & Ehh & C). replace (sleep_queue_head s =? 0) with false by lia.
  assert (h ≠ t) as Hht by (intros ->; apply Ht; by constructor).
  assert (wk s h = th_wakeup thh) as Hwk by (unfold wk; by rewrite Ehh).
  wp_step. eapply wp_thread; [unfold s1; sched_cbn; rewrite Eh, lookup_insert_ne by done; exact Ehh|].
  wp_step. eapply wp_thread; [exact E1|]. wp_step. change (th_wakeup th1) with w.
  destruct (Z.ltb_spec w (th_wakeup thh)) as [Hlt|Hge].
  - wp_step. eapply wp_thread_set; [exact E1|]. wp_step. rewrite Hins, Hst. apply sleeper_front; try done.
    intros x [= <-]. lia.
  - wp_step. wp_step. wp_step. rewrite Eh.
    apply (wp_sleeper_walk s (h :: l) h l t th1); try done; [| |change (th_wakeup th1) with w; lia|].
    + intros p Hp. unfold s1. sched_cbn. by rewrite lookup_insert_ne.
    + unfold s1. sched_cbn. apply map_size_insert_Some. by eexists.
    + intros l1 c l2 El Hle Hlt. destruct (S c) as (thc & Ec & _); [rewrite El, elem_of_app, elem_of_cons; tauto|].
      assert (c ≠ t) as Hct by (intros ->; apply Ht; rewrite El, elem_of_app, elem_of_cons; tauto).
      wp_step. eapply wp_thread; [unfold s1; sched_cbn; rewrite lookup_insert_ne by done; exact Ec|].
      wp_step. eapply wp_thread_set; [exact E1|].
      eapply wp_thread_set; [sched_cbn; rewrite lookup_insert_ne by done; unfold s1; sched_cbn;
        rewrite lookup_insert_ne by done; exact Ec|].
      sched_cbn. rewrite Hins. rewrite El in *. by apply (sleeper_behind s q l1 c l2 t th thc w).
Qed.

(* ------------------------------------------------------------------ *)
(** ** Waking *)

Definition pr (s : sched) (t : Z) : Z := from_option th_priority 0 (threads s !! t).

(** Threads made ready one after the other. *)
Definition enqueue_all (p : Z → Z) (ws : list Z) (q : Z → list Z) : Z → list Z :=
  foldl (λ q t, <[p t := q (p t) ++ [t]]> q) q ws.

Lemma elem_of_enqueue_all p ws q i x :
  x ∈ enqueue_all p ws q i ↔ x ∈ q i ∨ (x ∈ ws ∧ p x = i).
Proof.
  revert q. induction ws as [|t ws IH]; intros q; simpl.
  - split; [by left|]. intros [?|[?%not_elem_of_nil _]]; done.
  - rewrite IH, elem_of_cons. destruct (decide (p t = i)) as [<-|Hne].
    + rewrite fn_lookup_insert, elem_of_app, list_elem_of_singleton. naive_solver.
    + rewrite fn_lookup_insert_ne by done. naive_solver.
Qed.

Lemma sleepers_tail s h rs th :
  sleepers s (h :: rs) → threads s !! h = Some th →
  sleepers (set_threads (<[h := set_next_sleep 0 th]> (threads s))
             (set_sleep_head (th_next_sleep th) s)) rs.
Proof.
  intros [C N S O] E. apply NoDup_cons in N as [N1 N2].
  destruct C as (_ & _ & v & Ev & C). simplify_eq. split; sched_cbn.
  - by apply chain_insert_ne.
  - done.
  - intros t Ht. destruct (S t) as (tht & Et & Hs); [by constructor|]. exists tht.
    rewrite lookup_insert_ne; [done|]. by intros ->.
  - inversion O as [|? ? O' _]; subst. apply (StronglySorted_impl (λ a b, wk s a <= wk s b)); [|done].
    intros a b Ha Hb. unfold wk. sched_cbn. rewrite !lookup_insert_ne; [done|by intros ->..].
Qed.

(** What waking [ws] leaves alone. *)
Definition wrest (s : sched) :=
  (kernel_idle_task s, g_current_thread s, g_time_tick s, cpu_if s, tss_esp0 s,
   wait_queues s, cond_locks s).

Record wake_inv (s : sched) (q : Z → list Z) (tick : Z) (ws rs : list Z) (s1 : sched) : Prop := {
  wi_due : ∀ x, x ∈ ws → wk s x <= tick;
  wi_rep : rep s1 (enqueue_all (pr s) ws q);
  wi_sl : sleepers s1 rs;
  wi_rest : wrest s1 = wrest s;
  wi_threads : ∀ p, p ∉ ws → set_next 0 <$> threads s1 !! p = set_next 0 <$> threads s !! p;
  wi_dom : ∀ p, is_Some (threads s !! p) ↔ is_Some (threads s1 !! p)
}.

Lemma up_to_next_thread (o o' : option thread_t) th :
  set_next 0 <$> o' = set_next 0 <$> o → o = Some th → ∃ n, o' = Some (set_next n th).
Proof.
  intros H ->. simpl in H. apply fmap_Some in H as (th' & E' & H). exists (th_next th').
  rewrite E'. f_equal.
  transitivity (set_next (th_next th') (set_next 0 th')); [by destruct th'|by rewrite <- H].
Qed.

Section wake.
Context (s : sched) (q : Z → list Z) (sl : list Z) (tick : Z).
Context (R : rep s q) (Hsl : sleepers s sl) (Hu : ∀ t, t ∈ sl → unqueued q t).

Lemma wp_wake_one {B} ws h rs s1 th (k : M sched B) (Q : B → sched → Prop) :
  sl = ws ++ h :: rs → wake_inv s q tick ws (h :: rs) s1 → threads s1 !! h = Some th →
  th_wakeup th <= tick → h ≠ 0 →
  (∀ s2, wake_inv s q tick (ws ++ [h]) rs s2 → wp k s2 Q) →
  wp (modify (set_sleep_head (th_next_sleep th)) ;; thread_set h (set_next_sleep 0) ;;
      sched_enqueue h ;; k) s1 Q.
Proof using R Hsl Hu.
  intros Es [D Rs S1 W T Dm] E1 Hdue H0 HQ.
  assert (h ∈ sl) as Hin by (rewrite Es, elem_of_app, elem_of_cons; tauto).
  assert (h ∉ ws) as Hws.
  { pose proof (s_nodup s sl Hsl) as N. rewrite Es in N. apply NoDup_app in N as (_ & N & _).
    intros Hh. apply (N _ Hh). by constructor. }
  destruct (s_sched s sl Hsl h Hin) as (th0 & E0 & [S2 S3 S4]).
  destruct (up_to_next_thread _ _ th0 (T h Hws) E0) as [n En].
  rewrite E1 in En. injection En as ->.
  wp_step. wp_step. wp_step. eapply wp_thread_set; [exact E1|].
  set (s2 := set_threads _ _). set (th := set_next n th0) in *.
  assert (rep s2 (enqueue_all (pr s) ws q)) as R2.
  { apply (rep_ext (set_threads (<[h := set_next_sleep 0 th]> (threads s1)) s1)); try done.
    by apply rep_set_next_sleep. }
  assert (threads s2 !! h = Some (set_next_sleep 0 th)) as E2 by apply lookup_insert_eq.
  wp_step. eapply wp_mono; [apply (wp_sched_enqueue s2 _ h (set_next_sleep 0 th) R2 H0); [|exact E2|by split]|].
  { intros i Hi. rewrite elem_of_enqueue_all. intros [?|[? _]]; [by apply (Hu h Hin i Hi)|done]. }
  intros [] s3 (R3 & F3 & E3). apply HQ.
  assert (pr s h = th_priority th0) as Hpr by (unfold pr; by rewrite E0).
  split.
  - intros x [?| ->%list_elem_of_singleton]%elem_of_app; [by apply D|].
    unfold wk. rewrite E0. done.
  - unfold enqueue_all. rewrite foldl_snoc, Hpr. exact R3.
  - apply (sleepers_frame (eq h) s2); [exact (sleepers_tail s1 h rs th S1 E1)|done|].
    intros t Ht <-. pose proof (s_nodup s1 _ S1) as N. by apply NoDup_cons in N as [N _].
  - pose proof (fr_rest _ _ _ F3) as F. unfold rest in F. unfold wrest in *. simplify_eq/=. congruence.
  - intros p Hp. rewrite elem_of_app, list_elem_of_singleton in Hp.
    rewrite (fr_threads _ _ _ F3) by (intros <-; tauto). unfold s2. sched_cbn.
    rewrite lookup_insert_ne by (intros ->; tauto). apply T. tauto.
  - intros p. rewrite <- (fr_dom _ _ _ F3), Dm. unfold s2. sched_cbn.
    destruct (decide (p = h)) as [->|]; [rewrite lookup_insert_eq, E1|rewrite lookup_insert_ne by done]; naive_solver.
Qed.

Lemma wp_wake_up_sleeping :
  wp (wake_up_sleeping tick) s (λ _ s', ∃ ws rs, sl = ws ++ rs ∧
    wake_inv s q tick ws rs s' ∧ ∀ x, x ∈ rs → tick < wk s x).
Proof using R Hsl Hu.
  unfold wake_up_sleeping. wp_step. wp_step.
  apply (wp_while_n (λ k _ s1, ∃ ws rs, sl = ws ++ rs ∧ wake_inv s q tick ws rs s1 ∧
    k = length rs)) with (length sl).
  - exists [], sl. split_and!; [done| |done]. split; try done. by intros x ?%not_elem_of_nil.
  - unfold walk_fuel. pose proof (chain_size _ _ _ _ _ (s_nodup s sl Hsl) (s_chain s sl Hsl)). lia.
  - intros k [] s1 (ws & rs & Es & I & ->). pose proof I as [D Rs S1 W T Dm].
    wp_step. wp_step. pose proof (s_chain s1 rs S1) as C. destruct rs as [|h rs].
    { simpl in C. rewrite C. simpl. wp_step. exists ws, []. split_and!; [done..|]. by intros x ?%not_elem_of_nil. }
    destruct C as (-> & H0 & th & E1 & _). replace (h =? 0) with false by lia.
    wp_step. eapply wp_thread; [exact E1|].
    assert (∀ x, x ∈ h :: rs → wk s1 x = wk s x) as Hwk.
    { intros x Hx. destruct (s_sched s1 _ S1 x Hx) as (thx & Ex & _). unfold wk.
      assert (x ∉ ws) as Hxw.
      { pose proof (s_nodup s sl Hsl) as N. rewrite Es in N. apply NoDup_app in N as (_ & N & _).
        intros Hh. by apply (N _ Hh). }
      pose proof (T x Hxw) as Ht. rewrite Ex in Ht. simpl in Ht. symmetry in Ht.
      apply fmap_Some in Ht as (thx' & E' & Hn). rewrite E', Ex. by destruct thx, thx'; simplify_eq/=. }
    assert (th_wakeup th = wk s h) as Hth by (rewrite <- Hwk by constructor; unfold wk; by rewrite E1).
    wp_step.
    + apply (wp_wake_one ws h rs s1 th); [done|done|done|lia|done|]. intros s2 I2. wp_step.
      exists (length rs). split; [simpl; lia|]. exists (ws ++ [h]), rs. by rewrite <- app_assoc.
    + wp_step. exists ws, (h :: rs). split_and!; [done|done|].
      intros x Hx. rewrite <- Hwk by done. pose proof (s_sorted s1 _ S1) as O.
      inversion O as [|? ? _ Hf]; subst. rewrite <- (Hwk h) in Hth by constructor.
      apply elem_of_cons in Hx as [->|Hx]; [lia|].
      pose proof (proj1 (list.Forall_forall _ _) Hf x Hx). simpl in *. lia.
Qed.
End wake.

(* ------------------------------------------------------------------ *)
(** ** The system invariant *)

(** The abstract choice: the head of the first queue that is not empty. *)
Definition pick (idle : Z) (q : Z → list Z) : Z * (Z → list Z) :=
  match q 0 with
  | t :: l => (t, <[0 := l]> q)
  | [] => match q 1 with
    | t :: l => (t, <[1 := l]> q)
    | [] => match q 2 with
      | t :: l => (t, <[2 := l]> q)
      | [] => match q 3 with
        | t :: l => (t, <[3 := l]> q)
        | [] => (idle, q)
        end
      end
    end
  end.

Lemma pick_some idle q i t l :
  0 <= i < 4 → q i = t :: l → (∀ j, 0 <= j < i → q j = []) → pick idle q = (t, <[i := l]> q).
Proof.
  intros Hi E Hj. unfold pick. assert (i = 0 ∨ i = 1 ∨ i = 2 ∨ i = 3) as H by lia.
  destruct H as [->|[->|[->| ->]]]; rewrite ?(Hj 0), ?(Hj 1), ?(Hj 2), E by lia; done.
Qed.

Lemma pick_none idle q : (∀ i, 0 <= i < 4 → q i = []) → pick idle q = (idle, q).
Proof. intros H. unfold pick. by rewrite (H 0), (H 1), (H 2), (H 3) by lia. Qed.

(** Queues and sleepers are consistent and disjoint; there is a thread on the
    processor. *)
Record quiet (s : sched) (q : Z → list Z) (sl : list Z) : Prop := {
  qu_rep : rep s q;
  qu_sl : sleepers s sl;
  qu_disj : ∀ t, t ∈ sl → unqueued q t;
  qu_idle : kernel_idle_task s ≠ 0;
  qu_cur : is_Some (threads s !! g_current_thread s)
}.

(** Moreover that thread is running, in no list, and within its quantum. *)
Record inv (s : sched) (q : Z → list Z) (sl : list Z) : Prop := {
  v_quiet : quiet s q sl;
  v_cur0 : g_current_thread s ≠ 0;
  v_unq : unqueued q (g_current_thread s);
  v_nosl : g_current_thread s ∉ sl;
  v_run : ∃ th, threads s !! g_current_thread s = Some th ∧
    th_state th = THREAD_STATE_RUNNING ∧
    (th_tid th ≠ 0 → schedulable th ∧ th_passed th < th_quantum th <= 200)
}.

Lemma sleepers_thread_upd s sl p v v0 :
  sleepers s sl → threads s !! p = Some v0 →
  (p ∈ sl → th_next_sleep v = th_next_sleep v0 ∧ th_wakeup v = th_wakeup v0 ∧ schedulable v) →
  sleepers (set_threads (<[p := v]> (threads s)) s) sl.
Proof.
  intros [C N S O] E H. split; sched_cbn; [|done|..].
  - apply (chain_ext _ (threads s)); [|done]. intros x Hx. destruct (decide (x = p)) as [->|].
    + rewrite lookup_insert_eq, E. simpl. by destruct (H Hx) as (-> & _).
    + by rewrite lookup_insert_ne.
  - intros x Hx. destruct (decide (x = p)) as [->|].
    + exists v. rewrite lookup_insert_eq. by destruct (H Hx) as (_ & _ & ?).
    + rewrite lookup_insert_ne by done. by apply S.
  - apply (StronglySorted_impl (λ a b, wk s a <= wk s b)); [|done]. intros a b Ha Hb.
    assert (∀ x, x ∈ sl → wk (set_threads (<[p := v]> (threads s)) s) x = wk s x) as K; [|by rewrite !K].
    intros x Hx. unfold wk. sched_cbn. destruct (decide (x = p)) as [->|].
    + rewrite lookup_insert_eq, E. simpl. by destruct (H Hx) as (_ & -> & _).
    + by rewrite lookup_insert_ne.
Qed.

Lemma rep_fun_ext s q q' : rep s q → (∀ i, 0 <= i < 4 → q' i = q i) → rep s q'.
Proof.
  intros [L R M D] H. split; [done|by apply (qrep_fun_ext _ q)| |done].
  intros i t Hi. rewrite H by done. by apply M.
Qed.

Lemma sleepers_ext s s' sl :
  threads s' = threads s → sleep_queue_head s' = sleep_queue_head s →
  sleepers s sl → sleepers s' sl.
Proof.
  intros E1 E2 [C N S O]. split; rewrite ?E1, ?E2; try done.
  unfold wk in *. by rewrite E1.
Qed.

Definition allq (q : Z → list Z) : list Z := q 0 ++ q 1 ++ q 2 ++ q 3.

Lemma allq_nil q : allq q = [] ↔ ∀ i, 0 <= i < 4 → q i = [].
Proof.
  unfold allq. split.
  - intros E i Hi. apply app_nil in E as [H0 E]. apply app_nil in E as [H1 E].
    apply app_nil in E as [H2 H3].
    assert (i = 0 ∨ i = 1 ∨ i = 2 ∨ i = 3) as H by lia. by destruct H as [->|[->|[->| ->]]].
  - intros H. by rewrite (H 0), (H 1), (H 2), (H 3) by lia.
Qed.

Definition cur_tid (s : sched) : Z := from_option th_tid 0 (threads s !! g_current_thread s).

(** [s'] runs the thread chosen from the queues [q]; it is an idle thread
    exactly when they are empty. *)
Definition switched (idle : Z) (q : Z → list Z) (sl : list Z) (s' : sched) : Prop :=
  inv s' (pick idle q).2 sl ∧ g_current_thread s' = (pick idle q).1 ∧
  (cur_tid s' = 0 ↔ allq q = []).

(** Putting a chosen thread on the processor. *)
Lemma wp_dispatch s q sl t th :
  quiet s q sl → t ≠ 0 → threads s !! t = Some th → unqueued q t → t ∉ sl →
  (th_tid th ≠ 0 → schedulable th ∧ th_passed th < th_quantum th <= 200) →
  wp (dispatch_switch_to t) s (λ _ s', inv s' q sl ∧ g_current_thread s' = t ∧
    cur_tid s' = th_tid th ∧ (t ≠ g_current_thread s → tss_esp0 s' = th_kstack_top th)).
Proof.
  intros [R Hsl Hd Hi [thc Ec]] H0 E Hu Hs Hth. unfold dispatch_switch_to, dispatch_get_current.
  wp_step. wp_step. wp_step. eapply wp_thread_set; [exact E|].
  set (th' := set_state _ th). set (s1 := set_threads _ s).
  assert (threads s1 !! t = Some th') as E1 by apply lookup_insert_eq.
  assert (rep s1 q) as R1.
  { apply rep_thread_upd with th; [done|done|by left| |done]. intros i ? Hin. by destruct (Hu i). }
  assert (sleepers s1 sl) as S1 by (by apply sleepers_thread_upd with th).
  assert (th_tid th' ≠ 0 → schedulable th' ∧ th_passed th' < th_quantum th' <= 200) as Hth'.
  { intros Hn. destruct (Hth Hn) as [[] ?]. by split. }
  wp_step.
  - assert (g_current_thread s = t) as Et by lia. wp_step.
    split; [|split_and!; [done|unfold cur_tid, s1; sched_cbn; by rewrite Et, lookup_insert_eq|intros ?; congruence]].
    sched_cbn. split; [split; try done; unfold s1; sched_cbn; rewrite Et, lookup_insert_eq; by eexists|..];
      unfold s1; sched_cbn; rewrite Et; try done. exists th'. by rewrite lookup_insert_eq.
  - wp_step. eapply wp_thread; [exact E1|]. wp_step. wp_step. wp_step. wp_step. wp_step.
    eapply wp_thread; [unfold s1; sched_cbn; rewrite lookup_insert_ne by lia; exact Ec|]. wp_step.
    split; [|split_and!; [done|unfold cur_tid; sched_cbn; by rewrite E1|done]]. split; try done.
    + split; [by apply (rep_ext s1)|by apply (sleepers_ext s1)|done|done|by eexists].
    + by exists th'.
Qed.

Lemma idle_free s q sl :
  quiet s q sl → unqueued q (kernel_idle_task s) ∧ kernel_idle_task s ∉ sl.
Proof.
  intros [[Hl R Hr (thi & Ei & Hid)] [C N S O] _ _ _]. split.
  - intros i Hi Hin. destruct (Hr i _ Hi Hin) as (th & E & []). congruence.
  - intros Hin. destruct (S _ Hin) as (th & E & []). congruence.
Qed.

Lemma quiet_frame X s s' q q' sl :
  quiet s q sl → frame X s s' → (∀ t, t ∈ sl → ¬ X t) → rep s' q' →
  (∀ t, t ∈ sl → unqueued q' t) → quiet s' q' sl.
Proof.
  intros [R Hsl Hd Hi Hc] F HX R' Hu. split; [done|by apply (sleepers_frame X s)|done|..].
  - by rewrite (frame_idle _ _ _ F).
  - replace (g_current_thread s') with (g_current_thread s)
      by (pose proof (fr_rest _ _ _ F) as H; unfold rest in H; congruence).
    by apply (fr_dom _ _ _ F).
Qed.

Lemma frame_current X s s' : frame X s s' → g_current_thread s' = g_current_thread s.
Proof. intros F. pose proof (fr_rest _ _ _ F) as H. unfold rest in H. congruence. Qed.

Lemma prepared_ok i th :
  ready i th → schedulable (prepared (set_next 0 th)) ∧
  th_passed (prepared (set_next 0 th)) < th_quantum (prepared (set_next 0 th)) <= 200.
Proof.
  intros []. pose proof (classify_bound (estimate (set_next 0 th))) as Hb.
  pose proof (tq_bound _ Hb). split; [split; cbn; (done || lia)|cbn; lia].
Qed.

Lemma wp_sched_switch_next s q sl :
  quiet s q sl →
  wp sched_switch_next s (λ _ s', switched (kernel_idle_task s) q sl s').
Proof.
  intros Hq. pose proof Hq as [R Hsl Hd Hi Hc]. unfold sched_switch_next. wp_step.
  eapply wp_mono; [by apply wp_sched_pick_next|].
  intros t s1 [(-> & R1 & F1 & He)|(i & l & th & Hi' & Eq & Hj & R1 & F1 & E & Hrd & E1)].
  - unfold switched. rewrite (pick_none _ q He). simpl. destruct (idle_free s q sl Hq) as [Hu Hn].
    destruct (r_idle _ _ R) as (thi & Ei & Htid).
    destruct (frame_thread _ _ _ _ _ F1 ltac:(auto) Ei) as [n E1].
    eapply wp_mono; [apply (wp_dispatch s1 q sl _ (set_next n thi)); try done|].
    + apply (quiet_frame (λ _, False) s s1 q); [done|done|auto|done|done].
    + intros [] s2 (V & Ec & Et & _). split_and!; [done..|]. rewrite allq_nil, Et. done.
  - unfold switched. rewrite (pick_some _ q i t l) by done. simpl.
    assert (t ∈ q i) as Hin by (rewrite Eq; by constructor).
    assert (t ∉ sl) as Hns by (intros Hs; by apply (Hd t Hs i)).
    assert (unqueued (<[i := l]> q) t) as Hu.
    { intros j Hj' Hx. by destruct (pop_members s q i t l j t (r_q _ _ R) Hi' Eq Hj' Hx). }
    assert (t ≠ 0) as H0.
    { by destruct (chain_elem _ _ _ _ _ t (q_chain _ _ (r_q _ _ R) i Hi')). }
    eapply wp_mono; [apply (wp_dispatch s1 (<[i := l]> q) sl t (prepared (set_next 0 th))); try done|].
    + apply (quiet_frame (eq t) s s1 q); [done|done|by intros x Hx <-|done|].
      intros x Hx j Hj' Hin'. destruct (pop_members s q i t l j x (r_q _ _ R) Hi' Eq Hj' Hin') as [_ ?].
      by apply (Hd x Hx j).
    + intros _. by apply (prepared_ok i).
    + intros [] s2 (V & Ec & Et & _). split_and!; [done..|]. rewrite allq_nil, Et. split.
      * by destruct Hrd.
      * intros He. by rewrite He in Hin by done; apply not_elem_of_nil in Hin.
Qed.

(** Making a thread ready keeps the rest consistent. *)
Lemma wp_enqueue_quiet s q sl t th :
  quiet s q sl → t ≠ 0 → unqueued q t → t ∉ sl → threads s !! t = Some th → schedulable th →
  wp (sched_enqueue t) s (λ _ s',
    quiet s' (<[th_priority th := q (th_priority th) ++ [t]]> q) sl ∧ frame (eq t) s s').
Proof.
  intros Hq H0 Hu Hs E Hth. pose proof Hq as [R Hsl Hd Hi Hc].
  eapply wp_mono; [by apply wp_sched_enqueue|]. intros [] s' (R' & F & _). split; [|done].
  apply (quiet_frame (eq t) s s' q); [done|done|by intros x Hx <-|done|].
  intros x Hx. apply unqueued_insert; [by destruct Hth|]. split.
  - rewrite elem_of_app, list_elem_of_singleton. intros [Hin| ->]; [|done].
    by apply (Hd x Hx (th_priority th)); [destruct Hth|].
  - intros j Hj _. by apply Hd.
Qed.

(** The queues when the running thread gives up the processor. *)
Definition yield_queues (t : Z) (th : thread_t) (q : Z → list Z) : Z → list Z :=
  if th_tid th =? 0 then q else <[th_priority th := q (th_priority th) ++ [t]]> q.

Lemma wp_requeue s q sl th :
  quiet s q sl → g_current_thread s ≠ 0 → unqueued q (g_current_thread s) →
  g_current_thread s ∉ sl → threads s !! g_current_thread s = Some th →
  (th_tid th ≠ 0 → schedulable th) →
  wp (sched_enqueue (g_current_thread s) ;; sched_switch_next) s (λ _ s',
    switched (kernel_idle_task s) (yield_queues (g_current_thread s) th q) sl s').
Proof.
  intros Hq H0 Hu Hs E Hth. unfold yield_queues. wp_step.
  destruct (Z.eqb_spec (th_tid th) 0) as [Hz|Hz].
  - unfold sched_enqueue. replace (g_current_thread s =? 0) with false by lia.
    wp_step. eapply wp_thread; [exact E|]. replace (th_tid th =? 0) with true by lia. wp_step.
    by apply wp_sched_switch_next.
  - eapply wp_mono; [apply (wp_enqueue_quiet s q sl _ th); auto|]. intros [] s1 [Q1 F1].
    pose proof (frame_idle _ _ _ F1) as Hid.
    eapply wp_mono; [by apply wp_sched_switch_next|]. by rewrite Hid.
Qed.

(* ------------------------------------------------------------------ *)
(** ** The clock and the counters of the threads *)

(** Ticks run in all, and since the thread was last chosen. *)
Definition counters (th : thread_t) : Z * Z := (th_rt_ticks th, th_passed th).
Definition accounts (s : sched) : Z * gmap Z (Z * Z) := (g_time_tick s, counters <$> threads s).
Definition account (s : sched) (p : Z) : option (Z * Z) := counters <$> threads s !! p.

Lemma accounts_eq s s' : accounts s' = accounts s → g_time_tick s' = g_time_tick s ∧ ∀ p, account s' p = account s p.
Proof. intros [= Et E]. split; [done|]. intros p. unfold account. by rewrite <- !lookup_fmap, E. Qed.

Lemma keeps_thread p : keeps accounts (thread p).
Proof. intros s a s'. unfold thread, deref. destruct (threads s !! p); [|done]. by intros [= <- <-]. Qed.

Lemma keeps_thread_set p u : (∀ th, counters (u th) = counters th) → keeps accounts (thread_set p u).
Proof.
  intros Hu s a s'. unfold thread_set, assign. destruct (threads s !! p) as [th|] eqn:E; [|done]. intros [= <- <-].
  unfold accounts. sched_cbn. by rewrite fmap_insert, Hu, insert_id by (by rewrite lookup_fmap, E).
Qed.
#[local] Hint Resolve keeps_thread : keeps.
#[local] Hint Extern 1 (keeps accounts (thread_set _ _)) => apply keeps_thread_set; done : keeps.
#[local] Hint Extern 1 (keeps accounts (zoom _ _ _)) => apply keeps_zoom; done : keeps.
#[local] Hint Extern 1 (keeps accounts (modify _)) => apply keeps_modify; done : keeps.

Lemma keeps_queue_append i t : keeps accounts (queue_append i t).
Proof. unfold queue_append, tail_get, tail_set, head_set. keeps_steps. Qed.
#[local] Hint Resolve keeps_queue_append : keeps.

Lemma keeps_sched_enqueue t : keeps accounts (sched_enqueue t).
Proof. unfold sched_enqueue, sched_lock_acquire, sched_lock_release, quantum_get, timer_tick_get. keeps_steps. Qed.
#[local] Hint Resolve keeps_sched_enqueue : keeps.

Lemma keeps_wake_up_sleeping t : keeps accounts (wake_up_sleeping t).
Proof. unfold wake_up_sleeping. keeps_steps. Qed.

Lemma keeps_locked_aging : keeps accounts (sched_lock_acquire ;; sched_apply_aging ;; sched_lock_release).
Proof.
  unfold sched_lock_acquire, sched_lock_release, sched_apply_aging, aging_level, aging_step, aging_unlink, head_get, head_set,
    tail_get, tail_set, timer_tick_get.
  keeps_steps.
Qed.

Lemma keeps_dispatch_switch_to t : keeps accounts (dispatch_switch_to t).
Proof. unfold dispatch_switch_to, dispatch_get_current. keeps_steps. Qed.

Lemma frame_account X s s' p : frame X s s' → ¬ X p → account s' p = account s p.
Proof.
  intros F Hp. pose proof (fr_threads _ _ _ F p Hp) as H. unfold account.
  destruct (threads s' !! p) as [th'|], (threads s !! p) as [th|]; try done. cbn in H |- *.
  assert (set_next 0 th' = set_next 0 th) as H' by congruence. f_equal. exact (f_equal counters H').
Qed.

(** Only the thread that is chosen from the queues starts a new slice. *)
Lemma wp_switch_accounts s q sl :
  quiet s q sl →
  wp sched_switch_next s (λ _ s', g_time_tick s' = g_time_tick s ∧ ∀ p, account s' p =
    if decide (allq q ≠ [] ∧ p = (pick (kernel_idle_task s) q).1) then (λ a, (a.1, 0)) <$> account s p else account s p).
Proof.
  intros Hq. pose proof Hq as [R _ _ _ _]. pose proof (wp_sched_switch_next s q sl Hq) as Hw.
  unfold sched_switch_next in *. apply wp_elim in Hw as (a & s' & (t & s1 & E1 & E2)%bind_inv & _).
  pose proof (accounts_eq _ _ (keeps_dispatch_switch_to t _ _ _ E2)) as [Et Ea].
  pose proof (wp_run _ _ _ _ _ (wp_sched_pick_next s q R) E1) as H.
  apply (wp_intro _ _ a s'); [by rewrite (bind_run _ _ _ _ _ E1)|].
  destruct H as [(-> & _ & F & He)|(i & l & th & Hi & Eq & Hj & _ & F & E & _ & E')];
    pose proof (fr_rest _ _ _ F) as Er; unfold rest in Er; injection Er as _ _ _ Er _ _ _ _; (split; [congruence|]; intros p; rewrite Ea).
  - rewrite decide_False by (intros [Hn _]; by apply Hn, allq_nil). apply (frame_account (λ _, False)); [done|tauto].
  - rewrite (pick_some _ q i t l) by done. cbn [fst]. destruct (decide (p = t)) as [->|Hne].
    + rewrite decide_True; [by unfold account; rewrite E, E'|]. split; [|done].
      intros Hn. by rewrite (proj1 (allq_nil q) Hn i Hi) in Eq.
    + rewrite decide_False by naive_solver. apply (frame_account (eq t)); [done|congruence].
Qed.

Lemma wp_requeue_accounts s q sl th :
  quiet s q sl → g_current_thread s ≠ 0 → unqueued q (g_current_thread s) →
  g_current_thread s ∉ sl → threads s !! g_current_thread s = Some th →
  (th_tid th ≠ 0 → schedulable th) →
  wp (sched_enqueue (g_current_thread s) ;; sched_switch_next) s (λ _ s', g_time_tick s' = g_time_tick s ∧
    ∀ p, account s' p = if decide (cur_tid s' ≠ 0 ∧ p = g_current_thread s') then (λ a, (a.1, 0)) <$> account s p else account s p).
Proof.
  intros Hq H0 Hu Hs E Hth.
  assert (∀ s1 q1, quiet s1 q1 sl → accounts s1 = accounts s →
    wp sched_switch_next s1 (λ _ s', g_time_tick s' = g_time_tick s ∧
      ∀ p, account s' p = if decide (cur_tid s' ≠ 0 ∧ p = g_current_thread s') then (λ a, (a.1, 0)) <$> account s p
                          else account s p)) as K.
  { intros s1 q1 Q1 [Et Ea]%accounts_eq. eapply wp_mono; [apply wp_and; [exact (wp_sched_switch_next s1 q1 sl Q1)|exact (wp_switch_accounts s1 q1 sl Q1)]|].
    intros [] s' ((_ & Ec & Ei) & Et' & H). split; [congruence|]. intros p. rewrite H, Ea, <- Ec.
    destruct (decide (cur_tid s' ≠ 0 ∧ _)) as [D|D]; [rewrite decide_True by tauto|rewrite decide_False by tauto]; done. }
  wp_step. destruct (Z.eqb_spec (th_tid th) 0) as [Hz|Hz].
  - unfold sched_enqueue. replace (g_current_thread s =? 0) with false by lia.
    wp_step. eapply wp_thread; [exact E|]. replace (th_tid th =? 0) with true by lia. wp_step. by apply (K s q).
  - eapply wp_mono; [apply (wp_keeps accounts); [apply keeps_sched_enqueue|apply (wp_enqueue_quiet s q sl _ th); auto]|].
    intros [] s1 [[Q1 _] Ea]. by apply (K s1 _ Q1).
Qed.

(* ------------------------------------------------------------------ *)
(** ** The handlers *)

Lemma elem_of_all_promoted q j x :
  0 <= j < 4 → x ∈ all_promoted q j → ∃ k, 0 <= k < 4 ∧ x ∈ q k.
Proof.
  intros Hj. unfold all_promoted. intros [H|H]%elem_of_app.
  - destruct (Z.eqb_spec j 0); [exists 0; split; [lia|done]|by apply not_elem_of_nil in H].
  - destruct (Z.ltb_spec j 3); [exists (j + 1); split; [lia|done]|by apply not_elem_of_nil in H].
Qed.

Lemma wp_locked_aging s q sl :
  quiet s q sl →
  wp (sched_lock_acquire ;; sched_apply_aging ;; sched_lock_release) s (λ _ s',
    quiet s' (all_promoted q) sl ∧ frame (λ x, ∃ j, 1 <= j < 4 ∧ x ∈ q j) s s').
Proof.
  intros Hq. pose proof Hq as [R Hsl Hd Hi Hc]. pose proof R as [Hl Rq Hr (thi & Ei & Hid)].
  wp_step. apply wp_sched_lock_acquire; [done|]. fold (locked s). wp_step.
  unfold sched_apply_aging.
  eapply wp_mono; [apply (wp_aging_levels (locked s) q); [by apply (qrep_ext s)|exact Hr]|].
  intros [] s1 [R1 M1 F1 L1 _]. apply wp_sched_lock_release; [by rewrite L1|]. fold (unlocked s1).
  assert (frame (λ x, ∃ j, 1 <= j < 4 ∧ x ∈ q j) s (unlocked s1)) as F by (by apply frame_unlocked).
  assert (∀ j, 0 <= j < 4 → all_promoted q j = aged_to (locked s) q aging_threshold 4 j) as Hall.
  { intros j Hj. symmetry. apply (aged_to_all (locked s)); [exact Hr|by vm_compute|done]. }
  split; [|done]. apply (quiet_frame _ s _ q _ _ Hq F).
  - intros t Ht (j & Hj & Hin). apply (Hd t Ht j); [lia|done].
  - apply (rep_fun_ext _ (aged_to (locked s) q aging_threshold 4)); [|done].
    split; [done|by apply (qrep_ext s1)|exact M1|]. rewrite (frame_idle _ _ _ F).
    apply (frame_thread _ _ _ _ _ F) in Ei as [n En]; [by exists (set_next n thi)|].
    intros (j & Hj & Hin). destruct (idle_free s q sl Hq) as [Hu _]. apply (Hu j); [lia|done].
  - intros t Ht j Hj (k & Hk & Hin)%elem_of_all_promoted; [|done]. by apply (Hd t Ht k).
Qed.

(** Has the running thread used up its slice after one more tick? *)
Definition expired (th : thread_t) : bool :=
  s32 (u32 (th_quantum th - u32 (th_passed th + 1))) <=? 0.

Lemma expired_slice th :
  0 <= th_passed th < th_quantum th → th_quantum th <= 200 →
  expired th = (th_quantum th =? th_passed th + 1).
Proof. intros H1 H2. unfold expired. ulia. Qed.

(** The control block of the running thread after a tick. *)
Definition ticked (th : thread_t) : thread_t :=
  set_passed (u32 (th_passed th + 1)) (set_rt_ticks (u32 (th_rt_ticks th + 1)) th).

(** The tick is charged to the thread that was running, and to no other; the
    thread that is chosen when a slice is over starts at 0. *)
Definition charged (s : sched) (th : thread_t) (s' : sched) : Prop :=
  ∀ p, account s' p = (λ a, let here := bool_decide (p = g_current_thread s) in
    (if here then u32 (a.1 + 1) else a.1,
     if decide (expired th = true ∧ cur_tid s' ≠ 0 ∧ p = g_current_thread s') then 0
     else if here then u32 (a.2 + 1) else a.2)) <$> account s p.

Lemma account_ticked s th p :
  threads s !! g_current_thread s = Some th →
  account (set_threads (<[g_current_thread s := ticked th]> (threads s)) s) p =
  (λ a, let here := bool_decide (p = g_current_thread s) in (if here then u32 (a.1 + 1) else a.1, if here then u32 (a.2 + 1) else a.2)) <$> account s p.
Proof.
  intros E. unfold account. sched_cbn. destruct (decide (p = g_current_thread s)) as [->|Hne].
  - rewrite lookup_insert_eq, E. cbn. by rewrite bool_decide_eq_true_2.
  - rewrite lookup_insert_ne by done. rewrite bool_decide_eq_false_2 by done. by destruct (threads s !! p).
Qed.

Lemma wp_charge_current s q sl th :
  quiet s q sl → g_current_thread s ≠ 0 → unqueued q (g_current_thread s) →
  g_current_thread s ∉ sl → threads s !! g_current_thread s = Some th →
  th_state th = THREAD_STATE_RUNNING →
  (th_tid th ≠ 0 → schedulable th ∧ th_passed th < th_quantum th <= 200) →
  wp charge_current s
    (λ _ s', (if expired th
       then switched (kernel_idle_task s) (yield_queues (g_current_thread s) th q) sl s'
       else inv s' q sl ∧ g_current_thread s' = g_current_thread s ∧ cur_tid s' = th_tid th) ∧
      g_time_tick s' = g_time_tick s ∧ charged s th s').
Proof.
  intros Hq H0 Hu Hs E Hst Hth. pose proof Hq as [R Hsl Hd Hi Hc].
  unfold charge_current, dispatch_get_current. wp_step. wp_step. wp_step; [lia|].
  wp_step. eapply wp_thread; [exact E|]. rewrite bool_decide_eq_true_2 by done. simpl.
  apply wp_thread_set_fuse. wp_step. eapply wp_thread_set; [exact E|].
  change (set_passed _ _) with (ticked th). set (s1 := set_threads _ s).
  assert (threads s1 !! g_current_thread s = Some (ticked th)) as E1 by apply lookup_insert_eq.
  assert (th_tid th ≠ 0 → schedulable (ticked th) ∧ th_passed (ticked th) = th_passed th + 1) as Ht.
  { intros Hn. destruct (Hth Hn) as [[] ?]. split; [split|]; cbn; try done; ulia. }
  assert (quiet s1 q sl) as Q1.
  { split; [|by apply sleepers_thread_upd with th|done|done|by eexists].
    apply rep_thread_upd with th; [done|done|by left| |done]. intros i ? Hin. by destruct (Hu i). }
  wp_step. eapply wp_thread; [exact E1|].
  change (s32 (u32 (th_quantum (ticked th) - th_passed (ticked th))) <=? 0) with (expired th).
  pose proof (λ p, account_ticked s th p E) as Ha. fold s1 in Ha. unfold charged. destruct (expired th) eqn:Ex; simpl.
  - change (g_current_thread s) with (g_current_thread s1).
    eapply wp_mono; [apply wp_and; [apply (wp_requeue s1 q sl (ticked th))|apply (wp_requeue_accounts s1 q sl (ticked th))]; try done;
      intros Hn; by apply Ht|].
    intros [] s' (Hsw & Et & Hacc). split; [done|]. split; [done|]. intros p. rewrite Hacc, Ha.
    change (g_current_thread s1) with (g_current_thread s). destruct (account s p) as [a|]; cbn; [|by destruct (decide _)].
    destruct (decide (cur_tid s' ≠ 0 ∧ _)) as [D|D]; [rewrite decide_True by tauto|rewrite decide_False by tauto]; done.
  - wp_step. split; [|split; [done|intros p; rewrite Ha; destruct (account s p) as [a|]; by cbn]]. split; [|split; [done|unfold cur_tid; change (g_current_thread s1) with (g_current_thread s); by rewrite E1]]. split; try done. exists (ticked th). split_and!; [done|done|].
    intros Hn. destruct (Ht Hn) as [? Hp]. destruct (Hth Hn) as [[] ?].
    rewrite expired_slice in Ex by lia. split; [done|]. rewrite Hp. cbn. lia.
Qed.

Lemma wake_quiet s q sl tick ws rs s1 :
  inv s q sl → sl = ws ++ rs → wake_inv s q tick ws rs s1 →
  quiet s1 (enqueue_all (pr s) ws q) rs ∧ g_current_thread s1 = g_current_thread s ∧
  kernel_idle_task s1 = kernel_idle_task s ∧ g_time_tick s1 = g_time_tick s ∧
  unqueued (enqueue_all (pr s) ws q) (g_current_thread s) ∧
  ∀ th, threads s !! g_current_thread s = Some th →
    ∃ n, threads s1 !! g_current_thread s = Some (set_next n th).
Proof.
  intros [[R Hsl Hd Hi Hc] H0 Hu Hn Hrun] Es [D R1 S1 W T Dm]. unfold wrest in W.
  assert (g_current_thread s1 = g_current_thread s) as Ec by congruence.
  assert (g_current_thread s ∉ ws) as Hws by (intros H; apply Hn; rewrite Es, elem_of_app; tauto).
  split_and!; [|congruence|congruence|congruence| |].
  - split; [done|done| |congruence|by rewrite Ec; apply Dm].
    intros t Ht i Hi'. rewrite elem_of_enqueue_all. intros [Hin|[Hin _]].
    + apply (Hd t) with i; [rewrite Es, elem_of_app; tauto|done|done].
    + pose proof (s_nodup _ _ Hsl) as N. rewrite Es in N. apply NoDup_app in N as (_ & N & _).
      by apply (N t).
  - intros i Hi'. rewrite elem_of_enqueue_all. intros [Hin|[Hin _]]; [by apply (Hu i Hi')|done].
  - intros th E. by apply (up_to_next_thread (threads s !! g_current_thread s)); [apply T|].
Qed.

(** The queues after the wake-ups and, every hundred ticks, the aging. *)
Definition tick_queues (s : sched) (ws : list Z) (q : Z → list Z) : Z → list Z :=
  let q1 := enqueue_all (pr s) ws q in
  if u32 (g_time_tick s + 1) mod 100 =? 0 then all_promoted q1 else q1.

Lemma inv_set_tick s q sl t : inv s q sl → inv (set_tick t s) q sl.
Proof.
  intros [[R Hsl Hd Hi Hc] H0 Hu Hn Hrun]. split; try done.
  split; [by apply (rep_ext s)|by apply (sleepers_ext s)|done..].
Qed.

Lemma unqueued_all_promoted q t : unqueued q t → unqueued (all_promoted q) t.
Proof.
  intros Hu i Hi (k & Hk & Hin)%elem_of_all_promoted; [|done]. by apply (Hu k).
Qed.

(** One tick: the sleepers that are due are made ready in order of their
    wake-up time, the queues are aged when it is time, and the running thread
    goes to the back of its queue when its slice is over. *)
Definition tick_post (s : sched) (q : Z → list Z) (sl : list Z) (th : thread_t) (s' : sched) : Prop :=
  ∃ ws rs, sl = ws ++ rs ∧
    (∀ x, x ∈ ws → wk s x <= u32 (g_time_tick s + 1)) ∧
    (∀ x, x ∈ rs → u32 (g_time_tick s + 1) < wk s x) ∧
    let q2 := tick_queues s ws q in
    if expired th then switched (kernel_idle_task s) (yield_queues (g_current_thread s) th q2) rs s'
    else inv s' q2 rs ∧ g_current_thread s' = g_current_thread s ∧ cur_tid s' = th_tid th.

(** The clock and the counters of a tick. *)
Definition tick_counts (s : sched) (th : thread_t) (s' : sched) : Prop :=
  g_time_tick s' = u32 (g_time_tick s + 1) ∧ charged s th s'.

Lemma wp_charge_tail s q sl th ws rs n s2 :
  inv s q sl → threads s !! g_current_thread s = Some th → sl = ws ++ rs →
  (∀ x, x ∈ ws → wk s x <= u32 (g_time_tick s + 1)) →
  (∀ x, x ∈ rs → u32 (g_time_tick s + 1) < wk s x) →
  quiet s2 (tick_queues s ws q) rs → g_current_thread s2 = g_current_thread s →
  kernel_idle_task s2 = kernel_idle_task s →
  unqueued (tick_queues s ws q) (g_current_thread s) →
  threads s2 !! g_current_thread s = Some (set_next n th) →
  accounts s2 = accounts (set_tick (u32 (g_time_tick s + 1)) s) →
  wp charge_current s2 (λ _ s', tick_post s q sl th s' ∧ tick_counts s th s').
Proof.
  intros [_ H0 _ Hn (th' & E' & Hst & Hok)] E -> Hdue Hlate Q2 Ec Eid Hu E2 [Et Ea]%accounts_eq.
  rewrite E in E'. injection E' as <-.
  eapply wp_mono; [apply (wp_charge_current s2 (tick_queues s ws q) rs (set_next n th)); rewrite ?Ec; try done|].
  - intros H. apply Hn. rewrite elem_of_app. tauto.
  - intros Hn'. destruct (Hok Hn') as [[] ?]. by split.
  - intros [] s' (H & Et' & Hc). split.
    + exists ws, rs. split_and!; [done..|]. rewrite Ec, Eid in H. exact H.
    + split; [by rewrite Et', Et|]. intros p. rewrite (Hc p), Ea, Ec. done.
Qed.

Lemma wp_timer_on_tick s q sl th :
  inv s q sl → threads s !! g_current_thread s = Some th →
  wp timer_on_tick s (λ _ s', tick_post s q sl th s' ∧ tick_counts s th s').
Proof.
  intros V E. unfold timer_on_tick, sched_on_timer_tick, timer_tick_get.
  wp_step. wp_step. wp_step. wp_step. wp_step.
  set (s0 := set_tick _ s). assert (inv s0 q sl) as V0 by by apply inv_set_tick.
  change (g_time_tick s0) with (u32 (g_time_tick s + 1)). set (T := u32 (g_time_tick s + 1)).
  rewrite (u32_small T) by apply u32_range.
  pose proof V0 as [[R Hsl Hd Hi Hc] H0 Hu Hn Hrun].
  eapply wp_mono; [apply (wp_keeps accounts); [apply keeps_wake_up_sleeping|by apply (wp_wake_up_sleeping s0 q sl T)]|].
  intros [] s1 [(ws & rs & Es & I & Hlate) Ea].
  destruct (wake_quiet s0 q sl T ws rs s1 V0 Es I) as (Q1 & Ec & Eid & Et & Hu1 & Hth).
  destruct (Hth th E) as [n E1]. pose proof (wi_due _ _ _ _ _ _ I) as Hdue.
  wp_step. wp_step. rewrite Et. change (g_time_tick s0) with T. wp_step.
  pose proof (λ n s2, wp_charge_tail s q sl th ws rs n s2 V E Es Hdue Hlate) as Hfin.
  unfold tick_queues in Hfin. fold T in Hfin. wp_step; rewrite H in Hfin.
  - eapply wp_mono; [apply (wp_keeps accounts); [apply keeps_locked_aging|exact (wp_locked_aging s1 _ rs Q1)]|].
    intros [] s2 [[Q2 F2] Ea2].
    destruct (frame_thread _ _ _ (g_current_thread s) (set_next n th) F2) as [n2 E2]; [|exact E1|].
    { intros (j & Hj & Hin). apply (Hu1 j); [lia|done]. }
    apply (Hfin n2); [done| | |by apply unqueued_all_promoted|done|by rewrite Ea2].
    + by rewrite (frame_current _ _ _ F2), Ec.
    + by rewrite (frame_idle _ _ _ F2), Eid.
  - by apply (Hfin n).
Qed.

Lemma wp_sys_yield s q sl th :
  inv s q sl → threads s !! g_current_thread s = Some th →
  wp sys_yield s (λ _ s',
    switched (kernel_idle_task s) (yield_queues (g_current_thread s) th q) sl s').
Proof.
  intros [Q H0 Hu Hn (th' & E' & _ & Hok)] E. rewrite E in E'. injection E' as <-.
  unfold sys_yield, dispatch_get_current. wp_step. wp_step.
  apply wp_requeue; try done. intros H. by apply Hok.
Qed.

Lemma elem_of_sleep_insert w t tm sl x : x ∈ sleep_insert w t tm sl → x = t ∨ x ∈ sl.
Proof.
  induction sl as [|y l IH]; simpl.
  - intros ->%list_elem_of_singleton. by left.
  - destruct (tm <? w y).
    + intros [->|?]%elem_of_cons; [by left|by right].
    + intros [->|?]%elem_of_cons; [right; by constructor|].
      destruct IH as [?|?]; [done|by left|right; by constructor].
Qed.

(** Putting the thread on the processor to sleep until [w]. *)
Lemma wp_sleep_switch s q sl th w :
  quiet s q sl → g_current_thread s ≠ 0 → unqueued q (g_current_thread s) →
  g_current_thread s ∉ sl → threads s !! g_current_thread s = Some th → schedulable th →
  wp (enqueue_sleeper (g_current_thread s) w ;; sched_switch_next) s (λ _ s',
    switched (kernel_idle_task s) q (sleep_insert (wk s) (g_current_thread s) w sl) s').
Proof.
  intros [R Hsl Hd Hi Hc] H0 Hu Hn E Hs. wp_step.
  eapply wp_mono; [by apply (wp_enqueue_sleeper s q sl _ th w)|]. intros [] s1 (R1 & S1 & F1 & n & E1).
  pose proof (sf_rest _ _ _ F1) as W. unfold srest in W.
  assert (kernel_idle_task s1 = kernel_idle_task s) as Eid by congruence.
  assert (g_current_thread s1 = g_current_thread s) as Ec by congruence.
  eapply wp_mono; [apply (wp_sched_switch_next s1 q (sleep_insert (wk s) (g_current_thread s) w sl))|].
  - split; [done|done| |congruence|rewrite Ec; by eexists].
    intros t [->|Ht]%elem_of_sleep_insert; [done|by apply Hd].
  - intros [] s2 H. by rewrite Eid in H.
Qed.

Lemma wp_sys_sleep s q sl th seconds :
  inv s q sl → threads s !! g_current_thread s = Some th → th_tid th ≠ 0 →
  wp (sys_sleep seconds) s (λ _ s',
    switched (kernel_idle_task s) q (sleep_insert (wk s) (g_current_thread s)
      (u32 (g_time_tick s + sleep_ticks seconds)) sl) s').
Proof.
  intros [Q H0 Hu Hn (th' & E' & _ & Hok)] E Ht. rewrite E in E'. injection E' as <-.
  unfold sys_sleep, dispatch_get_current, timer_tick_get. wp_step. wp_step. wp_step. wp_step.
  apply (wp_sleep_switch s q sl th); try done. by apply Hok.
Qed.

(** The wake-up time of [sys_nanosleep] at tick [tick]. *)
Definition nano_deadline (tick : Z) (req : timespec_t) : Z :=
  u32 (tick + u64 (u64 (u64 (tv_sec req * 1000000000) + tv_nsec req) * TIMER_HZ) / 1000000000).

Lemma wp_sys_nanosleep s q sl th req :
  inv s q sl → threads s !! g_current_thread s = Some th → th_tid th ≠ 0 →
  wp (sys_nanosleep (Some req)) s (λ r s', r = 0 ∧
    switched (kernel_idle_task s) q (sleep_insert (wk s) (g_current_thread s)
      (nano_deadline (g_time_tick s) req) sl) s').
Proof.
  intros [[R Hsl Hd Hi Hc] H0 Hu Hn (th' & E' & _ & Hok)] E Ht. rewrite E in E'. injection E' as <-.
  destruct (Hok Ht) as [[] _].
  unfold sys_nanosleep, dispatch_get_current, timer_tick_get. wp_step. wp_step.
  wp_step. eapply wp_thread_set; [exact E|]. set (th1 := set_state _ th). set (s1 := set_threads _ s).
  wp_step. wp_step.
  change (u32 (g_time_tick s1 + _)) with (nano_deadline (g_time_tick s) req).
  assert (quiet s1 q sl) as Q1.
  { split; [|by apply sleepers_thread_upd with th|done|done|exists th1; apply lookup_insert_eq].
    apply rep_thread_upd with th; [done|done|by left| |done]. intros i ? Hin. by destruct (Hu i). }
  assert (∀ x, wk s1 x = wk s x) as Hwk.
  { intros x. unfold wk, s1. sched_cbn. destruct (decide (x = g_current_thread s)) as [->|];
      [by rewrite lookup_insert_eq, E|by rewrite lookup_insert_ne]. }
  pose proof (wp_sleep_switch s1 q sl th1 (nano_deadline (g_time_tick s) req) Q1 H0 Hu Hn) as K.
  assert (sleep_insert (wk s1) (g_current_thread s) (nano_deadline (g_time_tick s) req) sl =
          sleep_insert (wk s) (g_current_thread s) (nano_deadline (g_time_tick s) req) sl) as Hins.
  { clear -Hwk. induction sl as [|x l IH]; [done|]. simpl. by rewrite Hwk, IH. }
  change (g_current_thread s1) with (g_current_thread s) in K. rewrite Hins in K.
  apply (wp_assoc _ _ (λ _, ret 0)). wp_step.
  eapply wp_mono; [apply K; [apply lookup_insert_eq|by split]|]. intros [] s2 H. by wp_step.
Qed.

(** The running thread is taken out of the scheduler. *)
Lemma wp_dequeue_current s q sl th :
  inv s q sl → threads s !! g_current_thread s = Some th → th_tid th ≠ 0 →
  wp (sched_dequeue (g_current_thread s)) s (λ _ s', quiet s' q sl ∧ frame (eq (g_current_thread s)) s s').
Proof.
  intros [Hq H0 Hu Hn (th' & E' & _ & Hok)] E Htid. rewrite E in E'. injection E' as <-.
  destruct (Hok Htid) as [[] _]. pose proof Hq as [R Hsl Hd Hi Hc].
  eapply wp_mono; [by apply (wp_sched_dequeue s q _ th)|]. intros [] s1 (R1 & F1 & E1). split; [|done].
  apply (quiet_frame _ s s1 q q sl Hq F1); [by intros t Ht <-| |done].
  apply (rep_fun_ext _ _ _ R1). intros i Hi'. destruct (decide (i = th_priority th)) as [->|].
  - rewrite fn_lookup_insert. by rewrite without_notin by (by apply Hu).
  - by rewrite fn_lookup_insert_ne.
Qed.

(** The exit path when nobody waits, and the block of [sys_waitpid]. *)
Lemma wp_exit_switch s q sl th :
  inv s q sl → threads s !! g_current_thread s = Some th → th_tid th ≠ 0 →
  wp (sched_dequeue (g_current_thread s) ;; sched_switch_next) s (λ _ s',
    switched (kernel_idle_task s) q sl s').
Proof.
  intros V E Htid. wp_step. eapply wp_mono; [by apply (wp_dequeue_current s q sl th)|]. intros [] s1 [Q1 F1].
  eapply wp_mono; [by apply (wp_sched_switch_next s1 q sl)|by rewrite (frame_idle _ _ _ F1)].
Qed.

(** The exit path with a waiting parent, whose thread [t] is in no list. *)
Lemma wp_exit_wake s q sl th t tht :
  inv s q sl → threads s !! g_current_thread s = Some th → th_tid th ≠ 0 →
  threads s !! t = Some tht → schedulable tht → t ≠ 0 → t ≠ g_current_thread s → unqueued q t → t ∉ sl →
  wp (sched_dequeue (g_current_thread s) ;; sched_enqueue t ;; sched_switch_next) s (λ _ s',
    switched (kernel_idle_task s) (<[th_priority tht := q (th_priority tht) ++ [t]]> q) sl s').
Proof.
  intros V E Htid Et [] H0 Hc Hu Hn. wp_step. eapply wp_mono; [by apply (wp_dequeue_current s q sl th)|]. intros [] s1 [Q1 F1].
  destruct (frame_thread _ _ _ t tht F1) as [n E1]; [congruence|done|]. wp_step.
  eapply wp_mono; [apply (wp_enqueue_quiet s1 q sl t (set_next n tht)); try done; by split|]. intros [] s2 [Q2 F2].
  eapply wp_mono; [by apply (wp_sched_switch_next s2)|by rewrite (frame_idle _ _ _ F2), (frame_idle _ _ _ F1)].
Qed.

(** A control block at a fresh address disturbs nothing. *)
Lemma quiet_fresh s q sl t th :
  quiet s q sl → threads s !! t = None →
  quiet (set_threads (<[t := th]> (threads s)) s) q sl ∧ unqueued q t ∧ t ∉ sl ∧
  t ≠ g_current_thread s.
Proof.
  intros [[Hl R Hr (thi & Ei & Hid)] [C N S O] Hd Hi [thc Ec]] Ht.
  assert (unqueued q t) as Hu by (intros i Hi' Hin; destruct (Hr i t Hi' Hin) as (? & ? & _); congruence).
  assert (t ∉ sl) as Hs by (intros Hin; destruct (S t Hin) as (? & ? & _); congruence).
  assert (t ≠ g_current_thread s) as Hc by congruence.
  assert (∀ x v, threads s !! x = Some v → <[t := th]> (threads s) !! x = Some v) as K.
  { intros x v Hx. rewrite lookup_insert_ne; [done|congruence]. }
  split; [|done]. split; sched_cbn; [..|done|by exists thc; apply K].
  - split; sched_cbn; [done| |naive_solver|naive_solver].
    destruct R as [R1 R2 R3 R4 R5 R6]. split; sched_cbn; try done.
    intros i Hi'. apply chain_insert_ne; [by apply Hu|by apply R3].
  - split; sched_cbn; [by apply chain_insert_ne|done|naive_solver|].
    apply (StronglySorted_impl (λ a b, wk s a <= wk s b)); [|done]. intros a b Ha Hb. unfold wk. sched_cbn.
    rewrite !lookup_insert_ne; [done|by intros ->..].
  - done.
Qed.

(** A thread that is in no list is made ready behind the running one's back. *)
Lemma wp_ready_parked s q sl t th :
  quiet s q sl → g_current_thread s ≠ 0 → unqueued q (g_current_thread s) → g_current_thread s ∉ sl →
  (∃ thc, threads s !! g_current_thread s = Some thc ∧ th_state thc = THREAD_STATE_RUNNING ∧
     (th_tid thc ≠ 0 → schedulable thc ∧ th_passed thc < th_quantum thc <= 200)) →
  threads s !! t = Some th → schedulable th → t ≠ 0 → t ≠ g_current_thread s → unqueued q t → t ∉ sl →
  wp (sched_enqueue t) s (λ _ s',
    inv s' (<[th_priority th := q (th_priority th) ++ [t]]> q) sl ∧ g_current_thread s' = g_current_thread s).
Proof.
  intros Hq H0 Hu Hn (thc & Ec & Hst & Hok) E Hs Ht0 Hct Hut Hnt.
  eapply wp_mono; [by apply (wp_enqueue_quiet _ q sl t th Hq)|].
  intros [] s' [Q' F]. pose proof (frame_current _ _ _ F) as Ec'. split; [|done].
  split; rewrite ?Ec'; try done.
  - apply unqueued_insert; [by destruct Hs|]. split; [|intros j Hj _; by apply Hu].
    rewrite elem_of_app, list_elem_of_singleton. intros [Hin|?]; [|congruence].
    by apply (Hu (th_priority th)); [destruct Hs|].
  - destruct (frame_thread _ _ _ (g_current_thread s) thc F) as [n E']; [done|done|].
    exists (set_next n thc). split_and!; [done|done|].
    intros Hn'. destruct (Hok Hn') as [[] ?]. by split.
Qed.

(** A new thread: its control block is added and it is made ready. *)
Lemma wp_spawn s q sl t th :
  inv s q sl → threads s !! t = None → t ≠ 0 → schedulable th →
  wp (sched_enqueue t) (set_threads (<[t := th]> (threads s)) s) (λ _ s',
    inv s' (<[th_priority th := q (th_priority th) ++ [t]]> q) sl ∧
    g_current_thread s' = g_current_thread s).
Proof.
  intros [Hq H0 Hu Hn (thc & Ec & Hst & Hok)] Ht Ht0 Hs.
  destruct (quiet_fresh s q sl t th Hq Ht) as (Q1 & Hut & Hnt & Hct).
  apply (wp_ready_parked _ q sl t th Q1); try done; [|apply lookup_insert_eq].
  exists thc. sched_cbn. by rewrite lookup_insert_ne.
Qed.

(* ------------------------------------------------------------------ *)
(** ** A thread made ready twice

    [sched_enqueue] does not look whether its thread is in a queue. When the
    thread is the last of its queue, its [next] becomes the thread itself. *)

(** The state [s'] is [s] with thread [m], the last of queue [p], made ready
    once more. *)
Record doubled (s s' : sched) (p m : Z) : Prop := {
  db_heads : ready_queue_heads s' = ready_queue_heads s;
  db_tails : alen (ready_queue_tails s') = THREAD_NUM_PRIORITIES ∧ aat (ready_queue_tails s') p = m;
  db_lock : sl_val (sched_lock s') = 0;
  db_current : g_current_thread s' = g_current_thread s;
  db_thread : ∃ th, threads s' = <[m := th]> (threads s) ∧ th_next th = m ∧ 0 <= th_passed th <= 200 ∧ 0 <= th_burst th <= 200
}.

Lemma wp_enqueue_again s q m th l :
  rep s q → threads s !! m = Some th → schedulable th → q (th_priority th) = l ++ [m] → m ≠ 0 →
  wp (sched_enqueue m) s (λ _ s', doubled s s' (th_priority th) m).
Proof.
  intros HR E [S1 S2 S3] Eq Hm. pose proof HR as [Hl R _ _].
  set (p := th_priority th) in *. unfold sched_enqueue.
  wp_step; [lia|]. wp_step. apply wp_thread with (1 := E). wp_step; [lia|].
  wp_step. apply wp_sched_lock_acquire; [done|]. fold p (locked s). unfold THREAD_NUM_PRIORITIES.
  replace ((p <? 0) || (4 <=? p)) with false by lia. cbv zeta.
  apply wp_thread_set_fuse. wp_step. eapply wp_thread_set; [exact E|]. wp_step. unfold queue_append.
  wp_step. apply wp_tail_get; [done|apply R|]. unfold locked. sched_cbn. rewrite (q_tail s q R p S2), Eq, tail_of_app. wp_step; [lia|].
  wp_step. eapply wp_thread_set; [apply lookup_insert_eq|]. apply wp_tail_set; [done|apply R|].
  match goal with |- wp _ ?x _ => assert (∃ th1, threads x = <[m := th1]> (threads s) ∧ th_next th1 = m ∧ th_passed th1 = th_passed th ∧
    ready_queue_heads x = ready_queue_heads s ∧ alen (ready_queue_tails x) = 4 ∧ aat (ready_queue_tails x) p = m ∧
    sl_val (sched_lock x) = 1 ∧ g_current_thread x = g_current_thread s) as (th1 & X1 & X2 & X3 & X4 & X5 & X6 & X7 & X8); [|generalize dependent x] end.
  { sched_cbn. rewrite insert_insert_eq. eexists. split; [reflexivity|]. split_and!; [done|done|done|apply R|apply aat_aput_eq|done|done]. }
  intros x X1 X4 X5 X6 X7 X8. wp_step. apply wp_quantum_get; [done|].
  apply wp_thread_set_fuse. wp_step. eapply wp_thread_set; [rewrite X1; apply lookup_insert_eq|].
  wp_step. unfold timer_tick_get. wp_step. wp_step. eapply wp_thread_set; [apply lookup_insert_eq|].
  apply wp_sched_lock_release; [exact X7|]. pose proof (tq_bound p S2). split; sched_cbn; try done.
  rewrite X1, !insert_insert_eq. eexists. split; [reflexivity|]. cbn. rewrite X2, X3. lia.
Qed.

(** The next choice takes either [m], which stays at the head of its queue, or
    another thread, and [m] stays behind itself. *)
Lemma wp_pick_doubled s q s2 p l m :
  rep s q → 0 <= p < 4 → q p = l ++ [m] → m ≠ 0 → doubled s s2 p m →
  wp sched_pick_next s2 (λ t s', t ≠ 0 ∧ is_Some (threads s' !! t) ∧ g_current_thread s' = g_current_thread s ∧
    (∀ x, is_Some (threads s !! x) → is_Some (threads s' !! x)) ∧
    (t = m ∧ aat (ready_queue_heads s') p = m ∨
     t ≠ m ∧ aat (ready_queue_tails s') p = m ∧ th_next <$> threads s' !! m = Some m)).
Proof.
  intros HR Hp Eq Hm [Dh [Dt1 Dt2] Dl Dc (thm & Dm & Dn & Dp & Db)]. pose proof HR as [Hl R Hr _]. unfold sched_pick_next.
  wp_step. apply wp_sched_lock_acquire; [done|]. fold (locked s2).
  wp_step. apply (wp_scan_range (λ i s', s' = locked s2 ∧ i <= p)); [split; [done|lia]|..].
  - intros i s1 Hi [-> Hip]. change THREAD_NUM_PRIORITIES with 4 in Hi.
    wp_step. apply wp_head_get; [done|cbn; rewrite ?Dh; apply R|]. unfold locked. sched_cbn. rewrite Dh.
    pose proof (q_chain s q R i Hi) as Hc. set (t := aat _ i) in *. wp_step.
    { wp_step. split; [done|]. destruct (decide (i = p)) as [->|]; [|lia]. replace t with 0 in Hc by lia.
      apply chain_null in Hc. rewrite Eq in Hc. by destruct l. }
    destruct (chain_nonnull _ _ _ _ Hc) as [l' Eq']; [lia|].
    destruct (Hr i t Hi) as (th & E & Hrd); [rewrite Eq'; by constructor|].
    assert (∃ th2, threads s2 !! t = Some th2 ∧ 0 <= th_passed th2 <= 200 ∧ 0 <= th_burst th2 <= 200 ∧
      (t = m ∧ th_next th2 = m ∨ t ≠ m ∧ th2 = th)) as (th2 & E2 & Hp2 & Hb2 & Hcase).
    { rewrite Dm. destruct (decide (t = m)) as [->|Hne]; [exists thm; rewrite lookup_insert_eq; by auto 10|].
      exists th. rewrite lookup_insert_ne by done. destruct Hrd. by auto 10. }
    wp_step. eapply wp_thread; [exact E2|]. wp_step. apply wp_head_set; [done|cbn; rewrite ?Dh; apply R|].
    wp_step. apply wp_head_get; [done|apply R|].
    sched_cbn. rewrite aat_aput_eq. wp_step. apply wp_when_tail; [done|done|].
    wp_step. eapply wp_thread_set; [exact E2|]. wp_step.
    eapply wp_sched_prepare; [apply lookup_insert_eq|cbn; lia|].
    wp_step. apply wp_sched_lock_release; [done|]. wp_step. wp_step. sched_cbn. rewrite !insert_insert_eq. split_and!.
    + lia.
    + by rewrite lookup_insert_eq.
    + exact Dc.
    + intros x Hx. destruct (decide (x = t)) as [->|]; [by rewrite lookup_insert_eq|]. rewrite lookup_insert_ne by done. rewrite Dm.
      destruct (decide (x = m)) as [->|]; [by rewrite lookup_insert_eq|by rewrite lookup_insert_ne].
    + assert (t = m → i = p) as Hm_p.
      { intros ->. destruct (decide (i = p)) as [|Hne]; [done|]. destruct (queued_elsewhere s q i p m R Hi Hp (not_eq_sym Hne)).
        - rewrite Eq'. by constructor.
        - rewrite Eq. apply elem_of_app. right. by constructor. }
      destruct Hcase as [[-> Hn]|[Hne ->]].
      * left. split; [done|]. rewrite <- (Hm_p eq_refl), aat_aput_eq. done.
      * right. split; [done|]. rewrite lookup_insert_ne, Dm, lookup_insert_eq by done. split; [|by cbn; rewrite Dn].
        destruct (Z.eqb_spec (th_next th) 0) as [Ez|_]; [|done]. rewrite aat_aput_ne; [done|]. intros ->.
        rewrite Eq' in Hc. destruct Hc as (_ & _ & v & Ev & Hc). assert (v = th) as -> by congruence.
        rewrite Ez in Hc. apply chain_null in Hc as ->. rewrite Eq' in Eq. destruct l as [|y l]; [by injection Eq|].
        injection Eq as _ Eq. by destruct l.
  - intros s1 [_ Hx]. change (Z.max 0 THREAD_NUM_PRIORITIES) with 4 in Hx. lia.
Qed.

Lemma wp_enqueue_twice s q sl m th l :
  quiet s q sl → threads s !! m = Some th → schedulable th → q (th_priority th) = l ++ [m] → m ≠ 0 →
  wp (sched_enqueue m ;; sched_switch_next) s (λ _ s', ∀ q' sl', ¬ inv s' q' sl').
Proof.
  intros [HR _ _ _ Hcur] E Hs Eq Hm. pose proof (sc_priority _ Hs) as Hp. set (p := th_priority th) in *.
  wp_step. eapply wp_mono; [by apply (wp_enqueue_again s q m th l)|]. intros [] s2 D. unfold sched_switch_next.
  wp_step. eapply wp_mono; [by apply (wp_pick_doubled s q s2 p l m)|]. intros t s3 (Ht0 & [tht Et] & Ec & Hd & Hcase).
  assert (∀ s', g_current_thread s' = t → ready_queue_heads s' = ready_queue_heads s3 → ready_queue_tails s' = ready_queue_tails s3 →
    (t ≠ m → threads s' !! m = threads s3 !! m) → ∀ q' sl', ¬ inv s' q' sl') as K.
  { intros s' E1 E2 E3 E4 q' sl' [[[_ R _ _] _ _ _ _] _ Hu _ _]. rewrite E1 in Hu.
    pose proof (q_chain s' q' R p Hp) as Hc. pose proof (q_tail s' q' R p Hp) as Ht. rewrite E2 in Hc. rewrite E3 in Ht.
    destruct Hcase as [[-> Eh]|(Hne & Etl & En)].
    - rewrite Eh in Hc. destruct (chain_nonnull _ _ _ _ Hc) as [l' El]; [done|]. apply (Hu p Hp). rewrite El. by constructor.
    - rewrite Etl in Ht. destruct (exists_last (l := q' p)) as (l' & x & El).
      { intros El. rewrite El in Ht. done. }
      rewrite El, tail_of_app in Ht. subst x. rewrite El, chain_app in Hc. destruct Hc as (a & _ & -> & _ & v & Ev & Hz). cbn in Hz.
      rewrite (E4 Hne) in Ev. rewrite Ev in En. injection En as En. congruence. }
  unfold dispatch_switch_to, dispatch_get_current. wp_step. wp_step. wp_step. eapply wp_thread_set; [exact Et|].
  assert (t ≠ m → ∀ th', <[t := th']> (threads s3) !! m = threads s3 !! m) as Hins by (intros Hne th'; by rewrite lookup_insert_ne).
  wp_step.
  - wp_step. apply K; sched_cbn; [|done|done|by intros Hne; apply Hins].
    lia.
  - wp_step. eapply wp_thread; [apply lookup_insert_eq|]. do 4 wp_step. wp_step. destruct Hcur as [thc Hthc].
    destruct (Hd (g_current_thread s) ltac:(by eexists)) as [thc' Hthc'].
    eapply wp_thread; [sched_cbn; rewrite lookup_insert_ne; [rewrite Ec; exact Hthc'|lia]|]. wp_step.
    apply K; sched_cbn; [done..|by intros Hne; apply Hins].
Qed.

(* ------------------------------------------------------------------ *)
(** ** No thread is lost *)


Lemma allq_snoc q i t : 0 <= i < 4 → allq (<[i := q i ++ [t]]> q) ≡ₚ t :: allq q.
Proof.
  intros Hi. unfold allq. assert (i = 0 ∨ i = 1 ∨ i = 2 ∨ i = 3) as H by lia.
  destruct H as [->|[->|[->| ->]]]; rewrite fn_lookup_insert, !fn_lookup_insert_ne by lia; solve_Permutation.
Qed.

Lemma allq_all_promoted q : allq (all_promoted q) = allq q.
Proof. unfold allq, all_promoted. simpl. by rewrite app_nil_r, <- !app_assoc. Qed.

Lemma allq_enqueue_all p ws q :
  (∀ x, x ∈ ws → 0 <= p x < 4) → allq (enqueue_all p ws q) ≡ₚ ws ++ allq q.
Proof.
  revert q. induction ws as [|t ws IH]; intros q H; [done|]. simpl.
  rewrite IH by (intros x Hx; apply H; by constructor).
  rewrite allq_snoc by (apply H; by constructor). solve_Permutation.
Qed.

Lemma allq_pick idle q :
  ((pick idle q).2 = q ∧ allq q = []) ∨
  ((pick idle q).1 ∈ allq q ∧ allq q ≡ₚ (pick idle q).1 :: allq (pick idle q).2).
Proof.
  unfold pick, allq. repeat case_match; simpl;
    rewrite ?fn_lookup_insert, ?fn_lookup_insert_ne by lia; [left; by split|right..];
    (split; [by constructor|repeat match goal with H : q _ = _ |- _ => rewrite H end; solve_Permutation]).
Qed.

(** The threads the scheduler knows: the running one, unless it is an idle
    or boot thread (tid 0), the ready ones and the sleepers. *)
Definition everyone (s : sched) (q : Z → list Z) (sl : list Z) : list Z :=
  (if cur_tid s =? 0 then [] else [g_current_thread s]) ++ allq q ++ sl.

Lemma switched_everyone idle q sl s' :
  switched idle q sl s' → everyone s' (pick idle q).2 sl ≡ₚ allq q ++ sl.
Proof.
  intros (V & Ec & Et). unfold everyone. rewrite Ec.
  destruct (allq_pick idle q) as [[E1 E2]|[Hin Hp]].
  - rewrite (proj2 Et E2), E1. done.
  - destruct (Z.eqb_spec (cur_tid s') 0) as [Hz|_].
    + apply Et in Hz. rewrite Hz in Hin. by apply not_elem_of_nil in Hin.
    + rewrite Hp. done.
Qed.

(** Nobody is lost or duplicated by a tick. *)
Lemma tick_everyone s q sl th s' :
  inv s q sl → threads s !! g_current_thread s = Some th → tick_post s q sl th s' →
  ∃ q' sl', inv s' q' sl' ∧ everyone s' q' sl' ≡ₚ everyone s q sl.
Proof.
  intros V E (ws & rs & -> & _ & _ & H). pose proof V as [[R Hsl Hd Hi Hc] H0 Hu Hn (th' & E' & _ & Hok)].
  rewrite E in E'. injection E' as <-.
  assert (allq (tick_queues s ws q) ≡ₚ ws ++ allq q) as Hq.
  { assert (allq (enqueue_all (pr s) ws q) ≡ₚ ws ++ allq q) as K.
    { apply allq_enqueue_all. intros x Hx. destruct (s_sched _ _ Hsl x) as (thx & Ex & []);
        [apply elem_of_app; by left|]. unfold pr. by rewrite Ex. }
    unfold tick_queues. destruct (_ mod 100 =? 0); [by rewrite allq_all_promoted|done]. }
  assert (cur_tid s = th_tid th) as Ht by (unfold cur_tid; by rewrite E).
  destruct (expired th).
  - eexists _, rs. split; [apply H|]. rewrite (switched_everyone _ _ _ _ H).
    unfold everyone, yield_queues. rewrite Ht. destruct (Z.eqb_spec (th_tid th) 0) as [|Hz].
    + rewrite Hq. solve_Permutation.
    + rewrite allq_snoc by (apply Hok; done). rewrite Hq. solve_Permutation.
  - destruct H as (V' & Ec & Et). exists (tick_queues s ws q), rs. split; [done|].
    unfold everyone. rewrite Ec, Et, Ht, Hq. solve_Permutation.
Qed.

(* ------------------------------------------------------------------ *)
(** ** Theorems *)

Lemma demo_quiet : quiet demo (λ _, []) [].
Proof.
  split; [apply demo_rep| |by intros t ?%not_elem_of_nil|done|by eexists].
  split; [done|constructor|by intros t ?%not_elem_of_nil|constructor].
Qed.

Lemma demo_inv : inv demo (λ _, []) [].
Proof.
  split; [apply demo_quiet|done|apply demo_unqueued|apply not_elem_of_nil|].
  eexists. split; [reflexivity|]. split; [done|]. intros _. split; [split|]; simpl; lia.
Qed.

Lemma demo_current :
  threads demo !! g_current_thread demo = Some (demo_thread 1 1 THREAD_STATE_RUNNING).
Proof. reflexivity. Qed.

(** C2: the whole timer interrupt. From a consistent system it never faults:
    the clock goes on by one tick; it readies exactly the sleepers that are
    due, in order of their deadline, ages the queues every hundred ticks,
    charges the tick to the running thread and to no other, and preempts that
    thread exactly when its slice is used up, switching to the best ready
    thread, which starts a new slice; the system is consistent again and no
    thread is lost or duplicated. *)
Theorem timer_on_tick_correct s q sl th :
  inv s q sl → threads s !! g_current_thread s = Some th →
  ∃ s', timer_on_tick s = Some (tt, s') ∧ tick_post s q sl th s' ∧ tick_counts s th s' ∧
    ∃ q' sl', inv s' q' sl' ∧ everyone s' q' sl' ≡ₚ everyone s q sl.
Proof.
  intros V E. destruct (wp_elim _ _ _ (wp_timer_on_tick s q sl th V E)) as ([] & s' & Es & H & Hc).
  exists s'. split; [done|]. split; [done|]. split; [done|]. by apply (tick_everyone s q sl th).
Qed.

Lemma timer_on_tick_correct_witness :
  ∃ s' q' sl', timer_on_tick demo = Some (tt, s') ∧ inv s' q' sl' ∧
    everyone s' q' sl' ≡ₚ [200] ∧ g_time_tick s' = 1 ∧ account s' 200 = Some (1, 1).
Proof.
  destruct (timer_on_tick_correct demo (λ _, []) [] (demo_thread 1 1 THREAD_STATE_RUNNING)
    demo_inv demo_current) as (s' & Es & _ & (Et & Hc) & q' & sl' & V & P).
  exists s', q', sl'. split; [exact Es|]. split; [exact V|]. split; [exact P|]. split; [exact Et|exact (Hc 200)].
Defined.

(** [enqueue_sleeper] keeps the sleeper list sorted by deadline: the thread
    is inserted behind every sleeper that wakes no later than it, and only the
    sleeper links of the other threads change. *)
Theorem enqueue_sleeper_sorted s q sl t th w :
  rep s q → sleepers s sl → t ≠ 0 → t ∉ sl → threads s !! t = Some th → schedulable th →
  ∃ s', enqueue_sleeper t w s = Some (tt, s') ∧ rep s' q ∧
    sleepers s' (sleep_insert (wk s) t w sl) ∧ wk s' t = w ∧
    (∀ p thp, p ≠ t → threads s !! p = Some thp →
       ∃ n, threads s' !! p = Some (set_next_sleep n thp)).
Proof.
  intros R S H0 Hn E Hs.
  destruct (wp_elim _ _ _ (wp_enqueue_sleeper s q sl t th w R S H0 Hn E Hs))
    as ([] & s' & Es & R' & S' & F & n & E').
  exists s'. split_and!; [done|done|done|unfold wk; by rewrite E'|].
  intros p thp Hp Ep. by apply (sframe_thread _ _ _ _ _ F).
Qed.

Lemma enqueue_sleeper_sorted_witness :
  ∃ s', enqueue_sleeper 300 7 demo = Some (tt, s') ∧ sleepers s' [300] ∧ wk s' 300 = 7.
Proof.
  destruct demo_quiet as [R S _ _ _].
  destruct (enqueue_sleeper_sorted demo (λ _, []) [] 300 (demo_thread 2 2 THREAD_STATE_NEW) 7 R S)
    as (s' & Es & _ & S' & W & _);
    [discriminate|apply not_elem_of_nil|exact demo_new|split; simpl; lia|].
  exists s'. split; [exact Es|]. split; [exact S'|exact W].
Defined.

(** The deadline of [sys_sleep]. The caller leaves the processor and is
    queued to wake [seconds / 1000] ticks later (ticks are milliseconds),
    because the macro for the tick length is not parenthesised: any sleep of
    less than 1000 seconds is due at the very next tick. *)
Theorem sys_sleep_deadline s q sl th seconds :
  inv s q sl → threads s !! g_current_thread s = Some th → th_tid th ≠ 0 →
  0 <= seconds < 4294967 →
  ∃ s', sys_sleep seconds s = Some (tt, s') ∧
    switched (kernel_idle_task s) q
      (sleep_insert (wk s) (g_current_thread s) (u32 (g_time_tick s + seconds / 1000)) sl) s'.
Proof.
  intros V E Ht Hsec.
  destruct (wp_elim _ _ _ (wp_sys_sleep s q sl th seconds V E Ht)) as ([] & s' & Es & H).
  exists s'. split; [done|]. replace (seconds / 1000) with (sleep_ticks seconds); [done|].
  unfold sleep_ticks, TIMER_HZ. rewrite u32_small by (unfold is_u32; lia). by rewrite Z.div_mul by lia.
Qed.

Lemma sys_sleep_deadline_witness :
  ∃ s', sys_sleep 5 demo = Some (tt, s') ∧ switched 100 (λ _, []) [200] s'.
Proof.
  destruct (sys_sleep_deadline demo (λ _, []) [] (demo_thread 1 1 THREAD_STATE_RUNNING) 5
    demo_inv demo_current) as (s' & Es & H); [discriminate|lia|].
  exists s'. split; [exact Es|exact H].
Defined.

Definition consistent (s : sched) : Prop := ∃ q sl, inv s q sl.

(** A blocked thread: it can be scheduled, does not run and is in no list of
    the scheduler. *)
Record parked (s : sched) (t : Z) : Prop := {
  pk_null : t ≠ 0;
  pk_off : t ≠ g_current_thread s;
  pk_thread : ∃ th, threads s !! t = Some th ∧ schedulable th;
  pk_lists : ∀ q sl, inv s q sl → unqueued q t ∧ t ∉ sl
}.

(** A transition of the running system: the timer interrupts; the running
    thread yields, sleeps, blocks in [sys_waitpid] or exits without a waiting
    parent, or exits and readies the parent that waits for it; a blocked
    thread is woken; a thread is created. *)
Inductive sys_step (s s' : sched) : Prop :=
| sys_tick : timer_on_tick s = Some (tt, s') → sys_step s s'
| sys_yields : sys_yield s = Some (tt, s') → sys_step s s'
| sys_sleeps n : cur_tid s ≠ 0 → sys_sleep n s = Some (tt, s') → sys_step s s'
| sys_nanosleeps req r : cur_tid s ≠ 0 → sys_nanosleep (Some req) s = Some (r, s') → sys_step s s'
| sys_leaves : cur_tid s ≠ 0 →
    (sched_dequeue (g_current_thread s) ;; sched_switch_next) s = Some (tt, s') → sys_step s s'
| sys_exits parent : cur_tid s ≠ 0 → parked s parent →
    (sched_dequeue (g_current_thread s) ;; sched_enqueue parent ;; sched_switch_next) s = Some (tt, s') → sys_step s s'
| sys_wakes t : parked s t → sched_enqueue t s = Some (tt, s') → sys_step s s'
| sys_spawns t th : threads s !! t = None → t ≠ 0 → schedulable th →
    sched_enqueue t (set_threads (<[t := th]> (threads s)) s) = Some (tt, s') → sys_step s s'.

Lemma sys_step_consistent s s' : sys_step s s' → consistent s → consistent s'.
Proof.
  intros Hst (q & sl & V). pose proof V as [_ _ _ _ (th & E & _)].
  assert (cur_tid s = th_tid th) as Ht by (unfold cur_tid; by rewrite E).
  assert (∀ q' sl', switched (kernel_idle_task s) q' sl' s' → consistent s') as K
    by (intros q' sl' (? & _); by eexists _, _).
  destruct Hst as [Es|Es|n Hn Es|req r Hn Es|Hn Es|t Hn [P1 P2 (tht & P3 & P3') P4] Es|t [P1 P2 (tht & P3 & P3') P4] Es|t tht H1 H2 H3 Es].
  - pose proof (wp_run _ _ _ _ _ (wp_timer_on_tick s q sl th V E) Es) as [H _].
    destruct (tick_everyone s q sl th s' V E H) as (q' & sl' & V' & _). by exists q', sl'.
  - exact (K _ _ (wp_run _ _ _ _ _ (wp_sys_yield s q sl th V E) Es)).
  - rewrite Ht in Hn. exact (K _ _ (wp_run _ _ _ _ _ (wp_sys_sleep s q sl th n V E Hn) Es)).
  - rewrite Ht in Hn. destruct (wp_run _ _ _ _ _ (wp_sys_nanosleep s q sl th req V E Hn) Es) as [_ H].
    exact (K _ _ H).
  - rewrite Ht in Hn. exact (K _ _ (wp_run _ _ _ _ _ (wp_exit_switch s q sl th V E Hn) Es)).
  - rewrite Ht in Hn. destruct (P4 q sl V) as [P5 P6].
    exact (K _ _ (wp_run _ _ _ _ _ (wp_exit_wake s q sl th t tht V E Hn P3 P3' P1 P2 P5 P6) Es)).
  - destruct (P4 q sl V) as [P5 P6]. destruct V as [Q V0 Vu Vn Vr].
    destruct (wp_run _ _ _ _ _ (wp_ready_parked s q sl t tht Q V0 Vu Vn Vr P3 P3' P1 P2 P5 P6) Es) as [V' _]. by eexists _, _.
  - destruct (wp_run _ _ _ _ _ (wp_spawn s q sl t tht V H1 H2 H3) Es) as [V' _]. by eexists _, _.
Qed.

(** C1: the scheduler as a system. In every state reached from a consistent
    one by timer interrupts, yields, sleeps, blocks, exits (with and without a
    waiting parent to make ready), wake-ups and thread creations, the queues
    and the sleeper list are well formed, every listed thread is in one place
    only, and neither the timer interrupt nor a yield can fault. A thread that
    an exit or a wake-up makes ready is one that is in no list at that
    moment. *)
Theorem sched_system_safe s0 s :
  consistent s0 → rtc sys_step s0 s →
  consistent s ∧ (∃ s', timer_on_tick s = Some (tt, s')) ∧ (∃ s', sys_yield s = Some (tt, s')).
Proof.
  intros H0 Hr. assert (consistent s) as Hc by (induction Hr; eauto using sys_step_consistent).
  split; [done|]. destruct Hc as (q & sl & V). pose proof V as [_ _ _ _ (th & E & _)]. split.
  - destruct (wp_elim _ _ _ (wp_timer_on_tick s q sl th V E)) as ([] & s' & Es & _). eauto.
  - destruct (wp_elim _ _ _ (wp_sys_yield s q sl th V E)) as ([] & s' & Es & _). eauto.
Qed.

(** Thread 300 of the example waits for 200, which exits: it runs then, and
    the next tick is charged to it. *)
Lemma demo_parked : parked demo 300.
Proof.
  split; [done|done|eexists; split; [exact demo_new|split; cbn; lia]|].
  intros q sl [[R [C _ _ _] _ _ _] _ _ _ _]. split.
  - intros i Hi Hin. destruct (r_ready _ _ R i 300 Hi Hin) as (th & E & []). by injection E as <-.
  - destruct sl as [|x l]; [apply not_elem_of_nil|]. destruct C as (<- & Hx & _). by destruct Hx.
Qed.

Lemma sched_system_safe_witness :
  ∃ s1 s2 s3, (sched_dequeue 200 ;; sched_enqueue 300 ;; sched_switch_next) demo = Some (tt, s1) ∧
    g_current_thread s1 = 300 ∧ timer_on_tick s1 = Some (tt, s2) ∧ timer_on_tick s2 = Some (tt, s3).
Proof.
  assert (consistent demo) as H0 by (exists (λ _, []), []; exact demo_inv).
  destruct ((sched_dequeue 200 ;; sched_enqueue 300 ;; sched_switch_next) demo) as [[[] s1]|] eqn:E1; [|vm_compute in E1; discriminate E1].
  assert (sys_step demo s1) as S1 by (apply (sys_exits demo s1 300); [discriminate|exact demo_parked|exact E1]).
  destruct (sched_system_safe demo s1 H0 (rtc_once _ _ S1)) as (_ & (s2 & E2) & _).
  destruct (sched_system_safe demo s2 H0 (rtc_l _ _ _ _ S1 (rtc_once _ _ (sys_tick _ _ E2)))) as (_ & (s3 & E3) & _).
  exists s1, s2, s3. split; [reflexivity|]. split; [|split; [exact E2|exact E3]].
  vm_compute in E1. injection E1 as <-. reflexivity.
Defined.
