(* ===== verification/Pmm.v ===== *)
(** * The physical frame allocator

    [kernel/src/mm/pmm.c]: one bit per 4 KiB frame, a 16-bit reference count
    per frame for copy-on-write sharing, and the bring-up that marks the
    usable ranges free and the critical ones used. *)

From S2P Require Import Prelude Range Bitmap FrameAlloc.

(* ------------------------------------------------------------------ *)
(** ** Definitions *)

Definition FRAME_SIZE : Z := 4096.
Definition MAX_FRAMES : Z := 1024 * 1024.
Definition MAX_BITMAP_SIZE : Z := (MAX_FRAMES + 7) / 8.

Record pmm := Pmm {
  bitmap : arr Z;
  total_frames : Z;
  used_frames : Z;
  bitmap_size_bytes : Z;
  initialized : bool;
  memory_range : range_t;
  frame_refcounts : arr Z
}.

(** The static objects before [pmm_init]. *)
Definition pmm_boot : pmm :=
  Pmm (mk_arr MAX_BITMAP_SIZE 0) 0 0 0 false (Range 0 0) (mk_arr MAX_FRAMES 0).

Definition set_bitmap (b : arr Z) (s : pmm) : pmm :=
  Pmm b (total_frames s) (used_frames s) (bitmap_size_bytes s) (initialized s)
      (memory_range s) (frame_refcounts s).
Definition set_used (u : Z) (s : pmm) : pmm :=
  Pmm (bitmap s) (total_frames s) u (bitmap_size_bytes s) (initialized s)
      (memory_range s) (frame_refcounts s).
Definition set_refcounts (r : arr Z) (s : pmm) : pmm :=
  Pmm (bitmap s) (total_frames s) (used_frames s) (bitmap_size_bytes s) (initialized s)
      (memory_range s) r.

Definition on_bitmap {A} : M (arr Z) A → M pmm A := zoom bitmap set_bitmap.
Definition on_refcounts {A} : M (arr Z) A → M pmm A := zoom frame_refcounts set_refcounts.

Definition pmm_frame_refcount_inc (frame_addr : Z) : M pmm unit :=
  let frame_idx := frame_addr / FRAME_SIZE in
  tf ← gets total_frames;
  when (frame_idx <? tf)
    (c ← on_refcounts (ld frame_idx); on_refcounts (st frame_idx (u16 (c + 1)))).

Definition pmm_frame_refcount_get (frame_addr : Z) : M pmm Z :=
  let frame_idx := frame_addr / FRAME_SIZE in
  tf ← gets total_frames;
  if frame_idx <? tf then on_refcounts (ld frame_idx) else ret 0.

Definition mark_frame_used (frame_idx : Z) : M pmm unit :=
  t ← on_bitmap (bitmap_test frame_idx);
  when (negb t)
    (on_bitmap (bitmap_set frame_idx) ;;
     modify (λ s, set_used (u64 (used_frames s + 1)) s) ;;
     on_refcounts (st frame_idx 1)).

Definition aligned_addr_to_frame (addr : Z) : M pmm Z :=
  assert_ (Z.land addr (FRAME_SIZE - 1) =? 0) ;;
  m ← gets memory_range;
  assert_ (start m <=? addr) ;;
  ret (u64 (addr - start m) / FRAME_SIZE).

Definition pmm_mark_range_used (from to : Z) : M pmm unit :=
  m ← gets memory_range;
  let range := range_clamp (range_align_outward (Range from to) FRAME_SIZE) m in
  if end_ range <=? start range then ret tt
  else
    start_frame ← aligned_addr_to_frame (start range);
    end_frame ← aligned_addr_to_frame (end_ range);
    tf ← gets total_frames;
    (* frame < end_frame && frame < total_frames *)
    for_range start_frame (MIN end_frame tf) mark_frame_used.

Definition frame_to_aligned_addr (frame : Z) : M pmm Z :=
  m ← gets memory_range; ret (u64 (start m + frame * FRAME_SIZE)).

Definition mark_frame_free (frame : Z) : M pmm unit :=
  t ← on_bitmap (bitmap_test frame);
  if negb t then ret tt
  else
    c ← on_refcounts (ld frame);
    when (c >? 0) (on_refcounts (st frame (c - 1))) ;;
    c' ← on_refcounts (ld frame);
    when (c' =? 0)
      (on_bitmap (bitmap_clear frame) ;;
       modify (λ s, set_used (u64 (used_frames s - 1)) s)).

Definition pmm_frame_alloc : M pmm Z :=
  tf ← gets total_frames;
  r ← scan_range 1 tf (λ frame,
        t ← on_bitmap (bitmap_test frame);
        if negb t then
          mark_frame_used frame ;;
          a ← frame_to_aligned_addr frame;
          ret (Some a)
        else ret None);
  ret (default 0 r).

Definition pmm_frame_free (frame_addr : Z) : M pmm unit :=
  if (frame_addr =? 0) || negb (Z.land frame_addr (FRAME_SIZE - 1) =? 0) then ret tt
  else
    m ← gets memory_range;
    if negb (in_range frame_addr m) then ret tt
    else
      frame ← aligned_addr_to_frame frame_addr;
      tf ← gets total_frames;
      if tf <=? frame then ret tt else mark_frame_free frame.

Definition pmm_mark_range_free (from to : Z) : M pmm unit :=
  let first := align_up from FRAME_SIZE in
  let last := align_down to FRAME_SIZE in
  if last <=? first then ret tt
  else
    m ← gets memory_range;
    let start_frame := u32 (first - start m) / FRAME_SIZE in
    let end_frame := u32 (last - start m) / FRAME_SIZE in
    tf ← gets total_frames;
    (* f < end_frame && f < total_frames *)
    for_range start_frame (MIN end_frame tf) (λ f,
      if f =? 0 then ret tt
      else
        t ← on_bitmap (bitmap_test f);
        when t
          (on_bitmap (bitmap_clear f) ;;
           on_refcounts (st f 0) ;;
           modify (λ s, set_used (u64 (used_frames s - 1)) s))).

Definition pmm_init (total_range : range_t) (usable_ranges critical_ranges : list range_t)
    : M pmm unit :=
  modify (λ s, Pmm (bitmap s) (u32 (end_ total_range - start total_range) / FRAME_SIZE)
                   (used_frames s) (bitmap_size_bytes s) (initialized s) total_range
                   (frame_refcounts s)) ;;
  modify (λ s, Pmm (bitmap s) (total_frames s) (used_frames s) ((total_frames s + 7) / 8)
                   (initialized s) (memory_range s) (frame_refcounts s)) ;;
  n ← gets bitmap_size_bytes;
  on_bitmap (amemset 255 n) ;;
  modify (λ s, set_used (total_frames s) s) ;;
  for_each usable_ranges (λ r, pmm_mark_range_free (start r) (end_ r)) ;;
  for_each critical_ranges (λ r, pmm_mark_range_used (start r) (end_ r)) ;;
  modify (λ s, Pmm (bitmap s) (total_frames s) (used_frames s) (bitmap_size_bytes s)
                   true (memory_range s) (frame_refcounts s)).

Definition frame_get_free_count (s : pmm) : Z := u64 (total_frames s - used_frames s).
Definition frame_get_used_count (s : pmm) : Z := used_frames s.
Definition frame_get_total_count (s : pmm) : Z := u64 (total_frames s - 1).

(* ------------------------------------------------------------------ *)
(** ** Invariant *)

Definition used (s : pmm) (f : Z) : bool := bit (bitmap s) f.
Definition refs (s : pmm) (f : Z) : Z := aat (frame_refcounts s) f.

Record pmm_inv (s : pmm) : Prop := {
  pi_bitmap : alen (bitmap s) = MAX_BITMAP_SIZE;
  pi_bytes : bytes_ok (bitmap s);
  pi_refs_len : alen (frame_refcounts s) = MAX_FRAMES;
  pi_total : total_frames s = u32 (end_ (memory_range s) - start (memory_range s)) / FRAME_SIZE;
  pi_range : range_ok (memory_range s);
  pi_used : used_frames s = count_to (used s) (Z.to_nat (total_frames s));
  pi_refs : ∀ f, is_u16 (refs s f);
  pi_free : ∀ f, 0 <= f < total_frames s → used s f = false → refs s f = 0;
  pi_zero : used s 0 = true
}.

(** [s'] is [s] with frame [f] marked [u] and counted [r]. *)
Record frame_upd (s : pmm) (f : Z) (u : bool) (r : Z) (s' : pmm) : Prop := {
  fu_total : total_frames s' = total_frames s;
  fu_range : memory_range s' = memory_range s;
  fu_used : ∀ j, 0 <= j → used s' j = if decide (j = f) then u else used s j;
  fu_refs : ∀ j, refs s' j = if decide (j = f) then r else refs s j;
  fu_inv : pmm_inv s → (u = false → r = 0 ∧ f ≠ 0) → is_u16 r → pmm_inv s'
}.

Lemma total_frames_bound s : pmm_inv s → 0 <= total_frames s < MAX_FRAMES.
Proof. intros I. rewrite (pi_total s I). unfold FRAME_SIZE, MAX_FRAMES. ulia. Qed.

Lemma frame_upd_intro s f u r bm rc n :
  0 <= f < total_frames s →
  bit_upd (bitmap s) f u bm → rc = aput (frame_refcounts s) f r ∨ (rc = frame_refcounts s ∧ refs s f = r) →
  (pmm_inv s → n = used_frames s - Z.b2z (used s f) + Z.b2z u) →
  frame_upd s f u r
    (Pmm bm (total_frames s) n (bitmap_size_bytes s) (initialized s) (memory_range s) rc).
Proof.
  intros Hf [L B U] Hrc Hn.
  assert (∀ j, aat rc j = if decide (j = f) then r else refs s j) as R.
  { intros j. unfold refs in *. destruct Hrc as [->|[-> <-]].
    - rewrite aat_aput. repeat case_decide; congruence.
    - case_decide; congruence. }
  assert (alen rc = alen (frame_refcounts s)) as A by (by destruct Hrc as [->|[-> _]]).
  split; [done|done|exact U|exact R|]. intros I Hu Hr.
  destruct I as [I1 I2 I3 I4 I5 I6 I7 I8 I9].
  split; cbn [bitmap total_frames used_frames frame_refcounts memory_range]; try done.
  - by rewrite L.
  - by apply B.
  - by rewrite A.
  - rewrite Hn by done. rewrite I6. symmetry. apply count_to_upd; [lia|].
    intros j Hj. apply U. lia.
  - intros j. unfold refs; cbn. rewrite R. case_decide; [done|apply I7].
  - intros j Hj. unfold used, refs; cbn. rewrite R, U by lia.
    case_decide; [by intros ?; apply Hu|by apply I8].
  - unfold used; cbn. rewrite U by lia. case_decide as Hd; [|done].
    destruct u; [done|]. by destruct (Hu eq_refl).
Qed.

(* ------------------------------------------------------------------ *)
(** ** The frame primitives *)

Lemma set_bitmap_id s : set_bitmap (bitmap s) s = s.
Proof. by destruct s. Qed.
Lemma set_refcounts_id s : set_refcounts (frame_refcounts s) s = s.
Proof. by destruct s. Qed.

Ltac pmm_cbn :=
  unfold set_bitmap, set_used, set_refcounts;
  cbn [bitmap total_frames used_frames bitmap_size_bytes initialized memory_range
       frame_refcounts].

Section frame_ops.
Context (s : pmm) (I : pmm_inv s) (f : Z) (Hf : 0 <= f < total_frames s).

Lemma frame_bit_bound : 0 <= f < 8 * alen (bitmap s).
Proof.
  pose proof (total_frames_bound s I). rewrite (pi_bitmap s I).
  unfold MAX_BITMAP_SIZE, MAX_FRAMES in *. lia.
Qed.

Lemma frame_refs_bound : 0 <= f < alen (frame_refcounts s).
Proof. pose proof (total_frames_bound s I). rewrite (pi_refs_len s I). lia. Qed.

Lemma wp_frame_test (Q : bool → pmm → Prop) :
  Q (used s f) s → wp (on_bitmap (bitmap_test f)) s Q.
Proof.
  intros HQ. unfold on_bitmap. wp_step. apply wp_bitmap_test; [apply frame_bit_bound|].
  by rewrite set_bitmap_id.
Qed.

Lemma wp_refs_ld (Q : Z → pmm → Prop) :
  Q (refs s f) s → wp (on_refcounts (ld f)) s Q.
Proof.
  intros HQ. unfold on_refcounts. wp_step. apply wp_ld; [apply frame_refs_bound|].
  by rewrite set_refcounts_id.
Qed.

Lemma used_frames_bound :
  (used s f = true → 0 < used_frames s) ∧ used_frames s <= total_frames s ∧
  (used s f = false → used_frames s < total_frames s).
Proof.
  rewrite (pi_used s I).
  pose proof (count_to_bound (used s) (Z.to_nat (total_frames s))).
  pose proof (count_to_upd (used s) (λ j, if decide (j = f) then negb (used s f) else used s j)
    (Z.to_nat (total_frames s)) f (negb (used s f)) ltac:(lia) ltac:(done)) as Hc.
  pose proof (count_to_bound (λ j, if decide (j = f) then negb (used s f) else used s j)
    (Z.to_nat (total_frames s))).
  destruct (used s f); simpl in *; lia.
Qed.

Lemma wp_mark_frame_used (Q : unit → pmm → Prop) :
  (used s f = true → Q tt s) →
  (∀ s', used s f = false → frame_upd s f true 1 s' → Q tt s') →
  wp (mark_frame_used f) s Q.
Proof.
  intros H1 H2. unfold mark_frame_used. wp_step. apply wp_frame_test. wp_step;
    destruct (used s f) eqn:E; try done; [|by apply H1].
  unfold on_bitmap, on_refcounts. wp_step. wp_step.
  apply wp_bitmap_set; [apply frame_bit_bound|]. intros bm Hbm. wp_step. wp_step. wp_step.
  apply wp_st; [pmm_cbn; apply frame_refs_bound|]. pmm_cbn. apply H2; [done|].
  apply frame_upd_intro; [done|done|by left|]. intros _. rewrite E. cbn.
  destruct used_frames_bound as (_ & _ & Hb). specialize (Hb E).
  pose proof (total_frames_bound s I). rewrite (pi_used s I) in *.
  pose proof (count_to_bound (used s) (Z.to_nat (total_frames s))).
  rewrite u64_small; [lia|]. unfold is_u64, MAX_FRAMES in *. lia.
Qed.

Lemma used_frames_dec : used s f = true →
  u64 (used_frames s - 1) = used_frames s - Z.b2z (used s f) + Z.b2z false.
Proof.
  intros E. destruct used_frames_bound as (Hb & Hle & _). specialize (Hb E).
  pose proof (total_frames_bound s I). rewrite E. simpl.
  rewrite u64_small; [lia|]. unfold is_u64, MAX_FRAMES in *. lia.
Qed.

(** Dropping a reference: the frame becomes free exactly when the count
    reaches zero; a used frame whose count is already zero is freed too. *)
Lemma wp_mark_frame_free (Q : unit → pmm → Prop) :
  (used s f = false → Q tt s) →
  (∀ s', used s f = true → 1 < refs s f → frame_upd s f true (refs s f - 1) s' → Q tt s') →
  (∀ s', used s f = true → refs s f <= 1 → frame_upd s f false 0 s' → Q tt s') →
  wp (mark_frame_free f) s Q.
Proof.
  intros H1 H2 H3. unfold mark_frame_free. wp_step. apply wp_frame_test.
  wp_step; destruct (used s f) eqn:E; try done; [wp_step; by apply H1|].
  pose proof (pi_refs s I f) as R. pose proof (used_frames_dec E) as Hdec.
  wp_step. apply wp_refs_ld. wp_step.
  pose proof frame_refs_bound as Hfr. pose proof frame_bit_bound as Hfb.
  destruct (Z.gtb_spec (refs s f) 0) as [Hpos|Hzero].
  - unfold when at 1. unfold on_refcounts at 1. wp_step. apply wp_st; [done|].
    unfold on_refcounts at 1. wp_step. wp_step. apply wp_ld; [done|].
    pmm_cbn. rewrite aat_aput_eq. wp_step.
    + unfold on_bitmap. wp_step. wp_step. apply wp_bitmap_clear; [done|].
      intros bm Hbm. wp_step. pmm_cbn. apply H3; [done|lia|].
      apply frame_upd_intro; [done|done| |done].
      left. f_equal. unfold refs in *. lia.
    + apply H2; [done|lia|]. pmm_cbn.
      apply frame_upd_intro; [done| |by left|].
      * split; [done|done|]. intros j Hj. case_decide; [by subst|done].
      * intros _. rewrite E. lia.
  - unfold when at 1. wp_step. unfold on_refcounts. wp_step. wp_step. apply wp_ld; [done|].
    rewrite set_refcounts_id. change (aat (frame_refcounts s) f) with (refs s f).
    assert (refs s f = 0) as R0 by ulia. rewrite R0. simpl.
    unfold on_bitmap. wp_step. wp_step. apply wp_bitmap_clear; [done|].
    intros bm Hbm. wp_step. pmm_cbn. apply H3; [done|lia|].
    apply frame_upd_intro; [done|done|by right|done].
Qed.
End frame_ops.

(* ------------------------------------------------------------------ *)
(** ** Allocation and release *)

Definition frame_addr (s : pmm) (f : Z) : Z := start (memory_range s) + f * FRAME_SIZE.

Section alloc_ops.
Context (s : pmm) (I : pmm_inv s).

Lemma frame_addr_u64 f : 0 <= f < total_frames s → is_u64 (frame_addr s f).
Proof.
  intros Hf. pose proof (total_frames_bound s I). destruct (pi_range s I) as [? _].
  unfold frame_addr, FRAME_SIZE, MAX_FRAMES in *. ulia.
Qed.

Lemma wp_pmm_frame_alloc (Q : Z → pmm → Prop) :
  (∀ f s', 1 <= f < total_frames s → used s f = false →
     (∀ j, 1 <= j < f → used s j = true) → frame_upd s f true 1 s' → Q (frame_addr s f) s') →
  ((∀ j, 1 <= j < total_frames s → used s j = true) → Q 0 s) →
  wp pmm_frame_alloc s Q.
Proof.
  intros H1 H2. unfold pmm_frame_alloc. wp_step. wp_step. wp_step.
  apply (wp_scan_range (λ i s', s' = s ∧ ∀ j, 1 <= j < i → used s j = true)).
  - split; [done|lia].
  - intros i s' Hi [-> Hj]. wp_step. apply wp_frame_test; [done|lia|].
    destruct (used s i) eqn:E; simpl; wp_step.
    { split; [done|]. intros j ?. destruct (decide (j = i)) as [->|]; [done|apply Hj; lia]. }
    apply wp_mark_frame_used; [done|lia|congruence|]. intros s' _ Hs'.
    wp_step. unfold frame_to_aligned_addr. wp_step. wp_step. wp_step. wp_step. wp_step.
    simpl. rewrite (fu_range _ _ _ _ _ Hs').
    rewrite u64_small by (apply frame_addr_u64; lia). by apply H1.
  - intros s' [-> Hj]. wp_step. simpl. apply H2. intros j ?. apply Hj. lia.
Qed.

Lemma aligned_addr_mod a : Z.land a (FRAME_SIZE - 1) = a mod FRAME_SIZE.
Proof. change (FRAME_SIZE - 1) with (Z.ones 12). by rewrite Z.land_ones by lia. Qed.

(** The addresses that [pmm_frame_free] acts on. *)
Definition frame_of_addr (a : Z) : option Z :=
  let f := (a - start (memory_range s)) / FRAME_SIZE in
  if (a =? 0) || negb (a mod FRAME_SIZE =? 0) || negb (in_range a (memory_range s))
     || (total_frames s <=? f) then None else Some f.

Lemma wp_pmm_frame_free a (Q : unit → pmm → Prop) :
  (frame_of_addr a = None → Q tt s) →
  (∀ f, frame_of_addr a = Some f → used s f = false → Q tt s) →
  (∀ f s', frame_of_addr a = Some f → used s f = true → 1 < refs s f →
     frame_upd s f true (refs s f - 1) s' → Q tt s') →
  (∀ f s', frame_of_addr a = Some f → used s f = true → refs s f <= 1 →
     frame_upd s f false 0 s' → Q tt s') →
  wp (pmm_frame_free a) s Q.
Proof.
  intros H0 H1 H2 H3. unfold pmm_frame_free, frame_of_addr, aligned_addr_to_frame in *.
  rewrite !aligned_addr_mod. destruct (Z.eqb_spec a 0); simpl in *; [wp_step; by apply H0|].
  destruct (Z.eqb_spec (a mod FRAME_SIZE) 0); simpl in *; [|wp_step; by apply H0].
  wp_step. wp_step. destruct (in_range a (memory_range s)) eqn:Er; simpl in *;
    [|wp_step; by apply H0].
  apply in_range_iff in Er. destruct (pi_range s I) as [? ?].
  wp_step. wp_step. wp_step. wp_step. wp_step. wp_step. wp_step; [lia|].
  rewrite u64_small by ulia. wp_step. wp_step. wp_step.
  destruct (Z.leb_spec (total_frames s) ((a - start (memory_range s)) / FRAME_SIZE));
    [wp_step; by apply H0|].
  apply wp_mark_frame_free; [done|unfold FRAME_SIZE in *; lia|eauto..].
Qed.

Lemma frame_of_addr_bound a f : frame_of_addr a = Some f → 0 <= f < total_frames s.
Proof.
  unfold frame_of_addr. intros. repeat (case_match; simplify_eq/=).
  apply orb_false_iff in H0 as [[[? ?]%orb_false_iff ?]%orb_false_iff ?].
  unfold in_range, FRAME_SIZE in *. lia.
Qed.
End alloc_ops.

(* ------------------------------------------------------------------ *)
(** ** Range operations and bring-up *)

(** Every frame in [P] is now [v]; the others are as before. *)
Record frames_set (s : pmm) (P : Z → bool) (v : bool) (s' : pmm) : Prop := {
  fs_inv : pmm_inv s';
  fs_total : total_frames s' = total_frames s;
  fs_range : memory_range s' = memory_range s;
  fs_used : ∀ j, 0 <= j → used s' j = if P j then v else used s j
}.

Lemma frames_set_refl s P v :
  pmm_inv s → (∀ j, 0 <= j → P j = true → used s j = v) → frames_set s P v s.
Proof.
  intros I H. split; [done..|]. intros j Hj. destruct (P j) eqn:E; [by apply H|done].
Qed.

Lemma frames_set_step s P P' v s1 f s2 :
  frames_set s P v s1 → (∀ j, 0 <= j → P' j = (j =? f) || P j) →
  (s2 = s1 ∧ used s1 f = v ∨ ∃ r, frame_upd s1 f v r s2 ∧ is_u16 r ∧ (v = false → r = 0 ∧ f ≠ 0)) →
  frames_set s P' v s2.
Proof.
  intros [I T R U] HP [[-> Hv]|(r & [T' R' U' _ I'] & Hr & Hv)].
  - split; [done..|]. intros j Hj. rewrite HP, U by done.
    destruct (Z.eqb_spec j f) as [->|]; [|done]. simpl. by rewrite <- U.
  - split; [by apply I'|congruence|congruence|]. intros j Hj. rewrite HP, U', U by done.
    case_decide; [by rewrite (proj2 (Z.eqb_eq _ _))|by rewrite (proj2 (Z.eqb_neq _ _))].
Qed.

Lemma frames_set_ext s P P' v s' :
  frames_set s P v s' → (∀ j, 0 <= j → P j = P' j) → frames_set s P' v s'.
Proof.
  intros [I T R U] HP. split; [done..|]. intros j Hj. by rewrite U, HP.
Qed.

Definition between (lo hi j : Z) : bool := (lo <=? j) && (j <? hi).

Lemma wp_clear_frame s f (Q : unit → pmm → Prop) :
  pmm_inv s → 0 <= f < total_frames s → used s f = true →
  (∀ s', frame_upd s f false 0 s' → Q tt s') →
  wp (on_bitmap (bitmap_clear f) ;;
      on_refcounts (st f 0) ;;
      modify (λ s, set_used (u64 (used_frames s - 1)) s)) s Q.
Proof.
  intros I Hf E H. unfold on_bitmap, on_refcounts. wp_step. wp_step.
  apply wp_bitmap_clear; [by apply frame_bit_bound|]. intros bm Hbm. wp_step. wp_step.
  apply wp_st; [pmm_cbn; by apply frame_refs_bound|]. wp_step. pmm_cbn. apply H.
  apply frame_upd_intro; [done|done|by left|]. intros _. by apply used_frames_dec.
Qed.

Section range_ops.
Context (s : pmm) (I : pmm_inv s).

Lemma wp_mark_frames_used lo hi :
  0 <= lo →
  wp (for_range lo (MIN hi (total_frames s)) mark_frame_used) s
     (λ _, frames_set s (between lo (MIN hi (total_frames s))) true).
Proof.
  intros Hlo. set (top := MIN hi (total_frames s)).
  assert (top <= total_frames s) by (unfold top, MIN; destruct (Z.ltb_spec hi (total_frames s)); lia).
  clearbody top. eapply wp_mono; [
    apply (wp_for_range (λ i, frames_set s (between lo i) true))|].
  - apply frames_set_refl; [done|]. unfold between. lia.
  - intros j s1 Hj F. pose proof (fs_total _ _ _ _ F).
    apply wp_mark_frame_used; [by apply F|lia| |].
    + intros E. apply frames_set_step with (1 := F) (f := j); [unfold between; lia|by left].
    + intros s2 _ U. apply frames_set_step with (1 := F) (f := j); [unfold between; lia|].
      right. exists 1. split_and!; [done|ulia|done].
  - intros [] s' F. apply frames_set_ext with (1 := F). unfold between. lia.
Qed.

(** [pmm_mark_range_free] on frame indices; frame 0 is skipped. *)
Lemma wp_pmm_mark_range_free from to :
  let first := align_up from FRAME_SIZE in
  let last := align_down to FRAME_SIZE in
  start (memory_range s) <= first → is_u32 first → is_u32 last →
  wp (pmm_mark_range_free from to) s (λ _, frames_set s (λ j,
    (1 <=? j) && (j <? total_frames s) && between ((first - start (memory_range s)) / FRAME_SIZE)
      ((last - start (memory_range s)) / FRAME_SIZE) j) false).
Proof.
  intros first last Hs Hf Hl. unfold pmm_mark_range_free. fold first last.
  clearbody first last. destruct (pi_range s I) as [M1 M2]. wp_step.
  { wp_step. apply frames_set_refl; [done|]. unfold between, FRAME_SIZE in *. lia. }
  wp_step. wp_step. wp_step. wp_step.
  rewrite !u32_small by ulia. set (lo := (first - _) / _). set (hi := (last - _) / _).
  assert (0 <= lo) by (unfold lo, FRAME_SIZE; lia). clearbody lo hi.
  set (top := MIN hi (total_frames s)). eapply wp_mono; [
    apply (wp_for_range (λ i, frames_set s (λ j, (1 <=? j) && between lo i j) false))|].
  - apply frames_set_refl; [done|]. unfold between. lia.
  - intros j s1 Hj F. pose proof (fs_total _ _ _ _ F). pose proof (fs_inv _ _ _ _ F) as I1.
    assert (j < total_frames s1 ∧ 0 <= j) as [].
    { unfold top, MIN in Hj. destruct (Z.ltb_spec hi (total_frames s)); lia. }
    wp_step.
    + wp_step. apply frames_set_ext with (1 := F). unfold between. lia.
    + wp_step. apply wp_frame_test; [done|lia|].
      wp_step;
        [|apply frames_set_step with (1 := F) (f := j); [unfold between; lia|by left]].
      apply wp_clear_frame; [done|lia|done|]. intros s2 U.
      apply frames_set_step with (1 := F) (f := j); [unfold between; lia|].
      right. exists 0. split_and!; [done|ulia|]. intros _. split; [done|lia].
  - intros [] s' F. apply frames_set_ext with (1 := F). unfold top, MIN, between.
    destruct (Z.ltb_spec hi (total_frames s)); lia.
Qed.
End range_ops.

(** The frame lies inside the range; the frame meets the range. *)
Definition inside (m : range_t) (f : Z) (r : range_t) : bool :=
  (start r <=? start m + f * FRAME_SIZE) && (start m + f * FRAME_SIZE + FRAME_SIZE <=? end_ r).
Definition meets (m : range_t) (f : Z) (r : range_t) : bool :=
  (start r <? start m + f * FRAME_SIZE + FRAME_SIZE) && (start m + f * FRAME_SIZE <? end_ r).

Definition page_aligned (m : range_t) : Prop :=
  start m mod FRAME_SIZE = 0 ∧ end_ m mod FRAME_SIZE = 0 ∧ start m <= end_ m.

(** A range whose ends can be rounded up within 32 bits. *)
Definition below_top (r : range_t) : Prop :=
  range_ok r ∧ start r + FRAME_SIZE <= 4294967296 ∧ end_ r + FRAME_SIZE <= 4294967296.

Section range_specs.
Context (s : pmm) (I : pmm_inv s) (Ha : page_aligned (memory_range s)).
Context (r : range_t) (Hr : below_top r).

Lemma wp_mark_range_used_frames :
  wp (pmm_mark_range_used (start r) (end_ r)) s
     (λ _, frames_set s (λ j, (0 <=? j) && (j <? total_frames s) && meets (memory_range s) j r) true).
Proof using I Ha Hr.
  destruct Ha as (A1 & A2 & A3), Hr as ([R1 R2] & R3 & R4), (pi_range s I) as [M1 M2].
  unfold FRAME_SIZE in R3, R4.
  pose proof (align_down_spec (start r) 4096 R1 is_pow2_4096) as [D1 D2].
  pose proof (align_up_mod (end_ r) 4096 R2 is_pow2_4096 ltac:(lia)) as [U1 U2].
  pose proof (align_down_range (start r) 4096 R1 is_pow2_4096) as D3.
  unfold pmm_mark_range_used, range_align_outward, range_clamp, aligned_addr_to_frame.
  wp_step. wp_step. change (u32 FRAME_SIZE) with 4096. simpl. rewrite !aligned_addr_mod.
  set (a := align_down _ _) in *. set (b := align_up _ _) in *. clearbody a b.
  assert (total_frames s = (end_ (memory_range s) - start (memory_range s)) / 4096) as T
    by (rewrite (pi_total s I), u32_small; [done|unfold is_u32 in *; lia]).
  assert (MAX a (start (memory_range s)) = Z.max a (start (memory_range s))) as ->
    by (unfold MAX; destruct (Z.gtb_spec a (start (memory_range s))); lia).
  assert (MIN b (end_ (memory_range s)) = Z.min b (end_ (memory_range s))) as ->
    by (unfold MIN; destruct (Z.ltb_spec b (end_ (memory_range s))); lia).
  wp_step.
  { wp_step. apply frames_set_refl; [done|]. unfold meets, FRAME_SIZE in *.
    intros j ?. rewrite T. unfold is_u32 in *. lia. }
  wp_step. wp_step. wp_step; [unfold FRAME_SIZE in *; lia|].
  wp_step. wp_step. wp_step. wp_step; [lia|]. wp_step. wp_step. wp_step.
  wp_step; [unfold FRAME_SIZE in *; lia|]. wp_step. wp_step. wp_step. wp_step; [lia|].
  wp_step. wp_step. wp_step. rewrite !u64_small by ulia.
  eapply wp_mono; [apply wp_mark_frames_used; [done|unfold FRAME_SIZE; lia]|].
  intros [] s' F. apply frames_set_ext with (1 := F). intros j Hj. unfold between, meets, MIN.
  case_match; unfold FRAME_SIZE in *; rewrite ?T in *; ulia.
Qed.

Lemma wp_mark_range_free_frames :
  start (memory_range s) <= start r →
  wp (pmm_mark_range_free (start r) (end_ r)) s
     (λ _, frames_set s (λ j, (1 <=? j) && (j <? total_frames s) && inside (memory_range s) j r) false).
Proof using I Ha Hr.
  intros Hs.
  destruct Ha as (A1 & A2 & A3), Hr as ([R1 R2] & R3 & R4), (pi_range s I) as [M1 M2].
  unfold FRAME_SIZE in R3, R4.
  pose proof (align_up_mod (start r) 4096 R1 is_pow2_4096 ltac:(lia)) as [U1 U2].
  pose proof (align_down_spec (end_ r) 4096 R2 is_pow2_4096) as [D1 D2].
  eapply wp_mono; [apply wp_pmm_mark_range_free; [done|..]; change FRAME_SIZE with 4096; [lia|unfold is_u32 in *; lia..]|].
  intros [] s' F. apply frames_set_ext with (1 := F). intros j Hj. unfold between, inside.
  change FRAME_SIZE with 4096 in *.
  set (a := align_down _ _) in *. set (b := align_up _ _) in *. clearbody a b. lia.
Qed.
End range_specs.

Section bring_up.
Context (m : range_t) (usable critical : list range_t).
Context (Hm : range_ok m) (Ha : page_aligned m) (Hf : FRAME_SIZE <= end_ m - start m).
Context (Hu : ∀ r, r ∈ usable → below_top r ∧ start m <= start r).
Context (Hc : ∀ r, r ∈ critical → below_top r).

(** Bring-up after the usable ranges [u] and the critical ranges [c]. *)
Definition init_state (u c : list range_t) (s : pmm) : Prop :=
  pmm_inv s ∧ memory_range s = m ∧
  ∀ f, 1 <= f < total_frames s →
    used s f = negb (existsb (inside m f) u) || existsb (meets m f) c.

Lemma memset_all_used s :
  alen (bitmap s) = MAX_BITMAP_SIZE → frame_refcounts s = mk_arr MAX_FRAMES 0 →
  memory_range s = m → total_frames s = u32 (end_ m - start m) / FRAME_SIZE →
  used_frames s = total_frames s →
  (∀ j, aat (bitmap s) j = if decide (0 <= j < (total_frames s + 7) / 8) then 255 else 0) →
  init_state [] [] s.
Proof using Hm Ha Hf.
  intros L R M T U B. destruct Hm as [M1 M2], Ha as (A1 & A2 & A3).
  unfold FRAME_SIZE in *. rewrite u32_small in T by ulia.
  assert (∀ f, 0 <= f < total_frames s → used s f = true) as Hall.
  { intros f ?. unfold used, bit. rewrite B, decide_True by lia.
    change 255 with (Z.ones 8). apply Z.ones_spec_low. lia. }
  split; [|split; [done|intros f ?; by rewrite Hall by lia]]. split.
  - done.
  - intros j. rewrite B. case_decide; ulia.
  - by rewrite R.
  - rewrite M, T. rewrite u32_small by ulia. done.
  - by rewrite M.
  - rewrite U, count_to_all; [lia|]. intros j ?. apply Hall. lia.
  - intros f. unfold refs. rewrite R. change (is_u16 0). ulia.
  - intros f ?. by rewrite Hall.
  - apply Hall. lia.
Qed.

Lemma wp_init_usable s :
  init_state [] [] s →
  wp (for_each usable (λ r, pmm_mark_range_free (start r) (end_ r))) s
     (λ _, init_state usable []).
Proof using Hu Ha.
  intros H0. apply (wp_for_each (λ pre, init_state pre [])); [done|].
  intros pre r s1 Hr (I & M & U). destruct (Hu r Hr) as [Hr1 Hr2].
  eapply wp_mono; [apply wp_mark_range_free_frames; [done|by rewrite M|done|by rewrite M]|].
  intros [] s2 [I2 T2 R2 U2]. split; [done|]. split; [congruence|]. intros f Hf'.
  rewrite U2, M by lia. rewrite existsb_app. simpl. rewrite U by lia. simpl. rewrite T2 in Hf'.
  destruct (existsb (inside m f) pre), (inside m f r); simpl; case_match; try done; lia.
Qed.

Lemma wp_init_critical s :
  init_state usable [] s →
  wp (for_each critical (λ r, pmm_mark_range_used (start r) (end_ r))) s
     (λ _, init_state usable critical).
Proof using Hc Ha.
  intros H0. apply (wp_for_each (init_state usable)); [done|].
  intros pre r s1 Hr (I & M & U).
  eapply wp_mono; [apply wp_mark_range_used_frames; [done|by rewrite M|by apply Hc]|].
  intros [] s2 [I2 T2 R2 U2]. split; [done|]. split; [congruence|]. intros f Hf'.
  rewrite U2, M by lia. rewrite existsb_app. simpl. rewrite U by lia. rewrite T2 in Hf'.
  destruct (existsb (inside m f) usable), (existsb (meets m f) pre), (meets m f r);
    simpl; case_match; try done; lia.
Qed.

Lemma wp_pmm_init :
  wp (pmm_init m usable critical) pmm_boot (λ _, init_state usable critical).
Proof using Hm Ha Hf Hu Hc.
  unfold pmm_init, pmm_boot. wp_step. wp_step. wp_step. wp_step. cbn. wp_step. wp_step. cbn.
  unfold on_bitmap. wp_step. wp_step. cbn. destruct Hm as [M1 M2].
  eapply wp_mono; [apply wp_amemset; cbn; unfold MAX_BITMAP_SIZE, MAX_FRAMES, FRAME_SIZE; ulia|].
  cbn. intros [] bm [Hl Hb]. wp_step. wp_step. pmm_cbn. wp_step.
  eapply wp_mono; [apply wp_init_usable|].
  { by apply memset_all_used. }
  intros [] s1 H1. cbn. wp_step. eapply wp_mono; [by apply wp_init_critical|].
  intros [] s2 ([] & M & U). wp_step. split; [by split|done].
Qed.
End bring_up.

(* ------------------------------------------------------------------ *)
(** ** The allocator interface *)

(** The owners of the frame at a physical address. The sharing operations
    index the counts from address 0, so they name the same frame as
    allocation and release only when the memory range starts there. *)
Definition owners (s : pmm) (a : Z) : Z :=
  if (a mod FRAME_SIZE =? 0) && (1 <=? a / FRAME_SIZE) && (a / FRAME_SIZE <? total_frames s)
  then refs s (a / FRAME_SIZE) else 0.

Definition limit (s : pmm) : Z := total_frames s * FRAME_SIZE.

(** A frame the bitmap shows as free. *)
Definition available (s : pmm) (a : Z) : Prop := ∃ f, a = f * FRAME_SIZE ∧ 1 <= f < total_frames s ∧ used s f = false.

Definition pmm_ok (s : pmm) : Prop := pmm_inv s ∧ start (memory_range s) = 0.

Section owners_lemmas.
Context (s : pmm) (Hs : pmm_ok s).

Lemma owners_frame a : 0 < owners s a →
  a = a / FRAME_SIZE * FRAME_SIZE ∧ 1 <= a / FRAME_SIZE < total_frames s ∧
  owners s a = refs s (a / FRAME_SIZE) ∧ used s (a / FRAME_SIZE) = true.
Proof using Hs.
  unfold owners. case_match eqn:E; [|lia]. intros Hr.
  assert (1 <= a / FRAME_SIZE < total_frames s) by lia.
  split; [unfold FRAME_SIZE in *; lia|]. split_and!; [lia|lia|done|].
  destruct (used s (a / FRAME_SIZE)) eqn:U; [done|].
  destruct Hs as [I _]. pose proof (pi_free s I (a / FRAME_SIZE) ltac:(lia) U). lia.
Qed.

Lemma owners_addr f : 1 <= f < total_frames s → owners s (f * FRAME_SIZE) = refs s f.
Proof using Type.
  intros Hf. unfold owners, FRAME_SIZE. rewrite Z.mod_mul, Z.div_mul by lia.
  case_match; [done|lia].
Qed.

Lemma owners_upd s' a f u r :
  1 <= f < total_frames s → a = f * FRAME_SIZE → frame_upd s f u r s' → is_u16 r →
  (u = false → r = 0) →
  pmm_ok s' ∧ limit s' = limit s ∧ refs_upd (owners s) a r (owners s') ∧
  ∀ b, available s' b ↔ (b = a ∧ u = false) ∨ (b ≠ a ∧ available s b).
Proof using Hs.
  intros Hf -> F Hr Hz. destruct Hs as [I M]. destruct F as [T R U C K].
  split; [split; [apply K; [done|intros; split; [auto|lia]|done]|by rewrite R]|].
  split; [unfold limit; by rewrite T|]. split.
  2:{ intros b. unfold available, FRAME_SIZE. rewrite T. split.
      - intros (j & -> & Hj & Hu). rewrite U in Hu by lia. case_decide; [subst; by left|]. right. split; [lia|]. by exists j.
      - intros [[-> ->]|(Hb & j & -> & Hj & Hu)].
        + exists f. rewrite U, decide_True by (done || lia). done.
        + exists j. rewrite U, decide_False by (lia || (intros ->; done)). done. }
  intros b. unfold owners. rewrite T, C. unfold FRAME_SIZE.
  destruct (decide (b = f * 4096)) as [->|Hb].
  - rewrite Z.mod_mul, Z.div_mul, decide_True by lia. case_match; [done|lia].
  - case_match; [|done]. rewrite decide_False; [done|lia].
Qed.

Lemma frame_of_owned a : 0 < owners s a → frame_of_addr s a = Some (a / FRAME_SIZE).
Proof using Hs.
  intros Ho. destruct (owners_frame a Ho) as (Ha & Hf & _). destruct Hs as [I M].
  pose proof (pi_total s I) as T. destruct (pi_range s I) as [_ ?].
  unfold frame_of_addr, in_range. rewrite M in *. rewrite Z.sub_0_r.
  rewrite Z.sub_0_r, u32_small in T by done. unfold FRAME_SIZE in *.
  case_match; [lia|done].
Qed.
End owners_lemmas.

Lemma pmm_fa_alloc s : pmm_ok s → wp pmm_frame_alloc s (λ a s', pmm_ok s' ∧ limit s' = limit s ∧
  ((a = 0 ∧ s' = s ∧ ∀ b, ¬ available s b) ∨
   (available s a ∧ owners s a = 0 ∧ owners s' a = 1 ∧ refs_upd (owners s) a 1 (owners s') ∧
    ∀ b, available s' b ↔ b ≠ a ∧ available s b))).
Proof.
  intros Hs. pose proof Hs as [I M]. apply wp_pmm_frame_alloc; [done| |].
  - intros f s' Hf Hu _ F. unfold frame_addr. rewrite M, Z.add_0_l.
    destruct (owners_upd s Hs s' (f * FRAME_SIZE) f true 1) as (Hs' & Hl & Hr & Ha);
      [done|done|done|ulia|done|].
    split; [done|]. split; [done|right]. split_and!; [by exists f| |by apply refs_upd_eq in Hr|done|].
    + rewrite owners_addr by done. by apply (pi_free s I); [lia|].
    + intros b. rewrite Ha. naive_solver.
  - intros Hall. split; [done|]. split; [done|]. left. split_and!; [done|done|]. intros b (f & _ & Hf & Hu).
    by rewrite Hall in Hu.
Qed.

Lemma available_unowned s a : pmm_ok s → available s a → owners s a = 0.
Proof. intros [I _] (f & -> & Hf & Hu). rewrite owners_addr by done. by apply (pi_free s I); [lia|]. Qed.

Lemma owned_unavailable s a : pmm_ok s → 0 < owners s a → ¬ available s a.
Proof. intros Hs Ho Ha. rewrite (available_unowned s a Hs Ha) in Ho. lia. Qed.

Lemma pmm_fa_free s a : pmm_ok s → 0 < owners s a → wp (pmm_frame_free a) s (λ _ s',
  pmm_ok s' ∧ limit s' = limit s ∧ refs_upd (owners s) a (owners s a - 1) (owners s') ∧
  ∀ b, available s' b ↔ (b = a ∧ owners s a = 1) ∨ available s b).
Proof.
  intros Hs Ho. pose proof (owned_unavailable s a Hs Ho) as Hna. pose proof Hs as [I M]. pose proof (frame_of_owned s Hs a Ho) as Hfa.
  destruct (owners_frame s Hs a Ho) as (Ha & Hf & Hr & Hu). pose proof (pi_refs s I (a / FRAME_SIZE)).
  rewrite Hr in *. apply wp_pmm_frame_free; [done|congruence|congruence|..];
    intros f s' Hf' _ Hc F; rewrite Hfa in Hf'; simplify_eq.
  - destruct (owners_upd s Hs s' a _ _ _ Hf Ha F) as (H1 & H2 & H3 & H4); [ulia|done|]. split_and!; [done..|].
    intros b. rewrite H4. split; [naive_solver|]. intros [[_ ?]|Hb]; [lia|]. right. split; [by intros ->|done].
  - replace (refs s (a / FRAME_SIZE) - 1) with 0 by lia.
    destruct (owners_upd s Hs s' a _ _ _ Hf Ha F) as (H1 & H2 & H3 & H4); [ulia|done|]. split_and!; [done..|].
    intros b. rewrite H4. split; [intros [[-> _]|[_ ?]]; [left; split; [done|lia]|by right]|].
    intros [[-> _]|Hb]; [by left|]. right. split; [by intros ->|done].
Qed.

Lemma pmm_fa_inc s a : pmm_ok s → 0 < owners s a < 65535 →
  wp (pmm_frame_refcount_inc a) s (λ _ s',
    pmm_ok s' ∧ limit s' = limit s ∧ refs_upd (owners s) a (owners s a + 1) (owners s') ∧
    ∀ b, available s' b ↔ available s b).
Proof.
  intros Hs Ho. pose proof (owned_unavailable s a Hs ltac:(lia)) as Hna. pose proof Hs as [I M].
  destruct (owners_frame s Hs a ltac:(lia)) as (Ha & Hf & Hr & Hu). rewrite Hr in *.
  unfold pmm_frame_refcount_inc. wp_step. wp_step. wp_step; [|lia].
  wp_step. apply wp_refs_ld; [done|lia|]. unfold on_refcounts. wp_step.
  apply wp_st; [apply frame_refs_bound; [done|lia]|]. rewrite u16_small by ulia.
  pmm_cbn. match goal with |- pmm_ok ?s1 ∧ _ => assert (frame_upd s (a / FRAME_SIZE) true (refs s (a / FRAME_SIZE) + 1) s1) as F end.
  { apply frame_upd_intro; [lia| |by left|rewrite Hu; simpl; lia].
    split; [done|done|]. intros j Hj. case_decide; [by subst|done]. }
  destruct (owners_upd s Hs _ a _ _ _ Hf Ha F) as (H1 & H2 & H3 & H4); [ulia|done|]. split_and!; [done..|].
  intros b. rewrite H4. split; [naive_solver|]. intros Hb. right. split; [by intros ->|done].
Qed.

Lemma pmm_fa_get s a : pmm_ok s → 0 < owners s a →
  wp (pmm_frame_refcount_get a) s (λ n s', s' = s ∧ n = owners s a).
Proof.
  intros Hs Ho. pose proof Hs as [I M].
  destruct (owners_frame s Hs a Ho) as (Ha & Hf & Hr & Hu).
  unfold pmm_frame_refcount_get. wp_step. wp_step. wp_step; [|lia].
  apply wp_refs_ld; [done|lia|]. done.
Qed.

Lemma owners_u16 s a : pmm_ok s → 0 <= owners s a < 65536.
Proof. intros [I _]. unfold owners. case_match; [apply (pi_refs s I)|lia]. Qed.

Lemma owned_addr s a : pmm_ok s → 0 < owners s a →
  0 < a < 4294967296 ∧ a mod PAGE = 0 ∧ a + PAGE <= limit s.
Proof.
  intros Hs Ho. destruct (owners_frame s Hs a Ho) as (Ha & Hf & _). destruct Hs as [I M].
  pose proof (total_frames_bound s I). unfold limit, PAGE, FRAME_SIZE, MAX_FRAMES in *. lia.
Qed.

#[export] Instance pmm_allocator : FrameAllocator pmm := {
  fa_alloc := pmm_frame_alloc;
  fa_free := pmm_frame_free;
  fa_inc := pmm_frame_refcount_inc;
  fa_get := pmm_frame_refcount_get;
  fa_inv := pmm_ok;
  fa_refs := owners;
  fa_avail := available;
  fa_limit := limit;
  fa_owned := owned_addr;
  fa_bound := owners_u16;
  fa_unowned := available_unowned;
  fa_alloc_ok := pmm_fa_alloc;
  fa_free_ok := pmm_fa_free;
  fa_inc_ok := pmm_fa_inc;
  fa_get_ok := pmm_fa_get
}.

(* ------------------------------------------------------------------ *)
(** ** Theorems *)

(** A small machine: 16 frames from address 0, all usable but the first two
    pages, with the page at 5 reserved. *)
Definition demo_m : range_t := Range 0 65536.
Definition demo_usable : list range_t := [Range 8192 65536].
Definition demo_critical : list range_t := [Range 20480 20481].

Lemma demo_ok :
  range_ok demo_m ∧ page_aligned demo_m ∧ FRAME_SIZE <= end_ demo_m - start demo_m ∧
  (∀ r, r ∈ demo_usable → below_top r ∧ start demo_m <= start r) ∧
  (∀ r, r ∈ demo_critical → below_top r).
Proof.
  split_and!; [split; unfold is_u32; simpl; lia|unfold page_aligned, FRAME_SIZE; simpl; lia
    |unfold FRAME_SIZE; simpl; lia|..];
    intros r ->%list_elem_of_singleton; unfold below_top, range_ok, is_u32, FRAME_SIZE; simpl; lia.
Qed.

(** Bring-up never faults, establishes the allocator invariant, and
    leaves free exactly the frames other than 0 that lie inside a usable
    range and meet no critical one; the free count is their number. *)
Theorem pmm_init_frames m usable critical :
  range_ok m → page_aligned m → FRAME_SIZE <= end_ m - start m →
  (∀ r, r ∈ usable → below_top r ∧ start m <= start r) →
  (∀ r, r ∈ critical → below_top r) →
  ∃ s, pmm_init m usable critical pmm_boot = Some (tt, s) ∧ pmm_inv s ∧ memory_range s = m ∧
    (∀ f, 1 <= f < total_frames s →
       used s f = negb (existsb (inside m f) usable) || existsb (meets m f) critical) ∧
    frame_get_free_count s = count_to (λ f, negb (used s f)) (Z.to_nat (total_frames s)).
Proof.
  intros H1 H2 H3 H4 H5.
  destruct (wp_elim _ _ _ (wp_pmm_init m usable critical H1 H2 H3 H4 H5)) as ([] & s & E & I & M & U).
  exists s. split_and!; [done|done|done|done|]. unfold frame_get_free_count.
  pose proof (total_frames_bound s I). rewrite (pi_used s I).
  pose proof (count_to_negb (used s) (Z.to_nat (total_frames s))).
  pose proof (count_to_bound (used s) (Z.to_nat (total_frames s))).
  rewrite u64_small; [lia|]. unfold is_u64, MAX_FRAMES in *. lia.
Qed.

Lemma pmm_init_frames_witness :
  ∃ s, pmm_init demo_m demo_usable demo_critical pmm_boot = Some (tt, s) ∧ pmm_inv s ∧
       used s 4 = false ∧ used s 5 = true ∧ used s 1 = true.
Proof.
  destruct demo_ok as (H1 & H2 & H3 & H4 & H5).
  destruct (pmm_init_frames demo_m demo_usable demo_critical H1 H2 H3 H4 H5)
    as (s & E & I & M & U & _).
  assert (total_frames s = 16) as T by (rewrite (pi_total s I), M; reflexivity).
  exists s. split; [exact E|]. split; [exact I|].
  rewrite !U by lia. split; [reflexivity|]. split; reflexivity.
Defined.

(** First-fit allocation. From a consistent state it returns the address
    of the least free frame above 0, now used with one owner and every other
    frame as it was, or 0 with the state unchanged when no frame is free. *)
Theorem pmm_frame_alloc_first_fit s :
  pmm_inv s →
  ∃ a s', pmm_frame_alloc s = Some (a, s') ∧ pmm_inv s' ∧
    ((a = 0 ∧ s' = s ∧ ∀ j, 1 <= j < total_frames s → used s j = true) ∨
     (∃ f, a = frame_addr s f ∧ 1 <= f < total_frames s ∧ used s f = false ∧
        (∀ j, 1 <= j < f → used s j = true) ∧
        (∀ j, 0 <= j → used s' j = if decide (j = f) then true else used s j) ∧
        (∀ j, refs s' j = if decide (j = f) then 1 else refs s j) ∧
        frame_get_used_count s' = frame_get_used_count s + 1)).
Proof.
  intros I. apply wp_elim, wp_pmm_frame_alloc; [done|..].
  - intros f s' Hf Hu Hj F.
    assert (pmm_inv s') as I' by (apply (fu_inv _ _ _ _ _ F); [done|done|ulia]).
    split; [done|]. right. exists f. split_and!; try done; try lia; [apply F..|].
    unfold frame_get_used_count. rewrite (pi_used s I), (pi_used s' I'), (fu_total _ _ _ _ _ F).
    rewrite (count_to_upd (used s) (used s') _ f true); [rewrite Hu; simpl; lia|lia|].
    intros j ?. apply (fu_used _ _ _ _ _ F). lia.
  - intros Hall. split; [done|]. by left.
Qed.

Lemma pmm_frame_alloc_first_fit_witness :
  ∃ s a s', pmm_init demo_m demo_usable demo_critical pmm_boot = Some (tt, s) ∧
    pmm_frame_alloc s = Some (a, s') ∧ pmm_inv s'.
Proof.
  destruct demo_ok as (H1 & H2 & H3 & H4 & H5).
  destruct (wp_elim _ _ _ (wp_pmm_init demo_m demo_usable demo_critical H1 H2 H3 H4 H5))
    as ([] & s & E & I & _).
  destruct (pmm_frame_alloc_first_fit s I) as (a & s' & A & I' & _).
  exists s, a, s'. split; [exact E|]. split; [exact A|exact I'].
Defined.

(** Release drops one owner. Addresses that are zero, unaligned or out of
    range, and frames that are already free, are ignored; otherwise the frame
    becomes free exactly when its last owner goes, and no other frame changes. *)
Theorem pmm_frame_free_last_owner s a :
  pmm_inv s → (∀ f, frame_of_addr s a = Some f → f ≠ 0) →
  ∃ s', pmm_frame_free a s = Some (tt, s') ∧ pmm_inv s' ∧
    match frame_of_addr s a with
    | None => s' = s
    | Some f =>
        if used s f then
          used s' f = (1 <? refs s f) ∧ refs s' f = Z.max 0 (refs s f - 1) ∧
          (∀ j, 0 <= j → j ≠ f → used s' j = used s j ∧ refs s' j = refs s j)
        else s' = s
    end.
Proof.
  intros I Hz.
  assert (wp (pmm_frame_free a) s (λ _ s', pmm_inv s' ∧ match frame_of_addr s a with
    | None => s' = s
    | Some f => if used s f then
          used s' f = (1 <? refs s f) ∧ refs s' f = Z.max 0 (refs s f - 1) ∧
          (∀ j, 0 <= j → j ≠ f → used s' j = used s j ∧ refs s' j = refs s j)
        else s' = s end)) as H.
  { apply wp_pmm_frame_free; [done| | |..].
    - by intros ->.
    - by intros f -> ->.
    - intros f s' E Hu Hc F. pose proof (frame_of_addr_bound s a f E). rewrite E, Hu.
      pose proof (pi_refs s I f). destruct F as [T R U C K].
      split; [apply K; [done|done|ulia]|]. rewrite U, C, !decide_True by lia.
      split_and!; [lia|lia|]. intros j ? ?. rewrite U, C, !decide_False by lia. done.
    - intros f s' E Hu Hc F. pose proof (frame_of_addr_bound s a f E). rewrite E, Hu.
      pose proof (pi_refs s I f). destruct F as [T R U C K].
      split; [apply K; [done|split; [done|by apply Hz]|ulia]|]. rewrite U, C, !decide_True by lia.
      split_and!; [lia|ulia|]. intros j ? ?. rewrite U, C, !decide_False by lia. done. }
  apply wp_elim in H as ([] & s' & E & H). by exists s'.
Qed.

Lemma pmm_frame_free_last_owner_witness :
  ∃ s a s1 s2, pmm_init demo_m demo_usable demo_critical pmm_boot = Some (tt, s) ∧
    pmm_frame_alloc s = Some (a, s1) ∧ pmm_frame_free 8192 s1 = Some (tt, s2) ∧ pmm_inv s2.
Proof.
  destruct demo_ok as (H1 & H2 & H3 & H4 & H5).
  destruct (wp_elim _ _ _ (wp_pmm_init demo_m demo_usable demo_critical H1 H2 H3 H4 H5))
    as ([] & s & E & I & M & _).
  destruct (wp_elim _ _ _ (pmm_fa_alloc s (conj I (eq_trans (f_equal start M) eq_refl))))
    as (a & s1 & A & [I1 M1] & _).
  destruct (pmm_frame_free_last_owner s1 8192 I1) as (s2 & F & I2 & _).
  - unfold frame_of_addr. rewrite M1. case_match; [discriminate|]. intros f [= <-]. discriminate.
  - exists s, a, s1, s2. split; [exact E|]. split; [exact A|]. split; [exact F|exact I2].
Defined.

(** One operation of a client at run time. Only an owned frame is shared,
    and never beyond the 16-bit count. *)
Inductive pmm_step (s s' : pmm) : Prop :=
| step_alloc a : pmm_frame_alloc s = Some (a, s') → pmm_step s s'
| step_free a : pmm_frame_free a s = Some (tt, s') → pmm_step s s'
| step_share a : 0 < owners s a < 65535 → pmm_frame_refcount_inc a s = Some (tt, s') → pmm_step s s'.

Lemma frame_of_addr_nonzero s a f :
  start (memory_range s) = 0 → frame_of_addr s a = Some f → f ≠ 0.
Proof.
  unfold frame_of_addr, in_range, FRAME_SIZE. intros ->. case_match; [done|].
  intros [= <-]. lia.
Qed.

Lemma wp_free_any s a : pmm_ok s → wp (pmm_frame_free a) s (λ _ s', pmm_ok s').
Proof.
  intros [I M]. apply wp_pmm_frame_free; [done|done|done|..]; intros f s' E Hu Hc F;
    pose proof (frame_of_addr_nonzero s a f M E); pose proof (pi_refs s I f);
    (split; [|by rewrite (fu_range _ _ _ _ _ F)]);
    (apply (fu_inv _ _ _ _ _ F); [done|done|ulia]).
Qed.

Lemma pmm_step_ok s s' : pmm_step s s' → pmm_ok s → pmm_ok s'.
Proof.
  intros [a E|a E|a Ha E] Hs.
  - by destruct (wp_run _ _ _ _ _ (pmm_fa_alloc s Hs) E).
  - exact (wp_run _ _ _ _ _ (wp_free_any s a Hs) E).
  - by destruct (wp_run _ _ _ _ _ (pmm_fa_inc s a Hs Ha) E).
Qed.

(** C3: for memory that starts at address 0, every state reached from
    bring-up by allocations, releases of arbitrary addresses and sharing of
    owned frames is consistent (the used count is the number of set bits, a
    free frame has no owner, frame 0 is never free), and in it neither
    allocation nor release can fault. *)
Theorem pmm_reachable_consistent m usable critical s0 s :
  range_ok m → page_aligned m → FRAME_SIZE <= end_ m - start m → start m = 0 →
  (∀ r, r ∈ usable → below_top r ∧ start m <= start r) →
  (∀ r, r ∈ critical → below_top r) →
  pmm_init m usable critical pmm_boot = Some (tt, s0) → rtc pmm_step s0 s →
  pmm_inv s ∧ (∃ a s', pmm_frame_alloc s = Some (a, s')) ∧
  (∀ a, ∃ s', pmm_frame_free a s = Some (tt, s')).
Proof.
  intros H1 H2 H3 H0 H4 H5 E Hr.
  assert (pmm_ok s0) as Hs0.
  { destruct (wp_run _ _ _ _ _ (wp_pmm_init m usable critical H1 H2 H3 H4 H5) E) as (I & M & _).
    split; [done|by rewrite M]. }
  assert (pmm_ok s) as Hs by (clear E; induction Hr; eauto using pmm_step_ok).
  split; [apply Hs|]. split.
  - destruct (wp_elim _ _ _ (pmm_fa_alloc s Hs)) as (a & s' & A & _). eauto.
  - intros a. destruct (wp_elim _ _ _ (wp_free_any s a Hs)) as ([] & s' & A & _). eauto.
Qed.

Lemma pmm_reachable_consistent_witness :
  ∃ s0 a s1, pmm_init demo_m demo_usable demo_critical pmm_boot = Some (tt, s0) ∧
    pmm_frame_alloc s0 = Some (a, s1) ∧ pmm_inv s1 ∧
    ∃ s2, pmm_frame_free a s1 = Some (tt, s2).
Proof.
  destruct demo_ok as (H1 & H2 & H3 & H4 & H5).
  destruct (wp_elim _ _ _ (wp_pmm_init demo_m demo_usable demo_critical H1 H2 H3 H4 H5))
    as ([] & s0 & E & I & M & _).
  destruct (wp_elim _ _ _ (pmm_fa_alloc s0 (conj I (eq_trans (f_equal start M) eq_refl))))
    as (a & s1 & A & _).
  destruct (pmm_reachable_consistent demo_m demo_usable demo_critical s0 s1 H1 H2 H3
    eq_refl H4 H5 E (rtc_once s0 s1 (step_alloc _ _ a A))) as (I1 & _ & F).
  exists s0, a, s1. split; [exact E|]. split; [exact A|]. split; [exact I1|apply F].
Defined.

(** Copy-on-write bookkeeping balances. After [n] more references to an
    owned frame and [k] releases of it, its count is the old one plus [n]
    minus [k] and no other frame's count has moved; with [k] the whole count
    the frame is free again. The 16-bit count bounds [n]. *)
Theorem pmm_share_release_balanced s a n k :
  pmm_ok s → 0 < owners s a → owners s a + Z.of_nat n <= 65535 →
  Z.of_nat k <= owners s a + Z.of_nat n →
  ∃ s', bind (for_n n 0 (λ _, pmm_frame_refcount_inc a))
             (λ _, for_n k 0 (λ _, pmm_frame_free a)) s = Some (tt, s') ∧ pmm_ok s' ∧
    owners s' a = owners s a + Z.of_nat n - Z.of_nat k ∧
    (∀ b, b ≠ a → owners s' b = owners s b).
Proof.
  intros Hs Ho Hn Hk.
  destruct (wp_elim _ _ _ (wp_share_release (FA := pmm_allocator) a n k s Hs Ho Hn Hk)) as ([] & s' & E & I & R).
  exists s'. split; [exact E|]. split; [exact I|]. split; [exact (refs_upd_eq _ _ _ _ R)|].
  intros b Hb. exact (refs_upd_ne _ _ _ _ b R Hb).
Qed.

Lemma pmm_share_release_balanced_witness :
  ∃ s s', pmm_ok s ∧ owners s 8192 = 1 ∧
    bind (for_n 2 0 (λ _, pmm_frame_refcount_inc 8192))
         (λ _, for_n 3 0 (λ _, pmm_frame_free 8192)) s = Some (tt, s') ∧ owners s' 8192 = 0.
Proof.
  destruct demo_ok as (H1 & H2 & H3 & H4 & H5).
  destruct (wp_elim _ _ _ (wp_pmm_init demo_m demo_usable demo_critical H1 H2 H3 H4 H5))
    as ([] & s & E & I & M & U).
  assert (total_frames s = 16) as T by (rewrite (pi_total s I), M; reflexivity).
  destruct (wp_elim _ _ _ (pmm_fa_alloc s (conj I (eq_trans (f_equal start M) eq_refl))))
    as (a & s1 & A & O1 & _ & Hcase).
  assert (a = 8192 ∧ owners s1 8192 = 1) as [-> Ho].
  { assert (∃ x, pmm_init demo_m demo_usable demo_critical pmm_boot = Some (tt, x) ∧
                 fst <$> pmm_frame_alloc x = Some 8192) as (x & X1 & X2).
    { eexists. split; [vm_compute; reflexivity|]. vm_compute. reflexivity. }
    rewrite E in X1. injection X1 as <-. rewrite A in X2. injection X2 as ->.
    split; [reflexivity|]. destruct Hcase as [[? _]|(_ & _ & ? & _)]; [discriminate|assumption]. }
  destruct (pmm_share_release_balanced s1 8192 2 3 O1) as (s2 & F & _ & C & _);
    [rewrite Ho; reflexivity|rewrite Ho; vm_compute; discriminate
    |rewrite Ho; vm_compute; discriminate|].
  exists s1, s2. rewrite Ho in C. split; [exact O1|]. split; [exact Ho|]. split; [exact F|exact C].
Defined.
