(* ===== verification/Paging.v ===== *)
(** * Two-level page tables

    [kernel/src/arch/i686/hal_vmm.c] over the frame-allocator interface. The
    page directory and the page tables are 32-bit words of physical memory,
    read and written through the kernel's window at [KERNEL_BASE]; an access
    outside the window is a fault, and so is a failed [ASSERT]. The translation
    caches of the processor are not modelled: [tlb_flush] does nothing here.

    The specification sees one entry per virtual page, [entry]. *)

From S2P Require Import Prelude Range FrameAlloc.

Definition KERNEL_BASE : Z := 3221225472.
Definition MAX_PHYSICAL_MEMORY : Z := 536870912.
Definition PAGE_SIZE : Z := 4096.
Definition PAGE_PRESENT : Z := 1.
Definition PAGE_READWRITE : Z := 2.
Definition PAGE_USER : Z := 4.
Definition KERNEL_PD_START : Z := KERNEL_BASE / (4 * 1024 * 1024).
Definition ARCH_PD_PT_PRESENT : Z := 1.
Definition ARCH_PD_PT_READWRITE : Z := 2.
Definition ARCH_PD_PT_USER : Z := 4.
Definition PT_ENTRIES : Z := 1024.
Definition PD_ENTRIES : Z := PAGE_SIZE / 4.
Definition PT_COW : Z := 512.

(** The handle of an address space: the directory's virtual and physical
    addresses. *)
Record arch_vm_t := ArchVm { pd : Z; pd_phys : Z }.

(** The allocator and physical memory: the words below [top], by address. *)
Record vmst (St : Type) := Vmst { falloc : St; words : Z → Z; top : Z }.
Arguments Vmst {_}.
Arguments falloc {_}.
Arguments words {_}.
Arguments top {_}.

Definition get_pd_index (va : Z) : Z := Z.shiftr va 22.
Definition get_pt_index (va : Z) : Z := Z.land (Z.shiftr va 12) 1023.
Definition get_pt_virtual (pt_phys : Z) : Z := u32 (pt_phys + KERNEL_BASE).
Definition pt_pages_remaining (pt_index : Z) : Z := u32 (PT_ENTRIES - pt_index).

(** [x & flag] as a condition, [x & ~0xFFF] and [x & ~flag]. *)
Definition has (x flag : Z) : bool := negb (Z.land x flag =? 0).
Definition page_of (x : Z) : Z := Z.land x (not32 4095).

Definition public_flags_to_arch_flags (flags : Z) : Z :=
  let f0 := 0 in
  let f1 := if has flags PAGE_PRESENT then Z.lor f0 ARCH_PD_PT_PRESENT else f0 in
  let f2 := if has flags PAGE_READWRITE then Z.lor f1 ARCH_PD_PT_READWRITE else f1 in
  if has flags PAGE_USER then Z.lor f2 ARCH_PD_PT_USER else f2.

Section ops.
Context `{FA : FrameAllocator St}.
Notation Vm := (vmst St).

Definition set_falloc (a : St) (s : Vm) : Vm := Vmst a (words s) (top s).

Definition pmm_alloc : M Vm Z := zoom falloc set_falloc fa_alloc.
Definition pmm_free (a : Z) : M Vm unit := zoom falloc set_falloc (fa_free a).
Definition pmm_inc (a : Z) : M Vm unit := zoom falloc set_falloc (fa_inc a).
Definition pmm_get (a : Z) : M Vm Z := zoom falloc set_falloc (fa_get a).

(** A pointer of the window, as a physical word address. *)
Definition window (top p : Z) : bool :=
  (KERNEL_BASE <=? p) && (p - KERNEL_BASE <? top) && (p mod 4 =? 0).

Definition ldw (p : Z) : M Vm Z := λ s,
  if window (top s) p then Some (words s (p - KERNEL_BASE), s) else None.
Definition stw (p v : Z) : M Vm unit := λ s,
  if window (top s) p
  then Some (tt, Vmst (falloc s) (<[p - KERNEL_BASE := v]> (words s)) (top s)) else None.

(** [memset] and [memcpy] of a whole page, word by word. *)
Definition page_zero (p : Z) : M Vm unit :=
  for_range 0 PT_ENTRIES (λ i, stw (p + 4 * i) 0).
Definition page_copy (dst src : Z) : M Vm unit :=
  for_range 0 PT_ENTRIES (λ i, w ← ldw (src + 4 * i); stw (dst + 4 * i) w).

Definition hal_vm_virt_to_phys (vm : arch_vm_t) (va : Z) : M Vm Z :=
  let pd_index := get_pd_index va in
  let pt_index := get_pt_index va in
  pde ← ldw (pd vm + 4 * pd_index);
  if negb (has pde ARCH_PD_PT_PRESENT) then ret 0
  else
    let pt_virt := get_pt_virtual (page_of pde) in
    pte ← ldw (pt_virt + 4 * pt_index);
    if negb (has pte ARCH_PD_PT_PRESENT) then ret 0
    else ret (u32 (page_of pte + Z.land va 4095)).

Definition allocate_page_table : M Vm Z :=
  pt_phys ← pmm_alloc;
  if pt_phys =? 0 then ret 0
  else page_zero (get_pt_virtual pt_phys) ;; ret pt_phys.

(** [pd] is the directory's virtual address; the flag that [*created] gets is
    not used by the callers. *)
Definition get_or_create_page_table (pd pd_index arch_flags : Z) : M Vm Z :=
  pde ← ldw (pd + 4 * pd_index);
  if has pde ARCH_PD_PT_PRESENT then ret (page_of pde)
  else
    pt_phys ← allocate_page_table;
    if pt_phys =? 0 then ret 0
    else
      stw (pd + 4 * pd_index)
        (Z.lor (Z.lor (Z.lor pt_phys ARCH_PD_PT_PRESENT) ARCH_PD_PT_READWRITE)
               (Z.land arch_flags ARCH_PD_PT_USER)) ;;
      ret pt_phys.

Definition fill_page_table_entries (pt start_index count pa_base arch_flags : Z) : M Vm unit :=
  for_range 0 count (λ i,
    stw (pt + 4 * (start_index + i))
      (Z.lor (Z.lor (u32 (pa_base + i * PAGE_SIZE)) (Z.land arch_flags 4095)) ARCH_PD_PT_PRESENT)).

Definition map_page_table_range (pd pd_index pt_index page_count pa arch_flags : Z) : M Vm bool :=
  pt_phys ← get_or_create_page_table pd pd_index arch_flags;
  if pt_phys =? 0 then ret false
  else
    fill_page_table_entries (get_pt_virtual pt_phys) pt_index page_count pa arch_flags ;;
    ret true.

Definition clear_page_table_entries (pt start_index count : Z) : M Vm unit :=
  for_range 0 count (λ i,
    pte ← ldw (pt + 4 * (start_index + i));
    when (has pte ARCH_PD_PT_PRESENT) (stw (pt + 4 * (start_index + i)) 0)).

Definition unmap_page_table_range (pd pd_index pt_index page_count : Z) : M Vm unit :=
  pde ← ldw (pd + 4 * pd_index);
  if negb (has pde ARCH_PD_PT_PRESENT) then ret tt
  else
    let pt_phys := page_of pde in
    clear_page_table_entries (get_pt_virtual pt_phys) pt_index page_count ;;
    when ((pt_index =? 0) && (page_count =? PT_ENTRIES))
      (assert_ (pd_index <? KERNEL_PD_START) ;;
       pmm_free pt_phys ;;
       stw (pd + 4 * pd_index) 0).

(** A turn of either loop covers the rest of a page table or of the range, so
    there are at most 1025 of them. *)
Definition range_fuel : nat := 1026.

Definition chunk (va va_end : Z) : Z :=
  MIN (pt_pages_remaining (get_pt_index va)) (u32 (va_end - va) / PAGE_SIZE).

Definition hal_vm_map_range (vm : arch_vm_t) (pa_start va_start size public_flags : Z) : M Vm bool :=
  if size =? 0 then ret true
  else
    assert_ (is_aligned va_start PAGE_SIZE) ;;
    assert_ (is_aligned pa_start PAGE_SIZE) ;;
    assert_ (is_aligned size PAGE_SIZE) ;;
    let arch_flags := public_flags_to_arch_flags public_flags in
    let va_end := u32 (va_start + size) in
    while_n range_fuel (λ '(va, pa),
      if va <? va_end then
        let page_count := chunk va va_end in
        ok ← map_page_table_range (pd vm) (get_pd_index va) (get_pt_index va) page_count pa arch_flags;
        if negb ok then ret (inr false)
        else ret (inl (u32 (va + page_count * PAGE_SIZE), u32 (pa + page_count * PAGE_SIZE)))
      else ret (inr true)) (va_start, pa_start).

Definition hal_vm_unmap_range (vm : arch_vm_t) (va_start size : Z) : M Vm bool :=
  if size =? 0 then ret true
  else
    assert_ (is_aligned va_start PAGE_SIZE) ;;
    assert_ (is_aligned size PAGE_SIZE) ;;
    let va_end := u32 (va_start + size) in
    while_n range_fuel (λ va,
      if va <? va_end then
        let page_count := chunk va va_end in
        unmap_page_table_range (pd vm) (get_pd_index va) (get_pt_index va) page_count ;;
        ret (inl (u32 (va + page_count * PAGE_SIZE)))
      else ret (inr true)) va_start.

Definition hal_vm_map (vm : arch_vm_t) (va pa public_flags : Z) : M Vm bool :=
  hal_vm_map_range vm pa va PAGE_SIZE public_flags.
Definition hal_vm_unmap (vm : arch_vm_t) (virt_addr : Z) : M Vm bool :=
  hal_vm_unmap_range vm virt_addr PAGE_SIZE.

(** The handle that is filled in, or nothing. *)
Definition hal_vm_empty_arch_vm_create : M Vm (option arch_vm_t) :=
  pd_phys ← allocate_page_table;
  ret (if pd_phys =? 0 then None else Some (ArchVm (u32 (pd_phys + KERNEL_BASE)) pd_phys)).

(** Running out of memory here is a panic. *)
Definition hal_vm_prealloc_kernel_tables (vm : arch_vm_t) : M Vm unit :=
  for_range KERNEL_PD_START PD_ENTRIES (λ pd_index,
    pt ← get_or_create_page_table (pd vm) pd_index 0;
    assert_ (negb (pt =? 0))).

(** The address of an entry, or null. *)
Definition get_pte_ptr (vm : arch_vm_t) (va : Z) : M Vm Z :=
  pde ← ldw (pd vm + 4 * get_pd_index va);
  if negb (has pde ARCH_PD_PT_PRESENT) then ret 0
  else ret (get_pt_virtual (page_of pde) + 4 * get_pt_index va).

Definition phys_copy (dst_pa src_pa : Z) : M Vm unit :=
  page_copy (u32 (dst_pa + KERNEL_BASE)) (u32 (src_pa + KERNEL_BASE)).

Definition hal_vmm_handle_cow (vm : arch_vm_t) (addr : Z) : M Vm bool :=
  pte ← get_pte_ptr vm addr;
  if pte =? 0 then ret false
  else
    v ← ldw pte;
    if negb (has v PT_COW) then ret false
    else
      let old_phys := page_of v in
      pmm_inc old_phys ;;
      n ← pmm_get old_phys;
      (if 1 <? n then
         new_phys ← pmm_alloc;
         phys_copy new_phys old_phys ;;
         v ← ldw pte;
         stw pte (Z.lor (Z.lor new_phys (Z.land v 4095)) ARCH_PD_PT_READWRITE) ;;
         v ← ldw pte;
         stw pte (Z.land v (not32 PT_COW)) ;;
         pmm_free old_phys
       else
         v ← ldw pte;
         stw pte (Z.lor v ARCH_PD_PT_READWRITE) ;;
         v ← ldw pte;
         stw pte (Z.land v (not32 PT_COW))) ;;
      ret true.

Definition hal_vm_arch_destroy (vm : arch_vm_t) : M Vm unit :=
  for_range 0 KERNEL_PD_START (λ i,
    pde ← ldw (pd vm + 4 * i);
    when (has pde ARCH_PD_PT_PRESENT) (pmm_free (page_of pde))) ;;
  pmm_free (pd_phys vm).

(** One entry made copy-on-write. *)
Definition set_cow_entry (pte : Z) : M Vm unit :=
  v ← ldw pte;
  when (has v ARCH_PD_PT_PRESENT)
    (when (has v ARCH_PD_PT_READWRITE)
       (stw pte (Z.lor v PT_COW) ;;
        v ← ldw pte;
        stw pte (Z.land v (not32 ARCH_PD_PT_READWRITE))) ;;
     v ← ldw pte;
     pmm_inc (page_of v)).

Definition hal_vmm_set_cow (vm : arch_vm_t) : M Vm unit :=
  for_range 0 KERNEL_PD_START (λ i,
    pde ← ldw (pd vm + 4 * i);
    when (has pde ARCH_PD_PT_PRESENT)
      (for_range 0 PT_ENTRIES (λ j, set_cow_entry (get_pt_virtual (page_of pde) + 4 * j)))).

Definition hal_vm_arch_clone_mapping (dst src : arch_vm_t) : M Vm unit :=
  page_copy (pd dst) (pd src).

Definition hal_vm_arch_clone (dst src : arch_vm_t) : M Vm unit :=
  hal_vmm_set_cow src ;;
  for_range 0 KERNEL_PD_START (λ i,
    pde ← ldw (pd src + 4 * i);
    when (has pde ARCH_PD_PT_PRESENT)
      (new_pt_phys ← pmm_alloc;
       page_copy (get_pt_virtual new_pt_phys) (get_pt_virtual (page_of pde)) ;;
       pde ← ldw (pd src + 4 * i);
       stw (pd dst + 4 * i) (Z.lor new_pt_phys (Z.land pde 4095)))) ;;
  for_range KERNEL_PD_START PT_ENTRIES (λ i,
    pde ← ldw (pd src + 4 * i);
    stw (pd dst + 4 * i) pde).
End ops.

(* ------------------------------------------------------------------ *)
(** ** Entries as numbers *)

Lemma pow2_page : is_pow2 4096.
Proof. exists 12. split; [lia|done]. Qed.

Lemma page_of_eq x : is_u32 x → page_of x = x - x mod 4096.
Proof. intros H. apply (align_down_mod x 4096 H pow2_page). Qed.

Lemma flags_of_eq x : Z.land x 4095 = x mod 4096.
Proof. change 4095 with (Z.ones 12). by rewrite Z.land_ones by lia. Qed.

Lemma page_mask_bit i : Z.testbit (not32 4095) i = (12 <=? i) && (i <? 32).
Proof.
  change (not32 4095) with (Z.shiftl (Z.ones 20) 12).
  destruct (Z.ltb_spec i 0) as [Hn|Hp]; [rewrite Z.testbit_neg_r by lia; lia|].
  rewrite Z.shiftl_spec by done. destruct (Z.leb_spec 12 i) as [H|H]; simpl.
  - rewrite Z.testbit_ones by lia. lia.
  - by rewrite Z.testbit_neg_r by lia.
Qed.

(** Words that agree above bit 12 name the same page. *)
Lemma page_of_bits x y :
  (∀ i, 12 <= i → Z.testbit x i = Z.testbit y i) → page_of x = page_of y.
Proof.
  intros H. apply Z.bits_inj'. intros i Hi. unfold page_of. rewrite !Z.land_spec, page_mask_bit.
  destruct (Z.leb_spec 12 i); [by rewrite H|]. by rewrite !andb_false_r.
Qed.

Lemma land_pow2 x k : 0 <= k → Z.land x (2 ^ k) = if Z.testbit x k then 2 ^ k else 0.
Proof.
  intros Hk. apply Z.bits_inj'. intros i Hi. rewrite Z.land_spec.
  destruct (decide (i = k)) as [->|].
  - rewrite Z.pow2_bits_true, andb_true_r by done.
    destruct (Z.testbit x k); [by rewrite Z.pow2_bits_true|by rewrite Z.bits_0].
  - rewrite Z.pow2_bits_false, andb_false_r by done.
    destruct (Z.testbit x k); [by rewrite Z.pow2_bits_false|by rewrite Z.bits_0].
Qed.

Lemma has_bit x k : 0 <= k → has x (2 ^ k) = Z.testbit x k.
Proof.
  intros Hk. unfold has. rewrite land_pow2 by done.
  destruct (Z.testbit x k); [|done]. pose proof (Z.pow_pos_nonneg 2 k).
  apply negb_true_iff, Z.eqb_neq. lia.
Qed.

Definition present (x : Z) : bool := has x ARCH_PD_PT_PRESENT.

Lemma present_bit x : present x = Z.testbit x 0.
Proof. apply (has_bit x 0). lia. Qed.

Lemma small_bit f i : 0 <= f < 4096 → 12 <= i → Z.testbit f i = false.
Proof.
  intros Hf Hi. replace f with (f mod 2 ^ 12) by (rewrite Z.mod_small; [done|exact Hf]).
  apply Z.mod_pow2_bits_high. lia.
Qed.

Lemma page_bit p i : p mod 4096 = 0 → i < 12 → Z.testbit p i = false.
Proof.
  intros Hp Hi. destruct (Z.ltb_spec i 0); [by rewrite Z.testbit_neg_r|].
  rewrite <- (Z.mod_pow2_bits_low p 12 i) by lia. change (2 ^ 12) with 4096.
  by rewrite Hp, Z.bits_0.
Qed.

(** A page address with flags in its low twelve bits. *)
Lemma page_flags p f : p mod 4096 = 0 → 0 <= f < 4096 → Z.lor p f = p + f.
Proof.
  intros Hp Hf. assert (Z.land p f = 0) as H.
  { apply Z.bits_inj'. intros i Hi. rewrite Z.land_spec, Z.bits_0.
    destruct (Z.ltb_spec i 12); [by rewrite page_bit|].
    by rewrite (small_bit f) by lia; rewrite andb_false_r. }
  rewrite Z.add_nocarry_lxor by done. symmetry. by apply Z.lxor_lor.
Qed.

Lemma page_of_flags p f :
  is_u32 p → p mod 4096 = 0 → 0 <= f < 4096 → is_u32 (Z.lor p f) ∧ page_of (Z.lor p f) = p.
Proof.
  intros Hu Hp Hf. rewrite page_flags by done.
  assert (is_u32 (p + f)) as Hu' by ulia. split; [done|]. rewrite page_of_eq by done. ulia.
Qed.

Lemma lor_small a b : 0 <= a < 4096 → 0 <= b < 4096 → 0 <= Z.lor a b < 4096.
Proof.
  intros Ha Hb. split; [apply Z.lor_nonneg; lia|].
  destruct (decide (Z.lor a b = 0)) as [->|Hn]; [lia|].
  assert (0 <= Z.lor a b) by (apply Z.lor_nonneg; lia).
  apply (Z.log2_lt_pow2 _ 12); [lia|]. rewrite Z.log2_lor by lia.
  apply Z.max_lub_lt; (destruct (decide (a = 0)), (decide (b = 0)); subst; try done);
    apply Z.log2_lt_pow2; lia.
Qed.

(** The word that [fill_page_table_entries] stores. *)
Definition pte_word (pa flags : Z) : Z :=
  Z.lor (Z.lor pa (Z.land flags 4095)) ARCH_PD_PT_PRESENT.

Lemma pte_word_ok pa flags :
  is_u32 pa → pa mod 4096 = 0 →
  is_u32 (pte_word pa flags) ∧ page_of (pte_word pa flags) = pa ∧ present (pte_word pa flags) = true.
Proof.
  intros Hu Hp. unfold pte_word. rewrite <- Z.lor_assoc.
  assert (0 <= Z.lor (Z.land flags 4095) ARCH_PD_PT_PRESENT < 4096) as Hf.
  { apply lor_small; [rewrite flags_of_eq; lia|done]. }
  destruct (page_of_flags pa _ Hu Hp Hf) as [H1 H2]. split_and!; [done|done|].
  rewrite present_bit, !Z.lor_spec. by rewrite !orb_true_r.
Qed.

(** The word that [get_or_create_page_table] stores. *)
Definition pde_word (pt flags : Z) : Z :=
  Z.lor (Z.lor (Z.lor pt ARCH_PD_PT_PRESENT) ARCH_PD_PT_READWRITE) (Z.land flags ARCH_PD_PT_USER).

Lemma pde_word_ok pt flags :
  is_u32 pt → pt mod 4096 = 0 →
  is_u32 (pde_word pt flags) ∧ page_of (pde_word pt flags) = pt ∧ present (pde_word pt flags) = true.
Proof.
  intros Hu Hp. unfold pde_word. rewrite <- !Z.lor_assoc.
  assert (0 <= Z.land flags ARCH_PD_PT_USER < 4096) as Hl.
  { change ARCH_PD_PT_USER with (2 ^ 2). rewrite land_pow2 by lia. by destruct (Z.testbit flags 2). }
  destruct (page_of_flags pt _ Hu Hp (lor_small _ _ (conj (Z.le_0_1) eq_refl)
    (lor_small 2 _ ltac:(lia) Hl))) as [H1 H2].
  split_and!; [done|done|]. rewrite present_bit, !Z.lor_spec. by rewrite orb_true_r.
Qed.

Lemma same_page f g x y :
  f mod 4096 = 0 → g mod 4096 = 0 → 0 <= x < 4096 → 0 <= y < 4096 → f + x = g + y → f = g ∧ x = y.
Proof. lia. Qed.

(* ------------------------------------------------------------------ *)
(** ** Well-formed address spaces *)

Section spec.
Context `{FA : FrameAllocator St}.
Notation Vm := (vmst St).

Definition refs (s : Vm) (f : Z) : Z := fa_refs (falloc s) f.

(** A page of the window. *)
Definition frame_in (s : Vm) (f : Z) : Prop := 0 <= f ∧ f mod 4096 = 0 ∧ f + 4096 <= top s.

Record mem_ok (s : Vm) : Prop := {
  mo_alloc : fa_inv (falloc s);
  mo_top : fa_limit (falloc s) <= top s <= MAX_PHYSICAL_MEMORY;
  mo_words : ∀ a, is_u32 (words s a)
}.

(** Page 0 is never in use. *)
Lemma refs_pos s f : mem_ok s → 0 < refs s f → 0 < f.
Proof. intros M H. by apply (fa_owned (falloc s) f (mo_alloc s M)) in H as [[? _] _]. Qed.

Definition pde (s : Vm) (vm : arch_vm_t) (i : Z) : Z := words s (pd_phys vm + 4 * i).
Definition table (s : Vm) (vm : arch_vm_t) (i : Z) : Z := page_of (pde s vm i).

(** The entry of virtual page [n]; absent tables read as empty entries. *)
Definition entry (s : Vm) (vm : arch_vm_t) (n : Z) : Z :=
  if present (pde s vm (n / 1024)) then words s (table s vm (n / 1024) + 4 * (n mod 1024)) else 0.

(** The directory and its tables are pages of their own, all in use. *)
Record vm_ok (s : Vm) (vm : arch_vm_t) : Prop := {
  vo_mem : mem_ok s;
  vo_pd : pd vm = pd_phys vm + KERNEL_BASE;
  vo_pd_frame : frame_in s (pd_phys vm) ∧ 0 < refs s (pd_phys vm);
  vo_table : ∀ i, 0 <= i < 1024 → present (pde s vm i) = true →
    frame_in s (table s vm i) ∧ 0 < refs s (table s vm i) ∧ table s vm i ≠ pd_phys vm;
  vo_inj : ∀ i j, 0 <= i < 1024 → 0 <= j < 1024 →
    present (pde s vm i) = true → present (pde s vm j) = true →
    table s vm i = table s vm j → i = j
}.

(** The pages the address space is made of. *)
Definition part_of (s : Vm) (vm : arch_vm_t) (f : Z) : Prop :=
  f = pd_phys vm ∨ ∃ i, 0 <= i < 1024 ∧ present (pde s vm i) = true ∧ f = table s vm i.

Definition store (s : Vm) (a v : Z) : Vm := Vmst (falloc s) (<[a := v]> (words s)) (top s).

Lemma frame_u32 s f : mem_ok s → frame_in s f → is_u32 f.
Proof. intros M (? & ? & ?). destruct (mo_top s M). unfold MAX_PHYSICAL_MEMORY in *. ulia. Qed.

Lemma mem_window s f : mem_ok s → frame_in s f → get_pt_virtual f = f + KERNEL_BASE.
Proof.
  intros M (? & ? & ?). destruct (mo_top s M). unfold get_pt_virtual, MAX_PHYSICAL_MEMORY, KERNEL_BASE in *.
  apply u32_small. ulia.
Qed.

Lemma window_in s f i :
  frame_in s f → 0 <= i < 1024 →
  window (top s) (f + KERNEL_BASE + 4 * i) = true ∧
  f + KERNEL_BASE + 4 * i - KERNEL_BASE = f + 4 * i.
Proof.
  intros (? & ? & ?) Hi. unfold window, KERNEL_BASE. split; [|lia].
  apply andb_true_iff. rewrite andb_true_iff, Z.leb_le, Z.ltb_lt, Z.eqb_eq. lia.
Qed.

Lemma wp_ldw s p f i (Q : Z → Vm → Prop) :
  frame_in s f → 0 <= i < 1024 → p = f + KERNEL_BASE + 4 * i →
  Q (words s (f + 4 * i)) s → wp (ldw p) s Q.
Proof.
  intros Hf Hi -> HQ. destruct (window_in s f i Hf Hi) as [H1 H2].
  unfold wp, ldw. by rewrite H1, H2.
Qed.

(** [n] words from number [st] on of page [f] became [val 0], [val 1]... and
    nothing else changed. *)
Record wrote (s s' : Vm) (f st n : Z) (val : Z → Z) : Prop := {
  wr_falloc : falloc s' = falloc s;
  wr_top : top s' = top s;
  wr_in : ∀ i, 0 <= i < n → words s' (f + 4 * (st + i)) = val i;
  wr_out : ∀ a, (∀ i, 0 <= i < n → a ≠ f + 4 * (st + i)) → words s' a = words s a
}.

Lemma wp_stw s p f i v (Q : unit → Vm → Prop) :
  frame_in s f → 0 <= i < 1024 → p = f + KERNEL_BASE + 4 * i →
  (∀ s', wrote s s' f i 1 (λ _, v) → Q tt s') → wp (stw p v) s Q.
Proof.
  intros Hf Hi -> HQ. destruct (window_in s f i Hf Hi) as [H1 H2].
  unfold wp, stw. rewrite H1, H2. apply HQ. split; [done|done|..]; simpl.
  - intros j Hj. replace (i + j) with i by lia. by rewrite fn_lookup_insert.
  - intros a Ha. rewrite fn_lookup_insert_ne; [done|]. specialize (Ha 0 ltac:(lia)).
    by rewrite Z.add_0_r in Ha.
Qed.

Lemma wp_wrote_loop s f st n (val : Z → Z) (body : Z → M Vm unit) :
  0 <= n →
  (∀ i s', 0 <= i < n → wrote s s' f st i val →
     wp (body i) s' (λ _ s'', wrote s' s'' f (st + i) 1 (λ _, val i))) →
  wp (for_range 0 n body) s (λ _ s', wrote s s' f st n val).
Proof.
  intros Hn Hb. eapply wp_mono; [apply (wp_for_range (λ i s', wrote s s' f st i val))|].
  - split; [done|done|lia|done].
  - intros i s' Hi W. eapply wp_mono; [by apply Hb|]. intros [] s'' W1.
    split; [by rewrite (wr_falloc _ _ _ _ _ _ W1), (wr_falloc _ _ _ _ _ _ W)
           |by rewrite (wr_top _ _ _ _ _ _ W1), (wr_top _ _ _ _ _ _ W)|..].
    + intros j Hj. destruct (decide (j = i)) as [->|].
      * rewrite <- (wr_in _ _ _ _ _ _ W1 0) by lia. by rewrite Z.add_0_r.
      * rewrite (wr_out _ _ _ _ _ _ W1) by lia. apply W. lia.
    + intros a Ha. rewrite (wr_out _ _ _ _ _ _ W1), (wr_out _ _ _ _ _ _ W); [done|..].
      * intros j Hj. apply Ha. lia.
      * intros j Hj. replace (st + i + j) with (st + i) by lia. apply Ha. lia.
  - intros [] s'. by rewrite Z.max_r.
Qed.

Lemma frame_in_top s s' f : top s' = top s → frame_in s f → frame_in s' f.
Proof. unfold frame_in. by intros ->. Qed.

Lemma wp_page_zero s f :
  mem_ok s → frame_in s f →
  wp (page_zero (get_pt_virtual f)) s (λ _ s', wrote s s' f 0 1024 (λ _, 0)).
Proof.
  intros M Hf. unfold page_zero. rewrite (mem_window s f) by done.
  apply wp_wrote_loop; [lia|]. intros i s' Hi W.
  eapply (wp_stw s' _ f i); [by eapply frame_in_top; [apply (wr_top _ _ _ _ _ _ W)|]|done|done|].
  done.
Qed.

Lemma wp_page_copy s f g :
  mem_ok s → frame_in s f → frame_in s g → f ≠ g →
  wp (page_copy (f + KERNEL_BASE) (g + KERNEL_BASE)) s (λ _ s',
    wrote s s' f 0 1024 (λ i, words s (g + 4 * i))).
Proof.
  intros M Hf Hg Hne. apply wp_wrote_loop; [lia|]. intros i s' Hi W.
  pose proof (wr_top _ _ _ _ _ _ W) as Ht.
  apply wp_bind. eapply (wp_ldw s' _ g i); [by eapply frame_in_top|done|done|].
  eapply (wp_stw s' _ f i); [by eapply frame_in_top|done|done|].
  rewrite (wr_out _ _ _ _ _ _ W); [done|]. intros j Hj.
  destruct Hf as (? & ? & _), Hg as (? & ? & _). intros E.
  apply same_page in E; [|done|done|lia|lia]. lia.
Qed.

Lemma mem_ok_wrote s s' f st n val :
  mem_ok s → wrote s s' f st n val → (∀ i, 0 <= i < n → is_u32 (val i)) → mem_ok s'.
Proof.
  intros [H1 H2 H3] W Hv. split; [by rewrite (wr_falloc _ _ _ _ _ _ W)
    |by rewrite (wr_falloc _ _ _ _ _ _ W), (wr_top _ _ _ _ _ _ W)|].
  intros a. set (i := (a - f) / 4 - st).
  destruct (decide (a = f + 4 * (st + i) ∧ 0 <= i < n)) as [[E Hi]|Hn].
  - rewrite E, (wr_in _ _ _ _ _ _ W) by done. auto.
  - rewrite (wr_out _ _ _ _ _ _ W); [done|]. intros j Hj E. apply Hn.
    assert (i = j) as -> by lia. done.
Qed.

Lemma refs_wrote s s' f st n val g : wrote s s' f st n val → refs s' g = refs s g.
Proof. intros W. unfold refs. by rewrite (wr_falloc _ _ _ _ _ _ W). Qed.

(** Words of other pages. *)
Lemma wrote_elsewhere s s' f st n val g x :
  wrote s s' f st n val → f mod 4096 = 0 → g mod 4096 = 0 → 0 <= st → st + n <= 1024 →
  g ≠ f → 0 <= x < 4096 → words s' (g + x) = words s (g + x).
Proof.
  intros W Hf Hg H1 H2 Hne Hx. apply (wr_out _ _ _ _ _ _ W). intros i Hi E.
  apply same_page in E; [|done|done|lia|lia]. tauto.
Qed.

Section inside.
Context (s s' : Vm) (vm : arch_vm_t) (f st n : Z) (val : Z → Z).
Context (V : vm_ok s vm) (W : wrote s s' f st n val).
Context (Hf : f mod 4096 = 0) (Hst : 0 <= st) (Hn : 0 <= n) (Hend : st + n <= 1024).
Context (Hv : ∀ i, 0 <= i < n → is_u32 (val i)).

Lemma wrote_pde i : f ≠ pd_phys vm → 0 <= i < 1024 → pde s' vm i = pde s vm i.
Proof using V W Hf Hst Hend.
  intros Hne Hi. destruct (vo_pd_frame s vm V) as [(? & ? & _) _].
  eapply wrote_elsewhere; [exact W|done..|lia].
Qed.

Lemma wrote_vm_ok : f ≠ pd_phys vm → vm_ok s' vm.
Proof using All.
  intros Hne. pose proof (wr_top _ _ _ _ _ _ W) as Ht.
  assert (∀ g, frame_in s g → frame_in s' g) as Hin by (intros g; by apply frame_in_top).
  split.
  - eapply mem_ok_wrote; [apply V|exact W|done].
  - apply V.
  - rewrite (refs_wrote s s' _ _ _ _ _ W). destruct (vo_pd_frame s vm V). auto.
  - intros i Hi. unfold table. rewrite wrote_pde, (refs_wrote s s' _ _ _ _ _ W) by done.
    intros Hp. destruct (vo_table s vm V i Hi Hp) as (? & ? & ?). auto.
  - intros i j Hi Hj. unfold table. rewrite !wrote_pde by done. by apply (vo_inj s vm V).
Qed.

Lemma wrote_entry_out p :
  f ≠ pd_phys vm → 0 <= p < 1048576 → (present (pde s vm (p / 1024)) = true →
    table s vm (p / 1024) = f → ¬ (st <= p mod 1024 < st + n)) →
  entry s' vm p = entry s vm p.
Proof using All.
  intros Hne Hp Ho. unfold entry, table. rewrite wrote_pde by (done || lia).
  destruct (present _) eqn:E; [|done]. specialize (Ho eq_refl).
  fold (table s vm (p / 1024)). destruct (vo_table s vm V (p / 1024)) as ((_ & Ha & _) & _); [lia|done|].
  destruct (decide (table s vm (p / 1024) = f)) as [Ef|Hn'].
  - apply (wr_out _ _ _ _ _ _ W). intros i Hi. rewrite Ef. specialize (Ho Ef). lia.
  - eapply wrote_elsewhere; [exact W|done..|lia].
Qed.

Lemma wrote_entry_in i j :
  0 <= i < 1024 → present (pde s vm i) = true → table s vm i = f → 0 <= j < n →
  entry s' vm (1024 * i + (st + j)) = val j.
Proof using All.
  intros Hi Hp Ef Hj. destruct (vo_table s vm V i Hi Hp) as (_ & _ & Hne). rewrite Ef in Hne.
  unfold entry, table.
  replace ((1024 * i + (st + j)) / 1024) with i by lia.
  replace ((1024 * i + (st + j)) mod 1024) with (st + j) by lia.
  rewrite wrote_pde by done. rewrite Hp. fold (table s vm i). rewrite Ef. by apply W.
Qed.
End inside.

(* ------------------------------------------------------------------ *)
(** ** Page tables on demand *)

(** The frames that can be had, and none being left. *)
Definition avail (s : Vm) (g : Z) : Prop := fa_avail (falloc s) g.
Definition exhausted (s : Vm) : Prop := ∀ g, ¬ avail s g.

Lemma wp_pmm_alloc s (Q : Z → Vm → Prop) :
  mem_ok s → (exhausted s → Q 0 s) →
  (∀ f s', words s' = words s → top s' = top s → mem_ok s' → frame_in s' f →
     refs s f = 0 → refs s' f = 1 → (∀ g, g ≠ f → refs s' g = refs s g) →
     (∀ g, avail s' g ↔ g ≠ f ∧ avail s g) → Q f s') →
  wp pmm_alloc s Q.
Proof.
  intros [Ha Ht Hw] H0 H1. apply wp_zoom. eapply wp_mono; [by apply fa_alloc_ok|].
  intros f a (Hi & Hl & [(-> & -> & He)|(_ & Hr & Hr' & Hu & Hav)]).
  - destruct s. by apply H0.
  - destruct (fa_owned a f Hi ltac:(lia)) as (? & ? & ?). unfold PAGE in *. apply H1; try done.
    + split; [done|simpl; lia|done].
    + unfold frame_in. simpl. lia.
    + intros g Hg. by apply (refs_upd_ne _ _ _ _ _ Hu).
Qed.

(** What adding mappings to [vm] may do: take free frames for tables of
    [vm] and write in pages of [vm]. *)
Record map_step (vm : arch_vm_t) (s s' : Vm) : Prop := {
  ms_vm : vm_ok s' vm;
  ms_top : top s' = top s;
  ms_refs : ∀ g, 0 < refs s g → refs s' g = refs s g;
  ms_new : ∀ g, refs s g = 0 → refs s' g = 0 ∨ refs s' g = 1 ∧ part_of s' vm g;
  ms_parts : ∀ g, part_of s vm g → part_of s' vm g;
  ms_grow : ∀ g, part_of s' vm g → part_of s vm g ∨ ¬ 0 < refs s g;
  ms_words : ∀ g x, g mod 4096 = 0 → 0 <= x < 4096 → ¬ part_of s' vm g →
    words s' (g + x) = words s (g + x);
  ms_avail : ∀ g, avail s g → avail s' g ∨ part_of s' vm g
}.

Lemma map_step_refl vm s : vm_ok s vm → map_step vm s s.
Proof. intros V. split; auto. Qed.

Lemma refs_nonneg s g : mem_ok s → 0 <= refs s g.
Proof. intros M. apply (fa_bound (falloc s) g), M. Qed.

Lemma map_step_trans vm s1 s2 s3 : map_step vm s1 s2 → map_step vm s2 s3 → map_step vm s1 s3.
Proof.
  intros [V1 T1 R1 N1 P1 G1 W1 A1] [V2 T2 R2 N2 P2 G2 W2 A2]. split; [done|congruence|..].
  - intros g Hg. rewrite R2; [by apply R1|]. by rewrite R1.
  - intros g Hg. destruct (N1 g Hg) as [H|[H Hp]]; [by apply N2|].
    right. split; [by rewrite R2; [|lia]|by apply P2].
  - auto.
  - intros g Hg. destruct (G2 g Hg) as [H|H]; [by apply G1|]. right. intros Hr.
    apply H. by rewrite R1.
  - intros g x Hg Hx Hn. rewrite W2 by done. apply W1; auto.
  - intros g Hg. destruct (A1 g Hg) as [|]; auto.
Qed.

Lemma part_frame s vm g : vm_ok s vm → part_of s vm g → frame_in s g ∧ 0 < refs s g.
Proof.
  intros V [->|(i & Hi & Hp & ->)]; [apply V|].
  destruct (vo_table s vm V i Hi Hp) as (? & ? & _). done.
Qed.

Section create.
Context (s s1 s2 s3 : Vm) (vm : arch_vm_t) (f i fl : Z).
Context (V : vm_ok s vm) (Hi : 0 <= i < 1024) (Habs : present (pde s vm i) = false).
Context (Ew : words s1 = words s) (Et : top s1 = top s) (M1 : mem_ok s1) (Hf : frame_in s1 f).
Context (Hfree : refs s f = 0) (Hone : refs s1 f = 1) (Hrest : ∀ g, g ≠ f → refs s1 g = refs s g).
Context (Hav : ∀ g, avail s1 g ↔ g ≠ f ∧ avail s g).
Context (W2 : wrote s1 s2 f 0 1024 (λ _, 0)).
Context (W3 : wrote s2 s3 (pd_phys vm) i 1 (λ _, pde_word f fl)).

Lemma create_fresh g : part_of s vm g → g ≠ f.
Proof using All. intros Hp ->. destruct (part_frame s vm f V Hp). lia. Qed.

Lemma create_page g x :
  g mod 4096 = 0 → 0 <= x < 4096 → g ≠ f → g ≠ pd_phys vm → words s3 (g + x) = words s (g + x).
Proof using All.
  intros Hg Hx H1 H2. destruct (vo_pd_frame s vm V) as [(_ & ? & _) _].
  rewrite (wrote_elsewhere s2 s3 _ _ _ _ g x W3) by (done || lia).
  rewrite (wrote_elsewhere s1 s2 _ _ _ _ g x W2) by (done || lia || apply Hf). by rewrite Ew.
Qed.

Lemma create_pde j : 0 <= j < 1024 → pde s3 vm j = if decide (j = i) then pde_word f fl else pde s vm j.
Proof using All.
  intros Hj. unfold pde. case_decide as E.
  - subst. rewrite <- (wr_in _ _ _ _ _ _ W3 0) by lia. by rewrite Z.add_0_r.
  - rewrite (wr_out _ _ _ _ _ _ W3) by lia. destruct (vo_pd_frame s vm V) as [(_ & ? & _) _].
    rewrite (wrote_elsewhere s1 s2 _ _ _ _ _ _ W2); [by rewrite Ew|apply Hf|done|lia|lia| |lia].
    apply create_fresh. by left.
Qed.

Lemma create_frame_in g : frame_in s g → frame_in s3 g.
Proof using All.
  apply frame_in_top. by rewrite (wr_top _ _ _ _ _ _ W3), (wr_top _ _ _ _ _ _ W2).
Qed.

Lemma create_refs g : refs s3 g = if decide (g = f) then 1 else refs s g.
Proof using All.
  rewrite (refs_wrote s2 s3 _ _ _ _ _ W3), (refs_wrote s1 s2 _ _ _ _ _ W2).
  case_decide; [by subst|auto].
Qed.

Lemma create_word : is_u32 (pde_word f fl) ∧ page_of (pde_word f fl) = f ∧ present (pde_word f fl) = true.
Proof using All.
  apply pde_word_ok; [by apply (frame_u32 s1)|apply Hf].
Qed.

Lemma create_table j :
  0 <= j < 1024 → present (pde s3 vm j) = true →
  j = i ∧ table s3 vm j = f ∨ j ≠ i ∧ present (pde s vm j) = true ∧ table s3 vm j = table s vm j.
Proof using All.
  intros Hj. unfold table. rewrite create_pde by done.
  case_decide; [left; split; [done|apply create_word]|right; done].
Qed.

Lemma create_vm_ok : vm_ok s3 vm.
Proof using All.
  destruct create_word as (Hw & Hp & _).
  assert (frame_in s3 f) as Hf3.
  { apply create_frame_in. by eapply frame_in_top. }
  split.
  - eapply mem_ok_wrote; [|exact W3|done]. eapply mem_ok_wrote; [exact M1|exact W2|ulia].
  - apply V.
  - rewrite create_refs. destruct (vo_pd_frame s vm V). split; [by apply create_frame_in|].
    case_decide; lia.
  - intros j Hj Hpj. rewrite create_refs. destruct (create_table j Hj Hpj) as [[-> ->]|(Hne & Hpo & ->)].
    + rewrite decide_True by done. split_and!; [done|lia|]. apply not_eq_sym, create_fresh. by left.
    + destruct (vo_table s vm V j Hj Hpo) as (? & ? & ?). split_and!; [by apply create_frame_in| |done].
      case_decide; lia.
  - intros j k Hj Hk Hpj Hpk.
    destruct (create_table j Hj Hpj) as [[-> ->]|(Hne & Hpo & ->)],
      (create_table k Hk Hpk) as [[-> ->]|(Hne' & Hpo' & ->)]; [done|..].
    + intros E. destruct (create_fresh (table s vm k)); [right; eauto|done].
    + intros E. destruct (create_fresh (table s vm j)); [right; eauto|done].
    + by apply (vo_inj s vm V).
Qed.

Lemma create_entry p : 0 <= p < 1048576 → entry s3 vm p = entry s vm p.
Proof using All.
  intros Hp. unfold entry. destruct (present (pde s3 vm (p / 1024))) eqn:E3.
  - destruct (create_table (p / 1024) ltac:(lia) E3) as [[E ->]|(Hne & Hpo & ->)].
    + rewrite E, Habs. destruct (vo_pd_frame s vm V) as [(_ & ? & _) _].
      rewrite (wrote_elsewhere s2 s3 _ _ _ _ _ _ W3); [|done|apply Hf|lia|lia| |lia].
      * rewrite <- (wr_in _ _ _ _ _ _ W2 (p mod 1024)) by lia. do 2 f_equal.
      * apply not_eq_sym, create_fresh. by left.
    + rewrite Hpo. destruct (vo_table s vm V (p / 1024) ltac:(lia) Hpo) as ((_ & ? & _) & ? & ?).
      apply create_page; [done|lia| |done]. intros Ef. rewrite Ef in *. lia.
  - rewrite create_pde in E3 by lia. case_decide.
    + destruct create_word as (_ & _ & Hc). congruence.
    + by rewrite E3.
Qed.

Lemma create_step : map_step vm s s3.
Proof using All.
  assert (part_of s3 vm f) as Hpf.
  { right. exists i. unfold table. rewrite create_pde, decide_True by done.
    destruct create_word as (_ & ? & ?). done. }
  split.
  - apply create_vm_ok.
  - by rewrite (wr_top _ _ _ _ _ _ W3), (wr_top _ _ _ _ _ _ W2).
  - intros g Hg. rewrite create_refs. case_decide; [subst; lia|done].
  - intros g Hg. rewrite create_refs. case_decide; [subst; auto|auto].
  - intros g [->|(j & Hj & Hp & ->)]; [by left|]. right. exists j.
    assert (j ≠ i) by congruence. unfold table. rewrite create_pde, decide_False by done. done.
  - intros g [->|(j & Hj & Hp & ->)]; [left; by left|].
    destruct (create_table j Hj Hp) as [[-> ->]|(Hne & Hpo & ->)]; [right; lia|left; right; eauto].
  - intros g x Hg Hx Hn. apply create_page; [done|done| |].
    + intros ->. done.
    + intros ->. apply Hn. by left.
  - intros g Hg. destruct (decide (g = f)) as [->|Hne]; [by right|left]. unfold avail.
    rewrite (wr_falloc _ _ _ _ _ _ W3), (wr_falloc _ _ _ _ _ _ W2). by apply Hav.
Qed.
End create.

Lemma wp_get_or_create s vm i fl :
  vm_ok s vm → 0 <= i < 1024 →
  wp (get_or_create_page_table (pd vm) i fl) s (λ pt s',
    (pt = 0 ∧ s' = s ∧ exhausted s) ∨
    (map_step vm s s' ∧ present (pde s' vm i) = true ∧ pt = table s' vm i ∧ pt ≠ 0 ∧
     ∀ p, 0 <= p < 1048576 → entry s' vm p = entry s vm p)).
Proof.
  intros V Hi. destruct (vo_pd_frame s vm V) as [Hpf _]. pose proof (vo_mem s vm V) as M.
  apply wp_bind. apply (wp_ldw s _ (pd_phys vm) i); [done|done|by rewrite (vo_pd s vm V)|].
  fold (pde s vm i) (present (pde s vm i)). destruct (present (pde s vm i)) eqn:E.
  { apply wp_ret. right. fold (table s vm i). destruct (vo_table s vm V i Hi E) as (_ & ?%refs_pos & _); [|done].
    split_and!; [by apply map_step_refl|done|done|lia|done]. }
  apply wp_bind. unfold allocate_page_table. apply wp_bind, wp_pmm_alloc; [done|..].
  { intros He. simpl. apply wp_ret. simpl. apply wp_ret. by left. }
  intros f s1 Ew Et M1 Hf Hfree Hone Hrest Hav.
  assert (f =? 0 = false) as Hf0 by (apply Z.eqb_neq, Z.neq_sym, Z.lt_neq, (refs_pos s1); [done|lia]).
  rewrite Hf0.
  apply wp_bind. eapply wp_mono; [by apply wp_page_zero|]. intros [] s2 W2. apply wp_ret.
  rewrite Hf0. apply wp_bind. eapply (wp_stw s2 _ (pd_phys vm) i);
    [|done|by rewrite (vo_pd s vm V)|].
  { eapply frame_in_top; [|exact Hpf]. by rewrite (wr_top _ _ _ _ _ _ W2). }
  intros s3 W3. apply wp_ret. right. fold (pde_word f fl) in W3.
  pose proof (create_step s s1 s2 s3 vm f i fl V Hi E Ew Et M1 Hf Hfree Hone Hrest Hav W2 W3) as St3.
  pose proof (create_pde s s1 s2 s3 vm f i fl V Hi E Ew Et M1 Hf Hfree Hone Hrest Hav W2 W3 i Hi) as Ep.
  rewrite decide_True in Ep by done.
  destruct (create_word s s1 s2 s3 vm f i fl V Hi E Ew Et M1 Hf Hfree Hone Hrest Hav W2 W3) as (_ & Hpo & Hpr).
  unfold table. rewrite Ep. split_and!; [done|done|done|by apply Z.eqb_neq|].
  by apply (create_entry s s1 s2 s3 vm f i fl).
Qed.

(* ------------------------------------------------------------------ *)
(** ** Mapping a range *)

Lemma wrote_parts s s' vm f st n val g :
  vm_ok s vm → wrote s s' f st n val → f mod 4096 = 0 → f ≠ pd_phys vm →
  0 <= st → st + n <= 1024 → part_of s' vm g ↔ part_of s vm g.
Proof.
  intros V W Hf Hne H1 H3. unfold part_of. apply or_iff_compat_l.
  split; intros (i & Hi & Hp & ->); exists i; unfold table in *;
    rewrite (wrote_pde s s' vm f st n val) in * by done; done.
Qed.

Lemma wrote_map_step s s' vm f st n val :
  vm_ok s vm → wrote s s' f st n val → part_of s vm f → f ≠ pd_phys vm →
  0 <= st → 0 <= n → st + n <= 1024 → (∀ i, 0 <= i < n → is_u32 (val i)) → map_step vm s s'.
Proof.
  intros V W Hp Hne H1 H2 H3 Hv. destruct (part_frame s vm f V Hp) as [(_ & Hf & _) _].
  assert (∀ g, part_of s vm g → part_of s' vm g) as Hparts.
  { intros g [->|(i & Hi & Hpi & ->)]; [by left|]. right. exists i. unfold table.
    rewrite (wrote_pde s s' vm f st n val) by done. done. }
  split.
  - by apply (wrote_vm_ok s s' vm f st n val).
  - apply W.
  - intros g _. by apply (refs_wrote s s' _ _ _ _ _ W).
  - intros g Hg. left. by rewrite (refs_wrote s s' _ _ _ _ _ W).
  - done.
  - intros g Hg. left. by apply (wrote_parts s s' vm f st n val g V W Hf).
  - intros g x Hg Hx Hn. eapply wrote_elsewhere; [exact W|done..| |done]. intros ->. auto.
  - intros g Hg. left. unfold avail. by rewrite (wr_falloc _ _ _ _ _ _ W).
Qed.

Lemma wp_fill s f st n pa fl :
  mem_ok s → frame_in s f → 0 <= st → 0 <= n → st + n <= 1024 →
  wp (fill_page_table_entries (get_pt_virtual f) st n pa fl) s (λ _ s',
    wrote s s' f st n (λ i, pte_word (u32 (pa + i * 4096)) fl)).
Proof.
  intros M Hf H1 H2 H3. unfold fill_page_table_entries. rewrite (mem_window s f) by done.
  apply wp_wrote_loop; [lia|]. intros i s' Hi W.
  eapply (wp_stw s' _ f (st + i)); [|lia|done|done].
  by eapply frame_in_top; [apply (wr_top _ _ _ _ _ _ W)|].
Qed.

(** The mappings of [n] pages from page number [v] on. *)
Definition mapped_to (s : Vm) (vm : arch_vm_t) (s' : Vm) (v n : Z) (pa fl : Z) : Prop :=
  ∀ p, 0 <= p < 1048576 →
    entry s' vm p = if bool_decide (v <= p < v + n)
                    then pte_word (u32 (pa + (p - v) * 4096)) fl else entry s vm p.

Lemma u32_aligned x : x mod 4096 = 0 → is_u32 (u32 x) ∧ u32 x mod 4096 = 0.
Proof. intros H. ulia. Qed.

Lemma wp_map_page_table_range s vm i st n pa fl :
  vm_ok s vm → 0 <= i < 1024 → 0 <= st → 0 <= n → st + n <= 1024 → pa mod 4096 = 0 →
  wp (map_page_table_range (pd vm) i st n pa fl) s (λ ok s',
    if ok then map_step vm s s' ∧ mapped_to s vm s' (1024 * i + st) n pa fl else s' = s ∧ exhausted s).
Proof.
  intros V Hi H1 H2 H3 Hpa. apply wp_bind. eapply wp_mono; [by apply wp_get_or_create|].
  intros pt s1 [(-> & -> & Hx)|(S1 & Hp & -> & Hnz & He)]; [by apply wp_ret|].
  rewrite (proj2 (Z.eqb_neq _ _) Hnz). pose proof (ms_vm _ _ _ S1) as V1.
  destruct (vo_table s1 vm V1 i Hi Hp) as (Hf & _ & Hne).
  assert (∀ j, is_u32 (pte_word (u32 (pa + j * 4096)) fl)) as Hu.
  { intros j. apply pte_word_ok; apply u32_aligned; lia. }
  apply wp_bind. eapply wp_mono; [by apply wp_fill; [apply V1|..]|]. intros [] s2 W.
  apply wp_ret. split.
  - eapply map_step_trans; [exact S1|]. eapply wrote_map_step; try done; [right; eauto|]. intros; apply Hu.
  - intros p Hpr. case_bool_decide as Hin.
    + replace p with (1024 * i + (st + (p - (1024 * i + st)))) at 1 by lia.
      apply (wrote_entry_in s1 s2 vm _ st n _ V1 W (proj1 (proj2 Hf)) H1 H2 H3 (λ j _, Hu j));
        [done|done|done|lia].
    + rewrite <- He by done.
      apply (wrote_entry_out s1 s2 vm _ st n _ V1 W (proj1 (proj2 Hf)) H1 H2 H3 (λ j _, Hu j));
        [done|done|].
      intros Hpp Et. apply (vo_inj s1 vm V1) in Et; [|lia|done|done|done]. lia.
Qed.

Lemma page_index v :
  0 <= v < 1048576 → get_pd_index (4096 * v) = v / 1024 ∧ get_pt_index (4096 * v) = v mod 1024.
Proof.
  intros Hv. unfold get_pd_index, get_pt_index. rewrite !Z.shiftr_div_pow2 by lia.
  change 1023 with (Z.ones 10). rewrite Z.land_ones by lia.
  change (2 ^ 22) with 4194304. change (2 ^ 12) with 4096. change (2 ^ 10) with 1024. lia.
Qed.

Lemma chunk_eq v e :
  0 <= v < e → e < 1048576 → chunk (4096 * v) (4096 * e) = Z.min (1024 - v mod 1024) (e - v).
Proof.
  intros Hv He. unfold chunk. destruct (page_index v) as [_ ->]; [lia|].
  unfold MIN, pt_pages_remaining, PT_ENTRIES, PAGE_SIZE. rewrite !u32_small by ulia.
  replace ((4096 * e - 4096 * v) / 4096) with (e - v) by lia. case_match; lia.
Qed.

(** The turns left: one for each page table the rest of the range meets. *)
Definition turns (v e : Z) : nat := if v <? e then Z.to_nat ((e - 1) / 1024 - v / 1024 + 1) else 0%nat.

Lemma turns_next v e :
  0 <= v < e → (turns (v + Z.min (1024 - v mod 1024) (e - v)) e < turns v e)%nat.
Proof. intros Hv. unfold turns. repeat case_match; lia. Qed.

Lemma turns_fuel v e : 0 <= v → e < 1048576 → (turns v e < range_fuel)%nat.
Proof. intros. unfold turns, range_fuel. case_match; lia. Qed.

Lemma mapped_to_nil s vm v pa fl : mapped_to s vm s v 0 pa fl.
Proof. intros p Hp. rewrite bool_decide_eq_false_2; [done|lia]. Qed.

Lemma mapped_to_app s1 s2 s3 vm v n m pa fl :
  0 <= n → 0 <= m → mapped_to s1 vm s2 v n pa fl →
  mapped_to s2 vm s3 (v + n) m (u32 (pa + n * 4096)) fl → mapped_to s1 vm s3 v (n + m) pa fl.
Proof.
  intros Hn Hm H1 H2 p Hp. rewrite H2, H1 by done.
  repeat case_bool_decide; try lia; try done. f_equal. ulia.
Qed.

Lemma page_bool v : is_aligned (4096 * v) PAGE_SIZE = true.
Proof. rewrite (is_aligned_mod _ _ pow2_page). apply Z.eqb_eq. lia. Qed.

(** The loop reaches page [v1]: the end, or where a table could not be had. *)
Lemma wp_hal_vm_map_range s vm pa v n flags :
  vm_ok s vm → 0 <= v → 0 < n → v + n < 1048576 → is_u32 pa → pa mod 4096 = 0 →
  wp (hal_vm_map_range vm pa (4096 * v) (4096 * n) flags) s (λ ok s',
    map_step vm s s' ∧ ∃ k, 0 <= k <= n ∧ (ok = true ↔ k = n) ∧ (ok = false → exhausted s') ∧
    mapped_to s vm s' v k pa (public_flags_to_arch_flags flags)).
Proof.
  intros V Hv Hn He Hu Hpa. unfold hal_vm_map_range.
  rewrite (proj2 (Z.eqb_neq (4096 * n) 0)) by lia.
  apply wp_bind, wp_assert; [apply page_bool|].
  apply wp_bind, wp_assert; [rewrite (is_aligned_mod _ _ pow2_page); by apply Z.eqb_eq|].
  apply wp_bind, wp_assert; [apply page_bool|].
  replace (u32 (4096 * v + 4096 * n)) with (4096 * (v + n)) by ulia.
  set (fl := public_flags_to_arch_flags flags).
  apply (wp_while_n (λ t '(va, pa') s1, ∃ k, 0 <= k <= n ∧ va = 4096 * (v + k) ∧
    pa' = u32 (pa + k * 4096) ∧ t = turns (v + k) (v + n) ∧
    map_step vm s s1 ∧ mapped_to s vm s1 v k pa fl) _ _ _ (turns v (v + n))).
  { exists 0. rewrite !Z.add_0_r. split_and!; [lia..|by rewrite u32_small|done|by apply map_step_refl|].
    apply mapped_to_nil. }
  { apply turns_fuel; lia. }
  intros t [va pa'] s1 (k & Hk & -> & -> & -> & S1 & Mp).
  destruct (Z.ltb_spec (4096 * (v + k)) (4096 * (v + n))) as [Hlt|Hge].
  - rewrite chunk_eq by lia. destruct (page_index (v + k)) as [-> ->]; [lia|].
    set (c := Z.min (1024 - (v + k) mod 1024) (v + n - (v + k))).
    apply wp_bind. eapply wp_mono.
    { apply wp_map_page_table_range; [apply S1|lia|lia|lia|lia|]. apply u32_aligned. lia. }
    intros [] s2 H; apply wp_ret.
    + destruct H as [S2 Mp2]. exists (turns (v + k + c) (v + n)).
      split; [apply turns_next; lia|]. exists (k + c). unfold PAGE_SIZE.
      split_and!; [lia|lia|ulia|ulia|f_equal; lia| |].
      * by eapply map_step_trans.
      * eapply mapped_to_app; [lia|lia|exact Mp|].
        by replace (1024 * ((v + k) / 1024) + (v + k) mod 1024) with (v + k) in Mp2 by lia.
    + destruct H as [-> Hx]. split; [done|]. exists k. split_and!; [lia|lia| |done|done]. split; [done|lia].
  - apply wp_ret. split; [done|]. exists k. split_and!; [lia|lia| |done|done]. split; [lia|done].
Qed.

(* ------------------------------------------------------------------ *)
(** ** Unmapping a range *)

Lemma wp_pmm_free s g (Q : unit → Vm → Prop) :
  mem_ok s → 0 < refs s g →
  (∀ s', words s' = words s → top s' = top s → mem_ok s' →
     refs s' g = refs s g - 1 → (∀ h, h ≠ g → refs s' h = refs s h) →
     (∀ h, avail s' h ↔ (h = g ∧ refs s g = 1) ∨ avail s h) → Q tt s') →
  wp (pmm_free g) s Q.
Proof.
  intros [Ha Ht Hw] Hg HQ. apply wp_zoom. eapply wp_mono; [by apply fa_free_ok|].
  intros [] a (Hi & Hl & Hu & Hav). apply HQ; try done.
  - split; [done|simpl; lia|done].
  - by apply (refs_upd_eq _ _ _ _ Hu).
  - intros h Hh. by apply (refs_upd_ne _ _ _ _ _ Hu).
Qed.

(** What removing mappings of [vm] may do: give tables of [vm] back and write
    in pages of [vm]. *)
Record unmap_step (vm : arch_vm_t) (s s' : Vm) : Prop := {
  us_vm : vm_ok s' vm;
  us_top : top s' = top s;
  us_refs : ∀ g, refs s' g = refs s g ∨
    refs s' g = refs s g - 1 ∧ part_of s vm g ∧ ¬ part_of s' vm g;
  us_parts : ∀ g, part_of s' vm g → part_of s vm g;
  us_keep : ∀ g, part_of s vm g → part_of s' vm g ∨ refs s' g = refs s g - 1;
  us_words : ∀ g x, g mod 4096 = 0 → 0 <= x < 4096 → ¬ part_of s vm g →
    words s' (g + x) = words s (g + x)
}.

Lemma unmap_step_refl vm s : vm_ok s vm → unmap_step vm s s.
Proof. intros V. split; auto. Qed.

Lemma unmap_step_trans vm s1 s2 s3 :
  unmap_step vm s1 s2 → unmap_step vm s2 s3 → unmap_step vm s1 s3.
Proof.
  intros [V1 T1 R1 P1 K1 W1] [V2 T2 R2 P2 K2 W2]. split; [done|congruence|..].
  - intros g. destruct (R1 g) as [H1|(H1 & Ha & Hb)], (R2 g) as [H2|(H2 & Hc & Hd)].
    + left. lia.
    + right. split_and!; [lia|by apply P1|done].
    + right. split_and!; [lia|done|]. intros Hp. by apply Hb, P2.
    + done.
  - auto.
  - intros g Hg. destruct (R1 g) as [H1|(H1 & _ & Hb)], (R2 g) as [H2|(H2 & Hc & _)];
      [|right; lia|right; lia|done].
    destruct (K1 g Hg) as [Hp|?]; [|lia]. destruct (K2 g Hp); [auto|lia].
  - intros g x Hg Hx Hn. rewrite W2; [by apply W1|done|done|]. auto.
Qed.

Definition cleared (x : Z) : Z := if present x then 0 else x.

Lemma wp_clear s f st n :
  mem_ok s → frame_in s f → 0 <= st → 0 <= n → st + n <= 1024 →
  wp (clear_page_table_entries (get_pt_virtual f) st n) s (λ _ s',
    wrote s s' f st n (λ i, cleared (words s (f + 4 * (st + i))))).
Proof.
  intros M Hf H1 H2 H3. unfold clear_page_table_entries. rewrite (mem_window s f) by done.
  apply wp_wrote_loop; [lia|]. intros i s' Hi W. pose proof (wr_top _ _ _ _ _ _ W) as Ht.
  apply wp_bind. eapply (wp_ldw s' _ f (st + i)); [by eapply frame_in_top|lia|done|].
  rewrite (wr_out _ _ _ _ _ _ W) by lia. unfold cleared.
  fold (present (words s (f + 4 * (st + i)))).
  destruct (present (words s (f + 4 * (st + i)))) eqn:E; simpl.
  - eapply (wp_stw s' _ f (st + i)); [by eapply frame_in_top|lia|done|done].
  - apply wp_ret. split; [done|done| |done]. intros j Hj. replace (st + i + j) with (st + i) by lia.
    apply (wr_out _ _ _ _ _ _ W). lia.
Qed.

(** Dropping table [i] of the directory. *)
Section drop.
Context (s1 s2 s3 : Vm) (vm : arch_vm_t) (i : Z).
Context (V : vm_ok s1 vm) (Hi : 0 <= i < 1024) (Hp : present (pde s1 vm i) = true).
Context (Ew : words s2 = words s1) (Et : top s2 = top s1) (M2 : mem_ok s2).
Context (Hdec : refs s2 (table s1 vm i) = refs s1 (table s1 vm i) - 1).
Context (Hrest : ∀ g, g ≠ table s1 vm i → refs s2 g = refs s1 g).
Context (W3 : wrote s2 s3 (pd_phys vm) i 1 (λ _, 0)).

Lemma drop_pde j : 0 <= j < 1024 → pde s3 vm j = if decide (j = i) then 0 else pde s1 vm j.
Proof using All.
  intros Hj. unfold pde. case_decide as E.
  - subst. rewrite <- (wr_in _ _ _ _ _ _ W3 0) by lia. by rewrite Z.add_0_r.
  - rewrite (wr_out _ _ _ _ _ _ W3) by lia. by rewrite Ew.
Qed.

Lemma drop_table j :
  0 <= j < 1024 → present (pde s3 vm j) = true →
  j ≠ i ∧ present (pde s1 vm j) = true ∧ table s3 vm j = table s1 vm j.
Proof using All.
  intros Hj. unfold table. rewrite drop_pde by done. case_decide; [done|]. done.
Qed.

Lemma drop_refs g : refs s3 g = refs s2 g.
Proof using All. apply (refs_wrote s2 s3 _ _ _ _ _ W3). Qed.

Lemma drop_frame_in g : frame_in s1 g → frame_in s3 g.
Proof using All. apply frame_in_top. by rewrite (wr_top _ _ _ _ _ _ W3). Qed.

Lemma drop_vm_ok : vm_ok s3 vm.
Proof using All.
  destruct (vo_table s1 vm V i Hi Hp) as (_ & _ & Hne). split.
  - eapply mem_ok_wrote; [exact M2|exact W3|ulia].
  - apply V.
  - rewrite drop_refs, Hrest by done. destruct (vo_pd_frame s1 vm V). split; [by apply drop_frame_in|done].
  - intros j Hj Hpj. destruct (drop_table j Hj Hpj) as (Hji & Hpo & ->).
    destruct (vo_table s1 vm V j Hj Hpo) as (? & ? & ?). rewrite drop_refs, Hrest.
    + split_and!; [by apply drop_frame_in|done|done].
    + intros E. apply Hji. by apply (vo_inj s1 vm V).
  - intros j k Hj Hk Hpj Hpk. destruct (drop_table j Hj Hpj) as (_ & Hpo & ->),
      (drop_table k Hk Hpk) as (_ & Hpo' & ->). by apply (vo_inj s1 vm V).
Qed.

Lemma drop_entry p :
  0 <= p < 1048576 → entry s3 vm p = if decide (p / 1024 = i) then 0 else entry s1 vm p.
Proof using All.
  intros Hr. unfold entry. rewrite drop_pde by lia. case_decide; [done|].
  destruct (present (pde s1 vm (p / 1024))) eqn:E; [|done].
  unfold table. rewrite drop_pde, decide_False by (done || lia). fold (table s1 vm (p / 1024)).
  destruct (vo_table s1 vm V (p / 1024) ltac:(lia) E) as ((_ & ? & _) & _ & ?).
  destruct (vo_pd_frame s1 vm V) as [(_ & ? & _) _].
  rewrite (wrote_elsewhere s2 s3 _ _ _ _ _ _ W3) by (done || lia). by rewrite Ew.
Qed.

Lemma drop_step : unmap_step vm s1 s3.
Proof using All.
  destruct (vo_table s1 vm V i Hi Hp) as (_ & _ & Hne).
  destruct (vo_pd_frame s1 vm V) as [(_ & ? & _) _].
  split.
  - apply drop_vm_ok.
  - by rewrite (wr_top _ _ _ _ _ _ W3).
  - intros g. rewrite drop_refs. destruct (decide (g = table s1 vm i)) as [->|]; [|auto].
    right. split_and!; [done|right; eauto|]. intros [E|(j & Hj & Hpj & E)]; [done|].
    destruct (drop_table j Hj Hpj) as (Hji & Hpo & Et'). rewrite Et' in E.
    apply (vo_inj s1 vm V) in E; done.
  - intros g [->|(j & Hj & Hpj & ->)]; [by left|]. right. exists j.
    destruct (drop_table j Hj Hpj) as (_ & ? & ?). done.
  - intros g [->|(j & Hj & Hpj & ->)]; [left; by left|]. destruct (decide (j = i)) as [->|Hji].
    + right. by rewrite drop_refs.
    + left. right. exists j. unfold table. rewrite drop_pde, decide_False by done. done.
  - intros g x Hg Hx Hn. rewrite (wrote_elsewhere s2 s3 _ _ _ _ _ _ W3); [by rewrite Ew|..]; try done; try lia.
    intros ->. apply Hn. by left.
Qed.
End drop.

(** No table was given back. *)
Definition kept (vm : arch_vm_t) (s s' : Vm) : Prop :=
  ∀ g, refs s' g = refs s g ∧ (part_of s vm g → part_of s' vm g).

Lemma kept_trans vm s1 s2 s3 : kept vm s1 s2 → kept vm s2 s3 → kept vm s1 s3.
Proof. intros H1 H2 g. destruct (H1 g), (H2 g). split; [congruence|auto]. Qed.

Definition unmapped (s : Vm) (vm : arch_vm_t) (s' : Vm) (v n : Z) : Prop :=
  ∀ p, 0 <= p < 1048576 →
    if bool_decide (v <= p < v + n) then present (entry s' vm p) = false
    else entry s' vm p = entry s vm p.

Lemma unmapped_trans s1 s2 s3 vm v n m :
  0 <= n → 0 <= m → unmapped s1 vm s2 v n → unmapped s2 vm s3 (v + n) m →
  unmapped s1 vm s3 v (n + m).
Proof.
  intros Hn Hm H1 H2 p Hp. specialize (H1 p Hp). specialize (H2 p Hp).
  repeat case_bool_decide; try lia; congruence.
Qed.

Lemma cleared_absent x : present (cleared x) = false.
Proof. unfold cleared. destruct (present x) eqn:E; done. Qed.

Lemma wp_unmap_page_table_range s vm i st n :
  vm_ok s vm → 0 <= i < 1024 → 0 <= st → 0 <= n → st + n <= 1024 →
  (st = 0 → n = 1024 → i < KERNEL_PD_START) →
  wp (unmap_page_table_range (pd vm) i st n) s (λ _ s',
    unmap_step vm s s' ∧ unmapped s vm s' (1024 * i + st) n ∧ (n < 1024 → kept vm s s')).
Proof.
  intros V Hi H1 H2 H3 Hk. destruct (vo_pd_frame s vm V) as [Hpf _]. pose proof (vo_mem s vm V) as M.
  apply wp_bind. apply (wp_ldw s _ (pd_phys vm) i); [done|done|by rewrite (vo_pd s vm V)|].
  fold (pde s vm i) (present (pde s vm i)). destruct (present (pde s vm i)) eqn:E; simpl.
  2:{ apply wp_ret. split; [by apply unmap_step_refl|]. split; [|done].
      intros p Hp. case_bool_decide; [|done]. unfold entry. replace (p / 1024) with i by lia. by rewrite E. }
  fold (table s vm i). destruct (vo_table s vm V i Hi E) as (Hf & Hr & Hne).
  assert (part_of s vm (table s vm i)) as Hpart by (right; eauto).
  apply wp_bind. eapply wp_mono; [by apply wp_clear|]. intros [] s1 W.
  assert (∀ j, 0 <= j < n → is_u32 (cleared (words s (table s vm i + 4 * (st + j))))) as Hu.
  { intros j _. unfold cleared. case_match; [ulia|apply M]. }
  pose proof (wrote_vm_ok s s1 vm _ st n _ V W (proj1 (proj2 Hf)) H1 H2 H3 Hu Hne) as V1.
  assert (unmap_step vm s s1) as S1.
  { split; [done|apply W|..].
    - intros g. left. by apply (refs_wrote s s1 _ _ _ _ _ W).
    - intros g. by apply (wrote_parts s s1 vm _ st n _ g V W (proj1 (proj2 Hf))).
    - intros g Hg. left. by apply (wrote_parts s s1 vm _ st n _ g V W (proj1 (proj2 Hf))).
    - intros g x Hg Hx Hn. eapply wrote_elsewhere; [exact W|apply Hf|done..| |done]. by intros ->. }
  assert (unmapped s vm s1 (1024 * i + st) n) as U1.
  { intros p Hp. case_bool_decide as Hin.
    - replace p with (1024 * i + (st + (p - (1024 * i + st)))) by lia.
      rewrite (wrote_entry_in s s1 vm _ st n _ V W (proj1 (proj2 Hf)) H1 H2 H3 Hu); [|done..|lia].
      apply cleared_absent.
    - apply (wrote_entry_out s s1 vm _ st n _ V W (proj1 (proj2 Hf)) H1 H2 H3 Hu); [done|done|].
      intros Hpp Et. apply (vo_inj s vm V) in Et; [|lia|done|done|done]. lia. }
  destruct ((st =? 0) && (n =? PT_ENTRIES)) eqn:Eall; simpl.
  2:{ apply wp_ret. split_and!; [done|done|]. intros _ g.
      split; [by apply (refs_wrote s s1 _ _ _ _ _ W)|].
      by apply (wrote_parts s s1 vm _ st n _ g V W (proj1 (proj2 Hf))). }
  apply andb_true_iff in Eall as [->%Z.eqb_eq ->%Z.eqb_eq].
  apply wp_bind, wp_assert; [apply Z.ltb_lt; auto|].
  assert (pde s1 vm i = pde s vm i) as Ep
    by by apply (wrote_pde s s1 vm _ 0 PT_ENTRIES _ V W (proj1 (proj2 Hf)) H1 H3).
  assert (table s1 vm i = table s vm i) as Et by (unfold table; by rewrite Ep).
  rewrite <- Et in *. apply wp_bind, wp_pmm_free; [apply V1|by rewrite (refs_wrote s s1 _ _ _ _ _ W)|].
  intros s2 Ew Et2 M2 Hdec Hrest _.
  eapply (wp_stw s2 _ (pd_phys vm) i); [|done|by rewrite (vo_pd s vm V)|].
  { eapply frame_in_top; [|exact Hpf]. by rewrite Et2, (wr_top _ _ _ _ _ _ W). }
  intros s3 W3. rewrite <- Ep in E. split_and!; [|..|intros HH; unfold PT_ENTRIES in HH; lia].
  - eapply unmap_step_trans; [exact S1|]. by apply (drop_step s1 s2 s3 vm i).
  - intros p Hp. specialize (U1 p Hp).
    rewrite (drop_entry s1 s2 s3 vm i) by done. case_bool_decide as Hin; case_decide; try done.
    unfold PT_ENTRIES in *. lia.
Qed.

Lemma wp_hal_vm_unmap_range s vm v n :
  vm_ok s vm → 0 <= v → 0 < n → v + n < 1048576 →
  (∀ i, KERNEL_PD_START <= i → ¬ (v <= 1024 * i ∧ 1024 * i + 1024 <= v + n)) →
  wp (hal_vm_unmap_range vm (4096 * v) (4096 * n)) s (λ ok s',
    ok = true ∧ unmap_step vm s s' ∧ unmapped s vm s' v n ∧ (n < 1024 → kept vm s s')).
Proof.
  intros V Hv Hn He Hkern. unfold hal_vm_unmap_range.
  rewrite (proj2 (Z.eqb_neq (4096 * n) 0)) by lia.
  apply wp_bind, wp_assert; [apply page_bool|]. apply wp_bind, wp_assert; [apply page_bool|].
  replace (u32 (4096 * v + 4096 * n)) with (4096 * (v + n)) by ulia.
  apply (wp_while_n (λ t va s1, ∃ k, 0 <= k <= n ∧ va = 4096 * (v + k) ∧
    t = turns (v + k) (v + n) ∧ unmap_step vm s s1 ∧ unmapped s vm s1 v k ∧
    (n < 1024 → kept vm s s1)) _ _ _ (turns v (v + n))).
  { exists 0. rewrite !Z.add_0_r. split_and!; [lia..|done|by apply unmap_step_refl| |done].
    intros p Hp. rewrite bool_decide_eq_false_2; [done|lia]. }
  { apply turns_fuel; lia. }
  intros t va s1 (k & Hk & -> & -> & S1 & U & K).
  destruct (Z.ltb_spec (4096 * (v + k)) (4096 * (v + n))) as [Hlt|Hge].
  - rewrite chunk_eq by lia. destruct (page_index (v + k)) as [-> ->]; [lia|].
    set (c := Z.min (1024 - (v + k) mod 1024) (v + n - (v + k))).
    apply wp_bind. eapply wp_mono.
    { apply wp_unmap_page_table_range; [apply S1|lia|lia|lia|lia|].
      intros H0 H1. destruct (Z_lt_dec ((v + k) / 1024) KERNEL_PD_START) as [|Hge]; [done|].
      destruct (Hkern ((v + k) / 1024)); lia. }
    intros [] s2 (S2 & U2 & K2). apply wp_ret. exists (turns (v + k + c) (v + n)).
    split; [apply turns_next; lia|]. exists (k + c). unfold PAGE_SIZE.
    split_and!; [lia|lia|ulia|f_equal; lia| | |].
    + by eapply unmap_step_trans.
    + eapply unmapped_trans; [lia|lia|exact U|].
      by replace (1024 * ((v + k) / 1024) + (v + k) mod 1024) with (v + k) in U2 by lia.
    + intros Hs. eapply kept_trans; [auto|]. apply K2. lia.
  - apply wp_ret. assert (k = n) as -> by lia. done.
Qed.

Lemma page_index_off v off :
  0 <= v < 1048576 → 0 <= off < 4096 →
  get_pd_index (4096 * v + off) = v / 1024 ∧ get_pt_index (4096 * v + off) = v mod 1024 ∧
  Z.land (4096 * v + off) 4095 = off.
Proof.
  intros Hv Ho. rewrite flags_of_eq. destruct (page_index v Hv) as [<- <-].
  unfold get_pd_index, get_pt_index. rewrite !Z.shiftr_div_pow2 by lia.
  change (2 ^ 22) with 4194304. change (2 ^ 12) with 4096.
  replace ((4096 * v + off) / 4194304) with (4096 * v / 4194304) by lia.
  replace ((4096 * v + off) / 4096) with (4096 * v / 4096) by lia. split_and!; [done..|lia].
Qed.

Lemma wp_hal_vm_virt_to_phys s vm v off :
  vm_ok s vm → 0 <= v < 1048576 → 0 <= off < 4096 →
  wp (hal_vm_virt_to_phys vm (4096 * v + off)) s (λ pa s', s' = s ∧
    pa = if present (entry s vm v) then page_of (entry s vm v) + off else 0).
Proof.
  intros V Hv Ho. pose proof (vo_mem s vm V) as M. destruct (vo_pd_frame s vm V) as [Hpf _].
  destruct (page_index_off v off Hv Ho) as (E1 & E2 & E3).
  unfold hal_vm_virt_to_phys. rewrite E1, E2, E3. apply wp_bind.
  apply (wp_ldw s _ (pd_phys vm) (v / 1024)); [done|lia|by rewrite (vo_pd s vm V)|].
  fold (pde s vm (v / 1024)). unfold entry. fold (present (pde s vm (v / 1024))).
  destruct (present (pde s vm (v / 1024))) eqn:E; simpl; [|by apply wp_ret].
  fold (table s vm (v / 1024)). destruct (vo_table s vm V (v / 1024) ltac:(lia) E) as (Hf & _ & _).
  rewrite (mem_window s) by done. apply wp_bind.
  apply (wp_ldw s _ (table s vm (v / 1024)) (v mod 1024)); [done|lia|done|].
  set (x := words s (table s vm (v / 1024) + 4 * (v mod 1024))). fold (present x).
  destruct (present x); simpl; apply wp_ret; (split; [done|]); [|done].
  assert (is_u32 x) as Hx by apply M. rewrite page_of_eq by done. ulia.
Qed.

(** The tables depend on the words only. *)
Lemma entry_words s s' vm p : words s' = words s → entry s' vm p = entry s vm p.
Proof. intros E. unfold entry, table, pde. by rewrite E. Qed.

Lemma part_of_words s s' vm g : words s' = words s → part_of s' vm g ↔ part_of s vm g.
Proof. intros E. unfold part_of, table, pde. by rewrite E. Qed.

(** Counts may change as long as the tables stay in use. *)
Lemma vm_ok_refs s s' vm :
  vm_ok s vm → words s' = words s → top s' = top s → mem_ok s' →
  (∀ g, part_of s vm g → 0 < refs s' g) → vm_ok s' vm.
Proof.
  intros V Ew Et M Hr. assert (∀ i, pde s' vm i = pde s vm i) as Ep by (intros; unfold pde; by rewrite Ew).
  assert (∀ i, table s' vm i = table s vm i) as Etb by (intros; unfold table; by rewrite Ep).
  split; [done|apply V|..].
  - destruct (vo_pd_frame s vm V). split; [by eapply frame_in_top|]. apply Hr. by left.
  - intros i Hi. rewrite Ep, Etb. intros Hp. destruct (vo_table s vm V i Hi Hp) as (? & _ & ?).
    split_and!; [by eapply frame_in_top| |done]. apply Hr. right. eauto.
  - intros i j Hi Hj. rewrite !Ep, !Etb. by apply (vo_inj s vm V).
Qed.
End spec.
