(* ===== verification/VaAlloc.v ===== *)
(** * Backing virtual regions with frames

    [kernel/src/mm/va_allocation.c] over the page tables of [Paging] and the
    frame-allocator interface. *)

From S2P Require Import Prelude Range FrameAlloc Pmm Paging.

Section ops.
Context `{FA : FrameAllocator St}.
Notation Vm := (vmst St).

(** The pages of the loops below: the range is shorter than the address space. *)
Definition va_fuel : nat := Z.to_nat 1048577.

(** The loop of [va_alloc_region]: the address where it failed, if it did. *)
Definition va_alloc_loop (vm : arch_vm_t) (start end_ flags : Z) : M Vm (option Z) :=
  while_n va_fuel (λ curr,
    if curr <? end_ then
      phys ← pmm_alloc;
      if phys =? 0 then ret (inr (Some curr))
      else
        ok ← hal_vm_map vm curr phys flags;
        if negb ok then pmm_free phys ;; ret (inr (Some curr))
        else ret (inl (u32 (curr + PAGE_SIZE)))
    else ret (inr None)) start.

(** The pages mapped so far are given back. *)
Definition va_alloc_undo (vm : arch_vm_t) (start curr : Z) : M Vm unit :=
  while_n va_fuel (λ clean,
    if clean <? curr then
      p ← hal_vm_virt_to_phys vm clean;
      when (negb (p =? 0)) (pmm_free p) ;;
      hal_vm_unmap vm clean ;;
      ret (inl (u32 (clean + PAGE_SIZE)))
    else ret (inr tt)) start.

Definition va_alloc_region (vm : arch_vm_t) (virt_start size flags : Z) : M Vm bool :=
  assert_ (is_aligned virt_start PAGE_SIZE) ;;
  assert_ (is_aligned size PAGE_SIZE) ;;
  let start := align_down virt_start PAGE_SIZE in
  let end_ := align_up (u32 (virt_start + size)) PAGE_SIZE in
  failed ← va_alloc_loop vm start end_ flags;
  match failed with
  | None => ret true
  | Some curr => va_alloc_undo vm start curr ;; ret false
  end.

Definition va_free_region (vm : arch_vm_t) (virt_start size : Z) : M Vm unit :=
  assert_ (is_aligned virt_start PAGE_SIZE) ;;
  assert_ (is_aligned size PAGE_SIZE) ;;
  let size := align_up size PAGE_SIZE in
  let pages := size / PAGE_SIZE in
  for_range 0 pages (λ i,
    let va := u32 (virt_start + i * PAGE_SIZE) in
    phys ← hal_vm_virt_to_phys vm va;
    when (negb (phys =? 0)) (pmm_free phys)) ;;
  hal_vm_unmap_range vm virt_start size ;;
  ret tt.
End ops.

(* ------------------------------------------------------------------ *)
(** ** Allocation *)

Section spec.
Context `{FA : FrameAllocator St}.
Notation Vm := (vmst St).

Lemma wp_hal_vm_map s vm v pa flags :
  vm_ok s vm → 0 <= v < 1048575 → is_u32 pa → pa mod 4096 = 0 →
  wp (hal_vm_map vm (4096 * v) pa flags) s (λ ok s', map_step vm s s' ∧
    if ok then mapped_to s vm s' v 1 pa (public_flags_to_arch_flags flags)
    else exhausted s' ∧ ∀ p, 0 <= p < 1048576 → entry s' vm p = entry s vm p).
Proof.
  intros V Hv Hu Hp. unfold hal_vm_map. change PAGE_SIZE with (4096 * 1).
  eapply wp_mono; [apply wp_hal_vm_map_range; [done|lia|lia|lia|done|done]|].
  intros ok s' (S & k & Hk & Ho & Hx & Mp). split; [done|]. destruct ok.
  - assert (k = 1) as -> by (by apply Ho). done.
  - assert (k = 0) as ->.
    { destruct (decide (k = 1)) as [->|]; [|lia]. pose proof (proj2 Ho eq_refl). done. }
    split; [by apply Hx|]. intros p Hpr. rewrite Mp by done. rewrite bool_decide_eq_false_2; [done|lia].
Qed.

Lemma wp_hal_vm_unmap s vm v :
  vm_ok s vm → 0 <= v < 1048575 →
  wp (hal_vm_unmap vm (4096 * v)) s (λ _ s',
    unmap_step vm s s' ∧ unmapped s vm s' v 1 ∧ kept vm s s').
Proof.
  intros V Hv. unfold hal_vm_unmap. change PAGE_SIZE with (4096 * 1).
  eapply wp_mono; [apply wp_hal_vm_unmap_range; [done|lia|lia|lia|]|].
  - intros i Hi. lia.
  - intros ok s' (-> & S & U & K). split_and!; [done|done|]. apply K. lia.
Qed.

(** The first [k] pages from [v] on are backed by the frames [frm], which
    were free in [s]; the rest of [s] is as it was, up to new tables. *)
Record va_inv (s : Vm) (vm : arch_vm_t) (v k fl : Z) (frm : Z → Z) (s1 : Vm) : Prop := {
  vi_vm : vm_ok s1 vm;
  vi_top : top s1 = top s;
  vi_in : ∀ i, 0 <= i < k → entry s1 vm (v + i) = pte_word (frm i) fl;
  vi_out : ∀ p, 0 <= p < 1048576 → ¬ (v <= p < v + k) → entry s1 vm p = entry s vm p;
  vi_frm : ∀ i, 0 <= i < k → refs s (frm i) = 0 ∧ refs s1 (frm i) = 1 ∧
    ¬ part_of s1 vm (frm i) ∧ frame_in s1 (frm i);
  vi_inj : ∀ i j, 0 <= i < k → 0 <= j < k → frm i = frm j → i = j;
  vi_old : ∀ g, 0 < refs s g → refs s1 g = refs s g;
  vi_new : ∀ g, refs s g = 0 → refs s1 g = 0 ∨
    refs s1 g = 1 ∧ (part_of s1 vm g ∨ ∃ i, 0 <= i < k ∧ g = frm i);
  vi_parts : ∀ g, part_of s vm g → part_of s1 vm g;
  vi_data : ∀ g, g mod 4096 = 0 → 0 < refs s g → ¬ part_of s vm g →
    ¬ part_of s1 vm g ∧ ∀ x, 0 <= x < 4096 → words s1 (g + x) = words s (g + x);
  vi_avail : ∀ g, avail s g → avail s1 g ∨ part_of s1 vm g ∨ ∃ i, 0 <= i < k ∧ g = frm i
}.

(** Memory ran out: all but [n] of the frames that could be had are tables of
    [vm] now. *)
Definition starved (s : Vm) (vm : arch_vm_t) (n : Z) (s' : Vm) : Prop :=
  ∃ frm : Z → Z, ∀ g, avail s g → part_of s' vm g ∨ ∃ i, 0 <= i < n ∧ g = frm i.

Lemma va_inv_starved s vm v k fl frm s1 n :
  va_inv s vm v k fl frm s1 → k <= n → exhausted s1 → starved s vm n s1.
Proof.
  intros I Hk Hx. exists frm. intros g Hg. destruct (vi_avail _ _ _ _ _ _ _ I g Hg) as [H|[H|(i & Hi & ->)]].
  - by destruct (Hx g).
  - by left.
  - right. exists i. split; [lia|done].
Qed.

Lemma va_inv_init s vm v fl : vm_ok s vm → va_inv s vm v 0 fl (λ _, 0) s.
Proof. intros V. split; auto; intros; lia. Qed.

(** One more page: a frame [f] taken, giving [s2], and mapped, giving [s3]. *)
Section page.
Context (s s1 s2 : Vm) (vm : arch_vm_t) (v k fl f : Z) (frm : Z → Z).
Context (V : vm_ok s vm) (I : va_inv s vm v k fl frm s1).
Context (Hv : 0 <= v) (Hk : 0 <= k) (Hend : v + k < 1048575).
Context (Ew : words s2 = words s1) (Et : top s2 = top s1) (M2 : mem_ok s2) (Hf : frame_in s2 f).
Context (Hfree : refs s1 f = 0) (Hone : refs s2 f = 1) (Hrest : ∀ g, g ≠ f → refs s2 g = refs s1 g).
Context (Hav : ∀ g, avail s2 g ↔ g ≠ f ∧ avail s1 g).

Lemma page_free : refs s f = 0.
Proof using All.
  pose proof (refs_nonneg s f (vo_mem s vm V)). destruct (decide (refs s f = 0)) as [|Hn]; [done|].
  rewrite <- (vi_old _ _ _ _ _ _ _ I) in Hn by lia. lia.
Qed.

Lemma page_fresh_part : ¬ part_of s1 vm f.
Proof using All. intros H. apply (part_frame s1 vm f (vi_vm _ _ _ _ _ _ _ I)) in H as [_ ?]. lia. Qed.

Lemma page_fresh_frm i : 0 <= i < k → frm i ≠ f.
Proof using All. intros Hi E. destruct (vi_frm _ _ _ _ _ _ _ I i Hi) as (_ & ? & _). rewrite E in *. lia. Qed.

Lemma page_alloc_vm : vm_ok s2 vm.
Proof using All.
  eapply vm_ok_refs; [apply (vi_vm _ _ _ _ _ _ _ I)|done..|].
  intros g Hg. rewrite Hrest; [by apply (part_frame s1 vm g (vi_vm _ _ _ _ _ _ _ I))|].
  intros ->. by apply page_fresh_part.
Qed.

Context (s3 : Vm) (S3 : map_step vm s2 s3).

(** A frame in use that is not a table stays what it is. *)
Lemma page_data g : 0 < refs s2 g → ¬ part_of s2 vm g → refs s3 g = refs s2 g ∧ ¬ part_of s3 vm g.
Proof using S3.
  intros Hg Hn. split; [by apply (ms_refs _ _ _ S3)|]. intros Hp.
  by destruct (ms_grow _ _ _ S3 g Hp).
Qed.

Lemma page_kept g : 0 < refs s1 g → ¬ part_of s1 vm g → refs s3 g = refs s1 g ∧ ¬ part_of s3 vm g.
Proof using All.
  intros Hg Hn. assert (g ≠ f) as Hne by (intros ->; lia).
  assert (¬ part_of s2 vm g) as Hn2 by (by rewrite (part_of_words s1 s2 vm g Ew)).
  destruct (page_data g) as [H1 H2]; [by rewrite Hrest|done|]. by rewrite H1, Hrest.
Qed.

Lemma page_frm i : 0 <= i < k →
  refs s (frm i) = 0 ∧ refs s3 (frm i) = 1 ∧ ¬ part_of s3 vm (frm i) ∧ frame_in s3 (frm i).
Proof using All.
  intros Hi. destruct (vi_frm _ _ _ _ _ _ _ I i Hi) as (H1 & H2 & H3 & H4).
  destruct (page_kept (frm i)) as [H5 H6]; [lia|done|]. split_and!; [done|congruence|done|].
  eapply frame_in_top; [|exact H4]. by rewrite (ms_top _ _ _ S3).
Qed.

Lemma page_f : refs s3 f = 1 ∧ ¬ part_of s3 vm f ∧ frame_in s3 f.
Proof using All.
  destruct (page_data f) as [H1 H2]; [lia| |].
  - rewrite (part_of_words s1 s2 vm f Ew). apply page_fresh_part.
  - split_and!; [lia|done|]. eapply frame_in_top; [apply (ms_top _ _ _ S3)|done].
Qed.

Lemma page_old g : 0 < refs s g → refs s3 g = refs s g.
Proof using All.
  intros Hg. assert (g ≠ f) as Hne by (intros ->; rewrite page_free in Hg; lia).
  pose proof (vi_old _ _ _ _ _ _ _ I g Hg) as H1.
  rewrite (ms_refs _ _ _ S3); [by rewrite Hrest|rewrite Hrest by done; lia].
Qed.

Lemma page_new g : refs s g = 0 → refs s3 g = 0 ∨
  refs s3 g = 1 ∧ (part_of s3 vm g ∨ g = f ∨ ∃ i, 0 <= i < k ∧ g = frm i).
Proof using All.
  intros Hg. destruct (decide (g = f)) as [->|Hne].
  { right. destruct page_f as (? & _). auto. }
  destruct (vi_new _ _ _ _ _ _ _ I g Hg) as [H0|[H1 Hp]].
  - destruct (ms_new _ _ _ S3 g) as [|[? ?]]; [by rewrite Hrest|auto|auto].
  - right. rewrite (ms_refs _ _ _ S3); [|rewrite Hrest by done; lia]. rewrite Hrest by done.
    split; [done|]. destruct Hp as [Hp|Hp]; [left|auto].
    apply (ms_parts _ _ _ S3). by rewrite (part_of_words s1 s2 vm g Ew).
Qed.

Lemma page_parts g : part_of s vm g → part_of s3 vm g.
Proof using All.
  intros Hg. apply (ms_parts _ _ _ S3). rewrite (part_of_words s1 s2 vm g Ew).
  by apply (vi_parts _ _ _ _ _ _ _ I).
Qed.

(** The contents of the frames in use that are no tables. *)
Lemma page_words g : g mod 4096 = 0 → 0 < refs s g → ¬ part_of s vm g →
  ¬ part_of s3 vm g ∧ ∀ x, 0 <= x < 4096 → words s3 (g + x) = words s (g + x).
Proof using All.
  intros Hm Hg Hn. destruct (vi_data _ _ _ _ _ _ _ I g Hm Hg Hn) as [H1 H2].
  destruct (page_kept g) as [_ H3]; [by rewrite (vi_old _ _ _ _ _ _ _ I)|done|]. split; [done|].
  intros x Hx. rewrite (ms_words _ _ _ S3), Ew by done. by apply H2.
Qed.

Lemma page_avail g : avail s g → avail s3 g ∨ part_of s3 vm g ∨ g = f ∨ ∃ i, 0 <= i < k ∧ g = frm i.
Proof using All.
  intros Hg. destruct (decide (g = f)) as [->|Hne]; [auto|]. destruct (vi_avail _ _ _ _ _ _ _ I g Hg) as [H|[H|H]]; [..|auto].
  - destruct (ms_avail _ _ _ S3 g) as [|]; [by apply Hav|auto|auto].
  - right. left. apply (ms_parts _ _ _ S3). by rewrite (part_of_words s1 s2 vm g Ew).
Qed.

Lemma page_starved n : k < n → exhausted s3 → ∃ frm' : Z → Z, ∀ g, avail s g → part_of s3 vm g ∨ ∃ i, 0 <= i < n ∧ g = frm' i.
Proof using All.
  intros Hn Hx. exists (<[k := f]> frm). intros g Hg. destruct (page_avail g Hg) as [H|[H|[->|(i & Hi & ->)]]].
  - by destruct (Hx g).
  - by left.
  - right. exists k. split; [lia|]. by rewrite fn_lookup_insert.
  - right. exists i. split; [lia|]. by rewrite fn_lookup_insert_ne by lia.
Qed.

Lemma va_inv_page :
  mapped_to s2 vm s3 (v + k) 1 f fl → va_inv s vm v (k + 1) fl (<[k := f]> frm) s3.
Proof using All.
  intros Mp. assert (∀ i, i ≠ k → (<[k := f]> frm) i = frm i) as Hne
    by (intros; by rewrite fn_lookup_insert_ne).
  assert ((<[k := f]> frm) k = f) as Hek by by rewrite fn_lookup_insert.
  assert (∀ p, 0 <= p < 1048576 → p ≠ v + k → entry s3 vm p = entry s1 vm p) as Ho.
  { intros p Hp Hpk. rewrite Mp, bool_decide_eq_false_2 by (done || lia). by apply entry_words. }
  split.
  - apply S3.
  - by rewrite (ms_top _ _ _ S3), Et, (vi_top _ _ _ _ _ _ _ I).
  - intros i Hi. destruct (decide (i = k)) as [->|].
    + rewrite Hek, Mp, bool_decide_eq_true_2 by lia. f_equal. rewrite Z.sub_diag, Z.add_0_r.
      by apply u32_small, (frame_u32 s2).
    + rewrite Hne, Ho by lia. apply (vi_in _ _ _ _ _ _ _ I). lia.
  - intros p Hp Hout. rewrite Ho by lia. apply (vi_out _ _ _ _ _ _ _ I); lia.
  - intros i Hi. destruct (decide (i = k)) as [->|].
    + rewrite Hek. destruct page_f as (? & ? & ?). split_and!; [apply page_free|done..].
    + rewrite Hne by done. apply page_frm. lia.
  - intros i j Hi Hj. destruct (decide (i = k)) as [->|], (decide (j = k)) as [->|];
      rewrite ?Hek, ?Hne by done; [done|..].
    + intros E. by destruct (page_fresh_frm j); [lia|].
    + intros E. by destruct (page_fresh_frm i); [lia|].
    + apply (vi_inj _ _ _ _ _ _ _ I); lia.
  - apply page_old.
  - intros g Hg. destruct (page_new g Hg) as [|[H1 [H2|[->|(i & Hi & ->)]]]]; [auto|auto|..].
    + right. split; [done|]. right. exists k. split; [lia|done].
    + right. split; [done|]. right. exists i. split; [lia|]. rewrite Hne; [done|lia].
  - apply page_parts.
  - apply page_words.
  - intros g Hg. destruct (page_avail g Hg) as [|[|[->|(i & Hi & ->)]]]; [auto|auto|..]; right; right.
    + exists k. split; [lia|done].
    + exists i. split; [lia|]. rewrite Hne; [done|lia].
Qed.

(** The page could not be mapped and [f] was given back. *)
Lemma va_inv_page_failed s4 :
  (∀ p, 0 <= p < 1048576 → entry s3 vm p = entry s2 vm p) →
  words s4 = words s3 → top s4 = top s3 → mem_ok s4 →
  refs s4 f = refs s3 f - 1 → (∀ g, g ≠ f → refs s4 g = refs s3 g) →
  (∀ g, avail s4 g ↔ (g = f ∧ refs s3 f = 1) ∨ avail s3 g) →
  va_inv s vm v k fl frm s4.
Proof using All.
  intros He Ew4 Et4 M4 Hdec Hrest4 Hav4. destruct page_f as (Hf1 & Hfp & Hff).
  assert (∀ p, 0 <= p < 1048576 → entry s4 vm p = entry s1 vm p) as E4.
  { intros p Hp. rewrite (entry_words s3 s4), He by done. by apply entry_words. }
  assert (∀ g, part_of s4 vm g ↔ part_of s3 vm g) as P4 by (intros; by apply part_of_words).
  split.
  - eapply vm_ok_refs; [apply S3|done..|]. intros g Hg. rewrite Hrest4; [|by intros ->].
    by apply (part_frame s3 vm g (ms_vm _ _ _ S3)).
  - by rewrite Et4, (ms_top _ _ _ S3), Et, (vi_top _ _ _ _ _ _ _ I).
  - intros i Hi. rewrite E4 by lia. by apply (vi_in _ _ _ _ _ _ _ I).
  - intros p Hp Hn. rewrite E4 by done. by apply (vi_out _ _ _ _ _ _ _ I).
  - intros i Hi. destruct (page_frm i Hi) as (? & ? & ? & ?).
    rewrite P4, Hrest4 by (by apply page_fresh_frm). split_and!; try done. by eapply frame_in_top.
  - apply I.
  - intros g Hg. rewrite Hrest4; [by apply page_old|]. intros ->. rewrite page_free in Hg. lia.
  - intros g Hg. rewrite P4. destruct (decide (g = f)) as [->|]; [left; lia|].
    rewrite Hrest4 by done. destruct (page_new g Hg) as [|[H1 [H2|[->|?]]]]; auto. done.
  - intros g Hg. apply P4. by apply page_parts.
  - intros g Hm Hg Hn. rewrite P4, Ew4. by apply page_words.
  - intros g Hg. rewrite P4, Hav4. destruct (page_avail g Hg) as [|[|[->|]]]; auto.
Qed.
End page.

Lemma wp_va_alloc_loop s vm v n flags :
  vm_ok s vm → 0 <= v → 0 <= n → v + n < 1048576 →
  let fl := public_flags_to_arch_flags flags in
  wp (va_alloc_loop vm (4096 * v) (4096 * (v + n)) flags) s (λ r s', match r with
    | None => ∃ frm, va_inv s vm v n fl frm s'
    | Some curr => ∃ k frm, 0 <= k < n ∧ curr = 4096 * (v + k) ∧ va_inv s vm v k fl frm s' ∧ starved s vm n s'
    end).
Proof.
  intros V Hv Hn He fl. unfold va_alloc_loop.
  apply (wp_while_n (λ t va s1, ∃ k frm, 0 <= k <= n ∧ va = 4096 * (v + k) ∧
    t = Z.to_nat (n - k) ∧ va_inv s vm v k fl frm s1) _ _ _ (Z.to_nat n)).
  { exists 0, (λ _, 0). rewrite Z.add_0_r. split_and!; [lia..|done|f_equal; lia|]. by apply va_inv_init. }
  { unfold va_fuel. lia. }
  intros t va s1 (k & frm & Hk & -> & -> & I).
  destruct (Z.ltb_spec (4096 * (v + k)) (4096 * (v + n))) as [Hlt|Hge].
  2:{ apply wp_ret. exists frm. by replace n with k by lia. }
  apply wp_bind, wp_pmm_alloc; [apply I|..].
  { intros Hx. simpl. apply wp_ret. exists k, frm. split_and!; [lia..|done|done|]. apply (va_inv_starved s vm v k fl frm s1 n I); [lia|done]. }
  intros f s2 Ew Et M2 Hf Hfree Hone Hrest Hav.
  assert (f =? 0 = false) as -> by (apply Z.eqb_neq, Z.neq_sym, Z.lt_neq, (refs_pos s2); [done|lia]).
  pose proof (page_alloc_vm s s1 s2 vm v k fl f frm V I Hv ltac:(lia) ltac:(lia) Ew Et M2 Hf Hfree Hone Hrest Hav) as V2.
  apply wp_bind. eapply wp_mono.
  { apply wp_hal_vm_map; [exact V2|lia|by apply (frame_u32 s2)|apply Hf]. }
  intros ok s3 [S3 Hok].
  destruct (page_f s s1 s2 vm v k fl f frm V I Hv ltac:(lia) ltac:(lia) Ew Et M2 Hf Hfree Hone Hrest Hav s3 S3)
    as (Hf3 & _ & _).
  destruct ok; simpl.
  - apply wp_ret. exists (Z.to_nat (n - (k + 1))). split; [lia|]. exists (k + 1), (<[k := f]> frm).
    unfold PAGE_SIZE. split_and!; [lia|lia|ulia|done|]. by apply (va_inv_page s s1 s2 vm v k fl f frm); try done; lia.
  - apply wp_bind, wp_pmm_free; [apply S3|lia|]. intros s4 Ew4 Et4 M4 Hdec Hr4 Hav4. apply wp_ret.
    destruct Hok as [Hx Hok]. exists k, frm. split_and!; [lia..|done| |].
    + by apply (va_inv_page_failed s s1 s2 vm v k fl f frm) with (s3 := s3); try done; lia.
    + destruct (page_starved s s1 s2 vm v k fl f frm V I Hv ltac:(lia) ltac:(lia) Ew Et M2 Hf Hfree Hone Hrest Hav s3 S3 n ltac:(lia) Hx)
        as [frm' Hs]. exists frm'. intros g Hg. rewrite (part_of_words s3 s4 vm g Ew4). by apply Hs.
Qed.

(* ------------------------------------------------------------------ *)
(** ** Undoing a partial allocation *)

(** [j] of the [k] pages have been given back. *)
Record undo_inv (s : Vm) (vm : arch_vm_t) (v k fl : Z) (frm : Z → Z) (j : Z) (s1 : Vm) : Prop := {
  ui_vm : vm_ok s1 vm;
  ui_top : top s1 = top s;
  ui_gone : ∀ i, 0 <= i < j → present (entry s1 vm (v + i)) = false;
  ui_in : ∀ i, j <= i < k → entry s1 vm (v + i) = pte_word (frm i) fl;
  ui_out : ∀ p, 0 <= p < 1048576 → ¬ (v <= p < v + k) → entry s1 vm p = entry s vm p;
  ui_frm : ∀ i, 0 <= i < k → refs s1 (frm i) = if i <? j then 0 else 1;
  ui_data : ∀ i, 0 <= i < k → ¬ part_of s1 vm (frm i) ∧ frame_in s1 (frm i);
  ui_old : ∀ g, 0 < refs s g → refs s1 g = refs s g;
  ui_new : ∀ g, refs s g = 0 → refs s1 g = 0 ∨
    refs s1 g = 1 ∧ (part_of s1 vm g ∨ ∃ i, j <= i < k ∧ g = frm i);
  ui_parts : ∀ g, part_of s vm g → part_of s1 vm g
}.

Lemma undo_init s vm v k fl frm s1 : va_inv s vm v k fl frm s1 → undo_inv s vm v k fl frm 0 s1.
Proof.
  intros I. pose proof I as [H1 H2 H3 H4 H5 H6 H7 H8 H9 _ _]. split; [done|done|lia|done|done| | |done|done|done].
  - intros i Hi. rewrite (proj2 (Z.ltb_ge i 0)) by lia. by apply (vi_frm _ _ _ _ _ _ _ I).
  - intros i Hi. by destruct (vi_frm _ _ _ _ _ _ _ I i Hi) as (_ & _ & ? & ?).
Qed.

Lemma undo_step s vm v k fl frm j s1 s2 s3 :
  vm_ok s vm → 0 <= v → v + k < 1048576 → 0 <= j < k →
  (∀ a b, 0 <= a < k → 0 <= b < k → frm a = frm b → a = b) →
  (∀ a, 0 <= a < k → refs s (frm a) = 0) →
  undo_inv s vm v k fl frm j s1 →
  words s2 = words s1 → top s2 = top s1 →
  refs s2 (frm j) = refs s1 (frm j) - 1 → (∀ g, g ≠ frm j → refs s2 g = refs s1 g) →
  unmap_step vm s2 s3 → unmapped s2 vm s3 (v + j) 1 → kept vm s2 s3 →
  undo_inv s vm v k fl frm (j + 1) s3.
Proof.
  intros V Hv Hk Hj Hinj Hz I Ew Et Hdec Hrest S3 U K.
  assert (∀ p, 0 <= p < 1048576 → p ≠ v + j → entry s3 vm p = entry s1 vm p) as Ho.
  { intros p Hp Hpk. specialize (U p Hp). rewrite bool_decide_eq_false_2 in U by lia.
    rewrite U. by apply entry_words. }
  assert (∀ g, part_of s3 vm g ↔ part_of s1 vm g) as P.
  { intros g. rewrite <- (part_of_words s1 s2 vm g Ew). split; [apply (us_parts _ _ _ S3)|apply K]. }
  assert (∀ g, refs s3 g = refs s2 g) as R by apply K.
  split.
  - apply S3.
  - by rewrite (us_top _ _ _ S3), Et, (ui_top _ _ _ _ _ _ _ _ I).
  - intros i Hi. destruct (decide (i = j)) as [->|].
    + specialize (U (v + j) ltac:(lia)). by rewrite bool_decide_eq_true_2 in U by lia.
    + rewrite Ho by lia. apply (ui_gone _ _ _ _ _ _ _ _ I). lia.
  - intros i Hi. rewrite Ho by lia. apply (ui_in _ _ _ _ _ _ _ _ I). lia.
  - intros p Hp Hn. rewrite Ho by lia. by apply (ui_out _ _ _ _ _ _ _ _ I).
  - intros i Hi. rewrite R. pose proof (ui_frm _ _ _ _ _ _ _ _ I i Hi) as E.
    destruct (decide (i = j)) as [->|].
    + rewrite Hdec, E. repeat case_match; lia.
    + rewrite Hrest, E; [repeat case_match; lia|]. intros Ef. by apply Hinj in Ef.
  - intros i Hi. rewrite P. destruct (ui_data _ _ _ _ _ _ _ _ I i Hi). split; [done|].
    eapply frame_in_top; [|done]. by rewrite (us_top _ _ _ S3).
  - intros g Hg. rewrite R, Hrest; [by apply (ui_old _ _ _ _ _ _ _ _ I)|].
    intros ->. rewrite Hz in Hg; lia.
  - intros g Hg. rewrite R, P. destruct (decide (g = frm j)) as [->|Hne].
    + left. rewrite Hdec, (ui_frm _ _ _ _ _ _ _ _ I j Hj). case_match; lia.
    + rewrite Hrest by done. destruct (ui_new _ _ _ _ _ _ _ _ I g Hg) as [|[H1 [H2|(i & Hi & ->)]]];
        [auto|auto|]. right. split; [done|]. right. exists i. split; [|done].
      assert (i ≠ j) by congruence. lia.
  - intros g Hg. apply P. by apply (ui_parts _ _ _ _ _ _ _ _ I).
Qed.

Lemma wp_va_alloc_undo s vm v k fl frm s1 :
  vm_ok s vm → 0 <= v → 0 <= k → v + k < 1048576 → va_inv s vm v k fl frm s1 →
  wp (va_alloc_undo vm (4096 * v) (4096 * (v + k))) s1 (λ _ s', undo_inv s vm v k fl frm k s' ∧ ∀ g, part_of s1 vm g → part_of s' vm g).
Proof.
  intros V Hv Hk He I. unfold va_alloc_undo.
  apply (wp_while_n (λ t va s2, ∃ j, 0 <= j <= k ∧ va = 4096 * (v + j) ∧
    t = Z.to_nat (k - j) ∧ undo_inv s vm v k fl frm j s2 ∧ ∀ g, part_of s1 vm g → part_of s2 vm g) _ _ _ (Z.to_nat k)).
  { exists 0. rewrite Z.add_0_r. split_and!; [lia..|done|f_equal; lia|by apply undo_init|done]. }
  { unfold va_fuel. lia. }
  intros t va s2 (j & Hj & -> & -> & U & Hpt).
  destruct (Z.ltb_spec (4096 * (v + j)) (4096 * (v + k))) as [Hlt|Hge].
  2:{ apply wp_ret. by replace j with k in U by lia. }
  destruct (ui_data _ _ _ _ _ _ _ _ U j ltac:(lia)) as [Hd Hfr].
  assert (refs s2 (frm j) = 1) as Hr1.
  { rewrite (ui_frm _ _ _ _ _ _ _ _ U j) by lia. case_match; lia. }
  pose proof (ui_vm _ _ _ _ _ _ _ _ U) as V2.
  assert (is_u32 (frm j)) as Hu32 by (apply (frame_u32 s2); [apply V2|done]).
  destruct (pte_word_ok (frm j) fl Hu32 (proj1 (proj2 Hfr))) as (_ & Hpg & Hpr).
  apply wp_bind. rewrite <- (Z.add_0_r (4096 * (v + j))) at 1. eapply wp_mono; [apply wp_hal_vm_virt_to_phys; [exact V2|lia|lia]|].
  intros p s2' [-> ->]. rewrite (ui_in _ _ _ _ _ _ _ _ U) by lia. rewrite Hpr, Hpg, Z.add_0_r.
  rewrite (proj2 (Z.eqb_neq (frm j) 0))
    by (apply Z.neq_sym, Z.lt_neq, (refs_pos s2); [apply V2|lia]). simpl.
  apply wp_bind, wp_pmm_free; [apply V2|lia|]. intros s3 Ew Et M3 Hdec Hrest _.
  assert (vm_ok s3 vm) as V3.
  { eapply vm_ok_refs; [exact V2|done..|]. intros g Hg. rewrite Hrest by congruence.
    by apply (part_frame s2 vm g V2). }
  apply wp_bind. eapply wp_mono; [apply wp_hal_vm_unmap; [exact V3|lia]|].
  intros _ s4 (S4 & U4 & K4). apply wp_ret. exists (Z.to_nat (k - (j + 1))). split; [lia|].
  exists (j + 1). unfold PAGE_SIZE. split_and!; [lia|lia|ulia|done| |].
  2:{ intros g Hg. apply (K4 g), (part_of_words s2 s3 vm g Ew). by apply Hpt. }
  eapply (undo_step s vm v k fl frm j s2 s3 s4); try done; [lia|apply I|].
  intros a Ha. by destruct (vi_frm _ _ _ _ _ _ _ I a Ha).
Qed.

Lemma page_bounds v n :
  0 <= v → 0 <= n → v + n < 1048576 →
  align_down (4096 * v) PAGE_SIZE = 4096 * v ∧
  align_up (u32 (4096 * v + 4096 * n)) PAGE_SIZE = 4096 * (v + n).
Proof.
  intros Hv Hn He. unfold align_up, PAGE_SIZE.
  rewrite !align_down_mod by (ulia || apply pow2_page). ulia.
Qed.

Lemma wp_va_alloc_region s vm v n flags :
  vm_ok s vm → 0 <= v → 0 <= n → v + n < 1048576 →
  let fl := public_flags_to_arch_flags flags in
  wp (va_alloc_region vm (4096 * v) (4096 * n) flags) s (λ ok s',
    if ok then ∃ frm, va_inv s vm v n fl frm s'
    else ∃ k frm, 0 <= k < n ∧ undo_inv s vm v k fl frm k s' ∧ starved s vm n s').
Proof.
  intros V Hv Hn He fl. unfold va_alloc_region.
  apply wp_bind, wp_assert; [apply page_bool|]. apply wp_bind, wp_assert; [apply page_bool|].
  destruct (page_bounds v n Hv Hn He) as [-> ->].
  apply wp_bind. eapply wp_mono; [by apply wp_va_alloc_loop|].
  intros [curr|] s1; [|intros (frm & I); apply wp_ret; eauto].
  intros (k & frm & Hk & -> & I & frm' & Hs). apply wp_bind.
  eapply wp_mono; [apply (wp_va_alloc_undo s vm v k fl frm s1); (done || lia)|].
  intros [] s2 [U Hpt]. apply wp_ret. exists k, frm. split_and!; [lia|lia|done|]. exists frm'. intros g Hg.
  destruct (Hs g Hg) as [|]; auto.
Qed.

(* ------------------------------------------------------------------ *)
(** ** Giving a region back *)

(** The frames the region maps: each counted, mapped once, and no table. *)
Definition owns (s : Vm) (vm : arch_vm_t) (v n : Z) : Prop :=
  (∀ i, 0 <= i < n → present (entry s vm (v + i)) = true →
    0 < page_of (entry s vm (v + i)) ∧ 0 < refs s (page_of (entry s vm (v + i))) ∧
    ¬ part_of s vm (page_of (entry s vm (v + i)))) ∧
  (∀ i j, 0 <= i < n → 0 <= j < n →
    present (entry s vm (v + i)) = true → present (entry s vm (v + j)) = true →
    page_of (entry s vm (v + i)) = page_of (entry s vm (v + j)) → i = j).

Record freed (s : Vm) (vm : arch_vm_t) (v j : Z) (s1 : Vm) : Prop := {
  fd_words : words s1 = words s;
  fd_top : top s1 = top s;
  fd_mem : mem_ok s1;
  fd_in : ∀ i, 0 <= i < j → present (entry s vm (v + i)) = true →
    refs s1 (page_of (entry s vm (v + i))) = refs s (page_of (entry s vm (v + i))) - 1;
  fd_out : ∀ g, (∀ i, 0 <= i < j → present (entry s vm (v + i)) = true →
    page_of (entry s vm (v + i)) ≠ g) → refs s1 g = refs s g
}.

Lemma freed_vm s vm v j n s1 : vm_ok s vm → owns s vm v n → j <= n → freed s vm v j s1 → vm_ok s1 vm.
Proof.
  intros V [Ho _] Hj F. eapply vm_ok_refs; [exact V|apply F..|].
  intros g Hg. rewrite (fd_out _ _ _ _ _ F); [by apply (part_frame s vm g V)|].
  intros i Hi Hp <-. by destruct (Ho i ltac:(lia) Hp) as (_ & _ & ?).
Qed.

Lemma wp_free_frames s vm v n :
  vm_ok s vm → 0 <= v → 0 <= n → v + n < 1048576 → owns s vm v n →
  wp (for_range 0 n (λ i,
    let va := u32 (4096 * v + i * PAGE_SIZE) in
    phys ← hal_vm_virt_to_phys vm va;
    when (negb (phys =? 0)) (pmm_free phys))) s (λ _ s', freed s vm v n s').
Proof.
  intros V Hv Hn He [Ho Hi]. eapply wp_mono; [apply (wp_for_range (freed s vm v))|].
  - split; [done|done|apply V|lia|done].
  - intros j s1 Hj F. pose proof (freed_vm s vm v j n s1 V (conj Ho Hi) ltac:(lia) F) as V1.
    cbv zeta. replace (u32 (4096 * v + j * PAGE_SIZE)) with (4096 * (v + j) + 0)
      by (unfold PAGE_SIZE; ulia).
    apply wp_bind. eapply wp_mono; [apply wp_hal_vm_virt_to_phys; [exact V1|lia|lia]|].
    intros pa s1' [-> ->]. rewrite (entry_words s s1) by apply F. rewrite Z.add_0_r.
    destruct (present (entry s vm (v + j))) eqn:Ep.
    2:{ simpl. apply wp_ret. split; try apply F.
        - intros i Hij. destruct (decide (i = j)) as [->|]; [congruence|].
          apply (fd_in _ _ _ _ _ F). lia.
        - intros g Hg. apply (fd_out _ _ _ _ _ F). intros i Hij. apply Hg. lia. }
    destruct (Ho j Hj Ep) as (H0 & Hr & _). set (f := page_of (entry s vm (v + j))) in *.
    rewrite (proj2 (Z.eqb_neq f 0)) by lia. simpl.
    assert (refs s1 f = refs s f) as Hsame.
    { apply (fd_out _ _ _ _ _ F). intros i Hij Hp E. assert (i = j) by (apply Hi; [lia|lia|done|done|done]). lia. }
    apply wp_pmm_free; [apply V1|lia|]. intros s2 Ew Et M2 Hdec Hrest _. split.
    + by rewrite Ew, (fd_words _ _ _ _ _ F).
    + by rewrite Et, (fd_top _ _ _ _ _ F).
    + done.
    + intros i Hij Hp. destruct (decide (i = j)) as [->|]; [fold f; lia|].
      rewrite Hrest; [apply (fd_in _ _ _ _ _ F); [lia|done]|]. intros E. assert (i = j) by (apply Hi; [lia|lia|done|done|done]). lia.
    + intros g Hg. rewrite Hrest; [apply (fd_out _ _ _ _ _ F); intros i Hij; apply Hg; lia|].
      intros ->. exact (Hg j ltac:(lia) Ep eq_refl).
  - intros [] s'. by rewrite Z.max_r.
Qed.

Lemma wp_va_free_region s vm v n :
  vm_ok s vm → 0 <= v → 0 < n → v + n < 1048576 → owns s vm v n →
  (∀ i, KERNEL_PD_START <= i → ¬ (v <= 1024 * i ∧ 1024 * i + 1024 <= v + n)) →
  wp (va_free_region vm (4096 * v) (4096 * n)) s (λ _ s', ∃ s1,
    freed s vm v n s1 ∧ unmap_step vm s1 s' ∧ unmapped s1 vm s' v n).
Proof.
  intros V Hv Hn He Ho Hk. unfold va_free_region.
  apply wp_bind, wp_assert; [apply page_bool|]. apply wp_bind, wp_assert; [apply page_bool|].
  assert (align_up (4096 * n) PAGE_SIZE = 4096 * n) as ->.
  { unfold align_up, PAGE_SIZE. rewrite align_down_mod by (ulia || apply pow2_page). ulia. }
  cbv zeta. assert (4096 * n / PAGE_SIZE = n) as -> by (unfold PAGE_SIZE; lia).
  apply wp_bind. eapply wp_mono; [apply (wp_free_frames s vm v n); (done || lia)|]. intros [] s1 F.
  pose proof (freed_vm s vm v n n s1 V Ho ltac:(lia) F) as V1.
  apply wp_bind. eapply wp_mono; [by apply wp_hal_vm_unmap_range|].
  intros ok s2 (_ & S2 & U & _). apply wp_ret. eauto.
Qed.

(** The frames of a fresh region are owned by it. *)
Lemma va_inv_page_of s vm v n fl frm s1 i :
  va_inv s vm v n fl frm s1 → 0 <= i < n →
  page_of (entry s1 vm (v + i)) = frm i ∧ present (entry s1 vm (v + i)) = true.
Proof.
  intros I Hi. destruct (vi_frm _ _ _ _ _ _ _ I i Hi) as (_ & _ & _ & Hf).
  rewrite (vi_in _ _ _ _ _ _ _ I) by done. apply pte_word_ok; [|apply Hf].
  apply (frame_u32 s1); [apply (vi_vm _ _ _ _ _ _ _ I)|done].
Qed.

Lemma va_inv_owns s vm v n fl frm s1 : va_inv s vm v n fl frm s1 → owns s1 vm v n.
Proof.
  intros I. split.
  - intros i Hi _. destruct (va_inv_page_of _ _ _ _ _ _ _ i I Hi) as [-> _].
    destruct (vi_frm _ _ _ _ _ _ _ I i Hi) as (_ & ? & ? & _).
    split_and!; [|lia|done]. apply (refs_pos s1); [apply (vi_vm _ _ _ _ _ _ _ I)|lia].
  - intros i j Hi Hj _ _. destruct (va_inv_page_of _ _ _ _ _ _ _ i I Hi) as [-> _],
      (va_inv_page_of _ _ _ _ _ _ _ j I Hj) as [-> _]. by apply (vi_inj _ _ _ _ _ _ _ I).
Qed.

Lemma free_balance s vm v n fl frm s1 s2 s3 g :
  va_inv s vm v n fl frm s1 → freed s1 vm v n s2 → unmap_step vm s2 s3 →
  refs s g = 0 → refs s3 g = 0 ∨ part_of s3 vm g.
Proof.
  intros I F S3 Hg.
  pose proof (freed_vm s1 vm v n n s2 (vi_vm _ _ _ _ _ _ _ I) (va_inv_owns _ _ _ _ _ _ _ I) ltac:(lia) F) as V2.
  assert (refs s2 g = 0 → refs s3 g = 0) as Hz.
  { intros H0. destruct (us_refs _ _ _ S3 g) as [|(_ & Hp & _)]; [lia|].
    apply (part_frame s2 vm g V2) in Hp as [_ ?]. lia. }
  destruct (vi_new _ _ _ _ _ _ _ I g Hg) as [H0|[H1 [Hp|(i & Hi & ->)]]].
  - left. apply Hz. rewrite (fd_out _ _ _ _ _ F); [done|]. intros i Hi _ <-.
    destruct (va_inv_page_of _ _ _ _ _ _ _ i I Hi) as [E _]. rewrite E in H0.
    destruct (vi_frm _ _ _ _ _ _ _ I i Hi) as (_ & ? & _). lia.
  - assert (refs s2 g = 1) as H2.
    { rewrite (fd_out _ _ _ _ _ F); [done|]. intros i Hi _ <-.
      destruct (va_inv_page_of _ _ _ _ _ _ _ i I Hi) as [E _]. rewrite E in Hp.
      by destruct (vi_frm _ _ _ _ _ _ _ I i Hi) as (_ & _ & ? & _). }
    rewrite <- (part_of_words s1 s2 vm g (fd_words _ _ _ _ _ F)) in Hp.
    destruct (us_keep _ _ _ S3 g Hp); [auto|left; lia].
  - left. apply Hz. destruct (va_inv_page_of _ _ _ _ _ _ _ i I Hi) as [E Hpr].
    pose proof (fd_in _ _ _ _ _ F i Hi Hpr) as Hd. rewrite E in Hd. lia.
Qed.

(* ------------------------------------------------------------------ *)
(** ** Theorems *)

Lemma translate s vm p off :
  vm_ok s vm → 0 <= p < 1048576 → 0 <= off < 4096 →
  hal_vm_virt_to_phys vm (4096 * p + off) s =
  Some (if present (entry s vm p) then page_of (entry s vm p) + off else 0, s).
Proof.
  intros V Hp Ho. destruct (wp_elim _ _ _ (wp_hal_vm_virt_to_phys s vm p off V Hp Ho))
    as (pa & s' & -> & -> & ->). done.
Qed.

(** Mapping a range. Whatever the outcome, the address space stays well
    formed, pages outside the range translate as before and no frame in use
    changes its count; when [hal_vm_map_range] returns true, every address of
    the range translates to the address of [pa_start] onwards at the same
    offset. *)
Theorem hal_vm_map_range_translates s vm pa v n flags :
  vm_ok s vm → 0 <= v → 0 < n → v + n < 1048576 → is_u32 pa → pa mod 4096 = 0 →
  wp (hal_vm_map_range vm pa (4096 * v) (4096 * n) flags) s (λ ok s',
    vm_ok s' vm ∧
    (ok = true → ∀ i off, 0 <= i < n → 0 <= off < 4096 →
       hal_vm_virt_to_phys vm (4096 * (v + i) + off) s' = Some (u32 (pa + i * 4096) + off, s')) ∧
    (∀ p off, 0 <= p < 1048576 → ¬ (v <= p < v + n) → 0 <= off < 4096 →
       fst <$> hal_vm_virt_to_phys vm (4096 * p + off) s' =
       fst <$> hal_vm_virt_to_phys vm (4096 * p + off) s) ∧
    ∀ g, 0 < refs s g → refs s' g = refs s g).
Proof.
  intros V Hv Hn He Hu Hpa. eapply wp_mono; [by apply wp_hal_vm_map_range|].
  intros ok s' (S & k & Hk & Hok & _ & Mp). pose proof (ms_vm _ _ _ S) as V'. split_and!; [done|..].
  - intros Ht i off Hi Hoff. apply Hok in Ht as ->. rewrite translate by (done || lia).
    rewrite Mp, bool_decide_eq_true_2 by lia. replace (v + i - v) with i by lia.
    destruct (pte_word_ok (u32 (pa + i * 4096)) (public_flags_to_arch_flags flags)) as (_ & -> & ->);
      [apply u32_range|apply u32_aligned; lia|done].
  - intros p off Hp Hout Hoff. rewrite !translate by done. simpl.
    by rewrite Mp, bool_decide_eq_false_2 by (done || lia).
  - apply S.
Qed.

(** Unmapping a range that covers no whole kernel page table always
    succeeds: no address of the range translates afterwards, all others
    translate as before, and a frame loses a reference only if it was a page
    table that is no longer used. *)
Theorem hal_vm_unmap_range_removes s vm v n :
  vm_ok s vm → 0 <= v → 0 < n → v + n < 1048576 →
  (∀ i, KERNEL_PD_START <= i → ¬ (v <= 1024 * i ∧ 1024 * i + 1024 <= v + n)) →
  wp (hal_vm_unmap_range vm (4096 * v) (4096 * n)) s (λ ok s',
    ok = true ∧ vm_ok s' vm ∧
    (∀ p off, 0 <= p < 1048576 → 0 <= off < 4096 →
       fst <$> hal_vm_virt_to_phys vm (4096 * p + off) s' =
       if bool_decide (v <= p < v + n) then Some 0
       else fst <$> hal_vm_virt_to_phys vm (4096 * p + off) s) ∧
    ∀ g, refs s' g = refs s g ∨
         refs s' g = refs s g - 1 ∧ part_of s vm g ∧ ¬ part_of s' vm g).
Proof.
  intros V Hv Hn He Hk. eapply wp_mono; [by apply wp_hal_vm_unmap_range|].
  intros ok s' (-> & S & U & _). pose proof (us_vm _ _ _ S) as V'. split_and!; [done|done|..].
  - intros p off Hp Hoff. rewrite !translate by done. simpl. specialize (U p Hp).
    case_bool_decide; by rewrite U.
  - apply S.
Qed.

(** C14: [va_alloc_region] is all or nothing. If it returns true, every page of
    the region is backed by a frame of its own that was free before and now has
    exactly one owner. It returns false only when memory ran out: all but [n]
    of the frames that could be had are page tables of this space now. Then no
    data frame is kept: a frame that had no owner has none again unless it
    became a page table, the pages up to the one that failed are absent,
    whatever they mapped before, and the rest of the region is as it was. In
    both cases the other pages and the frames already in use are untouched. *)
Theorem va_alloc_region_all_or_nothing s vm v n flags :
  vm_ok s vm → 0 <= v → 0 <= n → v + n < 1048576 →
  wp (va_alloc_region vm (4096 * v) (4096 * n) flags) s (λ ok s',
    vm_ok s' vm ∧
    (∀ p, 0 <= p < 1048576 → ¬ (v <= p < v + n) → entry s' vm p = entry s vm p) ∧
    (∀ g, 0 < refs s g → refs s' g = refs s g) ∧
    if ok : bool then ∃ frm,
      (∀ i, 0 <= i < n →
         entry s' vm (v + i) = pte_word (frm i) (public_flags_to_arch_flags flags) ∧
         refs s (frm i) = 0 ∧ refs s' (frm i) = 1 ∧ ¬ part_of s' vm (frm i)) ∧
      (∀ i j, 0 <= i < n → 0 <= j < n → frm i = frm j → i = j)
    else
      (∀ g, refs s g = 0 → refs s' g = 0 ∨ part_of s' vm g) ∧ starved s vm n s' ∧
      ∃ k, 0 <= k < n ∧ (∀ i, 0 <= i < k → present (entry s' vm (v + i)) = false) ∧
        ∀ i, k <= i < n → entry s' vm (v + i) = entry s vm (v + i)).
Proof.
  intros V Hv Hn He. eapply wp_mono; [by apply wp_va_alloc_region|]. intros [] s'.
  - intros (frm & I). pose proof I as [V' _ Hin Hout Hfrm Hinj Hold _ _ _ _].
    split_and!; [done|done|done|]. exists frm. split; [|done].
    intros i Hi. destruct (Hfrm i Hi) as (? & ? & ? & _). rewrite Hin by done. done.
  - intros (k & frm & Hk & U & Hs). pose proof U as [V' _ Hgone _ Hout _ _ Hold Hnew _].
    split_and!; [done|intros; apply Hout; [done|lia]|done| |done|].
    + intros g Hg. destruct (Hnew g Hg) as [|[_ [|(i & Hi & _)]]]; [auto|auto|lia].
    + exists k. split_and!; [lia|lia|done|]. intros i Hi. apply Hout; lia.
Qed.

(** Allocating a region and freeing it leaves the page counts as they were,
    up to page tables that were created on the way and are still part of the
    address space or were given back. *)
Theorem va_alloc_free_balanced s vm v n flags :
  vm_ok s vm → 0 <= v → 0 < n → v + n <= 1024 * KERNEL_PD_START →
  wp (ok ← va_alloc_region vm (4096 * v) (4096 * n) flags;
      when ok (va_free_region vm (4096 * v) (4096 * n))) s (λ _ s',
    vm_ok s' vm ∧
    (∀ i, 0 <= i < n → present (entry s' vm (v + i)) = false ∨
                       entry s' vm (v + i) = entry s vm (v + i)) ∧
    (∀ g, refs s g = 0 → refs s' g = 0 ∨ part_of s' vm g)).
Proof.
  intros V Hv Hn He. change KERNEL_PD_START with 768 in *.
  apply wp_bind. eapply wp_mono; [apply (wp_va_alloc_region s vm v n); (done || lia)|]. intros [] s1.
  2:{ intros (k & frm & Hk & U & _). apply wp_ret. pose proof U as [V' _ Hgone _ Hout _ _ _ Hnew _].
      split_and!; [done|..].
      - intros i Hi. destruct (Z_lt_dec i k); [left; apply Hgone; lia|right; apply Hout; lia].
      - intros g Hg. destruct (Hnew g Hg) as [|[_ [|(i & Hi & _)]]]; [auto|auto|lia]. }
  intros (frm & I). pose proof (va_inv_owns _ _ _ _ _ _ _ I) as Ho.
  simpl. eapply wp_mono; [apply (wp_va_free_region s1 vm v n); [apply I|lia|lia|lia|done|]|].
  { intros i Hi. change KERNEL_PD_START with 768 in *. lia. }
  intros [] s3 (s2 & F & S3 & U3). split_and!; [apply S3|..].
  - intros i Hi. left. specialize (U3 (v + i) ltac:(lia)).
    by rewrite bool_decide_eq_true_2 in U3 by lia.
  - intros g Hg. by eapply free_balance.
Qed.
End spec.

(* ------------------------------------------------------------------ *)
(** ** Witnesses *)

(** A directory in a fresh machine: all its entries are absent. *)
Lemma wp_empty_create `{FA : FrameAllocator St} (s : vmst St) :
  mem_ok s →
  wp hal_vm_empty_arch_vm_create s (λ r s', match r with
    | None => s' = s
    | Some vm => vm_ok s' vm ∧ (∀ p, 0 <= p < 1048576 → entry s' vm p = 0) ∧
                 refs s (pd_phys vm) = 0 ∧ refs s' (pd_phys vm) = 1 ∧
                 ∀ g, g ≠ pd_phys vm → refs s' g = refs s g
    end).
Proof.
  intros M. unfold hal_vm_empty_arch_vm_create, allocate_page_table.
  apply wp_bind, wp_bind, wp_pmm_alloc; [done|intros Hx; simpl; apply wp_ret; simpl; by apply wp_ret|].
  intros f s1 Ew Et M1 Hf Hfree Hone Hrest Hav.
  assert (f =? 0 = false) as Hf0 by (apply Z.eqb_neq, Z.neq_sym, Z.lt_neq, (refs_pos s1); [done|lia]).
  rewrite Hf0.
  apply wp_bind. eapply wp_mono; [by apply wp_page_zero|]. intros [] s2 W. apply wp_ret, wp_ret.
  rewrite Hf0. set (vm := ArchVm (u32 (f + KERNEL_BASE)) f).
  assert (∀ i, 0 <= i < 1024 → pde s2 vm i = 0) as Hp.
  { intros i Hi. unfold pde. simpl. by rewrite <- (wr_in _ _ _ _ _ _ W i). }
  assert (∀ i, 0 <= i < 1024 → present (pde s2 vm i) = false) as Hp' by (intros; by rewrite Hp).
  split_and!.
  - split.
    + eapply mem_ok_wrote; [exact M1|exact W|ulia].
    + simpl. by apply (mem_window s1 f).
    + rewrite (refs_wrote s1 s2 _ _ _ _ _ W). split; [|simpl; lia].
      eapply frame_in_top; [apply W|done].
    + intros i Hi Hc. by rewrite Hp' in Hc.
    + intros i j Hi _ Hc. by rewrite Hp' in Hc.
  - intros p Hpr. unfold entry. rewrite Hp' by lia. done.
  - done.
  - by rewrite (refs_wrote s1 s2 _ _ _ _ _ W).
  - intros g Hg. rewrite (refs_wrote s1 s2 _ _ _ _ _ W). auto.
Qed.

(** The frame allocator after bring-up on 16 frames, in an empty memory. *)
Definition demo_pmm : pmm :=
  match pmm_init demo_m demo_usable demo_critical pmm_boot with
  | Some (_, x) => x | None => pmm_boot end.

(** One more page and one more directory fit. *)
Definition page_then_directory (vm : arch_vm_t) (s : vmst pmm) : bool :=
  match va_alloc_region vm (4096 * 1024) (4096 * 1) 3 s with
  | Some (true, s1) =>
      match hal_vm_empty_arch_vm_create s1 with Some (Some _, _) => true | _ => false end
  | _ => false
  end.

Definition demo_memory : vmst pmm := Vmst demo_pmm (λ _, 0) 65536.

Lemma demo_memory_ok : mem_ok demo_memory.
Proof.
  destruct demo_ok as (H1 & H2 & H3 & H4 & H5).
  destruct (wp_elim _ _ _ (wp_pmm_init demo_m demo_usable demo_critical H1 H2 H3 H4 H5))
    as ([] & a & E & I & R & _).
  unfold demo_memory, demo_pmm. rewrite E.
  assert (pmm_ok a) as Ok by (split; [done|by rewrite R]). split; [done| |simpl; ulia].
  simpl. unfold limit. rewrite (pi_total a I), R. vm_compute. split; discriminate.
Qed.

Lemma machine : ∃ (s : vmst pmm) vm,
  vm_ok s vm ∧ (∀ p, 0 <= p < 1048576 → entry s vm p = 0) ∧
  fst <$> hal_vm_map_range vm 36864 4194304 8192 3 s = Some true ∧
  fst <$> va_alloc_region vm 4194304 8192 3 s = Some true ∧
  fst <$> va_alloc_region vm 4194304 65536 3 s = Some false ∧
  page_then_directory vm s = true ∧ hal_vm_empty_arch_vm_create demo_memory = Some (Some vm, s).
Proof.
  destruct (wp_elim _ _ _ (wp_empty_create _ demo_memory_ok)) as (r & s & Ec & Hr).
  assert (from_option (λ '(o, s), from_option (λ vm,
       bool_decide (fst <$> hal_vm_map_range vm 36864 4194304 8192 3 s = Some true) &&
       bool_decide (fst <$> va_alloc_region vm 4194304 8192 3 s = Some true) &&
       bool_decide (fst <$> va_alloc_region vm 4194304 65536 3 s = Some false) &&
       page_then_directory vm s) false o) false
     (hal_vm_empty_arch_vm_create demo_memory) = true) as Hx
    by (vm_compute; reflexivity).
  rewrite Ec in Hx. destruct r as [vm|]; [|discriminate Hx]. cbn [from_option] in Hx.
  apply andb_true_iff in Hx as [[[Ha%bool_decide_eq_true Hb%bool_decide_eq_true]%andb_true_iff
                                Hc%bool_decide_eq_true]%andb_true_iff Hd].
  destruct Hr as (V & He & _). exists s, vm. exact (conj V (conj He (conj Ha (conj Hb (conj Hc (conj Hd Ec)))))).
Qed.

Lemma hal_vm_map_range_translates_witness : ∃ (s s' : vmst pmm) vm,
  vm_ok s vm ∧ hal_vm_map_range vm 36864 (4096 * 1024) (4096 * 2) 3 s = Some (true, s') ∧
  hal_vm_virt_to_phys vm (4096 * (1024 + 1) + 5) s' = Some (u32 (36864 + 1 * 4096) + 5, s').
Proof.
  destruct machine as (s & vm & V & _ & Hm & _).
  destruct (wp_elim _ _ _ (hal_vm_map_range_translates s vm 36864 1024 2 3 V
    ltac:(lia) ltac:(lia) ltac:(lia) ltac:(ulia) eq_refl)) as (ok & s' & E & _ & Ht & _).
  change 4194304 with (4096 * 1024) in Hm. change 8192 with (4096 * 2) in Hm.
  rewrite E in Hm. injection Hm as ->.
  exists s, s', vm. split; [exact V|]. split; [exact E|].
  exact (Ht eq_refl 1 5 ltac:(lia) ltac:(lia)).
Defined.

Lemma hal_vm_unmap_range_removes_witness : ∃ (s s' : vmst pmm) vm,
  vm_ok s vm ∧ hal_vm_unmap_range vm (4096 * 1024) (4096 * 2) s = Some (true, s') ∧
  fst <$> hal_vm_virt_to_phys vm (4096 * 1025 + 5) s' = Some 0.
Proof.
  destruct machine as (s & vm & V & _).
  destruct (wp_elim _ _ _ (hal_vm_unmap_range_removes s vm 1024 2 V
    ltac:(lia) ltac:(lia) ltac:(lia) ltac:(intros i Hi; lia))) as (ok & s' & E & -> & _ & Ht & _).
  exists s, s', vm. split; [exact V|]. split; [exact E|].
  exact (Ht 1025 5 ltac:(lia) ltac:(lia)).
Defined.

Lemma va_alloc_region_all_or_nothing_witness : ∃ (s s' s'' : vmst pmm) vm frm,
  vm_ok s vm ∧ va_alloc_region vm (4096 * 1024) (4096 * 2) 3 s = Some (true, s') ∧
  refs s' (frm 0) = 1 ∧ refs s' (frm 1) = 1 ∧ frm 0 ≠ frm 1 ∧
  va_alloc_region vm (4096 * 1024) (4096 * 16) 3 s = Some (false, s'') ∧
  (refs s (frm 0) = 0 → refs s'' (frm 0) = 0 ∨ part_of s'' vm (frm 0)).
Proof.
  destruct machine as (s & vm & V & _ & _ & Hok & Hno & _).
  change 4194304 with (4096 * 1024) in Hok, Hno. change 8192 with (4096 * 2) in Hok.
  change 65536 with (4096 * 16) in Hno.
  destruct (wp_elim _ _ _ (va_alloc_region_all_or_nothing s vm 1024 2 3 V
    ltac:(lia) ltac:(lia) ltac:(lia))) as (ok & s' & E & _ & _ & _ & Hr).
  rewrite E in Hok. injection Hok as ->. destruct Hr as (frm & Hf & Hinj).
  destruct (wp_elim _ _ _ (va_alloc_region_all_or_nothing s vm 1024 16 3 V
    ltac:(lia) ltac:(lia) ltac:(lia))) as (ok & s'' & E' & _ & _ & _ & Hr').
  rewrite E' in Hno. injection Hno as ->. destruct Hr' as [Hfree _].
  exists s, s', s'', vm, frm. split; [exact V|]. split; [exact E|].
  split; [apply (Hf 0); lia|]. split; [apply (Hf 1); lia|].
  split; [intros H; apply (Hinj 0 1 ltac:(lia) ltac:(lia)) in H; lia|].
  split; [exact E'|apply Hfree].
Defined.

Lemma va_alloc_free_balanced_witness : ∃ (s s' : vmst pmm) vm,
  vm_ok s vm ∧
  (ok ← va_alloc_region vm (4096 * 1024) (4096 * 2) 3;
   when ok (va_free_region vm (4096 * 1024) (4096 * 2))) s = Some (tt, s') ∧
  ∀ g, refs s g = 0 → refs s' g = 0 ∨ part_of s' vm g.
Proof.
  destruct machine as (s & vm & V & _).
  destruct (wp_elim _ _ _ (va_alloc_free_balanced s vm 1024 2 3 V
    ltac:(lia) ltac:(lia) ltac:(vm_compute; discriminate))) as ([] & s' & E & _ & _ & Hr).
  exists s, s', vm. split; [exact V|]. split; [exact E|exact Hr].
Defined.
