(* ===== verification/Cow.v ===== *)
(** * Copy on write

    The sharing of pages between address spaces in
    [kernel/src/arch/i686/hal_vmm.c]: marking ([hal_vmm_set_cow]), copying the
    tables of the parent ([hal_vm_arch_clone]), and resolving a write fault
    ([hal_vmm_handle_cow]). The operations are defined in [Paging]. *)

From S2P Require Import Prelude Range FrameAlloc Pmm Paging VaAlloc.

(* ------------------------------------------------------------------ *)
(** ** Flags *)

Lemma not_bit k i :
  0 <= k < 32 → Z.testbit (not32 (2 ^ k)) i = (0 <=? i) && (i <? 32) && negb (i =? k).
Proof.
  intros Hk. assert (not32 (2 ^ k) = Z.ldiff (Z.ones 32) (2 ^ k)) as ->.
  { unfold not32. change 4294967295 with (Z.ones 32). apply Z.sub_nocarry_ldiff.
    apply Z.ldiff_ones_r_low; [lia|]. rewrite Z.log2_pow2 by lia. lia. }
  destruct (Z.leb_spec 0 i) as [Hi|Hi]; [|by rewrite Z.testbit_neg_r].
  rewrite Z.ldiff_spec, Z.testbit_ones by lia.
  destruct (Z.eqb_spec i k) as [->|Hne].
  - by rewrite Z.pow2_bits_true, !andb_false_r by lia.
  - rewrite Z.pow2_bits_false by lia. by destruct (Z.leb_spec 0 i); [|lia].
Qed.

Lemma u32_land a b : is_u32 b → is_u32 (Z.land a b).
Proof.
  intros Hb. assert (Z.land b (Z.ones 32) = b) as E.
  { rewrite Z.land_ones by lia. by apply Z.mod_small. }
  rewrite <- E, Z.land_assoc, Z.land_ones by lia. apply Z.mod_pos_bound. lia.
Qed.

Lemma u32_lor a b : is_u32 a → is_u32 b → is_u32 (Z.lor a b).
Proof.
  intros Ha Hb. assert (Z.lor a b = Z.land (Z.lor a b) (Z.ones 32)) as ->; [|apply u32_land; done].
  rewrite Z.land_lor_distr_l, !Z.land_ones by lia. change (2 ^ 32) with 4294967296.
  rewrite !Z.mod_small by done. done.
Qed.

Lemma rw_bit x : has x ARCH_PD_PT_READWRITE = Z.testbit x 1.
Proof. apply (has_bit x 1). lia. Qed.
Lemma cow_bit x : has x PT_COW = Z.testbit x 9.
Proof. apply (has_bit x 9). lia. Qed.
Lemma flag_bits f k i : f = 2 ^ k → 0 <= k → 0 <= i → Z.testbit f i = (i =? k).
Proof.
  intros -> Hk Hi. destruct (Z.eqb_spec i k) as [->|]; [by apply Z.pow2_bits_true|].
  by apply Z.pow2_bits_false.
Qed.

(** The entry after a write fault: [new] with the old flags, writable and no
    longer copy on write. *)
Definition unshared (new e : Z) : Z :=
  Z.land (Z.lor (Z.lor new (Z.land e 4095)) ARCH_PD_PT_READWRITE) (not32 PT_COW).

Lemma unshared_ok new e :
  is_u32 new → new mod 4096 = 0 →
  is_u32 (unshared new e) ∧ page_of (unshared new e) = new ∧
  present (unshared new e) = present e ∧
  has (unshared new e) ARCH_PD_PT_READWRITE = true ∧ has (unshared new e) PT_COW = false.
Proof.
  intros Hu Ha. assert (∀ i, 0 <= i → Z.testbit (unshared new e) i =
    (Z.testbit new i || (Z.testbit e i && (i <? 12)) || (i =? 1)) && ((i <? 32) && negb (i =? 9))) as B.
  { intros i Hi. unfold unshared. rewrite Z.land_spec, !Z.lor_spec, Z.land_spec.
    change PT_COW with (2 ^ 9). rewrite (not_bit 9) by lia. change 4095 with (Z.ones 12).
    rewrite Z.testbit_ones, (flag_bits ARCH_PD_PT_READWRITE 1) by (done || lia).
    by destruct (Z.leb_spec 0 i); [|lia]. }
  split_and!.
  - apply u32_land. unfold PT_COW. ulia.
  - apply eq_trans with (page_of new); [|rewrite page_of_eq by done; lia].
    apply Z.bits_inj'. intros i Hi. unfold page_of. rewrite !Z.land_spec, page_mask_bit, B by done.
    destruct (Z.leb_spec 12 i), (Z.ltb_spec i 32), (Z.eqb_spec i 1), (Z.eqb_spec i 9), (Z.ltb_spec i 12);
      try lia; simpl; by rewrite ?andb_false_r, ?andb_true_r, ?orb_false_r.
  - rewrite !present_bit, B by lia. rewrite (page_bit new) by (done || lia). simpl.
    by rewrite !andb_true_r, orb_false_r.
  - rewrite rw_bit, B by lia. by rewrite orb_true_r.
  - rewrite cow_bit, B by lia. by rewrite andb_false_r.
Qed.

(** The entry of a page that has become shared. *)
Definition cow_word (e : Z) : Z :=
  if present e then
    if has e ARCH_PD_PT_READWRITE then Z.land (Z.lor e PT_COW) (not32 ARCH_PD_PT_READWRITE) else e
  else e.

Lemma cow_word_ok e :
  is_u32 e →
  is_u32 (cow_word e) ∧ present (cow_word e) = present e ∧ page_of (cow_word e) = page_of e ∧
  (present e = true → has (cow_word e) ARCH_PD_PT_READWRITE = false ∧
     has (cow_word e) PT_COW = has e ARCH_PD_PT_READWRITE || has e PT_COW).
Proof.
  intros Hu. unfold cow_word. destruct (present e) eqn:Ep; [|by rewrite Ep].
  destruct (has e ARCH_PD_PT_READWRITE) eqn:Er; [|by rewrite Ep, Er].
  set (w := Z.land _ _). assert (∀ i, 0 <= i → Z.testbit w i =
    (Z.testbit e i || (i =? 9)) && ((i <? 32) && negb (i =? 1))) as B.
  { intros i Hi. unfold w. rewrite Z.land_spec, Z.lor_spec.
    change ARCH_PD_PT_READWRITE with (2 ^ 1). rewrite (not_bit 1) by lia.
    rewrite (flag_bits PT_COW 9) by (done || lia). by destruct (Z.leb_spec 0 i); [|lia]. }
  rewrite present_bit, rw_bit, cow_bit, !B, <- present_bit, Ep by lia. split_and!; try done.
  - apply u32_land. unfold ARCH_PD_PT_READWRITE. ulia.
  - apply Z.bits_inj'. intros i Hi. unfold page_of. rewrite !Z.land_spec, page_mask_bit, B by done.
    destruct (Z.leb_spec 12 i), (Z.ltb_spec i 32), (Z.eqb_spec i 1), (Z.eqb_spec i 9);
      try lia; simpl; by rewrite ?andb_false_r, ?andb_true_r, ?orb_false_r.
  - intros _. split; [by rewrite andb_false_r|by rewrite orb_true_r].
Qed.

Section spec.
Context `{FA : FrameAllocator St}.
Notation Vm := (vmst St).

Lemma wp_pmm_inc s g (Q : unit → Vm → Prop) :
  mem_ok s → 0 < refs s g < 65535 →
  (∀ s', words s' = words s → top s' = top s → mem_ok s' →
     refs s' g = refs s g + 1 → (∀ h, h ≠ g → refs s' h = refs s h) →
     (∀ h, avail s' h ↔ avail s h) → Q tt s') →
  wp (pmm_inc g) s Q.
Proof.
  intros [Ha Ht Hw] Hg HQ. apply wp_zoom. eapply wp_mono; [by apply fa_inc_ok|].
  intros [] a (Hi & Hl & Hu & Hav). apply HQ; try done.
  - split; [done|simpl; lia|done].
  - by apply (refs_upd_eq _ _ _ _ Hu).
  - intros h Hh. by apply (refs_upd_ne _ _ _ _ _ Hu).
Qed.

Lemma wp_pmm_get s g (Q : Z → Vm → Prop) :
  mem_ok s → 0 < refs s g → Q (refs s g) s → wp (pmm_get g) s Q.
Proof.
  intros [Ha Ht Hw] Hg HQ. apply wp_zoom. eapply wp_mono; [by apply fa_get_ok|].
  intros n a [-> ->]. by destruct s.
Qed.

Lemma wrote_twice (s s' s'' : Vm) f i a b :
  wrote s s' f i 1 (λ _, a) → wrote s' s'' f i 1 (λ _, b) → wrote s s'' f i 1 (λ _, b).
Proof.
  intros [A1 T1 I1 O1] [A2 T2 I2 O2]. split; [congruence|congruence|done|].
  intros x Hx. rewrite O2, O1 by done. done.
Qed.

(** Two updates of a word in a row. *)
Lemma wp_update_twice {A} s f i q (a b : Z → Z) (k : M Vm A) (Q : A → Vm → Prop) :
  frame_in s f → 0 <= i < 1024 → q = f + KERNEL_BASE + 4 * i →
  (∀ s', wrote s s' f i 1 (λ _, b (a (words s (f + 4 * i)))) → wp k s' Q) →
  wp (v ← ldw q; stw q (a v) ;; v ← ldw q; stw q (b v) ;; k) s Q.
Proof.
  intros Hf Hi -> HQ. apply wp_bind. eapply (wp_ldw s _ f i); [done|done|done|].
  apply wp_bind. eapply (wp_stw s _ f i); [done|done|done|]. intros s1 W1.
  assert (frame_in s1 f) as Hf1 by (eapply frame_in_top; [apply W1|done]).
  apply wp_bind. eapply (wp_ldw s1 _ f i); [done|done|done|].
  apply wp_bind. eapply (wp_stw s1 _ f i); [done|done|done|]. intros s2 W2. apply HQ.
  pose proof (wr_in _ _ _ _ _ _ W1 0 ltac:(lia)) as E. rewrite Z.add_0_r in E. rewrite E in W2.
  by eapply wrote_twice.
Qed.

(** Writing in a page that is no part of the address space. *)
Lemma wrote_outside s s' vm f n val :
  vm_ok s vm → wrote s s' f 0 n val → f mod 4096 = 0 → 0 <= n <= 1024 →
  (∀ i, 0 <= i < n → is_u32 (val i)) → ¬ part_of s vm f →
  vm_ok s' vm ∧ (∀ p, 0 <= p < 1048576 → entry s' vm p = entry s vm p) ∧
  (∀ i, 0 <= i < 1024 → pde s' vm i = pde s vm i) ∧ (∀ g, part_of s' vm g ↔ part_of s vm g).
Proof.
  intros V W Hf Hn Hv Hp. assert (f ≠ pd_phys vm) as Hne by (intros ->; apply Hp; by left).
  assert (∀ i, 0 <= i < 1024 → pde s' vm i = pde s vm i) as Epd
    by (intros; by apply (wrote_pde s s' vm f 0 n val V W Hf ltac:(lia) ltac:(lia))).
  split_and!; [|..|done|].
  - apply (wrote_vm_ok s s' vm f 0 n val V W Hf ltac:(lia) ltac:(lia) ltac:(lia) Hv Hne).
  - intros p Hpr. apply (wrote_entry_out s s' vm f 0 n val V W Hf ltac:(lia) ltac:(lia) ltac:(lia) Hv);
      [done|done|]. intros Hpp <-. destruct Hp. right. exists (p / 1024). split_and!; [lia..|done|done].
  - intros g. apply (wrote_parts s s' vm f 0 n val g V W Hf Hne); lia.
Qed.

(** What a resolved fault on page [v] leaves, the copy being in page [new]. *)
Record resolved (s : Vm) (vm : arch_vm_t) (v new : Z) (s' : Vm) : Prop := {
  rs_vm : vm_ok s' vm;
  rs_entry : entry s' vm v = unshared new (entry s vm v);
  rs_others : ∀ p, 0 <= p < 1048576 → p ≠ v → entry s' vm p = entry s vm p;
  rs_copy : ∀ i, 0 <= i < 1024 →
    words s' (new + 4 * i) = words s (page_of (entry s vm v) + 4 * i)
}.

(** The copy and the update of the entry, from the state [s2] after [pmm_frame_alloc]. *)
Lemma wp_cow_copy {A} s2 vm v new (k : M Vm A) (Q : A → Vm → Prop) :
  vm_ok s2 vm → 0 <= v < 1048576 → present (pde s2 vm (v / 1024)) = true →
  let old := page_of (entry s2 vm v) in
  frame_in s2 old → 0 < old → frame_in s2 new → new ≠ old → ¬ part_of s2 vm new →
  let pte := table s2 vm (v / 1024) + KERNEL_BASE + 4 * (v mod 1024) in
  (∀ s', falloc s' = falloc s2 → top s' = top s2 → resolved s2 vm v new s' → wp k s' Q) →
  wp (phys_copy new old ;;
      w ← ldw pte;
      stw pte (Z.lor (Z.lor new (Z.land w 4095)) ARCH_PD_PT_READWRITE) ;;
      w ← ldw pte;
      stw pte (Z.land w (not32 PT_COW)) ;;
      k) s2 Q.
Proof.
  intros V Hv Hp old Hold Hpos Hnew Hne Hpart pte HQ. pose proof (vo_mem s2 vm V) as M.
  assert (∀ f, frame_in s2 f → u32 (f + KERNEL_BASE) = f + KERNEL_BASE) as Hw
    by (intros; by apply (mem_window s2)).
  destruct (vo_table s2 vm V (v / 1024) ltac:(lia) Hp) as (Hf & Hr & Hpd).
  set (t := table s2 vm (v / 1024)) in *.
  assert (t ≠ new) as Htn by (intros E; apply Hpart; right; exists (v / 1024); split_and!; [lia..|done|done]).
  apply wp_bind. unfold phys_copy. rewrite !Hw by done.
  eapply wp_mono; [by apply wp_page_copy|]. intros [] s3 W3.
  destruct (wrote_outside s2 s3 vm new 1024 _ V W3) as (V3 & E3 & P3 & _);
    [apply Hnew|lia|intros; apply M|done|].
  assert (table s3 vm (v / 1024) = t) as Et3 by (unfold table; rewrite P3 by lia; done).
  assert (present (pde s3 vm (v / 1024)) = true) as Hp3 by (rewrite P3 by lia; done).
  assert (words s3 (t + 4 * (v mod 1024)) = entry s2 vm v) as Ew3.
  { rewrite <- E3 by done. unfold entry. by rewrite Hp3, Et3. }
  apply (wp_update_twice s3 t (v mod 1024) pte
    (λ w, Z.lor (Z.lor new (Z.land w 4095)) ARCH_PD_PT_READWRITE) (λ w, Z.land w (not32 PT_COW)));
    [by eapply frame_in_top; [apply W3|]|lia|done|].
  rewrite Ew3. fold (unshared new (entry s2 vm v)). intros s4 W4.
  assert (is_u32 new) as Hnu by (by apply (frame_u32 s2)).
  destruct (unshared_ok new (entry s2 vm v) Hnu (proj1 (proj2 Hnew))) as (Hu & _).
  assert (∀ i : Z, 0 <= i < 1 → is_u32 (unshared new (entry s2 vm v))) as Hu' by done.
  apply HQ; [by rewrite (wr_falloc _ _ _ _ _ _ W4), (wr_falloc _ _ _ _ _ _ W3)
            |by rewrite (wr_top _ _ _ _ _ _ W4), (wr_top _ _ _ _ _ _ W3)|]. split.
  - apply (wrote_vm_ok s3 s4 vm t (v mod 1024) 1 _ V3 W4 (proj1 (proj2 Hf)) ltac:(lia) ltac:(lia) ltac:(lia) Hu' Hpd).
  - replace v with (1024 * (v / 1024) + (v mod 1024 + 0)) at 1 by lia.
    by apply (wrote_entry_in s3 s4 vm t (v mod 1024) 1 _ V3 W4 (proj1 (proj2 Hf)) ltac:(lia) ltac:(lia) ltac:(lia) Hu'); [lia|..].
  - intros p Hpr Hpv. rewrite <- E3 by done.
    apply (wrote_entry_out s3 s4 vm t (v mod 1024) 1 _ V3 W4 (proj1 (proj2 Hf)) ltac:(lia) ltac:(lia) ltac:(lia) Hu'); [done|done|].
    intros Hpp Ep. rewrite <- Et3 in Ep. apply (vo_inj s3 vm V3) in Ep; [|lia|lia|done|done]. lia.
  - intros i Hi. rewrite (wrote_elsewhere s3 s4 _ _ _ _ new _ W4); [|apply Hf|apply Hnew|lia|lia|done|lia].
    exact (wr_in _ _ _ _ _ _ W3 i Hi).
Qed.

Lemma resolved_refs s vm v new s' s'' :
  resolved s vm v new s' → words s'' = words s' → top s'' = top s' → mem_ok s'' →
  (∀ g, part_of s' vm g → 0 < refs s'' g) → resolved s vm v new s''.
Proof.
  intros [H1 H2 H3 H4] Ew Et M Hr. split.
  - by eapply vm_ok_refs.
  - by rewrite (entry_words s' s'').
  - intros p Hp Hn. rewrite (entry_words s' s'') by done. auto.
  - intros i Hi. rewrite Ew. auto.
Qed.

Lemma wp_get_pte_ptr s vm v off :
  vm_ok s vm → 0 <= v < 1048576 → 0 <= off < 4096 → present (pde s vm (v / 1024)) = true →
  wp (get_pte_ptr vm (4096 * v + off)) s (λ q s',
    q = table s vm (v / 1024) + KERNEL_BASE + 4 * (v mod 1024) ∧ s' = s).
Proof.
  intros V Hv Ho Hp. destruct (vo_pd_frame s vm V) as [Hpf _].
  destruct (page_index_off v off Hv Ho) as (E1 & E2 & _). unfold get_pte_ptr. rewrite E1, E2.
  apply wp_bind. eapply (wp_ldw s _ (pd_phys vm) (v / 1024)); [done|lia|by rewrite (vo_pd s vm V)|].
  fold (pde s vm (v / 1024)) (present (pde s vm (v / 1024))). rewrite Hp. simpl. apply wp_ret.
  fold (table s vm (v / 1024)). destruct (vo_table s vm V (v / 1024) ltac:(lia) Hp) as (Hf & _).
  by rewrite (mem_window s) by (done || apply V).
Qed.

(** From the state [s2] after the allocation to the end. *)
Lemma wp_cow_tail s s2 vm v new :
  let old := page_of (entry s vm v) in
  vm_ok s vm → 0 <= v < 1048576 → present (pde s vm (v / 1024)) = true → frame_in s old → 0 < old →
  vm_ok s2 vm → words s2 = words s → top s2 = top s → 1 < refs s2 old →
  frame_in s2 new → new ≠ old → ¬ part_of s2 vm new →
  let pte := table s vm (v / 1024) + KERNEL_BASE + 4 * (v mod 1024) in
  wp (phys_copy new old ;;
      w ← ldw pte;
      stw pte (Z.lor (Z.lor new (Z.land w 4095)) ARCH_PD_PT_READWRITE) ;;
      w ← ldw pte;
      stw pte (Z.land w (not32 PT_COW)) ;;
      pmm_free old) s2 (λ _ s',
    resolved s vm v new s' ∧ refs s' old = refs s2 old - 1 ∧
    ∀ g, g ≠ old → refs s' g = refs s2 g).
Proof.
  intros old V Hv Hp Hold Hpos V2 Ew Et Hr Hnew Hne Hpart pte.
  assert (∀ i, pde s2 vm i = pde s vm i) as Ep by (intros; unfold pde; by rewrite Ew).
  assert (pte = table s2 vm (v / 1024) + KERNEL_BASE + 4 * (v mod 1024)) as Epte
    by (unfold pte, table; by rewrite Ep).
  assert (old = page_of (entry s2 vm v)) as Eo by (by rewrite (entry_words s s2)).
  rewrite Epte, Eo. apply (wp_cow_copy s2 vm v new); rewrite <- ?Eo; try done.
  { by rewrite Ep. }
  { by eapply frame_in_top. }
  intros s3 Ea Et3 R3. assert (∀ g, refs s3 g = refs s2 g) as Er by (intros; unfold refs; by rewrite Ea).
  apply wp_pmm_free; [apply R3|rewrite Er; lia|]. intros s4 Ew4 Et4 M4 Hdec Hrest4 _.
  rewrite Er in Hdec. split_and!; [|done|intros g Hg; by rewrite Hrest4, Er].
  apply (resolved_refs s vm v new s3 s4); try done.
  - destruct R3 as [H1 H2 H3 H4]. rewrite !(entry_words s s2) in H2, H4 by done.
    split; [done|done| |].
    + intros p Hpr Hn. rewrite H3 by done. by apply entry_words.
    + intros i Hi. rewrite H4 by done. by rewrite Ew.
  - intros g Hg. apply (part_frame s3 vm g (rs_vm _ _ _ _ _ R3)) in Hg as [_ Hg].
    destruct (decide (g = old)) as [->|]; [lia|]. by rewrite Hrest4.
Qed.

(** The fault on page [v] is resolved with page [new]. *)
Record cow_resolved (s : Vm) (vm : arch_vm_t) (v new : Z) (s' : Vm) : Prop := {
  cw_vm : vm_ok s' vm;
  cw_others : ∀ p, 0 <= p < 1048576 → p ≠ v → entry s' vm p = entry s vm p;
  cw_page : page_of (entry s' vm v) = new;
  cw_present : present (entry s' vm v) = present (entry s vm v);
  cw_rights : has (entry s' vm v) ARCH_PD_PT_READWRITE = true ∧ has (entry s' vm v) PT_COW = false;
  cw_copy : ∀ i, 0 <= i < 1024 → words s' (new + 4 * i) = words s (page_of (entry s vm v) + 4 * i);
  cw_old : refs s' (page_of (entry s vm v)) = refs s (page_of (entry s vm v));
  cw_new : new = 0 ∧ exhausted s ∧ (∀ g, refs s' g = refs s g) ∨
    refs s new = 0 ∧ refs s' new = 1 ∧ ∀ g, g ≠ new → refs s' g = refs s g
}.

Lemma wp_hal_vmm_handle_cow s vm v off :
  vm_ok s vm → 0 <= v < 1048576 → 0 <= off < 4096 → has (entry s vm v) PT_COW = true →
  let old := page_of (entry s vm v) in
  frame_in s old → 0 < refs s old < 65535 →
  wp (hal_vmm_handle_cow vm (4096 * v + off)) s (λ r s', r = true ∧ ∃ new, cow_resolved s vm v new s').
Proof.
  intros V Hv Hoff Hcow old Hold Hr. pose proof (vo_mem s vm V) as M.
  pose proof (refs_pos s old M ltac:(lia)) as Hpos.
  assert (present (pde s vm (v / 1024)) = true) as Hp.
  { destruct (present (pde s vm (v / 1024))) eqn:E; [done|]. unfold entry in Hcow. by rewrite E in Hcow. }
  destruct (vo_table s vm V (v / 1024) ltac:(lia) Hp) as (Hf & _ & _).
  assert (words s (table s vm (v / 1024) + 4 * (v mod 1024)) = entry s vm v) as Ew0
    by (unfold entry; by rewrite Hp).
  apply wp_bind. eapply wp_mono; [by apply wp_get_pte_ptr|]. intros q s' [-> ->].
  rewrite (proj2 (Z.eqb_neq _ 0)) by (unfold KERNEL_BASE; destruct Hf; lia).
  apply wp_bind. eapply (wp_ldw s _ (table s vm (v / 1024)) (v mod 1024)); [done|lia|done|].
  rewrite Ew0, Hcow. simpl negb. cbv iota. fold old.
  apply wp_bind, wp_pmm_inc; [done|done|]. intros s1 Ew1 Et1 M1 Hinc Hrest1 Hav1.
  assert (vm_ok s1 vm) as V1.
  { eapply vm_ok_refs; [exact V|done..|]. intros g Hg. apply (part_frame s vm g V) in Hg as [_ ?].
    destruct (decide (g = old)) as [->|]; [lia|]. by rewrite Hrest1. }
  apply wp_bind, wp_pmm_get; [done|lia|]. rewrite (proj2 (Z.ltb_lt 1 _)) by lia.
  apply wp_bind, wp_bind, wp_pmm_alloc; [done|..].
  - intros Hx. assert (frame_in s1 0) as H0 by (destruct Hold; split_and!; [lia|done|rewrite Et1; lia]).
    assert (¬ part_of s1 vm 0) as Hn0.
    { intros Hg. apply (part_frame s1 vm 0 V1) in Hg as [_ Hg]. apply (refs_pos s1) in Hg; [lia|done]. }
    eapply wp_mono; [apply (wp_cow_tail s s1 vm v 0); try done; fold old; lia|]. fold old.
    intros [] s3 (R3 & Hdec & Hrest3). apply wp_ret. split; [done|]. exists 0.
    pose proof R3 as [V3 He3 Ho3 Hc3].
    destruct (unshared_ok 0 (entry s vm v)) as (_ & Hpo & Hpr & Hrw & Hnc); [ulia|done|].
    split; rewrite ?He3; try done; [fold old; lia|]. left. split; [done|]. split; [by intros g Hg%Hav1; destruct (Hx g)|]. intros g.
    destruct (decide (g = old)) as [->|]; [lia|]. rewrite Hrest3 by done. auto.
  - intros new s2 Ew2 Et2 M2 Hnf Hfree Hone Hrest2 _.
    assert (new ≠ old) as Hno by (intros ->; lia).
    assert (¬ part_of s1 vm new) as Hnp.
    { intros Hg. apply (part_frame s1 vm new V1) in Hg as [_ Hg]. lia. }
    assert (vm_ok s2 vm) as V2.
    { eapply vm_ok_refs; [exact V1|done..|]. intros g Hg. rewrite Hrest2 by congruence.
      by apply (part_frame s1 vm g V1). }
    assert (refs s new = 0) as Hfree0 by (rewrite <- Hrest1; done).
    eapply wp_mono; [apply (wp_cow_tail s s2 vm v new); try done; fold old|].
    { by rewrite Ew2. } { by rewrite Et2. } { rewrite Hrest2; [lia|done]. }
    { by rewrite (part_of_words s1 s2 vm new Ew2). }
    fold old. intros [] s3 (R3 & Hdec & Hrest3). apply wp_ret. split; [done|]. exists new.
    pose proof R3 as [V3 He3 Ho3 Hc3].
    destruct (unshared_ok new (entry s vm v) (frame_u32 s2 new M2 Hnf) (proj1 (proj2 Hnf))) as (_ & Hpo & Hpr & Hrw & Hnc).
    assert (∀ g, g ≠ new → refs s3 g = refs s g) as Hother.
    { intros g Hg. destruct (decide (g = old)) as [->|]; [rewrite Hdec, Hrest2 by done; lia|].
      rewrite Hrest3, Hrest2, Hrest1 by done. done. }
    split; rewrite ?He3; try done; [by apply Hother|]. right. split_and!; [done| |done].
    rewrite Hrest3 by done. done.
Qed.

(** C13: resolving a copy-on-write fault on page [v]. The page afterwards maps a
    page [new] with the same contents, writable and no longer copy on write;
    every other page maps what it did. The frame that was shared keeps all its
    owners: its count is raised before it is read and lowered once after, so
    the reference this mapping held is never dropped, and the branch for a
    single owner is never taken. The page [new] is a frame that nobody owned;
    only when no frame is free is it physical page 0, which is overwritten. *)
Theorem hal_vmm_handle_cow_copies s vm v off :
  vm_ok s vm → 0 <= v < 1048576 → 0 <= off < 4096 → has (entry s vm v) PT_COW = true →
  let old := page_of (entry s vm v) in
  frame_in s old → 0 < refs s old < 65535 →
  wp (hal_vmm_handle_cow vm (4096 * v + off)) s (λ r s', r = true ∧ ∃ new,
    vm_ok s' vm ∧
    (∀ p, 0 <= p < 1048576 → p ≠ v → entry s' vm p = entry s vm p) ∧
    page_of (entry s' vm v) = new ∧ present (entry s' vm v) = present (entry s vm v) ∧
    has (entry s' vm v) ARCH_PD_PT_READWRITE = true ∧ has (entry s' vm v) PT_COW = false ∧
    (∀ i, 0 <= i < 1024 → words s' (new + 4 * i) = words s (old + 4 * i)) ∧
    refs s' old = refs s old ∧
    (new = 0 ∧ exhausted s ∧ (∀ g, refs s' g = refs s g) ∨
     refs s new = 0 ∧ refs s' new = 1 ∧ ∀ g, g ≠ new → refs s' g = refs s g)).
Proof.
  intros V Hv Hoff Hcow old Hold Hr. eapply wp_mono; [by apply wp_hal_vmm_handle_cow|].
  intros r s' (-> & new & [H1 H2 H3 H4 [H5 H6] H7 H8 H9]). split; [done|]. by exists new.
Qed.

(* ------------------------------------------------------------------ *)
(** ** Marking the pages of the parent *)

(** Page [p] maps frame [g]; how many of the first [P] pages do. *)
Definition maps (s : Vm) (vm : arch_vm_t) (g p : Z) : bool :=
  present (entry s vm p) && (page_of (entry s vm p) =? g).
Definition shares (s : Vm) (vm : arch_vm_t) (P g : Z) : Z := count_to (maps s vm g) (Z.to_nat P).

Lemma shares_S s vm P g :
  0 <= P → shares s vm (P + 1) g = shares s vm P g + Z.b2z (maps s vm g P).
Proof.
  intros HP. unfold shares. replace (Z.to_nat (P + 1)) with (S (Z.to_nat P)) by lia. simpl.
  by rewrite Z2Nat.id.
Qed.

Lemma shares_nonneg s vm P g : 0 <= shares s vm P g.
Proof. apply (count_to_bound (maps s vm g) (Z.to_nat P)). Qed.

Lemma shares_mono s vm P Q g : 0 <= P <= Q → shares s vm P g <= shares s vm Q g.
Proof.
  intros H. replace Q with (P + Z.of_nat (Z.to_nat (Q - P))) by lia.
  induction (Z.to_nat (Q - P)) as [|n IH]; [by replace (P + Z.of_nat 0) with P by lia|].
  replace (P + Z.of_nat (S n)) with (P + Z.of_nat n + 1) by lia. rewrite shares_S by lia.
  destruct (maps s vm g (P + Z.of_nat n)); simpl; lia.
Qed.

Lemma shares_skip s vm P n g :
  0 <= P → (∀ p, P <= p < P + Z.of_nat n → present (entry s vm p) = false) →
  shares s vm (P + Z.of_nat n) g = shares s vm P g.
Proof.
  intros HP. induction n as [|n IH]; intros H; [by replace (P + Z.of_nat 0) with P by lia|].
  replace (P + Z.of_nat (S n)) with (P + Z.of_nat n + 1) by lia. rewrite shares_S by lia.
  rewrite IH by (intros; apply H; lia). unfold maps. rewrite (H (P + Z.of_nat n)) by lia. simpl. lia.
Qed.

(** Every page of the user half maps a frame in use, and the counts have room. *)
Definition user_pages : Z := 1024 * KERNEL_PD_START.
Record shareable (s : Vm) (vm : arch_vm_t) : Prop := {
  sh_used : ∀ p, 0 <= p < user_pages → present (entry s vm p) = true →
    0 < refs s (page_of (entry s vm p));
  sh_room : ∀ p, 0 <= p < user_pages → present (entry s vm p) = true →
    refs s (page_of (entry s vm p)) + shares s vm user_pages (page_of (entry s vm p)) <= 65535
}.

(** The first [P] pages have been marked. *)
Record cow_inv (s : Vm) (vm : arch_vm_t) (P : Z) (s1 : Vm) : Prop := {
  ci_vm : vm_ok s1 vm;
  ci_top : top s1 = top s;
  ci_pde : ∀ i, 0 <= i < 1024 → pde s1 vm i = pde s vm i;
  ci_done : ∀ p, 0 <= p < P → entry s1 vm p = cow_word (entry s vm p);
  ci_todo : ∀ p, P <= p < 1048576 → entry s1 vm p = entry s vm p;
  ci_refs : ∀ g, refs s1 g = refs s g + shares s vm P g;
  ci_words : ∀ g x, g mod 4096 = 0 → 0 <= x < 4096 → ¬ part_of s vm g →
    words s1 (g + x) = words s (g + x);
  ci_avail : ∀ g, avail s1 g ↔ avail s g
}.

Lemma wp_set_cow_entry s f j :
  mem_ok s → frame_in s f → 0 <= j < 1024 →
  let e := words s (f + 4 * j) in
  (present e = true → 0 < refs s (page_of e) < 65535) →
  wp (set_cow_entry (f + KERNEL_BASE + 4 * j)) s (λ _ s', ∃ s1,
    wrote s s1 f j 1 (λ _, cow_word e) ∧ words s' = words s1 ∧ top s' = top s1 ∧ mem_ok s' ∧
    (∀ g, refs s' g = refs s g + Z.b2z (present e && (page_of e =? g))) ∧ ∀ g, avail s' g ↔ avail s g).
Proof.
  intros M Hf Hj e Hr. destruct (cow_word_ok e (mo_words s M _)) as (Hu & _ & Hpg & _).
  unfold set_cow_entry. apply wp_bind. eapply (wp_ldw s _ f j); [done|done|done|].
  change (words s (f + 4 * j)) with e. fold (present e). unfold cow_word in *.
  assert (wrote s s f j 1 (λ _, e)) as W0.
  { split; try done. intros i Hi. by replace (j + i) with j by lia. }
  destruct (present e) eqn:Ep; cbn [when].
  2:{ apply wp_ret. exists s. split_and!; try done. intros g. simpl. lia. }
  specialize (Hr eq_refl).
  assert (∀ s1, wrote s s1 f j 1 (λ _, if has e ARCH_PD_PT_READWRITE
            then Z.land (Z.lor e PT_COW) (not32 ARCH_PD_PT_READWRITE) else e) →
    wp (v ← ldw (f + KERNEL_BASE + 4 * j); pmm_inc (page_of v)) s1 (λ _ s', ∃ s1,
      wrote s s1 f j 1 (λ _, if has e ARCH_PD_PT_READWRITE
            then Z.land (Z.lor e PT_COW) (not32 ARCH_PD_PT_READWRITE) else e) ∧
      words s' = words s1 ∧ top s' = top s1 ∧ mem_ok s' ∧
      (∀ g, refs s' g = refs s g + Z.b2z (true && (page_of e =? g))) ∧ ∀ g, avail s' g ↔ avail s g)) as Hinc.
  { intros s1 W1. apply wp_bind. eapply (wp_ldw s1 _ f j); [by eapply frame_in_top; [apply W1|]|done|done|].
    pose proof (wr_in _ _ _ _ _ _ W1 0 ltac:(lia)) as E. rewrite Z.add_0_r in E. rewrite E, Hpg.
    apply wp_pmm_inc; [by eapply mem_ok_wrote; [exact M|exact W1|]|by rewrite (refs_wrote s s1 _ _ _ _ _ W1)|].
    intros s2 Ew Et M2 Hone Hrest Hav. exists s1. split_and!; try done.
    2:{ intros g. rewrite Hav. unfold avail. by rewrite (wr_falloc _ _ _ _ _ _ W1). }
    intros g. simpl. destruct (Z.eqb_spec (page_of e) g) as [<-|Hne]; simpl.
    - by rewrite Hone, (refs_wrote s s1 _ _ _ _ _ W1).
    - rewrite Hrest by congruence. rewrite (refs_wrote s s1 _ _ _ _ _ W1). lia. }
  apply wp_bind. destruct (has e ARCH_PD_PT_READWRITE) eqn:Erw; cbn [when].
  - apply wp_bind. eapply (wp_stw s _ f j); [done|done|done|]. intros s1 W1.
    assert (frame_in s1 f) as Hf1 by (eapply frame_in_top; [apply W1|done]).
    apply wp_bind. eapply (wp_ldw s1 _ f j); [done|done|done|].
    pose proof (wr_in _ _ _ _ _ _ W1 0 ltac:(lia)) as E. rewrite Z.add_0_r in E. rewrite E.
    eapply (wp_stw s1 _ f j); [done|done|done|]. intros s2 W2. apply Hinc. by eapply wrote_twice.
  - apply wp_ret. by apply Hinc.
Qed.

Section mark.
Context (s : Vm) (vm : arch_vm_t) (V : vm_ok s vm) (Sh : shareable s vm).

Lemma cow_inv_page i j s1 s2a s2 :
  let P := 1024 * i + j in let e := entry s vm P in
  0 <= i < KERNEL_PD_START → 0 <= j < 1024 → present (pde s vm i) = true →
  cow_inv s vm P s1 → wrote s1 s2a (table s1 vm i) j 1 (λ _, cow_word e) →
  words s2 = words s2a → top s2 = top s2a → mem_ok s2 →
  (∀ g, refs s2 g = refs s1 g + Z.b2z (present e && (page_of e =? g))) → (∀ g, avail s2 g ↔ avail s1 g) →
  cow_inv s vm (P + 1) s2.
Proof using V Sh.
  intros P e Hi Hj Hp I W Ew Et M2 Hr Hav. change KERNEL_PD_START with 768 in *.
  pose proof (ci_vm _ _ _ _ I) as V1.
  assert (present (pde s1 vm i) = true) as Hp1 by (rewrite (ci_pde _ _ _ _ I) by lia; done).
  destruct (vo_table s1 vm V1 i ltac:(lia) Hp1) as (Hf & Hrf & Hne).
  destruct (cow_word_ok e) as (Hu & _).
  { unfold e, entry. case_match; [apply V|ulia]. }
  assert (∀ k : Z, 0 <= k < 1 → is_u32 (cow_word e)) as Hu' by done.
  assert (vm_ok s2a vm) as V2a.
  { apply (wrote_vm_ok s1 s2a vm _ j 1 _ V1 W (proj1 (proj2 Hf)) ltac:(lia) ltac:(lia) ltac:(lia) Hu' Hne). }
  assert (∀ k, 0 <= k < 1024 → pde s2 vm k = pde s1 vm k) as Epd.
  { intros k Hk. unfold pde at 1. rewrite Ew.
    apply (wrote_pde s1 s2a vm _ j 1 _ V1 W (proj1 (proj2 Hf)) ltac:(lia) ltac:(lia) k Hne Hk). }
  assert (∀ p, 0 <= p < 1048576 → p ≠ P → entry s2 vm p = entry s1 vm p) as Eo.
  { intros p Hpr Hpn. rewrite (entry_words s2a s2) by done.
    apply (wrote_entry_out s1 s2a vm _ j 1 _ V1 W (proj1 (proj2 Hf)) ltac:(lia) ltac:(lia) ltac:(lia) Hu'); [done|done|].
    intros Hpp Ep. apply (vo_inj s1 vm V1) in Ep; [|lia|lia|done|done]. unfold P in Hpn. lia. }
  assert (entry s2 vm P = cow_word e) as Ei.
  { rewrite (entry_words s2a s2) by done. unfold P. rewrite <- (Z.add_0_r j) at 1.
    by apply (wrote_entry_in s1 s2a vm _ j 1 _ V1 W (proj1 (proj2 Hf)) ltac:(lia) ltac:(lia) ltac:(lia) Hu'); [lia|..]. }
  split.
  - eapply vm_ok_refs; [exact V2a|done..|]. intros g Hg. rewrite Hr.
    apply (part_frame s2a vm g V2a) in Hg as [_ Hg]. rewrite (refs_wrote s1 s2a _ _ _ _ _ W) in Hg.
    destruct (present e && _); simpl; lia.
  - by rewrite Et, (wr_top _ _ _ _ _ _ W), (ci_top _ _ _ _ I).
  - intros k Hk. rewrite Epd by done. by apply (ci_pde _ _ _ _ I).
  - intros p Hpr. destruct (decide (p = P)) as [->|]; [done|]. rewrite Eo by lia.
    apply (ci_done _ _ _ _ I). lia.
  - intros p Hpr. rewrite Eo by lia. apply (ci_todo _ _ _ _ I). lia.
  - intros g. rewrite Hr, (ci_refs _ _ _ _ I), shares_S by lia. unfold maps. fold e. lia.
  - intros g x Hg Hx Hn. rewrite Ew, <- (ci_words _ _ _ _ I) by done.
    eapply wrote_elsewhere; [exact W|apply Hf|done|lia|lia| |done]. intros ->. apply Hn. right.
    exists i. unfold table. rewrite (ci_pde _ _ _ _ I) by lia. split_and!; [lia..|done|done].
  - intros g. rewrite Hav. apply (ci_avail _ _ _ _ I).
Qed.

Lemma shares_room p :
  0 <= p < user_pages → present (entry s vm p) = true →
  0 < refs s (page_of (entry s vm p)) + shares s vm p (page_of (entry s vm p)) < 65535.
Proof using V Sh.
  intros Hp Hpe. set (g := page_of _).
  pose proof (sh_used s vm Sh p Hp Hpe) as Hg. fold g in Hg.
  pose proof (sh_room s vm Sh p Hp Hpe) as Hroom. fold g in Hroom.
  pose proof (shares_mono s vm (p + 1) user_pages g ltac:(lia)) as Hm.
  rewrite shares_S in Hm by lia.
  assert (Z.b2z (maps s vm g p) = 1) as E by (unfold maps; rewrite Hpe, Z.eqb_refl; reflexivity).
  rewrite E in Hm. pose proof (shares_nonneg s vm p g). lia.
Qed.

Lemma wp_mark_table i s1 :
  0 <= i < KERNEL_PD_START → present (pde s vm i) = true → cow_inv s vm (1024 * i) s1 →
  wp (for_range 0 PT_ENTRIES (λ j, set_cow_entry (get_pt_virtual (table s vm i) + 4 * j))) s1
    (λ _ s', cow_inv s vm (1024 * (i + 1)) s').
Proof using V Sh.
  intros Hi Hp I. change KERNEL_PD_START with 768 in *.
  destruct (vo_table s vm V i ltac:(lia) Hp) as (Hf & _ & _).
  rewrite (mem_window s) by (done || apply V).
  eapply wp_mono; [apply (wp_for_range (λ j s', cow_inv s vm (1024 * i + j) s'))|].
  - by rewrite Z.add_0_r.
  - intros j s2 Hj I2. unfold PT_ENTRIES in Hj. pose proof (ci_vm _ _ _ _ I2) as V2.
    assert (table s2 vm i = table s vm i) as Et by (unfold table; rewrite (ci_pde _ _ _ _ I2) by lia; done).
    assert (words s2 (table s vm i + 4 * j) = entry s vm (1024 * i + j)) as Ee.
    { rewrite <- (ci_todo _ _ _ _ I2) by lia. unfold entry.
      replace ((1024 * i + j) / 1024) with i by lia. replace ((1024 * i + j) mod 1024) with j by lia.
      by rewrite Et, (ci_pde _ _ _ _ I2), Hp by lia. }
    eapply wp_mono.
    { apply wp_set_cow_entry; [apply V2|eapply frame_in_top; [apply (ci_top _ _ _ _ I2)|done]|lia|].
      rewrite Ee. intros Hpe. rewrite (ci_refs _ _ _ _ I2). apply shares_room; [|done].
      unfold user_pages. change KERNEL_PD_START with 768. lia. }
    intros [] s3 (s2a & W & Ew & Et3 & M3 & Hr & Hav). rewrite Ee in W, Hr.
    rewrite <- Et in W. rewrite Z.add_assoc. by apply (cow_inv_page i j s2 s2a s3).
  - intros [] s'. unfold PT_ENTRIES. rewrite Z.max_r by lia.
    by replace (1024 * (i + 1)) with (1024 * i + 1024) by lia.
Qed.

Lemma wp_hal_vmm_set_cow : wp (hal_vmm_set_cow vm) s (λ _ s', cow_inv s vm user_pages s').
Proof using V Sh.
  unfold hal_vmm_set_cow. destruct (vo_pd_frame s vm V) as [Hpf _].
  eapply wp_mono; [apply (wp_for_range (λ i s', cow_inv s vm (1024 * i) s'))|].
  - split; try done; intros; try lia. unfold shares. simpl. lia.
  - intros i s1 Hi I. change KERNEL_PD_START with 768 in *. apply wp_bind.
    eapply (wp_ldw s1 _ (pd_phys vm) i); [|lia|by rewrite (vo_pd s vm V)|].
    { eapply frame_in_top; [apply (ci_top _ _ _ _ I)|done]. }
    fold (pde s1 vm i). rewrite (ci_pde _ _ _ _ I) by lia. fold (present (pde s vm i)).
    destruct (present (pde s vm i)) eqn:Ep; cbn [when].
    + fold (table s vm i). apply wp_mark_table; [change KERNEL_PD_START with 768; lia|done|done].
    + apply wp_ret. assert (∀ p, 1024 * i <= p < 1024 * i + 1024 → entry s vm p = 0) as Hz.
      { intros p Hp. unfold entry. replace (p / 1024) with i by lia. by rewrite Ep. }
      destruct I as [H1 H2 H3 H4 H5 H6 H7 H8]. split; try done.
      * intros p Hp. destruct (Z_lt_dec p (1024 * i)); [apply H4; lia|].
        rewrite H5 by lia. by rewrite Hz by lia.
      * intros p Hp. apply H5. lia.
      * intros g. rewrite H6. f_equal. replace (1024 * (i + 1)) with (1024 * i + Z.of_nat 1024) by lia.
        symmetry. apply shares_skip; [lia|]. intros p Hp. by rewrite Hz by lia.
  - intros [] s'. by rewrite Z.max_r by (change KERNEL_PD_START with 768; lia).
Qed.
End mark.

(* ------------------------------------------------------------------ *)
(** ** Copying the tables *)

Lemma relink_ok t e :
  is_u32 t → t mod 4096 = 0 →
  is_u32 (Z.lor t (Z.land e 4095)) ∧ page_of (Z.lor t (Z.land e 4095)) = t ∧
  present (Z.lor t (Z.land e 4095)) = present e.
Proof.
  intros Hu Ha. assert (0 <= Z.land e 4095 < 4096) as Hf by (rewrite flags_of_eq; lia).
  destruct (page_of_flags t _ Hu Ha Hf) as [H1 H2]. split_and!; [done|done|].
  rewrite !present_bit, Z.lor_spec, Z.land_spec, (page_bit t) by (done || lia).
  change (Z.testbit 4095 0) with true. by rewrite andb_true_r.
Qed.

(** The child's directory is a page of its own, and the parent's user half has
    no table in it yet. *)
Record separate (s : Vm) (dst src : arch_vm_t) : Prop := {
  sp_pd : pd dst = pd_phys dst + KERNEL_BASE;
  sp_frame : frame_in s (pd_phys dst) ∧ 0 < refs s (pd_phys dst);
  sp_apart : ¬ part_of s src (pd_phys dst)
}.

(** A copied table: page 0 when none could be had. *)
Definition copied (s1 : Vm) (dst src : arch_vm_t) (k : Z) (sc : Vm) : Prop :=
  ∃ t, is_u32 t ∧ t mod 4096 = 0 ∧ pde s1 dst k = Z.lor t (Z.land (pde sc src k) 4095) ∧
    (t = 0 ∧ exhausted s1 ∨ 0 < refs s1 t ∧ t ≠ pd_phys dst ∧
       ∀ j, 0 <= j < 1024 → words s1 (t + 4 * j) = words sc (table sc src k + 4 * j)).

(** The first [i] tables have been copied, from the state [sc]. *)
Record clone_inv (sc : Vm) (dst src : arch_vm_t) (i : Z) (s1 : Vm) : Prop := {
  ki_src : vm_ok s1 src;
  ki_top : top s1 = top sc;
  ki_pde : ∀ k, 0 <= k < 1024 → pde s1 src k = pde sc src k;
  ki_entry : ∀ p, 0 <= p < 1048576 → entry s1 src p = entry sc src p;
  ki_sep : separate s1 dst src;
  ki_done : ∀ k, 0 <= k < i → present (pde sc src k) = true → copied s1 dst src k sc;
  ki_skip : ∀ k, 0 <= k < 1024 → i <= k ∨ present (pde sc src k) = false →
    pde s1 dst k = pde sc dst k;
  ki_refs : ∀ g, 0 < refs sc g → refs s1 g = refs sc g;
  ki_avail : ∀ g, avail s1 g ↔ avail sc g ∧
    ∀ k, 0 <= k < i → present (pde sc src k) = true → g ≠ table s1 dst k
}.

(** Table [i]: the new page [t] was filled, giving [s3], and linked, giving [s4]. *)
Section table_copy.
Context (sc s1 s2 s3 s4 : Vm) (dst src : arch_vm_t) (i t : Z).
Context (I : clone_inv sc dst src i s1) (Hi : 0 <= i < 1024).
Context (Hp : present (pde sc src i) = true).
Context (Ew : words s2 = words s1) (Et : top s2 = top s1) (M2 : mem_ok s2) (Hf : frame_in s2 t).
Context (Hnew : t = 0 ∧ (∀ g, refs s2 g = refs s1 g) ∨
                refs s1 t = 0 ∧ refs s2 t = 1 ∧ ∀ g, g ≠ t → refs s2 g = refs s1 g).
Context (Hav : t = 0 ∧ exhausted s2 ∧ exhausted s1 ∨ 0 < t ∧ ∀ g, avail s2 g ↔ g ≠ t ∧ avail s1 g).
Context (W3 : wrote s2 s3 t 0 1024 (λ j, words s2 (table sc src i + 4 * j))).
Context (W4 : wrote s3 s4 (pd_phys dst) i 1 (λ _, Z.lor t (Z.land (pde sc src i) 4095))).

Lemma tc_old g : 0 < refs s1 g → g ≠ t ∧ refs s4 g = refs s1 g.
Proof using All.
  intros Hg. pose proof (vo_mem _ _ (ki_src _ _ _ _ _ I)) as M1.
  rewrite (refs_wrote s3 s4 _ _ _ _ _ W4), (refs_wrote s2 s3 _ _ _ _ _ W3).
  pose proof (refs_pos s1 g M1 Hg). destruct Hnew as [[-> Hr]|(H0 & _ & Hr)].
  - split; [lia|auto].
  - assert (g ≠ t) by (intros ->; lia). auto.
Qed.

(** Words of pages in use other than the child's directory. *)
Lemma tc_word g x :
  0 < refs s1 g → g mod 4096 = 0 → g ≠ pd_phys dst → 0 <= x < 4096 →
  words s4 (g + x) = words s1 (g + x).
Proof using All.
  intros Hr Hg Hne Hx. destruct (sp_frame _ _ _ (ki_sep _ _ _ _ _ I)) as [(_ & ? & _) _].
  rewrite (wrote_elsewhere s3 s4 _ _ _ _ g x W4) by (done || lia).
  rewrite (wrote_elsewhere s2 s3 _ _ _ _ g x W3); [by rewrite Ew|apply Hf|done|lia|lia| |done].
  by apply tc_old.
Qed.

Lemma tc_src : vm_ok s4 src ∧ (∀ k, 0 <= k < 1024 → pde s4 src k = pde s1 src k) ∧
  (∀ p, 0 <= p < 1048576 → entry s4 src p = entry s1 src p) ∧
  (∀ g, part_of s4 src g ↔ part_of s1 src g).
Proof using All.
  pose proof (ki_src _ _ _ _ _ I) as V1. pose proof (ki_sep _ _ _ _ _ I) as Sp.
  assert (vm_ok s2 src) as V2.
  { eapply vm_ok_refs; [exact V1|done..|]. intros g Hg. apply (part_frame s1 src g V1) in Hg as [_ Hg].
    destruct (tc_old g Hg) as [Hne _]. destruct Hnew as [[_ Hr]|(_ & _ & Hr)]; rewrite Hr by done; done. }
  assert (¬ part_of s2 src t) as Hn2.
  { rewrite (part_of_words s1 s2) by done. intros Hg. apply (part_frame s1 src t V1) in Hg as [_ Hg].
    by destruct (tc_old t Hg). }
  destruct (wrote_outside s2 s3 src t 1024 _ V2 W3) as (V3 & E3 & P3 & Q3);
    [apply Hf|lia|intros; apply M2|done|].
  assert (¬ part_of s3 src (pd_phys dst)) as Hn3.
  { rewrite Q3, (part_of_words s1 s2) by done. apply Sp. }
  destruct (relink_ok t (pde sc src i) (frame_u32 s2 t M2 Hf) (proj1 (proj2 Hf))) as (Hu & _).
  destruct (sp_frame _ _ _ Sp) as [(_ & Hpa & _) _].
  assert (pd_phys dst ≠ pd_phys src) as Hne by (intros E; apply Hn3; left; done).
  assert (∀ k : Z, 0 <= k < 1 → is_u32 (Z.lor t (Z.land (pde sc src i) 4095))) as Hu' by done.
  split_and!.
  - apply (wrote_vm_ok s3 s4 src _ i 1 _ V3 W4 Hpa ltac:(lia) ltac:(lia) ltac:(lia) Hu' Hne).
  - intros k Hk. rewrite (wrote_pde s3 s4 src _ i 1 _ V3 W4 Hpa ltac:(lia) ltac:(lia) k Hne Hk).
    rewrite P3 by done. unfold pde. by rewrite Ew.
  - intros p Hpr. rewrite <- (entry_words s1 s2), <- E3 by done.
    apply (wrote_entry_out s3 s4 src _ i 1 _ V3 W4 Hpa ltac:(lia) ltac:(lia) ltac:(lia) Hu'); [done|done|].
    intros Hpp E. destruct Hn3. right. exists (p / 1024). split_and!; [lia..|done|done].
  - intros g. rewrite <- (part_of_words s1 s2 src g Ew), <- Q3.
    apply (wrote_parts s3 s4 src _ i 1 _ g V3 W4 Hpa Hne); lia.
Qed.

Lemma tc_dst k : 0 <= k < 1024 → k ≠ i → pde s4 dst k = pde s1 dst k.
Proof using All.
  intros Hk Hne. pose proof (ki_sep _ _ _ _ _ I) as Sp.
  destruct (sp_frame _ _ _ Sp) as [(_ & Hpa & _) Hr]. unfold pde.
  rewrite (wr_out _ _ _ _ _ _ W4) by lia.
  rewrite (wrote_elsewhere s2 s3 _ _ _ _ _ _ W3); [by rewrite Ew|apply Hf|done|lia|lia| |lia].
  by apply tc_old.
Qed.

Lemma tc_avail g : avail s4 g ↔ avail s2 g.
Proof using W3 W4. unfold avail. by rewrite (wr_falloc _ _ _ _ _ _ W4), (wr_falloc _ _ _ _ _ _ W3). Qed.

Lemma tc_exhausted : exhausted s1 → exhausted s4.
Proof using Hav W3 W4.
  intros Hx g Hg%tc_avail. destruct Hav as [(_ & H2 & _)|[_ H2]]; [by apply (H2 g)|]. apply H2 in Hg as [_ Hg]. by apply (Hx g).
Qed.

Lemma tc_here : copied s4 dst src i sc.
Proof using All.
  pose proof (ki_sep _ _ _ _ _ I) as Sp. destruct (sp_frame _ _ _ Sp) as [(_ & Hpa & _) Hr].
  exists t. split_and!; [by apply (frame_u32 s2)|apply Hf|..].
  - rewrite <- (wr_in _ _ _ _ _ _ W4 0) by lia. unfold pde. by rewrite Z.add_0_r.
  - destruct Hnew as [[Ht0 _]|(H0 & H1 & _)].
    { left. split; [done|]. apply tc_exhausted. destruct Hav as [(_ & _ & ?)|[? _]]; [done|lia]. }
    right.
    assert (t ≠ pd_phys dst) as Hne by (intros ->; lia).
    split_and!; [by rewrite (refs_wrote s3 s4 _ _ _ _ _ W4), (refs_wrote s2 s3 _ _ _ _ _ W3), H1|done|].
    intros j Hj. rewrite (wrote_elsewhere s3 s4 _ _ _ _ _ _ W4); [|done|apply Hf|lia|lia|done|lia].
    transitivity (words s2 (table sc src i + 4 * j)); [exact (wr_in _ _ _ _ _ _ W3 j Hj)|].
    rewrite Ew. pose proof (ki_entry _ _ _ _ _ I (1024 * i + j) ltac:(lia)) as E. unfold entry in E.
    replace ((1024 * i + j) / 1024) with i in E by lia.
    replace ((1024 * i + j) mod 1024) with j in E by lia.
    rewrite (ki_pde _ _ _ _ _ I), Hp in E by done. unfold table in E.
    by rewrite (ki_pde _ _ _ _ _ I) in E by done.
Qed.

(** The frame of the new table, and no other, is gone from those to be had. *)
Lemma tc_taken g : avail s4 g ↔ avail sc g ∧
  ∀ k, 0 <= k < i + 1 → present (pde sc src k) = true → g ≠ table s4 dst k.
Proof using All.
  assert (table s4 dst i = t) as Eti.
  { unfold table, pde. rewrite <- (Z.add_0_r i) at 1. rewrite (wr_in _ _ _ _ _ _ W4) by lia.
    by apply relink_ok; [apply (frame_u32 s2)|apply Hf]. }
  assert (∀ k, 0 <= k < i → table s4 dst k = table s1 dst k) as Etk by (intros k Hk; unfold table; by rewrite tc_dst by lia).
  rewrite tc_avail. pose proof (ki_avail _ _ _ _ _ I g) as Ha. destruct Hav as [(-> & H2 & H1)|[Ht H2]].
  - split; [intros Hg; by destruct (H2 g)|]. intros [Hg Hn]. destruct (H1 g). apply Ha. split; [done|].
    intros k Hk Hpk. rewrite <- Etk by done. apply Hn; [lia|done].
  - rewrite H2, Ha. split.
    + intros (Hne & Hg & Hn). split; [done|]. intros k Hk Hpk. destruct (decide (k = i)) as [->|]; [by rewrite Eti|].
      rewrite Etk by lia. apply Hn; [lia|done].
    + intros [Hg Hn]. split_and!; [rewrite <- Eti; apply Hn; [lia|done]|done|]. intros k Hk Hpk. rewrite <- Etk by done. apply Hn; [lia|done].
Qed.

Lemma tc_inv : clone_inv sc dst src (i + 1) s4.
Proof using All.
  pose proof (ki_sep _ _ _ _ _ I) as Sp. destruct (sp_frame _ _ _ Sp) as [Hpf Hr].
  destruct tc_src as (V4 & P4 & E4 & Q4).
  assert (top s4 = top s1) as Et4
    by (by rewrite (wr_top _ _ _ _ _ _ W4), (wr_top _ _ _ _ _ _ W3), Et).
  split.
  - done.
  - by rewrite Et4, (ki_top _ _ _ _ _ I).
  - intros k Hk. rewrite P4 by done. by apply (ki_pde _ _ _ _ _ I).
  - intros p Hpr. rewrite E4 by done. by apply (ki_entry _ _ _ _ _ I).
  - split; [apply Sp| |].
    + split; [by eapply frame_in_top|]. by rewrite (proj2 (tc_old _ Hr)).
    + rewrite Q4. apply Sp.
  - intros k Hk Hpk. destruct (decide (k = i)) as [->|Hne]; [apply tc_here|].
    destruct (ki_done _ _ _ _ _ I k ltac:(lia) Hpk) as (u & Hu & Ha & Hd & Hcase).
    exists u. split_and!; [done|done|by rewrite tc_dst by lia|].
    destruct Hcase as [[-> Hx]|(Hru & Hnu & Hwu)]; [left; split; [done|by apply tc_exhausted]|right].
    destruct (tc_old u Hru) as [_ Hr4]. split_and!; [lia|done|].
    intros j Hj. rewrite tc_word by (done || lia). auto.
  - intros k Hk Hpk. assert (k ≠ i) by (intros ->; destruct Hpk; [lia|congruence]).
    rewrite tc_dst by lia. apply (ki_skip _ _ _ _ _ I); [lia|]. destruct Hpk; [left; lia|by right].
  - intros g Hg. pose proof (ki_refs _ _ _ _ _ I g Hg) as E. rewrite <- E in Hg.
    by rewrite (proj2 (tc_old g Hg)).
  - apply tc_taken.
Qed.
End table_copy.

Lemma wp_clone_tables sc dst src :
  vm_ok sc src → separate sc dst src →
  wp (for_range 0 KERNEL_PD_START (λ i,
    pde ← ldw (pd src + 4 * i);
    when (has pde ARCH_PD_PT_PRESENT)
      (new_pt_phys ← pmm_alloc;
       page_copy (get_pt_virtual new_pt_phys) (get_pt_virtual (page_of pde)) ;;
       pde ← ldw (pd src + 4 * i);
       stw (pd dst + 4 * i) (Z.lor new_pt_phys (Z.land pde 4095))))) sc
    (λ _ s', clone_inv sc dst src KERNEL_PD_START s').
Proof.
  intros V Sp. eapply wp_mono; [apply (wp_for_range (clone_inv sc dst src))|].
  - split; try done; try (intros; lia). intros g. split; [intros Hg; split; [done|lia]|by intros []].
  - intros i s1 Hi I. change KERNEL_PD_START with 768 in Hi.
    pose proof (ki_src _ _ _ _ _ I) as V1. destruct (vo_pd_frame s1 src V1) as [Hpf _].
    pose proof (ki_sep _ _ _ _ _ I) as Sp1. destruct (sp_frame _ _ _ Sp1) as [Hdf _].
    apply wp_bind. eapply (wp_ldw s1 _ (pd_phys src) i); [done|lia|by rewrite (vo_pd _ _ V1)|].
    fold (pde s1 src i). rewrite (ki_pde _ _ _ _ _ I) by lia. fold (present (pde sc src i)).
    destruct (present (pde sc src i)) eqn:Ep; cbn [when].
    2:{ apply wp_ret. destruct I as [H1 H2 H3 H4 H5 H6 H7 H8 H9]. split; try done.
        - intros k Hk Hpk. assert (k ≠ i) by congruence. apply H6; [lia|done].
        - intros k Hk Hpk. apply H7; [done|]. destruct Hpk; [left; lia|by right].
        - intros g. rewrite H9. apply and_iff_compat_l. split; intros Hn k Hk Hpk; (apply Hn; [|done]); [|lia].
          assert (k ≠ i) by congruence. lia. }
    fold (table sc src i). assert (table s1 src i = table sc src i) as Etb
      by (unfold table; by rewrite (ki_pde _ _ _ _ _ I) by lia).
    destruct (vo_table s1 src V1 i ltac:(lia)) as (Htf & Htr & Htp);
      [by rewrite (ki_pde _ _ _ _ _ I) by lia|].
    rewrite Etb in *. pose proof (vo_mem s1 src V1) as M1.
    assert (∀ t s2, words s2 = words s1 → top s2 = top s1 → mem_ok s2 → frame_in s2 t →
      (t = 0 ∧ (∀ g, refs s2 g = refs s1 g) ∨
       refs s1 t = 0 ∧ refs s2 t = 1 ∧ ∀ g, g ≠ t → refs s2 g = refs s1 g) →
      (t = 0 ∧ exhausted s2 ∧ exhausted s1 ∨ 0 < t ∧ ∀ g, avail s2 g ↔ g ≠ t ∧ avail s1 g) →
      wp (page_copy (get_pt_virtual t) (get_pt_virtual (table sc src i)) ;;
          pde ← ldw (pd src + 4 * i);
          stw (pd dst + 4 * i) (Z.lor t (Z.land pde 4095))) s2
        (λ _ s', clone_inv sc dst src (i + 1) s')) as Hcopy.
    { intros t s2 Ew Et M2 Hf Hnew Hav. assert (table sc src i ≠ t) as Hne.
      { intros E. rewrite E in Htr. destruct Hnew as [[-> _]|(? & _)]; [|lia].
        apply (refs_pos s1) in Htr; [lia|done]. }
      rewrite !(mem_window s2) by (done || by eapply frame_in_top). apply wp_bind.
      eapply wp_mono; [apply wp_page_copy; [done|done|by eapply frame_in_top|done]|]. intros [] s3 W3.
      assert (top s3 = top s1) as Et3 by (by rewrite (wr_top _ _ _ _ _ _ W3)).
      apply wp_bind. eapply (wp_ldw s3 _ (pd_phys src) i);
        [by eapply frame_in_top|lia|by rewrite (vo_pd _ _ V1)|].
      rewrite (wrote_elsewhere s2 s3 _ _ _ _ (pd_phys src) _ W3); [|apply Hf|apply Hpf|lia|lia| |lia].
      2:{ intros E. destruct (vo_pd_frame s1 src V1) as [_ Hr]. rewrite E in Hr.
          destruct Hnew as [[-> _]|(? & _)]; [|lia]. apply (refs_pos s1) in Hr; [lia|done]. }
      rewrite Ew. fold (pde s1 src i). rewrite (ki_pde _ _ _ _ _ I) by lia.
      eapply (wp_stw s3 _ (pd_phys dst) i); [by eapply frame_in_top|lia|by rewrite (sp_pd _ _ _ Sp)|].
      intros s4 W4. by apply (tc_inv sc s1 s2 s3 s4 dst src i t); try done; lia. }
    apply wp_bind, wp_pmm_alloc; [done|..].
    + intros Hx. apply Hcopy; try done; [|by left|by left]. destruct Hdf as (? & ? & ?). split_and!; [lia|done|lia].
    + intros t s2 Ew Et M2 Hf H0 H1 Hrest Hav. apply Hcopy; try done; [by right|]. right. split; [|done].
      apply (refs_pos s2); [done|lia].
  - intros [] s'. by rewrite Z.max_r by (change KERNEL_PD_START with 768; lia).
Qed.

(** The kernel half is shared: its directory entries are copied. *)
Lemma wp_clone_kernel s dst src :
  vm_ok s src → separate s dst src →
  wp (for_range KERNEL_PD_START PT_ENTRIES (λ i,
    pde ← ldw (pd src + 4 * i);
    stw (pd dst + 4 * i) pde)) s (λ _ s',
    falloc s' = falloc s ∧ top s' = top s ∧
    (∀ k, KERNEL_PD_START <= k < 1024 → pde s' dst k = pde s src k) ∧
    (∀ k, 0 <= k < KERNEL_PD_START → pde s' dst k = pde s dst k) ∧
    (∀ a, is_u32 (words s' a)) ∧
    (∀ g x, g mod 4096 = 0 → 0 <= x < 4096 → g ≠ pd_phys dst → words s' (g + x) = words s (g + x))).
Proof.
  intros V Sp. destruct (vo_pd_frame s src V) as [Hpf _]. destruct (sp_frame _ _ _ Sp) as [Hdf _].
  assert (pd_phys src ≠ pd_phys dst) as Hne by (intros E; apply (sp_apart _ _ _ Sp); by left).
  change KERNEL_PD_START with 768.
  eapply wp_mono; [apply (wp_for_range (λ n s',
    falloc s' = falloc s ∧ top s' = top s ∧
    (∀ k, 768 <= k < n → pde s' dst k = pde s src k) ∧
    (∀ k, 0 <= k < 768 → pde s' dst k = pde s dst k) ∧
    (∀ a, is_u32 (words s' a)) ∧
    (∀ g x, g mod 4096 = 0 → 0 <= x < 4096 → g ≠ pd_phys dst → words s' (g + x) = words s (g + x))))|].
  - split_and!; try done; [intros; lia|apply V].
  - intros i s1 Hi (A1 & T1 & D1 & U1 & W1 & O1). unfold PT_ENTRIES in Hi. apply wp_bind.
    eapply (wp_ldw s1 _ (pd_phys src) i); [by eapply frame_in_top|lia|by rewrite (vo_pd _ _ V)|].
    rewrite O1 by (done || lia || apply Hpf). fold (pde s src i).
    eapply (wp_stw s1 _ (pd_phys dst) i); [by eapply frame_in_top|lia|by rewrite (sp_pd _ _ _ Sp)|].
    intros s2 W. split_and!.
    + by rewrite (wr_falloc _ _ _ _ _ _ W).
    + by rewrite (wr_top _ _ _ _ _ _ W).
    + intros k Hk. unfold pde at 1. destruct (decide (k = i)) as [->|].
      * rewrite <- (wr_in _ _ _ _ _ _ W 0) by lia. by rewrite Z.add_0_r.
      * rewrite (wr_out _ _ _ _ _ _ W) by lia. apply D1. lia.
    + intros k Hk. unfold pde at 1. rewrite (wr_out _ _ _ _ _ _ W) by lia. by apply U1.
    + intros a. destruct (decide (a = pd_phys dst + 4 * (i + 0))) as [->|Hna].
      * rewrite (wr_in _ _ _ _ _ _ W 0) by lia. apply V.
      * rewrite (wr_out _ _ _ _ _ _ W); [done|]. intros j Hj. by replace j with 0 by lia.
    + intros g x Hg Hx Hn. rewrite <- O1 by done.
      eapply wrote_elsewhere; [exact W|apply Hdf|done|lia|lia|done|done].
  - intros [] s'. by rewrite Z.max_r by (unfold PT_ENTRIES; lia).
Qed.

Lemma separate_marked s dst src s1 :
  separate s dst src → cow_inv s src user_pages s1 → separate s1 dst src.
Proof.
  intros [H1 [H2 H3] H4] I. split; [done|split|].
  - eapply frame_in_top; [apply (ci_top _ _ _ _ I)|done].
  - rewrite (ci_refs _ _ _ _ I).
    pose proof (shares_nonneg s src user_pages (pd_phys dst)). lia.
  - intros Hg. apply H4. destruct Hg as [E|(i & Hi & Hp & E)]; [by left|right]. exists i.
    unfold table in E. rewrite (ci_pde _ _ _ _ I) in Hp, E by done. done.
Qed.


(** A new directory leaves an existing address space alone. *)
Lemma wp_create_separate s src :
  vm_ok s src →
  wp hal_vm_empty_arch_vm_create s (λ r s', match r with
    | None => s' = s
    | Some dst => vm_ok s' src ∧ separate s' dst src ∧ top s' = top s ∧
        (∀ p, 0 <= p < 1048576 → entry s' src p = entry s src p) ∧
        ∀ g, 0 < refs s g → refs s' g = refs s g
    end).
Proof.
  intros V. unfold hal_vm_empty_arch_vm_create, allocate_page_table.
  apply wp_bind, wp_bind, wp_pmm_alloc; [apply V|intros Hx; simpl; apply wp_ret; simpl; by apply wp_ret|].
  intros f s1 Ew Et M1 Hf Hfree Hone Hrest Hav.
  assert (f =? 0 = false) as Hf0 by (apply Z.eqb_neq, Z.neq_sym, Z.lt_neq, (refs_pos s1); [done|lia]).
  rewrite Hf0. apply wp_bind. eapply wp_mono; [by apply wp_page_zero|]. intros [] s2 W.
  apply wp_ret, wp_ret. rewrite Hf0.
  assert (¬ part_of s src f) as Hn.
  { intros Hg. apply (part_frame s src f V) in Hg as [_ ?]. lia. }
  assert (vm_ok s1 src) as V1.
  { eapply vm_ok_refs; [exact V|done..|]. intros g Hg. rewrite Hrest by congruence.
    by apply (part_frame s src g V). }
  destruct (wrote_outside s1 s2 src f 1024 _ V1 W) as (V2 & E2 & _ & Q2);
    [apply Hf|lia|ulia|by rewrite (part_of_words s s1)|].
  split_and!; [done|split|..].
  - simpl. by apply (mem_window s1 f).
  - simpl. rewrite (refs_wrote s1 s2 _ _ _ _ _ W). split; [|lia]. eapply frame_in_top; [apply W|done].
  - simpl. by rewrite Q2, (part_of_words s s1).
  - by rewrite (wr_top _ _ _ _ _ _ W).
  - intros p Hp. rewrite E2 by done. by apply entry_words.
  - intros g Hg. rewrite (refs_wrote s1 s2 _ _ _ _ _ W). apply Hrest. intros ->. lia.
Qed.

(** A frame mapped by one page only. *)
Lemma shares_one s vm P g p0 :
  (∀ p, 0 <= p < P → p ≠ p0 → maps s vm g p = false) → shares s vm P g <= 1.
Proof.
  intros H. unfold shares. assert (∀ n, (n <= Z.to_nat P)%nat →
    count_to (maps s vm g) n <= if Z.of_nat n <=? p0 then 0 else 1) as Hc.
  { intros n Hn. induction n as [|n IH]; [case_match; simpl; lia|]. cbn [count_to].
    specialize (IH ltac:(lia)).
    destruct (Z.leb_spec (Z.of_nat n) p0), (Z.leb_spec (Z.of_nat (S n)) p0); try lia;
      (destruct (decide (Z.of_nat n = p0)) as [E|E];
        [destruct (maps s vm g (Z.of_nat n)); cbn [Z.b2z]; lia
        |rewrite (H (Z.of_nat n)) by lia; cbn [Z.b2z]; lia]). }
  specialize (Hc (Z.to_nat P) ltac:(lia)). case_match; lia.
Qed.
End spec.

(* ------------------------------------------------------------------ *)
(** ** Witnesses *)

(** The same on the machine of [machine]: frame 15 is free, and the child's
    table is not at page 0. *)
Definition forked (dst src : arch_vm_t) (s : vmst pmm) : bool :=
  negb (used (falloc s) 15) && (15 <? total_frames (falloc s)) &&
  match hal_vm_arch_clone dst src s with Some (_, s') => negb (table s' dst 1 =? 0) | None => false end.

Definition page_then_fork (vm : arch_vm_t) (s : vmst pmm) : bool :=
  match va_alloc_region vm (4096 * 1024) (4096 * 1) 3 s with
  | Some (true, s1) =>
      match hal_vm_empty_arch_vm_create s1 with Some (Some dst, s2) => forked dst vm s2 | _ => false end
  | _ => false
  end.

Lemma demo_forks : from_option (λ '(o, s), from_option (λ vm, page_then_fork vm s) false o) false
  (hal_vm_empty_arch_vm_create demo_memory) = true.
Proof. vm_compute. reflexivity. Qed.

(** A parent with one writable page, number 1024, and an empty child. *)
Lemma forking : ∃ (s : vmst pmm) dst src f,
  vm_ok s src ∧ shareable s src ∧ separate s dst src ∧ frame_in s f ∧ refs s f = 1 ∧
  shares s src user_pages f <= 1 ∧ entry s src 1024 = pte_word f 3 ∧
  (∀ p, 0 <= p < 1048576 → p ≠ 1024 → entry s src p = 0) ∧ forked dst src s = true.
Proof.
  destruct machine as (s & src & V & Hz & _ & _ & _ & _ & Ec). pose proof demo_forks as Hc. rewrite Ec in Hc.
  cbn [from_option] in Hc. unfold page_then_fork in Hc.
  destruct (wp_elim _ _ _ (wp_va_alloc_region s src 1024 1 3 V ltac:(lia) ltac:(lia) ltac:(lia)))
    as (ok & s1 & E1 & Hr). rewrite E1 in Hc. destruct ok; [|discriminate Hc].
  destruct Hr as (frm & I). pose proof I as [V1 _ Hin Hout Hfrm _ _ _ _ _ _].
  destruct (Hfrm 0 ltac:(lia)) as (_ & Hr1 & Hnp & Hf).
  destruct (wp_elim _ _ _ (wp_create_separate s1 src V1)) as (r & s2 & E2 & H2).
  rewrite E2 in Hc. destruct r as [dst|]; [|discriminate Hc].
  destruct H2 as (V2 & Sp & Ht2 & He & Hr2). exists s2, dst, src, (frm 0).
  assert (entry s2 src 1024 = pte_word (frm 0) 3) as Ee
    by (rewrite He by lia; exact (Hin 0 ltac:(lia))).
  assert (∀ p, 0 <= p < 1048576 → p ≠ 1024 → entry s2 src p = 0) as Eo.
  { intros p Hp Hne. rewrite He, Hout by lia. by apply Hz. }
  assert (∀ p, 0 <= p < user_pages → present (entry s2 src p) = true → p = 1024) as Ho.
  { intros p Hp Hpr. destruct (decide (p = 1024)) as [|Hne]; [done|].
    assert (user_pages = 786432) as Eu by reflexivity. rewrite Eo in Hpr by lia. discriminate Hpr. }
  destruct (pte_word_ok (frm 0) 3 (frame_u32 s1 _ (vo_mem _ _ V1) Hf) (proj1 (proj2 Hf))) as (_ & Hpg & _).
  assert (refs s2 (frm 0) = 1) as Hr0 by (rewrite Hr2; [done|lia]).
  assert (shares s2 src user_pages (frm 0) <= 1) as Hs.
  { apply (shares_one s2 src user_pages (frm 0) 1024). intros q Hq Hqn.
    unfold maps. assert (user_pages = 786432) as Eu by reflexivity. by rewrite Eo by lia. }
  split_and!; [done|split|done| |done|done|done|done|done].
  - intros p Hp Hpr. rewrite (Ho p Hp Hpr), Ee, Hpg, Hr0. lia.
  - intros p Hp Hpr. rewrite (Ho p Hp Hpr), Ee, Hpg, Hr0. lia.
  - by eapply frame_in_top.
Qed.


(** The parent after marking. *)
Lemma marked : ∃ (s : vmst pmm) vm f,
  vm_ok s vm ∧ frame_in s f ∧ 0 < refs s f < 65535 ∧
  entry s vm 1024 = cow_word (pte_word f 3) ∧ page_of (entry s vm 1024) = f ∧
  has (entry s vm 1024) PT_COW = true ∧ ¬ exhausted s.
Proof.
  destruct forking as (s & dst & src & f & V & Sh & _ & Hf & Hr & Hs & Ee & _ & Hk).
  destruct (wp_elim _ _ _ (wp_hal_vmm_set_cow s src V Sh)) as ([] & s1 & _ & I).
  assert (user_pages = 786432) as Eu by reflexivity. exists s1, src, f.
  destruct (pte_word_ok f 3 (frame_u32 s f (vo_mem _ _ V) Hf) (proj1 (proj2 Hf))) as (Hu & Hpg & Hpr).
  destruct (cow_word_ok (pte_word f 3) Hu) as (_ & _ & Hcp & Hcc).
  assert (has (pte_word f 3) ARCH_PD_PT_READWRITE = true) as Hrw.
  { rewrite rw_bit. unfold pte_word. rewrite !Z.lor_spec, Z.land_spec.
    change (Z.testbit 3 1 && Z.testbit 4095 1) with true. by rewrite orb_true_r. }
  pose proof (shares_nonneg s src user_pages f) as Hnn.
  assert (entry s1 src 1024 = cow_word (pte_word f 3)) as E1.
  { rewrite (ci_done _ _ _ _ I), Ee by lia. done. }
  pose proof (ci_refs _ _ _ _ I f) as Hr1. rewrite Hr in Hr1.
  split; [apply I|]. split; [eapply frame_in_top; [apply (ci_top _ _ _ _ I)|exact Hf]|].
  split; [lia|]. split; [exact E1|]. split; [|split].
  - rewrite E1, Hcp. exact Hpg.
  - rewrite E1. destruct (Hcc Hpr) as [_ ->]. rewrite Hrw. reflexivity.
  - intros Hx. apply (Hx (15 * FRAME_SIZE)), (ci_avail _ _ _ _ I). apply andb_true_iff in Hk as [[H1%negb_true_iff H2]%andb_true_iff _].
    exists 15. split; [done|]. split; [lia|done].
Qed.

Lemma hal_vmm_handle_cow_copies_witness : ∃ (s s' : vmst pmm) vm f,
  entry s vm 1024 = cow_word (pte_word f 3) ∧
  hal_vmm_handle_cow vm (4096 * 1024 + 8) s = Some (true, s') ∧
  has (entry s' vm 1024) ARCH_PD_PT_READWRITE = true ∧ refs s' f = refs s f ∧
  refs s (page_of (entry s' vm 1024)) = 0 ∧ refs s' (page_of (entry s' vm 1024)) = 1.
Proof.
  destruct marked as (s & vm & f & V & Hf & Hr & Ee & Hpg & Hc & Hx).
  destruct (wp_elim _ _ _ (hal_vmm_handle_cow_copies s vm 1024 8 V ltac:(lia) ltac:(lia) Hc
    ltac:(rewrite Hpg; exact Hf) ltac:(rewrite Hpg; exact Hr)))
    as (r & s' & E & -> & new & _ & _ & Hnew & _ & Hrw & _ & _ & Href & [(_ & He & _)|(H1 & H2 & _)]);
    [destruct (Hx He)|].
  rewrite Hpg in Href. exists s, s', vm, f. rewrite Hnew.
  split; [exact Ee|]. split; [exact E|]. split; [exact Hrw|]. split; [exact Href|]. split; [exact H1|exact H2].
Defined.
