(* ===== verification/KernelMem.v ===== *)
(** * Kernel virtual memory, as the heap sees it

    The kernel heap takes frames from the frame allocator, maps them at its own
    addresses and then uses them through those addresses. The class states what
    it relies on; the instance is the kernel's address space of [Paging] over any
    frame allocator, where an access to a mapped address goes to the frame the
    page tables give. *)

From S2P Require Import Prelude Range FrameAlloc Paging VaAlloc.

Definition KERNEL_HEAP_START : Z := KERNEL_BASE + MAX_PHYSICAL_MEMORY.
Definition KERNEL_HEAP_SIZE : Z := 268435456.
Definition HEAP_PAGES : Z := KERNEL_HEAP_SIZE / PAGE_SIZE.

(** The page numbers of the heap. *)
Definition HEAP_BASE : Z := KERNEL_HEAP_START / PAGE_SIZE.
Definition heap_page (p : Z) : Prop := HEAP_BASE <= p < HEAP_BASE + HEAP_PAGES.

(** An aligned word in one of the pages [P]. *)
Definition word_in (P : gset Z) (a : Z) : Prop := a mod 4 = 0 ∧ a / PAGE_SIZE ∈ P.

Class KernelMemory (S : Type) := {
  km_frame_alloc : M S Z;
  km_frame_free : Z → M S unit;
  km_map : Z → Z → Z → M S bool;
  km_unmap : Z → M S bool;
  km_virt_to_phys : Z → M S Z;
  km_load : Z → M S Z;
  km_store : Z → Z → M S unit;
  (** The pages [P] of the heap are mapped, to frames of their own. *)
  km_ok : S → gset Z → Prop;
  km_word : S → Z → Z;
  km_word_u32 s P a : km_ok s P → word_in P a → is_u32 (km_word s a);
  km_load_ok s P a : km_ok s P → word_in P a →
    wp (km_load a) s (λ w s', s' = s ∧ w = km_word s a);
  km_store_ok s P a v : km_ok s P → word_in P a → is_u32 v →
    wp (km_store a v) s (λ _ s', km_ok s' P ∧
      ∀ b, word_in P b → km_word s' b = if decide (b = a) then v else km_word s b);
  (** A frame is taken and mapped; one that cannot be mapped is given back. *)
  km_map_ok s P p : km_ok s P → heap_page p → p ∉ P →
    wp km_frame_alloc s (λ f s1,
      if f =? 0 then km_ok s1 P ∧ (∀ b, word_in P b → km_word s1 b = km_word s b)
      else wp (km_map (PAGE_SIZE * p) f PAGE_READWRITE) s1 (λ ok s2,
        if ok then km_ok s2 ({[p]} ∪ P) ∧ (∀ b, word_in P b → km_word s2 b = km_word s b)
        else wp (km_frame_free f) s2 (λ _ s3,
          km_ok s3 P ∧ ∀ b, word_in P b → km_word s3 b = km_word s b)));
  km_unmap_ok s P p : km_ok s P → p ∈ P →
    wp (km_virt_to_phys (PAGE_SIZE * p)) s (λ f s1, f ≠ 0 ∧ s1 = s ∧
      wp (km_unmap (PAGE_SIZE * p)) s1 (λ _ s2, wp (km_frame_free f) s2 (λ _ s3,
        km_ok s3 (P ∖ {[p]}) ∧ ∀ b, word_in (P ∖ {[p]}) b → km_word s3 b = km_word s b)))
}.

(* ------------------------------------------------------------------ *)
(** ** The kernel's address space *)

Section paged.
Context `{FA : FrameAllocator St} (vm : arch_vm_t).
Notation Vm := (vmst St).

(** The processor translates an address by the same walk as the code. *)
Definition kernel_load (a : Z) : M Vm Z :=
  p ← hal_vm_virt_to_phys vm a;
  if p =? 0 then fault else ldw (p + KERNEL_BASE).
Definition kernel_store (a v : Z) : M Vm unit :=
  p ← hal_vm_virt_to_phys vm a;
  if p =? 0 then fault else stw (p + KERNEL_BASE) v.

(** The frame behind a page. *)
Definition frame (s : Vm) (p : Z) : Z := page_of (entry s vm p).

Record pages_ok (s : Vm) (P : gset Z) : Prop := {
  po_vm : vm_ok s vm;
  po_range : ∀ p, p ∈ P → heap_page p;
  po_mapped : ∀ p, p ∈ P → present (entry s vm p) = true ∧ 0 < refs s (frame s p) ∧ ¬ part_of s vm (frame s p);
  po_inj : ∀ p q, p ∈ P → q ∈ P → frame s p = frame s q → p = q
}.

Definition virtual_word (s : Vm) (a : Z) : Z := words s (frame s (a / PAGE_SIZE) + a mod PAGE_SIZE).

Lemma word_offset a : a mod 4 = 0 → 0 <= a mod PAGE_SIZE / 4 < 1024 ∧ 4 * (a mod PAGE_SIZE / 4) = a mod PAGE_SIZE.
Proof. unfold PAGE_SIZE. lia. Qed.

Lemma heap_page_range p : heap_page p → 0 <= p < 1048575.
Proof. unfold heap_page. change HEAP_BASE with 917504. change HEAP_PAGES with 65536. lia. Qed.

Lemma pages_frame s P p : pages_ok s P → p ∈ P → frame_in s (frame s p) ∧ 0 < frame s p.
Proof.
  intros K Hp. destruct (po_mapped _ _ K p Hp) as (_ & Hr & _).
  pose proof (vo_mem _ _ (po_vm _ _ K)) as Mm.
  destruct (fa_owned _ _ (mo_alloc _ Mm) Hr) as (H1 & H2 & H3). unfold PAGE in *.
  destruct (mo_top _ Mm). split; [split; [lia|split; [done|lia]]|lia].
Qed.

Lemma wp_translate s P a (Q : Z → Vm → Prop) :
  pages_ok s P → a / PAGE_SIZE ∈ P → Q (frame s (a / PAGE_SIZE) + a mod PAGE_SIZE) s →
  wp (hal_vm_virt_to_phys vm a) s Q.
Proof.
  intros K Ha HQ. pose proof (heap_page_range _ (po_range _ _ K _ Ha)) as Hr.
  destruct (po_mapped _ _ K _ Ha) as (Hp & _).
  pose proof (translate s vm (a / PAGE_SIZE) (a mod PAGE_SIZE) (po_vm _ _ K)) as T.
  unfold PAGE_SIZE in *. replace (4096 * (a / 4096) + a mod 4096) with a in T by lia.
  eapply wp_intro; [apply T; lia|]. rewrite Hp. done.
Qed.

Lemma wp_kernel_load s P a : pages_ok s P → word_in P a → wp (kernel_load a) s (λ w s', s' = s ∧ w = virtual_word s a).
Proof.
  intros K [Ha HP]. unfold kernel_load. wp_step. apply (wp_translate s P); [done|done|].
  destruct (pages_frame s P _ K HP) as [Hf H0]. destruct (word_offset a Ha) as [Ho1 Ho2].
  rewrite (proj2 (Z.eqb_neq _ _)) by lia.
  apply (wp_ldw s _ (frame s (a / PAGE_SIZE)) (a mod PAGE_SIZE / 4)); [done|done|lia|].
  split; [done|]. unfold virtual_word. by rewrite Ho2.
Qed.

(** Memory changed in one word of one of the pages. *)
Lemma pages_wrote s s' P a v :
  pages_ok s P → word_in P a → is_u32 v →
  wrote s s' (frame s (a / PAGE_SIZE)) (a mod PAGE_SIZE / 4) 1 (λ _, v) →
  pages_ok s' P ∧ ∀ b, word_in P b → virtual_word s' b = if decide (b = a) then v else virtual_word s b.
Proof.
  intros K [Ha HP] Hv W. destruct (pages_frame s P _ K HP) as [(Hf0 & Hf1 & Hf2) H0]. destruct (word_offset a Ha) as [Ho1 Ho2].
  destruct (po_mapped _ _ K _ HP) as (_ & _ & Hnp). pose proof (po_vm _ _ K) as V.
  assert (frame s (a / PAGE_SIZE) ≠ pd_phys vm) as Hpd by (intros E; apply Hnp; by left).
  assert (∀ i, 0 <= i < 1 → is_u32 v) as Hv' by done.
  assert (∀ p, 0 <= p < 1048576 → entry s' vm p = entry s vm p) as He.
  { intros p Hp. eapply wrote_entry_out; [exact V|exact W|done|lia|lia|lia|done|done|done|].
    intros Hpr Ht. exfalso. apply Hnp. right. exists (p / 1024). split; [lia|done]. }
  assert (∀ p, p ∈ P → frame s' p = frame s p) as Hfr.
  { intros p Hp. unfold frame. rewrite He; [done|]. pose proof (heap_page_range p (po_range _ _ K p Hp)). lia. }
  split; [split|].
  - eapply wrote_vm_ok; [exact V|exact W|done|lia|lia|lia|done|done].
  - apply K.
  - intros p Hp. rewrite (Hfr p Hp), (refs_wrote _ _ _ _ _ _ _ W).
    pose proof (heap_page_range p (po_range _ _ K p Hp)). rewrite He by lia.
    destruct (po_mapped _ _ K p Hp) as (? & ? & Hn). split; [done|]. split; [done|]. intros Hpo. apply Hn.
    by apply (wrote_parts s s' vm _ _ _ _ _ V W Hf1 Hpd) in Hpo; [|lia|lia].
  - intros p q Hp Hq. rewrite !Hfr by done. by apply (po_inj _ _ K).
  - intros b [Hb HbP]. destruct (word_offset b Hb) as [Ho3 Ho4]. unfold virtual_word. rewrite Hfr by done.
    destruct (decide (b = a)) as [->|Hne].
    + rewrite <-Ho2. rewrite <-(wr_in _ _ _ _ _ _ W 0) by lia. f_equal. lia.
    + apply (wr_out _ _ _ _ _ _ W). intros i Hi. replace i with 0 by lia. rewrite <-Ho4. intros E. apply Hne.
      destruct (pages_frame s P _ K HbP) as [(? & Hg1 & _) _].
      apply same_page in E as [Ef Eo]; [|done|done|lia|lia]. apply (po_inj _ _ K) in Ef; [|done..].
      unfold PAGE_SIZE in *. lia.
Qed.

Lemma wp_kernel_store s P a v :
  pages_ok s P → word_in P a → is_u32 v →
  wp (kernel_store a v) s (λ _ s', pages_ok s' P ∧
    ∀ b, word_in P b → virtual_word s' b = if decide (b = a) then v else virtual_word s b).
Proof.
  intros K Ha Hv. pose proof Ha as [Ha4 HP]. unfold kernel_store. wp_step. apply (wp_translate s P); [done|done|].
  destruct (pages_frame s P _ K HP) as [Hf H0]. destruct (word_offset a Ha4) as [Ho1 Ho2].
  rewrite (proj2 (Z.eqb_neq _ _)) by lia.
  apply (wp_stw s _ (frame s (a / PAGE_SIZE)) (a mod PAGE_SIZE / 4)); [done|done|lia|].
  intros s' W. by apply pages_wrote.
Qed.

(** Frames that are in use and not tables stay what they are. *)
Lemma pages_step s s' P :
  pages_ok s P → vm_ok s' vm →
  (∀ p, p ∈ P → entry s' vm p = entry s vm p) →
  (∀ g, 0 < refs s g → ¬ part_of s vm g → 0 < refs s' g ∧ ¬ part_of s' vm g) →
  (∀ g x, g mod 4096 = 0 → 0 <= x < 4096 → 0 < refs s g → ¬ part_of s vm g → words s' (g + x) = words s (g + x)) →
  pages_ok s' P ∧ ∀ b, word_in P b → virtual_word s' b = virtual_word s b.
Proof.
  intros K V' He Hg Hw.
  assert (∀ p, p ∈ P → frame s' p = frame s p) as Hfr by (intros p Hp; unfold frame; by rewrite He).
  split; [split|].
  - done.
  - apply K.
  - intros p Hp. rewrite Hfr, He by done. destruct (po_mapped _ _ K p Hp) as (? & ? & ?). split; [done|]. by apply Hg.
  - intros p q Hp Hq. rewrite !Hfr by done. by apply (po_inj _ _ K).
  - intros b [Hb HP]. unfold virtual_word. rewrite Hfr by done. destruct (po_mapped _ _ K _ HP) as (_ & Hr & Hn).
    destruct (pages_frame s P _ K HP) as [(_ & Hf & _) _]. apply Hw; [done|unfold PAGE_SIZE; lia|done|done].
Qed.

Lemma pages_subset s P P' : pages_ok s P → P' ⊆ P → pages_ok s P'.
Proof.
  intros K Hs. split; [apply K|intros p Hp; apply K; set_solver|intros p Hp; apply K; set_solver|].
  intros p q Hp Hq. apply (po_inj _ _ K); set_solver.
Qed.

Lemma pages_add s P p :
  pages_ok s P → heap_page p → present (entry s vm p) = true → 0 < refs s (frame s p) → ¬ part_of s vm (frame s p) →
  (∀ q, q ∈ P → frame s q ≠ frame s p) → pages_ok s ({[p]} ∪ P).
Proof.
  intros K Hp H1 H2 H3 H4. split; [apply K|..].
  - intros q [->%elem_of_singleton|Hq]%elem_of_union; [done|by apply K].
  - intros q [->%elem_of_singleton|Hq]%elem_of_union; [done|by apply K].
  - intros q q' [->%elem_of_singleton|Hq]%elem_of_union [->%elem_of_singleton|Hq']%elem_of_union E.
    + done.
    + by destruct (H4 q' Hq').
    + by destruct (H4 q Hq).
    + by apply (po_inj _ _ K).
Qed.

(** A frame that is neither a table nor behind one of the pages is released. *)
Lemma wp_release_frame s P f :
  pages_ok s P → 0 < refs s f → ¬ part_of s vm f → (∀ q, q ∈ P → frame s q ≠ f) →
  wp (pmm_free f) s (λ _ s', pages_ok s' P ∧ ∀ b, word_in P b → virtual_word s' b = virtual_word s b).
Proof.
  intros K Hf Hn Hq. pose proof (po_vm _ _ K) as V. apply wp_pmm_free; [apply V|done|].
  intros s' Ew Et M' Hd Hrest _.
  assert (vm_ok s' vm) as V'.
  { eapply vm_ok_refs; [exact V|done|done|done|]. intros g Hg. rewrite Hrest; [by apply (part_frame s vm g V)|]. by intros ->. }
  assert (∀ q, q ∈ P → frame s' q = frame s q) as Hfr by (intros q _; unfold frame; by rewrite (entry_words s s')).
  split; [split|].
  - done.
  - apply K.
  - intros q HqP. rewrite Hfr by done. rewrite (entry_words s s') by done. rewrite (part_of_words s s') by done.
    rewrite Hrest by (by apply Hq). by apply K.
  - intros q q' HqP HqP'. rewrite !Hfr by done. by apply (po_inj _ _ K).
  - intros b [_ HbP]. unfold virtual_word. by rewrite Hfr, Ew.
Qed.

Lemma wp_map_page s P p :
  pages_ok s P → heap_page p → p ∉ P →
  wp pmm_alloc s (λ f s1,
    if f =? 0 then pages_ok s1 P ∧ (∀ b, word_in P b → virtual_word s1 b = virtual_word s b)
    else wp (hal_vm_map vm (PAGE_SIZE * p) f PAGE_READWRITE) s1 (λ ok s2,
      if ok then pages_ok s2 ({[p]} ∪ P) ∧ (∀ b, word_in P b → virtual_word s2 b = virtual_word s b)
      else wp (pmm_free f) s2 (λ _ s3,
        pages_ok s3 P ∧ ∀ b, word_in P b → virtual_word s3 b = virtual_word s b))).
Proof.
  intros K Hp HP. pose proof (po_vm _ _ K) as V. pose proof (heap_page_range p Hp) as Hr.
  apply wp_pmm_alloc; [apply V|by split|].
  intros f s1 Ew Et M1 Hf1 Hz Ho Hrest _.
  assert (0 < f) as Hf0 by (apply (refs_pos s1); [done|lia]). rewrite (proj2 (Z.eqb_neq f 0)) by lia.
  assert (∀ g, part_of s1 vm g ↔ part_of s vm g) as Hpart1 by (intros g; by apply part_of_words).
  assert (¬ part_of s vm f) as Hnf by (intros H; apply (part_frame s vm f V) in H; lia).
  assert (vm_ok s1 vm) as V1.
  { eapply vm_ok_refs; [exact V|done|done|done|]. intros g Hg. rewrite Hrest; [by apply (part_frame s vm g V)|]. by intros ->. }
  destruct (pages_step s s1 P K V1) as [K1 W1].
  { intros q _. by apply entry_words. }
  { intros g Hg Hn. rewrite Hpart1. split; [|done]. rewrite Hrest; [done|]. intros ->. lia. }
  { intros g x _ _ _ _. by rewrite Ew. }
  destruct Hf1 as (Hf1a & Hf1b & Hf1c).
  eapply wp_mono; [apply (wp_hal_vm_map s1 vm p f PAGE_READWRITE V1); [lia|by eapply frame_u32|done]|].
  intros ok s2 [S2 Hok]. pose proof (ms_vm _ _ _ S2) as V2.
  assert (∀ g, 0 < refs s1 g → ¬ part_of s1 vm g → 0 < refs s2 g ∧ ¬ part_of s2 vm g) as Hkeep.
  { intros g Hg Hn. split; [by rewrite (ms_refs _ _ _ S2)|]. intros H. destruct (ms_grow _ _ _ S2 g H); [done|lia]. }
  assert (∀ g x, g mod 4096 = 0 → 0 <= x < 4096 → 0 < refs s1 g → ¬ part_of s1 vm g → words s2 (g + x) = words s1 (g + x)) as Hw2.
  { intros g x Hg Hx Hr1 Hn. apply (ms_words _ _ _ S2); [done|done|]. by apply Hkeep. }
  assert (∀ q, q ∈ P → 0 <= q < 1048576 ∧ q ≠ p) as HPr.
  { intros q Hq. pose proof (heap_page_range q (po_range _ _ K q Hq)). split; [lia|]. by intros ->. }
  destruct (Hkeep f) as [Hf2 Hn2]; [lia|by rewrite Hpart1|].
  assert (∀ q, q ∈ P → frame s1 q ≠ f) as Hother.
  { intros q Hq E. destruct (po_mapped _ _ K q Hq) as (_ & Hrq & _).
    unfold frame in *. rewrite (entry_words s s1) in E by done. rewrite E in Hrq. lia. }
  assert (∀ q, q ∈ P → entry s2 vm q = entry s1 vm q) as He2.
  { intros q Hq. destruct (HPr q Hq). destruct ok; [|by apply Hok]. rewrite Hok by done. by rewrite bool_decide_false by lia. }
  destruct (pages_step s1 s2 P K1 V2 He2 Hkeep Hw2) as [K2 W2].
  assert (∀ q, q ∈ P → frame s2 q ≠ f) as Hother2 by (intros q Hq; unfold frame; rewrite He2 by done; by apply Hother).
  destruct ok.
  - assert (frame s2 p = f ∧ present (entry s2 vm p) = true) as [Hfp Hpp].
    { unfold frame. rewrite Hok by lia. rewrite bool_decide_true by lia.
      replace (f + (p - p) * 4096) with f by lia. assert (is_u32 f) as Hu by by eapply frame_u32.
      rewrite u32_small by done. by destruct (pte_word_ok f (public_flags_to_arch_flags PAGE_READWRITE)) as (_ & -> & ->). }
    split; [|intros b Hb; by rewrite W2, W1]. apply pages_add; rewrite ?Hfp; done.
  - eapply wp_mono; [by apply wp_release_frame|]. intros [] s3 [K3 W3]. split; [done|].
    intros b Hb. by rewrite W3, W2, W1.
Qed.

Lemma wp_unmap_page s P p :
  pages_ok s P → p ∈ P →
  wp (hal_vm_virt_to_phys vm (PAGE_SIZE * p)) s (λ f s1, f ≠ 0 ∧ s1 = s ∧
    wp (hal_vm_unmap vm (PAGE_SIZE * p)) s1 (λ _ s2, wp (pmm_free f) s2 (λ _ s3,
      pages_ok s3 (P ∖ {[p]}) ∧ ∀ b, word_in (P ∖ {[p]}) b → virtual_word s3 b = virtual_word s b))).
Proof.
  intros K Hp. pose proof (po_vm _ _ K) as V. pose proof (heap_page_range p (po_range _ _ K p Hp)) as Hr.
  assert (PAGE_SIZE * p / PAGE_SIZE = p) as Ep by (unfold PAGE_SIZE; lia).
  assert (PAGE_SIZE * p mod PAGE_SIZE = 0) as Em by (unfold PAGE_SIZE; lia).
  apply (wp_translate s P); [done|by rewrite Ep|]. rewrite Ep, Em, Z.add_0_r.
  destruct (pages_frame s P p K Hp) as [Hf H0]. destruct (po_mapped _ _ K p Hp) as (_ & Hrf & Hnf).
  split; [lia|]. split; [done|].
  eapply wp_mono; [apply (wp_hal_vm_unmap s vm p V); lia|]. intros _ s2 (S2 & U & Hk).
  destruct (pages_step s s2 (P ∖ {[p]})) as [K2 W2].
  - eapply pages_subset; [exact K|set_solver].
  - apply S2.
  - intros q [Hq Hne]%elem_of_difference. pose proof (heap_page_range q (po_range _ _ K q Hq)).
    specialize (U q ltac:(lia)). rewrite bool_decide_false in U; [done|]. intros ?. apply Hne, elem_of_singleton. lia.
  - intros g Hg Hn. destruct (Hk g) as [-> _]. split; [done|]. intros H. by apply Hn, (us_parts _ _ _ S2).
  - intros g x Hg Hx _ Hn. by apply (us_words _ _ _ S2).
  - eapply wp_mono; [apply (wp_release_frame s2 (P ∖ {[p]})); [done| | |]|].
    + by destruct (Hk (frame s p)) as [-> _].
    + intros H. by apply Hnf, (us_parts _ _ _ S2).
    + intros q [Hq Hne]%elem_of_difference E. apply Hne, elem_of_singleton. apply (po_inj _ _ K); [done|done|].
      rewrite <-E. unfold frame. pose proof (heap_page_range q (po_range _ _ K q Hq)).
      specialize (U q ltac:(lia)). rewrite bool_decide_false in U; [by rewrite U|]. intros ?. apply Hne, elem_of_singleton. lia.
    + intros [] s3 [K3 W3]. split; [done|]. intros b Hb. by rewrite W3, W2.
Qed.

Lemma virtual_word_u32 s P a : pages_ok s P → word_in P a → is_u32 (virtual_word s a).
Proof. intros K _. apply (vo_mem _ _ (po_vm _ _ K)). Qed.

#[local] Instance paged_kernel_memory : KernelMemory Vm := {
  km_frame_alloc := pmm_alloc;
  km_frame_free := pmm_free;
  km_map := hal_vm_map vm;
  km_unmap := hal_vm_unmap vm;
  km_virt_to_phys := hal_vm_virt_to_phys vm;
  km_load := kernel_load;
  km_store := kernel_store;
  km_ok := pages_ok;
  km_word := virtual_word;
  km_word_u32 := virtual_word_u32;
  km_load_ok := wp_kernel_load;
  km_store_ok := wp_kernel_store;
  km_map_ok := wp_map_page;
  km_unmap_ok := wp_unmap_page
}.
End paged.
