(* ===== verification/Kheap.v ===== *)
(** * The kernel heap: the code

    [kernel/src/mm/kmalloc.c]. Objects of up to 2048 bytes come from slabs, pages
    with a header and objects of one size class linked in a free list; larger
    ones are whole pages with a header of their own. The addresses of the heap
    are handed out by a bitmap with a search hint. Headers, free lists and slab
    lists are words of kernel memory, reached through the interface of
    [KernelMem]; a page that is not mapped cannot be read or written. A pointer
    to a cache is the index of the cache. *)

From S2P Require Import Prelude Range Bitmap FrameAlloc Paging KernelMem.

Definition SIZE_CLASSES : list Z := [8; 16; 32; 64; 128; 256; 512; 1024; 2048].
Definition NUM_SIZE_CLASSES : Z := 9.
Definition LARGE_ALLOC_MAGIC : Z := 1279349323.
Definition SIZE_MAX : Z := 4294967295.

(** [sizeof], and the offsets of the fields of the two headers. *)
Definition sizeof_slab_t : Z := 20.
Definition slab_next : Z := 0.
Definition slab_free_list : Z := 4.
Definition slab_free_count : Z := 8.
Definition slab_total_count : Z := 12.
Definition slab_object_size : Z := 16.
Definition sizeof_large_alloc_hdr_t : Z := 16.
Definition hdr_magic : Z := 0.
Definition hdr_pages : Z := 4.

Record kmem_cache_t := Cache {
  partial_slabs : Z;
  full_slabs : Z;
  empty_slabs : Z;
  object_size : Z;
  objects_per_slab : Z
}.

Record kmalloc_stats_t := Stats {
  total_allocated : Z;
  total_freed : Z;
  current_usage : Z;
  failed_allocations : Z
}.

Record kheap (K : Type) := Kheap {
  kmem : K;
  heap_va_bitmap : arr Z;
  heap_va_hint : Z;
  caches : arr kmem_cache_t;
  stats : kmalloc_stats_t
}.
Arguments Kheap {_}.
Arguments kmem {_}.
Arguments heap_va_bitmap {_}.
Arguments heap_va_hint {_}.
Arguments caches {_}.
Arguments stats {_}.

(** The lists of a cache. *)
Inductive slab_list := Partial | Full | Empty.

#[global] Instance slab_list_eq_dec : EqDecision slab_list.
Proof. solve_decision. Defined.

Definition list_head (l : slab_list) (c : kmem_cache_t) : Z :=
  match l with Partial => partial_slabs c | Full => full_slabs c | Empty => empty_slabs c end.
Definition set_list_head (l : slab_list) (h : Z) (c : kmem_cache_t) : kmem_cache_t :=
  match l with
  | Partial => Cache h (full_slabs c) (empty_slabs c) (object_size c) (objects_per_slab c)
  | Full => Cache (partial_slabs c) h (empty_slabs c) (object_size c) (objects_per_slab c)
  | Empty => Cache (partial_slabs c) (full_slabs c) h (object_size c) (objects_per_slab c)
  end.

(** A [slab_t **]: the head of a list, or the [next] of a slab. *)
Inductive slab_link := Head | Next (slab : Z).

Section ops.
Context `{KM : KernelMemory K}.
Notation H := (kheap K).

Definition set_mem m (s : H) : H := Kheap m (heap_va_bitmap s) (heap_va_hint s) (caches s) (stats s).
Definition set_bitmap b (s : H) : H := Kheap (kmem s) b (heap_va_hint s) (caches s) (stats s).
Definition set_hint h (s : H) : H := Kheap (kmem s) (heap_va_bitmap s) h (caches s) (stats s).
Definition set_caches c (s : H) : H := Kheap (kmem s) (heap_va_bitmap s) (heap_va_hint s) c (stats s).
Definition set_stats x (s : H) : H := Kheap (kmem s) (heap_va_bitmap s) (heap_va_hint s) (caches s) x.

Definition on_mem {A} (m : M K A) : M H A := zoom kmem set_mem m.
Definition load (a : Z) : M H Z := on_mem (km_load a).
Definition store (a v : Z) : M H unit := on_mem (km_store a v).
Definition cache (i : Z) : M H kmem_cache_t := zoom caches set_caches (ld i).
Definition upd_cache (i : Z) (f : kmem_cache_t → kmem_cache_t) : M H unit :=
  zoom caches set_caches (c ← ld i; st i (f c)).

Definition count_failed : M H unit := modify (λ s, set_stats (
  Stats (total_allocated (stats s)) (total_freed (stats s)) (current_usage (stats s)) (u32 (failed_allocations (stats s) + 1))) s).
Definition count_allocated (n : Z) : M H unit := modify (λ s, set_stats (
  Stats (u32 (total_allocated (stats s) + n)) (total_freed (stats s)) (u32 (current_usage (stats s) + n)) (failed_allocations (stats s))) s).
Definition count_freed (n : Z) : M H unit := modify (λ s, set_stats (
  Stats (total_allocated (stats s)) (u32 (total_freed (stats s) + n)) (u32 (current_usage (stats s) - n)) (failed_allocations (stats s))) s).

(** *** Addresses *)

Definition heap_va_test (page : Z) : M H bool := zoom heap_va_bitmap set_bitmap (
  b ← ld (Z.shiftr page 3); ret (negb (Z.land b (Z.shiftl 1 (Z.land page 7)) =? 0))).
Definition heap_va_set (page : Z) : M H unit := zoom heap_va_bitmap set_bitmap (
  b ← ld (Z.shiftr page 3); st (Z.shiftr page 3) (u8 (Z.lor b (Z.shiftl 1 (Z.land page 7))))).
Definition heap_va_clear (page : Z) : M H unit := zoom heap_va_bitmap set_bitmap (
  b ← ld (Z.shiftr page 3); st (Z.shiftr page 3) (u8 (Z.land b (Z.lnot (Z.shiftl 1 (Z.land page 7)))))).

(** A search visits each page of the heap at most once. *)
Definition heap_fuel : nat := Z.to_nat (HEAP_PAGES + 1).

(** One pass of the search over the pages from [lo] to [hi]. *)
Definition heap_va_pass (page_count lo hi : Z) : M H (option Z) :=
  while_n heap_fuel (λ '(i, run),
    if i <? hi then
      t ← heap_va_test i;
      if t : bool then ret (inl (i + 1, 0))
      else if run + 1 <? page_count then ret (inl (i + 1, run + 1))
      else
        let first := u32 (i + 1 - page_count) in
        for_range first (i + 1) heap_va_set ;;
        modify (set_hint (if i + 1 <? HEAP_PAGES then i + 1 else 0)) ;;
        ret (inr (Some (u32 (KERNEL_HEAP_START + first * PAGE_SIZE))))
    else ret (inr None)) (lo, 0).

Definition heap_va_alloc (page_count : Z) : M H Z :=
  if (page_count =? 0) || (HEAP_PAGES <? page_count) then ret 0
  else
    hint ← gets heap_va_hint;
    r ← heap_va_pass page_count hint HEAP_PAGES;
    match r with
    | Some va => ret va
    | None =>
        hint ← gets heap_va_hint;
        r ← heap_va_pass page_count 0 hint;
        ret (default 0 r)
    end.

Definition heap_va_free (va page_count : Z) : M H unit :=
  let first := u32 (va - KERNEL_HEAP_START) / PAGE_SIZE in
  for_range 0 page_count (λ i, heap_va_clear (first + i)) ;;
  hint ← gets heap_va_hint;
  when (first <? hint) (modify (set_hint first)).

(** *** Pages *)

Definition heap_page_alloc : M H Z :=
  virtual ← heap_va_alloc 1;
  if virtual =? 0 then ret 0
  else
    physical ← on_mem km_frame_alloc;
    if physical =? 0 then heap_va_free virtual 1 ;; ret 0
    else
      ok ← on_mem (km_map virtual physical PAGE_READWRITE);
      if negb ok then on_mem (km_frame_free physical) ;; heap_va_free virtual 1 ;; ret 0
      else ret virtual.

Definition heap_page_free (ptr : Z) : M H unit :=
  physical ← on_mem (km_virt_to_phys ptr);
  when (negb (physical =? 0)) (on_mem (km_unmap ptr) ;; on_mem (km_frame_free physical)) ;;
  heap_va_free ptr 1.

(** *** Slabs *)

(** The free list of a fresh slab is built from its first object to its last. *)
Definition slab_create (cache_i : Z) : M H Z :=
  page ← heap_page_alloc;
  if page =? 0 then ret 0
  else
    let slab := page in
    store (slab + slab_next) 0 ;;
    c ← cache cache_i;
    store (slab + slab_object_size) (object_size c) ;;
    let available := PAGE_SIZE - sizeof_slab_t in
    store (slab + slab_total_count) (available / object_size c) ;;
    total ← load (slab + slab_total_count);
    store (slab + slab_free_count) total ;;
    r ← while_n heap_fuel (λ '(i, (obj, free_list)),
      total ← load (slab + slab_total_count);
      if i <? total then
        store obj free_list ;;
        ret (inl (i + 1, (obj + object_size c, obj)))
      else ret (inr free_list)) (0, (page + sizeof_slab_t, 0));
    store (slab + slab_free_list) r ;;
    ret slab.

Definition slab_destroy (slab : Z) : M H unit := heap_page_free slab.

Definition slab_alloc (slab : Z) : M H Z :=
  f ← load (slab + slab_free_list);
  if f =? 0 then ret 0
  else
    obj ← load (slab + slab_free_list);
    next ← load obj;
    store (slab + slab_free_list) next ;;
    n ← load (slab + slab_free_count);
    store (slab + slab_free_count) (u32 (n - 1)) ;;
    ret obj.

Definition slab_free (slab ptr : Z) : M H unit :=
  f ← load (slab + slab_free_list);
  store ptr f ;;
  store (slab + slab_free_list) ptr ;;
  n ← load (slab + slab_free_count);
  store (slab + slab_free_count) (u32 (n + 1)).

Definition slab_find (ptr : Z) : Z := Z.land ptr (not32 (PAGE_SIZE - 1)).

(** The index of the first class that is large enough, or null. *)
Fixpoint class_for (classes : list Z) (i size : Z) : option Z :=
  match classes with
  | [] => None
  | c :: classes => if size <=? c then Some i else class_for classes (i + 1) size
  end.
Definition cache_for_size (size : Z) : option Z := class_for SIZE_CLASSES 0 size.

Definition kmalloc_init : M H unit :=
  for_range 0 NUM_SIZE_CLASSES (λ i,
    size ← of_opt (SIZE_CLASSES !! Z.to_nat i);
    let available := PAGE_SIZE - sizeof_slab_t in
    upd_cache i (λ _, Cache 0 0 0 size (available / size))).

(** *** Allocating and freeing *)

(** [memset] to zero; the sizes are multiples of a word. *)
Definition zero_words (ptr n : Z) : M H unit := for_range 0 (n / 4) (λ i, store (ptr + 4 * i) 0).

(** Back [pages] pages from [va] on with frames: how many it managed. *)
Definition large_map (va pages : Z) : M H Z :=
  while_n heap_fuel (λ mapped,
    if mapped <? pages then
      phys ← on_mem km_frame_alloc;
      if phys =? 0 then ret (inr mapped)
      else
        ok ← on_mem (km_map (u32 (va + mapped * PAGE_SIZE)) phys PAGE_READWRITE);
        if negb ok then on_mem (km_frame_free phys) ;; ret (inr mapped)
        else ret (inl (mapped + 1))
    else ret (inr mapped)) 0.

Definition large_unmap (va pages : Z) : M H unit :=
  for_range 0 pages (λ i,
    let v := u32 (va + i * PAGE_SIZE) in
    phys ← on_mem (km_virt_to_phys v);
    on_mem (km_unmap v) ;;
    on_mem (km_frame_free phys)).

(** An allocation above the largest class. *)
Definition kmalloc_large (size : Z) (zero : bool) : M H Z :=
  let pages := u32 (size + sizeof_large_alloc_hdr_t + PAGE_SIZE - 1) / PAGE_SIZE in
  va ← heap_va_alloc pages;
  if va =? 0 then count_failed ;; ret 0
  else
    mapped ← large_map va pages;
    if mapped <? pages then
      large_unmap va mapped ;;
      heap_va_free va pages ;;
      count_failed ;;
      ret 0
    else
      store (va + hdr_magic) LARGE_ALLOC_MAGIC ;;
      store (va + hdr_pages) pages ;;
      count_allocated (pages * PAGE_SIZE) ;;
      let ptr := va + sizeof_large_alloc_hdr_t in
      when zero (zero_words ptr (pages * PAGE_SIZE - sizeof_large_alloc_hdr_t)) ;;
      ret ptr.

(** A slab is put at the head of a list. *)
Definition push_slab (cache_i : Z) (l : slab_list) (slab : Z) : M H unit :=
  c ← cache cache_i;
  store (slab + slab_next) (list_head l c) ;;
  upd_cache cache_i (set_list_head l slab).

(** The slab to allocate from, at the head of the partial list; 0 if there is
    none and none can be made. *)
Definition take_slab (cache_i : Z) : M H Z :=
  c ← cache cache_i;
  slab ← (if partial_slabs c =? 0 then
            let slab := empty_slabs c in
            when (negb (slab =? 0)) (
              next ← load (slab + slab_next);
              upd_cache cache_i (set_list_head Empty next) ;;
              push_slab cache_i Partial slab) ;;
            ret slab
          else ret (partial_slabs c));
  if slab =? 0 then
    slab ← slab_create cache_i;
    if slab =? 0 then ret 0
    else
      push_slab cache_i Partial slab ;;
      ret slab
  else ret slab.

Definition kmalloc_internal (size : Z) (zero : bool) : M H Z :=
  if size =? 0 then ret 0
  else if 2048 <? size then kmalloc_large size zero
  else
    match cache_for_size size with
    | None => count_failed ;; ret 0
    | Some cache_i =>
        slab ← take_slab cache_i;
        if slab =? 0 then count_failed ;; ret 0
        else
          ptr ← slab_alloc slab;
          if ptr =? 0 then count_failed ;; ret 0
          else
            n ← load (slab + slab_free_count);
            when (n =? 0) (
              c ← cache cache_i;
              when (partial_slabs c =? slab) (
                next ← load (slab + slab_next);
                upd_cache cache_i (set_list_head Partial next)) ;;
              push_slab cache_i Full slab) ;;
            c ← cache cache_i;
            count_allocated (object_size c) ;;
            when zero (zero_words ptr (object_size c)) ;;
            ret ptr
    end.

Definition kmalloc (size : Z) : M H Z := kmalloc_internal size false.
Definition kzalloc (size : Z) : M H Z := kmalloc_internal size true.

Definition kcalloc (count size : Z) : M H Z :=
  if negb (count =? 0) && (SIZE_MAX / count <? size) then count_failed ;; ret 0
  else kzalloc (u32 (count * size)).

(** The header of a large allocation, or null. *)
Definition large_alloc_hdr (ptr : Z) : M H Z :=
  let page_start := Z.land ptr (not32 (PAGE_SIZE - 1)) in
  if ptr =? page_start + sizeof_large_alloc_hdr_t then
    magic ← load (page_start + hdr_magic);
    ret (if magic =? LARGE_ALLOC_MAGIC then page_start else 0)
  else ret 0.

Definition read_link (cache_i : Z) (l : slab_list) (p : slab_link) : M H Z :=
  match p with Head => c ← cache cache_i; ret (list_head l c) | Next slab => load (slab + slab_next) end.
Definition write_link (cache_i : Z) (l : slab_list) (p : slab_link) (v : Z) : M H unit :=
  match p with Head => upd_cache cache_i (set_list_head l v) | Next slab => store (slab + slab_next) v end.

(** The link of list [l] that holds [slab], or the null one at its end. *)
Definition find_link (cache_i : Z) (l : slab_list) (slab : Z) : M H slab_link :=
  while_n heap_fuel (λ prev,
    v ← read_link cache_i l prev;
    if negb (v =? 0) && negb (v =? slab) then ret (inl (Next v)) else ret (inr prev)) Head.

Definition kfree (ptr : Z) : M H unit :=
  if ptr =? 0 then ret tt
  else
    hdr ← large_alloc_hdr ptr;
    if negb (hdr =? 0) then
      let va := hdr in
      pages ← load (hdr + hdr_pages);
      large_unmap va pages ;;
      heap_va_free va pages ;;
      count_freed (u32 (pages * PAGE_SIZE))
    else
      let slab := slab_find ptr in
      obj_size ← load (slab + slab_object_size);
      match cache_for_size obj_size with
      | None => ret tt
      | Some cache_i =>
          n ← load (slab + slab_free_count);
          let was_full := n =? 0 in
          slab_free slab ptr ;;
          count_freed obj_size ;;
          when was_full (
            prev ← find_link cache_i Full slab;
            v ← read_link cache_i Full prev;
            when (negb (v =? 0)) (
              next ← load (slab + slab_next);
              write_link cache_i Full prev next ;;
              push_slab cache_i Partial slab)) ;;
          n ← load (slab + slab_free_count);
          total ← load (slab + slab_total_count);
          when (n =? total) (
            prev ← find_link cache_i Partial slab;
            v ← read_link cache_i Partial prev;
            when (v =? slab) (
              next ← load (slab + slab_next);
              write_link cache_i Partial prev next) ;;
            push_slab cache_i Empty slab)
      end.

(** Bytes of the words of memory. *)
Definition load_byte (a : Z) : M H Z :=
  w ← load (a - a mod 4);
  ret (w / 256 ^ (a mod 4) mod 256).
Definition put_byte (w k v : Z) : Z := w + (v - w / 256 ^ k mod 256) * 256 ^ k.
Definition store_byte (a v : Z) : M H unit :=
  w ← load (a - a mod 4);
  store (a - a mod 4) (put_byte w (a mod 4) v).
Definition copy_bytes (dst src n : Z) : M H unit :=
  for_range 0 n (λ i, b ← load_byte (src + i); store_byte (dst + i) b).

(** The size of the old block, and whether it is kept. *)
Definition krealloc_keeps (ptr size : Z) : M H (Z * bool) :=
  hdr ← large_alloc_hdr ptr;
  if negb (hdr =? 0) then
    pages ← load (hdr + hdr_pages);
    let old_size := u32 (pages * PAGE_SIZE - sizeof_large_alloc_hdr_t) in
    ret (old_size, (2048 <? size) && (size <=? old_size))
  else
    old_size ← load (slab_find ptr + slab_object_size);
    ret (old_size, bool_decide (cache_for_size old_size = cache_for_size size)).

Definition krealloc (ptr size : Z) : M H Z :=
  if ptr =? 0 then kmalloc size
  else if size =? 0 then kfree ptr ;; ret 0
  else
    '(old_size, keep) ← krealloc_keeps ptr size;
    if keep : bool then ret ptr
    else
      new_ptr ← kmalloc size;
      if new_ptr =? 0 then ret 0
      else
        let copy_size := if old_size <? size then old_size else size in
        copy_bytes new_ptr ptr copy_size ;;
        kfree ptr ;;
        ret new_ptr.

Definition kmalloc_stats_get : M H kmalloc_stats_t := gets stats.
End ops.
