(* ===== verification/KheapVa.v ===== *)
(** * The kernel heap: addresses

    The page bitmap of [kernel/src/mm/kmalloc.c]: an allocation takes the first
    run of free pages at or after the hint, or else the first one before it. *)

From S2P Require Import Prelude Range Bitmap FrameAlloc Paging KernelMem Kheap.

(** [n] free pages from [a] on. *)
Definition free_run (bm : arr Z) (a n : Z) : Prop := ∀ i, a <= i < a + n → bit bm i = false.

(** The pages from [a] on become [v]. *)
Record marked (bm : arr Z) (a n : Z) (v : bool) (bm' : arr Z) : Prop := {
  mk_len : alen bm' = alen bm;
  mk_bit : ∀ j, 0 <= j → bit bm' j = if decide (a <= j < a + n) then v else bit bm j
}.

Section va.
Context `{KM : KernelMemory K}.
Notation H := (kheap K).
Implicit Types s : H.

Lemma va_index p : Z.shiftr p 3 = p / 8 ∧ Z.land p 7 = p mod 8.
Proof. split; [by rewrite Z.shiftr_div_pow2|]. change 7 with (Z.ones 3). by rewrite Z.land_ones. Qed.

Lemma heap_va_test_eq p : heap_va_test (K := K) p = zoom heap_va_bitmap set_bitmap (bitmap_test p).
Proof. unfold heap_va_test, bitmap_test. by destruct (va_index p) as [-> ->]. Qed.
Lemma heap_va_set_eq p : heap_va_set (K := K) p = zoom heap_va_bitmap set_bitmap (bitmap_set p).
Proof. unfold heap_va_set, bitmap_set. by destruct (va_index p) as [-> ->]. Qed.
Lemma heap_va_clear_eq p : heap_va_clear (K := K) p = zoom heap_va_bitmap set_bitmap (bitmap_clear p).
Proof. unfold heap_va_clear, bitmap_clear. by destruct (va_index p) as [-> ->]. Qed.

Lemma wp_heap_va_test s p (Q : bool → H → Prop) :
  0 <= p < 8 * alen (heap_va_bitmap s) → Q (bit (heap_va_bitmap s) p) s → wp (heap_va_test p) s Q.
Proof. intros Hp HQ. rewrite heap_va_test_eq. apply wp_zoom, wp_bitmap_test; [done|]. by destruct s. Qed.

(** The loops that mark a run. *)
Lemma wp_heap_va_mark (op : Z → M H unit) (bop : Z → M (arr Z) unit) v s a n b :
  (∀ p, op p = zoom heap_va_bitmap set_bitmap (bop p)) →
  (∀ bm i (Q : unit → arr Z → Prop), 0 <= i < 8 * alen bm → (∀ bm', bit_upd bm i v bm' → Q tt bm') → wp (bop i) bm Q) →
  0 <= a → 0 <= n → a + n <= 8 * alen (heap_va_bitmap s) →
  wp (for_range b (b + n) (λ i, op (a - b + i))) s (λ _ s', ∃ bm', s' = set_bitmap bm' s ∧ marked (heap_va_bitmap s) a n v bm').
Proof.
  intros Hop Hb Ha Hn Hl. eapply wp_mono.
  - apply (wp_for_range (λ i s', ∃ bm', s' = set_bitmap bm' s ∧ marked (heap_va_bitmap s) a (i - b) v bm')).
    + exists (heap_va_bitmap s). split; [by destruct s|]. split; [done|]. intros j _. by rewrite decide_False by lia.
    + intros i s' Hi (bm' & -> & L & B). rewrite Hop. apply wp_zoom, Hb; [cbn; lia|]. cbn. intros bm'' [L' _ B'].
      exists bm''. split; [done|]. split; [lia|]. intros j Hj. rewrite B', B by done.
      repeat case_decide; (done || lia).
  - intros [] s' (bm' & -> & Hm). exists bm'. split; [done|].
    by replace (Z.max b (b + n) - b) with n in Hm by lia.
Qed.

Lemma wp_heap_va_set_run s a n :
  0 <= a → 0 <= n → a + n <= 8 * alen (heap_va_bitmap s) →
  wp (for_range a (a + n) heap_va_set) s (λ _ s', ∃ bm', s' = set_bitmap bm' s ∧ marked (heap_va_bitmap s) a n true bm').
Proof.
  intros Ha Hn Hl. pose proof (wp_heap_va_mark heap_va_set bitmap_set true s a n a heap_va_set_eq) as Hm.
  assert (∀ k i, for_n k i (λ i, heap_va_set (K := K) (a - a + i)) = for_n k i heap_va_set) as E.
  { intros k. induction k as [|k IH]; intros i; [done|]. cbn [for_n]. rewrite IH. by replace (a - a + i) with i by lia. }
  unfold for_range in *. rewrite E in Hm. apply Hm; [|done..]. intros. by apply wp_bitmap_set.
Qed.

Definition va_of (a : Z) : Z := KERNEL_HEAP_START + a * PAGE_SIZE.

(** The state after pages [a] to [a + n] were taken. *)
Definition taken (s : H) (a n : Z) (s' : H) : Prop :=
  ∃ bm h, s' = set_hint h (set_bitmap bm s) ∧ marked (heap_va_bitmap s) a n true bm ∧ 0 <= h < HEAP_PAGES.

Lemma wp_heap_va_pass s n lo hi :
  alen (heap_va_bitmap s) = HEAP_PAGES / 8 → 1 <= n <= HEAP_PAGES → 0 <= lo <= HEAP_PAGES → hi <= HEAP_PAGES →
  wp (heap_va_pass n lo hi) s (λ r s', match r with
    | Some va => ∃ a, va = va_of a ∧ lo <= a ∧ a + n <= hi ∧ free_run (heap_va_bitmap s) a n ∧
        (∀ b, lo <= b → b + n <= hi → free_run (heap_va_bitmap s) b n → a <= b) ∧ taken s a n s'
    | None => s' = s ∧ ∀ b, lo <= b → b + n <= hi → ¬ free_run (heap_va_bitmap s) b n
    end).
Proof.
  change HEAP_PAGES with 65536. intros Hl Hn Hlo Hhi. set (bm := heap_va_bitmap s) in *.
  apply (wp_while_n (λ k '(i, run) s', s' = s ∧ k = Z.to_nat (hi - i) ∧ lo <= i <= 65536 ∧ 0 <= run < n ∧ run <= i - lo ∧
    free_run bm (i - run) run ∧ (i - run = lo ∨ bit bm (i - run - 1) = true) ∧
    ∀ b, lo <= b → b + n <= i → ¬ free_run bm b n) _ _ _ (Z.to_nat (hi - lo))).
  - split; [done|]. split; [done|]. split; [lia|]. split; [lia|]. split; [lia|]. split; [intros i ?; lia|].
    split; [left; lia|]. lia.
  - unfold heap_fuel. change HEAP_PAGES with 65536. lia.
  - intros k [i run] s' (-> & -> & Hi & Hr & Hri & Hfree & Hedge & Hno). wp_step; [|wp_step; split; [done|]; intros b Hb1 Hb2; apply Hno; blia].
    wp_step. apply wp_heap_va_test; [fold bm; blia|]. fold bm. destruct (bit bm i) eqn:Eb.
    { wp_step. exists (Z.to_nat (hi - (i + 1))). split; [blia|]. split; [done|]. split; [done|]. split; [blia|].
      split; [lia|]. split; [lia|]. split; [intros j ?; lia|]. split; [right; by replace (i + 1 - 0 - 1) with i by lia|].
      intros b Hb1 Hb2 Hf. rewrite (Hf i) in Eb; [done|]. destruct (decide (b + n <= i)); [|lia]. by destruct (Hno b). }
    assert (free_run bm (i + 1 - (run + 1)) (run + 1)) as Hfree'.
    { intros j Hj. destruct (decide (j = i)) as [->|]; [done|]. apply Hfree. lia. }
    wp_step.
    { wp_step. exists (Z.to_nat (hi - (i + 1))). split; [blia|]. split; [done|]. split; [done|]. split; [blia|].
      split; [blia|]. split; [lia|]. split; [done|]. split; [by replace (i + 1 - (run + 1)) with (i - run) by lia|].
      intros b Hb1 Hb2 Hf. destruct (decide (b + n <= i)) as [|Hbi]; [by destruct (Hno b)|].
      destruct Hedge as [He|He]; [blia|]. rewrite (Hf (i - run - 1)) in He; [done|blia]. }
    assert (run + 1 = n) as Ern by blia. rewrite Ern in Hfree'. cbv zeta. rewrite u32_small by (unfold is_u32; lia).
    wp_step. replace (i + 1) with (i + 1 - n + n) at 2 by lia.
    eapply wp_mono; [apply wp_heap_va_set_run; fold bm; lia|]. intros [] s2 (bm' & -> & Hm). do 3 wp_step.
    exists (i + 1 - n). split; [unfold va_of, KERNEL_HEAP_START, KERNEL_BASE, MAX_PHYSICAL_MEMORY, PAGE_SIZE; ulia|].
    split; [lia|]. split; [blia|]. split; [done|]. split.
    + intros b Hb1 Hb2 Hf. destruct (decide (b + n <= i)); [by destruct (Hno b)|lia].
    + exists bm', (if i + 1 <? 65536 then i + 1 else 0). split; [done|]. split; [done|].
      change HEAP_PAGES with 65536. destruct (i + 1 <? 65536) eqn:E; blia.
Qed.

(** What an allocation of addresses does. *)
Lemma wp_heap_va_alloc s n :
  alen (heap_va_bitmap s) = HEAP_PAGES / 8 → 0 <= heap_va_hint s < HEAP_PAGES → 0 <= n →
  wp (heap_va_alloc n) s (λ va s',
    va = 0 ∧ s' = s ∧ (1 <= n <= HEAP_PAGES → ∀ b, 0 <= b → b + n <= HEAP_PAGES → free_run (heap_va_bitmap s) b n →
      b < heap_va_hint s < b + n) ∨
    ∃ a, va = va_of a ∧ va ≠ 0 ∧ 1 <= n ∧ 0 <= a ∧ a + n <= HEAP_PAGES ∧ free_run (heap_va_bitmap s) a n ∧ taken s a n s' ∧
      (∀ b, heap_va_hint s <= b → b + n <= HEAP_PAGES → free_run (heap_va_bitmap s) b n → heap_va_hint s <= a <= b)).
Proof.
  intros Hl Hh Hn. unfold heap_va_alloc. wp_step.
  { wp_step. left. split; [done|]. split; [done|]. intros ?. blia. }
  assert (∀ a, 0 <= a → va_of a ≠ 0) as Hnz by (intros a ?; unfold va_of, KERNEL_HEAP_START, KERNEL_BASE, MAX_PHYSICAL_MEMORY, PAGE_SIZE; lia).
  do 3 wp_step. eapply wp_mono; [apply wp_heap_va_pass; blia|]. intros [va|] s1 Hr.
  - destruct Hr as (a & -> & H1 & H2 & H3 & H4 & H5). wp_step. right. exists a. split; [done|]. split; [apply Hnz; lia|].
    split; [blia|]. split; [lia|]. split; [done|]. split; [done|]. split; [done|]. intros b Hb1 Hb2 Hb3. split; [done|]. by apply H4.
  - destruct Hr as [-> Hno]. do 3 wp_step. eapply wp_mono; [apply wp_heap_va_pass; blia|]. intros [va|] s2 Hr.
    + destruct Hr as (a & -> & H1 & H2 & H3 & H4 & H5). wp_step. right. exists a. split; [done|]. split; [apply Hnz; lia|].
      split; [blia|]. split; [lia|]. split; [lia|]. split; [done|]. split; [done|]. intros b Hb1 Hb2 Hb3. by destruct (Hno b).
    + destruct Hr as [-> Hno2]. wp_step. left. split; [done|]. split; [done|]. intros _ b Hb1 Hb2 Hf.
      destruct (decide (heap_va_hint s <= b)); [by destruct (Hno b)|].
      destruct (decide (b + n <= heap_va_hint s)); [by destruct (Hno2 b)|]. lia.
Qed.

Lemma wp_heap_va_free s a n :
  alen (heap_va_bitmap s) = HEAP_PAGES / 8 → 0 <= heap_va_hint s < HEAP_PAGES → 0 <= a → 0 <= n → a + n <= HEAP_PAGES →
  wp (heap_va_free (va_of a) n) s (λ _ s', ∃ bm h, s' = set_hint h (set_bitmap bm s) ∧
    marked (heap_va_bitmap s) a n false bm ∧ 0 <= h < HEAP_PAGES).
Proof.
  change HEAP_PAGES with 65536. intros Hl Hh Ha Hn He. unfold heap_va_free.
  replace (u32 (va_of a - KERNEL_HEAP_START) / PAGE_SIZE) with a by (unfold va_of, PAGE_SIZE; ulia). wp_step.
  pose proof (wp_heap_va_mark heap_va_clear bitmap_clear false s a n 0 heap_va_clear_eq) as Hm.
  replace (a - 0) with a in Hm by lia. change (0 + n) with n in Hm. eapply wp_mono; [apply Hm; [|lia..]|].
  { intros. by apply wp_bitmap_clear. }
  intros [] s1 (bm & -> & Hb). do 2 wp_step. cbn [heap_va_hint set_bitmap]. apply wp_when; intros Hlt.
  - wp_step. exists bm, a. split; [done|]. split; [done|]. blia.
  - exists bm, (heap_va_hint s). split; [by destruct s|]. done.
Qed.
End va.
