(* ===== verification/KheapShape.v ===== *)
(** * The kernel heap: its structure

    What the words of the heap's pages mean: which page belongs to a slab or to
    a large allocation, which objects of a slab are free, and which list a slab
    is on. The lemmas say how each change of a word or of a list head changes
    that structure; they are about functions from addresses to words and know
    nothing of the code. *)

From S2P Require Import Prelude Range FrameAlloc Paging KernelMem Kheap.

(** *** Size classes *)

Definition csize (c : Z) : Z := default 0 (SIZE_CLASSES !! Z.to_nat c).
Definition ctotal (c : Z) : Z := (PAGE_SIZE - sizeof_slab_t) / csize c.
Definition class_ok (c : Z) : Prop := 0 <= c < NUM_SIZE_CLASSES.

Lemma class_cases (P : Z → Prop) : P 0 → P 1 → P 2 → P 3 → P 4 → P 5 → P 6 → P 7 → P 8 → ∀ c, class_ok c → P c.
Proof.
  intros H0 H1 H2 H3 H4 H5 H6 H7 H8 c Hc. unfold class_ok, NUM_SIZE_CLASSES in Hc.
  assert (c = 0 ∨ c = 1 ∨ c = 2 ∨ c = 3 ∨ c = 4 ∨ c = 5 ∨ c = 6 ∨ c = 7 ∨ c = 8) as Hd by lia.
  by destruct Hd as [->|[->|[->|[->|[->|[->|[->|[->| ->]]]]]]]].
Qed.

Lemma csize_ok c : class_ok c → 8 <= csize c <= 2048 ∧ csize c mod 4 = 0 ∧ 1 <= ctotal c <= 509 ∧ ctotal c * csize c <= 4076.
Proof. apply (class_cases (λ c, 8 <= csize c <= 2048 ∧ csize c mod 4 = 0 ∧ 1 <= ctotal c <= 509 ∧ ctotal c * csize c <= 4076)); vm_compute; by repeat split. Qed.

Lemma cache_for_class c : class_ok c → cache_for_size (csize c) = Some c.
Proof. by apply (class_cases (λ c, cache_for_size (csize c) = Some c)). Qed.

(** A size up to the largest class gets a class that it fits. *)
Lemma cache_for_size_ok n : 0 <= n <= 2048 → ∃ c, cache_for_size n = Some c ∧ class_ok c ∧ n <= csize c.
Proof.
  intros Hn. unfold cache_for_size, SIZE_CLASSES. cbn [class_for].
  repeat match goal with |- context [if ?b then _ else _] => destruct b eqn:? end;
    try (eexists; split; [reflexivity|]; split; [vm_compute; done|vm_compute csize; blia]). blia.
Qed.

(** *** Owners of pages *)

(** A page of the heap is a slab, of a class, on a list or not, with its free
    objects in the order of the free list; or it is part of a large allocation
    of [n] pages from page [a] on. *)
Inductive owner := OSlab (c : Z) (k : option slab_list) (F : list Z) | OLarge (a n : Z).

(** The address of page [p] and of the object [i] of its slab. *)
Definition page_va (p : Z) : Z := PAGE_SIZE * p.
Definition obj (p c i : Z) : Z := page_va p + sizeof_slab_t + i * csize c.
Definition object (p c a : Z) : Prop := ∃ i, 0 <= i < ctotal c ∧ a = obj p c i.

Lemma object_in p c a : class_ok c → object p c a →
  page_va p + 20 <= a ∧ a + csize c <= page_va p + 4096 ∧ a mod 4 = 0 ∧ a / PAGE_SIZE = p.
Proof.
  intros Hc (i & Hi & ->). destruct (csize_ok c Hc) as (H1 & H2 & H3 & H4). unfold obj, page_va, PAGE_SIZE, sizeof_slab_t.
  assert (0 <= i * csize c) by nia. assert (i * csize c + csize c <= 4076) by nia.
  assert (i * csize c mod 4 = 0). { rewrite <-Z.mul_mod_idemp_r by done. by rewrite H2, Z.mul_0_r. }
  generalize dependent (i * csize c). intros x Hx0 Hx1 Hx4. clear H4. split; [lia|]. split; [lia|]. split; [lia|].
  symmetry. apply (Z.div_unique _ _ _ (20 + x)); lia.
Qed.

(** Two objects of a slab do not overlap. *)
Lemma objects_apart p c a b : class_ok c → object p c a → object p c b → a ≠ b → a + csize c <= b ∨ b + csize c <= a.
Proof.
  intros Hc (i & Hi & ->) (j & Hj & ->) Hne. destruct (csize_ok c Hc) as (H1 & _). unfold obj in *.
  destruct (Z.lt_total i j) as [Hlt|[->|Hlt]]; [left; nia|done|right; nia].
Qed.

Definition block (own : gmap Z owner) (a n : Z) : Prop :=
  (∃ p c k F, own !! p = Some (OSlab c k F) ∧ object p c a ∧ a ∉ F ∧ n = csize c) ∨
  (∃ p m, own !! p = Some (OLarge p m) ∧ a = page_va p + sizeof_large_alloc_hdr_t ∧ n = m * PAGE_SIZE - sizeof_large_alloc_hdr_t).

(** Following links from [h] one meets [l] and then null. *)
Fixpoint linked (w : Z → Z) (h : Z) (l : list Z) : Prop :=
  match l with [] => h = 0 | a :: l => h = a ∧ a ≠ 0 ∧ linked w (w a) l end.

Lemma linked_ext w w' h l : (∀ a, a ∈ l → w' a = w a) → linked w h l → linked w' h l.
Proof.
  revert h. induction l as [|a l IH]; intros h Hw; [done|]. intros (-> & Ha & Hl). split; [done|]. split; [done|].
  rewrite Hw by (by constructor). apply IH; [|done]. intros b Hb. apply Hw. by constructor.
Qed.

Lemma linked_nil w l : linked w 0 l → l = [].
Proof. destruct l as [|a l]; [done|]. by intros (<- & ? & _). Qed.

Record slab_ok (w : Z → Z) (p c : Z) (F : list Z) : Prop := {
  so_class : class_ok c;
  so_nodup : NoDup F;
  so_objects : ∀ a, a ∈ F → object p c a;
  so_list : linked w (w (page_va p + slab_free_list)) F;
  so_count : w (page_va p + slab_free_count) = Z.of_nat (length F);
  so_total : w (page_va p + slab_total_count) = ctotal c;
  so_size : w (page_va p + slab_object_size) = csize c
}.

Record large_ok (w : Z → Z) (own : gmap Z owner) (p a n : Z) : Prop := {
  la_range : a <= p < a + n;
  la_magic : w (page_va a + hdr_magic) = LARGE_ALLOC_MAGIC;
  la_pages : w (page_va a + hdr_pages) = n;
  la_all : ∀ q, a <= q < a + n → own !! q = Some (OLarge a n)
}.

(** The slabs of class [c] on list [k]. *)
Definition on_list (w : Z → Z) (own : gmap Z owner) (h : Z) (c : Z) (k : slab_list) (l : list Z) : Prop :=
  NoDup l ∧ linked (λ a, w (a + slab_next)) h l ∧
  ∀ a, a ∈ l ↔ ∃ p F, a = page_va p ∧ own !! p = Some (OSlab c (Some k) F).

Record shape (w : Z → Z) (hd : Z → slab_list → Z) (own : gmap Z owner) : Prop := {
  sp_range : ∀ p, p ∈ dom own → heap_page p;
  sp_slab : ∀ p c k F, own !! p = Some (OSlab c k F) → slab_ok w p c F;
  sp_large : ∀ p a n, own !! p = Some (OLarge a n) → large_ok w own p a n;
  sp_list : ∀ c k, class_ok c → ∃ l, on_list w own (hd c k) c k l
}.

Lemma page_va_div p off : 0 <= off < PAGE_SIZE → (page_va p + off) / PAGE_SIZE = p.
Proof. intros H. unfold page_va. symmetry. apply (Z.div_unique _ _ _ off); [lia|unfold PAGE_SIZE; lia]. Qed.

Lemma page_va_inj p q : page_va p = page_va q → p = q.
Proof. unfold page_va, PAGE_SIZE. lia. Qed.

Lemma header_in (own : gmap Z owner) p o off : own !! p = Some o → 0 <= off < PAGE_SIZE → off mod 4 = 0 → word_in (dom own) (page_va p + off).
Proof.
  intros Hp H1 H2. split; [unfold page_va, PAGE_SIZE in *; lia|]. rewrite page_va_div by done. by apply elem_of_dom_2 in Hp.
Qed.

Lemma object_word (own : gmap Z owner) p c k F a : own !! p = Some (OSlab c k F) → class_ok c → object p c a → word_in (dom own) a.
Proof. intros Hp Hc Ha. destruct (object_in p c a Hc Ha) as (_ & _ & H4 & Hd). split; [done|]. rewrite Hd. by apply elem_of_dom_2 in Hp. Qed.

Lemma heap_page_va p : heap_page p → 0 < page_va p < 4294967296.
Proof. unfold heap_page, page_va. change HEAP_BASE with 917504. change HEAP_PAGES with 65536. unfold PAGE_SIZE. lia. Qed.

(** The structure of a slab is in the words of its page, the link apart. *)
Lemma slab_ok_ext w w' p c F :
  (∀ off, 0 < off < PAGE_SIZE → off mod 4 = 0 → w' (page_va p + off) = w (page_va p + off)) → slab_ok w p c F → slab_ok w' p c F.
Proof.
  intros Hw [Hc Hn Ho Hl H1 H2 H3]. split; try done; rewrite ?Hw by done; try done.
  eapply linked_ext; [|exact Hl]. intros a Ha. destruct (object_in p c a Hc (Ho a Ha)) as (Ha1 & Ha2 & Ha3 & _).
  destruct (csize_ok c Hc) as (Hs & _). replace a with (page_va p + (a - page_va p)) by lia.
  apply Hw; [unfold PAGE_SIZE; lia|unfold page_va, PAGE_SIZE in *; lia].
Qed.

(** One slab changes, together with links of slabs and list heads. *)
Lemma shape_update w hd own w' hd' p c k F k' F' :
  shape w hd own → own !! p = Some (OSlab c k F) → slab_ok w' p c F' →
  (∀ x, word_in (dom own) x → x / PAGE_SIZE ≠ p → w' x = w x ∨ ∃ q c k F, own !! q = Some (OSlab c k F) ∧ x = page_va q) →
  (∀ c0 k0, class_ok c0 → ∃ l, on_list w' (<[p := OSlab c k' F']> own) (hd' c0 k0) c0 k0 l) →
  shape w' hd' (<[p := OSlab c k' F']> own).
Proof.
  intros Sh Hp Hs Hw Hl. split; [| | |done].
  - intros q. rewrite dom_insert_lookup_L by done. apply Sh.
  - intros q c0 k0 F0. destruct (decide (q = p)) as [->|Hne].
    + rewrite lookup_insert_eq. intros [= <- <- <-]. done.
    + rewrite lookup_insert_ne by done. intros Hq. eapply slab_ok_ext; [|by eapply sp_slab].
      intros off Ho H4. destruct (Hw (page_va q + off)) as [->|(q' & c1 & k1 & F1 & Hq' & E)]; [| |done|].
      * eapply header_in; [done|lia|done].
      * by rewrite page_va_div by lia.
      * unfold page_va, PAGE_SIZE in *. lia.
  - intros q a n Hq. rewrite lookup_insert_ne in Hq by (intros <-; by rewrite lookup_insert_eq in Hq).
    destruct (sp_large _ _ _ Sh q a n Hq) as [H1 H2 H3 H4].
    assert (own !! a = Some (OLarge a n)) as Ha by (apply H4; lia).
    assert (∀ off, 0 <= off < PAGE_SIZE → off mod 4 = 0 → w' (page_va a + off) = w (page_va a + off)) as Hwa.
    { intros off Ho Ho4. destruct (Hw (page_va a + off)) as [->|(q' & c1 & k1 & F1 & Hq' & E)]; [| |done|].
      - by eapply header_in.
      - rewrite page_va_div by done. intros ->. congruence.
      - assert (a = q') as -> by (unfold page_va, PAGE_SIZE in *; lia). congruence. }
    split; [done|by rewrite Hwa|by rewrite Hwa|]. intros r Hr. rewrite lookup_insert_ne; [by apply H4|].
    intros <-. rewrite H4 in Hp by done. done.
Qed.

(** Lists that do not involve the slab. *)
Lemma on_list_other w w' own h c0 k0 l p c k F k' F' :
  on_list w own h c0 k0 l → own !! p = Some (OSlab c k F) → (k = Some k0 → c0 ≠ c) → (k' = Some k0 → c0 ≠ c) →
  (∀ a, a ∈ l → w' (a + slab_next) = w (a + slab_next)) →
  on_list w' (<[p := OSlab c k' F']> own) h c0 k0 l.
Proof.
  intros (Hn & Hl & Hm) Hp Hk Hk' Hw. split; [done|]. split; [eapply linked_ext; [|exact Hl]; exact Hw|]. intros a. rewrite Hm.
  split; intros (q & F0 & -> & Hq); exists q, F0; (split; [done|]).
  - rewrite lookup_insert_ne; [done|]. intros <-. rewrite Hp in Hq. injection Hq as -> -> ->. by destruct Hk.
  - destruct (decide (p = q)) as [<-|]; [|by rewrite lookup_insert_ne in Hq].
    rewrite lookup_insert_eq in Hq. injection Hq as -> -> ->. by destruct Hk'.
Qed.

(** A slab whose place does not change. *)
Lemma on_list_same w w' own h c0 k0 l p c k F F' :
  on_list w own h c0 k0 l → own !! p = Some (OSlab c k F) →
  (∀ a, a ∈ l → w' (a + slab_next) = w (a + slab_next)) →
  on_list w' (<[p := OSlab c k F']> own) h c0 k0 l.
Proof.
  intros (Hn & Hl & Hm) Hp Hw. split; [done|]. split; [eapply linked_ext; [|exact Hl]; exact Hw|]. intros a. rewrite Hm.
  split; intros (q & F0 & -> & Hq).
  - destruct (decide (p = q)) as [<-|].
    + rewrite Hp in Hq. injection Hq as -> -> ->. exists p, F'. by rewrite lookup_insert_eq.
    + exists q, F0. by rewrite lookup_insert_ne.
  - destruct (decide (p = q)) as [<-|].
    + rewrite lookup_insert_eq in Hq. injection Hq as -> -> ->. by exists p, F.
    + exists q, F0. by rewrite lookup_insert_ne in Hq.
Qed.

(** *** Moving a slab between lists *)

Definition set_hd (hd : Z → slab_list → Z) c k v : Z → slab_list → Z :=
  λ c' k', if decide (c' = c ∧ k' = k) then v else hd c' k'.

Definition unlisted (own : gmap Z owner) (p : Z) : Prop := ∀ c k F, own !! p ≠ Some (OSlab c (Some k) F).

Lemma on_list_notin w own h c k l p : on_list w own h c k l → unlisted own p → page_va p ∉ l.
Proof. intros (_ & _ & Hm) Hu H. apply Hm in H as (q & F & E & Hq). apply page_va_inj in E as <-. by eapply Hu. Qed.

Lemma slab_next_off w (v : Z) p q off :
  0 < off < PAGE_SIZE → (<[page_va q + slab_next := v]> w : Z → Z) (page_va p + off) = w (page_va p + off).
Proof. intros H. apply fn_lookup_insert_ne. unfold page_va, slab_next, PAGE_SIZE in *. lia. Qed.

Lemma slab_ok_next w v q p c F : slab_ok w p c F → slab_ok (<[page_va q + slab_next := v]> w) p c F.
Proof. apply slab_ok_ext. intros off H _. by apply slab_next_off. Qed.

Lemma shape_push w hd own p c k F :
  shape w hd own → own !! p = Some (OSlab c None F) →
  shape (<[page_va p + slab_next := hd c k]> w) (set_hd hd c k (page_va p)) (<[p := OSlab c (Some k) F]> own).
Proof.
  intros Sh Hp. pose proof (sp_slab _ _ _ Sh _ _ _ _ Hp) as Hs.
  assert (unlisted own p) as Hu by (intros c' k' F'; by rewrite Hp).
  assert (∀ h c0 k0 l a, on_list w own h c0 k0 l → a ∈ l → a ≠ page_va p) as Hnot.
  { intros h c0 k0 l a Hl Ha ->. by eapply on_list_notin. }
  eapply shape_update; [exact Sh|exact Hp|by apply slab_ok_next| |].
  - intros x _ Hx. left. apply fn_lookup_insert_ne. intros <-. apply Hx. rewrite page_va_div; [done|unfold slab_next, PAGE_SIZE; lia].
  - intros c0 k0 Hc0. destruct (sp_list _ _ _ Sh c0 k0 Hc0) as [l Hl]. unfold set_hd.
    assert (∀ a, a ∈ l → (<[page_va p + slab_next := hd c k]> w : Z → Z) (a + slab_next) = w (a + slab_next)) as Hw.
    { intros a Ha. apply fn_lookup_insert_ne. pose proof (Hnot _ _ _ _ _ Hl Ha). lia. }
    destruct (decide (c0 = c ∧ k0 = k)) as [[-> ->]|Hne].
    + exists (page_va p :: l). destruct Hl as (Hn & Hl & Hm). split; [|split].
      * apply NoDup_cons. split; [|done]. intros H. apply (Hnot (hd c k) c k l (page_va p)); [by split|done|done].
      * split; [done|]. assert (p ∈ dom own) as Hd by by apply elem_of_dom_2 in Hp.
        pose proof (heap_page_va p (sp_range _ _ _ Sh p Hd)). split; [lia|].
        rewrite fn_lookup_insert. eapply linked_ext; [|exact Hl]. exact Hw.
      * intros a. rewrite elem_of_cons, Hm. split.
        -- intros [->|(q & F0 & -> & Hq)]; [exists p, F; by rewrite lookup_insert_eq|].
           exists q, F0. split; [done|]. rewrite lookup_insert_ne; [done|]. intros <-. congruence.
        -- intros (q & F0 & -> & Hq). destruct (decide (p = q)) as [<-|]; [by left|].
           right. exists q, F0. by rewrite lookup_insert_ne in Hq.
    + exists l. eapply on_list_other; [exact Hl|exact Hp|done| |done]. intros [= <-] ->. by destruct Hne.
Qed.

Lemma linked_remove w h l1 q p l2 :
  NoDup (l1 ++ q :: p :: l2) → linked w h (l1 ++ q :: p :: l2) → linked (<[q := w p]> w) h (l1 ++ q :: l2).
Proof.
  revert h. induction l1 as [|a l1 IH]; intros h Hn; cbn [app linked].
  - intros (-> & Hq & Ep & Hp & Hl). split; [done|]. split; [done|]. rewrite fn_lookup_insert.
    eapply linked_ext; [|exact Hl]. intros b Hb. apply fn_lookup_insert_ne. intros ->.
    apply NoDup_cons in Hn as [Hn _]. apply Hn. by constructor.
  - intros (-> & Ha & Hl). apply NoDup_cons in Hn as [Hna Hn]. split; [done|]. split; [done|].
    rewrite fn_lookup_insert_ne; [by apply IH|]. intros ->. apply Hna. apply elem_of_app. right. by constructor.
Qed.

(** The slab leaves its list: the link before it, a head or a slab's, now
    skips it. *)
Definition skip (w : Z → Z) (l1 : list Z) (v : Z) : Z → Z :=
  match last l1 with None => w | Some q => <[q + slab_next := v]> w end.
Definition skip_hd (hd : Z → slab_list → Z) c k (l1 : list Z) (v : Z) : Z → slab_list → Z :=
  match l1 with [] => set_hd hd c k v | _ => hd end.

Lemma on_list_unlink w own h c k l1 l2 p F :
  on_list w own h c k (l1 ++ page_va p :: l2) → own !! p = Some (OSlab c (Some k) F) →
  on_list (skip w l1 (w (page_va p + slab_next))) (<[p := OSlab c None F]> own)
    (match l1 with [] => w (page_va p + slab_next) | _ => h end) c k (l1 ++ l2).
Proof.
  intros (Hn & Hl & Hm) Hp. split; [|split].
  - apply NoDup_app in Hn as (H1 & H2 & [H3 H4]%NoDup_cons). apply NoDup_app. split; [done|]. split; [|done].
    intros a Ha Ha2. apply (H2 a Ha). by constructor.
  - unfold skip. destruct l1 as [|q l1 _] using rev_ind.
    + cbn in *. by destruct Hl as (_ & _ & Hl).
    + rewrite last_snoc. destruct (l1 ++ [q]) eqn:E; [by destruct l1|]. rewrite <-E in *. clear E.
      rewrite <-app_assoc in *. cbn [app] in *. eapply linked_ext; [|by apply linked_remove].
      intros a _. cbn. destruct (decide (a = q)) as [->|]; [by rewrite !fn_lookup_insert|].
      rewrite !fn_lookup_insert_ne by lia. done.
  - intros a. assert (a ∈ l1 ++ l2 ↔ a ∈ l1 ++ page_va p :: l2 ∧ a ≠ page_va p) as ->.
    { apply NoDup_app in Hn as (H1 & H2 & [H3 H4]%NoDup_cons). rewrite !elem_of_app, elem_of_cons. split.
      - intros [Ha|Ha]; (split; [tauto|]); intros ->; [|done]. apply (H2 _ Ha). by constructor.
      - tauto. }
    rewrite Hm. split.
    + intros [(q & F0 & -> & Hq) Hne]. exists q, F0. split; [done|]. rewrite lookup_insert_ne; [done|]. by intros <-.
    + intros (q & F0 & -> & Hq). destruct (decide (p = q)) as [<-|Hne]; [by rewrite lookup_insert_eq in Hq|].
      rewrite lookup_insert_ne in Hq by done. split; [by exists q, F0|]. by intros <-%page_va_inj.
Qed.

Lemma shape_unlink w hd own p c k F l1 l2 :
  shape w hd own → own !! p = Some (OSlab c (Some k) F) → on_list w own (hd c k) c k (l1 ++ page_va p :: l2) →
  shape (skip w l1 (w (page_va p + slab_next))) (skip_hd hd c k l1 (w (page_va p + slab_next))) (<[p := OSlab c None F]> own).
Proof.
  intros Sh Hp Hl. set (v := w (page_va p + slab_next)).
  assert (∀ q, last l1 = Some q → ∃ r Fr, q = page_va r ∧ own !! r = Some (OSlab c (Some k) Fr)) as Hlast.
  { intros q Hq. apply last_Some in Hq as [l1' ->]. apply Hl. rewrite !elem_of_app. left. right. by constructor. }
  assert (∀ p c F, slab_ok w p c F → slab_ok (skip w l1 v) p c F) as Hs.
  { intros p' c' F'. unfold skip. destruct (last l1) as [q|] eqn:E; [|done].
    destruct (Hlast q eq_refl) as (r & _ & -> & _). apply slab_ok_next. }
  eapply shape_update; [exact Sh|exact Hp|eapply Hs, sp_slab; eauto| |].
  - intros x _ Hx. unfold skip. destruct (last l1) as [q|] eqn:E; [|by left].
    destruct (Hlast q eq_refl) as (r & Fr & -> & Hr). destruct (decide (x = page_va r)) as [->|Hne].
    + right. by eexists _, _, _, _.
    + left. apply fn_lookup_insert_ne. unfold slab_next. lia.
  - intros c0 k0 Hc0. destruct (decide (c0 = c ∧ k0 = k)) as [[-> ->]|Hne].
    + exists (l1 ++ l2). replace (skip_hd hd c k l1 v c k) with (match l1 with [] => v | _ => hd c k end).
      * by apply on_list_unlink.
      * unfold skip_hd, set_hd. destruct l1; [|done]. by rewrite decide_True.
    + destruct (sp_list _ _ _ Sh c0 k0 Hc0) as [l Hl0]. exists l.
      replace (skip_hd hd c k l1 v c0 k0) with (hd c0 k0) by (unfold skip_hd, set_hd; destruct l1; [by rewrite decide_False|done]).
      eapply on_list_other; [exact Hl0|exact Hp| |done|].
      * intros [= <-] ->. by destruct Hne.
      * intros a Ha. unfold skip. destruct (last l1) as [q|] eqn:E; [|done].
        destruct (Hlast q eq_refl) as (r & Fr & -> & Hr). apply fn_lookup_insert_ne.
        apply Hl0 in Ha as (r' & Fr' & -> & Hr'). unfold slab_next. intros E'.
        assert (r = r') as -> by (apply page_va_inj; lia). rewrite Hr in Hr'. injection Hr' as -> -> ->. by destruct Hne.
Qed.

(** *** Taking and returning objects *)

(** The words of a slab change, its link apart. *)
Lemma shape_slab w w' hd own p c k F F' :
  shape w hd own → own !! p = Some (OSlab c k F) → slab_ok w' p c F' →
  (∀ x, x / PAGE_SIZE ≠ p ∨ x = page_va p + slab_next → w' x = w x) →
  shape w' hd (<[p := OSlab c k F']> own).
Proof.
  intros Sh Hp Hs Hw. eapply shape_update; [exact Sh|exact Hp|exact Hs| |].
  - intros x _ Hx. left. apply Hw. by left.
  - intros c0 k0 Hc0. destruct (sp_list _ _ _ Sh c0 k0 Hc0) as [l Hl]. exists l.
    eapply on_list_same; [exact Hl|exact Hp|]. intros a Ha. apply Hw.
    apply Hl in Ha as (q & F0 & -> & Hq). destruct (decide (q = p)) as [->|Hne]; [by right|].
    left. by rewrite page_va_div by (unfold slab_next, PAGE_SIZE; lia).
Qed.

Definition slab_words (w : Z → Z) (p h n : Z) : Z → Z :=
  <[page_va p + slab_free_count := n]> (<[page_va p + slab_free_list := h]> w).

Lemma slab_words_other w p h n x :
  x ≠ page_va p + slab_free_count → x ≠ page_va p + slab_free_list → slab_words w p h n x = w x.
Proof. intros H1 H2. unfold slab_words. by rewrite !fn_lookup_insert_ne by congruence. Qed.

Lemma slab_words_at w p h n :
  slab_words w p h n (page_va p + slab_free_list) = h ∧ slab_words w p h n (page_va p + slab_free_count) = n.
Proof.
  unfold slab_words. rewrite fn_lookup_insert_ne, !fn_lookup_insert; [done|]. unfold slab_free_count, slab_free_list. lia.
Qed.

Lemma slab_words_page w p h n x : x / PAGE_SIZE ≠ p ∨ x = page_va p + slab_next → slab_words w p h n x = w x.
Proof.
  intros Hx. apply slab_words_other; intros ->; destruct Hx as [Hx|Hx].
  - apply Hx. by apply page_va_div.
  - unfold slab_free_count, slab_next in Hx. lia.
  - apply Hx. by apply page_va_div.
  - unfold slab_free_list, slab_next in Hx. lia.
Qed.

Lemma slab_words_object w p h n c a : class_ok c → object p c a → slab_words w p h n a = w a.
Proof.
  intros Hc Ha. destruct (object_in p c a Hc Ha) as (? & _). apply slab_words_other; unfold slab_free_count, slab_free_list; lia.
Qed.

Lemma shape_alloc w hd own p c k a F :
  shape w hd own → own !! p = Some (OSlab c k (a :: F)) →
  shape (slab_words w p (w a) (Z.of_nat (length F))) hd (<[p := OSlab c k F]> own).
Proof.
  intros Sh Hp. destruct (sp_slab _ _ _ Sh _ _ _ _ Hp) as [Hc [Hna Hn]%NoDup_cons Ho Hl H1 H2 H3].
  destruct Hl as (Ea & Ha & Hl). destruct (slab_words_at w p (w a) (Z.of_nat (length F))) as [E1 E2].
  eapply shape_slab; [exact Sh|exact Hp| |intros x Hx; by apply slab_words_page].
  split; try done.
  - intros b Hb. apply Ho. by constructor.
  - rewrite E1. eapply linked_ext; [|exact Hl]. intros b Hb. eapply slab_words_object; [done|]. apply Ho. by constructor.
  - rewrite slab_words_other; [done|unfold slab_total_count, slab_free_count; lia|unfold slab_total_count, slab_free_list; lia].
  - rewrite slab_words_other; [done|unfold slab_object_size, slab_free_count; lia|unfold slab_object_size, slab_free_list; lia].
Qed.

Lemma shape_free w hd own p c k a F :
  shape w hd own → own !! p = Some (OSlab c k F) → object p c a → a ∉ F →
  shape (slab_words (<[a := w (page_va p + slab_free_list)]> w) p a (Z.of_nat (length F) + 1)) hd (<[p := OSlab c k (a :: F)]> own).
Proof.
  intros Sh Hp Ha Hna. destruct (sp_slab _ _ _ Sh _ _ _ _ Hp) as [Hc Hn Ho Hl H1 H2 H3].
  set (w1 := <[a := w (page_va p + slab_free_list)]> w).
  destruct (slab_words_at w1 p a (Z.of_nat (length F) + 1)) as [E1 E2]. destruct (object_in p c a Hc Ha) as (Ha1 & _ & _ & Ha2).
  assert (0 < page_va p) as Hpos. { apply heap_page_va, (sp_range _ _ _ Sh). by apply elem_of_dom_2 in Hp. }
  assert (∀ off, off < 20 → w1 (page_va p + off) = w (page_va p + off)) as Hh.
  { intros off Hoff. apply fn_lookup_insert_ne. lia. }
  eapply shape_slab; [exact Sh|exact Hp| |].
  - split; [done|by apply NoDup_cons|..].
    + intros b [->|Hb]%elem_of_cons; [done|by apply Ho].
    + rewrite E1. split; [done|]. split; [lia|]. rewrite (slab_words_object _ _ _ _ c) by done.
      assert (w1 a = w (page_va p + slab_free_list)) as -> by apply fn_lookup_insert. eapply linked_ext; [|exact Hl]. intros b Hb.
      rewrite (slab_words_object _ _ _ _ c) by (done || by apply Ho). apply fn_lookup_insert_ne. by intros ->.
    + rewrite E2. cbn [length]. lia.
    + rewrite slab_words_other; [by rewrite Hh|unfold slab_total_count, slab_free_count; lia|unfold slab_total_count, slab_free_list; lia].
    + rewrite slab_words_other; [by rewrite Hh|unfold slab_object_size, slab_free_count; lia|unfold slab_object_size, slab_free_list; lia].
  - intros x Hx. rewrite slab_words_page by done. apply fn_lookup_insert_ne. intros <-. destruct Hx as [Hx|Hx]; [done|].
    unfold slab_next in Hx. lia.
Qed.

(** *** New and returned pages *)

(** Another page's owner does not matter to lists and slabs. *)
Lemma shape_insert w w' hd own p o :
  shape w hd own → own !! p = None → heap_page p →
  (∀ x, word_in (dom own) x → w' x = w x) →
  (∀ c k F, o = OSlab c k F → k = None ∧ slab_ok w' p c F) →
  (∀ a n, o ≠ OLarge a n) → shape w' hd (<[p := o]> own).
Proof.
  intros Sh Hp Hh Hw Hslab Hlarge. split.
  - intros q. rewrite dom_insert_L. intros [->%elem_of_singleton|Hq]%elem_of_union; [done|by apply Sh].
  - intros q c k F. destruct (decide (p = q)) as [<-|Hne].
    + rewrite lookup_insert_eq. intros [= ->]. by eapply Hslab.
    + rewrite lookup_insert_ne by done. intros Hq. eapply slab_ok_ext; [|by eapply sp_slab].
      intros off Ho H4. apply Hw. eapply header_in; [done|lia|done].
  - intros q a n. destruct (decide (p = q)) as [<-|Hne]; [rewrite lookup_insert_eq; intros [= ->]; by destruct (Hlarge a n)|].
    rewrite lookup_insert_ne by done. intros Hq. destruct (sp_large _ _ _ Sh q a n Hq) as [H1 H2 H3 H4].
    assert (own !! a = Some (OLarge a n)) as Ha by (apply H4; lia).
    split; [done|rewrite Hw; [done|by eapply header_in]|rewrite Hw; [done|by eapply header_in]|].
    intros r Hr. rewrite lookup_insert_ne; [by apply H4|]. intros <-. by rewrite H4 in Hp.
  - intros c k Hc. destruct (sp_list _ _ _ Sh c k Hc) as [l (Hn & Hl & Hm)]. exists l. split; [done|]. split.
    + eapply linked_ext; [|exact Hl]. intros a Ha. apply Hm in Ha as (q & F & -> & Hq). apply Hw. by eapply header_in.
    + intros a. rewrite Hm. split; intros (q & F & -> & Hq); exists q, F; (split; [done|]).
      * rewrite lookup_insert_ne; [done|]. intros <-. congruence.
      * destruct (decide (p = q)) as [<-|]; [|by rewrite lookup_insert_ne in Hq].
        rewrite lookup_insert_eq in Hq. injection Hq as ->. by destruct (Hslab _ _ _ eq_refl).
Qed.

(** All objects of a fresh slab, the last one first. *)
Fixpoint objects (p c : Z) (n : nat) : list Z :=
  match n with O => [] | S n => obj p c (Z.of_nat n) :: objects p c n end.

Lemma elem_of_objects p c n a : a ∈ objects p c n ↔ ∃ i, 0 <= i < Z.of_nat n ∧ a = obj p c i.
Proof.
  induction n as [|n IH]; cbn [objects].
  - split; [by intros ?%not_elem_of_nil|]. intros (i & ? & _). lia.
  - rewrite elem_of_cons, IH. split.
    + intros [->|(i & ? & ->)]; [exists (Z.of_nat n)|exists i]; (split; [lia|done]).
    + intros (i & Hi & ->). destruct (decide (i = Z.of_nat n)) as [->|]; [by left|right]. exists i. split; [lia|done].
Qed.

Lemma objects_nodup p c n : class_ok c → NoDup (objects p c n).
Proof.
  intros Hc. destruct (csize_ok c Hc) as (Hs & _). induction n as [|n IH]; cbn [objects]; [constructor|].
  apply NoDup_cons. split; [|done]. rewrite elem_of_objects. intros (i & Hi & E). unfold obj in E. nia.
Qed.

Lemma objects_length p c n : length (objects p c n) = n.
Proof. induction n as [|n IH]; cbn; congruence. Qed.

(** No more objects than fit. *)
Lemma NoDup_length_objects p c F :
  class_ok c → NoDup F → (∀ a, a ∈ F → object p c a) → Z.of_nat (length F) <= ctotal c <= 509.
Proof.
  intros Hc Hn Ho. destruct (csize_ok c Hc) as (_ & _ & Ht & _). split; [|lia].
  assert (length F <= length (objects p c (Z.to_nat (ctotal c))))%nat as Hle.
  { apply submseteq_length, NoDup_submseteq; [done|]. intros a Ha. apply elem_of_objects.
    destruct (Ho a Ha) as (i & Hi & ->). exists i. split; [lia|done]. }
  rewrite objects_length in Hle. lia.
Qed.

(** The pages [a] to [a + n] as one large allocation. *)
Fixpoint large_own (own : gmap Z owner) (a n : Z) (k : nat) : gmap Z owner :=
  match k with O => own | S k => <[a + Z.of_nat k := OLarge a n]> (large_own own a n k) end.

Lemma large_own_lookup own a n k q :
  large_own own a n k !! q = if decide (a <= q < a + Z.of_nat k) then Some (OLarge a n) else own !! q.
Proof.
  induction k as [|k IH]; cbn [large_own].
  - by rewrite decide_False by lia.
  - destruct (decide (q = a + Z.of_nat k)) as [->|Hne].
    + rewrite lookup_insert_eq. by rewrite decide_True by lia.
    + rewrite lookup_insert_ne by done. rewrite IH. repeat case_decide; (done || lia).
Qed.

(** The slabs stay as they are, the large allocations change. *)
Lemma shape_larges w w' hd own own' :
  shape w hd own →
  (∀ p c k F, own' !! p = Some (OSlab c k F) ↔ own !! p = Some (OSlab c k F)) →
  (∀ p, p ∈ dom own' → heap_page p) →
  (∀ p a n, own' !! p = Some (OLarge a n) → large_ok w' own' p a n) →
  (∀ p c k F off, own !! p = Some (OSlab c k F) → 0 <= off < PAGE_SIZE → off mod 4 = 0 → w' (page_va p + off) = w (page_va p + off)) →
  shape w' hd own'.
Proof.
  intros Sh Hs Hr Hl Hw. split; [done| |done|].
  - intros p c k F Hp. apply Hs in Hp. eapply slab_ok_ext; [|by eapply sp_slab]. intros off Ho H4. eapply Hw; [done|lia|done].
  - intros c k Hc. destruct (sp_list _ _ _ Sh c k Hc) as [l (Hn & Hl' & Hm)]. exists l. split; [done|]. split.
    + eapply linked_ext; [|exact Hl']. intros a Ha. apply Hm in Ha as (q & F & -> & Hq). by eapply Hw.
    + intros a. rewrite Hm. split; intros (q & F & -> & Hq); exists q, F; (split; [done|]); by apply Hs.
Qed.

Definition pages_free (own : gmap Z owner) (a n : Z) : Prop := ∀ q, a <= q < a + n → own !! q = None ∧ heap_page q.

Lemma shape_large_new w w' hd own a n :
  shape w hd own → 1 <= n → pages_free own a n →
  w' (page_va a + hdr_magic) = LARGE_ALLOC_MAGIC → w' (page_va a + hdr_pages) = n →
  (∀ x, word_in (dom own) x → w' x = w x) →
  shape w' hd (large_own own a n (Z.to_nat n)).
Proof.
  intros Sh Hn Hf Hm Hp Hw. set (own' := large_own own a n (Z.to_nat n)).
  assert (∀ q, own' !! q = if decide (a <= q < a + n) then Some (OLarge a n) else own !! q) as Hlk.
  { intros q. unfold own'. rewrite large_own_lookup. by rewrite Z2Nat.id by lia. }
  eapply shape_larges; [exact Sh|..].
  - intros p c k F. rewrite Hlk. case_decide as Hd; [|done]. destruct (Hf p Hd) as [-> _]. by split.
  - intros p Hd. apply elem_of_dom in Hd as [o Ho]. rewrite Hlk in Ho. case_decide as Hd; [by apply Hf|].
    apply Sh. by apply elem_of_dom_2 in Ho.
  - intros p b m Hb. rewrite Hlk in Hb. case_decide as Hd.
    + injection Hb as <- <-. split; [done|done|done|]. intros q Hq. rewrite Hlk. by rewrite decide_True.
    + destruct (sp_large _ _ _ Sh p b m Hb) as [H1 H2 H3 H4].
      assert (own !! b = Some (OLarge b m)) as Hbb by (apply H4; lia).
      split; [done|rewrite Hw; [done|by eapply header_in]|rewrite Hw; [done|by eapply header_in]|].
      intros q Hq. rewrite Hlk. case_decide as Hq'; [|by apply H4]. destruct (Hf q Hq') as [Hno _]. by rewrite H4 in Hno.
  - intros p c k F off Hps H1 H2. apply Hw. by eapply header_in.
Qed.

Fixpoint large_del (own : gmap Z owner) (a : Z) (k : nat) : gmap Z owner :=
  match k with O => own | S k => delete (a + Z.of_nat k) (large_del own a k) end.

Lemma large_del_lookup own a k q :
  large_del own a k !! q = if decide (a <= q < a + Z.of_nat k) then None else own !! q.
Proof.
  induction k as [|k IH]; cbn [large_del].
  - by rewrite decide_False by lia.
  - destruct (decide (q = a + Z.of_nat k)) as [->|Hne].
    + rewrite lookup_delete_eq. by rewrite decide_True by lia.
    + rewrite lookup_delete_ne by done. rewrite IH. repeat case_decide; (done || lia).
Qed.

Lemma shape_large_del w w' hd own a n :
  shape w hd own → own !! a = Some (OLarge a n) →
  (∀ x, word_in (dom (large_del own a (Z.to_nat n))) x → w' x = w x) →
  shape w' hd (large_del own a (Z.to_nat n)).
Proof.
  intros Sh Ha Hw. destruct (sp_large _ _ _ Sh a a n Ha) as [Hr _ _ Hall]. set (own' := large_del own a (Z.to_nat n)) in *.
  assert (∀ q, own' !! q = if decide (a <= q < a + n) then None else own !! q) as Hlk.
  { intros q. unfold own'. rewrite large_del_lookup. by rewrite Z2Nat.id by lia. }
  assert (∀ p c k F, own' !! p = Some (OSlab c k F) ↔ own !! p = Some (OSlab c k F)) as Hs.
  { intros p c k F. rewrite Hlk. case_decide as Hd; [|done]. rewrite Hall by done. by split. }
  eapply shape_larges; [exact Sh|done|..].
  - intros p Hd. apply elem_of_dom in Hd as [o Ho]. rewrite Hlk in Ho. case_decide as Hd; [done|].
    apply Sh. by apply elem_of_dom_2 in Ho.
  - intros p b m Hb. rewrite Hlk in Hb. case_decide as Hd; [done|].
    destruct (sp_large _ _ _ Sh p b m Hb) as [H1 H2 H3 H4].
    assert (∀ q, b <= q < b + m → own' !! q = Some (OLarge b m)) as Hall'.
    { intros q Hq. rewrite Hlk. case_decide as Hq'; [|by apply H4]. exfalso.
      pose proof (Hall q Hq') as E. rewrite H4 in E by done. injection E as -> ->. lia. }
    assert (own' !! b = Some (OLarge b m)) as Hbb by (apply Hall'; lia).
    split; [done|rewrite Hw; [done|by eapply header_in]|rewrite Hw; [done|by eapply header_in]|done].
  - intros p c k F off Hps H1 H2. apply Hw. eapply header_in; [|done|done]. by apply Hs.
Qed.

(** *** Live blocks *)

(** The owner of the page where a block's byte is. *)
Lemma block_byte w hd own a n x :
  shape w hd own → block own a n → a <= x < a + n →
  (∃ c k F, own !! (x / PAGE_SIZE) = Some (OSlab c k F) ∧ n = csize c ∧ object (x / PAGE_SIZE) c a ∧ a ∉ F) ∨
  (∃ p m, own !! (x / PAGE_SIZE) = Some (OLarge p m) ∧ own !! p = Some (OLarge p m) ∧ a = page_va p + sizeof_large_alloc_hdr_t ∧
     n = m * PAGE_SIZE - sizeof_large_alloc_hdr_t).
Proof.
  intros Sh [(p & c & k & F & Hp & Ho & Hn & ->)|(p & m & Hp & -> & ->)] Hx.
  - left. pose proof (so_class _ _ _ _ (sp_slab _ _ _ Sh _ _ _ _ Hp)) as Hc.
    destruct (object_in p c a Hc Ho) as (H1 & H2 & _ & _).
    assert (x / PAGE_SIZE = p) as ->.
    { symmetry. apply (Z.div_unique _ _ _ (x - page_va p)); unfold page_va, PAGE_SIZE in *; lia. }
    by exists c, k, F.
  - right. exists p, m. destruct (sp_large _ _ _ Sh p p m Hp) as [_ _ _ Hall]. split; [|done]. apply Hall.
    unfold page_va, sizeof_large_alloc_hdr_t, PAGE_SIZE in *. lia.
Qed.

Lemma block_word w hd own a n x :
  shape w hd own → block own a n → a <= x < a + n → x mod 4 = 0 → word_in (dom own) x.
Proof.
  intros Sh Hb Hx H4. split; [done|]. apply elem_of_dom.
  destruct (block_byte _ _ _ _ _ _ Sh Hb Hx) as [(c & k & F & Hp & _)|(p & m & Hp & _)]; by rewrite Hp.
Qed.

(** Live blocks do not overlap. *)
Lemma blocks_apart w hd own a n b m x :
  shape w hd own → block own a n → block own b m → a <= x < a + n → b <= x < b + m → a = b ∧ n = m.
Proof.
  intros Sh Ha Hb Hx Hy.
  destruct (block_byte _ _ _ _ _ _ Sh Ha Hx) as [(c & k & F & Hp & -> & Ho & _)|(p & k & Hp & _ & -> & ->)],
    (block_byte _ _ _ _ _ _ Sh Hb Hy) as [(c' & k' & F' & Hp' & -> & Ho' & _)|(p' & k' & Hp' & _ & -> & ->)];
    rewrite Hp in Hp'; try done; injection Hp' as <- <-; [|done].
  split; [|done]. pose proof (so_class _ _ _ _ (sp_slab _ _ _ Sh _ _ _ _ Hp)) as Hc.
  destruct (decide (a = b)) as [|Hne]; [done|]. destruct (objects_apart _ c a b Hc Ho Ho' Hne); lia.
Qed.

Lemma block_size w hd own a n : shape w hd own → block own a n → 8 <= n ∧ a mod 4 = 0 ∧ n mod 4 = 0 ∧ 0 < a.
Proof.
  intros Sh [(p & c & k & F & Hp & Ho & Hn & ->)|(p & m & Hp & -> & ->)].
  - pose proof (so_class _ _ _ _ (sp_slab _ _ _ Sh _ _ _ _ Hp)) as Hc. destruct (csize_ok c Hc) as (H1 & H2 & _).
    destruct (object_in p c a Hc Ho) as (H3 & _ & H4 & _).
    assert (0 < page_va p) by (apply heap_page_va, (sp_range _ _ _ Sh); by apply elem_of_dom_2 in Hp). lia.
  - destruct (sp_large _ _ _ Sh p p m Hp) as [Hr _ _ _].
    assert (0 < page_va p) by (apply heap_page_va, (sp_range _ _ _ Sh); by apply elem_of_dom_2 in Hp).
    unfold page_va, sizeof_large_alloc_hdr_t, PAGE_SIZE in *. lia.
Qed.

(** Headers and free objects are not in live blocks. *)
Lemma header_no_block w hd own p c k F off a n :
  shape w hd own → own !! p = Some (OSlab c k F) → 0 <= off < 20 → block own a n → ¬ a <= page_va p + off < a + n.
Proof.
  intros Sh Hp Ho Ha Hx. assert ((page_va p + off) / PAGE_SIZE = p) as E by (apply page_va_div; unfold PAGE_SIZE; lia).
  destruct (block_byte _ _ _ _ _ _ Sh Ha Hx) as [(c' & k' & F' & Hp' & -> & Hob & _)|(q & m & Hp' & _)]; rewrite E in *.
  - rewrite Hp in Hp'. injection Hp' as <- <- <-.
    pose proof (so_class _ _ _ _ (sp_slab _ _ _ Sh _ _ _ _ Hp)) as Hc. destruct (object_in p c a Hc Hob). lia.
  - congruence.
Qed.

Lemma large_header_no_block w hd own p m off a n :
  shape w hd own → own !! p = Some (OLarge p m) → 0 <= off < 16 → block own a n → ¬ a <= page_va p + off < a + n.
Proof.
  intros Sh Hp Ho Ha Hx. assert ((page_va p + off) / PAGE_SIZE = p) as E by (apply page_va_div; unfold PAGE_SIZE; lia).
  destruct (block_byte _ _ _ _ _ _ Sh Ha Hx) as [(c' & k' & F' & Hp' & _)|(q & k & Hp' & _ & -> & ->)]; rewrite E in *.
  - congruence.
  - rewrite Hp in Hp'. injection Hp' as <- <-. unfold sizeof_large_alloc_hdr_t in Hx. lia.
Qed.

Lemma free_no_block w hd own p c k F b a n x :
  shape w hd own → own !! p = Some (OSlab c k F) → b ∈ F → b <= x < b + csize c → block own a n → ¬ a <= x < a + n.
Proof.
  intros Sh Hp Hb Hbx Ha Hx. destruct (sp_slab _ _ _ Sh _ _ _ _ Hp) as [Hc _ Ho _ _ _ _].
  destruct (object_in p c b Hc (Ho b Hb)) as (H1 & H2 & _ & _).
  assert (x / PAGE_SIZE = p) as E.
  { symmetry. apply (Z.div_unique _ _ _ (x - page_va p)); unfold page_va, PAGE_SIZE in *; lia. }
  destruct (block_byte _ _ _ _ _ _ Sh Ha Hx) as [(c' & k' & F' & Hp' & -> & Hob & HnF)|(q & m & Hp' & _)]; rewrite E in *;
    rewrite Hp in Hp'; [|done]. injection Hp' as <- <- <-.
  destruct (decide (a = b)) as [->|Hne]; [done|]. destruct (objects_apart p c a b Hc Hob (Ho b Hb) Hne); lia.
Qed.

(** Whatever is written into live blocks, the structure stays. *)
Lemma shape_blocks w w' hd own :
  shape w hd own →
  (∀ x, word_in (dom own) x → (∀ a n, block own a n → ¬ a <= x < a + n) → w' x = w x) →
  shape w' hd own.
Proof.
  intros Sh Hw.
  assert (∀ p c k F off, own !! p = Some (OSlab c k F) → 0 <= off < 20 → off mod 4 = 0 → w' (page_va p + off) = w (page_va p + off)) as Hhdr.
  { intros p c k F off Hp Ho H4. apply Hw; [eapply header_in; [done|unfold PAGE_SIZE; lia|done]|].
    intros a n. by eapply header_no_block. }
  split.
  - apply Sh.
  - intros p c k F Hp. destruct (sp_slab _ _ _ Sh _ _ _ _ Hp) as [Hc Hn Ho Hl H1 H2 H3].
    split; try done; rewrite ?(Hhdr p c k F) by done; try done. eapply linked_ext; [|exact Hl].
    intros a Ha. apply Hw; [by eapply object_word, Ho|]. intros b n. destruct (csize_ok c Hc). eapply free_no_block; [done..|lia].
  - intros p a n Hp. destruct (sp_large _ _ _ Sh p a n Hp) as [H1 H2 H3 H4].
    assert (own !! a = Some (OLarge a n)) as Ha by (apply H4; lia).
    assert (∀ off, 0 <= off < 16 → off mod 4 = 0 → w' (page_va a + off) = w (page_va a + off)) as Hl.
    { intros off Ho Ho4. apply Hw; [eapply header_in; [done|unfold PAGE_SIZE; lia|done]|]. intros b m. by eapply large_header_no_block. }
    split; [done|by rewrite Hl|by rewrite Hl|done].
  - intros c k Hc. destruct (sp_list _ _ _ Sh c k Hc) as [l (Hn & Hl & Hm)]. exists l. split; [done|]. split; [|done].
    eapply linked_ext; [|exact Hl]. intros a Ha. apply Hm in Ha as (q & F & -> & Hq). by eapply Hhdr.
Qed.

Lemma shape_ext w w' hd hd' own :
  shape w hd own → (∀ x, word_in (dom own) x → w' x = w x) → (∀ c k, class_ok c → hd' c k = hd c k) → shape w' hd' own.
Proof.
  intros Sh Hw Hh. destruct (shape_blocks w w' hd own Sh) as [H1 H2 H3 H4].
  - intros x Hx _. by apply Hw.
  - split; [done..|]. intros c k Hc. rewrite Hh by done. by apply H4.
Qed.

(** Moving a slab leaves the blocks; an object that leaves the free list
    becomes one. *)
Lemma block_move own p c k k' F a n :
  own !! p = Some (OSlab c k F) → block (<[p := OSlab c k' F]> own) a n ↔ block own a n.
Proof.
  intros Hp. split; intros [(q & c0 & k0 & F0 & Hq & Hr)|(q & m & Hq & Hr)].
  - left. destruct (decide (p = q)) as [<-|Hne].
    + rewrite lookup_insert_eq in Hq. injection Hq as <- <- <-. by exists p, c, k, F.
    + rewrite lookup_insert_ne in Hq by done. by exists q, c0, k0, F0.
  - right. exists q, m. rewrite lookup_insert_ne in Hq; [done|]. intros <-. by rewrite lookup_insert_eq in Hq.
  - left. destruct (decide (p = q)) as [<-|Hne].
    + rewrite Hp in Hq. injection Hq as <- <- <-. exists p, c, k', F. by rewrite lookup_insert_eq.
    + exists q, c0, k0, F0. by rewrite lookup_insert_ne.
  - right. exists q, m. rewrite lookup_insert_ne; [done|]. intros <-. congruence.
Qed.

Lemma block_take own p c k F a b n :
  own !! p = Some (OSlab c k (a :: F)) → a ∉ F → object p c a →
  block (<[p := OSlab c k F]> own) b n ↔ block own b n ∨ b = a ∧ n = csize c.
Proof.
  intros Hp Ha Ho. split.
  - intros [(q & c0 & k0 & F0 & Hq & Hob & Hr & ->)|(q & m & Hq & Hr)].
    + destruct (decide (p = q)) as [<-|Hne].
      * rewrite lookup_insert_eq in Hq. injection Hq as <- <- <-. destruct (decide (b = a)) as [->|Hba]; [by right|].
        left. left. exists p, c, k, (a :: F). split; [done|]. split; [done|]. split; [|done]. by intros [?|?]%elem_of_cons.
      * rewrite lookup_insert_ne in Hq by done. left. left. by exists q, c0, k0, F0.
    + left. right. exists q, m. rewrite lookup_insert_ne in Hq; [done|]. intros <-. by rewrite lookup_insert_eq in Hq.
  - intros [[(q & c0 & k0 & F0 & Hq & Hob & Hr & ->)|(q & m & Hq & Hr)]|[-> ->]].
    + left. destruct (decide (p = q)) as [<-|Hne].
      * rewrite Hp in Hq. injection Hq as <- <- <-. exists p, c, k, F. rewrite lookup_insert_eq. split; [done|].
        split; [done|]. split; [|done]. intros ?. apply Hr. by constructor.
      * exists q, c0, k0, F0. by rewrite lookup_insert_ne.
    + right. exists q, m. rewrite lookup_insert_ne; [done|]. intros <-. congruence.
    + left. exists p, c, k, F. by rewrite lookup_insert_eq.
Qed.

(** Blocks of slabs and of large allocations depend on their owners only. *)
Lemma block_new_slab own p c k F a n :
  own !! p = None → (∀ b, object p c b → b ∈ F) → block (<[p := OSlab c k F]> own) a n ↔ block own a n.
Proof.
  intros Hp HF. split; intros [(q & c0 & k0 & F0 & Hq & Hob & Hr & ->)|(q & m & Hq & Hr)].
  - left. destruct (decide (p = q)) as [<-|Hne].
    + rewrite lookup_insert_eq in Hq. injection Hq as <- <- <-. by destruct Hr; apply HF.
    + rewrite lookup_insert_ne in Hq by done. by exists q, c0, k0, F0.
  - right. exists q, m. rewrite lookup_insert_ne in Hq; [done|]. intros <-. by rewrite lookup_insert_eq in Hq.
  - left. exists q, c0, k0, F0. rewrite lookup_insert_ne; [done|]. intros <-. congruence.
  - right. exists q, m. rewrite lookup_insert_ne; [done|]. intros <-. congruence.
Qed.

Lemma block_new_large own p m a n :
  1 <= m → pages_free own p m →
  block (large_own own p m (Z.to_nat m)) a n ↔
  block own a n ∨ a = page_va p + sizeof_large_alloc_hdr_t ∧ n = m * PAGE_SIZE - sizeof_large_alloc_hdr_t.
Proof.
  intros Hm Hf.
  assert (∀ q, large_own own p m (Z.to_nat m) !! q = if decide (p <= q < p + m) then Some (OLarge p m) else own !! q) as Hlk.
  { intros q. rewrite large_own_lookup. by rewrite Z2Nat.id by lia. }
  unfold block. setoid_rewrite Hlk. split.
  - intros [(q & c0 & k0 & F0 & Hq & Hr)|(q & k & Hq & -> & ->)]; case_decide as Hd.
    + done.
    + left. left. by exists q, c0, k0, F0.
    + injection Hq as <- <-. by right.
    + left. right. by exists q, k.
  - intros [[(q & c0 & k0 & F0 & Hq & Hr)|(q & k & Hq & Hr)]|[-> ->]].
    + left. exists q, c0, k0, F0. rewrite decide_False; [done|]. intros Hd. destruct (Hf q Hd). congruence.
    + right. exists q, k. rewrite decide_False; [done|]. intros Hd. destruct (Hf q Hd). congruence.
    + right. exists p, m. by rewrite decide_True by lia.
Qed.

Lemma block_del_large w hd own p m a n :
  shape w hd own → own !! p = Some (OLarge p m) →
  block (large_del own p (Z.to_nat m)) a n ↔ block own a n ∧ a ≠ page_va p + sizeof_large_alloc_hdr_t.
Proof.
  intros Sh Hp. destruct (sp_large _ _ _ Sh p p m Hp) as [Hr _ _ Hall].
  assert (∀ q c k F b, own !! q = Some (OSlab c k F) → object q c b → b ≠ page_va p + sizeof_large_alloc_hdr_t) as Hne.
  { intros q c k F b Hq Hb ->. pose proof (so_class _ _ _ _ (sp_slab _ _ _ Sh _ _ _ _ Hq)) as Hc.
    destruct (object_in q c _ Hc Hb) as (_ & _ & _ & E). rewrite page_va_div in E by done. congruence. }
  assert (∀ q, large_del own p (Z.to_nat m) !! q = if decide (p <= q < p + m) then None else own !! q) as Hlk.
  { intros q. rewrite large_del_lookup. by rewrite Z2Nat.id by lia. }
  unfold block. setoid_rewrite Hlk. split.
  - intros [(q & c0 & k0 & F0 & Hq & Hob & Hx & ->)|(q & k & Hq & -> & ->)]; case_decide as Hd; try done.
    + split; [left; by exists q, c0, k0, F0|by eapply Hne].
    + split; [right; by exists q, k|]. intros E. assert (q = p) as -> by (apply page_va_inj; lia). lia.
  - intros [[(q & c0 & k0 & F0 & Hq & Hob & Hx & ->)|(q & k & Hq & -> & ->)] Ha].
    + left. exists q, c0, k0, F0. rewrite decide_False; [done|]. intros Hd. rewrite Hall in Hq; done.
    + right. exists q, k. rewrite decide_False; [done|]. intros Hd. rewrite Hall in Hq by done. injection Hq as -> ->. done.
Qed.

Lemma block_put w hd own p c k k' F a b n :
  shape w hd own → own !! p = Some (OSlab c k F) → a ∉ F → object p c a →
  block (<[p := OSlab c k' (a :: F)]> own) b n ↔ block own b n ∧ b ≠ a.
Proof.
  intros Sh Hp Ha Ho.
  assert ((<[p := OSlab c k' (a :: F)]> own) !! p = Some (OSlab c k' (a :: F))) as Hp' by apply lookup_insert_eq.
  pose proof (block_take _ p c k' F a b n Hp' Ha Ho) as Ht. rewrite insert_insert_eq in Ht.
  rewrite (block_move own p c k) in Ht by done. split; [|intros [Hb Hne]; by apply Ht in Hb as [Hb|[-> _]]].
  intros Hb. split; [by apply Ht; left|]. intros ->.
  pose proof (so_class _ _ _ _ (sp_slab _ _ _ Sh _ _ _ _ Hp)) as Hc. destruct (object_in p c a Hc Ho) as (_ & _ & _ & E).
  destruct Hb as [(q & c0 & k0 & F0 & Hq & Hob & Hr & ->)|(q & m & Hq & Ea & _)].
  - destruct (decide (q = p)) as [->|Hne]; [rewrite Hp' in Hq; injection Hq as <- <- <-; apply Hr; by constructor|].
    rewrite lookup_insert_ne in Hq by done. pose proof (so_class _ _ _ _ (sp_slab _ _ _ Sh _ _ _ _ Hq)) as Hc0.
    destruct (object_in q c0 a Hc0 Hob) as (_ & _ & _ & E'). congruence.
  - rewrite Ea, page_va_div in E by done. subst q. by rewrite Hp' in Hq.
Qed.
