(* ===== verification/KheapInv.v ===== *)
(** * The kernel heap: the operations

    Every operation of [kernel/src/mm/kmalloc.c] keeps the structure of
    [KheapShape], and the contents of the blocks that are in use. *)

From S2P Require Import Prelude Range Bitmap FrameAlloc Paging KernelMem Kheap KheapVa KheapShape.

Section heap.
Context `{KM : KernelMemory K}.
Notation H := (kheap K).
Implicit Types s : H.

Definition word (s : H) (x : Z) : Z := km_word (kmem s) x.
Definition heads (s : H) (c : Z) (k : slab_list) : Z := list_head k (aat (caches s) c).

(** The heap with its pages owned as [own] says. *)
Record core (s : H) (own : gmap Z owner) : Prop := {
  hc_mem : km_ok (kmem s) (dom own);
  hc_shape : shape (word s) (heads s) own;
  hc_len : alen (heap_va_bitmap s) = HEAP_PAGES / 8;
  hc_bits : ∀ j, 0 <= j < HEAP_PAGES → bit (heap_va_bitmap s) j = bool_decide (is_Some (own !! (HEAP_BASE + j)));
  hc_hint : 0 <= heap_va_hint s < HEAP_PAGES;
  hc_ncaches : alen (caches s) = NUM_SIZE_CLASSES;
  hc_caches : ∀ c, class_ok c → object_size (aat (caches s) c) = csize c
}.

(** The list a slab belongs on. *)
Definition kind (c : Z) (F : list Z) : slab_list :=
  if (length F =? 0)%nat then Full else if Z.of_nat (length F) =? ctotal c then Empty else Partial.

Definition heap_ok (s : H) (own : gmap Z owner) : Prop :=
  core s own ∧ ∀ p c k F, own !! p = Some (OSlab c k F) → k = Some (kind c F).

(** The contents of the live blocks are as before. *)
Definition kept (own : gmap Z owner) (s s' : H) : Prop :=
  ∀ a n x, block own a n → a <= x < a + n → x mod 4 = 0 → word s' x = word s x.

Lemma heap_kept_refl own s : kept own s s.
Proof. by intros a n x. Qed.
Lemma heap_kept_trans own own' s1 s2 s3 :
  (∀ a n, block own a n → block own' a n) → kept own s1 s2 → kept own' s2 s3 → kept own s1 s3.
Proof. intros Hb H1 H2 a n x Ha Hx H4. rewrite (H2 a n) by (done || by apply Hb). by apply (H1 a n). Qed.

(** *** Words and list heads *)

(** A state on the way: the pages [P] are mapped and hold the words [w], the
    addresses of the pages [B] are taken, the list heads are [hd]. *)
Record mid (s : H) (P B : gset Z) (w : Z → Z) (hd : Z → slab_list → Z) : Prop := {
  md_mem : km_ok (kmem s) P;
  md_words : ∀ x, word_in P x → word s x = w x;
  md_heads : ∀ c k, class_ok c → heads s c k = hd c k;
  md_len : alen (heap_va_bitmap s) = HEAP_PAGES / 8;
  md_bits : ∀ j, 0 <= j < HEAP_PAGES → bit (heap_va_bitmap s) j = bool_decide (HEAP_BASE + j ∈ B);
  md_hint : 0 <= heap_va_hint s < HEAP_PAGES;
  md_ncaches : alen (caches s) = NUM_SIZE_CLASSES;
  md_caches : ∀ c, class_ok c → object_size (aat (caches s) c) = csize c
}.

Lemma core_mid s own : core s own → mid s (dom own) (dom own) (word s) (heads s).
Proof. intros []. split; try done. intros j Hj. rewrite hc_bits0 by done. apply bool_decide_ext. by rewrite elem_of_dom. Qed.

Lemma mid_core s own w hd : mid s (dom own) (dom own) w hd → shape w hd own → core s own.
Proof.
  intros [C1 C2 C3 C4 C5 C6 C7 C8] Sh. split; try done.
  - by eapply shape_ext.
  - intros j Hj. rewrite C5 by done. apply bool_decide_ext. by rewrite elem_of_dom.
Qed.

Lemma wp_load s P B w hd x (Q : Z → H → Prop) : mid s P B w hd → word_in P x → Q (w x) s → wp (load x) s Q.
Proof.
  intros C Hx HQ. rewrite <-(md_words _ _ _ _ _ C) in HQ by done. apply wp_zoom.
  eapply wp_mono; [by eapply km_load_ok; [apply C|]|]. intros w' m [-> ->]. by destruct s.
Qed.

Lemma wp_store s P B w hd x v (Q : unit → H → Prop) :
  mid s P B w hd → word_in P x → is_u32 v → (∀ s', mid s' P B (<[x := v]> w) hd → Q tt s') → wp (store x v) s Q.
Proof.
  intros [C1 C2 C3 C4 C5 C6 C7 C8] Hx Hv HQ. apply wp_zoom. eapply wp_mono; [by eapply km_store_ok|].
  intros [] m [Hm' Hw']. apply HQ. split; try done. intros b Hb.
  unfold word. cbn. rewrite Hw' by done. destruct (decide (b = x)) as [->|Hne]; [by rewrite fn_lookup_insert|].
  rewrite fn_lookup_insert_ne by done. by apply C2.
Qed.

Lemma wp_cache s P B w hd c (Q : kmem_cache_t → H → Prop) :
  mid s P B w hd → class_ok c →
  (∀ ca, object_size ca = csize c → (∀ k, list_head k ca = hd c k) → Q ca s) → wp (cache c) s Q.
Proof.
  intros C Hc HQ. unfold cache. wp_step. apply wp_ld; [rewrite (md_ncaches _ _ _ _ _ C); done|].
  replace (set_caches (caches s) s) with s by (by destruct s). apply HQ; [by apply C|]. intros k. by apply C.
Qed.

Lemma list_head_set k k' v c : list_head k' (set_list_head k v c) = if decide (k' = k) then v else list_head k' c.
Proof. by destruct k, k'. Qed.

Lemma wp_upd_cache s P B w hd c k v (Q : unit → H → Prop) :
  mid s P B w hd → class_ok c → (∀ s', mid s' P B w (set_hd hd c k v) → Q tt s') → wp (upd_cache c (set_list_head k v)) s Q.
Proof.
  intros [C1 C2 C3 C4 C5 C6 C7 C8] Hc HQ. unfold upd_cache. do 2 wp_step. apply wp_ld; [by rewrite C7|].
  apply wp_st; [by rewrite C7|]. apply HQ. split; try done.
  - intros c' k' Hc'. unfold heads, set_hd. cbn. rewrite aat_aput. destruct (decide (c = c')) as [<-|Hne].
    + rewrite list_head_set. repeat case_decide; [done|naive_solver|naive_solver|by apply C3].
    + rewrite decide_False by (by intros [-> _]). by apply C3.
  - intros c' Hc'. cbn. rewrite aat_aput. case_decide as E; [|by apply C8]. subst. rewrite <-C8 by done. by destruct k.
Qed.

(** *** Lists of slabs *)

Lemma head_value w hd own c k :
  shape w hd own → class_ok c → hd c k = 0 ∨ ∃ p F, hd c k = page_va p ∧ own !! p = Some (OSlab c (Some k) F).
Proof.
  intros Sh Hc. destruct (sp_list _ _ _ Sh c k Hc) as [[|a l] (_ & Hl & Hm)]; [by left|].
  destruct Hl as (-> & _). right. apply Hm. by constructor.
Qed.

Lemma page_va_u32 w hd own p o : shape w hd own → own !! p = Some o → is_u32 (page_va p) ∧ page_va p ≠ 0.
Proof.
  intros Sh Hp. assert (heap_page p) as Hh by (apply Sh; by apply elem_of_dom_2 in Hp).
  pose proof (heap_page_va p Hh). unfold is_u32. lia.
Qed.

Lemma head_u32 w hd own c k : shape w hd own → class_ok c → is_u32 (hd c k).
Proof.
  intros Sh Hc. destruct (head_value _ _ _ c k Sh Hc) as [->|(p & F & -> & Hp)]; [by unfold is_u32|].
  by apply (page_va_u32 _ _ _ _ _ Sh Hp).
Qed.

Lemma wp_push_slab s own p c k F :
  core s own → own !! p = Some (OSlab c None F) →
  wp (push_slab c k (page_va p)) s (λ _ s', core s' (<[p := OSlab c (Some k) F]> own) ∧ kept own s s' ∧
    heads s' c k = page_va p).
Proof.
  intros C Hp. pose proof (hc_shape _ _ C) as Sh. pose proof (sp_slab _ _ _ Sh _ _ _ _ Hp) as [Hc _ _ _ _ _ _].
  unfold push_slab. wp_step. eapply wp_cache; [by apply core_mid|done|]. intros ca Eo Eh. wp_step.
  eapply wp_store; [by apply core_mid|by eapply header_in|rewrite Eh; by eapply head_u32|]. intros s1 C1.
  eapply wp_upd_cache; [exact C1|done|]. intros s2 C2. rewrite Eh in C2. split; [|split].
  3: { rewrite (md_heads _ _ _ _ _ C2) by done. unfold set_hd. by rewrite decide_True. }
  - eapply mid_core; [rewrite dom_insert_lookup_L by done; exact C2|]. by apply shape_push.
  - intros a n x Ha Hx H4. rewrite (md_words _ _ _ _ _ C2) by (by eapply block_word). apply fn_lookup_insert_ne.
    intros <-. by apply (header_no_block _ _ _ p c None F slab_next a n Sh Hp) in Ha.
Qed.

(** The head of a list leaves it. *)
Lemma wp_pop_slab s own p c k F (Q : unit → H → Prop) :
  core s own → own !! p = Some (OSlab c (Some k) F) → heads s c k = page_va p →
  (∀ s', core s' (<[p := OSlab c None F]> own) → kept own s s' → Q tt s') →
  wp (next ← load (page_va p + slab_next); upd_cache c (set_list_head k next)) s Q.
Proof.
  intros C Hp Hh HQ. pose proof (hc_shape _ _ C) as Sh. pose proof (sp_slab _ _ _ Sh _ _ _ _ Hp) as [Hc _ _ _ _ _ _].
  destruct (sp_list _ _ _ Sh c k Hc) as [l Hl].
  assert (∃ l2, l = page_va p :: l2) as [l2 ->].
  { destruct (page_va_u32 _ _ _ _ _ Sh Hp) as [_ Hnz]. destruct Hl as (_ & Hl & _). rewrite Hh in Hl.
    destruct l as [|a l]; [by cbn in Hl|]. destruct Hl as (<- & _). by exists l. }
  wp_step. eapply wp_load; [by apply core_mid|by eapply header_in|].
  eapply wp_upd_cache; [by apply core_mid|done|]. intros s1 C1. apply HQ.
  - eapply mid_core; [rewrite dom_insert_lookup_L by done; exact C1|].
    by apply (shape_unlink _ _ _ p c k F [] l2 Sh Hp).
  - intros a n x Ha Hx H4. by rewrite (md_words _ _ _ _ _ C1) by (by eapply block_word).
Qed.

(** Lists are not longer than the heap has pages. *)
Lemma list_bound w hd own h c k l : shape w hd own → on_list w own h c k l → (length l <= Z.to_nat HEAP_PAGES)%nat.
Proof.
  intros Sh (Hn & _ & Hm). replace (Z.to_nat HEAP_PAGES) with (length (page_va <$> seqZ HEAP_BASE HEAP_PAGES)).
  - apply submseteq_length, NoDup_submseteq; [done|]. intros a Ha. apply Hm in Ha as (p & F & -> & Hp).
    apply list_elem_of_fmap. exists p. split; [done|]. apply elem_of_seqZ.
    apply (sp_range _ _ _ Sh). by apply elem_of_dom_2 in Hp.
  - by rewrite length_fmap, length_seqZ.
Qed.

Definition link_of (l1 : list Z) : slab_link := match last l1 with None => Head | Some q => Next q end.

Lemma link_of_snoc l1 q : link_of (l1 ++ [q]) = Next q.
Proof. unfold link_of. by rewrite last_snoc. Qed.

(** What the link at a place of the list holds: the rest of the list. *)
Lemma linked_at w h l1 q l2 : linked w h (l1 ++ q :: l2) → linked w (w q) l2.
Proof. revert h. induction l1 as [|a l1 IH]; intros h; cbn; [by intros (_ & _ & H)|]. intros (_ & _ & H). by eapply IH. Qed.

Lemma wp_read_link s own c k l1 l2 (Q : Z → H → Prop) :
  core s own → class_ok c → on_list (word s) own (heads s c k) c k (l1 ++ l2) →
  (∀ v, linked (λ a, word s (a + slab_next)) v l2 → Q v s) → wp (read_link c k (link_of l1)) s Q.
Proof.
  intros C Hc Hl HQ. destruct l1 as [|q l1 _] using rev_ind.
  - cbn. wp_step. eapply wp_cache; [by apply core_mid|done|]. intros ca _ Eh. wp_step. apply HQ. rewrite Eh. apply Hl.
  - rewrite link_of_snoc. cbn [read_link]. pose proof Hl as (_ & Hli & Hm).
    assert (q ∈ (l1 ++ [q]) ++ l2) as Hq by (rewrite !elem_of_app; left; right; by constructor).
    apply Hm in Hq as (r & Fr & -> & Hr). eapply wp_load; [by apply core_mid|by eapply header_in|]. apply HQ.
    rewrite <-app_assoc in Hli. by apply linked_at in Hli.
Qed.

Lemma wp_find_link s own p c k F :
  core s own → own !! p = Some (OSlab c (Some k) F) →
  wp (find_link c k (page_va p)) s (λ pr s', s' = s ∧ ∃ l1 l2, pr = link_of l1 ∧
    on_list (word s) own (heads s c k) c k (l1 ++ page_va p :: l2)).
Proof.
  intros C Hp. pose proof (hc_shape _ _ C) as Sh. pose proof (sp_slab _ _ _ Sh _ _ _ _ Hp) as [Hc _ _ _ _ _ _].
  destruct (sp_list _ _ _ Sh c k Hc) as [l Hl]. pose proof (list_bound _ _ _ _ _ _ _ Sh Hl) as Hlen.
  apply (wp_while_n (λ n pr s', s' = s ∧ ∃ l1 l2, pr = link_of l1 ∧ l = l1 ++ l2 ∧ page_va p ∈ l2 ∧ n = length l2) _ _ _ (length l)).
  - split; [done|]. exists [], l. split; [done|]. split; [done|]. split; [|done]. apply Hl. by exists p, F.
  - unfold heap_fuel. change HEAP_PAGES with 65536 in *. lia.
  - intros n pr s' (-> & l1 & l2 & -> & -> & Hin & ->). wp_step. eapply wp_read_link; [done|done|exact Hl|].
    intros v Hv. destruct l2 as [|q l2]; [by apply not_elem_of_nil in Hin|]. destruct Hv as (-> & Hq & _).
    rewrite (proj2 (Z.eqb_neq q 0)) by done. cbn [negb andb]. destruct (q =? page_va p) eqn:E; cbn [negb].
    + apply Z.eqb_eq in E as ->. wp_step. split; [done|]. by exists l1, l2.
    + wp_step. exists (length l2). split; [cbn; lia|]. split; [done|]. exists (l1 ++ [q]), l2. split; [by rewrite link_of_snoc|].
      split; [by rewrite <-app_assoc|]. split; [|done]. apply Z.eqb_neq in E. apply elem_of_cons in Hin as [Eq|]; [congruence|done].
Qed.

Lemma wp_write_link s own p c k F l1 l2 :
  core s own → own !! p = Some (OSlab c (Some k) F) → on_list (word s) own (heads s c k) c k (l1 ++ page_va p :: l2) →
  wp (write_link c k (link_of l1) (word s (page_va p + slab_next))) s (λ _ s', core s' (<[p := OSlab c None F]> own) ∧ kept own s s').
Proof.
  intros C Hp Hl. pose proof (hc_shape _ _ C) as Sh. pose proof (sp_slab _ _ _ Sh _ _ _ _ Hp) as [Hc _ _ _ _ _ _].
  pose proof (shape_unlink _ _ _ p c k F l1 l2 Sh Hp Hl) as Sh'.
  destruct l1 as [|q l1 _] using rev_ind.
  - cbn [link_of last write_link]. eapply wp_upd_cache; [by apply core_mid|done|]. intros s1 C1. split.
    + eapply mid_core; [rewrite dom_insert_lookup_L by done; exact C1|done].
    + intros a n x Ha Hx H4. by rewrite (md_words _ _ _ _ _ C1) by (by eapply block_word).
  - rewrite link_of_snoc. cbn [write_link]. unfold skip, skip_hd in Sh'. rewrite last_snoc in Sh'.
    destruct (l1 ++ [q]) eqn:El in Sh'; [by destruct l1|]. clear El.
    assert (q ∈ (l1 ++ [q]) ++ page_va p :: l2) as Hq by (rewrite !elem_of_app; left; right; by constructor).
    apply Hl in Hq as (r & Fr & -> & Hr).
    eapply wp_store; [by apply core_mid|by eapply header_in| |].
    + eapply km_word_u32; [apply C|by eapply header_in].
    + intros s1 C1. split; [by eapply mid_core; [rewrite dom_insert_lookup_L by done; exact C1|]|].
      intros a n x Ha Hx H4. rewrite (md_words _ _ _ _ _ C1) by (by eapply block_word). apply fn_lookup_insert_ne.
      intros <-. by apply (header_no_block _ _ _ r c (Some k) Fr slab_next a n Sh Hr) in Ha.
Qed.

(** *** Objects *)

Lemma object_u32 w hd own p o c a : shape w hd own → own !! p = Some o → class_ok c → object p c a → is_u32 a ∧ a ≠ 0.
Proof.
  intros Sh Hp Hc Ha. destruct (object_in p c a Hc Ha) as (H1 & H2 & _). destruct (csize_ok c Hc) as (H3 & _).
  assert (heap_page p) as Hh by (apply Sh; by apply elem_of_dom_2 in Hp).
  unfold heap_page, page_va, PAGE_SIZE in *. change HEAP_BASE with 917504 in *. change HEAP_PAGES with 65536 in *. unfold is_u32. lia.
Qed.

Lemma wp_slab_alloc s own p c k a F :
  core s own → own !! p = Some (OSlab c k (a :: F)) →
  wp (slab_alloc (page_va p)) s (λ r s', r = a ∧ core s' (<[p := OSlab c k F]> own) ∧ kept own s s' ∧
    ∀ k', heads s' c k' = heads s c k').
Proof.
  intros C Hp. pose proof (hc_shape _ _ C) as Sh. pose proof (core_mid _ _ C) as C0.
  destruct (sp_slab _ _ _ Sh _ _ _ _ Hp) as [Hc Hn Ho (Ea & Hz & Hl) H1 H2 H3].
  assert (word_in (dom own) a) as Ha by (eapply object_word; [done|done|]; apply Ho; by constructor).
  assert (word_in (dom own) (page_va p + slab_free_list)) as Hfl by (by eapply header_in).
  assert (word_in (dom own) (page_va p + slab_free_count)) as Hfc by (by eapply header_in).
  unfold slab_alloc. wp_step. eapply wp_load; [exact C0|done|]. rewrite Ea. rewrite (proj2 (Z.eqb_neq a 0)) by done.
  wp_step. eapply wp_load; [exact C0|done|]. rewrite Ea. wp_step. eapply wp_load; [exact C0|done|]. wp_step.
  eapply wp_store; [exact C0|done|by eapply km_word_u32; [apply C|]|]. intros s1 C1. wp_step.
  eapply wp_load; [exact C1|done|]. rewrite fn_lookup_insert_ne by (unfold slab_free_list, slab_free_count; lia).
  rewrite H1. replace (u32 (Z.of_nat (length (a :: F)) - 1)) with (Z.of_nat (length F)).
  2: { cbn [length]. pose proof (NoDup_length_objects p c (a :: F) Hc Hn Ho). cbn [length] in *. ulia. }
  wp_step. eapply wp_store; [exact C1|done| |].
  { pose proof (NoDup_length_objects p c (a :: F) Hc Hn Ho). cbn [length] in *. unfold is_u32. lia. }
  intros s2 C2. wp_step. split; [done|]. split; [|split].
  3: { intros k'. by rewrite (md_heads _ _ _ _ _ C2). }
  - eapply mid_core; [rewrite dom_insert_lookup_L by done; exact C2|]. by apply shape_alloc.
  - intros b n x Hb Hx H4. rewrite (md_words _ _ _ _ _ C2) by (by eapply block_word).
    rewrite !fn_lookup_insert_ne; [done|..]; intros <-.
    + by apply (header_no_block _ _ _ p c k (a :: F) slab_free_list b n Sh Hp) in Hb.
    + by apply (header_no_block _ _ _ p c k (a :: F) slab_free_count b n Sh Hp) in Hb.
Qed.

Lemma wp_slab_free s own p c k a F :
  core s own → own !! p = Some (OSlab c k F) → object p c a → a ∉ F →
  wp (slab_free (page_va p) a) s (λ _ s', core s' (<[p := OSlab c k (a :: F)]> own) ∧ kept (<[p := OSlab c k (a :: F)]> own) s s').
Proof.
  intros C Hp Hob Hna. pose proof (hc_shape _ _ C) as Sh. pose proof (core_mid _ _ C) as C0.
  destruct (sp_slab _ _ _ Sh _ _ _ _ Hp) as [Hc Hn Ho Hl H1 H2 H3].
  assert (word_in (dom own) a) as Ha by (by eapply object_word).
  assert (word_in (dom own) (page_va p + slab_free_list)) as Hfl by (by eapply header_in).
  assert (word_in (dom own) (page_va p + slab_free_count)) as Hfc by (by eapply header_in).
  destruct (object_u32 _ _ _ _ _ _ _ Sh Hp Hc Hob) as [Hau _]. destruct (object_in p c a Hc Hob) as (Hap & _).
  pose proof (NoDup_length_objects p c F Hc Hn Ho) as Hlen.
  unfold slab_free. wp_step. eapply wp_load; [exact C0|done|]. wp_step.
  eapply wp_store; [exact C0|done|by eapply km_word_u32; [apply C|]|]. intros s1 C1. wp_step.
  eapply wp_store; [exact C1|done|done|]. intros s2 C2. wp_step. eapply wp_load; [exact C2|done|].
  rewrite fn_lookup_insert_ne by (unfold slab_free_list, slab_free_count; lia).
  rewrite fn_lookup_insert_ne by (unfold slab_free_count; lia). rewrite H1. rewrite u32_small by (unfold is_u32; lia).
  eapply wp_store; [exact C2|done|unfold is_u32; lia|]. intros s3 C3.
  pose proof (shape_free _ _ _ p c k a F Sh Hp Hob Hna) as Sh'.
  assert ((<[p := OSlab c k (a :: F)]> own) !! p = Some (OSlab c k (a :: F))) as Hp' by apply lookup_insert_eq.
  split; [by eapply mid_core; [rewrite dom_insert_lookup_L by done; exact C3|]|].
  intros b n x Hb Hx H4. rewrite (md_words _ _ _ _ _ C3).
  2: { rewrite <-(dom_insert_lookup_L own p (OSlab c k (a :: F))) by done. by eapply block_word. }
  rewrite !fn_lookup_insert_ne; [done|..]; intros <-.
  - eapply (free_no_block _ _ _ p c k (a :: F) a); [exact Sh'|exact Hp'|by constructor| |exact Hb|exact Hx]. destruct (csize_ok c Hc); lia.
  - by eapply header_no_block in Hx; [|exact Sh'|exact Hp'| |exact Hb].
  - by eapply header_no_block in Hx; [|exact Sh'|exact Hp'| |exact Hb].
Qed.

(** *** Pages *)

Definition page_set (a n : Z) : gset Z := list_to_set (seqZ a n).

Lemma elem_of_page_set a n q : q ∈ page_set a n ↔ a <= q < a + n.
Proof. unfold page_set. by rewrite elem_of_list_to_set, elem_of_seqZ. Qed.

Lemma va_of_page a : va_of a = page_va (HEAP_BASE + a).
Proof. unfold va_of, page_va, PAGE_SIZE. change HEAP_BASE with 917504. change KERNEL_HEAP_START with 3758096384. lia. Qed.

Lemma heap_page_index a : 0 <= a < HEAP_PAGES → heap_page (HEAP_BASE + a).
Proof. unfold heap_page. lia. Qed.

Lemma page_va_add p i : page_va p + i * PAGE_SIZE = page_va (p + i).
Proof. unfold page_va, PAGE_SIZE. lia. Qed.

(** A frame taken and mapped, in the shape in which the code does it. *)
Lemma wp_map_frame {A} s P B w hd p (none : M H A) (failed : Z → M H A) (done : Z → M H A) (Q : A → H → Prop) :
  mid s P B w hd → heap_page p → p ∉ P →
  (∀ s', mid s' P B w hd → wp none s' Q) →
  (∀ f s', mid s' P B w hd → wp (failed f) s' Q) →
  (∀ f s' w', mid s' ({[p]} ∪ P) B w' hd → (∀ x, word_in P x → w' x = w x) → wp (done f) s' Q) →
  wp (phys ← on_mem km_frame_alloc;
      if phys =? 0 then none
      else
        ok ← on_mem (km_map (page_va p) phys PAGE_READWRITE);
        if negb ok then on_mem (km_frame_free phys) ;; failed phys else done phys) s Q.
Proof.
  intros C Hp HP Hn Hf Hd.
  assert (∀ m, km_ok m P → (∀ b, word_in P b → km_word m b = km_word (kmem s) b) → mid (set_mem m s) P B w hd) as Hm0.
  { intros m Km Wm. destruct C as [C1 C2 C3 C4 C5 C6 C7 C8]. split; try done. intros x Hx. unfold word. cbn.
    rewrite Wm by done. by apply C2. }
  wp_step. unfold on_mem. wp_step. eapply wp_mono; [by apply km_map_ok; [apply C|..]|].
  intros f m Hm. cbn beta in Hm. destruct (f =? 0) eqn:E.
  - destruct Hm as [Km Wm]. by apply Hn, Hm0.
  - do 2 wp_step. cbn [kmem set_mem]. eapply wp_mono; [exact Hm|]. intros ok m2 Hm2. cbn beta in Hm2. destruct ok; cbn [negb].
    + destruct Hm2 as [Km Wm]. apply (Hd f _ (km_word m2)).
      * destruct C as [C1 C2 C3 C4 C5 C6 C7 C8]. by split.
      * intros x Hx. rewrite Wm by done. by apply C.
    + do 2 wp_step. cbn [kmem set_mem]. eapply wp_mono; [exact Hm2|]. intros [] m3 [Km Wm]. by apply Hf, Hm0.
Qed.

Lemma mid_va_alloc s P B w hd n (Q : Z → H → Prop) :
  mid s P B w hd → 0 <= n → Q 0 s →
  (∀ p s', (∀ q, p <= q < p + n → heap_page q ∧ q ∉ B) → 1 <= n <= HEAP_PAGES → page_va p ≠ 0 →
     mid s' P (page_set p n ∪ B) w hd → Q (page_va p) s') →
  wp (heap_va_alloc n) s Q.
Proof.
  intros [C1 C2 C3 C4 C5 C6 C7 C8] Hn H0 H1. eapply wp_mono; [by apply wp_heap_va_alloc|].
  intros va s' [(-> & -> & _)|(a & -> & Hz & Hn1 & Ha & He & Hf & (bm & h & -> & [L Hb] & Hh) & _)]; [done|].
  rewrite va_of_page in *. apply H1; [|lia|done|].
  - intros q Hq. split; [unfold heap_page; lia|]. intros HB. specialize (Hf (q - HEAP_BASE) ltac:(lia)).
    rewrite C5 in Hf by lia. rewrite bool_decide_eq_false in Hf. apply Hf. by replace (HEAP_BASE + (q - HEAP_BASE)) with q by lia.
  - split; try done; cbn; [congruence|]. intros j Hj. rewrite Hb by lia.
    destruct (decide (a <= j < a + n)) as [Hd|Hd].
    + symmetry. apply bool_decide_eq_true. apply elem_of_union_l, elem_of_page_set. lia.
    + rewrite C5 by done. apply bool_decide_ext. rewrite elem_of_union, elem_of_page_set. intuition lia.
Qed.

Lemma mid_va_free s P B w hd p n :
  mid s P (page_set p n ∪ B) w hd → 0 <= n → (∀ q, p <= q < p + n → heap_page q ∧ q ∉ B) → 0 < n →
  wp (heap_va_free (page_va p) n) s (λ _ s', mid s' P B w hd).
Proof.
  intros [C1 C2 C3 C4 C5 C6 C7 C8] Hn Hq Hpos. destruct (Hq p) as [Hp _]; [lia|]. destruct (Hq (p + n - 1)) as [Hp' _]; [lia|].
  unfold heap_page in *. replace (page_va p) with (va_of (p - HEAP_BASE)) by (rewrite va_of_page; f_equal; lia).
  eapply wp_mono; [apply wp_heap_va_free; [done|done|lia|done|lia]|]. intros [] s' (bm & h & -> & [L Hb] & Hh).
  split; try done; cbn; [congruence|]. intros j Hj. rewrite Hb by lia.
  destruct (decide (p - HEAP_BASE <= j < p - HEAP_BASE + n)) as [Hd|Hd].
  - symmetry. apply bool_decide_eq_false. apply Hq. lia.
  - rewrite C5 by done. apply bool_decide_ext. rewrite elem_of_union, elem_of_page_set. intuition lia.
Qed.

Lemma page_set_1 p : page_set p 1 = {[p]}.
Proof. apply set_eq. intros q. rewrite elem_of_page_set, elem_of_singleton. lia. Qed.

(** Back where it was. *)
Lemma mid_same s s' own : core s own → mid s' (dom own) (dom own) (word s) (heads s) → core s' own ∧ kept own s s'.
Proof.
  intros C M. split; [eapply mid_core; [done|apply C]|]. intros a n x Ha Hx H4.
  rewrite (md_words _ _ _ _ _ M); [done|]. eapply block_word; [apply C|done..].
Qed.

Lemma wp_heap_page_alloc s own (Q : Z → H → Prop) :
  core s own →
  (∀ s', core s' own → kept own s s' → Q 0 s') →
  (∀ p s' w, own !! p = None → heap_page p → page_va p ≠ 0 → mid s' ({[p]} ∪ dom own) ({[p]} ∪ dom own) w (heads s) →
     (∀ x, word_in (dom own) x → w x = word s x) → Q (page_va p) s') →
  wp heap_page_alloc s Q.
Proof.
  intros C Hf Hd. unfold heap_page_alloc. wp_step. eapply mid_va_alloc; [by apply core_mid|lia|..].
  { change (0 =? 0) with true. cbn iota. wp_step. by apply Hf; [|apply heap_kept_refl]. }
  intros p s1 Hfree _ Hz M1. rewrite (proj2 (Z.eqb_neq _ _)) by done. rewrite page_set_1 in M1.
  destruct (Hfree p) as [Hp Hno]; [lia|].
  assert (∀ s', mid s' (dom own) ({[p]} ∪ dom own) (word s) (heads s) → wp (heap_va_free (page_va p) 1 ;; ret 0) s' Q) as Hback.
  { intros s' M'. wp_step. rewrite <-page_set_1 in M'. eapply wp_mono; [eapply mid_va_free; [exact M'|lia|done|lia]|].
    intros [] s'' M''. wp_step. destruct (mid_same _ _ _ C M''). by apply Hf. }
  eapply (wp_map_frame s1 (dom own) _ _ _ p (heap_va_free (page_va p) 1 ;; ret 0) (λ _, heap_va_free (page_va p) 1 ;; ret 0)
    (λ _, ret (page_va p))); [exact M1|done|done|done|done|].
  intros _ s' w M' Hw. wp_step. eapply Hd; [by apply not_elem_of_dom|done|done|exact M'|done].
Qed.

(** Building the free list of a fresh slab. *)
Lemma wp_build_list s P B w hd p c :
  mid s P B w hd → class_ok c → heap_page p → p ∈ P → w (page_va p + slab_total_count) = ctotal c →
  wp (while_n heap_fuel (λ '(i, (obj, free_list)),
      total ← load (page_va p + slab_total_count);
      if i <? total then
        store obj free_list ;;
        ret (inl (i + 1, (obj + csize c, obj)))
      else ret (inr free_list)) (0, (page_va p + sizeof_slab_t, 0))) s
    (λ r s', is_u32 r ∧ ∃ w', mid s' P B w' hd ∧ linked w' r (objects p c (Z.to_nat (ctotal c))) ∧
      ∀ x, x < page_va p + 20 ∨ x / PAGE_SIZE ≠ p → w' x = w x).
Proof.
  intros M Hc Hh HP Ht. destruct (csize_ok c Hc) as (Hs1 & Hs2 & Hs3 & Hs4). pose proof (heap_page_va p Hh) as Hpos.
  apply (wp_while_n (λ k '(i, (ob, fl)) s', 0 <= i <= ctotal c ∧ k = Z.to_nat (ctotal c - i) ∧ ob = obj p c i ∧ is_u32 fl ∧
    ∃ w', mid s' P B w' hd ∧ linked w' fl (objects p c (Z.to_nat i)) ∧ ∀ x, x < page_va p + 20 ∨ x / PAGE_SIZE ≠ p → w' x = w x)
    _ _ _ (Z.to_nat (ctotal c))).
  - split; [lia|]. split; [f_equal; lia|]. split; [unfold obj, sizeof_slab_t; lia|]. split; [done|]. exists w. by split.
  - unfold heap_fuel. change HEAP_PAGES with 65536. lia.
  - intros k [i [ob fl]] s' (Hi & -> & -> & Hfl & w' & M' & Hl & Hw). wp_step.
    eapply wp_load; [exact M'| |].
    { split; [unfold page_va, slab_total_count, PAGE_SIZE; lia|]. by rewrite page_va_div. }
    rewrite Hw by (left; unfold slab_total_count; lia). rewrite Ht. wp_step; [|wp_step].
    2: { assert (i = ctotal c) as -> by blia. split; [done|]. by exists w'. }
    assert (object p c (obj p c i)) as Ho by (exists i; split; [blia|done]).
    destruct (object_in p c _ Hc Ho) as (Ho1 & Ho2 & Ho3 & Ho4).
    wp_step. eapply wp_store; [exact M'|split; [done|by rewrite Ho4]|done|]. intros s2 M2. wp_step.
    exists (Z.to_nat (ctotal c - (i + 1))). split; [blia|]. split; [blia|]. split; [done|]. split; [unfold obj; lia|].
    split. { unfold is_u32, heap_page, page_va, PAGE_SIZE in *. change HEAP_BASE with 917504 in *. change HEAP_PAGES with 65536 in *. lia. }
    exists (<[obj p c i := fl]> w'). split; [done|]. split.
    + replace (Z.to_nat (i + 1)) with (S (Z.to_nat i)) by lia. cbn [objects linked].
      pose proof (objects_nodup p c (S (Z.to_nat i)) Hc) as [Hnd _]%NoDup_cons. rewrite Z2Nat.id in * by lia.
      split; [done|]. split; [lia|]. rewrite fn_lookup_insert. eapply linked_ext; [|exact Hl].
      intros a Ha. apply fn_lookup_insert_ne. by intros <-.
    + intros x Hx. rewrite fn_lookup_insert_ne; [by apply Hw|]. intros <-. destruct Hx; [lia|done].
Qed.

Lemma fresh_slab w w' p c r :
  class_ok c → linked w r (objects p c (Z.to_nat (ctotal c))) →
  w' (page_va p + slab_free_list) = r → w' (page_va p + slab_free_count) = ctotal c →
  w' (page_va p + slab_total_count) = ctotal c → w' (page_va p + slab_object_size) = csize c →
  (∀ x, page_va p + 20 <= x → w' x = w x) → slab_ok w' p c (objects p c (Z.to_nat (ctotal c))).
Proof.
  intros Hc Hl H1 H2 H3 H4 Hw. destruct (csize_ok c Hc) as (_ & _ & Ht & _).
  assert (∀ a, a ∈ objects p c (Z.to_nat (ctotal c)) → object p c a) as Ho.
  { intros a (i & Hi & ->)%elem_of_objects. exists i. split; [lia|done]. }
  split; try done.
  - by apply objects_nodup.
  - rewrite H1. eapply linked_ext; [|exact Hl]. intros a Ha. apply Hw. by destruct (object_in p c a Hc (Ho a Ha)).
  - rewrite H2, objects_length. lia.
Qed.

Lemma wp_slab_create s own c :
  core s own → class_ok c →
  wp (slab_create c) s (λ r s', r = 0 ∧ core s' own ∧ kept own s s' ∨
    ∃ p, r = page_va p ∧ own !! p = None ∧ core s' (<[p := OSlab c None (objects p c (Z.to_nat (ctotal c)))]> own) ∧ kept own s s').
Proof.
  intros C Hc. unfold slab_create. wp_step. apply (wp_heap_page_alloc s own); [done|..].
  { intros s' C' K'. change (0 =? 0) with true. cbn iota. wp_step. by left. }
  intros p s1 w1 Hp Hh Hz M1 Hw1. rewrite (proj2 (Z.eqb_neq _ _)) by done.
  set (o := OSlab c None (objects p c (Z.to_nat (ctotal c)))). set (own' := <[p := o]> own).
  assert (dom own' = {[p]} ∪ dom own) as Hdom by apply dom_insert_L. rewrite <-Hdom in M1.
  assert (own' !! p = Some o) as Hp' by apply lookup_insert_eq.
  destruct (csize_ok c Hc) as (Hs1 & Hs2 & Hs3 & Hs4).
  assert (∀ off, 0 <= off < 20 → off mod 4 = 0 → word_in (dom own') (page_va p + off)) as Hin.
  { intros off Ho H4. eapply header_in; [done|unfold PAGE_SIZE; lia|done]. }
  wp_step. eapply wp_store; [exact M1|by apply Hin|done|]. intros s2 M2.
  wp_step. eapply wp_cache; [exact M2|done|]. intros ca Eo _. rewrite Eo. wp_step.
  eapply wp_store; [exact M2|by apply Hin|unfold is_u32; lia|]. intros s3 M3. wp_step.
  change ((PAGE_SIZE - sizeof_slab_t) / csize c) with (ctotal c).
  eapply wp_store; [exact M3|by apply Hin|unfold is_u32; lia|]. intros s4 M4. wp_step.
  eapply wp_load; [exact M4|by apply Hin|]. rewrite fn_lookup_insert. wp_step.
  eapply wp_store; [exact M4|by apply Hin|unfold is_u32; lia|]. intros s5 M5. wp_step.
  assert (p ∈ dom own') as HpD by (rewrite Hdom; by apply elem_of_union_l, elem_of_singleton).
  eapply wp_mono; [eapply (wp_build_list s5 _ _ _ _ p c M5 Hc Hh HpD)|].
  { rewrite fn_lookup_insert_ne by (unfold slab_total_count, slab_free_count; lia). by rewrite fn_lookup_insert. }
  intros r s6 (Hr & w6 & M6 & Hl & Hw6). wp_step. eapply wp_store; [exact M6|by apply Hin|done|].
  intros s7 M7. wp_step. right. exists p. split; [done|]. split; [done|].
  assert (∀ x, word_in (dom own) x → (<[page_va p + slab_free_list := r]> w6) x = word s x) as Hold.
  { intros x [H4 Hx]. assert (x / PAGE_SIZE ≠ p) as Hne by (intros E; rewrite E in Hx; by apply elem_of_dom in Hx as [? ?]; congruence).
    assert (∀ off v (w : Z → Z), 0 <= off < PAGE_SIZE → (<[page_va p + off := v]> w : Z → Z) x = w x) as Hi.
    { intros off v w Ho. apply fn_lookup_insert_ne. intros <-. by rewrite page_va_div in Hne. }
    rewrite Hi by done. rewrite Hw6 by (by right). rewrite !Hi by done. by apply Hw1. }
  split.
  - eapply mid_core; [exact M7|]. eapply shape_insert; [apply C|done|done|done| |done].
    intros c' k' F' [= <- <- <-]. split; [done|]. eapply fresh_slab; [done|exact Hl|..]; rewrite ?fn_lookup_insert; try done.
    + rewrite fn_lookup_insert_ne by (unfold slab_free_list, slab_free_count; lia).
      rewrite Hw6 by (left; unfold slab_free_count; lia). apply fn_lookup_insert.
    + rewrite fn_lookup_insert_ne by (unfold slab_free_list, slab_total_count; lia).
      rewrite Hw6 by (left; unfold slab_total_count; lia).
      rewrite fn_lookup_insert_ne by (unfold slab_free_count, slab_total_count; lia). apply fn_lookup_insert.
    + rewrite fn_lookup_insert_ne by (unfold slab_free_list, slab_object_size; lia).
      rewrite Hw6 by (left; unfold slab_object_size; lia).
      rewrite fn_lookup_insert_ne by (unfold slab_free_count, slab_object_size; lia).
      rewrite fn_lookup_insert_ne by (unfold slab_total_count, slab_object_size; lia). apply fn_lookup_insert.
    + intros x Hx. apply fn_lookup_insert_ne. unfold slab_free_list. lia.
  - intros a n x Ha Hx H4. assert (word_in (dom own) x) as Hwi by (eapply block_word; [apply C|done..]).
    rewrite (md_words _ _ _ _ _ M7); [by apply Hold|]. destruct Hwi. split; [done|]. rewrite Hdom. by apply elem_of_union_r.
Qed.

(** *** The slab to allocate from *)

(** Every slab but [p] is on the list it belongs on. *)
Definition placed (own : gmap Z owner) (p : Z) : Prop := ∀ q c k F, own !! q = Some (OSlab c k F) → q ≠ p → k = Some (kind c F).

Lemma placed_insert own p o : placed own p → placed (<[p := o]> own) p.
Proof. intros Hpl q c k F Hq Hne. rewrite lookup_insert_ne in Hq by done. by eapply Hpl. Qed.

Lemma heap_placed s own p : heap_ok s own → placed own p.
Proof. intros [_ Hk] q c k F Hq _. by eapply Hk. Qed.

(** A slab with a free object, at the head of the partial list. *)
Definition ready (s : H) (own : gmap Z owner) (c p : Z) (own0 : gmap Z owner) : Prop :=
  core s own ∧ heads s c Partial = page_va p ∧ placed own p ∧ (∀ b n, block own b n ↔ block own0 b n) ∧
  ∃ a F, own !! p = Some (OSlab c (Some Partial) (a :: F)).

Lemma kind_nonempty c F : class_ok c → kind c F ≠ Full → ∃ a F', F = a :: F'.
Proof. intros Hc Hk. destruct F as [|a F]; [done|]. by exists a, F. Qed.

Lemma wp_push_ready s0 own0 s own c p a F :
  core s own → own !! p = Some (OSlab c None (a :: F)) → placed own p → (∀ b n, block own b n ↔ block own0 b n) → kept own0 s0 s →
  wp (push_slab c Partial (page_va p)) s (λ _ s', kept own0 s0 s' ∧ ∃ own', ready s' own' c p own0).
Proof.
  intros C Hp Hpl Hb K1. eapply wp_mono; [by apply wp_push_slab|]. intros [] s2 (C2 & K2 & H2). split.
  - eapply heap_kept_trans; [|exact K1|exact K2]. intros b n. by rewrite Hb.
  - eexists. split; [exact C2|]. split; [done|]. split; [by apply placed_insert|]. split.
    + intros b n. by rewrite (block_move own p c None).
    + rewrite lookup_insert_eq. by eexists _, _.
Qed.

Lemma wp_take_slab s own c :
  heap_ok s own → class_ok c →
  wp (take_slab c) s (λ r s', r = 0 ∧ heap_ok s' own ∧ kept own s s' ∨
    ∃ p own', r = page_va p ∧ page_va p ≠ 0 ∧ ready s' own' c p own ∧ kept own s s').
Proof.
  intros Hok Hc. pose proof Hok as [C Hk]. pose proof (hc_shape _ _ C) as Sh. unfold take_slab. wp_step.
  eapply wp_cache; [by apply core_mid|done|]. intros ca _ Eh.
  assert (partial_slabs ca = heads s c Partial) as -> by apply (Eh Partial).
  assert (empty_slabs ca = heads s c Empty) as -> by apply (Eh Empty). clear ca Eh.
  destruct (head_value _ _ _ c Partial Sh Hc) as [E|(p & F & E & Hp)]; rewrite E.
  2: { destruct (page_va_u32 _ _ _ _ _ Sh Hp) as [_ Hnz]. rewrite !(proj2 (Z.eqb_neq _ _)) by done. wp_step. wp_step.
       rewrite (proj2 (Z.eqb_neq _ _)) by done. wp_step. right. exists p, own. split; [done|]. split; [done|]. split; [|apply heap_kept_refl].
       split; [done|]. split; [done|]. split; [by eapply heap_placed|]. split; [done|].
       destruct (kind_nonempty c F Hc) as (a & F' & ->); [|by exists a, F']. specialize (Hk _ _ _ _ Hp). injection Hk as <-. done. }
  change (0 =? 0) with true. cbn iota.
  destruct (head_value _ _ _ c Empty Sh Hc) as [E'|(p & F & E' & Hp)]; rewrite E'.
  - change (0 =? 0) with true. cbn [negb when]. do 4 wp_step. change (0 =? 0) with true. cbn iota. wp_step.
    eapply wp_mono; [by apply wp_slab_create|]. intros r s1 [(-> & C1 & K1)|(p & -> & Hp & C1 & K1)].
    { change (0 =? 0) with true. cbn iota. wp_step. left. split; [done|]. by split. }
    destruct (csize_ok c Hc) as (_ & _ & Ht & _).
    assert (∀ a, object p c a → a ∈ objects p c (Z.to_nat (ctotal c))) as Hall.
    { intros a (i & Hi & ->). apply elem_of_objects. exists i. split; [lia|done]. }
    destruct (objects p c (Z.to_nat (ctotal c))) as [|a F] eqn:EF.
    { apply (f_equal length) in EF. rewrite objects_length in EF. cbn in EF. lia. }
    set (own1 := <[p := _]> own) in *. assert (own1 !! p = Some (OSlab c None (a :: F))) as Hp1 by apply lookup_insert_eq.
    destruct (page_va_u32 _ _ _ _ _ (hc_shape _ _ C1) Hp1) as [_ Hnz]. rewrite (proj2 (Z.eqb_neq _ _)) by done.
    wp_step. eapply wp_mono; [eapply (wp_push_ready s own); [exact C1|exact Hp1| | |exact K1]|].
    + apply placed_insert. by eapply heap_placed.
    + intros b n. by apply block_new_slab.
    + intros [] s2 [K2 [own' R]]. wp_step. right. by exists p, own'.
  - destruct (page_va_u32 _ _ _ _ _ Sh Hp) as [_ Hnz]. rewrite !(proj2 (Z.eqb_neq _ _)) by done. cbn [negb when].
    destruct (kind_nonempty c F Hc) as (a & F' & ->). { specialize (Hk _ _ _ _ Hp). injection Hk as <-. done. }
    wp_step. wp_step. apply wp_assoc. wp_step. eapply (wp_pop_slab s own p c Empty (a :: F')); [done|done|done|]. intros s1 C1 K1.
    eapply wp_mono; [eapply (wp_push_ready s own); [exact C1|apply lookup_insert_eq| | |exact K1]|].
    + apply placed_insert. by eapply heap_placed.
    + intros b n. by eapply block_move.
    + intros [] s2 [K2 [own' R]]. wp_step. rewrite (proj2 (Z.eqb_neq _ _)) by done. wp_step. right. by exists p, own'.
Qed.
End heap.
