(* ===== verification/KheapAlloc.v ===== *)
(** * The kernel heap: allocating and freeing

    [kmalloc], [kfree] and [krealloc] of [kernel/src/mm/kmalloc.c] against what
    an allocator promises: blocks that do not overlap, whose contents only their
    owner changes. *)

From S2P Require Import Prelude Range Bitmap FrameAlloc Pmm Paging VaAlloc KernelMem Kheap KheapVa KheapShape KheapInv.

Section alloc.
Context `{KM : KernelMemory K}.
Notation H := (kheap K).
Implicit Types s : H.

Lemma core_stats s own x : core s own → core (set_stats x s) own.
Proof. intros []. by split. Qed.

Lemma heap_ok_stats s own x : heap_ok s own → heap_ok (set_stats x s) own.
Proof. intros [C Hk]. split; [by apply core_stats|done]. Qed.

Lemma kept_stats own s s' x : kept own s s' → kept own s (set_stats x s').
Proof. done. Qed.

(** Words written inside a live block. *)
Lemma mid_block s0 own s a n w :
  core s0 own → block own a n → mid s (dom own) (dom own) w (heads s0) →
  (∀ x, x < a ∨ a + n <= x → w x = word s0 x) → core s own.
Proof.
  intros C Hb M Hw. eapply mid_core; [exact M|]. eapply shape_blocks; [apply C|]. intros x _ Hx. apply Hw.
  specialize (Hx a n Hb). lia.
Qed.

Lemma wp_zero_words s own a n :
  core s own → block own a n →
  wp (zero_words a n) s (λ _ s', core s' own ∧ (∀ x, a <= x < a + n → x mod 4 = 0 → word s' x = 0) ∧
    ∀ x, word_in (dom own) x → x < a ∨ a + n <= x → word s' x = word s x).
Proof.
  intros C Hb. destruct (block_size _ _ _ _ _ (hc_shape _ _ C) Hb) as (H1 & H2 & H3 & _). unfold zero_words.
  eapply wp_mono.
  - apply (wp_for_range (λ i s', ∃ w, mid s' (dom own) (dom own) w (heads s) ∧ (∀ j, 0 <= j < i → w (a + 4 * j) = 0) ∧
      ∀ x, x < a ∨ a + 4 * i <= x → w x = word s x)).
    + exists (word s). split; [by apply core_mid|]. split; [lia|done].
    + intros i s' Hi (w & M & Hz & Hw). eapply wp_store; [exact M| |done|].
      { eapply block_word; [apply C|exact Hb|lia|lia]. }
      intros s2 M2. exists (<[a + 4 * i := 0]> w). split; [done|]. split.
      * intros j Hj. destruct (decide (j = i)) as [->|]; [by rewrite fn_lookup_insert|].
        rewrite fn_lookup_insert_ne by lia. apply Hz. lia.
      * intros x Hx. rewrite fn_lookup_insert_ne by lia. apply Hw. lia.
  - intros [] s' (w & M & Hz & Hw). replace (a + 4 * Z.max 0 (n / 4)) with (a + n) in Hw by lia. split; [|split].
    + eapply mid_block; [exact C|exact Hb|exact M|done].
    + intros x Hx H4. rewrite (md_words _ _ _ _ _ M) by (eapply block_word; [apply C|exact Hb|done|done]).
      replace x with (a + 4 * ((x - a) / 4)) by lia. apply Hz. lia.
    + intros x Hx Hn. rewrite (md_words _ _ _ _ _ M) by done. by apply Hw.
Qed.

(** *** Small allocations *)

(** What an allocation of [size] bytes has done. *)
Definition allocated (own : gmap Z owner) (s : H) (size : Z) (zero : bool) (a : Z) (own' : gmap Z owner) (s' : H) : Prop :=
  kept own s s' ∧
  (a = 0 ∧ own' = own ∨
   a ≠ 0 ∧ ∃ n, size <= n ∧ (∀ b m, block own' b m ↔ block own b m ∨ b = a ∧ m = n) ∧ (∀ m, ¬ block own a m) ∧
     (zero = true → ∀ x, a <= x < a + n → x mod 4 = 0 → word s' x = 0)).

(** The end of an allocation: the block is there, and is cleared on demand. *)
Lemma wp_allocated s own size zero s1 own1 a n :
  heap_ok s1 own1 → kept own s s1 → size <= n → (∀ b m, block own1 b m ↔ block own b m ∨ b = a ∧ m = n) → (∀ m, ¬ block own a m) →
  wp (when zero (zero_words a n) ;; ret a) s1 (λ r s', ∃ own', heap_ok s' own' ∧ allocated own s size zero r own' s').
Proof.
  intros Hok K1 Hsz Hb Hfresh. pose proof Hok as [C1 Hk1]. assert (block own1 a n) as Hba by (apply Hb; by right).
  assert (a ≠ 0) as Haz by (destruct (block_size _ _ _ _ _ (hc_shape _ _ C1) Hba); lia).
  wp_step. destruct zero; cbn [when].
  - eapply wp_mono; [by apply (wp_zero_words s1 own1 a n)|].
    intros [] s2 (C2 & Hz & Hrest). wp_step. exists own1. split; [by split|]. split.
    + intros b m x Hbm Hx H4. assert (block own1 b m) as Hbm1 by (apply Hb; by left).
      rewrite Hrest; [by apply (K1 b m)|eapply block_word; [apply C1|done..]|].
      destruct (decide (x < a ∨ a + n <= x)) as [|Hin]; [done|].
      destruct (blocks_apart _ _ _ b m a n x (hc_shape _ _ C1)); [done|done|done|lia|]. subst. by destruct (Hfresh n).
    + right. split; [done|]. by exists n.
  - wp_step. wp_step. exists own1. split; [done|]. split; [done|]. right. split; [done|]. by exists n.
Qed.

Lemma kind_after_take p c a F :
  class_ok c → NoDup (a :: F) → (∀ b, b ∈ a :: F → object p c b) → kind c F = if (length F =? 0)%nat then Full else Partial.
Proof.
  intros Hc Hn Ho. pose proof (NoDup_length_objects p c _ Hc Hn Ho) as Hl. cbn [length] in Hl. unfold kind.
  destruct (length F =? 0)%nat; [done|]. by rewrite (proj2 (Z.eqb_neq _ _)) by lia.
Qed.

(** The slab goes to the list it belongs on. *)
Lemma wp_settle s own p c a F (Q : unit → H → Prop) :
  core s own → own !! p = Some (OSlab c (Some Partial) F) → heads s c Partial = page_va p → placed own p →
  NoDup (a :: F) → (∀ b, b ∈ a :: F → object p c b) →
  (∀ s' own', heap_ok s' own' → (∀ b n, block own' b n ↔ block own b n) → kept own s s' → Q tt s') →
  wp (n ← load (page_va p + slab_free_count);
      when (n =? 0) (
        ca ← cache c;
        when (partial_slabs ca =? page_va p) (
          next ← load (page_va p + slab_next);
          upd_cache c (set_list_head Partial next)) ;;
        push_slab c Full (page_va p))) s Q.
Proof.
  intros C Hp Hh Hpl Hn Ho HQ. pose proof (hc_shape _ _ C) as Sh. destruct (sp_slab _ _ _ Sh _ _ _ _ Hp) as [Hc _ _ _ Hcnt _ _].
  pose proof (kind_after_take p c a F Hc Hn Ho) as Hkind.
  wp_step. eapply wp_load; [by apply core_mid|by eapply header_in|]. rewrite Hcnt. apply wp_when; intros E.
  - assert (F = []) as -> by (destruct F; [done|cbn [length] in E; blia]). wp_step.
    eapply wp_cache; [by apply core_mid|done|]. intros ca _ Eh.
    assert (partial_slabs ca = page_va p) as -> by (by rewrite <-Hh, <-(Eh Partial)). rewrite Z.eqb_refl. wp_step.
    eapply (wp_pop_slab s own p c Partial []); [done|done|done|]. intros s1 C1 K1.
    eapply wp_mono; [eapply (wp_push_slab s1 _ p c Full []); [exact C1|apply lookup_insert_eq]|]. intros [] s2 (C2 & K2 & _).
    eapply HQ.
    + split; [exact C2|]. intros q c' k' F' Hq. destruct (decide (q = p)) as [->|Hne].
      * rewrite lookup_insert_eq in Hq. injection Hq as <- <- <-. done.
      * rewrite !lookup_insert_ne in Hq by done. by eapply Hpl.
    + intros b n. rewrite (block_move _ p c None) by apply lookup_insert_eq. by eapply block_move.
    + eapply heap_kept_trans; [|exact K1|exact K2]. intros b n Hb. by apply (block_move _ p c (Some Partial)).
  - eapply HQ; [|done|apply heap_kept_refl]. split; [done|]. intros q c' k' F' Hq. destruct (decide (q = p)) as [->|Hne]; [|by eapply Hpl].
    rewrite Hp in Hq. injection Hq as <- <- <-. rewrite Hkind. destruct F; [done|done].
Qed.

Lemma wp_kmalloc_small s own size zero :
  heap_ok s own → 1 <= size <= 2048 →
  wp (kmalloc_internal size zero) s (λ a s', ∃ own', heap_ok s' own' ∧ allocated own s size zero a own' s').
Proof.
  intros Hok Hsz. unfold kmalloc_internal. rewrite (proj2 (Z.eqb_neq size 0)), (proj2 (Z.ltb_ge 2048 size)) by lia.
  destruct (cache_for_size_ok size) as (c & -> & Hc & Hfit); [lia|]. wp_step.
  eapply wp_mono; [by apply wp_take_slab|]. intros r s1 [(-> & Hok1 & K1)|(p & own1 & -> & Hnz & R & K1)].
  { change (0 =? 0) with true. cbn iota. unfold count_failed. do 3 wp_step. exists own. split; [by apply heap_ok_stats|].
    split; [done|by left]. }
  destruct R as (C1 & Hh1 & Hpl1 & Hb1 & a & F & Hp1). rewrite (proj2 (Z.eqb_neq _ _)) by done. wp_step.
  pose proof (hc_shape _ _ C1) as Sh1. destruct (sp_slab _ _ _ Sh1 _ _ _ _ Hp1) as [_ Hnd Ho _ _ _ _].
  assert (object p c a) as Hoa by (apply Ho; by constructor).
  destruct (object_u32 _ _ _ _ _ _ _ Sh1 Hp1 Hc Hoa) as [_ Haz].
  eapply wp_mono; [by apply wp_slab_alloc|]. intros r s2 (-> & C2 & K2 & Hh2). rewrite (proj2 (Z.eqb_neq a 0)) by done.
  apply NoDup_cons in Hnd as Hnd'. destruct Hnd' as [HaF _].
  assert (∀ b n, block (<[p := OSlab c (Some Partial) F]> own1) b n ↔ block own b n ∨ b = a ∧ n = csize c) as Hb2.
  { intros b n. rewrite (block_take own1 p c (Some Partial) F a) by done. by rewrite Hb1. }
  apply wp_assoc. wp_step. eapply (wp_settle s2 _ p c a F); [exact C2|apply lookup_insert_eq|by rewrite Hh2|by apply placed_insert|done|done|].
  intros s3 own3 Hok3 Hb3 K3. pose proof Hok3 as [C3 Hk3]. wp_step. eapply wp_cache; [by apply core_mid|done|]. intros ca -> _.
  unfold count_allocated. do 2 wp_step. apply (wp_allocated s own size zero _ own3); [by apply heap_ok_stats| |done| |].
  - apply kept_stats. eapply heap_kept_trans; [|exact K1|eapply heap_kept_trans; [|exact K2|exact K3]].
    + intros b n. by rewrite Hb1.
    + intros b n. rewrite Hb2, Hb1. by left.
  - intros b m. by rewrite Hb3.
  - intros m Hm. apply Hb1 in Hm. eapply (free_no_block _ _ _ p c (Some Partial) (a :: F) a a m a Sh1 Hp1); [by constructor| |exact Hm|].
    + destruct (csize_ok c Hc). lia.
    + destruct (block_size _ _ _ _ _ Sh1 Hm). lia.
Qed.

(** *** Large allocations *)

Lemma page_step p i : heap_page (p + i) → u32 (page_va p + i * PAGE_SIZE) = page_va (p + i).
Proof. intros Hh. pose proof (heap_page_va _ Hh). rewrite page_va_add. apply u32_small. unfold is_u32. lia. Qed.

Lemma page_set_step p i : {[p + i]} ∪ page_set p i = page_set p (i + 1) ∨ i < 0.
Proof.
  destruct (decide (i < 0)); [by right|left]. apply set_eq. intros q. rewrite elem_of_union, elem_of_singleton, !elem_of_page_set. lia.
Qed.

Lemma wp_large_map s P B w hd p n :
  mid s P B w hd → 0 <= n <= HEAP_PAGES → (∀ q, p <= q < p + n → heap_page q ∧ q ∉ P) →
  wp (large_map (page_va p) n) s (λ m s', 0 <= m <= n ∧ ∃ w', mid s' (page_set p m ∪ P) B w' hd ∧ ∀ x, word_in P x → w' x = w x).
Proof.
  intros M Hn Hq. unfold large_map.
  apply (wp_while_n (λ k m s', 0 <= m <= n ∧ k = Z.to_nat (n - m) ∧
    ∃ w', mid s' (page_set p m ∪ P) B w' hd ∧ ∀ x, word_in P x → w' x = w x) _ _ _ (Z.to_nat n)).
  - split; [lia|]. split; [f_equal; lia|]. exists w. split; [|done].
    replace (page_set p 0 ∪ P) with P; [done|]. apply set_eq. intros q. rewrite elem_of_union, elem_of_page_set. intuition lia.
  - unfold heap_fuel. lia.
  - intros k m s1 (Hm & -> & w1 & M1 & Hw1). wp_step; [|wp_step; split; [done|]; by exists w1].
    destruct (Hq (p + m)) as [Hh Hno]; [blia|]. rewrite page_step by done.
    apply (wp_map_frame s1 _ _ _ _ (p + m) (ret (inr m)) (λ _, ret (inr m)) (λ _, ret (inl (m + 1))) _ M1 Hh).
    + rewrite elem_of_union, elem_of_page_set. intros [?|?]; [lia|done].
    + intros s' M'. wp_step. split; [lia|]. by exists w1.
    + intros _ s' M'. wp_step. split; [lia|]. by exists w1.
    + intros _ s' w' M' Hw'. wp_step. exists (Z.to_nat (n - (m + 1))). split; [blia|]. split; [blia|]. split; [done|].
      exists w'. split.
      * destruct (page_set_step p m) as [E|]; [|lia]. by rewrite <-E, <-(assoc_L (∪)).
      * intros x [H4 Hx]. rewrite Hw'; [by apply Hw1|]. split; [done|]. by apply elem_of_union_r.
Qed.

Lemma mid_subset s P P' B w hd : mid s P B w hd → km_ok (kmem s) P' → P' ⊆ P → mid s P' B w hd.
Proof. intros [C1 C2 C3 C4 C5 C6 C7 C8] Hk Hs. split; try done. intros x [H4 Hx]. apply C2. split; [done|]. by apply Hs. Qed.

Lemma wp_large_unmap s P B w hd p n :
  mid s P B w hd → 0 <= n → (∀ q, p <= q < p + n → heap_page q ∧ q ∈ P) →
  wp (large_unmap (page_va p) n) s (λ _ s', mid s' (P ∖ page_set p n) B w hd).
Proof.
  intros M Hn Hq. unfold large_unmap. eapply wp_mono.
  - apply (wp_for_range (λ i s', mid s' (P ∖ page_set p i) B w hd)).
    + replace (P ∖ page_set p 0) with P; [done|]. apply set_eq. intros q. rewrite elem_of_difference, elem_of_page_set. intuition lia.
    + intros i s1 Hi M1. destruct (Hq (p + i)) as [Hh Hin]; [lia|]. cbv zeta. rewrite page_step by done.
      unfold on_mem. do 2 wp_step. eapply wp_mono; [eapply (km_unmap_ok _ (P ∖ page_set p i) (p + i)); [apply M1|]|].
      { rewrite elem_of_difference, elem_of_page_set. split; [done|lia]. }
      intros f m (Hf & -> & Hun). do 2 wp_step. cbn [kmem set_mem]. eapply wp_mono; [exact Hun|]. intros b m2 Hun2. cbn beta in Hun2.
      wp_step. cbn [kmem set_mem]. eapply wp_mono; [exact Hun2|]. intros [] m3 [Km Wm].
      assert (P ∖ page_set p i ∖ {[p + i]} = P ∖ page_set p (i + 1)) as E.
      { destruct (page_set_step p i) as [E|]; [|lia]. rewrite <-E. set_solver. }
      rewrite <-E. destruct M1 as [C1 C2 C3 C4 C5 C6 C7 C8]. split; try done. intros x Hx. unfold word. cbn. rewrite Wm by done.
      apply C2. destruct Hx as [H4 Hx]. split; [done|]. by apply elem_of_difference in Hx as [? _].
  - intros [] s'. by rewrite Z.max_r by lia.
Qed.

Lemma dom_large_own own p n : 0 <= n → dom (large_own own p n (Z.to_nat n)) = page_set p n ∪ dom own.
Proof.
  intros Hn. apply set_eq. intros q. rewrite elem_of_union, !elem_of_dom, elem_of_page_set, large_own_lookup, Z2Nat.id by done.
  destruct (decide (p <= q < p + n)) as [Hd|Hd]; [|intuition]. split; [by left|]. by intros _.
Qed.

(** A header is written at the start of fresh pages. *)
Lemma large_core s s' own p n w :
  core s own → 1 <= n → (∀ q, p <= q < p + n → heap_page q ∧ q ∉ dom own) →
  mid s' (page_set p n ∪ dom own) (page_set p n ∪ dom own) w (heads s) → (∀ x, word_in (dom own) x → w x = word s x) →
  is_u32 n → wp (store (page_va p + hdr_magic) LARGE_ALLOC_MAGIC ;; store (page_va p + hdr_pages) n) s' (λ _ s2,
    core s2 (large_own own p n (Z.to_nat n)) ∧ kept own s s2).
Proof.
  intros C Hn Hfree M Hw Hu. rewrite <-dom_large_own in M by lia. set (own' := large_own own p n (Z.to_nat n)) in *.
  assert (own' !! p = Some (OLarge p n)) as Hp by (unfold own'; rewrite large_own_lookup; by rewrite decide_True by lia).
  assert (pages_free own p n) as Hpf by (intros q Hq; destruct (Hfree q Hq); split; [by apply not_elem_of_dom|done]).
  wp_step. eapply wp_store; [exact M|by eapply header_in|done|]. intros s1 M1.
  eapply wp_store; [exact M1|by eapply header_in|done|]. intros s2 M2.
  assert (∀ x, word_in (dom own) x →
    (<[page_va p + hdr_pages := n]> (<[page_va p + hdr_magic := LARGE_ALLOC_MAGIC]> w) : Z → Z) x = word s x) as Hold.
  { intros x Hx. assert (x / PAGE_SIZE ≠ p) as Hne by (intros E; destruct Hx as [_ Hx]; rewrite E in Hx; by destruct (Hfree p); [lia|]).
    rewrite !fn_lookup_insert_ne; [by apply Hw|..]; intros <-; by rewrite page_va_div in Hne. }
  split.
  - eapply mid_core; [exact M2|]. eapply shape_large_new; [apply C|done|done| | |done].
    + rewrite fn_lookup_insert_ne by (unfold hdr_pages, hdr_magic; lia). apply fn_lookup_insert.
    + apply fn_lookup_insert.
  - intros a m x Ha Hx H4. assert (word_in (dom own) x) as Hwi by (eapply block_word; [apply C|done..]).
    rewrite (md_words _ _ _ _ _ M2); [by apply Hold|]. destruct Hwi. split; [done|]. unfold own'. rewrite dom_large_own by lia. by apply elem_of_union_r.
Qed.

Lemma wp_kmalloc_large s own size zero :
  heap_ok s own → 2048 < size → size < 4294967281 →
  wp (kmalloc_internal size zero) s (λ a s', ∃ own', heap_ok s' own' ∧ allocated own s size zero a own' s').
Proof.
  intros Hok Hsz Hov. pose proof Hok as [C Hk]. unfold kmalloc_internal.
  rewrite (proj2 (Z.eqb_neq size 0)), (proj2 (Z.ltb_lt 2048 size)) by lia. unfold kmalloc_large.
  set (n := u32 (size + sizeof_large_alloc_hdr_t + PAGE_SIZE - 1) / PAGE_SIZE).
  assert (0 <= n ∧ (1 <= n → size <= n * PAGE_SIZE - sizeof_large_alloc_hdr_t)) as [Hn0 Hfit].
  { unfold n, sizeof_large_alloc_hdr_t, PAGE_SIZE, u32. lia. }
  clearbody n. wp_step. eapply mid_va_alloc; [by apply core_mid|lia|..].
  { change (0 =? 0) with true. cbn iota. unfold count_failed. do 3 wp_step. exists own. split; [by apply heap_ok_stats|].
    split; [by apply kept_stats, heap_kept_refl|by left]. }
  intros p s1 Hfree [Hn Hnmax] Hnz M1. specialize (Hfit Hn). rewrite (proj2 (Z.eqb_neq _ _)) by done. wp_step.
  eapply wp_mono; [eapply (wp_large_map s1 _ _ _ _ p n M1); [lia|done]|]. intros m s2 (Hm & w & M2 & Hw). wp_step.
  { wp_step. eapply wp_mono; [eapply wp_large_unmap; [exact M2|lia|]|].
    { intros q Hq. split; [apply Hfree; blia|]. apply elem_of_union_l, elem_of_page_set. lia. }
    intros [] s3 M3. wp_step.
    assert (mid s3 (dom own) (page_set p n ∪ dom own) (word s) (heads s)) as M3'.
    { replace (dom own) with ((page_set p m ∪ dom own) ∖ page_set p m) at 1.
      - destruct M3 as [C1 C2 C3 C4 C5 C6 C7 C8]. split; try done. intros x [H4 Hx]. rewrite C2 by done. apply Hw.
        split; [done|]. set_solver.
      - assert (page_set p m ## dom own) as Hdj; [|set_solver].
        intros q Hq1 Hq2. apply elem_of_page_set in Hq1. destruct (Hfree q) as [_ ?]; [blia|done]. }
    eapply wp_mono; [eapply mid_va_free; [exact M3'|lia|done|lia]|]. intros [] s4 M4. unfold count_failed. do 3 wp_step.
    destruct (mid_same _ _ _ C M4) as [C4 K4]. exists own. split; [apply heap_ok_stats; by split|]. split; [done|by left]. }
  assert (m = n) as -> by blia. apply wp_assoc. wp_step.
  eapply wp_mono; [eapply (large_core s s2 own p n w C Hn Hfree M2 Hw); unfold is_u32; change HEAP_PAGES with 65536 in *; lia|].
  intros [] s3 [C3 K3]. unfold count_allocated. do 2 wp_step.
  assert (pages_free own p n) as Hpf by (intros q Hq; destruct (Hfree q Hq); split; [by apply not_elem_of_dom|done]).
  eapply (wp_allocated s own size zero _ (large_own own p n (Z.to_nat n))); [|by apply kept_stats|done| |].
  - apply heap_ok_stats. split; [done|]. intros q c k' F Hq. rewrite large_own_lookup in Hq. case_decide; [done|]. by eapply Hk.
  - intros b m. by apply block_new_large.
  - intros m Hm'. destruct (block_size _ _ _ _ _ (hc_shape _ _ C) Hm') as (? & ? & _).
    destruct (block_word _ _ _ _ _ (page_va p + sizeof_large_alloc_hdr_t) (hc_shape _ _ C) Hm') as [_ Hd]; [lia|done|].
    rewrite page_va_div in Hd by done. by destruct (Hfree p) as [_ ?]; [lia|].
Qed.

(** *** Freeing *)

(** What freeing the block [a] has done. *)
Definition freed (own : gmap Z owner) (s : H) (a : Z) (s' : H) : Prop :=
  ∃ own', heap_ok s' own' ∧ (∀ b m, block own' b m ↔ block own b m ∧ b ≠ a) ∧ kept own' s s'.

Lemma page_start_eq p a : heap_page p → page_va p <= a < page_va p + PAGE_SIZE → Z.land a (not32 (PAGE_SIZE - 1)) = page_va p.
Proof.
  intros Hh Ha. change (Z.land a (not32 (PAGE_SIZE - 1))) with (page_of a). unfold heap_page, page_va, PAGE_SIZE in *.
  change HEAP_BASE with 917504 in *. change HEAP_PAGES with 65536 in *. rewrite page_of_eq by (unfold is_u32; lia). lia.
Qed.

(** A slab is taken off the list [k] it is on. *)
Lemma wp_unlink_slab s own p c k F l1 l2 :
  core s own → own !! p = Some (OSlab c (Some k) F) → on_list (word s) own (heads s c k) c k (l1 ++ page_va p :: l2) →
  wp (next ← load (page_va p + slab_next); write_link c k (link_of l1) next) s (λ _ s',
    core s' (<[p := OSlab c None F]> own) ∧ kept own s s').
Proof.
  intros C Hp Hl. wp_step. eapply wp_load; [by apply core_mid|by eapply header_in|]. by eapply wp_write_link.
Qed.

Lemma wp_find_read {A} s own p c k F (rest : slab_link → Z → M H A) (Q : A → H → Prop) :
  core s own → own !! p = Some (OSlab c (Some k) F) →
  (∀ l1 l2, on_list (word s) own (heads s c k) c k (l1 ++ page_va p :: l2) → wp (rest (link_of l1) (page_va p)) s Q) →
  wp (prev ← find_link c k (page_va p); v ← read_link c k prev; rest prev v) s Q.
Proof.
  intros C Hp HQ. pose proof (sp_slab _ _ _ (hc_shape _ _ C) _ _ _ _ Hp) as [Hc _ _ _ _ _ _].
  wp_step. eapply wp_mono; [by eapply wp_find_link|]. intros pr s' (-> & l1 & l2 & -> & Hl). wp_step.
  eapply (wp_read_link s own c k l1); [done|done|exact Hl|]. intros v (-> & _). by eapply HQ.
Qed.

(** ... and put on the list [k']. *)
Lemma wp_relink s own p c k k' F s1 :
  own !! p = Some (OSlab c (Some k) F) → core s1 (<[p := OSlab c None F]> own) → kept own s s1 →
  wp (push_slab c k' (page_va p)) s1 (λ _ s', core s' (<[p := OSlab c (Some k') F]> own) ∧ kept own s s').
Proof.
  intros Hp C1 K1. eapply wp_mono; [eapply (wp_push_slab s1 _ p c k' F); [exact C1|apply lookup_insert_eq]|].
  intros [] s2 (C2 & K2 & _). rewrite insert_insert_eq in C2. split; [done|]. eapply heap_kept_trans; [|exact K1|exact K2].
  intros b n Hb. by apply (block_move _ p c (Some k)).
Qed.

(** A slab that was full goes to the partial list. *)
Lemma wp_kfree_unfull s own p c k F (full : bool) :
  core s own → own !! p = Some (OSlab c (Some k) F) → k = (if full then Full else Partial) →
  wp (when full (
        prev ← find_link c Full (page_va p);
        v ← read_link c Full prev;
        when (negb (v =? 0)) (
          next ← load (page_va p + slab_next);
          write_link c Full prev next ;;
          push_slab c Partial (page_va p)))) s (λ _ s', core s' (<[p := OSlab c (Some Partial) F]> own) ∧ kept own s s').
Proof.
  intros C Hp ->. destruct full; cbn [when]; [|wp_step; rewrite insert_id by done; split; [done|apply heap_kept_refl]].
  destruct (page_va_u32 _ _ _ _ _ (hc_shape _ _ C) Hp) as [_ Hnz].
  eapply (wp_find_read s own p c Full F); [done|done|]. intros l1 l2 Hl. rewrite (proj2 (Z.eqb_neq _ _)) by done. cbn [negb when].
  apply wp_assoc. wp_step. eapply wp_mono; [by eapply wp_unlink_slab|]. intros [] s1 [C1 K1]. by eapply wp_relink.
Qed.

(** A slab without objects in use goes to the empty list. *)
Lemma wp_kfree_empty s own p c F :
  core s own → own !! p = Some (OSlab c (Some Partial) F) →
  wp (n ← load (page_va p + slab_free_count);
      total ← load (page_va p + slab_total_count);
      when (n =? total) (
        prev ← find_link c Partial (page_va p);
        v ← read_link c Partial prev;
        when (v =? page_va p) (
          next ← load (page_va p + slab_next);
          write_link c Partial prev next) ;;
        push_slab c Empty (page_va p))) s (λ _ s',
    core s' (<[p := OSlab c (Some (if Z.of_nat (length F) =? ctotal c then Empty else Partial)) F]> own) ∧ kept own s s').
Proof.
  intros C Hp. destruct (sp_slab _ _ _ (hc_shape _ _ C) _ _ _ _ Hp) as [Hc _ _ _ H1 H2 _].
  wp_step. eapply wp_load; [by apply core_mid|by eapply header_in|]. rewrite H1.
  wp_step. eapply wp_load; [by apply core_mid|by eapply header_in|]. rewrite H2.
  destruct (Z.of_nat (length F) =? ctotal c) eqn:E; cbn [when]; [|wp_step; rewrite insert_id by done; split; [done|apply heap_kept_refl]].
  eapply (wp_find_read s own p c Partial F); [done|done|]. intros l1 l2 Hl. rewrite Z.eqb_refl. cbn [when].
  wp_step. eapply wp_mono; [by eapply wp_unlink_slab|]. intros [] s1 [C1 K1]. by eapply wp_relink.
Qed.

Lemma wp_kfree_slab s own p c k F a :
  heap_ok s own → own !! p = Some (OSlab c k F) → object p c a → a ∉ F → wp (kfree a) s (λ _ s', freed own s a s').
Proof.
  intros [C Hk] Hp Hob HaF. pose proof (hc_shape _ _ C) as Sh. destruct (sp_slab _ _ _ Sh _ _ _ _ Hp) as [Hc Hn Ho Hl H1 H2 H3].
  destruct (object_u32 _ _ _ _ _ _ _ Sh Hp Hc Hob) as [Hau Haz]. destruct (object_in p c a Hc Hob) as (Ha1 & Ha2 & _).
  destruct (csize_ok c Hc) as (Hs1 & _). assert (heap_page p) as Hh by (apply Sh; by apply elem_of_dom_2 in Hp).
  assert (NoDup (a :: F)) as Hn' by (by apply NoDup_cons).
  assert (∀ b, b ∈ a :: F → object p c b) as Ho' by (intros b [->|Hb]%elem_of_cons; [done|by apply Ho]).
  pose proof (NoDup_length_objects p c _ Hc Hn' Ho') as Hlen. cbn [length] in Hlen.
  pose proof (page_start_eq p a Hh) as Hps. unfold PAGE_SIZE in Hps at 1. specialize (Hps ltac:(lia)).
  unfold kfree, large_alloc_hdr, slab_find. rewrite (proj2 (Z.eqb_neq a 0)) by done. rewrite Hps.
  rewrite (proj2 (Z.eqb_neq a _)) by (unfold sizeof_large_alloc_hdr_t; lia). do 2 wp_step. change (0 =? 0) with true. cbn [negb].
  wp_step. eapply wp_load; [by apply core_mid|by eapply header_in|]. rewrite H3, cache_for_class by done.
  wp_step. eapply wp_load; [by apply core_mid|by eapply header_in|]. rewrite H1. cbv zeta. wp_step.
  eapply wp_mono; [by eapply wp_slab_free|]. intros [] s1 [C1 K1]. unfold count_freed. do 2 wp_step.
  set (own1 := <[p := OSlab c k (a :: F)]> own) in *. set (s2 := set_stats _ s1).
  assert (core s2 own1) as C2 by (by apply core_stats). assert (kept own1 s s2) as K2 by (by apply kept_stats). clearbody s2. clear C1 K1.
  pose proof (Hk _ _ _ _ Hp) as Ek. assert (kind c F = if Z.of_nat (length F) =? 0 then Full else Partial) as Ekind.
  { unfold kind. destruct F as [|b F]; [done|]. cbn [length] in *. rewrite !(proj2 (Z.eqb_neq _ _)) by lia. done. }
  assert (own1 !! p = Some (OSlab c (Some (if Z.of_nat (length F) =? 0 then Full else Partial)) (a :: F))) as Hp1.
  { unfold own1. rewrite lookup_insert_eq. by rewrite Ek, Ekind. }
  wp_step. eapply wp_mono; [by eapply (wp_kfree_unfull s2 own1 p c)|]. intros [] s3 [C3 K3].
  eapply wp_mono; [eapply (wp_kfree_empty s3 _ p c (a :: F)); [exact C3|apply lookup_insert_eq]|]. intros [] s4 [C4 K4].
  unfold own1 in C4. rewrite !insert_insert_eq in C4. eexists. split; [split; [exact C4|]|].
  - intros q c' k' F' Hq. destruct (decide (q = p)) as [->|Hne]; [|rewrite lookup_insert_ne in Hq by done; by eapply Hk].
    rewrite lookup_insert_eq in Hq. injection Hq as <- <- <-. done.
  - assert (∀ b m k0, block (<[p := OSlab c k0 (a :: F)]> own) b m ↔ block own b m ∧ b ≠ a) as Hb.
    { intros b m k0. by eapply block_put. }
    split; [intros b m; apply Hb|].
    eapply (heap_kept_trans _ own1); [intros b m; unfold own1; by rewrite !Hb| |]; [|eapply heap_kept_trans; [|exact K3|exact K4]].
    + intros b m x Hbm. apply K2. unfold own1. rewrite Hb. by rewrite Hb in Hbm.
    + intros b m. rewrite (block_move own1 p c _ (Some Partial)) by exact Hp1. done.
Qed.

Lemma dom_large_del own p n : 0 <= n → dom (large_del own p (Z.to_nat n)) = dom own ∖ page_set p n.
Proof.
  intros Hn. apply set_eq. intros q. rewrite elem_of_difference, !elem_of_dom, elem_of_page_set, large_del_lookup, Z2Nat.id by done.
  destruct (decide (p <= q < p + n)) as [Hd|Hd]; [|intuition]. split; [by intros [? ?]|tauto].
Qed.

(** The header of a large block. *)
Lemma wp_large_hdr s own p n (Q : Z → H → Prop) :
  core s own → own !! p = Some (OLarge p n) → Q (page_va p) s → wp (large_alloc_hdr (page_va p + sizeof_large_alloc_hdr_t)) s Q.
Proof.
  intros C Hp HQ. pose proof (hc_shape _ _ C) as Sh. destruct (sp_large _ _ _ Sh p p n Hp) as [_ Hm _ _].
  assert (heap_page p) as Hh by (apply Sh; by apply elem_of_dom_2 in Hp).
  unfold large_alloc_hdr. rewrite (page_start_eq p) by (done || (unfold sizeof_large_alloc_hdr_t, PAGE_SIZE; lia)).
  rewrite Z.eqb_refl. wp_step. eapply wp_load; [by apply core_mid|by eapply header_in|]. rewrite Hm, Z.eqb_refl. by wp_step.
Qed.

Lemma wp_kfree_large s own p n :
  heap_ok s own → own !! p = Some (OLarge p n) →
  wp (kfree (page_va p + sizeof_large_alloc_hdr_t)) s (λ _ s', freed own s (page_va p + sizeof_large_alloc_hdr_t) s').
Proof.
  intros [C Hk] Hp. pose proof (hc_shape _ _ C) as Sh. destruct (sp_large _ _ _ Sh p p n Hp) as [Hr _ Hn Hall].
  destruct (page_va_u32 _ _ _ _ _ Sh Hp) as [Hpu Hnz].
  assert (∀ q, p <= q < p + n → heap_page q ∧ q ∈ dom own) as Hpages.
  { intros q Hq. specialize (Hall q Hq). apply elem_of_dom_2 in Hall as Hd. split; [by apply Sh|done]. }
  unfold kfree. rewrite (proj2 (Z.eqb_neq _ 0)) by (unfold is_u32, sizeof_large_alloc_hdr_t in *; lia).
  wp_step. eapply wp_large_hdr; [done|done|]. rewrite (proj2 (Z.eqb_neq _ 0)) by done. cbn [negb]. cbv zeta.
  wp_step. eapply wp_load; [by apply core_mid|by eapply header_in|]. rewrite Hn. wp_step.
  eapply wp_mono; [eapply wp_large_unmap; [by apply core_mid|lia|done]|]. intros [] s1 M1. wp_step.
  assert (dom own = page_set p n ∪ dom own ∖ page_set p n) as Hdom.
  { apply set_eq. intros q. rewrite elem_of_union, elem_of_difference, elem_of_page_set.
    destruct (decide (p <= q < p + n)) as [Hq|Hq]; [|tauto]. destruct (Hpages q Hq). tauto. }
  assert (mid s1 (dom own ∖ page_set p n) (page_set p n ∪ dom own ∖ page_set p n) (word s) (heads s)) as M1' by (by rewrite <-Hdom).
  eapply wp_mono; [eapply mid_va_free; [exact M1'|lia| |lia]|].
  { intros q Hq. split; [by apply Hpages|]. rewrite elem_of_difference, elem_of_page_set. tauto. }
  intros [] s2 M2. unfold count_freed. wp_step. rewrite <-dom_large_del in M2 by lia. set (own' := large_del own p (Z.to_nat n)) in *.
  assert (shape (word s) (heads s) own') as Sh' by (by eapply shape_large_del).
  exists own'. split; [split|split].
  - apply core_stats. by eapply mid_core.
  - intros q c k F Hq. unfold own' in Hq. rewrite large_del_lookup in Hq. case_decide; [done|]. by eapply Hk.
  - intros b m. by eapply block_del_large.
  - intros b m x Hb Hx H4. cbn. apply (md_words _ _ _ _ _ M2). by eapply block_word.
Qed.

Lemma wp_kfree s own a n : heap_ok s own → block own a n → wp (kfree a) s (λ _ s', freed own s a s').
Proof.
  intros Hok [(p & c & k & F & Hp & Ho & HF & _)|(p & m & Hp & -> & _)]; [by eapply wp_kfree_slab|by eapply wp_kfree_large].
Qed.

Lemma wp_kmalloc_internal s own size zero :
  heap_ok s own → 0 <= size → size < 4294967281 →
  wp (kmalloc_internal size zero) s (λ a s', ∃ own', heap_ok s' own' ∧ allocated own s size zero a own' s').
Proof.
  intros Hok H0 Hov. destruct (decide (size = 0)) as [->|Hnz].
  - unfold kmalloc_internal. change (0 =? 0) with true. cbn iota. wp_step. exists own. split; [done|]. split; [apply heap_kept_refl|by left].
  - destruct (decide (size <= 2048)); [apply wp_kmalloc_small; [done|lia]|apply wp_kmalloc_large; [done|lia|lia]].
Qed.

(** *** Bytes *)

Definition byte_of (w : Z → Z) (x : Z) : Z := w (x - x mod 4) / 256 ^ (x mod 4) mod 256.

Lemma quarter x : x mod 4 = 0 ∨ x mod 4 = 1 ∨ x mod 4 = 2 ∨ x mod 4 = 3.
Proof. lia. Qed.

Lemma put_byte_get w k j v :
  0 <= k < 4 → 0 <= j < 4 → is_u8 v → put_byte w k v / 256 ^ j mod 256 = if decide (j = k) then v else w / 256 ^ j mod 256.
Proof.
  intros Hk Hj Hv. unfold put_byte, is_u8 in *.
  assert (k = 0 ∨ k = 1 ∨ k = 2 ∨ k = 3) as Hk' by lia. assert (j = 0 ∨ j = 1 ∨ j = 2 ∨ j = 3) as Hj' by lia.
  destruct Hk' as [->|[->|[->| ->]]], Hj' as [->|[->|[->| ->]]];
    change (256 ^ 0) with 1; change (256 ^ 1) with 256; change (256 ^ 2) with 65536; change (256 ^ 3) with 16777216;
    cbn [decide]; case_decide; try lia.
Qed.

Lemma put_byte_u32 w k v : 0 <= k < 4 → is_u32 w → is_u8 v → is_u32 (put_byte w k v).
Proof.
  intros Hk Hw Hv. unfold put_byte, is_u8, is_u32 in *. assert (k = 0 ∨ k = 1 ∨ k = 2 ∨ k = 3) as Hk' by lia.
  destruct Hk' as [->|[->|[->| ->]]];
    change (256 ^ 0) with 1; change (256 ^ 1) with 256; change (256 ^ 2) with 65536; change (256 ^ 3) with 16777216; lia.
Qed.

Lemma byte_of_put w x y v :
  is_u8 v → byte_of (<[x - x mod 4 := put_byte (w (x - x mod 4)) (x mod 4) v]> w) y = if decide (y = x) then v else byte_of w y.
Proof.
  intros Hv. unfold byte_of. destruct (decide (y - y mod 4 = x - x mod 4)) as [E|E].
  - rewrite E, fn_lookup_insert, put_byte_get by (done || lia). repeat case_decide; (done || lia).
  - rewrite fn_lookup_insert_ne by done. rewrite decide_False; [done|]. by intros ->.
Qed.

Lemma wp_copy_bytes s own a n r m cnt :
  core s own → block own a n → block own r m → a ≠ r → 0 <= cnt <= n → cnt <= m →
  wp (copy_bytes r a cnt) s (λ _ s', core s' own ∧ (∀ i, 0 <= i < cnt → byte_of (word s') (r + i) = byte_of (word s) (a + i)) ∧
    ∀ x, word_in (dom own) x → ¬ r <= x < r + m → word s' x = word s x).
Proof.
  intros C Ha Hr Hne Hn Hm. pose proof (hc_shape _ _ C) as Sh.
  destruct (block_size _ _ _ _ _ Sh Ha) as (_ & Ha4 & Hn4 & _). destruct (block_size _ _ _ _ _ Sh Hr) as (_ & Hr4 & Hm4 & _).
  assert (∀ x, a <= x < a + n → ¬ r <= x < r + m) as Hap by (intros x Hx Hy; by destruct (blocks_apart _ _ _ _ _ _ _ _ Sh Ha Hr Hx Hy)).
  assert (∀ b k x, block own b k → b mod 4 = 0 → k mod 4 = 0 → b <= x < b + k → word_in (dom own) (x - x mod 4)) as Hwi.
  { intros b k x Hb H1 H2 Hx. eapply block_word; [exact Sh|exact Hb|lia|lia]. }
  eapply wp_mono.
  - apply (wp_for_range (λ i s', ∃ w, mid s' (dom own) (dom own) w (heads s) ∧
      (∀ j, 0 <= j < i → byte_of w (r + j) = byte_of (word s) (a + j)) ∧ ∀ x, ¬ r <= x < r + m → w x = word s x)).
    + exists (word s). split; [by apply core_mid|]. split; [lia|done].
    + intros i s' Hi (w & M & Hb & Hw). unfold load_byte, store_byte. do 2 wp_step.
      eapply wp_load; [exact M|by eapply (Hwi a n); [|lia..]|]. do 2 wp_step.
      eapply wp_load; [exact M|by eapply (Hwi r m); [|lia..]|].
      set (v := w (a + i - (a + i) mod 4) / 256 ^ ((a + i) mod 4) mod 256).
      assert (is_u8 v) as Hv by (unfold v, is_u8; apply Z.mod_pos_bound; lia).
      assert (v = byte_of (word s) (a + i)) as Ev.
      { unfold v, byte_of. rewrite Hw; [done|]. apply Hap. lia. }
      eapply wp_store; [exact M|by eapply (Hwi r m); [|lia..]| |].
      { apply put_byte_u32; [lia| |done]. rewrite <-(md_words _ _ _ _ _ M) by (by eapply (Hwi r m); [|lia..]).
        eapply km_word_u32; [apply M|by eapply (Hwi r m); [|lia..]]. }
      intros s2 M2. eexists. split; [exact M2|]. split.
      * intros j Hj. rewrite byte_of_put by done. destruct (decide (r + j = r + i)) as [E|E].
        -- replace j with i by lia. done.
        -- apply Hb. lia.
      * intros x Hx. rewrite fn_lookup_insert_ne by lia. by apply Hw.
  - rewrite Z.max_r by lia. intros [] s' (w & M & Hb & Hw). split; [|split].
    + eapply mid_block; [exact C|exact Hr|exact M|]. intros x Hx. apply Hw. lia.
    + intros i Hi. rewrite <-Hb by done. unfold byte_of. rewrite (md_words _ _ _ _ _ M); [done|]. eapply (Hwi r m); [done|lia..].
    + intros x Hx Hnr. rewrite (md_words _ _ _ _ _ M) by done. by apply Hw.
Qed.

(** *** Resizing *)

Lemma block_unique w hd own a n m : shape w hd own → block own a n → block own a m → n = m.
Proof.
  intros Sh Hn Hm. destruct (block_size _ _ _ _ _ Sh Hn), (block_size _ _ _ _ _ Sh Hm).
  by destruct (blocks_apart _ _ _ a n a m a Sh Hn Hm); [lia|lia|].
Qed.

(** The size the block really has, and it is kept only if that is enough. *)
Lemma wp_krealloc_keeps s own a n size :
  heap_ok s own → block own a n → 0 < size →
  wp (krealloc_keeps a size) s (λ r s', s' = s ∧ r.1 = n ∧ (r.2 = true → size <= n)).
Proof.
  intros [C _] Hb Hsz. pose proof (hc_shape _ _ C) as Sh. unfold krealloc_keeps.
  destruct Hb as [(p & c & k & F & Hp & Ho & HF & ->)|(p & m & Hp & -> & ->)].
  - destruct (sp_slab _ _ _ Sh _ _ _ _ Hp) as [Hc _ _ _ _ _ H3]. destruct (object_in p c a Hc Ho) as (Ha1 & Ha2 & _).
    destruct (csize_ok c Hc) as (Hs1 & _). assert (heap_page p) as Hh by (apply Sh; by apply elem_of_dom_2 in Hp).
    pose proof (page_start_eq p a Hh) as Hps. unfold PAGE_SIZE in Hps at 1. specialize (Hps ltac:(lia)).
    unfold large_alloc_hdr, slab_find. rewrite Hps. rewrite (proj2 (Z.eqb_neq a _)) by (unfold sizeof_large_alloc_hdr_t; lia).
    do 2 wp_step. change (0 =? 0) with true. cbn [negb]. wp_step. eapply wp_load; [by apply core_mid|by eapply header_in|].
    rewrite H3, cache_for_class by done. wp_step. split; [done|]. split; [done|]. cbn [snd]. intros E%bool_decide_eq_true.
    destruct (decide (size <= 2048)) as [Hle|Hle].
    + destruct (cache_for_size_ok size) as (c' & E' & _ & Hfit); [lia|]. rewrite E' in E. by injection E as ->.
    + unfold cache_for_size, SIZE_CLASSES in E. cbn [class_for] in E. rewrite !(proj2 (Z.leb_gt _ _)) in E by lia. done.
  - destruct (sp_large _ _ _ Sh p p m Hp) as [Hr _ Hm Hall]. destruct (page_va_u32 _ _ _ _ _ Sh Hp) as [_ Hnz].
    wp_step. eapply wp_large_hdr; [done|done|]. rewrite (proj2 (Z.eqb_neq _ 0)) by done. cbn [negb].
    wp_step. eapply wp_load; [by apply core_mid|by eapply header_in|]. rewrite Hm. wp_step.
    assert (m <= HEAP_PAGES) as Hmax.
    { assert (heap_page p ∧ heap_page (p + m - 1)) as [H1 H2]; [|unfold heap_page in *; lia].
      split; apply Sh; eapply elem_of_dom_2; [exact Hp|]. apply Hall. lia. }
    change HEAP_PAGES with 65536 in Hmax.
    rewrite u32_small by (unfold is_u32, PAGE_SIZE, sizeof_large_alloc_hdr_t; lia). split; [done|]. split; [done|]. cbn. blia.
Qed.

(** What resizing the block [a] of [n] bytes has done. *)
Definition resized (own : gmap Z owner) (s : H) (a n size r : Z) (own' : gmap Z owner) (s' : H) : Prop :=
  (∀ b m x, block own b m → b ≠ a → b <= x < b + m → x mod 4 = 0 → word s' x = word s x) ∧
  (r = 0 ∧ own' = own ∧ kept own s s' ∨
   r ≠ 0 ∧ ∃ k, size <= k ∧ (∀ b m, block own' b m ↔ block own b m ∧ b ≠ a ∨ b = r ∧ m = k) ∧
     (∀ m, r ≠ a → ¬ block own r m) ∧
     ∀ i, 0 <= i < Z.min n size → byte_of (word s') (r + i) = byte_of (word s) (a + i)).

Lemma wp_krealloc s own a n size :
  heap_ok s own → block own a n → 0 < size → size < 4294967281 →
  wp (krealloc a size) s (λ r s', ∃ own', heap_ok s' own' ∧ resized own s a n size r own' s').
Proof.
  intros Hok Hb Hsz Hov. pose proof Hok as [C Hk]. pose proof (hc_shape _ _ C) as Sh.
  destruct (block_size _ _ _ _ _ Sh Hb) as (Hn8 & Ha4 & Hn4 & Hapos).
  unfold krealloc. rewrite (proj2 (Z.eqb_neq a 0)), (proj2 (Z.eqb_neq size 0)) by lia. wp_step.
  eapply wp_mono; [by eapply wp_krealloc_keeps|]. intros [old keep] s1 (-> & Eo & Hfit). cbn in Eo, Hfit. subst old.
  destruct keep.
  { wp_step. exists own. split; [done|]. split; [done|]. right. split; [lia|]. exists n. split; [by apply Hfit|].
    split; [|split; [done|done]]. intros b m. split; [|intros [[? _]|[-> ->]]; done]. intros Hbm.
    destruct (decide (b = a)) as [->|]; [right|by left]. split; [done|]. by eapply block_unique. }
  wp_step. eapply wp_mono; [by apply wp_kmalloc_internal; [|lia|]|].
  intros r s2 (own2 & Hok2 & K2 & [[-> ->]|(Hr & k & Hsk & Hb2 & Hfresh & _)]).
  { change (0 =? 0) with true. cbn iota. wp_step. exists own. split; [done|]. split; [|by left].
    intros b m x Hbm _. by apply (K2 b m). }
  rewrite (proj2 (Z.eqb_neq r 0)) by done. pose proof Hok2 as [C2 Hk2].
  assert (a ≠ r) as Hne by (intros ->; by destruct (Hfresh n)).
  assert (block own2 a n) as Hba by (apply Hb2; by left). assert (block own2 r k) as Hbr by (apply Hb2; by right).
  set (cnt := if n <? size then n else size). assert (cnt = Z.min n size) as Ecnt by (unfold cnt; destruct (n <? size) eqn:?; blia).
  wp_step. eapply wp_mono; [eapply (wp_copy_bytes s2 own2 a n r k cnt); [done|done|done|done|lia|lia]|].
  intros [] s3 (C3 & Hcopy & Hrest). assert (heap_ok s3 own2) as Hok3 by (split; done). wp_step.
  eapply wp_mono; [by eapply wp_kfree|]. intros [] s4 (own4 & Hok4 & Hb4 & K4). wp_step. exists own4. split; [done|].
  assert (∀ b m x, block own2 b m → b ≠ a → b ≠ r → b <= x < b + m → x mod 4 = 0 → word s4 x = word s2 x) as Hothers.
  { intros b m x Hbm Hba' Hbr' Hx H4. rewrite (K4 b m) by (done || by apply Hb4). apply Hrest; [eapply block_word; [apply C2|done..]|].
    intros Hxr. by destruct (blocks_apart _ _ _ _ _ _ _ _ (hc_shape _ _ C2) Hbm Hbr Hx Hxr). }
  split.
  - intros b m x Hbm Hba' Hx H4. rewrite (Hothers b m) by (done || (by apply Hb2; left) || (by intros ->; eapply Hfresh)).
    by apply (K2 b m).
  - right. split; [done|]. exists k. split; [done|]. split; [|split; [by intros m _|]].
    + intros b m. rewrite Hb4, Hb2. split; [intros [[?|[-> ->]] ?]; [by left|by right]|intros [[? ?]|[-> ->]]; split; auto].
    + intros i Hi. destruct (block_size _ _ _ _ _ (hc_shape _ _ C2) Hbr) as (_ & Hr4 & Hk4 & _).
      transitivity (byte_of (word s2) (a + i)).
      * rewrite <-Hcopy by lia. unfold byte_of. rewrite (K4 r k); [done|by apply Hb4|lia|lia].
      * unfold byte_of. rewrite (K2 a n); [done|done|lia|lia].
Qed.
End alloc.
