(* ===== verification/KheapSpec.v ===== *)
(** * The kernel heap: what its clients may rely on

    A client sees pointers and the sizes it asked for. Whatever sequence of
    calls it makes, as long as it frees and resizes only blocks that it has and
    writes only inside them, no call faults, its blocks never overlap and what
    it stored in a block stays there. *)

From S2P Require Import Prelude Range Bitmap FrameAlloc Pmm Paging VaAlloc KernelMem Kheap KheapVa KheapShape KheapInv KheapAlloc.

(** A client's calls; [Write] is an assignment to a word. *)
Inductive call :=
  | Malloc (n : Z) | Zalloc (n : Z) | Calloc (k n : Z) | Free (a : Z) | Realloc (a n : Z) | Write (x v : Z).

(** The blocks a client has: pointers with the sizes asked for. *)
Notation blocks := (gmap Z Z).

(** Sizes that do not wrap when the header is added. *)
Definition size_ok (n : Z) : Prop := 0 <= n < 4294967281.

Definition permitted (L : blocks) (c : call) : Prop :=
  match c with
  | Malloc n | Zalloc n => size_ok n
  | Calloc k n => is_u32 k ∧ is_u32 n ∧ (k * n < 4294967296 → size_ok (k * n))
  | Free a => a = 0 ∨ is_Some (L !! a)
  | Realloc a n => (a = 0 ∨ is_Some (L !! a)) ∧ size_ok n
  | Write x v => is_u32 v ∧ x mod 4 = 0 ∧ ∃ a n, L !! a = Some n ∧ a <= x < a + n
  end.

(** The blocks after a call that returned [r]. *)
Definition add (r n : Z) (L : blocks) : blocks := if r =? 0 then L else <[r := n]> L.
Definition after (L : blocks) (c : call) (r : Z) : blocks :=
  match c with
  | Malloc n | Zalloc n => add r n L
  | Calloc k n => add r (k * n) L
  | Free a => delete a L
  | Realloc a n => if r =? 0 then (if n =? 0 then delete a L else L) else <[r := n]> (delete a L)
  | Write _ _ => L
  end.

(** A call does something to the contents of the block [a] of [n] bytes. *)
Definition touches (c : call) (a n : Z) : Prop :=
  match c with
  | Free b | Realloc b _ => a = b
  | Write x _ => a <= x < a + n
  | _ => False
  end.

(** What a call that returned [r] promises: the bytes [f] have become [f']. *)
Definition fresh (L : blocks) (r : Z) : Prop := r ≠ 0 → L !! r = None.
Definition zeroed (r n : Z) (f' : Z → Z) : Prop := r ≠ 0 → ∀ x, r <= x < r + n → f' x = 0.
Definition same (a n : Z) (f f' : Z → Z) : Prop := ∀ x, a <= x < a + n → f' x = f x.

Definition result_ok (L : blocks) (f : Z → Z) (c : call) (r : Z) (f' : Z → Z) : Prop :=
  match c with
  | Malloc n => fresh L r
  | Zalloc n => fresh L r ∧ zeroed r n f'
  | Calloc k n => fresh L r ∧ zeroed r (k * n) f' ∧ (4294967296 <= k * n → r = 0)
  | Free a => True
  | Realloc a n => fresh (delete a L) r ∧
      ∀ m, L !! a = Some m → n ≠ 0 → if r =? 0 then same a m f f' else ∀ i, 0 <= i < Z.min m n → f' (r + i) = f (a + i)
  | Write x v => ∀ a n y, L !! a = Some n → touches c a n → a <= y < a + n →
      f' y = if decide (y - y mod 4 = x) then v / 256 ^ (y mod 4) mod 256 else f y
  end.

Definition promised (L : blocks) (f : Z → Z) (c : call) (r : Z) (f' : Z → Z) : Prop :=
  (∀ a n, L !! a = Some n → ¬ touches c a n → same a n f f') ∧ result_ok L f c r f'.

Section client.
Context `{KM : KernelMemory K}.
Notation H := (kheap K).
Implicit Types s : H.

Definition exec (c : call) : M H Z :=
  match c with
  | Malloc n => kmalloc n
  | Zalloc n => kzalloc n
  | Calloc k n => kcalloc k n
  | Free a => kfree a ;; ret 0
  | Realloc a n => krealloc a n
  | Write x v => store x v ;; ret 0
  end.

(** The variables of kmalloc.c before [kmalloc_init], with no page mapped. *)
Definition booted (s : H) : Prop :=
  km_ok (kmem s) ∅ ∧ heap_va_bitmap s = mk_arr (HEAP_PAGES / 8) 0 ∧ heap_va_hint s = 0 ∧ alen (caches s) = NUM_SIZE_CLASSES.

Inductive history : H → blocks → Prop :=
  | h_boot s0 s : booted s0 → kmalloc_init s0 = Some (tt, s) → history s ∅
  | h_call s L c r s' : history s L → permitted L c → exec c s = Some (r, s') → history s' (after L c r).

Definition covers (own : gmap Z owner) (L : blocks) : Prop :=
  ∀ a n, L !! a = Some n → 0 <= n ∧ ∃ m, n <= m ∧ block own a m.

Lemma wp_kmalloc_init s :
  booted s → wp kmalloc_init s (λ _ s', heap_ok s' ∅).
Proof.
  intros (Hm & Hb & Hh & Hc). unfold kmalloc_init. eapply wp_mono.
  - apply (wp_for_range (λ i s', ∃ cs, s' = set_caches cs s ∧ alen cs = NUM_SIZE_CLASSES ∧
      ∀ c, 0 <= c < i → object_size (aat cs c) = csize c ∧ ∀ k, list_head k (aat cs c) = 0)).
    + exists (caches s). split; [by destruct s|]. split; [done|lia].
    + intros i s' Hi (cs & -> & Hl & Hcs). wp_step.
      assert (is_Some (SIZE_CLASSES !! Z.to_nat i)) as [sz Hsz].
      { apply lookup_lt_is_Some. unfold NUM_SIZE_CLASSES in Hi. cbn. lia. }
      eapply wp_of_opt; [exact Hsz|]. unfold upd_cache. do 2 wp_step.
      apply wp_ld; [cbn; lia|]. apply wp_st; [cbn; lia|]. cbn. eexists. split; [done|]. split; [done|].
      intros c Hc'. rewrite aat_aput. case_decide as E; [|apply Hcs; lia]. subst c. cbn.
      split; [unfold csize; by rewrite Hsz|]. by intros [].
  - intros [] s' (cs & -> & Hl & Hcs). change (Z.max 0 NUM_SIZE_CLASSES) with NUM_SIZE_CLASSES in Hcs.
    split; [|intros p c k F; by rewrite lookup_empty]. split.
    + rewrite dom_empty_L. exact Hm.
    + split; [intros p; by rewrite dom_empty_L|by intros ?|by intros ?|]. intros c k Hc'. exists [].
      split; [constructor|]. split; [apply Hcs, Hc'|]. intros a. split; [by intros ?%not_elem_of_nil|].
      intros (p & F & _ & E). by rewrite lookup_empty in E.
    + cbn [heap_va_bitmap set_caches]. by rewrite Hb.
    + intros j Hj. cbn [heap_va_bitmap set_caches]. rewrite Hb, lookup_empty. symmetry. unfold bit, aat, mk_arr. cbn [acells adef].
      rewrite lookup_empty. cbn [default]. rewrite Z.bits_0. done.
    + cbn. by rewrite Hh.
    + exact Hl.
    + intros c Hc'. by apply Hcs.
Qed.

(** *** One call *)

(** The bytes of the heap. *)
Definition contents (s : H) : Z → Z := byte_of (word s).

Definition served (s : H) (L : blocks) (c : call) (r : Z) (s' : H) : Prop :=
  ∃ own', heap_ok s' own' ∧ covers own' (after L c r) ∧ promised L (contents s) c r (contents s').

Section step.
Context (s : H) (own : gmap Z owner) (L : blocks).
Hypothesis (Hok : heap_ok s own) (Hcov : covers own L).

Lemma same_words s' a m n :
  block own a m → n <= m → (∀ x, a <= x < a + m → x mod 4 = 0 → word s' x = word s x) → same a n (contents s) (contents s').
Proof.
  intros Hb Hn Hw x Hx. destruct (block_size _ _ _ _ _ (hc_shape _ _ (proj1 Hok)) Hb) as (_ & Ha & _).
  unfold contents, byte_of. rewrite Hw; [done|lia|lia].
Qed.

Lemma kept_same s' a n : kept own s s' → L !! a = Some n → same a n (contents s) (contents s').
Proof. intros Hk Ha. destruct (Hcov a n Ha) as (_ & m & Hm & Hb). eapply same_words; [done|done|]. intros x. by apply Hk. Qed.

Lemma covers_none own' a : covers own' L → (∀ m, ¬ block own' a m) → L !! a = None.
Proof. intros Hc Hn. destruct (L !! a) as [n|] eqn:E; [|done]. destruct (Hc a n E) as (_ & m & _ & Hb). by destruct (Hn m). Qed.

Lemma covers_sub own' L' : covers own L → (∀ a n, L' !! a = Some n → L !! a = Some n ∧ ∀ m, block own a m → block own' a m) → covers own' L'.
Proof. intros Hc Hs a n Ha. destruct (Hs a n Ha) as [H1 H2]. destruct (Hc a n H1) as (? & m & ? & ?). split; [done|]. exists m. auto. Qed.

Lemma covers_add own' L' r k n :
  covers own' L' → block own' r k → 0 <= n <= k → covers own' (<[r := n]> L').
Proof.
  intros Hc Hb Hn a m [[-> ->]|[Hne Ha]]%lookup_insert_Some; [|by apply Hc]. split; [lia|]. exists k. split; [lia|done].
Qed.

Lemma alloc_covers size n zero r s' own' :
  allocated own s size zero r own' s' → 0 <= n <= size → covers own' (add r n L).
Proof.
  intros (_ & Hr) Hn. unfold add. destruct Hr as [[-> ->]|(Hr & k & Hk & Hb & _)]; [done|]. rewrite (proj2 (Z.eqb_neq r 0)) by done.
  eapply covers_add; [|by apply Hb; right|lia]. eapply covers_sub; [done|]. intros a m Ha. split; [done|]. intros m' Hm. apply Hb. by left.
Qed.

Lemma alloc_fresh size zero r s' own' : allocated own s size zero r own' s' → fresh L r.
Proof. intros (_ & [[-> _]|(_ & k & _ & _ & Hn & _)]) Hr; [done|]. by eapply covers_none. Qed.

Lemma alloc_zeroed size r s' own' : heap_ok s' own' → allocated own s size true r own' s' → zeroed r size (contents s').
Proof.
  intros Hok' (_ & [[-> _]|(_ & k & Hk & Hb & _ & Hz)]) Hr x Hx; [done|].
  assert (block own' r k) as Hbr by (apply Hb; by right). destruct (block_size _ _ _ _ _ (hc_shape _ _ (proj1 Hok')) Hbr) as (_ & Ha & _).
  unfold contents, byte_of. rewrite Hz; [|done|lia|lia]. rewrite Z.div_0_l; [done|]. apply Z.pow_nonzero; lia.
Qed.

Lemma alloc_served c size zero r s' own' :
  heap_ok s' own' → allocated own s size zero r own' s' → 0 <= size → after L c r = add r size L → result_ok L (contents s) c r (contents s') →
  served s L c r s'.
Proof.
  intros Hok' Ha Hs Ea Hr. exists own'. split; [done|]. split; [rewrite Ea; eapply alloc_covers; [done|lia]|].
  split; [|done]. intros a n Hn _. apply kept_same; [apply Ha|done].
Qed.

Lemma wp_serve_free a :
  a = 0 ∨ is_Some (L !! a) →
  wp (kfree a) s (λ _ s', ∃ own', heap_ok s' own' ∧ covers own' (delete a L) ∧
    ∀ b n, L !! b = Some n → b ≠ a → same b n (contents s) (contents s')).
Proof.
  intros Ha. destruct (decide (a = 0)) as [->|Hnz].
  - unfold kfree. change (0 =? 0) with true. cbn iota. wp_step. exists own. split; [done|]. split; [|done].
    eapply covers_sub; [done|]. by intros b n [_ Hb]%lookup_delete_Some.
  - destruct Ha as [|[n Ha]]; [done|]. destruct (Hcov a n Ha) as (_ & m & Hm & Hb).
    eapply wp_mono; [by eapply wp_kfree|]. intros [] s' (own' & Hok' & Hb' & K'). exists own'. split; [done|]. split.
    + eapply covers_sub; [done|]. intros b k [Hne Hbk]%lookup_delete_Some. split; [done|]. intros m' Hm'. by apply Hb'.
    + intros b k Hbk Hne. destruct (Hcov b k Hbk) as (_ & m' & Hm' & Hbm). eapply same_words; [done|done|].
      intros x. apply K'. by apply Hb'.
Qed.
End step.

Lemma no_null s own L : heap_ok s own → covers own L → L !! 0 = None.
Proof. intros [C _] Hc. eapply covers_none; [done|]. intros m Hb. destruct (block_size _ _ _ _ _ (hc_shape _ _ C) Hb). lia. Qed.

Lemma resized_served s own L a k m n r s' own' :
  heap_ok s own → covers own L → L !! a = Some k → k <= m → block own a m → 0 < n →
  heap_ok s' own' → resized own s a m n r own' s' → served s L (Realloc a n) r s'.
Proof.
  intros Hok Hcov Ha Hk Hb Hn Hok' [Hoth Hr]. exists own'. split; [done|].
  assert (∀ b j, L !! b = Some j → ¬ touches (Realloc a n) b j → same b j (contents s) (contents s')) as Hun.
  { intros b j Hbj Hne. cbn in Hne. destruct (Hcov b j Hbj) as (_ & m' & Hm' & Hbm). eapply same_words; [done|done|done|].
    intros x. by apply Hoth. }
  cbn [after]. rewrite (proj2 (Z.eqb_neq n 0)) by lia. unfold promised. cbn [result_ok].
  destruct Hr as [(-> & -> & Hkept)|(Hr & j & Hj & Hbl & Hnew & Hpre)].
  - change (0 =? 0) with true. cbn iota. split; [done|]. split; [done|]. split; [by intros ?|]. intros q Hq _. by eapply kept_same.
  - rewrite (proj2 (Z.eqb_neq r 0)) by done. split; [|split; [done|split]].
    + eapply covers_add; [|by apply Hbl; right|lia]. eapply covers_sub; [done|].
      intros b i [Hne Hbi]%lookup_delete_Some. split; [done|]. intros m' Hm'. apply Hbl. by left.
    + intros _. destruct (decide (r = a)) as [->|Hne]; [by rewrite lookup_delete_eq|]. rewrite lookup_delete_ne by done.
      eapply covers_none; [done|]. intros q. by apply Hnew.
    + intros q Hq _ i Hi. rewrite Ha in Hq. injection Hq as ->. apply Hpre. lia.
Qed.

Lemma wp_serve_realloc s own L a n :
  heap_ok s own → covers own L → a = 0 ∨ is_Some (L !! a) → size_ok n → wp (krealloc a n) s (served s L (Realloc a n)).
Proof.
  intros Hok Hcov Ha [Hn1 Hn2]. pose proof (no_null _ _ _ Hok Hcov) as H0.
  destruct (decide (a = 0)) as [->|Hnz]; [|destruct (decide (n = 0)) as [->|Hn0]].
  - unfold krealloc, kmalloc. change (0 =? 0) with true. cbn iota. eapply wp_mono; [by eapply wp_kmalloc_internal|].
    intros r s' (own' & Hok' & Hal). pose proof (alloc_fresh s own L Hcov _ _ _ _ _ Hal) as Hf.
    eapply alloc_served; [done|done|done|done|lia| |].
    + cbn [after]. rewrite delete_id by done. unfold add. by destruct (r =? 0), (n =? 0).
    + cbn [result_ok]. rewrite delete_id by done. split; [done|]. intros m Hm. by rewrite H0 in Hm.
  - unfold krealloc. rewrite (proj2 (Z.eqb_neq a 0)) by done. change (0 =? 0) with true. cbn iota. wp_step.
    eapply wp_mono; [by eapply wp_serve_free|]. intros [] s' (own' & Hok' & Hc' & Hs'). wp_step. exists own'.
    split; [done|]. split; [done|]. split; [done|]. split; [by intros ?|]. by intros m _ ?.
  - destruct Ha as [|[k Ha]]; [done|]. destruct (Hcov a k Ha) as (_ & m & Hm & Hb).
    eapply wp_mono; [eapply wp_krealloc; [done|done|lia|done]|]. intros r s' (own' & Hok' & Hr).
    eapply resized_served; (done || lia).
Qed.

Lemma wp_serve_write s own L x v :
  heap_ok s own → covers own L → permitted L (Write x v) → wp (exec (Write x v)) s (served s L (Write x v)).
Proof.
  intros Hok Hcov (Hv & H4 & a & n & Ha & Hx). pose proof Hok as [C Hk]. pose proof (hc_shape _ _ C) as Sh.
  destruct (Hcov a n Ha) as (_ & m & Hm & Hb). destruct (block_size _ _ _ _ _ Sh Hb) as (_ & Ha4 & _).
  cbn [exec]. wp_step. eapply wp_store; [by apply core_mid|eapply block_word; [exact Sh|exact Hb|lia|done]|done|]. intros s' M. wp_step.
  assert (∀ b j y, L !! b = Some j → b <= y < b + j → word s' (y - y mod 4) = <[x := v]> (word s) (y - y mod 4)) as Hw.
  { intros b j y Hbj Hy. destruct (Hcov b j Hbj) as (_ & m' & Hm' & Hbm). destruct (block_size _ _ _ _ _ Sh Hbm) as (_ & Hb4 & _).
    apply (md_words _ _ _ _ _ M). eapply block_word; [exact Sh|exact Hbm|lia|lia]. }
  exists own. split; [split; [|done]|split; [done|split]].
  - eapply mid_block; [exact C|exact Hb|exact M|]. intros y Hy. rewrite fn_lookup_insert_ne by lia. done.
  - intros b j Hbj Hnt y Hy. cbn in Hnt. unfold contents, byte_of. rewrite (Hw b j y) by done. rewrite fn_lookup_insert_ne; [done|].
    intros E. destruct (Hcov b j Hbj) as (_ & m' & Hm' & Hbm). destruct (block_size _ _ _ _ _ Sh Hbm) as (_ & Hb4 & _). lia.
  - intros b j y Hbj _ Hy. unfold contents, byte_of. rewrite (Hw b j y) by done. case_decide as E.
    + by rewrite E, fn_lookup_insert.
    + by rewrite fn_lookup_insert_ne.
Qed.

Lemma wp_serve_calloc s own L k n :
  heap_ok s own → covers own L → permitted L (Calloc k n) → wp (kcalloc k n) s (served s L (Calloc k n)).
Proof.
  intros Hok Hcov (Hk & Hn & Hs). unfold kcalloc, SIZE_MAX, is_u32 in *.
  assert (4294967296 <= k * n ↔ k ≠ 0 ∧ 4294967295 / k < n) as Hov.
  { destruct (decide (k = 0)) as [->|Hk0]; [lia|]. split.
    - intros Hb. split; [done|]. apply Z.div_lt_upper_bound; lia.
    - intros [_ Hb]. pose proof (Z.mul_succ_div_gt 4294967295 k). nia. }
  wp_step.
  - unfold count_failed. do 3 wp_step. exists own. split; [by apply heap_ok_stats|]. split; [done|].
    split; [by intros a m _ _ x|]. split; [by intros ?|]. split; [by intros ?|]. done.
  - assert (k * n < 4294967296) as Hlt by blia. specialize (Hs Hlt). destruct Hs. rewrite u32_small by (unfold is_u32; lia).
    eapply wp_mono; [by eapply wp_kmalloc_internal|]. intros r s' (own' & Hok' & Hal).
    eapply alloc_served; try done. split; [by eapply alloc_fresh|]. split; [by eapply alloc_zeroed|]. intros ?. lia.
Qed.

Lemma wp_serve s own L c : heap_ok s own → covers own L → permitted L c → wp (exec c) s (served s L c).
Proof.
  intros Hok Hcov Hp. destruct c as [n|n|k n|a|a n|x v]; cbn [exec].
  - destruct Hp. eapply wp_mono; [by eapply wp_kmalloc_internal|]. intros r s' (own' & Hok' & Hal).
    eapply alloc_served; try done. by eapply alloc_fresh.
  - destruct Hp. eapply wp_mono; [by eapply wp_kmalloc_internal|]. intros r s' (own' & Hok' & Hal).
    eapply alloc_served; try done. split; [by eapply alloc_fresh|by eapply alloc_zeroed].
  - by apply wp_serve_calloc with own.
  - wp_step. eapply wp_mono; [by eapply wp_serve_free|]. intros [] s' (own' & Hok' & Hc' & Hs'). wp_step. by exists own'.
  - destruct Hp. by eapply wp_serve_realloc.
  - by eapply wp_serve_write.
Qed.

Lemma history_ok s L : history s L → ∃ own, heap_ok s own ∧ covers own L.
Proof.
  induction 1 as [s0 s Hb E|s L c r s' _ (own & Hok & Hcov) Hp E].
  - exists ∅. split; [|by intros a n]. by destruct (wp_run _ _ _ _ _ (wp_kmalloc_init s0 Hb) E).
  - destruct (wp_run _ _ _ _ _ (wp_serve s own L c Hok Hcov Hp) E) as (own' & ? & ? & _). by exists own'.
Qed.

Lemma block_in_heap s own a m : heap_ok s own → block own a m →
  a mod 4 = 0 ∧ KERNEL_HEAP_START <= a ∧ a + m <= KERNEL_HEAP_START + KERNEL_HEAP_SIZE.
Proof.
  intros [C _] Hb. pose proof (hc_shape _ _ C) as Sh. destruct (block_size _ _ _ _ _ Sh Hb) as (Hm & H4 & Hm4 & _).
  destruct (block_word _ _ _ _ _ a Sh Hb) as [_ H1]; [lia|done|].
  destruct (block_word _ _ _ _ _ (a + m - 4) Sh Hb) as [_ H2]; [lia|lia|].
  apply (sp_range _ _ _ Sh) in H1, H2. unfold heap_page, PAGE_SIZE in H1, H2. change HEAP_BASE with 917504 in *.
  change HEAP_PAGES with 65536 in *. change KERNEL_HEAP_START with 3758096384. change KERNEL_HEAP_SIZE with 268435456. lia.
Qed.

(* ------------------------------------------------------------------ *)
(** ** Theorems *)

(** C4: whatever calls of the kernel heap's clients came since
    [kmalloc_init], as long as they free and resize only blocks that they
    have, write only inside them and ask for less than 2^32 - 15 bytes at a
    time: the live blocks are aligned, lie in the heap's window and are
    pairwise disjoint, and every further such call returns. *)
Theorem kmalloc_history_safe s L : history s L →
  (∀ a n, L !! a = Some n → a mod 4 = 0 ∧ KERNEL_HEAP_START <= a ∧ a + n <= KERNEL_HEAP_START + KERNEL_HEAP_SIZE) ∧
  (∀ a n b m, L !! a = Some n → L !! b = Some m → a ≠ b → a + n <= b ∨ b + m <= a) ∧
  (∀ c, permitted L c → ∃ r s', exec c s = Some (r, s')).
Proof.
  intros (own & Hok & Hcov)%history_ok. split; [|split].
  - intros a n Ha. destruct (Hcov a n Ha) as (Hn & m & Hm & Hb). destruct (block_in_heap s own a m) as (? & ? & ?); [done..|lia].
  - intros a n b m Ha Hb Hne. destruct (Hcov a n Ha) as (Hn & n' & Hn' & Ba), (Hcov b m Hb) as (Hm & m' & Hm' & Bb).
    pose proof (hc_shape _ _ (proj1 Hok)) as Sh. destruct (block_size _ _ _ _ _ Sh Ba), (block_size _ _ _ _ _ Sh Bb).
    destruct (decide (a <= b)) as [Hab|Hab].
    + left. destruct (decide (a + n' <= b)); [lia|]. by destruct (blocks_apart _ _ _ _ _ _ _ b Sh Ba Bb); [lia|lia|].
    + right. destruct (decide (b + m' <= a)); [lia|]. by destruct (blocks_apart _ _ _ _ _ _ _ a Sh Ba Bb); [lia|lia|].
  - intros c Hc. destruct (wp_elim _ _ _ (wp_serve s own L c Hok Hcov Hc)) as (r & s' & E & _). eauto.
Qed.

(** C5: each call keeps its promise. It changes no byte of a block that it is
    not about; [kmalloc] and its variants return null or a block that is none
    of the live ones, which [kzalloc] and [kcalloc] have cleared, [kcalloc]
    only if the product does not wrap; [krealloc] returns a block that begins
    with the old contents, or null with the old block as it was; and an
    assignment changes its own word and no other. *)
Theorem kmalloc_calls_promised s L c r s' :
  history s L → permitted L c → exec c s = Some (r, s') → promised L (contents s) c r (contents s').
Proof.
  intros (own & Hok & Hcov)%history_ok Hc E. by destruct (wp_run _ _ _ _ _ (wp_serve s own L c Hok Hcov Hc) E) as (own' & _ & _ & Hp).
Qed.

(** A request for more than the heap's window fails and is counted, up to
    the sizes whose sum with the header wraps around 32 bits: from 2^32 - 15
    bytes on the code serves the request as one for 4080 bytes. *)
Theorem kmalloc_size_limit size zero s :
  is_u32 size → KERNEL_HEAP_SIZE - sizeof_large_alloc_hdr_t < size →
  kmalloc_internal size zero s =
    if size <? 4294967281 then Some (0, set_stats (Stats (total_allocated (stats s)) (total_freed (stats s)) (current_usage (stats s))
                                                         (u32 (failed_allocations (stats s) + 1))) s)
    else kmalloc_internal 4080 zero s.
Proof.
  intros Hu Hs. unfold is_u32, KERNEL_HEAP_SIZE, sizeof_large_alloc_hdr_t in *. unfold kmalloc_internal.
  rewrite (proj2 (Z.eqb_neq size 0)), (proj2 (Z.ltb_lt 2048 size)) by lia. change (4080 =? 0) with false. change (2048 <? 4080) with true.
  cbn iota. unfold kmalloc_large, sizeof_large_alloc_hdr_t, PAGE_SIZE. destruct (Z.ltb_spec size 4294967281) as [Hlt|Hge].
  - set (n := u32 _ / 4096). assert (n = 0 ∨ 65536 < n) as Hn by (unfold n, u32; change (2 ^ 32) with 4294967296; lia).
    cbv zeta. unfold heap_va_alloc. change HEAP_PAGES with 65536.
    replace ((n =? 0) || (65536 <? n)) with true by (symmetry; blia). done.
  - replace (u32 (size + 16 + 4096 - 1)) with (size + 4111 - 4294967296) by (unfold u32; lia).
    replace ((size + 4111 - 4294967296) / 4096) with 1 by lia. done.
Qed.
End client.

(* ------------------------------------------------------------------ *)
(** ** Witnesses *)

(** The heap in an empty kernel address space. *)
Definition heap_vars {K} (m : K) : kheap K :=
  Kheap m (mk_arr (HEAP_PAGES / 8) 0) 0 (mk_arr NUM_SIZE_CLASSES (Cache 0 0 0 0 0)) (Stats 0 0 0 0).

Definition demo_heap : option (arch_vm_t * kheap (vmst pmm)) :=
  match hal_vm_empty_arch_vm_create demo_memory with
  | Some (Some vm, m) => Some (vm, heap_vars m)
  | _ => None
  end.

(** A small block, a large one and the small one resized. *)
Definition demo_calls (vm : arch_vm_t) : M (kheap (vmst pmm)) (Z * Z * Z) :=
  let KM := paged_kernel_memory vm in
  kmalloc_init ;; a ← exec (Malloc 100); b ← exec (Zalloc 5000); c ← exec (Realloc a 300); ret (a, b, c).

Lemma demo_calls_run : from_option (λ '(vm, s), from_option (λ '(a, b, c, _),
   negb (a =? 0) && negb (b =? 0) && negb (c =? 0) && negb (a =? b) && negb (b =? c)) false (demo_calls vm s)) false demo_heap = true.
Proof. vm_compute. reflexivity. Qed.

Lemma demo_booted vm s : demo_heap = Some (vm, s) → @booted _ (paged_kernel_memory vm) s.
Proof.
  unfold demo_heap. destruct (wp_elim _ _ _ (wp_empty_create _ demo_memory_ok)) as (r & m & E & Hr). rewrite E.
  destruct r as [vm'|]; [|discriminate]. intros [= -> <-]. destruct Hr as [V _]. clear E.
  split; [|split; [reflexivity|split; reflexivity]].
  split; [exact V|..]; intros p; [| |intros q]; intros Hp; by apply not_elem_of_empty in Hp.
Qed.

Lemma demo_history : ∃ vm s a b c, b ≠ 0 ∧ c ≠ 0 ∧ b ≠ c ∧ a ≠ b ∧
  @history _ (paged_kernel_memory vm) s (<[c := 300]> (delete a (<[b := 5000]> (<[a := 100]> ∅)))).
Proof.
  pose proof demo_calls_run as Hx. pose proof demo_booted as Hb. destruct demo_heap as [[vm s]|]; [|discriminate Hx].
  specialize (Hb vm s eq_refl). cbn [from_option] in Hx. exists vm. set (KM := paged_kernel_memory vm) in *.
  unfold demo_calls in Hx. cbv zeta in Hx. fold KM in Hx. unfold bind at 1 in Hx.
  destruct (kmalloc_init s) as [[[] s1]|] eqn:E1; [|discriminate Hx]. unfold bind at 1 in Hx.
  destruct (exec (Malloc 100) s1) as [[a s2]|] eqn:E2; [|discriminate Hx]. unfold bind at 1 in Hx.
  destruct (exec (Zalloc 5000) s2) as [[b s3]|] eqn:E3; [|discriminate Hx]. unfold bind at 1 in Hx.
  destruct (exec (Realloc a 300) s3) as [[c s4]|] eqn:E4; [|discriminate Hx]. cbn [from_option ret] in Hx.
  assert (a ≠ 0 ∧ b ≠ 0 ∧ c ≠ 0 ∧ a ≠ b ∧ b ≠ c) as (Ha & Hb0 & Hc & Hab & Hbc) by blia. clear Hx.
  exists s4, a, b, c. split_and!; try done.
  pose proof (h_boot _ _ Hb E1) as H1.
  pose proof (h_call _ _ (Malloc 100) _ _ H1 ltac:(cbn; unfold size_ok; lia) E2) as H2. cbn [after] in H2. unfold add in H2. rewrite (proj2 (Z.eqb_neq a 0)) in H2 by done.
  pose proof (h_call _ _ (Zalloc 5000) _ _ H2 ltac:(cbn; unfold size_ok; lia) E3) as H3. cbn [after] in H3. unfold add in H3. rewrite (proj2 (Z.eqb_neq b 0)) in H3 by done.
  epose proof (h_call _ _ _ _ _ H3 _ E4) as H4. cbn [after] in H4. rewrite (proj2 (Z.eqb_neq c 0)) in H4 by done. exact H4.
  Unshelve. split; [right|unfold size_ok; lia]. rewrite lookup_insert_ne, lookup_insert_eq by done. done.
Qed.

Lemma kmalloc_history_safe_witness : ∃ vm s L b c, @history _ (paged_kernel_memory vm) s L ∧ b ≠ c ∧ L !! b = Some 5000 ∧ L !! c = Some 300 ∧
  (b + 5000 <= c ∨ c + 300 <= b) ∧ ∃ r s', @exec _ (paged_kernel_memory vm) (Free b) s = Some (r, s').
Proof.
  destruct demo_history as (vm & s & a & b & c & _ & _ & Hbc & Hab & Hh).
  destruct (@kmalloc_history_safe _ (paged_kernel_memory vm) _ _ Hh) as (_ & Hd & Hn). do 5 eexists. split; [exact Hh|].
  assert (∀ z, <[c := 300]> (delete a (<[b := 5000]> z)) !! b = Some 5000) as Eb
    by (intros z; by rewrite lookup_insert_ne, lookup_delete_ne, lookup_insert_eq by done).
  split; [exact Hbc|]. split; [apply Eb|]. split; [apply lookup_insert_eq|]. split.
  - apply Hd; [apply Eb|apply lookup_insert_eq|exact Hbc].
  - apply Hn. right. eexists. apply Eb.
Defined.

Lemma kmalloc_calls_promised_witness : ∃ vm s s' L b c r, @history _ (paged_kernel_memory vm) s L ∧ L !! c = Some 300 ∧
  @exec _ (paged_kernel_memory vm) (Free b) s = Some (r, s') ∧
  ∀ x, c <= x < c + 300 → @contents _ (paged_kernel_memory vm) s' x = @contents _ (paged_kernel_memory vm) s x.
Proof.
  destruct demo_history as (vm & s & a & b & c & _ & _ & Hbc & Hab & Hh).
  destruct (history_ok (KM := paged_kernel_memory vm) _ _ Hh) as (own & Hok & Hcov).
  set (L := <[c := 300]> _) in *. assert (permitted L (Free b)) as Hp.
  { right. exists 5000. unfold L. by rewrite lookup_insert_ne, lookup_delete_ne, lookup_insert_eq by done. }
  destruct (wp_elim _ _ _ (wp_serve _ own L (Free b) Hok Hcov Hp)) as (r & s' & E & _).
  exists vm, s, s', L, b, c, r. split; [exact Hh|]. split; [apply lookup_insert_eq|]. split; [exact E|].
  apply (@kmalloc_calls_promised _ (paged_kernel_memory vm) s L (Free b) r s' Hh Hp E); [apply lookup_insert_eq|]. intros ->. by apply Hbc.
Defined.

Lemma kmalloc_size_limit_witness : ∃ vm s,
  @kmalloc_internal _ (paged_kernel_memory vm) 268435441 false s = Some (0, set_stats (Stats 0 0 0 1) s) ∧
  @kmalloc_internal _ (paged_kernel_memory vm) 4294967295 true s = @kmalloc_internal _ (paged_kernel_memory vm) 4080 true s.
Proof.
  exists (ArchVm 0 0), (heap_vars demo_memory). split.
  - exact (@kmalloc_size_limit _ (paged_kernel_memory (ArchVm 0 0)) 268435441 false (heap_vars demo_memory) ltac:(done) ltac:(done)).
  - exact (@kmalloc_size_limit _ (paged_kernel_memory (ArchVm 0 0)) 4294967295 true (heap_vars demo_memory) ltac:(done) ltac:(done)).
Defined.
