(* ===== verification/Strings.v ===== *)
(** * The kernel's string functions

    [kernel/src/klib/string.c] and [kernel/src/klib/ctype.c] over a byte
    memory: a finite map from addresses to bytes, in which reading or writing
    an unmapped address is a fault. A loop that walks a string visits a new
    mapped address at every turn, so one more turn than there are bytes is
    always enough fuel. *)

From S2P Require Import Prelude.

(* ------------------------------------------------------------------ *)
(** ** Memory *)

Notation mem := (gmap Z Z).

Definition rd (p : Z) : M mem Z := λ m,
  match m !! p with Some b => Some (b, m) | None => None end.
Definition wr (p b : Z) : M mem unit := λ m,
  match m !! p with Some _ => Some (tt, <[p := u8 b]> m) | None => None end.

Definition mem_fuel (m : mem) : nat := S (size m).

(** A C loop over loop variables [a], bounded by the memory. *)
Definition walk {A B} (step : A → M mem (A + B)) (a : A) : M mem B :=
  n ← gets mem_fuel; while_n n step a.

(* ------------------------------------------------------------------ *)
(** ** Searching and measuring *)

Definition strrchr (str chr : Z) : M mem Z :=
  if str =? 0 then ret 0
  else walk (λ '(str, last),
    c ← rd str;
    if c =? 0 then ret (inr last)
    else ret (inl (str + 1, if c =? chr then str else last))) (str, 0).

Definition strchr (str chr : Z) : M mem Z :=
  if str =? 0 then ret 0
  else walk (λ str,
    c ← rd str;
    if c =? 0 then ret (inr 0)
    else if c =? chr then ret (inr str) else ret (inl (str + 1))) str.

Definition strlen (str : Z) : M mem Z :=
  walk (λ '(str, len),
    c ← rd str;
    if c =? 0 then ret (inr len) else ret (inl (str + 1, u32 (len + 1)))) (str, 0).

Definition strcspn (s reject : Z) : M mem Z :=
  walk (λ count,
    c ← rd (s + count);
    if c =? 0 then ret (inr count)
    else
      hit ← walk (λ i,
        r ← rd (reject + i);
        if r =? 0 then ret (inr false)
        else if c =? r then ret (inr true) else ret (inl (i + 1))) 0;
      if hit : bool then ret (inr count) else ret (inl (u32 (count + 1)))) 0.

(* ------------------------------------------------------------------ *)
(** ** Comparing *)

Definition strcmp (a b : Z) : M mem Z :=
  walk (λ '(a, b),
    ca ← rd a;
    if ca =? 0 then cb ← rd b; ret (inr (ca - cb))
    else
      cb ← rd b;
      if ca =? cb then ret (inl (a + 1, b + 1)) else ret (inr (ca - cb))) (a, b).

(** [while (n-- && *a && *a == *b)]: the counter is decremented by the failing
    test as well, and wraps when it was zero. *)
Definition strncmp (a b n : Z) : M mem Z :=
  '(a, b, n) ← walk (λ '(a, b, n),
    let n' := u32 (n - 1) in
    if n =? 0 then ret (inr (a, b, n'))
    else
      ca ← rd a;
      if ca =? 0 then ret (inr (a, b, n'))
      else
        cb ← rd b;
        if ca =? cb then ret (inl (a + 1, b + 1, n')) else ret (inr (a, b, n'))) (a, b, n);
  if n =? 4294967295 then ret 0
  else ca ← rd a; cb ← rd b; ret (ca - cb).

Definition starts_with (str prefix : Z) : M mem bool :=
  walk (λ '(str, prefix),
    p ← rd prefix;
    if p =? 0 then ret (inr true)
    else
      c ← rd str;
      if c =? p then ret (inl (str + 1, prefix + 1)) else ret (inr false)) (str, prefix).

Definition memcmp (ptr1 ptr2 num : Z) : M mem Z :=
  r ← scan_range 0 num (λ i,
        a ← rd (ptr1 + i); b ← rd (ptr2 + i);
        ret (if a =? b then None else Some 1));
  ret (default 0 r).

(* ------------------------------------------------------------------ *)
(** ** Copying *)

Definition strcpy (dst src : Z) : M mem Z :=
  if dst =? 0 then ret 0
  else if src =? 0 then wr dst 0 ;; ret dst
  else
    d ← walk (λ '(dst, src),
      c ← rd src;
      if c =? 0 then ret (inr dst)
      else wr dst c ;; ret (inl (dst + 1, src + 1))) (dst, src);
    wr d 0 ;; ret dst.

(** [while (n--) *dst++ = '\0'] *)
Definition pad (dst n : Z) : M mem unit := for_range 0 n (λ i, wr (dst + i) 0).

Definition strncpy (dst src n : Z) : M mem Z :=
  if dst =? 0 then ret 0
  else if src =? 0 then pad dst n ;; ret dst
  else
    '(d, n) ← walk (λ '(d, src, n),
      if n =? 0 then ret (inr (d, n))
      else
        c ← rd src;
        if c =? 0 then ret (inr (d, n))
        else wr d c ;; ret (inl (d + 1, src + 1, n - 1))) (dst, src, n);
    pad d n ;;
    ret dst.

Definition memcpy (dst src num : Z) : M mem Z :=
  for_range 0 num (λ i, b ← rd (src + i); wr (dst + i) b) ;; ret dst.

Definition memset (ptr value num : Z) : M mem Z :=
  for_range 0 num (λ i, wr (ptr + i) value) ;; ret ptr.

(** [kmalloc] is passed in. *)
Definition strdup (kmalloc : Z → M mem Z) (s : Z) : M mem Z :=
  n ← strlen s;
  let len := u32 (n + 1) in
  new_str ← kmalloc len;
  when (negb (new_str =? 0)) (strcpy new_str s ;; ret tt) ;;
  ret new_str.

(** Everything from the first newline or carriage return on is cut off. *)
Definition trim_newline (str : Z) : M mem unit :=
  if str =? 0 then ret tt
  else
    p ← walk (λ p,
      c ← rd p;
      if (c =? 0) || (c =? 10) || (c =? 13) then ret (inr p) else ret (inl (p + 1))) str;
    wr p 0.

(* ------------------------------------------------------------------ *)
(** ** Tokens *)

(** [while ( *p && strchr(delim, *p)) p++], and with the test negated. *)
Definition skip_while (isdelim : bool) (delim p : Z) : M mem Z :=
  walk (λ p,
    c ← rd p;
    if c =? 0 then ret (inr p)
    else
      r ← strchr delim c;
      if Bool.eqb (negb (r =? 0)) isdelim then ret (inl (p + 1)) else ret (inr p)) p.

(** Returns the token and the new value of [*saveptr]. *)
Definition strtok_r (str delim saveptr : Z) : M mem (Z * Z) :=
  let str := if str =? 0 then saveptr else str in
  str ← skip_while true delim str;
  c ← rd str;
  if c =? 0 then ret (0, str)
  else
    e ← skip_while false delim str;
    ce ← rd e;
    if negb (ce =? 0) then wr e 0 ;; ret (str, e + 1) else ret (str, e).

(** Returns the token and the new value of the static [saved]. *)
Definition strtok (str delim saved : Z) : M mem (Z * Z) :=
  let saved := if negb (str =? 0) then str else saved in
  if saved =? 0 then ret (0, saved)
  else
    token_start ← skip_while true delim saved;
    c ← rd token_start;
    if c =? 0 then ret (0, token_start)
    else
      e ← skip_while false delim token_start;
      ce ← rd e;
      if negb (ce =? 0) then wr e 0 ;; ret (token_start, e + 1) else ret (token_start, 0).

(* ------------------------------------------------------------------ *)
(** ** Numbers *)

(** The digits go to [tmp] from the least significant one; a 32-bit value has
    ten at most, [tmp] holds sixteen. *)
Definition itoa (value str : Z) : M mem unit :=
  if value =? 0 then wr str 48 ;; wr (str + 1) 0
  else
    tmp ← while_n 17 (λ '(value, tmp),
      if 0 <? value then
        assert_ (Z.of_nat (length tmp) <? 16) ;;
        ret (inl (value / 10, tmp ++ [48 + value mod 10]))
      else ret (inr tmp)) (value, []);
    let i := Z.of_nat (length tmp) in
    for_range 0 i (λ j, d ← of_opt (tmp !! Z.to_nat (i - 1 - j)); wr (str + j) d) ;;
    wr (str + i) 0.

(** Signed overflow is undefined in C: a fault. *)
Definition int_ok (z : Z) : bool := (-2147483648 <=? z) && (z <=? 2147483647).

Definition atoi (str : Z) : M mem Z :=
  str ← walk (λ p, c ← rd p;
                   if (c =? 32) || (c =? 9) then ret (inl (p + 1)) else ret (inr p)) str;
  c ← rd str;
  let sign := if c =? 45 then -1 else 1 in
  let str := if (c =? 45) || (c =? 43) then str + 1 else str in
  result ← walk (λ '(p, result),
    c ← rd p;
    if (48 <=? c) && (c <=? 57) then
      assert_ (int_ok (result * 10 + (c - 48))) ;;
      ret (inl (p + 1, result * 10 + (c - 48)))
    else ret (inr result)) (str, 0);
  ret (sign * result).

(** [ctype.c]; a [char] is signed. *)
Definition islower (chr : Z) : bool := (97 <=? chr) && (chr <=? 122).
Definition toupper (chr : Z) : Z := if islower chr then chr - 97 + 65 else chr.

(* ------------------------------------------------------------------ *)
(** ** Strings in memory *)

(** At [p] starts the NUL-terminated string [l]. *)
Fixpoint cstr (m : mem) (p : Z) (l : list Z) : Prop :=
  match l with
  | [] => m !! p = Some 0
  | c :: l => m !! p = Some c ∧ c ≠ 0 ∧ cstr m (p + 1) l
  end.

(** The bytes of [l] lie at [p]. *)
Fixpoint bytes_at (m : mem) (p : Z) (l : list Z) : Prop :=
  match l with
  | [] => True
  | c :: l => m !! p = Some c ∧ bytes_at m (p + 1) l
  end.

Lemma cstr_app m p l1 l2 :
  cstr m p (l1 ++ l2) ↔
  bytes_at m p l1 ∧ Forall (λ c, c ≠ 0) l1 ∧ cstr m (p + Z.of_nat (length l1)) l2.
Proof.
  revert p. induction l1 as [|c l1 IH]; intros p; simpl.
  - replace (p + Z.of_nat 0) with p by lia. split; [intros H; by split; [|split; [constructor|]]|tauto].
  - rewrite IH, Forall_cons.
    replace (p + Z.of_nat (S (length l1))) with (p + 1 + Z.of_nat (length l1)) by lia. tauto.
Qed.

Lemma bytes_at_lookup m p l i c :
  bytes_at m p l → l !! i = Some c → m !! (p + Z.of_nat i) = Some c.
Proof.
  revert p i. induction l as [|x l IH]; intros p [|i] Hb H; simplify_eq/=;
    destruct Hb as [H1 H2].
  - by replace (p + Z.of_nat 0) with p by lia.
  - replace (p + Z.of_nat (S i)) with (p + 1 + Z.of_nat i) by lia. by apply IH.
Qed.

Lemma bytes_at_app m p l1 l2 :
  bytes_at m p (l1 ++ l2) ↔ bytes_at m p l1 ∧ bytes_at m (p + Z.of_nat (length l1)) l2.
Proof.
  revert p. induction l1 as [|c l1 IH]; intros p; simpl.
  - replace (p + Z.of_nat 0) with p by lia. tauto.
  - rewrite IH.
    replace (p + Z.of_nat (S (length l1))) with (p + 1 + Z.of_nat (length l1)) by lia. tauto.
Qed.

(** A string is shorter than the memory it lies in. *)
Lemma bytes_at_size m p l : bytes_at m p l → (length l <= size m)%nat.
Proof.
  intros H. set (a := (λ i : nat, p + Z.of_nat i) <$> seq 0 (length l)).
  assert (length l = length a) as -> by (unfold a; by rewrite length_fmap, length_seq).
  rewrite <- (size_dom (D := gset Z) m), <- (size_list_to_set (C := gset Z) a).
  - apply subseteq_size. intros x [i [-> Hi%elem_of_seq]]%elem_of_list_to_set%list_elem_of_fmap.
    destruct (lookup_lt_is_Some_2 l i) as [c Hc]; [lia|].
    apply elem_of_dom. eexists. by eapply bytes_at_lookup.
  - apply NoDup_fmap_2; [intros i j ?; lia|apply NoDup_seq].
Qed.

Lemma cstr_bytes m p l : cstr m p l ↔ bytes_at m p (l ++ [0]) ∧ Forall (λ c, c ≠ 0) l.
Proof.
  rewrite <- (app_nil_r l) at 1. rewrite cstr_app, bytes_at_app. simpl. tauto.
Qed.

Lemma cstr_fuel m p l : cstr m p l → (length l < mem_fuel m)%nat.
Proof.
  intros [H _]%cstr_bytes. apply bytes_at_size in H. rewrite length_app in H.
  unfold mem_fuel. simpl in *. lia.
Qed.

Lemma bytes_at_insert m p l a v :
  a < p ∨ p + Z.of_nat (length l) <= a →
  bytes_at m p l → bytes_at (<[a := v]> m) p l.
Proof.
  revert p. induction l as [|c l IH]; intros p Ha; simpl in *; [done|].
  intros [H1 H2]. rewrite lookup_insert_ne by lia. split; [done|]. apply IH; [lia|done].
Qed.

Lemma cstr_insert m p l a v :
  a < p ∨ p + Z.of_nat (length l) < a → cstr m p l → cstr (<[a := v]> m) p l.
Proof.
  rewrite !cstr_bytes. intros Ha [H1 H2]. split; [|done].
  apply bytes_at_insert; [rewrite length_app; simpl; lia|done].
Qed.

Lemma wp_rd m p b (Q : Z → mem → Prop) : m !! p = Some b → Q b m → wp (rd p) m Q.
Proof. intros H HQ. unfold wp, rd. by rewrite H. Qed.

Lemma wp_wr m p b (Q : unit → mem → Prop) :
  is_Some (m !! p) → Q tt (<[p := u8 b]> m) → wp (wr p b) m Q.
Proof. intros [x H] HQ. unfold wp, wr. by rewrite H. Qed.

Lemma wp_walk {A B} (Inv : nat → A → mem → Prop) (Q : B → mem → Prop)
    (step : A → M mem (A + B)) k a m :
  Inv k a m → (k < mem_fuel m)%nat →
  (∀ k a s, Inv k a s → wp (step a) s (λ r s', match r with
     | inl a' => ∃ k', (k' < k)%nat ∧ Inv k' a' s'
     | inr b => Q b s' end)) →
  wp (walk step a) m Q.
Proof.
  intros. unfold walk. apply wp_bind, wp_gets. by eapply wp_while_n.
Qed.

(** The reading loops: at every turn the loop variables are those for the
    string's prefix seen so far. *)
Lemma wp_walk_str {A B} (f : list Z → A) (Q : B → mem → Prop)
    (step : A → M mem (A + B)) m p l a :
  cstr m p l → a = f [] →
  (∀ l1 l2, l = l1 ++ l2 → cstr m (p + Z.of_nat (length l1)) l2 →
    wp (step (f l1)) m (λ r m', match r with
      | inl a' => m' = m ∧ ∃ c l3, l2 = c :: l3 ∧ a' = f (l1 ++ [c])
      | inr b => Q b m' end)) →
  wp (walk step a) m Q.
Proof.
  intros Hc -> Hs.
  apply (wp_walk (λ k a m', m' = m ∧ ∃ l1 l2, l = l1 ++ l2 ∧ a = f l1 ∧ k = length l2) _ _
           (length l)); [|by eapply cstr_fuel|].
  - split; [done|]. by exists [], l.
  - intros k a m' (-> & l1 & l2 & -> & -> & ->).
    eapply wp_mono; [apply (Hs l1 l2 eq_refl); by apply cstr_app in Hc as (_ & _ & ?)|].
    intros [a'|b] m'; [|done]. intros (-> & c & l3 & -> & ->).
    exists (length l3). simpl. split; [lia|]. split; [done|].
    exists (l1 ++ [c]), l3. by rewrite <- app_assoc.
Qed.

(* ------------------------------------------------------------------ *)
(** ** Length, search and comparison *)

Lemma strlen_ok m p l :
  cstr m p l → Z.of_nat (length l) < 4294967296 →
  wp (strlen p) m (λ n m', n = Z.of_nat (length l) ∧ m' = m).
Proof.
  intros Hc Hn. unfold strlen.
  eapply (wp_walk_str (λ l1, (p + Z.of_nat (length l1), Z.of_nat (length l1)))); [done|..].
  { simpl. f_equal; lia. }
  intros l1 [|c l2] -> H; simpl in H.
  - apply wp_bind, wp_rd with 0; [done|]. simpl. apply wp_ret. by rewrite app_nil_r.
  - destruct H as (H1 & H2 & _). apply wp_bind, wp_rd with c; [done|].
    rewrite (proj2 (Z.eqb_neq _ _) H2). apply wp_ret. split; [done|].
    exists c, l2. split; [done|]. rewrite length_app in *. simpl in *.
    f_equal; [lia|]. unfold u32. rewrite Z.mod_small; lia.
Qed.

(** Where [strchr] points: to the first [c], or nowhere. *)
Fixpoint index_of (c : Z) (l : list Z) : option Z :=
  match l with
  | [] => None
  | x :: l => if x =? c then Some 0 else Z.succ <$> index_of c l
  end.

Lemma index_of_elem c l : is_Some (index_of c l) ↔ c ∈ l.
Proof.
  induction l as [|x l IH]; simpl.
  - rewrite elem_of_nil. split; [by intros [? ?]|done].
  - rewrite elem_of_cons. destruct (Z.eqb_spec x c).
    + split; [naive_solver|by eexists].
    + rewrite fmap_is_Some, IH. naive_solver.
Qed.

Lemma index_of_nonneg c l i : index_of c l = Some i → 0 <= i < Z.of_nat (length l).
Proof.
  revert i. induction l as [|x l IH]; intros i; simpl; [done|].
  destruct (x =? c); [intros [= <-]; lia|]. intros (j & Hj & ->)%fmap_Some.
  apply IH in Hj. lia.
Qed.

Lemma index_of_app c l1 l2 :
  c ∉ l1 → index_of c (l1 ++ l2) = Z.add (Z.of_nat (length l1)) <$> index_of c l2.
Proof.
  induction l1 as [|x l1 IH]; intros Hc; simpl.
  - by destruct (index_of c l2).
  - apply not_elem_of_cons in Hc as [Hx Hc]. rewrite (proj2 (Z.eqb_neq _ _) (not_eq_sym Hx)).
    rewrite IH by done. destruct (index_of c l2); simpl; [f_equal; lia|done].
Qed.

Lemma strchr_ok m p l c :
  cstr m p l → p ≠ 0 →
  wp (strchr p c) m (λ r m', r = from_option (Z.add p) 0 (index_of c l) ∧ m' = m).
Proof.
  intros Hc Hp. unfold strchr. rewrite (proj2 (Z.eqb_neq _ _) Hp).
  apply (wp_walk (λ k q m', m' = m ∧ ∃ l1 l2, l = l1 ++ l2 ∧ c ∉ l1 ∧ k = length l2 ∧
           q = p + Z.of_nat (length l1)) _ _ (length l)); [|by eapply cstr_fuel|].
  { split; [done|]. exists [], l. split_and!; [done|apply not_elem_of_nil|done|simpl; lia]. }
  intros k q m' (-> & l1 & l2 & -> & Hn & -> & ->).
  apply cstr_app in Hc as (_ & _ & H). rewrite index_of_app by done.
  destruct l2 as [|x l2]; simpl in H.
  - apply wp_bind, wp_rd with 0; [done|]. by apply wp_ret.
  - destruct H as (H1 & H2 & _). apply wp_bind, wp_rd with x; [done|].
    rewrite (proj2 (Z.eqb_neq _ _) H2). simpl. destruct (Z.eqb_spec x c) as [->|Hx].
    + apply wp_ret. simpl. split; [lia|done].
    + apply wp_ret. exists (length l2). split; [simpl; lia|]. split; [done|].
      exists (l1 ++ [x]), l2. rewrite <- app_assoc, length_app. simpl.
      split_and!; [done| |done|lia]. rewrite not_elem_of_app, list_elem_of_singleton. naive_solver.
Qed.

(** The order of strings, on unsigned characters. *)
Fixpoint lex (l1 l2 : list Z) : comparison :=
  match l1, l2 with
  | [], [] => Eq
  | [], _ :: _ => Lt
  | _ :: _, [] => Gt
  | a :: l1, b :: l2 => match a ?= b with Eq => lex l1 l2 | c => c end
  end.

Lemma lex_eq l1 l2 : lex l1 l2 = Eq ↔ l1 = l2.
Proof.
  revert l2. induction l1 as [|a l1 IH]; intros [|b l2]; simpl; [done..|].
  destruct (Z.compare_spec a b) as [->|?|?].
  - rewrite IH. naive_solver.
  - split; [done|]. intros [= -> ->]. lia.
  - split; [done|]. intros [= -> ->]. lia.
Qed.

Lemma lex_same l r1 r2 : lex (l ++ r1) (l ++ r2) = lex r1 r2.
Proof. induction l as [|a l IH]; simpl; [done|]. by rewrite Z.compare_refl. Qed.

Lemma cmp_sub a b : (a - b ?= 0) = (a ?= b).
Proof.
  destruct (Z.compare_spec a b) as [->|?|?].
  - by rewrite Z.sub_diag.
  - apply Z.compare_lt_iff. lia.
  - apply Z.compare_gt_iff. lia.
Qed.

(** One character of a string, its terminator included. *)
Definition hd0 (l : list Z) : Z := match l with [] => 0 | c :: _ => c end.

Lemma cstr_hd m p l : cstr m p l → m !! p = Some (hd0 l).
Proof. destruct l; simpl; tauto. Qed.

Lemma hd0_lex l1 l2 :
  Forall (λ c, 0 < c) l1 → Forall (λ c, 0 < c) l2 →
  hd0 l1 ≠ hd0 l2 → (hd0 l1 ?= hd0 l2) = lex l1 l2.
Proof.
  intros H1 H2. destruct H1 as [|a l1 Ha H1], H2 as [|b l2 Hb H2]; simpl; intros Hn; try done.
  - by apply (Z.compare_gt_iff a 0).
  - by destruct (Z.compare_spec a b).
Qed.

(** [strcmp] orders two NUL-terminated strings: the sign of its result is
    the lexicographic order of their bytes taken as unsigned characters, and it
    changes nothing. *)
Theorem strcmp_lexicographic m a b l1 l2 :
  cstr m a l1 → cstr m b l2 → Forall (λ c, 0 < c < 256) l1 → Forall (λ c, 0 < c < 256) l2 →
  wp (strcmp a b) m (λ r m', (r ?= 0) = lex l1 l2 ∧ (r = 0 ↔ l1 = l2) ∧ m' = m).
Proof.
  intros Ha Hb P1 P2.
  assert (wp (strcmp a b) m (λ r m', (r ?= 0) = lex l1 l2 ∧ m' = m)) as H.
  2:{ eapply wp_mono; [exact H|]. intros r m' [H1 ->]. split_and!; [done| |done].
      rewrite <- lex_eq, <- H1. symmetry. apply Z.compare_eq_iff. }
  apply (wp_walk (λ k '(p, q) m', m' = m ∧ ∃ l r1 r2, l1 = l ++ r1 ∧ l2 = l ++ r2 ∧
           k = length r1 ∧ p = a + Z.of_nat (length l) ∧ q = b + Z.of_nat (length l))
           _ _ (length l1)); [|by eapply cstr_fuel|].
  { split; [done|]. exists [], l1, l2. split_and!; [done..|simpl; lia|simpl; lia]. }
  intros k [p q] m' (-> & l & r1 & r2 & -> & -> & -> & -> & ->).
  apply cstr_app in Ha as (_ & _ & Ha), Hb as (_ & _ & Hb).
  apply Forall_app in P1 as [_ P1], P2 as [_ P2]. rewrite lex_same.
  pose proof (cstr_hd _ _ _ Ha) as Ea. pose proof (cstr_hd _ _ _ Hb) as Eb.
  apply wp_bind, (wp_rd _ _ _ _ Ea). destruct r1 as [|x r1].
  { apply wp_bind, (wp_rd _ _ _ _ Eb), wp_ret. split; [|done]. rewrite cmp_sub.
    destruct r2 as [|y r2]; [done|]. apply Forall_cons in P2 as [? _].
    apply (Z.compare_lt_iff 0 y). lia. }
  simpl hd0. destruct Ha as (_ & Hx & Ha). rewrite (proj2 (Z.eqb_neq _ _) Hx).
  apply wp_bind, (wp_rd _ _ _ _ Eb). destruct (Z.eqb_spec x (hd0 r2)) as [->|Hne].
  - destruct r2 as [|y r2]; [done|]. apply wp_ret. exists (length r1).
    split; [simpl; lia|]. split; [done|]. exists (l ++ [y]), r1, r2.
    rewrite <- !app_assoc, length_app. simpl. split_and!; [done..|lia|lia].
  - apply wp_ret. split; [|done]. rewrite cmp_sub. apply (hd0_lex (x :: r1)); [| |done];
    (eapply Forall_impl; [eassumption|]); simpl; lia.
Qed.

(* ------------------------------------------------------------------ *)
(** ** Copying *)

(** Memory with the bytes [l] written at [p]. *)
Fixpoint blit (m : mem) (p : Z) (l : list Z) : mem :=
  match l with
  | [] => m
  | c :: l => blit (<[p := c]> m) (p + 1) l
  end.

Definition mapped (m : mem) (p n : Z) : Prop := ∀ i, 0 <= i < n → is_Some (m !! (p + i)).

Lemma blit_snoc m p l c :
  blit m p (l ++ [c]) = <[p + Z.of_nat (length l) := c]> (blit m p l).
Proof.
  revert m p. induction l as [|x l IH]; intros m p; simpl.
  - by replace (p + Z.of_nat 0) with p by lia.
  - rewrite IH. by replace (p + 1 + Z.of_nat (length l)) with (p + Z.of_nat (S (length l))) by lia.
Qed.

Lemma blit_lookup_ne m p l a :
  a < p ∨ p + Z.of_nat (length l) <= a → blit m p l !! a = m !! a.
Proof.
  revert m p. induction l as [|c l IH]; intros m p Ha; simpl in *; [done|].
  rewrite IH by lia. by rewrite lookup_insert_ne by lia.
Qed.

Lemma blit_bytes m p l : bytes_at (blit m p l) p l.
Proof.
  revert m p. induction l as [|c l IH]; intros m p; simpl; [done|].
  split; [|apply IH]. rewrite blit_lookup_ne by lia. apply lookup_insert_eq.
Qed.

Lemma bytes_at_blit m p l q r :
  q + Z.of_nat (length r) <= p ∨ p + Z.of_nat (length l) <= q →
  bytes_at m p l → bytes_at (blit m q r) p l.
Proof.
  revert p. induction l as [|c l IH]; intros p Hd; simpl in *; [done|].
  intros [H1 H2]. rewrite blit_lookup_ne by lia. split; [done|]. apply IH; [lia|done].
Qed.

Lemma mapped_blit m p n q l : mapped m p n → mapped (blit m q l) p n.
Proof.
  revert m q. induction l as [|c l IH]; intros m q H; simpl; [done|]. apply IH.
  intros i Hi. destruct (decide (q = p + i)) as [->|]; [rewrite lookup_insert_eq; by eexists|].
  rewrite lookup_insert_ne by done. by apply H.
Qed.

Lemma blit_size m p l : mapped m p (Z.of_nat (length l)) → dom (blit m p l) = dom m.
Proof.
  revert m p. induction l as [|c l IH]; intros m p H; simpl; [done|].
  rewrite IH.
  - apply dom_insert_lookup_L. generalize (H 0 ltac:(simpl; lia)). by rewrite Z.add_0_r.
  - intros i Hi. destruct (decide (p = p + 1 + i)); [lia|].
    rewrite lookup_insert_ne by done. replace (p + 1 + i) with (p + (1 + i)) by lia.
    apply H. simpl. lia.
Qed.

Lemma strcpy_ok m dst src l :
  cstr m src l → Forall is_u8 l → dst ≠ 0 → src ≠ 0 →
  mapped m dst (Z.of_nat (length l) + 1) →
  dst + Z.of_nat (length l) < src ∨ src + Z.of_nat (length l) < dst →
  wp (strcpy dst src) m (λ r m', r = dst ∧ m' = blit m dst (l ++ [0])).
Proof.
  intros Hc Hu Hd Hs Hm Hdis. unfold strcpy.
  rewrite (proj2 (Z.eqb_neq _ _) Hd), (proj2 (Z.eqb_neq _ _) Hs). apply wp_bind.
  apply (wp_walk (λ k '(d, s) m', ∃ l1 l2, l = l1 ++ l2 ∧ m' = blit m dst l1 ∧
           k = length l2 ∧ d = dst + Z.of_nat (length l1) ∧ s = src + Z.of_nat (length l1))
           _ _ (length l)); [|by eapply cstr_fuel|].
  { exists [], l. simpl. split_and!; [done..|lia|lia]. }
  intros k [d s] m' (l1 & l2 & -> & -> & -> & -> & ->). rewrite length_app in *.
  apply Forall_app in Hu as [_ Hu].
  apply cstr_app in Hc as (_ & _ & Hc). apply cstr_hd in Hc as Eh.
  apply wp_bind, wp_rd with (hd0 l2); [rewrite blit_lookup_ne by lia; done|].
  assert (is_Some (blit m dst l1 !! (dst + Z.of_nat (length l1)))) as Hw.
  { apply mapped_blit with (n := Z.of_nat (length l1 + length l2) + 1); [done|lia]. }
  destruct l2 as [|c l2]; simpl.
  - apply wp_ret, wp_bind, wp_wr; [done|]. apply wp_ret. split; [done|].
    by rewrite app_nil_r, blit_snoc.
  - destruct Hc as (_ & Hnz & _). rewrite (proj2 (Z.eqb_neq _ _) Hnz).
    apply Forall_cons in Hu as [Hu _].
    apply wp_bind, wp_wr; [done|]. apply wp_ret. exists (length l2). split; [lia|].
    exists (l1 ++ [c]), l2. rewrite <- app_assoc, length_app, blit_snoc. simpl.
    split_and!; [done| |done|lia|lia]. f_equal. unfold u8, is_u8 in *. rewrite Z.mod_small; lia.
Qed.

Lemma blit_cstr m p l : Forall (λ c, c ≠ 0) l → cstr (blit m p (l ++ [0])) p l.
Proof. intros H. apply cstr_bytes. split; [apply blit_bytes|done]. Qed.

(* ------------------------------------------------------------------ *)
(** ** Tokens *)

Fixpoint take_while (f : Z → bool) (l : list Z) : list Z :=
  match l with
  | [] => []
  | c :: l => if f c then c :: take_while f l else []
  end.
Fixpoint drop_while (f : Z → bool) (l : list Z) : list Z :=
  match l with
  | [] => []
  | c :: l' => if f c then drop_while f l' else l
  end.

Lemma take_drop_while f l : take_while f l ++ drop_while f l = l.
Proof. induction l as [|c l IH]; simpl; [done|]. destruct (f c); simpl; by rewrite ?IH. Qed.

Lemma take_while_all f l1 l2 :
  forallb f l1 = true → take_while f (l1 ++ l2) = l1 ++ take_while f l2.
Proof.
  induction l1 as [|c l1 IH]; simpl; [done|].
  intros [H1 H2]%andb_true_iff. by rewrite H1, IH.
Qed.

Definition isd (d : list Z) (c : Z) : bool := bool_decide (c ∈ d).

Lemma skip_while_ok m b delim d p l :
  cstr m delim d → 0 < delim → cstr m p l →
  wp (skip_while b delim p) m (λ r m',
    r = p + Z.of_nat (length (take_while (λ c, Bool.eqb (isd d c) b) l)) ∧ m' = m).
Proof.
  intros Hd Hp Hc. set (f := λ c, Bool.eqb (isd d c) b).
  apply (wp_walk (λ k q m', m' = m ∧ ∃ l1 l2, l = l1 ++ l2 ∧ forallb f l1 = true ∧
           k = length l2 ∧ q = p + Z.of_nat (length l1)) _ _ (length l)); [|by eapply cstr_fuel|].
  { split; [done|]. exists [], l. simpl. split_and!; [done..|lia]. }
  intros k q m' (-> & l1 & l2 & -> & Hf & -> & ->).
  apply cstr_app in Hc as (_ & _ & Hc). rewrite take_while_all, length_app by done.
  destruct l2 as [|c l2]; simpl in Hc.
  { apply wp_bind, wp_rd with 0; [done|]. apply wp_ret. simpl. split; [lia|done]. }
  destruct Hc as (Hc & Hnz & _). apply wp_bind, wp_rd with c; [done|].
  rewrite (proj2 (Z.eqb_neq _ _) Hnz). apply wp_bind.
  eapply wp_mono; [apply strchr_ok; [exact Hd|lia]|]. intros r m' [-> ->]. simpl.
  replace (negb _) with (isd d c).
  2:{ unfold isd. destruct (index_of c d) as [i|] eqn:E; simpl.
      - pose proof (index_of_nonneg _ _ _ E). rewrite bool_decide_eq_true_2.
        + symmetry. apply negb_true_iff, Z.eqb_neq. lia.
        + apply index_of_elem. by eexists.
      - rewrite bool_decide_eq_false_2; [done|]. rewrite <- index_of_elem, E. by intros [? ?]. }
  fold (f c). destruct (f c) eqn:Ef; apply wp_ret; simpl.
  - exists (length l2). split; [lia|]. split; [done|]. exists (l1 ++ [c]), l2.
    rewrite <- app_assoc, length_app, forallb_app. simpl. rewrite Hf, Ef.
    split_and!; [done..|lia].
  - split; [lia|done].
Qed.

(** The first token of [l] and what follows its separator. *)
Definition token (d l : list Z) : list Z :=
  take_while (λ c, negb (isd d c)) (drop_while (isd d) l).
Definition after_token (d l : list Z) : list Z :=
  drop_while (λ c, negb (isd d c)) (drop_while (isd d) l).

Lemma eqb_true_id b : Bool.eqb b true = b.
Proof. by destruct b. Qed.
Lemma eqb_false_negb b : Bool.eqb b false = negb b.
Proof. by destruct b. Qed.

Lemma take_while_ext f g l : (∀ c, f c = g c) → take_while f l = take_while g l.
Proof. intros H. induction l as [|c l IH]; simpl; [done|]. by rewrite H, IH. Qed.

Lemma drop_while_head f l c r : drop_while f l = c :: r → f c = false.
Proof.
  induction l as [|x l IH]; simpl; [done|]. destruct (f x) eqn:E; [done|]. by intros [= -> _].
Qed.

Lemma cstr_split m p l1 l2 : cstr m p (l1 ++ l2) → cstr m (p + Z.of_nat (length l1)) l2.
Proof. intros H. by apply cstr_app in H as (_ & _ & ?). Qed.

(** Cutting a string off at [l1]. *)
Lemma cstr_cut m p l1 l2 :
  cstr m p (l1 ++ l2) → cstr (<[p + Z.of_nat (length l1) := 0]> m) p l1.
Proof.
  intros (H1 & H2 & _)%cstr_app. apply cstr_bytes. split; [|done].
  apply bytes_at_app. split.
  - apply bytes_at_insert; [lia|done].
  - simpl. split; [by rewrite lookup_insert_eq|done].
Qed.

(** One call: the cursor is [saveptr] when [str] is null. *)
Lemma strtok_r_ok m str delim save d l :
  let q := if str =? 0 then save else str in
  let q0 := q + Z.of_nat (length (take_while (isd d) l)) in
  let e := q0 + Z.of_nat (length (token d l)) in
  cstr m delim d → 0 < delim → cstr m q l →
  wp (strtok_r str delim save) m (λ r m',
    match token d l, after_token d l with
    | [], _ => r = (0, q0) ∧ m' = m
    | _, [] => r = (q0, e) ∧ m' = m
    | _, _ => r = (q0, e + 1) ∧ m' = <[e := 0]> m
    end).
Proof.
  intros q q0 e Hd Hp Hc. unfold strtok_r. fold q.
  apply wp_bind. eapply wp_mono; [by apply skip_while_ok|]. intros ? m' [-> ->].
  rewrite (take_while_ext _ (isd d)) by (intros; apply eqb_true_id). fold q0.
  rewrite <- (take_drop_while (isd d) l) in Hc. apply cstr_split in Hc. fold q0 in Hc.
  unfold e, token, after_token. clear e.
  pose proof (drop_while_head (isd d) l) as Hh.
  apply wp_bind. eapply wp_rd; [by apply cstr_hd|].
  destruct (drop_while (isd d) l) as [|c r]; [by apply wp_ret|].
  specialize (Hh c r eq_refl). simpl hd0.
  assert (c ≠ 0) as Hnz by apply Hc. rewrite (proj2 (Z.eqb_neq _ _) Hnz).
  apply wp_bind. eapply wp_mono; [by apply skip_while_ok|]. intros ? m' [-> ->].
  rewrite (take_while_ext _ (λ c, negb (isd d c))) by (intros; apply eqb_false_negb).
  rewrite <- (take_drop_while (λ c, negb (isd d c)) (c :: r)) in Hc. apply cstr_split in Hc.
  apply wp_bind. eapply wp_rd; [by apply cstr_hd|].
  assert (take_while (λ c, negb (isd d c)) (c :: r) ≠ []) as Ht by (simpl; by rewrite Hh).
  destruct (take_while (λ c, negb (isd d c)) (c :: r)) as [|t0 t]; [done|].
  destruct (drop_while (λ c, negb (isd d c)) (c :: r)) as [|x r']; [by apply wp_ret|].
  simpl hd0. rewrite (proj2 (Z.eqb_neq _ _)) by apply Hc.
  apply wp_bind, wp_wr; [eexists; apply Hc|]. by apply wp_ret.
Qed.

(** The maximal runs of characters that are not separators. *)
Fixpoint words (d l : list Z) : list (list Z) :=
  match l with
  | [] => []
  | c :: l' =>
      if isd d c then words d l'
      else match words d l' with
           | w :: ws => if isd d (hd0 l') then [c] :: w :: ws else (c :: w) :: ws
           | [] => [[c]]
           end
  end.

Lemma words_skip d l : words d (drop_while (isd d) l) = words d l.
Proof. induction l as [|c l IH]; simpl; [done|]. by destruct (isd d c) eqn:E; simpl; rewrite ?E. Qed.

Lemma words_word d c l :
  isd d c = false →
  words d (c :: l) = take_while (λ c, negb (isd d c)) (c :: l) ::
                     words d (drop_while (λ c, negb (isd d c)) (c :: l)).
Proof.
  revert c. induction l as [|x l IH]; intros c Hc; [simpl; by rewrite Hc|].
  change (words d (c :: x :: l)) with (if isd d c then words d (x :: l) else
    match words d (x :: l) with
    | w :: ws => if isd d x then [c] :: w :: ws else (c :: w) :: ws
    | [] => [[c]] end).
  rewrite Hc. simpl take_while at 1. simpl drop_while at 1. rewrite Hc. simpl negb.
  destruct (isd d x) eqn:Hx; simpl negb; cbv iota.
  - by destruct (words d (x :: l)).
  - rewrite (IH x Hx). simpl. by rewrite Hx.
Qed.

Lemma words_token d l :
  words d l = match token d l with
              | [] => []
              | _ => token d l :: words d (tail (after_token d l))
              end.
Proof.
  rewrite <- words_skip. unfold token, after_token.
  pose proof (drop_while_head (isd d) l) as Hh.
  destruct (drop_while (isd d) l) as [|c r]; [done|]. specialize (Hh c r eq_refl).
  rewrite words_word by done.
  pose proof (drop_while_head (λ c, negb (isd d c)) (c :: r)) as Hx.
  assert (take_while (λ c, negb (isd d c)) (c :: r) ≠ []) as Ht by (simpl; by rewrite Hh).
  destruct (take_while _ (c :: r)); [done|]. f_equal.
  destruct (drop_while _ (c :: r)) as [|x r']; [done|].
  specialize (Hx x r' eq_refl). apply negb_false_iff in Hx. simpl. by rewrite Hx.
Qed.

Lemma split_token d l :
  l = take_while (isd d) l ++ token d l ++ after_token d l.
Proof. unfold token, after_token. by rewrite !take_drop_while. Qed.

(** The callers' loop: [for (t = strtok_r(str, delim, &save); t; t =
    strtok_r(NULL, delim, &save))]. *)
Definition tokenize (str delim : Z) : M mem (list Z) :=
  walk (λ '(str, save, acc),
    '(t, save) ← strtok_r str delim save;
    if t =? 0 then ret (inr acc) else ret (inl (0, save, acc ++ [t]))) (str, 0, []).

(** [acc] points to the words found so far, all of them before the cursor [q]. *)
Definition found (m : mem) (q : Z) (l : list Z) (acc : list Z) (ws : list (list Z)) : Prop :=
  Forall2 (λ p w, cstr m p w ∧ (p + Z.of_nat (length w) < q ∨ l = [])) acc ws.

Lemma found_insert m q l acc ws e v :
  q <= e → l ≠ [] → found m q l acc ws → found (<[e := v]> m) q l acc ws.
Proof.
  intros He Hl H. eapply Forall2_impl; [exact H|]. intros p w [H1 H2].
  split; [|done]. apply cstr_insert; [|done]. destruct H2; [lia|done].
Qed.

Lemma found_advance m q q' l l' acc ws :
  q <= q' → l ≠ [] → found m q l acc ws → found m q' l' acc ws.
Proof.
  intros Hq Hl H. eapply Forall2_impl; [exact H|]. intros p w [H1 [H2|H2]]; [|done].
  split; [done|]. left. lia.
Qed.

(** What a turn of the loop establishes from what is left of the string. *)
Lemma strtok_r_turn m str delim save d l acc ws :
  let q := if str =? 0 then save else str in
  cstr m delim d → 0 < delim → cstr m q l → 0 < q →
  delim + Z.of_nat (length d) < q ∨ q + Z.of_nat (length l) < delim →
  found m q l acc ws →
  wp (strtok_r str delim save) m (λ '(t, s) m',
    if t =? 0 then words d l = [] ∧ m' = m
    else ∃ l',
      words d l = token d l :: words d l' ∧ (length l' < length l)%nat ∧
      cstr m' s l' ∧ q < s ∧ s + Z.of_nat (length l') = q + Z.of_nat (length l) ∧
      found m' s l' (acc ++ [t]) (ws ++ [token d l]) ∧ cstr m' delim d ∧
      ∀ a, a < q ∨ q + Z.of_nat (length l) <= a → m' !! a = m !! a).
Proof.
  intros q Hd Hp Hc Hq Hdis Hf.
  eapply wp_mono; [by apply (strtok_r_ok _ _ _ _ d l)|]. fold q. intros [t s] m'.
  pose proof (words_token d l) as Hw. pose proof (split_token d l) as Hl.
  pose proof (f_equal length Hl) as Hlen. rewrite !length_app in Hlen.
  set (q0 := q + Z.of_nat (length (take_while (isd d) l))).
  rewrite Hl in Hc. apply cstr_split in Hc. fold q0 in Hc.
  set (e := q0 + Z.of_nat (length (token d l))).
  destruct (token d l) as [|c t0] eqn:Et; [by intros [[= -> ->] ->]|].
  assert (q0 =? 0 = false) as Hq0 by (apply Z.eqb_neq; lia).
  assert (l ≠ []) as Hne by (intros ->; simpl in *; lia).
  rewrite <- Et in Hc. apply cstr_split in Hc as He. fold e in He. rewrite Et in *.
  destruct (after_token d l) as [|x r] eqn:Ea; intros [[= -> ->] ->]; rewrite Hq0.
  - exists []. simpl in *. split_and!; [done|lia|done|lia|lia| |done|done].
    apply Forall2_app; [by eapply found_advance; [..|exact Hf]; [lia|]|].
    constructor; [|done]. rewrite app_nil_r in Hc. split; [done|by right].
  - exists r. destruct He as (_ & _ & He). simpl in Hlen.
    assert (e < q + Z.of_nat (length l)) as Hlt by (unfold e, q0; simpl; lia).
    split_and!; [done|lia| |unfold e; lia|unfold e, q0; simpl; lia| | |].
    + apply cstr_insert; [lia|done].
    + apply Forall2_app.
      * eapply (found_advance _ q); [unfold e; lia|exact Hne|].
        apply found_insert; [unfold e; lia|done|done].
      * constructor; [|done]. split; [by apply (cstr_cut m q0 (c :: t0) (x :: r))|]. left.
        unfold e; lia.
    + apply cstr_insert; [unfold e; lia|done].
    + intros a Ha. rewrite lookup_insert_ne by (unfold e in *; lia). done.
Qed.

(** Splitting a string with [strtok_r], as its callers do (the string on the
    first call, NULL on the following ones, until NULL comes back), ends and
    yields pointers to exactly the maximal runs of characters that are not
    separators, in order; memory outside the string is left alone. *)
Theorem strtok_r_words m str delim d l :
  cstr m delim d → 0 < delim → cstr m str l → 0 < str →
  delim + Z.of_nat (length d) < str ∨ str + Z.of_nat (length l) < delim →
  wp (tokenize str delim) m (λ toks m',
    Forall2 (cstr m') toks (words d l) ∧
    ∀ a, a < str ∨ str + Z.of_nat (length l) <= a → m' !! a = m !! a).
Proof.
  intros Hd Hp Hc Hs Hdis. unfold tokenize.
  apply (wp_walk (λ k '(p, save, acc) m', ∃ ws l2, let q := if p =? 0 then save else p in
      words d l = ws ++ words d l2 ∧ k = length l2 ∧ cstr m' q l2 ∧ str <= q ∧
      q + Z.of_nat (length l2) = str + Z.of_nat (length l) ∧ found m' q l2 acc ws ∧
      cstr m' delim d ∧
      ∀ a, a < str ∨ str + Z.of_nat (length l) <= a → m' !! a = m !! a)
    _ _ (length l)); [|by eapply cstr_fuel|].
  { exists [], l. rewrite (proj2 (Z.eqb_neq str 0)) by lia.
    split_and!; try done. constructor. }
  intros k [[p save] acc] m' (ws & l2 & Hw & -> & Hc2 & Hq & Hsum & Hf & Hd2 & Hfr).
  apply wp_bind. eapply wp_mono.
  { apply (strtok_r_turn m' p delim save d l2 acc ws); [done..|lia|lia|done]. }
  intros [t s] m'' Ht. destruct (Z.eqb_spec t 0) as [->|Hn]; apply wp_ret.
  - destruct Ht as [E ->]. rewrite E, app_nil_r in Hw. rewrite Hw. split; [|done].
    eapply Forall2_impl; [exact Hf|]. by intros ? ? [? _].
  - destruct Ht as (l' & E & Hlt & Hc' & Hqs & Hsum' & Hf' & Hd' & Hfr').
    exists (length l'). split; [done|]. exists (ws ++ [token d l2]), l'. simpl.
    rewrite <- app_assoc. simpl. rewrite <- E.
    split_and!; [done|done|done|lia|lia|done|done|].
    intros a Ha. rewrite Hfr' by lia. by apply Hfr.
Qed.

(* ------------------------------------------------------------------ *)
(** ** Numbers *)

Definition digit (c : Z) : Prop := 48 <= c <= 57.

(** The number a list of digits denotes. *)
Fixpoint value_of (ds : list Z) : Z :=
  match ds with
  | [] => 0
  | c :: ds => (c - 48) * 10 ^ Z.of_nat (length ds) + value_of ds
  end.

Lemma value_of_snoc ds c : value_of (ds ++ [c]) = value_of ds * 10 + (c - 48).
Proof.
  induction ds as [|x ds IH]; simpl; [lia|].
  rewrite IH, length_app. simpl.
  replace (Z.of_nat (length ds + 1)) with (Z.of_nat (length ds) + 1) by lia.
  rewrite Z.pow_add_r by lia. lia.
Qed.

Lemma value_of_prefix l1 l2 :
  Forall digit l1 → Forall digit l2 → 0 <= value_of l1 <= value_of (l1 ++ l2).
Proof.
  intros H1 H2. revert l1 H1. induction l2 as [|c l2 IH]; intros l1 H1.
  - rewrite app_nil_r. split; [|lia]. induction H1 as [|x l1 Hx H1 IH1]; simpl; [lia|].
    unfold digit in *. nia.
  - apply Forall_cons in H2 as [Hc H2].
    replace (l1 ++ c :: l2) with ((l1 ++ [c]) ++ l2) by (by rewrite <- app_assoc).
    specialize (IH H2 (l1 ++ [c])). rewrite value_of_snoc in IH.
    assert (0 <= value_of l1) as Hpos.
    { clear -H1. induction H1 as [|x l1 Hx H1 IH1]; simpl; [lia|]. unfold digit in *. nia. }
    unfold digit in *. split; [done|].
    assert (Forall digit (l1 ++ [c])) as Hd by (apply Forall_app; by split; [|constructor]).
    specialize (IH Hd). lia.
Qed.

(** The decimal numeral of [v]: what [itoa] writes. *)
Definition decimal (v : Z) (ds : list Z) : Prop :=
  Forall digit ds ∧ value_of ds = v ∧ (v = 0 → ds = [48]) ∧
  (0 < v → 10 ^ (Z.of_nat (length ds) - 1) <= v).

Lemma itoa_digits v (m : mem) :
  0 < v < 4294967296 →
  wp (while_n 17 (λ '(value, tmp),
      if 0 <? value then
        assert_ (Z.of_nat (length tmp) <? 16) ;;
        ret (inl (value / 10, tmp ++ [48 + value mod 10]))
      else ret (inr tmp)) (v, [])) m
    (λ tmp m', m' = m ∧ decimal v (reverse tmp) ∧ (0 < length tmp <= 10)%nat).
Proof.
  intros Hv.
  apply (wp_while_n (λ k '(value, tmp) m', m' = m ∧ 0 <= value < 10 ^ Z.of_nat k ∧
     (k + length tmp = 10)%nat ∧ Forall digit tmp ∧
     v = value * 10 ^ Z.of_nat (length tmp) + value_of (reverse tmp) ∧
     (tmp = [] ∧ 0 < value ∨ tmp ≠ [] ∧ 10 ^ (Z.of_nat (length tmp) - 1) <= v))
     _ _ _ 10); [|lia|].
  { simpl. split_and!; [done|lia|simpl; lia|done|constructor|lia|left; split; [done|lia]]. }
  intros k [value tmp] m' (-> & Hval & Hk & Hd & Hsum & Hlead).
  destruct (Z.ltb_spec 0 value) as [Hpos|Hz].
  - apply wp_bind, wp_assert; [apply Z.ltb_lt; lia|]. apply wp_ret.
    destruct k as [|k]; [simpl in Hval; lia|]. exists k. split; [lia|].
    rewrite Nat2Z.inj_succ, Z.pow_succ_r in Hval by lia.
    pose proof (Z.div_mod value 10 ltac:(lia)) as Hdm.
    pose proof (Z.mod_pos_bound value 10 ltac:(lia)) as Hmb.
    assert (value_of (reverse (tmp ++ [48 + value mod 10])) =
            (value mod 10) * 10 ^ Z.of_nat (length tmp) + value_of (reverse tmp)) as Hr.
    { rewrite reverse_snoc. simpl. rewrite length_reverse. lia. }
    assert (0 <= value_of (reverse tmp)) as Hnn.
    { apply (value_of_prefix _ []); [|constructor]. by apply Forall_reverse. }
    rewrite length_app, Hr. simpl length.
    replace (Z.of_nat (length tmp + 1)) with (Z.of_nat (length tmp) + 1) by lia.
    rewrite Z.pow_add_r by lia. split_and!.
    + done.
    + apply Z.div_pos; lia.
    + apply Z.div_lt_upper_bound; lia.
    + lia.
    + apply Forall_app. split; [done|]. constructor; [unfold digit; lia|constructor].
    + rewrite Hsum. rewrite Hdm at 1. lia.
    + right. split; [by destruct tmp|].
      replace (Z.of_nat (length tmp) + 1 - 1) with (Z.of_nat (length tmp)) by lia. nia.
  - apply wp_ret. assert (value = 0) as -> by lia.
    destruct Hlead as [[-> ?]|[Hne Hlead]]; [lia|]. split; [done|]. split.
    + split_and!; [by apply Forall_reverse|lia|lia|]. intros _. by rewrite length_reverse.
    + destruct tmp; [done|]. simpl in *. lia.
Qed.

Lemma itoa_ok m v str :
  0 <= v < 4294967296 → mapped m str 11 →
  wp (itoa v str) m (λ _ m', ∃ ds, decimal v ds ∧ (0 < length ds <= 10)%nat ∧
    m' = blit m str (ds ++ [0])).
Proof.
  intros Hv Hm. unfold itoa. destruct (Z.eqb_spec v 0) as [->|Hn].
  - assert (mapped (blit m str [48]) str 11) as Hm' by by apply mapped_blit.
    apply wp_bind, wp_wr; [generalize (Hm 0 ltac:(lia)); by rewrite Z.add_0_r|].
    apply wp_wr; [apply (Hm' 1); lia|]. exists [48]. split; [|by split; [simpl; lia|]].
    split_and!; [|done|done|lia]. constructor; [unfold digit; lia|constructor].
  - apply wp_bind. eapply wp_mono; [apply itoa_digits; lia|].
    intros tmp m' (-> & Hdec & Hlen). apply wp_bind. eapply wp_mono.
    { apply (wp_for_range (λ j m', 0 <= j <= Z.of_nat (length tmp) ∧
                m' = blit m str (take (Z.to_nat j) (reverse tmp)))); [split; [lia|done]|].
      intros j m' Hj [_ ->].
      destruct (lookup_lt_is_Some_2 (reverse tmp) (Z.to_nat j)) as [c Hc]; [rewrite length_reverse; lia|].
      apply wp_bind, wp_of_opt with c.
      { rewrite <- Hc. rewrite reverse_lookup by lia. f_equal. lia. }
      apply wp_wr; [apply (mapped_blit _ _ 11); [done|lia]|].
      split; [lia|]. replace (Z.to_nat (j + 1)) with (S (Z.to_nat j)) by lia.
      rewrite (take_S_r _ _ _ Hc), blit_snoc, length_take, length_reverse. f_equal; [lia|].
      assert (digit c) as Hd by (eapply Forall_lookup_1; [apply Hdec|exact Hc]).
      unfold digit in Hd. unfold u8. rewrite Z.mod_small; lia. }
    intros _ m' [_ ->]. rewrite Z.max_r, Nat2Z.id, (take_ge (reverse tmp)) by (rewrite ?length_reverse; lia).
    apply wp_wr; [apply (mapped_blit _ _ 11); [done|lia]|]. exists (reverse tmp).
    rewrite length_reverse. split_and!; [done|lia|lia|]. by rewrite blit_snoc, length_reverse.
Qed.

Definition blank (c : Z) : bool := (c =? 32) || (c =? 9).
Definition isdigit (c : Z) : bool := (48 <=? c) && (c <=? 57).

Lemma isdigit_spec c : isdigit c = true ↔ digit c.
Proof. unfold isdigit, digit. rewrite andb_true_iff, !Z.leb_le. done. Qed.

Lemma atoi_blanks m p l :
  cstr m p l →
  wp (walk (λ p, c ← rd p;
             if (c =? 32) || (c =? 9) then ret (inl (p + 1)) else ret (inr p)) p) m
    (λ q m', q = p + Z.of_nat (length (take_while blank l)) ∧ m' = m).
Proof.
  intros Hc.
  apply (wp_walk (λ k q m', m' = m ∧ ∃ l1 l2, l = l1 ++ l2 ∧ forallb blank l1 = true ∧
           k = length l2 ∧ q = p + Z.of_nat (length l1)) _ _ (length l)); [|by eapply cstr_fuel|].
  { split; [done|]. exists [], l. simpl. split_and!; [done..|lia]. }
  intros k q m' (-> & l1 & l2 & -> & Hf & -> & ->).
  apply cstr_split, cstr_hd in Hc. apply wp_bind, (wp_rd _ _ _ _ Hc). fold (blank (hd0 l2)).
  rewrite take_while_all, length_app by done.
  destruct (blank (hd0 l2)) eqn:E; apply wp_ret; destruct l2 as [|c l2]; simpl in *; try done.
  - exists (length l2). split; [lia|]. split; [done|]. exists (l1 ++ [c]), l2.
    rewrite <- app_assoc, length_app, forallb_app. simpl. rewrite Hf, E. split_and!; [done..|lia].
  - split; [lia|done].
  - rewrite E. simpl. split; [lia|done].
Qed.

Lemma atoi_digits m p ds r :
  cstr m p (ds ++ r) → Forall digit ds → ¬ digit (hd0 r) → value_of ds <= 2147483647 →
  wp (walk (λ '(p, result),
      c ← rd p;
      if (48 <=? c) && (c <=? 57) then
        assert_ (int_ok (result * 10 + (c - 48))) ;;
        ret (inl (p + 1, result * 10 + (c - 48)))
      else ret (inr result)) (p, 0)) m
    (λ v m', v = value_of ds ∧ m' = m).
Proof.
  intros Hc Hd Hr Hv.
  apply (wp_walk (λ k '(q, res) m', m' = m ∧ ∃ l1 l2, ds = l1 ++ l2 ∧ res = value_of l1 ∧
           k = length l2 ∧ q = p + Z.of_nat (length l1)) _ _ (length ds)).
  { split; [done|]. exists [], ds. simpl. split_and!; [done..|lia]. }
  { apply cstr_fuel in Hc. rewrite length_app in Hc. lia. }
  intros k [q res] m' (-> & l1 & l2 & -> & -> & -> & ->).
  apply Forall_app in Hd as [Hd1 Hd2]. rewrite <- app_assoc in Hc. apply cstr_split, cstr_hd in Hc.
  apply wp_bind, (wp_rd _ _ _ _ Hc). fold (isdigit (hd0 (l2 ++ r))).
  destruct l2 as [|c l2]; simpl in *.
  - destruct (isdigit (hd0 r)) eqn:E; [by apply isdigit_spec in E|]. apply wp_ret.
    by rewrite app_nil_r.
  - apply Forall_cons in Hd2 as [Hdc Hd2]. rewrite (proj2 (isdigit_spec c) Hdc).
    assert (Forall digit (l1 ++ [c])) as Hd' by (apply Forall_app; by split; [|constructor]).
    pose proof (value_of_prefix _ _ Hd' Hd2) as Hp. rewrite <- app_assoc in Hp.
    rewrite value_of_snoc in Hp. simpl in Hp.
    apply wp_bind, wp_assert; [unfold int_ok; apply andb_true_iff; rewrite !Z.leb_le; lia|].
    apply wp_ret. exists (length l2). split; [lia|]. split; [done|]. exists (l1 ++ [c]), l2.
    rewrite <- app_assoc, value_of_snoc, length_app. simpl. split_and!; [done..|lia].
Qed.

(** [atoi] reads blanks, a sign and the digits up to the first other character. *)
Lemma atoi_ok m p bl sg ds r :
  cstr m p (bl ++ sg ++ ds ++ r) → forallb blank bl = true →
  sg = [] ∨ sg = [45] ∨ sg = [43] →
  ds ≠ [] → Forall digit ds → ¬ digit (hd0 r) → value_of ds <= 2147483647 →
  wp (atoi p) m (λ v m',
    v = (if bool_decide (sg = [45]) then -1 else 1) * value_of ds ∧ m' = m).
Proof.
  intros Hc Hb Hs Hne Hd Hr Hv. unfold atoi. apply wp_bind.
  eapply wp_mono; [by apply atoi_blanks|]. intros q m' [-> ->].
  rewrite take_while_all, length_app by done. apply cstr_split in Hc.
  destruct ds as [|d0 ds]; [done|]. apply Forall_cons in Hd as Hd0. destruct Hd0 as [Hd0 _].
  unfold digit in Hd0.
  assert (length (take_while blank (sg ++ (d0 :: ds) ++ r)) = 0%nat) as ->.
  { destruct Hs as [->|[->| ->]]; [|done..]. simpl. unfold blank.
    destruct (Z.eqb_spec d0 32), (Z.eqb_spec d0 9); [lia..|done]. }
  rewrite Nat.add_0_r. set (q := p + Z.of_nat (length bl)) in *.
  apply wp_bind. eapply wp_rd; [by apply cstr_hd|].
  destruct Hs as [->|[->| ->]]; simpl app in *; simpl hd0.
  - rewrite (proj2 (Z.eqb_neq d0 45)), (proj2 (Z.eqb_neq d0 43)) by lia. apply wp_bind.
    eapply wp_mono; [by apply (atoi_digits m q (d0 :: ds) r)|]. intros v m' [-> ->]. by apply wp_ret.
  - apply wp_bind. eapply wp_mono; [apply (atoi_digits m (q + 1) (d0 :: ds) r); [apply Hc|done..]|].
    intros v m' [-> ->]. by apply wp_ret.
  - apply wp_bind. eapply wp_mono; [apply (atoi_digits m (q + 1) (d0 :: ds) r); [apply Hc|done..]|].
    intros v m' [-> ->]. by apply wp_ret.
Qed.

(** [itoa] then [atoi] is the identity on every non-negative [int]: the
    digits fit in eleven bytes, are read back without overflow, and nothing
    outside those bytes changes. *)
Theorem itoa_atoi_roundtrip m v str :
  0 <= v <= 2147483647 → mapped m str 11 →
  wp (itoa v str ;; atoi str) m (λ r m',
    r = v ∧ ∀ a, a < str ∨ str + 11 <= a → m' !! a = m !! a).
Proof.
  intros Hv Hm. apply wp_bind. eapply wp_mono; [apply itoa_ok; [lia|done]|].
  intros _ m' (ds & (Hd & Hval & _) & Hlen & ->).
  eapply wp_mono; [apply (atoi_ok _ str [] [] ds [])|].
  - simpl. rewrite app_nil_r. apply blit_cstr. eapply Forall_impl; [exact Hd|].
    unfold digit. lia.
  - done.
  - by left.
  - by destruct ds; simpl in *; [lia|].
  - done.
  - unfold digit. simpl. lia.
  - lia.
  - intros r m' [-> ->]. rewrite bool_decide_eq_false_2 by done. split; [lia|].
    intros a Ha. rewrite blit_lookup_ne; [done|]. rewrite length_app. simpl. lia.
Qed.

(* ------------------------------------------------------------------ *)
(** ** Witnesses *)

Lemma blit_mapped m p l : mapped (blit m p l) p (Z.of_nat (length l)).
Proof.
  intros i Hi. destruct (lookup_lt_is_Some_2 l (Z.to_nat i)) as [c Hc]; [lia|].
  exists c. replace i with (Z.of_nat (Z.to_nat i)) by lia.
  eapply bytes_at_lookup; [apply blit_bytes|done].
Qed.

#[export] Instance cstr_dec m p l : Decision (cstr m p l).
Proof. revert p. induction l as [|c l IH]; intros p; simpl; apply _. Defined.

(** ["/bin/sh"] at 100 and ["/"] at 200. *)
Definition demo_mem : mem := blit (blit ∅ 100 [47; 98; 105; 110; 47; 115; 104; 0]) 200 [47; 0].

Lemma strcmp_lexicographic_witness :
  wp (strcmp 101 105) demo_mem (λ r m', (r ?= 0) = Lt ∧ m' = demo_mem) ∧
  strcmp 101 105 demo_mem = Some (-17, demo_mem).
Proof.
  split; [|vm_compute; reflexivity].
  eapply wp_mono;
    [apply (strcmp_lexicographic demo_mem 101 105 [98; 105; 110; 47; 115; 104] [115; 104])|].
  - apply (bool_decide_unpack _); vm_compute; exact I.
  - apply (bool_decide_unpack _); vm_compute; exact I.
  - repeat constructor.
  - repeat constructor.
  - intros r m' (H & _ & ->). by split.
Defined.

Lemma strtok_r_words_witness :
  wp (tokenize 100 200) demo_mem (λ toks m',
    Forall2 (cstr m') toks [[98; 105; 110]; [115; 104]]) ∧
  fst <$> tokenize 100 200 demo_mem = Some [101; 105].
Proof.
  split; [|vm_compute; reflexivity].
  eapply wp_mono;
    [apply (strtok_r_words demo_mem 100 200 [47] [47; 98; 105; 110; 47; 115; 104])|].
  - apply (bool_decide_unpack _); vm_compute; exact I.
  - lia.
  - apply (bool_decide_unpack _); vm_compute; exact I.
  - lia.
  - simpl. lia.
  - by intros toks m' [H _].
Defined.

Lemma itoa_atoi_roundtrip_witness :
  wp (itoa 2147483647 100 ;; atoi 100) (blit ∅ 100 (replicate 11 0)) (λ r _, r = 2147483647).
Proof.
  eapply wp_mono; [apply (itoa_atoi_roundtrip (blit ∅ 100 (replicate 11 0)) 2147483647 100)|].
  - lia.
  - apply (blit_mapped ∅ 100 (replicate 11 0)).
  - by intros r m' [-> _].
Defined.
