(* ===== verification/Printf.v ===== *)
(** * Formatted output

    The formatter of [kernel/src/klib/stdio.c]. [vprintf_core] is written over
    an output function, as in the code: a Section takes the state of the
    output, how memory is read in it and [output_char]; [kvsnprintf] closes it
    with the bounded buffer. The arguments are the 32-bit words of the variable
    argument list; taking one more than there are is a fault.

    [render] is the reference: the characters a format and its arguments denote.
    The theorem is that [kvsnprintf] stores what fits of them, always terminates
    the buffer, returns the full length and touches nothing else. *)

From S2P Require Import Prelude Strings.

Definition SIZE_MAX : Z := 4294967295.

Inductive PrintfLength :=
  PRINTF_LENGTH_DEFAULT | PRINTF_LENGTH_SHORT | PRINTF_LENGTH_SHORT_SHORT
| PRINTF_LENGTH_LONG | PRINTF_LENGTH_LONG_LONG.

Inductive PrintfState :=
  PRINTF_STATE_NORMAL | PRINTF_STATE_LENGTH | PRINTF_STATE_LENGTH_LONG
| PRINTF_STATE_LENGTH_SHORT | PRINTF_STATE_SPECIFIER.

Definition g_hex_chars : list Z :=
  [48; 49; 50; 51; 52; 53; 54; 55; 56; 57; 97; 98; 99; 100; 101; 102].

(** [va_arg]: one word for [int], [long] and pointers, two for [long long]. *)
Definition va_word (args : list Z) : option (Z * list Z) :=
  match args with w :: args => Some (w, args) | [] => None end.
Definition va_dword (args : list Z) : option (Z * list Z) :=
  match args with lo :: hi :: args => Some (lo + 4294967296 * hi, args) | _ => None end.
Definition s64 (z : Z) : Z := if z <? 9223372036854775808 then z else z - 18446744073709551616.

(** The argument of a number conversion, by its length and signedness. *)
Definition va_number (sign : bool) (len : PrintfLength) (args : list Z) : option (Z * list Z) :=
  match len with
  | PRINTF_LENGTH_LONG_LONG =>
      prod_map (λ n, if sign then s64 n else n) id <$> va_dword args
  | _ => prod_map (λ n, if sign then s32 n else n) id <$> va_word args
  end.

(** Signedness and radix of a number conversion. *)
Definition conversion (c : Z) : option (bool * Z) :=
  if (c =? 120) || (c =? 88) || (c =? 112) then Some (false, 16)
  else if (c =? 100) || (c =? 105) then Some (true, 10)
  else if c =? 117 then Some (false, 10)
  else if c =? 111 then Some (false, 8)
  else None.

Section core.
Context {St : Type}.
Context (read : Z → M St Z) (output_char : Z → M St unit) (fuel : St → nat).

Definition output_string (s : Z) : M St unit :=
  n ← gets fuel;
  while_n n (λ s,
    c ← read s;
    if c =? 0 then ret (inr tt) else output_char c ;; ret (inl (s + 1))) s.

(** [buffer] holds 32 characters; the test on [pos] in the second loop is the
    code's. *)
Definition output_unsigned (number radix : Z) : M St unit :=
  buffer ← while_n 33 (λ '(number, buffer),
    assert_ (Z.of_nat (length buffer) <? 32) ;;
    d ← of_opt (g_hex_chars !! Z.to_nat (number mod radix));
    let buffer := buffer ++ [d] in
    if 0 <? number / radix then ret (inl (number / radix, buffer)) else ret (inr buffer))
    (number, []);
  let pos := Z.of_nat (length buffer) in
  for_range 0 pos (λ k,
    if (pos <? 0) || (32 <=? pos) then ret tt
    else d ← of_opt (buffer !! Z.to_nat (pos - 1 - k)); output_char d).

(** Negating the least [long long] is undefined. *)
Definition output_signed (number radix : Z) : M St unit :=
  if number <? 0 then
    output_char 45 ;;
    assert_ (negb (number =? -9223372036854775808)) ;;
    output_unsigned (- number) radix
  else output_unsigned number radix.

(** The characters counted by [chars_written]; strings and numbers are not. *)
Definition count (chars_written n : Z) : M St Z :=
  assert_ (int_ok (chars_written + n)) ;; ret (chars_written + n).

(** The [PRINTF_STATE_SPECIFIER] case. *)
Definition specifier (c : Z) (length : PrintfLength) (args : list Z) (chars_written : Z)
    : M St (list Z * Z) :=
  match conversion c with
  | Some (sign, radix) =>
      '(n, args) ← of_opt (va_number sign length args);
      (if sign : bool then output_signed n radix else output_unsigned n radix) ;;
      ret (args, chars_written)
  | None =>
      if c =? 115 then
        '(str, args) ← of_opt (va_word args);
        output_string str ;; ret (args, chars_written)
      else if c =? 99 then
        '(w, args) ← of_opt (va_word args);
        output_char (u8 w) ;; n ← count chars_written 1; ret (args, n)
      else if c =? 37 then output_char 37 ;; n ← count chars_written 1; ret (args, n)
      else output_char 37 ;; output_char c ;; n ← count chars_written 2; ret (args, n)
  end.

(** One turn of the loop on [format]; [format--] cancels the loop's increment, so
    a character is looked at twice at most. *)
Definition vprintf_step '(format, state, length, args, chars_written)
    : M St (Z * PrintfState * PrintfLength * list Z * Z + Z) :=
  c ← read format;
  if c =? 0 then ret (inr chars_written)
  else match state with
  | PRINTF_STATE_NORMAL =>
      if c =? 37 then
        ret (inl (format + 1, PRINTF_STATE_LENGTH, PRINTF_LENGTH_DEFAULT, args, chars_written))
      else
        output_char c ;;
        n ← count chars_written 1;
        ret (inl (format + 1, PRINTF_STATE_NORMAL, length, args, n))
  | PRINTF_STATE_LENGTH =>
      if c =? 108 then
        ret (inl (format + 1, PRINTF_STATE_LENGTH_LONG, PRINTF_LENGTH_LONG, args, chars_written))
      else if c =? 104 then
        ret (inl (format + 1, PRINTF_STATE_LENGTH_SHORT, PRINTF_LENGTH_SHORT, args, chars_written))
      else ret (inl (format, PRINTF_STATE_SPECIFIER, length, args, chars_written))
  | PRINTF_STATE_LENGTH_LONG =>
      if c =? 108 then
        ret (inl (format + 1, PRINTF_STATE_SPECIFIER, PRINTF_LENGTH_LONG_LONG, args, chars_written))
      else ret (inl (format, PRINTF_STATE_SPECIFIER, length, args, chars_written))
  | PRINTF_STATE_LENGTH_SHORT =>
      if c =? 104 then
        ret (inl (format + 1, PRINTF_STATE_SPECIFIER, PRINTF_LENGTH_SHORT_SHORT, args, chars_written))
      else ret (inl (format, PRINTF_STATE_SPECIFIER, length, args, chars_written))
  | PRINTF_STATE_SPECIFIER =>
      '(args, n) ← specifier c length args chars_written;
      ret (inl (format + 1, PRINTF_STATE_NORMAL, length, args, n))
  end.

Definition vprintf_core (format : Z) (args : list Z) : M St Z :=
  n ← gets fuel;
  while_n (2 * n) vprintf_step (format, PRINTF_STATE_NORMAL, PRINTF_LENGTH_DEFAULT, args, 0).
End core.

(* ------------------------------------------------------------------ *)
(** ** Printing to a buffer *)

Record buffer_output_ctx_t := BufferCtx { buffer : Z; size : Z; pos : Z }.
Record bstate := BState { bmem : mem; bctx : buffer_output_ctx_t }.

Definition b_read (p : Z) : M bstate Z :=
  zoom bmem (λ m s, BState m (bctx s)) (rd p).

Definition buffer_putc (c : Z) : M bstate unit :=
  b ← gets bctx;
  when (pos b <? u32 (size b - 1))
    (zoom bmem (λ m s, BState m (bctx s)) (wr (buffer b + pos b) c)) ;;
  modify (λ s, BState (bmem s) (BufferCtx (buffer b) (size b) (u32 (pos b + 1)))).

Definition kvsnprintf (buffer size format : Z) (args : list Z) : M mem Z := λ m,
  (if size =? 0 then ret 0
   else
     vprintf_core b_read buffer_putc (mem_fuel ∘ bmem) format args ;;
     b ← gets bctx;
     zoom bmem (λ m s, BState m (bctx s))
       (if pos b <? size then wr (buffer + pos b) 0 else wr (buffer + (size - 1)) 0) ;;
     ret (s32 (pos b)))
  (BState m (BufferCtx buffer size 0)) ≫= λ '(r, s), Some (r, bmem s).

Definition kvsprintf (buffer format : Z) (args : list Z) : M mem Z :=
  kvsnprintf buffer SIZE_MAX format args.

(* ------------------------------------------------------------------ *)
(** ** The reference *)

Definition hexc (d : Z) : Z := default 0 (g_hex_chars !! Z.to_nat d).

(** The numeral of [n], most significant digit first. *)
Fixpoint numeral_n (k : nat) (radix n : Z) : list Z :=
  match k with
  | O => []
  | S k => (if 0 <? n / radix then numeral_n k radix (n / radix) else []) ++ [hexc (n mod radix)]
  end.
Arguments numeral_n : simpl never.
Definition numeral (radix n : Z) : list Z := numeral_n 64 radix n.

Lemma numeral_n_S k radix n :
  numeral_n (S k) radix n =
  (if 0 <? n / radix then numeral_n k radix (n / radix) else []) ++ [hexc (n mod radix)].
Proof. done. Qed.

Definition signed_numeral (radix n : Z) : option (list Z) :=
  if n <? 0 then
    if n =? -9223372036854775808 then None else Some (45 :: numeral radix (- n))
  else Some (numeral radix n).

Fixpoint string_n (k : nat) (m : mem) (p : Z) : option (list Z) :=
  match k with
  | O => None
  | S k => match m !! p with
           | Some c => if c =? 0 then Some [] else cons c <$> string_n k m (p + 1)
           | None => None
           end
  end.
Definition string_at (m : mem) (p : Z) : option (list Z) := string_n (mem_fuel m) m p.

(** What one conversion prints, and the arguments it leaves. *)
Definition convert (m : mem) (c : Z) (len : PrintfLength) (args : list Z)
    : option (list Z * list Z) :=
  match conversion c with
  | Some (sign, radix) =>
      va_number sign len args ≫= λ '(n, args),
      (λ o, (o, args)) <$> (if sign : bool then signed_numeral radix n else Some (numeral radix n))
  | None =>
      if c =? 115 then va_word args ≫= λ '(p, args), (λ o, (o, args)) <$> string_at m p
      else if c =? 99 then va_word args ≫= λ '(w, args), Some ([u8 w], args)
      else if c =? 37 then Some ([37], args)
      else Some ([37; c], args)
  end.

Fixpoint render (m : mem) (st : PrintfState) (len : PrintfLength) (f args : list Z)
    : option (list Z) :=
  match f with
  | [] => Some []
  | c :: f =>
      let spec len := convert m c len args ≫= λ '(o, args),
                      app o <$> render m PRINTF_STATE_NORMAL len f args in
      match st with
      | PRINTF_STATE_NORMAL =>
          if c =? 37 then render m PRINTF_STATE_LENGTH PRINTF_LENGTH_DEFAULT f args
          else cons c <$> render m PRINTF_STATE_NORMAL len f args
      | PRINTF_STATE_LENGTH =>
          if c =? 108 then render m PRINTF_STATE_LENGTH_LONG PRINTF_LENGTH_LONG f args
          else if c =? 104 then render m PRINTF_STATE_LENGTH_SHORT PRINTF_LENGTH_SHORT f args
          else spec len
      | PRINTF_STATE_LENGTH_LONG =>
          if c =? 108 then render m PRINTF_STATE_SPECIFIER PRINTF_LENGTH_LONG_LONG f args
          else spec len
      | PRINTF_STATE_LENGTH_SHORT =>
          if c =? 104 then render m PRINTF_STATE_SPECIFIER PRINTF_LENGTH_SHORT_SHORT f args
          else spec len
      | PRINTF_STATE_SPECIFIER => spec len
      end
  end.

Definition rendered (m : mem) (f args out : list Z) : Prop :=
  render m PRINTF_STATE_NORMAL PRINTF_LENGTH_DEFAULT f args = Some out.

Lemma string_n_cstr k m p l : string_n k m p = Some l → cstr m p l.
Proof.
  revert p l. induction k as [|k IH]; intros p l; simpl; [done|].
  destruct (m !! p) as [c|] eqn:E; [|done]. destruct (Z.eqb_spec c 0) as [->|Hn].
  - by intros [= <-].
  - intros (r & Hr & ->)%fmap_Some. simpl. split_and!; [done..|]. by apply IH.
Qed.

(** The digits of a numeral have the value of the number. *)
Fixpoint radix_value (radix : Z) (ds : list Z) : Z :=
  match ds with
  | [] => 0
  | d :: ds => d * radix ^ Z.of_nat (length ds) + radix_value radix ds
  end.

Lemma radix_value_snoc radix ds d :
  radix_value radix (ds ++ [d]) = radix_value radix ds * radix + d.
Proof.
  induction ds as [|x ds IH]; simpl; [lia|]. rewrite IH, length_app. simpl.
  replace (Z.of_nat (length ds + 1)) with (Z.of_nat (length ds) + 1) by lia.
  rewrite Z.add_1_r, Z.pow_succ_r by lia. lia.
Qed.

Lemma numeral_value radix n :
  2 <= radix <= 16 → 0 <= n < 18446744073709551616 →
  ∃ ds, numeral radix n = hexc <$> ds ∧ radix_value radix ds = n ∧
        Forall (λ d, 0 <= d < radix) ds.
Proof.
  intros Hr Hn. unfold numeral.
  assert (∀ k n, 0 <= n < 2 ^ Z.of_nat k → (0 < k)%nat →
    ∃ ds, numeral_n k radix n = hexc <$> ds ∧ radix_value radix ds = n ∧
          Forall (λ d, 0 <= d < radix) ds) as H; [|apply H; [|lia]; exact Hn].
  clear n Hn. intros k. induction k as [|k IH]; intros n Hn Hk; [lia|].
  pose proof (Z.div_mod n radix ltac:(lia)). pose proof (Z.mod_pos_bound n radix ltac:(lia)).
  assert (0 <= n / radix) by (apply Z.div_pos; lia).
  assert (n / radix < 2 ^ Z.of_nat k) as Hq.
  { apply Z.div_lt_upper_bound; [lia|]. rewrite Nat2Z.inj_succ, Z.pow_succ_r in Hn by lia. nia. }
  rewrite numeral_n_S. destruct (Z.ltb_spec 0 (n / radix)) as [Hpos|Hz].
  - destruct k as [|k]; [simpl in Hq; lia|]. destruct (IH (n / radix)) as (ds & -> & Hv & Hf); [lia..|].
    exists (ds ++ [n mod radix]). rewrite fmap_app, radix_value_snoc, Hv. split_and!; [done|lia|].
    apply Forall_app. by split; [|constructor].
  - exists [n mod radix]. split_and!; [done|simpl; lia|by constructor].
Qed.

(* ------------------------------------------------------------------ *)
(** ** The formatter prints the reference *)

Section core_ok.
Context {St : Type}.
Context (read : Z → M St Z) (output_char : Z → M St unit) (fuel : St → nat).
(** [ro]: memory the output does not change; [full]: all that will be printed;
    [Out o s]: in [s], [o] has been printed. *)
Context (ro : mem) (full : list Z) (Out : list Z → St → Prop).
Context (Hread : ∀ o s p b (Q : Z → St → Prop),
  Out o s → ro !! p = Some b → Q b s → wp (read p) s Q).
Context (Hput : ∀ o s c,
  Out o s → (o ++ [c]) `prefix_of` full → wp (output_char c) s (λ _ s', Out (o ++ [c]) s')).
Context (Hfuel : ∀ o s, Out o s → (mem_fuel ro <= fuel s)%nat).
Context (Hlen : Z.of_nat (length full) <= 2147483647).

Lemma prefix_step (o : list Z) c r : (o ++ c :: r) `prefix_of` full → (o ++ [c]) `prefix_of` full.
Proof.
  intros H. etrans; [|exact H]. exists r. by rewrite <- app_assoc.
Qed.

Lemma output_string_ok o s p l :
  Out o s → cstr ro p l → (o ++ l) `prefix_of` full →
  wp (output_string read output_char fuel p) s (λ _ s', Out (o ++ l) s').
Proof.
  intros Ho Hc Hpre. unfold output_string. apply wp_bind, wp_gets.
  apply (wp_while_n (λ k q s', ∃ l1 l2, l = l1 ++ l2 ∧ k = length l2 ∧
           q = p + Z.of_nat (length l1) ∧ Out (o ++ l1) s') _ _ _ (length l)).
  - exists [], l. rewrite app_nil_r. simpl. split_and!; [done..|lia|done].
  - pose proof (cstr_fuel _ _ _ Hc). pose proof (Hfuel _ _ Ho). lia.
  - intros k q s' (l1 & l2 & -> & -> & -> & Ho').
    apply cstr_split in Hc. apply wp_bind. eapply Hread; [done|by apply cstr_hd|].
    destruct l2 as [|c l2]; simpl.
    + apply wp_ret. by rewrite app_nil_r.
    + destruct Hc as (_ & Hnz & _). rewrite (proj2 (Z.eqb_neq _ _) Hnz).
      rewrite app_assoc in Hpre. apply wp_bind.
      eapply wp_mono; [apply Hput; [done|by eapply prefix_step]|].
      intros [] s'' Ho''. apply wp_ret. exists (length l2). split; [lia|].
      exists (l1 ++ [c]), l2. rewrite length_app, (app_assoc o). simpl.
      split_and!; [by rewrite <- app_assoc|done|lia|done].
Qed.

(** The digits, least significant first. *)
Lemma unsigned_digits number radix (s : St) :
  8 <= radix <= 16 → 0 <= number < 18446744073709551616 →
  wp (while_n 33 (λ '(number, buffer),
    assert_ (Z.of_nat (length buffer) <? 32) ;;
    d ← of_opt (g_hex_chars !! Z.to_nat (number mod radix));
    let buffer := buffer ++ [d] in
    if 0 <? number / radix then ret (inl (number / radix, buffer)) else ret (inr buffer))
    (number, [])) s
  (λ buffer s', s' = s ∧ reverse buffer = numeral radix number ∧ (length buffer <= 22)%nat).
Proof.
  intros Hr Hn.
  apply (wp_while_n (λ k '(n, buf) s', s' = s ∧ 0 <= n < 8 ^ Z.of_nat k ∧ (0 < k)%nat ∧
    (k + length buf = 22)%nat ∧
    ∃ j, j = (k + 42)%nat ∧ numeral radix number = numeral_n j radix n ++ reverse buf)
    _ _ _ 22); [|lia|].
  { split_and!; [done|lia|simpl; lia|lia|done|]. exists 64%nat.
    split; [done|]. rewrite app_nil_r. unfold numeral. reflexivity. }
  intros k [n buf] s' (-> & Hb & Hk & Hs & j & -> & E). destruct k as [|k]; [lia|].
  apply wp_bind, wp_assert; [apply Z.ltb_lt; lia|].
  pose proof (Z.mod_pos_bound n radix ltac:(lia)) as Hm.
  assert (0 <= n / radix) by (apply Z.div_pos; lia).
  apply wp_bind, wp_of_opt with (hexc (n mod radix)).
  { unfold hexc. destruct (lookup_lt_is_Some_2 g_hex_chars (Z.to_nat (n mod radix))) as [d ->];
      [simpl; lia|done]. }
  rewrite Nat.add_succ_l, numeral_n_S, <- app_assoc in E. rewrite E. clear E.
  destruct (0 <? n / radix) eqn:Eq; apply wp_ret.
  - assert (n / radix < 8 ^ Z.of_nat k) as Hlt.
    { apply Z.div_lt_upper_bound; [lia|]. rewrite Nat2Z.inj_succ, Z.pow_succ_r in Hb by lia. nia. }
    apply Z.ltb_lt in Eq. destruct k as [|k]; [simpl in Hlt; lia|].
    exists (S k). split; [lia|]. rewrite length_app, reverse_snoc. simpl length.
    split_and!; [done|lia|lia|lia|lia|]. by exists (S k + 42)%nat.
  - rewrite reverse_snoc, length_app. simpl length. split_and!; [done|done|lia].
Qed.

Lemma output_unsigned_ok o s number radix :
  8 <= radix <= 16 → 0 <= number < 18446744073709551616 →
  Out o s → (o ++ numeral radix number) `prefix_of` full →
  wp (output_unsigned output_char number radix) s (λ _ s', Out (o ++ numeral radix number) s').
Proof.
  intros Hr Hn Ho Hpre. unfold output_unsigned. apply wp_bind.
  eapply wp_mono; [by apply unsigned_digits|]. intros buf s' (-> & Eb & Hl).
  rewrite <- Eb in *. eapply wp_mono.
  { apply (wp_for_range (λ k s', Out (o ++ take (Z.to_nat k) (reverse buf)) s')).
    - by rewrite app_nil_r.
    - intros k s' Hk Ho'. rewrite (proj2 (Z.ltb_ge _ 0)), (proj2 (Z.leb_gt 32 _)) by lia.
      destruct (lookup_lt_is_Some_2 (reverse buf) (Z.to_nat k)) as [d Hd];
        [rewrite length_reverse; lia|].
      apply wp_bind, wp_of_opt with d.
      { rewrite <- Hd, reverse_lookup by lia. f_equal. lia. }
      replace (Z.to_nat (k + 1)) with (S (Z.to_nat k)) by lia.
      rewrite (take_S_r _ _ _ Hd), app_assoc. apply Hput; [done|].
      rewrite <- app_assoc, <- (take_S_r _ _ _ Hd). etrans; [|exact Hpre].
      apply prefix_app, prefix_take. }
  intros [] s'. rewrite Z.max_r, Nat2Z.id, (take_ge (reverse buf)) by (rewrite ?length_reverse; lia). done.
Qed.

Lemma output_signed_ok o s number radix out :
  8 <= radix <= 16 → -9223372036854775808 <= number < 9223372036854775808 →
  signed_numeral radix number = Some out →
  Out o s → (o ++ out) `prefix_of` full →
  wp (output_signed output_char number radix) s (λ _ s', Out (o ++ out) s').
Proof.
  intros Hr Hn E Ho Hpre. unfold output_signed, signed_numeral in *.
  destruct (Z.ltb_spec number 0).
  - destruct (number =? -9223372036854775808) eqn:Em; [done|]. injection E as <-.
    apply wp_bind. eapply wp_mono; [apply Hput; [done|by eapply prefix_step]|].
    intros [] s' Ho'. apply wp_bind, wp_assert; [done|].
    replace (o ++ 45 :: numeral radix (- number))
      with ((o ++ [45]) ++ numeral radix (- number)) in * by (by rewrite <- app_assoc).
    apply output_unsigned_ok; [done|lia|done..].
  - injection E as <-. apply output_unsigned_ok; [done|lia|done..].
Qed.

Lemma conversion_radix c sign radix : conversion c = Some (sign, radix) → 8 <= radix <= 16.
Proof. unfold conversion. intros H. repeat case_match; simplify_eq; lia. Qed.

(** Words are 32 bits wide. *)
Lemma va_number_range sign len args n args' :
  Forall is_u32 args → va_number sign len args = Some (n, args') →
  Forall is_u32 args' ∧
  (if sign : bool then -9223372036854775808 <= n < 9223372036854775808
   else 0 <= n < 18446744073709551616).
Proof.
  intros Hf H. unfold va_number, va_word, va_dword in H.
  assert (∀ w, is_u32 w → -9223372036854775808 <= s32 w < 9223372036854775808) as Hs.
  { intros w _. unfold s32. pose proof (Z.mod_pos_bound (w + 2147483648) 4294967296). lia. }
  assert (∀ lo hi, is_u32 lo → is_u32 hi →
    -9223372036854775808 <= s64 (lo + 4294967296 * hi) < 9223372036854775808) as Hs'.
  { intros lo hi H1 H2. unfold s64, is_u32 in *. destruct (Z.ltb_spec (lo + 4294967296 * hi) 9223372036854775808); lia. }
  destruct len; destruct args as [|w [|w' args]]; simpl in H; try done;
    repeat match goal with
    | H : Forall _ (_ :: _) |- _ => apply Forall_cons in H as [? H]
    end; injection H as <- <-; (split; [auto|]); destruct sign; auto; unfold is_u32 in *; lia.
Qed.

Lemma va_word_range args w args' :
  Forall is_u32 args → va_word args = Some (w, args') → Forall is_u32 args'.
Proof. intros Hf H. destruct args; simplify_eq/=. by apply Forall_cons in Hf as [_ ?]. Qed.

Lemma count_ok cw n (s : St) (Q : Z → St → Prop) :
  0 <= cw + n <= 2147483647 → Q (cw + n) s → wp (count cw n) s Q.
Proof.
  intros H HQ. apply wp_bind, wp_assert; [|by apply wp_ret].
  unfold int_ok. apply andb_true_iff. rewrite !Z.leb_le. lia.
Qed.

Lemma prefix_room (o r : list Z) : (o ++ r) `prefix_of` full →
  Z.of_nat (length o + length r) <= 2147483647.
Proof. intros H%prefix_length. rewrite length_app in H. lia. Qed.

Lemma specifier_ok o s c len args cw out args' :
  convert ro c len args = Some (out, args') → Forall is_u32 args →
  Out o s → (o ++ out) `prefix_of` full → 0 <= cw <= Z.of_nat (length o) →
  wp (specifier read output_char fuel c len args cw) s (λ '(args1, cw') s',
    args1 = args' ∧ Forall is_u32 args' ∧ Out (o ++ out) s' ∧
    0 <= cw' <= Z.of_nat (length (o ++ out))).
Proof.
  intros E Ha Ho Hpre Hcw. pose proof (prefix_room _ _ Hpre) as Hroom.
  unfold specifier, convert in *. destruct (conversion c) as [[sign radix]|] eqn:Ec.
  - pose proof (conversion_radix _ _ _ Ec) as Hr.
    destruct (va_number sign len args) as [[n args1]|] eqn:En; simpl in E; [|done].
    destruct (va_number_range _ _ _ _ _ Ha En) as [Ha' Hn].
    apply fmap_Some in E as (o' & E & [= <- <-]).
    apply wp_bind; apply wp_of_opt with (n, args'); [done|]. apply wp_bind.
    eapply wp_mono with (Q := λ _, Out (o ++ out)).
    + destruct sign; [by eapply output_signed_ok|]. injection E as <-. by apply output_unsigned_ok.
    + intros [] s' Ho'. apply wp_ret. rewrite length_app. split_and!; [done..|lia|lia].
  - destruct (c =? 115); [|destruct (c =? 99); [|destruct (c =? 37)]].
    + destruct (va_word args) as [[p args1]|] eqn:Ew; simpl in E; [|done].
      apply fmap_Some in E as (o' & E & [= <- <-]). apply wp_bind, wp_of_opt with (p, args'); [done|].
      apply wp_bind. eapply wp_mono; [eapply output_string_ok; [done|by eapply string_n_cstr|done]|].
      intros [] s' Ho'. apply wp_ret. rewrite length_app.
      split_and!; [done|by eapply va_word_range|done|lia|lia].
    + destruct (va_word args) as [[p args1]|] eqn:Ew; simpl in E; [|done]. injection E as <- <-.
      apply wp_bind, wp_of_opt with (p, args1); [done|].
      apply wp_bind. eapply wp_mono; [by eapply Hput|]. intros [] s' Ho'. simpl in Hroom.
      apply wp_bind, count_ok; [lia|]. apply wp_ret. rewrite length_app. simpl.
      split_and!; [done|by eapply va_word_range|done|lia|lia].
    + injection E as <- <-. apply wp_bind. eapply wp_mono; [by apply Hput|].
      intros [] s' Ho'. simpl in Hroom. apply wp_bind, count_ok; [lia|]. apply wp_ret.
      rewrite length_app. simpl. split_and!; [done..|lia|lia].
    + injection E as <- <-. apply wp_bind.
      eapply wp_mono; [apply Hput; [done|by eapply prefix_step]|]. intros [] s' Ho'.
      apply wp_bind.
      eapply wp_mono; [apply Hput; [done|by rewrite <- app_assoc]|]. intros [] s'' Ho''.
      simpl in Hroom. apply wp_bind, count_ok; [lia|]. apply wp_ret.
      rewrite <- app_assoc in Ho''. rewrite length_app. simpl. split_and!; [done..|lia|lia].
Qed.

(** What is left to do: the format from here, the arguments, the output so far. *)
Definition going (k : nat)
    '((q, st, len, args, cw) : Z * PrintfState * PrintfLength * list Z * Z) (s : St) : Prop :=
  ∃ f o out, cstr ro q f ∧ render ro st len f args = Some out ∧ full = o ++ out ∧ Out o s ∧
    Forall is_u32 args ∧ 0 <= cw <= Z.of_nat (length o) ∧
    k = (2 * length f + match st with PRINTF_STATE_SPECIFIER => 0 | _ => 1 end)%nat.

Lemma going_intro f o out q st len args cw s :
  cstr ro q f → render ro st len f args = Some out → full = o ++ out → Out o s →
  Forall is_u32 args → 0 <= cw <= Z.of_nat (length o) →
  going (2 * length f + match st with PRINTF_STATE_SPECIFIER => 0 | _ => 1 end)
        (q, st, len, args, cw) s.
Proof. intros. exists f, o, out. tauto. Qed.

Lemma vprintf_step_ok k a s :
  going k a s →
  wp (vprintf_step read output_char fuel a) s (λ r s', match r with
    | inl a' => ∃ k', (k' < k)%nat ∧ going k' a' s'
    | inr _ => Out full s' end).
Proof.
  destruct a as [[[[q st] len] args] cw].
  intros (f & o & out & Hc & Er & Ef & Ho & Ha & Hcw & ->).
  assert ((o ++ out) `prefix_of` full) as Hpre by (by rewrite Ef).
  apply wp_bind. eapply Hread; [done|by apply cstr_hd|].
  destruct f as [|c f]; simpl in Er; [injection Er as <-; rewrite app_nil_r in Ef; subst o; by apply wp_ret|].
  simpl hd0. destruct Hc as (Hq & Hnz & Hc). rewrite (proj2 (Z.eqb_neq _ _) Hnz).
  assert (∀ st' len',
    render ro st' len' f args = Some out →
    ∃ k', (k' < 2 * length (c :: f) + match st with PRINTF_STATE_SPECIFIER => 0 | _ => 1 end)%nat ∧
      going k' (q + 1, st', len', args, cw) s) as Hnext.
  { intros st' len' E. eexists. split; [|by apply (going_intro f o out)].
    simpl length. destruct st, st'; lia. }
  assert (st ≠ PRINTF_STATE_SPECIFIER →
    render ro PRINTF_STATE_SPECIFIER len (c :: f) args = Some out →
    ∃ k', (k' < 2 * length (c :: f) + match st with PRINTF_STATE_SPECIFIER => 0 | _ => 1 end)%nat ∧
      going k' (q, PRINTF_STATE_SPECIFIER, len, args, cw) s) as Hsame.
  { intros Hst E. eexists. split; [|by apply (going_intro (c :: f) o out)].
    simpl length. destruct st; [lia..|done]. }
  destruct st.
  - destruct (c =? 37); [apply wp_ret; by apply Hnext|].
    apply fmap_Some in Er as (out' & Er & ->). pose proof (prefix_room _ _ Hpre) as Hroom.
    simpl in Hroom. apply wp_bind.
    eapply wp_mono; [apply Hput; [done|by eapply prefix_step]|]. intros [] s' Ho'.
    apply wp_bind, count_ok; [lia|]. apply wp_ret. eexists. split; [|apply (going_intro f (o ++ [c]) out'); try done].
    2:{ by rewrite <- app_assoc. }
    2:{ rewrite length_app. simpl. lia. }
    simpl. lia.
  - destruct (c =? 108); [apply wp_ret; by apply Hnext|].
    destruct (c =? 104); [apply wp_ret; by apply Hnext|]. apply wp_ret. by apply Hsame.
  - destruct (c =? 108); [apply wp_ret; by apply Hnext|]. apply wp_ret. by apply Hsame.
  - destruct (c =? 104); [apply wp_ret; by apply Hnext|]. apply wp_ret. by apply Hsame.
  - destruct (convert ro c len args) as [[o1 args1]|] eqn:Ec; simpl in Er; [|done].
    apply fmap_Some in Er as (out' & Er & ->). apply wp_bind. eapply wp_mono.
    { eapply specifier_ok; [done|done|exact Ho| |done].
      etrans; [|exact Hpre]. exists out'. by rewrite app_assoc. }
    intros [args2 cw'] s' (-> & Ha' & Ho' & Hcw'). apply wp_ret.
    eexists. split; [|apply (going_intro f (o ++ o1) out'); try done; by rewrite <- app_assoc].
    simpl. lia.
Qed.

Lemma vprintf_core_ok s format f args :
  cstr ro format f → rendered ro f args full → Forall is_u32 args → Out [] s →
  wp (vprintf_core read output_char fuel format args) s (λ _ s', Out full s').
Proof.
  intros Hc Hr Ha Ho. unfold vprintf_core. apply wp_bind, wp_gets.
  apply (wp_while_n going _ _ _ (2 * length f + 1)%nat).
  - by apply (going_intro f [] full).
  - pose proof (cstr_fuel _ _ _ Hc). pose proof (Hfuel _ _ Ho). lia.
  - intros k a s' Hg. by apply vprintf_step_ok.
Qed.
End core_ok.

(* ------------------------------------------------------------------ *)
(** ** The bounded buffer *)

Section snprintf.
Context (m ro : mem) (buf sz : Z) (full : list Z).

(** The bytes the buffer gets: what fits, and a terminator. *)
Definition stored : list Z := take (Z.to_nat (sz - 1)) full ++ [0].

Context (Hsz : 0 < sz < 4294967296) (Hfull : Z.of_nat (length full) <= 2147483647).
Context (Hu8 : Forall is_u8 full).
Context (Hmap : mapped m buf (Z.of_nat (length stored))).
Context (Hro : ro ⊆ m).
Context (Hdis : ∀ i, 0 <= i < Z.of_nat (length stored) → ro !! (buf + i) = None).

Definition printed (o : list Z) (s : bstate) : Prop :=
  o `prefix_of` full ∧ bmem s = blit m buf (take (Z.to_nat (sz - 1)) o) ∧
  bctx s = BufferCtx buf sz (Z.of_nat (length o)).

Lemma stored_length : Z.of_nat (length stored) = Z.min (sz - 1) (Z.of_nat (length full)) + 1.
Proof. unfold stored. rewrite length_app, length_take. simpl. lia. Qed.

Lemma printed_length o : o `prefix_of` full →
  Z.of_nat (length (take (Z.to_nat (sz - 1)) o)) < Z.of_nat (length stored).
Proof. intros H%prefix_length. rewrite stored_length, length_take. lia. Qed.

Lemma printed_ro o s p b : printed o s → ro !! p = Some b → bmem s !! p = Some b.
Proof.
  intros (Hp & -> & _) Hb. apply printed_length in Hp.
  rewrite blit_lookup_ne; [by eapply lookup_weaken|].
  destruct (Z_lt_dec p buf); [lia|].
  destruct (Z_lt_dec (p - buf) (Z.of_nat (length stored))); [|lia].
  specialize (Hdis (p - buf) ltac:(lia)). replace (buf + (p - buf)) with p in Hdis by lia. congruence.
Qed.

Lemma printed_fuel o s : printed o s → (mem_fuel ro <= mem_fuel (bmem s))%nat.
Proof.
  intros (Hp & -> & _). unfold mem_fuel. apply le_n_S.
  etrans; [apply (map_subseteq_size _ _ Hro)|]. rewrite <- !(size_dom (D := gset Z)).
  apply printed_length in Hp. rewrite blit_size; [done|].
  intros i Hi. apply Hmap. lia.
Qed.

Lemma printed_room o c : (o ++ [c]) `prefix_of` full →
  is_u8 c ∧ o `prefix_of` full ∧ Z.of_nat (length o) < Z.of_nat (length full).
Proof.
  intros H. pose proof (prefix_length _ _ H) as Hl. rewrite length_app in Hl. simpl in Hl.
  split_and!; [|by etrans; [eexists|exact H]|lia].
  destruct H as [r ->]. apply Forall_app in Hu8 as [[_ Hc]%Forall_app _].
  by apply Forall_cons in Hc as [? _].
Qed.

Lemma buffer_putc_ok o s c :
  printed o s → (o ++ [c]) `prefix_of` full →
  wp (buffer_putc c) s (λ _ s', printed (o ++ [c]) s').
Proof.
  intros (Hp & Hm & Hb) Hpre. pose proof (printed_room _ _ Hpre) as (Hc & _ & Hlt).
  apply wp_bind, wp_gets. rewrite Hb. simpl.
  assert (u32 (sz - 1) = sz - 1) as -> by (unfold u32; rewrite Z.mod_small; lia).
  assert (u32 (Z.of_nat (length o) + 1) = Z.of_nat (length (o ++ [c]))) as ->
    by (rewrite length_app; unfold u32; rewrite Z.mod_small; simpl; lia).
  apply wp_bind. destruct (Z.ltb_spec (Z.of_nat (length o)) (sz - 1)) as [Hfit|Hfull'].
  - simpl. apply wp_zoom, wp_wr.
    { rewrite Hm. apply mapped_blit with (Z.of_nat (length stored)); [done|].
      rewrite stored_length. lia. }
    apply wp_modify. split_and!; [done| |done]. simpl. rewrite Hm, !take_ge
      by (rewrite ?length_app; simpl; lia).
    rewrite blit_snoc. f_equal. unfold u8, is_u8 in *. rewrite Z.mod_small; lia.
  - simpl. apply wp_ret, wp_modify. split_and!; [done| |done]. simpl. by rewrite Hm, take_app_le by lia.
Qed.

Lemma kvsnprintf_stores format f args :
  cstr ro format f → rendered ro f args full → Forall is_u32 args →
  wp (kvsnprintf buf sz format args) m (λ r m',
    r = Z.of_nat (length full) ∧ m' = blit m buf stored).
Proof.
  intros Hc Hr Ha. unfold kvsnprintf. rewrite (proj2 (Z.eqb_neq sz 0)) by lia.
  match goal with |- wp (λ m, ?f _ ≫= _) _ _ => set (run := f) end.
  assert (wp run (BState m (BufferCtx buf sz 0)) (λ r s,
    r = Z.of_nat (length full) ∧ bmem s = blit m buf stored)) as H.
  { unfold run. apply wp_bind. eapply wp_mono.
    { apply (vprintf_core_ok b_read buffer_putc (mem_fuel ∘ bmem) ro full printed) with (f := f);
        try done.
      - intros o s p b Q Ho Hb HQ. apply wp_zoom, wp_rd with b; [by eapply printed_ro|].
        by destruct s.
      - apply buffer_putc_ok.
      - apply printed_fuel.
      - split_and!; [apply prefix_nil|by rewrite take_nil|done]. }
    intros _ s (Hp & Hm & Hb). apply wp_bind, wp_gets. rewrite Hb. simpl. apply wp_bind, wp_zoom.
    assert (s32 (Z.of_nat (length full)) = Z.of_nat (length full)) as Hs
      by (unfold s32; rewrite Z.mod_small; lia).
    assert (∀ i, 0 <= i < Z.of_nat (length stored) → is_Some (bmem s !! (buf + i))) as Hw.
    { rewrite Hm. intros i Hi. by apply mapped_blit with (Z.of_nat (length stored)). }
    destruct (Z.ltb_spec (Z.of_nat (length full)) sz); apply wp_wr;
      try (apply Hw; rewrite stored_length; lia); apply wp_ret; (split; [done|]); simpl;
      rewrite Hm; unfold stored; rewrite blit_snoc, length_take; do 2 f_equal; lia. }
  apply wp_elim in H as (r & s & E & H). apply wp_intro with r (bmem s); [by rewrite E|done].
Qed.
End snprintf.

(** [kvsnprintf] prints what the format and its arguments denote ([render]:
    literal text, signed and unsigned numbers in radix 8, 10 and 16 with their
    length modifiers, strings, characters, [%%] and unknown conversions): it
    returns the full length, stores the first [size - 1] characters at most
    followed by a terminator, and changes no byte outside them. The format and
    the strings are read from memory [ro] that does not overlap what is written. *)
Theorem kvsnprintf_bounded m ro buf sz format f args out :
  0 < sz < 4294967296 → Z.of_nat (length out) <= 2147483647 → Forall is_u8 out →
  let kept := take (Z.to_nat (sz - 1)) out in
  mapped m buf (Z.of_nat (length kept) + 1) → ro ⊆ m →
  (∀ i, 0 <= i <= Z.of_nat (length kept) → ro !! (buf + i) = None) →
  cstr ro format f → rendered ro f args out → Forall is_u32 args →
  wp (kvsnprintf buf sz format args) m (λ r m',
    r = Z.of_nat (length out) ∧ bytes_at m' buf (kept ++ [0]) ∧
    ∀ a, a < buf ∨ buf + Z.of_nat (length kept) < a → m' !! a = m !! a).
Proof.
  intros Hsz Hlen Hu kept Hm Hro Hd Hc Hr Ha.
  assert (Z.of_nat (length (stored sz out)) = Z.of_nat (length kept) + 1) as Hst
    by (unfold stored, kept; rewrite length_app; simpl; lia).
  eapply wp_mono.
  { apply (kvsnprintf_stores m ro buf sz out) with (f := f); try done.
    - by rewrite Hst.
    - intros i Hi. apply Hd. lia. }
  intros r m' [-> ->]. split_and!; [done|apply blit_bytes|].
  intros a Ha'. apply blit_lookup_ne. lia.
Qed.

(** ["%d-%s!"] with -42 and ["/bin/sh"] in a buffer of six bytes. *)
Definition demo_ro : mem := blit demo_mem 300 [37; 100; 45; 37; 115; 33; 0].
Definition demo_buf : mem := blit demo_ro 400 (replicate 6 7).

Lemma kvsnprintf_bounded_witness :
  wp (kvsnprintf 400 6 300 [4294967254; 100]) demo_buf (λ r m',
    r = 12 ∧ bytes_at m' 400 [45; 52; 50; 45; 47; 0]).
Proof.
  eapply wp_mono.
  { apply (kvsnprintf_bounded demo_buf demo_ro 400 6 300 [37; 100; 45; 37; 115; 33]
      [4294967254; 100] [45; 52; 50; 45; 47; 98; 105; 110; 47; 115; 104; 33]).
    - lia.
    - simpl. lia.
    - repeat (constructor; [unfold is_u8; lia|]). constructor.
    - apply (blit_mapped demo_ro 400 (replicate 6 7)).
    - apply map_subseteq_spec. intros a x Hx. unfold demo_buf. rewrite blit_lookup_ne; [done|].
      destruct (Z_lt_dec a 400) as [|Hge]; [by left|]. right.
      unfold demo_ro, demo_mem in Hx. rewrite !blit_lookup_ne in Hx by (simpl; lia). done.
    - intros i Hi. simpl in Hi. unfold demo_ro, demo_mem.
      by rewrite !blit_lookup_ne by (simpl; lia).
    - apply (bool_decide_unpack _); vm_compute; exact I.
    - vm_compute. reflexivity.
    - repeat (constructor; [unfold is_u32; lia|]). constructor. }
  intros r m' (-> & H & _). by split.
Defined.
