(* ===== verification/Disk.v ===== *)
(** * Block devices and partitions

    The interface of [kernel/include/drivers/block/blockdev.h], which the file
    system is written against, the registry of [drivers/block/blockdev.c] and
    the partitions of [drivers/block/partition.c]. A physical disk is
    any instance of the interface; the ATA driver is in [Ata]. A partition of
    an instance is shown to be an instance again, which keeps to its sectors. *)

From S2P Require Import Prelude Buf.

Definition SECTOR_SIZE : Z := 512.
Definition MAX_BLOCK_DEVICES : Z := 50.
Definition MBR_PARTITIONS : Z := 4.
Definition ENOMEM : Z := 12.

(** A transfer that fails leaves no data ([None], [false]). *)
Class BlockDevice (D : Type) := {
  read_sectors : Z → Z → M D (option buf);
  write_sectors : Z → Z → buf → M D bool;
  bd_inv : D → Prop;
  (** The capacity and the contents, sector by sector. *)
  bd_size : D → Z;
  bd_sector : D → Z → buf;
  bd_width d i : bd_inv d → blen (bd_sector d i) = SECTOR_SIZE ∧ bytes_ok (bd_sector d i);
  bd_bound d : bd_inv d → 0 <= bd_size d <= 268435456;
  bd_read_ok d lba n : bd_inv d → 0 <= lba → 0 < n <= 256 → lba + n <= bd_size d →
    wp (read_sectors lba n) d (λ r d', d' = d ∧ r = Some (concat (bd_sector d <$> seqZ lba n)));
  bd_write_ok d lba n bytes : bd_inv d → 0 <= lba → 0 < n <= 256 → lba + n <= bd_size d →
    blen bytes = SECTOR_SIZE * n → bytes_ok bytes →
    wp (write_sectors lba n bytes) d (λ r d', r = true ∧ bd_inv d' ∧ bd_size d' = bd_size d ∧
      (∀ i, 0 <= i < n → sub_bytes (SECTOR_SIZE * i) SECTOR_SIZE bytes = Some (bd_sector d' (lba + i))) ∧
      (∀ i, i < lba ∨ lba + n <= i → bd_sector d' i = bd_sector d i))
}.

(* ------------------------------------------------------------------ *)
(** ** A disk in memory

    The simplest instance; it shows that the interface can be met. *)

Record ramdisk := Ram { ram_size : Z; ram : gmap Z buf }.
Definition zero_sector : buf := replicate 512 0.
Definition ram_sector (d : ramdisk) (i : Z) : buf := default zero_sector (ram d !! i).

Definition ram_read (lba n : Z) : M ramdisk (option buf) := λ d,
  if (0 <=? lba) && (lba + n <=? ram_size d)
  then Some (Some (concat (ram_sector d <$> seqZ lba n)), d) else Some (None, d).

Fixpoint ram_put (n : nat) (lba : Z) (bytes : buf) (m : gmap Z buf) : gmap Z buf :=
  match n with
  | O => m
  | S n => ram_put n (lba + 1) (drop 512 bytes) (<[lba := take 512 bytes]> m)
  end.
Definition ram_write (lba n : Z) (bytes : buf) : M ramdisk bool := λ d,
  if (0 <=? lba) && (lba + n <=? ram_size d)
  then Some (true, Ram (ram_size d) (ram_put (Z.to_nat n) lba bytes (ram d))) else Some (false, d).

Lemma ram_put_other n lba bytes m i :
  i < lba ∨ lba + Z.of_nat n <= i → ram_put n lba bytes m !! i = m !! i.
Proof.
  revert lba bytes m. induction n as [|n IH]; intros lba bytes m Hi; [done|]. cbn [ram_put].
  rewrite IH by lia. by rewrite lookup_insert_ne by lia.
Qed.

Lemma ram_put_same n lba bytes m i :
  0 <= i < Z.of_nat n →
  ram_put n lba bytes m !! (lba + i) = Some (take 512 (drop (512 * Z.to_nat i) bytes)).
Proof.
  revert lba bytes m i. induction n as [|n IH]; intros lba bytes m i Hi; [lia|]. cbn [ram_put].
  destruct (decide (i = 0)) as [->|Hne].
  - rewrite Z.add_0_r, ram_put_other by lia. rewrite lookup_insert_eq. done.
  - replace (lba + i) with (lba + 1 + (i - 1)) by lia. rewrite IH by lia.
    rewrite drop_drop. do 3 f_equal. lia.
Qed.

Definition ram_inv (d : ramdisk) : Prop :=
  0 <= ram_size d <= 268435456 ∧
  ∀ i x, ram d !! i = Some x → blen x = SECTOR_SIZE ∧ bytes_ok x.

#[global] Program Instance ram_device : BlockDevice ramdisk := {
  read_sectors := ram_read;
  write_sectors := ram_write;
  bd_inv := ram_inv;
  bd_size := ram_size;
  bd_sector := ram_sector
}.
Next Obligation.
  intros d i [_ H]. unfold ram_sector. destruct (ram d !! i) as [x|] eqn:E; [by apply (H i)|].
  split; [done|]. by apply Forall_replicate.
Qed.
Next Obligation. by intros d [H _]. Qed.
Next Obligation. intros d lba n _ H1 H2 H3. unfold wp, ram_read. by guard_true. Qed.
Next Obligation.
  intros d lba n bytes [Hs Hi] H1 H2 H3 Hb Hok. unfold wp, ram_write. guard_true.
  assert (∀ i, 0 <= i < n → ram_sector (Ram (ram_size d) (ram_put (Z.to_nat n) lba bytes (ram d))) (lba + i) =
    take 512 (drop (512 * Z.to_nat i) bytes)) as Hsame.
  { intros i Hi'. unfold ram_sector. cbn. by rewrite ram_put_same by lia. }
  split; [done|]. split; [|split; [done|split]].
  - split; [done|]. cbn. intros i x Hx. destruct (decide (lba <= i < lba + n)) as [Hr|Hr].
    + replace i with (lba + (i - lba)) in Hx by lia. rewrite ram_put_same in Hx by lia. injection Hx as <-.
      unfold SECTOR_SIZE, blen in *. rewrite length_take, length_drop. split; [lia|]. by apply Forall_take, Forall_drop.
    + rewrite ram_put_other in Hx by lia. by apply (Hi i).
  - intros i Hi'. rewrite Hsame by done. unfold SECTOR_SIZE in *. rewrite sub_bytes_is_Some by lia.
    do 3 f_equal. lia.
  - intros i Hi'. unfold ram_sector. cbn. by rewrite ram_put_other by lia.
Qed.

(* ------------------------------------------------------------------ *)
(** ** Partitions *)

(** A device and the part of it a partition covers. *)
Record partition D := Part { parent : D; start_lba : Z; sector_count : Z }.
Arguments Part {_}.
Arguments parent {_}.
Arguments start_lba {_}.
Arguments sector_count {_}.

Section partition.
Context {D : Type} {BD : BlockDevice D}.
Notation P := (partition D).

Definition set_parent (d : D) (p : P) : P := Part d (start_lba p) (sector_count p).

(** The guard adds two 32-bit numbers. *)
Definition part_read (lba count : Z) : M P (option buf) :=
  n ← gets sector_count;
  if n <? u32 (lba + count) then ret None
  else
    st ← gets start_lba;
    zoom parent set_parent (read_sectors (u32 (st + lba)) count).

Definition part_write (lba count : Z) (bytes : buf) : M P bool :=
  n ← gets sector_count;
  if n <? u32 (lba + count) then ret false
  else
    st ← gets start_lba;
    zoom parent set_parent (write_sectors (u32 (st + lba)) count bytes).

(** The partition lies on its device. *)
Record part_inv (p : P) : Prop := {
  pa_dev : bd_inv (parent p);
  pa_start : 0 <= start_lba p;
  pa_count : 0 <= sector_count p;
  pa_end : start_lba p + sector_count p <= bd_size (parent p)
}.

Definition part_sector (p : P) (i : Z) : buf := bd_sector (parent p) (start_lba p + i).

Lemma part_sectors p lba n :
  part_sector p <$> seqZ lba n = bd_sector (parent p) <$> seqZ (start_lba p + lba) n.
Proof.
  rewrite <- (fmap_add_seqZ (start_lba p) lba n), <- list_fmap_compose. done.
Qed.

Lemma wp_part_read p lba n :
  part_inv p → 0 <= lba → 0 < n <= 256 → lba + n <= sector_count p →
  wp (part_read lba n) p (λ r p', p' = p ∧ r = Some (concat (part_sector p <$> seqZ lba n))).
Proof.
  intros [I S C E] Hl Hn Hb. pose proof (bd_bound _ I). unfold part_read. wp_step. wp_step.
  rewrite u32_small by ulia. guard_false. wp_step. wp_step. wp_step. rewrite u32_small by ulia.
  eapply wp_mono; [apply bd_read_ok; [done|lia..]|]. intros r d [-> ->]. split; [by destruct p|].
  by rewrite part_sectors.
Qed.

Lemma wp_part_write p lba n bytes :
  part_inv p → 0 <= lba → 0 < n <= 256 → lba + n <= sector_count p →
  blen bytes = SECTOR_SIZE * n → bytes_ok bytes →
  wp (part_write lba n bytes) p (λ r p', r = true ∧ part_inv p' ∧
    start_lba p' = start_lba p ∧ sector_count p' = sector_count p ∧
    (∀ i, 0 <= i < n → sub_bytes (SECTOR_SIZE * i) SECTOR_SIZE bytes = Some (part_sector p' (lba + i))) ∧
    (∀ i, i < start_lba p + lba ∨ start_lba p + lba + n <= i →
       bd_sector (parent p') i = bd_sector (parent p) i)).
Proof.
  intros [I S C E] Hl Hn Hb Hlen Hok. pose proof (bd_bound _ I). unfold part_write. wp_step. wp_step.
  rewrite u32_small by ulia. guard_false. wp_step. wp_step. wp_step. rewrite u32_small by ulia.
  eapply wp_mono; [apply bd_write_ok; [done|lia..|done|done]|]. intros r d (-> & I' & Hs & Hin & Hout).
  split_and!; try done.
  - split; cbn; [done|done|done|]. by rewrite Hs.
  - intros i Hi. unfold part_sector. cbn. rewrite Z.add_assoc. by apply Hin.
Qed.

#[global] Program Instance part_device : BlockDevice P := {
  read_sectors := part_read;
  write_sectors := part_write;
  bd_inv := part_inv;
  bd_size := sector_count;
  bd_sector := part_sector
}.
Next Obligation. intros p i [I _ _ _]. by apply bd_width. Qed.
Next Obligation. intros p [I S C E]. pose proof (bd_bound _ I). lia. Qed.
Next Obligation. intros p lba n. apply wp_part_read. Qed.
Next Obligation.
  intros p lba n bytes I Hl Hn Hb Hlen Hok. eapply wp_mono; [by apply wp_part_write|].
  intros r p' (-> & I' & Hst & Hsc & Hin & Hout). split_and!; try done.
  intros i Hi. unfold part_sector. rewrite Hst. apply Hout. lia.
Qed.
End partition.

(** C11: a partition is a block device of its own size whose writes stay inside
    it: a request that ends below sector 2^32 is refused, leaving the disk as
    it was, or changes only sectors of the partition. A request whose end
    passes 2^32 is not refused: the guard's sum wraps around, and so does the
    sector number, to the sector before the partition. *)
Theorem partition_contained `{BlockDevice D} (p : partition D) lba n bytes :
  part_inv p → 0 <= lba → 0 < n <= 256 → lba + n < 4294967296 →
  blen bytes = SECTOR_SIZE * n → bytes_ok bytes →
  wp (part_write lba n bytes) p (λ r p', bd_inv p' ∧ bd_size p' = bd_size p ∧
    (r = false → p' = p ∧ sector_count p < lba + n) ∧
    (r = true → lba + n <= sector_count p) ∧
    ∀ i, i < start_lba p ∨ start_lba p + sector_count p <= i →
      bd_sector (parent p') i = bd_sector (parent p) i) ∧
  (0 < start_lba p → 1 < sector_count p →
   part_read 4294967295 2 p = zoom parent set_parent (read_sectors (start_lba p - 1) 2) p).
Proof.
  intros I Hl Hn Hw Hlen Hok. pose proof I as [Id S C E]. pose proof (bd_bound _ Id) as Hbd. split.
  - destruct (decide (lba + n <= sector_count p)) as [Hb|Hb].
    + eapply wp_mono; [by apply wp_part_write|]. intros r p' (-> & I' & Hst & Hsc & _ & Hout).
      split_and!; try done. intros i Hi. apply Hout. lia.
    + unfold part_write. wp_step. wp_step. rewrite u32_small by ulia. guard_true. wp_step.
      split_and!; try done. intros _. split; [done|lia].
  - intros Hst Hsc. unfold part_read, bind, gets. change (u32 (4294967295 + 2)) with 1. guard_false.
    by replace (u32 (start_lba p + 4294967295)) with (start_lba p - 1) by ulia.
Qed.

Definition demo_disk : ramdisk := Ram 64 ∅.
Definition demo_part : partition ramdisk := Part demo_disk 8 16.

Lemma demo_disk_inv : bd_inv demo_disk.
Proof. split; [cbn; lia|]. intros i x Hx. cbn in Hx. by rewrite lookup_empty in Hx. Qed.

Lemma demo_part_inv : part_inv demo_part.
Proof. split; [exact demo_disk_inv|cbn; lia..]. Qed.

Lemma partition_contained_witness :
  wp (part_write 15 1 (replicate 512 7)) demo_part (λ _ p', bd_sector (parent p') 24 = zero_sector) ∧
  part_read 4294967295 2 demo_part = zoom parent set_parent (read_sectors 7 2) demo_part.
Proof.
  destruct (partition_contained demo_part 15 1 (replicate 512 7) demo_part_inv) as [H1 H2];
    [lia..|reflexivity|by apply Forall_replicate|]. split.
  - eapply wp_mono; [exact H1|]. intros r p' (_ & _ & _ & _ & H). rewrite H; [reflexivity|right; cbn; lia].
  - apply H2; reflexivity.
Defined.

(* ------------------------------------------------------------------ *)
(** ** The registry and the partition table *)

(** A registered device: its name, its capacity and, for a partition, where it
    starts. *)
Record blkdev_t := Blkdev { name : buf; sectors : Z; priv : option Z }.
Notation registry := (arr (option blkdev_t)).

Definition blkdev_register (dev : blkdev_t) : M registry Z :=
  r ← scan_range 0 MAX_BLOCK_DEVICES (λ i,
    e ← ld i;
    match e with
    | None => st i (Some dev) ;; ret (Some 0)
    | Some _ => ret None
    end);
  ret (default (- ENOMEM) r).

Definition blkdev_get (nm : buf) : M registry (option blkdev_t) :=
  scan_range 0 MAX_BLOCK_DEVICES (λ i,
    e ← ld i;
    ret (match e with
         | Some d => if bool_decide (name d = nm) then Some d else None
         | None => None
         end)).

(** The fields of entry [i] of the table at offset 446. *)
Definition mbr_entry (i : Z) : Z := 446 + 16 * i.
Definition partition_type : Z := 4.
Definition lba_start : Z := 8.
Definition total_sectors : Z := 12.

(** [ksprintf(name, "%sp%d", parent, i + 1)] for the four entries. *)
Definition part_name (parent : buf) (i : Z) : buf := parent ++ [112; 48 + (i + 1)].

Section probe.
Context {D : Type} {BD : BlockDevice D}.

(** The disk, the registry and the answers of the heap: an allocation succeeds
    unless the next answer is [false]. *)
Record blk := Blk { disk : D; devices : registry; answers : list bool }.
Definition set_disk d (b : blk) := Blk d (devices b) (answers b).
Definition set_devices r (b : blk) := Blk (disk b) r (answers b).

(** An allocation whose result is used unchecked. *)
Definition kmalloc_unchecked : M blk unit :=
  a ← gets answers;
  modify (λ b, Blk (disk b) (devices b) (tail a)) ;;
  assert_ (default true (head a)).

Definition partition_probe (physical_name : buf) : M blk unit :=
  r ← zoom disk set_disk (read_sectors 0 1);
  match r with
  | None => ret tt
  | Some mbr =>
      sig ← peek (b16 510) mbr;
      if negb (sig =? 43605) then ret tt
      else for_range 0 4 (λ i,
        t ← peek (b8 (mbr_entry i + partition_type)) mbr;
        if t =? 0 then ret tt
        else
          kmalloc_unchecked ;;
          kmalloc_unchecked ;;
          lba ← peek (b32 (mbr_entry i + lba_start)) mbr;
          cnt ← peek (b32 (mbr_entry i + total_sectors)) mbr;
          _ ← zoom devices set_devices (blkdev_register (Blkdev (part_name physical_name i) cnt (Some lba)));
          ret tt)
  end.
End probe.
