(* ===== verification/Icmp.v ===== *)
(** * Echo requests and replies

    [kernel/src/net/icmp.c] with the frame structures and byte-order helpers
    of [kernel/include/net/protocols.h] and the length guard of the card
    driver's [rtl8139_send_packet]. A frame is the byte buffer it sits in; a
    pointer to a header is the offset of the header in that buffer. A local
    array starts with whatever the stack holds, which is part of the state,
    and writing past its end is a fault. *)

From S2P Require Import Prelude Buf.

Definition ETHER_HEADER_SIZE : Z := 14.
Definition MAX_ETHER_PACKET_SIZE : Z := 1500.
Definition IPV4_HEADER_SIZE : Z := 20.
Definition ICMP_HEADER_SIZE : Z := 8.
Definition DEFAULT_TTL : Z := 128.
Definition ICMP_PROTOCOL : Z := 1.
Definition ICMP_ECHO_REPLY : Z := 0.
Definition ICMP_ECHO_REQUEST : Z := 8.
Definition OUR_PING_IDENTIFIER : Z := 17185.
Definition PING_DATA_LENGTH : Z := 17.
Definition RTL8139_MAX_TRANSMIT_SIZE : Z := 1792.

(** Offsets of the packed structures' fields. *)
Definition ether_dst_mac : Z := 0.
Definition ether_src_mac : Z := 6.
Definition ether_type : Z := 12.
Definition version_hl : Z := 0.
Definition service_type : Z := 1.
Definition total_length : Z := 2.
Definition identification : Z := 4.
Definition flags_fragment : Z := 6.
Definition ttl : Z := 8.
Definition protocol : Z := 9.
Definition header_checksum : Z := 10.
Definition src_ip : Z := 12.
Definition dst_ip : Z := 16.
Definition icmp_type : Z := 0.
Definition icmp_code : Z := 1.
Definition icmp_checksum : Z := 2.
Definition icmp_identifier : Z := 4.
Definition icmp_sequence : Z := 6.

Definition ntohs (netshort : Z) : Z :=
  u16 (Z.lor (Z.shiftr netshort 8) (Z.shiftl netshort 8)).
Definition htons (hostshort : Z) : Z :=
  u16 (Z.lor (Z.shiftr hostshort 8) (Z.shiftl hostshort 8)).

(** The transmit side of the driver: the one buffer, at its two addresses, the
    descriptor that is next, and what was written to the ports, oldest first. *)
Record transmitter := Transmitter {
  rtl8139_tx_buffer_virt : Z → Z;
  rtl8139_tx_buffer_phys : Z;
  current_tx_desc : Z;
  port_writes : list (Z * Z)
}.

(** The card as the protocols see it: the addresses, the frames handed over
    for transmission, oldest first, and the bytes the stack happens to hold. *)
Record nic := Nic { rtl8139_mac : buf; my_ip_address : buf; sent : list buf; stack : buf; transmit : transmitter }.

Definition set_transmit (v : transmitter) (s : nic) : nic := Nic (rtl8139_mac s) (my_ip_address s) (sent s) (stack s) v.
Definition set_sent (v : list buf) (s : nic) : nic := Nic (rtl8139_mac s) (my_ip_address s) v (stack s) (transmit s).

Definition RTL8139_BASE_ADDR : Z := 49152.
Definition RTL_TSD0 : Z := 16.
Definition RTL_TSAD0 : Z := 32.

Definition out32 (port value : Z) : M nic unit :=
  modify (λ s, let t := transmit s in
    set_transmit (Transmitter (rtl8139_tx_buffer_virt t) (rtl8139_tx_buffer_phys t) (current_tx_desc t)
      (port_writes t ++ [(port, u32 value)])) s).

(** [memcpy] to the transmit buffer. *)
Definition tx_copy (frame : buf) (mem : Z → Z) : Z → Z := λ i, if 0 <=? i then default (mem i) (frame !! Z.to_nat i) else mem i.

(** What the buffer holds when the length is written to the descriptor is what
    is handed over. *)
Definition hand_over (length : Z) : M nic unit :=
  modify (λ s, set_sent (sent s ++ [rtl8139_tx_buffer_virt (transmit s) <$> seqZ 0 length]) s).

Definition rtl8139_send_packet (data : buf) (length : Z) : M nic unit :=
  if (length =? 0) || (RTL8139_MAX_TRANSMIT_SIZE <? length) then ret tt
  else
    desc ← gets (λ s, current_tx_desc (transmit s));
    let tsad_reg := u16 (RTL_TSAD0 + desc * 4) in
    let tsd_reg := u16 (RTL_TSD0 + desc * 4) in
    frame ← peek (get_bytes 0 length) data;
    modify (λ s, let t := transmit s in
      set_transmit (Transmitter (tx_copy frame (rtl8139_tx_buffer_virt t)) (rtl8139_tx_buffer_phys t) (current_tx_desc t) (port_writes t)) s) ;;
    phys ← gets (λ s, rtl8139_tx_buffer_phys (transmit s));
    out32 (RTL8139_BASE_ADDR + tsad_reg) phys ;;
    out32 (RTL8139_BASE_ADDR + tsd_reg) length ;;
    hand_over length ;;
    modify (λ s, let t := transmit s in
      set_transmit (Transmitter (rtl8139_tx_buffer_virt t) (rtl8139_tx_buffer_phys t) ((desc + 1) mod 4) (port_writes t)) s).

(** The card after a frame was sent: the frame is in the buffer and the next
    descriptor was told its address and its length. *)
Definition send (f : buf) (s : nic) : nic :=
  let t := transmit s in
  Nic (rtl8139_mac s) (my_ip_address s) (sent s ++ [f]) (stack s)
    (Transmitter (tx_copy f (rtl8139_tx_buffer_virt t)) (rtl8139_tx_buffer_phys t) ((current_tx_desc t + 1) mod 4)
      (port_writes t ++ [(RTL8139_BASE_ADDR + u16 (RTL_TSAD0 + current_tx_desc t * 4), u32 (rtl8139_tx_buffer_phys t));
                         (RTL8139_BASE_ADDR + u16 (RTL_TSD0 + current_tx_desc t * 4), u32 (blen f))])).

Lemma tx_copy_read f mem : tx_copy f mem <$> seqZ 0 (blen f) = f.
Proof.
  apply list_eq. intros i. rewrite list_lookup_fmap. destruct (decide (Z.of_nat i < blen f)) as [Hi|Hi].
  - rewrite lookup_seqZ_lt by lia. unfold tx_copy. cbn. unfold blen in *.
    rewrite (proj2 (Z.leb_le 0 _)) by lia. replace (Z.to_nat _) with i by lia.
    destruct (lookup_lt_is_Some_2 f i ltac:(lia)) as [x Hx]. by rewrite Hx.
  - rewrite lookup_seqZ_ge by lia. symmetry. apply lookup_ge_None. unfold blen in *. lia.
Qed.

Lemma wp_send f x n s (Q : unit → nic → Prop) :
  n = blen f → 0 < n <= RTL8139_MAX_TRANSMIT_SIZE → Q tt (send f s) →
  wp (rtl8139_send_packet (f ++ x) n) s Q.
Proof.
  intros -> Hn HQ. unfold rtl8139_send_packet, RTL8139_MAX_TRANSMIT_SIZE in *.
  guard_false. do 2 wp_step. wp_step. apply wp_peek. eapply wp_get_bytes; [apply (sub_bytes_app [] f x)|].
  unfold out32, hand_over. repeat wp_step. unfold send in HQ. cbn. rewrite tx_copy_read, <-app_assoc. exact HQ.
Qed.

Lemma wp_send_all f n s (Q : unit → nic → Prop) :
  n = blen f → 0 < n <= RTL8139_MAX_TRANSMIT_SIZE → Q tt (send f s) →
  wp (rtl8139_send_packet f n) s Q.
Proof. intros Hn Hl HQ. rewrite <- (app_nil_r f) at 1. by apply wp_send. Qed.

(** A local array of [n] bytes, filled in by [body]. *)
Definition local_array (n : Z) (body : M buf unit) : M nic buf :=
  stk ← gets stack;
  junk ← peek (get_bytes 0 n) stk;
  of_opt (snd <$> body junk).

(* ------------------------------------------------------------------ *)
(** ** The checksum *)

(** The 16-bit words of the region, and its odd last byte. *)
Fixpoint sum_words (data : buf) (sum : Z) : Z :=
  match data with
  | [] => sum
  | [x] => u32 (sum + x)
  | x :: y :: data => sum_words data (u32 (sum + (x + 256 * y)))
  end.

(** [while (sum >> 16)]: two turns are enough for 32 bits. *)
Definition fold_carries {St} (sum : Z) : M St Z :=
  while_n 3 (λ sum,
    if negb (Z.shiftr sum 16 =? 0)
    then ret (inl (u32 (Z.land sum 65535 + Z.shiftr sum 16)))
    else ret (inr sum)) sum.

Definition calculate_checksum (data length : Z) : M buf Z :=
  region ← get_bytes data length;
  sum ← fold_carries (sum_words region 0);
  ret (u16 (not32 sum)).

(* ------------------------------------------------------------------ *)
(** ** Recognising messages *)

(** [ip_header] is the offset of the IP header in the frame. *)
Definition icmp_of (ip_header : Z) : M buf Z :=
  vhl ← b8 (ip_header + version_hl);
  ret (ip_header + u8 (Z.land vhl 15 * 4)).

(** Four address bytes, up to the first difference. *)
Definition same_ip (at_ : Z) (our_ip : buf) : M buf bool :=
  r ← scan_range 0 4 (λ i,
    x ← b8 (at_ + i);
    o ← peek (b8 i) our_ip;
    ret (if x =? o then None else Some false));
  ret (default true r).

Definition icmp_is_ping_request (ip_header : Z) (our_ip : buf) : M buf bool :=
  for_us ← same_ip (ip_header + dst_ip) our_ip;
  if negb for_us then ret false
  else
    proto ← b8 (ip_header + protocol);
    if negb (proto =? ICMP_PROTOCOL) then ret false
    else
      icmp ← icmp_of ip_header;
      t ← b8 (icmp + icmp_type);
      if negb (t =? ICMP_ECHO_REQUEST) then ret false
      else c ← b8 (icmp + icmp_code); ret (c =? 0).

Definition icmp_is_echo_reply (ip_header : Z) : M buf bool :=
  proto ← b8 (ip_header + protocol);
  if negb (proto =? ICMP_PROTOCOL) then ret false
  else
    icmp ← icmp_of ip_header;
    t ← b8 (icmp + icmp_type);
    if negb (t =? ICMP_ECHO_REPLY) then ret false
    else
      c ← b8 (icmp + icmp_code);
      if negb (c =? 0) then ret false
      else i ← b16 (icmp + icmp_identifier); ret (ntohs i =? OUR_PING_IDENTIFIER).

Definition icmp_get_reply_sequence (ip_header : Z) : M buf Z :=
  icmp ← icmp_of ip_header;
  q ← b16 (icmp + icmp_sequence);
  ret (ntohs q).

Definition icmp_get_reply_data_len (ip_header : Z) : M buf Z :=
  vhl ← b8 (ip_header + version_hl);
  tl ← b16 (ip_header + total_length);
  let icmp_total := u16 (ntohs tl - u8 (Z.land vhl 15 * 4)) in
  ret (u16 (icmp_total - ICMP_HEADER_SIZE)).

(* ------------------------------------------------------------------ *)
(** ** Sending *)

(** The Ethernet header of an IPv4 frame. *)
Definition ether_header (dst src : buf) : M buf unit :=
  put_bytes ether_dst_mac dst ;;
  put_bytes ether_src_mac src ;;
  w8 ether_type 8 ;;
  w8 (ether_type + 1) 0.

(** The IPv4 header at offset 14, with its checksum. *)
Definition ipv4_header (length : Z) (src dst : M buf buf) : M buf unit :=
  let ip := ETHER_HEADER_SIZE in
  w8 (ip + version_hl) 69 ;;
  w8 (ip + service_type) 0 ;;
  w16 (ip + total_length) (htons (u16 length)) ;;
  w16 (ip + identification) (htons 4660) ;;
  w16 (ip + flags_fragment) 0 ;;
  w8 (ip + ttl) DEFAULT_TTL ;;
  w8 (ip + protocol) ICMP_PROTOCOL ;;
  w16 (ip + header_checksum) 0 ;;
  s ← src; put_bytes (ip + src_ip) s ;;
  d ← dst; put_bytes (ip + dst_ip) d ;;
  c ← calculate_checksum ip IPV4_HEADER_SIZE;
  w16 (ip + header_checksum) c.

(** The ICMP message at offset 34, with its checksum over [total] bytes. *)
Definition icmp_message (type : Z) (identifier sequence : M buf Z) (data : M buf buf) (total : Z)
    : M buf unit :=
  let icmp := ETHER_HEADER_SIZE + IPV4_HEADER_SIZE in
  w8 (icmp + icmp_type) type ;;
  w8 (icmp + icmp_code) 0 ;;
  w16 (icmp + icmp_checksum) 0 ;;
  i ← identifier; w16 (icmp + icmp_identifier) i ;;
  q ← sequence; w16 (icmp + icmp_sequence) q ;;
  d ← data; put_bytes (icmp + ICMP_HEADER_SIZE) d ;;
  c ← calculate_checksum icmp total;
  w16 (icmp + icmp_checksum) c.

Definition icmp_send_ping_reply (packet_buffer : buf) (packet_len : Z) (our_mac our_ip : buf)
    : M nic unit :=
  let p := packet_buffer in
  let ip_request := ETHER_HEADER_SIZE in
  vhl ← peek (b8 (ip_request + version_hl)) p;
  let ip_header_length_size := u8 (Z.land vhl 15 * 4) in
  let icmp_request := ip_request + ip_header_length_size in
  tl ← peek (b16 (ip_request + total_length)) p;
  let ip_total_len := ntohs tl in
  let icmp_total := u32 (ip_total_len - ip_header_length_size) in
  let icmp_data_len := u32 (icmp_total - ICMP_HEADER_SIZE) in
  let reply_len := u32 (ETHER_HEADER_SIZE + IPV4_HEADER_SIZE + icmp_total) in
  reply ← local_array MAX_ETHER_PACKET_SIZE (
    src_mac ← peek (get_bytes ether_src_mac 6) p;
    mac ← peek (get_bytes 0 6) our_mac;
    ether_header src_mac mac ;;
    ipv4_header (IPV4_HEADER_SIZE + icmp_total) (peek (get_bytes 0 4) our_ip)
      (peek (get_bytes (ip_request + src_ip) 4) p) ;;
    icmp_message ICMP_ECHO_REPLY (peek (b16 (icmp_request + icmp_identifier)) p)
      (peek (b16 (icmp_request + icmp_sequence)) p)
      (peek (get_bytes (icmp_request + ICMP_HEADER_SIZE) icmp_data_len) p) icmp_total);
  rtl8139_send_packet reply reply_len.

(** "Hello from myos!" with its terminator. *)
Definition ping_data : buf :=
  [72; 101; 108; 108; 111; 32; 102; 114; 111; 109; 32; 109; 121; 111; 115; 33; 0].

Definition icmp_send_echo_request (target_ip : buf) (sequence : Z) (our_mac our_ip dst_mac : buf)
    : M nic bool :=
  let data_len := PING_DATA_LENGTH - 1 in
  let packet_len := ETHER_HEADER_SIZE + IPV4_HEADER_SIZE + ICMP_HEADER_SIZE + data_len in
  if MAX_ETHER_PACKET_SIZE <? packet_len then ret false
  else
    packet ← local_array MAX_ETHER_PACKET_SIZE (
      dst ← peek (get_bytes 0 6) dst_mac;
      mac ← peek (get_bytes 0 6) our_mac;
      ether_header dst mac ;;
      ipv4_header (IPV4_HEADER_SIZE + ICMP_HEADER_SIZE + data_len) (peek (get_bytes 0 4) our_ip)
        (peek (get_bytes 0 4) target_ip) ;;
      icmp_message ICMP_ECHO_REQUEST (ret (htons OUR_PING_IDENTIFIER)) (ret (htons sequence))
        (peek (get_bytes 0 data_len) ping_data) (ICMP_HEADER_SIZE + data_len));
    rtl8139_send_packet packet packet_len ;;
    ret true.

(* ------------------------------------------------------------------ *)
(** ** The checksum verifies

    The one's-complement sum of a region that contains its own checksum is
    [0xFFFF], so a receiver that recomputes it gets 0. *)

Fixpoint words_sum (b : buf) : Z :=
  match b with
  | [] => 0
  | [x] => x
  | x :: y :: b => x + 256 * y + words_sum b
  end.

(** What the receiver of a region tests. *)
Definition checks (b : buf) : Prop :=
  wp (calculate_checksum 0 (blen b)) b (λ c _, c = 0).

Lemma pair_ind (P : buf → Prop) :
  P [] → (∀ x, P [x]) → (∀ x y b, P b → P (x :: y :: b)) → ∀ b, P b.
Proof.
  intros H0 H1 H2. fix IH 1. intros [|x [|y b]]; [done|done|]. apply H2, IH.
Qed.

Lemma words_sum_bound b : bytes_ok b → 0 <= words_sum b <= 32768 * (blen b + 1).
Proof.
  unfold blen. induction b as [|x|x y b IH] using pair_ind; intros H.
  - simpl. lia.
  - apply Forall_cons in H as [? _]. simpl. ulia.
  - apply Forall_cons in H as [Hx [Hy H]%Forall_cons]. specialize (IH H).
    cbn [words_sum length]. ulia.
Qed.

Lemma sum_words_eq b acc :
  bytes_ok b → 0 <= acc → acc + words_sum b < 4294967296 → sum_words b acc = acc + words_sum b.
Proof.
  revert acc. induction b as [|x|x y b IH] using pair_ind; intros acc H Ha Hs.
  - simpl. lia.
  - cbn [sum_words words_sum] in *. apply u32_small. apply Forall_cons in H as [? _]. ulia.
  - apply Forall_cons in H as [Hx [Hy H]%Forall_cons]. cbn [sum_words words_sum] in *.
    pose proof (words_sum_bound b H). rewrite u32_small by ulia.
    rewrite IH; [lia|done|ulia|lia].
Qed.

Lemma words_sum_app a b :
  Z.even (blen a) = true → words_sum (a ++ b) = words_sum a + words_sum b.
Proof.
  unfold blen. induction a as [|x|x y a IH] using pair_ind; intros H; [done|done|].
  cbn [words_sum app]. rewrite IH; [lia|]. cbn [length] in H.
  rewrite !Nat2Z.inj_succ, !Z.even_succ, Z.odd_succ in H. done.
Qed.

Lemma fold_carries_ok {St} sum (s : St) :
  is_u32 sum → wp (fold_carries sum) s (λ f s', s' = s ∧
    0 <= f < 65536 ∧ f mod 65535 = sum mod 65535 ∧ (f = 0 ↔ sum = 0)).
Proof.
  intros H. unfold fold_carries.
  assert (∀ z, Z.land z 65535 = z mod 65536) as Hl
    by (intros z; change 65535 with (Z.ones 16); by rewrite Z.land_ones).
  assert (∀ z, Z.shiftr z 16 = z / 65536) as Hr by (intros z; by rewrite Z.shiftr_div_pow2).
  apply (wp_while_n (λ k z s', s' = s ∧ z mod 65535 = sum mod 65535 ∧ (z = 0 ↔ sum = 0) ∧ is_u32 z ∧
    match k with 0%nat => z < 65536 | 1%nat => z < 131071 | _ => True end) _ _ 3 2).
  - done.
  - lia.
  - intros k z s' (-> & Hm & Hz & Hu & Hk). rewrite Hr, Hl. wp_step; wp_step.
    + rewrite u32_small by ulia. set (z' := z mod 65536 + z / 65536).
      assert (z = z' + z / 65536 * 65535 ∧ 0 < z' < 131071 ∧ 0 < z) as (E & Hz' & Hp) by (subst z'; ulia).
      exists (Nat.pred k). split; [destruct k; [ulia|simpl; lia]|]. split_and!.
      * done.
      * rewrite <- Hm, E. by rewrite Z.mod_add.
      * lia.
      * ulia.
      * destruct k as [|[|[|k]]]; simpl; [|subst z'; ulia|lia|done]. subst z'. ulia.
    + split_and!; [done|ulia..].
Qed.

Lemma calculate_checksum_ok b off n region :
  sub_bytes off n b = Some region → bytes_ok region → blen region <= 65536 →
  wp (calculate_checksum off n) b (λ c b', b' = b ∧ is_u16 c ∧
    (c + words_sum region) mod 65535 = 0 ∧ (c = 65535 ↔ words_sum region = 0)).
Proof.
  intros Hs Hr Hl. pose proof (words_sum_bound region Hr). unfold calculate_checksum. wp_step.
  eapply wp_get_bytes; [done|]. wp_step.
  eapply wp_mono; [apply fold_carries_ok|].
  { rewrite sum_words_eq; [ulia|done|done|lia]. }
  rewrite sum_words_eq by (done || lia). intros f b' (-> & Hf & Hm & Hz). wp_step.
  split; [done|]. replace (u16 (not32 f)) with (65535 - f) by ulia. split; [ulia|]. lia.
Qed.

(** Storing the checksum computed with its field zero makes the region check. *)
Lemma checksum_checks a post c :
  bytes_ok (a ++ [0; 0] ++ post) → blen (a ++ [0; 0] ++ post) <= 65536 →
  Z.even (blen a) = true → is_u16 c →
  (c + words_sum (a ++ [0; 0] ++ post)) mod 65535 = 0 →
  (c = 65535 ↔ words_sum (a ++ [0; 0] ++ post) = 0) →
  checks (a ++ le_of 2 c ++ post).
Proof.
  intros Hb Hl He Hc Hm Hz. unfold bytes_ok in Hb. rewrite !Forall_app in Hb. destruct Hb as (Ha & _ & Hp).
  assert (bytes_ok (a ++ le_of 2 c ++ post)) as Hok
    by (unfold bytes_ok; rewrite !Forall_app; split_and!; [done|apply le_of_ok|done]).
  assert (blen (a ++ le_of 2 c ++ post) = blen (a ++ [0; 0] ++ post)) as El by (by rewrite !blen_app).
  pose proof (words_sum_bound a Ha). pose proof (words_sum_bound post Hp).
  assert (words_sum (le_of 2 c) = c) as Ec.
  { change (words_sum (le_of 2 c)) with (u8 c + 256 * u8 (c / 256) + 0). ulia. }
  unfold checks. eapply wp_mono; [apply calculate_checksum_ok; [|done|lia]|].
  { rewrite <- (app_nil_r (a ++ _)) at 2. by apply (sub_bytes_app [] (a ++ le_of 2 c ++ post) []). }
  rewrite !words_sum_app in Hm, Hz by done. rewrite !words_sum_app by done.
  rewrite Ec. change (words_sum [0; 0]) with 0 in Hm, Hz.
  intros c' b' (_ & Hc' & Hm' & Hz'). ulia.
Qed.

(* ------------------------------------------------------------------ *)
(** ** The frames that are sent *)

Definition be16 (v : Z) : buf := [u8 (v / 256); u8 v].

Lemma swap_bytes v : is_u16 v → u16 (Z.lor (Z.shiftr v 8) (Z.shiftl v 8)) = v / 256 + 256 * (v mod 256).
Proof.
  intros H. rewrite Z.shiftr_div_pow2, Z.shiftl_mul_pow2 by lia. change (2 ^ 8) with 256.
  assert (Z.lor (v / 256) (v * 256) = v / 256 + v * 256) as ->; [|ulia].
  rewrite Z.add_nocarry_lxor, Z.lxor_lor; [done| |];
    (apply Z.bits_inj'; intros i Hi; rewrite Z.land_spec, Z.bits_0;
     change 256 with (2 ^ 8); destruct (Z.ltb_spec i 8);
     [by rewrite Z.mul_pow2_bits_low, andb_false_r
     |rewrite (Z.bits_above_log2 (v / 2 ^ 8) i); [done|ulia|];
      destruct (decide (v / 2 ^ 8 = 0)) as [->|]; [simpl; lia|];
      apply Z.log2_lt_pow2; [ulia|];
      apply Z.lt_le_trans with (2 ^ 8); [ulia|by apply Z.pow_le_mono_r]]).
Qed.

Lemma le_htons v : is_u16 v → le_of 2 (htons v) = be16 v.
Proof.
  intros H. unfold htons. rewrite swap_bytes by done. cbn [le_of]. unfold be16.
  f_equal; [ulia|f_equal; ulia].
Qed.

Lemma ntohs_be16 v : is_u16 v → ntohs (le_val (be16 v)) = v.
Proof.
  intros H. unfold ntohs. cbn [le_val be16]. rewrite swap_bytes; ulia.
Qed.

(** The three parts of a frame, given the checksums. *)
Definition ether_bytes (dst src : buf) : buf := dst ++ src ++ [8; 0].
Definition ip_bytes (len ck : Z) (src dst : buf) : buf :=
  [69; 0] ++ be16 len ++ be16 4660 ++ [0; 0; 128; 1] ++ le_of 2 ck ++ src ++ dst.
Definition icmp_bytes (type ck : Z) (body : buf) : buf := [type; 0] ++ le_of 2 ck ++ body.

(** A computation that only reads. *)
Definition reads {A} (m : M buf A) (a : A) : Prop := ∀ b, m b = Some (a, b).

Lemma wp_reads {A} (m : M buf A) a b (Q : A → buf → Prop) : reads m a → Q a b → wp m b Q.
Proof. intros H HQ. unfold wp. by rewrite H. Qed.

Lemma reads_bytes off n p x : sub_bytes off n p = Some x → reads (peek (get_bytes off n) p) x.
Proof. intros H b. unfold peek, get_bytes. by rewrite H. Qed.

Lemma reads_b16 off p x : sub_bytes off 2 p = Some x → reads (peek (b16 off) p) (le_val x).
Proof. intros H b. unfold peek, b16, get_bytes, bind. by rewrite H. Qed.

(** The sizes of the fields up to the data; then the data and what is left. *)
Definition frame_sizes (n r : nat) : list nat :=
  [6; 6; 1; 1; 1; 1; 2; 2; 2; 1; 1; 2; 4; 4; 1; 1; 2; 2; 2; n; r]%nat.

(** Write field [k] of the frame being built. *)
Ltac put_field k Hc :=
  eapply (wp_put_field _ _ k); [exact Hc|simpl; rewrite ?length_le_of; congruence|reflexivity|];
  clear Hc; intros Hc; cbn [insert list_insert] in Hc |- *.

Lemma ip_bytes_ok len sip dip : bytes_ok sip → bytes_ok dip → bytes_ok (ip_bytes len 0 sip dip).
Proof.
  intros Hs Hd. unfold ip_bytes, be16, bytes_ok. rewrite !Forall_app.
  split_and!; try done; repeat constructor; ulia.
Qed.

Lemma ip_bytes_len len c sip dip :
  length sip = 4%nat → length dip = 4%nat → blen (ip_bytes len c sip dip) = 20.
Proof. intros Hs Hd. unfold ip_bytes, be16, blen. rewrite !length_app, length_le_of, Hs, Hd. done. Qed.

Lemma ip_bytes_checks len c sip dip :
  length sip = 4%nat → length dip = 4%nat → bytes_ok sip → bytes_ok dip → is_u16 c →
  (c + words_sum (ip_bytes len 0 sip dip)) mod 65535 = 0 →
  (c = 65535 ↔ words_sum (ip_bytes len 0 sip dip) = 0) → checks (ip_bytes len c sip dip).
Proof.
  intros Ls Ld Hs Hd Hc. apply (checksum_checks
    [69; 0; u8 (len / 256); u8 len; u8 (4660 / 256); u8 4660; 0; 0; 128; 1] (sip ++ dip) c); try done.
  - by apply (ip_bytes_ok len).
  - change (blen (ip_bytes len 0 sip dip) <= 65536). by rewrite ip_bytes_len.
Qed.

Lemma wp_headers junk n r dst src len rs rd sip dip (Q : unit → buf → Prop) :
  length junk = 1500%nat → (42 + n + r = 1500)%nat → length dst = 6%nat → length src = 6%nat →
  length sip = 4%nat → length dip = 4%nat → bytes_ok sip → bytes_ok dip →
  reads rs sip → reads rd dip →
  (∀ c segs, checks (ip_bytes (u16 len) c sip dip) → cut (drop 14 (frame_sizes n r)) segs →
     Q tt (ether_bytes dst src ++ ip_bytes (u16 len) c sip dip ++ concat segs)) →
  wp (ether_header dst src ;; ipv4_header len rs rd) junk Q.
Proof.
  intros Hj Hn Hd Hs Hsip Hdip Bs Bd Rs Rd HQ.
  destruct (cut_exists (frame_sizes n r) junk) as (segs & Hc & <-); [rewrite Hj; simpl; lia|].
  unfold frame_sizes in Hc. repeat apply Forall2_cons_inv_l in Hc as (? & ? & ? & Hc & ->).
  apply Forall2_nil_inv_l in Hc as ->.
  match goal with |- wp _ (concat ?l) _ => assert (cut (frame_sizes n r) l) as Hc by (repeat constructor; done) end.
  unfold ether_header, ipv4_header. repeat wp_step. put_field 0%nat Hc.
  wp_step. put_field 1%nat Hc. wp_step. put_field 2%nat Hc. put_field 3%nat Hc.
  repeat wp_step. put_field 4%nat Hc. wp_step. put_field 5%nat Hc. wp_step. put_field 6%nat Hc.
  wp_step. put_field 7%nat Hc. wp_step. put_field 8%nat Hc. wp_step. put_field 9%nat Hc.
  wp_step. put_field 10%nat Hc. wp_step. put_field 11%nat Hc.
  wp_step. eapply wp_reads; [done|]. wp_step. put_field 12%nat Hc.
  wp_step. eapply wp_reads; [done|]. wp_step. put_field 13%nat Hc. wp_step.
  pose proof (sub_fields _ _ 4 10 ETHER_HEADER_SIZE IPV4_HEADER_SIZE Hc eq_refl eq_refl) as Hr.
  match type of Hr with _ = Some ?x => assert (x = ip_bytes (u16 len) 0 sip dip) as E; [|rewrite E in Hr; clear E] end.
  { cbn [take drop concat].
    rewrite le_htons, app_nil_r by apply u16_range. done. }
  eapply wp_mono; [by apply (calculate_checksum_ok _ _ _ _ Hr); [apply ip_bytes_ok|rewrite ip_bytes_len]|].
  intros c b' (-> & Hu & Hm & Hz). put_field 11%nat Hc.
  rewrite (concat_parts 4 10). cbn [take drop concat]. rewrite !app_nil_r.
  rewrite le_htons by apply u16_range.
  specialize (HQ c [x13; x14; x15; x16; x17; x18; x19]). cbn [concat] in HQ. rewrite app_nil_r in HQ.
  apply HQ.
  - apply (ip_bytes_checks (u16 len) c sip dip); done.
  - by apply (cut_drop 14) in Hc.
Qed.

Definition message_sizes (n r : nat) : list nat := [34; 1; 1; 2; 2; 2; n; r]%nat.

Lemma icmp_bytes_ok type body : is_u8 type → bytes_ok body → bytes_ok (icmp_bytes type 0 body).
Proof.
  intros Ht Hb. unfold icmp_bytes, bytes_ok. rewrite !Forall_app. split_and!; [|apply le_of_ok|done].
  apply Forall_cons; split; [done|]. apply Forall_singleton. ulia.
Qed.

Section message.
Context (h : buf) (n r : nat) (segs : list buf) (type iv qv : Z) (data : buf).
Context (ri rq : M buf Z) (rdata : M buf buf).
Hypothesis (Hh : length h = 34%nat) (Hc : cut (drop 14 (frame_sizes n r)) segs).
Hypothesis (Ri : reads ri iv) (Rq : reads rq qv) (Rd : reads rdata data).

Let body : buf := le_of 2 iv ++ le_of 2 qv ++ data.

Lemma wp_icmp_message total (Q : unit → buf → Prop) :
  length data = n → total = 8 + Z.of_nat n → (n <= 1466)%nat → is_u8 type → bytes_ok data →
  (∀ c x, checks (icmp_bytes type c body) → length x = r → Q tt (h ++ icmp_bytes type c body ++ x)) →
  wp (icmp_message type ri rq rdata total) (h ++ concat segs) Q.
Proof using All.
  intros Hn -> Hle Ht Hd HQ. revert Hc. unfold frame_sizes, drop. intros Hc1.
  repeat apply Forall2_cons_inv_l in Hc1 as (? & ? & ? & Hc1 & ->).
  apply Forall2_nil_inv_l in Hc1 as ->.
  match goal with |- wp _ (h ++ concat ?l) _ =>
    change (h ++ concat l) with (concat (h :: l));
    assert (cut (message_sizes n r) (h :: l)) as Hf by (repeat constructor; done) end.
  unfold icmp_message. wp_step. put_field 1%nat Hf. wp_step. put_field 2%nat Hf. wp_step. put_field 3%nat Hf.
  wp_step. eapply wp_reads; [done|]. wp_step. put_field 4%nat Hf.
  wp_step. eapply wp_reads; [done|]. wp_step. put_field 5%nat Hf.
  wp_step. eapply wp_reads; [done|]. wp_step. put_field 6%nat Hf. wp_step.
  pose proof (sub_fields _ _ 1 6 (ETHER_HEADER_SIZE + IPV4_HEADER_SIZE) (8 + Z.of_nat n) Hf eq_refl
    ltac:(simpl; lia)) as Hr.
  match type of Hr with _ = Some ?x => assert (x = icmp_bytes type 0 body) as E; [|rewrite E in Hr; clear E] end.
  { cbn [take drop concat]. rewrite app_nil_r. unfold icmp_bytes, body. cbn [le_of app]. by rewrite (u8_small type). }
  assert (bytes_ok body) as Hb.
  { unfold bytes_ok, body. rewrite !Forall_app. split_and!; [apply le_of_ok..|done]. }
  assert (blen (icmp_bytes type 0 body) <= 65536) as Hl.
  { apply sub_bytes_length in Hr. lia. }
  eapply wp_mono; [apply (calculate_checksum_ok _ _ _ _ Hr); [by apply icmp_bytes_ok|done]|].
  intros c b' (-> & Hu & Hm & Hz). put_field 3%nat Hf.
  rewrite (concat_parts 1 6). cbn [take drop concat]. rewrite !app_nil_r.
  assert (le_of 1 type ++ le_of 1 0 ++ le_of 2 c ++ le_of 2 iv ++ le_of 2 qv ++ data = icmp_bytes type c body) as ->.
  { unfold icmp_bytes, body. cbn [le_of app]. by rewrite (u8_small type). }
  apply HQ; [|done]. apply (checksum_checks [type; 0] body c); try done. by apply icmp_bytes_ok.
Qed.

(** More data than is left of the array. *)
Lemma icmp_message_overflow total :
  (n + r < length data)%nat →
  icmp_message type ri rq rdata total (h ++ concat segs) = None.
Proof using All.
  intros Hle. revert Hc. unfold frame_sizes, drop. intros Hc1.
  repeat apply Forall2_cons_inv_l in Hc1 as (? & ? & ? & Hc1 & ->).
  apply Forall2_nil_inv_l in Hc1 as ->.
  match goal with |- _ (h ++ concat ?l) = _ =>
    change (h ++ concat l) with (concat (h :: l));
    assert (cut (message_sizes n r) (h :: l)) as Hf by (repeat constructor; done) end.
  unfold icmp_message. apply bind_fault. put_field 1%nat Hf. apply bind_fault. put_field 2%nat Hf.
  apply bind_fault. put_field 3%nat Hf.
  apply bind_fault. eapply wp_reads; [done|]. apply bind_fault. put_field 4%nat Hf.
  apply bind_fault. eapply wp_reads; [done|]. apply bind_fault. put_field 5%nat Hf.
  apply bind_fault. eapply wp_reads; [done|]. unfold bind, put_bytes, splice.
  apply cut_total in Hf. unfold blen. rewrite Hf.
  match goal with |- context [?a && ?b] => assert (a && b = false) as -> end; [|done].
  apply andb_false_intro2, Z.leb_gt. unfold message_sizes. simpl. unfold ETHER_HEADER_SIZE, IPV4_HEADER_SIZE, ICMP_HEADER_SIZE. lia.
Qed.
End message.

(* ------------------------------------------------------------------ *)
(** ** Answering an echo request *)

Lemma header_length vhl : u8 (Z.land vhl 15 * 4) = 4 * (vhl mod 16).
Proof. change 15 with (Z.ones 4). rewrite Z.land_ones by lia. change (2 ^ 4) with 16. ulia. Qed.

Lemma peek_ret {St A} (m : M buf A) b a : m b = Some (a, b) → @peek St A m b = ret a.
Proof. intros H. unfold peek. by rewrite H. Qed.

Lemma get_bytes_some off n b x : sub_bytes off n b = Some x → get_bytes off n b = Some (x, b).
Proof. unfold get_bytes. by intros ->. Qed.

Section reply.
Context (s : nic) (p : buf) (packet_len vhl tot : Z) (smac sip body : buf).
Let hl : Z := 4 * (vhl mod 16).
Let mac : buf := rtl8139_mac s.
Let ip : buf := my_ip_address s.
Hypothesis (Hp : bytes_ok p) (Hstk : 1500 <= blen (stack s)).
Hypothesis (Hmac : length mac = 6%nat) (Hip : length ip = 4%nat) (Hipo : bytes_ok ip).
Hypothesis (Htot : is_u16 tot) (Hhl : hl + 8 <= tot).
Hypothesis (Svhl : sub_bytes 14 1 p = Some [vhl]) (Stot : sub_bytes 16 2 p = Some (be16 tot)).
Hypothesis (Smac : sub_bytes 6 6 p = Some smac) (Ssip : sub_bytes 26 4 p = Some sip).
Hypothesis (Sbody : sub_bytes (14 + hl + 4) (tot - hl - 4) p = Some body).

Lemma body_parts : ∃ i q data, body = i ++ q ++ data ∧
  sub_bytes (14 + hl + 4) 2 p = Some i ∧ sub_bytes (14 + hl + 6) 2 p = Some q ∧
  sub_bytes (14 + hl + 8) (tot - hl - 8) p = Some data.
Proof using All.
  pose proof (sub_bytes_length _ _ _ _ Sbody) as L.
  destruct (sub_bytes_split body 2 (tot - hl - 6)) as (i & r & Hi & Hr & E); [lia..|].
  pose proof (sub_bytes_length _ _ _ _ Hr) as L2.
  destruct (sub_bytes_split r 2 (tot - hl - 8)) as (q & d & Hq & Hd & E2); [lia..|].
  exists i, q, d. subst r. split; [done|].
  assert (sub_bytes (14 + hl + 6) (tot - hl - 6) p = Some (q ++ d)) as Sr.
  { rewrite <- Hr. replace (14 + hl + 6) with (14 + hl + 4 + 2) by lia. apply (sub_bytes_sub _ _ _ _ _ _ Sbody); lia. }
  split_and!.
  - rewrite <- Hi. rewrite <- (Z.add_0_r (14 + hl + 4)). apply (sub_bytes_sub _ _ _ _ _ _ Sbody); lia.
  - rewrite <- Hq. rewrite <- (Z.add_0_r (14 + hl + 6)). apply (sub_bytes_sub _ _ _ _ _ _ Sr); lia.
  - rewrite <- Hd. replace (14 + hl + 8) with (14 + hl + 6 + 2) by lia. apply (sub_bytes_sub _ _ _ _ _ _ Sr); lia.
Qed.

(** The frame is built in the first 1500 bytes of the stack. *)
Let headers : M buf unit :=
  ether_header smac mac ;;
  ipv4_header (20 + (tot - hl)) (peek (get_bytes 0 4) ip) (peek (get_bytes 26 4) p).
Let message : M buf unit :=
  icmp_message ICMP_ECHO_REPLY (peek (b16 (14 + hl + 4)) p) (peek (b16 (14 + hl + 6)) p)
    (peek (get_bytes (14 + hl + 8) (tot - hl - 8)) p) (tot - hl).

Lemma reply_run :
  icmp_send_ping_reply p packet_len mac ip s =
  match (headers ;; message) (take 1500 (stack s)) with
  | Some (_, b) => rtl8139_send_packet b (34 + (tot - hl)) s
  | None => None
  end.
Proof using All.
  unfold icmp_send_ping_reply, local_array.
  change (14 + version_hl) with 14. change (14 + total_length) with 16.
  rewrite (peek_ret (b8 14) p vhl) by (unfold b8, get_bytes, bind; rewrite Svhl; cbn; by rewrite Z.mul_0_r, Z.add_0_r).
  rewrite (peek_ret (b16 16) p _) by (unfold b16, get_bytes, bind; by rewrite Stot).
  rewrite !bind_ret, ntohs_be16, header_length by done. fold hl.
  assert (0 <= hl) by (subst hl; lia).
  rewrite (u32_small (tot - hl)) by ulia. unfold ICMP_HEADER_SIZE, IPV4_HEADER_SIZE, ETHER_HEADER_SIZE.
  rewrite (u32_small (tot - hl - 8)), (u32_small (14 + 20 + (tot - hl))) by ulia.
  rewrite (peek_ret (get_bytes ether_src_mac 6) p _ (get_bytes_some _ _ _ _ Smac)).
  rewrite (peek_ret (get_bytes 0 6) mac mac).
  2: { apply get_bytes_some. rewrite sub_bytes_is_Some by (unfold blen; lia). f_equal. apply take_ge. lia. }
  rewrite !bind_ret, bind_assoc, bind_gets.
  rewrite (peek_ret (get_bytes 0 MAX_ETHER_PACKET_SIZE) (stack s) _
    (get_bytes_some _ _ _ _ (sub_bytes_is_Some 0 1500 _ ltac:(lia) ltac:(lia) Hstk))), bind_ret.
  change (drop (Z.to_nat 0) (stack s)) with (stack s). change (Z.to_nat 1500) with 1500%nat.
  rewrite <- bind_assoc. change (14 + src_ip) with 26. unfold icmp_identifier, icmp_sequence.
  fold headers. fold message. destruct ((headers ;; message) (take 1500 (stack s))) as [[[] b]|]; [|done].
  by replace (14 + 20 + (tot - hl)) with (34 + (tot - hl)) by lia.
Qed.

Let reply (c1 c2 : Z) : buf :=
  ether_bytes smac mac ++ ip_bytes (20 + (tot - hl)) c1 ip sip ++ icmp_bytes ICMP_ECHO_REPLY c2 body.

Lemma reply_prefix c :
  length (ether_bytes smac mac ++ ip_bytes (u16 (20 + (tot - hl))) c ip sip) = 34%nat.
Proof using All.
  pose proof (sub_bytes_length _ _ _ _ Smac). pose proof (sub_bytes_length _ _ _ _ Ssip).
  unfold blen in *. pose proof (ip_bytes_len (u16 (20 + (tot - hl))) c ip sip Hip ltac:(lia)).
  unfold ether_bytes, blen in *. rewrite !length_app, Hmac. cbn [length]. lia.
Qed.

Lemma wp_reply_headers n r (Q : unit → buf → Prop) :
  (42 + n + r = 1500)%nat →
  (∀ c segs, checks (ip_bytes (u16 (20 + (tot - hl))) c ip sip) → cut (drop 14 (frame_sizes n r)) segs →
     Q tt ((ether_bytes smac mac ++ ip_bytes (u16 (20 + (tot - hl))) c ip sip) ++ concat segs)) →
  wp headers (take 1500 (stack s)) Q.
Proof using All.
  intros Hn HQ. pose proof (sub_bytes_length _ _ _ _ Smac). pose proof (sub_bytes_length _ _ _ _ Ssip).
  unfold blen in *. apply (wp_headers _ n r _ _ _ _ _ ip sip); try (done || lia).
  - rewrite length_take. lia.
  - exact (sub_bytes_ok _ _ _ _ Hp Ssip).
  - apply reads_bytes. rewrite sub_bytes_is_Some by (unfold blen; lia). f_equal. apply take_ge. lia.
  - by apply reads_bytes.
  - intros c segs Hck Hcut. rewrite app_assoc. by apply HQ.
Qed.

Lemma reply_fits : tot - hl <= 1466 →
  wp (icmp_send_ping_reply p packet_len mac ip) s (λ _ s', ∃ c1 c2,
    sent s' = sent s ++ [reply c1 c2] ∧
    checks (ip_bytes (20 + (tot - hl)) c1 ip sip) ∧ checks (icmp_bytes ICMP_ECHO_REPLY c2 body)).
Proof using All.
  intros Hle. assert (0 <= hl) by (subst hl; lia). destruct body_parts as (i & q & d & Eb & Si & Sq & Sd).
  pose proof (sub_bytes_length _ _ _ _ Smac) as L1. pose proof (sub_bytes_length _ _ _ _ Ssip) as L2.
  pose proof (sub_bytes_length _ _ _ _ Sd) as L3. pose proof (sub_bytes_length _ _ _ _ Si) as L4.
  pose proof (sub_bytes_length _ _ _ _ Sq) as L5. unfold blen in *.
  assert (wp (headers ;; message) (take 1500 (stack s)) (λ _ b, ∃ c1 c2 x, b = reply c1 c2 ++ x ∧
    checks (ip_bytes (20 + (tot - hl)) c1 ip sip) ∧ checks (icmp_bytes ICMP_ECHO_REPLY c2 body))) as W.
  { wp_step. apply (wp_reply_headers (length d) (1458 - length d)); [lia|]. intros c1 segs Hck Hcut.
    eapply (wp_icmp_message _ (length d) (1458 - length d) _ _ (le_val i) (le_val q) d);
      [apply reply_prefix|done|by apply reads_b16|by apply reads_b16|by apply reads_bytes|done|lia|lia|done|exact (sub_bytes_ok _ _ _ _ Hp Sd)|].
    intros c2 x Hck2 _. assert (bytes_ok i ∧ bytes_ok q) as [Bi Bq]
      by (split; [exact (sub_bytes_ok _ _ _ _ Hp Si)|exact (sub_bytes_ok _ _ _ _ Hp Sq)]).
    replace (le_of 2 (le_val i)) with i in Hck2 |- * by (symmetry; replace 2%nat with (length i) by lia; by apply le_of_val).
    replace (le_of 2 (le_val q)) with q in Hck2 |- * by (symmetry; replace 2%nat with (length q) by lia; by apply le_of_val).
    rewrite <- Eb in Hck2 |- *. rewrite u16_small in Hck |- * by ulia.
    exists c1, c2, x. split; [|done]. unfold reply. by rewrite <- !app_assoc. }
  apply wp_elim in W as ([] & b & E & c1 & c2 & x & -> & K1 & K2). unfold wp. rewrite reply_run, E.
  assert (blen (reply c1 c2) = 34 + (tot - hl)) as Lr.
  { pose proof (reply_prefix c1) as Lp. rewrite u16_small in Lp by ulia.
    unfold reply. rewrite app_assoc, blen_app. unfold blen at 1. rewrite Lp.
    unfold icmp_bytes. rewrite Eb, !blen_app. unfold blen. rewrite length_le_of. cbn [length]. lia. }
  apply (wp_send (reply c1 c2) x); [done|unfold RTL8139_MAX_TRANSMIT_SIZE; lia|].
  exists c1, c2. split; [reflexivity|]. split; [exact K1|exact K2].
Qed.

Lemma reply_overflows : 1466 < tot - hl → icmp_send_ping_reply p packet_len mac ip s = None.
Proof using All.
  intros Hle. destruct body_parts as (i & q & d & Eb & Si & Sq & Sd).
  pose proof (sub_bytes_length _ _ _ _ Sd) as L3. unfold blen in L3.
  pose proof (sub_bytes_length _ _ _ _ Smac) as L1. pose proof (sub_bytes_length _ _ _ _ Ssip) as L2. unfold blen in *.
  rewrite reply_run. rewrite bind_fault; [done|].
  apply (wp_reply_headers 0 1458); [lia|]. intros c1 segs Hck Hcut.
  eapply (icmp_message_overflow _ 0 1458 _ _ (le_val i) (le_val q) d);
    [apply reply_prefix|done|by apply reads_b16|by apply reads_b16|by apply reads_bytes|lia].
Qed.
End reply.

(** C38: answering an echo request whose IP header says [tot] bytes in all and
    [hl] bytes of header, [body] being the message from its identifier on. If
    the message fits, exactly one frame is sent: back to the sender, from our
    addresses, an echo reply with the request's identifier, sequence number and
    data, of the right length, in which both checksums verify; no byte of it
    is left over from the stack. If the message is longer than the 1466 bytes
    that the local array has room for, the copy runs past the array's end:
    the length comes from the packet and is not compared with anything. *)
Theorem icmp_ping_reply_correct s p packet_len vhl tot smac sip body :
  let hl := 4 * (vhl mod 16) in
  bytes_ok p → 1500 <= blen (stack s) →
  length (rtl8139_mac s) = 6%nat → length (my_ip_address s) = 4%nat → bytes_ok (my_ip_address s) →
  is_u16 tot → hl + 8 <= tot →
  sub_bytes 14 1 p = Some [vhl] → sub_bytes 16 2 p = Some (be16 tot) →
  sub_bytes 6 6 p = Some smac → sub_bytes 26 4 p = Some sip →
  sub_bytes (14 + hl + 4) (tot - hl - 4) p = Some body →
  (tot - hl <= 1466 →
   wp (icmp_send_ping_reply p packet_len (rtl8139_mac s) (my_ip_address s)) s (λ _ s', ∃ c1 c2,
     let ip := ip_bytes (20 + (tot - hl)) c1 (my_ip_address s) sip in
     let icmp := icmp_bytes ICMP_ECHO_REPLY c2 body in
     sent s' = sent s ++ [ether_bytes smac (rtl8139_mac s) ++ ip ++ icmp] ∧ checks ip ∧ checks icmp)) ∧
  (1466 < tot - hl →
   icmp_send_ping_reply p packet_len (rtl8139_mac s) (my_ip_address s) s = None).
Proof. intros hl **. split; [by apply reply_fits|by eapply reply_overflows]. Qed.

Definition demo_nic : nic := Nic [2; 0; 0; 0; 0; 1] [10; 0; 2; 15] [] (replicate 1500 170) (Transmitter (λ _, 0) 2097152 0 []).
Definition demo_request : buf :=
  [2; 0; 0; 0; 0; 1; 2; 0; 0; 0; 0; 9; 8; 0] ++
  [69; 0; 0; 30; 0; 1; 0; 0; 64; 1; 0; 0; 10; 0; 2; 2; 10; 0; 2; 15] ++
  [8; 0; 0; 0; 67; 33; 0; 7; 104; 105].

Lemma icmp_ping_reply_correct_witness :
  wp (icmp_send_ping_reply demo_request 44 (rtl8139_mac demo_nic) (my_ip_address demo_nic)) demo_nic
    (λ _ s', ∃ f, sent s' = [f] ∧ blen f = 44).
Proof.
  destruct (icmp_ping_reply_correct demo_nic demo_request 44 69 30 [2; 0; 0; 0; 0; 9]
    [10; 0; 2; 2] [67; 33; 0; 7; 104; 105]) as [H _].
  1, 5: apply bytes_ok_check; vm_compute; reflexivity.
  1: apply Z.leb_le; vm_compute; reflexivity.
  1, 2, 5, 6, 7, 8, 9: vm_compute; reflexivity.
  1: split; [discriminate|reflexivity].
  1: vm_compute; discriminate.
  eapply wp_mono; [exact (H ltac:(vm_compute; discriminate))|].
  intros [] s' (c1 & c2 & E & _). eexists. split; [exact E|].
  rewrite !blen_app. unfold ip_bytes, icmp_bytes. rewrite !blen_app. unfold blen. rewrite !length_le_of.
  reflexivity.
Defined.

(* ------------------------------------------------------------------ *)
(** ** A ping and its reply *)

(** The turn of [same_ip] that compares [x] with [y]. *)
Ltac ip_byte x y :=
  cbn; destruct (Z.eqb_spec x y) as [->|];
  [|by rewrite bool_decide_eq_false_2 by congruence].

Lemma same_ip_ok at_ our_ip p x :
  length our_ip = 4%nat → sub_bytes at_ 4 p = Some x →
  same_ip at_ our_ip p = Some (bool_decide (x = our_ip), p).
Proof.
  intros Ho Hx. pose proof (sub_bytes_length _ _ _ _ Hx) as Lx.
  assert (∀ i, 0 <= i < 4 → sub_bytes (at_ + i) 1 p = sub_bytes i 1 x) as Hi
    by (intros i Hi; apply (sub_bytes_sub _ _ _ _ _ _ Hx); lia).
  destruct x as [|x0 [|x1 [|x2 [|x3 [|]]]]]; try (unfold blen in Lx; simpl in Lx; lia).
  destruct our_ip as [|y0 [|y1 [|y2 [|y3 [|]]]]]; try (simpl in Ho; lia).
  assert (∀ i a, 0 <= i < 4 → sub_bytes i 1 [x0; x1; x2; x3] = Some [a] → b8 (at_ + i) p = Some (a, p)) as Hb
    by (intros i a Hr H; apply b8_at; by rewrite Hi).
  unfold same_ip, scan_range, bind. change (Z.to_nat (4 - 0)) with 4%nat. cbn [scan_n]. unfold bind.
  change (0 + 1) with 1. change (1 + 1) with 2. change (2 + 1) with 3.
  rewrite (Hb 0 x0 ltac:(lia) eq_refl), (peek_ret (b8 0) _ y0 (b8_at 0 [y0; y1; y2; y3] _ eq_refl)).
  ip_byte x0 y0.
  rewrite (Hb 1 x1 ltac:(lia) eq_refl), (peek_ret (b8 1) _ y1 (b8_at 1 [y0; y1; y2; y3] _ eq_refl)).
  ip_byte x1 y1.
  rewrite (Hb 2 x2 ltac:(lia) eq_refl), (peek_ret (b8 2) _ y2 (b8_at 2 [y0; y1; y2; y3] _ eq_refl)).
  ip_byte x2 y2.
  rewrite (Hb 3 x3 ltac:(lia) eq_refl), (peek_ret (b8 3) _ y3 (b8_at 3 [y0; y1; y2; y3] _ eq_refl)).
  ip_byte x3 y3. by rewrite bool_decide_eq_true_2.
Qed.

(** The fields of a frame with a 20-byte IP header, and what follows it. *)
Definition echo_sizes (n r : nat) : list nat :=
  [6; 6; 2; 1; 1; 2; 2; 2; 1; 1; 2; 4; 4; 1; 1; 2; 2; 2; n; r]%nat.
Definition echo_fields (dst src : buf) (len c1 : Z) (sip dip : buf) (type c2 : Z) (i q data tail : buf)
    : list buf :=
  [dst; src; [8; 0]; [69]; [0]; be16 len; be16 4660; [0; 0]; [128]; [1]; le_of 2 c1; sip; dip;
   [type]; [0]; le_of 2 c2; i; q; data; tail].

Lemma echo_fields_concat dst src len c1 sip dip type c2 i q data tail :
  (ether_bytes dst src ++ ip_bytes len c1 sip dip ++ icmp_bytes type c2 (i ++ q ++ data)) ++ tail =
  concat (echo_fields dst src len c1 sip dip type c2 i q data tail).
Proof.
  unfold ether_bytes, ip_bytes, icmp_bytes, echo_fields. cbn [concat]. rewrite app_nil_r, <- !app_assoc. done.
Qed.

Lemma echo_cut dst src len c1 sip dip type c2 i q data tail :
  length dst = 6%nat → length src = 6%nat → length sip = 4%nat → length dip = 4%nat →
  length i = 2%nat → length q = 2%nat →
  cut (echo_sizes (length data) (length tail))
    (echo_fields dst src len c1 sip dip type c2 i q data tail).
Proof. intros. repeat constructor; done. Qed.

Section echo.
Context (dst src : buf) (len c1 : Z) (sip dip : buf) (type c2 : Z) (i q data tail : buf).
Hypothesis (Hc : cut (echo_sizes (length data) (length tail))
  (echo_fields dst src len c1 sip dip type c2 i q data tail)).
Let f : buf := concat (echo_fields dst src len c1 sip dip type c2 i q data tail).

Lemma echo_field k off n x :
  echo_fields dst src len c1 sip dip type c2 i q data tail !! k = Some x →
  off = Z.of_nat (sum_list (take k (echo_sizes (length data) (length tail)))) → n = blen x →
  sub_bytes off n f = Some x.
Proof using Hc. intros. by eapply sub_field. Qed.

Lemma echo_icmp : icmp_of ETHER_HEADER_SIZE f = Some (34, f).
Proof using Hc. unfold icmp_of, bind. by rewrite (b8_at _ f 69 (echo_field 3 (ETHER_HEADER_SIZE + version_hl) 1 [69] eq_refl eq_refl eq_refl)). Qed.

Lemma echo_is_request : length dip = 4%nat →
  icmp_is_ping_request ETHER_HEADER_SIZE dip f = Some (type =? ICMP_ECHO_REQUEST, f).
Proof using Hc.
  intros Hd. unfold icmp_is_ping_request, bind.
  rewrite (same_ip_ok _ dip f dip Hd (echo_field 12 (ETHER_HEADER_SIZE + dst_ip) 4 dip eq_refl eq_refl ltac:(unfold blen; lia))).
  rewrite bool_decide_eq_true_2 by done. cbn [negb].
  rewrite (b8_at _ f 1 (echo_field 9 (ETHER_HEADER_SIZE + protocol) 1 [1] eq_refl eq_refl eq_refl)).
  change (negb (1 =? ICMP_PROTOCOL)) with false. cbv beta iota. rewrite echo_icmp.
  rewrite (b8_at _ f type (echo_field 13 (34 + icmp_type) 1 [type] eq_refl eq_refl eq_refl)).
  destruct (type =? ICMP_ECHO_REQUEST); [|done]. cbn [negb]. cbv beta iota.
  by rewrite (b8_at _ f 0 (echo_field 14 (34 + icmp_code) 1 [0] eq_refl eq_refl eq_refl)).
Qed.

Lemma echo_is_reply : length i = 2%nat →
  icmp_is_echo_reply ETHER_HEADER_SIZE f =
    Some ((type =? ICMP_ECHO_REPLY) && (ntohs (le_val i) =? OUR_PING_IDENTIFIER), f).
Proof using Hc.
  intros Hi. unfold icmp_is_echo_reply, bind.
  rewrite (b8_at _ f 1 (echo_field 9 (ETHER_HEADER_SIZE + protocol) 1 [1] eq_refl eq_refl eq_refl)).
  change (negb (1 =? ICMP_PROTOCOL)) with false. cbv beta iota. rewrite echo_icmp.
  rewrite (b8_at _ f type (echo_field 13 (34 + icmp_type) 1 [type] eq_refl eq_refl eq_refl)).
  destruct (type =? ICMP_ECHO_REPLY); [|done]. cbn [negb]. cbv beta iota.
  rewrite (b8_at _ f 0 (echo_field 14 (34 + icmp_code) 1 [0] eq_refl eq_refl eq_refl)).
  change (negb (0 =? 0)) with false. cbv beta iota.
  by rewrite (b16_at _ f i (echo_field 16 (34 + icmp_identifier) 2 i eq_refl eq_refl ltac:(unfold blen; lia))).
Qed.

Lemma echo_sequence : length q = 2%nat →
  icmp_get_reply_sequence ETHER_HEADER_SIZE f = Some (ntohs (le_val q), f).
Proof using Hc.
  intros Hq. unfold icmp_get_reply_sequence, bind. rewrite echo_icmp.
  by rewrite (b16_at _ f q (echo_field 17 (34 + icmp_sequence) 2 q eq_refl eq_refl ltac:(unfold blen; lia))).
Qed.

Lemma echo_data_len : is_u16 len → 28 <= len →
  icmp_get_reply_data_len ETHER_HEADER_SIZE f = Some (len - 28, f).
Proof using Hc.
  intros Hl Hl'. unfold icmp_get_reply_data_len, bind.
  rewrite (b8_at _ f 69 (echo_field 3 (ETHER_HEADER_SIZE + version_hl) 1 [69] eq_refl eq_refl eq_refl)).
  rewrite (b16_at _ f (be16 len) (echo_field 5 (ETHER_HEADER_SIZE + total_length) 2 _ eq_refl eq_refl eq_refl)).
  rewrite ntohs_be16 by done. change (u8 (Z.land 69 15 * 4)) with 20. unfold ret, ICMP_HEADER_SIZE.
  do 2 f_equal. ulia.
Qed.
End echo.

(** A card with its addresses and room on the stack. *)
Record nic_ok (s : nic) : Prop := {
  no_mac : length (rtl8139_mac s) = 6%nat;
  no_mac_ok : bytes_ok (rtl8139_mac s);
  no_ip : length (my_ip_address s) = 4%nat;
  no_ip_ok : bytes_ok (my_ip_address s);
  no_stack : 1500 <= blen (stack s)
}.

Definition ping_payload : buf := take 16 ping_data.

Lemma wp_local_array n body s (Q : buf → nic → Prop) :
  0 <= n <= blen (stack s) → wp body (take (Z.to_nat n) (stack s)) (λ _ b, Q b s) →
  wp (local_array n body) s Q.
Proof.
  intros Hs W. unfold local_array. repeat wp_step. apply wp_peek.
  eapply wp_get_bytes; [apply (sub_bytes_is_Some 0 n); lia|].
  apply wp_elim in W as (u & b & E & HQ). change (drop (Z.to_nat 0) (stack s)) with (stack s).
  rewrite E. by apply wp_ret.
Qed.

Lemma reads_all b n : n = blen b → reads (peek (get_bytes 0 n) b) b.
Proof.
  intros ->. apply reads_bytes. rewrite <- (app_nil_r b) at 2. apply (sub_bytes_app [] b []).
Qed.

Lemma wp_echo_request s target seq dmac :
  nic_ok s → length target = 4%nat → bytes_ok target → length dmac = 6%nat → is_u16 seq →
  wp (icmp_send_echo_request target seq (rtl8139_mac s) (my_ip_address s) dmac) s (λ r s', r = true ∧ ∃ c1 c2,
    let ip := ip_bytes 44 c1 (my_ip_address s) target in
    let icmp := icmp_bytes ICMP_ECHO_REQUEST c2 (be16 OUR_PING_IDENTIFIER ++ be16 seq ++ ping_payload) in
    s' = send (ether_bytes dmac (rtl8139_mac s) ++ ip ++ icmp) s ∧ checks ip ∧ checks icmp).
Proof.
  intros [Hm _ Hi Hio Hs] Ht Hto Hd Hq. unfold icmp_send_echo_request.
  change (MAX_ETHER_PACKET_SIZE <? _) with false. cbv iota. wp_step.
  apply wp_local_array; [unfold MAX_ETHER_PACKET_SIZE; lia|].
  change (Z.to_nat MAX_ETHER_PACKET_SIZE) with 1500%nat. wp_step. apply (wp_reads _ dmac); [apply reads_all; unfold blen; lia|].
  wp_step. apply (wp_reads _ (rtl8139_mac s)); [apply reads_all; unfold blen; lia|]. apply wp_assoc. wp_step.
  apply (wp_headers _ 16 1442 _ _ _ _ _ (my_ip_address s) target); try done.
  - rewrite length_take. unfold blen in Hs. lia.
  - apply reads_all. unfold blen; lia.
  - apply reads_all. unfold blen; lia.
  - intros c1 segs K1 Hc. rewrite app_assoc.
    eapply (wp_icmp_message _ 16 1442 _ _ (htons OUR_PING_IDENTIFIER) (htons seq) ping_payload);
      [|exact Hc|intros b; reflexivity|intros b; reflexivity|apply reads_bytes; reflexivity
       |reflexivity|reflexivity|lia|split; [discriminate|reflexivity]| |].
    + pose proof (ip_bytes_len (u16 (IPV4_HEADER_SIZE + ICMP_HEADER_SIZE + (PING_DATA_LENGTH - 1))) c1 (my_ip_address s) target Hi Ht) as L.
      unfold ether_bytes, blen in *. rewrite !length_app. cbn [length]. lia.
    + by apply bytes_ok_check.
    + rewrite !le_htons by done. intros c2 x K2 Lx. wp_step. rewrite app_assoc. apply wp_send.
      * rewrite !blen_app, ip_bytes_len by done. unfold icmp_bytes, ether_bytes, blen.
        rewrite !length_app, length_le_of, Hd, Hm. done.
      * split; [reflexivity|discriminate].
      * wp_step. split; [reflexivity|]. exists c1, c2. rewrite <- app_assoc. split; [reflexivity|].
        split; [exact K1|exact K2].
Qed.

Lemma be16_ok v : bytes_ok (be16 v).
Proof. unfold be16. repeat (apply Forall_cons_2; [ulia|]). apply Forall_nil_2. Qed.

Lemma echo_bytes_ok dst src len c1 sip dip c2 i q data tail :
  bytes_ok dst → bytes_ok src → bytes_ok sip → bytes_ok dip → bytes_ok i → bytes_ok q →
  bytes_ok data → bytes_ok tail →
  bytes_ok (concat (echo_fields dst src len c1 sip dip ICMP_ECHO_REQUEST c2 i q data tail)).
Proof.
  intros. apply Forall_concat. unfold echo_fields.
  repeat match goal with |- Forall (Forall _) _ => first [apply Forall_cons_2|apply Forall_nil_2] end;
    solve [assumption|apply le_of_ok|apply be16_ok|by apply bytes_ok_check].
Qed.

(** C37: a ping end to end. The frame that one machine sends to [b] is, whatever
    follows it in the receive buffer, recognised by [b] as an echo request for
    it; [b]'s handler sends one frame back, and that frame is recognised by the
    first machine as the reply to its own ping, with the sequence number and
    the data length it sent. *)
Theorem ping_roundtrip a b seq :
  nic_ok a → nic_ok b → is_u16 seq →
  wp (icmp_send_echo_request (my_ip_address b) seq (rtl8139_mac a) (my_ip_address a) (rtl8139_mac b)) a
    (λ r a', r = true ∧ ∃ req, a' = send req a ∧ ∀ tail, bytes_ok tail →
      let p := req ++ tail in
      icmp_is_ping_request ETHER_HEADER_SIZE (my_ip_address b) p = Some (true, p) ∧
      wp (icmp_send_ping_reply p (blen req) (rtl8139_mac b) (my_ip_address b)) b (λ _ b', ∃ rep,
        sent b' = sent b ++ [rep] ∧ ∀ tail',
        let q := rep ++ tail' in
        icmp_is_echo_reply ETHER_HEADER_SIZE q = Some (true, q) ∧
        icmp_get_reply_sequence ETHER_HEADER_SIZE q = Some (seq, q) ∧
        icmp_get_reply_data_len ETHER_HEADER_SIZE q = Some (16, q))).
Proof.
  intros Ha Hb Hq. pose proof Ha as [Am Amo Ai Aio As]. pose proof Hb as [Bm Bmo Bi Bio Bs].
  eapply wp_mono; [apply (wp_echo_request a _ seq _ Ha Bi Bio Bm Hq)|].
  intros r a' (-> & c1 & c2 & -> & _ & _). split; [reflexivity|]. eexists. split; [reflexivity|].
  intros tail Ht p. subst p. rewrite (echo_fields_concat (rtl8139_mac b) (rtl8139_mac a) 44 c1
    (my_ip_address a) (my_ip_address b) ICMP_ECHO_REQUEST c2).
  pose proof (echo_cut (rtl8139_mac b) (rtl8139_mac a) 44 c1 (my_ip_address a) (my_ip_address b)
    ICMP_ECHO_REQUEST c2 (be16 OUR_PING_IDENTIFIER) (be16 seq) ping_payload tail Bm Am Ai Bi eq_refl eq_refl) as Hc.
  split; [rewrite (echo_is_request _ _ _ _ _ _ _ _ _ _ _ _ Hc Bi); reflexivity|].
  eapply wp_mono; [apply (reply_fits b _ _ 69 44 (rtl8139_mac a) (my_ip_address a)
    (be16 OUR_PING_IDENTIFIER ++ be16 seq ++ ping_payload)); [|exact Bs|exact Bm|exact Bi|exact Bio| | | | | | | |]|].
  - apply echo_bytes_ok; try assumption; try (apply bytes_ok_check; reflexivity); apply be16_ok.
  - ulia.
  - vm_compute. discriminate.
  - exact (echo_field _ _ _ _ _ _ _ _ _ _ _ _ Hc 3 14 1 [69] eq_refl eq_refl eq_refl).
  - exact (echo_field _ _ _ _ _ _ _ _ _ _ _ _ Hc 5 16 2 _ eq_refl eq_refl eq_refl).
  - apply (echo_field _ _ _ _ _ _ _ _ _ _ _ _ Hc 1 6 6 _ eq_refl eq_refl). unfold blen. lia.
  - apply (echo_field _ _ _ _ _ _ _ _ _ _ _ _ Hc 11 26 4 _ eq_refl eq_refl). unfold blen. lia.
  - change (14 + 4 * (69 mod 16) + 4) with 38. change (44 - 4 * (69 mod 16) - 4) with 20.
    rewrite (sub_fields _ _ 16 3 38 20 Hc eq_refl eq_refl). reflexivity.
  - vm_compute. discriminate.
  - change (20 + (44 - 4 * (69 mod 16))) with 44.
    intros [] b' (k1 & k2 & E & _ & _). eexists. split; [exact E|]. intros tail' q. subst q.
    rewrite (echo_fields_concat (rtl8139_mac a) (rtl8139_mac b) 44 k1 (my_ip_address b) (my_ip_address a)
      ICMP_ECHO_REPLY k2).
    pose proof (echo_cut (rtl8139_mac a) (rtl8139_mac b) 44 k1 (my_ip_address b) (my_ip_address a)
      ICMP_ECHO_REPLY k2 (be16 OUR_PING_IDENTIFIER) (be16 seq) ping_payload tail' Am Bm Bi Ai eq_refl eq_refl) as Hc'.
    split; [rewrite (echo_is_reply _ _ _ _ _ _ _ _ _ _ _ _ Hc' eq_refl); reflexivity|].
    split; [rewrite (echo_sequence _ _ _ _ _ _ _ _ _ _ _ _ Hc' eq_refl), ntohs_be16 by exact Hq; reflexivity|].
    rewrite (echo_data_len _ _ _ _ _ _ _ _ _ _ _ _ Hc'); [reflexivity|ulia|lia].
Qed.

Lemma demo_nic_ok : nic_ok demo_nic.
Proof.
  split; try (apply bytes_ok_check; reflexivity); try reflexivity.
Qed.

Lemma ping_roundtrip_witness :
  nic_ok demo_nic ∧
  wp (icmp_send_echo_request (my_ip_address demo_nic) 7 (rtl8139_mac demo_nic) (my_ip_address demo_nic)
        (rtl8139_mac demo_nic)) demo_nic (λ r _, r = true).
Proof.
  split; [exact demo_nic_ok|].
  eapply wp_mono; [apply (ping_roundtrip demo_nic demo_nic 7 demo_nic_ok demo_nic_ok)|].
  - split; [discriminate|reflexivity].
  - intros r a' [E _]. exact E.
Defined.
