(* ===== verification/Net.v ===== *)
(** * Address resolution and raw sockets

    [kernel/src/net/arp.c] and [kernel/src/net/net_syscalls.c]. A frame that
    arrives is delivered by the card's interrupt handler from a receive buffer
    of 2048 bytes, of which the first [len] are the frame. What happens while a
    thread yields is given as a script: for every yield, how far the clock
    moves and which frames arrive; a yield after the end of the script is a
    fault. A null pointer argument is [None]. *)

From S2P Require Import Prelude Buf Icmp.

Definition ETHER_TYPE_IPV4 : Z := 2048.
Definition ETHER_TYPE_ARP : Z := 2054.
Definition ARP_CACHE_SIZE : Z := 16.
Definition ARP_OP_REQUEST : Z := 1.
Definition ARP_OP_REPLY : Z := 2.
Definition ARP_PACKET_SIZE : Z := 42.
Definition MAX_SOCKETS : Z := 16.
Definition SOCKET_RX_BUF_SIZE : Z := 2048.
Definition SOCKET_RX_QUEUE : Z := 4.
Definition SOCKET_FD_BASE : Z := 64.
Definition AF_RAW : Z := 1.
Definition SOCK_RAW : Z := 1.
Definition RECVFROM_TIMEOUT_TICKS : Z := 3000.
Definition EBADF : Z := 9.
Definition EINVAL : Z := 22.
Definition ENFILE : Z := 23.
Definition EAFNOSUPPORT : Z := 124.

(** Offsets of the fields of [arp_packet_t]. *)
Definition hardware_type : Z := 0.
Definition protocol_type : Z := 2.
Definition hardware_addr_len : Z := 4.
Definition protocol_addr_len : Z := 5.
Definition operation : Z := 6.
Definition arp_src_mac : Z := 8.
Definition arp_src_ip : Z := 14.
Definition arp_dst_mac : Z := 18.
Definition arp_dst_ip : Z := 24.
Definition sizeof_arp_packet_t : Z := 28.

Record arp_cache_entry_t := ArpEntry { e_ip : buf; e_mac : buf; valid : bool }.

Record rx_packet_t := RxPacket { data : buf; rx_len : Z; arrived_ticks : Z }.
Record socket_t := Socket {
  in_use : bool; bound_protocol : Z;
  rx_queue : arr rx_packet_t; rx_head : Z; rx_tail : Z; rx_count : Z
}.
Record sockaddr_ll_t := SockaddrLl { sa_family : Z; sa_protocol : Z; sa_mac : buf }.
Definition sizeof_sockaddr_ll_t : Z := 10.

(** All bytes zero, as static storage starts and [memset] leaves it. *)
Definition rx_zero : rx_packet_t := RxPacket (replicate (Z.to_nat SOCKET_RX_BUF_SIZE) 0) 0 0.
Definition socket_zero : socket_t := Socket false 0 (mk_arr SOCKET_RX_QUEUE rx_zero) 0 0 0.

(** Reading an array that is part of a value. *)
Definition peek_arr {St A} (a : arr A) (i : Z) : M St A := of_opt (fst <$> ld i a).

Record net := Net {
  card : nic;
  g_arp_cache : arr arp_cache_entry_t;
  g_arp_cache_next : Z;
  g_sockets : arr socket_t;
  clock : Z;
  script : list (Z * list (buf * Z))
}.
Definition set_card c s := Net c (g_arp_cache s) (g_arp_cache_next s) (g_sockets s) (clock s) (script s).
Definition set_cache c s := Net (card s) c (g_arp_cache_next s) (g_sockets s) (clock s) (script s).
Definition set_next n s := Net (card s) (g_arp_cache s) n (g_sockets s) (clock s) (script s).
Definition set_sockets k s := Net (card s) (g_arp_cache s) (g_arp_cache_next s) k (clock s) (script s).

Definition ld_entry (i : Z) : M net arp_cache_entry_t := zoom g_arp_cache set_cache (ld i).
Definition st_entry (i : Z) (e : arp_cache_entry_t) : M net unit := zoom g_arp_cache set_cache (st i e).
Definition ld_socket (i : Z) : M net socket_t := zoom g_sockets set_sockets (ld i).
Definition st_socket (i : Z) (k : socket_t) : M net unit := zoom g_sockets set_sockets (st i k).
Definition on_card {A} (m : M nic A) : M net A := zoom card set_card m.
Definition timer_get_ticks : M net Z := gets clock.

(* ------------------------------------------------------------------ *)
(** ** The address cache *)

(** The slot of a valid entry for [ip]. *)
Definition arp_cache_find (ip : buf) : M net (option Z) :=
  scan_range 0 ARP_CACHE_SIZE (λ i,
    e ← ld_entry i;
    ret (if valid e && bool_decide (e_ip e = ip) then Some i else None)).

Definition arp_cache_lookup (ip : buf) : M net (option buf) :=
  r ← arp_cache_find ip;
  match r with
  | Some i => e ← ld_entry i; ret (Some (e_mac e))
  | None => ret None
  end.

Definition arp_cache_insert (ip mac : buf) : M net unit :=
  r ← arp_cache_find ip;
  match r with
  | Some i => e ← ld_entry i; st_entry i (ArpEntry (e_ip e) mac (valid e))
  | None =>
      n ← gets g_arp_cache_next;
      st_entry n (ArpEntry ip mac true) ;;
      modify (λ s, set_next (Z.rem (n + 1) ARP_CACHE_SIZE) s)
  end.

(* ------------------------------------------------------------------ *)
(** ** Requests and replies *)

(** [arp] is the offset of the ARP packet in the frame. *)
Definition check_arp_is_for_us (arp : Z) (our_ip : buf) : M buf bool :=
  op ← b16 (arp + operation);
  if negb (ntohs op =? ARP_OP_REQUEST) then ret false
  else same_ip (arp + arp_dst_ip) our_ip.

Definition arp_body (op : Z) (src_mac src_ip dst_mac dst_ip : buf) : M buf unit :=
  let arp := ETHER_HEADER_SIZE in
  w16 (arp + hardware_type) (htons 1) ;;
  w16 (arp + protocol_type) (htons ETHER_TYPE_IPV4) ;;
  w8 (arp + hardware_addr_len) 6 ;;
  w8 (arp + protocol_addr_len) 4 ;;
  w16 (arp + operation) (htons op) ;;
  put_bytes (arp + arp_src_mac) src_mac ;;
  put_bytes (arp + arp_src_ip) src_ip ;;
  put_bytes (arp + arp_dst_mac) dst_mac ;;
  put_bytes (arp + arp_dst_ip) dst_ip.

(** [request] is the offset of the ARP request in frame [p]. *)
Definition arp_send_reply (p : buf) (request : Z) (our_mac our_ip : buf) : M nic unit :=
  reply_packet ← local_array ARP_PACKET_SIZE (
    dst ← peek (get_bytes (request + arp_src_mac) 6) p;
    mac ← peek (get_bytes 0 6) our_mac;
    ip ← peek (get_bytes 0 4) our_ip;
    dip ← peek (get_bytes (request + arp_src_ip) 4) p;
    put_bytes ether_dst_mac dst ;;
    put_bytes ether_src_mac mac ;;
    w8 ether_type 8 ;;
    w8 (ether_type + 1) 6 ;;
    arp_body ARP_OP_REPLY mac ip dst dip);
  rtl8139_send_packet reply_packet ARP_PACKET_SIZE.

Definition arp_send_request (target_ip our_mac our_ip : buf) : M nic unit :=
  request_packet ← local_array ARP_PACKET_SIZE (
    fill_bytes 0 0 ARP_PACKET_SIZE ;;
    mac ← peek (get_bytes 0 6) our_mac;
    ip ← peek (get_bytes 0 4) our_ip;
    dip ← peek (get_bytes 0 4) target_ip;
    fill_bytes ether_dst_mac 255 6 ;;
    put_bytes ether_src_mac mac ;;
    w8 ether_type 8 ;;
    w8 (ether_type + 1) 6 ;;
    arp_body ARP_OP_REQUEST mac ip (replicate 6 255) dip);
  rtl8139_send_packet request_packet ARP_PACKET_SIZE.

Definition arp_is_reply (len : Z) : M buf (option buf) :=
  if len <? ETHER_HEADER_SIZE + sizeof_arp_packet_t then ret None
  else
    hi ← b8 12;
    lo ← b8 13;
    if negb (Z.lor (Z.shiftl hi 8) lo =? ETHER_TYPE_ARP) then ret None
    else
      op ← b16 (ETHER_HEADER_SIZE + operation);
      if negb (ntohs op =? ARP_OP_REPLY) then ret None
      else mac ← get_bytes (ETHER_HEADER_SIZE + arp_src_mac) 6; ret (Some mac).

(* ------------------------------------------------------------------ *)
(** ** Delivering a frame *)

Definition arp_handle (packet : buf) (len : Z) : M net Z :=
  let arp := ETHER_HEADER_SIZE in
  op ← peek (b16 (arp + operation)) packet;
  when (ntohs op =? ARP_OP_REPLY)
    (ip ← peek (get_bytes (arp + arp_src_ip) 4) packet;
     mac ← peek (get_bytes (arp + arp_src_mac) 6) packet;
     arp_cache_insert ip mac) ;;
  our_ip ← gets (λ s, my_ip_address (card s));
  our_mac ← gets (λ s, rtl8139_mac (card s));
  for_us ← peek (check_arp_is_for_us arp our_ip) packet;
  if for_us : bool then on_card (arp_send_reply packet arp our_mac our_ip) ;; ret 0
  else ret 1.

Definition icmp_handle (packet : buf) (len : Z) : M net Z :=
  our_ip ← gets (λ s, my_ip_address (card s));
  our_mac ← gets (λ s, rtl8139_mac (card s));
  ping ← peek (icmp_is_ping_request ETHER_HEADER_SIZE our_ip) packet;
  when ping (on_card (icmp_send_ping_reply packet len our_mac our_ip)) ;;
  ret 1.

(** One socket of the delivery loop. *)
Definition deliver_to (packet : buf) (length ethertype i : Z) : M net unit :=
  s ← ld_socket i;
  if negb (in_use s) then ret tt
  else if negb (bound_protocol s =? 0) && negb (bound_protocol s =? ethertype) then ret tt
  else if SOCKET_RX_QUEUE <=? rx_count s then ret tt
  else
    slot ← peek_arr (rx_queue s) (rx_tail s);
    let copy := if length <? SOCKET_RX_BUF_SIZE then length else SOCKET_RX_BUF_SIZE in
    bytes ← peek (get_bytes 0 copy) packet;
    d ← of_opt (splice 0 bytes (data slot));
    now ← timer_get_ticks;
    st_socket i (Socket (in_use s) (bound_protocol s)
      (aput (rx_queue s) (rx_tail s) (RxPacket d copy now))
      (rx_head s) (u8 ((rx_tail s + 1) mod SOCKET_RX_QUEUE)) (u8 (rx_count s + 1))).

Definition net_socket_deliver (packet : buf) (len : Z) : M net unit :=
  if len <? ETHER_HEADER_SIZE then ret tt
  else
    hi ← peek (b8 12) packet;
    lo ← peek (b8 13) packet;
    let ethertype := Z.lor (Z.shiftl hi 8) lo in
    a ← arp_handle packet len;
    if a =? 0 then ret tt
    else
      c ← icmp_handle packet len;
      if c =? 0 then ret tt
      else for_range 0 MAX_SOCKETS (deliver_to packet len ethertype).

(** Other threads run, the clock moves and frames arrive. *)
Definition sys_yield : M net unit :=
  sc ← gets script;
  match sc with
  | [] => fault
  | (dt, frames) :: rest =>
      modify (λ s, Net (card s) (g_arp_cache s) (g_arp_cache_next s) (g_sockets s) (u32 (clock s + dt)) rest) ;;
      for_each frames (λ '(packet, n), net_socket_deliver packet n)
  end.

Definition arp_resolve (target_ip our_mac our_ip : buf) : M net (option buf) :=
  r ← arp_cache_lookup target_ip;
  match r with
  | Some mac => ret (Some mac)
  | None => scan_range 0 15 (λ tries,
      when (Z.rem tries 5 =? 0) (on_card (arp_send_request target_ip our_mac our_ip)) ;;
      sys_yield ;;
      arp_cache_lookup target_ip)
  end.

(* ------------------------------------------------------------------ *)
(** ** System calls *)

(** The index of an open socket. *)
Definition fd_to_socket (fd : Z) : M net (option Z) :=
  let idx := s32 (fd - SOCKET_FD_BASE) in
  if (idx <? 0) || (MAX_SOCKETS <=? idx) then ret None
  else s ← ld_socket idx; ret (if in_use s then Some idx else None).

Definition sys_socket (domain type protocol : Z) : M net Z :=
  if negb (domain =? AF_RAW) || negb (type =? SOCK_RAW) then ret (- EAFNOSUPPORT)
  else
    r ← scan_range 0 MAX_SOCKETS (λ i,
      s ← ld_socket i;
      if in_use s then ret None
      else
        st_socket i socket_zero ;;
        st_socket i (Socket true (u16 protocol) (rx_queue socket_zero) 0 0 0) ;;
        ret (Some (SOCKET_FD_BASE + i)));
    ret (default (- ENFILE) r).

(** [addr] is the address structure, or null. *)
Definition sys_bind (fd : Z) (addr : option sockaddr_ll_t) (addrlen : Z) : M net Z :=
  r ← fd_to_socket fd;
  match r with
  | None => ret (- EBADF)
  | Some i =>
      match addr with
      | None => ret (- EINVAL)
      | Some ll =>
          if addrlen <? sizeof_sockaddr_ll_t then ret (- EINVAL)
          else
            s ← ld_socket i;
            st_socket i (Socket (in_use s) (sa_protocol ll) (rx_queue s) (rx_head s) (rx_tail s) (rx_count s)) ;;
            ret 0
      end
  end.

Definition sys_sendto (fd : Z) (buffer : option buf) (len : Z) : M net Z :=
  r ← fd_to_socket fd;
  match r with
  | None => ret (- EBADF)
  | Some _ =>
      match buffer with
      | None => ret (- EINVAL)
      | Some b =>
          if len =? 0 then ret (- EINVAL)
          else on_card (rtl8139_send_packet b len) ;; ret (s32 len)
      end
  end.

(** The caller's buffer, its address structure and its length after the call. *)
Record recv_out := RecvOut { out_buf : buf; out_addr : option sockaddr_ll_t; out_addrlen : option Z }.

(** [while (s->rx_count == 0)]: the script bounds the turns. *)
Definition recv_wait (i start : Z) : M net bool :=
  sc ← gets script;
  while_n (S (length sc)) (λ _,
    s ← ld_socket i;
    if negb (rx_count s =? 0) then ret (inr true)
    else
      now ← timer_get_ticks;
      let elapsed := u32 (now - start) in
      if RECVFROM_TIMEOUT_TICKS <=? elapsed then ret (inr false)
      else sys_yield ;; ret (inl tt)) tt.

Definition ts_bytes (ts : Z) : buf :=
  [Z.land (Z.shiftr ts 24) 255; Z.land (Z.shiftr ts 16) 255; Z.land (Z.shiftr ts 8) 255; Z.land ts 255].

(** The address the caller gets: the source address with the time of arrival
    over its last four bytes. *)
Definition recv_address (slot : rx_packet_t) (b : buf) (src_addr : option sockaddr_ll_t) (addrlen : option Z)
    : M net recv_out :=
  match src_addr, addrlen with
  | Some ll, Some n =>
      if sizeof_sockaddr_ll_t <=? n then
        hi ← peek (b8 12) (data slot);
        lo ← peek (b8 13) (data slot);
        mac ← peek (get_bytes 6 6) (data slot);
        mac' ← of_opt (splice 2 (ts_bytes (arrived_ticks slot)) mac);
        ret (RecvOut b (Some (SockaddrLl AF_RAW (Z.lor (Z.shiftl hi 8) lo) mac')) (Some sizeof_sockaddr_ll_t))
      else ret (RecvOut b src_addr addrlen)
  | _, _ => ret (RecvOut b src_addr addrlen)
  end.

Definition sys_recvfrom (fd : Z) (buffer : option buf) (len : Z)
    (src_addr : option sockaddr_ll_t) (addrlen : option Z) : M net (Z * recv_out) :=
  r ← fd_to_socket fd;
  let out b := RecvOut b src_addr addrlen in
  match r, buffer with
  | None, _ => ret (- EBADF, out (default [] buffer))
  | Some _, None => ret (- EINVAL, out [])
  | Some i, Some b =>
      if len =? 0 then ret (- EINVAL, out b)
      else
        start ← timer_get_ticks;
        got ← recv_wait i start;
        if negb got then ret (-1, out b)
        else
          s ← ld_socket i;
          slot ← peek_arr (rx_queue s) (rx_head s);
          let copy := if rx_len slot <? len then rx_len slot else len in
          bytes ← peek (get_bytes 0 copy) (data slot);
          b' ← of_opt (splice 0 bytes b);
          o ← recv_address slot b' src_addr addrlen;
          st_socket i (Socket (in_use s) (bound_protocol s) (rx_queue s)
            (u8 ((rx_head s + 1) mod SOCKET_RX_QUEUE)) (rx_tail s) (u8 (rx_count s - 1))) ;;
          ret (copy, o)
  end.

Definition sys_arp_resolve (target_ip : option buf) (out_mac : bool) : M net (Z * option buf) :=
  match target_ip with
  | None => ret (- EINVAL, None)
  | Some ip =>
      if negb out_mac then ret (- EINVAL, None)
      else
        mac ← gets (λ s, rtl8139_mac (card s));
        our_ip ← gets (λ s, my_ip_address (card s));
        r ← arp_resolve ip mac our_ip;
        ret (match r with Some m => (0, Some m) | None => (-1, None) end)
  end.

Definition sys_net_close (fd : Z) : M net Z :=
  let idx := s32 (fd - SOCKET_FD_BASE) in
  if (idx <? 0) || (MAX_SOCKETS <=? idx) then ret (- EBADF)
  else
    s ← ld_socket idx;
    if negb (in_use s) then ret (- EBADF)
    else st_socket idx socket_zero ;; ret 0.

Definition sys_net_close_all : M net unit :=
  for_range 0 MAX_SOCKETS (λ i,
    s ← ld_socket i;
    when (in_use s) (st_socket i socket_zero)).

(* ------------------------------------------------------------------ *)
(** ** The cache as a map *)

Definition entry_at (s : net) (i : Z) : arp_cache_entry_t := aat (g_arp_cache s) i.
Definition holds (s : net) (ip : buf) (i : Z) : Prop :=
  0 <= i < ARP_CACHE_SIZE ∧ valid (entry_at s i) = true ∧ e_ip (entry_at s i) = ip.

(** At most one valid entry per address. *)
Record cache_inv (s : net) : Prop := {
  ca_len : alen (g_arp_cache s) = ARP_CACHE_SIZE;
  ca_next : 0 <= g_arp_cache_next s < ARP_CACHE_SIZE;
  ca_one : ∀ ip i j, holds s ip i → holds s ip j → i = j
}.

(** What the cache knows of an address. *)
Definition knows (s : net) (ip mac : buf) : Prop :=
  ∃ i, holds s ip i ∧ e_mac (entry_at s i) = mac.

Lemma wp_ld_entry s i (Q : arp_cache_entry_t → net → Prop) :
  cache_inv s → 0 <= i < ARP_CACHE_SIZE → Q (entry_at s i) s → wp (ld_entry i) s Q.
Proof.
  intros I Hi HQ. unfold ld_entry. wp_step. apply wp_ld; [by rewrite (ca_len _ I)|]. by destruct s.
Qed.

Lemma wp_st_entry s i e (Q : unit → net → Prop) :
  cache_inv s → 0 <= i < ARP_CACHE_SIZE → Q tt (set_cache (aput (g_arp_cache s) i e) s) →
  wp (st_entry i e) s Q.
Proof. intros I Hi HQ. unfold st_entry. wp_step. apply wp_st; [by rewrite (ca_len _ I)|done]. Qed.

Lemma wp_arp_cache_find s ip :
  cache_inv s → wp (arp_cache_find ip) s (λ r s', s' = s ∧ match r with
    | Some i => holds s ip i
    | None => ∀ i, ¬ holds s ip i
    end).
Proof.
  intros I. unfold arp_cache_find.
  apply (wp_scan_range (λ i s', s' = s ∧ ∀ j, j < i → ¬ holds s ip j)).
  - split; [done|]. intros j Hj [? _]. lia.
  - intros i s' Hi [-> Hno]. wp_step. apply wp_ld_entry; [done|done|]. wp_step.
    destruct (valid (entry_at s i)) eqn:Ev; simpl.
    + case_bool_decide as Eip; [done|]. split; [done|]. intros j Hj. destruct (decide (j = i)) as [->|].
      * intros (_ & _ & ?). done.
      * apply Hno. lia.
    + split; [done|]. intros j Hj. destruct (decide (j = i)) as [->|]; [|apply Hno; lia].
      intros (_ & ? & _). congruence.
  - intros s' [-> Hno]. split; [done|]. intros i [Hi Hh]. apply (Hno i); [|done].
    unfold ARP_CACHE_SIZE in *. lia.
Qed.

Lemma wp_arp_cache_lookup s ip :
  cache_inv s → wp (arp_cache_lookup ip) s (λ r s', s' = s ∧ ∀ mac, r = Some mac ↔ knows s ip mac).
Proof.
  intros I. unfold arp_cache_lookup. wp_step. eapply wp_mono; [by apply wp_arp_cache_find|].
  intros [i|] s' [-> Hi].
  - wp_step. apply wp_ld_entry; [done|apply Hi|]. wp_step. split; [done|]. intros mac. split.
    + intros [= <-]. by exists i.
    + intros (j & Hj & <-). by rewrite (ca_one _ I _ _ _ Hi Hj).
  - wp_step. split; [done|]. intros mac. split; [done|]. intros (j & Hj & _). by destruct (Hi j).
Qed.

(** The entry that gives way to a new one. *)
Definition evicted (s : net) (ip ip' : buf) : Prop :=
  (∀ i, ¬ holds s ip i) ∧ holds s ip' (g_arp_cache_next s).

Lemma entry_at_put s i e j : entry_at (set_cache (aput (g_arp_cache s) i e) s) j =
  if decide (i = j) then e else entry_at s j.
Proof. apply aat_aput. Qed.

Lemma wp_arp_cache_insert s ip mac :
  cache_inv s → wp (arp_cache_insert ip mac) s (λ _ s', cache_inv s' ∧
    card s' = card s ∧ g_sockets s' = g_sockets s ∧ clock s' = clock s ∧ script s' = script s ∧
    knows s' ip mac ∧
    ∀ ip' m, ip' ≠ ip → (knows s' ip' m ↔ knows s ip' m ∧ ¬ evicted s ip ip')).
Proof.
  intros I. unfold arp_cache_insert. wp_step. eapply wp_mono; [by apply wp_arp_cache_find|].
  intros [i|] s' [-> Hi].
  - wp_step. apply wp_ld_entry; [done|apply Hi|]. apply wp_st_entry; [done|apply Hi|].
    set (s' := set_cache _ s).
    assert (∀ x j, holds s' x j ↔ holds s x j) as Hh.
    { intros x j. unfold holds, s'. rewrite entry_at_put. case_decide; [by subst|done]. }
    split_and!; try done.
    + split; [apply (ca_len _ I)|apply (ca_next _ I)|]. intros x j k. rewrite !Hh. apply (ca_one _ I).
    + exists i. rewrite Hh. split; [done|]. unfold s'. rewrite entry_at_put. by rewrite decide_True.
    + intros ip' m Hne. split.
      * intros (j & Hj & Hm). rewrite Hh in Hj. assert (i ≠ j) by (intros ->; destruct Hi as (_ & _ & ?), Hj as (_ & _ & ?); congruence).
        unfold s' in Hm. rewrite entry_at_put, decide_False in Hm by done.
        split; [by exists j|]. intros [Hn _]. by apply (Hn i).
      * intros [(j & Hj & Hm) _]. exists j. rewrite Hh. split; [done|].
        assert (i ≠ j) by (intros ->; destruct Hi as (_ & _ & ?), Hj as (_ & _ & ?); congruence).
        unfold s'. by rewrite entry_at_put, decide_False.
  - wp_step. wp_step. wp_step. pose proof (ca_next _ I) as Hn. apply wp_st_entry; [done|done|]. wp_step.
    set (n := g_arp_cache_next s) in *. set (s' := set_next _ _).
    assert (∀ x j, holds s' x j ↔ if decide (n = j) then x = ip else holds s x j) as Hh.
    { intros x j. unfold holds, s', entry_at. cbn. rewrite aat_aput. case_decide; [|done]. subst j. simpl. naive_solver. }
    split_and!; try done.
    + split; [apply (ca_len _ I)|cbn; unfold ARP_CACHE_SIZE in *; rewrite Z.rem_mod_nonneg; lia|].
      intros x j k Hj Hk. apply Hh in Hj, Hk.
      destruct (decide (n = j)) as [<-|], (decide (n = k)) as [<-|].
      * done.
      * rewrite Hj in Hk. by destruct (Hi k).
      * rewrite Hk in Hj. by destruct (Hi j).
      * by apply (ca_one _ I x).
    + exists n. rewrite Hh, decide_True by done. split; [done|]. unfold s', entry_at. cbn. by rewrite aat_aput_eq.
    + intros ip' m Hne. split.
      * intros (j & Hj & Hm). apply Hh in Hj. case_decide as Ej; [done|].
        unfold s', entry_at in Hm. cbn in Hm. rewrite aat_aput_ne in Hm by done.
        split; [by exists j|]. intros [_ He]. apply Ej. by apply (ca_one _ I ip').
      * intros [(j & Hj & Hm) He]. assert (n ≠ j) by (intros E; apply He; split; [done|]; fold n; by rewrite E).
        exists j. rewrite Hh, decide_False by done. split; [done|].
        unfold s', entry_at. cbn. by rewrite aat_aput_ne.
Qed.

(* ------------------------------------------------------------------ *)
(** ** Requests and replies on the wire *)

Definition arp_sizes : list nat := [6; 6; 1; 1; 2; 2; 1; 1; 2; 6; 4; 6; 4]%nat.
Definition arp_fields (dst src : buf) (op : Z) (sm si dm di : buf) : list buf :=
  [dst; src; [8]; [6]; [0; 1]; [8; 0]; [6]; [4]; be16 op; sm; si; dm; di].
Definition arp_frame (dst src : buf) (op : Z) (sm si dm di : buf) : buf :=
  concat (arp_fields dst src op sm si dm di).

Lemma arp_cut dst src op sm si dm di :
  length dst = 6%nat → length src = 6%nat → length sm = 6%nat → length si = 4%nat →
  length dm = 6%nat → length di = 4%nat → cut arp_sizes (arp_fields dst src op sm si dm di).
Proof. intros. repeat constructor; done. Qed.

(** The statements after the Ethernet addresses, as [body]. *)
Lemma wp_arp_frame junk dst src op sm si dm di (Q : unit → buf → Prop) :
  cut arp_sizes junk → length dst = 6%nat → length src = 6%nat → length sm = 6%nat →
  length si = 4%nat → length dm = 6%nat → length di = 4%nat → is_u16 op →
  Q tt (arp_frame dst src op sm si dm di) →
  wp (put_bytes ether_dst_mac dst ;; put_bytes ether_src_mac src ;; w8 ether_type 8 ;;
      w8 (ether_type + 1) 6 ;; arp_body op sm si dm di) (concat junk) Q.
Proof.
  intros Hc Hd Hs Hsm Hsi Hdm Hdi Hop HQ.
  unfold arp_sizes in Hc. repeat apply Forall2_cons_inv_l in Hc as (? & ? & ? & Hc & ->).
  apply Forall2_nil_inv_l in Hc as ->.
  match goal with |- wp _ (concat ?l) _ => assert (cut arp_sizes l) as Hc by (repeat constructor; done) end.
  wp_step. put_field 0%nat Hc. wp_step. put_field 1%nat Hc. wp_step. put_field 2%nat Hc.
  wp_step. put_field 3%nat Hc. unfold arp_body. wp_step. put_field 4%nat Hc. wp_step. put_field 5%nat Hc.
  wp_step. put_field 6%nat Hc. wp_step. put_field 7%nat Hc. wp_step. put_field 8%nat Hc.
  wp_step. put_field 9%nat Hc. wp_step. put_field 10%nat Hc. wp_step. put_field 11%nat Hc. put_field 12%nat Hc.
  rewrite (le_htons op) by done. exact HQ.
Qed.

Lemma arp_stack s : nic_ok s → ∃ junk, cut arp_sizes junk ∧ take 42 (stack s) = concat junk.
Proof.
  intros I. destruct (cut_exists arp_sizes (take 42 (stack s))) as (segs & Hc & <-); [|by exists segs].
  rewrite length_take. pose proof (no_stack _ I). unfold blen in *.
  change (sum_list arp_sizes) with 42%nat. lia.
Qed.

Lemma arp_frame_len dst src op sm si dm di :
  length dst = 6%nat → length src = 6%nat → length sm = 6%nat → length si = 4%nat →
  length dm = 6%nat → length di = 4%nat → blen (arp_frame dst src op sm si dm di) = 42.
Proof. intros. unfold blen, arp_frame. by rewrite (cut_total arp_sizes) by by apply arp_cut. Qed.

Lemma wp_arp_send_reply s p request smac sip :
  nic_ok s → sub_bytes (request + arp_src_mac) 6 p = Some smac →
  sub_bytes (request + arp_src_ip) 4 p = Some sip →
  wp (arp_send_reply p request (rtl8139_mac s) (my_ip_address s)) s (λ _ s',
    s' = send (arp_frame smac (rtl8139_mac s) ARP_OP_REPLY (rtl8139_mac s) (my_ip_address s) smac sip) s).
Proof.
  intros I Hm Hi. pose proof (no_mac _ I) as Lm. pose proof (no_ip _ I) as Li.
  pose proof (sub_bytes_length _ _ _ _ Hm) as L1. pose proof (sub_bytes_length _ _ _ _ Hi) as L2.
  destruct (arp_stack s I) as (junk & Hc & Ej). pose proof (no_stack _ I) as Hs. unfold blen in L1, L2.
  unfold arp_send_reply. wp_step. apply wp_local_array; [unfold ARP_PACKET_SIZE; lia|].
  change (Z.to_nat ARP_PACKET_SIZE) with 42%nat. rewrite Ej.
  wp_step. apply (wp_reads _ smac); [by apply reads_bytes|].
  wp_step. apply (wp_reads _ (rtl8139_mac s)); [apply reads_all; unfold blen; lia|].
  wp_step. apply (wp_reads _ (my_ip_address s)); [apply reads_all; unfold blen; lia|].
  wp_step. apply (wp_reads _ sip); [by apply reads_bytes|].
  apply (wp_arp_frame junk); try (done || lia).
  apply wp_send_all; [|split; [reflexivity|discriminate]|reflexivity].
  symmetry. apply arp_frame_len; lia.
Qed.

Lemma wp_arp_send_request s target :
  nic_ok s → length target = 4%nat →
  wp (arp_send_request target (rtl8139_mac s) (my_ip_address s)) s (λ _ s',
    s' = send (arp_frame (replicate 6 255) (rtl8139_mac s) ARP_OP_REQUEST (rtl8139_mac s) (my_ip_address s)
                 (replicate 6 255) target) s).
Proof.
  intros I Ht. pose proof (no_mac _ I) as Lm. pose proof (no_ip _ I) as Li. pose proof (no_stack _ I) as Hs.
  unfold arp_send_request. wp_step. apply wp_local_array; [unfold ARP_PACKET_SIZE; lia|].
  change (Z.to_nat ARP_PACKET_SIZE) with 42%nat. wp_step.
  assert (fill_bytes 0 0 ARP_PACKET_SIZE (take 42 (stack s)) = Some (tt, replicate 42 0)) as E.
  { unfold fill_bytes, put_bytes. rewrite splice_is_Some; unfold blen in *;
      rewrite ?length_replicate, ?length_take; unfold ARP_PACKET_SIZE; [|lia|lia].
    rewrite take_0, drop_ge, app_nil_r by (rewrite length_take; lia). done. }
  eapply wp_intro; [exact E|].
  wp_step. apply (wp_reads _ (rtl8139_mac s)); [apply reads_all; unfold blen; lia|].
  wp_step. apply (wp_reads _ (my_ip_address s)); [apply reads_all; unfold blen; lia|].
  wp_step. apply (wp_reads _ target); [apply reads_all; unfold blen; lia|].
  destruct (cut_exists arp_sizes (replicate 42 0) eq_refl) as (junk & Hc & <-).
  apply (wp_arp_frame junk); try (done || lia).
  apply wp_send_all; [|split; [reflexivity|discriminate]|reflexivity].
  symmetry. apply arp_frame_len; try lia; reflexivity.
Qed.

(** The parts of a frame that the ARP code looks at. *)
Record arp_view (p : buf) (op : Z) (smac sip dip : buf) : Prop := {
  av_op : sub_bytes (ETHER_HEADER_SIZE + operation) 2 p = Some (be16 op);
  av_u16 : is_u16 op;
  av_smac : sub_bytes (ETHER_HEADER_SIZE + arp_src_mac) 6 p = Some smac;
  av_sip : sub_bytes (ETHER_HEADER_SIZE + arp_src_ip) 4 p = Some sip;
  av_dip : sub_bytes (ETHER_HEADER_SIZE + arp_dst_ip) 4 p = Some dip
}.

Lemma b16_be16 off p v : sub_bytes off 2 p = Some (be16 v) → is_u16 v →
  ∃ x, b16 off p = Some (x, p) ∧ ntohs x = v.
Proof. intros H Hv. exists (le_val (be16 v)). split; [by apply b16_at|by apply ntohs_be16]. Qed.

Lemma check_arp_ok p op smac sip dip our_ip :
  arp_view p op smac sip dip → length our_ip = 4%nat →
  check_arp_is_for_us ETHER_HEADER_SIZE our_ip p =
    Some ((op =? ARP_OP_REQUEST) && bool_decide (dip = our_ip), p).
Proof.
  intros V Hl. unfold check_arp_is_for_us, bind.
  destruct (b16_be16 _ _ _ (av_op _ _ _ _ _ V) (av_u16 _ _ _ _ _ V)) as (x & -> & ->).
  destruct (op =? ARP_OP_REQUEST); [|done]. cbn [negb andb].
  by rewrite (same_ip_ok _ our_ip p dip Hl (av_dip _ _ _ _ _ V)).
Qed.

(** Is this a request for our address? *)
Definition arp_for_us (s : net) (op : Z) (dip : buf) : Prop :=
  op = ARP_OP_REQUEST ∧ dip = my_ip_address (card s).

(** What handling a frame does: a reply is learnt, a request for us is answered
    (result 0), everything else is passed on (result 1). *)
Definition arp_handled (s : net) (op : Z) (smac sip dip : buf) (r : Z) (s' : net) : Prop :=
  cache_inv s' ∧
  g_sockets s' = g_sockets s ∧ clock s' = clock s ∧ script s' = script s ∧
  (op = ARP_OP_REPLY → knows s' sip smac) ∧
  (op ≠ ARP_OP_REPLY → ∀ ip m, knows s' ip m ↔ knows s ip m) ∧
  ((arp_for_us s op dip ∧ r = 0 ∧ card s' = send (arp_frame smac (rtl8139_mac (card s)) ARP_OP_REPLY
      (rtl8139_mac (card s)) (my_ip_address (card s)) smac sip) (card s)) ∨
   (¬ arp_for_us s op dip ∧ r = 1 ∧ card s' = card s)).

Lemma wp_arp_handle s p len op smac sip dip :
  cache_inv s → nic_ok (card s) → arp_view p op smac sip dip →
  wp (arp_handle p len) s (arp_handled s op smac sip dip).
Proof.
  intros I Hn V. unfold arp_handle. wp_step.
  destruct (b16_be16 _ _ _ (av_op _ _ _ _ _ V) (av_u16 _ _ _ _ _ V)) as (x & Ex & Eo).
  rewrite (peek_ret _ _ _ Ex). wp_step. rewrite Eo. wp_step.
  assert (∀ s1, cache_inv s1 → card s1 = card s → g_sockets s1 = g_sockets s → clock s1 = clock s →
    script s1 = script s → (op = ARP_OP_REPLY → knows s1 sip smac) →
    (op ≠ ARP_OP_REPLY → ∀ ip m, knows s1 ip m ↔ knows s ip m) →
    wp (our_ip ← gets (λ s, my_ip_address (card s)); our_mac ← gets (λ s, rtl8139_mac (card s));
        for_us ← peek (check_arp_is_for_us ETHER_HEADER_SIZE our_ip) p;
        if for_us : bool then on_card (arp_send_reply p ETHER_HEADER_SIZE our_mac our_ip) ;; ret 0 else ret 1)
      s1 (arp_handled s op smac sip dip)) as Hrest.
  { intros s1 I1 C1 S1 T1 R1 K1 K2. wp_step. wp_step. wp_step. wp_step. rewrite C1. wp_step.
    rewrite (peek_ret _ _ _ (check_arp_ok p op smac sip dip _ V (no_ip _ Hn))). wp_step.
    destruct ((op =? ARP_OP_REQUEST) && bool_decide (dip = my_ip_address (card s))) eqn:Eb.
    - apply andb_true_iff in Eb as [Eq%Z.eqb_eq Eip%bool_decide_eq_true].
      wp_step. unfold on_card. wp_step. rewrite C1.
      eapply wp_mono; [by apply (wp_arp_send_reply (card s) p ETHER_HEADER_SIZE smac sip Hn (av_smac _ _ _ _ _ V) (av_sip _ _ _ _ _ V))|].
      intros [] c ->. wp_step. split; [by destruct I1; split|]. split_and!; try done. by left.
    - wp_step. split; [done|]. split_and!; try done. right. split_and!; [|done..].
      intros [-> ->]. rewrite bool_decide_eq_true_2 in Eb by done. done. }
  wp_step.
  - match goal with H : (op =? _) = true |- _ => apply Z.eqb_eq in H as -> end.
    wp_step. rewrite (peek_ret _ _ _ (get_bytes_some _ _ _ _ (av_sip _ _ _ _ _ V))). wp_step.
    wp_step. rewrite (peek_ret _ _ _ (get_bytes_some _ _ _ _ (av_smac _ _ _ _ _ V))). wp_step.
    eapply wp_mono; [by apply wp_arp_cache_insert|].
    intros [] s1 (I1 & C1 & S1 & T1 & R1 & K1 & _). by apply Hrest.
  - match goal with H : (op =? _) = false |- _ => apply Z.eqb_neq in H end. by apply Hrest.
Qed.

Lemma arp_frame_view dst src op sm si dm di tail :
  length dst = 6%nat → length src = 6%nat → length sm = 6%nat → length si = 4%nat →
  length dm = 6%nat → length di = 4%nat → is_u16 op →
  arp_view (arp_frame dst src op sm si dm di ++ tail) op sm si di.
Proof.
  intros Hd Hs Hsm Hsi Hdm Hdi Hop.
  pose proof (arp_cut dst src op sm si dm di Hd Hs Hsm Hsi Hdm Hdi) as Hc.
  assert (∀ off n x, sub_bytes off n (arp_frame dst src op sm si dm di) = Some x →
    sub_bytes off n (arp_frame dst src op sm si dm di ++ tail) = Some x) as Hext.
  { intros off n x Hx. pose proof (sub_bytes_inv _ _ _ _ Hx) as (H1 & H2 & H3). rewrite <- Hx.
    rewrite <- (Z.add_0_l off) at 1. eapply sub_bytes_sub; [apply (sub_bytes_app [] _ tail)|done|done|done]. }
  split; [| done | | |]; apply Hext;
    [apply (sub_field _ _ 8 _ _ _ Hc)|apply (sub_field _ _ 9 _ _ _ Hc)|apply (sub_field _ _ 10 _ _ _ Hc)
    |apply (sub_field _ _ 12 _ _ _ Hc)]; try reflexivity; unfold blen; lia.
Qed.

(** C39: address resolution between two machines. [a] broadcasts a request for
    [b]'s address; [b] answers it with one frame and keeps it from its sockets;
    when that frame reaches [a], its cache maps [b]'s address to [b]'s hardware
    address. What follows the frames in the receive buffers does not matter. *)
Theorem arp_exchange a b :
  cache_inv a → cache_inv b → nic_ok (card a) → nic_ok (card b) →
  let A := card a in let B := card b in
  wp (on_card (arp_send_request (my_ip_address B) (rtl8139_mac A) (my_ip_address A))) a (λ _ a1, ∃ req,
    card a1 = send req A ∧ ∀ tail,
    wp (arp_handle (req ++ tail) (blen req)) b (λ r b', r = 0 ∧ ∃ rep, card b' = send rep B ∧ ∀ tail',
      wp (arp_handle (rep ++ tail') (blen rep)) a1 (λ r' a2, r' = 1 ∧ cache_inv a2 ∧
        wp (arp_cache_lookup (my_ip_address B)) a2 (λ m _, m = Some (rtl8139_mac B))))).
Proof.
  intros Ia Ib Na Nb A B. subst A B. pose proof (no_mac _ Na) as Ma. pose proof (no_mac _ Nb) as Mb.
  pose proof (no_ip _ Na) as Pa. pose proof (no_ip _ Nb) as Pb.
  unfold on_card. wp_step. eapply wp_mono; [by apply wp_arp_send_request|]. intros [] c ->.
  eexists. split; [reflexivity|]. intros tail.
  eapply wp_mono; [apply (wp_arp_handle b _ _ ARP_OP_REQUEST (rtl8139_mac (card a)) (my_ip_address (card a))
    (my_ip_address (card b)) Ib Nb); by apply arp_frame_view|].
  intros r b' (_ & _ & _ & _ & _ & _ & [(_ & -> & Cb)|(Hno & _)]); [|by destruct Hno].
  split; [reflexivity|]. eexists. split; [exact Cb|]. intros tail'.
  eapply wp_mono; [apply (wp_arp_handle _ _ _ ARP_OP_REPLY (rtl8139_mac (card b)) (my_ip_address (card b))
    (my_ip_address (card a))); [by destruct Ia; split|by destruct Na; split|by apply arp_frame_view]|].
  intros r' a2 (I2 & _ & _ & _ & K & _ & [([? _] & _)|(_ & -> & _)]); [done|].
  split; [reflexivity|]. split; [exact I2|].
  eapply wp_mono; [by apply wp_arp_cache_lookup|]. intros m s' [_ Hm]. by apply Hm, K.
Qed.

(** Static storage at boot. *)
Definition net_boot (c : nic) (sc : list (Z * list (buf * Z))) : net :=
  Net c (mk_arr ARP_CACHE_SIZE (ArpEntry (replicate 4 0) (replicate 6 0) false)) 0
    (mk_arr MAX_SOCKETS socket_zero) 0 sc.

Lemma net_boot_cache c sc : cache_inv (net_boot c sc).
Proof.
  split; [done|done|]. intros ip i j (_ & Hv & _). unfold entry_at, net_boot, mk_arr, aat in Hv.
  cbn in Hv. by rewrite lookup_empty in Hv.
Qed.

Definition demo_net : net := net_boot demo_nic [].

Lemma demo_net_cache : cache_inv demo_net.
Proof. apply net_boot_cache. Qed.

Lemma arp_exchange_witness :
  cache_inv demo_net ∧ nic_ok (card demo_net) ∧
  wp (on_card (arp_send_request (my_ip_address (card demo_net)) (rtl8139_mac (card demo_net))
        (my_ip_address (card demo_net)))) demo_net (λ _ s', length (sent (card s')) = 1%nat).
Proof.
  split; [exact demo_net_cache|]. split; [exact demo_nic_ok|].
  pose proof (arp_exchange demo_net demo_net demo_net_cache demo_net_cache demo_nic_ok demo_nic_ok) as H.
  cbv zeta in H. eapply wp_mono; [exact H|]. intros u s' (req & E & _). rewrite E. reflexivity.
Defined.

(* ------------------------------------------------------------------ *)
(** ** Sockets as bounded queues *)

Definition slot_at (k : socket_t) (j : nat) : rx_packet_t :=
  aat (rx_queue k) ((rx_head k + Z.of_nat j) mod SOCKET_RX_QUEUE).

(** A queued frame: its bytes and its time of arrival. *)
Definition frame_of (r : rx_packet_t) : buf * Z := (take (Z.to_nat (rx_len r)) (data r), arrived_ticks r).
Definition pending (k : socket_t) : list (buf * Z) :=
  (frame_of ∘ slot_at k) <$> seq 0 (Z.to_nat (rx_count k)).

Record sock_inv (k : socket_t) : Prop := {
  so_len : alen (rx_queue k) = SOCKET_RX_QUEUE;
  so_head : 0 <= rx_head k < SOCKET_RX_QUEUE;
  so_count : 0 <= rx_count k <= SOCKET_RX_QUEUE;
  so_tail : rx_tail k = (rx_head k + rx_count k) mod SOCKET_RX_QUEUE;
  so_data : ∀ j, blen (data (aat (rx_queue k) j)) = SOCKET_RX_BUF_SIZE;
  so_size : ∀ j, 0 <= rx_len (aat (rx_queue k) j) <= SOCKET_RX_BUF_SIZE
}.

Definition sock (s : net) (i : Z) : socket_t := aat (g_sockets s) i.

Record net_inv (s : net) : Prop := {
  ni_cache : cache_inv s;
  ni_card : nic_ok (card s);
  ni_len : alen (g_sockets s) = MAX_SOCKETS;
  ni_sock : ∀ i, sock_inv (sock s i)
}.

(** Does the socket take frames of this type, and has it room? *)
Definition accepts (k : socket_t) (ethertype : Z) : bool :=
  in_use k && ((bound_protocol k =? 0) || (bound_protocol k =? ethertype)) && (rx_count k <? SOCKET_RX_QUEUE).

Lemma pending_length k : length (pending k) = Z.to_nat (rx_count k).
Proof. unfold pending. by rewrite length_fmap, length_seq. Qed.

Lemma wp_ld_socket s i (Q : socket_t → net → Prop) :
  net_inv s → 0 <= i < MAX_SOCKETS → Q (sock s i) s → wp (ld_socket i) s Q.
Proof. intros I Hi HQ. unfold ld_socket. wp_step. apply wp_ld; [by rewrite (ni_len _ I)|]. by destruct s. Qed.

Lemma wp_st_socket s i k (Q : unit → net → Prop) :
  net_inv s → 0 <= i < MAX_SOCKETS → Q tt (set_sockets (aput (g_sockets s) i k) s) →
  wp (st_socket i k) s Q.
Proof. intros I Hi HQ. unfold st_socket. wp_step. apply wp_st; [by rewrite (ni_len _ I)|done]. Qed.

Lemma sock_put s i k j :
  sock (set_sockets (aput (g_sockets s) i k) s) j = if decide (i = j) then k else sock s j.
Proof. apply aat_aput. Qed.

Lemma net_inv_put s i k : net_inv s → sock_inv k → net_inv (set_sockets (aput (g_sockets s) i k) s).
Proof.
  intros [C N L S] K. split; [by destruct C; split|done|done|]. intros j. rewrite sock_put. by case_decide.
Qed.

(** The socket after a frame was queued. *)
Lemma enqueue_frame k bytes copy now d :
  sock_inv k → rx_count k < SOCKET_RX_QUEUE → 0 <= copy <= SOCKET_RX_BUF_SIZE → blen bytes = copy →
  splice 0 bytes (data (aat (rx_queue k) (rx_tail k))) = Some d →
  let k' := Socket (in_use k) (bound_protocol k) (aput (rx_queue k) (rx_tail k) (RxPacket d copy now))
    (rx_head k) (u8 ((rx_tail k + 1) mod SOCKET_RX_QUEUE)) (u8 (rx_count k + 1)) in
  sock_inv k' ∧ pending k' = pending k ++ [(bytes, now)].
Proof.
  intros [L H C T D S] Hc Hcp Hb Hd k'. unfold SOCKET_RX_QUEUE in *.
  assert (u8 (rx_count k + 1) = rx_count k + 1) as Ec by ulia.
  assert (u8 ((rx_tail k + 1) mod 4) = (rx_head k + (rx_count k + 1)) mod 4) as Et by ulia.
  split.
  - subst k'. split; unfold SOCKET_RX_QUEUE; cbn; rewrite ?Ec, ?Et; [done|done|lia|done| |].
    + intros j. rewrite aat_aput. case_decide; [|done]. cbn. unfold blen. rewrite (splice_length _ _ _ _ Hd). apply D.
    + intros j. rewrite aat_aput. case_decide; [done|]. apply S.
  - unfold pending. replace (rx_count k') with (rx_count k + 1) by done.
    replace (Z.to_nat (rx_count k + 1)) with (Z.to_nat (rx_count k) + 1)%nat by lia.
    rewrite seq_app, fmap_app. f_equal.
    + apply list_fmap_ext. intros i j Hj. apply lookup_seq in Hj as [-> Hj]. unfold compose, slot_at, k'. cbn.
      rewrite aat_aput_ne; [done|]. rewrite T. unfold SOCKET_RX_QUEUE. lia.
    + cbn. unfold compose, slot_at, k', SOCKET_RX_QUEUE. cbn.
      replace ((rx_head k + Z.of_nat (Z.to_nat (rx_count k))) mod 4) with (rx_tail k) by (rewrite T; f_equal; lia).
      rewrite aat_aput_eq. unfold frame_of. cbn. do 2 f_equal.
      apply splice_inv in Hd as (_ & _ & ->). change (Z.to_nat 0) with 0%nat. rewrite take_0. cbn [app].
      rewrite take_app_length' by (unfold blen in Hb; lia). done.
Qed.

Lemma wp_deliver_to s p n et i :
  net_inv s → 0 <= i < MAX_SOCKETS → 0 <= n <= blen p → blen p <= SOCKET_RX_BUF_SIZE →
  wp (deliver_to p n et i) s (λ _ s', net_inv s' ∧ g_arp_cache s' = g_arp_cache s ∧
    clock s' = clock s ∧ script s' = script s ∧
    (∀ j, j ≠ i → sock s' j = sock s j) ∧ in_use (sock s' i) = in_use (sock s i) ∧
    bound_protocol (sock s' i) = bound_protocol (sock s i) ∧
    pending (sock s' i) = pending (sock s i) ++
      (if accepts (sock s i) et then [(take (Z.to_nat n) p, clock s)] else [])).
Proof.
  intros I Hi Hn Hp. pose proof (ni_sock _ I i) as K. unfold deliver_to, accepts. wp_step.
  apply wp_ld_socket; [done|done|]. set (k := sock s i) in *.
  destruct (in_use k) eqn:Eu; cbn [negb andb]; [|wp_step; rewrite app_nil_r; done].
  assert (negb (bound_protocol k =? 0) && negb (bound_protocol k =? et) =
    negb ((bound_protocol k =? 0) || (bound_protocol k =? et))) as -> by (by rewrite negb_orb).
  destruct ((bound_protocol k =? 0) || (bound_protocol k =? et)) eqn:Eb; cbn [negb andb]; [|wp_step; rewrite app_nil_r; done].
  destruct (Z.ltb_spec (rx_count k) SOCKET_RX_QUEUE) as [Hc|Hc].
  2: { guard_true. wp_step. by rewrite app_nil_r. }
  guard_false. wp_step. unfold peek_arr, ld. rewrite in_bounds_true.
  2: { rewrite (so_len _ K), (so_tail _ K). unfold SOCKET_RX_QUEUE. lia. }
  wp_step; [reflexivity|]. wp_step.
  replace (if n <? SOCKET_RX_BUF_SIZE then n else SOCKET_RX_BUF_SIZE) with n
    by (destruct (Z.ltb_spec n SOCKET_RX_BUF_SIZE); lia).
  pose proof (sub_bytes_is_Some 0 n p ltac:(lia) ltac:(lia) ltac:(lia)) as Hb.
  change (drop (Z.to_nat 0) p) with p in Hb.
  rewrite (peek_ret _ _ _ (get_bytes_some _ _ _ _ Hb)). wp_step.
  pose proof (sub_bytes_length _ _ _ _ Hb) as Lb.
  destruct (splice 0 (take (Z.to_nat n) p) (data (aat (rx_queue k) (rx_tail k)))) as [d|] eqn:Ed.
  2: { rewrite splice_is_Some in Ed; [done|lia|]. rewrite (so_data _ K). lia. }
  wp_step. wp_step; [exact Ed|]. unfold timer_get_ticks. wp_step. wp_step.
  destruct (enqueue_frame k _ n (clock s) d K Hc ltac:(lia) Lb Ed) as [K' Pk].
  rewrite Eu in K', Pk.
  apply wp_st_socket; [done|done|]. split_and!; try done.
  - by apply net_inv_put.
  - intros j Hj. by rewrite sock_put, decide_False.
  - by rewrite sock_put, decide_True.
  - by rewrite sock_put, decide_True.
  - by rewrite sock_put, decide_True.
Qed.

Lemma lor_bytes hi lo : is_u8 hi → is_u8 lo → Z.lor (Z.shiftl hi 8) lo = 256 * hi + lo.
Proof.
  intros Hh Hl. rewrite Z.shiftl_mul_pow2 by lia. change (2 ^ 8) with 256.
  rewrite <- Z.lxor_lor, <- Z.add_nocarry_lxor; [lia| |].
  all: apply Z.bits_inj'; intros i Hi; rewrite Z.land_spec, Z.bits_0;
    change 256 with (2 ^ 8); destruct (Z.ltb_spec i 8);
    [by rewrite Z.mul_pow2_bits_low|].
  all: rewrite (Z.bits_above_log2 lo i); [by rewrite andb_false_r|ulia|];
    destruct (decide (lo = 0)) as [->|]; [simpl; lia|];
    apply Z.log2_lt_pow2; [ulia|]; apply Z.lt_le_trans with (2 ^ 8); [ulia|by apply Z.pow_le_mono_r].
Qed.

(** The EtherType in a buffer. *)
Lemma read_ethertype p et :
  is_u16 et → sub_bytes 12 2 p = Some (be16 et) → ∃ hi lo,
    b8 12 p = Some (hi, p) ∧ b8 13 p = Some (lo, p) ∧ Z.lor (Z.shiftl hi 8) lo = et.
Proof.
  intros He Hs. exists (u8 (et / 256)), (u8 et). split_and!.
  - apply b8_at. rewrite <- (Z.add_0_r 12). by rewrite (sub_bytes_sub _ _ _ _ 0 1 Hs) by lia.
  - apply b8_at. change 13 with (12 + 1). by rewrite (sub_bytes_sub _ _ _ _ 1 1 Hs) by lia.
  - rewrite lor_bytes by apply u8_range. ulia.
Qed.

#[global] Instance arp_for_us_dec s op dip : Decision (arp_for_us s op dip).
Proof. unfold arp_for_us. apply _. Defined.

(** Delivering a frame that is not a ping for us, from a full receive
    buffer. An ARP request for our address is answered and reaches no socket.
    Every other frame is appended, with its time of arrival, to the queue of
    exactly those sockets that are open, whose filter is 0 or the frame's type
    and that hold fewer than four frames; the others keep their queues. ARP
    replies are learnt whatever the EtherType says. *)
Theorem net_socket_deliver_correct s p n et op smac sip dip :
  net_inv s → blen p = SOCKET_RX_BUF_SIZE → ETHER_HEADER_SIZE <= n <= blen p →
  is_u16 et → sub_bytes 12 2 p = Some (be16 et) → arp_view p op smac sip dip →
  icmp_is_ping_request ETHER_HEADER_SIZE (my_ip_address (card s)) p = Some (false, p) →
  wp (net_socket_deliver p n) s (λ _ s', net_inv s' ∧ clock s' = clock s ∧
    (op = ARP_OP_REPLY → knows s' sip smac) ∧
    ∀ i, 0 <= i < MAX_SOCKETS →
      pending (sock s' i) = pending (sock s i) ++
        (if decide (arp_for_us s op dip) then []
         else if accepts (sock s i) et then [(take (Z.to_nat n) p, clock s)] else [])).
Proof.
  intros I Hp Hn He Het V Hping. unfold net_socket_deliver. guard_false.
  destruct (read_ethertype p et He Het) as (hi & lo & Ehi & Elo & Elor).
  wp_step. rewrite (peek_ret _ _ _ Ehi). wp_step. wp_step. rewrite (peek_ret _ _ _ Elo). wp_step. rewrite Elor.
  wp_step. eapply wp_mono; [apply (wp_arp_handle s p n op smac sip dip (ni_cache _ I) (ni_card _ I) V)|].
  intros r s1 (I1 & S1 & T1 & _ & K1 & _ & Hr).
  assert (net_inv s1) as N1.
  { split; [done| |by rewrite S1; apply (ni_len _ I)|intros i; unfold sock; rewrite S1; apply (ni_sock _ I)].
    destruct Hr as [(_ & _ & ->)|(_ & _ & ->)]; [|apply (ni_card _ I)]. pose proof (ni_card _ I) as []. by split. }
  destruct Hr as [(Hus & -> & _)|(Hus & -> & C1)].
  - simpl. wp_step. split_and!; try done. intros i Hi. rewrite decide_True by done.
    rewrite app_nil_r. unfold sock. by rewrite S1.
  - change (1 =? 0) with false. cbv iota. wp_step. unfold icmp_handle. wp_step. wp_step. wp_step. wp_step. rewrite C1.
    wp_step. rewrite (peek_ret _ _ _ Hping). wp_step. wp_step. wp_step; [done|]. wp_step.
    change (1 =? 0) with false. cbv iota.
    eapply wp_mono; [apply (wp_for_range (λ i s', net_inv s' ∧ clock s' = clock s ∧
      (op = ARP_OP_REPLY → knows s' sip smac) ∧
      (∀ j, i <= j → sock s' j = sock s j) ∧
      ∀ j, 0 <= j < i → pending (sock s' j) = pending (sock s j) ++
        (if accepts (sock s j) et then [(take (Z.to_nat n) p, clock s)] else [])))|].
    + split_and!; try done; [|lia]. intros j _. unfold sock. by rewrite S1.
    + intros i s2 Hi (N2 & T2 & K2 & Hrest & Hdone). unfold ETHER_HEADER_SIZE in *.
      eapply wp_mono; [apply (wp_deliver_to s2 p n et i N2 Hi); lia|].
      intros [] s3 (N3 & C3 & T3 & _ & Ho & _ & _ & Hpd). split_and!; [done|congruence| | |].
      * intros Hop. destruct (K2 Hop) as (j & Hj & Hm). exists j.
        unfold holds, entry_at in *. by rewrite C3.
      * intros j Hj. rewrite Ho, Hrest by lia. done.
      * intros j Hj. destruct (decide (j = i)) as [->|Hne].
        -- rewrite Hpd, Hrest by lia. by rewrite T2.
        -- rewrite Ho by done. apply Hdone. lia.
    + intros [] s2 (N2 & T2 & K2 & _ & Hdone). split_and!; try done. intros i Hi.
      rewrite decide_False by done. apply Hdone. unfold MAX_SOCKETS in *. lia.
Qed.

Lemma socket_zero_inv u b : sock_inv (Socket u b (mk_arr SOCKET_RX_QUEUE rx_zero) 0 0 0).
Proof. split; cbn; try done; intros j; unfold aat; cbn; by rewrite lookup_empty. Qed.

Lemma net_boot_inv c sc : nic_ok c → net_inv (net_boot c sc).
Proof.
  intros Hc. split; [apply net_boot_cache|done|done|]. intros i. unfold sock, net_boot, mk_arr, aat. cbn.
  rewrite lookup_empty. apply socket_zero_inv.
Qed.

(** A frame of type 0x9999 in a receive buffer. *)
Definition demo_packet : buf :=
  [2; 0; 0; 0; 0; 1; 2; 0; 0; 0; 0; 9; 153; 153; 104; 105] ++ replicate 2032 0.
(** Socket 0 is open for that type. *)
Definition demo_open : net := set_sockets
  (aput (g_sockets demo_net) 0 (Socket true 39321 (mk_arr SOCKET_RX_QUEUE rx_zero) 0 0 0)) demo_net.

Lemma demo_open_inv : net_inv demo_open.
Proof. apply net_inv_put; [apply net_boot_inv, demo_nic_ok|apply socket_zero_inv]. Qed.

Lemma demo_packet_view : arp_view demo_packet 0 (replicate 6 0) (replicate 4 0) (replicate 4 0).
Proof. split; try (vm_compute; reflexivity). split; [discriminate|reflexivity]. Qed.

Lemma net_socket_deliver_correct_witness :
  wp (net_socket_deliver demo_packet 16) demo_open (λ _ s', net_inv s' ∧
    pending (sock s' 0) = pending (sock demo_open 0) ++ [(take 16 demo_packet, 0)]).
Proof.
  eapply wp_mono; [apply (net_socket_deliver_correct demo_open demo_packet 16 39321 0
    (replicate 6 0) (replicate 4 0) (replicate 4 0) demo_open_inv eq_refl)|].
  - split; [discriminate|vm_compute; discriminate].
  - split; [discriminate|reflexivity].
  - vm_compute. reflexivity.
  - exact demo_packet_view.
  - vm_compute. reflexivity.
  - intros u s' (N & _ & _ & H). split; [exact N|]. rewrite (H 0) by (unfold MAX_SOCKETS; lia). reflexivity.
Defined.

(* ------------------------------------------------------------------ *)
(** ** Receiving *)

(** The socket after its oldest frame was taken. *)
Lemma dequeue_frame k :
  sock_inv k → 0 < rx_count k →
  let k' := Socket (in_use k) (bound_protocol k) (rx_queue k)
    (u8 ((rx_head k + 1) mod SOCKET_RX_QUEUE)) (rx_tail k) (u8 (rx_count k - 1)) in
  sock_inv k' ∧ pending k = frame_of (aat (rx_queue k) (rx_head k)) :: pending k'.
Proof.
  intros [L H C T D Sz] Hc k'. unfold SOCKET_RX_QUEUE in *.
  assert (u8 (rx_count k - 1) = rx_count k - 1) as Ec by ulia.
  assert (u8 ((rx_head k + 1) mod 4) = (rx_head k + 1) mod 4) as Eh by ulia.
  split.
  - subst k'. split; unfold SOCKET_RX_QUEUE; cbn; rewrite ?Ec, ?Eh; try done; lia.
  - unfold pending. change (rx_count k') with (u8 (rx_count k - 1)). rewrite Ec.
    replace (Z.to_nat (rx_count k)) with (S (Z.to_nat (rx_count k - 1))) by lia. cbn [seq fmap list_fmap]. f_equal.
    + unfold compose, slot_at. do 2 f_equal. unfold SOCKET_RX_QUEUE. lia.
    + rewrite <- fmap_S_seq, <- list_fmap_compose. apply list_fmap_ext. intros i j _.
      unfold compose, slot_at, k'. cbn. rewrite Eh. do 2 f_equal. unfold SOCKET_RX_QUEUE. lia.
Qed.

Lemma wp_fd_to_socket s i :
  net_inv s → 0 <= i < MAX_SOCKETS →
  wp (fd_to_socket (SOCKET_FD_BASE + i)) s (λ r s', s' = s ∧ r = if in_use (sock s i) then Some i else None).
Proof.
  intros I Hi. unfold fd_to_socket, SOCKET_FD_BASE, MAX_SOCKETS in *.
  replace (s32 (64 + i - 64)) with i by ulia. guard_false. wp_step. by apply wp_ld_socket.
Qed.

Lemma wp_recv_address s slot b src addrlen :
  blen (data slot) = SOCKET_RX_BUF_SIZE →
  wp (recv_address slot b src addrlen) s (λ o s', out_buf o = b ∧ s' = s).
Proof.
  intros Ld. unfold recv_address. destruct src as [ll|], addrlen as [al|]; try (by wp_step).
  wp_step; [|by wp_step].
  destruct (sub_bytes_byte 12 (data slot)) as [h Eh]; [by rewrite Ld|].
  destruct (sub_bytes_byte 13 (data slot)) as [l El]; [by rewrite Ld|].
  pose proof (sub_bytes_is_Some 6 6 (data slot) ltac:(lia) ltac:(lia) ltac:(by rewrite Ld)) as Em.
  pose proof (sub_bytes_length _ _ _ _ Em) as Lmac.
  wp_step. rewrite (peek_ret _ _ _ (b8_at _ _ _ Eh)). wp_step.
  wp_step. rewrite (peek_ret _ _ _ (b8_at _ _ _ El)). wp_step.
  wp_step. rewrite (peek_ret _ _ _ (get_bytes_some _ _ _ _ Em)). wp_step.
  wp_step. wp_step; [apply splice_is_Some; [lia|unfold ts_bytes, blen at 1; cbn [length]; lia]|]. by wp_step.
Qed.

Lemma wp_recv_ready s i start :
  net_inv s → 0 <= i < MAX_SOCKETS → 0 < rx_count (sock s i) →
  wp (recv_wait i start) s (λ r s', r = true ∧ s' = s).
Proof.
  intros I Hi Hc. unfold recv_wait. wp_step. wp_step. cbn [while_n]. repeat wp_step.
  apply wp_ld_socket; [done|done|]. guard_true. wp_step. by wp_step.
Qed.

(** Receiving from an open socket with queued frames takes the oldest one,
    at once: the call returns the number of bytes copied, the shorter of the
    frame and the caller's length; the caller's buffer starts with that many
    bytes of the frame and is otherwise unchanged; the socket loses just that
    frame and no other socket changes. *)
Theorem sys_recvfrom_oldest s i b n src addrlen f t q :
  net_inv s → 0 <= i < MAX_SOCKETS → in_use (sock s i) = true →
  pending (sock s i) = (f, t) :: q → 0 < n → Z.min (blen f) n <= blen b →
  wp (sys_recvfrom (SOCKET_FD_BASE + i) (Some b) n src addrlen) s (λ '(r, o) s',
    r = Z.min (blen f) n ∧
    out_buf o = take (Z.to_nat r) f ++ drop (Z.to_nat r) b ∧
    net_inv s' ∧ pending (sock s' i) = q ∧ ∀ j, j ≠ i → sock s' j = sock s j).
Proof.
  intros I Hi Hu Hq Hn Hb. pose proof (ni_sock _ I i) as K. unfold sys_recvfrom. wp_step.
  eapply wp_mono; [by apply wp_fd_to_socket|]. intros r s' [-> ->]. rewrite Hu. guard_false.
  wp_step. unfold timer_get_ticks. wp_step. wp_step.
  set (k := sock s i) in *.
  assert (0 < rx_count k) as Hc.
  { pose proof (pending_length k) as L. rewrite Hq in L. simpl in L. lia. }
  eapply wp_mono; [by apply wp_recv_ready|]. intros r s' [-> ->]. cbn [negb]. wp_step. apply wp_ld_socket; [done|done|]. fold k.
  wp_step. unfold peek_arr, ld. rewrite in_bounds_true by (rewrite (so_len _ K); apply (so_head _ K)).
  wp_step; [reflexivity|]. cbn [fst].
  destruct (dequeue_frame k K Hc) as [K' Pk]. rewrite Hq in Pk. injection Pk as Ef Et Eq.
  set (slot := aat (rx_queue k) (rx_head k)) in *.
  pose proof (so_data _ K (rx_head k)) as Ld. pose proof (so_size _ K (rx_head k)) as Ls. fold slot in Ld, Ls.
  assert (blen f = rx_len slot) as Lf.
  { rewrite Ef. unfold blen in *. rewrite length_take. lia. }
  replace (if rx_len slot <? n then rx_len slot else n) with (Z.min (blen f) n)
    by (rewrite Lf; destruct (Z.ltb_spec (rx_len slot) n); lia).
  set (m := Z.min (blen f) n) in *.
  assert (sub_bytes 0 m (data slot) = Some (take (Z.to_nat m) f)) as Hm.
  { rewrite sub_bytes_is_Some by lia. change (drop (Z.to_nat 0) (data slot)) with (data slot).
    rewrite Ef, take_take. do 2 f_equal. lia. }
  wp_step. rewrite (peek_ret _ _ _ (get_bytes_some _ _ _ _ Hm)). wp_step. wp_step.
  pose proof (sub_bytes_length _ _ _ _ Hm) as Lm.
  wp_step; [apply splice_is_Some; lia|].
  change (Z.to_nat 0) with 0%nat. rewrite take_0. cbn [app Nat.add].
  assert (length (take (Z.to_nat m) f) = Z.to_nat m) as Lt by (unfold blen in Lm; lia). rewrite Lt.
  set (b' := take (Z.to_nat m) f ++ drop (Z.to_nat m) b).
  wp_step. eapply wp_mono; [by apply wp_recv_address|].
  intros o s' [Eo ->]. wp_step. apply wp_st_socket; [done|done|]. wp_step.
  split; [done|]. split; [by rewrite Eo|]. split; [by apply net_inv_put|].
  rewrite sock_put, decide_True by done. split; [done|]. intros j Hj. by rewrite sock_put, decide_False.
Qed.

(** Socket 0 holds the frame. *)
Definition demo_waiting : net := set_sockets
  (aput (g_sockets demo_net) 0 (Socket true 39321
    (aput (mk_arr SOCKET_RX_QUEUE rx_zero) 0 (RxPacket demo_packet 16 0)) 0 1 1)) demo_net.

Lemma demo_waiting_inv : net_inv demo_waiting.
Proof.
  apply net_inv_put; [apply net_boot_inv, demo_nic_ok|]. split; cbn; try done.
  all: intros j; rewrite aat_aput; case_decide; [done|]; unfold aat; cbn; by rewrite lookup_empty.
Qed.

Lemma sys_recvfrom_oldest_witness :
  net_inv demo_waiting ∧
  wp (sys_recvfrom 64 (Some (replicate 4 0)) 4 None None) demo_waiting (λ '(r, o) s',
    r = 4 ∧ out_buf o = [2; 0; 0; 0] ∧ pending (sock s' 0) = []).
Proof.
  assert (pending (sock demo_waiting 0) = [(take 16 demo_packet, 0)]) as Hp by (vm_compute; reflexivity).
  pose proof demo_waiting_inv as N.
  split; [exact N|].
  eapply wp_mono; [apply (sys_recvfrom_oldest demo_waiting 0 (replicate 4 0) 4 None None
    (take 16 demo_packet) 0 [] N)|].
  - split; [discriminate|reflexivity].
  - vm_compute. reflexivity.
  - exact Hp.
  - reflexivity.
  - vm_compute. discriminate.
  - intros [r o] s' (E1 & E2 & _ & E3 & _). split; [exact E1|]. split; [|exact E3].
    rewrite E2, E1. vm_compute. reflexivity.
Defined.

Lemma wp_recv_timeout s i start dts :
  net_inv s → 0 <= i < MAX_SOCKETS → rx_count (sock s i) = 0 → is_u32 start → clock s = start →
  script s = (λ dt, (dt, [])) <$> dts → (∀ dt, dt ∈ dts → 1 <= dt <= 1000) → (3000 <= length dts)%nat →
  wp (recv_wait i start) s (λ r s', r = false ∧ g_sockets s' = g_sockets s ∧ net_inv s').
Proof.
  intros I Hi Hc Hs Hclk Hsc Hdt Hl. unfold recv_wait. wp_step. wp_step.
  apply (wp_while_n (λ k _ s', ∃ j e, k = (length dts - j)%nat ∧ (j <= length dts)%nat ∧
    Z.of_nat j <= e <= 3999 ∧ clock s' = u32 (start + e) ∧ script s' = (λ dt, (dt, [])) <$> drop j dts ∧
    g_sockets s' = g_sockets s ∧ net_inv s') _ _ _ (length dts)).
  - exists 0%nat, 0. rewrite drop_0. split_and!; try (done || lia). ulia.
  - rewrite Hsc, length_fmap. lia.
  - intros k [] s' (j & e & -> & Hj & He & Ec & Es & Eg & I'). wp_step.
    apply wp_ld_socket; [done|done|]. assert (sock s' i = sock s i) as -> by (unfold sock; by rewrite Eg).
    rewrite Hc. change (negb (0 =? 0)) with false. cbv iota. unfold timer_get_ticks. wp_step. wp_step. rewrite Ec.
    replace (u32 (u32 (start + e) - start)) with e by ulia. unfold RECVFROM_TIMEOUT_TICKS. wp_step; [by wp_step|].
    assert (j < length dts)%nat as Hj' by lia.
    destruct (lookup_lt_is_Some_2 dts j Hj') as [dt Hd]. rewrite (drop_S dts dt j Hd) in Es. cbn in Es.
    wp_step. unfold sys_yield. wp_step. wp_step. rewrite Es. wp_step. wp_step. cbn [for_each]. wp_step. wp_step.
    exists (length dts - S j)%nat. split; [lia|]. exists (S j), (e + dt).
    assert (1 <= dt <= 1000) as Hdt' by (apply Hdt; by eapply list_elem_of_lookup_2).
    split_and!; try (done || lia); [cbn; rewrite Ec; ulia|]. destruct I' as [C' N' L' S']. split; [by destruct C'; split|done..].
Qed.

(** A receive on an open socket for which nothing arrives ends: if every
    yield lets between 1 and 1000 ticks pass, the call returns -1 once 3000
    ticks have gone by, with the sockets and the caller's buffer unchanged. *)
Theorem sys_recvfrom_times_out s i b n src addrlen dts :
  net_inv s → 0 <= i < MAX_SOCKETS → in_use (sock s i) = true → pending (sock s i) = [] → 0 < n →
  is_u32 (clock s) → script s = (λ dt, (dt, [])) <$> dts →
  (∀ dt, dt ∈ dts → 1 <= dt <= 1000) → (3000 <= length dts)%nat →
  wp (sys_recvfrom (SOCKET_FD_BASE + i) (Some b) n src addrlen) s (λ '(r, o) s',
    r = -1 ∧ out_buf o = b ∧ g_sockets s' = g_sockets s ∧ net_inv s').
Proof.
  intros I Hi Hu Hp Hn Hclk Hsc Hdt Hl. unfold sys_recvfrom. wp_step.
  eapply wp_mono; [by apply wp_fd_to_socket|]. intros r s' [-> ->]. rewrite Hu. guard_false.
  wp_step. unfold timer_get_ticks. wp_step. wp_step.
  assert (rx_count (sock s i) = 0) as Hc.
  { pose proof (pending_length (sock s i)) as L. rewrite Hp in L. simpl in L.
    pose proof (so_count _ (ni_sock _ I i)). lia. }
  eapply wp_mono; [by apply (wp_recv_timeout s i (clock s) dts)|].
  intros r s' (-> & Hg & I'). cbn [negb]. by wp_step.
Qed.

Definition demo_silence : net := net_boot demo_nic ((λ dt, (dt, [])) <$> replicate 3000 1).
Definition demo_quiet : net := set_sockets
  (aput (g_sockets demo_silence) 0 (Socket true 0 (mk_arr SOCKET_RX_QUEUE rx_zero) 0 0 0)) demo_silence.

Lemma demo_quiet_inv : net_inv demo_quiet.
Proof. apply net_inv_put; [apply net_boot_inv, demo_nic_ok|apply socket_zero_inv]. Qed.

Lemma sys_recvfrom_times_out_witness :
  wp (sys_recvfrom 64 (Some [0]) 1 None None) demo_quiet (λ '(r, o) s', r = -1).
Proof.
  eapply wp_mono; [apply (sys_recvfrom_times_out demo_quiet 0 [0] 1 None None (replicate 3000 1) demo_quiet_inv)|].
  - split; [discriminate|reflexivity].
  - reflexivity.
  - vm_compute. reflexivity.
  - reflexivity.
  - split; [discriminate|reflexivity].
  - reflexivity.
  - intros dt Hd. apply elem_of_replicate in Hd as [-> _]. lia.
  - rewrite length_replicate. exact (le_n _).
  - intros [r o] s' [E _]. exact E.
Defined.
