(* ===== verification/Myfs.v ===== *)
(** * MyFS

    All of [kernel/src/fs/myfs/myfs.c] over the block-device interface: the
    superblock and the bitmaps, the inode cache, the block map with its direct,
    single- and double-indirect pointers, reading and writing files, and
    directories.

    The state holds the device, the in-memory superblock and the inodes that
    were allocated from the kernel heap, by address; using a freed or null inode
    is a fault, with one exception: [myfs_iput] reads the number of an inode
    that may just have been freed, and gets the word that the heap left there
    ([stale]). The heap answers each allocation from a list ([true] once it is
    used up), and memory that nobody has written, on the stack or fresh from
    the heap, holds the bytes [junk]. *)

From S2P Require Import Prelude Buf Disk.

Definition SECTOR_BYTES : Z := 512.
Definition MYFS_MAGIC : Z := 539298088.
Definition MYFS_ROOT_INODE_NUM : Z := 0.
Definition MYFS_DIRECT_BLOCKS_MAX : Z := 10.
Definition INODE_HASH_SIZE : Z := 256.
Definition INODE_HASH (ino : Z) : Z := ino mod INODE_HASH_SIZE.
Definition EEXIST : Z := 17.
Definition ENOENT : Z := 2.
Definition ENOTDIR : Z := 20.
Definition ENOTEMPTY : Z := 90.
Definition S_IFMT : Z := 61440.
Definition S_IFREG : Z := 32768.
Definition S_IFDIR : Z := 16384.
Definition S_IFLNK : Z := 40960.
Definition S_ISDIR (m : Z) : bool := Z.land m S_IFMT =? S_IFDIR.
Definition S_ISREG (m : Z) : bool := Z.land m S_IFMT =? S_IFREG.
Definition S_ISLNK (m : Z) : bool := Z.land m S_IFMT =? S_IFLNK.

Record MyfsInode := Inode {
  i_ino : Z; block_ptrs : list Z; single_indirect_ptr : Z; double_indirect_ptr : Z;
  block_count : Z; size : Z; mode : Z; ref_count : Z; links_count : Z;
  uid : Z; gid : Z; permissions : Z; atime : Z; mtime : Z; ctime : Z; dirty : Z
}.

Record MyfsDiskSuperBlock := DiskSuper {
  magic : Z; total_inodes : Z; total_blocks : Z; free_inodes : Z; free_blocks : Z;
  block_sectors : Z; file_initial_blocks : Z; inode_bitmap_start : Z; block_bitmap_start : Z;
  inode_table_start : Z; data_blocks_start : Z; root_inode : Z
}.

(** The packed structures as bytes. *)
Definition sizeof_inode : Z := 112.
Definition sizeof_sb : Z := 48.
Definition sizeof_dirent : Z := 36.

Definition encode_inode (i : MyfsInode) : buf :=
  le_of 4 (i_ino i) ++ concat (le_of 4 <$> block_ptrs i) ++
  le_of 4 (single_indirect_ptr i) ++ le_of 4 (double_indirect_ptr i) ++
  le_of 4 (block_count i) ++ le_of 4 (size i) ++ le_of 4 (mode i) ++ le_of 4 (ref_count i) ++
  le_of 4 (links_count i) ++ le_of 4 (uid i) ++ le_of 4 (gid i) ++ le_of 4 (permissions i) ++
  le_of 8 (atime i) ++ le_of 8 (mtime i) ++ le_of 8 (ctime i) ++ le_of 4 (dirty i).

(** [n] words at [off]. *)
Fixpoint words_at (n : nat) (off : Z) : M buf (list Z) :=
  match n with
  | O => ret []
  | S n => w ← b32 off; l ← words_at n (off + 4); ret (w :: l)
  end.
Definition b64 (off : Z) : M buf Z := x ← get_bytes off 8; ret (le_val x).

Definition decode_inode : M buf MyfsInode :=
  ino ← b32 0; ptrs ← words_at 10 4; single ← b32 44; double ← b32 48;
  count ← b32 52; sz ← b32 56; md ← b32 60; rc ← b32 64; links ← b32 68;
  u ← b32 72; g ← b32 76; perm ← b32 80; at_ ← b64 84; mt ← b64 92; ct ← b64 100; dt ← b32 108;
  ret (Inode ino ptrs single double count sz md rc links u g perm at_ mt ct dt).

Definition encode_sb (b : MyfsDiskSuperBlock) : buf :=
  le_of 4 (magic b) ++ le_of 4 (total_inodes b) ++ le_of 4 (total_blocks b) ++ le_of 4 (free_inodes b) ++
  le_of 4 (free_blocks b) ++ le_of 4 (block_sectors b) ++ le_of 4 (file_initial_blocks b) ++
  le_of 4 (inode_bitmap_start b) ++ le_of 4 (block_bitmap_start b) ++ le_of 4 (inode_table_start b) ++
  le_of 4 (data_blocks_start b) ++ le_of 4 (root_inode b).

Definition decode_sb : M buf MyfsDiskSuperBlock :=
  m ← b32 0; ti ← b32 4; tb ← b32 8; fi ← b32 12; fb ← b32 16; bs ← b32 20; fib ← b32 24;
  ibs ← b32 28; bbs ← b32 32; its ← b32 36; dbs ← b32 40; ri ← b32 44;
  ret (DiskSuper m ti tb fi fb bs fib ibs bbs its dbs ri).

(** Field updates. *)
Definition with_ptrs l (i : MyfsInode) := Inode (i_ino i) l (single_indirect_ptr i) (double_indirect_ptr i)
  (block_count i) (size i) (mode i) (ref_count i) (links_count i) (uid i) (gid i) (permissions i)
  (atime i) (mtime i) (ctime i) (dirty i).
Definition with_single x (i : MyfsInode) := Inode (i_ino i) (block_ptrs i) x (double_indirect_ptr i)
  (block_count i) (size i) (mode i) (ref_count i) (links_count i) (uid i) (gid i) (permissions i)
  (atime i) (mtime i) (ctime i) (dirty i).
Definition with_double x (i : MyfsInode) := Inode (i_ino i) (block_ptrs i) (single_indirect_ptr i) x
  (block_count i) (size i) (mode i) (ref_count i) (links_count i) (uid i) (gid i) (permissions i)
  (atime i) (mtime i) (ctime i) (dirty i).
Definition with_count x (i : MyfsInode) := Inode (i_ino i) (block_ptrs i) (single_indirect_ptr i)
  (double_indirect_ptr i) x (size i) (mode i) (ref_count i) (links_count i) (uid i) (gid i) (permissions i)
  (atime i) (mtime i) (ctime i) (dirty i).
Definition with_size x (i : MyfsInode) := Inode (i_ino i) (block_ptrs i) (single_indirect_ptr i)
  (double_indirect_ptr i) (block_count i) x (mode i) (ref_count i) (links_count i) (uid i) (gid i) (permissions i)
  (atime i) (mtime i) (ctime i) (dirty i).
Definition with_refs x (i : MyfsInode) := Inode (i_ino i) (block_ptrs i) (single_indirect_ptr i)
  (double_indirect_ptr i) (block_count i) (size i) (mode i) x (links_count i) (uid i) (gid i) (permissions i)
  (atime i) (mtime i) (ctime i) (dirty i).
Definition with_dirty x (i : MyfsInode) := Inode (i_ino i) (block_ptrs i) (single_indirect_ptr i)
  (double_indirect_ptr i) (block_count i) (size i) (mode i) (ref_count i) (links_count i) (uid i) (gid i)
  (permissions i) (atime i) (mtime i) (ctime i) x.
Definition with_mtime x (i : MyfsInode) := Inode (i_ino i) (block_ptrs i) (single_indirect_ptr i)
  (double_indirect_ptr i) (block_count i) (size i) (mode i) (ref_count i) (links_count i) (uid i) (gid i)
  (permissions i) (atime i) x (ctime i) (dirty i).

Record myfs (D : Type) := Myfs {
  dev : D;
  on_disk : MyfsDiskSuperBlock;
  block_bytes : Z;
  block_bitmap : buf;
  inode_bitmap : buf;
  inode_hash_table : arr (list Z);
  mounted : Z;
  inodes : gmap Z MyfsInode;
  fresh : Z;
  answers : list bool;
  junk : Z → Z;
  stale : Z
}.
Arguments Myfs {_}. Arguments dev {_}. Arguments on_disk {_}. Arguments block_bytes {_}.
Arguments block_bitmap {_}. Arguments inode_bitmap {_}. Arguments inode_hash_table {_}.
Arguments mounted {_}. Arguments inodes {_}. Arguments fresh {_}. Arguments answers {_}.
Arguments junk {_}. Arguments stale {_}.

Section myfs.
Context {D : Type} {BD : BlockDevice D}.
Notation F := (myfs D).

Definition set_dev d (s : F) : F := Myfs d (on_disk s) (block_bytes s) (block_bitmap s) (inode_bitmap s)
  (inode_hash_table s) (mounted s) (inodes s) (fresh s) (answers s) (junk s) (stale s).
Definition set_bmap b (s : F) : F := Myfs (dev s) (on_disk s) (block_bytes s) b (inode_bitmap s)
  (inode_hash_table s) (mounted s) (inodes s) (fresh s) (answers s) (junk s) (stale s).
Definition set_imap b (s : F) : F := Myfs (dev s) (on_disk s) (block_bytes s) (block_bitmap s) b
  (inode_hash_table s) (mounted s) (inodes s) (fresh s) (answers s) (junk s) (stale s).
Definition set_table t (s : F) : F := Myfs (dev s) (on_disk s) (block_bytes s) (block_bitmap s) (inode_bitmap s)
  t (mounted s) (inodes s) (fresh s) (answers s) (junk s) (stale s).
Definition set_inodes m (s : F) : F := Myfs (dev s) (on_disk s) (block_bytes s) (block_bitmap s) (inode_bitmap s)
  (inode_hash_table s) (mounted s) m (fresh s) (answers s) (junk s) (stale s).
Definition set_mounted x (s : F) : F := Myfs (dev s) (on_disk s) (block_bytes s) (block_bitmap s) (inode_bitmap s)
  (inode_hash_table s) x (inodes s) (fresh s) (answers s) (junk s) (stale s).

(* ------------------------------------------------------------------ *)
(** ** Memory *)

(** [n] bytes that nobody has written. *)
Definition junk_bytes (n : Z) : M F buf := gets (λ s, junk s <$> seqZ 0 n).

(** Does the next allocation succeed? *)
Definition kmalloc : M F bool :=
  a ← gets answers;
  modify (λ s, Myfs (dev s) (on_disk s) (block_bytes s) (block_bitmap s) (inode_bitmap s)
    (inode_hash_table s) (mounted s) (inodes s) (fresh s) (tail a) (junk s) (stale s)) ;;
  ret (default true (head a)).

(** A heap buffer of [n] bytes, or null. *)
Definition kmalloc_bytes (n : Z) : M F (option buf) :=
  ok ← kmalloc;
  if ok : bool then b ← junk_bytes n; ret (Some b) else ret None.

(** A heap inode that holds [i], at a new address. *)
Definition new_inode (i : MyfsInode) : M F Z :=
  p ← gets fresh;
  modify (λ s, Myfs (dev s) (on_disk s) (block_bytes s) (block_bitmap s) (inode_bitmap s)
    (inode_hash_table s) (mounted s) (<[p := i]> (inodes s)) (p + 1) (answers s) (junk s) (stale s)) ;;
  ret p.

Definition kfree_inode (p : Z) : M F unit := modify (λ s, set_inodes (delete p (inodes s)) s).

(** [*p] and an update of it. *)
Definition deref (p : Z) : M F MyfsInode := s ← gets inodes; of_opt (s !! p).
Definition update (p : Z) (f : MyfsInode → MyfsInode) : M F unit :=
  i ← deref p; modify (λ s, set_inodes (<[p := f i]> (inodes s)) s).

(* ------------------------------------------------------------------ *)
(** ** Blocks *)

(** The buffer keeps its contents when the transfer fails. *)
Definition disk_read_block (block_lba : Z) (old : buf) : M F buf :=
  bs ← gets (λ s, block_sectors (on_disk s));
  r ← zoom dev set_dev (read_sectors (u32 (block_lba * bs)) bs);
  match r with
  | Some x => of_opt (splice 0 x old)
  | None => ret old
  end.

Definition disk_write_block (block_lba : Z) (bytes : buf) : M F unit :=
  bs ← gets (λ s, block_sectors (on_disk s));
  x ← peek (get_bytes 0 (SECTOR_BYTES * bs)) bytes;
  _ ← zoom dev set_dev (write_sectors (u32 (block_lba * bs)) bs x);
  ret tt.

(** A division by the block size traps when that is 0. *)
Definition divisor : M F Z := bb ← gets block_bytes; assert_ (0 <? bb) ;; ret bb.

(** A block read into a fresh array of the stack. *)
Definition local_block (block_lba : Z) : M F buf :=
  bb ← gets block_bytes;
  old ← junk_bytes bb;
  disk_read_block block_lba old.

Definition ptrs_per_block : M F Z := bb ← gets block_bytes; ret (bb / 4).

Definition read_ptr_from_block (block_lba slot : Z) : M F Z :=
  table ← local_block block_lba;
  peek (b32 (4 * slot)) table.

Definition write_ptr_to_block (block_lba slot ptr : Z) : M F Z :=
  table ← local_block block_lba;
  table' ← of_opt (snd <$> w32 (4 * slot) ptr table);
  disk_write_block block_lba table' ;;
  ret 0.

Definition myfs_block_lba_get (inode logical_block_idx : Z) : M F Z :=
  ppb ← ptrs_per_block;
  i ← deref inode;
  if logical_block_idx <? MYFS_DIRECT_BLOCKS_MAX then
    of_opt (block_ptrs i !! Z.to_nat logical_block_idx)
  else
    let relative_idx := u32 (logical_block_idx - MYFS_DIRECT_BLOCKS_MAX) in
    if relative_idx <? ppb then
      if single_indirect_ptr i =? 0 then ret 0
      else
        indirect_table ← local_block (single_indirect_ptr i);
        peek (b32 (4 * relative_idx)) indirect_table
    else
      let relative_idx := u32 (relative_idx - ppb) in
      if relative_idx <? u32 (ppb * ppb) then
        if double_indirect_ptr i =? 0 then ret 0
        else
          let first_level_idx := relative_idx / ppb in
          let second_level_idx := relative_idx mod ppb in
          double_table ← local_block (double_indirect_ptr i);
          sub_table_ptr ← peek (b32 (4 * first_level_idx)) double_table;
          if sub_table_ptr =? 0 then ret 0
          else
            sub_table ← local_block sub_table_ptr;
            peek (b32 (4 * second_level_idx)) sub_table
      else ret 0.

(** The bitmap of [bytes] bytes starting at block [block_addr], into [buffer];
    [bytes] is an [int] that is compared with an unsigned block size. *)
Definition disk_read_bitmap (block_addr : Z) (buffer : buf) (bytes_to_read : Z) : M F buf :=
  bb ← divisor;
  let full_blocks := u32 bytes_to_read / bb in
  let remainder := u32 bytes_to_read mod bb in
  b ← (fix go (n : nat) (i : Z) (b : buf) : M F buf :=
         match n with
         | O => ret b
         | S n =>
             old ← peek (get_bytes (i * bb) bb) b;
             x ← disk_read_block (u32 (block_addr + i)) old;
             b' ← of_opt (splice (i * bb) x b);
             go n (i + 1) b'
         end) (Z.to_nat full_blocks) 0 buffer;
  if 0 <? remainder then
    tmp ← local_block (u32 (block_addr + full_blocks));
    x ← peek (get_bytes 0 remainder) tmp;
    of_opt (splice (full_blocks * bb) x b)
  else ret b.

Definition disk_write_bitmap (block_addr : Z) (buffer : buf) (buffer_bytes : Z) : M F unit :=
  bb ← divisor;
  let full_blocks := u32 buffer_bytes / bb in
  let remainder := u32 buffer_bytes mod bb in
  for_range 0 full_blocks (λ i,
    x ← peek (get_bytes (i * bb) bb) buffer;
    disk_write_block (u32 (block_addr + i)) x) ;;
  when (0 <? remainder) (
    x ← peek (get_bytes (full_blocks * bb) remainder) buffer;
    tmp ← of_opt (splice 0 x (replicate (Z.to_nat bb) 0));
    disk_write_block (u32 (block_addr + full_blocks)) tmp).

(* ------------------------------------------------------------------ *)
(** ** Bitmaps *)

Definition find_first_empty_bit (size_in_bytes start_bit : Z) : M buf Z :=
  let byte_start := start_bit / 8 in
  let bit_start := start_bit mod 8 in
  r ← scan_range byte_start size_in_bytes (λ byte,
    let b_start := if byte =? byte_start then bit_start else 0 in
    x ← b8 byte;
    if x =? 255 then ret None
    else scan_range b_start 8 (λ bit,
      ret (if Z.land x (Z.shiftl 1 bit) =? 0 then Some (s32 (byte * 8 + bit)) else None)));
  ret (default (-1) r).

(** The number is an [int]; a shift by a negative remainder is undefined. *)
Definition bit_number (num : Z) : M buf Z := assert_ (0 <=? s32 num) ;; ret (s32 num).

Definition myfs_bitmap_set (num : Z) : M buf unit :=
  n ← bit_number num;
  x ← b8 (n / 8);
  w8 (n / 8) (Z.lor x (Z.shiftl 1 (n mod 8))).

Definition myfs_bitmap_clear (num : Z) : M buf unit :=
  n ← bit_number num;
  x ← b8 (n / 8);
  w8 (n / 8) (Z.land x (not32 (Z.shiftl 1 (n mod 8)))).

Definition bitmap_is_set (num : Z) : M buf bool :=
  n ← bit_number num;
  x ← b8 (n / 8);
  ret (negb (Z.land x (Z.shiftl 1 (n mod 8)) =? 0)).

Definition on_bmap {A} (m : M buf A) : M F A := zoom block_bitmap set_bmap m.
Definition on_imap {A} (m : M buf A) : M F A := zoom inode_bitmap set_imap m.

(* ------------------------------------------------------------------ *)
(** ** The inode cache *)

Definition myfs_cache_find (ino : Z) : M F Z :=
  es ← zoom inode_hash_table set_table (ld (INODE_HASH ino));
  (fix go (es : list Z) : M F Z :=
     match es with
     | [] => ret 0
     | e :: es => i ← deref e; if i_ino i =? ino then ret e else go es
     end) es.

Definition myfs_inode_cache_add (inode : Z) : M F unit :=
  i ← deref inode;
  ok ← kmalloc;
  if ok : bool then
    es ← zoom inode_hash_table set_table (ld (INODE_HASH (i_ino i)));
    zoom inode_hash_table set_table (st (INODE_HASH (i_ino i)) (inode :: es))
  else ret tt.

Definition myfs_inode_cache_remove (ino : Z) : M F unit :=
  es ← zoom inode_hash_table set_table (ld (INODE_HASH ino));
  (fix go (pre es : list Z) : M F unit :=
     match es with
     | [] => ret tt
     | e :: es =>
         i ← deref e;
         if i_ino i =? ino then
           zoom inode_hash_table set_table (st (INODE_HASH ino) (pre ++ es)) ;;
           kfree_inode e
         else go (pre ++ [e]) es
     end) [] es.

(* ------------------------------------------------------------------ *)
(** ** Structures that cross block boundaries *)

(** [data] as it is afterwards. *)
Definition disk_rw_spanning (start_block offset_in_first_block : Z) (data : buf)
    (is_write : bool) : M F buf :=
  bb ← gets block_bytes;
  while_n (S (length data)) (λ '(pos, cur_block, offset, data),
    let remaining := blen data - pos in
    if 0 <? remaining then
      block_buf ← junk_bytes bb;
      let chunk := Z.min (u32 (bb - offset)) remaining in
      data ← (if is_write then
        block_buf ← (if negb (offset =? 0) || (remaining <? bb)
                     then disk_read_block cur_block block_buf else ret block_buf);
        x ← peek (get_bytes pos chunk) data;
        block_buf ← of_opt (splice offset x block_buf);
        disk_write_block cur_block block_buf ;;
        ret data
      else
        block_buf ← disk_read_block cur_block block_buf;
        x ← peek (get_bytes offset chunk) block_buf;
        of_opt (splice pos x data));
      ret (inl (pos + chunk, u32 (cur_block + 1), 0, data))
    else ret (inr data)) (0, start_block, offset_in_first_block, data).

(** Where inode [ino] lies: its first block and the offset there. *)
Definition inode_place (ino : Z) : M F (Z * Z) :=
  bb ← divisor;
  start ← gets (λ s, inode_table_start (on_disk s));
  let inode_offset_bytes := u64 (u64 ino * sizeof_inode) in
  ret (u32 (start + inode_offset_bytes / bb), inode_offset_bytes mod bb).

(** [ino] is an [int]: a negative one is extended to 64 bits. *)
Definition myfs_disk_inode_read (ino : Z) : M F Z :=
  ok ← kmalloc;
  if ok : bool then
    old ← junk_bytes sizeof_inode;
    '(start_block, offset_in_block) ← inode_place (s32 ino);
    x ← disk_rw_spanning start_block offset_in_block old false;
    i ← peek decode_inode x;
    new_inode i
  else ret 0.

Definition myfs_iget (ino : Z) : M F Z :=
  b ← on_imap (bitmap_is_set ino);
  if negb b then ret 0
  else
    inode ← myfs_cache_find ino;
    if negb (inode =? 0) then
      update inode (λ i, with_refs (u32 (ref_count i + 1)) i) ;;
      ret inode
    else
      inode ← myfs_disk_inode_read ino;
      if negb (inode =? 0) then
        update inode (λ i, with_dirty 1 (with_refs 1 i)) ;;
        myfs_inode_cache_add inode ;;
        ret inode
      else ret inode.

(** [myfs_disk_inode_write] and [myfs_iput] call each other; the inner call is
    made for an inode that is not dirty and goes no deeper. *)
Definition disk_inode_write_body (iput : Z → M F unit) (ino : Z) : M F Z :=
  inode ← myfs_iget (u32 ino);
  if inode =? 0 then ret (-1)
  else
    i ← deref inode;
    if dirty i =? 0 then iput inode ;; ret 0
    else
      '(start_block, offset_in_block) ← inode_place (i_ino i);
      _ ← disk_rw_spanning start_block offset_in_block (encode_inode i) true;
      update inode (with_dirty 0) ;;
      iput inode ;;
      ret 0.

Definition iput_body (disk_inode_write : Z → M F Z) (inode : Z) : M F unit :=
  if inode =? 0 then ret tt
  else
    update inode (λ i, with_refs (u32 (ref_count i - 1)) i) ;;
    i ← deref inode;
    if ref_count i =? 0 then
      when (negb (dirty i =? 0)) (_ ← disk_inode_write (i_ino i); ret tt) ;;
      m ← gets inodes;
      last ← gets stale;
      myfs_inode_cache_remove (default last (i_ino <$> m !! inode))
    else ret tt.

Fixpoint iput_n (n : nat) (inode : Z) : M F unit :=
  match n with
  | O => fault
  | S n => iput_body (disk_inode_write_body (iput_n n)) inode
  end.

Definition myfs_disk_inode_write (ino : Z) : M F Z := disk_inode_write_body (iput_n 1) ino.
Definition myfs_iput (inode : Z) : M F unit := iput_n 2 inode.

(** The first inode of each bucket. *)
Definition inodes_flush : M F unit :=
  for_range 0 INODE_HASH_SIZE (λ h,
    es ← zoom inode_hash_table set_table (ld h);
    match es with
    | [] => ret tt
    | e :: _ =>
        i ← deref e;
        when (negb (dirty i =? 0)) (_ ← myfs_disk_inode_write (i_ino i); ret tt)
    end).

(* ------------------------------------------------------------------ *)
(** ** Allocating blocks *)

Definition myfs_bitmap_alloc : M F Z :=
  sb ← gets on_disk;
  n ← on_bmap (find_first_empty_bit (u32 (total_blocks sb + 7) / 8) (data_blocks_start sb));
  if n =? -1 then ret 0
  else on_bmap (myfs_bitmap_set n) ;; ret (u32 n).

Definition myfs_bitmap_alloc_zeroed : M F Z :=
  lba ← myfs_bitmap_alloc;
  if lba =? 0 then ret 0
  else
    bb ← gets block_bytes;
    disk_write_block lba (replicate (Z.to_nat bb) 0) ;;
    ret lba.

Definition myfs_map_block_to_inode (inode logical_idx phys_lba : Z) : M F Z :=
  ptrs_per_blk ← ptrs_per_block;
  if logical_idx <? MYFS_DIRECT_BLOCKS_MAX then
    update inode (λ i, with_ptrs (<[Z.to_nat logical_idx := phys_lba]> (block_ptrs i)) i) ;;
    ret 0
  else
    let rel_idx := u32 (logical_idx - MYFS_DIRECT_BLOCKS_MAX) in
    if rel_idx <? ptrs_per_blk then
      i ← deref inode;
      when (single_indirect_ptr i =? 0) (
        t ← myfs_bitmap_alloc_zeroed;
        update inode (with_single t)) ;;
      i ← deref inode;
      if single_indirect_ptr i =? 0 then ret (-1)
      else write_ptr_to_block (single_indirect_ptr i) rel_idx phys_lba
    else
      let rel_idx := u32 (rel_idx - ptrs_per_blk) in
      if rel_idx <? u32 (ptrs_per_blk * ptrs_per_blk) then
        i ← deref inode;
        when (double_indirect_ptr i =? 0) (
          t ← myfs_bitmap_alloc_zeroed;
          update inode (with_double t)) ;;
        i ← deref inode;
        if double_indirect_ptr i =? 0 then ret (-1)
        else
          let master_idx := rel_idx / ptrs_per_blk in
          let sub_idx := rel_idx mod ptrs_per_blk in
          sub_table_lba ← read_ptr_from_block (double_indirect_ptr i) master_idx;
          if sub_table_lba =? 0 then
            sub_table_lba ← myfs_bitmap_alloc_zeroed;
            if sub_table_lba =? 0 then ret (-1)
            else
              _ ← write_ptr_to_block (double_indirect_ptr i) master_idx sub_table_lba;
              write_ptr_to_block sub_table_lba sub_idx phys_lba
          else write_ptr_to_block sub_table_lba sub_idx phys_lba
      else ret (-1).

Definition myfs_blocks_alloc (inode count : Z) : M F Z :=
  i0 ← deref inode;
  let new_total := u32 (block_count i0 + count) in
  r ← scan_range (block_count i0) new_total (λ i,
    phys ← myfs_bitmap_alloc;
    if phys =? 0 then ret (Some (-1))
    else
      r ← myfs_map_block_to_inode inode i phys;
      if negb (r =? 0) then on_bmap (myfs_bitmap_clear phys) ;; ret (Some (-1))
      else update inode (λ i, with_count (u32 (block_count i + 1)) i) ;; ret None);
  match r with
  | Some e => ret e
  | None => update inode (with_dirty 1) ;; ret 0
  end.

Definition myfs_inode_grow (inode new_total_blocks : Z) : M F Z :=
  i0 ← deref inode;
  r ← scan_range (block_count i0) new_total_blocks (λ i,
    phys_block ← myfs_bitmap_alloc;
    if phys_block =? 0 then ret (Some (-1))
    else
      r ← myfs_map_block_to_inode inode i phys_block;
      if negb (r =? 0) then ret (Some (-1))
      else update inode (λ i, with_count (u32 (block_count i + 1)) i) ;; ret None);
  match r with
  | Some e => ret e
  | None => update inode (with_dirty 1) ;; ret 0
  end.

Definition myfs_blocks_free (inode count : Z) : M F unit :=
  for_range 0 count (λ i,
    block_lba ← myfs_block_lba_get inode i;
    on_bmap (myfs_bitmap_clear block_lba)).

(* ------------------------------------------------------------------ *)
(** ** File contents *)

Definition myfs_node_write (inode offset : Z) (bytes : buf) (count : Z) : M F Z :=
  if (inode =? 0) || (count =? 0) then ret 0
  else
    bb ← divisor;
    let target_blocks := u32 (offset + count + bb - 1) / bb in
    i ← deref inode;
    r ← (if block_count i <? target_blocks
         then myfs_blocks_alloc inode (target_blocks - block_count i) else ret 0);
    if r <? 0 then ret (-1)
    else
      block_buf ← junk_bytes bb;
      r ← while_n (S (Z.to_nat count)) (λ '(offset, bytes_written, block_buf),
        if bytes_written <? count then
          let block_idx := offset / bb in
          let block_offset := offset mod bb in
          let to_write := Z.min (bb - block_offset) (count - bytes_written) in
          block_lba ← myfs_block_lba_get inode block_idx;
          if block_lba =? 0 then ret (inr None)
          else
            block_buf ← (if to_write <? bb then disk_read_block block_lba block_buf else ret block_buf);
            x ← peek (get_bytes bytes_written to_write) bytes;
            block_buf ← of_opt (splice block_offset x block_buf);
            disk_write_block block_lba block_buf ;;
            ret (inl (u32 (offset + to_write), bytes_written + to_write, block_buf))
        else ret (inr (Some (offset, bytes_written)))) (offset, 0, block_buf);
      match r with
      | None => ret (-1)
      | Some (offset, bytes_written) =>
          i ← deref inode;
          when (size i <? offset) (update inode (with_size offset)) ;;
          update inode (with_dirty 1) ;;
          _ ← myfs_disk_inode_write (i_ino i);
          ret bytes_written
      end.

(** The result and the caller's buffer. *)
Definition myfs_node_read (inode offset : Z) (out : buf) (count : Z) : M F (Z * buf) :=
  if inode =? 0 then ret (0, out)
  else
    i ← deref inode;
    if size i <=? offset then ret (0, out)
    else
      let count := if size i <? u32 (offset + count) then size i - offset else count in
      bb ← gets block_bytes;
      temp_block ← junk_bytes bb;
      while_n (S (Z.to_nat count)) (λ '(offset, total_read, out, temp_block),
        if total_read <? count then
          bb ← divisor;
          let logical_block := offset / bb in
          let internal_offset := offset mod bb in
          let chunk_size := Z.min (bb - internal_offset) (count - total_read) in
          physical_lba ← myfs_block_lba_get inode logical_block;
          '(x, temp_block) ← (if physical_lba =? 0
            then ret (replicate (Z.to_nat chunk_size) 0, temp_block)
            else
              temp_block ← disk_read_block physical_lba temp_block;
              x ← peek (get_bytes internal_offset chunk_size) temp_block;
              ret (x, temp_block));
          out ← of_opt (splice total_read x out);
          ret (inl (u32 (offset + chunk_size), total_read + chunk_size, out, temp_block))
        else ret (inr (total_read, out))) (offset, 0, out, temp_block).

Definition myfs_inode_truncate (inode new_size : Z) : M F Z :=
  if inode =? 0 then ret (-1)
  else
    i ← deref inode;
    when (new_size <? size i) (
      bb ← divisor;
      let new_blocks := u32 (new_size + bb - 1) / bb in
      for_range new_blocks (block_count i) (λ k,
        lba ← myfs_block_lba_get inode k;
        when (negb (lba =? 0)) (on_bmap (myfs_bitmap_clear lba)) ;;
        _ ← myfs_map_block_to_inode inode k 0;
        ret tt) ;;
      update inode (with_count new_blocks)) ;;
    update inode (with_size new_size) ;;
    update inode (with_mtime 0) ;;
    update inode (with_dirty 1) ;;
    ret 0.

(* ------------------------------------------------------------------ *)
(** ** Allocating and releasing inodes *)

Definition myfs_inode_free (inode : Z) : M F unit :=
  if inode =? 0 then ret tt
  else
    i ← deref inode;
    for_range 0 (block_count i) (λ k,
      lba ← myfs_block_lba_get inode k;
      when (negb (lba =? 0)) (on_bmap (myfs_bitmap_clear lba))) ;;
    when (negb (single_indirect_ptr i =? 0)) (
      on_bmap (myfs_bitmap_clear (single_indirect_ptr i)) ;;
      update inode (with_single 0)) ;;
    when (negb (double_indirect_ptr i =? 0)) (
      ptrs_per_blk ← ptrs_per_block;
      master ← local_block (double_indirect_ptr i);
      for_range 0 ptrs_per_blk (λ k,
        p ← peek (b32 (4 * k)) master;
        when (negb (p =? 0)) (on_bmap (myfs_bitmap_clear p))) ;;
      on_bmap (myfs_bitmap_clear (double_indirect_ptr i)) ;;
      update inode (with_double 0)) ;;
    on_imap (myfs_bitmap_clear (i_ino i)) ;;
    myfs_inode_cache_remove (i_ino i).

(** The new inode, or [None] for -1. *)
Definition myfs_inode_alloc (md : Z) : M F (option Z) :=
  sb ← gets on_disk;
  inode_num ← on_imap (find_first_empty_bit (u32 (total_inodes sb + 7) / 8) 0);
  if inode_num =? -1 then ret None
  else
    on_imap (myfs_bitmap_set inode_num) ;;
    bb ← gets block_bytes;
    assert_ (negb (u32 (bb * 8) =? 0)) ;;
    let bitmap_block_idx := u32 inode_num / u32 (bb * 8) in
    let bitmap_size_bytes := u32 (total_inodes sb + 7) / 8 in
    let bytes_to_write :=
      Z.min (s32 (bitmap_size_bytes - bitmap_block_idx * bb)) (s32 bb) in
    m ← gets inode_bitmap;
    disk_write_bitmap (u32 (inode_bitmap_start sb + bitmap_block_idx))
      (drop (Z.to_nat (u32 (bitmap_block_idx * bb))) m) bytes_to_write ;;
    ok ← kmalloc;
    if negb ok then on_imap (myfs_bitmap_clear inode_num) ;; ret None
    else
      p ← new_inode (Inode inode_num (replicate 10 0) 0 0 0 0 (u32 md) 0 0 0 0 0 0 0 0 0);
      r ← myfs_blocks_alloc p (file_initial_blocks sb);
      if r <? 0 then on_imap (myfs_bitmap_clear inode_num) ;; kfree_inode p ;; ret None
      else
        update p (λ i, Inode (i_ino i) (block_ptrs i) (single_indirect_ptr i) (double_indirect_ptr i)
          (if S_ISREG md then file_initial_blocks sb else if S_ISDIR md then 1
           else if S_ISLNK md then 0 else 1)
          (size i) (mode i) 1 1 (uid i) (gid i) (if S_ISDIR md then 493 else 420) 0 0 0 1) ;;
        myfs_inode_cache_add p ;;
        _ ← myfs_disk_inode_write inode_num;
        ret (Some p).

(* ------------------------------------------------------------------ *)
(** ** Directories

    A name is the bytes of a C string before its null byte. *)

(** [strcmp(b + off, name) == 0] *)
Fixpoint strcmp_eq (name : buf) (off : Z) : M buf bool :=
  match name with
  | [] => c ← b8 off; ret (c =? 0)
  | n :: name => c ← b8 off; if c =? n then strcmp_eq name (off + 1) else ret false
  end.

Definition myfs_entry_idx_find (entries_count : Z) (name : buf) : M buf Z :=
  r ← scan_range 0 entries_count (λ i,
    eq ← strcmp_eq name (sizeof_dirent * i);
    ret (if eq : bool then Some i else None));
  ret (default (-1) r).

(** A new entry: [strncpy] of 31 characters, padded with zeros. *)
Definition new_entry (name : buf) (inode_num : Z) : buf :=
  take 32 (take 31 name ++ replicate 32 0) ++ le_of 4 inode_num.

(** The inode number found, or [None] for -1. *)
Definition myfs_lookup (dir_inode : Z) (name : buf) : M F (option Z) :=
  if dir_inode =? 0 then ret None
  else
    i ← deref dir_inode;
    if negb (S_ISDIR (mode i)) then ret None
    else if size i =? 0 then ret None
    else
      let entries_count := size i / sizeof_dirent in
      e ← kmalloc_bytes (size i);
      match e with
      | None => ret None
      | Some entries =>
          '(r, entries) ← myfs_node_read dir_inode 0 entries (size i);
          if s32 r <? 0 then ret None
          else
            idx ← peek (myfs_entry_idx_find entries_count name) entries;
            if idx =? -1 then ret None
            else
              n ← peek (b32 (sizeof_dirent * idx + 32)) entries;
              ret (Some n)
      end.

Definition myfs_dir_add_entry (dir_inode : Z) (name : buf) (inode_num : Z) : M F Z :=
  if dir_inode =? 0 then ret (-1)
  else
    i ← deref dir_inode;
    if negb (S_ISDIR (mode i)) then ret (-1)
    else
      existing ← myfs_lookup dir_inode name;
      match existing with
      | Some _ => ret (-1)
      | None => r ← myfs_node_write dir_inode (size i) (new_entry name inode_num) sizeof_dirent; ret (s32 r)
      end.

Definition myfs_dir_rm_entry (dir_inode : Z) (name : buf) : M F Z :=
  if dir_inode =? 0 then ret (-1)
  else
    i ← deref dir_inode;
    if negb (S_ISDIR (mode i)) then ret (-1)
    else
      let entries_count := size i / sizeof_dirent in
      e ← kmalloc_bytes (size i);
      match e with
      | None => ret (-1)
      | Some entries =>
          '(r, entries) ← myfs_node_read dir_inode 0 entries (size i);
          if s32 r <? 0 then ret (-1)
          else
            idx ← peek (myfs_entry_idx_find entries_count name) entries;
            if idx =? -1 then ret (-1)
            else
              entries ← of_opt (snd <$> for_range idx (entries_count - 1) (λ k,
                x ← get_bytes (sizeof_dirent * (k + 1)) sizeof_dirent;
                put_bytes (sizeof_dirent * k) x) entries);
              let new_size := (entries_count - 1) * sizeof_dirent in
              _ ← myfs_node_write dir_inode 0 entries new_size;
              _ ← myfs_inode_truncate dir_inode new_size;
              ret 0
      end.

Definition myfs_readdir (dir_inode offset : Z) (entry : buf) : M F (Z * buf) :=
  if dir_inode =? 0 then ret (-1, entry)
  else
    i ← deref dir_inode;
    if negb (S_ISDIR (mode i)) then ret (-1, entry)
    else if size i <=? offset then ret (0, entry)
    else myfs_node_read dir_inode offset entry sizeof_dirent.

(** The result code and, on success, the new inode's number. *)
Definition myfs_create_file (parent_dir : Z) (name : buf) : M F (Z * option Z) :=
  existing ← myfs_lookup parent_dir name;
  match existing with
  | Some _ => ret (- EEXIST, None)
  | None =>
      n ← myfs_inode_alloc S_IFREG;
      match n with
      | None => ret (-1, None)
      | Some p =>
          i ← deref p;
          r ← myfs_dir_add_entry parent_dir name (i_ino i);
          if r <? 0 then myfs_inode_free p ;; ret (-1, None)
          else i ← deref p; myfs_iput p ;; ret (0, Some (i_ino i))
      end
  end.

Definition myfs_create_dir (parent_dir : Z) (name : buf) : M F (Z * option Z) :=
  existing ← myfs_lookup parent_dir name;
  match existing with
  | Some _ => ret (- EEXIST, None)
  | None =>
      n ← myfs_inode_alloc S_IFDIR;
      match n with
      | None => ret (-1, None)
      | Some p =>
          i ← deref p;
          r ← myfs_dir_add_entry parent_dir name (i_ino i);
          if r <? 0 then myfs_inode_free p ;; ret (-1, None)
          else
            i ← deref p;
            _ ← myfs_dir_add_entry p [46] (i_ino i);
            parent ← deref parent_dir;
            _ ← myfs_dir_add_entry p [46; 46] (i_ino parent);
            i ← deref p;
            myfs_iput p ;;
            ret (0, Some (i_ino i))
      end
  end.

Definition myfs_unlink (parent_dir : Z) (name : buf) : M F Z :=
  found ← myfs_lookup parent_dir name;
  match found with
  | None => ret (- ENOENT)
  | Some target_ino =>
      target ← myfs_iget target_ino;
      when (negb (target =? 0)) (myfs_inode_free target) ;;
      myfs_dir_rm_entry parent_dir name
  end.

Definition myfs_rename (old_parent : Z) (old_name : buf) (new_parent : Z) (new_name : buf) : M F Z :=
  found ← myfs_lookup old_parent old_name;
  match found with
  | None => ret (-1)
  | Some found_ino =>
      r ← myfs_dir_rm_entry old_parent old_name;
      if r =? -1 then ret (-1)
      else
        _ ← myfs_unlink new_parent new_name;
        myfs_dir_add_entry new_parent new_name found_ino
  end.

Definition myfs_remove_dir (parent_dir : Z) (name : buf) : M F Z :=
  found ← myfs_lookup parent_dir name;
  match found with
  | None => ret (- ENOENT)
  | Some target_ino =>
      target ← myfs_iget target_ino;
      if target =? 0 then ret (- ENOENT)
      else
        i ← deref target;
        if negb (S_ISDIR (mode i)) then myfs_iput target ;; ret (- ENOTDIR)
        else if 2 <? size i / sizeof_dirent then myfs_iput target ;; ret (- ENOTEMPTY)
        else
          myfs_inode_free target ;;
          myfs_dir_rm_entry parent_dir name
  end.

(* ------------------------------------------------------------------ *)
(** ** Symbolic links *)

Definition myfs_symlink_read (inode : Z) (out : buf) (bufsize : Z) : M F (Z * buf) :=
  i ← deref inode;
  if negb (S_ISLNK (mode i)) then ret (-1, out)
  else myfs_node_read inode 0 out (Z.min (size i) bufsize).

Definition myfs_create_symlink (parent_dir : Z) (name target : buf) : M F Z :=
  existing ← myfs_lookup parent_dir name;
  match existing with
  | Some _ => ret (-1)
  | None =>
      n ← myfs_inode_alloc S_IFLNK;
      match n with
      | None => ret (-1)
      | Some p =>
          r ← myfs_node_write p 0 target (blen target);
          if s32 r <? 0 then myfs_inode_free p ;; ret (-1)
          else
            i ← deref p;
            r ← myfs_dir_add_entry parent_dir name (i_ino i);
            if r <? 0 then myfs_inode_free p ;; ret (-1)
            else myfs_iput p ;; ret 0
      end
  end.

(* ------------------------------------------------------------------ *)
(** ** Formatting, mounting and unmounting *)

Definition MYFS_BLOCK_SECTORS : Z := 4.
Definition MYFS_FILE_INIT_BLOCK_COUNT : Z := 1.

(** [(n + MYFS_BLOCK_BYTES - 1) / MYFS_BLOCK_BYTES], where the macro stands for
    [SECTOR_BYTES *MYFS_BLOCK_SECTORS] without parentheses. *)
Definition blocks_for (n : Z) : Z :=
  u32 (u32 (n + SECTOR_BYTES * MYFS_BLOCK_SECTORS - 1) / SECTOR_BYTES * MYFS_BLOCK_SECTORS).

(** The superblock that [myfs_format] lays out on [max_sectors]. *)
Definition format_sb (max_sectors : Z) : MyfsDiskSuperBlock :=
  let total_blocks := max_sectors / MYFS_BLOCK_SECTORS in
  let total_inodes := total_blocks / 4 in
  let block_bitmap_start := 1 in
  let inode_bitmap_start := u32 (block_bitmap_start + blocks_for total_blocks) in
  let inode_table_start := u32 (inode_bitmap_start + blocks_for total_inodes) in
  let data_blocks_start := u32 (inode_table_start + blocks_for (u32 (total_inodes * sizeof_inode))) in
  DiskSuper MYFS_MAGIC total_inodes total_blocks 0 0 MYFS_BLOCK_SECTORS MYFS_FILE_INIT_BLOCK_COUNT
    inode_bitmap_start block_bitmap_start inode_table_start data_blocks_start MYFS_ROOT_INODE_NUM.

(** The superblock in use becomes [sb], without bitmaps and with an empty
    inode cache. *)
Definition fresh_sb (sb : MyfsDiskSuperBlock) (bb : Z) : M F unit :=
  modify (λ s, Myfs (dev s) sb bb [] [] (mk_arr INODE_HASH_SIZE []) 0 (inodes s) (fresh s) (answers s)
    (junk s) (stale s)).

Definition myfs_format (max_sectors : Z) : M F Z :=
  let sb := format_sb max_sectors in
  fresh_sb sb (SECTOR_BYTES * MYFS_BLOCK_SECTORS) ;;
  rest ← junk_bytes (SECTOR_BYTES * MYFS_BLOCK_SECTORS - sizeof_sb);
  disk_write_block 0 (encode_sb sb ++ rest) ;;
  let inode_bitmap_bytes := u32 (total_inodes sb + 7) / 8 in
  let block_bitmap_bytes := u32 (total_blocks sb + 7) / 8 in
  ok1 ← kmalloc;
  ok2 ← kmalloc;
  if negb (ok1 && ok2) then ret (-1)
  else
    modify (set_imap (replicate (Z.to_nat inode_bitmap_bytes) 0)) ;;
    modify (set_bmap (replicate (Z.to_nat block_bitmap_bytes) 0)) ;;
    for_range 0 (data_blocks_start sb) (λ i, on_bmap (myfs_bitmap_set i)) ;;
    r ← myfs_inode_alloc S_IFDIR;
    match r with
    | None => ret (-1)
    | Some root_inode =>
        i ← deref root_inode;
        _ ← myfs_dir_add_entry root_inode [46] (i_ino i);
        i ← deref root_inode;
        _ ← myfs_dir_add_entry root_inode [46; 46] (i_ino i);
        myfs_iput root_inode ;;
        b ← gets block_bitmap;
        disk_write_bitmap (block_bitmap_start sb) b block_bitmap_bytes ;;
        b ← gets inode_bitmap;
        disk_write_bitmap (inode_bitmap_start sb) b inode_bitmap_bytes ;;
        modify (set_bmap []) ;;
        modify (set_imap []) ;;
        ret 0
    end.

(** Is there a superblock? *)
Definition myfs_sb_read : M F bool :=
  ok ← kmalloc;
  if negb ok then ret false
  else
    old ← junk_bytes SECTOR_BYTES;
    r ← zoom dev set_dev (read_sectors 0 1);
    tmp ← match r with Some x => of_opt (splice 0 x old) | None => ret old end;
    sb ← peek decode_sb tmp;
    fresh_sb sb (u32 (block_sectors sb * SECTOR_BYTES)) ;;
    if negb (magic sb =? MYFS_MAGIC) then ret false
    else
      let block_bitmap_bytes := u32 (total_blocks sb + 7) / 8 in
      let inode_bitmap_bytes := u32 (total_inodes sb + 7) / 8 in
      b1 ← kmalloc_bytes block_bitmap_bytes;
      b2 ← kmalloc_bytes inode_bitmap_bytes;
      match b1, b2 with
      | Some b1, Some b2 =>
          b1 ← disk_read_bitmap (block_bitmap_start sb) b1 block_bitmap_bytes;
          modify (set_bmap b1) ;;
          b2 ← disk_read_bitmap (inode_bitmap_start sb) b2 inode_bitmap_bytes;
          modify (set_imap b2) ;;
          modify (set_mounted 1) ;;
          ret true
      | _, _ => ret false
      end.

Definition myfs_sb_kill : M F Z :=
  inodes_flush ;;
  sb ← gets on_disk;
  let block_bitmap_bytes := u32 (total_blocks sb + 7) / 8 in
  let inode_bitmap_bytes := u32 (total_inodes sb + 7) / 8 in
  b ← gets block_bitmap;
  disk_write_bitmap (block_bitmap_start sb) b block_bitmap_bytes ;;
  b ← gets inode_bitmap;
  disk_write_bitmap (inode_bitmap_start sb) b inode_bitmap_bytes ;;
  modify (set_mounted 0) ;;
  modify (set_bmap []) ;;
  modify (set_imap []) ;;
  ret 0.
End myfs.
