(* ===== verification/MyfsBlocks.v ===== *)
(** * MyFS: blocks and bitmaps

    What the block layer of [kernel/src/fs/myfs/myfs.c] does to the contents of
    the disk, for a well-formed file system: a block read gives its contents,
    a block write replaces them and nothing else, a bitmap search gives the
    first free bit. *)

From S2P Require Import Prelude Bitmap Buf Disk Myfs.

(* ------------------------------------------------------------------ *)
(** ** Bits of a buffer *)

Definition tbit (b : buf) (n : Z) : bool := Z.testbit (default 0 (b !! Z.to_nat (n / 8))) (n mod 8).

Lemma b8_byte off b : 0 <= off < blen b → b8 off b = Some (default 0 (b !! Z.to_nat off), b).
Proof.
  intros H. destruct (lookup_lt_is_Some_2 b (Z.to_nat off)) as [x Hx]; [unfold blen in H; lia|].
  rewrite Hx. apply b8_at. rewrite sub_bytes_is_Some by lia. by rewrite (drop_S b x) by done.
Qed.

Lemma w8_byte off v b :
  0 <= off < blen b → w8 off v b = Some (tt, <[Z.to_nat off := u8 v]> b).
Proof.
  intros H. unfold w8, put_bytes. cbn [le_of].
  rewrite splice_is_Some by (unfold blen in *; cbn [length]; lia).
  do 2 f_equal. rewrite insert_take_drop by (unfold blen in H; lia). cbn [length]. by rewrite Nat.add_1_r.
Qed.

Lemma bytes_ok_insert k x b : is_u8 x → bytes_ok b → bytes_ok (<[k := x]> b).
Proof. intros Hx Hb. by apply Forall_insert. Qed.

Lemma bytes_ok_default (b : buf) k : bytes_ok b → is_u8 (default 0 (b !! k)).
Proof. intros H. destruct (b !! k) as [x|] eqn:E; cbn; [by eapply Forall_lookup_1|ulia]. Qed.

Lemma tbit_insert (b : buf) n v x :
  0 <= n < 8 * blen b →
  (∀ k, 0 <= k < 8 → Z.testbit x k =
     if decide (k = n mod 8) then v else Z.testbit (default 0 (b !! Z.to_nat (n / 8))) k) →
  ∀ m, 0 <= m → tbit (<[Z.to_nat (n / 8) := x]> b) m = if decide (m = n) then v else tbit b m.
Proof.
  intros Hn Hx m Hm. unfold tbit. destruct (decide (m / 8 = n / 8)) as [E|E].
  - rewrite E, list_lookup_insert_eq by (unfold blen in Hn; lia). cbn. rewrite Hx by lia.
    destruct (decide (m mod 8 = n mod 8)), (decide (m = n)); try lia; done.
  - rewrite list_lookup_insert_ne by lia. by rewrite decide_False by (intros ->; lia).
Qed.

Lemma not32_testbit z k : 0 <= k < 32 → Z.testbit (not32 z) k = Z.testbit (Z.lnot z) k.
Proof.
  intros Hk. rewrite <- (Z.mod_pow2_bits_low (not32 z) 32 k), <- (Z.mod_pow2_bits_low (Z.lnot z) 32 k) by lia.
  f_equal. unfold not32, Z.lnot. change (2 ^ 32) with 4294967296. lia.
Qed.

(** [b'] is [b] with bit [n] set to [v]. *)
Definition tbit_upd (b : buf) (n : Z) (v : bool) (b' : buf) : Prop :=
  blen b' = blen b ∧ bytes_ok b' ∧ ∀ m, 0 <= m → tbit b' m = if decide (m = n) then v else tbit b m.

Section bits.
Variables (b : buf) (n : Z).
Hypothesis (Hb : bytes_ok b) (Hn : 0 <= n < 8 * blen b) (Hn31 : n < 2147483648).

Lemma wp_bit_number (Q : Z → buf → Prop) : Q n b → wp (bit_number n) b Q.
Proof using All.
  intros HQ. unfold bit_number. rewrite s32_small by lia. wp_step. apply wp_assert; [blia|]. by wp_step.
Qed.

Lemma wp_myfs_bitmap_set (Q : unit → buf → Prop) :
  (∀ b', tbit_upd b n true b' → Q tt b') → wp (myfs_bitmap_set n) b Q.
Proof using All.
  intros HQ. unfold myfs_bitmap_set. wp_step. apply wp_bit_number. wp_step.
  eapply wp_intro; [apply b8_byte; lia|]. eapply wp_intro; [apply w8_byte; lia|]. apply HQ. split_and!.
  - unfold blen. by rewrite length_insert.
  - apply bytes_ok_insert; [apply u8_range|done].
  - apply tbit_insert; [done|]. intros k Hk. by rewrite u8_testbit, testbit_lor_pow2 by lia.
Qed.

Lemma wp_myfs_bitmap_clear (Q : unit → buf → Prop) :
  (∀ b', tbit_upd b n false b' → Q tt b') → wp (myfs_bitmap_clear n) b Q.
Proof using All.
  intros HQ. unfold myfs_bitmap_clear. wp_step. apply wp_bit_number. wp_step.
  eapply wp_intro; [apply b8_byte; lia|]. eapply wp_intro; [apply w8_byte; lia|]. apply HQ. split_and!.
  - unfold blen. by rewrite length_insert.
  - apply bytes_ok_insert; [apply u8_range|done].
  - apply tbit_insert; [done|]. intros k Hk.
    rewrite u8_testbit, Z.land_spec, not32_testbit, <- Z.land_spec by lia. by apply testbit_ldiff_pow2; lia.
Qed.

Lemma wp_bitmap_is_set (Q : bool → buf → Prop) : Q (tbit b n) b → wp (bitmap_is_set n) b Q.
Proof using All.
  intros HQ. unfold bitmap_is_set. wp_step. apply wp_bit_number. wp_step.
  eapply wp_intro; [apply b8_byte; lia|]. wp_step. by rewrite land_pow2_testbit by lia.
Qed.
End bits.

(** The first free bit from [start] on, or -1. *)
Definition first_free (b : buf) (size start r : Z) : Prop :=
  (r = -1 ∧ ∀ m, start <= m < 8 * size → tbit b m = true) ∨
  (start <= r < 8 * size ∧ tbit b r = false ∧ ∀ m, start <= m < r → tbit b m = true).

Lemma byte_full x k : is_u8 x → 0 <= k < 8 → x = 255 → Z.testbit x k = true.
Proof.
  intros _ Hk ->. change 255 with (Z.ones 8). apply Z.ones_spec_low. lia.
Qed.

Lemma wp_find_first_empty_bit b size start :
  bytes_ok b → size <= blen b → 0 <= start → size < 268435456 →
  wp (find_first_empty_bit size start) b (λ r b', b' = b ∧ first_free b size start r).
Proof.
  intros Hb Hs H0 Hmax. unfold find_first_empty_bit. wp_step.
  apply (wp_scan_range (λ k s, s = b ∧ ∀ m, start <= m < 8 * k → tbit b m = true)).
  - split; [done|]. intros m Hm. lia.
  - intros j s Hj [-> Hset]. wp_step. eapply wp_intro; [apply b8_byte; lia|].
    destruct (_ =? 255) eqn:E.
    + wp_step. split; [done|]. intros m Hm. destruct (decide (m < 8 * j)); [apply Hset; lia|].
      unfold tbit. replace (m / 8) with j by lia.
      apply byte_full; [by apply bytes_ok_default|lia|blia].
    + set (bs := if j =? start / 8 then start mod 8 else 0).
      assert (0 <= bs < 8 ∧ start <= 8 * j + bs ∧ (8 * j + bs = start ∨ bs = 0)) as (Hbs & Hbs1 & Hbs2).
      { subst bs. destruct (j =? start / 8) eqn:E2; blia. }
      apply (wp_scan_range (λ k s, s = b ∧ ∀ m, start <= m < 8 * j + k → tbit b m = true)).
      * split; [done|]. intros m Hm. apply Hset. lia.
      * intros k s Hk [-> Hset']. wp_step.
        pose proof (land_pow2_testbit (default 0 (b !! Z.to_nat j)) k ltac:(lia)) as Ht.
        assert (tbit b (8 * j + k) = Z.testbit (default 0 (b !! Z.to_nat j)) k) as Hk'.
        { unfold tbit. do 3 f_equal; [do 2 f_equal|]; lia. }
        destruct (Z.land _ _ =? 0) eqn:E2; simpl in Ht.
        -- wp_step. split; [done|]. rewrite s32_small by lia. right.
           split; [cbn; lia|]. replace (default (-1) (Some (j * 8 + k))) with (8 * j + k) by (cbn; lia).
           split; [by rewrite Hk'|done].
        -- split; [done|]. intros m Hm. destruct (decide (m = 8 * j + k)) as [->|]; [by rewrite Hk'|].
           apply Hset'. lia.
      * intros s [-> Hset']. split; [done|]. intros m Hm. apply Hset'. lia.
  - intros s [-> Hset]. wp_step. split; [done|]. left. split; [done|]. intros m Hm. apply Hset. lia.
Qed.

(* ------------------------------------------------------------------ *)
(** ** Buffers *)

Lemma sub_bytes_all b : sub_bytes 0 (blen b) b = Some b.
Proof.
  rewrite sub_bytes_is_Some by (pose proof (blen_nonneg b); lia). unfold blen. rewrite Nat2Z.id. rewrite drop_0.
  by rewrite take_ge.
Qed.

Lemma splice_all x b : blen x = blen b → splice 0 x b = Some x.
Proof.
  intros H. rewrite splice_is_Some by (pose proof (blen_nonneg b); lia). unfold blen in H.
  cbn [Z.to_nat take app]. rewrite drop_ge by lia. by rewrite app_nil_r.
Qed.

(** Pieces of [w] bytes, side by side. *)
Lemma length_pieces (f : Z → buf) w lo n :
  (∀ i, blen (f i) = w) → 0 <= n → blen (concat (f <$> seqZ lo n)) = w * n.
Proof.
  intros Hf Hn. revert lo. pattern n. apply natlike_ind; [|clear n Hn|done].
  { intros lo. rewrite Z.mul_0_r. done. }
  intros n Hn IH lo.
  rewrite seqZ_cons by lia. rewrite Z.pred_succ. cbn. rewrite blen_app, IH, Hf. lia.
Qed.

Lemma pieces_ok (f : Z → buf) l : (∀ i, bytes_ok (f i)) → bytes_ok (concat (f <$> l)).
Proof. intros Hf. apply Forall_concat, Forall_fmap, Forall_forall. intros x _. apply Hf. Qed.

Lemma pieces_eq (f : Z → buf) w lo n b :
  0 <= w → 0 <= n → blen b = w * n →
  (∀ i, 0 <= i < n → sub_bytes (w * i) w b = Some (f (lo + i))) →
  concat (f <$> seqZ lo n) = b.
Proof.
  intros Hw Hn. revert lo b. pattern n. apply natlike_ind; [|clear n Hn; intros n Hn IH|done]; intros lo b Hb Hs.
  - unfold blen in Hb. rewrite Z.mul_0_r in Hb. by destruct b.
  - rewrite seqZ_cons by lia. rewrite Z.pred_succ. cbn [fmap list_fmap concat].
    destruct (sub_bytes_split b w (w * n)) as (x & y & Hx & Hy & ->); [lia|lia|lia|].
    pose proof (Hs 0 ltac:(lia)) as H0. rewrite Z.mul_0_r, Z.add_0_r, Hx in H0. injection H0 as <-. f_equal.
    pose proof (sub_bytes_length _ _ _ _ Hx) as Lx. pose proof (sub_bytes_length _ _ _ _ Hy) as Ly.
    apply IH; [done|]. intros i Hi. rewrite <- (sub_bytes_sub w (w * n) (x ++ y) y) by (done || nia).
    replace (w + w * i) with (w * (i + 1)) by lia. rewrite Hs by lia. do 2 f_equal. lia.
Qed.

(** The 32-bit words of a buffer. *)
Definition word (b : buf) (k : Z) : Z := le_val (default [] (sub_bytes (4 * k) 4 b)).

Lemma b32_word b k : 0 <= k → 4 * k + 4 <= blen b → b32 (4 * k) b = Some (word b k, b).
Proof.
  intros Hk Hb. unfold b32, word, get_bytes, bind. rewrite (sub_bytes_is_Some (4 * k)) by lia. done.
Qed.

Lemma word_range b k : bytes_ok b → is_u32 (word b k).
Proof.
  intros Hb. unfold word. destruct (sub_bytes (4 * k) 4 b) as [x|] eqn:E; cbn; [|ulia].
  pose proof (le_val_bound x (sub_bytes_ok _ _ _ _ Hb E)) as H. apply sub_bytes_length in E.
  unfold blen in E. replace (256 ^ Z.of_nat (length x)) with 4294967296 in H by (by rewrite E). exact H.
Qed.

Lemma word_zero n k : word (replicate n 0) k = 0.
Proof.
  unfold word. destruct (sub_bytes _ _ _) as [x|] eqn:E; [|done]. cbn. unfold sub_bytes in E.
  case_match; [|done]. injection E as <-. rewrite drop_replicate, take_replicate.
  generalize (Init.Nat.min (Z.to_nat 4) (n - Z.to_nat (4 * k))). intros m.
  induction m as [|m IH]; [done|]. cbn [replicate le_val]. rewrite IH. done.
Qed.

Lemma w32_word b k v :
  bytes_ok b → is_u32 v → 0 <= k → 4 * k + 4 <= blen b →
  ∃ b', w32 (4 * k) v b = Some (tt, b') ∧ blen b' = blen b ∧ bytes_ok b' ∧
    ∀ j, word b' j = if decide (j = k) then v else word b j.
Proof.
  intros Hok Hv Hk Hb. unfold w32, put_bytes.
  assert (blen (le_of 4 v) = 4) as L by (unfold blen; by rewrite length_le_of).
  destruct (splice (4 * k) (le_of 4 v) b) as [b'|] eqn:E; [|rewrite splice_is_Some in E by lia; done].
  exists b'. split; [done|]. split_and!.
  - unfold blen. by rewrite (splice_length _ _ _ _ E).
  - apply splice_inv in E as (_ & _ & ->). apply Forall_app; split; [by apply Forall_take|].
    apply Forall_app; split; [apply le_of_ok|by apply Forall_drop].
  - intros j. unfold word. destruct (decide (j = k)) as [->|Hj].
    + pose proof (sub_splice_same _ _ _ _ E) as Hs. rewrite L in Hs. rewrite Hs. apply le_val_of. exact Hv.
    + rewrite (sub_splice_other _ _ _ _ _ _ E) by lia. done.
Qed.

Section blocks.
Context {D : Type} {BD : BlockDevice D}.
Notation F := (myfs D).

Definition bsz (s : F) : Z := block_sectors (on_disk s).
Definition nblocks (s : F) : Z := total_blocks (on_disk s).

(** The contents of block [l]. *)
Definition block (s : F) (l : Z) : buf := concat (bd_sector (dev s) <$> seqZ (l * bsz s) (bsz s)).

(** The device holds the blocks and the bitmap has a bit for each; the number
    of blocks is a multiple of 8, so that the bitmap has no other bits. The
    blocks before the data area are in use. *)
Record fs_ok (s : F) : Prop := {
  fs_dev : bd_inv (dev s);
  fs_bs : 0 < bsz s <= 256;
  fs_bb : block_bytes s = SECTOR_BYTES * bsz s;
  fs_total : 0 <= nblocks s;
  fs_size : nblocks s * bsz s <= bd_size (dev s);
  fs_eight : nblocks s mod 8 = 0;
  fs_map : 8 * blen (block_bitmap s) = nblocks s;
  fs_map_ok : bytes_ok (block_bitmap s);
  fs_data : 0 < data_blocks_start (on_disk s);
  fs_meta m : 0 <= m < data_blocks_start (on_disk s) → tbit (block_bitmap s) m = true
}.

Lemma fs_blocks_max s : fs_ok s → nblocks s <= 268435456.
Proof. intros H. pose proof (bd_bound _ (fs_dev _ H)). destruct H. nia. Qed.

Lemma block_len s l : fs_ok s → blen (block s l) = block_bytes s.
Proof.
  intros H. unfold block. rewrite (length_pieces _ SECTOR_SIZE).
  - by rewrite fs_bb.
  - intros i. apply bd_width, fs_dev, H.
  - pose proof (fs_bs _ H). lia.
Qed.

Lemma block_ok s l : fs_ok s → bytes_ok (block s l).
Proof. intros H. apply pieces_ok. intros i. apply bd_width, fs_dev, H. Qed.

Lemma wp_disk_read_block s l old (Q : buf → F → Prop) :
  fs_ok s → 0 <= l < nblocks s → blen old = block_bytes s →
  Q (block s l) s → wp (disk_read_block l old) s Q.
Proof.
  intros H Hl Hold HQ. pose proof (bd_bound _ (fs_dev _ H)). pose proof (fs_bs _ H). pose proof (fs_size _ H).
  unfold disk_read_block. wp_step. wp_step. wp_step. wp_step. fold (bsz s). rewrite u32_small by (unfold is_u32; nia).
  eapply wp_mono; [apply bd_read_ok; [apply H|nia..]|]. intros r d [-> ->].
  replace (set_dev (dev s) s) with s by (by destruct s).
  eapply wp_of_opt; [|exact HQ]. apply splice_all. rewrite Hold. by apply block_len.
Qed.

Lemma wp_disk_write_block s l x (Q : unit → F → Prop) :
  fs_ok s → 0 <= l < nblocks s → blen x = block_bytes s → bytes_ok x →
  (∀ d, let s' := set_dev d s in fs_ok s' → block s' l = x → (∀ k, k ≠ l → block s' k = block s k) → Q tt s') →
  wp (disk_write_block l x) s Q.
Proof.
  intros H Hl Hx Hok HQ. pose proof (bd_bound _ (fs_dev _ H)). pose proof (fs_bs _ H). pose proof (fs_size _ H).
  unfold disk_write_block. wp_step. wp_step. fold (bsz s). wp_step.
  apply wp_peek. rewrite (fs_bb _ H) in Hx. rewrite <- Hx.
  eapply wp_get_bytes; [apply sub_bytes_all|]. wp_step. wp_step. rewrite u32_small by (unfold is_u32; nia).
  eapply wp_mono; [apply bd_write_ok; [apply H|nia|done|nia|done|done]|].
  intros r d (-> & Hi & Hs & Hin & Hout). wp_step. apply HQ.
  - destruct H. split; try done. cbn. by rewrite Hs.
  - unfold block. change (bsz (set_dev d s)) with (bsz s). by apply (pieces_eq _ SECTOR_SIZE); [|lia|..].
  - intros k Hk. unfold block. cbn. f_equal. apply list_fmap_ext. intros n y Hy.
    apply lookup_seqZ in Hy as [-> Hn]. apply Hout. unfold bsz in *. cbn in *.
    destruct (decide (k < l)); [left|right]; nia.
Qed.

Lemma wp_junk_bytes n s (Q : buf → F → Prop) :
  (∀ b, blen b = Z.max 0 n → Q b s) → wp (junk_bytes n) s Q.
Proof.
  intros HQ. unfold junk_bytes. wp_step. apply HQ. unfold blen. rewrite length_fmap, length_seqZ. lia.
Qed.

Lemma wp_local_block s l (Q : buf → F → Prop) :
  fs_ok s → 0 <= l < nblocks s → Q (block s l) s → wp (local_block l) s Q.
Proof.
  intros H Hl HQ. unfold local_block. wp_step. wp_step. wp_step. apply wp_junk_bytes. intros b Hb.
  apply wp_disk_read_block; [done..| |done]. rewrite Hb, fs_bb by done. pose proof (fs_bs _ H).
  unfold SECTOR_BYTES. lia.
Qed.

Lemma wp_divisor s (Q : Z → F → Prop) : fs_ok s → Q (block_bytes s) s → wp divisor s Q.
Proof.
  intros H HQ. unfold divisor. wp_step. wp_step. wp_step. apply wp_assert; [|by wp_step].
  rewrite (fs_bb _ H). pose proof (fs_bs _ H). unfold SECTOR_BYTES. blia.
Qed.

(** The number of pointers in a block. *)
Definition ppb (s : F) : Z := block_bytes s / 4.

Lemma ppb_range s : fs_ok s → 0 < ppb s <= 32768 ∧ block_bytes s = 4 * ppb s.
Proof. intros H. unfold ppb. rewrite (fs_bb _ H). pose proof (fs_bs _ H). unfold SECTOR_BYTES. lia. Qed.

Lemma wp_read_ptr s l k (Q : Z → F → Prop) :
  fs_ok s → 0 <= l < nblocks s → 0 <= k < ppb s →
  Q (word (block s l) k) s → wp (read_ptr_from_block l k) s Q.
Proof.
  intros H Hl Hk HQ. destruct (ppb_range _ H). unfold read_ptr_from_block. wp_step. apply wp_local_block; [done..|].
  apply wp_peek. eapply wp_intro; [apply b32_word; [lia|rewrite block_len by done; lia]|done].
Qed.

Lemma wp_write_ptr s l k v (Q : Z → F → Prop) :
  fs_ok s → 0 <= l < nblocks s → 0 <= k < ppb s → is_u32 v →
  (∀ d, let s' := set_dev d s in fs_ok s' →
     (∀ j, word (block s' l) j = if decide (j = k) then v else word (block s l) j) →
     (∀ m, m ≠ l → block s' m = block s m) → Q 0 s') →
  wp (write_ptr_to_block l k v) s Q.
Proof.
  intros H Hl Hk Hv HQ. destruct (ppb_range _ H). unfold write_ptr_to_block. wp_step. apply wp_local_block; [done..|].
  destruct (w32_word (block s l) k v) as (b' & E & Hlen & Hok & Hw);
    [by apply block_ok|done|lia|rewrite block_len by done; lia|].
  wp_step. apply (wp_of_opt _ b'); [by rewrite E|]. wp_step.
  apply wp_disk_write_block; [done..|by rewrite Hlen, block_len|done|].
  intros d s' Hs' Hin Hout. wp_step. apply HQ; [done| |done]. intros j. rewrite <- Hw, <- Hin. done.
Qed.
End blocks.
