(* ===== verification/MyfsMap.v ===== *)
(** * MyFS: the block map of an inode

    An inode reaches its blocks through ten direct pointers, a table of
    pointers and a table of tables. The pointers are the values of a function
    on places; [myfs_block_lba_get] is the value at a data place, and
    [myfs_map_block_to_inode] changes that value and no other data place,
    allocating the tables on the way. *)

From S2P Require Import Prelude Bitmap Buf Disk Myfs MyfsBlocks.

(* ------------------------------------------------------------------ *)
(** ** Places *)

Inductive place := Single | Double | Sub (m : Z) | Data (j : Z).

#[global] Instance place_eq_dec : EqDecision place.
Proof. solve_decision. Defined.

Definition is_table (pl : place) : bool := match pl with Data _ => false | _ => true end.

(** The places of an inode with [n] pointers to a block. *)
Definition max_blocks (n : Z) : Z := MYFS_DIRECT_BLOCKS_MAX + n + n * n.
Definition valid (n : Z) (pl : place) : Prop :=
  match pl with
  | Single | Double => True
  | Sub m => 0 <= m < n
  | Data j => 0 <= j < max_blocks n
  end.

(** The pointer at a place, 0 for none; [B] gives the contents of a block. *)
Definition via (B : Z → buf) (t k : Z) : Z := if t =? 0 then 0 else word (B t) k.
Definition sub_at (B : Z → buf) (i : MyfsInode) (m : Z) : Z := via B (double_indirect_ptr i) m.
Definition at_ (B : Z → buf) (n : Z) (i : MyfsInode) (pl : place) : Z :=
  match pl with
  | Single => single_indirect_ptr i
  | Double => double_indirect_ptr i
  | Sub m => sub_at B i m
  | Data j =>
      if j <? 10 then default 0 (block_ptrs i !! Z.to_nat j)
      else if j - 10 <? n then via B (single_indirect_ptr i) (j - 10)
      else via B (sub_at B i ((j - 10 - n) / n)) ((j - 10 - n) mod n)
  end.

(** The place a pointer is stored in: an inode field or a table. *)
Lemma via_ext B B' t k : (t ≠ 0 → word (B' t) k = word (B t) k) → via B' t k = via B t k.
Proof. intros H. unfold via. destruct (t =? 0) eqn:E; [done|]. apply H. lia. Qed.

Lemma sub_valid n j :
  0 < n → ¬ j < 10 → ¬ j - 10 < n → valid n (Data j) → valid n (Sub ((j - 10 - n) / n)).
Proof.
  unfold valid, max_blocks, MYFS_DIRECT_BLOCKS_MAX. intros H0 H1 H2 H3.
  split; [apply Z.div_pos; lia|]. apply Z.div_lt_upper_bound; nia.
Qed.

Section steps.
Variables (B B' : Z → buf) (n : Z) (i : MyfsInode).
Hypothesis (Hn : 0 < n).
Notation at0 := (at_ B n i).

(** Distinct places hold distinct blocks. *)
Definition injective : Prop :=
  ∀ pl pl', valid n pl → valid n pl' → at0 pl ≠ 0 → at0 pl = at0 pl' → pl = pl'.

(** Nothing but block [l] has changed. *)
Definition same_but (l : Z) : Prop := ∀ m, m ≠ l → B' m = B m.
Definition not_at (t : Z) : Prop := ∀ pl, valid n pl → at0 pl ≠ t.

(** The pointers do not depend on blocks that are not tables. *)
Lemma at_tables pl :
  (∀ pl', valid n pl' → is_table pl' = true → at0 pl' ≠ 0 → B' (at0 pl') = B (at0 pl')) →
  valid n pl → at_ B' n i pl = at0 pl.
Proof.
  intros Hl Hv.
  assert (∀ m, valid n (Sub m) → sub_at B' i m = sub_at B i m) as Hsub.
  { intros m _. apply via_ext. intros Ht. f_equal. exact (Hl Double I eq_refl Ht). }
  destruct pl as [| |m|j]; [done|done|by apply Hsub|]. cbn [at_].
  destruct (j <? 10) eqn:E1; [done|]. destruct (j - 10 <? n) eqn:E2.
  - apply via_ext. intros Ht. f_equal. exact (Hl Single I eq_refl Ht).
  - assert (valid n (Sub ((j - 10 - n) / n))) as Hm by (apply sub_valid; [done|blia|blia|done]).
    rewrite Hsub by done. apply via_ext. intros Ht. f_equal. exact (Hl (Sub _) Hm eq_refl Ht).
Qed.

Lemma at_frame l pl :
  same_but l → (∀ pl', valid n pl' → is_table pl' = true → at0 pl' ≠ 0 → at0 pl' ≠ l) →
  valid n pl → at_ B' n i pl = at0 pl.
Proof. intros Hs Hl. apply at_tables. intros pl' Hv Ht H0. apply Hs. by apply Hl. Qed.

Definition upd (P : place) (v : Z) (pl : place) : Z := if decide (pl = P) then v else at0 pl.

Lemma at_set_direct j v pl :
  length (block_ptrs i) = 10%nat → 0 <= j < 10 → valid n pl →
  at_ B n (with_ptrs (<[Z.to_nat j := v]> (block_ptrs i)) i) pl = upd (Data j) v pl.
Proof.
  intros Hlen Hj Hv. unfold upd. destruct pl as [| |m|k]; try (rewrite decide_False by done; reflexivity).
  cbn [at_ with_ptrs block_ptrs]. destruct (k <? 10) eqn:E.
  - cbn [valid] in Hv. destruct (decide (Data k = Data j)) as [H|H].
    + injection H as ->. by rewrite list_lookup_insert_eq by lia.
    + rewrite list_lookup_insert_ne; [done|]. intros Hk. apply H. f_equal. blia.
  - rewrite decide_False by (intros H; injection H as ->; blia). done.
Qed.

(** A new, empty table [t]. *)
Section fresh.
Variable (t : Z).
Hypothesis (Ht : t ≠ 0) (Hzero : ∀ k, word (B' t) k = 0) (Hs : same_but t) (Hf : not_at t).

Lemma via_same l k : l ≠ t → via B' l k = via B l k.
Proof. intros H. apply via_ext. intros _. by rewrite Hs. Qed.

Lemma via_zero k : via B' t k = 0.
Proof. unfold via. destruct (t =? 0); [done|apply Hzero]. Qed.

Lemma at_new_single pl :
  single_indirect_ptr i = 0 → valid n pl → at_ B' n (with_single t i) pl = upd Single t pl.
Proof.
  intros H0 Hv. unfold upd. pose proof (Hf Double I) as HD.
  assert (∀ m, sub_at B' (with_single t i) m = sub_at B i m) as Hsub by (intros m; by apply via_same).
  destruct pl as [| |m|j]; [done|done|by rewrite decide_False; [apply Hsub|]|]. rewrite decide_False by done.
  cbn [at_ with_single block_ptrs single_indirect_ptr]. destruct (j <? 10) eqn:E1; [done|].
  destruct (j - 10 <? n) eqn:E2; [rewrite H0; apply via_zero|].
  rewrite Hsub. apply via_same. apply (Hf (Sub _)). apply sub_valid; [done|blia|blia|done].
Qed.

Lemma at_new_double pl :
  double_indirect_ptr i = 0 → valid n pl → at_ B' n (with_double t i) pl = upd Double t pl.
Proof.
  intros H0 Hv. unfold upd. pose proof (Hf Single I) as HS.
  assert (∀ m, sub_at B i m = 0) as Hsub0 by (intros m; unfold sub_at; by rewrite H0).
  assert (∀ m, sub_at B' (with_double t i) m = 0) as Hsub by (intros m; apply via_zero).
  destruct pl as [| |m|j]; [done|done| |]; rewrite decide_False by done; cbn [at_].
  - by rewrite Hsub, Hsub0.
  - cbn [with_double block_ptrs single_indirect_ptr]. destruct (j <? 10) eqn:E1; [done|].
    destruct (j - 10 <? n) eqn:E2; [by apply via_same|]. by rewrite Hsub, Hsub0.
Qed.
End fresh.

(** One pointer of table [t] changed. *)
Section slot.
Variables (t k v : Z).
Hypothesis (Hinj : injective) (Ht0 : t ≠ 0).
Hypothesis (Hw : ∀ j, word (B' t) j = if decide (j = k) then v else word (B t) j) (Hs : same_but t).

Lemma via_slot j : via B' t j = if decide (j = k) then v else via B t j.
Proof. unfold via. destruct (t =? 0) eqn:E; [blia|]. apply Hw. Qed.

Lemma via_other l j : (l ≠ 0 → l ≠ t) → via B' l j = via B l j.
Proof. intros H. apply via_ext. intros Hl. rewrite Hs; [done|auto]. Qed.

Lemma at_slot_single pl :
  t = single_indirect_ptr i → 0 <= k < n → valid n pl → at_ B' n i pl = upd (Data (10 + k)) v pl.
Proof.
  intros Ht Hk Hv. unfold upd.
  assert (∀ pl', valid n pl' → pl' ≠ Single → at0 pl' ≠ 0 → at0 pl' ≠ t) as Hne.
  { intros pl' Hv' Hn' H0 E. apply Hn', Hinj; [done|exact I|done|by rewrite E]. }
  assert (∀ m, sub_at B' i m = sub_at B i m) as Hsub by (intros m; by apply via_other, (Hne Double)).
  destruct pl as [| |m|j]; [done|done|by rewrite decide_False; [apply Hsub|]|]. cbn [at_].
  destruct (j <? 10) eqn:E1; [by rewrite decide_False by (intros H; injection H; blia)|].
  destruct (j - 10 <? n) eqn:E2.
  - rewrite <- Ht, via_slot. destruct (decide (j - 10 = k)), (decide (Data j = Data (10 + k))) as [H|H]; try done.
    + destruct H. f_equal. lia.
    + injection H. lia.
  - rewrite decide_False by (intros H; injection H; blia). rewrite Hsub. apply via_other. apply (Hne (Sub _)); [|done].
    apply sub_valid; [done|blia|blia|done].
Qed.

Lemma at_slot_double pl :
  t = double_indirect_ptr i → 0 <= k < n → sub_at B i k = 0 → (∀ j, word (B v) j = 0) → v ≠ t →
  valid n pl → at_ B' n i pl = upd (Sub k) v pl.
Proof.
  intros Ht Hk Hz Hv0 Hvt Hv. unfold upd.
  assert (∀ pl', valid n pl' → pl' ≠ Double → at0 pl' ≠ 0 → at0 pl' ≠ t) as Hne.
  { intros pl' Hv' Hn' H0 E. apply Hn', Hinj; [done|exact I|done|by rewrite E]. }
  assert (∀ m, sub_at B' i m = if decide (m = k) then v else sub_at B i m) as Hsub.
  { intros m. unfold sub_at. rewrite <- Ht. apply via_slot. }
  destruct pl as [| |m|j]; [done|done| |]; cbn [at_].
  - rewrite Hsub. destruct (decide (m = k)) as [->|H]; [by rewrite decide_True|]. by rewrite decide_False by congruence.
  - rewrite decide_False by done. destruct (j <? 10) eqn:E1; [done|]. destruct (j - 10 <? n) eqn:E2.
    + apply via_other, (Hne Single); done.
    + rewrite Hsub. destruct (decide _) as [->|H].
      * rewrite Hz, via_other by done. unfold via. destruct (v =? 0); [done|]. by rewrite Hv0.
      * apply via_other, (Hne (Sub _)); [|done]. apply sub_valid; [done|blia|blia|done].
Qed.

Lemma data_index m : 0 <= m → 0 <= k < n → (10 + n + m * n + k - 10 - n) / n = m ∧ (10 + n + m * n + k - 10 - n) mod n = k.
Proof.
  intros Hm Hk. replace (10 + n + m * n + k - 10 - n) with (k + m * n) by lia.
  rewrite Z.div_add, Z.mod_add, Z.div_small, Z.mod_small by lia. lia.
Qed.

Lemma at_slot_sub m pl :
  0 <= m < n → t = sub_at B i m → 0 <= k < n → valid n pl →
  at_ B' n i pl = upd (Data (10 + n + m * n + k)) v pl.
Proof.
  intros Hm Ht Hk Hv. unfold upd.
  assert (∀ pl', valid n pl' → pl' ≠ Sub m → at0 pl' ≠ 0 → at0 pl' ≠ t) as Hne.
  { intros pl' Hv' Hn' H0 E. apply Hn', Hinj; [done|exact Hm|done|by rewrite E]. }
  assert (∀ m, sub_at B' i m = sub_at B i m) as Hsub by (intros m'; by apply via_other, (Hne Double)).
  destruct pl as [| |m'|j]; [done|done|by rewrite decide_False; [apply Hsub|]|]. cbn [at_].
  destruct (j <? 10) eqn:E1; [by rewrite decide_False by (intros H; injection H; nia)|].
  destruct (j - 10 <? n) eqn:E2.
  { rewrite decide_False by (intros H; injection H; nia). by apply via_other, (Hne Single). }
  rewrite Hsub. destruct (decide ((j - 10 - n) / n = m)) as [Hq|H].
  - assert (j - 10 - n = n * m + (j - 10 - n) mod n) as Hj by (rewrite <- Hq; apply Z.div_mod; lia).
    rewrite Hq, <- Ht, via_slot. revert Hj. generalize ((j - 10 - n) mod n). intros r Hj.
    destruct (decide (r = k)), (decide (Data j = _)) as [H1|H1]; try done.
    + destruct H1. f_equal. lia.
    + injection H1. lia.
  - rewrite decide_False.
    + apply via_other, (Hne (Sub _)); [|congruence]. apply sub_valid; [done|blia|blia|done].
    + intros H1. injection H1 as ->. apply H, data_index; lia.
Qed.
End slot.
End steps.

(* ------------------------------------------------------------------ *)
(** ** The tree of an inode on disk *)

Section tree.
Context {D : Type} {BD : BlockDevice D}.
Notation F := (myfs D).

Definition ptr (s : F) (i : MyfsInode) (pl : place) : Z := at_ (block s) (ppb s) i pl.
Definition used (s : F) (l : Z) : Prop := 0 <= l ∧ tbit (block_bitmap s) l = true.
Definition data_start (s : F) : Z := data_blocks_start (on_disk s).

(** [l] is one of the blocks, or one of the tables, of the inode. *)
Definition owned (s : F) (i : MyfsInode) (l : Z) : Prop :=
  ∃ pl, valid (ppb s) pl ∧ ptr s i pl = l ∧ l ≠ 0.
Definition table (s : F) (i : MyfsInode) (l : Z) : Prop :=
  ∃ pl, valid (ppb s) pl ∧ is_table pl = true ∧ ptr s i pl = l ∧ l ≠ 0.

Record tree_ok (s : F) (i : MyfsInode) : Prop := {
  tr_len : length (block_ptrs i) = 10%nat;
  tr_used pl : valid (ppb s) pl → ptr s i pl ≠ 0 →
    data_start s <= ptr s i pl < nblocks s ∧ used s (ptr s i pl);
  tr_inj : injective (block s) (ppb s) i
}.

(** What is not the block map of the inode, and what is neither its blocks nor
    the inodes of the state. *)
Definition meta (i : MyfsInode) :=
  (i_ino i, block_count i, size i, mode i, ref_count i, links_count i, uid i, gid i, permissions i,
   (atime i, mtime i, ctime i, dirty i)).
Definition core (s : F) :=
  (on_disk s, block_bytes s, inode_bitmap s, inode_hash_table s, mounted s, fresh s, answers s, junk s, stale s).

(** The inode has taken free blocks, or the block [x] reserved for it. Blocks
    in use that are not its tables keep their contents. *)
Record evolves (x : Z) (s : F) (i : MyfsInode) (s' : F) (i' : MyfsInode) : Prop := {
  ev_fs : fs_ok s';
  ev_tree : tree_ok s' i';
  ev_core : core s' = core s;
  ev_used l : used s l → used s' l;
  ev_frame l : used s l → ¬ table s i l → block s' l = block s l ∧ ¬ table s' i' l;
  ev_own l : l ≠ x → used s l → ¬ owned s i l → ¬ owned s' i' l
}.

Lemma core_disk s s' : core s' = core s → on_disk s' = on_disk s ∧ block_bytes s' = block_bytes s.
Proof. unfold core. intros H. injection H. auto. Qed.

Lemma core_ppb s s' : core s' = core s → ppb s' = ppb s ∧ nblocks s' = nblocks s ∧ data_start s' = data_start s.
Proof. intros H. apply core_disk in H as [H1 H2]. unfold ppb, nblocks, data_start. by rewrite H1, H2. Qed.

Lemma used_range s l : fs_ok s → used s l → 0 <= l < nblocks s.
Proof.
  intros H [Hl Hu]. split; [done|]. destruct (decide (l < nblocks s)) as [|Hn]; [done|]. exfalso. unfold tbit in Hu.
  rewrite lookup_ge_None_2 in Hu; [by rewrite Z.bits_0 in Hu|]. pose proof (fs_map _ H). unfold blen in *. lia.
Qed.

Lemma tree_owned s i l : tree_ok s i → owned s i l → data_start s <= l < nblocks s ∧ used s l.
Proof. intros H (pl & Hv & <- & H0). by apply tr_used. Qed.

Lemma table_owned s i l : table s i l → owned s i l.
Proof. intros (pl & Hv & _ & H & H0). by exists pl. Qed.

Lemma ev_refl x s i : fs_ok s → tree_ok s i → evolves x s i s i.
Proof. intros Hf Ht. by split; auto. Qed.

Lemma ev_weaken x s i s' i' : evolves 0 s i s' i' → tree_ok s i → evolves x s i s' i'.
Proof.
  intros [H1 H2 H3 H5 H6 H7] Ht. split; auto. intros l Hl Hu Ho.
  destruct (decide (l = 0)) as [->|]; [|auto]. by intros (pl & _ & _ & []).
Qed.

Lemma ev_trans x s i s1 i1 s2 i2 :
  evolves x s i s1 i1 → evolves x s1 i1 s2 i2 → evolves x s i s2 i2.
Proof.
  intros [H1 H2 H3 H5 H6 H7] [J1 J2 J3 J5 J6 J7]. split; auto; [congruence|].
  intros l Hu Hn. destruct (H6 l Hu Hn) as [E Hn']. destruct (J6 l) as [E2 Hn2]; [auto..|]. split; [congruence|done].
Qed.

(** One pointer of the inode changed, to none or to a block that was not the
    inode's. *)
Lemma ev_upd x P v s i s' i' :
  tree_ok s i → fs_ok s' → core s' = core s → length (block_ptrs i') = 10%nat →
  (∀ l, used s l → used s' l) →
  valid (ppb s) P → (∀ pl, valid (ppb s) pl → ptr s' i' pl = if decide (pl = P) then v else ptr s i pl) →
  (v = 0 ∨ (data_start s <= v < nblocks s ∧ used s' v ∧ ¬ owned s i v ∧
            (is_table P = true → ¬ used s v) ∧ (v = x ∨ ¬ used s v))) →
  (∀ l, used s l → ¬ table s i l → block s' l = block s l) →
  evolves x s i s' i'.
Proof.
  intros [T1 T2 T3] Hf Hc Hlen Hu HP Hptr Hv Hb. destruct (core_ppb _ _ Hc) as (Ep & En & Ed).
  split; try done.
  - split; [done| |].
    + intros pl Hpl. rewrite Ep in Hpl. rewrite Ed, En, Hptr by done. destruct (decide (pl = P)).
      * intros H0. destruct Hv as [|(H1 & H2 & _)]; [done|]. done.
      * intros H0. destruct (T2 pl Hpl H0). auto.
    + intros pl pl' Hpl Hpl'. fold (ptr s' i' pl) (ptr s' i' pl'). rewrite Ep in Hpl, Hpl'. rewrite !Hptr by done.
      destruct (decide (pl = P)) as [->|H1], (decide (pl' = P)) as [->|H2]; intros H0 HE; [done| | |].
      * destruct Hv as [|(_ & _ & Ho & _)]; [done|]. destruct Ho. by exists pl'.
      * destruct Hv as [->|(_ & _ & Ho & _)]; [done|]. destruct Ho. exists pl. rewrite HE. split; [done|].
        split; [done|]. by rewrite <- HE.
      * by apply T3.
  - intros l Hul Ht. split; [by apply Hb|]. intros (pl & Hpl & Htab & HE & H0). rewrite Ep in Hpl.
    rewrite Hptr in HE by done. destruct (decide (pl = P)) as [->|].
    + subst v. destruct Hv as [|(_ & _ & _ & Hnt & _)]; [done|]. by apply Hnt.
    + apply Ht. by exists pl.
  - intros l Hx Hul Ho (pl & Hpl & HE & H0). rewrite Ep in Hpl.
    rewrite Hptr in HE by done. destruct (decide (pl = P)) as [->|].
    + subst v. destruct Hv as [|(_ & _ & _ & _ & [|])]; done.
    + apply Ho. by exists pl.
Qed.

(* ------------------------------------------------------------------ *)
(** ** Inodes in memory, and free blocks *)

Lemma wp_inode s p i (Q : MyfsInode → F → Prop) : inodes s !! p = Some i → Q i s → wp (deref p) s Q.
Proof. intros H HQ. unfold deref. wp_step. wp_step. by apply (wp_of_opt _ i). Qed.

Lemma wp_update s p i f (Q : unit → F → Prop) :
  inodes s !! p = Some i → Q tt (set_inodes (<[p := f i]> (inodes s)) s) → wp (update p f) s Q.
Proof. intros H HQ. unfold update. wp_step. eapply wp_inode; [done|]. by wp_step. Qed.

Lemma fs_ok_inodes s m : fs_ok s → fs_ok (set_inodes m s).
Proof. intros [? ? ? ? ? ? ? ? ? ?]. by split. Qed.

Lemma fs_ok_bmap s b : fs_ok s → blen b = blen (block_bitmap s) → bytes_ok b →
  (∀ l, used s l → tbit b l = true) → fs_ok (set_bmap b s).
Proof.
  intros H Hl Hok Hu. destruct H. split; try done; cbn; [by rewrite Hl|].
  intros m Hm. apply Hu. split; [lia|auto].
Qed.

(** A free block, marked as used, or 0 when there is none. *)
Lemma wp_myfs_bitmap_alloc s (Q : Z → F → Prop) :
  fs_ok s →
  ((∀ l, data_start s <= l < nblocks s → used s l) → Q 0 s) →
  (∀ t b, data_start s <= t < nblocks s → ¬ used s t → tbit_upd (block_bitmap s) t true b →
     fs_ok (set_bmap b s) → Q t (set_bmap b s)) →
  wp myfs_bitmap_alloc s Q.
Proof.
  intros H Hfull Hgot. pose proof (fs_blocks_max _ H). pose proof (fs_eight _ H). pose proof (fs_map _ H).
  pose proof (fs_total _ H). pose proof (fs_data _ H). unfold nblocks in *.
  unfold myfs_bitmap_alloc. wp_step. wp_step. wp_step. unfold on_bmap. wp_step. rewrite u32_small by ulia.
  eapply wp_mono; [apply wp_find_first_empty_bit; [apply H|lia..]|]. intros r b (-> & Hr).
  replace (set_bmap (block_bitmap s) s) with s by (by destruct s).
  destruct Hr as [[-> Hset]|(Hr & Hfree & _)].
  - rewrite Z.eqb_refl. wp_step. apply Hfull. intros l Hl. split; [unfold data_start in *; lia|]. apply Hset. unfold data_start, nblocks in *. lia.
  - rewrite (proj2 (Z.eqb_neq r (-1))) by lia. wp_step. wp_step.
    apply wp_myfs_bitmap_set; [apply H|lia..|]. intros b Hb. wp_step. rewrite u32_small by ulia.
    apply Hgot; [unfold data_start, nblocks; lia| |done|].
    + intros [_ E]. by rewrite Hfree in E.
    + destruct Hb as (L & Hok & Hbit). apply fs_ok_bmap; [done..|]. intros l [Hl Hu]. rewrite Hbit by done.
      by destruct (decide _).
Qed.

(** The same with the block zeroed on disk. *)
Lemma wp_myfs_bitmap_alloc_zeroed s (Q : Z → F → Prop) :
  fs_ok s →
  ((∀ l, data_start s <= l < nblocks s → used s l) → Q 0 s) →
  (∀ t b d, let s' := set_dev d (set_bmap b s) in
     data_start s <= t < nblocks s → ¬ used s t → tbit_upd (block_bitmap s) t true b → fs_ok s' →
     (∀ k, word (block s' t) k = 0) → (∀ l, l ≠ t → block s' l = block s l) → Q t s') →
  wp myfs_bitmap_alloc_zeroed s Q.
Proof.
  intros H Hfull Hgot. unfold myfs_bitmap_alloc_zeroed. wp_step. apply wp_myfs_bitmap_alloc; [done| |].
  - intros Hf. rewrite Z.eqb_refl. wp_step. auto.
  - intros t b Ht Hn Hb Hf. pose proof (fs_data _ H) as Hd. fold (data_start s) in Hd.
    rewrite (proj2 (Z.eqb_neq t 0)) by lia. wp_step. wp_step. wp_step.
    apply wp_disk_write_block; [done|unfold data_start, nblocks in *; cbn; lia| |by apply Forall_replicate|].
    + unfold blen. rewrite length_replicate. destruct (ppb_range _ H). cbn. lia.
    + intros d s' Hs' Hin Hout. wp_step. apply Hgot; try done. intros k. fold s'. rewrite Hin. apply word_zero.
Qed.

(* ------------------------------------------------------------------ *)
(** ** Reading and changing the map *)

Lemma tree_block s i pl : fs_ok s → tree_ok s i → valid (ppb s) pl → ptr s i pl ≠ 0 → 0 <= ptr s i pl < nblocks s.
Proof. intros H T Hv H0. by apply used_range, tr_used. Qed.

(** A pointer read from a table, 0 when there is no table. *)
Lemma wp_via s i pl k (Q : Z → F → Prop) :
  fs_ok s → tree_ok s i → valid (ppb s) pl → 0 <= k < ppb s →
  Q (via (block s) (ptr s i pl) k) s →
  wp (if ptr s i pl =? 0 then ret 0 else b ← local_block (ptr s i pl); peek (b32 (4 * k)) b) s Q.
Proof.
  intros H T Hv Hk HQ. unfold via in HQ. destruct (ptr s i pl =? 0) eqn:E; [by wp_step|].
  wp_step. apply wp_local_block; [done|apply tree_block; [done..|blia]|]. apply wp_peek.
  destruct (ppb_range _ H). eapply wp_intro; [apply b32_word; [lia|rewrite block_len by done; lia]|done].
Qed.

Lemma wp_block_lba_get s p i j (Q : Z → F → Prop) :
  fs_ok s → tree_ok s i → inodes s !! p = Some i → is_u32 j →
  Q (if j <? max_blocks (ppb s) then ptr s i (Data j) else 0) s → wp (myfs_block_lba_get p j) s Q.
Proof.
  intros H T Hp Hj HQ. destruct (ppb_range _ H) as [Hn _]. unfold myfs_block_lba_get. wp_step.
  unfold ptrs_per_block. wp_step. wp_step. wp_step. fold (ppb s). wp_step. eapply wp_inode; [done|].
  unfold max_blocks, MYFS_DIRECT_BLOCKS_MAX in *. destruct (j <? 10) eqn:E1.
  { rewrite (proj2 (Z.ltb_lt j _)) in HQ by blia. unfold ptr, at_ in HQ. rewrite E1 in HQ.
    destruct (lookup_lt_is_Some_2 (block_ptrs i) (Z.to_nat j)) as [x Hx]; [rewrite (tr_len _ _ T); ulia|].
    rewrite Hx in HQ. by apply (wp_of_opt _ x). }
  rewrite (u32_small (j - 10)) by ulia. destruct (j - 10 <? ppb s) eqn:E2.
  { rewrite (proj2 (Z.ltb_lt j _)) in HQ by blia. unfold ptr, at_ in HQ. rewrite E1, E2 in HQ.
    apply (wp_via s i Single); [done..|blia|done]. }
  rewrite (u32_small (j - 10 - ppb s)) by ulia. rewrite (u32_small (ppb s * ppb s)) by (unfold is_u32; nia).
  destruct (j - 10 - ppb s <? ppb s * ppb s) eqn:E3.
  2:{ rewrite (proj2 (Z.ltb_ge j _)) in HQ by blia. by wp_step. }
  rewrite (proj2 (Z.ltb_lt j _)) in HQ by blia. unfold ptr, at_ in HQ. rewrite E1, E2 in HQ. fold at_ in HQ.
  set (r := j - 10 - ppb s) in *.
  assert (valid (ppb s) (Sub (r / ppb s))) as Hm.
  { apply (sub_valid (ppb s) j); [lia|blia|blia|]. unfold valid, max_blocks, MYFS_DIRECT_BLOCKS_MAX. subst r. blia. }
  assert (0 <= r mod ppb s < ppb s) as Hr by (apply Z.mod_pos_bound; lia).
  unfold sub_at, via at 2 in HQ. destruct (double_indirect_ptr i =? 0) eqn:E4; [by wp_step|].
  wp_step. apply wp_local_block; [done|apply (tree_block s i Double); [done..|cbn; blia]|]. wp_step.
  apply wp_peek. eapply wp_intro; [apply b32_word; [apply Hm|]|].
  { rewrite block_len by done. destruct (ppb_range _ H). cbn [valid] in Hm. lia. }
  pose proof (wp_via s i (Sub (r / ppb s)) (r mod ppb s) Q H T Hm Hr) as Hsub.
  assert (ptr s i (Sub (r / ppb s)) = word (block s (double_indirect_ptr i)) (r / ppb s)) as Ep.
  { unfold ptr. cbn [at_]. unfold sub_at, via. by rewrite E4. }
  rewrite Ep in Hsub. by apply Hsub.
Qed.

(** Inode [p] in memory, with its blocks. *)
Record file (s : F) (p : Z) (i : MyfsInode) : Prop := {
  fl_fs : fs_ok s;
  fl_tree : tree_ok s i;
  fl_mem : inodes s !! p = Some i
}.

(** A block that is set aside for the inode: 0, or one in use that no inode
    place holds. *)
Definition reserved (s : F) (i : MyfsInode) (v : Z) : Prop :=
  v = 0 ∨ (data_start s <= v < nblocks s ∧ used s v ∧ ¬ owned s i v).

Definition disk_full (s : F) : Prop := ∀ l, data_start s <= l < nblocks s → used s l.

(** The inode has new tables and the same data blocks. *)
Record ext (s : F) (p : Z) (i : MyfsInode) (s' : F) (i' : MyfsInode) : Prop := {
  ex_ev : evolves 0 s i s' i';
  ex_mem : inodes s' = <[p := i']> (inodes s);
  ex_meta : meta i' = meta i;
  ex_data k : valid (ppb s) (Data k) → ptr s' i' (Data k) = ptr s i (Data k)
}.

(** Data place [j] has become [v]. *)
Record mapped (j v : Z) (s : F) (p : Z) (i : MyfsInode) (s' : F) (i' : MyfsInode) : Prop := {
  mp_ev : evolves v s i s' i';
  mp_mem : inodes s' = <[p := i']> (inodes s);
  mp_meta : meta i' = meta i;
  mp_data k : valid (ppb s) (Data k) → ptr s' i' (Data k) = if decide (k = j) then v else ptr s i (Data k)
}.

Lemma ext_file s p i s' i' : ext s p i s' i' → file s' p i'.
Proof. intros [[H1 H2 _ _ _ _] Hm _ _]. split; [done..|]. by rewrite Hm, lookup_insert_eq. Qed.

Lemma ext_refl s p i : file s p i → ext s p i s i.
Proof. intros [H T Hp]. split; [by apply ev_refl|by rewrite insert_id|done..]. Qed.

Lemma ext_ppb s p i s' i' : ext s p i s' i' → ppb s' = ppb s ∧ nblocks s' = nblocks s ∧ data_start s' = data_start s.
Proof. intros [[_ _ Hc _ _ _] _ _ _]. by apply core_ppb. Qed.

Lemma ext_trans s p i s1 i1 s2 i2 : ext s p i s1 i1 → ext s1 p i1 s2 i2 → ext s p i s2 i2.
Proof.
  intros H1 H2. destruct (ext_ppb _ _ _ _ _ H1) as [Ep _]. destruct H1 as [E1 M1 G1 D1], H2 as [E2 M2 G2 D2]. split.
  - by eapply ev_trans.
  - by rewrite M2, M1, insert_insert_eq.
  - congruence.
  - intros k Hk. rewrite D2 by (by rewrite Ep). by apply D1.
Qed.

Lemma ext_reserved s p i s' i' v : ext s p i s' i' → reserved s i v → reserved s' i' v.
Proof.
  intros H [->|(Hr & Hu & Ho)]; [by left|]. right. destruct (ext_ppb _ _ _ _ _ H) as (_ & -> & ->).
  destruct H as [[? ? ? H5 H6 H7] _ _ _]. split; [done|]. split; [by apply H5|].
  destruct (decide (v = 0)) as [->|]; [|by apply H7]. by intros (pl & _ & _ & []).
Qed.

Lemma ext_mapped j v s p i s1 i1 s2 i2 : tree_ok s i → ext s p i s1 i1 → mapped j v s1 p i1 s2 i2 → mapped j v s p i s2 i2.
Proof.
  intros T H1 H2. destruct (ext_ppb _ _ _ _ _ H1) as [Ep _]. destruct H1 as [E1 M1 G1 D1], H2 as [E2 M2 G2 D2]. split.
  - eapply ev_trans; [|done]. by apply ev_weaken.
  - by rewrite M2, M1, insert_insert_eq.
  - congruence.
  - intros k Hk. rewrite D2 by (by rewrite Ep). by rewrite D1.
Qed.

(** A table taken from the free blocks. *)
Lemma ext_table P t s p i s' i' :
  file s p i → fs_ok s' → core s' = core s → meta i' = meta i → length (block_ptrs i') = 10%nat →
  inodes s' = <[p := i']> (inodes s) →
  is_table P = true → valid (ppb s) P → data_start s <= t < nblocks s → ¬ used s t →
  tbit_upd (block_bitmap s) t true (block_bitmap s') → (∀ l, used s l → ¬ table s i l → block s' l = block s l) →
  (∀ pl, valid (ppb s) pl → ptr s' i' pl = if decide (pl = P) then t else ptr s i pl) →
  ext s p i s' i'.
Proof.
  intros [H T Hp] Hf Hc Hm Hl Hi HP HPv Ht Hn Hb Hfr Hptr. pose proof (fs_data _ H) as Hd. fold (data_start s) in Hd.
  destruct Hb as (Lb & _ & Hb). split; [|done|done|].
  - apply (ev_upd 0 P t); try done.
    + intros l [Hl0 Hu]. split; [done|]. rewrite Hb by done. by destruct (decide _).
    + right. split; [done|]. split; [split; [lia|rewrite Hb by lia; by rewrite decide_True]|].
      split; [|by split; [|right]]. intros Ho. by apply Hn, (tree_owned _ _ _ T).
  - intros k Hk. rewrite Hptr by done. rewrite decide_False; [done|]. by intros <-.
Qed.

(** A data pointer written into the inode or one of its tables. *)
Lemma mapped_slot j v s p i s' i' :
  file s p i → fs_ok s' → core s' = core s → block_bitmap s' = block_bitmap s → meta i' = meta i →
  length (block_ptrs i') = 10%nat → inodes s' = <[p := i']> (inodes s) →
  valid (ppb s) (Data j) → reserved s i v → (∀ l, ¬ table s i l → block s' l = block s l) →
  (∀ pl, valid (ppb s) pl → ptr s' i' pl = if decide (pl = Data j) then v else ptr s i pl) →
  mapped j v s p i s' i'.
Proof.
  intros [H T Hp] Hf Hc Hb Hm Hl Hi Hj Hv Hfr Hptr. assert (∀ l, used s' l ↔ used s l) as Hu.
  { intros l. unfold used. by rewrite Hb. }
  split; [|done|done|].
  - apply (ev_upd v (Data j) v); try done.
    + intros l. apply Hu.
    + destruct Hv as [->|(H1 & H2 & H3)]; [by left|]. right. split; [done|]. split; [by apply Hu|].
      split; [done|]. split; [done|by left].
    + intros l _. apply Hfr.
  - intros k Hk. rewrite Hptr by done. destruct (decide (k = j)) as [->|Hne]; [by rewrite decide_True|].
    by rewrite decide_False by congruence.
Qed.

Section remap.
Variables (s : F) (p : Z) (i : MyfsInode).
Hypothesis (Hfile : file s p i).

Lemma not_at_free t : ¬ used s t → data_start s <= t → not_at (block s) (ppb s) i t.
Proof.
  intros Hn Ht pl Hv E. apply Hn. destruct Hfile as [H T _]. pose proof (fs_data _ H) as Hd. fold (data_start s) in Hd.
  rewrite <- E. apply (tr_used _ _ T pl Hv). unfold ptr. lia.
Qed.

(** The table for the single-indirect pointers, or none when the disk is full. *)
Lemma wp_ensure_single (Q : unit → F → Prop) :
  (∀ s' i', ext s p i s' i' → single_indirect_ptr i' ≠ 0 ∨ disk_full s' → Q tt s') →
  wp (when (single_indirect_ptr i =? 0) (t ← myfs_bitmap_alloc_zeroed; update p (with_single t))) s Q.
Proof.
  intros HQ. destruct Hfile as [H T Hp]. destruct (ppb_range _ H) as [Hn _]. pose proof (fs_data _ H) as Hd.
  apply wp_when; intros E.
  2:{ apply (HQ s i); [by apply ext_refl|left; blia]. }
  assert (single_indirect_ptr i = 0) as E0 by blia.
  wp_step. apply wp_myfs_bitmap_alloc_zeroed; [done| |].
  - intros Hfull. eapply wp_update; [done|].
    assert (with_single 0 i = i) as Ei by (destruct i; cbn in *; by subst). rewrite Ei.
    rewrite insert_id by done. replace (set_inodes (inodes s) s) with s by (by destruct s).
    apply (HQ s i); [by apply ext_refl|by right].
  - intros t b d s' Ht Hnu Hb Hf Hz Hfr. eapply wp_update; [exact Hp|]. fold (data_start s) in Hd.
    apply (HQ _ (with_single t i)); [|left; cbn; lia].
    apply (ext_table Single t); try done; [by apply fs_ok_inodes|apply T| |].
    + intros l Hl _. apply Hfr. intros ->. done.
    + intros pl Hpl. apply (at_new_single (block s) (block s')); try done; [lia..|]. apply not_at_free; [done|lia].
Qed.

Lemma wp_ensure_double (Q : unit → F → Prop) :
  (∀ s' i', ext s p i s' i' → double_indirect_ptr i' ≠ 0 ∨ disk_full s' → Q tt s') →
  wp (when (double_indirect_ptr i =? 0) (t ← myfs_bitmap_alloc_zeroed; update p (with_double t))) s Q.
Proof.
  intros HQ. destruct Hfile as [H T Hp]. destruct (ppb_range _ H) as [Hn _]. pose proof (fs_data _ H) as Hd.
  apply wp_when; intros E.
  2:{ apply (HQ s i); [by apply ext_refl|left; blia]. }
  assert (double_indirect_ptr i = 0) as E0 by blia.
  wp_step. apply wp_myfs_bitmap_alloc_zeroed; [done| |].
  - intros Hfull. eapply wp_update; [done|].
    assert (with_double 0 i = i) as Ei by (destruct i; cbn in *; by subst). rewrite Ei.
    rewrite insert_id by done. replace (set_inodes (inodes s) s) with s by (by destruct s).
    apply (HQ s i); [by apply ext_refl|by right].
  - intros t b d s' Ht Hnu Hb Hf Hz Hfr. eapply wp_update; [exact Hp|]. fold (data_start s) in Hd.
    apply (HQ _ (with_double t i)); [|left; cbn; lia].
    apply (ext_table Double t); try done; [by apply fs_ok_inodes|apply T| |].
    + intros l Hl _. apply Hfr. intros ->. done.
    + intros pl Hpl. apply (at_new_double (block s) (block s')); try done; [lia..|]. apply not_at_free; [done|lia].
Qed.

(** A pointer stored in the table at place [P]. *)
Lemma wp_slot P k j v (Q : Z → F → Prop) :
  reserved s i v → valid (ppb s) P → is_table P = true → ptr s i P ≠ 0 → 0 <= k < ppb s → valid (ppb s) (Data j) →
  (∀ B', (∀ m, word (B' (ptr s i P)) m = if decide (m = k) then v else word (block s (ptr s i P)) m) →
     same_but (block s) B' (ptr s i P) →
     ∀ pl, valid (ppb s) pl → at_ B' (ppb s) i pl = upd (block s) (ppb s) i (Data j) v pl) →
  (∀ s', mapped j v s p i s' i → Q 0 s') →
  wp (write_ptr_to_block (ptr s i P) k v) s Q.
Proof.
  intros Hv HP Htab Hnz Hk Hj Hupd HQ. destruct Hfile as [H T Hp]. destruct (tr_used _ _ T P HP Hnz) as [Hr Hu].
  pose proof (fs_blocks_max _ H). pose proof (fs_data _ H) as Hd. fold (data_start s) in Hd.
  apply wp_write_ptr; [done|lia|done| |].
  - destruct Hv as [->|(Hv & _)]; [ulia|]. unfold data_start in *. ulia.
  - intros d s' Hf Hw Hfr. apply HQ. apply mapped_slot; try done; [apply T|by rewrite insert_id| |].
    + intros l Hl. apply Hfr. intros ->. apply Hl. by exists P.
    + intros pl Hpl. by apply Hupd.
Qed.

(** A zeroed block [t] and the pointer to it in the double-indirect table. *)
Lemma ext_sub t b d d' m :
  let s1 := set_dev d (set_bmap b s) in let s2 := set_dev d' s1 in
  double_indirect_ptr i ≠ 0 → 0 <= m < ppb s → ptr s i (Sub m) = 0 →
  data_start s <= t < nblocks s → ¬ used s t → tbit_upd (block_bitmap s) t true b → fs_ok s2 →
  (∀ k, word (block s1 t) k = 0) → (∀ l, l ≠ t → block s1 l = block s l) →
  (∀ k, word (block s2 (double_indirect_ptr i)) k =
     if decide (k = m) then t else word (block s1 (double_indirect_ptr i)) k) →
  (∀ l, l ≠ double_indirect_ptr i → block s2 l = block s1 l) →
  ext s p i s2 i ∧ ptr s2 i (Sub m) = t.
Proof.
  intros s1 s2 Hd Hm H0 Ht Hn Hb Hf Hz Hfr1 Hw Hfr2. pose proof Hfile as [H T Hp].
  destruct (ppb_range _ H) as [Hnp _].
  assert (∀ pl, valid (ppb s) pl → at_ (block s1) (ppb s) i pl = ptr s i pl) as E1.
  { intros pl Hpl. apply (at_frame (block s) (block s1) (ppb s) i ltac:(lia) t); [exact Hfr1| |done].
    intros pl' Hpl' _ _. apply not_at_free; [done|lia|done]. }
  assert (double_indirect_ptr i ≠ t) as Hne by (apply (not_at_free t Hn ltac:(lia) Double I)).
  assert (∀ pl, valid (ppb s) pl → ptr s2 i pl = if decide (pl = Sub m) then t else ptr s i pl) as E2.
  { intros pl Hpl. unfold ptr at 1. change (ppb s2) with (ppb s).
    rewrite (at_slot_double (block s1) (block s2) (ppb s) i ltac:(lia) (double_indirect_ptr i) m t); try done.
    - unfold upd. by rewrite E1.
    - intros q q' Hq Hq'. rewrite !E1 by done. by apply (tr_inj _ _ T).
    - exact (eq_trans (E1 (Sub m) Hm) H0). }
  split; [|by rewrite E2, decide_True].
  apply (ext_table (Sub m) t); try done; [apply T|by rewrite insert_id|].
  intros l Hl Hnt. rewrite Hfr2, Hfr1; [done|by intros ->|]. intros ->. apply Hnt. by exists Double.
Qed.

End remap.

Lemma wp_map_double s p i r v (Q : Z → F → Prop) :
  file s p i → reserved s i v → double_indirect_ptr i ≠ 0 → 0 <= r < ppb s * ppb s →
  (∀ s', mapped (10 + ppb s + r) v s p i s' i → Q 0 s') →
  (∀ s', ext s p i s' i → disk_full s' → Q (-1) s') →
  wp (sub_table_lba ← read_ptr_from_block (double_indirect_ptr i) (r / ppb s);
      if sub_table_lba =? 0 then
        sub_table_lba ← myfs_bitmap_alloc_zeroed;
        if sub_table_lba =? 0 then ret (-1)
        else
          _ ← write_ptr_to_block (double_indirect_ptr i) (r / ppb s) sub_table_lba;
          write_ptr_to_block sub_table_lba (r mod ppb s) v
      else write_ptr_to_block sub_table_lba (r mod ppb s) v) s Q.
Proof.
  intros Hfile Hv Hd Hr HQ HQ1. pose proof Hfile as [H T Hp]. destruct (ppb_range _ H) as [Hn _].
  assert (0 <= r / ppb s < ppb s) as Hm by (split; [apply Z.div_pos; lia|apply Z.div_lt_upper_bound; lia]).
  assert (0 <= r mod ppb s < ppb s) as Hk by (apply Z.mod_pos_bound; lia).
  assert (10 + ppb s + r / ppb s * ppb s + r mod ppb s = 10 + ppb s + r) as Hj.
  { pose proof (Z.div_mod r (ppb s) ltac:(lia)). lia. }
  assert (valid (ppb s) (Data (10 + ppb s + r))) as Hjv by (unfold valid, max_blocks, MYFS_DIRECT_BLOCKS_MAX; lia).
  assert (ptr s i (Sub (r / ppb s)) = word (block s (double_indirect_ptr i)) (r / ppb s)) as Ep.
  { unfold ptr. cbn [at_]. unfold sub_at, via. by rewrite (proj2 (Z.eqb_neq _ 0)). }
  destruct (tree_block s i Double H T I Hd). wp_step. apply wp_read_ptr; [done..|]. rewrite <- Ep.
  destruct (ptr s i (Sub (r / ppb s)) =? 0) eqn:E.
  - wp_step. apply wp_myfs_bitmap_alloc_zeroed; [done| |].
    { intros Hfull. rewrite Z.eqb_refl. wp_step. apply HQ1; [by apply ext_refl|done]. }
    intros t b d s1 Ht Hnu Hb Hf Hz Hfr. pose proof (fs_data _ H) as Hds. fold (data_start s) in Hds.
    pose proof (fs_blocks_max _ H). rewrite (proj2 (Z.eqb_neq t 0)) by lia. wp_step.
    apply wp_write_ptr; [done|done|done|unfold data_start in *; ulia|]. intros d' s2 Hf2 Hw Hfr2.
    destruct (ext_sub s p i Hfile t b d d' (r / ppb s)) as [Hx Et]; try done; [blia|]. fold s1 s2 in Hx, Et.
    rewrite <- Et. apply (wp_slot s2 p i (ext_file _ _ _ _ _ Hx) _ _ (10 + ppb s + r)); try done.
    + by apply (ext_reserved _ _ _ _ _ _ Hx).
    + rewrite Et. lia.
    + intros B' HB HB' pl Hpl. rewrite <- Hj.
      apply (at_slot_sub (block s2) B' (ppb s) i ltac:(lia) (ptr s2 i (Sub (r / ppb s)))); try done.
      * apply (tr_inj s2 i). by apply Hx.
      * rewrite Et. lia.
    + intros s3 H3. apply HQ. by apply (ext_mapped _ _ _ _ _ s2 i).
  - apply (wp_slot s p i Hfile _ _ (10 + ppb s + r)); try done; [blia|].
    intros B' HB HB' pl Hpl. rewrite <- Hj.
    apply (at_slot_sub (block s) B' (ppb s) i ltac:(lia) (ptr s i (Sub (r / ppb s)))); try done; [apply T|blia].
Qed.

Lemma wp_map_block s p i j v (Q : Z → F → Prop) :
  file s p i → reserved s i v → 0 <= j < max_blocks (ppb s) →
  (∀ s' i', mapped j v s p i s' i' → Q 0 s') →
  (∀ s' i', ext s p i s' i' → disk_full s' → Q (-1) s') →
  wp (myfs_map_block_to_inode p j v) s Q.
Proof.
  intros Hfile Hv Hj HQ HQ1. pose proof Hfile as [H T Hp]. destruct (ppb_range _ H) as [Hn _].
  unfold myfs_map_block_to_inode. wp_step. unfold ptrs_per_block. wp_step. wp_step. wp_step. fold (ppb s).
  pose proof Hj as Hj'. unfold max_blocks, MYFS_DIRECT_BLOCKS_MAX in Hj'. destruct (j <? MYFS_DIRECT_BLOCKS_MAX) eqn:E1.
  { unfold MYFS_DIRECT_BLOCKS_MAX in E1. wp_step. eapply wp_update; [done|]. wp_step.
    apply (HQ _ (with_ptrs (<[Z.to_nat j := v]> (block_ptrs i)) i)). apply mapped_slot; try done; [by apply fs_ok_inodes| |].
    - cbn. rewrite length_insert. apply T.
    - intros pl Hpl. apply (at_set_direct (block s) (block s)); [apply T|blia|done]. }
  unfold MYFS_DIRECT_BLOCKS_MAX in *. rewrite (u32_small (j - 10)) by (unfold is_u32; nia).
  destruct (j - 10 <? ppb s) eqn:E2.
  - wp_step. eapply wp_inode; [done|]. wp_step. apply (wp_ensure_single s p i Hfile). intros s1 i1 H1 Hnz.
    pose proof (ext_file _ _ _ _ _ H1) as F1. destruct (ext_ppb _ _ _ _ _ H1) as [Ep _].
    wp_step. eapply wp_inode; [apply F1|]. destruct (single_indirect_ptr i1 =? 0) eqn:E3.
    { wp_step. apply (HQ1 _ _ H1). destruct Hnz; [blia|done]. }
    rewrite <- Ep in E2, Hj, Hn. apply (wp_slot s1 p i1 F1 Single (j - 10) j); try done; try (exact Hj || blia).
    + by apply (ext_reserved _ _ _ _ _ _ H1).
    + cbn. blia.
    + intros B' HB HB' pl Hpl. replace j with (10 + (j - 10)) by lia.
      apply (at_slot_single (block s1) B' (ppb s1) i1 ltac:(lia) (single_indirect_ptr i1)); try done; [apply F1|blia|blia].
    + intros s2 H2. apply (HQ _ i1). by apply (ext_mapped _ _ _ _ _ s1 i1).
  - rewrite (u32_small (j - 10 - ppb s)) by (unfold is_u32; nia). rewrite (u32_small (ppb s * ppb s)) by (unfold is_u32; nia).
    rewrite (proj2 (Z.ltb_lt _ _)) by lia. wp_step. eapply wp_inode; [done|]. wp_step.
    apply (wp_ensure_double s p i Hfile). intros s1 i1 H1 Hnz.
    pose proof (ext_file _ _ _ _ _ H1) as F1. destruct (ext_ppb _ _ _ _ _ H1) as [Ep _].
    wp_step. eapply wp_inode; [apply F1|]. destruct (double_indirect_ptr i1 =? 0) eqn:E3.
    { wp_step. apply (HQ1 _ _ H1). destruct Hnz; [blia|done]. }
    rewrite <- Ep. apply (wp_map_double s1 p i1); [done| |blia|rewrite Ep; blia| |].
    + by apply (ext_reserved _ _ _ _ _ _ H1).
    + intros s2 H2. apply (HQ _ i1). apply (ext_mapped _ _ _ _ _ s1 i1); [done..|].
      by replace j with (10 + ppb s1 + (j - 10 - ppb s1)) by lia.
    + intros s2 H2 Hfull. apply (HQ1 _ i1); [|done]. by apply (ext_trans _ _ _ s1 i1).
Qed.

Lemma map_block_too_far s p i j v :
  fs_ok s → is_u32 j → max_blocks (ppb s) <= j → inodes s !! p = Some i →
  myfs_map_block_to_inode p j v s = Some (-1, s).
Proof.
  intros H Hj Hm Hp. destruct (ppb_range _ H) as [Hn _]. unfold max_blocks, MYFS_DIRECT_BLOCKS_MAX in Hm.
  unfold myfs_map_block_to_inode, ptrs_per_block, MYFS_DIRECT_BLOCKS_MAX. unfold bind at 1 2, gets, ret at 1.
  fold (ppb s). rewrite (proj2 (Z.ltb_ge j 10)) by nia. rewrite (u32_small (j - 10)) by ulia.
  rewrite (proj2 (Z.ltb_ge (j - 10) _)) by nia. rewrite (u32_small (j - 10 - ppb s)) by (unfold is_u32 in *; nia).
  rewrite (u32_small (ppb s * ppb s)) by (unfold is_u32; nia). by rewrite (proj2 (Z.ltb_ge _ _)) by lia.
Qed.
End tree.

(** C8: the block map of an inode is a map. [myfs_map_block_to_inode] succeeds
    exactly when the index is within the reach of the direct, single- and
    double-indirect pointers, unless no block is left for a table; afterwards
    [myfs_block_lba_get] gives the new block at that index and what it gave
    before at every other index, and blocks in use that are not the inode's
    keep their contents and do not become the inode's. After a failure every
    index reads as before. *)
Theorem myfs_block_map_correct `{BlockDevice D} (s : myfs D) p i j v :
  file s p i → reserved s i v → is_u32 j →
  wp (myfs_map_block_to_inode p j v) s (λ r s', ∃ i', file s' p i' ∧ meta i' = meta i ∧
    (r = 0 ∧ j < max_blocks (ppb s) ∨ r = -1 ∧ (max_blocks (ppb s) <= j ∨ disk_full s')) ∧
    (∀ k, is_u32 k → wp (myfs_block_lba_get p k) s' (λ l _,
       if decide (k = j ∧ r = 0) then l = v else wp (myfs_block_lba_get p k) s (λ l0 _, l = l0))) ∧
    (∀ l, used s l → ¬ owned s i l → block s' l = block s l ∧ (l ≠ v → ¬ owned s' i' l))).
Proof.
  intros Hfile Hv Hj. pose proof Hfile as [Hf T Hp]. destruct (decide (j < max_blocks (ppb s))) as [Hr|Hr].
  2:{ eapply wp_intro; [apply (map_block_too_far s p i); [done..|lia|done]|]. exists i. split_and!; try done.
      - right. split; [done|left; lia].
      - intros k Hk. apply (wp_block_lba_get s p i); [done..|]. rewrite decide_False by lia.
        by apply (wp_block_lba_get s p i). }
  assert (∀ x s' i', evolves x s i s' i' →
    ∀ l, used s l → ¬ owned s i l → block s' l = block s l ∧ (l ≠ x → ¬ owned s' i' l)) as Hfr.
  { intros x s' i' E l Hu Ho. split; [|intros Hx; by apply (ev_own _ _ _ _ _ E)].
    apply (ev_frame _ _ _ _ _ E); [done|]. intros Ht. by apply Ho, table_owned. }
  apply (wp_map_block s p i); [done..|split; [apply Hj|done]| |].
  - intros s' i' [E M G Dm]. destruct (core_ppb _ _ (ev_core _ _ _ _ _ E)) as (Ep & _).
    assert (inodes s' !! p = Some i') as Hp' by (by rewrite M, lookup_insert_eq).
    exists i'. split; [split; [apply E..|done]|]. split; [exact G|]. split; [by left|]. split; [|by apply Hfr].
    intros k Hk. apply (wp_block_lba_get s' p i'); [apply E..|done|done|]. rewrite Ep.
    destruct (decide (k = j ∧ 0 = 0)) as [[-> _]|Hne].
    + rewrite (proj2 (Z.ltb_lt j _)) by done. rewrite Dm by (split; [apply Hj|done]). by rewrite decide_True.
    + apply (wp_block_lba_get s p i); [done..|]. destruct (k <? _) eqn:Ek; [|done].
      rewrite Dm by (unfold is_u32, valid in *; blia). rewrite decide_False; [done|]. intros ->. by apply Hne.
  - intros s' i' HE Hfull. pose proof (ext_file _ _ _ _ _ HE) as [F1 F2 F3]. destruct (ext_ppb _ _ _ _ _ HE) as [Ep _].
    exists i'. split; [done|]. destruct HE as [E M G Dm]. split; [exact G|]. split; [right; split; [done|by right]|].
    split; [|by apply Hfr, ev_weaken].
    intros k Hk. apply (wp_block_lba_get s' p i'); [done..|]. rewrite Ep, decide_False by lia.
    apply (wp_block_lba_get s p i); [done..|]. destruct (k <? _) eqn:Ek; [|done].
    apply Dm. unfold is_u32, valid in *. blia.
Qed.

(** A disk of 64 blocks of one sector, the first eight of them metadata and
    block 8 taken, and an inode without blocks. *)
Definition demo_sb : MyfsDiskSuperBlock := DiskSuper MYFS_MAGIC 16 64 0 0 1 1 2 1 3 8 0.
Definition demo_inode : MyfsInode := Inode 1 (replicate 10 0) 0 0 0 0 S_IFREG 1 1 0 0 420 0 0 0 0.
Definition demo_fs : myfs ramdisk :=
  Myfs demo_disk demo_sb 512 [255; 1; 0; 0; 0; 0; 0; 0] [3; 0] (aput (mk_arr 256 []) 1 [5]) 1 {[5 := demo_inode]} 6 []
    (λ _, 170) 0.

Lemma fin8 (P : Z → Prop) m :
  0 <= m < 8 → P 0 → P 1 → P 2 → P 3 → P 4 → P 5 → P 6 → P 7 → P m.
Proof.
  intros H. assert (m = 0 ∨ m = 1 ∨ m = 2 ∨ m = 3 ∨ m = 4 ∨ m = 5 ∨ m = 6 ∨ m = 7) as Hm by lia.
  by destruct Hm as [->|[->|[->|[->|[->|[->|[->| ->]]]]]]].
Qed.

Lemma demo_fs_ok : fs_ok demo_fs.
Proof.
  split; try (vm_compute; intuition congruence); [by apply bytes_ok_check|].
  intros m Hm. by apply (fin8 (λ m, tbit (block_bitmap demo_fs) m = true)).
Qed.

Lemma demo_ptr pl : ptr demo_fs demo_inode pl = 0.
Proof.
  destruct pl as [| |m|j]; [done|done|done|]. unfold ptr, at_. destruct (j <? 10); [|by destruct (j - 10 <? _)].
  change (block_ptrs demo_inode) with (replicate 10 0). destruct (replicate 10 0 !! Z.to_nat j) as [x|] eqn:E; [|done].
  by apply lookup_replicate_1 in E as [-> _].
Qed.

Lemma demo_unowned l : ¬ owned demo_fs demo_inode l.
Proof. intros (pl & _ & E & H). by rewrite demo_ptr in E. Qed.

Lemma demo_file : file demo_fs 5 demo_inode.
Proof.
  split; [exact demo_fs_ok| |reflexivity]. split; [done| |].
  - intros pl _ H. by rewrite demo_ptr in H.
  - intros pl pl' _ _ H. by rewrite (demo_ptr pl : at_ _ _ _ pl = 0) in H.
Qed.

Lemma demo_reserved : reserved demo_fs demo_inode 8.
Proof. right. split; [by vm_compute|]. split; [by vm_compute|]. apply demo_unowned. Qed.

Lemma myfs_block_map_correct_witness :
  wp (myfs_map_block_to_inode 5 143 8) demo_fs (λ r s', r = 0 →
    wp (myfs_block_lba_get 5 143) s' (λ l _, l = 8) ∧ wp (myfs_block_lba_get 5 144) s' (λ l _, l = 0)).
Proof.
  pose proof (myfs_block_map_correct demo_fs 5 demo_inode 143 8 demo_file demo_reserved ltac:(ulia)) as H.
  eapply wp_mono; [exact H|]. intros r s' (i' & _ & _ & _ & Hget & _) ->. split.
  - eapply wp_mono; [apply (Hget 143); ulia|]. intros l s1 Hl. exact Hl.
  - eapply wp_mono; [apply (Hget 144); ulia|]. intros l s1 Hl. exact Hl.
Defined.
