(* ===== verification/MyfsInode.v ===== *)
(** * MyFS: inodes on disk and in memory

    Structures that cross block boundaries, the encoding of inodes in the
    inode table, and the inode cache: an inode that is in use is written to its
    place in the table and reads back as it was; the rest of the disk is
    untouched. *)

From S2P Require Import Prelude Bitmap Buf Disk Myfs MyfsBlocks MyfsMap.

(* ------------------------------------------------------------------ *)
(** ** Buffers byte by byte *)

Definition bget (b : buf) (k : Z) : Z := default 0 (b !! Z.to_nat k).

Lemma bget_sub off n b x k :
  sub_bytes off n b = Some x → 0 <= k < n → bget x k = bget b (off + k).
Proof.
  intros H Hk. pose proof (sub_bytes_inv _ _ _ _ H) as (H1 & H2 & H3). rewrite sub_bytes_is_Some in H by done.
  injection H as <-. unfold bget. rewrite lookup_take_lt, lookup_drop by lia. do 2 f_equal. lia.
Qed.

Lemma bget_splice off x b b' k :
  splice off x b = Some b' → 0 <= k →
  bget b' k = if decide (off <= k < off + blen x) then bget x (k - off) else bget b k.
Proof.
  intros H Hk. apply splice_inv in H as (H1 & H2 & ->). unfold bget, blen in *. destruct (decide _) as [Hi|Hi].
  - rewrite lookup_app_r by (rewrite length_take; lia). rewrite lookup_app_l by (rewrite length_take; lia).
    rewrite length_take. do 2 f_equal. lia.
  - destruct (decide (k < off)).
    + rewrite lookup_app_l by (rewrite length_take; lia). by rewrite lookup_take_lt by lia.
    + rewrite lookup_app_r by (rewrite length_take; lia). rewrite lookup_app_r by (rewrite length_take; lia).
      rewrite lookup_drop, length_take. do 2 f_equal. lia.
Qed.

Lemma bget_ext a b : blen a = blen b → (∀ k, 0 <= k < blen a → bget a k = bget b k) → a = b.
Proof.
  unfold blen. intros Hl H. apply list_eq_same_length with (length b); [done|lia|]. intros k x y Hk Hx Hy.
  specialize (H (Z.of_nat k) ltac:(lia)). unfold bget in H. rewrite Nat2Z.id, Hx, Hy in H. done.
Qed.

Lemma splice_ok off x b b' : splice off x b = Some b' → bytes_ok x → bytes_ok b → bytes_ok b'.
Proof.
  intros H Hx Hb. apply splice_inv in H as (_ & _ & ->). apply Forall_app; split; [by apply Forall_take|].
  apply Forall_app; split; [done|by apply Forall_drop].
Qed.

Lemma splice_ok_full off x b b' : splice off x b = Some b' → bytes_ok x → blen x = blen b → bytes_ok b'.
Proof.
  intros H Hx Hl. pose proof (splice_inv _ _ _ _ H) as (H1 & H2 & ->). assert (off = 0) as -> by lia.
  unfold blen in Hl. cbn [Z.to_nat take app]. rewrite drop_ge by lia. by rewrite app_nil_r.
Qed.

Section span.
Context {D : Type} {BD : BlockDevice D}.
Notation F := (myfs D).

(** The byte [x] places after the start of block [start]. *)
Definition dbyte (s : F) (start x : Z) : Z := bget (block s (start + x / block_bytes s)) (x mod block_bytes s).

Lemma bb_range s : fs_ok s → 512 <= block_bytes s <= 131072.
Proof. intros H. rewrite (fs_bb _ H). pose proof (fs_bs _ H). unfold SECTOR_BYTES. lia. Qed.

Lemma wp_get s b off n (Q : buf → F → Prop) :
  0 <= off → 0 <= n → off + n <= blen b →
  (∀ x, sub_bytes off n b = Some x → blen x = n → Q x s) → wp (peek (get_bytes off n) b) s Q.
Proof.
  intros H1 H2 H3 HQ. apply wp_peek. pose proof (sub_bytes_is_Some off n b H1 H2 H3) as E.
  eapply wp_get_bytes; [exact E|]. apply HQ; [exact E|]. by eapply sub_bytes_length.
Qed.

Lemma wp_splice s b off x (Q : buf → F → Prop) :
  0 <= off → off + blen x <= blen b →
  (∀ b', splice off x b = Some b' → blen b' = blen b → Q b' s) → wp (of_opt (splice off x b)) s Q.
Proof.
  intros H1 H2 HQ. pose proof (splice_is_Some off x b H1 H2) as E. eapply wp_of_opt; [exact E|].
  apply HQ; [exact E|]. unfold blen. by rewrite (splice_length _ _ _ _ E).
Qed.

Lemma div_step a c bb : 0 < bb → 0 <= c < bb → (a * bb + c) / bb = a ∧ (a * bb + c) mod bb = c.
Proof.
  intros H Hc. rewrite Z.add_comm, Z.div_add, Z.mod_add, Z.div_small, Z.mod_small by lia. lia.
Qed.

Lemma dbyte_at s start a c : fs_ok s → 0 <= c < block_bytes s → dbyte s start (a * block_bytes s + c) = bget (block s (start + a)) c.
Proof.
  intros H Hc. pose proof (bb_range _ H). unfold dbyte. destruct (div_step a c (block_bytes s)) as [-> ->]; [lia..|]. done.
Qed.

(** Reading [data_size] bytes from [off] on. *)
Lemma wp_span_read s start off data (Q : buf → F → Prop) :
  fs_ok s → 0 <= off < block_bytes s → 0 <= start →
  (0 < blen data → start + (off + blen data - 1) / block_bytes s < nblocks s) →
  (∀ data', blen data' = blen data → (∀ k, 0 <= k < blen data → bget data' k = dbyte s start (off + k)) → Q data' s) →
  wp (disk_rw_spanning start off data false) s Q.
Proof.
  intros H Hoff Hst Hend HQ. pose proof (bb_range _ H) as Hbb. pose proof (fs_blocks_max _ H) as Hmax.
  set (bb := block_bytes s) in *. unfold disk_rw_spanning. wp_step. wp_step. fold bb.
  apply (wp_while_n (λ n '(pos, cur, offset, data') s', s' = s ∧ n = Z.to_nat (blen data - pos) ∧
    0 <= pos <= blen data ∧ 0 <= offset < bb ∧ (pos < blen data → off + pos = (cur - start) * bb + offset ∧ start <= cur) ∧
    blen data' = blen data ∧ ∀ k, 0 <= k < pos → bget data' k = dbyte s start (off + k)) _ _ _ (Z.to_nat (blen data))).
  { pose proof (blen_nonneg data). split_and!; try lia; try done. }
  { unfold blen. lia. }
  intros n [[[pos cur] offset] data'] s' (-> & -> & Hpos & Ho & Hcur & Hlen & Hdone). cbn beta iota. rewrite Hlen.
  destruct (0 <? blen data - pos) eqn:E.
  2:{ wp_step. apply HQ; [done|]. intros k Hk. apply Hdone. blia. }
  assert (pos < blen data) as Hlt by blia. destruct (Hcur Hlt) as [Ec Hsc]. clear E.
  assert (0 <= cur < nblocks s) as Hcr.
  { assert (cur - start <= (off + blen data - 1) / bb) by (apply Z.div_le_lower_bound; lia). lia. }
  wp_step. apply wp_junk_bytes. intros old Hold. rewrite u32_small by ulia.
  set (chunk := Z.min (bb - offset) (blen data - pos)). wp_step. wp_step.
  apply wp_disk_read_block; [done|done|rewrite Hold; fold bb; lia|]. wp_step.
  apply wp_get; [lia|lia|rewrite block_len by done; fold bb; lia|]. intros x Hx Lx.
  apply wp_splice; [lia|lia|]. intros data2 Hd2 L2. wp_step.
  exists (Z.to_nat (blen data - (pos + chunk))). split; [lia|]. split; [done|]. split; [done|]. split; [lia|]. split; [lia|].
  split; [|split; [lia|]].
  - intros Hp. assert (chunk = bb - offset) as -> by lia. rewrite u32_small by ulia. lia.
  - intros k Hk. rewrite (bget_splice _ _ _ _ _ Hd2) by lia. destruct (decide _) as [Hi|Hi]; [|apply Hdone; lia].
    rewrite (bget_sub _ _ _ _ _ Hx) by lia.
    replace (off + k) with ((cur - start) * bb + (offset + (k - pos))) by lia.
    rewrite (dbyte_at s start) by (try done; fold bb; lia). do 2 f_equal. lia.
Qed.

(** Overwriting a part of block [l] with a part of [data]: the block is read
    first unless all of it is overwritten. [old] is what the buffer held. *)
Lemma wp_patch_block {A} s l offset pos chunk data old (need : bool) (K : buf → M F A) Q :
  fs_ok s → 0 <= l < nblocks s → 0 <= offset → 0 <= pos → 0 <= chunk → offset + chunk <= block_bytes s →
  pos + chunk <= blen data → bytes_ok data → blen old = block_bytes s → (need = false → chunk = block_bytes s) →
  (∀ d b, let s' := set_dev d s in fs_ok s' → (∀ m, m ≠ l → block s' m = block s m) →
     (∀ c, 0 <= c < block_bytes s → bget (block s' l) c =
        if decide (offset <= c < offset + chunk) then bget data (pos + (c - offset)) else bget (block s l) c) →
     blen b = block_bytes s → wp (K b) s' Q) →
  wp (b ← (if need then disk_read_block l old else ret old);
      x ← peek (get_bytes pos chunk) data;
      b ← of_opt (splice offset x b);
      disk_write_block l b ;;
      K b) s Q.
Proof.
  intros H Hl Ho Hp Hc Hx Hpc Hok Hold Hw HQ. wp_step.
  assert (∃ b, (need = false ∨ b = block s l) ∧ blen b = block_bytes s ∧
    ∀ (Q : buf → F → Prop), Q b s → wp (if need then disk_read_block l old else ret old) s Q) as (b & Hb & Lb & Hread).
  { destruct need; [exists (block s l)|exists old].
    - split; [by right|]. split; [by apply block_len|]. intros Q0 HQ0. by apply wp_disk_read_block.
    - split; [by left|]. split; [done|]. intros Q0 HQ0. by wp_step. }
  apply Hread. wp_step. apply wp_get; [done..|]. intros x Ex Lx. pose proof (sub_bytes_ok _ _ _ _ Hok Ex) as Hxok.
  wp_step. apply wp_splice; [done|lia|]. intros b' Hb' Lb'. wp_step.
  apply wp_disk_write_block; [done|done|lia| |].
  - destruct Hb as [Hwh| ->]; [apply (splice_ok_full _ _ _ _ Hb' Hxok); specialize (Hw Hwh); lia|].
    apply (splice_ok _ _ _ _ Hb' Hxok). by apply block_ok.
  - intros d s' Hf Hin Hout. apply HQ; [done|done| |lia]. intros c Hc'. fold s'. rewrite Hin.
    rewrite (bget_splice _ _ _ _ _ Hb') by lia. rewrite Lx. destruct (decide _) as [Hi|Hn].
    + apply (bget_sub _ _ _ _ _ Ex). lia.
    + destruct Hb as [Hwh| ->]; [|done]. specialize (Hw Hwh). lia.
Qed.

Lemma wp_span_write s start off data (Q : buf → F → Prop) :
  fs_ok s → 0 <= off < block_bytes s → 0 <= start → bytes_ok data → 0 < blen data →
  start + (off + blen data - 1) / block_bytes s < nblocks s →
  (∀ d, let s' := set_dev d s in fs_ok s' →
     (∀ x, 0 <= x → dbyte s' start x =
        if decide (off <= x < off + blen data) then bget data (x - off) else dbyte s start x) →
     (∀ l, l < start ∨ start + (off + blen data - 1) / block_bytes s < l → block s' l = block s l) →
     Q data s') →
  wp (disk_rw_spanning start off data true) s Q.
Proof.
  intros H Hoff Hst Hok Hpos0 Hend HQ. pose proof (bb_range _ H) as Hbb. pose proof (fs_blocks_max _ H) as Hmax.
  set (bb := block_bytes s) in *. unfold disk_rw_spanning. wp_step. wp_step. fold bb.
  apply (wp_while_n (λ n '(pos, cur, offset, data') s', data' = data ∧ n = Z.to_nat (blen data - pos) ∧
    0 <= pos <= blen data ∧ 0 <= offset < bb ∧ (pos < blen data → off + pos = (cur - start) * bb + offset ∧ start <= cur) ∧
    ∃ d, s' = set_dev d s ∧ fs_ok s' ∧
     (∀ x, 0 <= x → dbyte s' start x =
        if decide (off <= x < off + pos) then bget data (x - off) else dbyte s start x) ∧
     (∀ l, l < start ∨ start + (off + blen data - 1) / bb < l → block s' l = block s l))
    _ _ _ (Z.to_nat (blen data))).
  { split_and!; try lia; try done. exists (dev s). replace (set_dev (dev s) s) with s by (by destruct s).
    split_and!; try done. intros x Hx. by rewrite decide_False by lia. }
  { unfold blen. lia. }
  intros n [[[pos cur] offset] data'] s' (-> & -> & Hpos & Ho & Hcur & d & Es & Hs' & Hbytes & Hfr). cbn beta iota.
  assert (block_bytes s' = bb) as Ebb by (by subst s').
  destruct (0 <? blen data - pos) eqn:E.
  2:{ wp_step. assert (pos = blen data) as -> by blia. subst s'. by apply HQ. }
  assert (pos < blen data) as Hlt by blia. destruct (Hcur Hlt) as [Ec Hsc]. clear E.
  assert (cur - start <= (off + blen data - 1) / bb) as Hle by (apply Z.div_le_lower_bound; lia).
  assert (0 <= cur < nblocks s') as Hcr by (subst s'; unfold nblocks in *; cbn; lia).
  wp_step. apply wp_junk_bytes. intros old Hold. rewrite u32_small by ulia.
  set (chunk := Z.min (bb - offset) (blen data - pos)). wp_step.
  apply wp_patch_block; try done; try (rewrite ?Ebb; lia).
  intros d2 b s2 Hs2 Hout Hin _. wp_step. wp_step.
  exists (Z.to_nat (blen data - (pos + chunk))). split; [lia|]. split; [done|]. split; [done|]. split; [lia|]. split; [lia|].
  split.
  { intros Hp. assert (chunk = bb - offset) as -> by lia. rewrite u32_small by (unfold nblocks in *; ulia). lia. }
  exists d2. split; [by subst s' s2|]. split; [done|]. split.
  - intros x Hx. rewrite Ebb in Hin. change (block_bytes s2) with (block_bytes s') in *.
    pose proof (Z.div_mod x bb ltac:(lia)) as Hdm. pose proof (Z.mod_pos_bound x bb ltac:(lia)) as Hmb.
    unfold dbyte at 1. change (block_bytes s2) with (block_bytes s'). rewrite Ebb.
    destruct (decide (start + x / bb = cur)) as [Hq|Hq].
    + rewrite Hq, Hin by done. assert (bget (block s' cur) (x mod bb) = dbyte s' start x) as ->.
      { unfold dbyte. by rewrite Ebb, Hq. }
      rewrite Hbytes by done. assert (x / bb = cur - start) as Hq' by lia. rewrite Hq' in Hdm. clear Hq Hq'.
      revert Hdm Hmb. generalize (x mod bb). intros r Hdm Hmb.
      destruct (decide (offset <= r < _)), (decide (off <= x < off + pos)), (decide (off <= x < off + (pos + chunk)));
        try done; try nia. f_equal. lia.
    + rewrite Hout by done. transitivity (dbyte s' start x); [unfold dbyte; by rewrite Ebb|]. rewrite Hbytes by done.
      destruct (decide (off <= x < off + pos)), (decide (off <= x < off + (pos + chunk))); try done; [lia|].
      exfalso. apply Hq. rewrite <- (Z.div_unique x bb (cur - start) (x - (cur - start) * bb)); lia.
  - intros l Hl. rewrite Hout by lia. by apply Hfr.
Qed.
End span.

(* ------------------------------------------------------------------ *)
(** ** The encoding of inodes *)

Record inode_ok (i : MyfsInode) : Prop := {
  io_len : length (block_ptrs i) = 10%nat;
  io_ptrs : Forall is_u32 (block_ptrs i);
  io_words : Forall is_u32 [i_ino i; single_indirect_ptr i; double_indirect_ptr i; block_count i; size i; mode i;
    ref_count i; links_count i; uid i; gid i; permissions i; dirty i];
  io_times : Forall is_u64 [atime i; mtime i; ctime i]
}.

Section fields.
Variables (sizes : list nat) (segs : list buf) (k : nat) (off : Z).
Hypothesis (Hcut : cut sizes segs) (Hoff : off = Z.of_nat (sum_list (take k sizes))).

Lemma wp_b32_field v (Q : Z → buf → Prop) :
  segs !! k = Some (le_of 4 v) → is_u32 v → Q v (concat segs) → wp (b32 off) (concat segs) Q.
Proof using All.
  intros Hk Hv HQ. unfold b32. wp_step. eapply wp_get_bytes.
  - eapply (sub_field sizes segs k off); [done..|]. unfold blen. by rewrite length_le_of.
  - wp_step. rewrite le_val_of; [done|exact Hv].
Qed.

Lemma wp_b64_field v (Q : Z → buf → Prop) :
  segs !! k = Some (le_of 8 v) → is_u64 v → Q v (concat segs) → wp (b64 off) (concat segs) Q.
Proof using All.
  intros Hk Hv HQ. unfold b64. wp_step. eapply wp_get_bytes.
  - eapply (sub_field sizes segs k off); [done..|]. unfold blen. by rewrite length_le_of.
  - wp_step. rewrite le_val_of; [done|exact Hv].
Qed.
End fields.

Definition inode_sizes : list nat := replicate 21 4%nat ++ [8; 8; 8; 4]%nat.
Definition inode_segs (i : MyfsInode) : list buf :=
  [le_of 4 (i_ino i)] ++ (le_of 4 <$> block_ptrs i) ++
  [le_of 4 (single_indirect_ptr i); le_of 4 (double_indirect_ptr i);
   le_of 4 (block_count i); le_of 4 (size i); le_of 4 (mode i); le_of 4 (ref_count i);
   le_of 4 (links_count i); le_of 4 (uid i); le_of 4 (gid i); le_of 4 (permissions i);
   le_of 8 (atime i); le_of 8 (mtime i); le_of 8 (ctime i); le_of 4 (dirty i)].

Lemma encode_inode_segs i : encode_inode i = concat (inode_segs i).
Proof.
  unfold encode_inode, inode_segs. rewrite !concat_app. cbn [concat]. rewrite app_nil_r. done.
Qed.

(** Reading field [k], the one at index [n] among the range hypotheses [H]. *)
Ltac field32 k H n :=
  wp_step; eapply (wp_b32_field inode_sizes _ k); [assumption|reflexivity|reflexivity|exact (Forall_lookup_1 _ _ n _ H eq_refl)|].
Ltac field64 k H n :=
  wp_step; eapply (wp_b64_field inode_sizes _ k); [assumption|reflexivity|reflexivity|exact (Forall_lookup_1 _ _ n _ H eq_refl)|].

Lemma decode_encode_inode i : inode_ok i → wp decode_inode (encode_inode i) (λ i' _, i' = i).
Proof.
  intros [Hl Hp Hw Ht]. rewrite encode_inode_segs.
  destruct i as [ino ptrs si db bc sz md rc lk u g pm at_ mt ct dt]. cbn [i_ino block_ptrs single_indirect_ptr
    double_indirect_ptr block_count size mode ref_count links_count uid gid permissions dirty atime mtime ctime] in *.
  do 10 (destruct ptrs as [|? ptrs]; [discriminate Hl|]). destruct ptrs; [|discriminate Hl].
  set (segs := inode_segs _). assert (cut inode_sizes segs) as Hc by (subst segs; unfold cut, inode_sizes; cbn [replicate app]; repeat (apply Forall2_cons; split; [reflexivity|]); constructor).
  unfold decode_inode, words_at. field32 0%nat Hw 0%nat.
  wp_step.
  field32 1%nat Hp 0%nat. wp_step. field32 2%nat Hp 1%nat. wp_step. field32 3%nat Hp 2%nat. wp_step. field32 4%nat Hp 3%nat. wp_step.
  field32 5%nat Hp 4%nat. wp_step. field32 6%nat Hp 5%nat. wp_step. field32 7%nat Hp 6%nat. wp_step.
  field32 8%nat Hp 7%nat. wp_step. field32 9%nat Hp 8%nat. wp_step. field32 10%nat Hp 9%nat.
  do 12 wp_step.
  field32 11%nat Hw 1%nat. field32 12%nat Hw 2%nat. field32 13%nat Hw 3%nat. field32 14%nat Hw 4%nat.
  field32 15%nat Hw 5%nat. field32 16%nat Hw 6%nat. field32 17%nat Hw 7%nat. field32 18%nat Hw 8%nat.
  field32 19%nat Hw 9%nat. field32 20%nat Hw 10%nat. field64 21%nat Ht 0%nat. field64 22%nat Ht 1%nat.
  field64 23%nat Ht 2%nat. field32 24%nat Hw 11%nat. wp_step. done.
Qed.

Lemma encode_inode_ok i : bytes_ok (encode_inode i).
Proof.
  unfold encode_inode. repeat (apply Forall_app; split); try apply le_of_ok.
  apply Forall_concat, Forall_fmap, Forall_forall. intros x _. apply le_of_ok.
Qed.

Lemma encode_inode_len i : length (block_ptrs i) = 10%nat → blen (encode_inode i) = sizeof_inode.
Proof.
  intros H. unfold encode_inode. rewrite !blen_app. unfold blen. rewrite !length_le_of.
  destruct (block_ptrs i) as [|z0 l]; [discriminate H|]. do 9 (destruct l as [|? l]; [discriminate H|]).
  destruct l; [reflexivity|discriminate H].
Qed.

Section table.
Context {D : Type} {BD : BlockDevice D}.
Notation F := (myfs D).

Definition ninodes (s : F) : Z := total_inodes (on_disk s).
Definition table_start (s : F) : Z := inode_table_start (on_disk s).

(** The inode table lies before the data area; the inode bitmap has a bit for
    each inode. *)
Record layout_ok (s : F) : Prop := {
  ly_start : 0 <= table_start s;
  ly_total : 0 <= ninodes s;
  ly_table : table_start s * block_bytes s + sizeof_inode * ninodes s <= data_start s * block_bytes s;
  ly_data : data_start s <= nblocks s;
  ly_map : ninodes s <= 8 * blen (inode_bitmap s);
  ly_map_ok : bytes_ok (inode_bitmap s)
}.

(** Byte [k] of the inode table. *)
Definition tbyte (s : F) (k : Z) : Z := dbyte s (table_start s) k.

Lemma ninodes_max s : fs_ok s → layout_ok s → ninodes s < 2147483648 ∧ data_start s <= 268435456.
Proof.
  intros H [L1 L2 L3 L4 _ _]. pose proof (bd_bound _ (fs_dev _ H)). pose proof (fs_size _ H). pose proof (fs_bs _ H).
  pose proof (fs_blocks_max _ H). rewrite (fs_bb _ H) in *. unfold SECTOR_BYTES, sizeof_inode in *.
  assert (data_start s * bsz s <= 268435456) by nia. nia.
Qed.

Lemma dbyte_shift s start a k :
  fs_ok s → dbyte s (start + a / block_bytes s) (a mod block_bytes s + k) = dbyte s start (a + k).
Proof.
  intros H. pose proof (bb_range _ H). unfold dbyte. pose proof (Z.div_mod a (block_bytes s) ltac:(lia)) as Hdm.
  assert (a + k = a mod block_bytes s + k + a / block_bytes s * block_bytes s) as -> by lia.
  rewrite Z.div_add, Z.mod_add by lia. do 2 f_equal. lia.
Qed.

(** The place of inode [ino]. *)
Lemma wp_inode_place s ino (Q : Z * Z → F → Prop) :
  fs_ok s → layout_ok s → 0 <= ino < ninodes s →
  (let a := sizeof_inode * ino in Q (table_start s + a / block_bytes s, a mod block_bytes s) s) →
  wp (inode_place ino) s Q.
Proof.
  intros H L Hi HQ. destruct (ninodes_max _ H L) as [Hm Hd]. pose proof (bb_range _ H). destruct L as [L1 L2 L3 L4 _ _].
  unfold inode_place. wp_step. apply wp_divisor; [done|]. wp_step. wp_step. wp_step. fold (table_start s).
  unfold sizeof_inode in *. rewrite (u64_small ino), (u64_small (ino * 112)) by ulia. rewrite (Z.mul_comm ino).
  assert (table_start s + 112 * ino / block_bytes s < data_start s).
  { assert (112 * ino / block_bytes s < data_start s - table_start s); [|lia]. apply Z.div_lt_upper_bound; nia. }
  assert (0 <= 112 * ino / block_bytes s) by (apply Z.div_pos; lia). rewrite u32_small by (unfold is_u32; lia). done.
Qed.

Lemma inode_end s ino :
  fs_ok s → layout_ok s → 0 <= ino < ninodes s → let a := sizeof_inode * ino in
  table_start s + a / block_bytes s + (a mod block_bytes s + sizeof_inode - 1) / block_bytes s < data_start s.
Proof.
  intros H [L1 L2 L3 L4 _ _] Hi a. pose proof (bb_range _ H). pose proof (Z.div_mod a (block_bytes s) ltac:(lia)) as Hdm.
  assert ((a mod block_bytes s + sizeof_inode - 1) / block_bytes s + a / block_bytes s < data_start s - table_start s); [|lia].
  rewrite <- Z.div_add by lia. apply Z.div_lt_upper_bound; [lia|]. subst a. unfold sizeof_inode in *. nia.
Qed.

Lemma wp_inode_span_write s ino data (Q : buf → F → Prop) :
  fs_ok s → layout_ok s → 0 <= ino < ninodes s → bytes_ok data → blen data = sizeof_inode →
  (∀ d, let s' := set_dev d s in fs_ok s' →
     (∀ x, 0 <= x → tbyte s' x =
        if decide (sizeof_inode * ino <= x < sizeof_inode * ino + sizeof_inode)
        then bget data (x - sizeof_inode * ino) else tbyte s x) →
     (∀ l, l < table_start s ∨ data_start s <= l → block s' l = block s l) → Q data s') →
  let a := sizeof_inode * ino in
  wp (disk_rw_spanning (table_start s + a / block_bytes s) (a mod block_bytes s) data true) s Q.
Proof.
  intros H L Hi Hok Hlen HQ a. pose proof (bb_range _ H). pose proof (inode_end s ino H L Hi) as He. cbv zeta in He. fold a in He.
  pose proof L as [L1 L2 L3 L4 _ _]. assert (0 <= a / block_bytes s) by (apply Z.div_pos; subst a; unfold sizeof_inode; lia).
  apply wp_span_write; [done|apply Z.mod_pos_bound; lia|lia|done|rewrite Hlen; done|rewrite Hlen; exact (Z.lt_le_trans _ _ _ He L4)|].
  rewrite Hlen. intros d s' Hs' Hb Hfr. assert (0 <= (a mod block_bytes s + sizeof_inode - 1) / block_bytes s).
  { apply Z.div_pos; [|lia]. pose proof (Z.mod_pos_bound a (block_bytes s) ltac:(lia)). unfold sizeof_inode. lia. }
  apply HQ; [done| |intros l Hl; apply Hfr; lia].
  intros x Hx. unfold tbyte. change (table_start s') with (table_start s).
  pose proof (Z.div_mod a (block_bytes s) ltac:(lia)) as Hdm.
  set (y := x - a / block_bytes s * block_bytes s). destruct (decide (0 <= y)) as [Hy|Hy].
  - pose proof (Hb y Hy) as Hby. replace y with (a mod block_bytes s + (x - a)) in Hby by (subst y; lia).
    pose proof (dbyte_shift s' (table_start s) a (x - a) Hs') as E'. pose proof (dbyte_shift s (table_start s) a (x - a) H) as E.
    change (block_bytes s') with (block_bytes s) in E'. rewrite E', E in Hby.
    replace (a + (x - a)) with x in Hby by lia. refine (eq_trans Hby _).
    destruct (decide _), (decide _); try done; try lia. f_equal. lia.
  - pose proof (Z.mod_pos_bound a (block_bytes s) ltac:(lia)). rewrite decide_False by lia. unfold dbyte.
    change (block_bytes s') with (block_bytes s). rewrite Hfr; [done|]. left.
    change (table_start s + x / block_bytes s < table_start s + a / block_bytes s). apply Z.add_lt_mono_l.
    apply Z.div_lt_upper_bound; lia.
Qed.

(* ------------------------------------------------------------------ *)
(** ** The cache *)

Definition bucket (s : F) (ino : Z) : list Z := aat (inode_hash_table s) (INODE_HASH ino).

(** The entries of a bucket are inodes in memory, one for each number. *)
Record cache_ok (s : F) : Prop := {
  co_len : alen (inode_hash_table s) = INODE_HASH_SIZE;
  co_mem ino q : q ∈ bucket s ino → q ≠ 0 ∧ is_Some (inodes s !! q);
  co_inj ino q q' i i' : q ∈ bucket s ino → q' ∈ bucket s ino →
    inodes s !! q = Some i → inodes s !! q' = Some i' → i_ino i = i_ino i' → q = q'
}.

(** Inode [p] is in the cache and somebody holds a reference to it. *)
Record held (s : F) (p : Z) (i : MyfsInode) : Prop := {
  he_mem : inodes s !! p = Some i;
  he_cached : p ∈ bucket s (i_ino i);
  he_refs : 1 <= ref_count i < 4294967295;
  he_ino : 0 <= i_ino i < ninodes s;
  he_bit : tbit (inode_bitmap s) (i_ino i) = true;
  he_ok : inode_ok i
}.

Lemma hash_range ino : 0 <= INODE_HASH ino < INODE_HASH_SIZE.
Proof. unfold INODE_HASH, INODE_HASH_SIZE. lia. Qed.

Lemma wp_bucket s ino (Q : list Z → F → Prop) :
  cache_ok s → Q (bucket s ino) s → wp (zoom inode_hash_table set_table (ld (INODE_HASH ino))) s Q.
Proof.
  intros C HQ. wp_step. apply wp_ld; [rewrite (co_len _ C); apply hash_range|].
  by replace (set_table _ s) with s by (by destruct s).
Qed.

(** The inode with number [ino], or 0. *)
Lemma wp_cache_find s ino (Q : Z → F → Prop) :
  cache_ok s →
  (∀ p i, p ∈ bucket s ino → p ≠ 0 → inodes s !! p = Some i → i_ino i = ino → Q p s) →
  ((∀ p i, p ∈ bucket s ino → inodes s !! p = Some i → i_ino i ≠ ino) → Q 0 s) →
  wp (myfs_cache_find ino) s Q.
Proof.
  intros C Hf Hn. unfold myfs_cache_find. wp_step. apply wp_bucket; [done|].
  assert (∀ es, (∀ q, q ∈ es → q ∈ bucket s ino) →
    (∀ p i, p ∈ bucket s ino → inodes s !! p = Some i → i_ino i = ino → p ∈ es) →
    wp ((fix go (es : list Z) : M F Z := match es with
       | [] => ret 0
       | e :: es => i ← deref e; if i_ino i =? ino then ret e else go es end) es) s Q) as Hgo; [|by apply Hgo].
  induction es as [|e es IH]; intros Hin Hall.
  - wp_step. apply Hn. intros p i Hp Hi E. pose proof (Hall p i Hp Hi E) as Hx. by apply not_elem_of_nil in Hx.
  - destruct (co_mem _ C ino e) as [He [i Hi]]; [apply Hin; left|]. wp_step. eapply wp_inode; [done|].
    destruct (i_ino i =? ino) eqn:E.
    + wp_step. apply (Hf e i); [apply Hin; left|done|done|blia].
    + apply IH; [intros q Hq; apply Hin; by right|]. intros p j Hp Hj Ej.
      pose proof (Hall p j Hp Hj Ej) as Hx. apply elem_of_cons in Hx as [->|Hr]; [|done]. simplify_eq. blia.
Qed.

(** An inode that is held is found, with one more reference. *)
Lemma wp_iget_held s p i (Q : Z → F → Prop) :
  fs_ok s → layout_ok s → cache_ok s → held s p i →
  Q p (set_inodes (<[p := with_refs (ref_count i + 1) i]> (inodes s)) s) → wp (myfs_iget (i_ino i)) s Q.
Proof.
  intros H L C [Hm Hc Hr Hi Hb _] HQ. destruct (ninodes_max _ H L). pose proof (ly_map _ L).
  unfold myfs_iget. wp_step. unfold on_imap. wp_step. apply wp_bitmap_is_set; [apply L|lia|lia|].
  replace (set_imap (inode_bitmap s) s) with s by (by destruct s). rewrite Hb. cbn [negb]. wp_step.
  assert (∀ q j, q ∈ bucket s (i_ino i) → inodes s !! q = Some j → i_ino j = i_ino i → q = p) as Huniq.
  { intros q j Hq Hj E. by apply (co_inj _ C (i_ino i) q p j i). }
  apply wp_cache_find; [done| |].
  - intros q j Hq Hq0 Hj E. assert (q = p) as -> by (by eapply Huniq). assert (j = i) as -> by congruence.
    rewrite (proj2 (Z.eqb_neq p 0)) by done. cbn [negb]. wp_step. eapply wp_update; [done|].
    wp_step. rewrite u32_small by ulia. done.
  - intros Hnone. exfalso. by apply (Hnone p i).
Qed.

(** Dropping one of several references. *)
Lemma wp_iput_held s p i n (Q : unit → F → Prop) :
  inodes s !! p = Some i → p ≠ 0 → 2 <= ref_count i < 4294967296 →
  Q tt (set_inodes (<[p := with_refs (ref_count i - 1) i]> (inodes s)) s) → wp (iput_n (S n) p) s Q.
Proof.
  intros Hm Hp Hr HQ. cbn [iput_n]. unfold iput_body. rewrite (proj2 (Z.eqb_neq p 0)) by done.
  wp_step. eapply wp_update; [done|]. wp_step. rewrite u32_small by ulia.
  eapply wp_inode; [cbn; by rewrite lookup_insert_eq|]. cbn [with_refs ref_count].
  rewrite (proj2 (Z.eqb_neq _ 0)) by lia. by wp_step.
Qed.

Lemma layout_eq s s' :
  on_disk s' = on_disk s → block_bytes s' = block_bytes s → inode_bitmap s' = inode_bitmap s → layout_ok s → layout_ok s'.
Proof.
  intros E1 E2 E3 [L1 L2 L3 L4 L5 L6]. unfold table_start, ninodes, data_start, nblocks in *.
  by split; unfold table_start, ninodes, data_start, nblocks; rewrite ?E1, ?E2, ?E3.
Qed.

(** Writing back an inode that is held and dirty. *)
Lemma wp_disk_inode_write_held s p i (Q : Z → F → Prop) :
  fs_ok s → layout_ok s → cache_ok s → held s p i → dirty i ≠ 0 →
  (∀ d, let s' := set_inodes (<[p := with_dirty 0 i]> (inodes s)) (set_dev d s) in fs_ok s' →
     (∀ x, 0 <= x → tbyte s' x =
        if decide (sizeof_inode * i_ino i <= x < sizeof_inode * i_ino i + sizeof_inode)
        then bget (encode_inode (with_refs (ref_count i + 1) i)) (x - sizeof_inode * i_ino i) else tbyte s x) →
     (∀ l, l < table_start s ∨ data_start s <= l → block s' l = block s l) → Q 0 s') →
  wp (myfs_disk_inode_write (i_ino i)) s Q.
Proof.
  intros H L C Hh Hd HQ. pose proof Hh as [Hm Hc Hr Hi Hb [Ho _ _ _]]. destruct (ninodes_max _ H L) as [Hmax _].
  destruct (co_mem _ C _ _ Hc) as [Hp0 _].
  unfold myfs_disk_inode_write, disk_inode_write_body. wp_step. rewrite u32_small by ulia.
  apply (wp_iget_held s p i); [done..|]. set (s1 := set_inodes _ s). rewrite (proj2 (Z.eqb_neq p 0)) by done.
  set (i1 := with_refs (ref_count i + 1) i). assert (inodes s1 !! p = Some i1) as Hm1 by (cbn; by rewrite lookup_insert_eq).
  wp_step. eapply wp_inode; [exact Hm1|]. rewrite (proj2 (Z.eqb_neq (dirty i1) 0)) by done. wp_step.
  assert (fs_ok s1) as H1 by (by apply fs_ok_inodes).
  assert (layout_ok s1) as L1 by (by apply (layout_eq s)).
  apply wp_inode_place; [done..|]. cbv zeta beta iota. wp_step.
  apply wp_inode_span_write; [done|done|done|apply encode_inode_ok|by apply encode_inode_len|].
  intros d s2 Hs2 Hbytes Hfr. wp_step. apply (wp_update _ p i1); [exact Hm1|]. wp_step.
  apply (wp_iput_held _ p (with_dirty 0 i1)); [cbn; by rewrite lookup_insert_eq|done|cbn; lia|]. wp_step.
  set (s3 := set_inodes _ _).
  assert (s3 = set_inodes (<[p := with_dirty 0 i]> (inodes s)) (set_dev d s)) as ->.
  { subst s3 s2 s1. cbn. unfold set_inodes, set_dev. cbn. rewrite !insert_insert_eq. do 2 f_equal.
    replace (ref_count i + 1 - 1) with (ref_count i) by lia. subst i1. by destruct i. }
  apply HQ; [exact (fs_ok_inodes (set_dev d s) _ (fs_ok_inodes _ (inodes s) Hs2))| |].
  - intros x Hx. exact (Hbytes x Hx).
  - intros l Hl. exact (Hfr l Hl).
Qed.

(** The heap has memory for the next [n] allocations. *)
Definition memory (s : F) (n : nat) : Prop := Forall (λ a, a = true) (take n (answers s)).

(** The state after an allocation. *)
Definition allocated (s : F) : F :=
  Myfs (dev s) (on_disk s) (block_bytes s) (block_bitmap s) (inode_bitmap s) (inode_hash_table s) (mounted s)
    (inodes s) (fresh s) (tail (answers s)) (junk s) (stale s).

Lemma wp_kmalloc s n (Q : bool → F → Prop) :
  memory s (S n) → (memory (allocated s) n → Q true (allocated s)) → wp kmalloc s Q.
Proof.
  intros Hm HQ. unfold kmalloc. wp_step. wp_step. wp_step. wp_step. wp_step. fold (allocated s).
  assert (default true (head (answers s)) = true ∧ memory (allocated s) n) as [-> Hm']; [|by apply HQ].
  unfold memory in *. cbn [allocated answers]. destruct (answers s) as [|a l]; cbn in *; [by rewrite take_nil|].
  by apply Forall_cons in Hm as [-> Hm].
Qed.

Lemma fs_ok_allocated s : fs_ok s → fs_ok (allocated s).
Proof. intros [? ? ? ? ? ? ? ? ? ?]. by split. Qed.

(** The inode whose encoding the table holds. *)
Lemma wp_disk_inode_read s i ino (Q : Z → F → Prop) :
  fs_ok s → layout_ok s → memory s 1 → 0 <= ino < ninodes s → inode_ok i →
  (∀ k, 0 <= k < sizeof_inode → tbyte s (sizeof_inode * ino + k) = bget (encode_inode i) k) →
  (∀ s', inodes s' = <[fresh s := i]> (inodes s) → Q (fresh s) s') →
  wp (myfs_disk_inode_read ino) s Q.
Proof.
  intros H L Hm Hi Hok Hbytes HQ. destruct (ninodes_max _ H L) as [Hmax _]. pose proof (bb_range _ H).
  unfold myfs_disk_inode_read. wp_step. apply (wp_kmalloc s 0); [done|]. intros _. cbn iota.
  set (s1 := allocated s). assert (fs_ok s1) as H1 by (by apply fs_ok_allocated).
  assert (layout_ok s1) as L1 by (by apply (layout_eq s)).
  wp_step. apply wp_junk_bytes. intros old Hold. wp_step. rewrite s32_small by lia. apply wp_inode_place; [done..|].
  pose proof (inode_end s1 ino H1 L1 Hi) as He. cbv zeta in *. set (a := sizeof_inode * ino) in *.
  assert (0 <= a / block_bytes s) by (apply Z.div_pos; subst a; unfold sizeof_inode; lia).
  change (blen old = sizeof_inode) in Hold. wp_step.
  pose proof (bb_range s1 H1). apply wp_span_read; [done|apply Z.mod_pos_bound; lia|apply Z.add_nonneg_nonneg; [apply L|done]| |].
  { intros _. rewrite Hold. exact (Z.lt_le_trans _ _ _ He (ly_data _ L1)). }
  rewrite Hold. intros x Lx Hx. assert (x = encode_inode i) as ->.
  { apply bget_ext; [rewrite Lx; symmetry; apply encode_inode_len, Hok|]. rewrite Lx. intros k Hk.
    rewrite Hx by done. rewrite dbyte_shift by done. exact (Hbytes k Hk). }
  wp_step. apply wp_peek. eapply wp_mono; [by apply decode_encode_inode|]. intros i' b ->.
  unfold new_inode. wp_step. wp_step. wp_step. wp_step. wp_step. by apply HQ.
Qed.
End table.

(** C9: an inode survives the disk. Writing back an inode that is held and
    dirty succeeds and leaves it clean in memory; reading its number from the
    inode table, across block boundaries, then gives the inode as it was while
    it was written; the rest of the table and of the disk is unchanged. *)
Theorem myfs_inode_persists `{BD : BlockDevice D} (s : myfs D) p i :
  fs_ok s → layout_ok s → cache_ok s → held s p i → dirty i ≠ 0 → memory s 1 →
  wp (myfs_disk_inode_write (i_ino i)) s (λ r s', r = 0 ∧
    inodes s' = <[p := with_dirty 0 i]> (inodes s) ∧
    wp (myfs_disk_inode_read (i_ino i)) s' (λ q s'', inodes s'' !! q = Some (with_refs (ref_count i + 1) i)) ∧
    (∀ n k, 0 <= n → n ≠ i_ino i → 0 <= k < sizeof_inode →
       tbyte s' (sizeof_inode * n + k) = tbyte s (sizeof_inode * n + k)) ∧
    (∀ l, l < table_start s ∨ data_start s <= l → block s' l = block s l)).
Proof.
  intros H L C Hh Hd Hm. pose proof Hh as [Hp Hc Hr Hi Hb Hok].
  apply (wp_disk_inode_write_held s p i); [done..|]. intros d s' Hs' Hbytes Hfr.
  unfold sizeof_inode in *. split; [done|]. split; [done|]. split; [|split; [|done]].
  - apply (wp_disk_inode_read s' (with_refs (ref_count i + 1) i)); [done|by apply (layout_eq s)|done|done| | |].
    + destruct Hok as [O1 O2 O3 O4]. split; [done..| |done]. rewrite !Forall_cons in *. cbn.
      destruct O3 as (? & ? & ? & ? & ? & ? & _ & O3). do 6 (split; [assumption|]). split; [unfold is_u32; lia|exact O3].
    + intros k Hk. unfold sizeof_inode in *. rewrite Hbytes by lia. rewrite decide_True by lia. f_equal. lia.
    + intros s'' ->. by rewrite lookup_insert_eq.
  - intros n k Hn Hne Hk. rewrite Hbytes by lia. by rewrite decide_False by lia.
Qed.

Definition demo_dirty : myfs ramdisk := set_inodes {[5 := with_dirty 1 demo_inode]} demo_fs.

Lemma demo_layout : layout_ok demo_dirty.
Proof. split; [by vm_compute..|]. by apply bytes_ok_check. Qed.

Lemma demo_bucket ino q : q ∈ bucket demo_dirty ino → q = 5 ∧ INODE_HASH ino = 1.
Proof.
  unfold bucket. cbn [inode_hash_table demo_dirty set_inodes demo_fs]. rewrite aat_aput.
  destruct (decide (1 = INODE_HASH ino)) as [<-|]; [by intros ->%list_elem_of_singleton|].
  by intros Hq%not_elem_of_nil.
Qed.

Lemma demo_cache : cache_ok demo_dirty.
Proof.
  split; [done| |].
  - intros ino q [-> _]%demo_bucket. split; [done|]. by exists (with_dirty 1 demo_inode).
  - intros ino q q' i i' [-> _]%demo_bucket [-> _]%demo_bucket. done.
Qed.

Lemma demo_held : held demo_dirty 5 (with_dirty 1 demo_inode).
Proof.
  split; [done|by apply list_elem_of_singleton|by vm_compute..|].
  split; [done|by repeat constructor|by repeat constructor|by repeat constructor].
Qed.

Lemma myfs_inode_persists_witness :
  wp (myfs_disk_inode_write 1) demo_dirty (λ r s', r = 0 ∧
    wp (myfs_disk_inode_read 1) s' (λ q s'', inodes s'' !! q = Some (with_dirty 1 (with_refs 2 demo_inode)))).
Proof.
  pose proof (myfs_inode_persists demo_dirty 5 (with_dirty 1 demo_inode) (fs_ok_inodes _ _ demo_fs_ok) demo_layout demo_cache
    demo_held ltac:(discriminate) (Forall_nil_2 _)) as H.
  eapply wp_mono; [exact H|]. intros r s' (-> & _ & Hr & _). split; [reflexivity|exact Hr].
Defined.
