(* ===== verification/MyfsFile.v ===== *)
(** * MyFS: the contents of files

    A file is the bytes that its data blocks hold, in the order of the block
    map. [myfs_node_read] reads them; [myfs_node_write] replaces a range of
    them, growing the file, and leaves every other file alone. *)

From S2P Require Import Prelude Bitmap Buf Disk Myfs MyfsBlocks MyfsMap MyfsInode.

Section contents.
Context {D : Type} {BD : BlockDevice D}.
Notation F := (myfs D).

(** The block with index [j], and byte [x], of a file; 0 in a hole. *)
Definition fptr (s : F) (i : MyfsInode) (j : Z) : Z :=
  if j <? max_blocks (ppb s) then ptr s i (Data j) else 0.
Definition fbyte (s : F) (i : MyfsInode) (x : Z) : Z :=
  let l := fptr s i (x / block_bytes s) in
  if l =? 0 then 0 else bget (block s l) (x mod block_bytes s).

Lemma wp_fptr s p i j (Q : Z → F → Prop) :
  file s p i → is_u32 j → Q (fptr s i j) s → wp (myfs_block_lba_get p j) s Q.
Proof. intros [H T Hp] Hj HQ. by apply (wp_block_lba_get s p i). Qed.

Lemma fptr_range s p i j : file s p i → 0 <= j → fptr s i j ≠ 0 → data_start s <= fptr s i j < nblocks s ∧ used s (fptr s i j).
Proof.
  intros [H T Hp] Hj H0. unfold fptr in *. destruct (j <? _) eqn:E; [|done].
  apply (tr_used _ _ T); [|done]. cbn. blia.
Qed.

(** One turn of the reading loop: the piece of the file that lies in the
    current block. *)
Lemma wp_read_piece s p i offset len tmp (Q : buf * buf → F → Prop) :
  file s p i → is_u32 offset → 0 <= len → offset mod block_bytes s + len <= block_bytes s → blen tmp = block_bytes s →
  (∀ x tmp', blen x = len → blen tmp' = block_bytes s →
     (∀ k, 0 <= k < len → bget x k = fbyte s i (offset + k)) → Q (x, tmp') s) →
  wp (physical_lba ← myfs_block_lba_get p (offset / block_bytes s);
      if physical_lba =? 0 then ret (replicate (Z.to_nat len) 0, tmp)
      else temp_block ← disk_read_block physical_lba tmp;
           x ← peek (get_bytes (offset mod block_bytes s) len) temp_block;
           ret (x, temp_block)) s Q.
Proof.
  intros Hfile Ho Hl Hfit Htmp HQ. pose proof Hfile as [H T Hp]. pose proof (bb_range _ H) as Hbb.
  set (bb := block_bytes s) in *.
  assert (0 <= offset / bb <= offset) as Hq by (split; [apply Z.div_pos; ulia|apply Z.div_le_upper_bound; unfold is_u32 in *; nia]).
  assert (0 <= offset mod bb < bb) as Hr by (apply Z.mod_pos_bound; lia).
  assert (∀ k, 0 <= k < len → fbyte s i (offset + k) =
    if fptr s i (offset / bb) =? 0 then 0 else bget (block s (fptr s i (offset / bb))) (offset mod bb + k)) as Hbyte.
  { intros k Hk. unfold fbyte. fold bb. pose proof (Z.div_mod offset bb ltac:(lia)) as Hdm.
    replace (offset + k) with (offset / bb * bb + (offset mod bb + k)) by lia.
    destruct (div_step (offset / bb) (offset mod bb + k) bb) as [-> ->]; [lia..|]. done. }
  wp_step. apply (wp_fptr s p i); [done|unfold is_u32 in *; lia|]. destruct (fptr s i (offset / bb) =? 0) eqn:E.
  - wp_step. apply HQ; [unfold blen; rewrite length_replicate; lia|done|]. intros k Hk. rewrite Hbyte by done.
    unfold bget. by rewrite lookup_replicate_2 by lia.
  - destruct (fptr_range s p i (offset / bb) Hfile) as [Hrg _]; [lia|blia|]. pose proof (fs_data _ H) as Hd.
    wp_step. apply wp_disk_read_block; [done|unfold data_start in *; lia|done|].
    wp_step. apply wp_get; [lia|lia|rewrite block_len by done; fold bb; lia|]. intros x Hx Lx. wp_step.
    apply HQ; [done|by apply block_len|]. intros k Hk. rewrite Hbyte by done. by apply (bget_sub _ _ _ _ _ Hx).
Qed.

(** Reading gives the bytes of the file up to its end; the file system is not
    changed. *)
Lemma wp_node_read s p i off out count (Q : Z * buf → F → Prop) :
  file s p i → p ≠ 0 → is_u32 (size i) → is_u32 off → 0 <= count → off + count < 4294967296 →
  let n := Z.max 0 (Z.min count (size i - off)) in n <= blen out →
  (∀ out', blen out' = blen out →
     (∀ k, 0 <= k < blen out → bget out' k = if k <? n then fbyte s i (off + k) else bget out k) → Q (n, out') s) →
  wp (myfs_node_read p off out count) s Q.
Proof.
  intros Hfile Hp0 Hsz Ho Hc Hov n Hn HQ. pose proof Hfile as [H T Hp]. pose proof (bb_range _ H) as Hbb.
  unfold myfs_node_read. rewrite (proj2 (Z.eqb_neq p 0)) by done. wp_step. eapply wp_inode; [done|].
  destruct (size i <=? off) eqn:E1.
  { wp_step. replace 0 with n by (subst n; blia). apply HQ; [done|]. intros k Hk.
    destruct (k <? n) eqn:E; [subst n; blia|done]. }
  rewrite u32_small by ulia.
  assert ((if size i <? off + count then size i - off else count) = n) as ->.
  { subst n. destruct (size i <? off + count) eqn:E; blia. }
  wp_step. wp_step. wp_step. apply wp_junk_bytes. intros tmp Htmp.
  apply (wp_while_n (λ m '(offset, total, out', tmp) s', s' = s ∧ m = Z.to_nat (n - total) ∧ 0 <= total <= n ∧
    offset = off + total ∧ blen out' = blen out ∧ blen tmp = block_bytes s ∧
    ∀ k, 0 <= k < blen out → bget out' k = if k <? total then fbyte s i (off + k) else bget out k) _ _ _ (Z.to_nat n)).
  { split_and!; try done; try lia. intros k Hk. by rewrite (proj2 (Z.ltb_ge k 0)) by lia. }
  { lia. }
  intros m [[[offset total] out'] tmp'] s' (-> & -> & Ht & -> & Lo & Lt & Hdone). cbn beta iota.
  destruct (total <? n) eqn:E; [|wp_step; replace total with n in * by blia; by apply HQ].
  assert (total < n) as Hlt by blia. wp_step. apply wp_divisor; [done|]. set (bb := block_bytes s) in *.
  assert (0 <= (off + total) mod bb < bb) as Hr by (apply Z.mod_pos_bound; lia).
  set (chunk := Z.min (bb - (off + total) mod bb) (n - total)).
  apply wp_assoc. wp_step. apply (wp_read_piece s p i); [done|unfold is_u32 in *; subst n; lia|fold bb; lia|fold bb; lia|done|].
  intros x tmp2 Lx Lt2 Hx. cbn beta iota. wp_step. apply wp_splice; [lia|lia|]. intros out2 Ho2 Lo2. wp_step.
  exists (Z.to_nat (n - (total + chunk))). split; [lia|]. split; [done|]. split; [done|]. split; [lia|].
  rewrite u32_small by (unfold is_u32 in *; subst n; lia). split; [lia|]. split; [lia|]. split; [done|].
  intros k Hk. rewrite (bget_splice _ _ _ _ _ Ho2) by lia. rewrite Lx. destruct (decide _) as [Hi|Hi].
  - rewrite Hx by lia. rewrite (proj2 (Z.ltb_lt _ _)) by lia. f_equal. lia.
  - rewrite Hdone by done. destruct (k <? total) eqn:E1', (k <? total + chunk) eqn:E2; try done; blia.
Qed.

(* ------------------------------------------------------------------ *)
(** ** Growing a file *)

(** Inodes with the same block map. *)
Definition same_map (i i' : MyfsInode) : Prop :=
  block_ptrs i' = block_ptrs i ∧ single_indirect_ptr i' = single_indirect_ptr i ∧
  double_indirect_ptr i' = double_indirect_ptr i.

Lemma same_map_ptr s i i' pl : same_map i i' → ptr s i' pl = ptr s i pl.
Proof.
  intros (E1 & E2 & E3). unfold ptr. destruct pl; cbn [at_]; unfold sub_at; by rewrite ?E1, ?E2, ?E3.
Qed.

Lemma tree_same s m i i' : same_map i i' → tree_ok s i → tree_ok (set_inodes m s) i'.
Proof.
  intros E [T1 T2 T3]. assert (∀ pl, ptr (set_inodes m s) i' pl = ptr s i pl) as Ep by (intros pl; exact (same_map_ptr s i i' pl E)).
  split.
  - destruct E as (-> & _). done.
  - intros pl Hv. rewrite Ep. by apply T2.
  - intros pl pl' Hv Hv'. fold (ptr (set_inodes m s) i' pl) (ptr (set_inodes m s) i' pl'). rewrite !Ep. by apply T3.
Qed.

Lemma ev_same x s i s' i' i2 m : same_map i' i2 → evolves x s i s' i' → evolves x s i (set_inodes m s') i2.
Proof.
  intros E [H1 H2 H3 H5 H6 H7]. assert (∀ pl, ptr (set_inodes m s') i2 pl = ptr s' i' pl) as Ep
    by (intros pl; exact (same_map_ptr s' i' i2 pl E)).
  split; [by apply fs_ok_inodes|by apply (tree_same _ _ i')|done|done| |].
  - intros l Hu Ht. destruct (H6 l Hu Ht) as [Hb Hn]. split; [done|]. intros (pl & Hv & Htab & El & H0). apply Hn.
    exists pl. by rewrite <- Ep.
  - intros l Hx Hu Ho (pl & Hv & El & H0). apply (H7 l Hx Hu Ho). exists pl. by rewrite <- Ep.
Qed.

(** A change of the block bitmap that keeps the inode's blocks in use. *)
Lemma tree_bits s i b : tree_ok s i → (∀ l, owned s i l → tbit b l = true) → tree_ok (set_bmap b s) i.
Proof.
  intros [T1 T2 T3] Hb. split; [done| |done]. intros pl Hv H0. destruct (T2 pl Hv H0) as [Hr [Hp _]].
  split; [done|]. split; [done|]. cbn. apply Hb. by exists pl.
Qed.

Lemma used_set (s : F) t b l : tbit_upd (block_bitmap s) t true b → used s l → used (set_bmap b s) l.
Proof. intros (_ & _ & Hb) [Hl Hu]. split; [done|]. cbn. rewrite Hb by done. by destruct (decide _). Qed.

(** Taking a free block and then using it for the inode. *)
Lemma ev_alloc s i t b s' i' :
  ¬ used s t → tbit_upd (block_bitmap s) t true b → evolves t (set_bmap b s) i s' i' → evolves 0 s i s' i'.
Proof.
  intros Hn Hb [H1 H2 H3 H5 H6 H7]. split; try done.
  - intros l Hu. apply H5. by apply (used_set s t).
  - intros l Hu Ht. apply H6; [by apply (used_set s t)|done].
  - intros l _ Hu Ho. apply H7; [by intros ->|by apply (used_set s t)|done].
Qed.

(** The first [block_count] data places hold blocks. *)
Definition dense (s : F) (i : MyfsInode) : Prop :=
  0 <= block_count i <= max_blocks (ppb s) ∧ ∀ j, 0 <= j < block_count i → ptr s i (Data j) ≠ 0.

(** The file has more blocks at its end, taken from the free ones. *)
Record grown (s : F) (p : Z) (i : MyfsInode) (s' : F) (i' : MyfsInode) : Prop := {
  gr_ev : evolves 0 s i s' i';
  gr_mem : inodes s' = <[p := i']> (inodes s);
  gr_meta : meta i' = meta (with_count (block_count i') i);
  gr_count : block_count i <= block_count i';
  gr_old j : 0 <= j < block_count i → ptr s' i' (Data j) = ptr s i (Data j);
  gr_dense : dense s' i'
}.

Lemma grown_file s p i s' i' : grown s p i s' i' → file s' p i'.
Proof. intros [[H1 H2 _ _ _ _] Hm _ _ _ _]. split; [done..|]. by rewrite Hm, lookup_insert_eq. Qed.

Lemma grown_refl s p i : file s p i → dense s i → grown s p i s i.
Proof.
  intros [H T Hp] Hd. split; try done; first [by apply ev_refl|by rewrite insert_id].
Qed.

Lemma meta_count c i i' : meta i' = meta i → meta (with_count c i') = meta (with_count c i).
Proof. destruct i, i'. unfold meta. cbn. intros H. by simplify_eq. Qed.

(** A block appended to a file that has grown. *)
Lemma grown_append s p i s1 i1 t b s2 i2 :
  grown s p i s1 i1 → block_count i1 < max_blocks (ppb s1) → block_count i1 < 4294967295 → t ≠ 0 →
  ¬ used s1 t → tbit_upd (block_bitmap s1) t true b → mapped (block_count i1) t (set_bmap b s1) p i1 s2 i2 →
  let i3 := with_count (u32 (block_count i2 + 1)) i2 in
  grown s p i (set_inodes (<[p := i3]> (inodes s2)) s2) i3 ∧ block_count i3 = block_count i1 + 1.
Proof.
  intros [E1 M1 G1 C1 O1 [Dc Dn]] Hlt H32 Ht Hn Hb [E2 M2 G2 D2] i3.
  assert (block_count i2 = block_count i1) as Ec by (unfold meta in G2; by simplify_eq).
  assert (block_count i3 = block_count i1 + 1) as Ec3 by (cbn; rewrite Ec; ulia).
  pose proof (ev_alloc _ _ _ _ _ _ Hn Hb E2) as E12. destruct (core_ppb _ _ (ev_core _ _ _ _ _ E12)) as (Ep & _ & _).
  destruct (core_ppb _ _ (ev_core _ _ _ _ _ E1)) as (Ep1 & _ & _).
  assert (same_map i2 i3) as Hsm by done.
  assert (∀ m j, ptr (set_inodes m s2) i3 (Data j) = ptr s2 i2 (Data j)) as Ep3 by (intros m j; exact (same_map_ptr s2 i2 i3 _ Hsm)).
  split; [|done]. split.
  - apply (ev_same _ _ _ _ i2); [done|]. by apply (ev_trans 0 _ _ s1 i1).
  - cbn. rewrite M2. cbn. by rewrite M1, !insert_insert_eq.
  - exact (eq_trans (meta_count _ _ _ G2) (meta_count _ _ _ G1)).
  - lia.
  - intros j Hj. rewrite Ep3, D2 by (unfold valid; change (ppb (set_bmap b s1)) with (ppb s1); lia).
    rewrite decide_False by lia. change (ptr s1 i1 (Data j) = ptr s i (Data j)). by apply O1.
  - unfold dense. change (ppb (set_inodes _ s2)) with (ppb s2). rewrite Ec3, Ep. split; [lia|]. intros j Hj.
    rewrite Ep3, D2 by (unfold valid; change (ppb (set_bmap b s1)) with (ppb s1); lia).
    destruct (decide (j = block_count i1)); [done|]. change (ptr s1 i1 (Data j) ≠ 0). apply Dn. lia.
Qed.

Lemma max_blocks_bound s : fs_ok s → 0 < max_blocks (ppb s) < 1073774603.
Proof. intros H. destruct (ppb_range _ H). unfold max_blocks, MYFS_DIRECT_BLOCKS_MAX. nia. Qed.

(** The block is given back when it could not be mapped. *)
Lemma grown_undo s p i s1 i1 t b s2 i2 b' :
  grown s p i s1 i1 → data_start s1 <= t → ¬ used s1 t → tbit_upd (block_bitmap s1) t true b →
  ext (set_bmap b s1) p i1 s2 i2 → tbit_upd (block_bitmap s2) t false b' → grown s p i (set_bmap b' s2) i2.
Proof.
  intros [E1 M1 G1 C1 O1 [Dc Dn]] Ht Hn Hb HE (Lb' & Hok' & Hb').
  destruct (ext_ppb _ _ _ _ _ HE) as (Ep & _ & Eds). destruct HE as [[H1 H2 H3 H5 H6 H7] M2 G2 D2].
  assert (0 < data_start s1) as Hd by (exact (fs_data _ (ev_fs _ _ _ _ _ E1))).
  assert (¬ owned s2 i2 t) as Hno.
  { apply H7; [lia| |].
    - split; [lia|]. cbn. destruct Hb as (_ & _ & Hb). rewrite Hb by lia. by rewrite decide_True.
    - intros Ho. apply Hn. destruct (tree_owned s1 i1 t); [by apply E1|exact Ho|done]. }
  assert (∀ l, used s1 l → used (set_bmap b' s2) l) as Hu.
  { intros l Hul. destruct (H5 l) as [Hl Hul2]; [by apply (used_set s1 t)|]. split; [done|]. cbn.
    rewrite Hb' by done. rewrite decide_False; [done|]. by intros ->. }
  assert (evolves 0 s1 i1 (set_bmap b' s2) i2) as E2.
  { split; [| |done|done| |].
    - destruct H1 as [F1 F2 F3 F4 F5 F6 F7 F8 F9 F10]. split; try done; cbn; [by rewrite Lb'|].
      intros m Hm. rewrite Hb' by lia. rewrite decide_False; [by apply F10|]. unfold data_start in *. cbn in *. lia.
    - apply tree_bits; [done|]. intros l Ho. destruct (tree_owned _ _ _ H2 Ho) as [_ [Hl Hul]]. rewrite Hb' by done.
      rewrite decide_False; [done|]. by intros ->.
    - intros l Hul Hnt. apply H6; [by apply (used_set s1 t)|done].
    - intros l H0 Hul Ho. apply H7; [done|by apply (used_set s1 t)|done]. }
  split.
  - by apply (ev_trans 0 _ _ s1 i1).
  - cbn. rewrite M2. cbn. by rewrite M1, !insert_insert_eq.
  - assert (block_count i2 = block_count i1) as -> by (unfold meta in G2; by simplify_eq). by rewrite G2, G1.
  - assert (block_count i2 = block_count i1) as -> by (unfold meta in G2; by simplify_eq). done.
  - intros j Hj. change (ptr s2 i2 (Data j) = ptr s i (Data j)). rewrite D2 by (change (ppb (set_bmap b s1)) with (ppb s1); cbn; lia).
    change (ptr s1 i1 (Data j) = ptr s i (Data j)). by apply O1.
  - assert (block_count i2 = block_count i1) as Ec by (unfold meta in G2; by simplify_eq).
    unfold dense. change (ppb (set_bmap b' s2)) with (ppb s2). rewrite Ep, Ec. change (ppb (set_bmap b s1)) with (ppb s1).
    split; [done|]. intros j Hj. change (ptr s2 i2 (Data j) ≠ 0). rewrite D2 by (change (ppb (set_bmap b s1)) with (ppb s1); cbn; lia).
    change (ptr s1 i1 (Data j) ≠ 0). by apply Dn.
Qed.

(** At most one data block is free. *)
Definition nearly_full (s : F) : Prop := ∃ t, ∀ l, data_start s <= l < nblocks s → l ≠ t → used s l.

Lemma wp_blocks_alloc s p i count (Q : Z → F → Prop) :
  file s p i → dense s i → 0 <= count → block_count i + count <= max_blocks (ppb s) →
  (∀ s' i', grown s p i s' i' → block_count i' = block_count i + count →
     Q 0 (set_inodes (<[p := with_dirty 1 i']> (inodes s')) s')) →
  (∀ s' i', grown s p i s' i' → nearly_full s' → Q (-1) s') →
  wp (myfs_blocks_alloc p count) s Q.
Proof.
  intros Hfile Hdense Hc Hmax HQ HQ1. pose proof Hfile as [H T Hp]. pose proof (max_blocks_bound _ H). destruct Hdense as [Hbc Hnz].
  unfold myfs_blocks_alloc. wp_step. eapply wp_inode; [done|]. rewrite u32_small by ulia. wp_step.
  apply (wp_scan_range (λ k s', ∃ i', grown s p i s' i' ∧ block_count i' = k)).
  - exists i. split; [|done]. by apply grown_refl.
  - intros k s1 Hk (i1 & G1 & Ek). pose proof (grown_file _ _ _ _ _ G1) as F1.
    destruct (core_ppb _ _ (ev_core _ _ _ _ _ (gr_ev _ _ _ _ _ G1))) as (Ep & _ & _).
    pose proof (fs_data _ (fl_fs _ _ _ F1)) as Hd1. fold (data_start s1) in Hd1.
    wp_step. apply wp_myfs_bitmap_alloc; [apply F1| |].
    { intros Hfull. rewrite Z.eqb_refl. wp_step. wp_step. apply (HQ1 _ i1); [done|]. exists 0. intros l Hl _. by apply Hfull. }
    intros t b Ht Hn Hb Hf. rewrite (proj2 (Z.eqb_neq t 0)) by lia. wp_step.
    assert (tree_ok (set_bmap b s1) i1) as T1.
    { apply tree_bits; [apply F1|]. intros l Ho. destruct (tree_owned _ _ _ (fl_tree _ _ _ F1) Ho) as [_ Hu].
      apply (used_set s1 t b l Hb Hu). }
    assert (file (set_bmap b s1) p i1) as F2 by (split; [done|done|apply F1]).
    assert (¬ owned s1 i1 t) as Hno by (intros Ho; by destruct (tree_owned _ _ _ (fl_tree _ _ _ F1) Ho)).
    apply (wp_map_block _ p i1); [done| |change (ppb (set_bmap b s1)) with (ppb s1); rewrite Ep; lia| |].
    + right. split; [done|]. split; [|done]. split; [lia|]. cbn. destruct Hb as (_ & _ & Hb). rewrite Hb by lia.
      by rewrite decide_True.
    + intros s2 i2 Hm. rewrite Z.eqb_refl. cbn [negb]. wp_step.
      eapply (wp_update _ p i2); [rewrite (mp_mem _ _ _ _ _ _ _ Hm); apply lookup_insert_eq|]. wp_step.
      rewrite <- Ek in Hm.
      destruct (grown_append s p i s1 i1 t b s2 i2) as [G3 Ec3]; [done|rewrite Ep; lia|lia|lia|done|done|done|].
      exists (with_count (u32 (block_count i2 + 1)) i2). split; [exact G3|]. rewrite Ec3. lia.
    + intros s2 i2 HE Hfull. change (-1 =? 0) with false. cbn [negb]. wp_step. unfold on_bmap. wp_step.
      pose proof (fs_blocks_max _ (ev_fs _ _ _ _ _ (ex_ev _ _ _ _ _ HE))) as Hmx. pose proof (fs_map _ (ev_fs _ _ _ _ _ (ex_ev _ _ _ _ _ HE))) as Hmp.
      destruct (ext_ppb _ _ _ _ _ HE) as (_ & En & _). change (nblocks (set_bmap b s1)) with (nblocks s1) in En.
      apply wp_myfs_bitmap_clear; [apply HE|lia|lia|]. intros b' Hb'. wp_step. wp_step.
      apply (HQ1 _ i2); [apply (grown_undo s p i s1 i1 t b s2 i2); try done; lia|]. exists t. intros l Hl Hlt.
      destruct (Hfull l Hl) as [Hl0 Hlu]. split; [done|]. cbn. destruct Hb' as (_ & _ & Hb'). by rewrite Hb', decide_False by done.
  - intros s1 (i1 & G1 & Ek). wp_step. eapply (wp_update _ p i1); [apply (grown_file _ _ _ _ _ G1)|]. wp_step.
    apply HQ; [done|lia].
Qed.

(* ------------------------------------------------------------------ *)
(** ** Writing into the blocks of a file *)

(** The tables and the pointers to them are as before. *)
Lemma ptr_tables s s' i pl :
  fs_ok s → ppb s' = ppb s → (∀ l, table s i l → block s' l = block s l) →
  valid (ppb s) pl → ptr s' i pl = ptr s i pl.
Proof.
  intros H Ep Hb Hv. unfold ptr. rewrite Ep. destruct (ppb_range _ H) as [Hn _]. apply at_tables; [lia| |done].
  intros pl' Hv' Ht H0. apply Hb. by exists pl'.
Qed.

Lemma tree_tables s s' i :
  fs_ok s → ppb s' = ppb s → nblocks s' = nblocks s → data_start s' = data_start s → block_bitmap s' = block_bitmap s →
  (∀ l, table s i l → block s' l = block s l) → tree_ok s i → tree_ok s' i.
Proof.
  intros H Ep En Ed Eb Hb [T1 T2 T3]. split; [done| |].
  - intros pl Hv. rewrite Ep in Hv. rewrite (ptr_tables s s') by done. rewrite Ed, En. unfold used. rewrite Eb. by apply T2.
  - intros pl pl' Hv Hv'. fold (ptr s' i pl) (ptr s' i pl'). rewrite Ep in Hv, Hv'. rewrite !(ptr_tables s s') by done.
    by apply T3.
Qed.

Lemma data_not_table s i j : tree_ok s i → valid (ppb s) (Data j) → ¬ table s i (ptr s i (Data j)).
Proof. intros T Hv (pl & Hpl & Ht & E & H0). rewrite (tr_inj _ _ T pl (Data j) Hpl Hv) in Ht; [done| |done]. by fold (ptr s i pl); rewrite E. Qed.

(** Only data blocks of the inode have changed. *)
Record patched (s : F) (i : MyfsInode) (s' : F) : Prop := {
  pt_dev : ∃ d, s' = set_dev d s;
  pt_fs : fs_ok s';
  pt_frame l : ¬ owned s i l → block s' l = block s l;
  pt_table l : table s i l → block s' l = block s l
}.

Lemma patched_refl s i : fs_ok s → patched s i s.
Proof. intros H. split; [|done..]. exists (dev s). by destruct s. Qed.

Lemma patched_ptr s i s' pl : fs_ok s → patched s i s' → valid (ppb s) pl → ptr s' i pl = ptr s i pl.
Proof. intros H [[d ->] _ _ Ht] Hv. by apply ptr_tables. Qed.

Lemma patched_file s p i s' : file s p i → patched s i s' → file s' p i.
Proof.
  intros [H T Hp] [[d ->] Hf _ Ht]. split; [done| |done]. by apply (tree_tables s).
Qed.

Lemma fptr_valid s i j : 0 <= j → fptr s i j ≠ 0 → valid (ppb s) (Data j) ∧ fptr s i j = ptr s i (Data j).
Proof. intros Hj. unfold fptr. destruct (j <? _) eqn:E; [|done]. intros _. split; [cbn; blia|done]. Qed.

Lemma patched_fptr s i s' j : fs_ok s → patched s i s' → 0 <= j → fptr s' i j = fptr s i j.
Proof.
  intros H Hpt Hj. unfold fptr. assert (ppb s' = ppb s) as -> by (destruct (pt_dev _ _ _ Hpt) as [d ->]; done).
  destruct (j <? _) eqn:E; [|done]. apply patched_ptr; [done..|]. cbn. blia.
Qed.

(** Block [j] of the file is overwritten between [offset] and [offset + chunk]. *)
Lemma patched_block s i s1 s2 d j offset chunk (x : Z → Z) :
  fs_ok s → tree_ok s i → patched s i s1 → s2 = set_dev d s1 → fs_ok s2 → 0 <= j → fptr s i j ≠ 0 →
  (∀ m, m ≠ fptr s i j → block s2 m = block s1 m) →
  (∀ c, 0 <= c < block_bytes s → bget (block s2 (fptr s i j)) c =
     if decide (offset <= c < offset + chunk) then x (c - offset) else bget (block s1 (fptr s i j)) c) →
  patched s i s2 ∧
  ∀ y, 0 <= y → fbyte s2 i y =
    if decide (y / block_bytes s = j ∧ offset <= y mod block_bytes s < offset + chunk)
    then x (y mod block_bytes s - offset) else fbyte s1 i y.
Proof.
  intros H T Hpt -> Hf Hj H0 Hout Hin. destruct (fptr_valid s i j Hj H0) as [Hv Ej]. pose proof (bb_range _ H) as Hbb.
  assert (patched s i (set_dev d s1)) as Hpt2.
  { destruct Hpt as [[d1 ->] P2 P3 P4]. split; [by exists d|done| |].
    - intros l Ho. rewrite Hout; [by apply P3|]. intros ->. apply Ho. exists (Data j). by rewrite <- Ej.
    - intros l Ht. rewrite Hout; [by apply P4|]. intros ->. rewrite Ej in Ht. by apply (data_not_table s i j). }
  split; [done|]. intros y Hy. assert (block_bytes s1 = block_bytes s) as Eb by (destruct (pt_dev _ _ _ Hpt) as [d1 ->]; done).
  assert (0 <= y / block_bytes s) as Hyq by (apply Z.div_pos; lia).
  unfold fbyte. change (block_bytes (set_dev d s1)) with (block_bytes s1). rewrite Eb.
  rewrite (patched_fptr s i s1), (patched_fptr s i (set_dev d s1)) by done. destruct (decide (y / block_bytes s = j)) as [->|Hne].
  - rewrite !(proj2 (Z.eqb_neq _ 0)) by done. rewrite Hin by (apply Z.mod_pos_bound; lia).
    destruct (decide (offset <= y mod block_bytes s < offset + chunk)); [by rewrite decide_True|]. rewrite decide_False; [done|]. by intros [_ ?].
  - rewrite decide_False by tauto. destruct (fptr s i (y / block_bytes s) =? 0) eqn:E; [done|].
    rewrite Hout; [done|]. intros El. apply Hne. destruct (fptr_valid s i (y / block_bytes s)) as [Hv' Ey]; [done|blia|].
    assert (Data (y / block_bytes s) = Data j) as HD; [|by injection HD].
    apply (tr_inj _ _ T); [done..| |]; fold (ptr s i (Data (y / block_bytes s))) (ptr s i (Data j)); [blia|congruence].
Qed.

(** The loop of [myfs_node_write]. *)
Definition write_loop (p : Z) (bb off : Z) (bytes : buf) (count : Z) (block_buf : buf) : M F (option (Z * Z)) :=
  while_n (S (Z.to_nat count)) (λ '(offset, bytes_written, block_buf),
    if bytes_written <? count then
      let block_idx := offset / bb in
      let block_offset := offset mod bb in
      let to_write := Z.min (bb - block_offset) (count - bytes_written) in
      block_lba ← myfs_block_lba_get p block_idx;
      if block_lba =? 0 then ret (inr None)
      else
        block_buf ← (if to_write <? bb then disk_read_block block_lba block_buf else ret block_buf);
        x ← peek (get_bytes bytes_written to_write) bytes;
        block_buf ← of_opt (splice block_offset x block_buf);
        disk_write_block block_lba block_buf ;;
        ret (inl (u32 (offset + to_write), bytes_written + to_write, block_buf))
    else ret (inr (Some (offset, bytes_written)))) (off, 0, block_buf).

Lemma wp_write_loop s p i off bytes count block_buf (Q : option (Z * Z) → F → Prop) :
  file s p i → is_u32 off → 0 <= count <= blen bytes → bytes_ok bytes → off + count < 4294967296 →
  blen block_buf = block_bytes s →
  (∀ x, off <= x < off + count → fptr s i (x / block_bytes s) ≠ 0) →
  (∀ s', patched s i s' →
     (∀ x, 0 <= x → fbyte s' i x = if decide (off <= x < off + count) then bget bytes (x - off) else fbyte s i x) →
     Q (Some (off + count, count)) s') →
  wp (write_loop p (block_bytes s) off bytes count block_buf) s Q.
Proof.
  intros Hfile Ho Hc Hok Hov Hbuf Hnz HQ. pose proof Hfile as [H T Hp]. pose proof (bb_range _ H) as Hbb.
  set (bb := block_bytes s) in *. unfold write_loop.
  apply (wp_while_n (λ n '(offset, bw, block_buf) s', n = Z.to_nat (count - bw) ∧ 0 <= bw <= count ∧ offset = off + bw ∧
    blen block_buf = bb ∧ patched s i s' ∧
    ∀ x, 0 <= x → fbyte s' i x = if decide (off <= x < off + bw) then bget bytes (x - off) else fbyte s i x)
    _ _ _ (Z.to_nat count)).
  { split; [f_equal; lia|]. split; [lia|]. split; [lia|]. split; [done|]. split; [by apply patched_refl|].
    intros x Hx. by rewrite decide_False by lia. }
  { lia. }
  intros n [[offset bw] b] s' (-> & Hbw & -> & Hb & Hpt & Hbytes). cbn beta iota.
  destruct (bw <? count) eqn:E.
  2:{ wp_step. assert (bw = count) as -> by blia. by apply HQ. }
  assert (bw < count) as Hlt by blia. clear E. unfold is_u32 in Ho.
  pose proof (patched_file _ _ _ _ Hfile Hpt) as Hf'. assert (block_bytes s' = bb) as Ebb.
  { destruct (pt_dev _ _ _ Hpt) as [d ->]. done. }
  assert (0 <= (off + bw) / bb <= off + bw) as Hq by (split; [apply Z.div_pos; lia|apply Z.div_le_upper_bound; nia]).
  assert (0 <= (off + bw) mod bb < bb) as Hr by (apply Z.mod_pos_bound; lia).
  pose proof (Z.div_mod (off + bw) bb ltac:(lia)) as Hdm. cbv zeta.
  set (chunk := Z.min (bb - (off + bw) mod bb) (count - bw)).
  pose proof (Hnz (off + bw) ltac:(lia)) as Hnz0. wp_step. apply (wp_fptr s' p i); [done|unfold is_u32; lia|].
  rewrite (patched_fptr s i s') by (done || lia). rewrite (proj2 (Z.eqb_neq _ 0)) by done.
  destruct (fptr_range s p i ((off + bw) / bb) Hfile) as [Hrg _]; [lia|done|]. pose proof (fs_data _ H) as Hd.
  assert (nblocks s' = nblocks s) as En by (destruct (pt_dev _ _ _ Hpt) as [d ->]; done).
  apply wp_patch_block; try done; try lia.
  { apply Hf'. } { unfold data_start in *. lia. }
  intros d b' s2 Hs2 Hout Hin Lb'. rewrite Ebb in *. wp_step. rewrite u32_small by (unfold is_u32; lia).
  destruct (patched_block s i s' s2 d ((off + bw) / bb) ((off + bw) mod bb) chunk (λ c, bget bytes (bw + c))) as [Hpt2 Hby];
    try done; [lia|].
  exists (Z.to_nat (count - (bw + chunk))). split; [lia|]. split; [done|]. split; [lia|]. split; [lia|]. split; [done|].
  split; [done|]. intros x Hx. rewrite Hby, Hbytes by done. fold bb.
  pose proof (Z.div_mod x bb ltac:(lia)) as Hdx. pose proof (Z.mod_pos_bound x bb ltac:(lia)) as Hmx.
  destruct (decide (x / bb = _ ∧ _)) as [[Eq Hi]|Hn].
  - rewrite Eq in Hdx. rewrite decide_True by lia. f_equal. lia.
  - destruct (decide (off <= x < off + bw)); [by rewrite decide_True by lia|].
    rewrite decide_False; [done|]. intros Hi. apply Hn.
    assert ((off + bw) / bb = x / bb) as Eq.
    { apply (Z.div_unique_pos x bb _ (x - bb * ((off + bw) / bb))); lia. }
    split; [done|]. rewrite <- Eq in Hdx. lia.
Qed.

(* ------------------------------------------------------------------ *)
(** ** Files in use *)

Record opened (s : F) (p : Z) (i : MyfsInode) : Prop := {
  op_file : file s p i;
  op_held : held s p i;
  op_cache : cache_ok s;
  op_layout : layout_ok s;
  op_dense : dense s i
}.

(** What an operation on the file leaves of the rest: other blocks of the data
    area in use keep their contents and do not become the file's. *)
Record kept (s : F) (p : Z) (i : MyfsInode) (s' : F) (i' : MyfsInode) : Prop := {
  kp_core : core s' = core s;
  kp_mem : inodes s' = <[p := i']> (inodes s);
  kp_meta : i_ino i' = i_ino i ∧ mode i' = mode i ∧ ref_count i' = ref_count i;
  kp_used l : used s l → used s' l;
  kp_other l : used s l → data_start s <= l → ¬ owned s i l → block s' l = block s l ∧ ¬ owned s' i' l
}.

Definition meta_ok (i : MyfsInode) : Prop :=
  Forall is_u32 [i_ino i; block_count i; size i; mode i; ref_count i; links_count i; uid i; gid i; permissions i; dirty i] ∧
  Forall is_u64 [atime i; mtime i; ctime i].

Lemma inode_ok_meta i : inode_ok i → meta_ok i.
Proof. intros [_ _ Hw Ht]. split; [|done]. rewrite !Forall_cons in *. tauto. Qed.

Lemma meta_ok_eq i i' : meta i' = meta i → meta_ok i → meta_ok i'.
Proof. destruct i, i'. unfold meta, meta_ok. cbn. intros E. by simplify_eq. Qed.

Lemma meta_ok_fields i c z dt : meta_ok i → is_u32 c → is_u32 z → is_u32 dt → meta_ok (with_dirty dt (with_size z (with_count c i))).
Proof. intros [Hw Ht] Hc Hz Hd. split; [|done]. rewrite !Forall_cons in *. cbn. tauto. Qed.

Lemma ptr_u32 s i pl : fs_ok s → tree_ok s i → valid (ppb s) pl → is_u32 (ptr s i pl).
Proof.
  intros H T Hv. destruct (decide (ptr s i pl = 0)) as [->|H0]; [ulia|].
  pose proof (tree_block s i pl H T Hv H0). pose proof (fs_blocks_max _ H). ulia.
Qed.

Lemma inode_ok_tree s i : fs_ok s → tree_ok s i → meta_ok i → inode_ok i.
Proof.
  intros H T [Hw Ht]. pose proof (tr_len _ _ T) as Hl. destruct (ppb_range _ H) as [Hn _]. split; [done| | |done].
  - apply Forall_lookup_2. intros j x Hj. pose proof (lookup_lt_Some _ _ _ Hj) as Hlt.
    assert (ptr s i (Data (Z.of_nat j)) = x) as <-.
    { unfold ptr. cbn [at_]. rewrite (proj2 (Z.ltb_lt _ _)) by lia. by rewrite Nat2Z.id, Hj. }
    apply ptr_u32; [done..|]. unfold valid, max_blocks, MYFS_DIRECT_BLOCKS_MAX. nia.
  - pose proof (ptr_u32 s i Single H T I). pose proof (ptr_u32 s i Double H T I).
    rewrite !Forall_cons in *. cbn [ptr at_] in *. tauto.
Qed.

Lemma cache_upd (s s' : F) p i i' :
  cache_ok s → inode_hash_table s' = inode_hash_table s → inodes s' = <[p := i']> (inodes s) →
  inodes s !! p = Some i → i_ino i' = i_ino i → cache_ok s'.
Proof.
  intros [C1 C2 C3] Et Em Hp Ei. unfold bucket in *. split; unfold bucket; rewrite ?Et, ?Em; [done| |].
  - intros ino q Hq. destruct (C2 ino q Hq) as [H0 Hs]. split; [done|]. by apply lookup_insert_is_Some'; right.
  - intros ino q q' j j' Hq Hq' Hj Hj' E.
    assert (∀ q j, <[p := i']> (inodes s) !! q = Some j → ∃ j0, inodes s !! q = Some j0 ∧ i_ino j0 = i_ino j) as Hold.
    { intros r k Hr. destruct (decide (p = r)) as [->|]; [rewrite lookup_insert_eq in Hr; simplify_eq; by exists i|].
      rewrite lookup_insert_ne in Hr by done. by exists k. }
    destruct (Hold q j Hj) as (j0 & ? & ?), (Hold q' j' Hj') as (j0' & ? & ?).
    apply (C3 ino q q' j0 j0'); try done. congruence.
Qed.

(** The file is still in use after a change of its blocks and of its size. *)
Lemma opened_upd s p i s' i' :
  opened s p i → kept s p i s' i' → fs_ok s' → tree_ok s' i' → dense s' i' → meta_ok i' → opened s' p i'.
Proof.
  intros [_ [Hm Hc Hr Hi Hb _] C L _] [Kc Km (Ki & _ & Kr) _ _] Hf Ht Hd Hok.
  assert (inodes s' !! p = Some i') as Hp by (by rewrite Km, lookup_insert_eq).
  unfold core in Kc. injection Kc as E1 E2 E3 E4 _ _ _ _ _. split; [by split| | | |done].
  - split; [done| | | | |by apply (inode_ok_tree s')].
    + unfold bucket. by rewrite E4, Ki.
    + by rewrite Kr.
    + unfold ninodes. by rewrite E1, Ki.
    + by rewrite E3, Ki.
  - by apply (cache_upd s s' p i i').
  - by apply (layout_eq s).
Qed.

(** After [myfs_node_write] has made room. *)
Record prepared (s : F) (p : Z) (i : MyfsInode) (s1 : F) (i1 : MyfsInode) : Prop := {
  pr_ev : evolves 0 s i s1 i1;
  pr_mem : inodes s1 = <[p := i1]> (inodes s);
  pr_meta : meta i1 = meta (with_dirty (dirty i1) (with_count (block_count i1) i));
  pr_dirty : is_u32 (dirty i1);
  pr_count : block_count i <= block_count i1;
  pr_old j : 0 <= j < block_count i → ptr s1 i1 (Data j) = ptr s i (Data j);
  pr_dense : dense s1 i1
}.

Lemma grown_prepared s p i s1 i1 : opened s p i → grown s p i s1 i1 → prepared s p i s1 i1.
Proof.
  intros O [G1 G2 G3 G4 G5 G6].
  assert (dirty i1 = dirty i) as Ed by (unfold meta in G3; cbn in G3; by simplify_eq).
  split; try done.
  - rewrite Ed. rewrite G3. by destruct i.
  - rewrite Ed. destruct (inode_ok_meta i) as [Hw _]; [apply O|]. rewrite !Forall_cons in Hw. tauto.
Qed.

Lemma grown_dirty s p i s1 i1 :
  grown s p i s1 i1 → prepared s p i (set_inodes (<[p := with_dirty 1 i1]> (inodes s1)) s1) (with_dirty 1 i1).
Proof.
  intros [G1 G2 G3 G4 G5 G6]. assert (same_map i1 (with_dirty 1 i1)) as Hsm by done.
  split; try done.
  - by apply (ev_same _ _ _ _ i1).
  - cbn. by rewrite G2, insert_insert_eq.
  - destruct i, i1. unfold meta in *. cbn in *. by simplify_eq.
Qed.

Lemma wp_grow s p i target (Q : Z → F → Prop) :
  opened s p i → target <= max_blocks (ppb s) →
  (∀ s1 i1, prepared s p i s1 i1 → target <= block_count i1 → Q 0 s1) →
  (∀ s1 i1, prepared s p i s1 i1 → nearly_full s1 → Q (-1) s1) →
  wp (if block_count i <? target then myfs_blocks_alloc p (target - block_count i) else ret 0) s Q.
Proof.
  intros O Ht HQ HQ1. pose proof O as [Hfile _ _ _ Hd]. destruct (block_count i <? target) eqn:E.
  - apply (wp_blocks_alloc s p i); [done|done|blia|lia| |].
    + intros s' i' G Ec. apply (HQ _ (with_dirty 1 i')); [by apply grown_dirty|]. cbn. lia.
    + intros s' i' G Hnf. apply (HQ1 _ i'); [by apply grown_prepared|done].
  - wp_step. apply (HQ s i); [|blia]. by apply grown_prepared, grown_refl.
Qed.

Lemma prepared_file s p i s1 i1 : prepared s p i s1 i1 → file s1 p i1.
Proof. intros [[H1 H2 _ _ _ _] Hm _ _ _ _ _]. split; [done..|]. by rewrite Hm, lookup_insert_eq. Qed.

Lemma prepared_bytes s p i s1 i1 x :
  opened s p i → prepared s p i s1 i1 → 0 <= x < block_bytes s * block_count i → fbyte s1 i1 x = fbyte s i x.
Proof.
  intros [[H T _] _ _ _ [Hbc Hnz]] [E _ _ _ _ Hold _] Hx. pose proof (bb_range _ H).
  destruct (core_ppb _ _ (ev_core _ _ _ _ _ E)) as (Ep & _ & _).
  destruct (core_disk _ _ (ev_core _ _ _ _ _ E)) as [_ Eb].
  assert (0 <= x / block_bytes s < block_count i) as Hq by (split; [apply Z.div_pos; lia|apply Z.div_lt_upper_bound; lia]).
  unfold fbyte, fptr. rewrite Eb, Ep. rewrite (proj2 (Z.ltb_lt (x / block_bytes s) _)) by lia. rewrite Hold by done.
  destruct (_ =? 0) eqn:E0; [done|]. f_equal.
  assert (valid (ppb s) (Data (x / block_bytes s))) as Hv by (cbn; lia).
  apply (ev_frame _ _ _ _ _ E); [|by apply data_not_table]. apply (tr_used _ _ T); [done|blia].
Qed.

(** Blocks before the data area do not matter for the contents. *)
Lemma above_ptr s s' i i' pl :
  fs_ok s → tree_ok s i → ppb s' = ppb s → same_map i i' → (∀ l, data_start s <= l → block s' l = block s l) →
  valid (ppb s) pl → ptr s' i' pl = ptr s i pl.
Proof.
  intros H T Ep Hsm Hb Hv. rewrite (same_map_ptr s' i i') by done. apply ptr_tables; [done..| |done].
  intros l Ht. apply Hb. by apply (tree_owned s i l T), table_owned.
Qed.

Lemma above_bytes s s' i i' x :
  fs_ok s → tree_ok s i → ppb s' = ppb s → block_bytes s' = block_bytes s → same_map i i' →
  (∀ l, data_start s <= l → block s' l = block s l) → 0 <= x → fbyte s' i' x = fbyte s i x.
Proof.
  intros H T Ep Eb Hsm Hb Hx. pose proof (bb_range _ H). unfold fbyte, fptr. rewrite Eb, Ep.
  assert (0 <= x / block_bytes s) by (apply Z.div_pos; lia).
  destruct (x / block_bytes s <? max_blocks (ppb s)) eqn:E; [|done].
  assert (valid (ppb s) (Data (x / block_bytes s))) as Hv by (cbn; blia).
  rewrite (above_ptr s s' i i') by done. destruct (_ =? 0) eqn:E0; [done|]. rewrite Hb; [done|].
  apply (tr_used _ _ T); [done|blia].
Qed.

Lemma above_tree s s' i i' :
  fs_ok s → tree_ok s i → core s' = core s → block_bitmap s' = block_bitmap s → same_map i i' →
  (∀ l, data_start s <= l → block s' l = block s l) → tree_ok s' i' ∧ (∀ l, owned s' i' l ↔ owned s i l).
Proof.
  intros H [T1 T2 T3] Hc Hbm Hsm Hb. destruct (core_ppb _ _ Hc) as (Ep & En & Ed).
  assert (∀ pl, valid (ppb s) pl → ptr s' i' pl = ptr s i pl) as Hp by (intros pl Hv; by apply above_ptr).
  split; [split|].
  - by destruct Hsm as (-> & _).
  - intros pl Hv. rewrite Ep in Hv. rewrite Hp, Ed, En by done. unfold used. rewrite Hbm. by apply T2.
  - intros pl pl' Hv Hv'. fold (ptr s' i' pl) (ptr s' i' pl'). rewrite Ep in Hv, Hv'. rewrite !Hp by done. by apply T3.
  - intros l. unfold owned. rewrite Ep. split; intros (pl & Hv & E & H0); exists pl; by rewrite ?Hp in * by done.
Qed.

(** A state whose data area, block map and bitmap are those of a patched file. *)
Record settled (s2 : F) (i1 : MyfsInode) (s' : F) (i' : MyfsInode) : Prop := {
  st_fs : fs_ok s';
  st_core : core s' = core s2;
  st_bmap : block_bitmap s' = block_bitmap s2;
  st_map : same_map i1 i';
  st_count : block_count i' = block_count i1;
  st_above l : data_start s2 <= l → block s' l = block s2 l
}.

Lemma settled_kept s p i s1 i1 s2 s' i' :
  opened s p i → prepared s p i s1 i1 → patched s1 i1 s2 → settled s2 i1 s' i' →
  inodes s' = <[p := i']> (inodes s) → i_ino i' = i_ino i ∧ mode i' = mode i ∧ ref_count i' = ref_count i → meta_ok i' →
  opened s' p i' ∧ kept s p i s' i' ∧ ∀ x, 0 <= x → fbyte s' i' x = fbyte s2 i1 x.
Proof.
  intros O P Hpt [S1 S2 S3 S4 S5 S6] Hm Hmeta Hok. pose proof (prepared_file _ _ _ _ _ P) as F1.
  pose proof (patched_file _ _ _ _ F1 Hpt) as [H2 T2 _]. pose proof Hpt as [[d Es2] _ Pf _].
  assert (core s2 = core s1) as Ec2 by (by subst s2). assert (block_bitmap s2 = block_bitmap s1) as Eb2 by (by subst s2).
  destruct (above_tree s2 s' i1 i') as [T' Ho']; [done..|].
  destruct (core_ppb _ _ S2) as (Ep & _ & Ed). destruct (core_disk _ _ S2) as [_ Ebb].
  destruct (core_ppb _ _ Ec2) as (Ep2 & _ & Ed2). pose proof P as [[E1 E2 E3 E5 E6 E7] _ _ _ _ _ [Dc Dn]].
  destruct (core_ppb _ _ E3) as (Ep1 & _ & Ed1).
  assert (kept s p i s' i') as K.
  { split; [congruence|done|done| |].
    - intros l Hu. unfold used. rewrite S3, Eb2. by apply E5.
    - intros l Hu Hl Hno. destruct (E6 l Hu) as [Hb1 _]; [intros Ht; by apply Hno, table_owned|].
      assert (¬ owned s1 i1 l) as Hno1.
      { destruct (decide (l = 0)) as [->|]; [by intros (pl & _ & _ & [])|by apply E7]. }
      split; [rewrite S6 by lia; rewrite Pf by done; done|]. rewrite Ho'. intros (pl & Hv & El & H0). apply Hno1.
      exists pl. rewrite Ep2 in Hv. rewrite <- (patched_ptr s1 i1 s2) by (done || apply F1). done. }
  split; [|split; [done|]].
  - apply (opened_upd s p i s' i'); try done. split; rewrite S5; [by rewrite Ep, Ep2|]. intros j Hj.
    rewrite (above_ptr s2 s' i1 i') by (done || (rewrite Ep2; cbn; lia)).
    rewrite (patched_ptr s1 i1 s2) by (apply F1 || done || (cbn; lia)). by apply Dn.
  - intros x Hx. by apply (above_bytes s2 s' i1 i').
Qed.

(** The end of [myfs_node_write]: the size, and the inode written back. *)
Lemma wp_finish s p i s1 i1 s2 e n (Q : Z → F → Prop) :
  opened s p i → prepared s p i s1 i1 → patched s1 i1 s2 → is_u32 e →
  (∀ s' i', opened s' p i' → kept s p i s' i' → size i' = Z.max (size i) e → block_count i' = block_count i1 →
     (∀ x, 0 <= x → fbyte s' i' x = fbyte s2 i1 x) → Q n s') →
  wp (i ← deref p;
      when (size i <? e) (update p (with_size e)) ;;
      update p (with_dirty 1) ;;
      _ ← myfs_disk_inode_write (i_ino i);
      ret n) s2 Q.
Proof.
  intros O P Hpt He HQ. pose proof (prepared_file _ _ _ _ _ P) as F1. pose proof (patched_file _ _ _ _ F1 Hpt) as [H2 T2 Hp2].
  pose proof P as [Ev Pm Pmeta Pd Pc _ [Dc _]]. pose proof Hpt as [[d2 Es2] _ _ _].
  assert (size i1 = size i) as Esz by (unfold meta in Pmeta; cbn in Pmeta; by simplify_eq).
  pose proof (inode_ok_meta _ (he_ok _ _ _ (op_held _ _ _ O))) as Hok.
  assert (is_u32 (size i)) as Hsz by (destruct Hok as [Hw _]; rewrite !Forall_cons in Hw; tauto).
  pose proof (max_blocks_bound _ (fl_fs _ _ _ F1)) as Hmb.
  set (z := Z.max (size i) e). set (i3 := with_dirty 1 (with_size z i1)).
  set (s3 := set_inodes (<[p := i3]> (inodes s2)) s2).
  wp_step. eapply wp_inode; [done|]. wp_step.
  assert (∀ K : M F Z, wp (update p (with_dirty 1) ;; K) (set_inodes (<[p := with_size z i1]> (inodes s2)) s2) Q →
    wp (when (size i1 <? e) (update p (with_size e))) s2 (λ _ s', wp (update p (with_dirty 1) ;; K) s' Q)) as Hwhen.
  { intros K HK. apply wp_when; intros E.
    - eapply wp_update; [done|]. replace e with z by (subst z; blia). exact HK.
    - assert (with_size z i1 = i1) as Ei by (replace z with (size i1) by (subst z; blia); by destruct i1).
      rewrite Ei, insert_id in HK by done. by replace (set_inodes (inodes s2) s2) with s2 in HK by (by destruct s2). }
  apply Hwhen. clear Hwhen. wp_step. eapply wp_update; [cbn; apply lookup_insert_eq|].
  match goal with |- wp _ ?st _ => replace st with s3 by (subst s3; unfold set_inodes; cbn; by rewrite insert_insert_eq) end.
  assert (meta i3 = meta (with_dirty 1 (with_size z (with_count (block_count i1) i)))) as Em3.
  { subst i3. destruct i, i1. unfold meta in *. cbn in *. by simplify_eq. }
  assert (meta_ok i3) as Hok3.
  { eapply meta_ok_eq; [exact Em3|]. apply meta_ok_fields; [done|ulia|subst z; ulia|ulia]. }
  destruct (settled_kept s p i s1 i1 s2 s3 i3) as (O3 & K3 & B3); try done.
  { split; try done. by apply fs_ok_inodes. }
  { subst s3 s2. cbn. by rewrite Pm, insert_insert_eq. }
  { unfold meta in Em3. cbn in Em3. by simplify_eq. }
  assert (i_ino i1 = i_ino i3) as -> by done. wp_step.
  apply (wp_disk_inode_write_held s3 p i3); [apply O3|apply O3|apply O3|apply O3|done|].
  intros d s' Hs' _ Hfr. wp_step.
  destruct (settled_kept s p i s1 i1 s2 s' (with_dirty 0 i3)) as (O4 & K4 & B4); try done.
  { split; try done. intros l Hl. rewrite Hfr; [done|]. by right. }
  { subst s' s3 s2. cbn. by rewrite Pm, !insert_insert_eq. }
  { exact (kp_meta _ _ _ _ _ K3). }
  { destruct Hok3 as [Hw Ht]. split; [|done]. rewrite !Forall_cons in *. cbn in *. unfold is_u32 in *. intuition lia. }
  by apply (HQ s' (with_dirty 0 i3)).
Qed.

(** Within the reach of the block map, and of 32-bit offsets. *)
Definition fits (s : F) (e : Z) : Prop :=
  e <= block_bytes s * max_blocks (ppb s) ∧ e + block_bytes s - 1 < 4294967296.

Lemma wp_node_write s p i off bytes count (Q : Z → F → Prop) :
  opened s p i → is_u32 off → 0 < count <= blen bytes → bytes_ok bytes → fits s (off + count) →
  (∀ s' i', opened s' p i' → kept s p i s' i' → size i' = Z.max (size i) (off + count) →
     off + count <= block_bytes s * block_count i' → block_count i <= block_count i' →
     (∀ x, off <= x < off + count → fbyte s' i' x = bget bytes (x - off)) →
     (∀ x, 0 <= x < block_bytes s * block_count i → ¬ off <= x < off + count → fbyte s' i' x = fbyte s i x) →
     Q count s') →
  (∀ s' i', opened s' p i' → kept s p i s' i' → size i' = size i → block_count i <= block_count i' → nearly_full s' →
     (∀ x, 0 <= x < block_bytes s * block_count i → fbyte s' i' x = fbyte s i x) → Q (-1) s') →
  wp (myfs_node_write p off bytes count) s Q.
Proof.
  intros O Ho Hc Hok [Hfit Hov] HQ HQ1. pose proof O as [Hfile Hh C L [Dc Dn]]. pose proof Hfile as [H T Hp].
  pose proof (bb_range _ H) as Hbb. destruct (co_mem _ C _ _ (he_cached _ _ _ Hh)) as [Hp0 _]. unfold is_u32 in Ho.
  unfold myfs_node_write. rewrite (proj2 (Z.eqb_neq p 0)), (proj2 (Z.eqb_neq count 0)) by lia. cbn [orb].
  wp_step. apply wp_divisor; [done|]. set (bb := block_bytes s) in *. rewrite u32_small by (unfold is_u32; lia).
  set (target := (off + count + bb - 1) / bb).
  assert (target <= max_blocks (ppb s)) as Ht.
  { subst target. assert ((off + count + bb - 1) / bb < max_blocks (ppb s) + 1); [|lia]. apply Z.div_lt_upper_bound; lia. }
  assert (off + count <= bb * target) as Htt.
  { pose proof (Z.div_mod (off + count + bb - 1) bb ltac:(lia)) as Hdm.
    pose proof (Z.mod_pos_bound (off + count + bb - 1) bb ltac:(lia)). fold target in Hdm. lia. }
  wp_step. eapply wp_inode; [done|]. wp_step. apply (wp_grow s p i target); [done|done| |].
  2:{ intros s1 i1 P Hnf. change (-1 <? 0) with true. cbn iota. wp_step. pose proof (prepared_file _ _ _ _ _ P) as F1.
      destruct (settled_kept s p i s1 i1 s1 s1 i1) as (O1 & K1 & B1); try done; try apply P.
      - apply patched_refl, F1.
      - split; try done. apply F1.
      - pose proof (pr_meta _ _ _ _ _ P) as Pm. unfold meta in Pm. cbn in Pm. by simplify_eq.
      - eapply meta_ok_eq; [apply P|]. pose proof (inode_ok_meta _ (he_ok _ _ _ Hh)) as Hm.
        pose proof (max_blocks_bound _ (fl_fs _ _ _ F1)). destruct (pr_dense _ _ _ _ _ P) as [Dc1 _].
        apply (meta_ok_fields i (block_count i1) (size i) (dirty i1)); [done|ulia| |apply P].
        destruct Hm as [Hw _]. rewrite !Forall_cons in Hw. tauto.
      - apply (HQ1 s1 i1); [done|done| |apply P|done|].
        + pose proof (pr_meta _ _ _ _ _ P) as Pm. unfold meta in Pm. cbn in Pm. by simplify_eq.
        + intros x Hx. by apply (prepared_bytes s p i). }
  intros s1 i1 P Htgt. change (0 <? 0) with false. cbn iota. pose proof (prepared_file _ _ _ _ _ P) as F1.
  destruct (core_ppb _ _ (ev_core _ _ _ _ _ (pr_ev _ _ _ _ _ P))) as (Ep & _ & _).
  destruct (core_disk _ _ (ev_core _ _ _ _ _ (pr_ev _ _ _ _ _ P))) as [_ Ebb].
  wp_step. apply wp_junk_bytes. intros b0 Hb0. wp_step. fold (write_loop p bb off bytes count b0).
  replace bb with (block_bytes s1) by done. apply (wp_write_loop s1 p i1); [done|done|lia|done|lia|rewrite Hb0, Ebb; fold bb; lia| |].
  - intros x Hx. rewrite Ebb. fold bb. destruct (pr_dense _ _ _ _ _ P) as [Dc1 Dn1].
    assert (0 <= x / bb < block_count i1) as Hq.
    { split; [apply Z.div_pos; lia|]. assert (x / bb < target); [|lia]. apply Z.div_lt_upper_bound; lia. }
    unfold fptr. rewrite (proj2 (Z.ltb_lt _ _)) by lia. by apply Dn1.
  - intros s2 Hpt Hbytes. apply (wp_finish s p i s1 i1 s2); [done..|unfold is_u32; lia|].
    intros s' i' O' K' Hsz Hbc Hb. pose proof (pr_count _ _ _ _ _ P).
    apply (HQ s' i'); [done|done|done|rewrite Hbc; nia|lia| |].
    + intros x Hx. rewrite Hb, Hbytes by lia. by rewrite decide_True.
    + intros x Hx Hn. rewrite Hb, Hbytes by lia. rewrite decide_False by done. by apply (prepared_bytes s p i).
Qed.
End contents.

Section others.
Context {D : Type} {BD : BlockDevice D}.
Notation F := (myfs D).

(** Two files without a block in common. *)
Definition disjoint_files (s : F) (i j : MyfsInode) : Prop := ∀ l, owned s j l → ¬ owned s i l.

(** An operation on file [p] keeps the contents of the others, and keeps them
    apart from [p]. *)
Lemma kept_other s p i s' i' q j :
  kept s p i s' i' → fs_ok s' → file s q j → q ≠ p → disjoint_files s i j →
  file s' q j ∧ (∀ x, 0 <= x → fbyte s' j x = fbyte s j x) ∧ disjoint_files s' i' j.
Proof.
  intros [Kc Km _ Ku Ko] Hf [H T Hq] Hne Hdis. destruct (core_ppb _ _ Kc) as (Ep & En & Ed).
  destruct (core_disk _ _ Kc) as [_ Ebb]. pose proof (bb_range _ H) as Hbb.
  assert (∀ l, owned s j l → block s' l = block s l ∧ ¬ owned s' i' l) as Hb.
  { intros l Ho. destruct (tree_owned _ _ _ T Ho) as [[Hd _] Hu]. apply Ko; [done|done|by apply Hdis]. }
  assert (∀ pl, valid (ppb s) pl → ptr s' j pl = ptr s j pl) as Hp.
  { intros pl Hv. apply ptr_tables; [done..| |done]. intros l Ht. by apply Hb, table_owned. }
  split; [split; [done| |]|split].
  - pose proof T as [T1 T2 T3]. split; [done| |].
    + intros pl Hv. rewrite Ep in Hv. rewrite Hp by done. intros H0. rewrite Ed, En. destruct (T2 pl Hv H0). auto.
    + intros pl pl' Hv Hv'. fold (ptr s' j pl) (ptr s' j pl'). rewrite Ep in Hv, Hv'. rewrite !Hp by done. by apply T3.
  - by rewrite Km, lookup_insert_ne.
  - intros x Hx. assert (0 <= x / block_bytes s) by (apply Z.div_pos; lia). unfold fbyte, fptr. rewrite Ebb, Ep.
    destruct (x / block_bytes s <? _) eqn:E; [|done]. assert (valid (ppb s) (Data (x / block_bytes s))) as Hv by (cbn; blia).
    rewrite Hp by done. destruct (_ =? 0) eqn:E0; [done|]. f_equal. apply Hb. exists (Data (x / block_bytes s)).
    split; [done|]. split; [done|blia].
  - intros l (pl & Hv & El & H0). rewrite Ep in Hv. rewrite Hp in El by done. apply Hb. by exists pl.
Qed.
End others.

(** C6: a write to a file is read back. Within the reach of the block map,
    [myfs_node_write] either writes all the bytes, or fails with -1, and then
    the disk is full: at most one data block is free. After a success
    [myfs_node_read] of the range returns the bytes written, the size covers
    them, and the bytes of the old blocks outside the range are the same. After
    a failure the file's size and bytes are the same, though it may have more
    blocks than before. Either way any other file keeps its contents and shares
    no block with the one written, and the file is ready for the next
    operation. *)
Theorem myfs_write_read `{BD : BlockDevice D} (s : myfs D) p i off bytes count q j :
  opened s p i → is_u32 off → 0 < count <= blen bytes → bytes_ok bytes → fits s (off + count) →
  file s q j → q ≠ p → disjoint_files s i j →
  wp (myfs_node_write p off bytes count) s (λ r s', ∃ i', opened s' p i' ∧
    (r = count ∧ size i' = Z.max (size i) (off + count) ∧
       wp (myfs_node_read p off (replicate (Z.to_nat count) 0) count) s' (λ rb s'', s'' = s' ∧
         rb = (count, take (Z.to_nat count) bytes)) ∨
     r = -1 ∧ nearly_full s' ∧ size i' = size i ∧ block_count i <= block_count i') ∧
    (∀ x, 0 <= x < block_bytes s * block_count i → ¬ (r = count ∧ off <= x < off + count) →
       fbyte s' i' x = fbyte s i x) ∧
    file s' q j ∧ (∀ x, 0 <= x → fbyte s' j x = fbyte s j x) ∧ disjoint_files s' i' j).
Proof.
  intros O Ho Hc Hok Hfit Hq Hne Hdis. pose proof Hfit as [_ Hov]. pose proof (bb_range _ (fl_fs _ _ _ (op_file _ _ _ O))) as Hbb.
  apply (wp_node_write s p i); [done..| |].
  - intros s' i' O' K Hsz _ _ Hin Hout. exists i'. split; [done|].
    pose proof (fl_fs _ _ _ (op_file _ _ _ O')) as Hf'. split; [left|split; [|by apply (kept_other s p i)]].
    + split; [done|]. split; [done|]. pose proof (op_held _ _ _ O') as Hh.
      destruct (inode_ok_meta _ (he_ok _ _ _ Hh)) as [Hw _]. rewrite !Forall_cons in Hw.
      assert (blen (replicate (Z.to_nat count) 0) = count) as Hlen by (unfold blen; rewrite length_replicate; lia).
      assert (Z.max 0 (Z.min count (size i' - off)) = count) as Hn by lia.
      apply (wp_node_read s' p i'); [apply O'| |tauto|done|lia|lia|rewrite Hlen; lia|].
      { apply (co_mem _ (op_cache _ _ _ O') _ _ (he_cached _ _ _ Hh)). }
      rewrite Hn. intros out' Lo Hbytes. split; [done|]. f_equal. rewrite Hlen in Lo, Hbytes.
      apply bget_ext; [unfold blen in *; rewrite length_take; lia|]. rewrite Lo. intros k Hk.
      rewrite Hbytes by done. rewrite (proj2 (Z.ltb_lt k _)) by lia. rewrite Hin by lia.
      unfold bget. rewrite lookup_take_lt by lia. do 2 f_equal. lia.
    + intros x Hx Hn. apply Hout; [done|]. intros Hi. by apply Hn.
  - intros s' i' O' K Hsz Hbc Hnf Hout. exists i'. split; [done|].
    pose proof (fl_fs _ _ _ (op_file _ _ _ O')) as Hf'. split; [by right|]. split; [|by apply (kept_other s p i)].
    intros x Hx _. by apply Hout.
Qed.

(** The file system of [demo_dirty] with a second file, in block 8. *)
Definition demo_other : MyfsInode := Inode 2 (8 :: replicate 9 0) 0 0 1 5 S_IFREG 1 1 0 0 420 0 0 0 0.
Definition demo_two : myfs ramdisk := set_inodes {[5 := with_dirty 1 demo_inode; 6 := demo_other]} demo_fs.

Lemma demo_two_fs : fs_ok demo_two.
Proof. exact (fs_ok_inodes _ _ demo_fs_ok). Qed.

(** An inode without blocks at address 5. *)
Lemma demo_open m i :
  same_map demo_inode i → i_ino i = 1 → ref_count i = 1 → block_count i = 0 → inode_ok i → m !! 5 = Some i →
  opened (set_inodes m demo_fs) 5 i.
Proof.
  intros Hsm Hi Hr Hc Hok Hm.
  assert (∀ pl, ptr (set_inodes m demo_fs) i pl = 0) as Hp.
  { intros pl. rewrite (same_map_ptr _ demo_inode i) by done. exact (demo_ptr pl). }
  assert (∀ ino q, q ∈ bucket (set_inodes m demo_fs) ino → q = 5 ∧ INODE_HASH ino = 1) as Hb by exact demo_bucket.
  split.
  - split; [exact (fs_ok_inodes _ _ demo_fs_ok)| |done]. split; [apply Hok| |].
    + intros pl _ H. by rewrite Hp in H.
    + intros pl pl' _ _ H. by rewrite (Hp pl : at_ _ _ _ pl = 0) in H.
  - split; [done|rewrite Hi; by apply list_elem_of_singleton|by rewrite Hr|rewrite Hi; by vm_compute|by rewrite Hi|done].
  - split; [done| |].
    + intros ino q Hq. destruct (Hb ino q Hq) as [-> _]. split; [done|]. by exists i.
    + intros ino q q' i1 i2 Hq Hq' _ _ _. destruct (Hb ino q Hq) as [-> _], (Hb ino q' Hq') as [-> _]. done.
  - exact (layout_eq demo_dirty (set_inodes m demo_fs) eq_refl eq_refl eq_refl demo_layout).
  - split; [by rewrite Hc; vm_compute|]. rewrite Hc. lia.
Qed.

Lemma demo_other_ptr pl : valid 128 pl → ptr demo_two demo_other pl = if decide (pl = Data 0) then 8 else 0.
Proof.
  intros Hv. destruct pl as [| |m|j]; [done|done|done|]. unfold ptr, at_. destruct (j <? 10) eqn:E.
  - cbn [valid] in Hv. destruct (decide (j = 0)) as [->|Hj]; [reflexivity|]. rewrite decide_False by congruence.
    change (block_ptrs demo_other) with (8 :: replicate 9 0). replace (Z.to_nat j) with (S (Z.to_nat (j - 1))) by lia.
    cbn [lookup list_lookup]. change (default 0 (replicate 9 0 !! Z.to_nat (j - 1)) = 0).
    destruct (replicate 9 0 !! Z.to_nat (j - 1)) as [x|] eqn:E2; [|done]. by apply lookup_replicate_1 in E2 as [-> _].
  - rewrite decide_False by (intros H; injection H as ->; discriminate). by destruct (j - 10 <? _).
Qed.

Lemma demo_other_file : file demo_two 6 demo_other.
Proof.
  split; [exact demo_two_fs| |reflexivity]. split; [done| |].
  - intros pl Hv. rewrite (demo_other_ptr pl Hv). destruct (decide (pl = Data 0)); [|done]. intros _. by vm_compute.
  - intros pl pl' Hv Hv'. fold (ptr demo_two demo_other pl) (ptr demo_two demo_other pl').
    rewrite (demo_other_ptr pl Hv), (demo_other_ptr pl' Hv'). destruct (decide (pl = Data 0)) as [->|], (decide (pl' = Data 0)); done.
Qed.

Lemma demo_opened : opened demo_two 5 (with_dirty 1 demo_inode).
Proof. apply demo_open; try done. apply (he_ok _ _ _ demo_held). Qed.

Lemma myfs_write_read_witness :
  wp (myfs_node_write 5 3 [1; 2; 3] 3) demo_two (λ r s', r = 3 ∧
    wp (myfs_node_read 5 3 [0; 0; 0] 3) s' (λ rb _, rb = (3, [1; 2; 3]))).
Proof.
  assert (disjoint_files demo_two (with_dirty 1 demo_inode) demo_other) as Hd.
  { intros l _ (pl & _ & E & H). rewrite (demo_ptr pl : ptr demo_two (with_dirty 1 demo_inode) pl = 0) in E. done. }
  pose proof (myfs_write_read demo_two 5 (with_dirty 1 demo_inode) 3 [1; 2; 3] 3 6 demo_other demo_opened ltac:(ulia)
    ltac:(by vm_compute) ltac:(by apply bytes_ok_check) ltac:(by vm_compute) demo_other_file ltac:(done) Hd) as H.
  assert (from_option fst 0 (myfs_node_write 5 3 [1; 2; 3] 3 demo_two) = 3) as Hrun by (vm_compute; reflexivity).
  apply wp_elim in H as (r & s' & E & i' & _ & Hr & _). rewrite E in Hrun. cbn in Hrun. subst r.
  apply (wp_intro _ _ 3 s'); [exact E|]. split; [reflexivity|].
  destruct Hr as [(_ & _ & Hrd)|[Hr _]]; [|discriminate Hr]. eapply wp_mono; [exact Hrd|]. intros rb s'' [_ Hb]. exact Hb.
Defined.
