(* ===== verification/MyfsDir.v ===== *)
(** * MyFS: directories

    A directory is a file of 36-byte entries. Read through its contents it is
    an association list from names to inode numbers: [myfs_lookup] searches it
    and [myfs_dir_add_entry] appends to it. *)

From S2P Require Import Prelude Bitmap Buf Disk Myfs MyfsBlocks MyfsMap MyfsInode MyfsFile.

(* ------------------------------------------------------------------ *)
(** ** Entries *)

(** The C string at the start of a buffer. *)
Fixpoint cname (b : buf) : buf :=
  match b with
  | [] => []
  | c :: b => if c =? 0 then [] else c :: cname b
  end.

Definition ename (e : buf) : buf := cname (take 32 e).
Definition enum (e : buf) : Z := le_val (take 4 (drop 32 e)).

(** Names that fit an entry. *)
Definition name_ok (name : buf) : Prop := Forall (λ c, 0 < c < 256) name ∧ (length name <= 31)%nat.

(** The first pair with the key, in an association list. *)
Fixpoint assoc (name : buf) (l : list (buf * Z)) : option Z :=
  match l with
  | [] => None
  | (n, v) :: l => if decide (n = name) then Some v else assoc name l
  end.

Lemma assoc_app name l1 l2 : assoc name (l1 ++ l2) = match assoc name l1 with Some v => Some v | None => assoc name l2 end.
Proof. induction l1 as [|[n v] l1 IH]; [done|]. cbn. by destruct (decide (n = name)). Qed.

Lemma cname_take k b : 0 ∈ take k b → cname (take k b) = cname b.
Proof.
  revert b. induction k as [|k IH]; intros [|c b] H; [by apply not_elem_of_nil in H..|]. cbn in *.
  destruct (c =? 0) eqn:E; [done|]. f_equal. apply IH. apply elem_of_cons in H as [H|H]; [blia|done].
Qed.

Lemma cname_padded name rest : Forall (λ c, 0 < c < 256) name → cname (name ++ 0 :: rest) = name.
Proof. induction 1 as [|c l Hc _ IH]; [done|]. cbn. rewrite (proj2 (Z.eqb_neq c 0)) by lia. by rewrite IH. Qed.

(** The comparison of a name with the string at [off]. *)
Lemma strcmp_eq_correct name off b :
  Forall (λ c, 0 < c < 256) name → 0 <= off → off + Z.of_nat (length name) < blen b →
  strcmp_eq name off b = Some (bool_decide (cname (drop (Z.to_nat off) b) = name), b).
Proof.
  intros Hn. revert off. induction Hn as [|c name Hc Hn IH]; intros off Ho Hb; cbn [length] in Hb.
  - cbn [strcmp_eq]. unfold bind. rewrite b8_byte by lia.
    destruct (lookup_lt_is_Some_2 b (Z.to_nat off)) as [x Hx]; [unfold blen in Hb; lia|].
    rewrite Hx, (drop_S b x _ Hx). cbn. unfold ret. destruct (x =? 0); [by rewrite bool_decide_true|by rewrite bool_decide_false].
  - cbn [strcmp_eq]. unfold bind. rewrite b8_byte by lia.
    destruct (lookup_lt_is_Some_2 b (Z.to_nat off)) as [x Hx]; [unfold blen in Hb; lia|].
    rewrite Hx, (drop_S b x _ Hx). cbn [default id cname]. destruct (x =? c) eqn:E.
    + assert (x = c) as -> by blia. rewrite (proj2 (Z.eqb_neq c 0)) by lia. rewrite IH by lia.
      replace (Z.to_nat (off + 1)) with (S (Z.to_nat off)) by lia. do 2 f_equal.
      apply bool_decide_ext. split; [by intros ->|congruence].
    + unfold ret. rewrite bool_decide_false; [done|]. destruct (x =? 0); [done|]. intros H. simplify_eq. blia.
Qed.

(** The entry with index [k] in a buffer. *)
Definition bentry (b : buf) (k : Z) : buf := take 36 (drop (Z.to_nat (36 * k)) b).
Definition blist (b : buf) (n : Z) : list (buf * Z) := (λ k, (ename (bentry b k), enum (bentry b k))) <$> seqZ 0 n.

(** Every entry holds a terminated name. *)
Definition terminated (b : buf) (n : Z) : Prop := ∀ k, 0 <= k < n → 0 ∈ take 32 (bentry b k).

Lemma entry_name b n k : terminated b n → 0 <= k < n → cname (drop (Z.to_nat (36 * k)) b) = ename (bentry b k).
Proof.
  intros Ht Hk. specialize (Ht k Hk). unfold ename, bentry in *. rewrite take_take in *.
  replace (Init.Nat.min 32 36) with 32%nat in * by done. by rewrite cname_take.
Qed.

Lemma assoc_none name b n :
  (∀ k, 0 <= k < n → ename (bentry b k) ≠ name) → assoc name (blist b n) = None.
Proof.
  unfold blist. intros H. assert (∀ l, (∀ k, k ∈ l → 0 <= k < n) →
    assoc name ((λ k, (ename (bentry b k), enum (bentry b k))) <$> l) = None) as Hl.
  { induction l as [|k l IH]; intros Hin; [done|]. cbn. rewrite decide_False by (apply H, Hin; left). apply IH.
    intros k' Hk'. apply Hin. by right. }
  apply Hl. intros k Hk%elem_of_seqZ. lia.
Qed.

Lemma assoc_first name b n k :
  0 <= k < n → (∀ k', 0 <= k' < k → ename (bentry b k') ≠ name) → ename (bentry b k) = name →
  assoc name (blist b n) = Some (enum (bentry b k)).
Proof.
  intros Hk Hbefore Hk'. unfold blist. replace n with (k + (n - k)) by lia. rewrite seqZ_app by lia.
  rewrite fmap_app, assoc_app. fold (blist b k). rewrite assoc_none by done.
  rewrite seqZ_cons by lia. cbn. by rewrite decide_True.
Qed.

(** The search: the index of the first entry with the name, or -1. *)
Lemma wp_entry_idx_find b n name (Q : Z → buf → Prop) :
  name_ok name → terminated b n → 0 <= n → 36 * n <= blen b →
  (assoc name (blist b n) = None → Q (-1) b) →
  (∀ k, 0 <= k < n → assoc name (blist b n) = Some (enum (bentry b k)) → Q k b) →
  wp (myfs_entry_idx_find n name) b Q.
Proof.
  intros [Hnz Hlen] Ht Hn Hb Hnone Hsome. unfold myfs_entry_idx_find. wp_step.
  apply (wp_scan_range (λ k s, s = b ∧ ∀ k', 0 <= k' < k → ename (bentry b k') ≠ name)).
  - split; [done|]. intros k' Hk'. lia.
  - intros k s Hk [-> Hbefore]. wp_step. unfold sizeof_dirent.
    eapply wp_intro; [apply strcmp_eq_correct; [done|lia|lia]|]. wp_step. rewrite (entry_name b n) by done.
    case_bool_decide as E.
    + wp_step. apply (Hsome k); [done|]. by apply assoc_first.
    + split; [done|]. intros k' Hk'. destruct (decide (k' = k)) as [->|]; [done|]. apply Hbefore. lia.
  - intros s [-> Hall]. wp_step. apply Hnone. apply assoc_none. intros k Hk. apply Hall. lia.
Qed.

(** The entry that [myfs_dir_add_entry] writes. *)
Lemma new_entry_name name num :
  name_ok name → new_entry name num = name ++ replicate (32 - length name) 0 ++ le_of 4 num.
Proof.
  intros [_ Hl]. unfold new_entry. rewrite (take_ge name) by lia. rewrite app_assoc. f_equal.
  rewrite take_app. rewrite take_ge by lia. f_equal. rewrite take_replicate. f_equal. lia.
Qed.

Lemma new_entry_len name num : name_ok name → blen (new_entry name num) = 36.
Proof.
  intros Hn. rewrite new_entry_name by done. destruct Hn as [_ Hl]. rewrite !blen_app. unfold blen.
  rewrite length_replicate, length_le_of. lia.
Qed.

Lemma new_entry_ok name num : name_ok name → bytes_ok (new_entry name num).
Proof.
  intros Hn. rewrite new_entry_name by done. destruct Hn as [Hz _]. repeat (apply Forall_app; split).
  - eapply Forall_impl; [exact Hz|]. intros c Hc. ulia.
  - by apply Forall_replicate.
  - apply le_of_ok.
Qed.

Lemma new_entry_head name num : name_ok name → take 32 (new_entry name num) = name ++ 0 :: replicate (31 - length name) 0.
Proof.
  intros Hn. rewrite new_entry_name by done. destruct Hn as [_ Hl]. rewrite app_assoc, take_app_length'.
  - replace (32 - length name)%nat with (S (31 - length name)) by lia. done.
  - rewrite length_app, length_replicate. lia.
Qed.

Lemma new_entry_fields name num :
  name_ok name → is_u32 num → ename (new_entry name num) = name ∧ enum (new_entry name num) = num ∧
  0 ∈ take 32 (new_entry name num).
Proof.
  intros Hn Hu. pose proof (new_entry_head name num Hn) as Hh. split; [|split].
  - unfold ename. rewrite Hh. apply cname_padded, Hn.
  - unfold enum. rewrite new_entry_name by done. destruct Hn as [_ Hl].
    rewrite app_assoc, drop_app_length' by (rewrite length_app, length_replicate; lia). by apply (le_val_of 4).
  - rewrite Hh. apply elem_of_app. right. left.
Qed.

(** A buffer with one more entry. *)
Section append.
Variables (c e : buf) (n : Z).
Hypothesis (Hn : 0 <= n) (Hc : blen c = 36 * n) (He : blen e = 36).

Lemma bentry_old k : 0 <= k < n → bentry (c ++ e) k = bentry c k.
Proof using All.
  intros Hk. unfold bentry, blen in *. rewrite drop_app_le by lia. rewrite take_app_le; [done|]. rewrite length_drop. lia.
Qed.

Lemma bentry_new : bentry (c ++ e) n = e.
Proof using All.
  unfold bentry, blen in *. rewrite drop_app_length' by lia. by rewrite take_ge by lia.
Qed.

Lemma blist_append : blist (c ++ e) (n + 1) = blist c n ++ [(ename e, enum e)].
Proof using All.
  unfold blist. rewrite seqZ_app by lia. rewrite fmap_app. f_equal.
  - apply list_fmap_ext. intros m k Hk. apply lookup_seqZ in Hk as [-> Hk]. by rewrite bentry_old by lia.
  - assert (seqZ (0 + n) 1 = [n]) as -> by (unfold seqZ; cbn; f_equal; lia). cbn [fmap list_fmap]. by rewrite bentry_new.
Qed.

Lemma terminated_append : terminated c n → 0 ∈ take 32 e → terminated (c ++ e) (n + 1).
Proof using All.
  intros Ht Hz k Hk. destruct (decide (k = n)) as [->|]; [by rewrite bentry_new|]. rewrite bentry_old by lia. apply Ht. lia.
Qed.
End append.

Lemma bget_app_l a b k : 0 <= k < blen a → bget (a ++ b) k = bget a k.
Proof. intros H. unfold bget, blen in *. by rewrite lookup_app_l by lia. Qed.
Lemma bget_app_r a b k : blen a <= k → bget (a ++ b) k = bget b (k - blen a).
Proof. intros H. unfold bget, blen in *. rewrite lookup_app_r by lia. do 2 f_equal. lia. Qed.

Section dirs.
Context {D : Type} {BD : BlockDevice D}.
Notation F := (myfs D).

(** The contents of a file. *)
Definition contents (s : F) (i : MyfsInode) : buf := fbyte s i <$> seqZ 0 (size i).

Lemma contents_len s i : 0 <= size i → blen (contents s i) = size i.
Proof. intros H. unfold contents, blen. rewrite length_fmap, length_seqZ. lia. Qed.

Lemma contents_byte s i k : 0 <= k < size i → bget (contents s i) k = fbyte s i k.
Proof.
  intros Hk. unfold bget, contents. rewrite list_lookup_fmap, lookup_seqZ_lt by lia. cbn. f_equal. lia.
Qed.

(** A directory: whole entries with terminated names, in blocks of the inode. *)
Definition dir_count (i : MyfsInode) : Z := size i / sizeof_dirent.
Record dir_ok (s : F) (i : MyfsInode) : Prop := {
  di_mode : S_ISDIR (mode i) = true;
  di_size : 0 <= size i < 2147483648;
  di_whole : size i mod sizeof_dirent = 0;
  di_room : size i <= block_bytes s * block_count i;
  di_names : terminated (contents s i) (dir_count i)
}.

(** The association list that a directory stands for. *)
Definition dir_list (s : F) (i : MyfsInode) : list (buf * Z) := blist (contents s i) (dir_count i).

Lemma opened_allocated s p i : opened s p i → opened (allocated s) p i.
Proof.
  intros [[H [T1 T2 T3] Hp] [H1 H2 H3 H4 H5 H6] [C1 C2 C3] [L1 L2 L3 L4 L5 L6] Hd]. split; [|by split|by split|by split|done].
  split; [by apply fs_ok_allocated|by split|done].
Qed.

Lemma opened_nonzero s p i : opened s p i → p ≠ 0.
Proof. intros [_ Hh C _ _]. by apply (co_mem _ C _ _ (he_cached _ _ _ Hh)). Qed.

Lemma memory_le (s : F) n : memory s (S n) → memory s n.
Proof.
  unfold memory. intros H. apply (Forall_take _ n) in H. by rewrite take_take, Nat.min_l in H by lia.
Qed.

Lemma wp_kmalloc_bytes s n k (Q : option buf → F → Prop) :
  memory s (S n) → 0 <= k → (∀ b, memory (allocated s) n → blen b = k → Q (Some b) (allocated s)) → wp (kmalloc_bytes k) s Q.
Proof.
  intros Hm Hk HQ. unfold kmalloc_bytes. wp_step. apply (wp_kmalloc s n); [done|]. intros Hm'. cbn iota.
  wp_step. apply wp_junk_bytes. intros b Hb. wp_step. apply HQ; [done|lia].
Qed.

(** Reading the whole of a directory into memory from the heap. *)
Lemma wp_read_all s p i b (Q : Z * buf → F → Prop) :
  opened s p i → 0 <= size i < 2147483648 → blen b = size i →
  Q (size i, contents s i) s → wp (myfs_node_read p 0 b (size i)) s Q.
Proof.
  intros O Hs Hb HQ. apply (wp_node_read s p i); [apply O|by apply (opened_nonzero s p i)|ulia|ulia|lia|lia|lia|].
  intros out' Lo Hbytes. replace (Z.max 0 (Z.min (size i) (size i - 0))) with (size i) in * by lia.
  replace out' with (contents s i); [done|]. apply bget_ext; [rewrite contents_len by lia; lia|].
  rewrite contents_len by lia. intros k Hk. rewrite contents_byte by lia. rewrite Hbytes by lia.
  by rewrite (proj2 (Z.ltb_lt k _)) by lia.
Qed.

Lemma dir_count_range i : 0 <= size i → 0 <= dir_count i ∧ 36 * dir_count i <= size i.
Proof. unfold dir_count, sizeof_dirent. lia. Qed.

(** The inode number of an entry. *)
Lemma b32_enum b n k :
  0 <= k < n → 36 * n <= blen b → b32 (36 * k + 32) b = Some (enum (bentry b k), b).
Proof.
  intros Hk Hb. unfold b32, get_bytes, bind. rewrite sub_bytes_is_Some by lia. unfold ret. do 3 f_equal.
  unfold enum, bentry. replace (Z.to_nat (36 * k + 32)) with (Z.to_nat (36 * k) + 32)%nat by lia.
  rewrite <- drop_drop, skipn_firstn_comm, take_take. done.
Qed.

Lemma wp_lookup s p i name (Q : option Z → F → Prop) n :
  opened s p i → dir_ok s i → name_ok name → memory s (S n) →
  (∀ s', (s' = s ∨ s' = allocated s) → memory s' n → Q (assoc name (dir_list s i)) s') →
  wp (myfs_lookup p name) s Q.
Proof.
  intros O [Dm Ds Dw Dr Dn] Hname Hmem HQ. pose proof (opened_nonzero _ _ _ O) as Hp0. pose proof O as [[H T Hp] _ _ _ _].
  unfold myfs_lookup. rewrite (proj2 (Z.eqb_neq p 0)) by done. wp_step. eapply wp_inode; [done|]. rewrite Dm. cbn [negb].
  destruct (size i =? 0) eqn:E.
  { wp_step. assert (assoc name (dir_list s i) = None) as Ha.
    { unfold dir_list, dir_count. assert (size i = 0) as -> by blia. done. }
    rewrite <- Ha. apply HQ; [by left|]. by apply memory_le. }
  wp_step. apply (wp_kmalloc_bytes s n); [done|lia|]. intros b Hm' Hb. pose proof (opened_allocated _ _ _ O) as O'.
  wp_step. apply (wp_read_all (allocated s) p i); [done..|]. change (contents (allocated s) i) with (contents s i).
  rewrite s32_small by lia. rewrite (proj2 (Z.ltb_ge _ 0)) by lia. destruct (dir_count_range i) as [Hc Hc']; [lia|].
  fold (dir_count i). wp_step. apply wp_peek. apply wp_entry_idx_find; [done|done|done|rewrite contents_len; lia| |].
  - intros Ha. change (-1 =? -1) with true. cbn iota. wp_step. fold (dir_list s i) in Ha. rewrite <- Ha. apply HQ; [by right|done].
  - intros k Hk Ha. rewrite (proj2 (Z.eqb_neq k (-1))) by lia. wp_step. apply wp_peek. unfold sizeof_dirent.
    eapply wp_intro; [apply (b32_enum _ (dir_count i)); [done|rewrite contents_len; lia]|]. wp_step.
    fold (dir_list s i) in Ha. rewrite <- Ha. apply HQ; [by right|done].
Qed.

(** What the directory has become: the same list, or one with a new entry. *)
Lemma contents_same s i s' i' :
  dir_ok s i → size i' = size i → (∀ x, 0 <= x < block_bytes s * block_count i → fbyte s' i' x = fbyte s i x) →
  contents s' i' = contents s i.
Proof.
  intros [_ Ds _ Dr _] Hsz Hb. apply bget_ext; [rewrite !contents_len; lia|]. rewrite contents_len by lia. intros k Hk.
  rewrite !contents_byte by lia. apply Hb. lia.
Qed.

Lemma contents_append s i s' i' e :
  dir_ok s i → size i' = size i + blen e →
  (∀ x, size i <= x < size i + blen e → fbyte s' i' x = bget e (x - size i)) →
  (∀ x, 0 <= x < block_bytes s * block_count i → ¬ size i <= x < size i + blen e → fbyte s' i' x = fbyte s i x) →
  contents s' i' = contents s i ++ e.
Proof.
  intros [_ Ds _ Dr _] Hsz Hin Hout. pose proof (blen_nonneg e).
  apply bget_ext; [rewrite blen_app, !contents_len by lia; lia|]. rewrite contents_len by lia.
  intros k Hk. rewrite contents_byte by lia. destruct (decide (k < size i)).
  - rewrite bget_app_l by (rewrite contents_len; lia). rewrite contents_byte by lia. apply Hout; lia.
  - rewrite bget_app_r by (rewrite contents_len; lia). rewrite contents_len by lia. apply Hin. lia.
Qed.

Lemma wp_dir_add_entry s p i name num (Q : Z → F → Prop) n :
  opened s p i → dir_ok s i → name_ok name → is_u32 num → memory s (S n) →
  fits s (size i + 36) → size i + 36 < 2147483648 →
  (∀ r s' i', opened s' p i' → dir_ok s' i' → memory s' n →
     (r = 36 ∧ assoc name (dir_list s i) = None ∧ dir_list s' i' = dir_list s i ++ [(name, num)] ∨
      r = -1 ∧ dir_list s' i' = dir_list s i ∧ (is_Some (assoc name (dir_list s i)) ∨ nearly_full s')) → Q r s') →
  wp (myfs_dir_add_entry p name num) s Q.
Proof.
  intros O Hd Hname Hnum Hmem Hfit Hmax HQ. pose proof (opened_nonzero _ _ _ O) as Hp0. pose proof O as [[H T Hp] _ _ _ _].
  pose proof Hd as [Dm Ds Dw Dr Dn]. unfold sizeof_dirent in *.
  unfold myfs_dir_add_entry. rewrite (proj2 (Z.eqb_neq p 0)) by done. wp_step. eapply wp_inode; [done|]. rewrite Dm. cbn [negb].
  wp_step. apply (wp_lookup s p i name _ n); [done..|]. intros s1 Hs1 Hm1.
  assert (opened s1 p i ∧ dir_ok s1 i ∧ dir_list s1 i = dir_list s i ∧ fits s1 (size i + 36)) as (O1 & Hd1 & El & Hfit1).
  { destruct Hs1 as [->| ->]; [done|]. split; [by apply opened_allocated|]. split; [by split|]. done. }
  destruct (assoc name (dir_list s i)) as [v|] eqn:Ea.
  { wp_step. apply (HQ _ s1 i); [done..|]. right. rewrite El. split_and!; [done|done|left; by eexists]. }
  assert (0 <= size i) as Hs0 by lia. wp_step.
  apply (wp_node_write s1 p i); [done|ulia|rewrite new_entry_len by done; unfold sizeof_dirent; lia|by apply new_entry_ok|done| |].
  - intros s' i' O' K Hsz Hroom Hbc Hin Hout. wp_step. unfold sizeof_dirent in *. rewrite s32_small by lia.
    pose proof (new_entry_len name num Hname) as Le. destruct (new_entry_fields name num Hname Hnum) as (Fn & Fv & Fz).
    assert (contents s' i' = contents s1 i ++ new_entry name num) as Hc.
    { apply contents_append; rewrite ?Le; [done|lia|done|done]. }
    assert (dir_count i' = dir_count i + 1) as Ec by (unfold dir_count, sizeof_dirent; lia).
    assert (blen (contents s1 i) = 36 * dir_count i) as Lc by (rewrite contents_len by lia; unfold dir_count, sizeof_dirent; lia).
    destruct (core_disk _ _ (kp_core _ _ _ _ _ K)) as [_ Ebb]. pose proof (dir_count_range i Hs0) as [Hc0 _].
    apply (HQ _ s' i'); [done| | |].
    + split; [by rewrite (proj1 (proj2 (kp_meta _ _ _ _ _ K)))|lia|unfold sizeof_dirent; lia|rewrite Ebb; lia|].
      rewrite Hc, Ec. apply terminated_append; [done..|apply Hd1|done].
    + unfold memory in *. pose proof (kp_core _ _ _ _ _ K) as Kc. unfold core in Kc. injection Kc as _ _ _ _ _ _ Ea' _ _. by rewrite Ea'.
    + left. split; [lia|]. split; [done|]. unfold dir_list in *. rewrite Hc, Ec, blist_append by done. by rewrite Fn, Fv, <- El.
  - intros s' i' O' K Hsz Hbc Hnf Hout. wp_step. rewrite s32_small by lia.
    assert (contents s' i' = contents s1 i) as Hc by (by apply contents_same).
    destruct (core_disk _ _ (kp_core _ _ _ _ _ K)) as [_ Ebb]. pose proof (bb_range _ (fl_fs _ _ _ (op_file _ _ _ O1))).
    apply (HQ _ s' i'); [done| | |].
    + split; [by rewrite (proj1 (proj2 (kp_meta _ _ _ _ _ K)))|lia|unfold sizeof_dirent; lia| |].
      * rewrite Ebb, Hsz. destruct Hd1 as [_ _ _ Dr1 _]. nia.
      * unfold dir_count. rewrite Hc, Hsz. apply Hd1.
    + unfold memory in *. pose proof (kp_core _ _ _ _ _ K) as Kc. unfold core in Kc. injection Kc as _ _ _ _ _ _ Ea' _ _. by rewrite Ea'.
    + right. split; [done|]. split; [unfold dir_list, dir_count in *; by rewrite Hc, Hsz|by right].
Qed.
End dirs.

(** C7: a directory is a map from names to inode numbers. For a name of at most
    31 characters, [myfs_dir_add_entry] either appends an entry, which was not
    there before, and [myfs_lookup] then finds the number under the name; or it
    fails with -1, because the name is there or the disk is full (at most one
    data block is free), and every name is found as before. Other names are
    found as before in both cases, and the directory is well-formed for the
    next operation. *)
Theorem myfs_directory_map `{BD : BlockDevice D} (s : myfs D) p i name num :
  opened s p i → dir_ok s i → name_ok name → is_u32 num → memory s 2 →
  fits s (size i + 36) → size i + 36 < 2147483648 →
  wp (myfs_dir_add_entry p name num) s (λ r s', ∃ i', opened s' p i' ∧ dir_ok s' i' ∧
    (r = 36 ∧ wp (myfs_lookup p name) s (λ f _, f = None) ∧ wp (myfs_lookup p name) s' (λ f _, f = Some num) ∨
     r = -1 ∧ (wp (myfs_lookup p name) s (λ f _, is_Some f) ∨ nearly_full s')) ∧
    (∀ name', name_ok name' → (r = 36 → name' ≠ name) →
       wp (myfs_lookup p name') s' (λ f _, wp (myfs_lookup p name') s (λ f0 _, f = f0)))).
Proof.
  intros O Hd Hn Hu Hm Hf Hs. apply (wp_dir_add_entry s p i name num _ 1); [done..|].
  intros r s' i' O' Hd' Hm' Hr. exists i'. split; [done|]. split; [done|]. split.
  - destruct Hr as [(-> & Ha & El)|(-> & _ & Hwhy)]; [left|right].
    2:{ split; [done|]. destruct Hwhy as [Hs1|]; [left|by right]. apply (wp_lookup s p i name _ 1); [done..|]. intros s1 _ _. done. }
    split; [done|]. split.
    + apply (wp_lookup s p i name _ 1); [done..|]. intros s1 _ _. done.
    + apply (wp_lookup s' p i' name _ 0); [done..|]. intros s1 _ _. rewrite El, assoc_app, Ha. cbn. by rewrite decide_True.
  - intros name' Hn' Hne. apply (wp_lookup s' p i' name' _ 0); [done..|]. intros s1 _ _.
    apply (wp_lookup s p i name' _ 1); [done..|]. intros s2 _ _.
    destruct Hr as [(-> & _ & El)|(-> & El & _)]; rewrite El; [|done]. rewrite assoc_app. cbn.
    rewrite decide_False by (intros ->; by apply Hne). by destruct (assoc name' _).
Qed.

(** An empty directory. *)
Definition demo_dir : MyfsInode := Inode 1 (replicate 10 0) 0 0 0 0 S_IFDIR 1 1 0 0 493 0 0 0 0.
Definition demo_dirs : myfs ramdisk := set_inodes {[5 := demo_dir]} demo_fs.

Lemma myfs_directory_map_witness :
  wp (myfs_dir_add_entry 5 [97; 98] 7) demo_dirs (λ r s', r = 36 ∧
    wp (myfs_lookup 5 [97; 98]) s' (λ f _, f = Some 7) ∧ wp (myfs_lookup 5 [97]) s' (λ f _, f = None)).
Proof.
  assert (opened demo_dirs 5 demo_dir) as O.
  { apply demo_open; try done. split; [done|by repeat constructor|by repeat constructor|by repeat constructor]. }
  assert (dir_ok demo_dirs demo_dir) as Hd.
  { split; [done|by vm_compute|done|by vm_compute|]. intros k Hk. change (dir_count demo_dir) with 0 in Hk. lia. }
  pose proof (myfs_directory_map demo_dirs 5 demo_dir [97; 98] 7 O Hd ltac:(split; [by repeat constructor|cbn; lia])
    ltac:(ulia) (Forall_nil_2 _) ltac:(by vm_compute) ltac:(by vm_compute)) as H.
  assert (from_option fst 0 (myfs_dir_add_entry 5 [97; 98] 7 demo_dirs) = 36) as Hrun by (vm_compute; reflexivity).
  apply wp_elim in H as (r & s' & E & i' & _ & _ & Hr & Hother). rewrite E in Hrun. cbn in Hrun. subst r.
  apply (wp_intro _ _ 36 s'); [exact E|]. split; [reflexivity|].
  destruct Hr as [(_ & _ & Hf)|[Hr _]]; [|discriminate Hr]. split; [exact Hf|].
  eapply wp_mono; [apply (Hother [97]); [split; [by repeat constructor|cbn; lia]|discriminate]|].
  intros f s1 Hf1. exact Hf1.
Defined.
