(* ===== verification/Vfs.v ===== *)
(** * The virtual file system

    [kernel/src/fs/vfs.c], the descriptor table of [fs/fd.c], the system calls
    of [fs/sys_fs.c] and the working directory ([sys_cwd.c]).

    Vnodes, superblocks and open files are heap objects found by address; using
    one that was freed, or a null pointer, is a fault. The operations tables of
    the file systems and devices are found by address too: the class [Drivers]
    says what is behind each of them. A file system's operations run in the
    same state, where [drv] is what the drivers own.

    Strings are the bytes before their null byte. A path is resolved by
    [vfs_walk], which calls [vfs_lookup_path] again at an absolute symbolic
    link; [kstack] is how many such calls fit on the kernel stack. *)

From S2P Require Import Prelude Buf Myfs.

Notation str := (list Z).

Definition PATH_LEN_MAX : Z := 256.
Definition MAX_SYMLINK_DEPTH : Z := 40.
Definition MAX_FD : Z := 64.
Definition O_RDONLY : Z := 0.
Definition O_WRONLY : Z := 1.
Definition O_RDWR : Z := 2.
Definition O_ACCMODE : Z := 3.
Definition O_CREAT : Z := 64.
Definition O_EXCL : Z := 128.
Definition SEEK_SET : Z := 0.
Definition SEEK_CUR : Z := 1.
Definition SEEK_END : Z := 2.
Definition EIO : Z := 5.
Definition EBADF : Z := 9.
Definition ENOMEM : Z := 12.
Definition ENODEV : Z := 19.
Definition EINVAL : Z := 22.
Definition ERANGE : Z := 34.
Definition ENAMETOOLONG : Z := 91.
Definition STDERR_FILENO : Z := 2.

Record vnode_t := Vnode {
  v_super_block : Z; fs_specific : Z; v_size : Z; v_mode : Z; device_handle : Z; v_ino : Z; v_refcount : Z; v_next : Z
}.
Record super_block_t := SuperBlock {
  fs_type : Z; fs_root : Z; sb_f_ops : Z; v_ops : Z; vnode_cache : Z; fs_private : Z
}.
Record file_t := File { f_vnode : Z; f_ops : Z; f_pos : Z; f_flags : Z; f_refcount : Z }.
Record mount_point_t := MountPoint { mp_path : str; mp_super_block : Z }.
Record fs_type_t := FsType { ft_name : str; fill_sb : Z; kill_sb : Z }.

(** What [vfs_fstat] reports; the name is never filled in. *)
Record fstat_t := Fstat {
  st_size : Z; st_mode : Z; st_links_count : Z; st_uid : Z; st_gid : Z; st_permissions : Z;
  st_atime : Z; st_mtime : Z; st_ctime : Z; st_ino : Z
}.

(** The iteration context of [vfs_getdents]: how many entries there are, and
    the caller's array of [count] packed entries of 36 bytes. *)
Record dir_ctx := DirCtx { dc_pos : Z; dc_buf : buf; dc_count : Z }.
Definition sizeof_vdir_entry : Z := 36.

Record vfs (D : Type) := MkVfs {
  drv : D;
  vnodes : gmap Z vnode_t;
  super_blocks : gmap Z super_block_t;
  open_files : gmap Z file_t;
  fs_types : gmap Z fs_type_t;
  mount_p_table : list mount_point_t;
  fs_registry_table : list Z;
  g_fd_table : arr Z;
  cwd : Z;
  next_object : Z;
  heap_answers : list bool;
  old_memory : Z;
  kstack : nat
}.
Arguments MkVfs {_}. Arguments drv {_}. Arguments vnodes {_}. Arguments super_blocks {_}. Arguments open_files {_}.
Arguments fs_types {_}. Arguments mount_p_table {_}. Arguments fs_registry_table {_}. Arguments g_fd_table {_}.
Arguments cwd {_}. Arguments next_object {_}. Arguments heap_answers {_}. Arguments old_memory {_}. Arguments kstack {_}.

(** The operations tables; a missing operation is a null pointer. *)
Record vnode_ops (St : Type) := VnodeOps {
  op_create : option (Z → str → Z → M St Z);
  op_mkdir : option (Z → str → Z → M St Z);
  op_rmdir : option (Z → str → M St Z);
  op_unlink : option (Z → str → M St Z);
  op_destroy : option (Z → M St unit);
  op_lookup : option (Z → str → M St Z);
  op_symlink : option (Z → str → str → M St Z);
  op_rename : option (Z → str → Z → str → M St Z);
  op_readlink : option (Z → buf → Z → M St (Z * buf))
}.
Record file_ops (St : Type) := FileOps {
  op_open : option (Z → M St Z);
  op_read : option (Z → buf → Z → M St (Z * buf));
  op_write : option (Z → buf → Z → M St Z);
  op_close : option (Z → M St Z);
  op_fstat : option (Z → M St (Z * option fstat_t));
  op_iter_dir : option (Z → dir_ctx → M St (Z * dir_ctx))
}.
Arguments VnodeOps {_}. Arguments op_create {_}. Arguments op_mkdir {_}. Arguments op_rmdir {_}. Arguments op_unlink {_}.
Arguments op_destroy {_}. Arguments op_lookup {_}. Arguments op_symlink {_}. Arguments op_rename {_}. Arguments op_readlink {_}.
Arguments FileOps {_}. Arguments op_open {_}. Arguments op_read {_}. Arguments op_write {_}. Arguments op_close {_}.
Arguments op_fstat {_}. Arguments op_iter_dir {_}.

Class Drivers (D : Type) := {
  vnode_ops_at : Z → option (vnode_ops (vfs D));
  file_ops_at : Z → option (file_ops (vfs D));
  fill_sb_at : Z → Z → Z → M (vfs D) Z;
  kill_sb_at : Z → Z → M (vfs D) Z;
  (** The registered block device of a name, or 0. *)
  find_blkdev : D → str → Z
}.

(* ------------------------------------------------------------------ *)
(** ** Strings *)

Definition SLASH : Z := 47.
Definition is_slash (c : Z) : bool := c =? SLASH.

(** The string in a buffer. *)
Fixpoint cstring (b : buf) : str :=
  match b with
  | [] => []
  | c :: b => if c =? 0 then [] else c :: cstring b
  end.

Fixpoint skip_slashes (p : str) : str :=
  match p with
  | c :: p' => if is_slash c then skip_slashes p' else p
  | [] => []
  end.

(** The characters before the first slash, and what [saveptr] points to then. *)
Fixpoint upto_slash (p : str) : str * str :=
  match p with
  | [] => ([], [])
  | c :: p => if is_slash c then ([], p) else let '(t, r) := upto_slash p in (c :: t, r)
  end.

(** [strtok_r(p, "/", &saveptr)] *)
Definition path_token (p : str) : option (str * str) :=
  match skip_slashes p with
  | [] => None
  | p => Some (upto_slash p)
  end.

(** [strrchr(path, '/')]: what comes before the last slash and after it. *)
Fixpoint last_slash (p : str) : option (str * str) :=
  match p with
  | [] => None
  | c :: p' =>
      match last_slash p' with
      | Some (a, b) => Some (c :: a, b)
      | None => if is_slash c then Some ([], p') else None
      end
  end.

(** A list without the first occurrence of [p]. *)
Fixpoint remove_first (p : Z) (l : list Z) : list Z :=
  match l with
  | [] => []
  | q :: l => if q =? p then l else q :: remove_first p l
  end.

Section vfs.
Context {D : Type} {DR : Drivers D}.
Notation V := (vfs D).

Definition set_drv d (s : V) : V := MkVfs d (vnodes s) (super_blocks s) (open_files s) (fs_types s) (mount_p_table s)
  (fs_registry_table s) (g_fd_table s) (cwd s) (next_object s) (heap_answers s) (old_memory s) (kstack s).
Definition set_vnodes x (s : V) : V := MkVfs (drv s) x (super_blocks s) (open_files s) (fs_types s) (mount_p_table s)
  (fs_registry_table s) (g_fd_table s) (cwd s) (next_object s) (heap_answers s) (old_memory s) (kstack s).
Definition set_super_blocks x (s : V) : V := MkVfs (drv s) (vnodes s) x (open_files s) (fs_types s) (mount_p_table s)
  (fs_registry_table s) (g_fd_table s) (cwd s) (next_object s) (heap_answers s) (old_memory s) (kstack s).
Definition set_open_files x (s : V) : V := MkVfs (drv s) (vnodes s) (super_blocks s) x (fs_types s) (mount_p_table s)
  (fs_registry_table s) (g_fd_table s) (cwd s) (next_object s) (heap_answers s) (old_memory s) (kstack s).
Definition set_fs_types x (s : V) : V := MkVfs (drv s) (vnodes s) (super_blocks s) (open_files s) x (mount_p_table s)
  (fs_registry_table s) (g_fd_table s) (cwd s) (next_object s) (heap_answers s) (old_memory s) (kstack s).
Definition set_mounts x (s : V) : V := MkVfs (drv s) (vnodes s) (super_blocks s) (open_files s) (fs_types s) x
  (fs_registry_table s) (g_fd_table s) (cwd s) (next_object s) (heap_answers s) (old_memory s) (kstack s).
Definition set_registry x (s : V) : V := MkVfs (drv s) (vnodes s) (super_blocks s) (open_files s) (fs_types s) (mount_p_table s)
  x (g_fd_table s) (cwd s) (next_object s) (heap_answers s) (old_memory s) (kstack s).
Definition set_fd_table x (s : V) : V := MkVfs (drv s) (vnodes s) (super_blocks s) (open_files s) (fs_types s) (mount_p_table s)
  (fs_registry_table s) x (cwd s) (next_object s) (heap_answers s) (old_memory s) (kstack s).
Definition set_cwd x (s : V) : V := MkVfs (drv s) (vnodes s) (super_blocks s) (open_files s) (fs_types s) (mount_p_table s)
  (fs_registry_table s) (g_fd_table s) x (next_object s) (heap_answers s) (old_memory s) (kstack s).
Definition set_heap n a (s : V) : V := MkVfs (drv s) (vnodes s) (super_blocks s) (open_files s) (fs_types s) (mount_p_table s)
  (fs_registry_table s) (g_fd_table s) (cwd s) n a (old_memory s) (kstack s).

(* ------------------------------------------------------------------ *)
(** ** Memory *)

(** The address of a new object, or 0: the heap answers from a list, and
    succeeds when that is used up. *)
Definition kmalloc_object : M V Z :=
  a ← gets heap_answers;
  p ← gets next_object;
  if default true (head a) then modify (set_heap (p + 1) (tail a)) ;; ret p
  else modify (set_heap p (tail a)) ;; ret 0.

(** [strdup]: a copy, or [None] for null. *)
Definition strdup (p : str) : M V (option str) :=
  a ← kmalloc_object;
  ret (if a =? 0 then None else Some p).

Definition vnode (p : Z) : M V vnode_t := m ← gets vnodes; of_opt (m !! p).
Definition set_vnode (p : Z) (v : vnode_t) : M V unit := modify (λ s, set_vnodes (<[p := v]> (vnodes s)) s).
Definition super_block (p : Z) : M V super_block_t := m ← gets super_blocks; of_opt (m !! p).
Definition set_super_block (p : Z) (b : super_block_t) : M V unit :=
  modify (λ s, set_super_blocks (<[p := b]> (super_blocks s)) s).
Definition file (p : Z) : M V file_t := m ← gets open_files; of_opt (m !! p).
Definition set_file (p : Z) (f : file_t) : M V unit := modify (λ s, set_open_files (<[p := f]> (open_files s)) s).
Definition fs_type_at (p : Z) : M V fs_type_t := m ← gets fs_types; of_opt (m !! p).
Definition kfree_vnode (p : Z) : M V unit := modify (λ s, set_vnodes (delete p (vnodes s)) s).
Definition kfree_super_block (p : Z) : M V unit := modify (λ s, set_super_blocks (delete p (super_blocks s)) s).
Definition kfree_file (p : Z) : M V unit := modify (λ s, set_open_files (delete p (open_files s)) s).

Definition with_v_refcount n (v : vnode_t) : vnode_t :=
  Vnode (v_super_block v) (fs_specific v) (v_size v) (v_mode v) (device_handle v) (v_ino v) n (v_next v).
Definition with_v_size n (v : vnode_t) : vnode_t :=
  Vnode (v_super_block v) (fs_specific v) n (v_mode v) (device_handle v) (v_ino v) (v_refcount v) (v_next v).
Definition with_v_next n (v : vnode_t) : vnode_t :=
  Vnode (v_super_block v) (fs_specific v) (v_size v) (v_mode v) (device_handle v) (v_ino v) (v_refcount v) n.
Definition with_vnode_cache x (b : super_block_t) : super_block_t :=
  SuperBlock (fs_type b) (fs_root b) (sb_f_ops b) (v_ops b) x (fs_private b).
Definition with_f_refcount n (f : file_t) : file_t := File (f_vnode f) (f_ops f) (f_pos f) (f_flags f) n.
Definition with_f_pos n (f : file_t) : file_t := File (f_vnode f) (f_ops f) n (f_flags f) (f_refcount f).

Definition v_ops_of (p : Z) : M V (vnode_ops V) :=
  v ← vnode p; b ← super_block (v_super_block v); of_opt (vnode_ops_at (v_ops b)).

(* ------------------------------------------------------------------ *)
(** ** File system types *)

Fixpoint find_fs_type (name : str) (l : list Z) : M V Z :=
  match l with
  | [] => ret 0
  | p :: l => t ← fs_type_at p; if bool_decide (ft_name t = name) then ret p else find_fs_type name l
  end.

Definition get_fs_type (name : str) : M V Z := l ← gets fs_registry_table; find_fs_type name l.

Definition vfs_fs_type_register (p : Z) : M V Z :=
  if p =? 0 then ret (-1)
  else
    t ← fs_type_at p;
    l ← gets fs_registry_table;
    curr ← find_fs_type (ft_name t) l;
    if negb (curr =? 0) then ret (-1)
    else modify (set_registry (p :: l)) ;; ret 0.

Definition vfs_fs_type_unregister (name : str) : M V Z :=
  l ← gets fs_registry_table;
  curr ← find_fs_type name l;
  if curr =? 0 then ret (-1)
  else modify (set_registry (remove_first curr l)) ;; ret 0.

(* ------------------------------------------------------------------ *)
(** ** Vnodes *)

Definition vfs_vnode_alloc (sb ino md size fs_spec : Z) : M V Z :=
  p ← kmalloc_object;
  if p =? 0 then ret 0
  else
    old ← gets old_memory;
    set_vnode p (Vnode sb fs_spec (s32 size) (s32 md) old (u32 ino) 1 old) ;;
    ret p.

Definition vfs_vnode_get_ref (p : Z) : M V unit :=
  when (negb (p =? 0)) (v ← vnode p; set_vnode p (with_v_refcount (s32 (v_refcount v + 1)) v)).

(** The vnode [p] is taken off the cache list of its superblock: [prev] is the
    place, [None] for the head, that points to [curr]. *)
Definition vnode_cache_remove (sb p : Z) : M V unit :=
  b ← super_block sb;
  n ← gets (λ s, base.size (vnodes s));
  while_n (S (S n)) (λ '(prev, curr),
    if negb (curr =? 0) && negb (curr =? p) then v ← vnode curr; ret (inl (Some curr, v_next v))
    else if curr =? p then
      v ← vnode p;
      match prev with
      | None => b ← super_block sb; set_super_block sb (with_vnode_cache (v_next v) b) ;; ret (inr tt)
      | Some q => u ← vnode q; set_vnode q (with_v_next (v_next v) u) ;; ret (inr tt)
      end
    else ret (inr tt)) (None, vnode_cache b).

Definition vfs_vnode_put (p : Z) : M V unit :=
  if p =? 0 then ret tt
  else
    v ← vnode p;
    set_vnode p (with_v_refcount (s32 (v_refcount v - 1)) v) ;;
    when (s32 (v_refcount v - 1) =? 0) (
      vnode_cache_remove (v_super_block v) p ;;
      when (negb (v_super_block v =? 0)) (
        ops ← v_ops_of p;
        match op_destroy ops with Some destroy => destroy p | None => ret tt end) ;;
      kfree_vnode p).

(* ------------------------------------------------------------------ *)
(** ** Descriptors *)

Definition fd_entry (fd : Z) : M V Z := zoom g_fd_table set_fd_table (ld fd).
Definition set_fd_entry (fd p : Z) : M V unit := zoom g_fd_table set_fd_table (st fd p).

(** [fd < 0 || fd >= MAX_FD || !g_fd_table[fd]], else the open file. *)
Definition fd_file (fd : Z) : M V Z :=
  if (fd <? 0) || (MAX_FD <=? fd) then ret 0 else fd_entry fd.

Definition alloc_fd (f : Z) : M V Z :=
  r ← scan_range 0 MAX_FD (λ i,
    e ← fd_entry i;
    if e =? 0 then set_fd_entry i f ;; ret (Some i) else ret None);
  ret (default (-1) r).

Definition free_fd (fd : Z) : M V unit :=
  f ← fd_file fd;
  if f =? 0 then ret tt
  else
    set_fd_entry fd 0 ;;
    x ← file f;
    set_file f (with_f_refcount (s32 (f_refcount x - 1)) x) ;;
    when (s32 (f_refcount x - 1) =? 0) (
      vfs_vnode_put (f_vnode x) ;;
      kfree_file f).

Definition vfs_bind_vnode_to_fd (vn flags : Z) : M V Z :=
  f ← kmalloc_object;
  if f =? 0 then ret (-1)
  else
    v ← vnode vn;
    b ← super_block (v_super_block v);
    set_file f (File vn (sb_f_ops b) 0 flags 1) ;;
    r ← match file_ops_at (sb_f_ops b) with
        | Some ops => match op_open ops with Some open => open f | None => ret 0 end
        | None => ret 0
        end;
    if r <? 0 then kfree_file f ;; ret (-1)
    else alloc_fd f.

(** Standard streams. The position and the count of users are not set. *)
Definition stdio_file (vn flags : Z) : M V Z :=
  f ← kmalloc_object;
  old ← gets old_memory;
  v ← vnode vn;
  b ← super_block (v_super_block v);
  assert_ (negb (f =? 0)) ;;
  set_file f (File vn (sb_f_ops b) old flags old) ;;
  ret f.

Definition vfs_init_stdio (kbd_vnode con_vnode dbg_vnode : Z) : M V unit :=
  f0 ← stdio_file kbd_vnode O_RDONLY; set_fd_entry 0 f0 ;;
  f1 ← stdio_file con_vnode O_WRONLY; set_fd_entry 1 f1 ;;
  f2 ← kmalloc_object;
  assert_ (negb (f2 =? 0)) ;;
  x ← file f1; set_file f2 x ;; set_fd_entry 2 f2 ;;
  f3 ← stdio_file dbg_vnode O_WRONLY; set_fd_entry 3 f3.

(* ------------------------------------------------------------------ *)
(** ** Mounts *)

(** Does the mount path lead to [path]? *)
Definition mount_matches (path : str) (m : mount_point_t) : bool :=
  bool_decide (mp_path m `prefix_of` path) &&
  (match path !! length (mp_path m) with None => true | Some c => is_slash c end || bool_decide (mp_path m = [SLASH])).

Fixpoint best_mount (path : str) (best : option mount_point_t) (best_len : nat) (l : list mount_point_t) : option mount_point_t :=
  match l with
  | [] => best
  | m :: l =>
      if mount_matches path m && (best_len <? length (mp_path m))%nat
      then best_mount path (Some m) (length (mp_path m)) l
      else best_mount path best best_len l
  end.

Definition vfs_find_mount_point (path : str) (base_node : Z) : M V (option mount_point_t) :=
  assert_ (base_node =? 0) ;;
  l ← gets mount_p_table;
  ret (best_mount path None 0 l).

(** The first mount on exactly this path. *)
Fixpoint remove_mount (path : str) (l : list mount_point_t) : option (list mount_point_t) :=
  match l with
  | [] => None
  | m :: l => if bool_decide (mp_path m = path) then Some l else (m ::.) <$> remove_mount path l
  end.

Definition vfs_remove_mount_point (path : str) (base_node : Z) : M V Z :=
  assert_ (base_node =? 0) ;;
  l ← gets mount_p_table;
  match remove_mount path l with
  | Some l => modify (set_mounts l) ;; ret 0
  | None => ret (-1)
  end.

Definition vfs_mount (source_dev target_path : str) (base : Z) (fs_name : str) (mountflags fs_data : Z) : M V Z :=
  dev ← gets (λ s, find_blkdev (drv s) source_dev);
  if dev =? 0 then ret (- ENODEV)
  else
    t ← get_fs_type fs_name;
    if t =? 0 then ret (- ENODEV)
    else
      mount_p ← kmalloc_object;
      if mount_p =? 0 then ret (- ENOMEM)
      else
        sb ← kmalloc_object;
        if sb =? 0 then ret (- ENOMEM)
        else
          set_super_block sb (SuperBlock 0 0 0 0 0 0) ;;
          ft ← fs_type_at t;
          r ← fill_sb_at (fill_sb ft) sb dev;
          if r =? -1 then kfree_super_block sb ;; ret (- EIO)
          else
            modify (λ s, set_mounts (MountPoint (take 255 target_path) sb :: mount_p_table s) s) ;;
            ret 0.

Definition vfs_umount (target : str) (base_node : Z) : M V Z :=
  sb ← (if negb (base_node =? 0) then v ← vnode base_node; ret (v_super_block v)
        else mp ← vfs_find_mount_point target 0; m ← of_opt mp; ret (mp_super_block m));
  b ← super_block sb;
  ft ← fs_type_at (fs_type b);
  _ ← kill_sb_at (kill_sb ft) sb;
  _ ← vfs_remove_mount_point target 0;
  ret 0.

(* ------------------------------------------------------------------ *)
(** ** Paths *)

(** The path to follow after the link [next]: what [readlink] finds, and the
    rest of the path. [None] if the link cannot be read. *)
Definition read_link_path (next : Z) (rest : str) : M V (option str) :=
  ops ← v_ops_of next;
  readlink ← of_opt (op_readlink ops);
  old ← gets old_memory;
  '(len, target) ← readlink next (replicate 256 (u8 old)) 255;
  if len <? 0 then ret None
  else
    target ← of_opt (splice len [0] target);
    ret (Some (take 255 (if bool_decide (rest = []) then cstring target else cstring target ++ SLASH :: rest))).

(** The vnode [next] was found in the directory [current]. *)
Definition walk_next (restart : str → M V Z) (follow : bool) (current : Z) (rest : str) (depth next : Z) : M V (Z * str * Z + Z) :=
  nv ← vnode next;
  if S_ISLNK (v_mode nv) then
    if bool_decide (rest = []) && negb follow then vfs_vnode_put current ;; ret (inr next)
    else if MAX_SYMLINK_DEPTH <? depth + 1 then
      vfs_vnode_put next ;; vfs_vnode_put current ;; ret (inr 0)
    else
      r ← read_link_path next rest;
      vfs_vnode_put next ;;
      match r with
      | None => vfs_vnode_put current ;; ret (inr 0)
      | Some new_path =>
          if bool_decide (head new_path = Some SLASH) then
            vfs_vnode_put current ;;
            r ← restart new_path;
            ret (inr r)
          else
            copy ← strdup new_path;
            match copy with
            | None => vfs_vnode_put current ;; ret (inr 0)
            | Some p => ret (inl (current, p, depth + 1))
            end
      end
  else
    vfs_vnode_put current ;;
    ret (inl (next, rest, depth)).

(** One turn of the loop of [vfs_walk]: the vnode reached, the rest of the path
    and the symbolic links so far. [restart] resolves a path from the root. *)
Definition walk_step (restart : str → M V Z) (follow : bool) :
    Z * str * Z → M V (Z * str * Z + Z) := λ '(current, path, depth),
  match path_token path with
  | None => ret (inr current)
  | Some (token, rest) =>
      v ← vnode current;
      b ← super_block (v_super_block v);
      match vnode_ops_at (v_ops b) ≫= op_lookup with
      | None => vfs_vnode_put current ;; ret (inr 0)
      | Some lookup =>
          next ← lookup current token;
          if next =? 0 then vfs_vnode_put current ;; ret (inr 0)
          else
            vfs_vnode_get_ref next ;;
            walk_next restart follow current rest depth next
      end
  end.

(** More turns than any walk makes: each takes a name off the path, or follows
    one of at most 40 links to a path of at most 255 characters. *)
Definition walk_fuel (path : str) : nat := (length path + 41 * 256 + 2)%nat.

Definition vfs_walk (restart : str → M V Z) (base_node : Z) (relative_path : str) (follow : bool) : M V Z :=
  if base_node =? 0 then ret 0
  else
    vfs_vnode_get_ref base_node ;;
    match relative_path with
    | [] => ret base_node
    | _ =>
        copy ← strdup relative_path;
        match copy with
        | None => vfs_vnode_put base_node ;; ret 0
        | Some p => while_n (walk_fuel p) (walk_step restart follow) (base_node, p, 0)
        end
    end.

(** [n] more calls fit on the stack. *)
Fixpoint lookup_path_n (n : nat) (path : str) (base_node : Z) (follow : bool) : M V Z :=
  match n with
  | O => fault
  | S n =>
      let restart p := lookup_path_n n p 0 follow in
      if bool_decide (head path = Some SLASH) then
        mount ← vfs_find_mount_point path 0;
        match mount with
        | None => ret 0
        | Some m =>
            b ← super_block (mp_super_block m);
            vfs_walk restart (fs_root b) (skip_slashes (drop (length (mp_path m)) path)) follow
        end
      else if base_node =? 0 then ret 0
      else vfs_walk restart base_node path follow
  end.

Definition vfs_lookup_path (path : str) (base_node : Z) (follow_final_symlink : bool) : M V Z :=
  n ← gets kstack;
  lookup_path_n n path base_node follow_final_symlink.

(* ------------------------------------------------------------------ *)
(** ** Names *)

(** The parent directory of a path and the name in it; the parent of a name in
    the root directory is the root. *)
Definition split_path (path : str) : option (str * str) :=
  match last_slash path with
  | None => None
  | Some (parent, name) => Some (if bool_decide (parent = []) then [SLASH] else parent, name)
  end.

Definition vfs_parent_operation (path : str) (base_node : Z) (op : option (Z → str → Z → M V Z)) (md : Z) : M V Z :=
  match op with
  | None => ret (-1)
  | Some op =>
      copy ← strdup path;
      match copy with
      | None => ret (-1)
      | Some path =>
          match split_path path with
          | None => op base_node path md
          | Some (parent_path, child_name) =>
              parent ← vfs_lookup_path parent_path base_node true;
              if parent =? 0 then ret (- ENOENT)
              else
                result ← op parent child_name md;
                vfs_vnode_put parent ;;
                ret result
          end
      end
  end.

(** The operations of the file system that the path is on, or [None]. *)
Definition get_vops (path : str) (base_node : Z) : M V (option (vnode_ops V)) :=
  if negb (base_node =? 0) then
    v ← vnode base_node; b ← super_block (v_super_block v); ret (vnode_ops_at (v_ops b))
  else
    mp ← vfs_find_mount_point path 0;
    match mp with
    | None => ret None
    | Some m =>
        if mp_super_block m =? 0 then ret None
        else b ← super_block (mp_super_block m); ret (vnode_ops_at (v_ops b))
    end.

Definition vfs_create (path : str) (base_node md : Z) : M V Z :=
  vops ← get_vops path base_node;
  match vops ≫= op_mkdir with
  | None => ret (-1)
  | Some _ => vfs_parent_operation path base_node (vops ≫= op_create) md
  end.

Definition vfs_mkdir (path : str) (base_node md : Z) : M V Z :=
  vops ← get_vops path base_node;
  match vops ≫= op_mkdir with
  | None => ret (-1)
  | Some mkdir => vfs_parent_operation path base_node (Some mkdir) md
  end.

Definition vfs_rmdir (path : str) (base_node : Z) : M V Z :=
  vops ← get_vops path base_node;
  match vops ≫= op_rmdir with
  | None => ret (-1)
  | Some rmdir => vfs_parent_operation path base_node (Some (λ p n _, rmdir p n)) 0
  end.

Definition vfs_unlink (path : str) (base_node : Z) : M V Z :=
  vops ← get_vops path base_node;
  match vops ≫= op_unlink with
  | None => ret (-1)
  | Some unlink => vfs_parent_operation path base_node (Some (λ p n _, unlink p n)) 0
  end.

(** Neither the copy of the path nor the slash in it is checked for. *)
Definition vfs_symlink (target : str) (base : Z) (linkpath : str) : M V Z :=
  copy ← strdup linkpath;
  path ← of_opt copy;
  '(parent_path, link_name) ← of_opt (split_path path);
  parent ← vfs_lookup_path parent_path base true;
  if parent =? 0 then ret (-1)
  else
    ops ← v_ops_of parent;
    symlink ← of_opt (op_symlink ops);
    result ← symlink parent link_name target;
    vfs_vnode_put parent ;;
    ret result.

Definition vfs_readlink (path : str) (base : Z) (out : buf) (bufsize : Z) : M V (Z * buf) :=
  vn ← vfs_lookup_path path base false;
  if vn =? 0 then ret (-1, out)
  else
    v ← vnode vn;
    if negb (S_ISLNK (v_mode v)) then vfs_vnode_put vn ;; ret (-1, out)
    else
      ops ← v_ops_of vn;
      match op_readlink ops with
      | None => vfs_vnode_put vn ;; ret (-1, out)
      | Some readlink =>
          r ← readlink vn out bufsize;
          vfs_vnode_put vn ;;
          ret r
      end.

Definition vfs_rename (oldpath : str) (base : Z) (newpath : str) : M V Z :=
  copy ← strdup oldpath;
  old ← of_opt copy;
  match split_path old with
  | None => ret (-1)
  | Some (old_parent_path, old_name) =>
      copy ← strdup newpath;
      new ← of_opt copy;
      match split_path new with
      | None => ret (-1)
      | Some (new_parent_path, new_name) =>
          old_parent ← vfs_lookup_path old_parent_path base true;
          new_parent ← vfs_lookup_path new_parent_path base true;
          if (old_parent =? 0) || (new_parent =? 0) then
            vfs_vnode_put old_parent ;;
            vfs_vnode_put new_parent ;;
            ret (-1)
          else
            ov ← vnode old_parent;
            nv ← vnode new_parent;
            if negb (v_super_block ov =? v_super_block nv) then
              vfs_vnode_put old_parent ;;
              vfs_vnode_put new_parent ;;
              ret (-1)
            else
              ops ← v_ops_of old_parent;
              result ← match op_rename ops with
                       | Some rename => rename old_parent old_name new_parent new_name
                       | None => ret (-1)
                       end;
              vfs_vnode_put old_parent ;;
              vfs_vnode_put new_parent ;;
              ret result
      end
  end.

(* ------------------------------------------------------------------ *)
(** ** Open files *)

Definition vfs_open (path : str) (base_node flags md : Z) : M V Z :=
  vn ← vfs_lookup_path path base_node true;
  if vn =? 0 then
    if Z.land flags O_CREAT =? 0 then ret (- ENOENT)
    else
      res ← vfs_create path base_node md;
      if negb (res =? 0) then ret res
      else
        vn ← vfs_lookup_path path base_node true;
        if vn =? 0 then ret (- EIO) else vfs_bind_vnode_to_fd vn flags
  else if negb (Z.land flags O_CREAT =? 0) && negb (Z.land flags O_EXCL =? 0) then ret (- EEXIST)
  else vfs_bind_vnode_to_fd vn flags.

Definition f_ops_of (f : Z) : M V (option (file_ops V)) := x ← file f; ret (file_ops_at (f_ops x)).

(** The position moves on by [n], if that is positive. *)
Definition advance (f n : Z) : M V unit := when (0 <? n) (x ← file f; set_file f (with_f_pos (f_pos x + n) x)).

Definition vfs_seek (fd relative_offset whence : Z) : M V Z :=
  f ← fd_entry fd;
  x ← file f;
  v ← vnode (f_vnode x);
  match (if whence =? SEEK_SET then Some 0 else if whence =? SEEK_CUR then Some (f_pos x)
         else if whence =? SEEK_END then Some (v_size v) else None) with
  | None => ret (-1)
  | Some whence_off =>
      let new_pos := whence_off + relative_offset in
      if (new_pos <? 0) || (v_size v <? new_pos) then ret (-1)
      else set_file f (with_f_pos new_pos x) ;; ret new_pos
  end.

Definition vfs_read (fd : Z) (out : buf) (sz : Z) : M V (Z * buf) :=
  f ← fd_file fd;
  if f =? 0 then ret (-1, out)
  else
    ops ← f_ops_of f;
    match ops ≫= op_read with
    | None => ret (-1, out)
    | Some read => '(n, out) ← read f out sz; advance f n ;; ret (n, out)
    end.

Definition vfs_fstat (fd : Z) : M V (Z * option fstat_t) :=
  f ← fd_file fd;
  if f =? 0 then ret (-1, None)
  else
    ops ← f_ops_of f;
    match ops ≫= op_fstat with
    | None => ret (-1, None)
    | Some fstat => fstat f
    end.

Definition vfs_write (fd : Z) (bytes : buf) (sz : Z) : M V Z :=
  f ← fd_file fd;
  if f =? 0 then ret (-1)
  else
    x ← file f;
    let mode := Z.land (f_flags x) O_ACCMODE in
    if negb (mode =? O_WRONLY) && negb (mode =? O_RDWR) then ret (-1)
    else
      ops ← f_ops_of f;
      match ops ≫= op_write with
      | None => ret (-1)
      | Some write => n ← write f bytes sz; advance f n ;; ret n
      end.

Definition vfs_close (fd : Z) : M V Z :=
  f ← fd_file fd;
  if f =? 0 then ret (-1)
  else
    ops ← f_ops_of f;
    result ← match ops ≫= op_close with Some close => close f | None => ret 0 end;
    free_fd fd ;;
    ret result.

(** One directory entry is stored; [pos] is [*ctx->pos]. *)
Definition filldir (ctx : dir_ctx) (name : str) (namelen ino : Z) : option (Z * dir_ctx) :=
  let index := s32 (dc_pos ctx) in
  if s32 (dc_count ctx) <=? index then Some (-1, ctx)
  else
    let copy_len := Z.min (u32 namelen) 31 in
    match sub_bytes 0 copy_len (name ++ [0]) with
    | None => None
    | Some x =>
        match splice (sizeof_vdir_entry * index) (le_of 4 ino ++ x ++ [0]) (dc_buf ctx) with
        | None => None
        | Some b => Some (0, DirCtx (dc_pos ctx + 1) b (dc_count ctx))
        end
    end.

Definition vfs_getdents (fd : Z) (dentry : option buf) (count : Z) : M V (Z * option buf) :=
  f ← fd_file fd;
  match dentry with
  | None => ret (-1, None)
  | Some b =>
      if f =? 0 then ret (-1, Some b)
      else
        ops ← f_ops_of f;
        iter_dir ← of_opt (ops ≫= op_iter_dir);
        '(result, ctx) ← iter_dir f (DirCtx 0 b count);
        if result <? 0 then ret (result, Some (dc_buf ctx))
        else ret (s32 (dc_pos ctx * sizeof_vdir_entry), Some (dc_buf ctx))
  end.

(* ------------------------------------------------------------------ *)
(** ** System calls

    A string argument that is null is [None]. *)

Definition get_cwd : M V Z := gets cwd.

Definition with_path {A} (path : option str) (bad : A) (k : str → M V A) : M V A :=
  match path with None => ret bad | Some p => k p end.

Definition sys_create (path : option str) : M V Z :=
  with_path path (- EINVAL) (λ p, c ← get_cwd; vfs_create p c 0).
Definition sys_mkdir (path : option str) (md : Z) : M V Z :=
  with_path path (- EINVAL) (λ p, c ← get_cwd; vfs_mkdir p c md).
Definition sys_rmdir (path : option str) : M V Z :=
  with_path path (- EINVAL) (λ p, c ← get_cwd; vfs_rmdir p c).
Definition sys_unlink (path : option str) : M V Z :=
  with_path path (- EINVAL) (λ p, c ← get_cwd; vfs_unlink p c).
Definition sys_rename (oldpath newpath : option str) : M V Z :=
  with_path oldpath (- EINVAL) (λ o, with_path newpath (- EINVAL) (λ n, c ← get_cwd; vfs_rename o c n)).
Definition sys_symlink (target linkpath : option str) : M V Z :=
  with_path target (- EINVAL) (λ t, with_path linkpath (- EINVAL) (λ l, c ← get_cwd; vfs_symlink t c l)).
Definition sys_readlink (path : option str) (out : option buf) (bufsize : Z) : M V (Z * option buf) :=
  with_path path (- EINVAL, out) (λ p,
    with_path out (- EINVAL, None) (λ b,
      if bufsize =? 0 then ret (- EINVAL, Some b)
      else c ← get_cwd; '(n, b) ← vfs_readlink p c b bufsize; ret (n, Some b))).
Definition sys_mount (source : str) (target fs_name : option str) (flags data : Z) : M V Z :=
  with_path target (- EINVAL) (λ t, with_path fs_name (- EINVAL) (λ n, c ← get_cwd; vfs_mount source t c n flags data)).
Definition sys_umount (target : option str) : M V Z :=
  with_path target (- EINVAL) (λ t, c ← get_cwd; vfs_umount t c).

Definition sys_open (pathname : option str) (flags md : Z) : M V Z :=
  with_path pathname (- EINVAL) (λ p,
    c ← get_cwd;
    fd ← vfs_open p c flags md;
    ret (if fd <? 0 then - ENOENT else fd)).

Definition sys_close (fd : Z) : M V Z :=
  if (fd <? 0) || (fd <=? STDERR_FILENO) then ret (- EBADF) else vfs_close fd.

(** The result of the seek is dropped. *)
Definition sys_lseek (fd offset whence : Z) : M V Z :=
  _ ← vfs_seek fd offset whence;
  ret (- EIO).

Definition sys_stat (fd : Z) (user_stat : bool) : M V (Z * option fstat_t) :=
  if negb user_stat then ret (- EINVAL, None) else vfs_fstat fd.

Definition sys_read (fd : Z) (out : buf) (count : Z) : M V (Z * buf) :=
  f ← fd_file fd;
  if f =? 0 then ret (- EBADF, out)
  else
    ops ← f_ops_of f;
    match ops ≫= op_read with
    | Some read => read f out count
    | None => ret (- EINVAL, out)
    end.

Definition sys_write (fd : Z) (bytes : buf) (len : Z) : M V Z :=
  f ← fd_file fd;
  if f =? 0 then ret (- EBADF)
  else
    ops ← f_ops_of f;
    match ops ≫= op_write with
    | Some write => write f bytes len
    | None => ret (- EINVAL)
    end.

Definition sys_getdents (fd : Z) (dentry : option buf) (count : Z) : M V (Z * option buf) :=
  if (match dentry with None => true | Some _ => false end) || (count =? 0) then ret (- EINVAL, dentry)
  else vfs_getdents fd dentry count.

(* ------------------------------------------------------------------ *)
(** ** The working directory *)

Definition sys_chdir (path : str) : M V Z :=
  c ← gets cwd;
  new_wd ← vfs_lookup_path path c true;
  if new_wd =? 0 then ret (- ENOENT)
  else
    v ← vnode new_wd;
    if negb (S_ISDIR (v_mode v)) then vfs_vnode_put new_wd ;; ret (- ENOTDIR)
    else
      old_wd ← gets cwd;
      modify (set_cwd new_wd) ;;
      vfs_vnode_put old_wd ;;
      ret 0.

Definition MAX_PATH : Z := 2046.

(** The search of the parent directory for the entry of inode [ino]: its name,
    and the position at which the entry was read. Each turn reads an entry. *)
Definition find_name (n : nat) (parent_fd ino : Z) : M V (option str) :=
  old ← gets old_memory;
  while_n n (λ entry,
    '(r, e) ← vfs_getdents parent_fd (Some entry) 1;
    entry ← of_opt e;
    if 0 <? r then
      i ← peek (b32 0) entry;
      if i =? u32 ino then
        ret (inr (Some (cstring (drop 4 entry))))
      else ret (inl entry)
    else ret (inr None)) (replicate 36 (u8 old)).

(** One level up: the vnode of the directory that [curr] is in and the path
    with the name of [curr] before it; at the root the path is complete. A
    negative result ends the call. *)
Definition getcwd_step (n : nat) : Z * str → M V (Z * str + (Z + Z * str)) := λ '(curr, path),
  curr_fd ← vfs_bind_vnode_to_fd curr O_RDONLY;
  '(_, curr_stat) ← vfs_fstat curr_fd;
  parent_fd ← vfs_open [46; 46] curr O_RDONLY 0;
  if parent_fd <? 0 then
    _ ← vfs_close curr_fd;
    vfs_vnode_put curr ;;
    ret (inr (inl parent_fd))
  else
    '(_, parent_stat) ← vfs_fstat parent_fd;
    old ← gets old_memory;
    let curr_ino := default old (st_ino <$> curr_stat) in
    if curr_ino =? default old (st_ino <$> parent_stat) then
      _ ← vfs_close curr_fd;
      _ ← vfs_close parent_fd;
      ret (inr (inr (curr, path)))
    else
      found ← find_name n parent_fd curr_ino;
      match found with
      | Some name =>
          if MAX_PATH - 1 - Z.of_nat (length path) - Z.of_nat (length name) - 1 <? 0 then
            _ ← vfs_close curr_fd;
            _ ← vfs_close parent_fd;
            vfs_vnode_put curr ;;
            ret (inr (inl (- ENAMETOOLONG)))
          else
            f ← fd_entry parent_fd;
            x ← file f;
            vfs_vnode_get_ref (f_vnode x) ;;
            _ ← vfs_close parent_fd;
            _ ← vfs_close curr_fd;
            ret (inl (f_vnode x, SLASH :: name ++ path))
      | None =>
          f ← fd_entry parent_fd;
          x ← file f;
          vfs_vnode_get_ref (f_vnode x) ;;
          _ ← vfs_close parent_fd;
          _ ← vfs_close curr_fd;
          vfs_vnode_put (f_vnode x) ;;
          ret (inr (inl (- ENOENT)))
      end.

(** The result and the string copied to the caller, with its null byte. The
    path is at most [MAX_PATH] long, so the loops take at most [n] turns when
    no directory has more entries than that. *)
Definition sys_getcwd (n : nat) (sz : Z) : M V (Z * option str) :=
  c ← gets cwd;
  vfs_vnode_get_ref c ;;
  r ← while_n (Z.to_nat MAX_PATH) (getcwd_step n) (c, []);
  match r with
  | inl e => ret (e, None)
  | inr (curr, path) =>
      vfs_vnode_put curr ;;
      let path := if bool_decide (path = []) then [SLASH] else path in
      if sz <? Z.of_nat (length path) + 1 then ret (- ERANGE, None)
      else ret (0, Some path)
  end.
End vfs.
