(* ===== verification/VfsPath.v ===== *)
(** * Path resolution

    What [vfs_lookup_path] computes. The file systems are seen through the
    contract [FileTree]: each inode of a superblock is a directory, a file or a
    symbolic link, and a driver's [lookup] and [readlink] report that tree. The
    relation [resolves] says where a path leads, and the code follows it,
    whatever mounts, directories and links it crosses. *)

From S2P Require Import Prelude Buf Myfs Vfs.

(** What an inode is. *)
Inductive node := NDir (entries : str → option Z) | NFile | NLink (target : str).

Definition mode_of (n : node) (md : Z) : Prop :=
  match n with
  | NDir _ => S_ISDIR md = true ∧ S_ISLNK md = false
  | NFile => S_ISDIR md = false ∧ S_ISLNK md = false
  | NLink _ => S_ISDIR md = false ∧ S_ISLNK md = true
  end.

Definition node_entry (n : option node) (t : str) : option Z :=
  match n with Some (NDir e) => e t | _ => None end.

(** Everything but the vnodes, the drivers' own state and the heap. *)
Definition fixed_part {D} (s : vfs D) :=
  (super_blocks s, open_files s, fs_types s, mount_p_table s, fs_registry_table s, g_fd_table s, cwd s, old_memory s, kstack s).

Notation position := (Z * Z)%type.
Definition at_position (v : vnode_t) : position := (v_super_block v, v_ino v).

Class FileTree (D : Type) `{DR : Drivers D} := {
  ft_ok : D → gmap Z super_block_t → Prop;
  ft_node : D → gmap Z super_block_t → position → option node;
  (** The vnodes that [lookup] returns are new and have one reference; it
      fails only for a name that is not in the directory, or if the driver or
      the heap is out of memory. *)
  ft_memory : D → Prop;
  ft_lookup s dir dv b n lookup name :
    0 < next_object s → ft_ok (drv s) (super_blocks s) → vnodes s !! dir = Some dv → super_blocks s !! v_super_block dv = Some b →
    ft_node (drv s) (super_blocks s) (at_position dv) = Some n → mode_of n (v_mode dv) →
    vnode_ops_at (v_ops b) ≫= op_lookup = Some lookup →
    wp (lookup dir name) s (λ p s', fixed_part s' = fixed_part s ∧ next_object s <= next_object s' ∧
      (heap_answers s = [] → ft_memory (drv s) → heap_answers s' = [] ∧ ft_memory (drv s')) ∧
      ft_ok (drv s') (super_blocks s) ∧ ft_node (drv s') (super_blocks s) = ft_node (drv s) (super_blocks s) ∧
      (p = 0 ∧ vnodes s' = vnodes s ∧ (heap_answers s = [] → ft_memory (drv s) → node_entry (Some n) name = None) ∨
       ∃ ino m v, node_entry (Some n) name = Some ino ∧ p ≠ 0 ∧ next_object s <= p < next_object s' ∧
         vnodes s' = <[p := v]> (vnodes s) ∧ at_position v = (v_super_block dv, ino) ∧ v_refcount v = 1 ∧
         ft_node (drv s) (super_blocks s) (at_position v) = Some m ∧ mode_of m (v_mode v)));
  ft_has_lookup s p b n : ft_ok (drv s) (super_blocks s) → super_blocks s !! p.1 = Some b →
    ft_node (drv s) (super_blocks s) p = Some n →
    ∃ ops, vnode_ops_at (v_ops b) = Some ops ∧ is_Some (op_lookup ops) ∧ is_Some (op_readlink ops);
  ft_readlink s p v b target ops readlink out :
    ft_ok (drv s) (super_blocks s) → vnodes s !! p = Some v → super_blocks s !! v_super_block v = Some b →
    ft_node (drv s) (super_blocks s) (at_position v) = Some (NLink target) →
    vnode_ops_at (v_ops b) = Some ops → op_readlink ops = Some readlink → blen out = 256 →
    wp (readlink p out 255) s (λ r s', ∃ d, s' = set_drv d s ∧
      ft_ok d (super_blocks s) ∧ ft_node d (super_blocks s) = ft_node (drv s) (super_blocks s) ∧
      (ft_memory (drv s) → ft_memory d) ∧
      r.1 = Z.min (blen target) 255 ∧ blen r.2 = 256 ∧ take (Z.to_nat r.1) r.2 = take 255 target);
  (** Link targets are C strings. *)
  ft_target s p target : ft_ok (drv s) (super_blocks s) → ft_node (drv s) (super_blocks s) p = Some (NLink target) →
    Forall (λ c, 0 < c < 256) target
}.

(* ------------------------------------------------------------------ *)
(** ** Where a path leads *)

Section resolves.
Variable node_at : position → option node.
Variable start : str → option (position * str).
Variable follow : bool.

(** The path that is followed after a link. *)
Definition link_path (target rest : str) : str :=
  take 255 (if bool_decide (rest = []) then take 255 target else take 255 target ++ SLASH :: rest).

(** The path leads from a position to another, or nowhere ([None]), after [d]
    links, and over at most [k] absolute links from there on. *)
Inductive resolves : nat → position → str → Z → option position → Prop :=
  | R_end k p path d : path_token path = None → resolves k p path d (Some p)
  | R_missing k p path d t rest : path_token path = Some (t, rest) → node_entry (node_at p) t = None → resolves k p path d None
  | R_down k p path d t rest ino n r : path_token path = Some (t, rest) → node_entry (node_at p) t = Some ino →
      node_at (p.1, ino) = Some n → (∀ l, n ≠ NLink l) → resolves k (p.1, ino) rest d r → resolves k p path d r
  | R_link k p path d t ino l : path_token path = Some (t, []) → node_entry (node_at p) t = Some ino →
      node_at (p.1, ino) = Some (NLink l) → follow = false → resolves k p path d (Some (p.1, ino))
  | R_deep k p path d t rest ino l : path_token path = Some (t, rest) → node_entry (node_at p) t = Some ino →
      node_at (p.1, ino) = Some (NLink l) → (rest = [] → follow = true) → MAX_SYMLINK_DEPTH <= d → resolves k p path d None
  | R_relative k p path d t rest ino l r : path_token path = Some (t, rest) → node_entry (node_at p) t = Some ino →
      node_at (p.1, ino) = Some (NLink l) → (rest = [] → follow = true) → d < MAX_SYMLINK_DEPTH →
      head (link_path l rest) ≠ Some SLASH → resolves k p (link_path l rest) (d + 1) r → resolves k p path d r
  | R_absolute k p path d t rest ino l q path' r : path_token path = Some (t, rest) → node_entry (node_at p) t = Some ino →
      node_at (p.1, ino) = Some (NLink l) → (rest = [] → follow = true) → d < MAX_SYMLINK_DEPTH →
      head (link_path l rest) = Some SLASH → start (link_path l rest) = Some (q, path') →
      resolves k q path' 0 r → resolves (S k) p path d r
  | R_no_mount k p path d t rest ino l : path_token path = Some (t, rest) → node_entry (node_at p) t = Some ino →
      node_at (p.1, ino) = Some (NLink l) → (rest = [] → follow = true) → d < MAX_SYMLINK_DEPTH →
      head (link_path l rest) = Some SLASH → start (link_path l rest) = None → resolves (S k) p path d None.
End resolves.

(* ------------------------------------------------------------------ *)
(** ** References *)

Section refs.
Context {D : Type} {DR : Drivers D}.
Notation V := (vfs D).
Implicit Types s : V.

(** One more reference to the vnode [p]. *)
Definition hold s (p : Z) (v : vnode_t) : V := set_vnodes (<[p := with_v_refcount (v_refcount v + 1) v]> (vnodes s)) s.

Lemma set_vnodes_eta s : set_vnodes (vnodes s) s = s.
Proof. by destruct s. Qed.

Lemma refcount_back v : with_v_refcount (v_refcount v) (with_v_refcount (v_refcount v + 1) v) = v.
Proof. by destruct v. Qed.

Lemma hold_back s p v : vnodes s !! p = Some v → set_vnodes (<[p := v]> (vnodes (hold s p v))) (hold s p v) = s.
Proof. destruct s. cbn. intros H. unfold hold, set_vnodes. cbn. by rewrite insert_insert_eq, insert_id by done. Qed.

Lemma wp_vnode s p v (Q : vnode_t → V → Prop) : vnodes s !! p = Some v → Q v s → wp (vnode p) s Q.
Proof. intros H HQ. unfold vnode. wp_step. by eapply wp_of_opt. Qed.

Lemma wp_super_block s p b (Q : super_block_t → V → Prop) : super_blocks s !! p = Some b → Q b s → wp (super_block p) s Q.
Proof. intros H HQ. unfold super_block. wp_step. by eapply wp_of_opt. Qed.

Lemma wp_file s p f (Q : file_t → V → Prop) : open_files s !! p = Some f → Q f s → wp (file p) s Q.
Proof. intros H HQ. unfold file. wp_step. by eapply wp_of_opt. Qed.

Lemma wp_get_ref s p v (Q : unit → V → Prop) :
  p ≠ 0 → vnodes s !! p = Some v → 0 <= v_refcount v < 2147483647 → Q tt (hold s p v) → wp (vfs_vnode_get_ref p) s Q.
Proof.
  intros Hp Hv Hr HQ. unfold vfs_vnode_get_ref. rewrite (proj2 (Z.eqb_neq p 0)) by done. cbn [negb when].
  wp_step. eapply wp_vnode; [done|]. rewrite s32_small by lia. unfold set_vnode. wp_step. exact HQ.
Qed.

(** A reference that is not the last one is given back. *)
Lemma wp_put s p v (Q : unit → V → Prop) :
  p ≠ 0 → vnodes s !! p = Some (with_v_refcount (v_refcount v + 1) v) → 1 <= v_refcount v < 2147483647 →
  Q tt (set_vnodes (<[p := v]> (vnodes s)) s) → wp (vfs_vnode_put p) s Q.
Proof.
  intros Hp Hv Hr HQ. unfold vfs_vnode_put. rewrite (proj2 (Z.eqb_neq p 0)) by done. wp_step. eapply wp_vnode; [done|].
  cbn [v_refcount with_v_refcount]. replace (v_refcount v + 1 - 1) with (v_refcount v) by lia. rewrite s32_small by lia.
  rewrite refcount_back. unfold set_vnode. do 2 wp_step. rewrite (proj2 (Z.eqb_neq _ 0)) by lia. cbn [when]. by wp_step.
Qed.

Lemma wp_kmalloc_object s (Q : Z → V → Prop) :
  0 < next_object s →
  (head (heap_answers s) = Some false → Q 0 (set_heap (next_object s) (tail (heap_answers s)) s)) →
  (head (heap_answers s) ≠ Some false → Q (next_object s) (set_heap (next_object s + 1) (tail (heap_answers s)) s)) →
  wp kmalloc_object s Q.
Proof.
  intros Hn HQ0 HQ1. unfold wp, kmalloc_object, bind, gets, modify, ret.
  destruct (heap_answers s) as [|[] l]; cbn in *; first [by apply HQ1|by apply HQ0].
Qed.

Lemma wp_strdup s path (Q : option str → V → Prop) :
  0 < next_object s →
  Q None (set_heap (next_object s) (tail (heap_answers s)) s) ∧ head (heap_answers s) = Some false ∨
  Q (Some path) (set_heap (next_object s + 1) (tail (heap_answers s)) s) ∧ head (heap_answers s) ≠ Some false → wp (strdup path) s Q.
Proof.
  intros Hn HQ. unfold strdup. wp_step. apply wp_kmalloc_object; [done| |]; intros E; wp_step.
  - by destruct HQ as [[HQ _]|[_ ?]].
  - rewrite (proj2 (Z.eqb_neq _ 0)) by lia. by destruct HQ as [[_ ?]|[HQ _]].
Qed.
End refs.

(* ------------------------------------------------------------------ *)
(** ** Walking *)

Section walk.
Context {D : Type} {DR : Drivers D} {FT : FileTree D}.
Notation V := (vfs D).
Implicit Types s : V.

Definition nodes s : position → option node := ft_node (drv s) (super_blocks s).
Definition plenty s : Prop := heap_answers s = [] ∧ ft_memory (drv s).

Record vfs_ok s : Prop := {
  vo_tree : ft_ok (drv s) (super_blocks s);
  vo_next : 0 < next_object s;
  vo_addr p : is_Some (vnodes s !! p) → 0 < p < next_object s;
  vo_refs p v : vnodes s !! p = Some v → 1 <= v_refcount v < 2147483646;
  vo_node p v : vnodes s !! p = Some v →
    is_Some (super_blocks s !! v_super_block v) ∧ ∃ n, nodes s (at_position v) = Some n ∧ mode_of n (v_mode v);
  vo_mounts m : m ∈ mount_p_table s →
    ∃ b v, super_blocks s !! mp_super_block m = Some b ∧ vnodes s !! fs_root b = Some v
}.

(** What was there is still there. *)
Record later s s' : Prop := {
  la_fixed : fixed_part s' = fixed_part s;
  la_next : next_object s <= next_object s';
  la_nodes : nodes s' = nodes s;
  la_plenty : plenty s → plenty s';
  la_vnodes : vnodes s ⊆ vnodes s'
}.

Lemma later_refl s : later s s.
Proof. by split. Qed.
Lemma later_trans s1 s2 s3 : later s1 s2 → later s2 s3 → later s1 s3.
Proof.
  intros [A1 A2 A3 A4 A5] [B1 B2 B3 B4 B5]. split; [congruence|lia|congruence|auto|by etrans].
Qed.

(** The result of a lookup that should lead to [r]. *)
Definition found s (r : option position) (p : Z) (s' : V) : Prop :=
  (p = 0 ∧ (plenty s → r = None) ∧ vfs_ok s' ∧ later s s') ∨
  (∃ v s0, p ≠ 0 ∧ s' = hold s0 p v ∧ vnodes s0 !! p = Some v ∧ r = Some (at_position v) ∧ vfs_ok s0 ∧ later s s0 ∧
     (is_Some (vnodes s !! p) ∨ v_refcount v = 1)).

Lemma found_later s s1 r p s' : later s s1 → found s1 r p s' → (∀ v, vnodes s1 !! p = Some v → v_refcount v = 1 ∨ is_Some (vnodes s !! p)) → found s r p s'.
Proof.
  intros L [(-> & Hr & Ho & L')|(v & s0 & Hp & -> & Hv & -> & Ho & L' & Hd)] Hold.
  - left. split; [done|]. split; [intros Hpl; by apply Hr, L|]. split; [done|]. by eapply later_trans.
  - right. exists v, s0. repeat (split; [done|]). split; [by eapply later_trans|].
    destruct Hd as [[w Hw]|Hd]; [|by right]. pose proof (lookup_weaken _ _ _ _ Hw (la_vnodes _ _ L')) as E. rewrite Hv in E. injection E as ->.
    destruct (Hold _ Hw); [by right|by left].
Qed.

(** The heap was used for a string. *)
Lemma heap_ok s n a : vfs_ok s → next_object s <= n → (heap_answers s = [] → a = []) → vfs_ok (set_heap n a s) ∧ later s (set_heap n a s).
Proof.
  intros [O1 O2 O3 O4 O5 O6] Hn Ha. split.
  - split; try done; cbn; [lia|]. intros p Hp. specialize (O3 p Hp). lia.
  - split; try done. intros [H1 H2]. split; [|done]. cbn. auto.
Qed.

(** A new vnode, with one reference that belongs to nobody. *)
Lemma new_vnode s s1 p v b m :
  vfs_ok s → fixed_part s1 = fixed_part s → next_object s <= next_object s1 → ft_ok (drv s1) (super_blocks s) →
  ft_node (drv s1) (super_blocks s) = nodes s → (plenty s → plenty s1) →
  p ≠ 0 → next_object s <= p < next_object s1 → super_blocks s !! v_super_block v = Some b →
  nodes s (at_position v) = Some m → mode_of m (v_mode v) → v_refcount v = 1 →
  let s2 := set_vnodes (<[p := v]> (vnodes s)) s1 in vfs_ok s2 ∧ later s s2.
Proof.
  intros [O1 O2 O3 O4 O5 O6] Hf Hn Hok Hnodes Hpl Hp Hpr Hb Hm Hmode Hr s2.
  assert (super_blocks s1 = super_blocks s) as Esb by (by injection Hf).
  assert (mount_p_table s1 = mount_p_table s) as Emt by (by injection Hf).
  assert (vnodes s !! p = None) as Hnone.
  { destruct (vnodes s !! p) eqn:E; [|done]. destruct (O3 p); [by eexists|lia]. }
  assert (nodes s2 = nodes s) as En by (unfold nodes at 1, s2; cbn; by rewrite Esb).
  split.
  - split; cbn.
    + by rewrite Esb.
    + lia.
    + intros q. rewrite lookup_insert_is_Some'. intros [<-|Hq]; [lia|]. specialize (O3 q Hq). lia.
    + intros q w [[<- <-]|[Hne Hq]]%lookup_insert_Some; [lia|by eapply O4].
    + intros q w. rewrite Esb, En. intros [[<- <-]|[Hne Hq]]%lookup_insert_Some; [|by eapply O5]. split; [by eexists|by exists m].
    + intros mp. rewrite Esb, Emt. intros Hmp. destruct (O6 mp Hmp) as (b' & v' & Hb' & Hv'). exists b', v'. split; [done|].
      rewrite lookup_insert_ne; [done|]. intros ->. by rewrite Hnone in Hv'.
  - split; [exact Hf|exact Hn|exact En|exact Hpl|]. cbn. by apply insert_subseteq.
Qed.

(** The same vnodes, after an operation of a driver. *)
Lemma driver_step s s1 :
  vfs_ok s → fixed_part s1 = fixed_part s → next_object s <= next_object s1 → ft_ok (drv s1) (super_blocks s) →
  ft_node (drv s1) (super_blocks s) = nodes s → (plenty s → plenty s1) → vnodes s1 = vnodes s → vfs_ok s1 ∧ later s s1.
Proof.
  intros [O1 O2 O3 O4 O5 O6] Hf Hn Hok Hnodes Hpl Hv.
  assert (super_blocks s1 = super_blocks s) as Esb by (by injection Hf).
  assert (mount_p_table s1 = mount_p_table s) as Emt by (by injection Hf).
  assert (nodes s1 = nodes s) as En by (unfold nodes at 1; by rewrite Esb).
  split; [|split; [done..|by rewrite Hv]]. split; rewrite ?Esb, ?Emt, ?En, ?Hv; [done|lia| |done..].
  intros p Hp. specialize (O3 p Hp). lia.
Qed.

(** References to two vnodes, one of which is given back. *)
Lemma wp_put_first s p v q w (Q : unit → V → Prop) :
  vfs_ok s → vnodes s !! p = Some v → vnodes s !! q = Some w → p ≠ q → Q tt (hold s q w) →
  wp (vfs_vnode_put p) (hold (hold s p v) q w) Q.
Proof.
  intros Ho Hp Hq Hne HQ. destruct (vo_addr _ Ho p); [by eexists|]. pose proof (vo_refs _ Ho _ _ Hp).
  apply (wp_put _ p v); [lia|cbn; by rewrite lookup_insert_ne, lookup_insert_eq by done|lia|].
  replace (set_vnodes _ _) with (hold s q w); [done|]. destruct s. unfold hold, set_vnodes. cbn in *. f_equal.
  by rewrite insert_insert_ne, insert_insert_eq, (insert_id _ p v) by done.
Qed.

Lemma wp_put_second s p v q w (Q : unit → V → Prop) :
  vfs_ok s → vnodes s !! p = Some v → vnodes s !! q = Some w → p ≠ q → Q tt (hold s p v) →
  wp (vfs_vnode_put q) (hold (hold s p v) q w) Q.
Proof.
  intros Ho Hp Hq Hne HQ. destruct (vo_addr _ Ho q); [by eexists|]. pose proof (vo_refs _ Ho _ _ Hq).
  apply (wp_put _ q w); [lia|cbn; by rewrite lookup_insert_eq|lia|].
  replace (set_vnodes _ _) with (hold s p v); [done|]. destruct s. unfold hold, set_vnodes. cbn in *. f_equal.
  by rewrite insert_insert_eq, (insert_id _ q w) by (by rewrite lookup_insert_ne by done).
Qed.

Lemma wp_put_held s p v (Q : unit → V → Prop) :
  vfs_ok s → vnodes s !! p = Some v → Q tt s → wp (vfs_vnode_put p) (hold s p v) Q.
Proof.
  intros Ho Hp HQ. destruct (vo_addr _ Ho p); [by eexists|]. pose proof (vo_refs _ Ho _ _ Hp).
  apply (wp_put _ p v); [lia|cbn; by rewrite lookup_insert_eq|lia|]. by rewrite hold_back.
Qed.

Lemma hold_nodes s p v : nodes (hold s p v) = nodes s.
Proof. done. Qed.

(** The driver's [lookup], from a vnode that is held. *)
Lemma wp_driver_lookup s cur v n b lookup t (Q : Z → V → Prop) :
  vfs_ok s → vnodes s !! cur = Some v → super_blocks s !! v_super_block v = Some b →
  nodes s (at_position v) = Some n → mode_of n (v_mode v) → vnode_ops_at (v_ops b) ≫= op_lookup = Some lookup →
  (∀ s1, vfs_ok s1 → later s s1 → vnodes s1 !! cur = Some v → (plenty s → node_entry (Some n) t = None) → Q 0 (hold s1 cur v)) →
  (∀ s1 p nv m ino, vfs_ok s1 → later s s1 → vnodes s1 !! cur = Some v → vnodes s1 !! p = Some nv → p ≠ 0 → cur ≠ p →
     vnodes s !! p = None → node_entry (Some n) t = Some ino → at_position nv = (v_super_block v, ino) → v_refcount nv = 1 →
     nodes s (at_position nv) = Some m → mode_of m (v_mode nv) → Q p (hold s1 cur v)) →
  wp (lookup cur t) (hold s cur v) Q.
Proof.
  intros Ho Hv Hb Hn Hmode Hop HQ0 HQ1.
  assert (vnodes (hold s cur v) !! cur = Some (with_v_refcount (v_refcount v + 1) v)) as Hv' by (cbn; apply lookup_insert_eq).
  eapply wp_mono; [by eapply (ft_lookup (hold s cur v) cur _ b n lookup t (vo_next _ Ho) (vo_tree _ Ho) Hv')|].
  intros p s1 (Hf & Hnx & Hmem & Hok & Hnodes & Hr). change (fixed_part (hold s cur v)) with (fixed_part s) in Hf.
  change (next_object (hold s cur v)) with (next_object s) in *. change (super_blocks (hold s cur v)) with (super_blocks s) in *.
  change (drv (hold s cur v)) with (drv s) in *. change (heap_answers (hold s cur v)) with (heap_answers s) in *.
  assert (plenty s → plenty s1) as Hpl by (intros [? ?]; by apply Hmem).
  destruct Hr as [(-> & Ev & Hnone)|(ino & m & nv & Hent & Hp & Hpr & Ev & Hpos & Hr1 & Hm & Hmm)].
  - set (s2 := set_vnodes (vnodes s) s1). destruct (driver_step s s2) as [Ho2 L2]; [done..|].
    replace s1 with (hold s2 cur v); [apply HQ0; [done..|by intros [? ?]; apply Hnone]|].
    unfold hold, s2 in *. destruct s1. cbn in *. by rewrite Ev.
  - assert (super_blocks s !! v_super_block nv = Some b) as Hb' by (unfold at_position in Hpos; by injection Hpos as -> _).
    destruct (new_vnode s s1 p nv b m) as [Ho2 L2]; [done..|]. set (s2 := set_vnodes _ s1) in *.
    assert (vnodes s !! p = None) as Hnone.
    { destruct (vnodes s !! p) eqn:E; [|done]. destruct (vo_addr _ Ho p); [by eexists|lia]. }
    assert (cur ≠ p) as Hcp by (intros ->; by rewrite Hnone in Hv).
    replace s1 with (hold s2 cur v).
    + eapply HQ1; try done; cbn; [by rewrite lookup_insert_ne by done|by rewrite lookup_insert_eq].
    + unfold hold, s2 in *. destruct s1. cbn in *. rewrite Ev. f_equal. by rewrite insert_insert_ne by done.
Qed.

(* ------------------------------------------------------------------ *)
(** ** The loop *)

Lemma skip_slashes_length p : (length (skip_slashes p) <= length p)%nat.
Proof. induction p as [|c p IH]; cbn; [done|]. destruct (is_slash c); cbn; lia. Qed.

Lemma upto_slash_length p t r : upto_slash p = (t, r) → p ≠ [] → (length r < length p)%nat.
Proof.
  revert t r. induction p as [|c p IH]; intros t r E Hp; [done|]. cbn in *. destruct (is_slash c); [injection E as <- <-; lia|].
  destruct (upto_slash p) as [t' r'] eqn:Eu. injection E as <- <-. destruct p as [|c' p].
  - cbn in Eu. injection Eu as <- <-. cbn. lia.
  - specialize (IH t' r' eq_refl). cbn in *. specialize (IH ltac:(done)). lia.
Qed.

Lemma path_token_length p t r : path_token p = Some (t, r) → (length r < length p)%nat.
Proof.
  unfold path_token. pose proof (skip_slashes_length p). destruct (skip_slashes p) as [|c q] eqn:E; [done|]. intros Eu.
  pose proof (upto_slash_length (c :: q) t r) as Hl. destruct (upto_slash (c :: q)) as [t' r']. injection Eu as -> ->.
  specialize (Hl eq_refl ltac:(done)). lia.
Qed.

Lemma cstring_app a b : Forall (λ c, 0 < c < 256) a → cstring (a ++ 0 :: b) = a.
Proof. induction 1 as [|c a Hc _ IH]; [done|]. cbn. rewrite (proj2 (Z.eqb_neq c 0)) by lia. by rewrite IH. Qed.

(** The target of a link, as the buffer has it. *)
Lemma link_target out target :
  Forall (λ c, 0 < c < 256) target → blen out = 256 → take (Z.to_nat (Z.min (blen target) 255)) out = take 255 target →
  ∃ b, splice (Z.min (blen target) 255) [0] out = Some b ∧ cstring b = take 255 target.
Proof.
  intros Ht Hl Ho. unfold splice, blen in *. cbn [length]. eexists. split; [guard_true; reflexivity|].
  rewrite Ho. apply cstring_app. by apply Forall_take.
Qed.

Definition start_of s (path : str) : option (position * str) :=
  match best_mount path None 0 (mount_p_table s) with
  | None => None
  | Some m =>
      match super_blocks s !! mp_super_block m with
      | None => None
      | Some b =>
          match vnodes s !! fs_root b with
          | None => None
          | Some v => Some (at_position v, skip_slashes (drop (length (mp_path m)) path))
          end
      end
  end.

Lemma best_mount_in path best k l m : best_mount path best k l = Some m → best = Some m ∨ m ∈ l.
Proof.
  revert best k. induction l as [|m' l IH]; intros best k; cbn; [by left|]. destruct (_ && _); intros H.
  - apply IH in H as [[= ->]|H]; right; [left|by right].
  - apply IH in H as [H|H]; [by left|right; by right].
Qed.

(** An absolute path, in a state reached from [s]. *)
Lemma start_found s s0 path :
  vfs_ok s → later s s0 →
  match best_mount path None 0 (mount_p_table s0) with
  | None => start_of s path = None
  | Some m => ∃ b v, super_blocks s0 !! mp_super_block m = Some b ∧ vnodes s0 !! fs_root b = Some v ∧ is_Some (vnodes s !! fs_root b) ∧
      start_of s path = Some (at_position v, skip_slashes (drop (length (mp_path m)) path))
  end.
Proof.
  intros Ho [Hf _ _ _ Hv]. assert (super_blocks s0 = super_blocks s) as -> by (by injection Hf).
  assert (mount_p_table s0 = mount_p_table s) as -> by (by injection Hf). unfold start_of.
  destruct (best_mount path None 0 (mount_p_table s)) as [m|] eqn:E; [|done].
  destruct (vo_mounts _ Ho m) as (b & v & Hb & Hr); [by apply best_mount_in in E as [?|?]|].
  exists b, v. rewrite Hb, Hr. split; [done|]. split; [by eapply lookup_weaken|]. split; [by eexists|done].
Qed.

Lemma later_fixed s s1 : later s s1 → super_blocks s1 = super_blocks s ∧ kstack s1 = kstack s ∧ mount_p_table s1 = mount_p_table s.
Proof. intros [Hf _ _ _ _]. by injection Hf. Qed.

(** A turn that finds a name, or does not. *)
Lemma wp_walk_step restart follow s cur v path t rest d (Q : Z * str * Z + Z → V → Prop) :
  vfs_ok s → vnodes s !! cur = Some v → path_token path = Some (t, rest) →
  (∀ s1, vfs_ok s1 → later s s1 → (plenty s → node_entry (nodes s (at_position v)) t = None) → Q (inr 0) s1) →
  (∀ s1 p nv m ino, vfs_ok s1 → later s s1 → vnodes s1 !! cur = Some v → vnodes s1 !! p = Some nv → p ≠ 0 → cur ≠ p →
     vnodes s !! p = None → node_entry (nodes s (at_position v)) t = Some ino → at_position nv = (v_super_block v, ino) → v_refcount nv = 1 →
     nodes s (at_position nv) = Some m → mode_of m (v_mode nv) →
     wp (walk_next restart follow cur rest d p) (hold (hold s1 cur v) p nv) Q) →
  wp (walk_step restart follow (cur, path, d)) (hold s cur v) Q.
Proof.
  intros Ho Hv Ht HQ0 HQ1. destruct (vo_node _ Ho _ _ Hv) as ([b Hb] & n & Hn & Hmode). rewrite Hn in *.
  destruct (ft_has_lookup s (at_position v) b n (vo_tree _ Ho) Hb Hn) as (ops & Hops & [lookup Hl] & _).
  assert (vnode_ops_at (v_ops b) ≫= op_lookup = Some lookup) as Hop by (by rewrite Hops).
  unfold walk_step. rewrite Ht. wp_step. eapply wp_vnode; [cbn; apply lookup_insert_eq|]. wp_step.
  eapply wp_super_block; [exact Hb|]. rewrite Hop. wp_step. eapply wp_driver_lookup; try done.
  - intros s1 Ho1 L1 Hv1 Hnone. change (0 =? 0) with true. cbn iota. wp_step. apply wp_put_held; [done..|]. wp_step. by apply HQ0.
  - intros s1 p nv m ino Ho1 L1 Hv1 Hp Hp0 Hcp Hnew Hent Hpos Hr Hm Hmm. rewrite (proj2 (Z.eqb_neq p 0)) by done. wp_step.
    apply (wp_get_ref _ p nv); [done|cbn; by rewrite lookup_insert_ne by done|lia|]. by eapply HQ1.
Qed.

Lemma wp_read_link_path s cur v p nv l rest (Q : option str → V → Prop) :
  vfs_ok s → vnodes s !! p = Some nv → nodes s (at_position nv) = Some (NLink l) →
  (∀ s1, vfs_ok s1 → later s s1 → vnodes s1 = vnodes s → Q (Some (link_path l rest)) (hold (hold s1 cur v) p nv)) →
  wp (read_link_path p rest) (hold (hold s cur v) p nv) Q.
Proof.
  intros Ho Hp Hn HQ. destruct (vo_node _ Ho _ _ Hp) as ([b Hb] & _).
  destruct (ft_has_lookup s (at_position nv) b _ (vo_tree _ Ho) Hb Hn) as (ops & Hops & _ & [readlink Hl]).
  unfold read_link_path, v_ops_of. do 2 wp_step. eapply wp_vnode; [cbn; apply lookup_insert_eq|]. wp_step.
  eapply wp_super_block; [exact Hb|]. eapply wp_of_opt; [exact Hops|]. wp_step. eapply wp_of_opt; [exact Hl|]. do 2 wp_step.
  set (s2 := hold (hold s cur v) p nv) in *.
  assert (vnodes s2 !! p = Some (with_v_refcount (v_refcount nv + 1) nv)) as Hp2 by (cbn; apply lookup_insert_eq).
  wp_step. eapply wp_mono.
  { eapply (ft_readlink s2 p _ b l ops readlink); [apply (vo_tree _ Ho)|exact Hp2|exact Hb|exact Hn|exact Hops|exact Hl|].
    unfold blen. by rewrite length_replicate. }
  intros [len out] s3 (d & -> & Hok & Hnodes & Hmem & Hlen & Hbl & Htake). cbn in Hlen, Hbl, Htake. subst len.
  rewrite (proj2 (Z.ltb_ge _ 0)) by (unfold blen; lia). wp_step.
  destruct (link_target out l) as (bb & Hsp & Hc); [by eapply (ft_target s); [apply Ho|]|done..|].
  eapply wp_of_opt; [exact Hsp|]. wp_step. rewrite Hc.
  destruct (driver_step s (set_drv d s)) as [Ho' L']; [done|done|done|done|exact Hnodes|intros [? ?]; split; [done|by apply Hmem]|done|].
  by apply (HQ (set_drv d s)).
Qed.

(** [vfs_walk], given that its loop does what it should. *)
Lemma wp_vfs_walk s s0 restart follow base v path r :
  vfs_ok s0 → later s s0 → vnodes s0 !! base = Some v → is_Some (vnodes s !! base) ∨ v_refcount v = 1 →
  (path = [] → r = Some (at_position v)) →
  (∀ s1, vfs_ok s1 → later s s1 → vnodes s1 !! base = Some v →
     wp (while_n (walk_fuel path) (walk_step restart follow) (base, path, 0)) (hold s1 base v) (found s r)) →
  wp (vfs_walk restart base path follow) s0 (found s r).
Proof.
  intros Ho L Hv Hd Hnil Hloop. destruct (vo_addr _ Ho base) as [Hb0 _]; [by eexists|]. pose proof (vo_refs _ Ho _ _ Hv) as Hr.
  unfold vfs_walk. rewrite (proj2 (Z.eqb_neq base 0)) by lia. wp_step. apply (wp_get_ref _ base v); [lia|done|lia|].
  destruct path as [|c path].
  { wp_step. right. exists v, s0. rewrite Hnil by done. split; [lia|]. done. }
  wp_step. apply wp_strdup; [apply Ho|]. cbn [hold heap_answers next_object set_vnodes].
  destruct (heap_ok s0 (next_object s0) (tail (heap_answers s0))) as [Hoa La]; [done|lia|by intros ->|].
  destruct (heap_ok s0 (next_object s0 + 1) (tail (heap_answers s0))) as [Hob Lb]; [done|lia|by intros ->|].
  destruct (decide (head (heap_answers s0) = Some false)) as [E|E]; [left|right]; (split; [|exact E]).
  - wp_step. change (set_heap (next_object s0) (tail (heap_answers s0)) (hold s0 base v))
      with (hold (set_heap (next_object s0) (tail (heap_answers s0)) s0) base v).
    apply wp_put_held; [done|done|]. wp_step. left. split; [done|]. split; [|split; [done|by eapply later_trans]].
    intros Hpl%(la_plenty _ _ L). destruct Hpl as [Hpl _]. by rewrite Hpl in E.
  - apply (Hloop (set_heap (next_object s0 + 1) (tail (heap_answers s0)) s0)); [done|by eapply later_trans|done].
Qed.

(** The loop does what [resolves] says. *)
Lemma found_zero s s1 r : vfs_ok s1 → later s s1 → (plenty s → r = None) → found s r 0 s1.
Proof. intros Ho L Hr. by left. Qed.

Lemma mode_link n md : mode_of n md → S_ISLNK md = match n with NLink _ => true | _ => false end.
Proof. destruct n; cbn; tauto. Qed.

Lemma link_path_length l rest : (length (link_path l rest) <= 255)%nat.
Proof. unfold link_path. rewrite length_take. lia. Qed.

Section loop.
Context (s : V) (follow : bool).
Hypothesis (Hs : vfs_ok s).

(** The loop from a position, with [n] more calls possible. *)
Definition walks (n : nat) (p : position) (path : str) (d : Z) (r : option position) : Prop :=
  ∀ s0 cur v fuel, vfs_ok s0 → later s s0 → vnodes s0 !! cur = Some v → at_position v = p →
    is_Some (vnodes s !! cur) ∨ v_refcount v = 1 → 0 <= d <= MAX_SYMLINK_DEPTH →
    (Z.of_nat (length path) + (MAX_SYMLINK_DEPTH - d) * 256 < Z.of_nat fuel) →
    wp (while_n fuel (walk_step (λ q, lookup_path_n n q 0 follow) follow) (cur, path, d)) (hold s0 cur v) (found s r).

(** The first turn finds [ino] under the name [t]. *)
Lemma walks_turn n p path d t rest ino m r :
  path_token path = Some (t, rest) → node_entry (nodes s p) t = Some ino → nodes s (p.1, ino) = Some m →
  (∀ s1 cur v q nv fuel, vfs_ok s1 → later s s1 → vnodes s1 !! cur = Some v → vnodes s1 !! q = Some nv → cur ≠ q → q ≠ 0 →
     at_position v = p → at_position nv = (p.1, ino) → v_refcount nv = 1 → mode_of m (v_mode nv) →
     is_Some (vnodes s !! cur) ∨ v_refcount v = 1 → 0 <= d <= MAX_SYMLINK_DEPTH →
     (Z.of_nat (length path) + (MAX_SYMLINK_DEPTH - d) * 256 <= Z.of_nat fuel) →
     wp (walk_next (λ q, lookup_path_n n q 0 follow) follow cur rest d q) (hold (hold s1 cur v) q nv) (λ x s',
       wp (match x with
           | inl a => while_n fuel (walk_step (λ q, lookup_path_n n q 0 follow) follow) a
           | inr b => ret b
           end) s' (found s r))) →
  walks n p path d r.
Proof.
  intros Ht Hent Hm Hnext s0 cur v fuel Ho L Hv Hpos Hd Hrange Hfuel. destruct fuel as [|fuel]; [unfold MAX_SYMLINK_DEPTH in *; lia|].
  cbn [while_n]. apply wp_bind. eapply wp_walk_step; [done|done|done| |].
  - intros s1 Ho1 L1 Hnone. apply wp_ret. apply found_zero; [done|by eapply later_trans|].
    intros Hpl%(la_plenty _ _ L). specialize (Hnone Hpl). by rewrite (la_nodes _ _ L), Hpos, Hent in Hnone.
  - intros s1 q nv m' ino' Ho1 L1 Hv1 Hq Hq0 Hcq Hnew Hent' Hpos' Hr Hm' Hmm. rewrite (la_nodes _ _ L), Hpos, Hent in Hent'.
    injection Hent' as <-. assert (v_super_block v = p.1) as Esb by (by rewrite <-Hpos). rewrite Esb in Hpos'.
    rewrite (la_nodes _ _ L), Hpos', Hm in Hm'. injection Hm' as <-.
    apply Hnext; try done; [by eapply later_trans|lia].
Qed.

(** The turn finds a link that is to be followed: the path goes on elsewhere. *)
Lemma wp_walk_link n s1 cur v q nv l rest d fuel r :
  vfs_ok s1 → later s s1 → vnodes s1 !! cur = Some v → vnodes s1 !! q = Some nv → cur ≠ q →
  nodes s (at_position nv) = Some (NLink l) → mode_of (NLink l) (v_mode nv) → (rest = [] → follow = true) → d < MAX_SYMLINK_DEPTH →
  (∀ s2, vfs_ok s2 → later s s2 → vnodes s2 = vnodes s1 →
     if bool_decide (head (link_path l rest) = Some SLASH)
     then wp (lookup_path_n n (link_path l rest) 0 follow) s2 (found s r)
     else wp (while_n fuel (walk_step (λ q, lookup_path_n n q 0 follow) follow) (cur, link_path l rest, d + 1)) (hold s2 cur v) (found s r)) →
  wp (walk_next (λ q, lookup_path_n n q 0 follow) follow cur rest d q) (hold (hold s1 cur v) q nv) (λ x s',
    wp (match x with
        | inl a => while_n fuel (walk_step (λ q, lookup_path_n n q 0 follow) follow) a
        | inr b => ret b
        end) s' (found s r)).
Proof.
  intros Ho L Hv Hq Hcq Hn Hmm Hfin Hd HQ. unfold walk_next. wp_step. eapply wp_vnode; [cbn; apply lookup_insert_eq|].
  cbn [v_mode with_v_refcount]. rewrite (mode_link _ _ Hmm).
  assert (bool_decide (rest = []) && negb follow = false) as ->.
  { clear HQ. case_bool_decide as E; [by rewrite (Hfin E)|done]. }
  rewrite (proj2 (Z.ltb_ge _ _)) by lia. wp_step.
  apply (wp_read_link_path s1 cur v q nv l); [done|done|by rewrite (la_nodes _ _ L)|].
  intros s2 Ho2 L2 Ev. wp_step. apply wp_put_second; [done|by rewrite Ev|by rewrite Ev|done|].
  assert (later s s2) as L' by (by eapply later_trans). case_bool_decide as Hhead.
  - wp_step. apply wp_put_held; [done|by rewrite Ev|]. wp_step. eapply wp_mono; [by apply HQ|]. intros p s3 Hf. apply wp_ret. by apply wp_ret.
  - wp_step. apply wp_strdup; [apply Ho2|]. cbn [hold heap_answers next_object set_vnodes].
    destruct (heap_ok s2 (next_object s2) (tail (heap_answers s2))) as [Hoa La]; [done|lia|by intros ->|].
    destruct (heap_ok s2 (next_object s2 + 1) (tail (heap_answers s2))) as [Hob Lb]; [done|lia|by intros ->|].
    destruct (decide (head (heap_answers s2) = Some false)) as [E|E]; [left|right]; (split; [|exact E]).
    + wp_step. change (set_heap (next_object s2) (tail (heap_answers s2)) (hold s2 cur v))
        with (hold (set_heap (next_object s2) (tail (heap_answers s2)) s2) cur v).
      apply wp_put_held; [done|by cbn; rewrite Ev|]. wp_step. apply wp_ret. apply found_zero; [done|by eapply later_trans|].
      intros Hpl%(la_plenty _ _ L'). destruct Hpl as [Hpl _]. by rewrite Hpl in E.
    + apply wp_ret. apply (HQ (set_heap (next_object s2 + 1) (tail (heap_answers s2)) s2)); [done|by eapply later_trans|done].
Qed.

(** A new call for an absolute path. *)
Lemma wp_absolute n s0 path base r :
  vfs_ok s0 → later s s0 → head path = Some SLASH →
  match start_of s path with
  | None => r = None
  | Some (q, path') => (path' = [] → r = Some q) ∧ walks n q path' 0 r
  end →
  wp (lookup_path_n (S n) path base follow) s0 (found s r).
Proof.
  intros Ho L Hhead Hr. cbn [lookup_path_n]. rewrite bool_decide_true by done. unfold vfs_find_mount_point.
  change (assert_ (0 =? 0)) with (@ret V unit tt). do 5 wp_step. pose proof (start_found s s0 path Hs L) as Hst.
  destruct (best_mount path None 0 (mount_p_table s0)) as [m|].
  - destruct Hst as (b & v & Hb & Hv & Hroot & Est). rewrite Est in Hr. destruct Hr as [Hnil Hw]. wp_step.
    apply wp_bind. eapply wp_super_block; [exact Hb|]. eapply wp_vfs_walk; [done|done|exact Hv|by left|exact Hnil|].
    intros s1 Ho1 L1 Hv1. apply Hw; [done|done|exact Hv1|done|by left|unfold MAX_SYMLINK_DEPTH; lia|].
    unfold walk_fuel, MAX_SYMLINK_DEPTH. lia.
  - rewrite Hst in Hr. subst r. wp_step. by apply found_zero.
Qed.

Lemma resolves_nil k q r : resolves (nodes s) (start_of s) follow k q [] 0 r → r = Some q.
Proof. intros H. inversion H; subst; try done. Qed.

Lemma resolves_walks k p path d r :
  resolves (nodes s) (start_of s) follow k p path d r → ∀ n, (k <= n)%nat → walks n p path d r.
Proof.
  induction 1 as [k p path d Ht|k p path d t rest Ht Hent|k p path d t rest ino m r Ht Hent Hm Hnl _ IH
    |k p path d t ino l Ht Hent Hm Hf|k p path d t rest ino l Ht Hent Hm Hf Hd|k p path d t rest ino l r Ht Hent Hm Hf Hd Hh _ IH
    |k p path d t rest ino l q path' r Ht Hent Hm Hf Hd Hh Hst Hres IH|k p path d t rest ino l Ht Hent Hm Hf Hd Hh Hst]; intros n Hk.
  - intros s0 cur v fuel Ho L Hv Hpos Hdom Hrange Hfuel. destruct fuel as [|fuel]; [unfold MAX_SYMLINK_DEPTH in *; lia|].
    cbn [while_n]. unfold walk_step at 1. rewrite Ht. do 3 wp_step. right. exists v, s0. destruct (vo_addr _ Ho cur); [by eexists|].
    split; [lia|]. by rewrite Hpos.
  - intros s0 cur v fuel Ho L Hv Hpos Hdom Hrange Hfuel. destruct fuel as [|fuel]; [unfold MAX_SYMLINK_DEPTH in *; lia|].
    cbn [while_n]. apply wp_bind. eapply wp_walk_step; [done|done|done| |].
    + intros s1 Ho1 L1 Hnone. apply wp_ret. apply found_zero; [done|by eapply later_trans|done].
    + intros s1 q nv m ino Ho1 L1 Hv1 Hq Hq0 Hcq Hnew Hent'. by rewrite (la_nodes _ _ L), Hpos, Hent in Hent'.
  - eapply walks_turn; [done..|]. intros s1 cur v q nv fuel Ho1 L1 Hv Hq Hcq Hq0 Hp Hnp Hr Hmm Hdom Hrange Hfuel.
    unfold walk_next. wp_step. eapply wp_vnode; [cbn; apply lookup_insert_eq|]. cbn [v_mode with_v_refcount].
    rewrite (mode_link _ _ Hmm). assert (match m with NLink _ => true | _ => false end = false) as -> by (destruct m; [done|done|by destruct (Hnl target)]).
    wp_step. apply wp_put_first; [done..|]. apply wp_ret. apply path_token_length in Ht. apply IH; [done|done|done|done|done|by right|done|lia].
  - eapply walks_turn; [done..|]. intros s1 cur v q nv fuel Ho1 L1 Hv Hq Hcq Hq0 Hp Hnp Hr Hmm Hdom Hrange Hfuel.
    unfold walk_next. wp_step. eapply wp_vnode; [cbn; apply lookup_insert_eq|]. cbn [v_mode with_v_refcount].
    rewrite (mode_link _ _ Hmm), Hf. cbn [negb]. rewrite bool_decide_true by done. cbn [andb].
    wp_step. apply wp_put_first; [done..|]. wp_step. apply wp_ret. right. exists nv, s1. rewrite Hnp. repeat (split; [done|]). by right.
  - eapply walks_turn; [done..|]. intros s1 cur v q nv fuel Ho1 L1 Hv Hq Hcq Hq0 Hp Hnp Hr Hmm Hdom Hrange Hfuel.
    unfold walk_next. wp_step. eapply wp_vnode; [cbn; apply lookup_insert_eq|]. cbn [v_mode with_v_refcount].
    rewrite (mode_link _ _ Hmm). assert (bool_decide (rest = []) && negb follow = false) as ->.
    { case_bool_decide as E; [by rewrite (Hf E)|done]. }
    rewrite (proj2 (Z.ltb_lt _ _)) by lia. wp_step. apply wp_put_second; [done..|]. wp_step. apply wp_put_held; [done..|]. wp_step. apply wp_ret.
    by apply found_zero.
  - eapply walks_turn; [done..|]. intros s1 cur v q nv fuel Ho1 L1 Hv Hq Hcq Hq0 Hp Hnp Hr Hmm Hdom Hrange Hfuel.
    eapply wp_walk_link; [done|done|done|done|done|by rewrite Hnp|done|done|done|]. intros s2 Ho2 L2 Ev.
    rewrite bool_decide_false by done. pose proof (link_path_length l rest). apply IH; [done|done|done|by rewrite Ev|done|done|lia|].
    unfold MAX_SYMLINK_DEPTH in *. lia.
  - eapply walks_turn; [done..|]. intros s1 cur v q' nv fuel Ho1 L1 Hv Hq Hcq Hq0 Hp Hnp Hr Hmm Hdom Hrange Hfuel.
    eapply wp_walk_link; [done|done|done|done|done|by rewrite Hnp|done|done|done|]. intros s2 Ho2 L2 Ev.
    rewrite bool_decide_true by done. destruct n as [|n]; [lia|]. apply wp_absolute; [done..|]. rewrite Hst.
    split; [intros ->; by eapply resolves_nil|]. apply IH. lia.
  - eapply walks_turn; [done..|]. intros s1 cur v q' nv fuel Ho1 L1 Hv Hq Hcq Hq0 Hp Hnp Hr Hmm Hdom Hrange Hfuel.
    eapply wp_walk_link; [done|done|done|done|done|by rewrite Hnp|done|done|done|]. intros s2 Ho2 L2 Ev.
    rewrite bool_decide_true by done. destruct n as [|n]; [lia|]. apply wp_absolute; [done..|]. by rewrite Hst.
Qed.
End loop.

(** Where the resolution of a path begins. *)
Definition begins s (path : str) (base : Z) : option (position * str) :=
  if bool_decide (head path = Some SLASH) then start_of s path
  else (λ v, (at_position v, path)) <$> vnodes s !! base.

Lemma wp_lookup_path s path base follow k p path0 r :
  vfs_ok s → begins s path base = Some (p, path0) →
  resolves (nodes s) (start_of s) follow k p path0 0 r → (k < kstack s)%nat →
  wp (vfs_lookup_path path base follow) s (found s r).
Proof.
  intros Ho Hb Hr Hk. unfold vfs_lookup_path. do 2 wp_step. destruct (kstack s) as [|n]; [lia|]. unfold begins in Hb.
  pose proof (resolves_walks s follow Ho _ _ _ _ _ Hr n ltac:(lia)) as Hw.
  assert (path0 = [] → r = Some p) as Hnil by (intros ->; by eapply resolves_nil).
  case_bool_decide as Hh.
  - apply (wp_absolute s follow Ho n s path base r Ho (later_refl s) Hh). by rewrite Hb.
  - destruct (vnodes s !! base) as [v|] eqn:Hv; [|done]. injection Hb as <- <-. cbn [lookup_path_n]. rewrite bool_decide_false by done.
    destruct (vo_addr _ Ho base); [by eexists|]. rewrite (proj2 (Z.eqb_neq base 0)) by lia.
    eapply wp_vfs_walk; [done|apply later_refl|exact Hv|left; by eexists|done|]. intros s1 Ho1 L1 Hv1.
    apply Hw; [done|done|exact Hv1|done|left; by eexists|unfold MAX_SYMLINK_DEPTH; lia|unfold walk_fuel, MAX_SYMLINK_DEPTH; lia].
Qed.

(** *** Links that lead to themselves *)

Lemma link_path_whole path : (length path <= 255)%nat → link_path path [] = path.
Proof. intros H. unfold link_path. rewrite bool_decide_true by done. by rewrite !take_ge by (rewrite ?take_ge; lia). Qed.

Lemma match_nonempty {A} (p : str) (x y : A) : p ≠ [] → match p with [] => x | _ => y end = y.
Proof. by destruct p. Qed.

Section endless.
Context (s : V) (path path0 t : str) (q : position) (ino : Z).
Hypothesis (Hs : vfs_ok s) (Hpl : plenty s) (Hh : head path = Some SLASH) (Hst : start_of s path = Some (q, path0))
  (Ht : path_token path0 = Some (t, [])) (Hent : node_entry (nodes s q) t = Some ino)
  (Hl : nodes s (q.1, ino) = Some (NLink path)) (Hlen : (length path <= 255)%nat).

(** The turn that finds the link calls [restart] with the path it began with. *)
Lemma turn_restarts restart s0 cur v d :
  vfs_ok s0 → later s s0 → vnodes s0 !! cur = Some v → at_position v = q → d < MAX_SYMLINK_DEPTH →
  (∀ s1, vfs_ok s1 → later s s1 → restart path s1 = None) →
  walk_step restart true (cur, path0, d) (hold s0 cur v) = None.
Proof.
  intros Ho L Hv Hpos Hd Hre. destruct (vo_node _ Ho _ _ Hv) as ([b Hb] & n & Hn & Hmode).
  destruct (ft_has_lookup s0 (at_position v) b n (vo_tree _ Ho) Hb Hn) as (ops & Hops & [lookup Hlk] & _).
  unfold walk_step. rewrite Ht. apply bind_fault. eapply wp_vnode; [cbn; apply lookup_insert_eq|].
  apply bind_fault. eapply wp_super_block; [exact Hb|]. rewrite Hops. cbn [mbind option_bind]. rewrite Hlk. apply bind_fault.
  assert (nodes s0 q = Some n) as Hnq by (by rewrite <-Hpos). rewrite (la_nodes _ _ L) in Hnq. rewrite Hnq in Hent.
  eapply wp_driver_lookup; [done|done|done|done|done|by rewrite Hops|..].
  - intros s1 _ _ _ Hnone. specialize (Hnone (la_plenty _ _ L Hpl)). by rewrite Hent in Hnone.
  - intros s1 p nv m ino' Ho1 L1 Hv1 Hp Hp0 Hcp _ Hent' Hpos' Hr Hm Hmm. rewrite Hent in Hent'. injection Hent' as <-.
    rewrite (proj2 (Z.eqb_neq p 0)) by done. apply bind_fault.
    apply (wp_get_ref _ p nv); [done|cbn; by rewrite lookup_insert_ne by done|lia|].
    assert (later s s1) as L' by (by eapply later_trans).
    assert (at_position nv = (q.1, ino)) as Hpn by (rewrite Hpos', <-Hpos; done). rewrite Hpn, (la_nodes _ _ L), Hl in Hm. injection Hm as <-.
    unfold walk_next. apply bind_fault. eapply wp_vnode; [cbn; apply lookup_insert_eq|]. cbn [v_mode with_v_refcount].
    rewrite (mode_link _ _ Hmm), bool_decide_true by done. cbn [andb negb]. rewrite (proj2 (Z.ltb_ge _ _)) by lia. apply bind_fault.
    apply (wp_read_link_path s1 cur v p nv path); [done|done|by rewrite Hpn, (la_nodes _ _ L')|].
    intros s2 Ho2 L2 Ev. apply bind_fault. apply wp_put_second; [done|by rewrite Ev..|done|]. rewrite link_path_whole, bool_decide_true by done.
    apply bind_fault. apply wp_put_held; [done|by rewrite Ev|]. unfold bind. rewrite Hre; [done|done|by eapply later_trans].
Qed.

Lemma lookup_endless n base s0 : vfs_ok s0 → later s s0 → lookup_path_n n path base true s0 = None.
Proof.
  revert base s0. induction n as [|n IH]; intros base s0 Ho L; [done|]. cbn [lookup_path_n]. rewrite bool_decide_true by done.
  unfold vfs_find_mount_point. apply bind_fault. change (assert_ (0 =? 0)) with (@ret V unit tt). do 4 wp_step. apply wp_ret.
  pose proof (start_found s s0 path Hs L) as Hsf. destruct (best_mount path None 0 (mount_p_table s0)) as [m|]; [|by rewrite Hst in Hsf].
  destruct Hsf as (b & v & Hb & Hv & _ & Est). rewrite Hst in Est. injection Est as Eq Ep. apply bind_fault. eapply wp_super_block; [exact Hb|].
  rewrite <-Ep. destruct (vo_addr _ Ho (fs_root b)) as [Hb0 _]; [by eexists|]. pose proof (vo_refs _ Ho _ _ Hv).
  unfold vfs_walk. rewrite (proj2 (Z.eqb_neq _ 0)) by lia. apply bind_fault. apply (wp_get_ref _ _ v); [lia|done|lia|].
  assert (path0 ≠ []) as Hne by (intros E; by rewrite E in Ht). rewrite (match_nonempty path0) by done.
  apply bind_fault. apply wp_strdup; [apply Ho|]. cbn [hold heap_answers next_object set_vnodes].
  destruct (la_plenty _ _ L Hpl) as [Ha _]. rewrite Ha. right. split; [|done]. cbn [tail].
  destruct (heap_ok s0 (next_object s0 + 1) []) as [Hob Lb]; [done|lia|done|].
  assert (walk_fuel path0 = S (length path0 + 41 * 256 + 1))%nat as Ef by (unfold walk_fuel; lia). rewrite Ef. cbn [while_n].
  unfold bind at 1. change (set_heap (next_object s0 + 1) [] (hold s0 (fs_root b) v)) with (hold (set_heap (next_object s0 + 1) [] s0) (fs_root b) v).
  rewrite turn_restarts; [done|done|by eapply later_trans|done|by rewrite Eq|unfold MAX_SYMLINK_DEPTH; lia|]. intros s1 Ho1 L1. by apply IH.
Qed.
End endless.
End walk.

(* ------------------------------------------------------------------ *)
(** ** Theorems *)

(** C10: a path leads where its names lead. Whatever mounts the path crosses,
    and however relative and absolute links redirect it (at most 40 links in a
    row, and fewer absolute ones than the kernel stack has room for),
    [vfs_lookup_path] returns a vnode of the inode that [resolves] reaches, or
    null when there is none; it returns null otherwise only if memory runs out.
    The vnode has been given a reference, every vnode that existed before is as
    it was, and so are the mounts, the open files and the directory tree. *)
Theorem vfs_lookup_path_resolves `{FT : FileTree D} (s : vfs D) path base follow k p path0 r :
  vfs_ok s → begins s path base = Some (p, path0) → resolves (nodes s) (start_of s) follow k p path0 0 r → (k < kstack s)%nat →
  wp (vfs_lookup_path path base follow) s (λ q s',
    fixed_part s' = fixed_part s ∧ nodes s' = nodes s ∧
    (q = 0 ∧ (plenty s → r = None) ∧ vnodes s ⊆ vnodes s' ∨
     q ≠ 0 ∧ ∃ v, vnodes s' !! q = Some v ∧ r = Some (at_position v) ∧
       vnodes s ⊆ <[q := with_v_refcount (v_refcount v - 1) v]> (vnodes s'))).
Proof.
  intros Ho Hb Hr Hk. eapply wp_mono; [by eapply wp_lookup_path|].
  intros q s' [(-> & Hn & Ho' & L)|(v & s0 & Hq & -> & Hv & -> & Ho0 & L & _)].
  - split; [apply L|]. split; [apply L|]. left. split; [done|]. split; [done|]. apply L.
  - split; [apply L|]. split; [apply L|]. right. split; [done|]. eexists. split; [apply lookup_insert_eq|]. split; [done|].
    cbn. rewrite insert_insert_eq. replace (v_refcount v + 1 - 1) with (v_refcount v) by lia.
    rewrite refcount_back, insert_id by done. apply L.
Qed.

(** The vnodes that a lookup makes are never freed. The driver's [lookup]
    returns them with one reference and [vfs_walk] adds its own: when the
    caller has put the vnode that [vfs_lookup_path] returned, it is still
    allocated, with a reference that nobody holds. *)
Theorem vfs_lookup_path_leaks `{FT : FileTree D} (s : vfs D) path base follow k p path0 q0 :
  vfs_ok s → plenty s → begins s path base = Some (p, path0) →
  resolves (nodes s) (start_of s) follow k p path0 0 (Some q0) → (k < kstack s)%nat →
  wp (q ← vfs_lookup_path path base follow; vfs_vnode_put q ;; ret q) s (λ q s', q ≠ 0 ∧
    (vnodes s !! q = None → ∃ v, vnodes s' !! q = Some v ∧ v_refcount v = 1)).
Proof.
  intros Ho Hpl Hb Hr Hk. wp_step. eapply wp_mono; [by eapply wp_lookup_path|].
  intros q s' [(-> & Hn & Ho' & L)|(v & s0 & Hq & -> & Hv & E & Ho0 & L & Hd)]; [by specialize (Hn Hpl)|].
  wp_step. apply wp_put_held; [done..|]. wp_step. split; [done|]. intros Hnone. exists v. split; [done|].
  destruct Hd as [[w Hw]|Hd]; [by rewrite Hnone in Hw|done].
Qed.

(** C35: the limit on symbolic links does not hold for absolute ones. A link
    that leads to itself by an absolute path makes [vfs_walk] and
    [vfs_lookup_path] call each other until the kernel stack is exhausted,
    however large it is: each call counts its links from 0. *)
Theorem vfs_absolute_link_unbounded `{FT : FileTree D} (s : vfs D) path base q path0 t ino :
  vfs_ok s → plenty s → head path = Some SLASH → start_of s path = Some (q, path0) → path_token path0 = Some (t, []) →
  node_entry (nodes s q) t = Some ino → nodes s (q.1, ino) = Some (NLink path) → (length path <= 255)%nat →
  vfs_lookup_path path base true s = None.
Proof.
  intros. unfold vfs_lookup_path, bind, gets. by eapply lookup_endless.
Qed.

(* ------------------------------------------------------------------ *)
(** ** Witnesses: a file system in memory *)

Inductive ram_node := RDir (entries : gmap (list Z) Z) | RFile | RLink (target : str).
Notation ramfs := (gmap Z ram_node).

Definition ram_mode (n : ram_node) : Z := match n with RDir _ => S_IFDIR | RFile => S_IFREG | RLink _ => S_IFLNK end.

Definition ram_lookup (dir : Z) (name : str) : M (vfs ramfs) Z :=
  v ← vnode dir;
  d ← gets drv;
  match d !! v_ino v with
  | Some (RDir e) =>
      match e !! name with
      | Some ino =>
          match d !! ino with
          | Some n =>
              p ← kmalloc_object;
              if p =? 0 then ret 0
              else set_vnode p (Vnode (v_super_block v) 0 0 (ram_mode n) 0 ino 1 0) ;; ret p
          | None => ret 0
          end
      | None => ret 0
      end
  | _ => ret 0
  end.

Definition ram_readlink (vn : Z) (out : buf) (bufsize : Z) : M (vfs ramfs) (Z * buf) :=
  v ← vnode vn;
  d ← gets drv;
  match d !! v_ino v with
  | Some (RLink t) =>
      b ← of_opt (splice 0 (take (Z.to_nat bufsize) t) out);
      ret (Z.min (blen t) bufsize, b)
  | _ => ret (-1, out)
  end.

Definition ram_ops : vnode_ops (vfs ramfs) :=
  VnodeOps None None None None None (Some ram_lookup) None None (Some ram_readlink).

#[local] Instance ram_drivers : Drivers ramfs := {
  vnode_ops_at p := if p =? 1 then Some ram_ops else None;
  file_ops_at p := None;
  fill_sb_at _ _ _ := fault;
  kill_sb_at _ _ := fault;
  find_blkdev _ _ := 0
}.

Definition ram_view (d : ramfs) (p : position) : option node :=
  match d !! p.2 with
  | Some (RDir e) => Some (NDir (λ t, match e !! t with Some i => if d !! i then Some i else None | None => None end))
  | Some RFile => Some NFile
  | Some (RLink t) => Some (NLink t)
  | None => None
  end.

Definition ram_ok (d : ramfs) (sbs : gmap Z super_block_t) : Prop :=
  (∀ p b, sbs !! p = Some b → v_ops b = 1) ∧ (∀ i t, d !! i = Some (RLink t) → Forall (λ c, 0 < c < 256) t).

Lemma ram_view_mode d sb ino n : d !! ino = Some n → ∃ m, ram_view d (sb, ino) = Some m ∧ mode_of m (ram_mode n).
Proof. intros H. unfold ram_view. cbn [snd]. rewrite H. destruct n; eexists; (split; [reflexivity|]); by cbn. Qed.

Lemma ram_lookup_ok s dir dv b n lookup name :
  0 < next_object s → ram_ok (drv s) (super_blocks s) → vnodes s !! dir = Some dv → super_blocks s !! v_super_block dv = Some b →
  ram_view (drv s) (at_position dv) = Some n → mode_of n (v_mode dv) → vnode_ops_at (v_ops b) ≫= op_lookup = Some lookup →
  wp (lookup dir name) s (λ p s', fixed_part s' = fixed_part s ∧ next_object s <= next_object s' ∧
    (heap_answers s = [] → True → heap_answers s' = [] ∧ True) ∧
    ram_ok (drv s') (super_blocks s) ∧ ram_view (drv s') = ram_view (drv s) ∧
    (p = 0 ∧ vnodes s' = vnodes s ∧ (heap_answers s = [] → True → node_entry (Some n) name = None) ∨
     ∃ ino m v, node_entry (Some n) name = Some ino ∧ p ≠ 0 ∧ next_object s <= p < next_object s' ∧
       vnodes s' = <[p := v]> (vnodes s) ∧ at_position v = (v_super_block dv, ino) ∧ v_refcount v = 1 ∧
       ram_view (drv s) (at_position v) = Some m ∧ mode_of m (v_mode v))).
Proof.
  intros Hnx Hok Hdir Hb Hn Hmode Hop. rewrite (proj1 Hok _ _ Hb) in Hop. cbn in Hop. injection Hop as <-.
  unfold ram_lookup. wp_step. eapply wp_vnode; [done|]. do 2 wp_step. unfold ram_view in Hn. cbn [snd at_position] in Hn.
  destruct (drv s !! v_ino dv) as [[e| |t]|] eqn:Ed; [|injection Hn as <-; wp_step; split_and!; try done; by left..|done].
  injection Hn as <-. cbn [node_entry] in *.
  destruct (e !! name) as [ino|] eqn:Ee; [|wp_step; split_and!; try done; by left].
  destruct (drv s !! ino) as [m|] eqn:Em; [|wp_step; split_and!; try done; by left].
  destruct (ram_view_mode (drv s) (v_super_block dv) ino m Em) as (nm & Hv & Hmm).
  wp_step. apply wp_kmalloc_object; [done| |]; intros Eh.
  - change (0 =? 0) with true. cbn iota. wp_step. split_and!; try done; cbn; [by intros ->|]. left. split_and!; try done. intros H. by rewrite H in Eh.
  - rewrite (proj2 (Z.eqb_neq _ 0)) by lia. cbn iota. unfold set_vnode. do 2 wp_step. split_and!; try done; cbn; [lia|by intros ->|].
    right. exists ino, nm, (Vnode (v_super_block dv) 0 0 (ram_mode m) 0 ino 1 0). split_and!; try done; cbn; lia.
Qed.

Lemma ram_readlink_ok s p v b target ops readlink out :
  ram_ok (drv s) (super_blocks s) → vnodes s !! p = Some v → super_blocks s !! v_super_block v = Some b →
  ram_view (drv s) (at_position v) = Some (NLink target) →
  vnode_ops_at (v_ops b) = Some ops → op_readlink ops = Some readlink → blen out = 256 →
  wp (readlink p out 255) s (λ r s', ∃ d, s' = set_drv d s ∧
    ram_ok d (super_blocks s) ∧ ram_view d = ram_view (drv s) ∧ (True → True) ∧
    r.1 = Z.min (blen target) 255 ∧ blen r.2 = 256 ∧ take (Z.to_nat r.1) r.2 = take 255 target).
Proof.
  intros Hok Hp Hb Hn Hops Hop Hout. rewrite (proj1 Hok _ _ Hb) in Hops. injection Hops as <-. injection Hop as <-.
  unfold ram_readlink. wp_step. eapply wp_vnode; [done|]. do 2 wp_step. unfold ram_view in Hn. cbn [snd at_position] in Hn.
  destruct (drv s !! v_ino v) as [[| |t]|]; try done. injection Hn as ->. wp_step.
  assert (blen (take (Z.to_nat 255) target) <= 255) as Hl by (unfold blen; rewrite length_take; lia).
  assert (∃ x, splice 0 (take (Z.to_nat 255) target) out = Some x) as [x Hx] by (unfold splice; guard_true; by eexists).
  eapply wp_of_opt; [exact Hx|]. wp_step. exists (drv s). split; [by destruct s|]. split_and!; try done; cbn [fst snd].
  - unfold blen in *. by rewrite (splice_length _ _ _ _ Hx).
  - unfold splice in Hx. case_match; [|done]. injection Hx as <-. change (take (Z.to_nat 0) out) with (@nil Z). cbn [app].
    rewrite take_app_length'; [done|]. unfold blen. rewrite length_take. lia.
Qed.

Lemma ram_has_lookup s p b n : ram_ok (drv s) (super_blocks s) → super_blocks s !! p.1 = Some b → ram_view (drv s) p = Some n →
  ∃ ops, vnode_ops_at (v_ops b) = Some ops ∧ is_Some (op_lookup ops) ∧ is_Some (op_readlink ops).
Proof. intros Hok Hb _. exists ram_ops. rewrite (proj1 Hok _ _ Hb). split; [done|]. split; by eexists. Qed.

Lemma ram_target (s : vfs ramfs) p target : ram_ok (drv s) (super_blocks s) → ram_view (drv s) p = Some (NLink target) → Forall (λ c, 0 < c < 256) target.
Proof.
  intros Hok Hn. unfold ram_view in Hn. destruct (drv s !! p.2) as [[| |t]|] eqn:E; try done. injection Hn as ->.
  by apply (proj2 Hok p.2).
Qed.

#[local] Instance ram_tree : FileTree ramfs := {
  ft_ok := ram_ok;
  ft_node d _ := ram_view d;
  ft_memory _ := True;
  ft_lookup := ram_lookup_ok;
  ft_has_lookup := ram_has_lookup;
  ft_readlink := ram_readlink_ok;
  ft_target := ram_target
}.

(** The root holds a directory [d], a link [l] to [d], a link [e] that leads
    to itself and, in [d], a file [f]. *)
Definition demo_tree : ramfs :=
  {[ 1 := RDir {[ [100] := 2; [108] := 3; [101] := 4 ]}; 2 := RDir {[ [102] := 5 ]}; 3 := RLink [100]; 4 := RLink [47; 101]; 5 := RFile ]}.
Definition demo_vfs : vfs ramfs := MkVfs demo_tree {[ 11 := Vnode 10 0 0 S_IFDIR 0 1 1 0 ]} {[ 10 := SuperBlock 0 11 0 1 0 0 ]} ∅ ∅
  [MountPoint [47] 10] [] (mk_arr MAX_FD 0) 11 100 [] 0 3.

Lemma demo_vfs_ok : vfs_ok demo_vfs.
Proof.
  split; cbn.
  - split.
    + intros p b [<- <-]%lookup_singleton_Some. done.
    + intros i t. unfold demo_tree. rewrite !lookup_insert_Some, lookup_singleton_Some. intros H.
      repeat first [progress destruct_and!|progress destruct_or!]; simplify_eq; repeat (apply Forall_cons; split; [lia|]); constructor.
  - lia.
  - intros p [v [<- <-]%lookup_singleton_Some]. lia.
  - intros p v [<- <-]%lookup_singleton_Some. done.
  - intros p v [<- <-]%lookup_singleton_Some. split; [by eexists|]. eexists. by split.
  - intros m ->%list_elem_of_singleton. eexists _, _. by split.
Qed.

Lemma demo_path : resolves (nodes demo_vfs) (start_of demo_vfs) true 0 (10, 1) [108; 47; 102] 0 (Some (10, 5)).
Proof.
  eapply R_relative; [done|done|done|done|done|done|].
  eapply R_down; [done|done|done|done|]. eapply R_down; [done|done|done|done|]. by eapply R_end.
Qed.

Lemma vfs_lookup_path_resolves_witness :
  wp (vfs_lookup_path [47; 108; 47; 102] 0 true) demo_vfs (λ q s', ∃ v, vnodes s' !! q = Some v ∧ v_ino v = 5).
Proof.
  eapply wp_mono; [exact (vfs_lookup_path_resolves demo_vfs [47; 108; 47; 102] 0 true 0 (10, 1) [108; 47; 102] (Some (10, 5))
    demo_vfs_ok eq_refl demo_path ltac:(cbn; lia))|].
  intros q s' (_ & _ & [(-> & Hn & _)|(_ & v & Hv & E & _)]); [by discriminate (Hn (conj eq_refl I))|].
  exists v. split; [exact Hv|]. by injection E.
Defined.

Lemma vfs_lookup_path_leaks_witness :
  wp (q ← vfs_lookup_path [47; 108; 47; 102] 0 true; vfs_vnode_put q ;; ret q) demo_vfs (λ q s',
    q ≠ 11 → ∃ v, vnodes s' !! q = Some v ∧ v_refcount v = 1).
Proof.
  eapply wp_mono; [exact (vfs_lookup_path_leaks demo_vfs [47; 108; 47; 102] 0 true 0 (10, 1) [108; 47; 102] (10, 5)
    demo_vfs_ok (conj eq_refl I) eq_refl demo_path ltac:(cbn; lia))|].
  intros q s' [_ Hl] Hq. apply Hl. by apply lookup_singleton_None.
Defined.

Lemma vfs_absolute_link_unbounded_witness : vfs_lookup_path [47; 101] 0 true demo_vfs = None.
Proof.
  apply (vfs_absolute_link_unbounded demo_vfs [47; 101] 0 (10, 1) [101] [101] 4); try reflexivity; [exact demo_vfs_ok|by split|cbn; lia].
Defined.
