(* ===== verification/MyfsDriver.v ===== *)
(** * The MyFS driver

    [kernel/src/fs/myfs/myfs_driver.c]: the operations that the virtual file
    system calls, on top of [myfs.c], and the instance of [Drivers] that they
    form. The driver owns the mounted file systems, by the address in
    [fs_private], and the disks that are not mounted, by the address of the
    block device. A mounted disk belongs to its file system; mounting it a
    second time is outside the model. *)

From S2P Require Import Prelude Buf Disk Myfs Vfs.

Definition MYFS_NAME : str := [109; 121; 102; 115].
Definition DT_DIR : Z := 4.
Definition DT_REG : Z := 8.

Record myfs_driver (B : Type) := MyfsDriver {
  instances : gmap Z (myfs B);
  disks : gmap Z B;
  disk_names : list (str * Z);
  fresh_fs : B → myfs B;
  mounted_disks : gmap Z Z
}.
Arguments MyfsDriver {_}. Arguments instances {_}. Arguments disks {_}. Arguments disk_names {_}.
Arguments fresh_fs {_}. Arguments mounted_disks {_}.

(** The addresses of the two tables and of the hooks. *)
Definition myfs_f_ops_ptr : Z := 1.
Definition myfs_vnode_ops_ptr : Z := 1.
Definition myfsd_super_sb_fill_ptr : Z := 1.
Definition myfsd_kill_vsb_ptr : Z := 1.

Fixpoint disk_by_name (l : list (str * Z)) (name : str) : Z :=
  match l with
  | [] => 0
  | (n, d) :: l => if bool_decide (n = name) then d else disk_by_name l name
  end.

Section driver.
Context {B : Type} {BD : BlockDevice B}.
Notation V := (vfs (myfs_driver B)).

Definition set_instances i (d : myfs_driver B) : myfs_driver B :=
  MyfsDriver i (disks d) (disk_names d) (fresh_fs d) (mounted_disks d).

(** A call into [myfs.c] for the file system at [p]. *)
Definition on_fs {A} (p : Z) (m : M (myfs B) A) : M V A :=
  d ← gets drv;
  fs ← of_opt (instances d !! p);
  '(a, fs) ← of_opt (m fs);
  modify (set_drv (set_instances (<[p := fs]> (instances d)) d)) ;;
  ret a.

(** [vnode->super_block->fs_private] *)
Definition private_of (v : vnode_t) : M V Z := b ← super_block (v_super_block v); ret (fs_private b).

Definition myfsd_v_destroy (vn : Z) : M V unit := ret tt.

(** [kmalloc(n)], which is null for 0 bytes. *)
Definition kmalloc_entries (n : Z) : M (myfs B) (option buf) := if n =? 0 then ret None else kmalloc_bytes n.

Definition dir_emit (ctx : dir_ctx) (name : str) (namelen ino : Z) : M V (Z * dir_ctx) :=
  of_opt (filldir ctx name namelen ino).

Definition myfsd_f_dir_iter (parent_file : Z) (ctx : dir_ctx) : M V (Z * dir_ctx) :=
  pf ← file parent_file;
  v ← vnode (f_vnode pf);
  sb ← private_of v;
  parent ← on_fs sb (myfs_iget (v_ino v));
  if parent =? 0 then ret (-1, ctx)
  else
    pi ← on_fs sb (deref parent);
    if negb (S_ISDIR (mode pi)) then on_fs sb (myfs_iput parent) ;; ret (-1, ctx)
    else
      e ← on_fs sb (kmalloc_entries (size pi));
      match e with
      | None => on_fs sb (myfs_iput parent) ;; ret (-1, ctx)
      | Some entries =>
          '(bytes_read, entries) ← on_fs sb (myfs_node_read parent 0 entries (size pi));
          if s32 bytes_read <? 0 then on_fs sb (myfs_iput parent) ;; ret (-1, ctx)
          else
            let actual_entries := s32 bytes_read / sizeof_dirent in
            let start_index := s32 (f_pos pf / sizeof_dirent) in
            '(emitted, ctx) ← while_n (S (Z.to_nat (actual_entries - start_index))) (λ '(i, emitted, ctx),
              if (i <? actual_entries) && (emitted <? s32 (dc_count ctx)) then
                let entry := drop (Z.to_nat (sizeof_dirent * i)) entries in
                let name := cstring entry in
                ino ← peek (b32 32) entry;
                child ← on_fs sb (myfs_iget ino);
                _ ← on_fs sb (deref child);
                on_fs sb (myfs_iput child) ;;
                '(r, ctx) ← dir_emit ctx name (Z.of_nat (length name)) ino;
                if r =? 0 then
                  pf ← file parent_file;
                  set_file parent_file (with_f_pos (f_pos pf + sizeof_dirent) pf) ;;
                  ret (inl (i + 1, emitted + 1, ctx))
                else ret (inl (i + 1, emitted, ctx))
              else ret (inr (emitted, ctx))) (start_index, 0, ctx);
            on_fs sb (myfs_iput parent) ;;
            ret (emitted, ctx)
      end.

Definition myfsd_v_lookup (dir : Z) (name : str) : M V Z :=
  dv ← vnode dir;
  if negb (S_ISDIR (v_mode dv)) then ret 0
  else
    sb ← private_of dv;
    dir_inode ← on_fs sb (myfs_iget (v_ino dv));
    if dir_inode =? 0 then ret 0
    else
      r ← on_fs sb (myfs_lookup dir_inode name);
      match r with
      | None => on_fs sb (myfs_iput dir_inode) ;; ret 0
      | Some child_ino =>
          child_inode ← on_fs sb (myfs_iget child_ino);
          if child_inode =? 0 then on_fs sb (myfs_iput dir_inode) ;; ret 0
          else
            child_vnode ← kmalloc_object;
            if child_vnode =? 0 then
              on_fs sb (myfs_iput child_inode) ;;
              on_fs sb (myfs_iput dir_inode) ;;
              ret 0
            else
              ci ← on_fs sb (deref child_inode);
              old ← gets old_memory;
              set_vnode child_vnode (Vnode (v_super_block dv) 0 (s32 (size ci)) (s32 (mode ci)) old (i_ino ci) 1 old) ;;
              on_fs sb (myfs_iput child_inode) ;;
              on_fs sb (myfs_iput dir_inode) ;;
              ret child_vnode
      end.

(** An operation on the inode of the directory [dir], whose vnode follows the
    size of the inode when the operation succeeds. *)
Definition on_directory (dir : Z) (op : Z → M (myfs B) Z) : M V Z :=
  dv ← vnode dir;
  sb ← private_of dv;
  dir_inode ← on_fs sb (myfs_iget (v_ino dv));
  if dir_inode =? 0 then ret (-1)
  else
    result ← on_fs sb (op dir_inode);
    when (result =? 0) (
      di ← on_fs sb (deref dir_inode);
      dv ← vnode dir;
      set_vnode dir (with_v_size (s32 (size di)) dv)) ;;
    on_fs sb (myfs_iput dir_inode) ;;
    ret result.

Definition if_directory (dir : Z) (m : M V Z) : M V Z :=
  dv ← vnode dir; if negb (S_ISDIR (v_mode dv)) then ret (-1) else m.

Definition myfsd_v_create (dir : Z) (name : str) (md : Z) : M V Z :=
  if_directory dir (on_directory dir (λ i, '(r, _) ← myfs_create_file i name; ret r)).
Definition myfsd_v_mkdir (dir : Z) (name : str) (md : Z) : M V Z :=
  if_directory dir (on_directory dir (λ i, '(r, _) ← myfs_create_dir i name; ret r)).
Definition myfsd_v_unlink (dir : Z) (name : str) : M V Z :=
  if_directory dir (on_directory dir (λ i, myfs_unlink i name)).
Definition myfsd_v_rmdir (parent : Z) (dir_name : str) : M V Z :=
  on_directory parent (λ i, myfs_remove_dir i dir_name).

Definition myfsd_getattr (i : MyfsInode) : fstat_t :=
  Fstat (size i) (s32 (mode i)) (links_count i) (uid i) (gid i) (permissions i) (atime i) (mtime i) (ctime i) (s32 (i_ino i)).

(** The reference to the inode is kept. *)
Definition myfsd_f_fstat (f : Z) : M V (Z * option fstat_t) :=
  x ← file f;
  v ← vnode (f_vnode x);
  sb ← private_of v;
  inode ← on_fs sb (myfs_iget (v_ino v));
  if inode =? 0 then ret (-1, None)
  else i ← on_fs sb (deref inode); ret (0, Some (myfsd_getattr i)).

Definition myfsd_f_read (f : Z) (out : buf) (sz : Z) : M V (Z * buf) :=
  x ← file f;
  v ← vnode (f_vnode x);
  sb ← private_of v;
  inode ← on_fs sb (myfs_iget (v_ino v));
  if inode =? 0 then ret (-1, out)
  else
    '(bytes_read, out) ← on_fs sb (myfs_node_read inode (u32 (f_pos x)) out sz);
    advance f (s32 bytes_read) ;;
    on_fs sb (myfs_iput inode) ;;
    ret (s32 bytes_read, out).

Definition myfsd_f_write (f : Z) (bytes : buf) (sz : Z) : M V Z :=
  x ← file f;
  v ← vnode (f_vnode x);
  sb ← private_of v;
  inode ← on_fs sb (myfs_iget (v_ino v));
  if inode =? 0 then ret (-1)
  else
    r ← on_fs sb (myfs_node_write inode (u32 (f_pos x)) bytes sz);
    let result := s32 r in
    when (0 <? result) (
      advance f result ;;
      i ← on_fs sb (deref inode);
      v ← vnode (f_vnode x);
      set_vnode (f_vnode x) (with_v_size (s32 (size i)) v)) ;;
    on_fs sb (myfs_iput inode) ;;
    ret result.

Definition myfsd_f_open (f : Z) : M V Z :=
  x ← file f;
  v ← vnode (f_vnode x);
  sb ← private_of v;
  inode ← on_fs sb (myfs_iget (v_ino v));
  if inode =? 0 then ret (-1) else on_fs sb (myfs_iput inode) ;; ret 0.

Definition myfsd_f_close (f : Z) : M V Z :=
  x ← file f;
  v ← vnode (f_vnode x);
  sb ← private_of v;
  _ ← on_fs sb (myfs_disk_inode_write (v_ino v));
  ret 0.

(** The inode of a link is used unchecked. *)
Definition myfsd_v_symlink (dir : Z) (name target : str) : M V Z :=
  dv ← vnode dir;
  sb ← private_of dv;
  dir_inode ← on_fs sb (myfs_iget (v_ino dv));
  result ← on_fs sb (myfs_create_symlink dir_inode name target);
  on_fs sb (myfs_iput dir_inode) ;;
  ret result.

Definition myfsd_v_readlink (vn : Z) (out : buf) (bufsize : Z) : M V (Z * buf) :=
  v ← vnode vn;
  sb ← private_of v;
  inode ← on_fs sb (myfs_iget (v_ino v));
  '(result, out) ← on_fs sb (myfs_symlink_read inode out bufsize);
  on_fs sb (myfs_iput inode) ;;
  ret (s32 result, out).

(** The result of [myfs_rename] is dropped and the inodes stay referenced. *)
Definition myfsd_v_rename (old_parent : Z) (old_name : str) (new_parent : Z) (new_name : str) : M V Z :=
  ov ← vnode old_parent;
  sb ← private_of ov;
  old_parent_inode ← on_fs sb (myfs_iget (v_ino ov));
  nv ← vnode new_parent;
  new_parent_inode ← on_fs sb (myfs_iget (v_ino nv));
  _ ← on_fs sb (myfs_rename old_parent_inode old_name new_parent_inode new_name);
  oi ← on_fs sb (deref old_parent_inode);
  ov ← vnode old_parent;
  set_vnode old_parent (with_v_size (s32 (size oi)) ov) ;;
  ni ← on_fs sb (deref new_parent_inode);
  nv ← vnode new_parent;
  set_vnode new_parent (with_v_size (s32 (size ni)) nv) ;;
  ret 0.

(** The disk goes back to the block device when its file system is gone. *)
Definition release_fs (p : Z) : M V unit :=
  d ← gets drv;
  fs ← of_opt (instances d !! p);
  dv ← of_opt (mounted_disks d !! p);
  modify (set_drv (MyfsDriver (delete p (instances d)) (<[dv := dev fs]> (disks d)) (disk_names d) (fresh_fs d)
    (delete p (mounted_disks d)))).

Definition myfsd_kill_vsb (vfs_sb : Z) : M V Z :=
  when (negb (vfs_sb =? 0)) (
    b ← super_block vfs_sb;
    when (negb (fs_private b =? 0)) (
      _ ← on_fs (fs_private b) myfs_sb_kill;
      release_fs (fs_private b)) ;;
    kfree_super_block vfs_sb) ;;
  ret 0.

(** [myfs_sb_read]: the address of the file system found on the disk, or 0. *)
Definition mount_disk (dv : Z) : M V Z :=
  d ← gets drv;
  b ← of_opt (disks d !! dv);
  p ← kmalloc_object;
  if p =? 0 then ret 0
  else
    modify (set_drv (MyfsDriver (<[p := fresh_fs d b]> (instances d)) (delete dv (disks d)) (disk_names d) (fresh_fs d)
      (<[p := dv]> (mounted_disks d)))) ;;
    ok ← on_fs p myfs_sb_read;
    if ok : bool then ret p else release_fs p ;; ret 0.

Definition myfsd_super_sb_fill (vfs_sb dv : Z) : M V Z :=
  sb ← mount_disk dv;
  if sb =? 0 then ret (-1)
  else
    t ← get_fs_type MYFS_NAME;
    b ← super_block vfs_sb;
    set_super_block vfs_sb (SuperBlock t (fs_root b) myfs_f_ops_ptr myfs_vnode_ops_ptr (vnode_cache b) sb) ;;
    root ← on_fs sb (myfs_iget MYFS_ROOT_INODE_NUM);
    root_inode ← (if root =? 0 then r ← on_fs sb (myfs_inode_alloc S_IFDIR); ret (default 0 r) else ret root);
    ri ← on_fs sb (deref root_inode);
    _ ← on_fs sb (myfs_dir_add_entry root_inode [46] (i_ino ri));
    ri ← on_fs sb (deref root_inode);
    root_vnode ← vfs_vnode_alloc vfs_sb (i_ino ri) (mode ri) (size ri) 0;
    if root_vnode =? 0 then _ ← on_fs sb myfs_sb_kill; ret (-1)
    else
      b ← super_block vfs_sb;
      set_super_block vfs_sb (SuperBlock (fs_type b) root_vnode (sb_f_ops b) (v_ops b) (vnode_cache b) (fs_private b)) ;;
      ret 0.

Definition myfs_init : M V Z :=
  p ← kmalloc_object;
  assert_ (negb (p =? 0)) ;;
  modify (λ s, set_fs_types (<[p := FsType MYFS_NAME myfsd_super_sb_fill_ptr myfsd_kill_vsb_ptr]> (fs_types s)) s) ;;
  r ← vfs_fs_type_register p;
  ret (if r <? 0 then -1 else 0).

Definition myfsd_unregister : M V Z := _ ← vfs_fs_type_unregister MYFS_NAME; ret 0.

Definition myfs_f_ops : file_ops V := {|
  op_open := Some myfsd_f_open;
  op_read := Some myfsd_f_read;
  op_write := Some myfsd_f_write;
  op_close := Some myfsd_f_close;
  op_fstat := Some myfsd_f_fstat;
  op_iter_dir := Some myfsd_f_dir_iter
|}.

Definition myfs_vnode_ops : vnode_ops V := {|
  op_create := Some myfsd_v_create;
  op_mkdir := Some myfsd_v_mkdir;
  op_rmdir := Some myfsd_v_rmdir;
  op_unlink := Some myfsd_v_unlink;
  op_destroy := Some myfsd_v_destroy;
  op_lookup := Some myfsd_v_lookup;
  op_symlink := Some myfsd_v_symlink;
  op_rename := Some myfsd_v_rename;
  op_readlink := Some myfsd_v_readlink
|}.

#[global] Instance myfs_drivers : Drivers (myfs_driver B) := {
  vnode_ops_at p := if p =? myfs_vnode_ops_ptr then Some myfs_vnode_ops else None;
  file_ops_at p := if p =? myfs_f_ops_ptr then Some myfs_f_ops else None;
  fill_sb_at p := if p =? myfsd_super_sb_fill_ptr then myfsd_super_sb_fill else λ _ _, fault;
  kill_sb_at p := if p =? myfsd_kill_vsb_ptr then myfsd_kill_vsb else λ _, fault;
  find_blkdev d := disk_by_name (disk_names d)
}.
End driver.
