(* ===== verification/VfsFd.v ===== *)
(** * Descriptors

    The life of a descriptor, from [vfs_bind_vnode_to_fd] to [vfs_close], for
    any driver whose [open] and [close] leave the tables of the virtual file
    system alone; and what the MyFS driver and [sys_getcwd] do to the position
    of a file and to the references of a directory. *)

From S2P Require Import Prelude Buf Bitmap Disk Myfs MyfsBlocks MyfsMap MyfsInode Vfs VfsPath MyfsDriver.

(** A driver's [open] and [close] change only what the driver owns, for the
    vnodes that it knows. *)
Class FileContract (D : Type) `{DR : Drivers D} := {
  fc_ok : vfs D → Z → Prop;
  fc_frame s s' p : drv s' = drv s → vnodes s' = vnodes s → super_blocks s' = super_blocks s → fc_ok s p → fc_ok s' p;
  fc_open s f x ops open : fc_ok s (f_vnode x) → open_files s !! f = Some x → file_ops_at (f_ops x) = Some ops →
    op_open ops = Some open → wp (open f) s (λ _ s', ∃ d, s' = set_drv d s ∧ fc_ok s' (f_vnode x));
  fc_close s f x ops close : fc_ok s (f_vnode x) → open_files s !! f = Some x → file_ops_at (f_ops x) = Some ops →
    op_close ops = Some close → wp (close f) s (λ _ s', ∃ d, s' = set_drv d s)
}.

Section descriptors.
Context {D : Type} {DR : Drivers D} {FC : FileContract D}.
Notation V := (vfs D).
Implicit Types s : V.

Lemma set_fd_table_eta s : set_fd_table (g_fd_table s) s = s.
Proof. by destruct s. Qed.

Lemma wp_fd_entry s fd (Q : Z → V → Prop) :
  0 <= fd < alen (g_fd_table s) → Q (aat (g_fd_table s) fd) s → wp (fd_entry fd) s Q.
Proof. intros Hr HQ. unfold fd_entry. apply wp_zoom, wp_ld; [done|]. by rewrite set_fd_table_eta. Qed.

Lemma wp_set_fd_entry s fd p (Q : unit → V → Prop) :
  0 <= fd < alen (g_fd_table s) → Q tt (set_fd_table (aput (g_fd_table s) fd p) s) → wp (set_fd_entry fd p) s Q.
Proof. intros Hr HQ. unfold set_fd_entry. by apply wp_zoom, wp_st. Qed.

(** The first free slot is taken. *)
Lemma wp_alloc_fd s f (Q : Z → V → Prop) :
  alen (g_fd_table s) = MAX_FD →
  (∀ fd, 0 <= fd < MAX_FD → aat (g_fd_table s) fd = 0 → (∀ j, 0 <= j < fd → aat (g_fd_table s) j ≠ 0) →
     Q fd (set_fd_table (aput (g_fd_table s) fd f) s)) →
  ((∀ j, 0 <= j < MAX_FD → aat (g_fd_table s) j ≠ 0) → Q (-1) s) →
  wp (alloc_fd f) s Q.
Proof.
  intros Hl HQ HQ1. unfold alloc_fd. wp_step.
  apply (wp_scan_range (λ i s', s' = s ∧ ∀ j, 0 <= j < i → aat (g_fd_table s) j ≠ 0)).
  - split; [done|lia].
  - intros i s' Hi [-> Hj]. wp_step. apply wp_fd_entry; [lia|]. destruct (Z.eqb_spec (aat (g_fd_table s) i) 0) as [E|E].
    + wp_step. apply wp_set_fd_entry; [lia|]. do 2 wp_step. by apply HQ.
    + wp_step. split; [done|]. intros j Hj'. destruct (decide (j = i)) as [->|]; [done|]. apply Hj. lia.
  - intros s' [-> Hj]. wp_step. apply HQ1. intros j Hj'. apply Hj. unfold MAX_FD in *. lia.
Qed.

Lemma wp_fd_file s fd (Q : Z → V → Prop) :
  alen (g_fd_table s) = MAX_FD → 0 <= fd < MAX_FD → Q (aat (g_fd_table s) fd) s → wp (fd_file fd) s Q.
Proof.
  intros Hl Hr HQ. unfold fd_file. rewrite (proj2 (Z.ltb_ge fd 0)), (proj2 (Z.leb_gt MAX_FD fd)) by lia. cbn [orb].
  apply wp_fd_entry; [lia|done].
Qed.

(** What is needed to open a vnode. *)
Record openable s (vn : Z) (v : vnode_t) (b : super_block_t) : Prop := {
  ob_driver : fc_ok s vn;
  ob_table : alen (g_fd_table s) = MAX_FD;
  ob_vnode : vnodes s !! vn = Some v;
  ob_null : vn ≠ 0;
  ob_super : super_blocks s !! v_super_block v = Some b;
  ob_next : 0 < next_object s;
  ob_fresh : open_files s !! next_object s = None
}.

(** The new file object, which [open] is called with, and the state then. *)
Definition new_file (vn : Z) (b : super_block_t) (flags : Z) : file_t := File vn (sb_f_ops b) 0 flags 1.
Definition with_file s (vn : Z) (b : super_block_t) (flags : Z) : V :=
  set_open_files (<[next_object s := new_file vn b flags]> (open_files s)) (set_heap (next_object s + 1) (tail (heap_answers s)) s).

(** What the driver answers to [open]; without one the answer is 0. *)
Definition open_answer s (vn : Z) (b : super_block_t) (flags : Z) : Z :=
  match file_ops_at (sb_f_ops b) ≫= op_open with
  | Some open => default 0 (fst <$> open (next_object s) (with_file s vn b flags))
  | None => 0
  end.

Lemma wp_driver_open s vn b flags (Q : Z → V → Prop) :
  fc_ok s vn →
  (∀ d, fc_ok (set_drv d (with_file s vn b flags)) vn → Q (open_answer s vn b flags) (set_drv d (with_file s vn b flags))) →
  wp (match file_ops_at (sb_f_ops b) with
      | Some ops => match op_open ops with Some open => open (next_object s) | None => ret 0 end
      | None => ret 0
      end) (with_file s vn b flags) Q.
Proof.
  intros Hok HQ. set (s0 := with_file s vn b flags) in *. assert (fc_ok s0 vn) as Hok0 by (by apply (fc_frame s)).
  unfold open_answer in HQ. assert (s0 = set_drv (drv s0) s0) as E0 by by destruct s0.
  destruct (file_ops_at (sb_f_ops b)) as [ops|] eqn:Eo; cbn [mbind option_bind] in HQ.
  2:{ wp_step. rewrite E0. apply HQ. by rewrite <-E0. }
  destruct (op_open ops) as [open|] eqn:Ep; [|wp_step; rewrite E0; apply HQ; by rewrite <-E0].
  pose proof (fc_open s0 (next_object s) (new_file vn b flags) ops open Hok0 ltac:(cbn; apply lookup_insert_eq) Eo Ep) as H.
  unfold wp in *. fold s0 in HQ. destruct (open (next_object s) s0) as [[r s']|]; [|done].
  destruct H as (d & -> & Hd). by apply HQ.
Qed.

(** Why a vnode does not get a descriptor, and what is left then: an open file
    that found no free descriptor stays in memory. *)
Definition no_descriptor s (vn : Z) (b : super_block_t) (flags : Z) s1 : Prop :=
  g_fd_table s1 = g_fd_table s ∧ vnodes s1 = vnodes s ∧
  ((head (heap_answers s) = Some false ∨ open_answer s vn b flags < 0) ∧ open_files s1 = open_files s ∨
   (∀ j, 0 <= j < MAX_FD → aat (g_fd_table s) j ≠ 0) ∧
     open_files s1 = <[next_object s := new_file vn b flags]> (open_files s)).

(** The state with the descriptor [fd] for a new open file. *)
Definition opened s (fd : Z) (d : D) (vn : Z) (b : super_block_t) (flags : Z) : V :=
  set_fd_table (aput (g_fd_table s) fd (next_object s)) (set_drv d (with_file s vn b flags)).

Definition lowest_free s (fd : Z) : Prop :=
  0 <= fd < MAX_FD ∧ aat (g_fd_table s) fd = 0 ∧ ∀ j, 0 <= j < fd → aat (g_fd_table s) j ≠ 0.

Lemma wp_bind_vnode s vn v b flags (Q : Z → V → Prop) :
  openable s vn v b → (∀ s', no_descriptor s vn b flags s' → Q (-1) s') →
  (∀ fd d, head (heap_answers s) ≠ Some false → 0 <= open_answer s vn b flags → lowest_free s fd →
     fc_ok (set_drv d (with_file s vn b flags)) vn → Q fd (opened s fd d vn b flags)) →
  wp (vfs_bind_vnode_to_fd vn flags) s Q.
Proof.
  intros [H1 H2 H3 H4 H5 H6 H7] HQ1 HQ. unfold vfs_bind_vnode_to_fd. wp_step. apply wp_kmalloc_object; [done| |]; intros Eh.
  - change (0 =? 0) with true. cbn iota. wp_step. apply HQ1. split_and!; [done|done|left]. split; [by left|done].
  - rewrite (proj2 (Z.eqb_neq _ 0)) by lia. cbn iota. wp_step. eapply wp_vnode; [exact H3|]. wp_step. eapply wp_super_block; [exact H5|].
    unfold set_file. do 3 wp_step. fold (new_file vn b flags). apply (wp_driver_open s vn b flags); [done|].
    intros d Hd. destruct (Z.ltb_spec (open_answer s vn b flags) 0) as [Hneg|Hpos].
    + unfold kfree_file. do 2 wp_step. apply HQ1. split_and!; [done|done|left]. split; [by right|]. cbn. by apply delete_insert_id.
    + apply wp_alloc_fd; [done| |].
      * intros fd Hfd Hz Hj. by apply HQ.
      * intros Hall. apply HQ1. split_and!; [done|done|by right].
Qed.

(** The last user of an open file, which is not the last one of its vnode. *)
Lemma wp_free_fd s fd f x v (Q : unit → V → Prop) :
  alen (g_fd_table s) = MAX_FD → 0 <= fd < MAX_FD → aat (g_fd_table s) fd = f → f ≠ 0 → open_files s !! f = Some x → f_refcount x = 1 →
  vnodes s !! f_vnode x = Some v → f_vnode x ≠ 0 → 2 <= v_refcount v < 2147483648 →
  (∀ s', g_fd_table s' = aput (g_fd_table s) fd 0 → open_files s' = delete f (open_files s) →
     vnodes s' = <[f_vnode x := with_v_refcount (v_refcount v - 1) v]> (vnodes s) → Q tt s') →
  wp (free_fd fd) s Q.
Proof.
  intros Hl Hr Hf Hf0 Hx Hrx Hv Hv0 Hrv HQ. unfold free_fd. wp_step. apply wp_fd_file; [done|done|]. rewrite Hf, (proj2 (Z.eqb_neq f 0)) by done.
  wp_step. apply wp_set_fd_entry; [lia|]. wp_step. eapply wp_file; [exact Hx|]. rewrite Hrx. change (s32 (1 - 1)) with 0.
  unfold set_file. do 2 wp_step. change (0 =? 0) with true. cbn [when]. wp_step.
  apply (wp_put _ _ (with_v_refcount (v_refcount v - 1) v)); [done| |cbn; lia|].
  - cbn. rewrite Hv. do 2 f_equal. destruct v. unfold with_v_refcount. cbn. f_equal. lia.
  - unfold kfree_file. wp_step. apply HQ; cbn; [done|by rewrite delete_insert_eq|done].
Qed.

Lemma wp_close_opened s vn v b fd d flags (Q : Z → V → Prop) :
  openable s vn v b → lowest_free s fd → fc_ok (set_drv d (with_file s vn b flags)) vn → 2 <= v_refcount v < 2147483648 →
  (∀ r s', (∀ j, aat (g_fd_table s') j = aat (g_fd_table s) j) → open_files s' = open_files s →
     vnodes s' = <[vn := with_v_refcount (v_refcount v - 1) v]> (vnodes s) → Q r s') →
  wp (vfs_close fd) (opened s fd d vn b flags) Q.
Proof.
  intros [H1 H2 H3 H4 H5 H6 H7] (Hr & Hz & _) Hd Hrc HQ. set (f := next_object s) in *. assert (f ≠ 0) as Hf0 by lia.
  unfold vfs_close. wp_step. apply wp_fd_file; [done|done|]. cbn [opened g_fd_table set_fd_table]. rewrite aat_aput_eq. fold f.
  rewrite (proj2 (Z.eqb_neq f 0)) by done. cbn iota. set (x := new_file vn b flags).
  set (s1 := opened s fd d vn b flags). assert (open_files s1 !! f = Some x) as Hf by (cbn; apply lookup_insert_eq).
  assert (∀ d' r, wp (free_fd fd ;; ret r) (set_drv d' s1) Q) as Hfree.
  { intros d' r. wp_step. apply (wp_free_fd _ fd f x v); [done|done|cbn; by rewrite aat_aput_eq|done|exact Hf|done|done|done|done|].
    intros s' E1 E2 E3. wp_step. apply HQ; [|rewrite E2; cbn; by rewrite delete_insert_id|exact E3].
    intros j. rewrite E1. cbn. rewrite !aat_aput. case_decide; [congruence|done]. }
  unfold f_ops_of. do 2 wp_step. eapply wp_file; [exact Hf|]. do 2 wp_step.
  destruct (file_ops_at (f_ops x) ≫= op_close) as [close|] eqn:Ec.
  - destruct (file_ops_at (f_ops x)) as [ops|] eqn:Eo; [|done].
    eapply wp_mono; [apply (fc_close s1 f x ops close); [|done..]; by apply (fc_frame (set_drv d (with_file s vn b flags)))|].
    intros r s' (d' & ->). apply Hfree.
  - wp_step. replace s1 with (set_drv d s1) by done. apply Hfree.
Qed.
End descriptors.

(* ------------------------------------------------------------------ *)
(** ** Theorems *)

(** C34: the life of a descriptor. A vnode that is bound gets the lowest free
    descriptor, with the position at the start, exactly when there is memory
    for the file, the driver's [open] does not answer with an error, and one of
    the 64 descriptors is free. A call that fails changes neither the
    descriptors nor the vnodes; it also frees the new file, except that with
    all descriptors in use the file is leaked. Closing the descriptor frees its
    slot and the open file and drops the reference of the file to the vnode, for
    a vnode that has others, and nothing else of the tables changes. *)
Theorem vfs_descriptor_lifecycle `{FC : FileContract D} (s : vfs D) vn v b flags :
  openable s vn v b → 2 <= v_refcount v < 2147483648 →
  wp (vfs_bind_vnode_to_fd vn flags) s (λ fd s1,
    (fd = -1 ∧ no_descriptor s vn b flags s1) ∨
    (head (heap_answers s) ≠ Some false ∧ 0 <= open_answer s vn b flags ∧ lowest_free s fd ∧
     open_files s1 !! aat (g_fd_table s1) fd = Some (new_file vn b flags) ∧
     wp (vfs_close fd) s1 (λ _ s', (∀ j, aat (g_fd_table s') j = aat (g_fd_table s) j) ∧ open_files s' = open_files s ∧
       vnodes s' = <[vn := with_v_refcount (v_refcount v - 1) v]> (vnodes s)))).
Proof.
  intros Ho Hr. eapply wp_bind_vnode; [done|by left|]. intros fd d Hh Ha Hl Hd. right. split_and!; [done..| |].
  - cbn. by rewrite aat_aput_eq, lookup_insert_eq.
  - eapply wp_close_opened; try done.
Qed.

(* ------------------------------------------------------------------ *)
(** ** Reading from a MyFS file *)

Section myfs_read.
Context {B : Type} {BD : BlockDevice B}.
Notation V := (vfs (myfs_driver B)).

Lemma on_fs_inv {A} p (m : M (myfs B) A) (s : V) a s' : on_fs p m s = Some (a, s') → ∃ d, s' = set_drv d s.
Proof.
  unfold on_fs. intros (d & s1 & [= <- <-] & H)%bind_inv. apply bind_inv in H as (fs & s2 & H1 & H).
  unfold of_opt in H1. destruct (_ !! p); [|done]. injection H1 as <- <-. apply bind_inv in H as ([a' fs'] & s3 & H2 & H).
  destruct (m _) as [[? ?]|]; [|done]. injection H2 as -> -> <-. apply bind_inv in H as ([] & s4 & [= <-] & H3). injection H3 as -> <-.
  by eexists.
Qed.

Lemma file_inv (s : V) f x s' : file f s = Some (x, s') → open_files s !! f = Some x ∧ s' = s.
Proof. unfold file. intros (m & s1 & [= <- <-] & H)%bind_inv. unfold of_opt in H. by destruct (_ !! f); [injection H as -> ->|]. Qed.

Lemma vnode_inv (s : V) p v s' : vnode p s = Some (v, s') → s' = s.
Proof. unfold vnode. intros (m & s1 & [= <- <-] & H)%bind_inv. unfold of_opt in H. by destruct (_ !! p); [injection H as -> ->|]. Qed.

Lemma private_of_inv (s : V) v p s' : private_of v s = Some (p, s') → s' = s.
Proof.
  unfold private_of, super_block. intros (b & s1 & H & [= <- <-])%bind_inv. apply bind_inv in H as (m & s2 & [= <- <-] & H).
  unfold of_opt in H. by destruct (_ !! v_super_block v); [injection H as -> ->|].
Qed.

Lemma advance_inv (s : V) f n s' x : advance f n s = Some (tt, s') → open_files s !! f = Some x →
  open_files s' = <[f := with_f_pos (f_pos x + Z.max 0 n) x]> (open_files s) ∧ ∀ p, open_files s' !! f = Some p → f_pos p = f_pos x + Z.max 0 n.
Proof.
  intros H Hx. assert (open_files s' = <[f := with_f_pos (f_pos x + Z.max 0 n) x]> (open_files s)) as E.
  - unfold advance in H. destruct (Z.ltb_spec 0 n) as [Hn|Hn]; cbn [when] in H.
    + apply bind_inv in H as (y & s1 & Hf & H). apply file_inv in Hf as [Hf ->]. rewrite Hx in Hf. injection Hf as <-.
      injection H as <-. cbn. by rewrite Z.max_r by lia.
    + injection H as <-. rewrite Z.max_l by lia. rewrite Z.add_0_r, insert_id; [done|]. by destruct x.
  - split; [done|]. intros p. rewrite E, lookup_insert_eq. by intros [= <-].
Qed.

(** The driver's [read] moves the position itself. *)
Lemma myfsd_f_read_pos (s : V) f out sz n out' s' x :
  myfsd_f_read f out sz s = Some ((n, out'), s') → open_files s !! f = Some x →
  open_files s' = <[f := with_f_pos (f_pos x + Z.max 0 n) x]> (open_files s).
Proof.
  intros H Hx. unfold myfsd_f_read in H. apply bind_inv in H as (x' & s1 & Hf & H). apply file_inv in Hf as [Hf ->].
  rewrite Hx in Hf. injection Hf as <-. apply bind_inv in H as (v & s1 & Hv%vnode_inv & H). subst s1.
  apply bind_inv in H as (sb & s1 & Hp%private_of_inv & H). subst s1.
  apply bind_inv in H as (inode & s1 & (d & ->)%on_fs_inv & H). destruct (inode =? 0).
  - injection H as <- _ <-. cbn. rewrite Z.add_0_r, insert_id; [done|]. by destruct x.
  - apply bind_inv in H as ([k out1] & s1 & (d1 & ->)%on_fs_inv & H). apply bind_inv in H as ([] & s1 & Ha & H).
    apply (advance_inv _ _ _ _ x) in Ha as [Ha _]; [|done].
    apply bind_inv in H as ([] & s2 & (d2 & ->)%on_fs_inv & H). injection H as <- _ <-. exact Ha.
Qed.
End myfs_read.

(** Reading a MyFS file through [vfs_read] skips what was read. The
    driver's [read] and [vfs_read] both move the position, so that it is [2n]
    further after [n] bytes were read, and the next read leaves out [n] bytes;
    [sys_read], which calls the driver directly, moves it by [n]. *)
Theorem vfs_read_skips `{BD : BlockDevice B} (s : vfs (myfs_driver B)) fd f x out sz n out' s' :
  fd_file fd s = Some (f, s) → f ≠ 0 → open_files s !! f = Some x → f_ops x = myfs_f_ops_ptr → 0 < n →
  (vfs_read fd out sz s = Some ((n, out'), s') → f_pos <$> open_files s' !! f = Some (f_pos x + 2 * n)) ∧
  (sys_read fd out sz s = Some ((n, out'), s') → f_pos <$> open_files s' !! f = Some (f_pos x + n)).
Proof.
  intros Hfd Hf Hx Hops Hn. unfold vfs_read, sys_read. rewrite !(bind_run _ _ _ _ _ Hfd), (proj2 (Z.eqb_neq f 0)) by done.
  assert (f_ops_of f s = Some (Some myfs_f_ops, s)) as Eo.
  { unfold f_ops_of, file, bind, gets, of_opt. rewrite Hx. unfold ret. by rewrite Hops. }
  rewrite !(bind_run _ _ _ _ _ Eo). cbn [mbind option_bind op_read myfs_f_ops]. split; intros H.
  - apply bind_inv in H as ([k out1] & s1 & Hr & H). apply (myfsd_f_read_pos _ _ _ _ _ _ _ x) in Hr; [|done].
    apply bind_inv in H as ([] & s2 & Ha & H). injection H as -> _ <-.
    apply (advance_inv _ _ _ _ (with_f_pos (f_pos x + Z.max 0 n) x)) in Ha as [Ha _]; [|by rewrite Hr, lookup_insert_eq].
    rewrite Ha, lookup_insert_eq. cbn. f_equal. lia.
  - apply (myfsd_f_read_pos _ _ _ _ _ _ _ x) in H; [|done]. rewrite H, lookup_insert_eq. cbn. f_equal. lia.
Qed.

(* ------------------------------------------------------------------ *)
(** ** A machine with a MyFS disk *)

Notation machine := (vfs (myfs_driver ramdisk)).

Definition raw_fs (d : ramdisk) : myfs ramdisk :=
  Myfs d (DiskSuper 0 0 0 0 0 0 0 0 0 0 0 0) 0 [] [] (mk_arr 256 []) 0 ∅ 1 [] (λ _, 170) 99.

(** A disk of 256 sectors after [myfs_format]. *)
Definition formatted : ramdisk :=
  match myfs_format 256 (raw_fs (Ram 256 ∅)) with Some (_, s) => dev s | None => Ram 0 ∅ end.

(** The disk is called hd; nothing is mounted. *)
Definition powered_on : machine :=
  MkVfs (MyfsDriver ∅ {[ 5 := formatted ]} [([104; 100], 5)] raw_fs ∅) ∅ ∅ ∅ ∅ [] [] (mk_arr MAX_FD 0) 0 100 [] 7 10.

(** The disk is mounted on the root, which becomes the working directory. *)
Definition mount_root : M machine Z :=
  _ ← myfs_init;
  r ← vfs_mount [104; 100] [SLASH] 0 MYFS_NAME 0 0;
  assert_ (r =? 0) ;;
  r ← sys_chdir [SLASH];
  assert_ (r =? 0) ;;
  gets cwd.

(** [sys_getcwd] in the root directory drops a reference that it does not
    have: the descriptor it closes and the end of the function both put the
    working directory's vnode. After the second call the root vnode, with two
    references after mounting and [sys_chdir], has been freed, while it is
    still the working directory and the root of the mounted file system; both
    calls return the correct path. *)
Theorem sys_getcwd_frees_root :
  wp (c ← mount_root;
      v ← vnode c;
      x ← sys_getcwd 16 100;
      y ← sys_getcwd 16 100;
      ret (c, v_refcount v, x, y)) powered_on (λ '(c, n, x, y) s,
    n = 2 ∧ x = (0, Some [SLASH]) ∧ y = (0, Some [SLASH]) ∧
    vnodes s !! c = None ∧ cwd s = c ∧ mount_p_table s = [MountPoint [SLASH] 102] ∧ fs_root <$> super_blocks s !! 102 = Some c).
Proof. vm_compute. repeat split. Qed.

(** With the three standard descriptors taken, a file is written, closed and
    opened again. *)
Definition write_and_reopen (name : str) (bytes : buf) : M machine Z :=
  _ ← mount_root;
  modify (set_fd_table (aput (aput (aput (mk_arr MAX_FD 0) 0 1) 1 1) 2 1)) ;;
  fd ← sys_open (Some name) (Z.lor O_CREAT O_RDWR) 0;
  _ ← sys_write fd bytes (blen bytes);
  _ ← sys_close fd;
  sys_open (Some name) O_RDONLY 0.

Definition reopened : option (Z * machine) := write_and_reopen [97] [1; 2; 3; 4; 5; 6] powered_on.

Lemma fd_file_run {D} (s : vfs D) fd :
  alen (g_fd_table s) = MAX_FD → 0 <= fd < MAX_FD → fd_file fd s = Some (aat (g_fd_table s) fd, s).
Proof.
  intros Hl Hr. destruct (wp_elim _ _ _ (wp_fd_file s fd (λ a s', a = aat (g_fd_table s) fd ∧ s' = s) Hl Hr (conj eq_refl eq_refl)))
    as (a & s' & E & -> & ->). exact E.
Qed.

Lemma reopened_reads : from_option (λ '(fd, s), bool_decide (0 <= fd < MAX_FD) && bool_decide (alen (g_fd_table s) = MAX_FD) &&
    negb (aat (g_fd_table s) fd =? 0) &&
    bool_decide ((λ x, (f_ops x, f_pos x)) <$> open_files s !! aat (g_fd_table s) fd = Some (myfs_f_ops_ptr, 0)) &&
    bool_decide (fst <$> vfs_read fd [0; 0] 2 s = Some (2, [1; 2]))) false reopened = true.
Proof. vm_compute. reflexivity. Qed.

Lemma vfs_read_skips_witness : ∃ (s s' : machine) fd f, vfs_read fd [0; 0] 2 s = Some ((2, [1; 2]), s') ∧
  f_pos <$> open_files s !! f = Some 0 ∧ f_pos <$> open_files s' !! f = Some 4.
Proof.
  pose proof reopened_reads as Hx. destruct reopened as [[fd s]|]; [|discriminate Hx]. cbn [from_option] in Hx.
  apply andb_true_iff in Hx as [[[[Hr%bool_decide_eq_true Hl%bool_decide_eq_true]%andb_true_iff Hf]%andb_true_iff
    Hx%bool_decide_eq_true]%andb_true_iff Hv%bool_decide_eq_true].
  destruct (open_files s !! aat (g_fd_table s) fd) as [x|] eqn:Ex; [|discriminate Hx]. injection Hx as Ho Hp.
  destruct (vfs_read fd [0; 0] 2 s) as [[r s']|] eqn:Ev; [|discriminate Hv]. injection Hv as ->.
  exists s, s', fd, (aat (g_fd_table s) fd). split; [exact Ev|]. rewrite Ex. cbn [fmap option_fmap option_map]. rewrite Hp. split; [reflexivity|].
  destruct (vfs_read_skips s fd (aat (g_fd_table s) fd) x [0; 0] 2 2 [1; 2] s' (fd_file_run s fd Hl Hr)
    ltac:(apply Z.eqb_neq; by apply negb_true_iff) Ex Ho ltac:(lia)) as [H _].
  rewrite (H Ev), Hp. reflexivity.
Defined.

(* ------------------------------------------------------------------ *)
(** ** Files of MyFS *)

Section myfs_files.
Context {B : Type} {BD : BlockDevice B}.
Notation V := (vfs (myfs_driver B)).

(** The inode with the number of a vnode is in memory or was removed. *)
Definition inode_there (fs : myfs B) (ino : Z) : Prop :=
  fs_ok fs ∧ layout_ok fs ∧ cache_ok fs ∧
  ((∃ p i, held fs p i ∧ i_ino i = ino) ∨ 0 <= ino < ninodes fs ∧ tbit (inode_bitmap fs) ino = false).

Definition myfs_file_ok (s : V) (vn : Z) : Prop :=
  ∃ v b fs, vnodes s !! vn = Some v ∧ super_blocks s !! v_super_block v = Some b ∧
    instances (drv s) !! fs_private b = Some fs ∧ inode_there fs (v_ino v).

Lemma myfs_file_frame (s s' : V) p :
  drv s' = drv s → vnodes s' = vnodes s → super_blocks s' = super_blocks s → myfs_file_ok s p → myfs_file_ok s' p.
Proof. unfold myfs_file_ok. by intros -> -> ->. Qed.

Lemma wp_on_fs {A} (s : V) p fs (m : M (myfs B) A) (Q : A → V → Prop) :
  instances (drv s) !! p = Some fs →
  wp m fs (λ a fs', Q a (set_drv (set_instances (<[p := fs']> (instances (drv s))) (drv s)) s)) → wp (on_fs p m) s Q.
Proof.
  intros Hp H. unfold on_fs. wp_step. wp_step. wp_step. eapply wp_of_opt; [exact Hp|].
  destruct (wp_elim _ _ _ H) as (a & fs' & E & HQ). wp_step. eapply wp_of_opt; [exact E|]. cbv beta iota. wp_step. wp_step. by wp_step.
Qed.

Lemma wp_private_of (s : V) v b (Q : Z → V → Prop) :
  super_blocks s !! v_super_block v = Some b → Q (fs_private b) s → wp (private_of v) s Q.
Proof. intros E HQ. unfold private_of. wp_step. eapply wp_super_block; [exact E|]. by wp_step. Qed.

(** An inode number that is not in use is not found. *)
Lemma wp_iget_removed (fs : myfs B) ino (Q : Z → myfs B → Prop) :
  fs_ok fs → layout_ok fs → 0 <= ino < ninodes fs → tbit (inode_bitmap fs) ino = false → Q 0 fs → wp (myfs_iget ino) fs Q.
Proof.
  intros H L Hi Hb HQ. destruct (ninodes_max _ H L). pose proof (ly_map _ L).
  unfold myfs_iget. wp_step. unfold on_imap. wp_step. apply wp_bitmap_is_set; [apply L|lia|lia|].
  replace (set_imap (inode_bitmap fs) fs) with fs by (by destruct fs). rewrite Hb. cbn [negb]. by wp_step.
Qed.

(** Getting an inode and putting it back. *)
Lemma refs_back (fs : myfs B) p i :
  inodes fs !! p = Some i →
  set_inodes (<[p := with_refs (ref_count i + 1 - 1) (with_refs (ref_count i + 1) i)]> (<[p := with_refs (ref_count i + 1) i]> (inodes fs)))
    (set_inodes (<[p := with_refs (ref_count i + 1) i]> (inodes fs)) fs) = fs.
Proof.
  intros E. rewrite insert_insert_eq. replace (with_refs (ref_count i + 1 - 1) (with_refs (ref_count i + 1) i)) with i
    by (destruct i; unfold with_refs; cbn; f_equal; lia).
  rewrite insert_id by done. by destruct fs.
Qed.

Lemma set_drv_same (s : V) p fs :
  instances (drv s) !! p = Some fs → set_drv (set_instances (<[p := fs]> (instances (drv s))) (drv s)) s = s.
Proof. intros E. rewrite insert_id by done. destruct s as [[]]. done. Qed.

(** [open] looks whether the inode is there. *)
Lemma wp_myfsd_f_open (s : V) f x :
  myfs_file_ok s (f_vnode x) → open_files s !! f = Some x →
  wp (myfsd_f_open f) s (λ _ s', ∃ d, s' = set_drv d s ∧ myfs_file_ok s' (f_vnode x)).
Proof.
  intros K Hf. pose proof K as (v & b & fs & Hv & Hb & Hp & H & L & C & Hi). unfold myfsd_f_open.
  wp_step. eapply wp_file; [exact Hf|]. wp_step. eapply wp_vnode; [exact Hv|]. wp_step. eapply wp_private_of; [exact Hb|].
  assert (∃ d, s = set_drv d s ∧ myfs_file_ok s (f_vnode x)) as Hsame by (exists (drv s); split; [by destruct s|done]).
  wp_step. eapply wp_on_fs; [exact Hp|]. destruct Hi as [(p & i & Hh & <-)|[Hr Hz]].
  - pose proof Hh as [Hm Hc Hrc _ _ _]. destruct (co_mem _ C _ _ Hc) as [Hp0 _].
    apply (wp_iget_held fs p i); [done..|]. rewrite (proj2 (Z.eqb_neq p 0)) by done. wp_step.
    set (fs1 := set_inodes _ fs). eapply wp_on_fs; [cbn; apply lookup_insert_eq|]. unfold myfs_iput.
    eapply wp_iput_held; [cbn; apply lookup_insert_eq|done|cbn; lia|]. wp_step.
    cbn [inodes set_inodes fs1 with_refs ref_count]. rewrite refs_back by done.
    cbn [drv set_drv instances set_instances]. rewrite insert_insert_eq.
    replace (set_drv _ (set_drv _ s)) with s; [done|]. symmetry. exact (set_drv_same s _ fs Hp).
  - apply wp_iget_removed; [done..|]. change (0 =? 0) with true. cbn iota. wp_step. by rewrite set_drv_same.
Qed.

(** [close] writes the inode back. *)
Lemma wp_myfsd_f_close (s : V) f x :
  myfs_file_ok s (f_vnode x) → open_files s !! f = Some x → wp (myfsd_f_close f) s (λ _ s', ∃ d, s' = set_drv d s).
Proof.
  intros (v & b & fs & Hv & Hb & Hp & H & L & C & Hi) Hf. unfold myfsd_f_close.
  wp_step. eapply wp_file; [exact Hf|]. wp_step. eapply wp_vnode; [exact Hv|]. wp_step. eapply wp_private_of; [exact Hb|].
  wp_step. eapply wp_on_fs; [exact Hp|].
  enough (wp (myfs_disk_inode_write (v_ino v)) fs (λ _ _, True)) as Hw.
  { eapply wp_mono; [exact Hw|]. intros r fs' _. wp_step. by eexists. }
  destruct Hi as [(p & i & Hh & <-)|[Hr Hz]].
  - destruct (decide (dirty i = 0)) as [Hd|Hd]; [|by apply (wp_disk_inode_write_held fs p i)].
    pose proof Hh as [Hm Hc Hrc Hn _ _]. destruct (co_mem _ C _ _ Hc) as [Hp0 _]. destruct (ninodes_max _ H L).
    unfold myfs_disk_inode_write, disk_inode_write_body. wp_step. rewrite u32_small by ulia.
    apply (wp_iget_held fs p i); [done..|]. rewrite (proj2 (Z.eqb_neq p 0)) by done. wp_step.
    eapply wp_inode; [cbn; apply lookup_insert_eq|]. cbn [dirty with_refs]. rewrite Hd. change (0 =? 0) with true. cbn iota. wp_step.
    eapply wp_iput_held; [cbn; apply lookup_insert_eq|done|cbn; lia|]. by wp_step.
  - destruct (ninodes_max _ H L). unfold myfs_disk_inode_write, disk_inode_write_body. wp_step. rewrite u32_small by ulia.
    apply wp_iget_removed; [done..|]. change (0 =? 0) with true. cbn iota. by wp_step.
Qed.

#[global] Instance myfs_files : FileContract (myfs_driver B).
Proof.
  refine {| fc_ok := myfs_file_ok; fc_frame := myfs_file_frame |}.
  - intros s f x ops open K Hf Ho Hop. cbn in Ho. destruct (f_ops x =? myfs_f_ops_ptr); [|done]. injection Ho as <-.
    injection Hop as <-. by apply wp_myfsd_f_open.
  - intros s f x ops close K Hf Ho Hop. cbn in Ho. destruct (f_ops x =? myfs_f_ops_ptr); [|done]. injection Ho as <-.
    injection Hop as <-. by apply (wp_myfsd_f_close s f x).
Defined.
End myfs_files.

(** Inode 1 of the disk is in memory and dirty, inode 2 was removed; vnodes 11
    and 12 stand for them, and descriptor 0 is taken. *)
Definition demo_vnode (ino : Z) : vnode_t := Vnode 10 0 0 S_IFREG 0 ino 2 0.
Definition demo_super : super_block_t := SuperBlock 0 11 myfs_f_ops_ptr myfs_vnode_ops_ptr 0 7.
Definition demo_files : machine :=
  MkVfs (MyfsDriver {[ 7 := demo_dirty ]} ∅ [] raw_fs ∅) {[ 11 := demo_vnode 1; 12 := demo_vnode 2 ]} {[ 10 := demo_super ]}
    {[ 30 := File 11 myfs_f_ops_ptr 0 O_RDONLY 1 ]} ∅ [] [] (aput (mk_arr MAX_FD 0) 0 30) 0 100 [] 0 10.

Lemma demo_openable vn ino :
  vnodes demo_files !! vn = Some (demo_vnode ino) → vn ≠ 0 → ino = 1 ∨ ino = 2 → openable demo_files vn (demo_vnode ino) demo_super.
Proof.
  intros E H0 Hi. split; try done. exists (demo_vnode ino), demo_super, demo_dirty. split_and!; [done..|].
  split_and!; [exact (fs_ok_inodes _ _ demo_fs_ok)|exact demo_layout|exact demo_cache|].
  destruct Hi as [-> | ->]; [left; exists 5, (with_dirty 1 demo_inode); split; [exact demo_held|done]|right; by vm_compute].
Qed.

Lemma vfs_descriptor_lifecycle_witness :
  wp (vfs_bind_vnode_to_fd 11 O_RDONLY) demo_files (λ fd s1, fd = 1 ∧
    wp (vfs_close fd) s1 (λ _ s', v_refcount <$> vnodes s' !! 11 = Some 1)) ∧
  wp (vfs_bind_vnode_to_fd 12 O_RDONLY) demo_files (λ fd s1, fd = -1 ∧ open_files s1 = open_files demo_files).
Proof.
  assert (∃ j, 0 <= j < MAX_FD ∧ aat (g_fd_table demo_files) j = 0) as (j & Hj & Ej) by (by exists 1).
  split.
  - eapply wp_mono; [exact (vfs_descriptor_lifecycle demo_files 11 (demo_vnode 1) demo_super O_RDONLY
      (demo_openable 11 1 eq_refl ltac:(done) ltac:(by left)) ltac:(cbn; lia))|].
    intros fd s1 [(_ & _ & _ & [[[H|H] _]|[H _]])|(_ & _ & (Hr & Hz & Hl) & _ & Hc)]; [discriminate H|by vm_compute in H|by destruct (H j)|].
    assert (fd = 1) as ->.
    { destruct (decide (fd = 0)) as [->|E0]; [discriminate Hz|]. destruct (decide (fd = 1)) as [E|E]; [exact E|]. by destruct (Hl 1); [lia|]. }
    split; [reflexivity|]. eapply wp_mono; [exact Hc|]. intros r s' (_ & _ & E). by rewrite E, lookup_insert_eq.
  - eapply wp_mono; [exact (vfs_descriptor_lifecycle demo_files 12 (demo_vnode 2) demo_super O_RDONLY
      (demo_openable 12 2 eq_refl ltac:(done) ltac:(by right)) ltac:(cbn; lia))|].
    intros fd s1 [(-> & _ & _ & [[_ E]|[H _]])|(_ & Ha & _)]; [split; [reflexivity|exact E]|by destruct (H j)|by vm_compute in Ha].
Defined.
