(* ===== verification/Console.v ===== *)
(** * The text console

    The VGA text buffer of [kernel/src/drivers/console/vga.c] and the console
    on top of it, [drivers/console/console.c]: printing, tabs, scrolling and
    the ANSI escape sequences. Access outside the text buffer is a fault; the
    writes to the cursor ports are logged. *)

From S2P Require Import Prelude.

Definition SCREEN_WIDTH : Z := 80.
Definition SCREEN_HEIGHT : Z := 25.
Definition VGA_COLOR_LIGHT_GREY : Z := 7.
Definition VGA_COLOR_BLACK : Z := 0.
Definition VGA_COLOR_WHITE : Z := 15.
Definition VGA_MAKE_COLOR (fg bg : Z) : Z := Z.lor (Z.shiftl bg 4) fg.
Definition LIGHT_MODE : Z := VGA_MAKE_COLOR VGA_COLOR_BLACK VGA_COLOR_WHITE.
Definition DARK_MODE : Z := VGA_MAKE_COLOR VGA_COLOR_LIGHT_GREY VGA_COLOR_BLACK.

Inductive con_state_t := STATE_NORMAL | STATE_BRACKET | STATE_PARAMS.
Inductive con_mode_t := CON_MODE_DARK | CON_MODE_LIGHT.

#[global] Instance con_state_eq_dec : EqDecision con_state_t.
Proof. solve_decision. Defined.

(** The text buffer, the log of port writes (latest first), the variables of
    console.c, and what [kdebugc] was given (latest first). *)
Record con := Con {
  g_vga_buf : arr Z;
  ports : list (Z * Z);
  g_con_mode : con_mode_t;
  g_state : con_state_t;
  g_params : arr Z;
  g_param_idx : Z;
  g_con_x : Z;
  g_con_y : Z;
  g_saved_x : Z;
  g_saved_y : Z;
  g_con_color : Z;
  g_con_default_color : Z;
  debug_out : list Z
}.

Definition set_buf b s := Con b (ports s) (g_con_mode s) (g_state s) (g_params s) (g_param_idx s) (g_con_x s) (g_con_y s)
  (g_saved_x s) (g_saved_y s) (g_con_color s) (g_con_default_color s) (debug_out s).
Definition set_ports l s := Con (g_vga_buf s) l (g_con_mode s) (g_state s) (g_params s) (g_param_idx s) (g_con_x s) (g_con_y s)
  (g_saved_x s) (g_saved_y s) (g_con_color s) (g_con_default_color s) (debug_out s).
Definition set_state st s := Con (g_vga_buf s) (ports s) (g_con_mode s) st (g_params s) (g_param_idx s) (g_con_x s) (g_con_y s)
  (g_saved_x s) (g_saved_y s) (g_con_color s) (g_con_default_color s) (debug_out s).
Definition set_params p s := Con (g_vga_buf s) (ports s) (g_con_mode s) (g_state s) p (g_param_idx s) (g_con_x s) (g_con_y s)
  (g_saved_x s) (g_saved_y s) (g_con_color s) (g_con_default_color s) (debug_out s).
Definition set_idx n s := Con (g_vga_buf s) (ports s) (g_con_mode s) (g_state s) (g_params s) n (g_con_x s) (g_con_y s)
  (g_saved_x s) (g_saved_y s) (g_con_color s) (g_con_default_color s) (debug_out s).
Definition set_xy x y s := Con (g_vga_buf s) (ports s) (g_con_mode s) (g_state s) (g_params s) (g_param_idx s) x y
  (g_saved_x s) (g_saved_y s) (g_con_color s) (g_con_default_color s) (debug_out s).
Definition set_saved x y s := Con (g_vga_buf s) (ports s) (g_con_mode s) (g_state s) (g_params s) (g_param_idx s) (g_con_x s) (g_con_y s)
  x y (g_con_color s) (g_con_default_color s) (debug_out s).
Definition set_color c s := Con (g_vga_buf s) (ports s) (g_con_mode s) (g_state s) (g_params s) (g_param_idx s) (g_con_x s) (g_con_y s)
  (g_saved_x s) (g_saved_y s) c (g_con_default_color s) (debug_out s).
Definition set_default c s := Con (g_vga_buf s) (ports s) (g_con_mode s) (g_state s) (g_params s) (g_param_idx s) (g_con_x s) (g_con_y s)
  (g_saved_x s) (g_saved_y s) (g_con_color s) c (debug_out s).
Definition set_mode m s := Con (g_vga_buf s) (ports s) m (g_state s) (g_params s) (g_param_idx s) (g_con_x s) (g_con_y s)
  (g_saved_x s) (g_saved_y s) (g_con_color s) (g_con_default_color s) (debug_out s).
Definition set_debug l s := Con (g_vga_buf s) (ports s) (g_con_mode s) (g_state s) (g_params s) (g_param_idx s) (g_con_x s) (g_con_y s)
  (g_saved_x s) (g_saved_y s) (g_con_color s) (g_con_default_color s) l.

(* ------------------------------------------------------------------ *)
(** ** The text buffer *)

Definition on_buf {A} (m : M (arr Z) A) : M con A := zoom g_vga_buf set_buf m.
Definition hal_out8 (port v : Z) : M con unit := modify (λ s, set_ports ((port, u8 v) :: ports s) s).

Definition vga_write_char (x y c : Z) : M con unit := on_buf (st (2 * (y * SCREEN_WIDTH + x)) (u8 c)).
Definition vga_write_color (x y color : Z) : M con unit := on_buf (st (2 * (y * SCREEN_WIDTH + x) + 1) (u8 color)).
Definition vga_read_char (x y : Z) : M con Z := on_buf (ld (2 * (y * SCREEN_WIDTH + x))).
Definition vga_read_color (x y : Z) : M con Z := on_buf (ld (2 * (y * SCREEN_WIDTH + x) + 1)).

Definition vga_cursor_set (x y : Z) : M con unit :=
  let pos := y * SCREEN_WIDTH + x in
  hal_out8 980 15 ;;
  hal_out8 981 (Z.land pos 255) ;;
  hal_out8 980 14 ;;
  hal_out8 981 (Z.land (Z.shiftr pos 8) 255).

Definition vga_scroll (lines back_color : Z) : M con unit :=
  for_range lines SCREEN_HEIGHT (λ y,
    for_range 0 SCREEN_WIDTH (λ x,
      c ← vga_read_char x y;
      vga_write_char x (y - lines) c ;;
      k ← vga_read_color x y;
      vga_write_color x (y - lines) k)) ;;
  for_range (SCREEN_HEIGHT - lines) SCREEN_HEIGHT (λ y,
    for_range 0 SCREEN_WIDTH (λ x,
      vga_write_char x y 0 ;;
      vga_write_color x y back_color)).

Definition vga_clear (back_color : Z) : M con unit :=
  for_range 0 SCREEN_HEIGHT (λ y,
    for_range 0 SCREEN_WIDTH (λ x,
      vga_write_char x y 32 ;;
      vga_write_color x y back_color)) ;;
  vga_cursor_set 0 0.

(* ------------------------------------------------------------------ *)
(** ** The console *)

Definition ansi_to_vga_lookup_dark : list Z := [0; 4; 2; 6; 1; 5; 3; 7].
Definition ansi_to_vga_lookup_light : list Z := [0; 4; 2; 6; 1; 5; 3; 7].
Definition ansi_to_vga_lookup : M con (list Z) :=
  m ← gets g_con_mode;
  ret (match m with CON_MODE_DARK => ansi_to_vga_lookup_dark | CON_MODE_LIGHT => ansi_to_vga_lookup_light end).

Definition con_cursor_get : M con (Z * Z) := gets (λ s, (g_con_x s, g_con_y s)).

Definition con_cursor_set (x y : Z) : M con unit :=
  let x := if x <? 0 then 0 else x in
  let x := if SCREEN_WIDTH <=? x then SCREEN_WIDTH - 1 else x in
  let y := if y <? 0 then 0 else y in
  let y := if SCREEN_HEIGHT <=? y then SCREEN_HEIGHT - 1 else y in
  modify (set_xy x y) ;;
  vga_cursor_set x y.

Definition con_clear : M con unit :=
  c ← gets g_con_color;
  vga_clear c ;;
  modify (set_xy 0 0) ;;
  vga_cursor_set 0 0.

Definition con_backspace : M con unit :=
  x ← gets g_con_x;
  y ← gets g_con_y;
  let erase :=
    x ← gets g_con_x;
    y ← gets g_con_y;
    c ← gets g_con_color;
    vga_write_char x y 32 ;;
    vga_write_color x y c ;;
    vga_cursor_set x y in
  if 0 <? x then modify (set_xy (x - 1) y) ;; erase
  else if 0 <? y then modify (set_xy (SCREEN_WIDTH - 1) (y - 1)) ;; erase
  else ret tt.

Definition param (i : Z) : M con Z := zoom g_params set_params (ld i).

(** Select graphic rendition: one parameter. *)
Definition sgr (i : Z) : M con unit :=
  p ← param i;
  if p =? 0 then modify (λ s, set_color (g_con_default_color s) s)
  else if (30 <=? p) && (p <=? 37) then
    t ← ansi_to_vga_lookup;
    k ← of_opt (t !! Z.to_nat (p - 30));
    modify (λ s, set_color (u8 (Z.lor (Z.land (g_con_color s) 240) k)) s)
  else if (40 <=? p) && (p <=? 47) then
    t ← ansi_to_vga_lookup;
    k ← of_opt (t !! Z.to_nat (p - 40));
    modify (λ s, set_color (u8 (Z.lor (Z.land (g_con_color s) 15) (Z.shiftl k 4))) s)
  else ret tt.

Definition handle_csi_command (c : Z) : M con unit :=
  if c =? 115 then modify (λ s, set_saved (g_con_x s) (g_con_y s) s)
  else if c =? 117 then
    x ← gets g_saved_x; y ← gets g_saved_y;
    con_cursor_set x y
  else if (c =? 72) || (c =? 102) then
    col ← param 1; row ← param 0;
    con_cursor_set (s32 (col - 1)) (s32 (row - 1))
  else if c =? 74 then
    p ← param 0;
    when (p =? 2) con_clear
  else if c =? 75 then
    x ← gets g_con_x;
    for_range x SCREEN_WIDTH (λ i,
      y ← gets g_con_y;
      color ← gets g_con_color;
      vga_write_char i y 32 ;;
      vga_write_color i y color)
  else if c =? 109 then
    n ← gets g_param_idx;
    for_range 0 (n + 1) sgr
  else ret tt.

(** The end of [con_putc]: wrapping, scrolling and the cursor. *)
Definition con_wrap : M con unit :=
  x ← gets g_con_x;
  when (SCREEN_WIDTH <=? x) (modify (λ s, set_xy 0 (g_con_y s + 1) s)) ;;
  y ← gets g_con_y;
  when (SCREEN_HEIGHT <=? y) (
    color ← gets g_con_color;
    vga_scroll 1 color ;;
    modify (λ s, set_xy (g_con_x s) (SCREEN_HEIGHT - 1) s)) ;;
  x ← gets g_con_x; y ← gets g_con_y;
  vga_cursor_set x y.

(** "Handle standard character printing"; [putc] is [con_putc], which a tab
    calls for each of its spaces. *)
Definition con_print (putc : Z → M con unit) (c : Z) : M con unit :=
  if c =? 10 then modify (λ s, set_xy 0 (g_con_y s + 1) s) ;; con_wrap
  else if c =? 13 then modify (λ s, set_xy 0 (g_con_y s) s) ;; con_wrap
  else if c =? 9 then
    while_n 5 (λ _ : unit,
      putc 32 ;;
      x ← gets g_con_x;
      ret (if negb (x mod 4 =? 0) then inl tt else inr tt)) tt
  else if c =? 8 then con_backspace
  else
    x ← gets g_con_x; y ← gets g_con_y; color ← gets g_con_color;
    vga_write_char x y c ;;
    vga_write_color x y color ;;
    modify (λ s, set_xy (g_con_x s + 1) (g_con_y s) s) ;;
    con_wrap.

Definition con_putc_body (putc : Z → M con unit) (c : Z) : M con unit :=
  st ← gets g_state;
  match st with
  | STATE_NORMAL => if c =? 27 then modify (set_state STATE_BRACKET) else con_print putc c
  | STATE_BRACKET =>
      if c =? 91 then
        modify (set_state STATE_PARAMS) ;;
        modify (set_params (mk_arr 4 0)) ;;
        modify (set_idx 0)
      else if c =? 55 then
        modify (λ s, set_saved (g_con_x s) (g_con_y s) s) ;;
        modify (set_state STATE_NORMAL)
      else if c =? 56 then
        x ← gets g_saved_x; y ← gets g_saved_y;
        con_cursor_set x y ;;
        modify (set_state STATE_NORMAL)
      else modify (set_state STATE_NORMAL) ;; con_print putc c
  | STATE_PARAMS =>
      if (48 <=? c) && (c <=? 57) then
        i ← gets g_param_idx;
        p ← param i;
        zoom g_params set_params (Prelude.st i (s32 (p * 10 + (c - 48))))
      else if c =? 59 then
        i ← gets g_param_idx;
        when (i <? 3) (modify (set_idx (i + 1)))
      else if c =? 63 then ret tt
      else handle_csi_command c ;; modify (set_state STATE_NORMAL)
  end.

(** The spaces of a tab are printed in the normal state and call no further. *)
Definition con_putc (c : Z) : M con unit := con_putc_body (con_putc_body (λ _, fault)) c.

(** Up to the null. *)
Fixpoint con_puts (str : list Z) : M con unit :=
  match str with
  | c :: str => if c =? 0 then ret tt else con_putc c ;; con_puts str
  | [] => fault
  end.

(** At most [n] characters, up to a null. *)
Fixpoint con_putsn (str : list Z) (n : nat) : M con unit :=
  match n, str with
  | S n, c :: str => if c =? 0 then ret tt else con_putc c ;; con_putsn str n
  | S _, [] => fault
  | O, _ => ret tt
  end.

Definition con_newline : M con unit := con_putc 10.

Definition con_module_init : M con Z :=
  modify (set_mode CON_MODE_DARK) ;;
  modify (λ s, set_default (match g_con_mode s with CON_MODE_LIGHT => LIGHT_MODE | CON_MODE_DARK => DARK_MODE end) s) ;;
  modify (λ s, set_color (g_con_default_color s) s) ;;
  con_clear ;;
  ret 0.

(** [sys_console.c] *)
Definition sys_clear : M con Z := con_clear ;; ret 0.

(** [klib/stdio.c]: a character on the debug descriptor. *)
Definition kdebugc (c : Z) : M con unit := modify (λ s, set_debug (c :: debug_out s) s).

(** [write] on the console device. *)
Definition console_dev_write (data : list Z) : M con Z :=
  for_each data (λ c, con_putc c ;; kdebugc c) ;;
  ret (Z.of_nat (length data)).

(* ------------------------------------------------------------------ *)
(** ** The invariant *)

Definition on_screen (x y : Z) : Prop := 0 <= x < SCREEN_WIDTH ∧ 0 <= y < SCREEN_HEIGHT.

(** Character and attribute of a cell. *)
Definition cell (b : arr Z) (x y : Z) : Z * Z :=
  (aat b (2 * (y * SCREEN_WIDTH + x)), aat b (2 * (y * SCREEN_WIDTH + x) + 1)).

(** The buffer has 80 by 25 cells of two bytes, a parameter index is one of
    four and colours are bytes. *)
Record con_ok (s : con) : Prop := {
  co_buf : alen (g_vga_buf s) = 4000;
  co_bytes : ∀ x y, on_screen x y → is_u8 (fst (cell (g_vga_buf s) x y)) ∧ is_u8 (snd (cell (g_vga_buf s) x y));
  co_params : alen (g_params s) = 4;
  co_idx : 0 <= g_param_idx s <= 3;
  co_color : is_u8 (g_con_color s);
  co_default : is_u8 (g_con_default_color s)
}.

(** Between two characters the cursor is on the screen. *)
Definition con_inv (s : con) : Prop := con_ok s ∧ on_screen (g_con_x s) (g_con_y s).

(** [b'] is [b] with the cell at [x], [y] changed. *)
Definition cell_upd (b : arr Z) (x y : Z) (v : Z * Z) (b' : arr Z) : Prop :=
  alen b' = alen b ∧
  ∀ x' y', on_screen x' y' → cell b' x' y' = if decide (x' = x ∧ y' = y) then v else cell b x' y'.

Section cells.
Variables (s : con) (x y : Z).
Hypothesis (Hlen : alen (g_vga_buf s) = 4000) (Hxy : on_screen x y).

Lemma wp_put_cell c k (Q : unit → con → Prop) :
  (∀ b, cell_upd (g_vga_buf s) x y (u8 c, u8 k) b → Q tt (set_buf b s)) →
  wp (vga_write_char x y c ;; vga_write_color x y k) s Q.
Proof using All.
  intros HQ. unfold on_screen, SCREEN_WIDTH, SCREEN_HEIGHT in *. unfold vga_write_char, vga_write_color, on_buf, SCREEN_WIDTH.
  wp_step. wp_step. apply wp_st; [lia|]. wp_step. apply wp_st; [cbn; lia|]. cbn. apply HQ.
  split; [done|]. intros x' y' Hxy'. unfold on_screen, cell, SCREEN_WIDTH, SCREEN_HEIGHT in *.
  destruct (decide (x' = x ∧ y' = y)) as [[-> ->]|Hne].
  - rewrite aat_aput_ne by lia. by rewrite !aat_aput_eq.
  - by rewrite !aat_aput_ne by lia.
Qed.

Lemma wp_get_cell {A} (k : Z → M con A) (Q : A → con → Prop) :
  wp (k (fst (cell (g_vga_buf s) x y))) s Q → wp (c ← vga_read_char x y; k c) s Q.
Proof using All.
  intros HQ. unfold on_screen, SCREEN_WIDTH, SCREEN_HEIGHT in *. unfold vga_read_char, on_buf. wp_step. wp_step.
  apply wp_ld; [unfold SCREEN_WIDTH; lia|]. by replace (set_buf (g_vga_buf s) s) with s by (by destruct s).
Qed.

Lemma wp_get_color {A} (k : Z → M con A) (Q : A → con → Prop) :
  wp (k (snd (cell (g_vga_buf s) x y))) s Q → wp (c ← vga_read_color x y; k c) s Q.
Proof using All.
  intros HQ. unfold on_screen, SCREEN_WIDTH, SCREEN_HEIGHT in *. unfold vga_read_color, on_buf. wp_step. wp_step.
  apply wp_ld; [unfold SCREEN_WIDTH; lia|]. by replace (set_buf (g_vga_buf s) s) with s by (by destruct s).
Qed.
End cells.

(** The cursor ports get the position. *)
Definition cursor_writes (x y : Z) : list (Z * Z) :=
  let pos := y * SCREEN_WIDTH + x in
  [(981, u8 (Z.land (Z.shiftr pos 8) 255)); (980, 14); (981, u8 (Z.land pos 255)); (980, 15)].

Lemma wp_vga_cursor_set x y s (Q : unit → con → Prop) :
  Q tt (set_ports (cursor_writes x y ++ ports s) s) → wp (vga_cursor_set x y) s Q.
Proof. intros HQ. unfold vga_cursor_set, hal_out8. repeat wp_step. exact HQ. Qed.

(** A loop over the cells of a row. *)
Lemma wp_row y lo s (body : Z → M con unit) (P : Z → Z * Z → Prop) (Q : unit → con → Prop) :
  alen (g_vga_buf s) = 4000 → 0 <= y < SCREEN_HEIGHT → 0 <= lo <= SCREEN_WIDTH →
  (∀ x b, lo <= x < SCREEN_WIDTH → alen b = 4000 →
     (∀ x' y', on_screen x' y' → ¬ (y' = y ∧ lo <= x' < x) → cell b x' y' = cell (g_vga_buf s) x' y') →
     wp (body x) (set_buf b s) (λ _ s', ∃ v b', s' = set_buf b' s ∧ P x v ∧ cell_upd b x y v b')) →
  (∀ b, alen b = 4000 →
     (∀ x' y', on_screen x' y' → ¬ (y' = y ∧ lo <= x') → cell b x' y' = cell (g_vga_buf s) x' y') →
     (∀ x', lo <= x' < SCREEN_WIDTH → P x' (cell b x' y)) → Q tt (set_buf b s)) →
  wp (for_range lo SCREEN_WIDTH body) s Q.
Proof.
  intros Hlen Hy Hlo Hbody HQ. eapply wp_mono.
  - apply (wp_for_range (λ x s', ∃ b, s' = set_buf b s ∧ alen b = 4000 ∧
      (∀ x' y', on_screen x' y' → ¬ (y' = y ∧ lo <= x' < x) → cell b x' y' = cell (g_vga_buf s) x' y') ∧
      (∀ x', lo <= x' < x → P x' (cell b x' y)))).
    + exists (g_vga_buf s). split; [by destruct s|]. split; [done|]. split; [done|lia].
    + intros x s' Hx (b & -> & Lb & Hout & Hin). eapply wp_mono; [by apply Hbody|].
      intros _ s'' (v & b' & -> & Hv & Lb' & Hb'). exists b'. split; [done|]. split; [lia|]. split.
      * intros x' y' Hs Hn. rewrite Hb' by done. rewrite decide_False by lia. apply Hout; [done|lia].
      * intros x' Hx'. rewrite Hb' by (unfold on_screen; lia). destruct (decide (x' = x ∧ y = y)) as [[-> _]|Hne]; [done|].
        apply Hin. lia.
  - intros [] s' (b & -> & Lb & Hout & Hin). apply HQ; [done| |].
    + intros x' y' Hs Hn. apply Hout; [done|]. intros [-> ?]. apply Hn. lia.
    + intros x' Hx'. apply Hin. lia.
Qed.

(** One cell moved up. *)
Lemma wp_move_cell s x y (Q : unit → con → Prop) :
  alen (g_vga_buf s) = 4000 → on_screen x y → on_screen x (y - 1) →
  (∀ b, cell_upd (g_vga_buf s) x (y - 1) (u8 (fst (cell (g_vga_buf s) x y)), u8 (snd (cell (g_vga_buf s) x y))) b →
     Q tt (set_buf b s)) →
  wp (c ← vga_read_char x y; vga_write_char x (y - 1) c ;;
      k ← vga_read_color x y; vga_write_color x (y - 1) k) s Q.
Proof.
  intros Hlen Hxy Hxy' HQ. unfold on_screen, SCREEN_WIDTH, SCREEN_HEIGHT in *.
  unfold vga_read_char, vga_write_char, vga_read_color, vga_write_color, on_buf, SCREEN_WIDTH.
  wp_step. wp_step. apply wp_ld; [lia|]. wp_step. wp_step. apply wp_st; [cbn; lia|]. wp_step. wp_step.
  apply wp_ld; [cbn; lia|]. wp_step. apply wp_st; [cbn; lia|]. cbn. rewrite aat_aput_ne by lia.
  match goal with |- Q tt ?st => replace st with (set_buf (g_vga_buf st) s) by done end. apply HQ. cbn.
  split; [done|]. intros x' y' Hs. unfold on_screen, cell, SCREEN_WIDTH, SCREEN_HEIGHT in *.
  destruct (decide (x' = x ∧ y' = y - 1)) as [[-> ->]|Hne].
  - rewrite aat_aput_ne by lia. by rewrite !aat_aput_eq.
  - by rewrite !aat_aput_ne by lia.
Qed.

Lemma wp_vga_scroll color s (Q : unit → con → Prop) :
  alen (g_vga_buf s) = 4000 →
  (∀ b, alen b = 4000 → (∀ x y, on_screen x y →
     cell b x y = if y <? SCREEN_HEIGHT - 1 then (u8 (fst (cell (g_vga_buf s) x (y + 1))), u8 (snd (cell (g_vga_buf s) x (y + 1))))
                  else (0, u8 color)) → Q tt (set_buf b s)) →
  wp (vga_scroll 1 color) s Q.
Proof.
  intros Hlen HQ. unfold vga_scroll. wp_step. set (b0 := g_vga_buf s) in *.
  set (up := λ x y, (u8 (fst (cell b0 x y)), u8 (snd (cell b0 x y)))).
  eapply wp_mono.
  { apply (wp_for_range (λ y s', ∃ b, s' = set_buf b s ∧ alen b = 4000 ∧ ∀ x' y', on_screen x' y' →
      cell b x' y' = if y' <? y - 1 then up x' (y' + 1) else cell b0 x' y')).
    - exists b0. split; [by destruct s|]. split; [done|]. intros x' y' [_ Hy]. by rewrite (proj2 (Z.ltb_ge y' _)) by lia.
    - intros y s' Hy (b & -> & Lb & Hb). unfold SCREEN_HEIGHT in Hy.
      apply (wp_row (y - 1) 0 _ _ (λ x v, v = up x y)); [done|unfold SCREEN_HEIGHT; lia|unfold SCREEN_WIDTH; lia| |].
      + intros x b1 Hx L1 Hb1. cbn [g_vga_buf set_buf] in Hb1.
        assert (on_screen x y) as Hxy by (split; [done|unfold SCREEN_HEIGHT; lia]).
        apply wp_move_cell; [done|done|split; [done|unfold SCREEN_HEIGHT; lia]|]. cbn [g_vga_buf set_buf].
        assert (cell b1 x y = cell b0 x y) as ->.
        { rewrite Hb1 by (done || lia). rewrite Hb by done. by rewrite (proj2 (Z.ltb_ge y _)) by lia. }
        intros b2 Hb2. exists (up x y), b2. done.
      + intros b1 L1 Hout Hin. exists b1. split; [done|]. split; [done|]. cbn [g_vga_buf set_buf] in Hout.
        intros x' y' Hs. destruct (decide (y' = y - 1)) as [->|Hne].
        * rewrite (proj2 (Z.ltb_lt _ _)) by lia. rewrite Hin by apply Hs. f_equal. lia.
        * rewrite Hout by (done || lia). rewrite Hb by done.
          destruct (y' <? y - 1) eqn:E1, (y' <? y + 1 - 1) eqn:E2; try done; blia. }
  intros [] s' (b & -> & Lb & Hb).
  change (Z.max 1 SCREEN_HEIGHT) with 25 in Hb. eapply wp_mono.
  { apply (wp_for_range (λ y s', ∃ b, s' = set_buf b s ∧ alen b = 4000 ∧ ∀ x' y', on_screen x' y' →
      cell b x' y' = if y' <? 24 then up x' (y' + 1) else if y' <? y then (0, u8 color) else cell b0 x' y')).
    - exists b. split; [done|]. split; [done|]. intros x' y' Hs. rewrite Hb by done. change (25 - 1) with 24.
      destruct (y' <? 24) eqn:E; [done|]. unfold SCREEN_HEIGHT. by rewrite (proj2 (Z.ltb_ge y' _)) by blia.
    - intros y s' Hy (b1 & -> & L1 & Hb1). unfold SCREEN_HEIGHT in Hy.
      apply (wp_row y 0 _ _ (λ x v, v = (0, u8 color))); [done|unfold SCREEN_HEIGHT; lia|unfold SCREEN_WIDTH; lia| |].
      + intros x b2 Hx L2 _. apply wp_put_cell; [done|split; [done|unfold SCREEN_HEIGHT; lia]|]. intros b3 Hb3.
        exists (0, u8 color), b3. done.
      + intros b2 L2 Hout Hin. exists b2. split; [done|]. split; [done|]. cbn [g_vga_buf set_buf] in Hout. intros x' y' Hs.
        destruct (decide (y' = y)) as [->|Hne].
        * rewrite (proj2 (Z.ltb_ge y 24)), (proj2 (Z.ltb_lt y (y + 1))) by lia. apply Hin, Hs.
        * rewrite Hout by (done || lia). rewrite Hb1 by done. destruct (y' <? 24); [done|].
          destruct (y' <? y) eqn:E1, (y' <? y + 1) eqn:E2; try done; blia. }
  intros [] s' (b1 & -> & L1 & Hb1). apply HQ; [done|]. intros x y Hs. rewrite Hb1 by done.
  change (SCREEN_HEIGHT - 1) with 24. change (Z.max 24 SCREEN_HEIGHT) with 25. destruct (y <? 24); [done|].
  by rewrite (proj2 (Z.ltb_lt y 25)) by apply Hs.
Qed.

(** Only the buffer, the ports, the cursor and the logs differ. *)
Definition moved (s s' : con) : Prop :=
  g_state s' = g_state s ∧ g_params s' = g_params s ∧ g_param_idx s' = g_param_idx s ∧ g_con_mode s' = g_con_mode s ∧
  g_saved_x s' = g_saved_x s ∧ g_saved_y s' = g_saved_y s ∧ g_con_color s' = g_con_color s ∧
  g_con_default_color s' = g_con_default_color s ∧ debug_out s' = debug_out s.

#[global] Instance moved_pre : PreOrder moved.
Proof. split; [done|]. unfold moved. intros s1 s2 s3 H12 H23. destruct_and!. repeat split; congruence. Qed.

(* ------------------------------------------------------------------ *)
(** ** A roll of paper

    What the console is for: an endless roll whose last 25 lines are in view.
    Printing writes on the roll at the cursor; nothing on it is ever copied. *)

Record roll := Roll {
  paper : Z → Z → Z * Z;
  column : Z;
  line : Z;
  window : Z;
  pen : Z
}.

Definition at_pos x y t := Roll (paper t) x y (window t) (pen t).
Definition inked x y v t := Roll (λ x' y', if decide (x' = x ∧ y' = y) then v else paper t x' y') (column t) (line t) (window t) (pen t).

(** A line below the window: the roll turns by one line, which is blank. *)
Definition feed (t : roll) : roll :=
  if line t - window t <? SCREEN_HEIGHT then t
  else Roll (λ x y, if y =? line t then (0, pen t) else paper t x y) (column t) (line t) (window t + 1) (pen t).

Definition wrap (t : roll) : roll :=
  feed (if column t <? SCREEN_WIDTH then t else at_pos 0 (line t + 1) t).

Definition ink (c : Z) (t : roll) : roll :=
  wrap (at_pos (column t + 1) (line t) (inked (column t) (line t) (u8 c, pen t) t)).

Definition erase_left (t : roll) : roll :=
  let rub x y := inked x y (32, pen t) (at_pos x y t) in
  if 0 <? column t then rub (column t - 1) (line t)
  else if window t <? line t then rub (SCREEN_WIDTH - 1) (line t - 1)
  else t.

Definition type (t : roll) (c : Z) : roll :=
  if c =? 10 then feed (at_pos 0 (line t + 1) t)
  else if c =? 13 then at_pos 0 (line t) t
  else if c =? 9 then Nat.iter (Z.to_nat (4 - column t mod 4)) (ink 32) t
  else if c =? 8 then erase_left t
  else ink c t.

(** The screen shows the window of the roll. *)
Record shows (s : con) (t : roll) : Prop := {
  sh_cell : ∀ x y, on_screen x y → cell (g_vga_buf s) x y = paper t x (window t + y);
  sh_x : g_con_x s = column t;
  sh_y : g_con_y s = line t - window t;
  sh_pen : g_con_color s = pen t
}.

Lemma shows_some s : shows s (Roll (cell (g_vga_buf s)) (g_con_x s) (g_con_y s) 0 (g_con_color s)).
Proof. split; try done; cbn; lia. Qed.

Lemma con_ok_buf s b :
  con_ok s → alen b = 4000 →
  (∀ x y, on_screen x y → is_u8 (fst (cell b x y)) ∧ is_u8 (snd (cell b x y))) → con_ok (set_buf b s).
Proof. intros []. by split. Qed.

Lemma con_ok_upd s x y v b :
  con_ok s → is_u8 (fst v) → is_u8 (snd v) → cell_upd (g_vga_buf s) x y v b → con_ok (set_buf b s).
Proof.
  intros Hok H1 H2 [Lb Hb]. apply con_ok_buf; [done|rewrite Lb; apply Hok|].
  intros x' y' Hs. rewrite Hb by done. destruct (decide _); [done|]. by apply Hok.
Qed.

Lemma wp_scroll_line s (Q : unit → con → Prop) :
  con_ok s →
  (∀ b, con_ok (set_buf b s) →
     (∀ x y, on_screen x y →
        cell b x y = if y <? SCREEN_HEIGHT - 1 then cell (g_vga_buf s) x (y + 1) else (0, g_con_color s)) →
     Q tt (set_buf b s)) →
  wp (vga_scroll 1 (g_con_color s)) s Q.
Proof.
  intros Hok HQ. apply wp_vga_scroll; [apply Hok|]. intros b Lb Hb.
  assert (∀ x y, on_screen x y →
    cell b x y = if y <? SCREEN_HEIGHT - 1 then cell (g_vga_buf s) x (y + 1) else (0, g_con_color s)) as Hb'.
  { intros x y Hs. rewrite Hb by done. destruct (y <? _) eqn:E.
    - destruct (co_bytes _ Hok x (y + 1)) as [H1 H2]; [unfold on_screen, SCREEN_HEIGHT in *; blia|].
      rewrite !u8_small by done. by destruct (cell _ _ _).
    - by rewrite u8_small by apply Hok. }
  apply HQ; [|done]. apply con_ok_buf; [done..|]. intros x y Hs. rewrite Hb' by done.
  destruct (y <? _) eqn:E; [|by split; [|apply Hok]]. apply Hok. unfold on_screen, SCREEN_HEIGHT in *; blia.
Qed.

Lemma wp_con_wrap s t :
  con_ok s → shows s t → 0 <= g_con_x s <= SCREEN_WIDTH → 0 <= g_con_y s <= SCREEN_HEIGHT →
  (g_con_x s = SCREEN_WIDTH → g_con_y s < SCREEN_HEIGHT) →
  wp con_wrap s (λ _ s', con_inv s' ∧ shows s' (wrap t) ∧ moved s s').
Proof.
  intros Hok Hsh Hx Hy Hxy. unfold con_wrap. do 3 wp_step.
  apply (wp_mono _ _ (λ _ s', shows s' (if column t <? SCREEN_WIDTH then t else at_pos 0 (line t + 1) t) ∧
           con_ok s' ∧ 0 <= g_con_x s' < SCREEN_WIDTH ∧ 0 <= g_con_y s' <= SCREEN_HEIGHT ∧ moved s s')).
  { rewrite <-(sh_x _ _ Hsh). apply wp_when; intros Hw.
    - rewrite (proj2 (Z.ltb_ge _ _)) by blia. wp_step. split.
      + destruct Hsh. split; cbn; [done|done|lia|done].
      + split; [by destruct Hok; split|]. cbn. unfold SCREEN_WIDTH in *. split; [lia|]. split; [blia|done].
    - rewrite (proj2 (Z.ltb_lt _ _)) by blia. split; [done|]. split; [done|]. split; [blia|done]. }
  intros [] s1 (Hsh1 & Hok1 & Hx1 & Hy1 & Hm1). unfold wrap. clear Hx Hy Hxy Hok Hsh.
  set (t1 := if column t <? SCREEN_WIDTH then t else at_pos 0 (line t + 1) t) in *. clearbody t1. clear t.
  do 3 wp_step.
  apply (wp_mono _ _ (λ _ s', shows s' (feed t1) ∧ con_inv s' ∧ moved s1 s')).
  { unfold feed. rewrite <-(sh_y _ _ Hsh1). apply wp_when; intros Hw.
    - rewrite (proj2 (Z.ltb_ge _ _)) by blia. do 3 wp_step. apply wp_scroll_line; [done|]. intros b Hb Hc. wp_step.
      assert (g_con_y s1 = SCREEN_HEIGHT) as HyE by blia. pose proof (sh_y _ _ Hsh1) as HyL. split; [split|split]; cbn.
      + intros x y Hs. rewrite Hc by done. destruct (y <? _) eqn:E.
        * rewrite (sh_cell _ _ Hsh1) by (unfold on_screen, SCREEN_HEIGHT in *; blia).
          unfold SCREEN_HEIGHT in *. rewrite (proj2 (Z.eqb_neq _ _)) by blia. f_equal. lia.
        * unfold on_screen, SCREEN_HEIGHT in *. rewrite (proj2 (Z.eqb_eq _ _)) by blia. f_equal. apply Hsh1.
      + apply Hsh1.
      + unfold SCREEN_HEIGHT in *. lia.
      + apply Hsh1.
      + split; [by destruct Hb; split|]. split; [done|unfold SCREEN_HEIGHT; cbn; lia].
      + done.
    - rewrite (proj2 (Z.ltb_lt _ _)) by blia. split; [done|]. split; [|done]. split; [done|]. split; [done|blia]. }
  intros [] s2 (Hsh2 & [Hok2 Hs2] & Hm2). do 4 wp_step. apply wp_vga_cursor_set.
  split; [split; [by destruct Hok2; split|done]|]. split; [by destruct Hsh2; split|]. by etrans.
Qed.

(** Writing a cell of the screen is inking the roll. *)
Lemma shows_inked s t x y v b :
  shows s t → on_screen x y → cell_upd (g_vga_buf s) x y v b →
  shows (set_buf b s) (inked x (window t + y) v t).
Proof.
  intros Hsh Hxy [Lb Hb]. destruct Hsh as [Hc Hx Hy Hp]. split; cbn; [|done..].
  intros x' y' Hs. rewrite Hb by done. destruct (decide (x' = x ∧ y' = y)) as [[-> ->]|Hne].
  - by rewrite decide_True by lia.
  - rewrite decide_False by lia. by apply Hc.
Qed.

(** The end of the branch for a printable character. *)
Lemma wp_print_char putc c s t :
  con_inv s → shows s t → c ≠ 10 → c ≠ 13 → c ≠ 9 → c ≠ 8 →
  wp (con_print putc c) s (λ _ s', con_inv s' ∧ shows s' (ink c t) ∧ moved s s').
Proof.
  intros [Hok Hxy] Hsh H10 H13 H9 H8. unfold con_print.
  rewrite !(proj2 (Z.eqb_neq c _)) by done. do 6 wp_step. apply wp_assoc. wp_step.
  apply wp_put_cell; [apply Hok|done|]. intros b Hb. do 2 wp_step.
  assert (con_ok (set_buf b s)) as Hok1.
  { eapply con_ok_upd; [done| | |exact Hb]; apply u8_range. }
  eapply wp_mono; [apply (wp_con_wrap _ (at_pos (column t + 1) (line t) (inked (column t) (line t) (u8 c, pen t) t)))|].
  - by destruct Hok1; split.
  - rewrite (u8_small (g_con_color s)) in Hb by apply Hok.
    destruct (shows_inked _ t _ _ _ _ Hsh Hxy Hb) as [Hc Hx Hy Hp]. destruct Hsh as [_ Ex Ey Ep].
    rewrite Ey, Ex, Ep in Hc. replace (window t + (line t - window t)) with (line t) in Hc by lia.
    split; cbn; [done|lia|lia|done].
  - cbn. unfold on_screen in Hxy. lia.
  - cbn. unfold on_screen in Hxy. lia.
  - cbn. unfold on_screen in Hxy. lia.
  - intros [] s' (Hi & Hs' & Hm). done.
Qed.

Lemma wp_con_backspace s t :
  con_inv s → shows s t →
  wp con_backspace s (λ _ s', con_inv s' ∧ shows s' (erase_left t) ∧ moved s s').
Proof.
  intros [Hok Hxy] Hsh. unfold con_backspace. do 4 wp_step.
  assert (∀ x y, on_screen x y → wp (
    modify (set_xy x y) ;;
    x ← gets g_con_x;
    y ← gets g_con_y;
    c ← gets g_con_color;
    vga_write_char x y 32 ;;
    vga_write_color x y c ;;
    vga_cursor_set x y) s (λ _ s', con_inv s' ∧
      shows s' (inked x (window t + y) (32, pen t) (at_pos x (window t + y) t)) ∧ moved s s')) as Herase.
  { intros x y Hs. do 8 wp_step. apply wp_assoc. wp_step. cbn [g_con_x g_con_y g_con_color set_xy].
    assert (con_ok (set_xy x y s)) as Hok1 by (by destruct Hok; split).
    apply wp_put_cell; [apply Hok|done|]. rewrite (u8_small (g_con_color s)) by apply Hok. intros b Hb.
    apply wp_vga_cursor_set.
    assert (con_ok (set_buf b (set_xy x y s))) as Hok2.
    { eapply con_ok_upd; [done| | |exact Hb]; [by cbn|apply Hok]. }
    split; [split; [by destruct Hok2; split|done]|]. split; [|done].
    assert (shows (set_xy x y s) (at_pos x (window t + y) t)) as Hsh1.
    { destruct Hsh. split; cbn; [done|done|lia|done]. }
    destruct (shows_inked _ _ _ _ _ _ Hsh1 Hs Hb) as [Hc Hx Hy Hp].
    rewrite (sh_pen _ _ Hsh) in Hc. by split. }
  unfold erase_left. destruct Hsh as [Hc Ex Ey Ep] eqn:E. clear E. rewrite <-Ex.
  destruct (0 <? g_con_x s) eqn:E1.
  - eapply wp_mono; [apply Herase; unfold on_screen in *; blia|].
    intros [] s'. replace (window t + g_con_y s) with (line t) by lia. done.
  - destruct (0 <? g_con_y s) eqn:E2.
    + rewrite (proj2 (Z.ltb_lt _ _)) by blia.
      eapply wp_mono; [apply Herase; unfold on_screen, SCREEN_WIDTH in *; blia|].
      intros [] s'. replace (window t + (g_con_y s - 1)) with (line t - 1) by lia. done.
    + rewrite (proj2 (Z.ltb_ge _ _)) by blia. wp_step. done.
Qed.

Lemma feed_column t : column (feed t) = column t.
Proof. unfold feed. by destruct (_ <? _). Qed.

Lemma ink_column c t : 0 <= column t < SCREEN_WIDTH → column (ink c t) mod 4 = (column t + 1) mod 4.
Proof.
  intros Hx. unfold ink, wrap. rewrite feed_column. cbn. destruct (column t + 1 <? SCREEN_WIDTH) eqn:E; [done|].
  cbn. replace (column t + 1) with 80 by (unfold SCREEN_WIDTH in *; blia). done.
Qed.

Section printing.
Variable putc : Z → M con unit.

Hypothesis Hputc : ∀ s t, con_inv s → g_state s = STATE_NORMAL → shows s t →
  wp (putc 32) s (λ _ s', con_inv s' ∧ shows s' (ink 32 t) ∧ moved s s').

Lemma wp_tab s t :
  con_inv s → g_state s = STATE_NORMAL → shows s t →
  wp (while_n 5 (λ _ : unit,
      putc 32 ;;
      x ← gets g_con_x;
      ret (if negb (x mod 4 =? 0) then inl tt else inr tt)) tt) s
    (λ _ s', con_inv s' ∧ shows s' (Nat.iter (Z.to_nat (4 - column t mod 4)) (ink 32) t) ∧ moved s s').
Proof using Hputc.
  intros Hi Hn Hsh. set (goal := Nat.iter _ _ _).
  apply (wp_while_n (λ k _ s', con_inv s' ∧ g_state s' = STATE_NORMAL ∧ moved s s' ∧
    ∃ t', shows s' t' ∧ Z.of_nat k = 4 - column t' mod 4 ∧ Nat.iter k (ink 32) t' = goal)
    _ _ 5 (Z.to_nat (4 - column t mod 4)) tt).
  - split; [done|]. split; [done|]. split; [done|]. exists t. split; [done|]. split; [|done].
    pose proof (Z.mod_pos_bound (column t) 4). lia.
  - pose proof (Z.mod_pos_bound (column t) 4). lia.
  - intros k [] s1 (Hi1 & Hn1 & Hm1 & t1 & Hsh1 & Hk & Hg). wp_step.
    eapply wp_mono; [by apply Hputc|]. intros [] s2 (Hi2 & Hsh2 & Hm2). do 3 wp_step.
    rewrite (sh_x _ _ Hsh2). destruct k as [|k]; [pose proof (Z.mod_pos_bound (column t1) 4); lia|].
    rewrite Nat.iter_succ_r in Hg.
    assert (column (ink 32 t1) mod 4 = (column t1 + 1) mod 4) as Ec.
    { apply ink_column. rewrite <-(sh_x _ _ Hsh1). apply Hi1. }
    destruct (column (ink 32 t1) mod 4 =? 0) eqn:E; simpl.
    + assert (k = 0%nat) as -> by (rewrite Ec in E; Z.div_mod_to_equations; blia).
      simpl in Hg. subst goal. rewrite <-Hg. split; [done|]. split; [done|]. by etrans.
    + exists k. split; [lia|]. split; [done|]. split; [unfold moved in Hm2; destruct Hm2; congruence|]. split; [by etrans|].
      exists (ink 32 t1). split; [done|]. split; [|done]. rewrite Ec in E |- *. Z.div_mod_to_equations; blia.
Qed.

Lemma wp_con_print c s t :
  con_inv s → g_state s = STATE_NORMAL → shows s t →
  wp (con_print putc c) s (λ _ s', con_inv s' ∧ shows s' (type t c) ∧ moved s s').
Proof using Hputc.
  intros Hi Hn Hsh. pose proof Hi as [Hok Hxy]. unfold type.
  destruct (c =? 10) eqn:E10; [|destruct (c =? 13) eqn:E13; [|destruct (c =? 9) eqn:E9; [|destruct (c =? 8) eqn:E8]]].
  5: { apply wp_print_char; try done; blia. }
  all: unfold con_print; rewrite ?E10, ?E13, ?E9, ?E8; clear E10; try clear E13; try clear E9; try clear E8.
  - do 2 wp_step. eapply wp_mono; [apply (wp_con_wrap _ (at_pos 0 (line t + 1) t))|].
    + by destruct Hok; split.
    + destruct Hsh. split; cbn; [done|done|lia|done].
    + cbn. unfold SCREEN_WIDTH. lia.
    + cbn. unfold on_screen in Hxy. lia.
    + cbn. unfold SCREEN_WIDTH. lia.
    + intros [] s' (? & Hw & ?). done.
  - do 2 wp_step. eapply wp_mono; [apply (wp_con_wrap _ (at_pos 0 (line t) t))|].
    + by destruct Hok; split.
    + by destruct Hsh; split.
    + cbn. unfold SCREEN_WIDTH. lia.
    + cbn. unfold on_screen in Hxy. lia.
    + cbn. unfold SCREEN_WIDTH. lia.
    + intros [] s' (? & Hw & ?). split; [done|]. split; [|done]. revert Hw. unfold wrap.
      cbn [column at_pos]. change (0 <? SCREEN_WIDTH) with true. cbn iota. unfold feed. cbn [line window at_pos].
      rewrite (proj2 (Z.ltb_lt _ _)); [done|]. rewrite <-(sh_y _ _ Hsh). apply Hxy.
  - by apply wp_tab.
  - by apply wp_con_backspace.
Qed.
End printing.

(** The spaces of a tab. *)
Lemma wp_putc_space s t :
  con_inv s → g_state s = STATE_NORMAL → shows s t →
  wp (con_putc_body (λ _, fault) 32) s (λ _ s', con_inv s' ∧ shows s' (ink 32 t) ∧ moved s s').
Proof.
  intros Hi Hn Hsh. unfold con_putc_body. do 2 wp_step. rewrite Hn. change (32 =? 27) with false. cbn iota.
  by apply wp_print_char.
Qed.

(** In the normal state a character other than ESC is typed. *)
Lemma wp_con_putc_normal c s t :
  con_inv s → g_state s = STATE_NORMAL → c ≠ 27 → shows s t →
  wp (con_putc c) s (λ _ s', con_inv s' ∧ shows s' (type t c) ∧ moved s s').
Proof.
  intros Hi Hn Hc Hsh. unfold con_putc. unfold con_putc_body at 1. do 2 wp_step. rewrite Hn.
  rewrite (proj2 (Z.eqb_neq _ _) Hc). apply wp_con_print; [exact wp_putc_space|done..].
Qed.

(* ------------------------------------------------------------------ *)
(** ** Escape sequences *)

Definition clamp (v size : Z) : Z := Z.max 0 (Z.min v (size - 1)).

Lemma clamp_code v n : 0 < n → (let w := if v <? 0 then 0 else v in if n <=? w then n - 1 else w) = clamp v n.
Proof. intros Hn. cbn zeta. unfold clamp. destruct (v <? 0) eqn:E1; destruct (n <=? _) eqn:E2; blia. Qed.

Lemma wp_con_cursor_set x y s :
  con_ok s →
  wp (con_cursor_set x y) s (λ _ s', con_inv s' ∧ g_con_x s' = clamp x SCREEN_WIDTH ∧ g_con_y s' = clamp y SCREEN_HEIGHT ∧
    g_vga_buf s' = g_vga_buf s ∧ moved s s').
Proof.
  intros Hok. unfold con_cursor_set. pose proof (clamp_code x SCREEN_WIDTH) as Ex. pose proof (clamp_code y SCREEN_HEIGHT) as Ey.
  cbn zeta in *. rewrite Ex, Ey by done. do 2 wp_step. apply wp_vga_cursor_set.
  split; [split; [by destruct Hok; split|]|done]. cbn. unfold on_screen, clamp, SCREEN_WIDTH, SCREEN_HEIGHT. lia.
Qed.

Lemma wp_con_clear s :
  con_ok s →
  wp con_clear s (λ _ s', con_inv s' ∧ g_con_x s' = 0 ∧ g_con_y s' = 0 ∧
    (∀ x y, on_screen x y → cell (g_vga_buf s') x y = (32, g_con_color s)) ∧ moved s s').
Proof.
  intros Hok. unfold con_clear, vga_clear. do 4 wp_step. eapply wp_mono.
  { apply (wp_for_range (λ y s', ∃ b, s' = set_buf b s ∧ alen b = 4000 ∧ ∀ x' y', on_screen x' y' → y' < y →
      cell b x' y' = (32, g_con_color s))).
    - exists (g_vga_buf s). split; [by destruct s|]. split; [apply Hok|]. intros x' y' [_ ?]. lia.
    - intros y s' Hy (b & -> & Lb & Hb).
      apply (wp_row y 0 _ _ (λ _ v, v = (32, g_con_color s))); [done|done|unfold SCREEN_WIDTH; lia| |].
      + intros x b1 Hx L1 _. apply wp_put_cell; [done|done|]. rewrite (u8_small (g_con_color s)) by apply Hok. intros b2 Hb2.
        exists (32, g_con_color s), b2. done.
      + intros b1 L1 Hout Hin. exists b1. split; [done|]. split; [done|]. intros x' y' Hs Hy'.
        destruct (decide (y' = y)) as [->|Hne]; [apply Hin, Hs|]. rewrite Hout by (done || lia). apply Hb; [done|lia]. }
  intros [] s' (b & -> & Lb & Hb). change (Z.max 0 SCREEN_HEIGHT) with SCREEN_HEIGHT in Hb.
  assert (∀ x y, on_screen x y → cell b x y = (32, g_con_color s)) as Hb' by (intros x y [??]; apply Hb; [done|lia]).
  apply wp_vga_cursor_set. do 2 wp_step. apply wp_vga_cursor_set.
  assert (con_ok (set_buf b s)) as Hok'.
  { apply con_ok_buf; [done..|]. intros x y Hs. rewrite Hb' by done. split; [by cbn|apply Hok]. }
  split; [split; [by destruct Hok'; split|by cbn]|]. done.
Qed.

Lemma wp_sgr i s :
  con_inv s → 0 <= i <= 3 → wp (sgr i) s (λ _ s', con_inv s' ∧ g_state s' = g_state s ∧ g_param_idx s' = g_param_idx s).
Proof.
  intros [Hok Hxy] Hi. unfold sgr, param. do 2 wp_step. apply wp_ld; [rewrite (co_params _ Hok); lia|].
  replace (set_params (g_params s) s) with s by (by destruct s).
  assert (∀ c, is_u8 c → con_inv (set_color c s)) as Hset by (intros c Hc; split; [by destruct Hok; split|done]).
  assert (∀ j, 0 <= j <= 7 → ∃ k, (match g_con_mode s with CON_MODE_DARK => ansi_to_vga_lookup_dark
    | CON_MODE_LIGHT => ansi_to_vga_lookup_light end) !! Z.to_nat j = Some k) as Hlook.
  { intros j Hj. apply lookup_lt_is_Some. destruct (g_con_mode s); cbn; lia. }
  wp_step. { wp_step. split; [apply Hset, Hok|done]. }
  wp_step.
  { unfold ansi_to_vga_lookup. do 5 wp_step. edestruct Hlook as [k Hk]; [|eapply wp_of_opt; [exact Hk|wp_step]]; [blia|].
    split; [apply Hset, u8_range|done]. }
  wp_step; [|wp_step; done].
  unfold ansi_to_vga_lookup. do 5 wp_step. edestruct Hlook as [k Hk]; [|eapply wp_of_opt; [exact Hk|wp_step]]; [blia|].
  split; [apply Hset, u8_range|done].
Qed.

Lemma wp_handle_csi_command c s :
  con_inv s → wp (handle_csi_command c) s (λ _ s', con_inv s').
Proof.
  intros [Hok Hxy]. unfold handle_csi_command, param.
  wp_step; [wp_step; split; [by destruct Hok; split|done]|].
  wp_step; [do 4 wp_step; eapply wp_mono; [by apply wp_con_cursor_set|by intros [] s' [? _]]|].
  wp_step.
  { do 2 wp_step. apply wp_ld; [rewrite (co_params _ Hok); lia|]. do 2 wp_step. apply wp_ld; [cbn; rewrite (co_params _ Hok); lia|].
    eapply wp_mono; [apply wp_con_cursor_set; by destruct Hok; split|by intros [] s' [? _]]. }
  wp_step.
  { do 2 wp_step. apply wp_ld; [rewrite (co_params _ Hok); lia|].
    assert (con_ok (set_params (g_params s) s)) as Hok' by (by destruct Hok; split).
    apply wp_when; intros _; [|by split]. eapply wp_mono; [by apply wp_con_clear|by intros [] s' [? _]]. }
  wp_step.
  { do 2 wp_step. apply (wp_row (g_con_y s) (g_con_x s) _ _ (λ _ v, v = (32, g_con_color s))).
    - apply Hok.
    - apply Hxy.
    - unfold on_screen in Hxy. lia.
    - intros x b Hx Lb _. do 4 wp_step. cbn [g_con_y g_con_color set_buf]. apply wp_put_cell; [done|unfold on_screen in *; lia|].
      rewrite (u8_small (g_con_color s)) by apply Hok. intros b' Hb'. exists (32, g_con_color s), b'. done.
    - intros b Lb Hout Hin. split; [|done]. apply con_ok_buf; [done..|]. intros x' y' Hs.
      destruct (decide (y' = g_con_y s ∧ g_con_x s <= x')) as [[-> ?]|Hne].
      + rewrite Hin by (unfold on_screen in Hs; lia). split; [by cbn|apply Hok].
      + rewrite Hout by done. by apply Hok. }
  wp_step; [|wp_step; by split].
  do 2 wp_step. eapply wp_mono.
  { apply (wp_for_range (λ _ s', con_inv s' ∧ g_param_idx s' = g_param_idx s)); [by repeat split; apply Hok || apply Hxy|].
    intros i s' Hi [Hi' En]. eapply wp_mono; [apply wp_sgr; [done|pose proof (co_idx _ Hok); lia]|].
    intros [] s'' (? & _ & ?). split; [done|congruence]. }
  by intros [] s' [? _].
Qed.

(** Every character, in every state. *)
Lemma wp_con_putc c s : con_inv s → wp (con_putc c) s (λ _ s', con_inv s').
Proof.
  intros Hi. pose proof Hi as [Hok Hxy].
  assert (∀ st, con_inv (set_state st s)) as Hst by (intros st; split; [by destruct Hok; split|done]).
  unfold con_putc. unfold con_putc_body at 1. do 2 wp_step. destruct (g_state s) eqn:Es.
  - wp_step; [by wp_step|]. eapply wp_mono; [apply wp_con_print; [exact wp_putc_space|done..|apply shows_some]|].
    by intros [] s' [? _].
  - wp_step; [do 5 wp_step; split; [|done]; destruct Hok; split; cbn; try done; lia|].
    wp_step; [do 3 wp_step; split; [by destruct Hok; split|done]|].
    wp_step.
    { do 5 wp_step. eapply wp_mono; [by apply wp_con_cursor_set|]. intros [] s' [[Hok' Hs'] _]. wp_step.
      split; [by destruct Hok'; split|done]. }
    do 2 wp_step. eapply wp_mono; [apply wp_con_print; [exact wp_putc_space|done..|apply shows_some]|].
    by intros [] s' [? _].
  - unfold param. pose proof (co_params _ Hok) as Hp. pose proof (co_idx _ Hok) as Hx. wp_step.
    { do 4 wp_step. apply wp_ld; [lia|]. wp_step. apply wp_st; [cbn; lia|]. split; [|done]. destruct Hok. by split. }
    wp_step.
    { do 2 wp_step. apply wp_when; intros Hlt; [|done]. wp_step. split; [|done]. destruct Hok; split; try done. cbn. blia. }
    wp_step; [by wp_step|]. wp_step. eapply wp_mono; [by apply wp_handle_csi_command|].
    intros [] s' [Hok' Hs']. wp_step. split; [by destruct Hok'; split|done].
Qed.

(** *** Cursor addressing: [ESC \[ row ; column H] *)

Definition decimal (ds : list Z) : Z := foldl (λ v d, v * 10 + (d - 48)) 0 ds.
Definition digits (ds : list Z) : Prop := Forall (λ d, 48 <= d <= 57) ds.

Lemma decimal_mono ds v : digits ds → 0 <= v → v <= foldl (λ v d, v * 10 + (d - 48)) v ds.
Proof.
  intros Hd. revert v. induction Hd as [|d ds H _ IH]; intros v Hv; cbn; [lia|].
  specialize (IH (v * 10 + (d - 48))). lia.
Qed.

(** Digits accumulate in the current parameter. *)
Lemma wp_param_digits ds s v :
  digits ds → con_inv s → g_state s = STATE_PARAMS → aat (g_params s) (g_param_idx s) = v → 0 <= v →
  foldl (λ v d, v * 10 + (d - 48)) v ds < 2 ^ 31 →
  wp (for_each ds (λ c, con_putc c ;; kdebugc c)) s (λ _ s', con_inv s' ∧ g_state s' = STATE_PARAMS ∧
    g_param_idx s' = g_param_idx s ∧ aat (g_params s') (g_param_idx s) = foldl (λ v d, v * 10 + (d - 48)) v ds ∧
    (∀ j, j ≠ g_param_idx s → aat (g_params s') j = aat (g_params s) j) ∧ g_vga_buf s' = g_vga_buf s).
Proof.
  intros Hd. revert s v. induction Hd as [|d ds Hd1 Hds IH]; intros s v Hi Hn Hv H0 Hlt; cbn [for_each].
  { wp_step. done. }
  pose proof Hi as [Hok Hxy]. pose proof (co_params _ Hok) as Hp. pose proof (co_idx _ Hok) as Hx.
  cbn in Hlt. pose proof (decimal_mono ds (v * 10 + (d - 48)) Hds) as Hmono. do 2 wp_step.
  unfold con_putc. unfold con_putc_body at 1. do 2 wp_step. rewrite Hn. rewrite (proj2 (andb_true_iff _ _)) by blia.
  unfold param. do 4 wp_step. apply wp_ld; [lia|]. wp_step. apply wp_st; [cbn; lia|]. cbn [g_params set_params].
  unfold kdebugc. wp_step. rewrite Hv.
  replace (s32 (v * 10 + (d - 48))) with (v * 10 + (d - 48)) by ulia.
  eapply wp_mono; [apply (IH _ (v * 10 + (d - 48)))|].
  - split; [|done]. destruct Hok; by split.
  - done.
  - cbn. by rewrite aat_aput_eq by lia.
  - lia.
  - done.
  - cbn. intros [] s' (Hi' & Hn' & Hx' & Hv' & Ho' & Hb'). split; [done|]. split; [done|]. split; [done|]. split; [done|].
    split; [|done]. intros j Hj. rewrite Ho' by done. by rewrite aat_aput_ne by lia.
Qed.

Lemma wp_for_each_app {St A} (l1 l2 : list A) (body : A → M St unit) s (Q : unit → St → Prop) :
  wp (for_each l1 body) s (λ _ s', wp (for_each l2 body) s' Q) → wp (for_each (l1 ++ l2) body) s Q.
Proof.
  revert s. induction l1 as [|x l1 IH]; intros s H; cbn [for_each app] in *; [done|].
  revert H. unfold wp at 1 3, bind at 1 2. destruct (body x s) as [[[] s']|]; [|done]. apply IH.
Qed.

(** The characters of the sequence. *)
Lemma con_putc_escape s : g_state s = STATE_NORMAL → con_putc 27 s = Some (tt, set_state STATE_BRACKET s).
Proof. intros Hn. unfold con_putc, con_putc_body. rewrite bind_gets, Hn. done. Qed.

Lemma con_putc_bracket s :
  g_state s = STATE_BRACKET → con_putc 91 s = Some (tt, set_idx 0 (set_params (mk_arr 4 0) (set_state STATE_PARAMS s))).
Proof. intros Hn. unfold con_putc, con_putc_body. rewrite bind_gets, Hn. done. Qed.

Lemma con_putc_semicolon s :
  g_state s = STATE_PARAMS → g_param_idx s = 0 → con_putc 59 s = Some (tt, set_idx 1 s).
Proof.
  intros Hn Hx. unfold con_putc, con_putc_body. rewrite bind_gets, Hn.
  change ((48 <=? 59) && (59 <=? 57)) with false. change (59 =? 59) with true. cbn iota. by rewrite bind_gets, Hx.
Qed.

Lemma wp_con_putc_home s :
  con_inv s → g_state s = STATE_PARAMS →
  wp (con_putc 72) s (λ _ s', con_inv s' ∧ g_state s' = STATE_NORMAL ∧
    g_con_y s' = clamp (s32 (aat (g_params s) 0 - 1)) SCREEN_HEIGHT ∧
    g_con_x s' = clamp (s32 (aat (g_params s) 1 - 1)) SCREEN_WIDTH ∧ g_vga_buf s' = g_vga_buf s).
Proof.
  intros [Hok Hxy] Hn. unfold con_putc. unfold con_putc_body at 1. do 2 wp_step. rewrite Hn. cbn iota.
  change ((48 <=? 72) && (72 <=? 57)) with false. change (72 =? 59) with false. change (72 =? 63) with false. cbn iota.
  pose proof (co_params _ Hok) as Hp. wp_step. unfold handle_csi_command, param.
  change (72 =? 115) with false. change (72 =? 117) with false. change ((72 =? 72) || (72 =? 102)) with true. cbn iota.
  do 2 wp_step. apply wp_ld; [lia|]. do 2 wp_step. apply wp_ld; [cbn; lia|].
  eapply wp_mono; [apply wp_con_cursor_set; by destruct Hok; split|]. cbn. intros [] s' ([Hok' Hxy'] & Hx & Hy & Hb & _).
  split; [split; [by destruct Hok'; split|done]|]. done.
Qed.

(* ------------------------------------------------------------------ *)
(** ** What the console device does *)

(** Whatever bytes a program writes to the console, well-formed escape
    sequences or not, no access leaves the text buffer or the parameters, the
    write returns its size, and the cursor is on the screen. *)
Theorem console_write_safe data s :
  con_inv s →
  wp (console_dev_write data) s (λ n s', n = Z.of_nat (length data) ∧ con_inv s').
Proof.
  intros Hi. unfold console_dev_write. wp_step. eapply wp_mono; [apply (wp_for_each (λ _ s', con_inv s')); [done|]|].
  - intros pre c s' _ Hs'. wp_step. eapply wp_mono; [by apply wp_con_putc|]. intros [] s'' Hs''. unfold kdebugc.
    wp_step. split; [|apply Hs'']. destruct Hs'' as [Hok _]. by destruct Hok; split.
  - intros [] s' Hs'. wp_step. done.
Qed.

(** C36: Text printed on the screen, with its copying and scrolling, is text
    typed on a roll of paper whose last 25 lines are in view: printable
    characters, line feed, carriage return, tab to the next column divisible
    by four, and backspace, across the ends of lines and of the screen. *)
Theorem console_shows_roll text s t :
  con_inv s → g_state s = STATE_NORMAL → 27 ∉ text → shows s t →
  wp (console_dev_write text) s (λ _ s', con_inv s' ∧ g_state s' = STATE_NORMAL ∧ shows s' (foldl type t text)).
Proof.
  intros Hi Hn Hesc Hsh. unfold console_dev_write. wp_step.
  eapply wp_mono; [apply (wp_for_each (λ pre s', con_inv s' ∧ g_state s' = STATE_NORMAL ∧ shows s' (foldl type t pre))); [done|]|].
  - intros pre c s' Hc (Hi' & Hn' & Hsh'). wp_step.
    eapply wp_mono; [apply wp_con_putc_normal; [done|done| |done]|]; [intros ->; done|].
    intros [] s'' ([Hok Hxy] & Hsh'' & Hm). unfold kdebugc. wp_step. rewrite foldl_app. cbn.
    split; [split; [by destruct Hok; split|done]|]. split; [destruct Hm; congruence|]. by destruct Hsh''; split.
  - intros [] s' Hs'. by wp_step.
Qed.

(** Cursor addressing: the sequence [ESC \[ row ; column H], with both
    numbers in decimal and below [2^31], moves the cursor to that position,
    counted from one and clamped to the screen, and prints nothing. *)
Theorem console_cursor_address rs cs s :
  con_inv s → g_state s = STATE_NORMAL → digits rs → digits cs → decimal rs < 2 ^ 31 → decimal cs < 2 ^ 31 →
  wp (console_dev_write ([27; 91] ++ rs ++ [59] ++ cs ++ [72])) s (λ _ s', con_inv s' ∧ g_state s' = STATE_NORMAL ∧
    g_con_y s' = clamp (decimal rs - 1) SCREEN_HEIGHT ∧ g_con_x s' = clamp (decimal cs - 1) SCREEN_WIDTH ∧
    g_vga_buf s' = g_vga_buf s).
Proof.
  intros Hi Hn Hr Hc Vr Vc. unfold console_dev_write. wp_step. cbn [app for_each]. unfold kdebugc at 1 2.
  do 2 wp_step. eapply wp_intro; [by apply con_putc_escape|]. wp_step.
  do 2 wp_step. eapply wp_intro; [by apply con_putc_bracket|]. wp_step.
  apply wp_for_each_app. destruct Hi as [Hok Hxy]. set (s1 := set_debug _ _).
  eapply wp_mono; [apply (wp_param_digits rs s1 0); try done; split; [|done]; destruct Hok; split; cbn; try done; lia|].
  intros [] s2 (Hi2 & Hn2 & Hx2 & Hv2 & Ho2 & Hb2). cbn [app for_each]. unfold kdebugc at 1.
  do 2 wp_step. eapply wp_intro; [by apply con_putc_semicolon|]. wp_step.
  apply wp_for_each_app. destruct Hi2 as [Hok2 Hxy2]. set (s3 := set_debug _ (set_idx 1 s2)).
  eapply wp_mono; [apply (wp_param_digits cs s3 0); try done|].
  { split; [|done]. destruct Hok2. split; cbn; try done; lia. }
  { cbn. by rewrite Ho2. }
  intros [] s4 (Hi4 & Hn4 & Hx4 & Hv4 & Ho4 & Hb4). cbn [for_each]. unfold kdebugc at 1.
  do 2 wp_step. eapply wp_mono; [by apply wp_con_putc_home|]. intros [] s5 ([Hok5 Hxy5] & Hn5 & Hy5 & Hc5 & Hb5).
  do 3 wp_step. cbn in *. rewrite Hv4 in Hc5. rewrite Ho4, Hv2 in Hy5 by done.
  pose proof (decimal_mono rs 0 Hr). pose proof (decimal_mono cs 0 Hc).
  split; [split; [by destruct Hok5; split|done]|]. split; [done|].
  rewrite Hy5, Hc5. fold (decimal rs) (decimal cs) in *.
  replace (s32 (decimal rs - 1)) with (decimal rs - 1) by ulia.
  replace (s32 (decimal cs - 1)) with (decimal cs - 1) by ulia. split; [done|]. split; [done|]. congruence.
Qed.

(** The console as linked: a blank text buffer. *)
Definition demo_console : con :=
  Con (mk_arr 4000 0) [] CON_MODE_DARK STATE_NORMAL (mk_arr 4 0) 0 0 0 0 0 0 0 [].
Definition demo_roll : roll := Roll (λ _ _, (0, 0)) 0 0 0 0.

Lemma demo_console_inv : con_inv demo_console.
Proof. split; [split|]; cbn; try done; try lia. Qed.

Lemma console_write_safe_witness :
  con_inv demo_console ∧
  wp (console_dev_write [27; 91; 57; 57; 59; 59; 59; 59; 65; 9; 10; 8]) demo_console (λ n s', n = 12 ∧ con_inv s').
Proof.
  split; [exact demo_console_inv|].
  eapply wp_mono; [exact (console_write_safe _ demo_console demo_console_inv)|]. intros n s' [-> Hs']. by split.
Defined.

(** "Hi", a tab and a line: the text is where the roll has it. *)
Lemma console_shows_roll_witness :
  27 ∉ [72; 105; 9; 33; 10; 8] ∧
  wp (console_dev_write [72; 105; 9; 33; 10; 8]) demo_console (λ _ s',
    con_inv s' ∧ g_state s' = STATE_NORMAL ∧ shows s' (foldl type demo_roll [72; 105; 9; 33; 10; 8])).
Proof.
  assert (27 ∉ [72; 105; 9; 33; 10; 8]) as Hesc by (by apply (bool_decide_unpack _)).
  assert (shows demo_console demo_roll) as Hsh by (by split).
  split; [exact Hesc|]. exact (console_shows_roll _ demo_console demo_roll demo_console_inv eq_refl Hesc Hsh).
Defined.

Lemma console_cursor_address_witness :
  digits [49; 50] ∧ digits [57; 57] ∧
  wp (console_dev_write ([27; 91] ++ [49; 50] ++ [59] ++ [57; 57] ++ [72])) demo_console (λ _ s',
    con_inv s' ∧ g_state s' = STATE_NORMAL ∧ g_con_y s' = 11 ∧ g_con_x s' = 79 ∧ g_vga_buf s' = mk_arr 4000 0).
Proof.
  assert (digits [49; 50]) as H1 by (repeat constructor; lia). assert (digits [57; 57]) as H2 by (repeat constructor; lia).
  split; [exact H1|]. split; [exact H2|].
  eapply wp_mono.
  - exact (console_cursor_address [49; 50] [57; 57] demo_console demo_console_inv eq_refl H1 H2 eq_refl eq_refl).
  - intros _ s' (Hi & Hn & Hy & Hx & Hb). split; [exact Hi|]. split; [exact Hn|]. split; [exact Hy|]. split; [exact Hx|exact Hb].
Defined.
