(* ===== verification/Wait.v ===== *)
(** * Wait queues

    [kernel/src/sched/wait.c]: threads that wait for an event on a first in,
    first out list, with an optional lock that protects the condition. A
    blocked thread continues behind [dispatch_switch_to] when it is chosen
    again, so [wait_on_queue] is cut there: [wait_on_queue_resume] is the rest.
    Addresses of wait queues and of condition locks are keys of the maps of the
    scheduler's state. *)

From S2P Require Import Prelude Chain Sched Tick.

(* ------------------------------------------------------------------ *)
(** ** Operations *)

Definition set_wait_queues (v : gmap Z wait_queue_t) (s : sched) : sched :=
  Sched (threads s) (ready_queue_heads s) (ready_queue_tails s) (kernel_idle_task s) (sched_lock s)
    (sleep_queue_head s) (g_current_thread s) (g_time_tick s) (cpu_if s) (tss_esp0 s) v (cond_locks s).
Definition set_cond_locks (v : gmap Z spinlock_t) (s : sched) : sched :=
  Sched (threads s) (ready_queue_heads s) (ready_queue_tails s) (kernel_idle_task s) (sched_lock s)
    (sleep_queue_head s) (g_current_thread s) (g_time_tick s) (cpu_if s) (tss_esp0 s) (wait_queues s) v.
Definition set_if (v : bool) (s : sched) : sched :=
  Sched (threads s) (ready_queue_heads s) (ready_queue_tails s) (kernel_idle_task s) (sched_lock s)
    (sleep_queue_head s) (g_current_thread s) (g_time_tick s) v (tss_esp0 s) (wait_queues s) (cond_locks s).

Ltac wait_cbn := unfold set_wait_queues, set_cond_locks, set_if; sched_cbn.

Definition wq (w : Z) : M sched wait_queue_t := deref wait_queues w.
Definition wq_set (w : Z) (f : wait_queue_t → wait_queue_t) : M sched unit :=
  assign wait_queues set_wait_queues w f.

(** A lock operation on the lock of a wait queue, and on a condition lock. *)
Definition on_wq_lock (w : Z) (op : M (spinlock_t * bool) unit) : M sched unit :=
  q ← wq w;
  i ← gets cpu_if;
  r ← of_opt (op (wq_lock q, i));
  wq_set w (λ q, WaitQueue (wq_head q) (wq_tail q) r.2.1) ;;
  modify (set_if r.2.2).
Definition on_cond_lock (l : Z) (op : M (spinlock_t * bool) unit) : M sched unit :=
  k ← deref cond_locks l;
  i ← gets cpu_if;
  r ← of_opt (op (k, i));
  assign cond_locks set_cond_locks l (λ _, r.2.1) ;;
  modify (set_if r.2.2).

(** [wait_on_queue] up to the release of the condition lock, while the lock of
    the queue is held. *)
Definition wait_prefix (queue condition_lock : Z) : M sched unit :=
  current ← dispatch_get_current;
  on_wq_lock queue spinlock_acquire ;;
  thread_set current (set_state THREAD_STATE_BLOCKED) ;;
  thread_set current (set_next 0) ;;
  q ← wq queue;
  (if wq_tail q =? 0 then wq_set queue (λ q, WaitQueue current current (wq_lock q))
   else
     thread_set (wq_tail q) (set_next current) ;;
     wq_set queue (λ q, WaitQueue (wq_head q) current (wq_lock q))) ;;
  when (negb (condition_lock =? 0)) (on_cond_lock condition_lock spinlock_release).

Definition wait_on_queue (queue condition_lock : Z) : M sched unit :=
  wait_prefix queue condition_lock ;;
  on_wq_lock queue spinlock_release ;;
  next ← sched_pick_next;
  dispatch_switch_to next.

Definition wait_on_queue_resume (condition_lock : Z) : M sched unit :=
  when (negb (condition_lock =? 0)) (on_cond_lock condition_lock spinlock_acquire).

Definition wake_up_queue (queue : Z) : M sched unit :=
  on_wq_lock queue spinlock_acquire ;;
  q ← wq queue;
  when (negb (wq_head q =? 0))
    (let thread_ := wq_head q in
     th ← thread thread_;
     wq_set queue (λ q, WaitQueue (th_next th) (wq_tail q) (wq_lock q)) ;;
     when (th_next th =? 0) (wq_set queue (λ q, WaitQueue (wq_head q) 0 (wq_lock q))) ;;
     thread_set thread_ (set_next 0) ;;
     thread_set thread_ (set_state THREAD_STATE_READY) ;;
     sched_enqueue thread_) ;;
  on_wq_lock queue spinlock_release.

(* ------------------------------------------------------------------ *)
(** ** What the scheduler leaves alone

    The frames of the scheduler's operations are up to the [next] field, which
    also links the wait queues: the threads that are in no ready queue keep
    it. *)

Lemma wp_queue_append_still s q i t th p :
  qrep s q → 0 <= i < 4 → t ≠ 0 → unqueued q t → threads s !! t = Some th → th_next th = 0 → p ∉ q i →
  wp (queue_append i t) s (λ _ s', threads s' !! p = threads s !! p).
Proof.
  intros R Hi Ht Hu E En Hp. unfold queue_append. wp_step. apply wp_tail_get; [done|apply R|].
  rewrite (q_tail s q R i Hi). wp_step.
  - wp_step. apply wp_head_set; [done|apply R|]. apply wp_tail_set; [done|apply R|]. done.
  - pose proof (q_chain s q R i Hi) as Hc. pose proof (tail_of_null _ _ _ _ Hc) as Hnull.
    destruct (exists_last (l := q i)) as (l & tl & Eq).
    { intros Eq. by rewrite Eq in *. }
    assert (tl ∈ q i) as Hin by (rewrite Eq; apply elem_of_app; right; by constructor).
    destruct (chain_elem _ _ _ _ _ tl Hc Hin) as [_ [thl El]]. rewrite Eq, tail_of_app.
    wp_step. eapply wp_thread_set; [exact El|]. apply wp_tail_set; [done|apply R|]. sched_cbn.
    rewrite lookup_insert_ne; [done|]. by intros ->.
Qed.

Lemma wp_enqueue_still s q t th p :
  rep s q → t ≠ 0 → unqueued q t → threads s !! t = Some th → schedulable th → p ≠ t → unqueued q p →
  wp (sched_enqueue t) s (λ _ s', threads s' !! p = threads s !! p).
Proof.
  intros HR Ht Hu E [S1 S2 S3] Hpt Hp. pose proof HR as [Hl R Hr (thi & Ei & Hid)].
  set (pr := th_priority th) in *. unfold sched_enqueue.
  wp_step; [lia|]. wp_step. apply wp_thread with (1 := E). wp_step; [lia|].
  wp_step. apply wp_sched_lock_acquire; [done|]. fold pr (locked s). unfold THREAD_NUM_PRIORITIES.
  replace ((pr <? 0) || (4 <=? pr)) with false by lia. cbv zeta.
  apply wp_thread_set_fuse. wp_step. eapply wp_thread_set; [exact E|].
  set (th1 := set_next 0 _). set (s1 := set_threads _ _). wp_step.
  assert (qrep s1 q) as R1.
  { apply (qrep_thread_upd (locked s) q t th1 th); [by apply (qrep_ext s)|done|by right]. }
  eapply wp_mono; [apply wp_and;
    [apply (wp_queue_append s1 q pr t th1); try done; apply lookup_insert_eq|
     apply (wp_queue_append_still s1 q pr t th1 p); try done; [apply lookup_insert_eq|by apply Hp]]|].
  intros [] s2 [(R2 & F2 & L2 & E2) Ep]. wp_step. apply wp_quantum_get; [done|].
  apply wp_thread_set_fuse. wp_step. eapply wp_thread_set; [exact E2|].
  wp_step. unfold timer_tick_get. wp_step. wp_step. eapply wp_thread_set; [apply lookup_insert_eq|].
  apply wp_sched_lock_release; [by sched_cbn; rewrite L2|]. sched_cbn. rewrite !lookup_insert_ne by done.
  rewrite Ep. unfold s1. sched_cbn. by rewrite lookup_insert_ne.
Qed.

Lemma wp_pick_still s q :
  rep s q → wp sched_pick_next s (λ t s', ∀ p, p ≠ t → threads s' !! p = threads s !! p).
Proof.
  intros HR. pose proof HR as [Hl R Hr (thi & Ei & Hid)]. unfold sched_pick_next.
  wp_step. apply wp_sched_lock_acquire; [done|]. fold (locked s). wp_step.
  apply (wp_scan_range (λ i s', s' = locked s)); [done|..].
  - intros i s1 Hi ->. change THREAD_NUM_PRIORITIES with 4 in Hi. wp_step. apply wp_head_get; [done|apply R|].
    change (ready_queue_heads (locked s)) with (ready_queue_heads s).
    pose proof (q_chain s q R i Hi) as Hc. set (t := aat _ i) in *. wp_step; [by wp_step|].
    destruct (chain_nonnull _ _ _ _ Hc) as [l Eq]; [lia|].
    destruct (Hr i t Hi) as (th & E & Hrd); [rewrite Eq; by constructor|].
    wp_step. eapply wp_thread; [exact E|]. wp_step. apply wp_head_set; [done|apply R|].
    wp_step. apply wp_head_get; [done|apply R|]. wp_step. apply wp_when_tail; [apply R|done|].
    wp_step. eapply wp_thread_set; [exact E|]. wp_step. eapply wp_sched_prepare; [apply lookup_insert_eq| |].
    { destruct Hrd. cbn. lia. }
    wp_step. apply wp_sched_lock_release; [done|]. wp_step. wp_step. intros p Hp. sched_cbn.
    by rewrite !lookup_insert_ne.
  - intros s1 ->. wp_step. apply wp_sched_lock_release; [done|]. wp_step. done.
Qed.

(** A switch changes no thread but the one it chooses. *)
Lemma wp_switch_still s q sl :
  quiet s q sl →
  wp (next ← sched_pick_next; dispatch_switch_to next) s (λ _ s',
    switched (kernel_idle_task s) q sl s' ∧ wait_queues s' = wait_queues s ∧ cond_locks s' = cond_locks s ∧
    cpu_if s' = cpu_if s ∧ ∀ p, p ≠ g_current_thread s' → threads s' !! p = threads s !! p).
Proof.
  intros Hq. apply wp_and; [by apply wp_sched_switch_next|]. pose proof Hq as [R Hsl Hd Hi Hc]. wp_step.
  eapply wp_mono; [apply wp_and; [by apply wp_sched_pick_next|by apply (wp_pick_still s q)]|].
  intros t s1 [H Hs]. assert (∃ X, frame X s s1 ∧ is_Some (threads s1 !! t)) as (X & F & th & Et).
  { destruct H as [(-> & R1 & F1 & _)|(i & l & th & _ & _ & _ & _ & F1 & E & _ & E1)]; eexists; (split; [exact F1|]);
      [|by eexists]. destruct (r_idle _ _ R) as (thi & Ei & _). by apply (fr_dom _ _ _ F1). }
  pose proof (fr_rest _ _ _ F) as Er. unfold rest in Er. injection Er as Er1 Er2 Er3 Er4 Er5 Er6 Er7 Er8.
  assert (is_Some (threads s1 !! g_current_thread s1)) as [thc Ec] by (rewrite Er3; by apply (fr_dom _ _ _ F)).
  unfold dispatch_switch_to, dispatch_get_current. wp_step. wp_step. wp_step. eapply wp_thread_set; [exact Et|].
  wp_step.
  - wp_step. sched_cbn. rewrite Er5, Er7, Er8. split_and!; [done..|]. intros p Hp. destruct (decide (p = t)) as [->|].
    + destruct (Hp); destruct (Z.eqb_spec t 0); [subst t|lia].
      exfalso. destruct H as [(E & _)|(i & l & th' & Hi' & Eq & _)]; [done|].
      by destruct (chain_elem _ _ _ _ _ 0 (q_chain _ _ (r_q _ _ R) i Hi')); [rewrite Eq; constructor|].
    + rewrite lookup_insert_ne by done. by apply Hs.
  - wp_step. eapply wp_thread; [apply lookup_insert_eq|]. repeat wp_step.
    eapply wp_thread; [sched_cbn; rewrite lookup_insert_ne by lia; exact Ec|]. wp_step. sched_cbn.
    rewrite Er5, Er7, Er8. split_and!; [done..|]. intros p Hp. rewrite lookup_insert_ne by done. by apply Hs.
Qed.

(* ------------------------------------------------------------------ *)
(** ** The queue as a list *)

(** The threads [l] wait on [w], oldest first. *)
Record waiting (s : sched) (w : Z) (l : list Z) (lk : spinlock_t) : Prop := {
  wa_queue : ∃ h, wait_queues s !! w = Some (WaitQueue h (tail_of l) lk) ∧ chain th_next (threads s) h l 0;
  wa_nodup : NoDup l;
  wa_blocked : ∀ t, t ∈ l → ∃ th, threads s !! t = Some th ∧ schedulable th ∧ th_state th = THREAD_STATE_BLOCKED
}.

(** They are in no other list and do not run. *)
Definition apart (s : sched) (q : Z → list Z) (sl l : list Z) : Prop :=
  ∀ t, t ∈ l → unqueued q t ∧ t ∉ sl ∧ t ≠ g_current_thread s.

(** Rules of the lock operations. *)
Lemma wp_wq_acquire s w k (Q : unit → sched → Prop) :
  wait_queues s !! w = Some k → sl_val (wq_lock k) = 0 →
  Q tt (set_if false (set_wait_queues (<[w := WaitQueue (wq_head k) (wq_tail k) (Spinlock 1 (cpu_if s))]> (wait_queues s)) s)) →
  wp (on_wq_lock w spinlock_acquire) s Q.
Proof.
  intros E H HQ. unfold on_wq_lock. wp_step. eapply wp_deref; [exact E|]. wp_step. wp_step. wp_step.
  eapply wp_of_opt; [unfold spinlock_acquire, bind, gets, modify, assert_; cbn; rewrite H; reflexivity|].
  wp_step. eapply wp_assign; [exact E|]. by wp_step.
Qed.

Lemma wp_wq_release s w k (Q : unit → sched → Prop) :
  wait_queues s !! w = Some k → sl_val (wq_lock k) = 1 →
  Q tt (set_if (if sl_interrupts (wq_lock k) then true else cpu_if s)
    (set_wait_queues (<[w := WaitQueue (wq_head k) (wq_tail k) (Spinlock 0 (sl_interrupts (wq_lock k)))]> (wait_queues s)) s)) →
  wp (on_wq_lock w spinlock_release) s Q.
Proof.
  intros E H HQ. unfold on_wq_lock. wp_step. eapply wp_deref; [exact E|]. wp_step. wp_step. wp_step.
  destruct k as [h t [v [|]]]; cbn in *; subst v;
    (eapply wp_of_opt; [reflexivity|]; wp_step; eapply wp_assign; [exact E|]; by wp_step).
Qed.

Lemma wp_cond_release s l k (Q : unit → sched → Prop) :
  cond_locks s !! l = Some k → sl_val k = 1 →
  Q tt (set_if (if sl_interrupts k then true else cpu_if s)
    (set_cond_locks (<[l := Spinlock 0 (sl_interrupts k)]> (cond_locks s)) s)) →
  wp (on_cond_lock l spinlock_release) s Q.
Proof.
  intros E H HQ. unfold on_cond_lock. wp_step. eapply wp_deref; [exact E|]. wp_step. wp_step. wp_step.
  destruct k as [v [|]]; cbn in *; subst v;
    (eapply wp_of_opt; [reflexivity|]; wp_step; eapply wp_assign; [exact E|]; by wp_step).
Qed.

(* ------------------------------------------------------------------ *)
(** ** Waiting *)

Lemma quiet_upd s q sl p v v0 :
  quiet s q sl → threads s !! p = Some v0 → unqueued q p → p ∉ sl → th_tid v = th_tid v0 →
  quiet (set_threads (<[p := v]> (threads s)) s) q sl.
Proof.
  intros [R Hsl Hd Hi [thc Ec]] E Hu Hn Ht. split; [|by apply sleepers_thread_upd with v0|done|done|].
  - apply rep_thread_upd with v0; [done|done|by right| |done]. intros i Hi' Hin. by destruct (Hu i Hi').
  - sched_cbn. destruct (decide (p = g_current_thread s)) as [->|]; [rewrite lookup_insert_eq; by eexists|].
    rewrite lookup_insert_ne by done. by eexists.
Qed.

(** The parts of the state the scheduler looks at. *)
Definition sched_part (s : sched) :=
  (threads s, ready_queue_heads s, ready_queue_tails s, kernel_idle_task s, sched_lock s,
   sleep_queue_head s, g_current_thread s).

Lemma quiet_part s s' q sl : sched_part s' = sched_part s → quiet s q sl → quiet s' q sl.
Proof.
  unfold sched_part. intros E [R Hsl Hd Hi Hc]. injection E as E1 E2 E3 E4 E5 E6 E7.
  split; [apply (rep_ext s); try done; by rewrite E5|by apply (sleepers_ext s)|done|by rewrite E4|by rewrite E1, E7].
Qed.

Lemma chain_snoc_set (m : gmap Z thread_t) h l tl t vt vl :
  chain th_next m h (l ++ [tl]) 0 → NoDup (l ++ [tl]) → m !! t = Some vt → th_next vt = 0 → t ≠ 0 →
  t ∉ l ++ [tl] → m !! tl = Some vl →
  chain th_next (<[tl := set_next t vl]> m) h ((l ++ [tl]) ++ [t]) 0.
Proof.
  intros C N E En H0 Hn El. assert (tl ∉ l) as Hl.
  { apply NoDup_app in N as (_ & Hx & _). intros Hin. by apply (Hx _ Hin), list_elem_of_singleton. }
  assert (tl ≠ t) as Hne by (intros ->; apply Hn, elem_of_app; right; by constructor).
  rewrite chain_app. exists t. split; [eapply chain_insert_last; [done|by eexists|done|done]|].
  simpl. split_and!; [done..|]. exists vt. by rewrite lookup_insert_ne.
Qed.

(** The condition lock, where there is one, is held. *)
Definition cond_held (s : sched) (l : Z) (k : spinlock_t) : Prop :=
  l ≠ 0 → cond_locks s !! l = Some k ∧ sl_val k = 1.
Definition cond_released (s : sched) (l : Z) (k : spinlock_t) : gmap Z spinlock_t :=
  if l =? 0 then cond_locks s else <[l := Spinlock 0 (sl_interrupts k)]> (cond_locks s).

Lemma wp_cond_optional s l k (Q : unit → sched → Prop) :
  cond_held s l k →
  Q tt (set_if (if negb (l =? 0) && sl_interrupts k then true else cpu_if s) (set_cond_locks (cond_released s l k) s)) →
  wp (when (negb (l =? 0)) (on_cond_lock l spinlock_release)) s Q.
Proof.
  intros Hk HQ. unfold cond_released in HQ. destruct (Z.eqb_spec l 0) as [->|Hl]; cbn in *.
  - apply wp_ret. by destruct s.
  - destruct (Hk Hl) as [E1 E2]. by apply (wp_cond_release s l k).
Qed.

(** Linking a blocked thread behind the last one. *)
Lemma wp_wait_link s q sl w l lk t th h (Q : unit → sched → Prop) :
  quiet s q sl → wait_queues s !! w = Some (WaitQueue h (tail_of l) lk) → chain th_next (threads s) h l 0 →
  NoDup l → (∀ x, x ∈ l → ∃ th, threads s !! x = Some th ∧ schedulable th ∧ th_state th = THREAD_STATE_BLOCKED) →
  (∀ x, x ∈ l → unqueued q x ∧ x ∉ sl) → t ∉ l → t ≠ 0 →
  threads s !! t = Some th → schedulable th → th_state th = THREAD_STATE_BLOCKED → th_next th = 0 →
  (∀ s', quiet s' q sl → waiting s' w (l ++ [t]) lk → sched_lock s' = sched_lock s → cond_locks s' = cond_locks s →
     cpu_if s' = cpu_if s → g_current_thread s' = g_current_thread s → kernel_idle_task s' = kernel_idle_task s → Q tt s') →
  wp (if tail_of l =? 0 then wq_set w (λ q, WaitQueue t t (wq_lock q))
      else thread_set (tail_of l) (set_next t) ;; wq_set w (λ q, WaitQueue (wq_head q) t (wq_lock q))) s Q.
Proof.
  intros Hq Ew C N B A Ht H0 E Hs Hb Hn HQ. pose proof (tail_of_null _ _ _ _ C) as Hnull.
  assert (NoDup (l ++ [t])) as N'.
  { apply NoDup_app. split_and!; [done| |apply NoDup_singleton]. intros x Hx ->%list_elem_of_singleton. done. }
  destruct (Z.eqb_spec (tail_of l) 0) as [Et|Et].
  - assert (l = []) as -> by (by apply Hnull). eapply wp_assign; [exact Ew|]. apply HQ; try done; [by apply (quiet_part s)|].
    split; [|done|].
    + exists t. sched_cbn. split; [apply lookup_insert_eq|]. simpl. eauto 10.
    + intros x ->%list_elem_of_singleton. eauto.
  - destruct (exists_last (l := l)) as (l0 & tl & ->); [intros ->; by destruct Et|]. rewrite tail_of_app in *.
    assert (tl ∈ l0 ++ [tl]) as Hin by (apply elem_of_app; right; by constructor).
    destruct (B tl Hin) as (thl & El & [S1 S2 S3] & Bl). destruct (A tl Hin) as [Hu Hnl].
    wp_step. eapply wp_thread_set; [exact El|]. eapply wp_assign; [exact Ew|].
    assert (∀ x v, x ∈ (l0 ++ [tl]) ++ [t] → threads s !! x = Some v → schedulable v → th_state v = THREAD_STATE_BLOCKED →
      ∃ v', <[tl := set_next t thl]> (threads s) !! x = Some v' ∧ schedulable v' ∧ th_state v' = THREAD_STATE_BLOCKED) as K.
    { intros x v _ Ex Sx Bx. destruct (decide (x = tl)) as [->|]; [rewrite lookup_insert_eq|rewrite lookup_insert_ne by done; eauto].
      exists (set_next t thl). by split. }
    apply HQ; try done; [apply (quiet_part (set_threads (<[tl := set_next t thl]> (threads s)) s)); [done|by apply quiet_upd with thl]|].
    split; [|done|].
    + exists h. sched_cbn. rewrite tail_of_app. split; [apply lookup_insert_eq|]. by eapply chain_snoc_set.
    + intros x Hx. sched_cbn. pose proof Hx as [Hx'| ->%list_elem_of_singleton]%elem_of_app; [|by apply (K t th)].
      destruct (B x Hx') as (v & Ex & Sx & Bx). by apply (K x v).
Qed.

Lemma wp_wait_prefix s q sl w l lk cl ck th :
  inv s q sl → threads s !! g_current_thread s = Some th → th_tid th ≠ 0 →
  waiting s w l lk → sl_val lk = 0 → apart s q sl l → cond_held s cl ck →
  wp (wait_prefix w cl) s (λ _ s', quiet s' q sl ∧ waiting s' w (l ++ [g_current_thread s]) (Spinlock 1 (cpu_if s)) ∧
    cpu_if s' = (negb (cl =? 0) && sl_interrupts ck) ∧ cond_locks s' = cond_released s cl ck ∧
    g_current_thread s' = g_current_thread s ∧ kernel_idle_task s' = kernel_idle_task s).
Proof.
  intros [Hq H0 Hu Hn (th' & E' & _ & Hok)] E Htid [(h & Ew & C) N B] Hl A Hk. rewrite E in E'. injection E' as <-.
  destruct (Hok Htid) as [[S1 S2 S3] _]. set (cur := g_current_thread s) in *.
  assert (cur ∉ l) as Hc by (intros Hin; by destruct (A cur Hin) as (_ & _ & ?)).
  unfold wait_prefix, dispatch_get_current. wp_step. wp_step. wp_step. eapply wp_wq_acquire; [exact Ew|done|].
  fold cur. apply wp_thread_set_fuse. wp_step. eapply wp_thread_set; [exact E|].
  set (th1 := set_next 0 _). set (s0 := set_if _ _). set (s1 := set_threads _ s0).
  wp_step. eapply wp_deref; [apply lookup_insert_eq|]. cbn [wq_tail wq_head]. wp_step.
  eapply (wp_wait_link s1 q sl w l (Spinlock 1 (cpu_if s)) cur th1 h); try done.
  - apply quiet_upd with th; [by apply (quiet_part s)|done|done|done|done].
  - apply lookup_insert_eq.
  - by apply chain_insert_ne.
  - intros x Hx. unfold s1. sched_cbn. rewrite lookup_insert_ne by (by intros ->). by apply B.
  - intros x Hx. by destruct (A x Hx) as (? & ? & _).
  - apply lookup_insert_eq.
  - intros s2 Q2 W2 _ Ec Ei Eg Ek. eapply wp_cond_optional; [unfold cond_held; by rewrite Ec|].
    split_and!; [by apply (quiet_part s2)|by destruct W2|..]; sched_cbn.
    + rewrite Ei. by destruct (negb _ && _).
    + unfold cond_released. by rewrite Ec.
    + done.
    + done.
Qed.

Lemma waiting_ext s s' w l lk lk' :
  waiting s w l lk → (∀ t, t ∈ l → threads s' !! t = threads s !! t) →
  (∀ h, wait_queues s !! w = Some (WaitQueue h (tail_of l) lk) → wait_queues s' !! w = Some (WaitQueue h (tail_of l) lk')) →
  waiting s' w l lk'.
Proof.
  intros [(h & Ew & C) N B] Ht Hw. split; [|done|].
  - exists h. split; [by apply Hw|]. apply (chain_ext _ (threads s)); [|done]. intros p Hp. by rewrite Ht.
  - intros t Hin. rewrite Ht by done. by apply B.
Qed.

Lemma unqueued_allq q t : unqueued q t ↔ t ∉ allq q.
Proof.
  unfold unqueued, allq. rewrite !elem_of_app. split.
  - intros H [?|[?|[?|?]]]; [by apply (H 0)|by apply (H 1)|by apply (H 2)|by apply (H 3)].
  - intros H i Hi Hin. assert (i = 0 ∨ i = 1 ∨ i = 2 ∨ i = 3) as [-> |[-> |[-> | ->]]] by lia; tauto.
Qed.

(** The chosen thread was ready or is the idle thread. *)
Lemma picked_not_waiting s q sl w l lk t :
  quiet s q sl → waiting s w l lk → t ∈ l → unqueued q t →
  t ≠ (pick (kernel_idle_task s) q).1 ∧ unqueued (pick (kernel_idle_task s) q).2 t.
Proof.
  intros [R _ _ _ _] [_ _ B] Ht Hu. destruct (B t Ht) as (th & E & [S1 _ _] & _).
  destruct (allq_pick (kernel_idle_task s) q) as [[E1 E2]|[_ Hp]].
  - rewrite E1. split; [|done]. rewrite allq_nil in E2. rewrite (pick_none _ q E2). cbn.
    intros ->. destruct (r_idle _ _ R) as (thi & Ei & Hid). congruence.
  - rewrite unqueued_allq in *. rewrite Hp in Hu. apply not_elem_of_cons in Hu. done.
Qed.

Lemma wp_wait_on_queue s q sl w l lk cl ck th :
  inv s q sl → threads s !! g_current_thread s = Some th → th_tid th ≠ 0 →
  waiting s w l lk → sl_val lk = 0 → apart s q sl l → cond_held s cl ck →
  wp (wait_on_queue w cl) s (λ _ s', switched (kernel_idle_task s) q sl s' ∧
    (∃ lk', waiting s' w (l ++ [g_current_thread s]) lk' ∧ sl_val lk' = 0) ∧
    apart s' (pick (kernel_idle_task s) q).2 sl (l ++ [g_current_thread s]) ∧ cond_locks s' = cond_released s cl ck).
Proof.
  intros V E Htid W Hl A Hk. unfold wait_on_queue. wp_step.
  eapply wp_mono; [by eapply wp_wait_prefix|]. intros [] s1 (Q1 & W1 & _ & Ec & Eg & Ei). wp_step.
  pose proof W1 as [(h & Ew & _) _ _]. eapply wp_wq_release; [exact Ew|done|].
  set (s2 := set_if _ _). assert (quiet s2 q sl) as Q2 by (by apply (quiet_part s1)).
  assert (waiting s2 w (l ++ [g_current_thread s]) (Spinlock 0 (cpu_if s))) as W2.
  { apply (waiting_ext s1 _ _ _ _ _ W1); [done|]. intros h' Eh. rewrite Ew in Eh. injection Eh as <-. apply lookup_insert_eq. }
  eapply wp_mono; [by apply (wp_switch_still s2 q sl)|]. intros [] s3 (V3 & Ewq & Ecl & _ & Ht).
  change (kernel_idle_task s2) with (kernel_idle_task s1) in V3. rewrite Ei in V3.
  assert (∀ t, t ∈ l ++ [g_current_thread s] → unqueued q t ∧ t ∉ sl) as A'.
  { pose proof V as [_ _ Hu Hn _]. intros t [Hin| ->%list_elem_of_singleton]%elem_of_app; [|done].
    by destruct (A t Hin) as (? & ? & _). }
  assert (∀ t, t ∈ l ++ [g_current_thread s] → t ≠ g_current_thread s3 ∧ unqueued (pick (kernel_idle_task s) q).2 t) as K.
  { intros t Hin. destruct V3 as (_ & -> & _). rewrite <-Ei. destruct (A' t Hin) as [Hu _].
    by apply (picked_not_waiting s2 q sl w _ _ t Q2 W2 Hin). }
  split_and!; [done|..].
  - exists (Spinlock 0 (cpu_if s)). split; [|done]. apply (waiting_ext s2 _ _ _ _ _ W2); [|by rewrite Ewq].
    intros t Hin. apply Ht. by apply K.
  - intros t Hin. destruct (K t Hin), (A' t Hin). done.
  - by rewrite Ecl.
Qed.

(* ------------------------------------------------------------------ *)
(** ** Waking *)

Lemma wp_forall {St A X} (m : M St A) s (P : X → Prop) Q (R : X → A → St → Prop) :
  wp m s Q → (∀ x, P x → wp m s (R x)) → wp m s (λ a s', Q a s' ∧ ∀ x, P x → R x a s').
Proof. unfold wp. destruct (m s) as [[a s']|]; [|done]. auto. Qed.

Lemma inv_part s s' q sl : sched_part s' = sched_part s → inv s q sl → inv s' q sl.
Proof.
  intros E [Hq H0 Hu Hn H]. pose proof E as E'. unfold sched_part in E'. injection E' as E1 E2 E3 E4 E5 E6 E7.
  split; rewrite ?E1, ?E7; try done. by apply (quiet_part s).
Qed.

Lemma inv_upd s q sl p v v0 :
  inv s q sl → threads s !! p = Some v0 → unqueued q p → p ∉ sl → p ≠ g_current_thread s → th_tid v = th_tid v0 →
  inv (set_threads (<[p := v]> (threads s)) s) q sl.
Proof.
  intros [Hq H0 Hu Hn H] E Hup Hnp Hp Ht. split; sched_cbn; try done; [by apply quiet_upd with v0|].
  by rewrite lookup_insert_ne.
Qed.

(** Making a thread ready that is in no list. *)
Lemma wp_make_ready s q sl t th :
  inv s q sl → threads s !! t = Some th → schedulable th → t ≠ 0 → unqueued q t → t ∉ sl → t ≠ g_current_thread s →
  wp (sched_enqueue t) s (λ _ s', inv s' (<[th_priority th := q (th_priority th) ++ [t]]> q) sl ∧ rest s' = rest s ∧
    ∀ p, p ≠ t ∧ unqueued q p → threads s' !! p = threads s !! p).
Proof.
  intros [Hq H0 Hu Hn (thc & Ec & Hst & Hok)] E Hs Ht Hut Hnt Hct.
  eapply wp_mono; [apply (wp_forall _ _ (λ p, p ≠ t ∧ unqueued q p)); [by apply (wp_enqueue_quiet s q sl t th Hq)|]|].
  { intros p [Hp Hup]. apply (wp_enqueue_still s q t th p); try done. apply Hq. }
  intros [] s' [[Q' F] K]. pose proof (frame_current _ _ _ F) as Ec'. split; [|split; [apply F|done]].
  split; rewrite ?Ec'; try done.
  - apply unqueued_insert; [by destruct Hs|]. split; [|intros j Hj _; by apply Hu].
    rewrite elem_of_app, list_elem_of_singleton. intros [Hin|?]; [|by subst].
    by apply (Hu (th_priority th)); [destruct Hs|].
  - destruct (frame_thread _ _ _ (g_current_thread s) thc F) as [n E']; [done|done|].
    exists (set_next n thc). split_and!; [done|done|]. intros Hn'. destruct (Hok Hn') as [[] ?]. by split.
Qed.

(** The head is taken off the list. *)
Lemma waiting_pop s w t l lk th h :
  wait_queues s !! w = Some (WaitQueue h (tail_of (t :: l)) lk) → chain th_next (threads s) h (t :: l) 0 →
  threads s !! t = Some th →
  (if th_next th =? 0 then 0 else tail_of (t :: l)) = tail_of l ∧ h = t ∧ chain th_next (threads s) (th_next th) l 0.
Proof.
  intros Ew (-> & H0 & v & Ev & C) E. rewrite E in Ev. injection Ev as <-. split; [|done].
  destruct l as [|x l]; [cbn in C; by rewrite C|]. destruct C as (-> & Hx & _). by rewrite (proj2 (Z.eqb_neq _ _)).
Qed.

Lemma wp_wake_up_queue s q sl w l lk :
  inv s q sl → waiting s w l lk → sl_val lk = 0 → apart s q sl l →
  wp (wake_up_queue w) s (λ _ s', g_current_thread s' = g_current_thread s ∧ cpu_if s' = cpu_if s ∧
    cond_locks s' = cond_locks s ∧
    match l with
    | [] => inv s' q sl ∧ waiting s' w [] (Spinlock 0 (cpu_if s))
    | t :: l' => ∃ th, threads s !! t = Some th ∧
        let q' := <[th_priority th := q (th_priority th) ++ [t]]> q in
        inv s' q' sl ∧ waiting s' w l' (Spinlock 0 (cpu_if s)) ∧ apart s' q' sl l'
    end).
Proof.
  intros V [(h & Ew & C) N B] Hl A. unfold wake_up_queue. wp_step. eapply wp_wq_acquire; [exact Ew|done|].
  cbn [wq_head wq_tail]. set (lk1 := Spinlock 1 (cpu_if s)). set (s0 := set_if _ _).
  wp_step. eapply wp_deref; [apply lookup_insert_eq|]. cbn [wq_head]. wp_step. destruct l as [|t l].
  { rewrite C. change (0 =? 0) with true. cbn [negb when]. wp_step. eapply wp_wq_release; [apply lookup_insert_eq|done|].
    wait_cbn. split_and!; [done|by destruct (cpu_if s)|done|by apply (inv_part s)|].
    split; [|constructor|by intros ? ?%not_elem_of_nil]. exists h. split; [apply lookup_insert_eq|done]. }
  destruct (B t ltac:(by constructor)) as (th & E & [S1 S2 S3] & Hb). destruct (A t ltac:(by constructor)) as (Hu & Hn & Hc).
  destruct (waiting_pop s w t l lk th h Ew C E) as (Etl & -> & C'). pose proof C as (_ & H0 & _).
  apply NoDup_cons in N as [Nt N]. rewrite (proj2 (Z.eqb_neq _ _)) by done. cbn [negb when].
  wp_step. eapply wp_thread; [exact E|]. wp_step. eapply wp_assign; [apply lookup_insert_eq|]. cbn [wq_tail wq_lock]. wp_step.
  set (sw := λ tl, set_wait_queues (<[w := WaitQueue (th_next th) tl lk1]> (wait_queues s)) (set_if false s)).
  assert (∀ Q : unit → sched → Prop, Q tt (sw (tail_of l)) →
    wp (when (th_next th =? 0) (wq_set w (λ q, WaitQueue (wq_head q) 0 (wq_lock q))))
       (set_wait_queues (<[w := WaitQueue (th_next th) (tail_of (t :: l)) lk1]> (wait_queues s0)) s0) Q) as Hw.
  { intros Q HQ. rewrite <-Etl in HQ. destruct (th_next th =? 0).
    - eapply wp_assign; [apply lookup_insert_eq|]. unfold s0, sw, set_wait_queues, set_if in *. sched_cbn. by rewrite !insert_insert_eq.
    - apply wp_ret. unfold s0, sw, set_wait_queues, set_if in *. sched_cbn. by rewrite insert_insert_eq. }
  apply Hw. apply wp_thread_set_fuse. wp_step. eapply wp_thread_set; [exact E|]. set (th1 := set_state _ _). set (s1 := set_threads _ _).
  assert (inv s1 q sl) as V1 by (apply inv_upd with th; [by apply (inv_part s)|done..]).
  eapply wp_mono; [apply (wp_make_ready s1 q sl t th1 V1); [apply lookup_insert_eq|by split|done..]|].
  intros [] s2 (V2 & Er & K). unfold rest in Er. injection Er as _ _ Eg _ Ei _ Eq Ec.
  eapply wp_wq_release; [rewrite Eq; apply lookup_insert_eq|done|]. wait_cbn. rewrite Eg, Ec.
  assert (∀ x, x ∈ l → x ≠ t ∧ unqueued q x ∧ x ∉ sl ∧ x ≠ g_current_thread s) as A'.
  { intros x Hx. split; [by intros ->|]. apply A. by constructor. }
  assert (∀ x, x ∈ l → threads s2 !! x = threads s !! x) as K'.
  { intros x Hx. destruct (A' x Hx) as (Hne & Hux & _). rewrite K by done. unfold s1, sw. wait_cbn. by rewrite lookup_insert_ne. }
  split_and!; [done|rewrite Ei; by destruct (cpu_if s)|done|]. exists th. split; [done|]. cbv zeta. split_and!; [apply (inv_part s2); [unfold sched_part; wait_cbn; by rewrite Eg|exact V2]|split|].
  - exists (th_next th). wait_cbn. split; [apply lookup_insert_eq|]. apply (chain_ext _ (threads s)); [|done].
    intros x Hx. by rewrite K'.
  - done.
  - intros x Hx. wait_cbn. rewrite K' by done. apply B. by constructor.
  - intros x Hx. destruct (A' x Hx) as (Hne & Hux & Hnx & Hcx). split_and!; [|done|done].
    apply unqueued_insert; [done|]. split; [|by intros j Hj _; apply Hux].
    rewrite elem_of_app, list_elem_of_singleton. intros [Hin|?]; [by apply (Hux (th_priority th))|done].
Qed.

(* ------------------------------------------------------------------ *)
(** ** Theorems *)

(** C21: a wait queue serves its threads in the order they came. Waiting puts
    the running thread behind the others, releases the condition lock and
    switches to the best ready thread; waking makes exactly the oldest waiter
    ready, at the end of the queue of its priority, and leaves the running
    thread and the interrupt flag alone. Both leave the scheduler consistent
    and every waiter in one list only. *)
Theorem wait_queue_fifo s q sl w l lk :
  inv s q sl → waiting s w l lk → sl_val lk = 0 → apart s q sl l →
  (∀ cl ck, cur_tid s ≠ 0 → cond_held s cl ck →
    wp (wait_on_queue w cl) s (λ _ s', switched (kernel_idle_task s) q sl s' ∧
      (∃ lk', waiting s' w (l ++ [g_current_thread s]) lk' ∧ sl_val lk' = 0) ∧
      apart s' (pick (kernel_idle_task s) q).2 sl (l ++ [g_current_thread s]) ∧
      cond_locks s' = cond_released s cl ck)) ∧
  wp (wake_up_queue w) s (λ _ s', g_current_thread s' = g_current_thread s ∧ cpu_if s' = cpu_if s ∧
    cond_locks s' = cond_locks s ∧
    match l with
    | [] => inv s' q sl ∧ waiting s' w [] (Spinlock 0 (cpu_if s))
    | t :: l' => ∃ th, threads s !! t = Some th ∧
        let q' := <[th_priority th := q (th_priority th) ++ [t]]> q in
        inv s' q' sl ∧ waiting s' w l' (Spinlock 0 (cpu_if s)) ∧ apart s' q' sl l'
    end).
Proof.
  intros V W Hl A. split; [|by eapply wp_wake_up_queue]. intros cl ck Ht Hk.
  pose proof V as [_ _ _ _ (th & E & _)]. unfold cur_tid in Ht. rewrite E in Ht. by eapply wp_wait_on_queue.
Qed.

(** C22: the window in [wait_on_queue]. When the condition lock was taken with
    interrupts enabled, releasing it enables them while the lock of the wait
    queue is still held: an interrupt that arrives then and wakes the queue
    spins on that lock for ever. *)
Theorem wait_on_queue_window s q sl w l lk cl ck :
  inv s q sl → waiting s w l lk → sl_val lk = 0 → apart s q sl l → cur_tid s ≠ 0 →
  cl ≠ 0 → cond_held s cl ck → sl_interrupts ck = true →
  ∃ s', wait_prefix w cl s = Some (tt, s') ∧ cpu_if s' = true ∧ wake_up_queue w s' = None.
Proof.
  intros V W Hl A Ht Hcl Hk Hi. pose proof V as [_ _ _ _ (th & E & _)]. unfold cur_tid in Ht. rewrite E in Ht.
  destruct (wp_elim _ _ _ (wp_wait_prefix s q sl w l lk cl ck th V E Ht W Hl A Hk)) as ([] & s' & Es & _ & W' & Ei & _).
  exists s'. split_and!; [done|by rewrite Ei, Hi, (proj2 (Z.eqb_neq _ _))|].
  destruct W' as [(h & Ew & _) _ _]. unfold wake_up_queue, on_wq_lock, bind, wq, deref, gets, of_opt. by rewrite Ew.
Qed.

(** Thread 300 waits; the lock at 60 is held. *)
Definition demo_waiting : sched :=
  Sched (<[300 := demo_thread 2 2 THREAD_STATE_BLOCKED]> (threads demo)) (mk_arr 4 0) (mk_arr 4 0) 100 (Spinlock 0 false)
    0 200 0 false 0 {[ 50 := WaitQueue 300 300 (Spinlock 0 false) ]} {[ 60 := Spinlock 1 true ]}.

Lemma demo_waiting_queue_inv : inv demo_waiting (λ _, []) [].
Proof.
  apply (inv_part (set_threads (<[300 := demo_thread 2 2 THREAD_STATE_BLOCKED]> (threads demo)) demo)); [reflexivity|].
  apply inv_upd with (demo_thread 2 2 THREAD_STATE_NEW);
    [apply demo_inv|reflexivity|apply demo_unqueued|apply not_elem_of_nil|discriminate|reflexivity].
Qed.

Lemma demo_waiting_list : waiting demo_waiting 50 [300] (Spinlock 0 false).
Proof.
  split; [|apply NoDup_singleton|].
  - exists 300. split; [reflexivity|]. split; [reflexivity|]. split; [discriminate|]. eexists. split; reflexivity.
  - intros t ->%list_elem_of_singleton. eexists. split; [reflexivity|]. split; [split; cbn; lia|reflexivity].
Qed.

Lemma demo_waiting_apart : apart demo_waiting (λ _, []) [] [300].
Proof. intros t ->%list_elem_of_singleton. split; [apply demo_unqueued|]. split; [apply not_elem_of_nil|discriminate]. Qed.

Lemma wait_queue_fifo_witness : ∃ s1 s2,
  wait_on_queue 50 60 demo_waiting = Some (tt, s1) ∧ (∃ lk, waiting s1 50 [300; 200] lk) ∧
  wake_up_queue 50 demo_waiting = Some (tt, s2) ∧ waiting s2 50 [] (Spinlock 0 false).
Proof.
  destruct (wait_queue_fifo demo_waiting (λ _, []) [] 50 [300] (Spinlock 0 false) demo_waiting_queue_inv demo_waiting_list
    eq_refl demo_waiting_apart) as [H1 H2].
  destruct (wp_elim _ _ _ (H1 60 (Spinlock 1 true) ltac:(vm_compute; discriminate) ltac:(intros _; split; reflexivity)))
    as ([] & s1 & E1 & _ & (lk & W1 & _) & _).
  destruct (wp_elim _ _ _ H2) as ([] & s2 & E2 & _ & _ & _ & th & _ & _ & W2 & _).
  exists s1, s2. split; [exact E1|]. split; [exists lk; exact W1|]. split; [exact E2|exact W2].
Defined.

Lemma wait_on_queue_window_witness : ∃ s',
  wait_prefix 50 60 demo_waiting = Some (tt, s') ∧ cpu_if s' = true ∧ wake_up_queue 50 s' = None.
Proof.
  apply (wait_on_queue_window demo_waiting (λ _, []) [] 50 [300] (Spinlock 0 false) 60 (Spinlock 1 true)
    demo_waiting_queue_inv demo_waiting_list eq_refl demo_waiting_apart);
    [vm_compute; discriminate|discriminate|intros _; split; reflexivity|reflexivity].
Defined.
