(* ===== verification/Tty.v ===== *)
(** * The terminal and the keyboard

    [kernel/src/drivers/console/tty.c], [kernel/src/drivers/keyboard/keyboard.c],
    [kernel/src/drivers/keyboard/keyboard_dev.c], [kernel/src/device.c] and
    [kernel/src/sys_ioctl.c]: scancodes become characters, the line discipline
    edits and echoes them, readers wait for them. The lock of the terminal is a
    condition lock of the scheduler's state and the wait queue of a device is
    found under the device's address. A read that blocks returns [inr] with the
    bytes it has; [tty_read_resume] is what it does when it runs again. *)

From Stdlib Require Ascii String.
From S2P Require Import Prelude Chain Ring Console Sched Tick Wait.

(* ------------------------------------------------------------------ *)
(** ** State *)

Definition NCCS : Z := 32.
Record termios_t := Termios { c_iflag : Z; c_oflag : Z; c_cflag : Z; c_lflag : Z; c_cc : list Z }.
Definition TTY_ICANON : Z := 1.
Definition TTY_ECHO : Z := 2.
Definition TCGETS : Z := 21505.
Definition TCSETS : Z := 21506.
Definition EFAULT : Z := 14.
Definition EINVAL : Z := 22.
Definition EBADF : Z := 9.
Definition ENOTTY : Z := 25.
Definition ENODEV : Z := 19.
Definition DEVICE_HANDLE_KEYBOARD : Z := 1.
Definition MAX_DEVICES : Z := 32.

(** The only table of operations is the keyboard's. [device_init] does not
    write the pointer to it; using it while it is not written is a fault. *)
Inductive device_ops := KBD_OPS.

Record device_t := Device { device_id : Z; data_ready : bool; dev_ops : option device_ops; dev_priv : Z }.

(** [g_tty] with its lock at [TTY_LOCK], the screen, the scheduler, the
    modifier keys and the device registry. *)
Definition TTY_LOCK : Z := 1.
Record term := Term {
  conf : termios_t;
  queue : circular_buff_t;
  t_con : con;
  t_sched : sched;
  shift_pressed : bool;
  ctrl_pressed : bool;
  g_device_table : arr Z;
  devices : gmap Z device_t
}.
Definition set_conf v t := Term v (queue t) (t_con t) (t_sched t) (shift_pressed t) (ctrl_pressed t) (g_device_table t) (devices t).
Definition set_queue v t := Term (conf t) v (t_con t) (t_sched t) (shift_pressed t) (ctrl_pressed t) (g_device_table t) (devices t).
Definition set_con v t := Term (conf t) (queue t) v (t_sched t) (shift_pressed t) (ctrl_pressed t) (g_device_table t) (devices t).
Definition set_sched v t := Term (conf t) (queue t) (t_con t) v (shift_pressed t) (ctrl_pressed t) (g_device_table t) (devices t).
Definition set_mods a b t := Term (conf t) (queue t) (t_con t) (t_sched t) a b (g_device_table t) (devices t).
Definition set_devs tb ds t := Term (conf t) (queue t) (t_con t) (t_sched t) (shift_pressed t) (ctrl_pressed t) tb ds.

Definition on_queue {A} (m : M circular_buff_t A) : M term A := zoom queue set_queue m.
Definition on_con {A} (m : M con A) : M term A := zoom t_con set_con m.
Definition on_sched {A} (m : M sched A) : M term A := zoom t_sched set_sched m.
Definition tty_lock_acquire : M term unit := on_sched (on_cond_lock TTY_LOCK spinlock_acquire).
Definition tty_lock_release : M term unit := on_sched (on_cond_lock TTY_LOCK spinlock_release).
Definition canonical (c : termios_t) : bool := negb (Z.land (c_lflag c) TTY_ICANON =? 0).

(* ------------------------------------------------------------------ *)
(** ** Devices

    [dev] is the address that [kmalloc] returns, or 0. *)

Definition device_init (dev id : Z) : M term Z :=
  if dev =? 0 then ret 0
  else
    modify (λ t, set_devs (g_device_table t) (<[dev := Device id false None 0]> (devices t)) t) ;;
    on_sched (modify (λ s, set_wait_queues (<[dev := WaitQueue 0 0 (Spinlock 0 false)]> (wait_queues s)) s)) ;;
    zoom g_device_table (λ v t, set_devs v (devices t) t) (st id dev) ;;
    ret dev.

Definition get_device_by_handle (handle : Z) : M term Z :=
  if (handle <? 0) || (MAX_DEVICES <=? handle) then ret 0
  else zoom g_device_table (λ v t, set_devs v (devices t) t) (ld handle).

Definition device_destroy (dev : Z) : M term unit :=
  if dev =? 0 then ret tt
  else
    q ← on_sched (wq dev);
    if negb (wq_head q =? 0) then ret tt
    else modify (λ t, set_devs (g_device_table t) (delete dev (devices t)) t).

(* ------------------------------------------------------------------ *)
(** ** The terminal *)

Definition tty_init (c : termios_t) : M term unit :=
  on_queue circular_buff_init ;;
  modify (set_conf c) ;;
  on_sched (modify (λ s, set_cond_locks (<[TTY_LOCK := Spinlock 0 false]> (cond_locks s)) s)).

(** A key is a [char]; the queue holds it as a pointer. *)
Definition tty_input (dev key_ascii : Z) : M term unit :=
  tty_lock_acquire ;;
  c ← gets conf;
  (if canonical c then
     if (key_ascii =? 8) || (key_ascii =? 127) then
       b ← on_queue circular_buff_dequeue_last;
       when b (on_con con_backspace)
     else
       on_con (con_putc key_ascii) ;;
       on_con (kdebugc key_ascii) ;;
       on_queue (circular_buff_enqueue (u32 key_ascii)) ;;
       when (key_ascii =? 10) (on_sched (wake_up_queue dev))
   else
     on_queue (circular_buff_enqueue (u32 key_ascii)) ;;
     on_sched (wake_up_queue dev)) ;;
  tty_lock_release.

(** The outer loop from where the lock is to be taken, or is [held]. *)
Fixpoint tty_read_loop (n : nat) (dev size : Z) (out : list Z) (held : bool) : M term (list Z + list Z) :=
  match n with
  | O => fault
  | S n =>
      if Z.of_nat (length out) <? size then
        when (negb held) tty_lock_acquire ;;
        e ← gets (λ t, circular_buff_is_empty (queue t));
        if e : bool then on_sched (wait_on_queue dev TTY_LOCK) ;; ret (inr out)
        else
          v ← on_queue circular_buff_dequeue;
          let c := u8 v in
          tty_lock_release ;;
          k ← gets conf;
          if canonical k && (c =? 10) then ret (inl (out ++ [c]))
          else tty_read_loop n dev size (out ++ [c]) false
      else ret (inl out)
  end.

Definition tty_read (dev size : Z) : M term (list Z + list Z) :=
  tty_read_loop (S (Z.to_nat size)) dev size [] false.
Definition tty_read_resume (dev size : Z) (out : list Z) : M term (list Z + list Z) :=
  on_sched (wait_on_queue_resume TTY_LOCK) ;;
  tty_read_loop (S (Z.to_nat size)) dev size out true.

(** The copies to and from the caller's memory: [copy_to] gets the words and
    bytes of the structure, [copy_from] gives them back; both return 0 or an
    error. *)
Section ioctl.
Context (copy_to_user : Z → termios_t → M term Z) (copy_from_user : Z → M term (Z * termios_t)).

Definition tty_ioctl (dev request arg : Z) : M term Z :=
  if request =? TCGETS then
    c ← gets conf;
    r ← copy_to_user arg c;
    ret (if r =? 0 then 0 else - EFAULT)
  else if request =? TCSETS then
    r ← copy_from_user arg;
    if negb (r.1 =? 0) then ret (- EFAULT)
    else
      modify (set_conf r.2) ;;
      when (negb (canonical r.2)) (on_sched (wake_up_queue dev)) ;;
      ret 0
  else ret (- EINVAL).

(** [sys_ioctl] behind the descriptor table: [file] is the mode and device
    handle of the open file's vnode. *)
Definition sys_ioctl (file : option (bool * Z)) (fd request arg : Z) : M term Z :=
  if (fd <? 0) || (64 <=? fd) then ret (- EBADF)
  else match file with
  | None => ret (- EBADF)
  | Some (false, _) => ret (- ENOTTY)
  | Some (true, handle) =>
      dev ← get_device_by_handle handle;
      if dev =? 0 then ret (- EINVAL)
      else
        d ← deref devices dev;
        match dev_ops d with
        | None => fault
        | Some KBD_OPS => tty_ioctl dev request arg
        end
  end.
End ioctl.

(* ------------------------------------------------------------------ *)
(** ** The keyboard *)

Definition KBD_SHIFT : Z := 42.
Definition KBD_SHIFT_R : Z := 54.
Definition KBD_CTRL : Z := 29.
Definition MAX_PRESS_SCANCODE : Z := 128.

Definition scancode_to_ascii : list Z :=
  [0; 27; 49; 50; 51; 52; 53; 54; 55; 56; 57; 48;
   45; 61; 8; 9; 113; 119; 101; 114; 116; 121; 117; 105;
   111; 112; 91; 93; 10; 0; 97; 115; 100; 102; 103; 104;
   106; 107; 108; 59; 39; 96; 0; 92; 122; 120; 99; 118;
   98; 110; 109; 44; 46; 47; 0; 42; 0; 32; 0].
Definition scancode_to_ascii_shift : list Z :=
  [0; 27; 33; 64; 35; 36; 37; 94; 38; 42; 40; 41;
   95; 43; 8; 9; 81; 87; 69; 82; 84; 89; 85; 73;
   79; 80; 123; 125; 10; 0; 65; 83; 68; 70; 71; 72;
   74; 75; 76; 58; 34; 126; 0; 124; 90; 88; 67; 86;
   66; 78; 77; 60; 62; 63; 0; 42; 0; 32; 0].

(** The tables have 128 entries, those not written are 0. *)
Definition key_of (shift ctrl : bool) (keycode : Z) : Z :=
  let key_ascii := default 0 ((if shift then scancode_to_ascii_shift else scancode_to_ascii) !! Z.to_nat keycode) in
  if ctrl && (97 <=? key_ascii) && (key_ascii <=? 122) then key_ascii - 97 + 1 else key_ascii.

(** [scancode] is what the port reads. *)
Definition keyboard_isr_handler (scancode : Z) : M term unit :=
  let key_released := negb (Z.land scancode MAX_PRESS_SCANCODE =? 0) in
  let keycode := Z.land scancode 127 in
  if (keycode =? KBD_SHIFT) || (keycode =? KBD_SHIFT_R) then
    modify (λ t, set_mods (negb key_released) (ctrl_pressed t) t)
  else if keycode =? KBD_CTRL then modify (λ t, set_mods (shift_pressed t) (negb key_released) t)
  else when (negb key_released)
    (sh ← gets shift_pressed; ct ← gets ctrl_pressed;
     let key_ascii := key_of sh ct keycode in
     when (negb (key_ascii =? 0))
       (dev ← get_device_by_handle DEVICE_HANDLE_KEYBOARD; tty_input dev key_ascii)).

Definition kbd_init (dev : Z) : M term Z :=
  d ← device_init dev DEVICE_HANDLE_KEYBOARD;
  assign devices (λ v t, set_devs (g_device_table t) v t) d
    (λ x, Device (device_id x) (data_ready x) (Some KBD_OPS) (dev_priv x)) ;;
  tty_init (Termios 0 0 0 TTY_ICANON (replicate 32 0)) ;;
  assign devices (λ v t, set_devs (g_device_table t) v t) d
    (λ x, Device (device_id x) (data_ready x) (dev_ops x) TTY_LOCK) ;;
  ret 0.

(** [read] of the character device behind descriptor 0. *)
Definition kbd_dev_read (handle size : Z) : M term (Z + (list Z + list Z)) :=
  dev ← get_device_by_handle handle;
  if dev =? 0 then ret (inl (- ENODEV))
  else
    d ← deref devices dev;
    match dev_ops d with
    | None => fault
    | Some KBD_OPS => r ← tty_read dev size; ret (inr r)
    end.

(* ------------------------------------------------------------------ *)
(** ** The line discipline *)

(** What the terminal relies on; [v] is 1 while its lock is held. *)
Record tty_ok (v : Z) (t : term) (dev : Z) (q : Z → list Z) (sl l : list Z) : Prop := {
  to_inv : inv (t_sched t) q sl;
  to_wait : ∃ lk, waiting (t_sched t) dev l lk ∧ sl_val lk = 0;
  to_apart : apart (t_sched t) q sl l;
  to_lock : ∃ k, cond_locks (t_sched t) !! TTY_LOCK = Some k ∧ sl_val k = v;
  to_con : con_inv (t_con t);
  to_queue : cb_inv (queue t)
}.

(** The state outside the scheduler. *)
Definition outside (t : term) := (conf t, queue t, t_con t, shift_pressed t, ctrl_pressed t, g_device_table t, devices t).

(** What a key does not change: the configuration, the modifiers and the
    devices. *)
Definition keyboard (t : term) := (conf t, shift_pressed t, ctrl_pressed t, g_device_table t, devices t).

Lemma outside_keyboard t t' : outside t' = outside t → keyboard t' = keyboard t.
Proof. unfold outside, keyboard. congruence. Qed.

Lemma tty_ok_locks v v' t dev q sl l s' k :
  tty_ok v t dev q sl l → sched_part s' = sched_part (t_sched t) → wait_queues s' = wait_queues (t_sched t) →
  cond_locks s' !! TTY_LOCK = Some k → sl_val k = v' → tty_ok v' (set_sched s' t) dev q sl l.
Proof.
  intros [H1 (lk & W & Hl) H3 _ H5 H6] E Ew Ek Hv. pose proof E as E'. unfold sched_part in E'.
  injection E' as E1 _ _ _ _ _ E7. split; try done; cbn.
  - by apply (inv_part (t_sched t)).
  - exists lk. split; [|done]. apply (waiting_ext _ _ _ _ _ _ W); [by rewrite E1|by rewrite Ew].
  - intros x Hx. rewrite E7. by apply H3.
  - eauto.
Qed.

Lemma wp_tty_acquire t dev q sl l (Q : unit → term → Prop) :
  tty_ok 0 t dev q sl l → (∀ t', tty_ok 1 t' dev q sl l → outside t' = outside t → Q tt t') → wp tty_lock_acquire t Q.
Proof.
  intros K HQ. pose proof K as [_ _ _ (k & Ek & Hv) _ _]. unfold tty_lock_acquire, on_sched. wp_step. unfold on_cond_lock.
  wp_step. eapply wp_deref; [exact Ek|]. wp_step. wp_step. wp_step.
  eapply wp_of_opt; [unfold spinlock_acquire, bind, gets, modify, assert_; cbn; rewrite Hv; reflexivity|].
  wp_step. eapply wp_assign; [exact Ek|]. wp_step. apply HQ; [|done].
  eapply tty_ok_locks; [exact K|done|done|apply lookup_insert_eq|done].
Qed.

Lemma wp_tty_release t dev q sl l (Q : unit → term → Prop) :
  tty_ok 1 t dev q sl l → (∀ t', tty_ok 0 t' dev q sl l → outside t' = outside t → Q tt t') → wp tty_lock_release t Q.
Proof.
  intros K HQ. pose proof K as [_ _ _ (k & Ek & Hv) _ _]. unfold tty_lock_release, on_sched. wp_step.
  eapply wp_cond_release; [exact Ek|done|]. apply HQ; [|done].
  eapply tty_ok_locks; [exact K|done|done|apply lookup_insert_eq|done].
Qed.

(** The queue after a key in canonical mode. *)
Definition edit_step (cs : list Z) (key : Z) : list Z :=
  if (key =? 8) || (key =? 127) then take (length cs - 1) cs
  else if decide (length cs = Z.to_nat QUEUE_SIZE) then cs else cs ++ [u32 key].
Definition edit (cs keys : list Z) : list Z := foldl edit_step cs keys.

(** Who still waits after it. *)
Definition woken (key : Z) (l : list Z) : list Z := if key =? 10 then match l with [] => [] | _ :: l => l end else l.

Lemma tty_ok_con v t dev q sl l c : tty_ok v t dev q sl l → con_inv c → tty_ok v (set_con c t) dev q sl l.
Proof. intros [] H. by split. Qed.

Lemma tty_ok_queue v t dev q sl l c : tty_ok v t dev q sl l → cb_inv c → tty_ok v (set_queue c t) dev q sl l.
Proof. intros [] H. by split. Qed.

Lemma wp_tty_wake t dev q sl l (Q : unit → term → Prop) :
  tty_ok 1 t dev q sl l →
  (∀ q' t', tty_ok 1 t' dev q' sl (match l with [] => [] | _ :: l => l end) → outside t' = outside t →
     (∀ x, l !! 0%nat = Some x → ∃ i, x ∈ q' i) → Q tt t') →
  wp (on_sched (wake_up_queue dev)) t Q.
Proof.
  intros K HQ. pose proof K as [V (lk & W & Hl) A (k & Ek & Hv) _ _]. unfold on_sched. wp_step.
  eapply wp_mono; [by eapply wp_wake_up_queue|]. intros [] s' (_ & _ & Ec & H).
  destruct l as [|x l]; [|destruct H as (th & _ & H)]; cbv zeta in H.
  - destruct H as [V' W']. apply (HQ q); [|done|done]. split; try done; try apply K; cbn; [by eexists|by intros ? ?%not_elem_of_nil|].
    rewrite Ec. eauto.
  - destruct H as (V' & W' & A'). eapply HQ; [|done|].
    + split; try done; try apply K; cbn; [by eexists|]. rewrite Ec. eauto.
    + intros y [= <-]. exists (th_priority th). rewrite fn_lookup_insert. apply elem_of_app. right. by constructor.
Qed.

Lemma wp_tty_input t dev q sl l key :
  tty_ok 0 t dev q sl l → canonical (conf t) = true →
  wp (tty_input dev key) t (λ _ t', (∃ q', tty_ok 0 t' dev q' sl (woken key l) ∧ (key = 10 → ∀ x, l !! 0%nat = Some x → ∃ i, x ∈ q' i)) ∧
    keyboard t' = keyboard t ∧ contents (queue t') = edit_step (contents (queue t)) key).
Proof.
  intros K Hc. unfold tty_input. wp_step. eapply wp_tty_acquire; [exact K|]. intros t1 K1 O1.
  injection O1 as E1 E2 E3 E4 E5 E6 E7. wp_step. wp_step. rewrite E1, Hc. cbn iota. unfold edit_step, woken. wp_step.
  destruct ((key =? 8) || (key =? 127)) eqn:Ek.
  - assert (key =? 10 = false) as -> by blia. wp_step. unfold on_queue. wp_step.
    eapply wp_mono; [apply (circular_buff_dequeue_refines _ (to_queue _ _ _ _ _ _ K1))|].
    intros b c (Hi & _ & Ec). rewrite E2 in Ec. pose proof (tty_ok_queue _ _ _ _ _ _ _ K1 Hi) as K2.
    assert (∀ t2, tty_ok 1 t2 dev q sl l → keyboard t2 = keyboard t → queue t2 = c → wp tty_lock_release t2 (λ _ t', 
      (∃ q', tty_ok 0 t' dev q' sl l ∧ (key = 10 → ∀ x, l !! 0%nat = Some x → ∃ i, x ∈ q' i)) ∧ keyboard t' = keyboard t ∧
      contents (queue t') = take (length (contents (queue t)) - 1) (contents (queue t)))) as Hrel.
    { intros t2 K3 F1 F2. eapply wp_tty_release; [exact K3|]. intros t3 K4 O4. rewrite (outside_keyboard _ _ O4).
      injection O4 as _ G2 _ _ _ _ _. rewrite G2, F2. split; [|done]. exists q. split; [done|]. intros ->. done. }
    destruct b; cbn [when]; [|wp_step; apply Hrel; [done| |done]; unfold keyboard; cbn; congruence]. unfold on_con. wp_step.
    eapply wp_mono; [apply wp_con_backspace; [apply K2|apply shows_some]|]. intros [] c' (Hc' & _).
    apply Hrel; [by apply tty_ok_con| |done]. unfold keyboard. cbn. congruence.
  - unfold on_con, on_queue. wp_step. wp_step. eapply wp_mono; [apply wp_con_putc, K1|]. intros [] c1 Hc1.
    wp_step. wp_step. unfold kdebugc. wp_step. pose proof (tty_ok_con _ _ _ _ _ _ _ K1 Hc1) as K2.
    wp_step. wp_step. eapply wp_mono; [apply (circular_buff_enqueue_refines _ _ (to_queue _ _ _ _ _ _ K2))|].
    intros [] cb (Hi & Ec). cbn in Ec. rewrite E2 in Ec.
    set (t2 := set_queue cb _). assert (tty_ok 1 t2 dev q sl l) as K3.
    { apply tty_ok_queue; [|done]. apply tty_ok_con; [done|]. destruct Hc1 as [[] ?]. by split. }
    assert (∀ q' l' t3, tty_ok 1 t3 dev q' sl l' → outside t3 = outside t2 → (key = 10 → ∀ x, l !! 0%nat = Some x → ∃ i, x ∈ q' i) →
      wp tty_lock_release t3 (λ _ t', (∃ q', tty_ok 0 t' dev q' sl l' ∧ (key = 10 → ∀ x, l !! 0%nat = Some x → ∃ i, x ∈ q' i)) ∧
        keyboard t' = keyboard t ∧ contents (queue t') =
        if decide (length (contents (queue t)) = Z.to_nat QUEUE_SIZE) then contents (queue t) else contents (queue t) ++ [u32 key])) as Hrel.
    { intros q' l' t3 K4 O3 Hw. eapply wp_tty_release; [exact K4|]. intros t4 K5 O4. split; [eauto|].
      rewrite (outside_keyboard _ _ O4), (outside_keyboard _ _ O3). injection O3 as _ F2 _ _ _ _ _.
      injection O4 as _ G2 _ _ _ _ _. rewrite G2, F2. split; [|done]. unfold keyboard, t2. cbn. congruence. }
    destruct (Z.eqb_spec key 10) as [->|Hne]; cbn [when]; [|wp_step; by eapply Hrel].
    eapply wp_tty_wake; [exact K3|]. intros q' t3 K4 O3 Hw. by eapply Hrel.
Qed.

(** Reading a line that is there, with or without the lock. *)
Lemma wp_tty_read_loop n dev size xs : ∀ out (held : bool) rest t q sl l,
  tty_ok (if held then 1 else 0) t dev q sl l → canonical (conf t) = true → contents (queue t) = xs ++ 10 :: rest →
  Forall (λ x, u8 x ≠ 10) xs → Z.of_nat (length out + length xs) < size → (length xs < n)%nat →
  wp (tty_read_loop n dev size out held) t (λ r t', r = inl (out ++ (u8 <$> xs) ++ [10]) ∧
    tty_ok 0 t' dev q sl l ∧ conf t' = conf t ∧ contents (queue t') = rest).
Proof.
  revert xs. induction n as [|n IH]; intros xs out held rest t q sl l K Hc E Hx Hs Hn; [lia|]. cbn [tty_read_loop].
  rewrite (proj2 (Z.ltb_lt _ _)) by lia. wp_step.
  eapply (wp_mono _ _ (λ _ t1, tty_ok 1 t1 dev q sl l ∧ outside t1 = outside t)).
  { destruct held; cbn [negb when]; [by apply wp_ret|]. eapply wp_tty_acquire; [exact K|]. done. }
  intros [] t1 [K1 O1].
  injection O1 as E1 E2 E3 E4 E5 E6 E7. wp_step. wp_step. rewrite E2.
  assert (circular_buff_is_empty (queue t) = false) as ->.
  { unfold circular_buff_is_empty. apply Z.eqb_neq. intros Hz. pose proof (contents_length (queue t)) as Hl.
    rewrite E, Hz, length_app in Hl. cbn in Hl. lia. }
  unfold on_queue. wp_step. wp_step.
  eapply wp_mono; [apply (circular_buff_dequeue_refines _ (to_queue _ _ _ _ _ _ K1))|]. intros v cb [Hi Hv].
  rewrite E2, E in Hv. pose proof (tty_ok_queue _ _ _ _ _ _ _ K1 Hi) as K2. wp_step.
  eapply wp_tty_release; [exact K2|]. intros t3 K3 O3. injection O3 as G1 G2 _ _ _ _ _. cbn in G1, G2. wp_step. wp_step.
  rewrite G1, E1, Hc. destruct xs as [|x xs]; cbn [app] in Hv; destruct Hv as [-> Hv].
  - cbn [andb u8]. change (u8 10 =? 10) with true. cbn iota. apply wp_ret. cbn. rewrite G1, G2, E1. done.
  - apply Forall_cons in Hx as [Hx1 Hx]. rewrite (proj2 (Z.eqb_neq _ _)) by done. cbn [andb].
    eapply wp_mono; [apply (IH xs (out ++ [u8 x]) false rest t3 q sl l K3); [by rewrite G1, E1|by rewrite G2| | |]|].
    + done.
    + rewrite length_app. cbn in *. lia.
    + cbn in Hn. lia.
    + intros r t' (-> & K4 & F1 & F2). split_and!; [|done|by rewrite F1, G1, E1|done].
      rewrite <-app_assoc. done.
Qed.

(** Reading when there is nothing: the reader waits, the last of the queue. *)
Lemma wp_tty_read_blocks t dev q sl l size :
  tty_ok 0 t dev q sl l → contents (queue t) = [] → cur_tid (t_sched t) ≠ 0 → 0 < size →
  wp (tty_read dev size) t (λ r t', r = inr [] ∧ outside t' = outside t ∧
    ∃ q', tty_ok 0 t' dev q' sl (l ++ [g_current_thread (t_sched t)])).
Proof.
  intros K E Ht Hs. unfold tty_read. cbn [tty_read_loop length]. rewrite (proj2 (Z.ltb_lt _ _)) by lia. wp_step. cbn [negb when].
  pose proof K as [_ _ _ (k0 & Ek0 & Hk0) _ _]. unfold tty_lock_acquire, on_sched. wp_step. unfold on_cond_lock.
  wp_step. eapply wp_deref; [exact Ek0|]. wp_step. wp_step. wp_step.
  eapply wp_of_opt; [unfold spinlock_acquire, bind, gets, modify, assert_; cbn; rewrite Hk0; reflexivity|].
  wp_step. eapply wp_assign; [exact Ek0|]. wp_step. set (s1 := set_if _ _).
  assert (tty_ok 1 (set_sched s1 t) dev q sl l) as K1 by (eapply tty_ok_locks; [exact K|done|done|apply lookup_insert_eq|done]).
  assert (cur_tid s1 = cur_tid (t_sched t) ∧ g_current_thread s1 = g_current_thread (t_sched t)) as [T1 T2] by done.
  clearbody s1. wp_step. wp_step. cbn [queue set_sched].
  assert (circular_buff_is_empty (queue t) = true) as ->.
  { unfold circular_buff_is_empty. apply Z.eqb_eq. pose proof (contents_length (queue t)) as Hl. pose proof (to_queue _ _ _ _ _ _ K) as [].
    rewrite E in Hl. cbn in Hl. lia. }
  wp_step. wp_step. cbn [t_sched set_sched].
  destruct K1 as [V (lk & W & Hl) A (k & Ek & Hv) Hc Hq]. cbn [t_sched set_sched t_con queue] in *.
  pose proof V as [_ _ _ _ (th & Eth & _)]. unfold cur_tid in Ht, T1. rewrite Eth in T1. cbn in T1.
  eapply wp_mono; [apply (wp_wait_on_queue s1 q sl dev l lk TTY_LOCK k th); [done|done|by rewrite T1|done|done|done|by intros _]|].
  intros [] s2 ((V2 & _ & _) & W2 & A2 & C2). wp_step. split_and!; [done|done|]. eexists. rewrite T2 in *. split; try done; cbn.
  rewrite C2. unfold cond_released. cbn. eexists. split; [apply lookup_insert_eq|done].
Qed.

Lemma wp_tty_resume t dev q sl l (Q : unit → term → Prop) :
  tty_ok 0 t dev q sl l → (∀ t', tty_ok 1 t' dev q sl l → outside t' = outside t → Q tt t') →
  wp (on_sched (wait_on_queue_resume TTY_LOCK)) t Q.
Proof. apply wp_tty_acquire. Qed.

Definition plain (k : Z) : Prop := 0 < k < 128 ∧ k ≠ 10.

Lemma edit_plain ks cs : Forall plain ks → Forall plain cs → Forall plain (edit cs ks).
Proof.
  intros Hk. revert cs. induction Hk as [|k ks Hk Hks IH]; intros cs Hc; [done|]. cbn. apply IH. unfold edit_step.
  destruct ((k =? 8) || (k =? 127)); [by apply Forall_take|]. case_decide; [done|]. apply Forall_app. split; [done|].
  apply Forall_singleton. destruct Hk. split; ulia.
Qed.

Lemma edit_length ks cs : (length (edit cs ks) <= length cs + length ks)%nat.
Proof.
  revert cs. induction ks as [|k ks IH]; intros cs; cbn; [lia|]. etrans; [apply IH|]. unfold edit_step.
  destruct (_ || _); [rewrite length_take; lia|]. case_decide; [lia|]. rewrite length_app. cbn. lia.
Qed.

Lemma edit_snoc cs ks k : edit cs (ks ++ [k]) = edit_step (edit cs ks) k.
Proof. unfold edit. by rewrite foldl_app. Qed.

(* ------------------------------------------------------------------ *)
(** ** Typing

    The US keyboard: the rows of its keys without and with shift, each with
    the scancode of its first key. The double quote is written as its code. *)
Module Layout.
Import Ascii String.
Local Open Scope string_scope.

Definition row (code : Z) (keys : string) : list (Z * Z) :=
  imap (λ i a, (Z.of_N (N_of_ascii a), code + Z.of_nat i)) (list_ascii_of_string keys).
Definition lower : list (Z * Z) :=
  row 2 "1234567890-=" ++ row 16 "qwertyuiop[]" ++ row 30 "asdfghjkl;'`" ++ row 43 "\zxcvbnm,./" ++ row 57 " " ++ [(8, 14); (9, 15)].
Definition upper : list (Z * Z) :=
  row 2 "!@#$%^&*()_+" ++ row 16 "QWERTYUIOP{}" ++ row 30 "ASDFGHJKL:" ++ [(34, 40); (126, 41)] ++ row 43 "|ZXCVBNM<>?".
End Layout.

(** The scancodes of pressing and letting go of the key for [c], with the left
    shift key held where the character needs it. *)
Definition code_of (c : Z) (l : list (Z * Z)) : option Z := (λ x, x.2.2) <$> list_find (λ x, x.1 = c) l.
Definition stroke (c : Z) : option (list Z) :=
  match code_of c Layout.lower, code_of c Layout.upper with
  | Some k, _ => Some [k; k + 128]
  | None, Some k => Some [42; k; k + 128; 170]
  | None, None => None
  end.
Definition strokes (cs : list Z) : list Z := concat (default [] ∘ stroke <$> cs).
Definition typeable (c : Z) : Prop := is_Some (stroke c).

Lemma code_of_in c l k : code_of c l = Some k → (c, k) ∈ l.
Proof.
  intros ([i [x y]] & E & Hk)%fmap_Some. apply list_find_Some in E as (E & Hx & _). cbn in *. subst. by eapply list_elem_of_lookup_2.
Qed.

(** The driver's tables against the layout. *)
Lemma lower_keys c k : (c, k) ∈ Layout.lower →
  key_of false false k = c ∧ plain c ∧ 0 < k < 128 ∧ k ≠ KBD_SHIFT ∧ k ≠ KBD_SHIFT_R ∧ k ≠ KBD_CTRL.
Proof.
  assert (Forall (λ x, key_of false false x.2 = x.1 ∧ plain x.1 ∧ 0 < x.2 < 128 ∧
    x.2 ≠ KBD_SHIFT ∧ x.2 ≠ KBD_SHIFT_R ∧ x.2 ≠ KBD_CTRL) Layout.lower) as H.
  { vm_compute Layout.lower. repeat (apply Forall_cons; split; [vm_compute; split_and!; (reflexivity || discriminate)|]). constructor. }
  intros Hin. rewrite Forall_forall in H. exact (H _ Hin).
Qed.

Lemma upper_keys c k : (c, k) ∈ Layout.upper →
  key_of true false k = c ∧ plain c ∧ 0 < k < 128 ∧ k ≠ KBD_SHIFT ∧ k ≠ KBD_SHIFT_R ∧ k ≠ KBD_CTRL.
Proof.
  assert (Forall (λ x, key_of true false x.2 = x.1 ∧ plain x.1 ∧ 0 < x.2 < 128 ∧
    x.2 ≠ KBD_SHIFT ∧ x.2 ≠ KBD_SHIFT_R ∧ x.2 ≠ KBD_CTRL) Layout.upper) as H.
  { vm_compute Layout.upper. repeat (apply Forall_cons; split; [vm_compute; split_and!; (reflexivity || discriminate)|]). constructor. }
  intros Hin. rewrite Forall_forall in H. exact (H _ Hin).
Qed.

(** The keyboard device is at [dev]; no modifier is held. *)
Definition kbd_at (t : term) (dev : Z) : Prop :=
  DEVICE_HANDLE_KEYBOARD < alen (g_device_table t) ∧ aat (g_device_table t) DEVICE_HANDLE_KEYBOARD = dev ∧ ctrl_pressed t = false.

(** The upper bit of a scancode tells letting go from pressing. *)
Lemma scancode_bits k : 0 <= k < 128 →
  Z.land k 127 = k ∧ (Z.land k MAX_PRESS_SCANCODE =? 0) = true ∧
  Z.land (k + 128) 127 = k ∧ (Z.land (k + 128) MAX_PRESS_SCANCODE =? 0) = false.
Proof.
  intros Hk. assert (Forall (λ k, Z.land k 127 = k ∧ (Z.land k MAX_PRESS_SCANCODE =? 0) = true ∧
    Z.land (k + 128) 127 = k ∧ (Z.land (k + 128) MAX_PRESS_SCANCODE =? 0) = false) (seqZ 0 128)) as H.
  { apply (bool_decide_unpack _). by vm_compute. }
  rewrite Forall_forall in H. apply H, elem_of_seqZ. lia.
Qed.

Lemma wp_kbd_press t dev k c (Q : unit → term → Prop) :
  kbd_at t dev → 0 < k < 128 → k ≠ KBD_SHIFT → k ≠ KBD_SHIFT_R → k ≠ KBD_CTRL → key_of (shift_pressed t) false k = c → c ≠ 0 →
  wp (tty_input dev c) t Q → wp (keyboard_isr_handler k) t Q.
Proof.
  intros (Ha & Hd & Hct) Hk H1 H2 H3 Hc H0 HQ. unfold keyboard_isr_handler.
  destruct (scancode_bits k ltac:(lia)) as (-> & -> & _). cbn [negb]. rewrite !(proj2 (Z.eqb_neq k _)) by done. cbn [orb when].
  wp_step. wp_step. wp_step. wp_step. rewrite Hct, Hc, (proj2 (Z.eqb_neq c 0)) by done. cbn [negb when]. wp_step.
  unfold get_device_by_handle. change ((DEVICE_HANDLE_KEYBOARD <? 0) || (MAX_DEVICES <=? DEVICE_HANDLE_KEYBOARD)) with false.
  cbn iota. wp_step. apply wp_ld; [by unfold DEVICE_HANDLE_KEYBOARD in *; lia|]. rewrite Hd.
  by replace (set_devs (g_device_table t) (devices t) t) with t by by destruct t.
Qed.

Lemma wp_kbd_release t k (Q : unit → term → Prop) :
  0 < k < 128 → k ≠ KBD_SHIFT → k ≠ KBD_SHIFT_R → k ≠ KBD_CTRL → Q tt t → wp (keyboard_isr_handler (k + 128)) t Q.
Proof.
  intros Hk H1 H2 H3 HQ. unfold keyboard_isr_handler. destruct (scancode_bits k ltac:(lia)) as (_ & _ & -> & ->).
  cbn [negb]. rewrite !(proj2 (Z.eqb_neq k _)) by done. by apply wp_ret.
Qed.

Lemma wp_kbd_shift t b (Q : unit → term → Prop) :
  Q tt (set_mods b (ctrl_pressed t) t) → wp (keyboard_isr_handler (if b then 42 else 170)) t Q.
Proof. by destruct b. Qed.

Lemma tty_ok_mods v t dev q sl l a b : tty_ok v t dev q sl l → tty_ok v (set_mods a b t) dev q sl l.
Proof. intros []. by split. Qed.

(** One character typed: the line discipline gets it, the keys are up again. *)
Lemma wp_stroke t dev q sl l c codes :
  tty_ok 0 t dev q sl l → canonical (conf t) = true → kbd_at t dev → shift_pressed t = false → stroke c = Some codes →
  wp (for_each codes keyboard_isr_handler) t (λ _ t', (∃ q', tty_ok 0 t' dev q' sl l) ∧ keyboard t' = keyboard t ∧
    contents (queue t') = edit_step (contents (queue t)) c).
Proof.
  intros K Hc Hk Hsh Hs. unfold stroke in Hs. pose proof (lower_keys c) as Hlo. pose proof (upper_keys c) as Hup.
  destruct (code_of c Layout.lower) as [k|] eqn:El; [|destruct (code_of c Layout.upper) as [k|] eqn:Eu; [|done]];
    injection Hs as <-; cbn [for_each].
  - destruct (Hlo k (code_of_in _ _ _ El)) as (Ek & [Hp Hn] & Hb & N1 & N2 & N3). wp_step.
    eapply (wp_kbd_press t dev k c); [done|done|done|done|done|by rewrite Hsh|lia|].
    eapply wp_mono; [by apply (wp_tty_input t dev q sl l)|]. intros [] t1 ((q1 & K1 & _) & F1 & F2). wp_step. apply wp_kbd_release; [done..|]. wp_step.
    unfold woken in K1. rewrite (proj2 (Z.eqb_neq _ _)) in K1 by done. eauto.
  - destruct (Hup k (code_of_in _ _ _ Eu)) as (Ek & [Hp Hn] & Hb & N1 & N2 & N3). wp_step. apply (wp_kbd_shift t true).
    set (t0 := set_mods true (ctrl_pressed t) t). wp_step.
    eapply (wp_kbd_press t0 dev k c); [done|done|done|done|done|done|lia|].
    eapply wp_mono; [apply (wp_tty_input t0 dev q sl l); [by apply tty_ok_mods|done]|]. intros [] t1 ((q1 & K1 & _) & F1 & F2). wp_step.
    apply wp_kbd_release; [done..|]. wp_step. apply (wp_kbd_shift t1 false). wp_step.
    unfold woken in K1. rewrite (proj2 (Z.eqb_neq _ _)) in K1 by done. split_and!; [exists q1; by apply tty_ok_mods| |done].
    unfold keyboard in *. cbn in *. congruence.
Qed.

Lemma wp_strokes dev sl l cs : ∀ t q,
  tty_ok 0 t dev q sl l → canonical (conf t) = true → kbd_at t dev → shift_pressed t = false → Forall typeable cs →
  wp (for_each (strokes cs) keyboard_isr_handler) t (λ _ t', (∃ q', tty_ok 0 t' dev q' sl l) ∧ keyboard t' = keyboard t ∧
    contents (queue t') = edit (contents (queue t)) cs).
Proof.
  induction cs as [|c cs IH]; intros t q K Hc Hk Hsh Hs; [apply wp_ret; eauto|].
  apply Forall_cons in Hs as [[codes Ec] Hs]. unfold strokes. cbn [fmap list_fmap concat]. unfold compose at 1. rewrite Ec.
  cbn [default from_option id]. apply wp_for_each_app. eapply wp_mono; [by apply (wp_stroke t dev q sl l c)|].
  intros [] t1 ((q1 & K1) & F1 & F2). pose proof F1 as F1'. unfold keyboard in F1'. injection F1' as G1 G2 G3 G4 G5.
  eapply wp_mono; [apply (IH t1 q1 K1); [by rewrite G1|unfold kbd_at; by rewrite G3, G4|congruence|done]|].
  intros [] t2 (K2 & F3 & F4). split_and!; [done|congruence|]. by rewrite F4, F2.
Qed.

Lemma typeable_plain c : typeable c → plain c.
Proof.
  intros [codes E]. unfold stroke in E. destruct (code_of c Layout.lower) as [k|] eqn:El.
  - by apply (lower_keys c k), code_of_in.
  - destruct (code_of c Layout.upper) as [k|] eqn:Eu; [|done]. by apply (upper_keys c k), code_of_in.
Qed.

(** C23: typing a line for a reader that waits. A read of an empty terminal
    blocks: its thread is the last that waits and the lock is free. Then the
    scancodes of the keys of a US keyboard arrive, with shift held where a
    character needs it, and those of the return key: the thread that has waited
    longest is ready. Whatever ran meanwhile, a read that goes on after that,
    or one that only begins, returns the characters, each backspace having
    undone the one before it, and the newline; the terminal is empty again. *)
Theorem tty_line_roundtrip t dev q sl l cs size :
  tty_ok 0 t dev q sl l → canonical (conf t) = true → contents (queue t) = [] →
  kbd_at t dev → shift_pressed t = false → cur_tid (t_sched t) ≠ 0 →
  Forall typeable cs → Z.of_nat (length cs) < QUEUE_SIZE → Z.of_nat (length (edit [] cs)) < size →
  let waiters := l ++ [g_current_thread (t_sched t)] in
  ∃ t1 t2 q1 q2,
    tty_read dev size t = Some (inr [], t1) ∧ tty_ok 0 t1 dev q1 sl waiters ∧
    for_each (strokes cs ++ [28; 28 + 128]) keyboard_isr_handler t1 = Some (tt, t2) ∧
    tty_ok 0 t2 dev q2 sl (drop 1 waiters) ∧ (∀ x, waiters !! 0%nat = Some x → ∃ i, x ∈ q2 i) ∧
    ∀ t3 q3 sl3 l3, tty_ok 0 t3 dev q3 sl3 l3 → outside t3 = outside t2 →
      wp (tty_read_resume dev size []) t3 (λ r t4, r = inl (edit [] cs ++ [10]) ∧
        contents (queue t4) = [] ∧ conf t4 = conf t ∧ tty_ok 0 t4 dev q3 sl3 l3) ∧
      wp (tty_read dev size) t3 (λ r t4, r = inl (edit [] cs ++ [10]) ∧
        contents (queue t4) = [] ∧ conf t4 = conf t ∧ tty_ok 0 t4 dev q3 sl3 l3).
Proof.
  intros K Hc E Hk Hsh Ht Hcs Hl Hs waiters.
  destruct (wp_elim _ _ _ (wp_tty_read_blocks t dev q sl l size K E Ht ltac:(lia))) as (r & t1 & R1 & -> & O1 & q1 & K1).
  pose proof O1 as O1'. injection O1' as E1 E2 _ E4 E5 E6 _. fold waiters in K1.
  assert (kbd_at t1 dev) as Hk1 by (unfold kbd_at; by rewrite E5, E6).
  assert (wp (for_each (strokes cs ++ [28; 28 + 128]) keyboard_isr_handler) t1 (λ _ t2, conf t2 = conf t ∧
    contents (queue t2) = edit [] cs ++ [10] ∧ ∃ q2, tty_ok 0 t2 dev q2 sl (drop 1 waiters) ∧
    (∀ x, waiters !! 0%nat = Some x → ∃ i, x ∈ q2 i))) as Htype.
  { apply wp_for_each_app. eapply wp_mono; [apply (wp_strokes dev sl waiters cs t1 q1 K1); [by rewrite E1|done|congruence|done]|].
    intros [] ta ((qa & Ka) & Fa & Ga). injection Fa as A1 A2 A3 A4 A5. rewrite E2, E in Ga. cbn [for_each]. wp_step.
    eapply (wp_kbd_press ta dev 28 10); [unfold kbd_at; by rewrite A3, A4|done|done|done|done|by rewrite A2, E4, Hsh|done|].
    eapply wp_mono; [apply (wp_tty_input ta dev qa sl waiters 10 Ka); by rewrite A1, E1|].
    intros [] tb ((qb & Kb & Hw) & Fb & Gb). wp_step. apply (wp_kbd_release tb 28); [done..|]. wp_step.
    injection Fb as B1 _ _ _ _. split; [congruence|]. split; [|exists qb; split; [done|by apply Hw]].
    rewrite Gb, Ga. unfold edit_step. cbn [Z.eqb Pos.eqb orb]. pose proof (edit_length cs []) as Hle. cbn in Hle.
    by rewrite decide_False by (unfold QUEUE_SIZE in *; lia). }
  destruct (wp_elim _ _ _ Htype) as ([] & t2 & R2 & C2 & Q2 & q2 & K2 & W2).
  exists t1, t2, q1, q2. split_and!; [done|done|done|done|done|]. intros t3 q3 sl3 l3 K3 O3. injection O3 as C3 Q3 _ _ _ _ _.
  pose proof (edit_plain cs [] ltac:(eapply Forall_impl; [exact Hcs|exact typeable_plain]) (Forall_nil_2 _)) as Hp.
  assert (∀ (held : bool) t4, tty_ok (if held then 1 else 0) t4 dev q3 sl3 l3 → conf t4 = conf t3 → queue t4 = queue t3 →
    wp (tty_read_loop (S (Z.to_nat size)) dev size [] held) t4 (λ r t5, r = inl (edit [] cs ++ [10]) ∧
      contents (queue t5) = [] ∧ conf t5 = conf t ∧ tty_ok 0 t5 dev q3 sl3 l3)) as Hread.
  { intros held t4 K4 C4 Q4. eapply wp_mono; [apply (wp_tty_read_loop _ dev size (edit [] cs) [] held [] t4 q3 sl3 l3 K4);
      [by rewrite C4, C3, C2|by rewrite Q4, Q3| |cbn; lia|lia]|].
    - eapply Forall_impl; [exact Hp|]. intros x [? ?]. rewrite u8_small; [done|ulia].
    - intros r t5 (-> & K5 & G1 & G2). split_and!; [|done|congruence|done]. cbn. do 2 f_equal.
      rewrite <-(list_fmap_id (edit [] cs)) at 2. apply list_fmap_ext. intros i x Hx.
      rewrite Forall_lookup in Hp. destruct (Hp i x Hx). by rewrite u8_small by ulia. }
  split; [|by apply (Hread false)]. unfold tty_read_resume. wp_step. eapply wp_tty_resume; [exact K3|].
  intros t4 K4 O4. injection O4 as C4 Q4 _ _ _ _ _. by apply (Hread true).
Qed.

(* ------------------------------------------------------------------ *)
(** ** Witnesses *)

Definition demo_tty_sched : sched := set_cond_locks {[ TTY_LOCK := Spinlock 0 false ]} demo_waiting.
Definition demo_term : term :=
  Term (Termios 0 0 0 TTY_ICANON (replicate 32 0)) cb_empty demo_console demo_tty_sched false false
    (aput (mk_arr MAX_DEVICES 0) DEVICE_HANDLE_KEYBOARD 50) {[ 50 := Device 1 false (Some KBD_OPS) TTY_LOCK ]}.

Lemma demo_term_ok : tty_ok 0 demo_term 50 (λ _, []) [] [300].
Proof.
  split; cbn.
  - apply (inv_part demo_waiting); [reflexivity|apply demo_waiting_queue_inv].
  - exists (Spinlock 0 false). split; [|reflexivity].
    apply (waiting_ext demo_waiting _ _ _ _ _ demo_waiting_list); [reflexivity|auto].
  - exact demo_waiting_apart.
  - eexists. split; reflexivity.
  - apply demo_console_inv.
  - apply cb_empty_inv.
Qed.

(** [h], backspace, [I], [!] and return, typed while 300 and then 200 wait. *)
Lemma tty_line_roundtrip_witness : ∃ t1 t2 r4 t4,
  tty_read 50 80 demo_term = Some (inr [], t1) ∧
  for_each [35; 163; 14; 142; 42; 23; 151; 170; 42; 2; 130; 170; 28; 156] keyboard_isr_handler t1 = Some (tt, t2) ∧
  tty_read_resume 50 80 [] t2 = Some (r4, t4) ∧ r4 = inl [73; 33; 10] ∧ contents (queue t4) = [].
Proof.
  destruct (tty_line_roundtrip demo_term 50 (λ _, []) [] [300] [104; 8; 73; 33] 80 demo_term_ok eq_refl eq_refl
    ltac:(repeat split) eq_refl ltac:(by vm_compute) ltac:(repeat (constructor; [vm_compute; eexists; reflexivity|]); constructor)
    ltac:(vm_compute; reflexivity) ltac:(vm_compute; reflexivity))
    as (t1 & t2 & q1 & q2 & R1 & _ & R2 & K2 & _ & H).
  destruct (H t2 _ _ _ K2 eq_refl) as [H1 _].
  destruct (wp_elim _ _ _ H1) as (r & t4 & R4 & Er & Ec & _). exists t1, t2, r, t4.
  split; [exact R1|]. split; [exact R2|]. split; [exact R4|]. split; [exact Er|exact Ec].
Defined.
