(* ===== verification/Modules.v ===== *)
(** * Kernel modules

    [kernel/src/modules.c]: the registry of subsystems and their start in the
    order of their dependencies. A module's [init] belongs to its subsystem: a
    call of it is recorded in [started]. Names are compared as strings without
    their terminating null. The depth of the recursion in [module_load] is
    bounded by the kernel stack, so it has a fuel; running out of it is a
    fault. *)

From S2P Require Import Prelude Chain.

Inductive module_state_t := MODULE_LOADING | MODULE_LOADED.
#[global] Instance module_state_eq : EqDecision module_state_t.
Proof. solve_decision. Defined.

Record module_t := Module_ {
  mod_name : list Z;
  required_modules_names : option (list (list Z));
  mod_init : bool;
  mod_state : module_state_t;
  mod_next : Z
}.

Record registry := Registry { modules : gmap Z module_t; module_registry : Z; started : list Z }.
Definition set_modules m r := Registry m (module_registry r) (started r).
Definition set_registry p r := Registry (modules r) p (started r).
Definition set_started l r := Registry (modules r) (module_registry r) l.

Definition module_ (p : Z) : M registry module_t := deref modules p.
Definition module_set (p : Z) (f : module_t → module_t) : M registry unit := assign modules set_modules p f.
Definition with_state st m := Module_ (mod_name m) (required_modules_names m) (mod_init m) st (mod_next m).
Definition with_next n m := Module_ (mod_name m) (required_modules_names m) (mod_init m) (mod_state m) n.
Definition registry_fuel (r : registry) : nat := S (size (modules r)).

(** [statics] are the addresses of the modules of the linker section. *)
Definition modules_init_registry (statics : list Z) (dynamic_modules : Z) : M registry unit :=
  for_each statics (λ static_mod,
    h ← gets module_registry;
    module_set static_mod (with_next h) ;;
    modify (set_registry static_mod)) ;;
  h ← gets module_registry;
  if h =? 0 then modify (set_registry dynamic_modules)
  else
    n ← gets registry_fuel;
    last ← while_n n (λ last,
      m ← module_ last;
      ret (if mod_next m =? 0 then inr last else inl (mod_next m))) h;
    module_set last (with_next dynamic_modules).

Definition find_module_by_name (name : list Z) : M registry Z :=
  n ← gets registry_fuel;
  h ← gets module_registry;
  while_n n (λ p,
    if p =? 0 then ret (inr 0)
    else
      m ← module_ p;
      ret (if bool_decide (mod_name m = name) then inr p else inl (mod_next m))) h.

Fixpoint module_load (n : nat) (p : Z) : M registry unit :=
  match n with
  | O => fault
  | S n =>
      m ← module_ p;
      match mod_state m with
      | MODULE_LOADED => ret tt
      | MODULE_LOADING =>
          module_set p (with_state MODULE_LOADING) ;;
          for_each (default [] (required_modules_names m)) (λ name,
            dep ← find_module_by_name name;
            when (negb (dep =? 0)) (module_load n dep)) ;;
          when (mod_init m) (modify (λ r, set_started (started r ++ [p]) r)) ;;
          module_set p (with_state MODULE_LOADED)
      end
  end.

Definition modules_load (depth : nat) : M registry unit :=
  n ← gets registry_fuel;
  h ← gets module_registry;
  while_n n (λ p,
    if p =? 0 then ret (inr tt)
    else
      module_load depth p ;;
      m ← module_ p;
      ret (inl (mod_next m))) h.

(* ------------------------------------------------------------------ *)
(** ** The registry as a list *)

(** What never changes of a module while modules are loaded. *)
Definition fixed (m : module_t) : module_t := with_state MODULE_LOADED m.
Definition same_fixed (r r' : registry) : Prop :=
  fixed <$> modules r' = fixed <$> modules r ∧ module_registry r' = module_registry r.

Definition registered (r : registry) (l : list Z) : Prop :=
  chain mod_next (modules r) (module_registry r) l 0 ∧ NoDup l.

(** The module a name stands for: the first of the list. *)
Fixpoint named (ms : gmap Z module_t) (l : list Z) (name : list Z) : Z :=
  match l with
  | [] => 0
  | p :: l => if bool_decide (mod_name <$> ms !! p = Some name) then p else named ms l name
  end.

(** The modules that [p] needs and that are there. *)
Definition depends (r : registry) (l : list Z) (p d : Z) : Prop :=
  ∃ m name, modules r !! p = Some m ∧ name ∈ default [] (required_modules_names m) ∧ d = named (modules r) l name ∧ d ≠ 0.

Lemma fixed_lookup r r' p m :
  same_fixed r r' → modules r !! p = Some m → ∃ m', modules r' !! p = Some m' ∧ fixed m' = fixed m.
Proof.
  intros [E _] Hp. pose proof (f_equal (lookup p) E) as H. rewrite !lookup_fmap, Hp in H. cbn in H.
  apply fmap_Some in H as (m' & -> & H). eauto.
Qed.

Lemma same_fixed_sym r r' : same_fixed r r' → same_fixed r' r.
Proof. intros [? ?]. by split. Qed.

Lemma same_fixed_trans r1 r2 r3 : same_fixed r1 r2 → same_fixed r2 r3 → same_fixed r1 r3.
Proof. intros [? ?] [? ?]. split; congruence. Qed.

Lemma same_fixed_proj {A} (f : module_t → A) r r' p :
  (∀ m m', fixed m = fixed m' → f m = f m') → same_fixed r r' → f <$> modules r' !! p = f <$> modules r !! p.
Proof.
  intros Hf [E _]. pose proof (f_equal (lookup p) E) as H. rewrite !lookup_fmap in H.
  destruct (modules r' !! p) as [m'|], (modules r !! p) as [m|]; cbn in *; try done. f_equal. apply Hf. congruence.
Qed.

Lemma registered_same r r' l : same_fixed r r' → registered r l → registered r' l.
Proof.
  intros S [C N]. split; [|done]. rewrite (proj2 S). apply (chain_ext _ (modules r)); [|done]. intros p _. symmetry.
  apply (same_fixed_proj mod_next); [|done]. by intros [] [] [=].
Qed.

Lemma named_same r r' l name : same_fixed r r' → named (modules r') l name = named (modules r) l name.
Proof.
  intros S. induction l as [|p l IH]; [done|]. cbn. rewrite (same_fixed_proj mod_name r r' p); [by rewrite IH| |done].
  by intros [] [] [=].
Qed.

Lemma depends_same r r' l p d : same_fixed r r' → depends r l p d → depends r' l p d.
Proof.
  intros S (m & name & Hp & Hn & -> & Hd). destruct (fixed_lookup _ _ _ _ S Hp) as (m' & Hp' & E).
  exists m', name. rewrite (named_same r r') by done. split_and!; [done| |done|done].
  destruct m, m'; cbn in *. injection E as E1 E2 E3 E4. congruence.
Qed.

Lemma named_in ms l name : named ms l name ≠ 0 → named ms l name ∈ l.
Proof. induction l as [|p l IH]; cbn; [done|]. case_bool_decide as Hb; [by constructor|]. intros Hn. apply elem_of_cons. right. auto. Qed.

Lemma wp_find_module r l name (Q : Z → registry → Prop) :
  registered r l → Q (named (modules r) l name) r → wp (find_module_by_name name) r Q.
Proof.
  intros [C N] HQ. unfold find_module_by_name. wp_step. wp_step. wp_step. wp_step.
  pose proof (chain_size _ _ _ _ _ N C) as Hl.
  apply (wp_while_n (λ k p r', r' = r ∧ ∃ l1, l = l1 ++ drop (length l1) l ∧ k = length (drop (length l1) l) ∧
    chain mod_next (modules r) p (drop (length l1) l) 0 ∧ named (modules r) (drop (length l1) l) name = named (modules r) l name)
    _ _ _ (length l)).
  - split; [done|]. exists []. done.
  - unfold registry_fuel. lia.
  - intros k p r' (-> & l1 & El & -> & Cp & En). destruct (drop (length l1) l) as [|x l2].
    + cbn in Cp, En. rewrite Cp, Z.eqb_refl. apply wp_ret. by rewrite En.
    + destruct Cp as (-> & Hx & m & Em & Cp). rewrite (proj2 (Z.eqb_neq _ _)) by done. wp_step. eapply wp_deref; [exact Em|].
      apply wp_ret. cbn in En. rewrite Em in En. cbn in En. destruct (decide (mod_name m = name)) as [Hm|Hm].
      * rewrite bool_decide_eq_true_2 in En by congruence. rewrite bool_decide_eq_true_2 by done. by rewrite En.
      * rewrite bool_decide_eq_false_2 in En by congruence. rewrite bool_decide_eq_false_2 by done. exists (length l2). split; [cbn; lia|]. split; [done|].
        exists (l1 ++ [x]). assert (drop (length (l1 ++ [x])) l = l2) as ->.
        { rewrite El. rewrite length_app, <-drop_drop, drop_app_length. done. }
        rewrite El at 1. rewrite <-app_assoc. done.
Qed.

(* ------------------------------------------------------------------ *)
(** ** Loading *)

Definition is_loaded (r : registry) (p : Z) : Prop := mod_state <$> modules r !! p = Some MODULE_LOADED.
#[global] Instance is_loaded_dec r p : Decision (is_loaded r p) := decide (_ = _).
Definition has_init (r : registry) (p : Z) : Prop := mod_init <$> modules r !! p = Some true.

(** Between calls: exactly the loaded modules with an [init] were started, each
    once, and each after the modules it depends on. *)
Record starts (r : registry) (l : list Z) : Prop := {
  st_list : registered r l;
  st_nodup : NoDup (started r);
  st_loaded : ∀ p, p ∈ started r ↔ is_loaded r p ∧ has_init r p;
  st_order : ∀ l1 p l2, started r = l1 ++ p :: l2 → ∀ d, depends r l p d → has_init r d → d ∈ l1
}.

Section load.
Context (l : list Z) (rank : Z → nat).

Definition acyclic (r : registry) : Prop := ∀ p d, p ∈ l → depends r l p d → (rank d < rank p)%nat.

(** What loading [p] may change: the modules of at most its rank. *)
Definition loads (p : Z) (r r' : registry) : Prop :=
  same_fixed r r' ∧ starts r' l ∧ (∀ x, is_loaded r x → is_loaded r' x) ∧
  (∀ x, is_loaded r' x → is_loaded r x ∨ (rank x <= rank p)%nat).

Lemma has_init_same r r' p : same_fixed r r' → has_init r' p ↔ has_init r p.
Proof. intros S. unfold has_init. rewrite (same_fixed_proj mod_init r r'); [done| |done]. by intros [] [] [=]. Qed.

Lemma acyclic_same r r' : same_fixed r r' → acyclic r → acyclic r'.
Proof. intros S A p d Hp H. apply A; [done|]. eapply depends_same; [by apply same_fixed_sym|done]. Qed.

(** The dependencies of a module, one after the other. *)
Lemma wp_load_deps n p names r :
  (∀ d r, starts r l → acyclic r → d ∈ l → (rank d < n)%nat → wp (module_load n d) r (λ _ r', loads d r r' ∧ is_loaded r' d)) →
  starts r l → acyclic r → (rank p <= n)%nat →
  (∀ name, name ∈ names → named (modules r) l name ≠ 0 → (rank (named (modules r) l name) < rank p)%nat) →
  wp (for_each names (λ name, dep ← find_module_by_name name; when (negb (dep =? 0)) (module_load n dep))) r (λ _ r',
    same_fixed r r' ∧ starts r' l ∧ (∀ x, is_loaded r x → is_loaded r' x) ∧
    (∀ x, is_loaded r' x → is_loaded r x ∨ (rank x < rank p)%nat) ∧
    ∀ name, name ∈ names → named (modules r) l name ≠ 0 → is_loaded r' (named (modules r) l name)).
Proof.
  intros IH S A Hp Hr. apply (wp_for_each (λ pre r', same_fixed r r' ∧ starts r' l ∧ (∀ x, is_loaded r x → is_loaded r' x) ∧
    (∀ x, is_loaded r' x → is_loaded r x ∨ (rank x < rank p)%nat) ∧
    ∀ name, name ∈ pre → named (modules r) l name ≠ 0 → is_loaded r' (named (modules r) l name))).
  - split_and!; [by split|done|done|auto|by intros ? ?%not_elem_of_nil].
  - intros pre name r1 Hin (F1 & S1 & L1 & K1 & D1). wp_step. eapply wp_find_module; [apply S1|].
    rewrite (named_same r r1) by done. set (d := named (modules r) l name) in *.
    destruct (Z.eqb_spec d 0) as [E|E]; cbn [negb when].
    + wp_step. split_and!; [done..|]. intros x [Hx| ->%list_elem_of_singleton]%elem_of_app; [by apply D1|done].
    + pose proof (Hr name Hin E) as Hd. fold d in Hd.
      eapply wp_mono; [apply IH; [done|by eapply acyclic_same|by apply named_in|lia]|].
      intros [] r2 ((F2 & S2 & L2 & K2) & Hl). split_and!; [by eapply same_fixed_trans|done|auto| |].
      * intros x Hx. destruct (K2 x Hx) as [H|H]; [auto|right; lia].
      * intros x [Hx| ->%list_elem_of_singleton]%elem_of_app Hne; [auto|done].
Qed.

Lemma same_fixed_state r p m st :
  modules r !! p = Some m → same_fixed r (set_modules (<[p := with_state st m]> (modules r)) r).
Proof.
  intros E. split; [|done]. cbn. rewrite fmap_insert. apply insert_id. by rewrite lookup_fmap, E.
Qed.

(** The end of [module_load]: [init] is called and the module is loaded. *)
Lemma starts_finish r p m :
  starts r l → modules r !! p = Some m → mod_state m = MODULE_LOADING →
  (∀ d, depends r l p d → is_loaded r d) →
  starts (set_modules (<[p := with_state MODULE_LOADED m]> (modules r))
    (if mod_init m then set_started (started r ++ [p]) r else r)) l.
Proof.
  intros [[C N] Nd Hl Ho] E Hm Hd. set (r' := set_modules _ _).
  assert (same_fixed r r') as S by (unfold r'; destruct (same_fixed_state r p m MODULE_LOADED E); destruct (mod_init m); by split).
  assert (∀ x, is_loaded r' x ↔ x = p ∨ is_loaded r x) as Hl'.
  { intros x. assert (modules r' = <[p := with_state MODULE_LOADED m]> (modules r)) as Em by (unfold r'; by destruct (mod_init m)).
    unfold is_loaded. rewrite Em. destruct (decide (x = p)) as [->|Hne]; [rewrite lookup_insert_eq; split; auto|].
    rewrite lookup_insert_ne by done. naive_solver. }
  assert (¬ is_loaded r p) as Hp by (unfold is_loaded; rewrite E; cbn; congruence).
  assert (p ∉ started r) as Hps by (rewrite Hl; naive_solver).
  assert (started r' = started r ++ if mod_init m then [p] else []) as Es
    by (unfold r'; destruct (mod_init m); cbn; by rewrite ?app_nil_r).
  split; [by apply (registered_same r)|..].
  - rewrite Es. destruct (mod_init m); [|by rewrite app_nil_r]. apply NoDup_app. split_and!; [done| |apply NoDup_singleton].
    by intros x Hx ->%list_elem_of_singleton.
  - intros x. rewrite Es, elem_of_app, Hl, Hl', (has_init_same r r') by done.
    assert (x ∈ (if mod_init m then [p] else []) ↔ x = p ∧ has_init r x) as ->; [|naive_solver].
    unfold has_init. destruct (mod_init m) eqn:Ei; rewrite ?list_elem_of_singleton.
    + split; [intros ->; by rewrite E; cbn; rewrite Ei|naive_solver].
    + rewrite elem_of_nil. split; [done|]. intros [-> H]. rewrite E in H. cbn in H. congruence.
  - intros l1 x l2 Ex d Hdx Hi. apply (depends_same r' r) in Hdx; [|by apply same_fixed_sym].
    apply (has_init_same r r') in Hi; [|done]. rewrite Es in Ex. destruct (mod_init m).
    + destruct (decide (l2 = [])) as [->|Hne].
      * apply app_inj_tail in Ex as [<- <-]. apply Hl. auto.
      * destruct (exists_last Hne) as (l3 & z & ->). rewrite app_comm_cons, app_assoc in Ex.
        apply app_inj_tail in Ex as [Ex <-]. eapply Ho; eauto.
    + rewrite app_nil_r in Ex. eapply Ho; eauto.
Qed.

Lemma wp_module_load n : ∀ p r, starts r l → acyclic r → p ∈ l → (rank p < n)%nat →
  wp (module_load n p) r (λ _ r', loads p r r' ∧ is_loaded r' p).
Proof.
  induction n as [|n IH]; intros p r S A Hp Hn; [lia|]. cbn [module_load].
  destruct (chain_elem _ _ _ _ _ p (proj1 (st_list _ _ S)) Hp) as [_ [m E]]. wp_step. eapply wp_deref; [exact E|].
  destruct (mod_state m) eqn:Em.
  2:{ apply wp_ret. split; [split_and!; [by split|done|auto|auto]|]. unfold is_loaded. rewrite E. cbn. by rewrite Em. }
  wp_step. eapply wp_assign; [exact E|].
  assert (set_modules (<[p := with_state MODULE_LOADING m]> (modules r)) r = r) as ->.
  { destruct r as [ms h ss]. unfold set_modules. cbn in *. f_equal. apply insert_id. rewrite E. f_equal. destruct m; cbn in *. by subst. }
  wp_step. eapply wp_mono; [apply (wp_load_deps n p); [intros; by apply IH|done|done|lia|]|].
  { intros name Hin Hne. apply A; [done|]. by exists m, name. }
  intros [] r1 (F1 & S1 & L1 & K1 & D1). destruct (fixed_lookup _ _ _ _ F1 E) as (m1 & E1 & Ef).
  assert (mod_init m1 = mod_init m) as Ei by exact (f_equal mod_init Ef).
  assert (mod_state m1 = MODULE_LOADING) as Es.
  { destruct (mod_state m1) eqn:Es; [done|]. destruct (K1 p) as [H|H]; [unfold is_loaded; by rewrite E1; cbn; rewrite Es| |lia].
    unfold is_loaded in H. rewrite E in H. cbn in H. congruence. }
  assert (starts (set_modules (<[p := with_state MODULE_LOADED m1]> (modules r1))
    (if mod_init m1 then set_started (started r1 ++ [p]) r1 else r1)) l) as S2.
  { apply starts_finish; [done|done|done|]. intros d Hd. apply (depends_same r1 r) in Hd; [|by apply same_fixed_sym].
    destruct Hd as (m' & name & E' & Hin & -> & Hne). rewrite E in E'. injection E' as <-. by apply D1. }
  assert (∀ r2, started r2 = started r1 ++ (if mod_init m then [p] else []) → modules r2 = modules r1 →
    module_registry r2 = module_registry r1 →
    wp (module_set p (with_state MODULE_LOADED)) r2 (λ _ r', loads p r r' ∧ is_loaded r' p)) as Hend.
  { intros r2 H1 H2 H3. eapply wp_assign; [by rewrite H2|]. rewrite H2.
    set (r3 := set_modules _ r2). assert (r3 = set_modules (<[p := with_state MODULE_LOADED m1]> (modules r1))
      (if mod_init m1 then set_started (started r1 ++ [p]) r1 else r1)) as ->.
    { unfold r3, set_modules. rewrite H1, H3, Ei. by destruct (mod_init m); rewrite ?app_nil_r. }
    set (r3 := set_modules _ _) in *.
    assert (modules r3 = <[p := with_state MODULE_LOADED m1]> (modules r1)) as Em3 by (unfold r3; by destruct (mod_init m1)).
    assert (is_loaded r3 p) as Hl by (unfold is_loaded; by rewrite Em3, lookup_insert_eq).
    split; [|done]. split_and!; [|done|..].
    - eapply same_fixed_trans; [exact F1|]. destruct (same_fixed_state r1 p m1 MODULE_LOADED E1) as [G1 G2].
      split; [by rewrite Em3|]. unfold r3. by destruct (mod_init m1).
    - intros x Hx. destruct (decide (x = p)) as [->|]; [done|]. unfold is_loaded. rewrite Em3, lookup_insert_ne by done. by apply L1.
    - intros x Hx. destruct (decide (x = p)) as [->|]; [by right|]. unfold is_loaded in Hx.
      rewrite Em3, lookup_insert_ne in Hx by done. destruct (K1 x Hx) as [?|?]; [by left|right; lia]. }
  wp_step. destruct (mod_init m); cbn [when]; wp_step; apply Hend; cbn; by rewrite ?app_nil_r.
Qed.
End load.

Lemma wp_modules_load l rank depth r :
  starts r l → acyclic l rank r → (∀ p, p ∈ l → (rank p < depth)%nat) →
  wp (modules_load depth) r (λ _ r', same_fixed r r' ∧ starts r' l ∧ ∀ p, p ∈ l → is_loaded r' p).
Proof.
  intros S A Hd. pose proof (st_list _ _ S) as [C N]. pose proof (chain_size _ _ _ _ _ N C) as Hl.
  unfold modules_load. wp_step. wp_step. wp_step. wp_step.
  apply (wp_while_n (λ k p r', same_fixed r r' ∧ starts r' l ∧ ∃ l1 l2, l = l1 ++ l2 ∧ k = length l2 ∧
    chain mod_next (modules r') p l2 0 ∧ ∀ x, x ∈ l1 → is_loaded r' x) _ _ _ (length l)).
  - split_and!; [by split|done|]. exists [], l. split_and!; [done|done|done|by intros ? ?%not_elem_of_nil].
  - unfold registry_fuel. lia.
  - intros k p r1 (F1 & S1 & l1 & l2 & El & -> & Cp & L1). destruct l2 as [|x l2].
    + cbn in Cp. rewrite Cp, Z.eqb_refl. apply wp_ret. split_and!; [done|done|]. rewrite El, app_nil_r. done.
    + destruct Cp as (-> & Hx & m & Em & Cp). rewrite (proj2 (Z.eqb_neq _ _)) by done. wp_step.
      assert (x ∈ l) as Hin by (rewrite El; apply elem_of_app; right; by constructor).
      eapply wp_mono; [apply (wp_module_load l rank depth x r1 S1); [by eapply acyclic_same|done|by apply Hd]|].
      intros [] r2 ((F2 & S2 & L2 & _) & Hlx). destruct (fixed_lookup _ _ _ _ F2 Em) as (m2 & Em2 & Ef).
      wp_step. eapply wp_deref; [exact Em2|]. apply wp_ret. exists (length l2). split; [cbn; lia|].
      split_and!; [by eapply same_fixed_trans|done|]. exists (l1 ++ [x]), l2. split_and!; [by rewrite <-app_assoc|done| |].
      * rewrite (f_equal mod_next Ef : mod_next m2 = mod_next m). apply (chain_ext _ (modules r1)); [|done].
        intros y _. symmetry. apply (same_fixed_proj mod_next); [|done]. by intros [] [] [=].
      * intros y [Hy| ->%list_elem_of_singleton]%elem_of_app; auto.
Qed.

(* ------------------------------------------------------------------ *)
(** ** Runs that return

    What is loaded when a run returns is well-founded, so a run that meets a
    cycle does not return. *)

Section returns.
Context (l : list Z).

Definition grounded (r : registry) : Prop := ∃ rank : Z → nat,
  ∀ x d, is_loaded r x → depends r l x d → is_loaded r d ∧ (rank d < rank x)%nat.

Record advances (r r' : registry) : Prop := Advances {
  adv_fixed : same_fixed r r';
  adv_loaded : ∀ x, is_loaded r x → is_loaded r' x;
  adv_grounded : grounded r → grounded r' }.

Lemma advances_refl r : advances r r.
Proof. by split. Qed.

Lemma advances_trans r1 r2 r3 : advances r1 r2 → advances r2 r3 → advances r1 r3.
Proof. intros [F1 L1 G1] [F2 L2 G2]. split; [by eapply same_fixed_trans|auto|auto]. Qed.

(** The modules count, not what was started. *)
Lemma advances_modules r r' : modules r' = modules r → module_registry r' = module_registry r → advances r r'.
Proof.
  intros E1 E2. assert (∀ x, is_loaded r' x ↔ is_loaded r x) as Hl by (intros x; unfold is_loaded; by rewrite E1).
  split; [split; congruence|intros x; apply Hl|]. intros [rank G]. exists rank. intros x d Hx Hd. rewrite Hl in *.
  apply (G x d Hx). unfold depends in *. by rewrite E1 in Hd.
Qed.

(** Loading a module whose dependencies are loaded. *)
Lemma advances_load r p m :
  modules r !! p = Some m → (∀ d, depends r l p d → is_loaded r d) →
  let r' := set_modules (<[p := with_state MODULE_LOADED m]> (modules r)) r in advances r r' ∧ is_loaded r' p.
Proof.
  intros E Hd r'. pose proof (same_fixed_state r p m MODULE_LOADED E) as F. fold r' in F.
  assert (∀ x, is_loaded r' x ↔ x = p ∨ is_loaded r x) as Hl.
  { intros x. unfold is_loaded, r'. cbn [modules set_modules]. destruct (decide (x = p)) as [->|Hne].
    - rewrite lookup_insert_eq. naive_solver.
    - rewrite lookup_insert_ne by done. naive_solver. }
  split; [|apply Hl; auto]. split; [done|intros x Hx; apply Hl; auto|].
  intros [rank G]. destruct (decide (is_loaded r p)) as [Hp|Hp].
  { exists rank. intros x d Hx Hxd. apply (depends_same r' r) in Hxd; [|by apply same_fixed_sym]. rewrite Hl in *.
    destruct (G x d); [naive_solver|done|auto]. }
  exists (λ x, if decide (x = p) then S (sum_list_with (λ name, rank (named (modules r) l name)) (default [] (required_modules_names m)))
               else rank x).
  intros x d Hx Hxd. apply (depends_same r' r) in Hxd; [|by apply same_fixed_sym].
  apply Hl in Hx. rewrite Hl. destruct (decide (x = p)) as [->|Hne].
  - pose proof (Hd d Hxd) as Hdl. split; [auto|]. destruct (decide (d = p)) as [->|_]; [done|].
    destruct Hxd as (m' & name & E' & Hin & -> & _). rewrite E in E'. injection E' as <-.
    apply (sum_list_with_in _ (λ name, rank (named (modules r) l name))) in Hin. lia.
  - destruct Hx as [?|Hx]; [done|]. destruct (G x d Hx Hxd). split; [auto|]. by destruct (decide (d = p)) as [->|_].
Qed.

Lemma find_module_returns r name x r' :
  registered r l → find_module_by_name name r = Some (x, r') → x = named (modules r) l name ∧ r' = r.
Proof.
  intros L E. pose proof (wp_find_module r l name (λ x r', x = named (modules r) l name ∧ r' = r) L ltac:(done)) as H.
  unfold wp in H. by rewrite E in H.
Qed.

Lemma deps_return n names :
  (∀ p r r', registered r l → module_load n p r = Some (tt, r') → advances r r' ∧ is_loaded r' p) →
  ∀ r r', registered r l →
  for_each names (λ name, dep ← find_module_by_name name; when (negb (dep =? 0)) (module_load n dep)) r = Some (tt, r') →
  advances r r' ∧ ∀ name, name ∈ names → named (modules r) l name ≠ 0 → is_loaded r' (named (modules r) l name).
Proof.
  intros IH. induction names as [|name names IHn]; intros r r' L E; cbn [for_each] in E.
  { injection E as <-. split; [apply advances_refl|by intros ? ?%not_elem_of_nil]. }
  apply bind_inv in E as ([] & r1 & (x & r2 & E0 & E1)%bind_inv & E2). apply find_module_returns in E0 as [-> ->]; [|done].
  assert (advances r r1 ∧ (named (modules r) l name ≠ 0 → is_loaded r1 (named (modules r) l name))) as [A1 L1].
  { destruct (Z.eqb_spec (named (modules r) l name) 0) as [E0|E0]; cbn [negb when] in E1.
    - injection E1 as <-. split; [apply advances_refl|done].
    - apply IH in E1 as [??]; [|done]. done. }
  apply IHn in E2 as [A2 L2]; [|by apply (registered_same r), L; apply A1].
  split; [by eapply advances_trans|]. intros x [->|Hx]%elem_of_cons Hne; [by apply (adv_loaded _ _ A2), L1|].
  pose proof (named_same r r1 l x (adv_fixed _ _ A1)) as En. rewrite <-En in *. by apply L2.
Qed.

Lemma module_load_returns n : ∀ p r r',
  registered r l → module_load n p r = Some (tt, r') → advances r r' ∧ is_loaded r' p.
Proof.
  induction n as [|n IH]; intros p r r' L E; [done|]. cbn [module_load] in E.
  apply bind_inv in E as (m & r0 & E0 & E). unfold module_, deref in E0. destruct (modules r !! p) as [m'|] eqn:Ep; [|done].
  injection E0 as -> <-. destruct (mod_state m) eqn:Em.
  2:{ injection E as <-. split; [apply advances_refl|]. unfold is_loaded. rewrite Ep. cbn. by rewrite Em. }
  apply bind_inv in E as ([] & r0 & E0 & E). unfold module_set, assign in E0. rewrite Ep in E0. injection E0 as E0.
  assert (r0 = r) as ->.
  { subst r0. destruct r as [ms h ss]. unfold set_modules. cbn in *. f_equal. apply insert_id. rewrite Ep. f_equal. destruct m; cbn in *. by subst. }
  apply bind_inv in E as ([] & r1 & E1 & E). apply (deps_return n) in E1 as [A1 D1]; [|done|done].
  apply bind_inv in E as ([] & r2 & E2 & E). unfold module_set, assign in E.
  assert (modules r2 = modules r1 ∧ module_registry r2 = module_registry r1) as [H1 H2]
    by (destruct (mod_init m); cbn in E2; injection E2 as <-; done).
  pose proof (advances_trans _ _ _ A1 (advances_modules _ _ H1 H2)) as A2. pose proof (adv_fixed _ _ A2) as F2.
  destruct (fixed_lookup _ _ _ _ F2 Ep) as (m2 & Ep2 & _). rewrite Ep2 in E. injection E as <-.
  destruct (advances_load r2 p m2 Ep2) as [A3 Hl].
  - intros d Hd. apply (depends_same r2 r) in Hd; [|by apply same_fixed_sym]. destruct Hd as (m' & name & E' & Hin & -> & Hne).
    rewrite Ep in E'. injection E' as <-. unfold is_loaded. rewrite H1. by apply D1.
  - split; [by eapply advances_trans|done].
Qed.

Lemma modules_load_returns n depth : ∀ h r r' rest,
  registered r l → chain mod_next (modules r) h rest 0 →
  while_n n (λ p,
    if p =? 0 then ret (inr tt) else module_load depth p ;; m ← module_ p; ret (inl (mod_next m))) h r = Some (tt, r') →
  advances r r' ∧ ∀ p, p ∈ rest → is_loaded r' p.
Proof.
  induction n as [|n IH]; intros h r r' rest L C E; [done|]. cbn [while_n] in E. apply bind_inv in E as (x & r1 & E1 & E2).
  destruct rest as [|p rest].
  { cbn in C. rewrite C, Z.eqb_refl in E1. injection E1 as <- <-. injection E2 as <-. split; [apply advances_refl|by intros ? ?%not_elem_of_nil]. }
  destruct C as (-> & Hp & m & Em & C). rewrite (proj2 (Z.eqb_neq _ _)) in E1 by done.
  apply bind_inv in E1 as ([] & r2 & E0 & E1). apply module_load_returns in E0 as [A1 Hl]; [|done].
  pose proof (adv_fixed _ _ A1) as F1. destruct (fixed_lookup _ _ _ _ F1 Em) as (m2 & Em2 & Ef).
  unfold module_, deref, bind in E1. rewrite Em2 in E1. injection E1 as <- <-.
  apply (IH _ _ _ rest) in E2 as [A2 L2].
  - split; [by eapply advances_trans|]. intros x [->|Hx]%elem_of_cons; [by apply (adv_loaded _ _ A2)|by apply L2].
  - by apply (registered_same r).
  - rewrite (f_equal mod_next Ef : mod_next m2 = mod_next m). apply (chain_ext _ (modules r)); [|done].
    intros y _. symmetry. apply (same_fixed_proj mod_next); [|done]. by intros [] [] [=].
Qed.

(** A loaded module of a grounded registry leads to no cycle. *)
Lemma grounded_acyclic r p q : grounded r → is_loaded r p → rtc (depends r l) p q → ¬ tc (depends r l) q q.
Proof.
  intros [rank G] Hp Hpq. assert (is_loaded r q) as Hq.
  { revert Hp. induction Hpq as [|x y z Hxy _ IH]; [done|]. intros Hx. by apply IH, (G x y). }
  assert (∀ x y, tc (depends r l) x y → is_loaded r x → (rank y < rank x)%nat) as H.
  { intros x y. induction 1 as [x y Hxy|x y z Hxy _ IH]; intros Hx; destruct (G x y Hx Hxy); [done|]. specialize (IH ltac:(done)). lia. }
  intros Hc. specialize (H q q Hc Hq). lia.
Qed.

Lemma depends_rtc r r' p q : same_fixed r r' → rtc (depends r l) p q → rtc (depends r' l) p q.
Proof. intros S. apply (rtc_congruence id). intros x y. by apply depends_same. Qed.
Lemma depends_tc r r' p q : same_fixed r r' → tc (depends r l) p q → tc (depends r' l) p q.
Proof. intros S. apply (tc_congruence id). intros x y. by apply depends_same. Qed.
End returns.

(** C25: starting the kernel's modules. When no module depends on itself, even
    through others, every registered module is loaded; each [init] is called
    once, and after the [init] of every module it depends on. A module from
    which any dependency cycle can be reached is never loaded, whatever the
    size of the stack: the state that would tell is set and never looked at,
    so the recursion does not end, and the start of all modules does not
    either. *)
Theorem modules_load_order r l :
  registered r l → started r = [] → (∀ p, ¬ is_loaded r p) →
  (∀ rank depth, acyclic l rank r → (∀ p, p ∈ l → (rank p < depth)%nat) →
    ∃ r', modules_load depth r = Some (tt, r') ∧ (∀ p, p ∈ l → is_loaded r' p) ∧ NoDup (started r') ∧
      (∀ p, p ∈ l → p ∈ started r' ↔ has_init r p) ∧
      ∀ l1 p l2 d, started r' = l1 ++ p :: l2 → depends r l p d → has_init r d → d ∈ l1) ∧
  (∀ p q depth, p ∈ l → rtc (depends r l) p q → tc (depends r l) q q →
    module_load depth p r = None ∧ modules_load depth r = None).
Proof.
  intros L Hs Hn. split.
  - intros rank depth A Hd.
    assert (starts r l) as S.
    { split; [done|rewrite Hs; constructor|intros p; rewrite Hs, elem_of_nil; naive_solver|].
      intros l1 p l2 E. rewrite Hs in E. by destruct l1. }
    destruct (wp_elim _ _ _ (wp_modules_load l rank depth r S A Hd)) as ([] & r' & E & F & S' & Hl).
    exists r'. split_and!; [done|done|apply S'|..].
    + intros p Hp. rewrite (st_loaded _ _ S'), (has_init_same r r') by done. naive_solver.
    + intros l1 p l2 d El Hdep Hi. eapply (st_order _ _ S'); [exact El|by eapply depends_same|by apply (has_init_same r r')].
  - intros p q depth Hp Hpq Hq. assert (grounded l r) as G by (exists (λ _, 0%nat); intros x d Hx; by destruct (Hn x)).
    assert (∀ r', advances l r r' → is_loaded r' p → False) as Hno.
    { intros r' [F _ G'] Hl. apply (grounded_acyclic l r' p q); [by apply G'|done|by eapply depends_rtc|by eapply depends_tc]. }
    split.
    + destruct (module_load depth p r) as [[[] r']|] eqn:E; [|done]. apply (module_load_returns l) in E as [A Hl]; [|done]. by destruct (Hno r').
    + destruct (modules_load depth r) as [[[] r']|] eqn:E; [|done]. unfold modules_load in E. unfold gets, bind at 1 2 in E.
      apply (modules_load_returns l _ _ _ _ _ l) in E as [A Hl]; [|done|apply L]. destruct (Hno r' A (Hl p Hp)).
Qed.

(* ------------------------------------------------------------------ *)
(** ** Witnesses *)

(** [hal], [vga] and [tty], which needs the others and an absent one. *)
Definition demo_registry : registry := Registry
  (<[10 := Module_ [1] None true MODULE_LOADING 20]>
   (<[20 := Module_ [2] (Some [[3]; [1]; [9]]) true MODULE_LOADING 30]>
   (<[30 := Module_ [3] (Some [[1]]) true MODULE_LOADING 0]> ∅))) 10 [].
(** A module that needs one it can do without, then one of a cycle. *)
Definition demo_cycle : registry := Registry
  (<[10 := Module_ [1] (Some [[4]; [2]]) true MODULE_LOADING 20]>
   (<[20 := Module_ [2] (Some [[3]]) true MODULE_LOADING 30]>
   (<[30 := Module_ [3] (Some [[4]; [2]]) true MODULE_LOADING 40]>
   (<[40 := Module_ [4] None true MODULE_LOADING 0]> ∅)))) 10 [].
Definition demo_rank (p : Z) : nat := if p =? 20 then 2 else if p =? 30 then 1 else 0.

Lemma demo_registered : registered demo_registry [10; 20; 30].
Proof.
  split; [|repeat constructor; set_solver].
  split; [reflexivity|]. split; [discriminate|]. eexists. split; [reflexivity|]. cbn.
  split; [reflexivity|]. split; [discriminate|]. eexists. split; [reflexivity|]. cbn.
  split; [reflexivity|]. split; [discriminate|]. eexists. split; reflexivity.
Qed.

Lemma demo_loading r : map_Forall (λ _ m, mod_state m = MODULE_LOADING) (modules r) → ∀ p, ¬ is_loaded r p.
Proof.
  intros H p Hp. unfold is_loaded in Hp. apply fmap_Some in Hp as (m & E & Em). pose proof (H p m E) as H1. cbn in H1. congruence.
Qed.

Lemma modules_load_order_witness : ∃ r',
  modules_load 3 demo_registry = Some (tt, r') ∧ started r' = [10; 30; 20] ∧ NoDup (started r') ∧
  ∀ depth, modules_load depth demo_cycle = None.
Proof.
  destruct (modules_load_order demo_registry [10; 20; 30] demo_registered eq_refl
    ltac:(apply demo_loading; repeat (apply map_Forall_insert_2; [reflexivity|]); apply map_Forall_empty)) as [H _].
  destruct (H demo_rank 3%nat) as (r' & E & _ & Nd & _).
  - intros p d _ (m & name & Ep & Hin & -> & Hd). unfold demo_registry in Ep. cbn [modules] in Ep.
    apply lookup_insert_Some in Ep as [[<- <-]|[_ Ep]]; [by apply not_elem_of_nil in Hin|].
    apply lookup_insert_Some in Ep as [[<- <-]|[_ Ep]].
    { cbn in Hin. repeat (apply elem_of_cons in Hin as [->|Hin]; [vm_compute in Hd |- *; lia || congruence|]).
      by apply not_elem_of_nil in Hin. }
    apply lookup_insert_Some in Ep as [[<- <-]|[_ Ep]]; [|done].
    cbn in Hin. apply list_elem_of_singleton in Hin as ->. vm_compute. lia.
  - intros p Hp. repeat (apply elem_of_cons in Hp as [->|Hp]; [vm_compute; lia|]). by apply not_elem_of_nil in Hp.
  - assert (started <$> (snd <$> modules_load 3 demo_registry) = Some [10; 30; 20]) as Es by (vm_compute; reflexivity).
    rewrite E in Es. cbn in Es. injection Es as Es. exists r'. split; [exact E|]. split; [exact Es|]. split; [exact Nd|].
    destruct (modules_load_order demo_cycle [10; 20; 30; 40]) as [_ Hc].
    + split; [|repeat constructor; set_solver].
      split; [reflexivity|]. split; [discriminate|]. eexists. split; [reflexivity|]. cbn.
      split; [reflexivity|]. split; [discriminate|]. eexists. split; [reflexivity|]. cbn.
      split; [reflexivity|]. split; [discriminate|]. eexists. split; [reflexivity|]. cbn.
      split; [reflexivity|]. split; [discriminate|]. eexists. split; reflexivity.
    + reflexivity.
    + apply demo_loading. repeat (apply map_Forall_insert_2; [reflexivity|]). apply map_Forall_empty.
    + assert (∀ p m name, modules demo_cycle !! p = Some m → name ∈ default [] (required_modules_names m) →
        named (modules demo_cycle) [10; 20; 30; 40] name ≠ 0 →
        depends demo_cycle [10; 20; 30; 40] p (named (modules demo_cycle) [10; 20; 30; 40] name)) as Hdep
        by (intros p m name H1 H2 H3; by exists m, name).
      intros depth. apply (Hc 10 20 depth); [by constructor|..].
      * apply rtc_once. apply (Hdep 10 _ [2] ltac:(reflexivity)); [cbn; set_solver|by vm_compute].
      * apply (tc_l _ _ 30); [|apply tc_once].
        -- apply (Hdep 20 _ [3] ltac:(reflexivity)); [cbn; set_solver|by vm_compute].
        -- apply (Hdep 30 _ [2] ltac:(reflexivity)); [cbn; set_solver|by vm_compute].
Defined.
