(* ===== verification/Ata.v ===== *)
(** * The ATA disk driver

    [kernel/src/drivers/block/ata.c]: reading and writing sectors by programmed
    input and output. The drive is not code: it is a parameter, with the
    behaviour its standard documents as the laws of a class. A failed transfer
    returns [None] or [false], as in the block-device interface of [Disk], whose
    contract the driver is shown to keep. *)

From S2P Require Import Prelude Buf Disk.

Definition ATA_CMD_READ_SECTORS : Z := 32.
Definition ATA_CMD_WRITE_SECTORS : Z := 48.
Definition ATA_CMD_CACHE_FLUSH : Z := 231.
Definition ATA_STATUS_ERR : Z := 1.
Definition ATA_STATUS_DRQ : Z := 8.
Definition ATA_STATUS_RDY : Z := 64.
Definition ATA_STATUS_BSY : Z := 128.
Definition ATA_PRIMARY_DATA : Z := 496.
Definition ATA_PRIMARY_SECCOUNT : Z := 498.
Definition ATA_PRIMARY_LBA_LO : Z := 499.
Definition ATA_PRIMARY_LBA_MID : Z := 500.
Definition ATA_PRIMARY_LBA_HI : Z := 501.
Definition ATA_PRIMARY_DRIVE_HEAD : Z := 502.
Definition ATA_PRIMARY_STATUS : Z := 503.
Definition ATA_PRIMARY_COMMAND : Z := 503.

(* ------------------------------------------------------------------ *)
(** ** The drive *)

(** [x & flag] as a condition. *)
Definition flag_set (x flag : Z) : bool := negb (Z.land x flag =? 0).

(** The 16-bit word at byte [o], and the words of a sector. *)
Definition word_at (b : buf) (o : Z) : Z := le_val (take 2 (drop (Z.to_nat o) b)).
Definition words (b : buf) : list Z := (λ j, word_at b (2 * j)) <$> seqZ 0 256.
Definition bytes_of (ws : list Z) : buf := concat (le_of 2 <$> ws).

(** Between commands, or in a transfer of [n] more sectors, the first of them
    [lba]: the words of it that are still to come, or that came. *)
Inductive phase := Idle | Reading (lba n : Z) (left_ : list Z) | Writing (lba n : Z) (got : list Z).

Record ata_view := View { av_regs : Z → Z; av_phase : phase; av_sector : Z → buf }.

(** The sector number and count in the registers; a count of 0 is 256. *)
Definition reg_lba (r : Z → Z) : Z :=
  (r ATA_PRIMARY_DRIVE_HEAD mod 16) * 16777216 + r ATA_PRIMARY_LBA_HI * 65536 +
  r ATA_PRIMARY_LBA_MID * 256 + r ATA_PRIMARY_LBA_LO.
Definition reg_count (r : Z → Z) : Z := if r ATA_PRIMARY_SECCOUNT =? 0 then 256 else r ATA_PRIMARY_SECCOUNT.
Definition is_reg (p : Z) : Prop := ATA_PRIMARY_SECCOUNT <= p <= ATA_PRIMARY_DRIVE_HEAD.

(** What the status register shows [delay] reads before the drive is done. *)
Definition shows_status (ph : phase) (delay s : Z) : Prop :=
  if delay =? 0 then flag_set s ATA_STATUS_BSY = false ∧
    match ph with Idle => flag_set s ATA_STATUS_RDY = true | _ => flag_set s ATA_STATUS_DRQ = true end
  else flag_set s ATA_STATUS_BSY = true.

Class AtaDrive (D : Type) := {
  port_in8 : Z → D → Z * D;
  port_in16 : Z → D → Z * D;
  port_out8 : Z → Z → D → D;
  port_out16 : Z → Z → D → D;
  ad_view : D → ata_view;
  ad_size : D → Z;
  (** After how many reads of the status the drive is no longer busy. *)
  ad_delay : D → Z;
  (** Whether sectors that were written are only in the cache of the drive. *)
  ad_cached : D → bool;
  ad_delay_bound d : 0 <= ad_delay d < 1000000;
  ad_size_bound d : 0 <= ad_size d <= 268435456;
  ad_sector_ok d i : blen (av_sector (ad_view d) i) = 512 ∧ bytes_ok (av_sector (ad_view d) i);
  ad_status d : let '(s, d') := port_in8 ATA_PRIMARY_STATUS d in
    ad_view d' = ad_view d ∧ ad_size d' = ad_size d ∧ ad_delay d' = Z.max 0 (ad_delay d - 1) ∧
    (ad_cached d = false → ad_cached d' = false) ∧ shows_status (av_phase (ad_view d)) (ad_delay d) s;
  (** The registers may be written, and a command given, only to a drive that
      is not busy. *)
  ad_reg d p v : is_reg p → av_phase (ad_view d) = Idle → ad_delay d = 0 →
    ad_view (port_out8 p v d) = View (<[p := v]> (av_regs (ad_view d))) Idle (av_sector (ad_view d)) ∧
    ad_size (port_out8 p v d) = ad_size d ∧ ad_delay (port_out8 p v d) = 0;
  ad_command d c : av_phase (ad_view d) = Idle → ad_delay d = 0 →
    let r := av_regs (ad_view d) in
    let d' := port_out8 ATA_PRIMARY_COMMAND c d in
    ad_size d' = ad_size d ∧
    (c = ATA_CMD_READ_SECTORS → reg_lba r + reg_count r <= ad_size d →
     ad_view d' = View r (Reading (reg_lba r) (reg_count r) (words (av_sector (ad_view d) (reg_lba r)))) (av_sector (ad_view d))) ∧
    (c = ATA_CMD_WRITE_SECTORS → reg_lba r + reg_count r <= ad_size d →
     ad_view d' = View r (Writing (reg_lba r) (reg_count r) []) (av_sector (ad_view d))) ∧
    (c = ATA_CMD_CACHE_FLUSH → ad_view d' = ad_view d ∧ ad_cached d' = false);
  ad_data_in d lba n x xs : av_phase (ad_view d) = Reading lba n (x :: xs) → ad_delay d = 0 →
    let '(v, d') := port_in16 ATA_PRIMARY_DATA d in
    v = x ∧ ad_size d' = ad_size d ∧
    ad_view d' = View (av_regs (ad_view d))
      (match xs with
       | _ :: _ => Reading lba n xs
       | [] => if n =? 1 then Idle else Reading (lba + 1) (n - 1) (words (av_sector (ad_view d) (lba + 1)))
       end) (av_sector (ad_view d)) ∧
    (xs ≠ [] → ad_delay d' = 0);
  ad_data_out d lba n got v : av_phase (ad_view d) = Writing lba n got → ad_delay d = 0 → is_u16 v →
    let d' := port_out16 ATA_PRIMARY_DATA v d in
    ad_size d' = ad_size d ∧
    if decide (length got = 255%nat) then
      ad_view d' = View (av_regs (ad_view d)) (if n =? 1 then Idle else Writing (lba + 1) (n - 1) [])
        (<[lba := bytes_of (got ++ [v])]> (av_sector (ad_view d)))
    else ad_view d' = View (av_regs (ad_view d)) (Writing lba n (got ++ [v])) (av_sector (ad_view d)) ∧ ad_delay d' = 0
}.

(* ------------------------------------------------------------------ *)
(** ** The driver *)

Section driver.
Context {D : Type} {AD : AtaDrive D}.

Definition hal_in8 (p : Z) : M D Z := λ d, Some (port_in8 p d).
Definition hal_in16 (p : Z) : M D Z := λ d, Some (port_in16 p d).
Definition hal_out8 (p v : Z) : M D unit := λ d, Some (tt, port_out8 p (u8 v) d).
Definition hal_out16 (p v : Z) : M D unit := λ d, Some (tt, port_out16 p (u16 v) d).

Definition ata_delay_400ns : M D unit := for_range 0 4 (λ _, hal_in8 ATA_PRIMARY_STATUS ;; ret tt).

Definition ATA_TIMEOUT : Z := 1000000.

Definition ata_wait_not_busy : M D Z :=
  r ← scan_range 0 ATA_TIMEOUT (λ _,
        status ← hal_in8 ATA_PRIMARY_STATUS;
        ret (if negb (flag_set status ATA_STATUS_BSY) then Some tt else None));
  ret (match r with Some _ => 0 | None => -1 end).

Definition ata_wait_ready : M D Z :=
  b ← ata_wait_not_busy;
  if negb (b =? 0) then ret (-1)
  else
    r ← scan_range 0 ATA_TIMEOUT (λ _,
          status ← hal_in8 ATA_PRIMARY_STATUS;
          ret (if flag_set status ATA_STATUS_RDY then Some tt else None));
    ret (match r with Some _ => 0 | None => -1 end).

Definition ata_wait_drq : M D Z :=
  b ← ata_wait_not_busy;
  if negb (b =? 0) then ret (-1)
  else
    r ← scan_range 0 ATA_TIMEOUT (λ _,
          status ← hal_in8 ATA_PRIMARY_STATUS;
          ret (if flag_set status ATA_STATUS_DRQ then Some 0
               else if flag_set status ATA_STATUS_ERR then Some (-2) else None));
    ret (default (-1) r).

(** The common beginning: the address goes to the registers. *)
Definition ata_setup (lba count command : Z) : M D unit :=
  hal_out8 ATA_PRIMARY_DRIVE_HEAD (Z.lor 224 (Z.land (Z.shiftr lba 24) 15)) ;;
  ata_delay_400ns ;;
  hal_out8 ATA_PRIMARY_SECCOUNT count ;;
  hal_out8 ATA_PRIMARY_LBA_LO (Z.land lba 255) ;;
  hal_out8 ATA_PRIMARY_LBA_MID (Z.land (Z.shiftr lba 8) 255) ;;
  hal_out8 ATA_PRIMARY_LBA_HI (Z.land (Z.shiftr lba 16) 255) ;;
  hal_out8 ATA_PRIMARY_COMMAND command.

(** The inner loop of a read. *)
Fixpoint read_words (n : nat) : M D buf :=
  match n with
  | O => ret []
  | S n => w ← hal_in16 ATA_PRIMARY_DATA; rest ← read_words n; ret (le_of 2 w ++ rest)
  end.

(** The outer loop of a read, with the sectors read so far. *)
Fixpoint read_loop (n : nat) (out : buf) : M D (option buf) :=
  match n with
  | O => ret (Some out)
  | S n =>
      r ← ata_wait_drq;
      if negb (r =? 0) then ret None
      else
        b ← read_words 256;
        ata_delay_400ns ;;
        read_loop n (out ++ b)
  end.

Definition ata_read_sector (lba count : Z) : M D (option buf) :=
  if (count =? 0) || (256 <? count) then ret None
  else
    r ← ata_wait_ready;
    if negb (r =? 0) then ret None
    else
      ata_setup lba count ATA_CMD_READ_SECTORS ;;
      read_loop (Z.to_nat count) [].

Definition ata_write_sector (lba count : Z) (buffer : buf) : M D bool :=
  if (count =? 0) || (256 <? count) then ret false
  else
    r ← ata_wait_ready;
    if negb (r =? 0) then ret false
    else
      ata_setup lba count ATA_CMD_WRITE_SECTORS ;;
      r ← scan_range 0 count (λ i,
            r ← ata_wait_drq;
            if negb (r =? 0) then ret (Some tt)
            else
              for_range 0 256 (λ j,
                v ← peek (b16 (i * SECTOR_SIZE + 2 * j)) buffer;
                hal_out16 ATA_PRIMARY_DATA v) ;;
              ata_delay_400ns ;;
              ret None);
      match r with
      | Some _ => ret false
      | None =>
          hal_out8 ATA_PRIMARY_COMMAND ATA_CMD_CACHE_FLUSH ;;
          _ ← ata_wait_not_busy;
          ret true
      end.

(* ------------------------------------------------------------------ *)
(** ** Waiting for the drive *)

Implicit Types d : D.

(** Same view and size, and not busier than before. *)
Record calm d d' : Prop := Calm {
  ca_view : ad_view d' = ad_view d;
  ca_size : ad_size d' = ad_size d;
  ca_delay : ad_delay d' <= ad_delay d;
  ca_cached : ad_cached d = false → ad_cached d' = false }.

Lemma calm_refl d : calm d d.
Proof. done. Qed.

Lemma calm_trans d1 d2 d3 : calm d1 d2 → calm d2 d3 → calm d1 d3.
Proof. intros [V1 S1 D1 C1] [V2 S2 D2 C2]. split; [congruence|congruence|lia|auto]. Qed.

Lemma calm_idle d d' : calm d d' → ad_delay d = 0 → ad_delay d' = 0.
Proof. intros C Hd. pose proof (ca_delay _ _ C). pose proof (ad_delay_bound d'). lia. Qed.

Lemma wp_ata_status d (Q : Z → D → Prop) :
  (∀ s d', calm d d' → ad_delay d' = Z.max 0 (ad_delay d - 1) → shows_status (av_phase (ad_view d)) (ad_delay d) s → Q s d') →
  wp (hal_in8 ATA_PRIMARY_STATUS) d Q.
Proof.
  intros HQ. unfold wp, hal_in8. pose proof (ad_status d) as H. destruct (port_in8 ATA_PRIMARY_STATUS d) as [s d'].
  destruct H as (H1 & H2 & H3 & H4 & H5). apply HQ; [|done|done]. pose proof (ad_delay_bound d). split; [done|done|lia|done].
Qed.

(** The four reads of the status are also four chances of the drive. *)
Lemma wp_delay d : wp ata_delay_400ns d (λ _ d', calm d d' ∧ ad_delay d' = Z.max 0 (ad_delay d - 4)).
Proof.
  pose proof (ad_delay_bound d). apply (wp_for_range (λ j d', calm d d' ∧ ad_delay d' = Z.max 0 (ad_delay d - j))).
  - split; [apply calm_refl|lia].
  - intros j d1 _ [C Hd]. wp_step. apply wp_ata_status. intros s d2 C2 Hd2 _. wp_step. split; [by eapply calm_trans|lia].
Qed.

Lemma wp_not_busy d : wp ata_wait_not_busy d (λ r d', r = 0 ∧ calm d d' ∧ ad_delay d' = 0).
Proof.
  unfold ata_wait_not_busy. wp_step. pose proof (ad_delay_bound d) as Hb.
  apply (wp_scan_range (λ j d', calm d d' ∧ ad_delay d' = ad_delay d - j ∧ j <= ad_delay d)).
  - split_and!; [done|lia|lia].
  - intros j d1 Hj (C & Hd & Hle). wp_step. apply wp_ata_status. intros s d2 C2 Hd2 Hs. wp_step. unfold shows_status in Hs.
    destruct (Z.eqb_spec (ad_delay d1) 0) as [E|E].
    + destruct Hs as [-> _]. cbn [negb]. apply wp_ret. split_and!; [done|by eapply calm_trans|lia].
    + rewrite Hs. cbn [negb]. split_and!; [by eapply calm_trans|lia|lia].
  - intros d1 (_ & _ & Hle). unfold ATA_TIMEOUT in Hle. lia.
Qed.

(** The first look at a drive that is not busy finds the flag. *)
Lemma wp_scan_first {A} d (body : Z → M D (option A)) (a : A) (Q : option A → D → Prop) :
  wp (body 0) d (λ r d', r = Some a ∧ Q (Some a) d') → wp (scan_range 0 ATA_TIMEOUT body) d Q.
Proof.
  intros H. unfold scan_range, ATA_TIMEOUT. destruct (Z.to_nat (1000000 - 0)) as [|n] eqn:E; [lia|]. cbn [scan_n].
  wp_step. eapply wp_mono; [exact H|]. intros r d' [-> HQ]. by apply wp_ret.
Qed.

Lemma wp_wait_ready d :
  av_phase (ad_view d) = Idle → wp ata_wait_ready d (λ r d', r = 0 ∧ calm d d' ∧ ad_delay d' = 0).
Proof.
  intros Hp. unfold ata_wait_ready. wp_step. eapply wp_mono; [apply wp_not_busy|]. intros r d1 (-> & C & Hd).
  change (0 =? 0) with true. cbn [negb]. wp_step. apply (wp_scan_first _ _ tt). wp_step. apply wp_ata_status. intros s d2 C2 Hd2 Hs. wp_step.
  unfold shows_status in Hs. rewrite Hd, (ca_view _ _ C), Hp in Hs. destruct Hs as [_ ->]. split; [done|]. apply wp_ret.
  split_and!; [done|by eapply calm_trans|lia].
Qed.

Lemma wp_wait_drq d :
  av_phase (ad_view d) ≠ Idle → wp ata_wait_drq d (λ r d', r = 0 ∧ calm d d' ∧ ad_delay d' = 0).
Proof.
  intros Hp. unfold ata_wait_drq. wp_step. eapply wp_mono; [apply wp_not_busy|]. intros r d1 (-> & C & Hd).
  change (0 =? 0) with true. cbn [negb]. wp_step. apply (wp_scan_first _ _ 0). wp_step. apply wp_ata_status. intros s d2 C2 Hd2 Hs. wp_step.
  unfold shows_status in Hs. rewrite Hd, (ca_view _ _ C) in Hs. change (0 =? 0) with true in Hs. cbn iota in Hs.
  destruct Hs as [_ Hs]. assert (flag_set s ATA_STATUS_DRQ = true) as -> by (by destruct (av_phase (ad_view d))).
  split; [done|]. apply wp_ret. split_and!; [done|by eapply calm_trans|lia].
Qed.

(* ------------------------------------------------------------------ *)
(** ** Addressing *)

(** The driver sends 28 bits of the sector number. *)
Definition lba28 (lba : Z) : Z := lba mod 268435456.

Lemma wp_ata_setup d lba count command :
  av_phase (ad_view d) = Idle → ad_delay d = 0 → is_u32 lba → 0 < count <= 256 →
  wp (ata_setup lba count command) d (λ _ d', ∃ d1 r, d' = port_out8 ATA_PRIMARY_COMMAND (u8 command) d1 ∧ ad_delay d1 = 0 ∧
    ad_view d1 = View r Idle (av_sector (ad_view d)) ∧ ad_size d1 = ad_size d ∧
    reg_lba r = lba28 lba ∧ reg_count r = count).
Proof.
  intros Hp Hd Hl Hc. unfold ata_setup.
  assert (∀ p v d (Q : unit → D → Prop), is_reg p → av_phase (ad_view d) = Idle → ad_delay d = 0 →
    (∀ d', ad_view d' = View (<[p := u8 v]> (av_regs (ad_view d))) Idle (av_sector (ad_view d)) → ad_size d' = ad_size d →
       ad_delay d' = 0 → Q tt d') →
    wp (hal_out8 p v) d Q) as Hout.
  { intros p v d0 Q Hr Hp0 Hd0 HQ. destruct (ad_reg d0 p (u8 v) Hr Hp0 Hd0) as (H1 & H2 & H3). unfold wp, hal_out8. by apply HQ. }
  wp_step. apply Hout; [done|done|done|]. intros d1 V1 S1 D1.
  wp_step. eapply wp_mono; [apply wp_delay|]. intros [] d2 [[V2 S2 _ _] D2]. rewrite V1 in V2.
  wp_step. apply Hout; [done|by rewrite V2|lia|]. intros d3 V3 S3 D3. rewrite V2 in V3. cbn in V3.
  wp_step. apply Hout; [done|by rewrite V3|done|]. intros d4 V4 S4 D4. rewrite V3 in V4. cbn in V4.
  wp_step. apply Hout; [done|by rewrite V4|done|]. intros d5 V5 S5 D5. rewrite V4 in V5. cbn in V5.
  wp_step. apply Hout; [done|by rewrite V5|done|]. intros d6 V6 S6 D6. rewrite V5 in V6. cbn in V6.
  unfold wp, hal_out8. exists d6. eexists. split; [done|]. split; [done|]. split; [exact V6|]. split; [congruence|].
  unfold reg_lba, reg_count. repeat (rewrite fn_lookup_insert || rewrite fn_lookup_insert_ne by done).
  split.
  - assert (∀ x, Z.land x 255 = x mod 256) as E255 by (intros; apply (Z.land_ones x 8); lia).
    assert (∀ x, Z.land x 15 = x mod 16) as E15 by (intros; apply (Z.land_ones x 4); lia).
    rewrite !E255, E15, !Z.shiftr_div_pow2 by lia. 
    assert (u8 (Z.lor 224 (lba / 2 ^ 24 mod 16)) mod 16 = lba / 2 ^ 24 mod 16) as ->.
    { unfold u8. rewrite <-E15, <-(Z.land_ones _ 8) by lia. change (Z.ones 8) with 255. rewrite <-Z.land_assoc.
      change (Z.land 255 15) with 15. rewrite Z.land_lor_distr_l. change (Z.land 224 15) with 0. rewrite Z.lor_0_l, E15. lia. }
    unfold lba28, u8, is_u32 in *. change (2 ^ 24) with 16777216. change (2 ^ 8) with 256. change (2 ^ 16) with 65536. lia.
  - unfold u8. destruct (Z.eqb_spec (count mod 256) 0); lia.
Qed.

(* ------------------------------------------------------------------ *)
(** ** Words and bytes *)

Lemma seqZ_one x : seqZ x 1 = [x].
Proof. rewrite seqZ_cons by lia. by rewrite seqZ_nil by lia. Qed.

Lemma b16_word_at b o : 0 <= o → o + 2 <= blen b → b16 o b = Some (word_at b o, b).
Proof. intros H1 H2. apply b16_at. by rewrite sub_bytes_is_Some by lia. Qed.

Lemma word_at_u16 b o : bytes_ok b → is_u16 (word_at b o).
Proof.
  intros Hb. unfold word_at. pose proof (le_val_bound (take 2 (drop (Z.to_nat o) b)) (Forall_take _ _ _ (Forall_drop _ _ _ Hb))) as H.
  rewrite length_take, length_drop in H. unfold is_u16. assert (Z.of_nat (2 `min` (length b - Z.to_nat o)) <= 2) as Hm by lia.
  assert (256 ^ Z.of_nat (2 `min` (length b - Z.to_nat o)) <= 256 ^ 2) by (apply Z.pow_le_mono_r; lia). lia.
Qed.

Lemma bytes_of_range b off (k : nat) :
  bytes_ok b → 0 <= off → off + 2 * Z.of_nat k <= blen b →
  bytes_of ((λ j, word_at b (off + 2 * j)) <$> seqZ 0 (Z.of_nat k)) = take (2 * k) (drop (Z.to_nat off) b).
Proof.
  intros Hb Ho. induction k as [|k IH]; intros Hk; [by rewrite take_0|].
  replace (Z.of_nat (S k)) with (Z.of_nat k + 1) by lia. rewrite seqZ_app by lia. unfold bytes_of in *.
  rewrite !fmap_app, concat_app, IH by lia. rewrite seqZ_one.
  cbn [fmap list_fmap concat app]. rewrite app_nil_r. unfold word_at.
  set (c := take 2 (drop (Z.to_nat (off + 2 * (0 + Z.of_nat k))) b)). unfold blen in *.
  assert (length c = 2%nat) as Hl by (unfold c; rewrite length_take, length_drop; lia).
  assert (le_of 2 (le_val c) = c) as -> by (rewrite <-Hl at 1; apply le_of_val; unfold c; apply Forall_take, Forall_drop, Hb). unfold c.
  replace (Z.to_nat (off + 2 * (0 + Z.of_nat k))) with (Z.to_nat off + 2 * k)%nat by lia.
  rewrite <-drop_drop, take_take_drop. f_equal. lia.
Qed.

Lemma bytes_of_words b : bytes_ok b → blen b = 512 → bytes_of (words b) = b.
Proof.
  intros Hb Hl. pose proof (bytes_of_range b 0 256 Hb ltac:(lia) ltac:(lia)) as H. cbn [Z.add] in H.
  unfold words. change 256 with (Z.of_nat 256). etrans; [exact H|]. rewrite drop_0. apply take_ge. unfold blen in Hl. lia.
Qed.

(* ------------------------------------------------------------------ *)
(** ** Transfers *)

Definition sectors d : Z → buf := av_sector (ad_view d).
Definition idle d : Prop := av_phase (ad_view d) = Idle.

(** The phase before [n] more sectors are read. *)
Definition reading (f : Z → buf) (lba n : Z) : phase := if n =? 0 then Idle else Reading lba n (words (f lba)).

Lemma wp_read_words xs : ∀ d lba n,
  xs ≠ [] → av_phase (ad_view d) = Reading lba n xs → ad_delay d = 0 → 0 < n →
  wp (read_words (length xs)) d (λ b d', b = bytes_of xs ∧ sectors d' = sectors d ∧ ad_size d' = ad_size d ∧
    av_phase (ad_view d') = reading (sectors d) (lba + 1) (n - 1)).
Proof.
  induction xs as [|x xs IH]; intros d lba n Hne Hp Hd Hn; [done|]. cbn [length read_words]. wp_step.
  pose proof (ad_data_in d lba n x xs Hp Hd) as H. unfold wp at 1, hal_in16.
  destruct (port_in16 ATA_PRIMARY_DATA d) as [v d1]. destruct H as (-> & Hs & Hv & Hd1). wp_step.
  destruct xs as [|y ys].
  - cbn [length read_words]. wp_step. wp_step. unfold sectors, reading. rewrite Hv. cbn [av_sector av_phase].
    split_and!; [by unfold bytes_of|done|done|]. destruct (Z.eqb_spec n 1), (Z.eqb_spec (n - 1) 0); try lia; done.
  - eapply wp_mono; [apply (IH d1 lba n); [done|by rewrite Hv|by apply Hd1|done]|]. intros b d2 (-> & F1 & F2 & F3). wp_step.
    assert (sectors d1 = sectors d) as E by (unfold sectors; by rewrite Hv). rewrite E in *.
    split_and!; [done|done|congruence|done].
Qed.

Lemma wp_read_loop n : ∀ d lba out,
  av_phase (ad_view d) = reading (sectors d) lba (Z.of_nat n) →
  wp (read_loop n out) d (λ r d', r = Some (out ++ concat (sectors d <$> seqZ lba (Z.of_nat n))) ∧
    idle d' ∧ sectors d' = sectors d ∧ ad_size d' = ad_size d).
Proof.
  induction n as [|n IH]; intros d lba out Hp; cbn [read_loop].
  { wp_step. cbn. by rewrite app_nil_r. }
  unfold reading in Hp. rewrite (proj2 (Z.eqb_neq _ _)) in Hp by lia.
  wp_step. eapply wp_mono; [apply wp_wait_drq; by rewrite Hp|]. intros r d1 (-> & [C1 C2 _ _] & Hd). change (0 =? 0) with true.
  cbn [negb]. wp_step. destruct (ad_sector_ok d lba) as [Hl Hb]. fold (sectors d) in Hl, Hb.
  assert (length (words (sectors d lba)) = 256%nat) as Hw by (unfold words; by rewrite length_fmap, length_seqZ).
  rewrite <-Hw. eapply wp_mono; [apply (wp_read_words _ d1 lba (Z.of_nat (S n))); [|by rewrite C1|done|lia]|].
  { intros E. by rewrite E in Hw. }
  intros b d2 (-> & F1 & F2 & F3). assert (sectors d1 = sectors d) as E1 by (unfold sectors; by rewrite C1).
  rewrite E1 in F1, F3. wp_step. eapply wp_mono; [apply wp_delay|]. intros [] d3 [[G1 G2 _ _] _].
  assert (sectors d3 = sectors d) as E3 by (unfold sectors in *; by rewrite G1).
  rewrite bytes_of_words by done. replace (Z.of_nat (S n) - 1) with (Z.of_nat n) in F3 by lia.
  eapply wp_mono; [apply (IH d3 (lba + 1)); by rewrite G1, F3, E3|]. intros r d4 (-> & H1 & H2 & H3). rewrite E3 in *.
  split_and!; [|done|done|congruence]. replace (Z.of_nat (S n)) with (1 + Z.of_nat n) by lia.
  rewrite seqZ_app, fmap_app, concat_app by lia. rewrite seqZ_one.
  cbn [fmap list_fmap concat]. rewrite app_nil_r, app_assoc. done.
Qed.

(** The drive is done with the last sector of a write within four reads of
    the status, which is what the driver allows it before the next command. *)
Definition prompt : Prop := ∀ d lba got v,
  av_phase (ad_view d) = Writing lba 1 got → length got = 255%nat → ad_delay d = 0 →
  ad_delay (port_out16 ATA_PRIMARY_DATA v d) <= 4.

Definition writing (lba n : Z) : phase := if n =? 0 then Idle else Writing lba n [].

Lemma wp_write_words d lba n b off :
  av_phase (ad_view d) = Writing lba n [] → ad_delay d = 0 → 0 < n → bytes_ok b → 0 <= off → off + 512 <= blen b →
  wp (for_range 0 256 (λ j, v ← peek (b16 (off + 2 * j)) b; hal_out16 ATA_PRIMARY_DATA v)) d (λ _ d',
    av_phase (ad_view d') = writing (lba + 1) (n - 1) ∧ ad_size d' = ad_size d ∧ (prompt → n = 1 → ad_delay d' <= 4) ∧
    sectors d' = <[lba := take 512 (drop (Z.to_nat off) b)]> (sectors d)).
Proof.
  intros Hp Hd Hn Hb Ho He. set (got j := (λ j, word_at b (off + 2 * j)) <$> seqZ 0 j).
  eapply wp_mono; [apply (wp_for_range (λ j d', ad_size d' = ad_size d ∧
    if j <? 256 then av_phase (ad_view d') = Writing lba n (got j) ∧ ad_delay d' = 0 ∧ sectors d' = sectors d
    else av_phase (ad_view d') = writing (lba + 1) (n - 1) ∧ (prompt → n = 1 → ad_delay d' <= 4) ∧ sectors d' = <[lba := bytes_of (got 256)]> (sectors d)))|].
  - done.
  - intros j d1 Hj (Hs & H). rewrite (proj2 (Z.ltb_lt _ _)) in H by lia. destruct H as (H1 & H2 & H3). wp_step.
    unfold peek. eapply wp_of_opt; [by rewrite b16_word_at by lia|]. cbn [fst].
    pose proof (word_at_u16 b (off + 2 * j) Hb) as Hu. unfold wp, hal_out16.
    assert (u16 (word_at b (off + 2 * j)) = word_at b (off + 2 * j)) as -> by (unfold is_u16, u16 in *; lia).
    destruct (ad_data_out d1 lba n (got j) _ H1 H2 Hu) as [G1 G2].
    assert (got (j + 1) = got j ++ [word_at b (off + 2 * j)]) as Eg.
    { unfold got. rewrite seqZ_app by lia. rewrite seqZ_one, fmap_app. cbn. do 3 f_equal. }
    assert (length (got j) = Z.to_nat j) as El by (unfold got; by rewrite length_fmap, length_seqZ).
    split; [congruence|]. destruct (decide (j = 255)) as [->|Hne].
    + rewrite decide_True in G2 by lia. change (255 + 1 <? 256) with false. cbn iota. unfold sectors. rewrite G2. cbn [av_phase av_sector].
      rewrite <-Eg. split_and!; [|intros P ->; by apply (P d1 lba (got 255))|by unfold sectors in H3; rewrite H3].
      unfold writing. destruct (Z.eqb_spec n 1), (Z.eqb_spec (n - 1) 0); try lia; done.
    + rewrite decide_False in G2 by lia. rewrite (proj2 (Z.ltb_lt _ _)) by lia. destruct G2 as [G2 G3].
      unfold sectors. rewrite G2. cbn [av_phase av_sector]. rewrite Eg. done.
  - intros [] d'. change (Z.max 0 256 <? 256) with false. intros (H1 & H2 & H3 & H4). split_and!; [done|done|done|].
    rewrite H4. f_equal. unfold got. change 256 with (Z.of_nat 256). rewrite bytes_of_range by (done || lia). done.
Qed.

Lemma wp_ata_begin_write d lba n b :
  bytes_ok b → blen b = 512 * n → av_phase (ad_view d) = writing lba n →
  wp (scan_range 0 n (λ i,
        r ← ata_wait_drq;
        if negb (r =? 0) then ret (Some tt)
        else
          for_range 0 256 (λ j, v ← peek (b16 (i * SECTOR_SIZE + 2 * j)) b; hal_out16 ATA_PRIMARY_DATA v) ;;
          ata_delay_400ns ;;
          ret None)) d (λ r d', r = None ∧ idle d' ∧ ad_size d' = ad_size d ∧ (prompt → 0 < n → ad_delay d' = 0) ∧
    (∀ i, 0 <= i < n → sub_bytes (512 * i) 512 b = Some (sectors d' (lba + i))) ∧
    (∀ i, i < lba ∨ lba + n <= i → sectors d' i = sectors d i)).
Proof.
  intros Hb Hl Hp. apply (wp_scan_range (λ i d', av_phase (ad_view d') = writing (lba + i) (n - i) ∧ ad_size d' = ad_size d ∧
    (prompt → 0 < n → i = n → ad_delay d' = 0) ∧
    (∀ k, 0 <= k < i → sub_bytes (512 * k) 512 b = Some (sectors d' (lba + k))) ∧
    (∀ k, k < lba ∨ lba + i <= k → sectors d' k = sectors d k))).
  - split_and!; [by rewrite Hp, Z.add_0_r, Z.sub_0_r|done|lia|lia|done].
  - intros i d1 Hi (H1 & H2 & _ & H3 & H4). unfold writing in H1. rewrite (proj2 (Z.eqb_neq _ _)) in H1 by lia.
    wp_step. eapply wp_mono; [apply wp_wait_drq; by rewrite H1|]. intros r d2 (-> & [C1 C2 _ _] & Hd). change (0 =? 0) with true. cbn [negb].
    assert (sectors d2 = sectors d1) as E2 by (unfold sectors; by rewrite C1).
    wp_step. eapply wp_mono; [apply (wp_write_words d2 (lba + i) (n - i)); [by rewrite C1|done|lia|done|unfold SECTOR_SIZE; lia..]|].
    intros [] d3 (F1 & F2 & FP & F3). wp_step. eapply wp_mono; [apply wp_delay|]. intros [] d4 [[G1 G2 _ _] G3]. wp_step.
    assert (sectors d4 = sectors d3) as E4 by (unfold sectors; by rewrite G1). rewrite G1, F1, E4, F3, E2.
    split_and!; [f_equal; lia|congruence|intros P _ Hn; specialize (FP P ltac:(lia)); lia| |].
    + intros k Hk. destruct (decide (k = i)) as [->|Hne].
      * rewrite fn_lookup_insert. rewrite sub_bytes_is_Some by lia. do 3 f_equal. unfold SECTOR_SIZE. lia.
      * rewrite fn_lookup_insert_ne by lia. apply H3. lia.
    + intros k Hk. rewrite fn_lookup_insert_ne by lia. apply H4. lia.
  - intros d' (H1 & H2 & HP & H3 & H4). unfold idle. assert (0 <= n) by (unfold blen in Hl; lia). rewrite Z.max_r in * by lia.
    split_and!; [done| |done|by intros; apply HP|done|done]. rewrite H1. unfold writing. by rewrite (proj2 (Z.eqb_eq _ _)) by lia.
Qed.

(** Both requests wait for an idle drive, which then starts on the sectors
    the low 28 bits of the address name. *)
Lemma wp_ata_command {A} d lba n command (x : A) (k : M D A) (Q : A → D → Prop) :
  idle d → is_u32 lba → 0 < n <= 256 →
  (∀ d1 r, ad_view d1 = View r Idle (sectors d) → ad_size d1 = ad_size d → reg_lba r = lba28 lba → reg_count r = n →
     ad_delay d1 = 0 → wp k (port_out8 ATA_PRIMARY_COMMAND (u8 command) d1) Q) →
  wp (r ← ata_wait_ready; if negb (r =? 0) then ret x else ata_setup lba n command ;; k) d Q.
Proof.
  intros Hi Hl Hn HQ. wp_step. eapply wp_mono; [by apply wp_wait_ready|]. intros r d0 (-> & [C1 C2 _ _] & Hd). change (0 =? 0) with true.
  cbn [negb]. wp_step. eapply wp_mono; [apply wp_ata_setup; [by rewrite C1|done..]|]. intros [] d' (d1 & r & -> & H0 & H1 & H2 & H3 & H4).
  eapply HQ; [|congruence|done..]. rewrite H1. unfold sectors. by rewrite C1.
Qed.
End driver.

(* ------------------------------------------------------------------ *)
(** ** The contract of the driver *)

Section contract.
Context {D : Type} {AD : AtaDrive D}.
Implicit Types d : D.

(** C24: The ATA driver is a block device. On an idle drive a read of 1 to 256
    sectors returns their contents, in order, and changes nothing; a write
    stores the buffer, sector by sector, and changes no other sector; both
    leave the drive idle, so they can follow each other. The sector that is
    addressed is the number modulo [2^28]: the upper four bits of the 32 are
    not sent. Other counts are refused without touching the drive. The drive
    takes registers and commands only while it is not busy: the waits of the
    driver see to that, but for the CACHE FLUSH of a write, before which it
    allows the drive only four reads of the status. The write is proved for
    drives that make do with them ([prompt]); on them it also leaves nothing in
    the cache. *)
Theorem ata_transfers d lba n bytes :
  idle d → is_u32 lba →
  (n = 0 ∨ 256 < n → ata_read_sector lba n d = Some (None, d) ∧ ata_write_sector lba n bytes d = Some (false, d)) ∧
  (0 < n <= 256 → lba28 lba + n <= ad_size d →
   wp (ata_read_sector lba n) d (λ r d', idle d' ∧ ad_size d' = ad_size d ∧ sectors d' = sectors d ∧
     r = Some (concat (sectors d <$> seqZ (lba28 lba) n))) ∧
   (prompt → blen bytes = 512 * n → bytes_ok bytes →
    wp (ata_write_sector lba n bytes) d (λ r d', r = true ∧ idle d' ∧ ad_size d' = ad_size d ∧
      ad_delay d' = 0 ∧ ad_cached d' = false ∧
      (∀ i, 0 <= i < n → sub_bytes (512 * i) 512 bytes = Some (sectors d' (lba28 lba + i))) ∧
      (∀ i, i < lba28 lba ∨ lba28 lba + n <= i → sectors d' i = sectors d i)))).
Proof.
  intros Hi Hl. unfold ata_read_sector, ata_write_sector. split.
  { intros Hn. replace ((n =? 0) || (256 <? n)) with true by (symmetry; blia). done. }
  intros Hn Hs. replace ((n =? 0) || (256 <? n)) with false by (symmetry; blia). split; [|intros P Hb Hok].
  - apply wp_ata_command; [done..|]. intros d2 rg V2 S2 HL HC D2.
    destruct (ad_command d2 ATA_CMD_READ_SECTORS ltac:(by rewrite V2) D2) as (Z2 & HR & _).
    rewrite V2 in HR. cbn [av_regs av_sector] in HR. rewrite HL, HC in HR. specialize (HR eq_refl ltac:(congruence)).
    change (u8 ATA_CMD_READ_SECTORS) with ATA_CMD_READ_SECTORS. set (d3 := port_out8 _ _ _) in *.
    assert (sectors d3 = sectors d) as E3 by (unfold sectors; by rewrite HR).
    eapply wp_mono; [apply (wp_read_loop _ d3 (lba28 lba))|].
    + rewrite E3, HR. cbn [av_phase]. unfold reading. rewrite Z2Nat.id by lia. by rewrite (proj2 (Z.eqb_neq _ _)) by lia.
    + intros r d4 (-> & H1 & H2 & H3). rewrite E3, Z2Nat.id in * by lia. split_and!; [done|congruence|done|done].
  - apply wp_ata_command; [done..|]. intros d2 rg V2 S2 HL HC D2.
    destruct (ad_command d2 ATA_CMD_WRITE_SECTORS ltac:(by rewrite V2) D2) as (Z2 & _ & HW & _).
    rewrite V2 in HW. cbn [av_regs av_sector] in HW. rewrite HL, HC in HW. specialize (HW eq_refl ltac:(congruence)).
    change (u8 ATA_CMD_WRITE_SECTORS) with ATA_CMD_WRITE_SECTORS. set (d3 := port_out8 _ _ _) in *.
    assert (sectors d3 = sectors d) as E3 by (unfold sectors; by rewrite HW).
    wp_step. eapply wp_mono; [apply (wp_ata_begin_write d3 (lba28 lba) n bytes); [done|done|]|].
    { rewrite HW. cbn [av_phase]. unfold writing. by rewrite (proj2 (Z.eqb_neq _ _)) by lia. }
    intros r d4 (-> & H1 & H2 & HP & H3 & H4). rewrite E3 in H4. wp_step.
    destruct (ad_command d4 ATA_CMD_CACHE_FLUSH H1 (HP P ltac:(lia))) as (Z4 & _ & _ & HF). destruct (HF eq_refl) as [HF1 HF2].
    unfold wp at 1, hal_out8. change (u8 ATA_CMD_CACHE_FLUSH) with ATA_CMD_CACHE_FLUSH.
    wp_step. eapply wp_mono; [apply wp_not_busy|]. intros r d5 (_ & [K1 K2 _ K3] & KD). wp_step. rewrite HF1 in K1.
    assert (sectors d5 = sectors d4) as -> by (unfold sectors; by rewrite K1).
    unfold idle. rewrite K1. split_and!; [done|done|congruence|done|by apply K3|done|done].
Qed.
End contract.

(* ------------------------------------------------------------------ *)
(** ** A drive

    The simplest drive: it is busy for [slow] reads of the status after each
    command and each sector, and ignores what is written to it meanwhile. It
    shows that the laws can be met. *)

Definition sectors_ok (f : Z → buf) : Prop := ∀ i, blen (f i) = 512 ∧ bytes_ok (f i).
Record pio (slow : Z) := Pio { pio_view : ata_view; pio_delay : Z; pio_cached : bool; pio_ok : sectors_ok (av_sector pio_view) }.
Arguments Pio {slow}.
Arguments pio_view {slow}.
Arguments pio_delay {slow}.
Arguments pio_cached {slow}.
Arguments pio_ok {slow}.

Section pio.
Context {slow : Z}.
Implicit Types p : pio slow.

Definition pio_left p : Z := Z.max 0 (Z.min (pio_delay p) 999999).

Definition pio_status p : Z :=
  if pio_left p =? 0 then match av_phase (pio_view p) with Idle => ATA_STATUS_RDY | _ => ATA_STATUS_RDY + ATA_STATUS_DRQ end
  else ATA_STATUS_BSY.

Definition pio_in8 (port : Z) p : Z * pio slow :=
  if port =? ATA_PRIMARY_STATUS then (pio_status p, Pio (pio_view p) (pio_left p - 1) (pio_cached p) (pio_ok p)) else (0, p).

Definition pio_out8 (port v : Z) p : pio slow :=
  let w := pio_view p in
  if negb (pio_left p =? 0) then p
  else if port =? ATA_PRIMARY_COMMAND then
    let r := av_regs w in
    let ph := if v =? ATA_CMD_READ_SECTORS then Reading (reg_lba r) (reg_count r) (words (av_sector w (reg_lba r)))
              else if v =? ATA_CMD_WRITE_SECTORS then Writing (reg_lba r) (reg_count r) [] else av_phase w in
    Pio (View r ph (av_sector w)) slow (if v =? ATA_CMD_CACHE_FLUSH then false else pio_cached p) (pio_ok p)
  else Pio (View (<[port := v]> (av_regs w)) (av_phase w) (av_sector w)) 0 (pio_cached p) (pio_ok p).

Definition pio_in16 (port : Z) p : Z * pio slow :=
  let w := pio_view p in
  match av_phase w with
  | Reading lba n (x :: xs) =>
      (x, Pio (View (av_regs w)
             (match xs with
              | _ :: _ => Reading lba n xs
              | [] => if n =? 1 then Idle else Reading (lba + 1) (n - 1) (words (av_sector w (lba + 1)))
              end) (av_sector w)) (match xs with [] => slow | _ => pio_delay p end) (pio_cached p) (pio_ok p))
  | _ => (0, p)
  end.

Lemma bytes_of_ok ws : length ws = 256%nat → blen (bytes_of ws) = 512 ∧ bytes_ok (bytes_of ws).
Proof.
  intros Hl. unfold bytes_of, blen, bytes_ok. split.
  - assert (∀ l, length (concat (le_of 2 <$> l)) = 2 * length l)%nat as ->; [|lia].
    induction l as [|x l IH]; [done|]. cbn [fmap list_fmap concat]. rewrite length_app, IH, length_le_of. cbn [length]. lia.
  - apply Forall_concat, Forall_fmap, Forall_true. intros x. apply le_of_ok.
Qed.

Lemma sectors_put f lba got v :
  sectors_ok f → length got = 255%nat → sectors_ok (<[lba := bytes_of (got ++ [v])]> f).
Proof.
  intros Hf Hg i. destruct (decide (i = lba)) as [->|Hne].
  - rewrite fn_lookup_insert. apply bytes_of_ok. rewrite length_app, Hg. done.
  - rewrite fn_lookup_insert_ne by done. apply Hf.
Qed.

Definition pio_out16 (port v : Z) p : pio slow :=
  let w := pio_view p in
  match av_phase w with
  | Writing lba n got =>
      match decide (length got = 255%nat) with
      | left E => Pio (View (av_regs w) (if n =? 1 then Idle else Writing (lba + 1) (n - 1) [])
                        (<[lba := bytes_of (got ++ [v])]> (av_sector w))) slow true (sectors_put _ lba got v (pio_ok p) E)
      | right _ => Pio (View (av_regs w) (Writing lba n (got ++ [v])) (av_sector w)) (pio_delay p) (pio_cached p) (pio_ok p)
      end
  | _ => p
  end.

#[global] Program Instance pio_drive : AtaDrive (pio slow) := {
  port_in8 := pio_in8; port_in16 := pio_in16; port_out8 := pio_out8; port_out16 := pio_out16;
  ad_view := pio_view; ad_size := λ _, 268435456; ad_delay := pio_left; ad_cached := pio_cached
}.
Next Obligation. intros p. unfold pio_left. lia. Qed.
Next Obligation. done. Qed.
Next Obligation. intros p i. apply (pio_ok p). Qed.
Next Obligation.
  intros p. cbn. split_and!; [done|done|unfold pio_left; cbn; lia|done|]. unfold shows_status, pio_status.
  destruct (pio_left p =? 0); [|done]. by destruct (av_phase (pio_view p)).
Qed.
Next Obligation.
  intros p port v Hr Hi Hd. unfold pio_out8. rewrite Hd. change (0 =? 0) with true. cbn [negb].
  unfold is_reg, ATA_PRIMARY_SECCOUNT, ATA_PRIMARY_DRIVE_HEAD, ATA_PRIMARY_COMMAND in *.
  rewrite (proj2 (Z.eqb_neq _ _)) by lia. cbn. by rewrite Hi.
Qed.
Next Obligation.
  intros p c Hi Hd. unfold pio_out8. rewrite Hd. cbn. split_and!; [done|by intros -> ..|]. intros ->. cbn. by destruct p as [[]].
Qed.
Next Obligation.
  intros p lba n x xs Hp Hd. unfold pio_in16. rewrite Hp. cbn. by destruct xs.
Qed.
Next Obligation.
  intros p lba n got v Hp Hd Hv. unfold pio_out16. rewrite Hp. by destruct (decide (length got = 255%nat)).
Qed.

Lemma pio_prompt : slow <= 4 → prompt (D := pio slow).
Proof.
  intros Hs p lba got v Hp Hg Hd. cbn [port_out16 ad_delay pio_drive] in *. unfold pio_out16. cbn [ad_view pio_drive] in Hp.
  rewrite Hp. destruct (decide (length got = 255%nat)); [|done]. unfold pio_left. cbn. lia.
Qed.

Lemma zero_sectors_ok : sectors_ok (λ _, zero_sector).
Proof. intros i. split; [done|]. by apply Forall_replicate. Qed.
Definition demo_drive : pio slow := Pio (View (λ _, 0) Idle (λ _, zero_sector)) 3 false zero_sectors_ok.
End pio.

(** Two sectors at number [2^28 + 5] end up in sectors 5 and 6. *)
Lemma ata_transfers_witness :
  wp (ata_write_sector 268435461 2 (replicate 512 1 ++ replicate 512 2)) (demo_drive (slow := 3)) (λ r d,
    r = true ∧ sectors d 5 = replicate 512 1 ∧ sectors d 6 = replicate 512 2 ∧ sectors d 7 = zero_sector ∧ pio_cached d = false).
Proof.
  destruct (ata_transfers (demo_drive (slow := 3)) 268435461 2 (replicate 512 1 ++ replicate 512 2)) as [_ H]; [reflexivity|by unfold is_u32|].
  destruct H as [_ H]; [lia|by vm_compute|]. eapply wp_mono; [apply H; [by apply pio_prompt|reflexivity|]|].
  - unfold bytes_ok. apply Forall_app_2; apply Forall_replicate; unfold is_u8; lia.
  - intros r d (-> & _ & _ & _ & Hf & Hw & Ho). split; [done|]. change (lba28 268435461) with 5 in *.
    split_and!.
    + symmetry. apply (inj Some). etrans; [|exact (Hw 0 ltac:(lia))]. reflexivity.
    + symmetry. apply (inj Some). etrans; [|exact (Hw 1 ltac:(lia))]. reflexivity.
    + rewrite Ho by lia. reflexivity.
    + exact Hf.
Defined.

(** On a drive that needs a fifth read of the status the flush is lost: the
    write reports success with the sector still in the cache. *)
Lemma ata_flush_lost :
  match ata_write_sector 5 1 (replicate 512 1) (demo_drive (slow := 5)) with
  | Some (r, d) => r = true ∧ pio_cached d = true
  | None => False
  end.
Proof.
  assert (match ata_write_sector 5 1 (replicate 512 1) (demo_drive (slow := 5)) with
          | Some (r, d) => r && pio_cached d | None => false end = true) as H by by vm_compute.
  destruct (ata_write_sector 5 1 (replicate 512 1) demo_drive) as [[r d]|]; [|done]. by destruct r, (pio_cached d).
Qed.
