(* ===== verification/Vmspace.v ===== *)
(** * Address spaces

    [kernel/src/mm/vmspace.c] over the page tables of [Paging], [VaAlloc] and
    [Cow]: creation, cloning and destruction of a user address space, its list
    of areas, and the copies between two spaces through the scratch window at
    [KMAPPING_BASE]. The objects that come from the kernel heap live in maps
    from addresses; the heap answers from a list. *)

From S2P Require Import Prelude Chain Range FrameAlloc Sched Pmm Paging VaAlloc Cow.

Definition EFAULT : Z := 14.
Definition EINVAL : Z := 22.
Definition KERNEL_HEAP_END : Z := 4026531840.
Definition KMAPPING_BASE : Z := KERNEL_HEAP_END + 4096.
Definition VGA_SCREEN_BUF_PHYS : Z := 753664.
Definition VGA_SCREEN_BUF : Z := KERNEL_BASE + VGA_SCREEN_BUF_PHYS.

Definition VMA_READ : Z := 1.
Definition VMA_WRITE : Z := 2.
Definition VMA_USER : Z := 8.
Definition VMA_STACK : Z := 16.
Definition VMA_HEAP : Z := 128.

Record vma_t := Vma { vma_start : Z; vma_end : Z; vma_flags : Z; vma_next : Z }.
Record vmspace_t := Vmspace { vs_arch : Z; vma_list : Z }.

(** Memory, the heap objects by address, the kernel's space, the directory the
    processor has loaded, what the heap will answer, and the lock of the
    scratch window with the processor's interrupt flag. *)
Record vms (St : Type) := Vms {
  mem : vmst St;
  spaces : gmap Z vmspace_t;
  archs : gmap Z arch_vm_t;
  vmas : gmap Z vma_t;
  g_kernel_vmspace : Z;
  cr3 : Z;
  vs_next_object : Z;
  vs_answers : list bool;
  kmpping_lock : spinlock_t * bool
}.
Arguments Vms {_}. Arguments mem {_}. Arguments spaces {_}. Arguments archs {_}. Arguments vmas {_}.
Arguments g_kernel_vmspace {_}. Arguments cr3 {_}. Arguments vs_next_object {_}. Arguments vs_answers {_}.
Arguments kmpping_lock {_}.

(** The bytes of a little-endian word. *)
Definition byte_of (w i : Z) : Z := w / 256 ^ i mod 256.
Definition put_byte (w i b : Z) : Z := w + (b - byte_of w i) * 256 ^ i.

Section ops.
Context `{FA : FrameAllocator St}.
Notation V := (vms St).

Definition set_mem x (s : V) : V := Vms x (spaces s) (archs s) (vmas s) (g_kernel_vmspace s) (cr3 s)
  (vs_next_object s) (vs_answers s) (kmpping_lock s).
Definition set_spaces x (s : V) : V := Vms (mem s) x (archs s) (vmas s) (g_kernel_vmspace s) (cr3 s)
  (vs_next_object s) (vs_answers s) (kmpping_lock s).
Definition set_archs x (s : V) : V := Vms (mem s) (spaces s) x (vmas s) (g_kernel_vmspace s) (cr3 s)
  (vs_next_object s) (vs_answers s) (kmpping_lock s).
Definition set_vmas x (s : V) : V := Vms (mem s) (spaces s) (archs s) x (g_kernel_vmspace s) (cr3 s)
  (vs_next_object s) (vs_answers s) (kmpping_lock s).
Definition set_cr3 x (s : V) : V := Vms (mem s) (spaces s) (archs s) (vmas s) (g_kernel_vmspace s) x
  (vs_next_object s) (vs_answers s) (kmpping_lock s).
Definition set_answers n x (s : V) : V := Vms (mem s) (spaces s) (archs s) (vmas s) (g_kernel_vmspace s) (cr3 s)
  n x (kmpping_lock s).
Definition set_kmpping_lock x (s : V) : V := Vms (mem s) (spaces s) (archs s) (vmas s) (g_kernel_vmspace s) (cr3 s)
  (vs_next_object s) (vs_answers s) x.

Definition on_mem {A} (m : M (vmst St) A) : M V A := zoom mem set_mem m.

(** The address of a new object, or 0. It enters its map with its first
    complete contents; [kfree] takes it out. *)
Definition kmalloc_object : M V Z :=
  a ← gets vs_answers;
  p ← gets vs_next_object;
  if default true (head a) then modify (set_answers (p + 1) (tail a)) ;; ret p
  else modify (set_answers p (tail a)) ;; ret 0.

Definition space (p : Z) : M V vmspace_t := deref spaces p.
Definition space_set (p : Z) (f : vmspace_t → vmspace_t) : M V unit := assign spaces set_spaces p f.
Definition vma (p : Z) : M V vma_t := deref vmas p.
Definition vma_set (p : Z) (f : vma_t → vma_t) : M V unit := assign vmas set_vmas p f.
Definition arch (p : Z) : M V arch_vm_t := deref archs p.
Definition with_vma_list l (v : vmspace_t) : vmspace_t := Vmspace (vs_arch v) l.
Definition with_vma_next n (v : vma_t) : vma_t := Vma (vma_start v) (vma_end v) (vma_flags v) n.
Definition with_vma_end e (v : vma_t) : vma_t := Vma (vma_start v) e (vma_flags v) (vma_next v).
Definition vma_fuel (s : V) : nat := S (size (vmas s)).

(** [kernel_arch_vm] is the address of the static handle. It stays zero when
    the directory cannot be allocated: that is not checked. *)
Definition kernel_vmspace_create (kernel_arch_vm vmspace start end_ : Z) : M V unit :=
  r ← on_mem hal_vm_empty_arch_vm_create;
  let a := default (ArchVm 0 0) r in
  modify (λ s, set_archs (<[kernel_arch_vm := a]> (archs s)) s) ;;
  modify (λ s, set_spaces (<[vmspace := Vmspace kernel_arch_vm 0]> (spaces s)) s) ;;
  on_mem (hal_vm_map_range a start (u32 (start + KERNEL_BASE)) (u32 (end_ - start)) PAGE_READWRITE) ;;
  on_mem (hal_vm_map a VGA_SCREEN_BUF VGA_SCREEN_BUF_PHYS PAGE_READWRITE) ;;
  ret tt.

(** A null [arch] is written through when a directory can be had. *)
Definition vmspace_create : M V Z :=
  vmspace ← kmalloc_object;
  if vmspace =? 0 then ret 0
  else
    a ← kmalloc_object;
    res ← on_mem hal_vm_empty_arch_vm_create;
    match res with
    | None => ret 0
    | Some h =>
        assert_ (negb (a =? 0)) ;;
        modify (λ s, set_archs (<[a := h]> (archs s)) s) ;;
        k ← gets g_kernel_vmspace;
        kv ← space k;
        ka ← arch (vs_arch kv);
        on_mem (hal_vm_arch_clone_mapping h ka) ;;
        modify (λ s, set_spaces (<[vmspace := Vmspace a 0]> (spaces s)) s) ;;
        ret vmspace
    end.

(** [hal_vm_arch_load]. *)
Definition vmspace_switch (vmspace : Z) : M V unit :=
  v ← space vmspace;
  a ← arch (vs_arch v);
  modify (set_cr3 (pd_phys a)).

Definition vma_create (va_start mem_size flags : Z) : M V Z :=
  p ← kmalloc_object;
  if p =? 0 then ret 0
  else
    modify (λ s, set_vmas (<[p := Vma va_start (u32 (va_start + mem_size)) flags 0]> (vmas s)) s) ;;
    ret p.

(** The results of both allocations are used unchecked. *)
Definition vmspace_clone (original : Z) : M V Z :=
  o ← space original;
  clone ← vmspace_create;
  n ← gets vma_fuel;
  while_n n (λ '(curr, prev),
    if curr =? 0 then ret (inr tt)
    else
      c ← vma curr;
      new_vma ← vma_create (vma_start c) (u32 (vma_end c - vma_start c)) (vma_flags c);
      (if negb (prev =? 0) then vma_set prev (with_vma_next new_vma)
       else space_set clone (with_vma_list new_vma)) ;;
      ret (inl (vma_next c, new_vma))) (vma_list o, 0) ;;
  cv ← space clone;
  dst ← arch (vs_arch cv);
  src ← arch (vs_arch o);
  on_mem (hal_vm_arch_clone dst src) ;;
  ret clone.

Definition vmspace_destroy (vmspace : Z) : M V unit :=
  v ← space vmspace;
  k ← gets g_kernel_vmspace;
  kv ← space k;
  if vs_arch v =? vs_arch kv then ret tt
  else
    n ← gets vma_fuel;
    while_n n (λ _,
      v ← space vmspace;
      let temp := vma_list v in
      if temp =? 0 then ret (inr tt)
      else
        t ← vma temp;
        space_set vmspace (with_vma_list (vma_next t)) ;;
        modify (λ s, set_vmas (delete temp (vmas s)) s) ;;
        ret (inl tt)) tt ;;
    a ← arch (vs_arch v);
    on_mem (hal_vm_arch_destroy a) ;;
    modify (λ s, set_archs (delete (vs_arch v) (archs s)) s) ;;
    modify (λ s, set_spaces (delete vmspace (spaces s)) s).

Definition vmspace_add_vma (vmspace new_vma : Z) : M V unit :=
  assert_ (negb (new_vma =? 0)) ;;
  v ← space vmspace;
  vma_set new_vma (with_vma_next (vma_list v)) ;;
  space_set vmspace (with_vma_list new_vma).

Definition vmspace_find_vma (vmspace addr : Z) : M V Z :=
  v ← space vmspace;
  n ← gets vma_fuel;
  while_n n (λ curr,
    if curr =? 0 then ret (inr 0)
    else
      c ← vma curr;
      if (vma_start c <=? addr) && (addr <? vma_end c) then ret (inr curr)
      else ret (inl (vma_next c))) (vma_list v).

(** The common part of [vmspace_map_stack] and [vmspace_map_heap]. *)
Definition user_page_flags : Z := Z.lor (Z.lor PAGE_PRESENT PAGE_READWRITE) PAGE_USER.

Definition vmspace_map_stack (vm stack_top size : Z) : M V bool :=
  assert_ (is_aligned stack_top PAGE_SIZE) ;;
  assert_ (is_aligned size PAGE_SIZE) ;;
  let stack_start := u32 (stack_top - size) in
  stack_vma ← vma_create stack_start size (Z.lor (Z.lor (Z.lor VMA_READ VMA_WRITE) VMA_USER) VMA_STACK);
  if stack_vma =? 0 then ret false
  else
    vmspace_add_vma vm stack_vma ;;
    v ← space vm;
    a ← arch (vs_arch v);
    on_mem (va_alloc_region a stack_start size user_page_flags).

Definition vmspace_map_heap (vm heap_start initial_size : Z) : M V bool :=
  assert_ (is_aligned heap_start PAGE_SIZE) ;;
  assert_ (is_aligned initial_size PAGE_SIZE) ;;
  heap_vma ← vma_create heap_start initial_size (Z.lor (Z.lor (Z.lor VMA_READ VMA_WRITE) VMA_USER) VMA_HEAP);
  if heap_vma =? 0 then ret false
  else
    vmspace_add_vma vm heap_vma ;;
    v ← space vm;
    a ← arch (vs_arch v);
    on_mem (va_alloc_region a heap_start initial_size user_page_flags).

Definition vmspace_extend_heap (vm old_brk new_brk : Z) : M V bool :=
  assert_ (is_aligned old_brk PAGE_SIZE) ;;
  assert_ (is_aligned new_brk PAGE_SIZE) ;;
  if new_brk <=? old_brk then ret true
  else
    v ← space vm;
    n ← gets vma_fuel;
    heap_vma ← while_n n (λ curr,
      if curr =? 0 then ret (inr 0)
      else
        c ← vma curr;
        if has (vma_flags c) VMA_HEAP then ret (inr curr) else ret (inl (vma_next c))) (vma_list v);
    if heap_vma =? 0 then ret false
    else
      let extra := u32 (new_brk - old_brk) in
      a ← arch (vs_arch v);
      ok ← on_mem (va_alloc_region a old_brk extra user_page_flags);
      if negb ok then ret false
      else vma_set heap_vma (with_vma_end new_brk) ;; ret true.

(* ------------------------------------------------------------------ *)
(** ** Copies between spaces *)

(** The processor's accesses: it walks the loaded directory, and an absent
    page is a fault. *)
Definition cpu_vm (pd : Z) : arch_vm_t := ArchVm (u32 (pd + KERNEL_BASE)) pd.

Definition cpu_ldb (vm : arch_vm_t) (a : Z) : M (vmst St) Z :=
  p ← hal_vm_virt_to_phys vm a;
  if p =? 0 then fault
  else w ← ldw (p - p mod 4 + KERNEL_BASE); ret (byte_of w (p mod 4)).
Definition cpu_stb (vm : arch_vm_t) (a b : Z) : M (vmst St) unit :=
  p ← hal_vm_virt_to_phys vm a;
  if p =? 0 then fault
  else
    w ← ldw (p - p mod 4 + KERNEL_BASE);
    stw (p - p mod 4 + KERNEL_BASE) (put_byte w (p mod 4) b).

Definition cpu_memcpy (vm : arch_vm_t) (dst src n : Z) : M (vmst St) unit :=
  for_range 0 n (λ i, b ← cpu_ldb vm (src + i); cpu_stb vm (dst + i) b).

Definition kmpping_acquire : M V unit := zoom kmpping_lock set_kmpping_lock spinlock_acquire.
Definition kmpping_release : M V unit := zoom kmpping_lock set_kmpping_lock spinlock_release.

(** A turn covers the rest of a page, so there are at most 1048577 of them. *)
Definition copy_fuel : nat := Z.to_nat 1048579.

(** [curr_vmspace] is [dispatch_get_current()->process->vmspace->arch]. *)
Definition vmspace_copy_from (curr_vmspace src_vmspace dst_vaddr src_vaddr size : Z) : M V Z :=
  if src_vmspace =? 0 then ret (- EINVAL)
  else
    kmpping_acquire ;;
    while_n copy_fuel (λ '(remaining, dst_vaddr, src_vaddr),
      if 0 <? remaining then
        let page_base := Z.land src_vaddr (not32 (PAGE_SIZE - 1)) in
        let offset := src_vaddr mod PAGE_SIZE in
        let to_copy := PAGE_SIZE - offset in
        let to_copy := if remaining <? to_copy then remaining else to_copy in
        src ← arch src_vmspace;
        src_phys ← on_mem (hal_vm_virt_to_phys src page_base);
        if src_phys =? 0 then kmpping_release ;; ret (inr (- EFAULT))
        else
          curr ← arch curr_vmspace;
          loaded ← gets cr3;
          on_mem (hal_vm_map curr KMAPPING_BASE src_phys PAGE_READWRITE) ;;
          on_mem (cpu_memcpy (cpu_vm loaded) dst_vaddr (KMAPPING_BASE + offset) to_copy) ;;
          on_mem (hal_vm_unmap curr KMAPPING_BASE) ;;
          ret (inl (remaining - to_copy, u32 (dst_vaddr + to_copy), u32 (src_vaddr + to_copy)))
      else kmpping_release ;; ret (inr 0)) (size, dst_vaddr, src_vaddr).

Definition vmspace_copy_to (curr_vmspace dst_vmspace dst_vaddr src_vaddr size : Z) : M V Z :=
  if dst_vmspace =? 0 then ret (- EINVAL)
  else
    kmpping_acquire ;;
    while_n copy_fuel (λ '(remaining, dst_vaddr, src_vaddr),
      if 0 <? remaining then
        let page_base := Z.land dst_vaddr (not32 (PAGE_SIZE - 1)) in
        let offset := dst_vaddr mod PAGE_SIZE in
        let to_copy := PAGE_SIZE - offset in
        let to_copy := if remaining <? to_copy then remaining else to_copy in
        dst ← arch dst_vmspace;
        dst_phys ← on_mem (hal_vm_virt_to_phys dst page_base);
        if dst_phys =? 0 then kmpping_release ;; ret (inr (- EFAULT))
        else
          curr ← arch curr_vmspace;
          loaded ← gets cr3;
          on_mem (hal_vm_map curr KMAPPING_BASE dst_phys PAGE_READWRITE) ;;
          on_mem (cpu_memcpy (cpu_vm loaded) (KMAPPING_BASE + offset) src_vaddr to_copy) ;;
          on_mem (hal_vm_unmap curr KMAPPING_BASE) ;;
          ret (inl (remaining - to_copy, u32 (dst_vaddr + to_copy), u32 (src_vaddr + to_copy)))
      else kmpping_release ;; ret (inr 0)) (size, dst_vaddr, src_vaddr).
End ops.
