(* ===== verification/UserCopy.v ===== *)
(** * Copies through the scratch window

    What [vmspace_copy_from] and [vmspace_copy_to] of [kernel/src/mm/vmspace.c]
    do to memory, byte by byte, when the other space is the current one, as it
    is for the two calls of [kernel/src/mm/uaccess.c] and for [sys_execve]. *)

From S2P Require Import Prelude Chain Range FrameAlloc Sched Pmm Paging VaAlloc Cow Vmspace.

(* ------------------------------------------------------------------ *)
(** ** Bytes of words *)

Lemma byte_of_range w i : 0 <= byte_of w i < 256.
Proof. unfold byte_of. lia. Qed.

Lemma put_byte_word w i b : is_u32 w → 0 <= i < 4 → 0 <= b < 256 → is_u32 (put_byte w i b).
Proof.
  intros Hw Hi Hb. unfold put_byte, byte_of.
  assert (i = 0 ∨ i = 1 ∨ i = 2 ∨ i = 3) as [-> |[-> |[-> | ->]]] by lia.
  - change (256 ^ 0) with 1. ulia.
  - change (256 ^ 1) with 256. ulia.
  - change (256 ^ 2) with 65536. ulia.
  - change (256 ^ 3) with 16777216. ulia.
Qed.

Lemma byte_of_put_byte w i j b :
  0 <= i < 4 → 0 <= j < 4 → 0 <= b < 256 →
  byte_of (put_byte w i b) j = if decide (j = i) then b else byte_of w j.
Proof.
  intros Hi Hj Hb. unfold put_byte, byte_of.
  assert (i = 0 ∨ i = 1 ∨ i = 2 ∨ i = 3) as [-> |[-> |[-> | ->]]] by lia;
  assert (j = 0 ∨ j = 1 ∨ j = 2 ∨ j = 3) as [-> |[-> |[-> | ->]]] by lia;
  change (256 ^ 0) with 1; change (256 ^ 1) with 256; change (256 ^ 2) with 65536;
  change (256 ^ 3) with 16777216; case_decide; lia.
Qed.

(* ------------------------------------------------------------------ *)
(** ** The view of memory *)

(** The number of the scratch page. *)
Definition KMAPPING_PAGE : Z := KMAPPING_BASE / 4096.

Section copy.
Context `{FA : FrameAllocator St}.
Notation Vm := (vmst St).
Notation V := (vms St).
Implicit Types (s : Vm) (vm : arch_vm_t).

(** A byte of physical memory. *)
Definition pbyte (s : Vm) (x : Z) : Z := byte_of (words s (x - x mod 4)) (x mod 4).

(** The physical address behind a virtual one. *)
Definition phys (s : Vm) (vm : arch_vm_t) (va : Z) : Z :=
  page_of (entry s vm (va / 4096)) + va mod 4096.

(** The address is mapped to a frame in use that is no page table. *)
Definition data_at (s : Vm) (vm : arch_vm_t) (va : Z) : Prop :=
  0 <= va < 4294967296 ∧ present (entry s vm (va / 4096)) = true ∧
  0 < refs s (page_of (entry s vm (va / 4096))) ∧ ¬ part_of s vm (page_of (entry s vm (va / 4096))).

(** Nothing of the space changed but the entry of page [q]. *)
Record same_but (q : Z) (vm : arch_vm_t) (s s' : Vm) : Prop := {
  sb_vm : vm_ok s' vm;
  sb_falloc : falloc s' = falloc s;
  sb_top : top s' = top s;
  sb_pde : ∀ i, 0 <= i < 1024 → pde s' vm i = pde s vm i;
  sb_entry : ∀ p, 0 <= p < 1048576 → p ≠ q → entry s' vm p = entry s vm p
}.

Lemma same_but_trans q vm s1 s2 s3 : same_but q vm s1 s2 → same_but q vm s2 s3 → same_but q vm s1 s3.
Proof.
  intros [V1 F1 T1 P1 E1] [V2 F2 T2 P2 E2]. split; [done|congruence|congruence|..].
  - intros i Hi. by rewrite P2, P1.
  - intros p Hp Hq. by rewrite E2, E1.
Qed.

Lemma same_but_any q vm s s' : same_but (-1) vm s s' → same_but q vm s s'.
Proof. intros [? ? ? ? E]. split; [done..|]. intros p Hp _. apply E; lia. Qed.

Lemma same_but_refl q vm s : vm_ok s vm → same_but q vm s s.
Proof. by split. Qed.

Lemma same_refs q vm s s' g : same_but q vm s s' → refs s' g = refs s g.
Proof. intros S. unfold refs. by rewrite (sb_falloc _ _ _ _ S). Qed.

Lemma same_part q vm s s' g : same_but q vm s s' → part_of s' vm g ↔ part_of s vm g.
Proof.
  intros S. unfold part_of. apply or_iff_compat_l.
  split; intros (i & Hi & Hp & ->); exists i; unfold table in *; rewrite (sb_pde _ _ _ _ S) in * by done; done.
Qed.

Lemma data_same q vm s s' va :
  same_but q vm s s' → data_at s vm va → va / 4096 ≠ q → data_at s' vm va ∧ phys s' vm va = phys s vm va.
Proof.
  intros S (Hr & Hp & Hc & Hn) Hq. unfold data_at, phys. rewrite (sb_entry _ _ _ _ S) by (lia || done).
  rewrite (same_refs _ _ _ _ _ S), (same_part _ _ _ _ _ S). done.
Qed.

(** A frame in use is a page of memory. *)
Lemma owned_frame s f : mem_ok s → 0 < refs s f → frame_in s f ∧ 0 < f.
Proof.
  intros Mm Hr. destruct (fa_owned _ _ (mo_alloc _ Mm) Hr) as (H1 & H2 & H3). unfold PAGE in *.
  destruct (mo_top _ Mm). split; [split; [lia|split; [done|lia]]|lia].
Qed.

Lemma data_frame s vm va :
  vm_ok s vm → data_at s vm va →
  frame_in s (page_of (entry s vm (va / 4096))) ∧ 0 < page_of (entry s vm (va / 4096)).
Proof. intros K (_ & _ & Hr & _). apply owned_frame; [apply K|done]. Qed.

(** Where the byte is: word [i] of frame [f]. *)
Lemma data_word s vm va :
  vm_ok s vm → data_at s vm va →
  let f := page_of (entry s vm (va / 4096)) in let i := va mod 4096 / 4 in
  0 <= i < 1024 ∧ phys s vm va - phys s vm va mod 4 = f + 4 * i ∧ phys s vm va ≠ 0.
Proof.
  intros K D f i. destruct (data_frame _ _ _ K D) as [(? & Hm & _) ?]. subst f i. unfold phys. lia.
Qed.

Lemma wp_page_walk s vm va (Q : Z → Vm → Prop) :
  vm_ok s vm → data_at s vm va → Q (phys s vm va) s → wp (hal_vm_virt_to_phys vm va) s Q.
Proof.
  intros K D HQ. pose proof D as (Hr & Hp & _).
  pose proof (translate s vm (va / 4096) (va mod 4096) K ltac:(lia) ltac:(lia)) as T.
  replace (4096 * (va / 4096) + va mod 4096) with va in T by lia.
  eapply wp_intro; [exact T|]. by rewrite Hp.
Qed.

Lemma wp_cpu_ldb s vm va :
  vm_ok s vm → data_at s vm va → wp (cpu_ldb vm va) s (λ b s', s' = s ∧ b = pbyte s (phys s vm va)).
Proof.
  intros K D. destruct (data_word _ _ _ K D) as (Hi & Hw & Hz). destruct (data_frame _ _ _ K D) as [Hf _].
  unfold cpu_ldb. wp_step. apply wp_page_walk; [done|done|]. rewrite (proj2 (Z.eqb_neq _ _)) by lia.
  wp_step. eapply wp_ldw; [exact Hf|exact Hi|lia|]. apply wp_ret. split; [done|]. unfold pbyte. by rewrite Hw.
Qed.

(** One word of a data frame changes. *)
Lemma wrote_data s s' vm f i w :
  vm_ok s vm → frame_in s f → ¬ part_of s vm f → 0 <= i < 1024 → is_u32 w →
  wrote s s' f i 1 (λ _, w) → same_but (-1) vm s s'.
Proof.
  intros K (_ & Hf & _) Hn Hi Hw W.
  assert (f ≠ pd_phys vm) as Hne by (intros ->; apply Hn; by left).
  assert (∀ j, 0 <= j < 1 → is_u32 w) as Hv by done. split.
  - by apply (wrote_vm_ok s s' vm f i 1 (λ _, w) K W Hf ltac:(lia) ltac:(lia) ltac:(lia) Hv).
  - apply W.
  - apply W.
  - intros j Hj. by apply (wrote_pde s s' vm f i 1 (λ _, w) K W Hf ltac:(lia) ltac:(lia)).
  - intros p Hp _. apply (wrote_entry_out s s' vm f i 1 (λ _, w) K W Hf ltac:(lia) ltac:(lia) ltac:(lia) Hv); [done|done|].
    intros Hpp Ht. destruct Hn. right. exists (p / 1024). split_and!; [lia|lia|done|done].
Qed.

Lemma wp_cpu_stb s vm va b :
  vm_ok s vm → data_at s vm va → 0 <= b < 256 →
  wp (cpu_stb vm va b) s (λ _ s', same_but (-1) vm s s' ∧
    ∀ x, pbyte s' x = if decide (x = phys s vm va) then b else pbyte s x).
Proof.
  intros K D Hb. destruct (data_word _ _ _ K D) as (Hi & Hw & Hz). destruct (data_frame _ _ _ K D) as [Hf _].
  pose proof D as (_ & _ & _ & Hn).
  unfold cpu_stb. wp_step. apply wp_page_walk; [done|done|]. rewrite (proj2 (Z.eqb_neq _ _)) by lia.
  wp_step. eapply wp_ldw; [exact Hf|exact Hi|lia|].
  eapply wp_stw; [exact Hf|exact Hi|lia|]. intros s' W.
  set (f := page_of (entry s vm (va / 4096))) in *. set (i := va mod 4096 / 4) in *. set (x0 := phys s vm va) in *.
  assert (is_u32 (put_byte (words s (f + 4 * i)) (x0 mod 4) b)) as Hu
    by (apply put_byte_word; [apply (mo_words _ (vo_mem _ _ K))|lia|done]).
  split; [by eapply wrote_data|]. intros x. unfold pbyte.
  destruct (decide (x - x mod 4 = f + 4 * i)) as [E|E].
  - assert (words s' (f + 4 * i) = put_byte (words s (f + 4 * i)) (x0 mod 4) b) as Ew.
    { rewrite <-(wr_in _ _ _ _ _ _ W 0) by lia. f_equal. lia. }
    rewrite E, Ew, byte_of_put_byte by lia. do 2 case_decide; try done; lia.
  - rewrite (wr_out _ _ _ _ _ _ W) by (intros j Hj; lia). rewrite decide_False; [done|]. intros ->. lia.
Qed.

(** [memcpy] between two ranges that share no byte. *)
Lemma wp_cpu_memcpy s vm d a n :
  vm_ok s vm → 0 <= n →
  (∀ i, 0 <= i < n → data_at s vm (d + i)) → (∀ i, 0 <= i < n → data_at s vm (a + i)) →
  (∀ i j, 0 <= i < n → 0 <= j < n → phys s vm (d + i) = phys s vm (d + j) → i = j) →
  (∀ i j, 0 <= i < n → 0 <= j < n → phys s vm (d + i) ≠ phys s vm (a + j)) →
  wp (cpu_memcpy vm d a n) s (λ _ s', same_but (-1) vm s s' ∧
    (∀ i, 0 <= i < n → pbyte s' (phys s vm (d + i)) = pbyte s (phys s vm (a + i))) ∧
    ∀ x, (∀ i, 0 <= i < n → x ≠ phys s vm (d + i)) → pbyte s' x = pbyte s x).
Proof.
  intros K Hn Hd Ha Hinj Hap. unfold cpu_memcpy.
  eapply wp_mono; [apply (wp_for_range (λ k s', same_but (-1) vm s s' ∧
    (∀ i, 0 <= i < k → pbyte s' (phys s vm (d + i)) = pbyte s (phys s vm (a + i))) ∧
    ∀ x, (∀ i, 0 <= i < k → x ≠ phys s vm (d + i)) → pbyte s' x = pbyte s x))|].
  - split; [by apply same_but_refl|]. split; [intros; lia|done].
  - intros k s1 Hk (S & Hin & Hout). pose proof (sb_vm _ _ _ _ S) as K1.
    destruct (data_same _ _ _ _ _ S (Ha k Hk)) as [Da Ea]; [destruct (Ha k Hk); lia|].
    destruct (data_same _ _ _ _ _ S (Hd k Hk)) as [Dd Ed]; [destruct (Hd k Hk); lia|].
    wp_step. eapply wp_mono; [by apply wp_cpu_ldb|]. intros b ? [-> ->].
    eapply wp_mono; [apply wp_cpu_stb; [done|done|apply byte_of_range]|]. intros [] s2 [S2 Hx].
    split; [by eapply same_but_trans|]. rewrite Ed in Hx. split.
    + intros i Hi. rewrite Hx. case_decide as E.
      * apply Hinj in E as ->; [|lia|lia]. rewrite Ea. apply Hout. intros j Hj E. symmetry in E. revert E. apply Hap; lia.
      * apply Hin. destruct (decide (i = k)) as [->|]; [done|lia].
    + intros x Hxo. rewrite Hx, decide_False by (apply Hxo; lia). apply Hout. intros i Hi. apply Hxo. lia.
  - intros [] s'. by rewrite Z.max_r.
Qed.

(* ------------------------------------------------------------------ *)
(** ** The window *)

(** One page under a table that is there: one word of the table is written. *)
Lemma wp_map_present s vm v pa flags :
  vm_ok s vm → 0 <= v < 1048575 → present (pde s vm (v / 1024)) = true → is_u32 pa → pa mod 4096 = 0 →
  wp (hal_vm_map vm (4096 * v) pa flags) s (λ ok s', ok = true ∧
    wrote s s' (table s vm (v / 1024)) (v mod 1024) 1 (λ _, pte_word pa (public_flags_to_arch_flags flags))).
Proof.
  intros K Hv Hp Hu Hpa. unfold hal_vm_map, hal_vm_map_range. change (PAGE_SIZE =? 0) with false. cbn iota.
  apply wp_bind, wp_assert; [apply page_bool|].
  apply wp_bind, wp_assert; [rewrite (is_aligned_mod _ _ pow2_page); by apply Z.eqb_eq|].
  apply wp_bind, wp_assert; [apply (page_bool 1)|].
  replace (u32 (4096 * v + PAGE_SIZE)) with (4096 * (v + 1)) by (unfold PAGE_SIZE; ulia).
  destruct (vo_table s vm K (v / 1024) ltac:(lia) Hp) as (Hf & _ & _). destruct (vo_pd_frame s vm K) as [Hpf _].
  apply (wp_while_n (λ k '(va, pa') s1, k = 1%nat ∧ va = 4096 * v ∧ pa' = pa ∧ s1 = s ∨
    k = 0%nat ∧ va = 4096 * (v + 1) ∧ wrote s s1 (table s vm (v / 1024)) (v mod 1024) 1
      (λ _, pte_word pa (public_flags_to_arch_flags flags))) _ _ _ 1%nat); [by left|unfold range_fuel; lia|].
  intros k [va pa'] s1 [(-> & -> & -> & ->)|(-> & -> & W)].
  - rewrite (proj2 (Z.ltb_lt _ _)) by lia. rewrite chunk_eq by lia. destruct (page_index v) as [-> ->]; [lia|].
    replace (Z.min (1024 - v mod 1024) (v + 1 - v)) with 1 by lia.
    unfold map_page_table_range, get_or_create_page_table.
    do 3 wp_step. apply (wp_ldw s _ (pd_phys vm) (v / 1024)); [done|lia|by rewrite (vo_pd s vm K)|].
    fold (pde s vm (v / 1024)) (present (pde s vm (v / 1024))). rewrite Hp. apply wp_ret. fold (table s vm (v / 1024)).
    assert (table s vm (v / 1024) ≠ 0) as Hz.
    { destruct (vo_table s vm K (v / 1024) ltac:(lia) Hp) as (_ & Hr & _).
      pose proof (refs_pos s _ (vo_mem s vm K) Hr). lia. }
    rewrite (proj2 (Z.eqb_neq _ _) Hz). wp_step.
    eapply wp_mono; [apply wp_fill; [apply K|done|lia|lia|lia]|]. intros [] s2 W. do 2 apply wp_ret. cbn iota.
    exists 0%nat. split; [lia|]. right. split_and!; [done|unfold PAGE_SIZE; ulia|].
    destruct W as [W1 W2 W3 W4]. split; [done|done| |done]. intros i Hi. rewrite W3 by lia.
    replace i with 0 by lia. unfold PAGE_SIZE. by rewrite Z.add_0_r, u32_small.
  - rewrite (proj2 (Z.ltb_ge _ _)) by lia. by apply wp_ret.
Qed.

Lemma wp_unmap_present s vm v :
  vm_ok s vm → 0 <= v < 1048575 → present (entry s vm v) = true →
  wp (hal_vm_unmap vm (4096 * v)) s (λ ok s', ok = true ∧
    wrote s s' (table s vm (v / 1024)) (v mod 1024) 1 (λ _, 0)).
Proof.
  intros K Hv He. unfold hal_vm_unmap, hal_vm_unmap_range. change (PAGE_SIZE =? 0) with false. cbn iota.
  apply wp_bind, wp_assert; [apply page_bool|]. apply wp_bind, wp_assert; [apply (page_bool 1)|].
  replace (u32 (4096 * v + PAGE_SIZE)) with (4096 * (v + 1)) by (unfold PAGE_SIZE; ulia).
  assert (present (pde s vm (v / 1024)) = true) as Hp.
  { unfold entry in He. by destruct (present (pde s vm (v / 1024))). }
  destruct (vo_table s vm K (v / 1024) ltac:(lia) Hp) as (Hf & _ & _). destruct (vo_pd_frame s vm K) as [Hpf _].
  apply (wp_while_n (λ k va s1, k = 1%nat ∧ va = 4096 * v ∧ s1 = s ∨
    k = 0%nat ∧ va = 4096 * (v + 1) ∧ wrote s s1 (table s vm (v / 1024)) (v mod 1024) 1 (λ _, 0))
    _ _ _ 1%nat); [by left|unfold range_fuel; lia|].
  intros k va s1 [(-> & -> & ->)|(-> & -> & W)].
  - rewrite (proj2 (Z.ltb_lt _ _)) by lia. rewrite chunk_eq by lia. destruct (page_index v) as [-> ->]; [lia|].
    replace (Z.min (1024 - v mod 1024) (v + 1 - v)) with 1 by lia. unfold unmap_page_table_range.
    do 2 wp_step. apply (wp_ldw s _ (pd_phys vm) (v / 1024)); [done|lia|by rewrite (vo_pd s vm K)|].
    fold (pde s vm (v / 1024)) (present (pde s vm (v / 1024))). rewrite Hp. cbn [negb]. fold (table s vm (v / 1024)).
    rewrite (mem_window s) by (done || apply K). wp_step.
    eapply wp_mono; [apply (wp_wrote_loop s (table s vm (v / 1024)) (v mod 1024) 1 (λ _, 0)); [lia|]|].
    { intros i s' Hi W. replace i with 0 by lia. wp_step.
      assert (frame_in s' (table s vm (v / 1024))) as Hf' by (eapply frame_in_top; [apply W|done]).
      apply (wp_ldw s' _ (table s vm (v / 1024)) (v mod 1024 + 0)); [done|lia|lia|].
      rewrite (wr_out _ _ _ _ _ _ W) by lia. unfold entry in He. rewrite Hp in He. rewrite Z.add_0_r.
      fold (present (words s (table s vm (v / 1024) + 4 * (v mod 1024)))). rewrite He. cbn [when].
      apply (wp_stw s' _ (table s vm (v / 1024)) (v mod 1024)); [done|lia|lia|]. intros s2 W2. exact W2. }
    intros [] s2 W. change (1 =? PT_ENTRIES) with false. rewrite andb_false_r. cbn [when]. apply wp_ret, wp_ret.
    exists 0%nat. split; [lia|]. right. split_and!; [done|unfold PAGE_SIZE; ulia|done].
  - rewrite (proj2 (Z.ltb_ge _ _)) by lia. by apply wp_ret.
Qed.

(** Bytes outside the page tables. *)
Definition quiet (vm : arch_vm_t) (s s' : Vm) : Prop :=
  ∀ x, ¬ part_of s vm (x - x mod 4096) → pbyte s' x = pbyte s x.

(** The word of page [q] in its table changes. *)
Lemma wrote_entry s s' vm q w :
  vm_ok s vm → 0 <= q < 1048576 → present (pde s vm (q / 1024)) = true → is_u32 w →
  wrote s s' (table s vm (q / 1024)) (q mod 1024) 1 (λ _, w) →
  same_but q vm s s' ∧ entry s' vm q = w ∧ quiet vm s s'.
Proof.
  intros K Hq Hp Hw W. destruct (vo_table s vm K (q / 1024) ltac:(lia) Hp) as ((_ & Hf & _) & _ & Hne).
  assert (∀ j, 0 <= j < 1 → is_u32 w) as Hv by done.
  set (f := table s vm (q / 1024)) in *. set (i := q mod 1024) in *. split_and!; [split|..].
  - by apply (wrote_vm_ok s s' vm f i 1 (λ _, w) K W Hf ltac:(lia) ltac:(lia) ltac:(lia) Hv).
  - apply W.
  - apply W.
  - intros j Hj. by apply (wrote_pde s s' vm f i 1 (λ _, w) K W Hf ltac:(lia) ltac:(lia)).
  - intros p Hpr Hpq. apply (wrote_entry_out s s' vm f i 1 (λ _, w) K W Hf ltac:(lia) ltac:(lia) ltac:(lia) Hv); [done|done|].
    intros Hpp Ht. apply (vo_inj s vm K) in Ht; [lia|lia|lia|done|done].
  - replace q with (1024 * (q / 1024) + (i + 0)) by lia.
    apply (wrote_entry_in s s' vm f i 1 (λ _, w) K W Hf ltac:(lia) ltac:(lia) ltac:(lia) Hv); [lia|done|done|lia].
  - intros x Hx. unfold pbyte. rewrite (wr_out _ _ _ _ _ _ W); [done|]. intros j Hj E. apply Hx.
    right. exists (q / 1024). split_and!; [lia|lia|done|]. fold f. lia.
Qed.

Definition window_ready (s : Vm) (vm : arch_vm_t) : Prop := present (pde s vm (KMAPPING_PAGE / 1024)) = true.

Lemma window_same q vm s s' : same_but q vm s s' → window_ready s vm → window_ready s' vm.
Proof. intros S. unfold window_ready. by rewrite (sb_pde _ _ _ _ S) by done. Qed.

Lemma window_page off : 0 <= off < 4096 →
  (KMAPPING_BASE + off) / 4096 = KMAPPING_PAGE ∧ (KMAPPING_BASE + off) mod 4096 = off.
Proof. intros H. change KMAPPING_BASE with 4026535936. change KMAPPING_PAGE with 983041. lia. Qed.

(** The window over data frame [f]. *)
Lemma wp_window_map s vm f flags :
  vm_ok s vm → window_ready s vm → frame_in s f → 0 < refs s f → ¬ part_of s vm f →
  wp (hal_vm_map vm KMAPPING_BASE f flags) s (λ _ s', same_but KMAPPING_PAGE vm s s' ∧ quiet vm s s' ∧
    present (entry s' vm KMAPPING_PAGE) = true ∧
    ∀ off, 0 <= off < 4096 → data_at s' vm (KMAPPING_BASE + off) ∧ phys s' vm (KMAPPING_BASE + off) = f + off).
Proof.
  intros K Hw Hf Hr Hn. pose proof (frame_u32 s f (vo_mem _ _ K) Hf) as Hu. pose proof Hf as (_ & Hm & _).
  change KMAPPING_BASE with (4096 * KMAPPING_PAGE).
  eapply wp_mono; [apply wp_map_present; [done|by vm_compute|done|done|done]|]. intros ok s' [-> W].
  destruct (pte_word_ok f (public_flags_to_arch_flags flags)) as (Hpu & Hpf & Hpp); [done|done|].
  apply wrote_entry in W as (S & He & Hq); [|done|by vm_compute|done|done].
  split; [done|]. split; [done|]. split; [by rewrite He|]. intros off Ho.
  change (4096 * KMAPPING_PAGE) with KMAPPING_BASE. destruct (window_page off Ho) as [E1 E2].
  unfold data_at, phys. rewrite E1, E2, He, Hpf.
  rewrite (same_refs _ _ _ _ _ S), (same_part _ _ _ _ _ S). split; [|done]. split_and!; [| |done|done|done];
    change KMAPPING_BASE with 4026535936; lia.
Qed.

Lemma wp_window_unmap s vm :
  vm_ok s vm → present (entry s vm KMAPPING_PAGE) = true →
  wp (hal_vm_unmap vm KMAPPING_BASE) s (λ _ s', same_but KMAPPING_PAGE vm s s' ∧ quiet vm s s').
Proof.
  intros K He. change KMAPPING_BASE with (4096 * KMAPPING_PAGE).
  eapply wp_mono; [apply wp_unmap_present; [done|by vm_compute|done]|]. intros ok s' [-> W].
  apply wrote_entry in W as (S & _ & Hq); [done|done|by vm_compute| |ulia].
  unfold entry in He. by destruct (present (pde s vm (KMAPPING_PAGE / 1024))).
Qed.

(* ------------------------------------------------------------------ *)
(** ** Whole copies *)

(** [k] bytes went from virtual address [a] to [d]. Frames that are no page
    tables are otherwise unchanged, and so is the space but for the window. *)
Record transferred (vm : arch_vm_t) (s s' : Vm) (d a k : Z) : Prop := {
  tr_same : same_but KMAPPING_PAGE vm s s';
  tr_in : ∀ j, 0 <= j < k → pbyte s' (phys s vm (d + j)) = pbyte s (phys s vm (a + j));
  tr_out : ∀ x, ¬ part_of s vm (x - x mod 4096) → (∀ j, 0 <= j < k → x ≠ phys s vm (d + j)) →
    pbyte s' x = pbyte s x
}.

(** Both ranges are mapped outside the window, no frame twice in the
    destination, and they share no frame. *)
Record copyable (s : Vm) (vm : arch_vm_t) (d a n : Z) : Prop := {
  cp_dst : ∀ j, 0 <= j < n → data_at s vm (d + j) ∧ (d + j) / 4096 ≠ KMAPPING_PAGE;
  cp_src : ∀ j, 0 <= j < n → data_at s vm (a + j) ∧ (a + j) / 4096 ≠ KMAPPING_PAGE;
  cp_inj : ∀ i j, 0 <= i < n → 0 <= j < n → phys s vm (d + i) = phys s vm (d + j) → i = j;
  cp_apart : ∀ i j, 0 <= i < n → 0 <= j < n → phys s vm (d + i) ≠ phys s vm (a + j)
}.

Lemma data_outside s vm va : vm_ok s vm → data_at s vm va → ¬ part_of s vm (phys s vm va - phys s vm va mod 4096).
Proof.
  intros K D. destruct (data_frame _ _ _ K D) as [(? & Hm & _) ?]. destruct D as (_ & _ & _ & Hn).
  unfold phys. by replace (_ - _) with (page_of (entry s vm (va / 4096))) by lia.
Qed.

Lemma transferred_nil vm s d a : vm_ok s vm → transferred vm s s d a 0.
Proof. intros K. split; [by apply same_but_refl|intros; lia|done]. Qed.

Lemma phys_same vm s s' va :
  same_but KMAPPING_PAGE vm s s' → data_at s vm va ∧ va / 4096 ≠ KMAPPING_PAGE → phys s' vm va = phys s vm va.
Proof. intros S [D Hq]. by apply (data_same _ _ _ _ _ S D). Qed.

Lemma transferred_app vm s s1 s2 d a k n :
  vm_ok s vm → 0 <= k → 0 <= n → copyable s vm d a (k + n) →
  transferred vm s s1 d a k → transferred vm s1 s2 (d + k) (a + k) n → transferred vm s s2 d a (k + n).
Proof.
  intros K Hk Hn C [S1 I1 O1] [S2 I2 O2].
  assert (∀ i, 0 <= i < n → phys s1 vm (d + k + i) = phys s vm (d + (k + i))) as Ed.
  { intros i Hi. rewrite <-Z.add_assoc. apply phys_same; [done|]. apply (cp_dst _ _ _ _ _ C). lia. }
  assert (∀ i, 0 <= i < n → phys s1 vm (a + k + i) = phys s vm (a + (k + i))) as Ea.
  { intros i Hi. rewrite <-Z.add_assoc. apply phys_same; [done|]. apply (cp_src _ _ _ _ _ C). lia. }
  split; [by eapply same_but_trans|..].
  - intros j Hj. destruct (decide (j < k)) as [Hlt|Hge].
    + rewrite O2; [apply I1; lia|..].
      * rewrite (same_part _ _ _ _ _ S1). apply data_outside; [done|]. apply (cp_dst _ _ _ _ _ C). lia.
      * intros i Hi. rewrite Ed by done. intros E. apply (cp_inj _ _ _ _ _ C) in E; lia.
    + replace j with (k + (j - k)) by lia. rewrite <-Ed, <-Ea, I2 by lia. apply O1; rewrite Ea by lia.
      * apply data_outside; [done|]. apply (cp_src _ _ _ _ _ C). lia.
      * intros i Hi E. symmetry in E. revert E. apply (cp_apart _ _ _ _ _ C); lia.
  - intros x Hx Ho. rewrite O2; [apply O1; [done|]; intros i Hi; apply Ho; lia|..].
    + by rewrite (same_part _ _ _ _ _ S1).
    + intros i Hi. rewrite Ed by done. apply Ho. lia.
Qed.

Lemma copyable_sub s s1 vm d a k n :
  0 <= k → same_but KMAPPING_PAGE vm s s1 → copyable s vm d a (k + n) → copyable s1 vm (d + k) (a + k) n.
Proof.
  intros Hk S C.
  assert (∀ i, 0 <= i < n → phys s1 vm (d + k + i) = phys s vm (d + (k + i))) as Ed.
  { intros i Hi. rewrite <-Z.add_assoc. apply phys_same; [done|]. apply (cp_dst _ _ _ _ _ C). lia. }
  assert (∀ i, 0 <= i < n → phys s1 vm (a + k + i) = phys s vm (a + (k + i))) as Ea.
  { intros i Hi. rewrite <-Z.add_assoc. apply phys_same; [done|]. apply (cp_src _ _ _ _ _ C). lia. }
  split.
  - intros j Hj. destruct (cp_dst _ _ _ _ _ C (k + j)) as [D Hq]; [lia|].
    rewrite <-Z.add_assoc. split; [by apply (data_same _ _ _ _ _ S D)|done].
  - intros j Hj. destruct (cp_src _ _ _ _ _ C (k + j)) as [D Hq]; [lia|].
    rewrite <-Z.add_assoc. split; [by apply (data_same _ _ _ _ _ S D)|done].
  - intros i j Hi Hj. rewrite !Ed by done. intros E. apply (cp_inj _ _ _ _ _ C) in E; lia.
  - intros i j Hi Hj. rewrite Ed, Ea by done. apply (cp_apart _ _ _ _ _ C); lia.
Qed.

(** The addresses of a run inside one page. *)
Lemma phys_run s vm va i :
  0 <= i → va mod 4096 + i < 4096 →
  phys s vm (va + i) = page_of (entry s vm (va / 4096)) + (va mod 4096 + i).
Proof.
  intros H0 H. unfold phys. replace ((va + i) / 4096) with (va / 4096) by lia. f_equal. lia.
Qed.

(** The window shows the bytes of frame [f]. *)
Definition window_over (s : Vm) (vm : arch_vm_t) (f : Z) : Prop :=
  ∀ off, 0 <= off < 4096 → data_at s vm (KMAPPING_BASE + off) ∧ phys s vm (KMAPPING_BASE + off) = f + off.

(** Addresses of [s1] that lead where others lead in [s]. *)
Definition leads (vm : arch_vm_t) (s s1 : Vm) (va1 va n : Z) : Prop :=
  ∀ i, 0 <= i < n → data_at s1 vm (va1 + i) ∧ phys s1 vm (va1 + i) = phys s vm (va + i).

Lemma leads_same vm s s1 va n :
  same_but KMAPPING_PAGE vm s s1 →
  (∀ j, 0 <= j < n → data_at s vm (va + j) ∧ (va + j) / 4096 ≠ KMAPPING_PAGE) → leads vm s s1 va va n.
Proof. intros S H i Hi. destruct (H i Hi) as [D Hq]. by apply (data_same _ _ _ _ _ S D). Qed.

Lemma leads_window vm s s1 va n :
  window_over s1 vm (page_of (entry s vm (va / 4096))) → va mod 4096 + n <= 4096 →
  leads vm s s1 (KMAPPING_BASE + va mod 4096) va n.
Proof.
  intros W He i Hi. rewrite <-Z.add_assoc. destruct (W (va mod 4096 + i)) as [? ->]; [lia|]. split; [done|].
  rewrite phys_run by lia. lia.
Qed.

(** [memcpy] from [A1] to [D1] while the window is over frame [f]. *)
Lemma wp_window_copy (v : V) vm f D1 A1 d a n A (k : M V A) (Q : A → V → Prop) :
  let s := mem v in
  vm_ok s vm → window_ready s vm → frame_in s f → 0 < refs s f → ¬ part_of s vm f →
  copyable s vm d a n → 0 <= n →
  (∀ s1, same_but KMAPPING_PAGE vm s s1 → window_over s1 vm f → leads vm s s1 D1 d n ∧ leads vm s s1 A1 a n) →
  (∀ s', transferred vm s s' d a n → wp k (set_mem s' v) Q) →
  wp (on_mem (hal_vm_map vm KMAPPING_BASE f PAGE_READWRITE) ;;
      on_mem (cpu_memcpy vm D1 A1 n) ;;
      on_mem (hal_vm_unmap vm KMAPPING_BASE) ;; k) v Q.
Proof.
  intros s K Hw Hf Hr Hnp C Hn HL HQ.
  wp_step. apply wp_zoom. eapply wp_mono; [by apply wp_window_map|]. intros ok1 s1 (S1 & Q1 & He & Hwin).
  pose proof (sb_vm _ _ _ _ S1) as K1. destruct (HL s1 S1 Hwin) as [Hd Ha].
  wp_step. apply wp_zoom. cbn [mem set_mem]. eapply wp_mono.
  { apply (wp_cpu_memcpy s1 vm _ _ n K1); [done|apply Hd|apply Ha|..].
    - intros i j Hi Hj. rewrite (proj2 (Hd i Hi)), (proj2 (Hd j Hj)). by apply (cp_inj _ _ _ _ _ C).
    - intros i j Hi Hj. rewrite (proj2 (Hd i Hi)), (proj2 (Ha j Hj)). by apply (cp_apart _ _ _ _ _ C). }
  intros [] s2 (S2 & I2 & O2). wp_step. apply wp_zoom. cbn [mem set_mem].
  eapply wp_mono; [apply wp_window_unmap; [apply S2|by rewrite (sb_entry _ _ _ _ S2)]|]. intros ok3 s3 [S3 Q3].
  apply HQ. assert (same_but KMAPPING_PAGE vm s s2) as S12 by (eapply same_but_trans; [exact S1|by apply same_but_any]).
  split; [by eapply same_but_trans|..].
  - intros j Hj. rewrite Q3.
    2:{ rewrite (same_part _ _ _ _ _ S12). apply data_outside; [done|]. by apply (cp_dst _ _ _ _ _ C). }
    rewrite <-(proj2 (Hd j Hj)), I2, (proj2 (Ha j Hj)) by done. apply Q1, data_outside; [done|]. by apply (cp_src _ _ _ _ _ C).
  - intros x Hx Ho. rewrite Q3 by (by rewrite (same_part _ _ _ _ _ S12)). rewrite O2; [by apply Q1|].
    intros i Hi. rewrite (proj2 (Hd i Hi)). by apply Ho.
Qed.

(** A run inside one page: the window is the destination, or the source. *)
Lemma wp_run_to (v : V) vm d a n A (k : M V A) (Q : A → V → Prop) :
  let s := mem v in
  vm_ok s vm → window_ready s vm → copyable s vm d a n → 0 < n → d mod 4096 + n <= 4096 →
  (∀ s', transferred vm s s' d a n → wp k (set_mem s' v) Q) →
  wp (on_mem (hal_vm_map vm KMAPPING_BASE (page_of (entry s vm (d / 4096))) PAGE_READWRITE) ;;
      on_mem (cpu_memcpy vm (KMAPPING_BASE + d mod 4096) a n) ;;
      on_mem (hal_vm_unmap vm KMAPPING_BASE) ;; k) v Q.
Proof.
  intros s K Hw C Hn Hend HQ. destruct (cp_dst _ _ _ _ _ C 0) as [D _]; [lia|]. rewrite Z.add_0_r in D.
  destruct (data_frame _ _ _ K D) as [Hf _]. destruct D as (_ & _ & Hr & Hnp).
  eapply wp_window_copy; [done..|lia| |done]. intros s1 S1 W.
  split; [by apply leads_window|apply leads_same; [done|apply C]].
Qed.

Lemma wp_run_from (v : V) vm d a n A (k : M V A) (Q : A → V → Prop) :
  let s := mem v in
  vm_ok s vm → window_ready s vm → copyable s vm d a n → 0 < n → a mod 4096 + n <= 4096 →
  (∀ s', transferred vm s s' d a n → wp k (set_mem s' v) Q) →
  wp (on_mem (hal_vm_map vm KMAPPING_BASE (page_of (entry s vm (a / 4096))) PAGE_READWRITE) ;;
      on_mem (cpu_memcpy vm d (KMAPPING_BASE + a mod 4096) n) ;;
      on_mem (hal_vm_unmap vm KMAPPING_BASE) ;; k) v Q.
Proof.
  intros s K Hw C Hn Hend HQ. destruct (cp_src _ _ _ _ _ C 0) as [D _]; [lia|]. rewrite Z.add_0_r in D.
  destruct (data_frame _ _ _ K D) as [Hf _]. destruct D as (_ & _ & Hr & Hnp).
  eapply wp_window_copy; [done..|lia| |done]. intros s1 S1 W.
  split; [apply leads_same; [done|apply C]|by apply leads_window].
Qed.

(* ------------------------------------------------------------------ *)
(** ** The loops *)

(** The state in which the system calls run: the handle at [h] is the current
    process's, its directory is loaded, the kernel part of the window's table
    exists and the lock is free. *)
Record copy_ready (v : V) (h : Z) (vm : arch_vm_t) : Prop := {
  cr_handle : h ≠ 0 ∧ archs v !! h = Some vm;
  cr_loaded : cr3 v = pd_phys vm;
  cr_vm : vm_ok (mem v) vm;
  cr_window : window_ready (mem v) vm;
  cr_lock : sl_val (kmpping_lock v).1 = 0
}.

(** Only memory changed; the lock is free and interrupts are as before. *)
Definition only_mem (v v' : V) : Prop :=
  ∃ i, v' = set_kmpping_lock (Spinlock 0 i, (kmpping_lock v).2) (set_mem (mem v') v).

Lemma cpu_vm_ok s vm : vm_ok s vm → cpu_vm (pd_phys vm) = vm.
Proof.
  intros K. unfold cpu_vm. destruct (vo_pd_frame s vm K) as [Hf _].
  pose proof (mem_window s _ (vo_mem _ _ K) Hf) as E. unfold get_pt_virtual in E. rewrite E, <-(vo_pd s vm K).
  by destruct vm.
Qed.

(** How far the loop is after [k] bytes, with the lock held. *)
Record copying (v : V) (vm : arch_vm_t) (d a k : Z) (v1 : V) : Prop := {
  cg_moved : transferred vm (mem v) (mem v1) d a k;
  cg_rest : v1 = set_kmpping_lock (Spinlock 1 (kmpping_lock v).2, false) (set_mem (mem v1) v)
}.

Lemma wp_acquire (v : V) h vm d a (Q : unit → V → Prop) :
  copy_ready v h vm → (∀ v1, copying v vm d a 0 v1 → Q tt v1) → wp kmpping_acquire v Q.
Proof.
  intros R HQ. unfold kmpping_acquire. apply wp_zoom. unfold spinlock_acquire.
  destruct (kmpping_lock v) as [l i] eqn:E. wp_steps; [|apply HQ; split; cbn [mem set_kmpping_lock]].
  - pose proof (cr_lock _ _ _ R) as Hl. rewrite E in Hl. by apply Z.eqb_eq.
  - apply transferred_nil, R.
  - unfold set_mem, set_kmpping_lock. cbn. by rewrite E.
Qed.

Lemma wp_kmpping_release v vm d a k v1 (Q : unit → V → Prop) :
  copying v vm d a k v1 →
  (∀ v', transferred vm (mem v) (mem v') d a k → only_mem v v' → Q tt v') → wp kmpping_release v1 Q.
Proof.
  intros [T E] HQ. rewrite E. unfold kmpping_release. apply wp_zoom. unfold spinlock_release.
  cbn [kmpping_lock set_kmpping_lock]. destruct (kmpping_lock v) as [l i] eqn:El. destruct i; wp_steps; try done;
    apply HQ; try done; eexists; unfold set_mem, set_kmpping_lock; cbn; by rewrite El.
Qed.

Lemma page_base_of va : is_u32 va → Z.land va (not32 (PAGE_SIZE - 1)) = 4096 * (va / 4096).
Proof. intros H. change (PAGE_SIZE - 1) with 4095. fold (page_of va). rewrite page_of_eq by done. lia. Qed.

(** A run that stays inside the page. *)
Definition run (va remaining : Z) : Z :=
  if remaining <? PAGE_SIZE - va mod PAGE_SIZE then remaining else PAGE_SIZE - va mod PAGE_SIZE.

Lemma run_ok va remaining : 0 < remaining → 0 < run va remaining <= remaining ∧ va mod 4096 + run va remaining <= 4096.
Proof. unfold run, PAGE_SIZE. case_match eqn:E; intros; blia. Qed.

(** Where the copy stops: at the end, or in front of a page that is absent. *)
Definition stops (s : Vm) (vm : arch_vm_t) (va m size : Z) : Prop :=
  0 <= m <= size ∧ (m < size → (m = 0 ∨ (va + m) mod 4096 = 0) ∧ present (entry s vm ((va + m) / 4096)) = false ∧
    (va + m) / 4096 ≠ KMAPPING_PAGE).

(** Turns left after [k] of [size] bytes. *)
Definition copy_turns (va k size : Z) : nat :=
  if k <? size then Z.to_nat (1 + (va + size - 1) / 4096 - (va + k) / 4096) else 0%nat.

Lemma copy_turns_next va k size :
  0 <= k < size → (copy_turns va (k + run (va + k) (size - k)) size < copy_turns va k size)%nat.
Proof.
  intros Hk. pose proof (run_ok (va + k) (size - k)). unfold copy_turns, run, PAGE_SIZE in *.
  rewrite (proj2 (Z.ltb_lt k size)) by lia. do 2 case_match; autorewrite with kbool in *; lia.
Qed.

Lemma copy_turns_fuel va size : 0 <= va → 0 <= size → va + size < 4294967296 → (copy_turns va 0 size < copy_fuel)%nat.
Proof. intros H1 H2 H3. unfold copy_turns, copy_fuel. case_match; lia. Qed.

(** The loop's variables after [k] bytes of which [m] can be copied. *)
Definition copy_at (v : V) (vm : arch_vm_t) (va d a m size : Z) (t : nat) (x : Z * Z * Z) (v1 : V) : Prop :=
  ∃ k, 0 <= k <= m ∧ x = (size - k, d + k, a + k) ∧ copying v vm d a k v1 ∧ t = copy_turns va k size.

(** The walk to the next page, and what follows from its result. *)
Lemma wp_copy_walk v h vm va d a m size k v1 {A} (K : Z → M V A) (Q : A → V → Prop) :
  copy_ready v h vm → is_u32 va → 0 <= m <= size → va + size < 4294967296 → stops (mem v) vm va m size →
  0 <= k <= m → k < size → copying v vm d a k v1 →
  (∀ j, 0 <= j < m → data_at (mem v) vm (va + j) ∧ (va + j) / 4096 ≠ KMAPPING_PAGE) →
  (k = m → wp (K 0) v1 Q) →
  (k < m → k + run (va + k) (size - k) <= m →
   0 < page_of (entry (mem v1) vm ((va + k) / 4096)) →
   wp (K (page_of (entry (mem v1) vm ((va + k) / 4096)))) v1 Q) →
  wp (handle ← arch h; p ← on_mem (hal_vm_virt_to_phys handle (Z.land (va + k) (not32 (PAGE_SIZE - 1)))); K p) v1 Q.
Proof.
  intros R Hva Hm Hend [_ Hstop] Hk Hks [T E] Hdata H0 H1. destruct (cr_handle _ _ _ R) as [Hh Hl].
  pose proof (tr_same _ _ _ _ _ _ T) as S. pose proof (sb_vm _ _ _ _ S) as K1.
  wp_step. eapply wp_deref; [by rewrite E|]. wp_step. apply wp_zoom. rewrite page_base_of by ulia.
  pose proof (translate (mem v1) vm ((va + k) / 4096) 0 K1 ltac:(ulia) ltac:(lia)) as Tr. rewrite Z.add_0_r in Tr.
  eapply wp_intro; [exact Tr|]. replace (set_mem (mem v1) v1) with v1 by (by destruct v1).
  destruct (decide (k = m)) as [->|Hne].
  - destruct Hstop as (_ & Ha & Hq); [lia|]. rewrite (sb_entry _ _ _ _ S), Ha by (ulia || done). by apply H0.
  - destruct (Hdata k) as [D Hq]; [lia|]. destruct (data_same _ _ _ _ _ S D Hq) as [D1 _].
    destruct (data_frame _ _ _ K1 D1) as [_ Hpos]. destruct D1 as (_ & Hp & _). rewrite Hp, Z.add_0_r.
    apply H1; [lia| |done]. pose proof (run_ok (va + k) (size - k)).
    destruct (decide (m = size)) as [->|]; [lia|]. destruct Hstop as ([?|?] & _); lia.
Qed.

Lemma copy_at_next v vm va d a m size k v1 s' :
  vm_ok (mem v) vm → copyable (mem v) vm d a m → is_u32 d → is_u32 a → d + size < 4294967296 → a + size < 4294967296 →
  0 <= k <= m → m <= size → k < size → copying v vm d a k v1 → let n := run (va + k) (size - k) in k + n <= m →
  transferred vm (mem v1) s' (d + k) (a + k) n →
  ∃ t, (t < copy_turns va k size)%nat ∧
    copy_at v vm va d a m size t (size - k - n, u32 (d + k + n), u32 (a + k + n)) (set_mem s' v1).
Proof.
  intros K C Hd Ha Hde Hae Hk Hm Hks [T E] n Hn T2. pose proof (run_ok (va + k) (size - k) ltac:(lia)).
  exists (copy_turns va (k + n) size). split; [apply copy_turns_next; lia|]. exists (k + n). split; [lia|].
  split; [f_equal; [f_equal|]; ulia|]. split; [split|done].
  - eapply transferred_app; [done|lia|lia| |exact T|exact T2]. split; intros; apply C; try lia; done.
  - rewrite E. reflexivity.
Qed.

Lemma copyable_le s vm d a n m : n <= m → copyable s vm d a m → copyable s vm d a n.
Proof. intros H C. split; intros; apply C; (lia || done). Qed.

(** The first [m] bytes are moved, up to the end or an absent page. *)
Lemma wp_vmspace_copy_to v h vm d a m size :
  copy_ready v h vm → is_u32 d → is_u32 a → d + size < 4294967296 → a + size < 4294967296 →
  stops (mem v) vm d m size → copyable (mem v) vm d a m →
  wp (vmspace_copy_to h h d a size) v (λ r v',
    r = (if m =? size then 0 else - EFAULT) ∧ transferred vm (mem v) (mem v') d a m ∧ only_mem v v').
Proof.
  intros R Hd Ha Hde Hae Hst C. pose proof Hst as [Hm _]. destruct (cr_handle _ _ _ R) as [Hh Hl].
  unfold vmspace_copy_to. rewrite (proj2 (Z.eqb_neq _ _) Hh). wp_step. eapply wp_acquire; [exact R|]. intros v0 C0.
  apply (wp_while_n (copy_at v vm d d a m size) _ _ _ (copy_turns d 0 size)).
  { exists 0. rewrite !Z.add_0_r, Z.sub_0_r. split; [lia|]. done. }
  { apply copy_turns_fuel; ulia. }
  intros t [[rem d'] a'] v1 (k & Hk & [= -> -> ->] & Cg & ->). destruct (Z.ltb_spec 0 (size - k)) as [Hlt|Hge].
  2:{ wp_step. eapply wp_kmpping_release; [exact Cg|]. intros v' T O. apply wp_ret.
      assert (k = size) as -> by lia. assert (m = size) as -> by lia. by rewrite Z.eqb_refl. }
  fold (run (d + k) (size - k)).
  eapply (wp_copy_walk v h vm d d a m size k v1); [done|done|lia|done|done|done|lia|done|apply C|..].
  - intros ->. change (0 =? 0) with true. cbn iota. wp_step. eapply wp_kmpping_release; [exact Cg|]. intros v' T O. apply wp_ret.
    by rewrite (proj2 (Z.eqb_neq m size)) by lia.
  - intros Hkm Hrun Hpos. rewrite (proj2 (Z.eqb_neq _ _)) by lia.
    pose proof Cg as [T E]. pose proof (tr_same _ _ _ _ _ _ T) as S.
    wp_step. eapply wp_deref; [by rewrite E|]. do 2 wp_step. replace (cr3 v1) with (pd_phys vm) by (rewrite E; symmetry; apply R).
    rewrite (cpu_vm_ok _ _ (cr_vm _ _ _ R)). pose proof (run_ok (d + k) (size - k) ltac:(lia)).
    change ((d + k) mod PAGE_SIZE) with ((d + k) mod 4096). eapply wp_run_to; [apply S|eapply window_same; [exact S|apply R]| |lia|lia|].
    { eapply copyable_sub; [lia|exact S|]. by eapply copyable_le; [|exact C]. }
    intros s' T2. apply wp_ret. cbn iota. eapply copy_at_next; try done; [apply R|lia..].
Qed.

Lemma wp_vmspace_copy_from v h vm d a m size :
  copy_ready v h vm → is_u32 d → is_u32 a → d + size < 4294967296 → a + size < 4294967296 →
  stops (mem v) vm a m size → copyable (mem v) vm d a m →
  wp (vmspace_copy_from h h d a size) v (λ r v',
    r = (if m =? size then 0 else - EFAULT) ∧ transferred vm (mem v) (mem v') d a m ∧ only_mem v v').
Proof.
  intros R Hd Ha Hde Hae Hst C. pose proof Hst as [Hm _]. destruct (cr_handle _ _ _ R) as [Hh Hl].
  unfold vmspace_copy_from. rewrite (proj2 (Z.eqb_neq _ _) Hh). wp_step. eapply wp_acquire; [exact R|]. intros v0 C0.
  apply (wp_while_n (copy_at v vm a d a m size) _ _ _ (copy_turns a 0 size)).
  { exists 0. rewrite !Z.add_0_r, Z.sub_0_r. split; [lia|]. done. }
  { apply copy_turns_fuel; ulia. }
  intros t [[rem d'] a'] v1 (k & Hk & [= -> -> ->] & Cg & ->). destruct (Z.ltb_spec 0 (size - k)) as [Hlt|Hge].
  2:{ wp_step. eapply wp_kmpping_release; [exact Cg|]. intros v' T O. apply wp_ret.
      assert (k = size) as -> by lia. assert (m = size) as -> by lia. by rewrite Z.eqb_refl. }
  fold (run (a + k) (size - k)).
  eapply (wp_copy_walk v h vm a d a m size k v1); [done|done|lia|done|done|done|lia|done|apply C|..].
  - intros ->. change (0 =? 0) with true. cbn iota. wp_step. eapply wp_kmpping_release; [exact Cg|]. intros v' T O. apply wp_ret.
    by rewrite (proj2 (Z.eqb_neq m size)) by lia.
  - intros Hkm Hrun Hpos. rewrite (proj2 (Z.eqb_neq _ _)) by lia.
    pose proof Cg as [T E]. pose proof (tr_same _ _ _ _ _ _ T) as S.
    wp_step. eapply wp_deref; [by rewrite E|]. do 2 wp_step. replace (cr3 v1) with (pd_phys vm) by (rewrite E; symmetry; apply R).
    rewrite (cpu_vm_ok _ _ (cr_vm _ _ _ R)). pose proof (run_ok (a + k) (size - k) ltac:(lia)).
    change ((a + k) mod PAGE_SIZE) with ((a + k) mod 4096).
    eapply wp_run_from; [apply S|eapply window_same; [exact S|apply R]| |lia|lia|].
    { eapply copyable_sub; [lia|exact S|]. by eapply copyable_le; [|exact C]. }
    intros s' T2. apply wp_ret. cbn iota. eapply copy_at_next; try done; [apply R|lia..].
Qed.

(** What the processor reads through a space. *)
Definition reads (vm : arch_vm_t) (s : Vm) (va : Z) : option Z := fst <$> cpu_ldb vm va s.

Lemma reads_data s vm va : vm_ok s vm → data_at s vm va → reads vm s va = Some (pbyte s (phys s vm va)).
Proof. intros K D. destruct (wp_elim _ _ _ (wp_cpu_ldb s vm va K D)) as (b & s' & E & -> & ->). unfold reads. by rewrite E. Qed.

Lemma reads_moved s s' vm d a k j :
  vm_ok s vm → copyable s vm d a k → transferred vm s s' d a k → 0 <= j < k → reads vm s' (d + j) = reads vm s (a + j).
Proof.
  intros K C [S I _] Hj. destruct (cp_dst _ _ _ _ _ C j Hj) as [Dd Hq]. destruct (cp_src _ _ _ _ _ C j Hj) as [Da _].
  destruct (data_same _ _ _ _ _ S Dd Hq) as [Dd' E]. rewrite !reads_data by (done || apply S). by rewrite E, I.
Qed.

Lemma reads_kept s s' vm d a k va :
  vm_ok s vm → transferred vm s s' d a k → data_at s vm va → va / 4096 ≠ KMAPPING_PAGE →
  (∀ j, 0 <= j < k → phys s vm va ≠ phys s vm (d + j)) → reads vm s' va = reads vm s va.
Proof.
  intros K [S _ O] D Hq Hne. destruct (data_same _ _ _ _ _ S D Hq) as [D' E]. rewrite !reads_data by (done || apply S).
  rewrite E, O; [done|by apply data_outside|done].
Qed.

Lemma copy_ready_after v v' h vm d a k :
  copy_ready v h vm → transferred vm (mem v) (mem v') d a k → only_mem v v' → copy_ready v' h vm.
Proof.
  intros [H1 H2 H3 H4 H5] T [i E]. pose proof (tr_same _ _ _ _ _ _ T) as S.
  split; [by rewrite E|by rewrite E|apply S|by eapply window_same|by rewrite E].
Qed.

(** C15: [vmspace_copy_to] into the current space, as [uaccess_copy_to_user] and
    [sys_execve] call it, byte by byte. The call always returns. It moves the
    [m] bytes in front of the first absent page of the destination: afterwards
    the processor reads at [dst + j] what it read at [src + j] before, and at
    every other address what it read before. The result is 0 when that is all
    of them and [-EFAULT] otherwise; the lock is free again, and interrupts,
    page counts and mappings other than the window's are as before. *)
Theorem vmspace_copy_to_transfers v h vm dst src m size :
  copy_ready v h vm → is_u32 dst → is_u32 src → dst + size < 4294967296 → src + size < 4294967296 →
  stops (mem v) vm dst m size → copyable (mem v) vm dst src m →
  wp (vmspace_copy_to h h dst src size) v (λ r v',
    r = (if m =? size then 0 else - EFAULT) ∧
    (∀ j, 0 <= j < m → reads vm (mem v') (dst + j) = reads vm (mem v) (src + j)) ∧
    (∀ va, data_at (mem v) vm va → va / 4096 ≠ KMAPPING_PAGE →
       (∀ j, 0 <= j < m → phys (mem v) vm va ≠ phys (mem v) vm (dst + j)) →
       reads vm (mem v') va = reads vm (mem v) va) ∧
    copy_ready v' h vm ∧ only_mem v v' ∧ falloc (mem v') = falloc (mem v)).
Proof.
  intros R Hd Ha Hde Hae Hst C. pose proof (cr_vm _ _ _ R) as K.
  eapply wp_mono; [by apply wp_vmspace_copy_to|]. intros r v' (-> & T & O).
  split; [done|]. split; [intros; by eapply reads_moved|]. split; [intros; by eapply reads_kept|].
  split; [by eapply copy_ready_after|]. split; [done|]. apply (tr_same _ _ _ _ _ _ T).
Qed.

(** A round trip through user memory. Bytes stored with [vmspace_copy_to]
    and fetched with [vmspace_copy_from] are the bytes that were stored, across
    any number of pages; both calls return 0. *)
Theorem user_copy_roundtrip v h vm dst src back size :
  copy_ready v h vm → is_u32 dst → is_u32 src → is_u32 back → 0 <= size →
  dst + size < 4294967296 → src + size < 4294967296 → back + size < 4294967296 →
  copyable (mem v) vm dst src size → copyable (mem v) vm back dst size →
  wp (r1 ← vmspace_copy_to h h dst src size; r2 ← vmspace_copy_from h h back dst size; ret (r1, r2)) v (λ r v',
    r = (0, 0) ∧ ∀ j, 0 <= j < size → reads vm (mem v') (back + j) = reads vm (mem v) (src + j)).
Proof.
  intros R Hd Ha Hb Hn Hde Hae Hbe C1 C2. pose proof (cr_vm _ _ _ R) as K.
  wp_step. eapply wp_mono; [apply (wp_vmspace_copy_to v h vm dst src size size); try done; split; lia|].
  intros r1 v1 (-> & T1 & O1). rewrite Z.eqb_refl. pose proof (tr_same _ _ _ _ _ _ T1) as S1.
  assert (copyable (mem v1) vm back dst size) as C2'.
  { replace back with (back + 0) by lia. replace dst with (dst + 0) by lia. by eapply copyable_sub; [| |exact C2]. }
  wp_step. eapply wp_mono; [apply (wp_vmspace_copy_from v1 h vm back dst size size); try done;
    [by eapply copy_ready_after|split; lia]|].
  intros r2 v2 (-> & T2 & O2). rewrite Z.eqb_refl. apply wp_ret. split; [done|]. intros j Hj.
  rewrite (reads_moved (mem v1) (mem v2) vm back dst size j) by (done || apply S1). by eapply reads_moved.
Qed.

(* ------------------------------------------------------------------ *)
(** ** Shared frames *)

Lemma word_bytes w w' : is_u32 w → is_u32 w' → (∀ i, 0 <= i < 4 → byte_of w i = byte_of w' i) → w = w'.
Proof.
  intros Hw Hw' H. pose proof (H 0 ltac:(lia)) as H0. pose proof (H 1 ltac:(lia)) as H1.
  pose proof (H 2 ltac:(lia)) as H2. pose proof (H 3 ltac:(lia)) as H3. unfold byte_of in *.
  change (256 ^ 0) with 1 in *. change (256 ^ 1) with 256 in *. change (256 ^ 2) with 65536 in *.
  change (256 ^ 3) with 16777216 in *. ulia.
Qed.

(** A frame outside the space that the copy does not write to keeps its words. *)
Lemma transferred_words s s' vm d a k g i :
  vm_ok s vm → transferred vm s s' d a k → g mod 4096 = 0 → ¬ part_of s vm g →
  (∀ j, 0 <= j < k → data_at s vm (d + j) ∧ page_of (entry s vm ((d + j) / 4096)) ≠ g) → 0 <= i < 1024 →
  words s' (g + 4 * i) = words s (g + 4 * i).
Proof.
  intros K [S _ O] Hg Hp Hne Hi. apply word_bytes; [apply (mo_words _ (vo_mem _ _ (sb_vm _ _ _ _ S)))|apply (mo_words _ (vo_mem _ _ K))|].
  intros b Hb. specialize (O (g + 4 * i + b)). unfold pbyte in O.
  replace (g + 4 * i + b - (g + 4 * i + b) mod 4) with (g + 4 * i) in O by lia.
  replace ((g + 4 * i + b) mod 4) with b in O by lia. apply O.
  - by replace (g + 4 * i + b - (g + 4 * i + b) mod 4096) with g by lia.
  - intros j Hj E. destruct (Hne j Hj) as [D N]. destruct (data_frame _ _ _ K D) as [(_ & Hm & _) _].
    apply N. unfold phys in E. rewrite <-Z.add_assoc in E. apply same_page in E; [by destruct E|done|done|lia|lia].
Qed.

(** A second space, made of frames of its own in the pages looked at. *)
Record beside (s : Vm) (vm other : arch_vm_t) (d k : Z) : Prop := {
  be_vm : vm_ok s other;
  be_pd : ¬ part_of s vm (pd_phys other);
  be_table : ∀ j, 0 <= j < k → present (pde s other ((d + j) / 4096 / 1024)) = true →
    ¬ part_of s vm (table s other ((d + j) / 4096 / 1024));
  be_data : ∀ j, 0 <= j < k → ¬ part_of s other (page_of (entry s vm ((d + j) / 4096)))
}.

Lemma beside_after s s' vm other d a k :
  vm_ok s vm → copyable s vm d a k → beside s vm other d k → transferred vm s s' d a k →
  vm_ok s' other ∧ ∀ j, 0 <= j < k → entry s' other ((d + j) / 4096) = entry s other ((d + j) / 4096).
Proof.
  intros K C B T. pose proof (be_vm _ _ _ _ _ B) as KO. pose proof (tr_same _ _ _ _ _ _ T) as S.
  destruct (vo_pd_frame _ _ KO) as [Hpf Hpr].
  assert (∀ i, 0 <= i < 1024 → pde s' other i = pde s other i) as Ep.
  { intros i Hi. eapply transferred_words; [exact K|exact T|apply Hpf|apply B| |done]. intros j Hj.
    split; [by apply (cp_dst _ _ _ _ _ C)|]. intros E. apply (be_data _ _ _ _ _ B j Hj). by left. }
  assert (∀ i, 0 <= i < 1024 → table s' other i = table s other i) as Et by (intros; unfold table; by rewrite Ep).
  split; [split|].
  - apply S.
  - apply KO.
  - rewrite (same_refs _ _ _ _ _ S). split; [|done]. eapply frame_in_top; [apply (sb_top _ _ _ _ S)|done].
  - intros i Hi. rewrite Ep, Et, (same_refs _ _ _ _ _ S) by done. intros Hp.
    destruct (vo_table _ _ KO i Hi Hp) as (? & ? & ?). split_and!; [|done|done]. eapply frame_in_top; [apply (sb_top _ _ _ _ S)|done].
  - intros i j Hi Hj. rewrite !Ep, !Et by done. by apply (vo_inj _ _ KO).
  - intros j Hj. destruct (cp_dst _ _ _ _ _ C j Hj) as [(Hr & _) _]. unfold entry. rewrite Ep, Et by lia.
    destruct (present _) eqn:E; [|done]. destruct (vo_table _ _ KO ((d + j) / 4096 / 1024) ltac:(lia) E) as ((_ & Hm & _) & _).
    eapply transferred_words; [exact K|exact T|done|by apply B| |lia]. intros i Hi.
    split; [by apply (cp_dst _ _ _ _ _ C)|]. intros Eq. apply (be_data _ _ _ _ _ B i Hi). right.
    exists ((d + j) / 4096 / 1024). split_and!; [lia|lia|done|done].
Qed.

(** C29: [vmspace_copy_to] does not look at the copy-on-write mark. When the
    pages of the destination are shared with a second space, as all writable
    pages are after a fork, the bytes the kernel stores for one process are
    seen by the other as well. *)
Theorem vmspace_copy_to_shared v h vm other dst src size :
  copy_ready v h vm → is_u32 dst → is_u32 src → 0 <= size → dst + size < 4294967296 → src + size < 4294967296 →
  copyable (mem v) vm dst src size → beside (mem v) vm other dst size →
  (∀ j, 0 <= j < size → has (entry (mem v) vm ((dst + j) / 4096)) PT_COW = true ∧
     entry (mem v) other ((dst + j) / 4096) = entry (mem v) vm ((dst + j) / 4096)) →
  wp (vmspace_copy_to h h dst src size) v (λ r v',
    r = 0 ∧ ∀ j, 0 <= j < size → reads other (mem v') (dst + j) = reads vm (mem v) (src + j)).
Proof.
  intros R Hd Ha Hn Hde Hae C B Hsh. pose proof (cr_vm _ _ _ R) as K.
  eapply wp_mono; [apply (wp_vmspace_copy_to v h vm dst src size size); try done; split; lia|].
  intros r v' (-> & T & _). rewrite Z.eqb_refl. split; [done|]. intros j Hj.
  destruct (beside_after _ _ _ _ _ _ _ K C B T) as [KO Ee]. destruct (Hsh j Hj) as [_ Eo].
  destruct (cp_dst _ _ _ _ _ C j Hj) as [(H1 & H2 & H3 & H4) Hq]. pose proof (tr_same _ _ _ _ _ _ T) as S.
  assert (phys (mem v') other (dst + j) = phys (mem v) vm (dst + j)) as Ephys by (unfold phys; by rewrite Ee, Eo).
  rewrite (reads_data (mem v) vm (src + j)) by (done || by apply (cp_src _ _ _ _ _ C)).
  rewrite reads_data; [by rewrite Ephys, (tr_in _ _ _ _ _ _ T)|done|].
  unfold data_at. rewrite Ee, Eo, (same_refs _ _ _ _ _ S) by done. split_and!; [lia|lia|done|done|].
  intros Hpart. apply (be_data _ _ _ _ _ B j Hj). destruct Hpart as [->|(i & Hi & Hp & ->)]; [by left|right].
  exists i. destruct (vo_pd_frame _ _ (be_vm _ _ _ _ _ B)) as [Hpf _].
  assert (pde (mem v') other i = pde (mem v) other i) as Ep.
  { eapply transferred_words; [exact K|exact T|apply Hpf|apply B| |done]. intros j' Hj'.
    split; [by apply (cp_dst _ _ _ _ _ C)|]. intros E. apply (be_data _ _ _ _ _ B j' Hj'). by left. }
  unfold table in *. rewrite Ep in *. done.
Qed.
End copy.

(* ------------------------------------------------------------------ *)
(** ** Deciding on concrete machines *)

Definition words_of (l : list (Z * Z)) : Z → Z := foldr (λ '(a, w) f, <[a := w]> f) (λ _, 0) l.

Lemma words_of_u32 l : Forall (λ x, is_u32 x.2) l → ∀ a, is_u32 (words_of l a).
Proof.
  induction 1 as [|[a w] l Hw _ IH]; intros b; [cbn; ulia|]. cbn [words_of foldr].
  destruct (decide (b = a)) as [->|]; [by rewrite fn_lookup_insert|by rewrite fn_lookup_insert_ne].
Qed.

Section decide.
Context `{FA : FrameAllocator St}.
Implicit Types (s : vmst St) (vm : arch_vm_t).

Definition frame_inb s (f : Z) : bool := (0 <=? f) && (f mod 4096 =? 0) && (f + 4096 <=? top s).
Definition tables s vm : list Z := map (table s vm) (filter (λ i, present (pde s vm i) = true) (seqZ 0 1024)).
Definition part_ofb s vm (f : Z) : bool := (f =? pd_phys vm) || bool_decide (f ∈ tables s vm).
Definition vm_okb s vm : bool :=
  (pd vm =? pd_phys vm + KERNEL_BASE) && frame_inb s (pd_phys vm) && (0 <? refs s (pd_phys vm)) &&
  forallb (λ t, frame_inb s t && (0 <? refs s t) && negb (t =? pd_phys vm)) (tables s vm) &&
  bool_decide (NoDup (tables s vm)).

Lemma tables_elem s vm f :
  f ∈ tables s vm ↔ ∃ i, 0 <= i < 1024 ∧ present (pde s vm i) = true ∧ f = table s vm i.
Proof.
  unfold tables. rewrite list_elem_of_fmap. setoid_rewrite list_elem_of_filter. setoid_rewrite elem_of_seqZ.
  split; [intros (i & -> & Hp & Hi)|intros (i & Hi & Hp & ->)]; exists i; (split; [|split]); (done || lia).
Qed.

Lemma part_ofb_ok s vm f : part_ofb s vm f = true ↔ part_of s vm f.
Proof.
  unfold part_ofb, part_of. rewrite orb_true_iff, Z.eqb_eq, bool_decide_eq_true, tables_elem. done.
Qed.

Lemma frame_inb_ok s f : frame_inb s f = true → frame_in s f.
Proof. unfold frame_inb, frame_in. rewrite !andb_true_iff, !Z.leb_le, Z.eqb_eq. lia. Qed.

Lemma vm_okb_ok s vm : mem_ok s → vm_okb s vm = true → vm_ok s vm.
Proof.
  intros M H. unfold vm_okb in H. rewrite !andb_true_iff in H. destruct H as [[[[H1 H2] H3] H4] H5].
  apply bool_decide_eq_true in H5. rewrite forallb_forall in H4. split; [done|by apply Z.eqb_eq| |..].
  - split; [by apply frame_inb_ok|by apply Z.ltb_lt].
  - intros i Hi Hp. assert (In (table s vm i) (tables s vm)) as Hin.
    { apply list_elem_of_In, tables_elem. eauto. }
    apply H4 in Hin. rewrite !andb_true_iff in Hin. destruct Hin as [[Ha Hb] Hc].
    split; [by apply frame_inb_ok|]. by rewrite Z.ltb_lt, negb_true_iff, Z.eqb_neq in *.
  - intros i j Hi Hj Hp Hq E. unfold tables in H5.
    assert (∀ l, NoDup (map (table s vm) l) → i ∈ l → j ∈ l → i = j) as Hinj.
    { induction l as [|x l IH]; [by intros _ ?%elem_of_nil|]. cbn. intros [Hx Hl]%NoDup_cons [->|Ii]%elem_of_cons [->|Ij]%elem_of_cons.
      - done.
      - destruct Hx. rewrite E. by apply list_elem_of_fmap_2.
      - destruct Hx. rewrite <-E. by apply list_elem_of_fmap_2.
      - by apply IH. }
    apply (Hinj _ H5); apply list_elem_of_filter; (split; [done|apply elem_of_seqZ; lia]).
Qed.

Definition data_atb s vm (va : Z) : bool :=
  let e := entry s vm (va / 4096) in
  (0 <=? va) && (va <? 4294967296) && present e && (0 <? refs s (page_of e)) && negb (part_ofb s vm (page_of e)).

Lemma data_atb_ok s vm va : data_atb s vm va = true → data_at s vm va.
Proof.
  unfold data_atb, data_at. rewrite !andb_true_iff, negb_true_iff. intros [[[[H1 H2] H3] H4] H5].
  split_and!; [by apply Z.leb_le|by apply Z.ltb_lt|done|by apply Z.ltb_lt|].
  intros Hp%part_ofb_ok. congruence.
Qed.

Definition below (n : Z) (P : Z → bool) : bool := forallb P (seqZ 0 n).
Lemma below_ok n P : below n P = true → ∀ i, 0 <= i < n → P i = true.
Proof. unfold below. rewrite forallb_forall. intros H i Hi. apply H, list_elem_of_In, elem_of_seqZ. lia. Qed.

Definition copyableb s vm (d a n : Z) : bool :=
  below n (λ j, data_atb s vm (d + j) && negb ((d + j) / 4096 =? KMAPPING_PAGE)) &&
  below n (λ j, data_atb s vm (a + j) && negb ((a + j) / 4096 =? KMAPPING_PAGE)) &&
  below n (λ i, below n (λ j, (negb (phys s vm (d + i) =? phys s vm (d + j)) || (i =? j)) &&
                              negb (phys s vm (d + i) =? phys s vm (a + j)))).

Lemma copyableb_ok s vm d a n : copyableb s vm d a n = true → copyable s vm d a n.
Proof.
  unfold copyableb. rewrite !andb_true_iff. intros [[H1 H2] H3].
  assert (∀ i j, 0 <= i < n → 0 <= j < n → (phys s vm (d + i) = phys s vm (d + j) → i = j) ∧
    phys s vm (d + i) ≠ phys s vm (a + j)) as H.
  { intros i j Hi Hj. pose proof (below_ok _ _ (below_ok _ _ H3 i Hi) j Hj) as H. cbn beta in H. blia. }
  split; [..|intros; by apply H|intros; by apply H].
  - intros j Hj. pose proof (below_ok _ _ H1 j Hj) as Hd. cbn beta in Hd. apply andb_true_iff in Hd as [Hd Hq].
    split; [by apply data_atb_ok|blia].
  - intros j Hj. pose proof (below_ok _ _ H2 j Hj) as Hd. cbn beta in Hd. apply andb_true_iff in Hd as [Hd Hq].
    split; [by apply data_atb_ok|blia].
Qed.
End decide.

(* ------------------------------------------------------------------ *)
(** ** Witnesses *)

(** Ten frames taken from the allocator. *)
Definition demo_frames : M pmm unit := for_range 0 10 (λ _, fa_alloc ;; ret tt).
Definition demo_taken : pmm := match demo_frames demo_pmm with Some (_, x) => x | None => demo_pmm end.

(** A space whose user pages 1024 and 1025 are shared copy on write with a
    second space, and whose page 1030 is its own; the kernel pages 983056 and 983057 lie in the window's table,
    and the first of them holds some text. *)
Definition demo_copy_memory : vmst pmm := Vmst demo_taken (words_of
  [(8192 + 4 * 1, 12288 + 7); (8192 + 4 * 960, 28672 + 3);
   (12288 + 4 * 0, 16384 + 517); (12288 + 4 * 1, 24576 + 517); (12288 + 4 * 6, 49152 + 7);
   (28672 + 4 * 16, 32768 + 3); (28672 + 4 * 17, 36864 + 3);
   (40960 + 4 * 1, 45056 + 7); (40960 + 4 * 960, 28672 + 3);
   (45056 + 4 * 0, 16384 + 517); (45056 + 4 * 1, 24576 + 517);
   (32768, 1684234849)]) 65536.
Definition demo_user : arch_vm_t := ArchVm (8192 + KERNEL_BASE) 8192.
Definition demo_other : arch_vm_t := ArchVm (40960 + KERNEL_BASE) 40960.
Definition demo_vms : vms pmm :=
  Vms demo_copy_memory ∅ {[ 1 := demo_user ]} ∅ 0 8192 2 [] (Spinlock 0 false, true).

Lemma demo_copy_memory_ok : mem_ok demo_copy_memory.
Proof.
  pose proof demo_memory_ok as [H1 [H2 _] _].
  assert (wp demo_frames demo_pmm (λ _ x, fa_inv x ∧ fa_limit x = fa_limit demo_pmm)) as Hw.
  { eapply wp_mono; [apply (wp_for_range (λ _ x, fa_inv x ∧ fa_limit x = fa_limit demo_pmm)); [by split|]|by intros [] x].
    intros j x _ [Hi Hl]. wp_step. eapply wp_mono; [by apply fa_alloc_ok|]. intros a y (Hy & Hyl & _). apply wp_ret.
    split; [done|by rewrite Hyl]. }
  destruct (wp_elim _ _ _ Hw) as ([] & x & E & Hi & Hl).
  assert (demo_taken = x) as Et by (unfold demo_taken; by rewrite E). split.
  - cbn [falloc demo_copy_memory]. rewrite Et. exact Hi.
  - cbn [falloc top demo_copy_memory]. rewrite Et, Hl. split; [exact H2|vm_compute; discriminate].
  - apply words_of_u32. repeat constructor; vm_compute; discriminate.
Qed.

Lemma demo_ready : copy_ready demo_vms 1 demo_user.
Proof.
  split; [split; [discriminate|reflexivity]|reflexivity| |vm_compute; reflexivity|reflexivity].
  apply vm_okb_ok; [apply demo_copy_memory_ok|]. vm_compute. reflexivity.
Qed.

Lemma demo_beside : beside demo_copy_memory demo_user demo_other 4198398 4.
Proof.
  assert (∀ j, 0 <= j < 4 → (4198398 + j) / 4096 / 1024 = 1) as E1 by (intros; lia).
  assert (below 4 (λ j, negb (part_ofb demo_copy_memory demo_other
    (page_of (entry demo_copy_memory demo_user ((4198398 + j) / 4096))))) = true) as Hb by (vm_compute; reflexivity).
  split.
  - apply vm_okb_ok; [apply demo_copy_memory_ok|]. vm_compute. reflexivity.
  - intros H%part_ofb_ok. vm_compute in H. discriminate H.
  - intros j Hj _ H%part_ofb_ok. rewrite (E1 j Hj) in H. vm_compute in H. discriminate H.
  - intros j Hj H%part_ofb_ok. pose proof (below_ok _ _ Hb j Hj) as Hn. cbn beta in Hn. rewrite H in Hn. discriminate Hn.
Qed.

(** Four bytes of text to the last two bytes of one page and the first two of
    the next. *)
Lemma vmspace_copy_to_transfers_witness : ∃ v' v'',
  vmspace_copy_to 1 1 4198398 4026597376 4 demo_vms = Some (0, v') ∧
  reads demo_user (mem v') 4198401 = Some 100 ∧
  vmspace_copy_to 1 1 4202494 4026597376 4 demo_vms = Some (- EFAULT, v'').
Proof.
  assert (∀ d m n, stops demo_copy_memory demo_user d m n → is_u32 d → d + n < 4294967296 → 0 <= n <= 4 →
    copyable demo_copy_memory demo_user d 4026597376 m → ∃ v',
    vmspace_copy_to 1 1 d 4026597376 n demo_vms = Some (if m =? n then 0 else - EFAULT, v') ∧
    ∀ j, 0 <= j < m → reads demo_user (mem v') (d + j) = reads demo_user demo_copy_memory (4026597376 + j)) as H.
  { intros d m n Hs Hd He Hn C.
    destruct (wp_elim _ _ _ (vmspace_copy_to_transfers demo_vms 1 demo_user d 4026597376 m n
      demo_ready Hd ltac:(ulia) He ltac:(lia) Hs C)) as (r & v' & E & -> & Hr & _). exists v'. split; [exact E|exact Hr]. }
  destruct (H 4198398 4 4) as (v' & E1 & R1); [split; lia|ulia|lia|lia|apply copyableb_ok; vm_compute; reflexivity|].
  destruct (H 4202494 2 4) as (v'' & E2 & R2); [|ulia|lia|lia|apply copyableb_ok; vm_compute; reflexivity|].
  { split; [lia|]. intros _. split; [right; reflexivity|]. split; [vm_compute; reflexivity|vm_compute; discriminate]. }
  exists v', v''. split; [exact E1|]. split; [|exact E2].
  change 4198401 with (4198398 + 3). rewrite (R1 3 ltac:(lia)). vm_compute. reflexivity.
Defined.

Lemma user_copy_roundtrip_witness : ∃ v',
  (r1 ← vmspace_copy_to 1 1 4198398 4026597376 4; r2 ← vmspace_copy_from 1 1 4026601472 4198398 4; ret (r1, r2)) demo_vms
    = Some ((0, 0), v') ∧
  reads demo_user (mem v') 4026601475 = Some 100.
Proof.
  destruct (wp_elim _ _ _ (user_copy_roundtrip demo_vms 1 demo_user 4198398 4026597376 4026601472 4
    demo_ready ltac:(ulia) ltac:(ulia) ltac:(ulia) ltac:(lia) ltac:(lia) ltac:(lia) ltac:(lia)
    ltac:(apply copyableb_ok; vm_compute; reflexivity) ltac:(apply copyableb_ok; vm_compute; reflexivity)))
    as (r & v' & E & -> & Hr).
  exists v'. split; [exact E|]. change 4026601475 with (4026601472 + 3). rewrite (Hr 3 ltac:(lia)). vm_compute. reflexivity.
Defined.

Lemma vmspace_copy_to_shared_witness : ∃ v',
  vmspace_copy_to 1 1 4198398 4026597376 4 demo_vms = Some (0, v') ∧
  reads demo_other demo_copy_memory 4198401 = Some 0 ∧ reads demo_other (mem v') 4198401 = Some 100.
Proof.
  assert (below 4 (λ j, has (entry demo_copy_memory demo_user ((4198398 + j) / 4096)) PT_COW &&
    (entry demo_copy_memory demo_other ((4198398 + j) / 4096) =? entry demo_copy_memory demo_user ((4198398 + j) / 4096))) = true)
    as Hb by (vm_compute; reflexivity).
  destruct (wp_elim _ _ _ (vmspace_copy_to_shared demo_vms 1 demo_user demo_other 4198398 4026597376 4
    demo_ready ltac:(ulia) ltac:(ulia) ltac:(lia) ltac:(lia) ltac:(lia)
    ltac:(apply copyableb_ok; vm_compute; reflexivity) demo_beside
    ltac:(intros j Hj; pose proof (below_ok _ _ Hb j Hj) as Hx; cbn beta in Hx;
          apply andb_true_iff in Hx as [Hx1 Hx2]; split; [exact Hx1|by apply Z.eqb_eq])))
    as (r & v' & E & -> & Hr).
  exists v'. split; [exact E|]. split; [vm_compute; reflexivity|].
  change 4198401 with (4198398 + 3). rewrite (Hr 3 ltac:(lia)). vm_compute. reflexivity.
Defined.
