(* ===== verification/Proc.v ===== *)
(** * Processes and threads

    [kernel/src/proc/proc.c], [sys_fork.c], [sys_exit.c], [sys_waitpid.c] and
    [sys_getpid.c], the threads of [kernel/src/sched/thread.c] with
    [kernel/src/arch/i686/hal_thread.c], the heap break of
    [kernel/src/mm/sys_sbrk.c], the copies of [kernel/src/mm/uaccess.c] and the
    page-fault handler of [kernel/src/page_fault_handler.c]. The state puts the
    scheduler, the address spaces, the file system and the sockets side by
    side, with the table of processes that ties them together. *)

From S2P Require Import Prelude Chain Range FrameAlloc Pmm Paging VaAlloc Cow Net Vfs Vmspace Sched.

Definition ECHILD : Z := 10.
Definition WNOHANG : Z := 1.
Definition PROCESS_KERNEL_STACKS_START : Z := KMAPPING_BASE + PAGE_SIZE + 16777216.
Definition PROCESS_KERNEL_STACK_SIZE : Z := 65536.

Inductive process_state := PROCESS_ALIVE | PROCESS_ZOMBIE.
#[export] Instance process_state_eq : EqDecision process_state.
Proof. solve_decision. Defined.

(** The control block; the table of devices is not used. *)
Record process_t := Process {
  p_pid : Z;
  p_vmspace : Z;
  p_main_thread : Z;
  p_state : process_state;
  p_exit_code : Z;
  p_parent : Z;
  p_is_waiting : bool;
  p_cwd : Z;
  p_heap_start : Z;
  p_brk : Z;
  p_first_child : Z;
  p_next_sibling : Z
}.
Definition process_zero : process_t := Process 0 0 0 PROCESS_ALIVE 0 0 false 0 0 0 0 0.

Definition with_pid v (p : process_t) := Process v (p_vmspace p) (p_main_thread p) (p_state p) (p_exit_code p)
  (p_parent p) (p_is_waiting p) (p_cwd p) (p_heap_start p) (p_brk p) (p_first_child p) (p_next_sibling p).
Definition with_vmspace v (p : process_t) := Process (p_pid p) v (p_main_thread p) (p_state p) (p_exit_code p)
  (p_parent p) (p_is_waiting p) (p_cwd p) (p_heap_start p) (p_brk p) (p_first_child p) (p_next_sibling p).
Definition with_main_thread v (p : process_t) := Process (p_pid p) (p_vmspace p) v (p_state p) (p_exit_code p)
  (p_parent p) (p_is_waiting p) (p_cwd p) (p_heap_start p) (p_brk p) (p_first_child p) (p_next_sibling p).
Definition with_exit v (p : process_t) := Process (p_pid p) (p_vmspace p) (p_main_thread p) PROCESS_ZOMBIE v
  (p_parent p) (p_is_waiting p) (p_cwd p) (p_heap_start p) (p_brk p) (p_first_child p) (p_next_sibling p).
Definition with_parent v (p : process_t) := Process (p_pid p) (p_vmspace p) (p_main_thread p) (p_state p) (p_exit_code p)
  v (p_is_waiting p) (p_cwd p) (p_heap_start p) (p_brk p) (p_first_child p) (p_next_sibling p).
Definition with_waiting v (p : process_t) := Process (p_pid p) (p_vmspace p) (p_main_thread p) (p_state p) (p_exit_code p)
  (p_parent p) v (p_cwd p) (p_heap_start p) (p_brk p) (p_first_child p) (p_next_sibling p).
Definition with_cwd v (p : process_t) := Process (p_pid p) (p_vmspace p) (p_main_thread p) (p_state p) (p_exit_code p)
  (p_parent p) (p_is_waiting p) v (p_heap_start p) (p_brk p) (p_first_child p) (p_next_sibling p).
Definition with_heap_start v (p : process_t) := Process (p_pid p) (p_vmspace p) (p_main_thread p) (p_state p) (p_exit_code p)
  (p_parent p) (p_is_waiting p) (p_cwd p) v (p_brk p) (p_first_child p) (p_next_sibling p).
Definition with_brk v (p : process_t) := Process (p_pid p) (p_vmspace p) (p_main_thread p) (p_state p) (p_exit_code p)
  (p_parent p) (p_is_waiting p) (p_cwd p) (p_heap_start p) v (p_first_child p) (p_next_sibling p).
Definition with_first_child v (p : process_t) := Process (p_pid p) (p_vmspace p) (p_main_thread p) (p_state p) (p_exit_code p)
  (p_parent p) (p_is_waiting p) (p_cwd p) (p_heap_start p) (p_brk p) v (p_next_sibling p).
Definition with_next_sibling v (p : process_t) := Process (p_pid p) (p_vmspace p) (p_main_thread p) (p_state p) (p_exit_code p)
  (p_parent p) (p_is_waiting p) (p_cwd p) (p_heap_start p) (p_brk p) (p_first_child p) v.

(** [kernel_esps] are the [arch] parts of the threads, by thread. *)
Record kernel (St D : Type) := Kernel {
  k_sched : sched;
  k_vms : vms St;
  k_vfs : vfs D;
  k_net : net;
  procs : gmap Z process_t;
  next_pid : Z;
  next_tid : Z;
  kernel_esps : gmap Z Z
}.
Arguments Kernel {_ _}. Arguments k_sched {_ _}. Arguments k_vms {_ _}. Arguments k_vfs {_ _}. Arguments k_net {_ _}.
Arguments procs {_ _}. Arguments next_pid {_ _}. Arguments next_tid {_ _}. Arguments kernel_esps {_ _}.

(** [trap_frame_t]: its size and the fields that are set. *)
Definition sizeof_trap_frame : Z := 76.
Definition TF_EAX : Z := 44.
Definition TF_EIP : Z := 56.
Definition TF_CS : Z := 60.
Definition TF_EFLAGS : Z := 64.
Definition TF_ESP_USER : Z := 68.
Definition TF_SS_USER : Z := 72.
Definition i686_GDT_USER_CS_SEL : Z := 27.
Definition i686_GDT_USER_DS_SEL : Z := 35.

Definition PF_ERR_PRESENT : Z := 1.
Definition PF_ERR_WRITE : Z := 2.

Section ops.
Context `{FA : FrameAllocator St} {D : Type} {DR : Drivers D}.
Notation K := (kernel St D).

Definition set_sched x (k : K) : K := Kernel x (k_vms k) (k_vfs k) (k_net k) (procs k) (next_pid k) (next_tid k) (kernel_esps k).
Definition set_vms x (k : K) : K := Kernel (k_sched k) x (k_vfs k) (k_net k) (procs k) (next_pid k) (next_tid k) (kernel_esps k).
Definition set_vfs x (k : K) : K := Kernel (k_sched k) (k_vms k) x (k_net k) (procs k) (next_pid k) (next_tid k) (kernel_esps k).
Definition set_net x (k : K) : K := Kernel (k_sched k) (k_vms k) (k_vfs k) x (procs k) (next_pid k) (next_tid k) (kernel_esps k).
Definition set_procs x (k : K) : K := Kernel (k_sched k) (k_vms k) (k_vfs k) (k_net k) x (next_pid k) (next_tid k) (kernel_esps k).
Definition set_next_pid x (k : K) : K := Kernel (k_sched k) (k_vms k) (k_vfs k) (k_net k) (procs k) x (next_tid k) (kernel_esps k).
Definition set_next_tid x (k : K) : K := Kernel (k_sched k) (k_vms k) (k_vfs k) (k_net k) (procs k) (next_pid k) x (kernel_esps k).
Definition set_esps x (k : K) : K := Kernel (k_sched k) (k_vms k) (k_vfs k) (k_net k) (procs k) (next_pid k) (next_tid k) x.

Definition on_sched {A} (m : M sched A) : M K A := zoom k_sched set_sched m.
Definition on_vms {A} (m : M (vms St) A) : M K A := zoom k_vms set_vms m.
Definition on_vfs {A} (m : M (vfs D) A) : M K A := zoom k_vfs set_vfs m.
Definition on_net {A} (m : M net A) : M K A := zoom k_net set_net m.

Definition process (p : Z) : M K process_t := deref procs p.
Definition process_set (p : Z) (f : process_t → process_t) : M K unit := assign procs set_procs p f.
Definition kmalloc : M K Z := on_vms Vmspace.kmalloc_object.

(** [dispatch_get_current()->process]. *)
Definition current_process : M K Z :=
  t ← on_sched dispatch_get_current;
  th ← on_sched (thread t);
  ret (th_process th).

(** The handle of a process's address space. *)
Definition process_arch (p : Z) : M K Z :=
  pr ← process p;
  v ← on_vms (space (p_vmspace pr));
  ret (vs_arch v).

(* ------------------------------------------------------------------ *)
(** ** User memory *)

Definition uaccess_copy_to_user (user_dst kernel_src size : Z) : M K Z :=
  p ← current_process;
  a ← process_arch p;
  on_vms (vmspace_copy_to a a user_dst kernel_src size).

Definition uaccess_copy_from_user (kernel_dst user_src size : Z) : M K Z :=
  p ← current_process;
  a ← process_arch p;
  on_vms (vmspace_copy_from a a kernel_dst user_src size).

Definition sys_sbrk (increment : Z) : M K Z :=
  p ← current_process;
  pr ← process p;
  let old_brk := p_brk pr in
  if increment =? 0 then ret old_brk
  else
    let new_brk := u32 (old_brk + increment) in
    let old_brk_aligned := align_up old_brk PAGE_SIZE in
    let new_brk_aligned := align_up new_brk PAGE_SIZE in
    ok ← (if old_brk_aligned <? new_brk_aligned
          then on_vms (vmspace_extend_heap (p_vmspace pr) old_brk_aligned new_brk_aligned)
          else ret true);
    if negb ok then ret (u32 (-1))
    else process_set p (with_brk new_brk) ;; ret old_brk.

(** The access rights of a page that is filled on demand. *)
Definition demand_flags (vma_flags : Z) : Z :=
  let f0 := if has vma_flags VMA_READ then PAGE_PRESENT else 0 in
  let f1 := if has vma_flags VMA_WRITE then Z.lor f0 PAGE_READWRITE else f0 in
  if has vma_flags VMA_USER then Z.lor f1 PAGE_USER else f1.

(** Whether the fault was resolved; otherwise [panic_from_regs] is called.
    [addr] is the contents of [cr2]. *)
Definition pf_handle (addr error : Z) : M K bool :=
  p ← current_process;
  pr ← process p;
  addr_vma ← on_vms (vmspace_find_vma (p_vmspace pr) addr);
  if addr_vma =? 0 then ret false
  else
    w ← on_vms (vma addr_vma);
    if has error PF_ERR_WRITE && negb (has (vma_flags w) VMA_WRITE) then ret false
    else
      v ← on_vms (space (p_vmspace pr));
      a ← on_vms (arch (vs_arch v));
      cow ← on_vms (on_mem (hal_vmm_handle_cow a addr));
      if cow then ret true
      else if negb (has error PF_ERR_PRESENT) then
        let page_addr := Z.land addr (not32 4095) in
        on_vms (on_mem (va_alloc_region a page_addr PAGE_SIZE (demand_flags (vma_flags w))))
      else ret false.

(** A byte stored by the kernel through a user pointer: the processor checks
    the entry's rights, and traps to the handler, once, when they do not allow
    the access. *)
Definition writable (vm : arch_vm_t) (a : Z) : M (vmst St) (bool * bool) :=
  pte ← get_pte_ptr vm a;
  if pte =? 0 then ret (false, false)
  else e ← ldw pte; ret (has e ARCH_PD_PT_PRESENT, has e ARCH_PD_PT_PRESENT && has e ARCH_PD_PT_READWRITE).

Definition user_stb (a b : Z) : M K unit :=
  vm ← gets (λ k, cpu_vm (cr3 (k_vms k)));
  '(present, ok) ← on_vms (on_mem (writable vm a));
  when (negb ok)
    (r ← pf_handle a (Z.lor (if present : bool then PF_ERR_PRESENT else 0) PF_ERR_WRITE);
     assert_ r ;;
     '(_, ok) ← on_vms (on_mem (writable vm a));
     assert_ ok) ;;
  on_vms (on_mem (cpu_stb vm a b)).
Definition user_st32 (a v : Z) : M K unit := for_range 0 4 (λ i, user_stb (u32 (a + i)) (byte_of v i)).

(* ------------------------------------------------------------------ *)
(** ** Threads *)

(** A word stored in kernel memory. *)
Definition cpu_st32 (vm : arch_vm_t) (a v : Z) : M (vmst St) unit := for_range 0 4 (λ i, cpu_stb vm (a + i) (byte_of v i)).
Definition loaded_vm : M K arch_vm_t := gets (λ k, cpu_vm (cr3 (k_vms k))).
Definition kernel_st32 (a v : Z) : M K unit := vm ← loaded_vm; on_vms (on_mem (cpu_st32 vm a v)).

Definition thread_get_trap_frame (kstack_top : Z) : Z := u32 (kstack_top - sizeof_trap_frame).

Definition hal_thread_init (t entry user_stack : Z) : M K Z :=
  th ← on_sched (thread t);
  let tf := thread_get_trap_frame (th_kstack_top th) in
  for_range 0 (sizeof_trap_frame / 4) (λ i, kernel_st32 (tf + 4 * i) 0) ;;
  kernel_st32 (tf + TF_EIP) entry ;;
  kernel_st32 (tf + TF_EFLAGS) 514 ;;
  (match th_mode th with
   | THREAD_MODE_USER =>
       kernel_st32 (tf + TF_CS) i686_GDT_USER_CS_SEL ;;
       kernel_st32 (tf + TF_SS_USER) i686_GDT_USER_DS_SEL ;;
       kernel_st32 (tf + TF_ESP_USER) user_stack ;;
       for_range 0 4 (λ i, kernel_st32 (tf + 4 * i) i686_GDT_USER_DS_SEL) ;;
       modify (λ k, set_esps (<[t := tf]> (kernel_esps k)) k)
   | THREAD_MODE_KERNEL => modify (λ k, set_esps (<[t := u32 (tf + 8)]> (kernel_esps k)) k)
   end) ;;
  ret 0.

Definition hal_thread_set_return_value (t val : Z) : M K unit :=
  th ← on_sched (thread t);
  kernel_st32 (thread_get_trap_frame (th_kstack_top th) + TF_EAX) (u32 val).

Definition hal_thread_clone (src child : Z) : M K Z :=
  s ← on_sched (thread src);
  c ← on_sched (thread child);
  vm ← loaded_vm;
  on_vms (on_mem (cpu_memcpy vm (u32 (th_kstack_top c - PROCESS_KERNEL_STACK_SIZE))
    (u32 (th_kstack_top s - PROCESS_KERNEL_STACK_SIZE)) PROCESS_KERNEL_STACK_SIZE)) ;;
  let tf_offset := u32 (th_kstack_top s - thread_get_trap_frame (th_kstack_top s)) in
  let child_tf := u32 (th_kstack_top c - tf_offset) in
  kernel_st32 (child_tf + TF_EAX) 0 ;;
  modify (λ k, set_esps (<[child := child_tf]> (kernel_esps k)) k) ;;
  ret 0.

Definition alloc_tid : M K Z := n ← gets next_tid; modify (set_next_tid (u32 (n + 1))) ;; ret n.
Definition alloc_pid : M K Z := n ← gets next_pid; modify (set_next_pid (u32 (n + 1))) ;; ret n.

(** The second loop maps sixteen pages. *)
Definition stack_fuel : nat := 18.

Definition alloc_kernel_stack (tid : Z) (user_vm : Z) : M (vms St) Z :=
  let stack_bottom := u32 (PROCESS_KERNEL_STACKS_START + tid * PROCESS_KERNEL_STACK_SIZE) in
  let stack_top := u32 (stack_bottom + PROCESS_KERNEL_STACK_SIZE) in
  kv ← (g ← gets g_kernel_vmspace; space g);
  ka ← arch (vs_arch kv);
  ok ← on_mem (va_alloc_region ka stack_bottom PROCESS_KERNEL_STACK_SIZE PAGE_READWRITE);
  if negb ok then ret 0
  else if user_vm =? 0 then ret stack_top
  else
    while_n stack_fuel (λ va,
      if va <? stack_top then
        phys ← on_mem (hal_vm_virt_to_phys ka va);
        mapped ← (if phys =? 0 then ret false
                  else ua ← arch user_vm; on_mem (hal_vm_map ua va phys PAGE_READWRITE));
        if negb mapped then
          on_mem (va_free_region ka stack_bottom PROCESS_KERNEL_STACK_SIZE) ;; ret (inr 0)
        else ret (inl (u32 (va + PAGE_SIZE)))
      else ret (inr stack_top)) stack_bottom.

Definition thread_create (proc entry user_stack : Z) (mode : thread_mode) (p : Z) : M K Z :=
  t ← kmalloc;
  if t =? 0 then ret 0
  else
    tid ← alloc_tid;
    a ← kmalloc;
    if a =? 0 then ret 0
    else
      user_vm ← (if (match mode with THREAD_MODE_USER => true | _ => false end) && negb (proc =? 0)
                 then process_arch proc else ret 0);
      kstack_top ← on_vms (alloc_kernel_stack tid user_vm);
      if kstack_top =? 0 then ret 0
      else
        modify (λ k, set_sched (set_threads (<[t := Thread tid proc 0 0 0 0 0 0 THREAD_STATE_NEW p mode kstack_top 0 0]>
          (threads (k_sched k))) (k_sched k)) k) ;;
        hal_thread_init t entry user_stack ;;
        ret t.

Definition thread_create_user (proc entry user_stack p : Z) : M K Z :=
  thread_create proc entry user_stack THREAD_MODE_USER p.
Definition thread_create_kernel (proc entry : Z) : M K Z :=
  thread_create proc entry 0 THREAD_MODE_KERNEL THREAD_PRIORITY_HIGH.

Definition thread_clone (src dst_proc : Z) : M K Z :=
  child ← kmalloc;
  if child =? 0 then ret 0
  else
    s ← on_sched (thread src);
    tid ← alloc_tid;
    a ← kmalloc;
    if a =? 0 then ret 0
    else
      user_vm ← (if negb (dst_proc =? 0) then process_arch dst_proc else ret 0);
      child_kstack_top ← on_vms (alloc_kernel_stack tid user_vm);
      if child_kstack_top =? 0 then ret 0
      else
        modify (λ k, set_sched (set_threads (<[child :=
          Thread tid dst_proc (th_rt_ticks s) (th_quantum s) 0 (th_burst s) (th_last_enqueue s) (th_wakeup s)
            THREAD_STATE_NEW (th_priority s) (th_mode s) child_kstack_top 0 0]> (threads (k_sched k))) (k_sched k)) k) ;;
        hal_thread_clone src child ;;
        ret child.

(** [hal_vm_unmap] of every page of the stack. *)
Definition unmap_stack (user_arch kstack_top : Z) : M (vms St) unit :=
  ua ← arch user_arch;
  while_n stack_fuel (λ va,
    if va <? kstack_top then on_mem (hal_vm_unmap ua va) ;; ret (inl (u32 (va + PAGE_SIZE)))
    else ret (inr tt)) (u32 (kstack_top - PROCESS_KERNEL_STACK_SIZE)).

Definition thread_destroy (t : Z) : M K unit :=
  if t =? 0 then ret tt
  else
    on_sched (thread_set t (set_state THREAD_STATE_DEAD)) ;;
    on_sched (sched_dequeue t) ;;
    th ← on_sched (thread t);
    when (negb (th_kstack_top th =? 0))
      (kv ← on_vms (g ← gets g_kernel_vmspace; space g);
       ka ← on_vms (arch (vs_arch kv));
       on_vms (on_mem (va_free_region ka (u32 (th_kstack_top th - PROCESS_KERNEL_STACK_SIZE)) PROCESS_KERNEL_STACK_SIZE)) ;;
       match th_mode th with
       | THREAD_MODE_USER =>
           when (negb (th_process th =? 0))
             (a ← process_arch (th_process th); when (negb (a =? 0)) (on_vms (unmap_stack a (th_kstack_top th))))
       | THREAD_MODE_KERNEL => ret tt
       end) ;;
    modify (λ k, set_sched (set_threads (delete t (threads (k_sched k))) (k_sched k)) k).

(* ------------------------------------------------------------------ *)
(** ** Processes *)

(** The allocation is not checked: the null page is written. *)
Definition process_create : M K Z :=
  p ← kmalloc;
  assert_ (negb (p =? 0)) ;;
  modify (λ k, set_procs (<[p := process_zero]> (procs k)) k) ;;
  c ← on_vfs (vfs_lookup_path [47] 0 true);
  process_set p (with_cwd c) ;;
  pid ← alloc_pid;
  process_set p (with_pid pid) ;;
  ret p.

Definition process_destroy (proc : Z) : M K unit :=
  pr ← process proc;
  when (negb (p_main_thread pr =? 0)) (on_sched (thread_set (p_main_thread pr) (set_state THREAD_STATE_DEAD))) ;;
  on_net sys_net_close_all ;;
  on_vms (vmspace_destroy (p_vmspace pr)) ;;
  modify (λ k, set_procs (delete proc (procs k)) k).

Definition sys_fork : M K Z :=
  parent_proc ← current_process;
  child_proc ← process_create;
  process_set child_proc (with_parent parent_proc) ;;
  pp ← process parent_proc;
  process_set child_proc (with_next_sibling (p_first_child pp)) ;;
  process_set parent_proc (with_first_child child_proc) ;;
  process_set child_proc (with_cwd (p_cwd pp)) ;;
  on_vfs (vfs_vnode_get_ref (p_cwd pp)) ;;
  v ← on_vms (vmspace_clone (p_vmspace pp));
  process_set child_proc (with_vmspace v) ;;
  current ← on_sched dispatch_get_current;
  child_thread ← thread_clone current child_proc;
  process_set child_proc (with_main_thread child_thread) ;;
  hal_thread_set_return_value child_thread 0 ;;
  on_sched (sched_enqueue child_thread) ;;
  cp ← process child_proc;
  ret (p_pid cp).

(** Up to the switch; the call does not come back. *)
Definition sys_exit (status : Z) : M K unit :=
  current ← on_sched dispatch_get_current;
  proc ← current_process;
  process_set proc (with_exit status) ;;
  on_sched (sched_dequeue current) ;;
  pr ← process proc;
  when (negb (p_parent pr =? 0))
    (pp ← process (p_parent pr);
     when (p_is_waiting pp) (on_sched (sched_enqueue (p_main_thread pp)))) ;;
  on_sched sched_switch_next.

Definition child_fuel (k : K) : nat := S (size (procs k)).

(** One pass over the children: the pid of the child that was reaped, or
    whether one of them matches. [target_pid == -1] compares unsigned. *)
Definition waitpid_pass (caller target_pid wstatus : Z) : M K (bool + Z) :=
  c ← process caller;
  n ← gets child_fuel;
  while_n n (λ '(has_matching_child, prev, p),
    if p =? 0 then ret (inr (inl has_matching_child))
    else
      pr ← process p;
      if (target_pid =? u32 (-1)) || (p_pid pr =? target_pid) then
        if decide (p_state pr = PROCESS_ZOMBIE) then
          let pid := p_pid pr in
          let exit_status := p_exit_code pr in
          (if negb (prev =? 0) then process_set prev (with_next_sibling (p_next_sibling pr))
           else process_set caller (with_first_child (p_next_sibling pr))) ;;
          when (negb (wstatus =? 0)) (user_st32 wstatus exit_status) ;;
          process_destroy p ;;
          ret (inr (inr pid))
        else ret (inl (true, p, p_next_sibling pr))
      else ret (inl (has_matching_child, p, p_next_sibling pr))) (false, 0, p_first_child c).

(** A turn of the outer loop: the result, or [None] when the caller was put to
    sleep and another thread runs. *)
Definition sys_waitpid (target_pid wstatus options : Z) : M K (option Z) :=
  current ← on_sched dispatch_get_current;
  caller ← current_process;
  r ← waitpid_pass caller target_pid wstatus;
  match r with
  | inr pid => ret (Some pid)
  | inl false => ret (Some (u32 (- ECHILD)))
  | inl true =>
      if has options WNOHANG then ret (Some 0)
      else
        process_set caller (with_waiting true) ;;
        on_sched (sched_dequeue current) ;;
        on_sched sched_switch_next ;;
        ret None
  end.

(** When the caller runs again. *)
Definition sys_waitpid_resume (target_pid wstatus options : Z) : M K (option Z) :=
  caller ← current_process;
  process_set caller (with_waiting false) ;;
  sys_waitpid target_pid wstatus options.

Definition sys_getpid : M K Z :=
  p ← current_process;
  pr ← process p;
  ret (p_pid pr).
End ops.
