(* ===== verification/ProcSpec.v ===== *)
(** * What the process calls do

    Tearing down an address space, stores through user pointers, and the
    behaviour of [sys_waitpid] and [sys_exit] on the table of processes. *)

From S2P Require Import Prelude Chain Range FrameAlloc Pmm Paging VaAlloc Cow Net Vfs VfsPath Vmspace Sched Tick UserCopy Proc.

(* ------------------------------------------------------------------ *)
(** ** Destroying an address space *)

Section destroy.
Context `{FA : FrameAllocator St}.
Implicit Types (s : vmst St) (vm : arch_vm_t) (v : vms St).

(** The directory and the tables of the user half. *)
Definition user_part s vm (g : Z) : Prop :=
  g = pd_phys vm ∨ ∃ i, 0 <= i < KERNEL_PD_START ∧ present (pde s vm i) = true ∧ g = table s vm i.

Record released s vm s' : Prop := {
  rl_words : words s' = words s;
  rl_top : top s' = top s;
  rl_mem : mem_ok s';
  rl_in : ∀ g, user_part s vm g → refs s' g = refs s g - 1;
  rl_out : ∀ g, ¬ user_part s vm g → refs s' g = refs s g
}.

(** The tables below [i] have been given back. *)
Record releasing s vm (i : Z) s1 : Prop := {
  rg_words : words s1 = words s;
  rg_top : top s1 = top s;
  rg_mem : mem_ok s1;
  rg_in : ∀ k, 0 <= k < i → present (pde s vm k) = true → refs s1 (table s vm k) = refs s (table s vm k) - 1;
  rg_out : ∀ g, (∀ k, 0 <= k < i → present (pde s vm k) = true → table s vm k ≠ g) → refs s1 g = refs s g
}.

Lemma wp_release_tables s vm :
  vm_ok s vm →
  wp (for_range 0 KERNEL_PD_START (λ i,
    pde ← ldw (pd vm + 4 * i);
    when (has pde ARCH_PD_PT_PRESENT) (pmm_free (page_of pde)))) s (λ _ s1, releasing s vm KERNEL_PD_START s1).
Proof.
  intros V. destruct (vo_pd_frame s vm V) as [Hpf _]. change KERNEL_PD_START with 768.
  eapply wp_mono; [apply (wp_for_range (releasing s vm))|by intros [] s1].
  - split; [done|done|apply V|lia|done].
  - intros i s1 Hi [Ew Et M1 Hin Hout]. wp_step.
    apply (wp_ldw s1 _ (pd_phys vm) i); [by eapply frame_in_top|lia|by rewrite (vo_pd s vm V)|].
    rewrite Ew. fold (pde s vm i) (present (pde s vm i)). destruct (present (pde s vm i)) eqn:E; cbn [when].
    2:{ apply wp_ret. split; [done..| |].
        - intros k Hk Hp. apply Hin; [|done]. destruct (decide (k = i)) as [->|]; [congruence|lia].
        - intros g Hg. apply Hout. intros k Hk Hp. apply Hg; [lia|done]. }
    fold (table s vm i).
    assert (∀ k, 0 <= k < i → present (pde s vm k) = true → table s vm k ≠ table s vm i) as Hne.
    { intros k Hk Hp Ek. apply (vo_inj s vm V) in Ek; [lia|lia|lia|done|done]. }
    pose proof (Hout (table s vm i) Hne) as Hr. destruct (vo_table s vm V i ltac:(lia) E) as (_ & Hpos & _).
    apply wp_pmm_free; [done|lia|]. intros s2 Ew2 Et2 M2 Hd Ho _. split; [congruence|congruence|done|..].
    + intros k Hk Hp. destruct (decide (k = i)) as [->|]; [lia|]. rewrite Ho by (apply Hne; [lia|done]). apply Hin; [lia|done].
    + intros g Hg. rewrite Ho by (intros ->; eapply Hg; [|exact E|done]; lia). apply Hout. intros k Hk Hp. apply Hg; [lia|done].
Qed.

Lemma wp_hal_vm_arch_destroy s vm : vm_ok s vm → wp (hal_vm_arch_destroy vm) s (λ _ s', released s vm s').
Proof.
  intros V. unfold hal_vm_arch_destroy. wp_step. eapply wp_mono; [by apply wp_release_tables|].
  intros [] s1 [Ew Et M1 Hin Hout]. destruct (vo_pd_frame s vm V) as [_ Hpr].
  assert (∀ k, 0 <= k < KERNEL_PD_START → present (pde s vm k) = true → table s vm k ≠ pd_phys vm) as Hne.
  { intros k Hk Hp. change KERNEL_PD_START with 768 in Hk. apply (vo_table s vm V k ltac:(lia) Hp). }
  pose proof (Hout _ Hne) as Hr. apply wp_pmm_free; [done|lia|]. intros s2 Ew2 Et2 M2 Hd Ho _.
  split; [congruence|congruence|done|..].
  - intros g [->|(i & Hi & Hp & ->)]; [lia|]. rewrite Ho by (by apply Hne). by apply Hin.
  - intros g Hg. rewrite Ho by (intros ->; apply Hg; by left). apply Hout. intros k Hk Hp <-. apply Hg. right. eauto.
Qed.

(** A space that can be torn down: [h] is its handle, [l] its list of areas. *)
Record destroyable v (sp h l0 : Z) vm (l : list Z) : Prop := {
  ds_space : spaces v !! sp = Some (Vmspace h l0);
  ds_kernel : ∃ kv, spaces v !! g_kernel_vmspace v = Some kv ∧ vs_arch kv ≠ h;
  ds_arch : archs v !! h = Some vm;
  ds_vm : vm_ok (mem v) vm;
  ds_chain : chain vma_next (vmas v) l0 l 0;
  ds_nodup : NoDup l
}.

(** What is left when it is gone. *)
Record torn_down v (sp h : Z) vm (l : list Z) v' : Prop := {
  td_spaces : spaces v' = delete sp (spaces v);
  td_archs : archs v' = delete h (archs v);
  td_vmas : ∀ p, vmas v' !! p = if decide (p ∈ l) then None else vmas v !! p;
  td_mem : released (mem v) vm (mem v');
  td_rest : (g_kernel_vmspace v', cr3 v', vs_next_object v', vs_answers v', kmpping_lock v') =
            (g_kernel_vmspace v, cr3 v, vs_next_object v, vs_answers v, kmpping_lock v)
}.

(** The loop over the areas: [l2] are left. *)
Record freeing v (sp h : Z) (l : list Z) (l2 : list Z) v1 : Prop := {
  fr_head : ∃ h2, spaces v1 = <[sp := Vmspace h h2]> (spaces v) ∧ chain vma_next (vmas v1) h2 l2 0;
  fr_split : ∃ l1, l = l1 ++ l2 ∧ ∀ p, vmas v1 !! p = if decide (p ∈ l1) then None else vmas v !! p;
  fr_rest : v1 = Vms (mem v) (spaces v1) (archs v) (vmas v1) (g_kernel_vmspace v) (cr3 v) (vs_next_object v)
                   (vs_answers v) (kmpping_lock v)
}.

Lemma wp_free_areas v sp h l0 vm l :
  destroyable v sp h l0 vm l →
  wp (while_n (vma_fuel v) (λ _ : unit,
      v ← space sp;
      let temp := vma_list v in
      if temp =? 0 then ret (inr tt)
      else
        t ← vma temp;
        space_set sp (with_vma_list (vma_next t)) ;;
        modify (λ x : vms St, set_vmas (delete temp (vmas x)) x) ;;
        ret (inl tt)) tt) v (λ _ v1, freeing v sp h l [] v1).
Proof.
  intros [Hsp _ _ _ Hc Hnd].
  apply (wp_while_n (λ t _ v1, ∃ l2, t = length l2 ∧ freeing v sp h l l2 v1) _ _ _ (length l)).
  { exists l. split; [done|]. split; [|exists []; split; [done|]; intros p; by rewrite decide_False by apply not_elem_of_nil|by destruct v].
    exists l0. split; [by rewrite insert_id|done]. }
  { unfold vma_fuel. pose proof (chain_size _ _ _ _ _ Hnd Hc). lia. }
  intros t [] v1 (l2 & -> & [(h2 & Es & Hc2) (l1 & El & Hv) Er]).
  wp_step. eapply wp_deref; [by rewrite Es, lookup_insert_eq|]. cbn [vma_list].
  destruct l2 as [|p l2]; cbn [chain] in Hc2.
  { subst h2. change (0 =? 0) with true. cbn iota. apply wp_ret. split; [by exists 0|by exists l1|done]. }
  destruct Hc2 as (-> & Hp & w & Hw & Hc2). rewrite (proj2 (Z.eqb_neq _ _) Hp).
  rewrite El in Hnd. apply NoDup_app in Hnd as (Hnd1 & Hdis & Hnd2). apply NoDup_cons in Hnd2 as [Hpn _].
  wp_step. eapply wp_deref; [exact Hw|]. wp_step.
  eapply wp_assign; [by rewrite Es, lookup_insert_eq|]. do 3 wp_step. cbn iota.
  exists (length l2). split; [cbn; lia|]. exists l2. split; [done|]. split.
  - exists (vma_next w). cbn. split; [by rewrite Es, insert_insert_eq|].
    eapply chain_ext; [|exact Hc2]. intros q Hq. rewrite lookup_delete_ne; [done|]. by intros ->.
  - exists (l1 ++ [p]). split; [by rewrite <-app_assoc|]. intros q. cbn.
    destruct (decide (q = p)) as [->|Hq].
    + rewrite lookup_delete_eq, decide_True; [done|]. apply elem_of_app. right. by constructor.
    + rewrite lookup_delete_ne, Hv by done. destruct (decide (q ∈ l1)) as [Hi|Hi].
      * rewrite decide_True; [done|]. apply elem_of_app. by left.
      * rewrite decide_False; [done|]. rewrite elem_of_app, list_elem_of_singleton. by intros [|].
  - rewrite Er. reflexivity.
Qed.

Lemma wp_vmspace_destroy v sp h l0 vm l :
  destroyable v sp h l0 vm l → wp (vmspace_destroy sp) v (λ _ v', torn_down v sp h vm l v').
Proof.
  intros Hd. pose proof Hd as [Hsp (kv & Hk & Hne) Ha V _ _]. unfold vmspace_destroy.
  wp_step. eapply wp_deref; [exact Hsp|]. do 2 wp_step. wp_step. eapply wp_deref; [exact Hk|]. cbn [vs_arch].
  rewrite (proj2 (Z.eqb_neq _ _)) by done. do 2 wp_step.
  wp_step. eapply wp_mono; [by eapply wp_free_areas|]. intros [] v1 [(h2 & Es & _) (l1 & El & Hv) Er].
  rewrite app_nil_r in El. subst l1.
  wp_step. eapply wp_deref; [by rewrite Er|]. wp_step. apply wp_zoom.
  replace (mem v1) with (mem v) by (by rewrite Er). eapply wp_mono; [by apply wp_hal_vm_arch_destroy|].
  intros [] s' Rl. do 3 wp_step. rewrite Er. split; cbn; [by rewrite Es, delete_insert_eq|done|done|done|done].
Qed.
End destroy.

(* ------------------------------------------------------------------ *)
(** ** Stores through user pointers *)

Section stores.
Context `{FA : FrameAllocator St} {D : Type} {DR : Drivers D}.
Notation K := (kernel St D).
Implicit Types (s : vmst St) (vm : arch_vm_t).

(** A data page the processor may write to. *)
Definition writable_at s vm (va : Z) : Prop :=
  data_at s vm va ∧ has (entry s vm (va / 4096)) ARCH_PD_PT_READWRITE = true.

Lemma wp_writable s vm va :
  vm_ok s vm → writable_at s vm va → wp (writable vm va) s (λ r s', s' = s ∧ r = (true, true)).
Proof.
  intros V [Da Hw]. pose proof Da as (Hr & Hp & _). unfold writable. unfold entry in Hp, Hw.
  destruct (present (pde s vm (va / 4096 / 1024))) eqn:E; [|discriminate Hp].
  pose proof (wp_get_pte_ptr s vm (va / 4096) (va mod 4096) V ltac:(lia) ltac:(lia) E) as Hg.
  replace (4096 * (va / 4096) + va mod 4096) with va in Hg by lia. wp_step. eapply wp_mono; [exact Hg|].
  intros q ? [-> ->]. destruct (vo_table s vm V (va / 4096 / 1024) ltac:(lia) E) as (Hf & _).
  assert (table s vm (va / 4096 / 1024) + KERNEL_BASE + 4 * (va / 4096 mod 1024) =? 0 = false) as ->.
  { apply Z.eqb_neq. destruct Hf. unfold KERNEL_BASE. lia. }
  wp_step. apply (wp_ldw s _ (table s vm (va / 4096 / 1024)) (va / 4096 mod 1024)); [done|lia|done|].
  apply wp_ret. split; [done|]. fold (present (words s (table s vm (va / 4096 / 1024) + 4 * (va / 4096 mod 1024)))).
  by rewrite Hp, Hw.
Qed.

(** The kernel with other contents of memory. *)
Definition with_mem s (k : K) : K := set_vms (set_mem s (k_vms k)) k.

(** Byte by byte: the [i] bytes of [val] are at [a]. *)
Record stored vm s s' (a i : Z) (val : Z → Z) : Prop := {
  so_same : same_but (-1) vm s s';
  so_in : ∀ j, 0 <= j < i → pbyte s' (phys s vm (a + j)) = val j;
  so_out : ∀ x, (∀ j, 0 <= j < i → x ≠ phys s vm (a + j)) → pbyte s' x = pbyte s x
}.

Lemma phys_offset s vm va : phys s vm va mod 4096 = va mod 4096 ∨ page_of (entry s vm (va / 4096)) mod 4096 ≠ 0.
Proof. unfold phys. lia. Qed.

Lemma stored_next s s1 s2 vm a i val :
  vm_ok s vm → 0 <= i < 4 → (∀ j, 0 <= j < 4 → data_at s vm (a + j)) →
  stored vm s s1 a i val → same_but (-1) vm s1 s2 →
  (∀ x, pbyte s2 x = if decide (x = phys s1 vm (a + i)) then val i else pbyte s1 x) →
  stored vm s s2 a (i + 1) val.
Proof.
  intros V Hi Hd [S1 I1 O1] S2 Hx.
  assert (phys s1 vm (a + i) = phys s vm (a + i)) as E.
  { apply (data_same _ _ _ _ _ S1 (Hd i Hi)). destruct (Hd i Hi). lia. }
  rewrite E in Hx. split; [by eapply same_but_trans|..].
  - intros j Hj. rewrite Hx. case_decide as Ej.
    + assert (j = i) as ->; [|done]. destruct (phys_offset s vm (a + j)) as [H1|H1];
        [|destruct H1; by apply (data_frame _ _ _ V (Hd j ltac:(lia)))].
      destruct (phys_offset s vm (a + i)) as [H2|H2]; [|destruct H2; by apply (data_frame _ _ _ V (Hd i ltac:(lia)))]. lia.
    + apply I1. destruct (decide (j = i)) as [->|]; [done|lia].
  - intros x Ho. rewrite Hx, decide_False by (apply Ho; lia). apply O1. intros j Hj. apply Ho. lia.
Qed.

(** A word stored at an address the processor may write to. *)
Lemma wp_user_st32 (k : K) a v :
  let s := mem (k_vms k) in let vm := cpu_vm (cr3 (k_vms k)) in
  vm_ok s vm → 0 <= a → a + 4 <= 4294967296 → (∀ j, 0 <= j < 4 → writable_at s vm (a + j)) →
  wp (user_st32 a v) k (λ _ k', ∃ s', k' = with_mem s' k ∧ stored vm s s' a 4 (byte_of v)).
Proof.
  intros s vm V Ha Hae Hw.
  eapply wp_mono; [apply (wp_for_range (λ i k1, ∃ s1, k1 = with_mem s1 k ∧ stored vm s s1 a i (byte_of v)))|by intros [] k1].
  - exists s. split; [by destruct k as [? [] ? ? ? ? ? ?]|]. split; [by apply same_but_refl|lia|done].
  - intros i k1 Hi (s1 & -> & St1). pose proof (so_same _ _ _ _ _ _ St1) as S1. pose proof (sb_vm _ _ _ _ S1) as V1.
    rewrite u32_small by ulia. destruct (Hw i Hi) as [Di Wi].
    destruct (data_same _ _ _ _ _ S1 Di) as [D1 E1]; [destruct Di; lia|].
    assert (writable_at s1 vm (a + i)) as W1 by (split; [done|by rewrite (sb_entry _ _ _ _ S1) by (destruct Di; lia)]).
    unfold user_stb. do 2 wp_step. cbn [with_mem k_vms set_vms set_mem cr3]. fold vm.
    wp_step. do 2 apply wp_zoom. cbn [with_mem k_vms set_vms set_mem mem].
    eapply wp_mono; [by apply wp_writable|]. intros r ? [-> ->]. wp_step. cbn [negb when]. apply wp_ret.
    do 2 apply wp_zoom. cbn [with_mem k_vms set_vms set_mem mem].
    eapply wp_mono; [apply wp_cpu_stb; [done|done|apply byte_of_range]|]. intros [] s2 [S2 Hx].
    exists s2. split; [reflexivity|]. eapply stored_next; [exact V|exact Hi|apply Hw|exact St1|exact S2|exact Hx].
Qed.

(** Another space is untouched by stores that miss its tables. *)
Lemma vm_ok_bytes s s' other :
  vm_ok s other → mem_ok s' → falloc s' = falloc s → top s' = top s →
  (∀ x, x - x mod 4096 = pd_phys other → pbyte s' x = pbyte s x) → vm_ok s' other.
Proof.
  intros V M Ef Et Hb. destruct (vo_pd_frame s other V) as [(H0 & Hm & Ht) Hr].
  assert (∀ g, refs s' g = refs s g) as Er by (intros; unfold refs; by rewrite Ef).
  assert (∀ g, frame_in s g → frame_in s' g) as Hfr by (intros g; by apply frame_in_top).
  assert (∀ i, 0 <= i < 1024 → pde s' other i = pde s other i) as Ep.
  { intros i Hi. apply word_bytes; [apply M|apply (vo_mem _ _ V)|]. intros b Hbr.
    specialize (Hb (pd_phys other + 4 * i + b) ltac:(lia)). unfold pbyte in Hb.
    by replace (pd_phys other + 4 * i + b - (pd_phys other + 4 * i + b) mod 4) with (pd_phys other + 4 * i) in Hb by lia;
      replace ((pd_phys other + 4 * i + b) mod 4) with b in Hb by lia. }
  assert (∀ i, 0 <= i < 1024 → table s' other i = table s other i) as Etb by (intros; unfold table; by rewrite Ep).
  split; [done|apply V| |..].
  - rewrite Er. split; [apply Hfr; done|done].
  - intros i Hi. rewrite Ep, Etb, Er by done. intros Hp. destruct (vo_table s other V i Hi Hp) as (? & ? & ?). auto.
  - intros i j Hi Hj. rewrite !Ep, !Etb by done. by apply (vo_inj s other V).
Qed.
End stores.

(* ------------------------------------------------------------------ *)
(** ** Waiting for a child *)

Section waiting.
Context `{FA : FrameAllocator St} {D : Type} {DR : Drivers D}.
Notation K := (kernel St D).
Implicit Types (k : K) (pr : process_t).

(** Thread [t] of process [caller] is running. *)
Definition running k (t caller : Z) : Prop :=
  g_current_thread (k_sched k) = t ∧ ∃ th, threads (k_sched k) !! t = Some th ∧ th_process th = caller.

Lemma wp_current_process k t caller (Q : Z → K → Prop) : running k t caller → Q caller k → wp current_process k Q.
Proof.
  intros (<- & th & Ht & <-) HQ. unfold current_process. wp_step. apply wp_zoom, wp_gets.
  wp_step. apply wp_zoom. eapply wp_deref; [exact Ht|]. apply wp_ret.
  by replace (set_sched _ _) with k by (by destruct k).
Qed.

Lemma wp_current_thread k t caller (Q : Z → K → Prop) :
  running k t caller → Q t k → wp (on_sched dispatch_get_current) k Q.
Proof. intros (<- & _) HQ. apply wp_zoom, wp_gets. by replace (set_sched _ _) with k by (by destruct k). Qed.

(** The children of [caller], in the order of its list. *)
Record family k (caller : Z) (l : list Z) : Prop := {
  fm_list : ∃ c, procs k !! caller = Some c ∧ chain p_next_sibling (procs k) (p_first_child c) l 0;
  fm_nodup : NoDup l;
  fm_apart : caller ∉ l
}.

Definition matches (target : Z) pr : bool := (target =? u32 (-1)) || (p_pid pr =? target).
Definition finished (target : Z) pr : bool := matches target pr && bool_decide (p_state pr = PROCESS_ZOMBIE).

(** What a process is besides its place in the lists of children. *)
Definition identity pr : process_t := with_first_child 0 (with_next_sibling 0 pr).

(** The process can be taken apart. *)
Record reapable k (pr : process_t) (h l0 : Z) (vm : arch_vm_t) (l : list Z) : Prop := {
  rp_thread : p_main_thread pr = 0 ∨ is_Some (threads (k_sched k) !! p_main_thread pr);
  rp_sockets : alen (g_sockets (k_net k)) = MAX_SOCKETS;
  rp_space : destroyable (k_vms k) (p_vmspace pr) h l0 vm l
}.

(** Where the status goes: nowhere, or to four bytes the caller may write to
    that are not in the child's directory. *)
Definition status_ok k (wstatus : Z) (child : arch_vm_t) : Prop :=
  let s := mem (k_vms k) in let vm := cpu_vm (cr3 (k_vms k)) in
  wstatus = 0 ∨
  0 < wstatus ∧ wstatus + 4 <= 4294967296 ∧ vm_ok s vm ∧
  ∀ j, 0 <= j < 4 → writable_at s vm (wstatus + j) ∧ page_of (entry s vm ((wstatus + j) / 4096)) ≠ pd_phys child.

Lemma wp_sys_net_close_all (n : net) :
  alen (g_sockets n) = MAX_SOCKETS →
  wp sys_net_close_all n (λ _ n', alen (g_sockets n') = MAX_SOCKETS ∧
    ∀ i, 0 <= i < MAX_SOCKETS → in_use (aat (g_sockets n') i) = false).
Proof.
  intros Hl. unfold sys_net_close_all.
  eapply wp_mono; [apply (wp_for_range (λ i n', alen (g_sockets n') = MAX_SOCKETS ∧
    ∀ j, 0 <= j < i → in_use (aat (g_sockets n') j) = false))|by intros [] n'].
  - split; [done|lia].
  - intros i n1 Hi [Hl1 H1]. wp_step. apply wp_zoom, wp_ld; [lia|].
    destruct (in_use (aat (g_sockets n1) i)) eqn:E; cbn [when].
    + apply wp_zoom, wp_st; cbn; [lia|]. split; [done|]. intros j Hj. destruct (decide (j = i)) as [->|].
      * by rewrite aat_aput_eq.
      * rewrite aat_aput_ne by done. apply H1. lia.
    + apply wp_ret. cbn. split; [done|]. intros j Hj. destruct (decide (j = i)) as [->|]; [done|]. apply H1. lia.
Qed.

(** A process and its address space are gone; no socket is open any more. *)
Record destroyed k (z : Z) pr (h : Z) (vm : arch_vm_t) (l : list Z) (k' : K) : Prop := {
  de_procs : procs k' = delete z (procs k);
  de_sockets : ∀ i, 0 <= i < MAX_SOCKETS → in_use (aat (g_sockets (k_net k')) i) = false;
  de_space : torn_down (k_vms k) (p_vmspace pr) h vm l (k_vms k');
  de_threads : ∀ t, th_state <$> threads (k_sched k') !! t =
    if decide (t = p_main_thread pr ∧ t ≠ 0) then Some THREAD_STATE_DEAD else th_state <$> threads (k_sched k) !! t;
  de_rest : (k_vfs k', next_pid k', next_tid k', kernel_esps k') = (k_vfs k, next_pid k, next_tid k, kernel_esps k)
}.

Lemma wp_process_destroy k z pr h l0 vm l :
  procs k !! z = Some pr → reapable k pr h l0 vm l → wp (process_destroy z) k (λ _ k', destroyed k z pr h vm l k').
Proof.
  intros Hz [Ht Hs Hd]. unfold process_destroy. wp_step. eapply wp_deref; [exact Hz|]. wp_step.
  assert (wp (when (negb (p_main_thread pr =? 0)) (on_sched (thread_set (p_main_thread pr) (set_state THREAD_STATE_DEAD))) : M K unit) k
    (λ _ k1, ∃ sc, k1 = set_sched sc k ∧ ∀ t, th_state <$> threads sc !! t =
      if decide (t = p_main_thread pr ∧ t ≠ 0) then Some THREAD_STATE_DEAD else th_state <$> threads (k_sched k) !! t)) as Hw.
  { destruct (Z.eqb_spec (p_main_thread pr) 0) as [E|E]; cbn [negb when].
    - apply wp_ret. exists (k_sched k). split; [by destruct k|]. intros t. rewrite decide_False; [done|]. rewrite E. by intros [-> ?].
    - destruct Ht as [|[th Hth]]; [done|]. apply wp_zoom. eapply wp_assign; [exact Hth|]. eexists. split; [done|].
      intros t. cbn. destruct (decide (t = p_main_thread pr)) as [->|Hne].
      + rewrite lookup_insert_eq, decide_True; [done|done].
      + rewrite lookup_insert_ne, decide_False; [done|by intros [? _]|done]. }
  eapply wp_mono; [exact Hw|]. intros [] k1 (sc & -> & Hst).
  wp_step. apply wp_zoom. eapply wp_mono; [by apply wp_sys_net_close_all|]. intros [] n1 [Hl1 Hn1].
  wp_step. apply wp_zoom. cbn [set_net set_sched k_vms]. eapply wp_mono; [by eapply wp_vmspace_destroy|].
  intros [] v1 Td. wp_step. by split.
Qed.

(** The list without [z], once its predecessor or its parent points past it. *)
Definition unlinked (m : gmap Z process_t) (caller prev next : Z) : gmap Z process_t :=
  if prev =? 0 then alter (with_first_child next) caller m else alter (with_next_sibling next) prev m.

Lemma alter_some (f : process_t → process_t) (m : gmap Z process_t) i x : m !! i = Some x → alter f i m = <[i := f x]> m.
Proof. intros H. rewrite <-(insert_id m i x) at 1 by done. apply alter_insert_eq. Qed.

Lemma chain_unlink m h l1 z l2 pz :
  chain p_next_sibling m h (l1 ++ z :: l2) 0 → NoDup (l1 ++ z :: l2) → m !! z = Some pz → l1 ≠ [] →
  chain p_next_sibling (alter (with_next_sibling (p_next_sibling pz)) (tail_of l1) m) h (l1 ++ l2) 0.
Proof.
  intros Hc Hnd Hz Hne. destruct l1 as [|prev l1 _] using rev_ind; [done|]. rewrite tail_of_app.
  rewrite chain_app in Hc. destruct Hc as (x & Hc1 & (-> & _ & v & Hv & Hc2)). rewrite Hz in Hv. injection Hv as <-.
  rewrite NoDup_app in Hnd. destruct Hnd as (Hnd1 & Hdis & Hnd2).
  assert (prev ∈ l1 ++ [prev]) as Hin by (apply elem_of_app; right; by constructor).
  destruct (chain_elem _ _ _ _ _ _ Hc1 Hin) as [_ [pp Hpp]]. pose proof (Hdis prev Hin) as Hpn.
  rewrite (alter_some _ _ _ _ Hpp).
  rewrite chain_app. exists (p_next_sibling pz). split.
  - eapply chain_insert_last; [|by exists pp|done|exact Hc1].
    apply NoDup_app in Hnd1 as (_ & Hd & _). intros Hp. apply (Hd prev Hp). by constructor.
  - apply chain_insert_ne; [|done]. intros Hp. apply Hpn. by constructor.
Qed.

Lemma chain_delete m h l z : z ∉ l → chain p_next_sibling m h l 0 → chain p_next_sibling (delete z m) h l 0.
Proof. intros Hz. apply chain_ext. intros q Hq. rewrite lookup_delete_ne; [done|]. by intros ->. Qed.

Lemma family_unlinked m caller c l1 z l2 pz :
  m !! caller = Some c → chain p_next_sibling m (p_first_child c) (l1 ++ z :: l2) 0 →
  NoDup (l1 ++ z :: l2) → caller ∉ l1 ++ z :: l2 → m !! z = Some pz →
  ∃ c', delete z (unlinked m caller (tail_of l1) (p_next_sibling pz)) !! caller = Some c' ∧
    chain p_next_sibling (delete z (unlinked m caller (tail_of l1) (p_next_sibling pz))) (p_first_child c') (l1 ++ l2) 0.
Proof.
  intros Hc Hch Hnd Hap Hz.
  assert (z ∉ l1 ++ l2) as Hzn.
  { rewrite <-Permutation_middle in Hnd. by apply NoDup_cons in Hnd as [? _]. }
  assert (caller ≠ z) as Hcz by (intros ->; apply Hap, elem_of_app; right; by constructor).
  unfold unlinked. destruct (decide (l1 = [])) as [->|Hne].
  - change (tail_of []) with 0. change (0 =? 0) with true. cbn iota. rewrite (alter_some _ _ _ _ Hc). cbn [app] in *.
    exists (with_first_child (p_next_sibling pz) c).
    split; [by rewrite lookup_delete_ne, lookup_insert_eq by done|]. apply chain_delete; [done|]. cbn [p_first_child with_first_child].
    destruct Hch as (_ & _ & v & Hv & Hch). rewrite Hz in Hv. injection Hv as <-.
    apply chain_insert_ne; [|done]. intros Hin. apply Hap. by constructor.
  - pose proof (tail_of_elem l1 Hne) as Hin.
    assert (tail_of l1 ∈ l1 ++ z :: l2) as Hin' by (apply elem_of_app; by left).
    destruct (chain_elem _ _ _ _ _ _ Hch Hin') as [H0 [pp Hpp]]. rewrite (proj2 (Z.eqb_neq _ _) H0).
    assert (tail_of l1 ≠ caller) as Htc by (intros E; apply Hap; by rewrite <-E).
    exists c. split; [by rewrite lookup_delete_ne, lookup_alter_ne|]. apply chain_delete; [done|]. by apply (chain_unlink _ _ _ z).
Qed.

Lemma unlinked_identity m caller prev next q : identity <$> unlinked m caller prev next !! q = identity <$> m !! q.
Proof.
  unfold unlinked. assert (∀ f i, (∀ pr, identity (f pr) = identity pr) → identity <$> alter f i m !! q = identity <$> m !! q) as H.
  { intros f i Hf. destruct (decide (q = i)) as [->|]; [|by rewrite lookup_alter_ne].
    rewrite lookup_alter_eq. destruct (m !! i); cbn; [by rewrite Hf|done]. }
  case_match; by apply H.
Qed.

(** Child [z] has been reaped: it was the first of the list that matches and
    has exited. *)
Record reaped k (caller target wstatus : Z) (l1 : list Z) (z : Z) (l2 : list Z) pr (k' : K) : Prop := {
  re_child : procs k !! z = Some pr ∧ finished target pr = true;
  re_first : ∀ y, y ∈ l1 → ∃ py, procs k !! y = Some py ∧ finished target py = false;
  re_family : family k' caller (l1 ++ l2);
  re_gone : procs k' !! z = None;
  re_others : ∀ q, q ≠ z → identity <$> procs k' !! q = identity <$> procs k !! q;
  re_status : wstatus ≠ 0 → ∀ j, 0 <= j < 4 →
    pbyte (mem (k_vms k')) (phys (mem (k_vms k)) (cpu_vm (cr3 (k_vms k))) (wstatus + j)) = byte_of (p_exit_code pr) j;
  re_sockets : ∀ i, 0 <= i < MAX_SOCKETS → in_use (aat (g_sockets (k_net k')) i) = false;
  re_space : spaces (k_vms k') = delete (p_vmspace pr) (spaces (k_vms k));
  re_rest : (k_vfs k', next_pid k', next_tid k') = (k_vfs k, next_pid k, next_tid k)
}.

(** The store of the status. *)
Lemma wp_status k wstatus v child :
  status_ok k wstatus child →
  wp (when (negb (wstatus =? 0)) (user_st32 wstatus v)) k (λ _ k1, ∃ s1, k1 = with_mem s1 k ∧
    (wstatus = 0 ∧ s1 = mem (k_vms k) ∨
     stored (cpu_vm (cr3 (k_vms k))) (mem (k_vms k)) s1 wstatus 4 (byte_of v)) ∧
    (vm_ok (mem (k_vms k)) child → vm_ok s1 child)).
Proof.
  intros [->|(H0 & H1 & V & Hw)].
  - change (0 =? 0) with true. cbn [negb when]. apply wp_ret. exists (mem (k_vms k)).
    split; [by destruct k as [? [] ? ? ? ? ? ?]|]. by split; [left|].
  - rewrite (proj2 (Z.eqb_neq _ _)) by lia. cbn [negb when].
    eapply wp_mono; [apply wp_user_st32; [done|lia|lia|]; intros j Hj; by apply Hw|].
    intros [] k1 (s1 & -> & So). exists s1. split; [done|]. split; [by right|]. intros Vc.
    pose proof (so_same _ _ _ _ _ _ So) as S. destruct (vo_pd_frame _ _ Vc) as [(_ & Hm & _) _].
    apply (vm_ok_bytes (mem (k_vms k))); [done|apply (vo_mem _ _ (sb_vm _ _ _ _ S))|apply (sb_falloc _ _ _ _ S)|apply (sb_top _ _ _ _ S)|]. intros x Hx. apply (so_out _ _ _ _ _ _ So).
    intros j Hj E. destruct (Hw j Hj) as [[Dj _] Hne]. apply Hne. rewrite <-Hx, E.
    destruct (data_frame _ _ _ V Dj) as [(_ & Hf & _) _]. unfold phys. lia.
Qed.

Lemma unlinked_other m caller prev next q : q ≠ caller → q ≠ prev → unlinked m caller prev next !! q = m !! q.
Proof. intros H1 H2. unfold unlinked. case_match; by rewrite lookup_alter_ne. Qed.

Lemma wp_unlink k caller c prev next :
  procs k !! caller = Some c → (prev ≠ 0 → is_Some (procs k !! prev)) →
  wp (if negb (prev =? 0) then process_set prev (with_next_sibling next)
      else process_set caller (with_first_child next)) k (λ _ k1, k1 = set_procs (unlinked (procs k) caller prev next) k).
Proof.
  intros Hc Hp. unfold unlinked. destruct (Z.eqb_spec prev 0) as [->|Hne]; cbn [negb].
  - eapply wp_assign; [exact Hc|]. by rewrite (alter_some _ _ _ _ Hc).
  - destruct (Hp Hne) as [pp Hpp]. eapply wp_assign; [exact Hpp|]. by rewrite (alter_some _ _ _ _ Hpp).
Qed.

Lemma wp_reap k caller target wstatus l1 z l2 pr h l0 vm la {A} (m : M K A) (Q : A → K → Prop) :
  family k caller (l1 ++ z :: l2) → procs k !! z = Some pr → finished target pr = true →
  (∀ y, y ∈ l1 → ∃ py, procs k !! y = Some py ∧ finished target py = false) →
  status_ok k wstatus vm → reapable k pr h l0 vm la →
  (∀ k', reaped k caller target wstatus l1 z l2 pr k' → wp m k' Q) →
  wp ((if negb (tail_of l1 =? 0) then process_set (tail_of l1) (with_next_sibling (p_next_sibling pr))
       else process_set caller (with_first_child (p_next_sibling pr))) ;;
      when (negb (wstatus =? 0)) (user_st32 wstatus (p_exit_code pr)) ;;
      process_destroy z ;; m) k Q.
Proof.
  intros [(c & Hc & Hch) Hnd Hap] Hz Hf Hfst Hst Hre HQ.
  assert (z ∈ l1 ++ z :: l2) as Hzin by (apply elem_of_app; right; by constructor).
  assert (z ∉ l1 ++ l2) as Hzn by (rewrite <-Permutation_middle in Hnd; by apply NoDup_cons in Hnd as [? _]).
  assert (tail_of l1 ≠ 0 → tail_of l1 ∈ l1) as Htl.
  { intros H. apply tail_of_elem. intros ->. by apply H. }
  wp_step. eapply wp_mono; [apply (wp_unlink k caller c); [done|]|].
  { intros H%Htl. eapply chain_elem; [exact Hch|]. apply elem_of_app. by left. }
  intros [] k1 ->. set (m1 := unlinked (procs k) caller (tail_of l1) (p_next_sibling pr)).
  wp_step. eapply wp_mono; [apply (wp_status (set_procs m1 k) wstatus _ vm Hst)|]. intros [] k2 (s1 & -> & Hs1 & Hvm).
  assert (m1 !! z = Some pr) as Hz1.
  { unfold m1. rewrite unlinked_other; [done|by intros ->|]. intros E. apply Hzn, elem_of_app. left. rewrite E. apply Htl.
    intros E0. rewrite E0 in E. subst z. destruct (chain_elem _ _ _ _ _ _ Hch Hzin). done. }
  destruct Hre as [Ht Hs Hd]. wp_step. eapply wp_mono; [apply (wp_process_destroy (with_mem s1 (set_procs m1 k)) z pr h l0 vm la Hz1)|].
  { split; [done|done|]. destruct Hd as [D1 D2 D3 D4 D5 D6]. split; [done..|by apply Hvm|done|done]. }
  intros [] k' [P1 P2 P3 _ P5]. cbn in P1, P3, P5.
  destruct (family_unlinked (procs k) caller c l1 z l2 pr Hc Hch Hnd Hap Hz) as (c' & Hc' & Hch'). fold m1 in Hc', Hch'.
  assert (sublist (l1 ++ l2) (l1 ++ z :: l2)) as Hsub by (apply sublist_app; [done|by constructor]).
  apply HQ. split; [done|done|split| |..].
  - exists c'. by rewrite P1.
  - by eapply sublist_NoDup.
  - intros H. apply Hap. by eapply elem_of_sublist.
  - by rewrite P1, lookup_delete_eq.
  - intros q Hq. rewrite P1, lookup_delete_ne by done. apply unlinked_identity.
  - intros H0 j Hj. destruct Hs1 as [[? _]|So]; [done|].
    unfold pbyte. rewrite (rl_words _ _ _ (td_mem _ _ _ _ _ _ P3)). exact (so_in _ _ _ _ _ _ So j Hj).
  - exact P2.
  - apply (td_spaces _ _ _ _ _ _ P3).
  - by injection P5 as -> -> -> _.
Qed.

Definition none_finished k (target : Z) (l : list Z) : Prop :=
  ∀ y, y ∈ l → ∃ py, procs k !! y = Some py ∧ finished target py = false.
Definition some_match k (target : Z) (l : list Z) : Prop :=
  ∃ y py, y ∈ l ∧ procs k !! y = Some py ∧ matches target py = true.

Lemma none_finished_snoc k target l p pr :
  none_finished k target l → procs k !! p = Some pr → finished target pr = false → none_finished k target (l ++ [p]).
Proof. intros H Hp Hf y [Hy|Hy%list_elem_of_singleton]%elem_of_app; [by apply H|subst; eauto]. Qed.

Lemma some_match_snoc k target l p pr :
  procs k !! p = Some pr → some_match k target (l ++ [p]) ↔ some_match k target l ∨ matches target pr = true.
Proof.
  intros Hp. split.
  - intros (y & py & [Hy|Hy%list_elem_of_singleton]%elem_of_app & Hl & Hm); [left; by exists y, py|]. right. congruence.
  - intros [(y & py & Hy & Hl & Hm)|Hm]; [exists y, py|exists p, pr]; (split; [apply elem_of_app|done]); [by left|right; by constructor].
Qed.

Lemma wp_waitpid_pass k caller l target wstatus :
  family k caller l →
  (∀ z pz, z ∈ l → procs k !! z = Some pz → finished target pz = true →
     ∃ h l0 vm la, status_ok k wstatus vm ∧ reapable k pz h l0 vm la) →
  wp (waitpid_pass caller target wstatus) k (λ r k', match r with
    | inl b => k' = k ∧ none_finished k target l ∧ (b = true ↔ some_match k target l)
    | inr pid => ∃ l1 z l2 pr, l = l1 ++ z :: l2 ∧ pid = p_pid pr ∧ reaped k caller target wstatus l1 z l2 pr k'
    end).
Proof.
  intros Hfam Hre. pose proof Hfam as [(c & Hc & Hch) Hnd Hap]. unfold waitpid_pass.
  wp_step. eapply wp_deref; [exact Hc|]. do 2 wp_step.
  apply (wp_while_n (λ t '(hm, prev, p) k1, k1 = k ∧ ∃ l1 l2, l = l1 ++ l2 ∧ t = length l2 ∧ prev = tail_of l1 ∧
    chain p_next_sibling (procs k) p l2 0 ∧ none_finished k target l1 ∧ (hm = true ↔ some_match k target l1)) _ _ _ (length l)).
  { split; [done|]. exists [], l. split_and!; [done..|by intros y ?%not_elem_of_nil|].
    split; [done|]. by intros (y & py & ?%not_elem_of_nil & _). }
  { unfold child_fuel. pose proof (chain_size _ _ _ _ _ Hnd Hch). lia. }
  intros t [[hm prev] p] k1 (-> & l1 & l2 & El & -> & -> & Hc2 & Hnf & Hm).
  destruct l2 as [|z l2]; cbn [chain] in Hc2.
  { subst p. change (0 =? 0) with true. cbn iota. apply wp_ret. rewrite app_nil_r in El. by subst l1. }
  destruct Hc2 as (-> & Hz0 & pr & Hz & Hc2). rewrite (proj2 (Z.eqb_neq _ _) Hz0).
  wp_step. eapply wp_deref; [exact Hz|]. fold (matches target pr).
  assert (finished target pr = false → ∀ hm', (hm' = true ↔ hm = true ∨ matches target pr = true) →
    ∃ t', (t' < length (z :: l2))%nat ∧ k = k ∧ ∃ l1' l2', l = l1' ++ l2' ∧ t' = length l2' ∧ z = tail_of l1' ∧
      chain p_next_sibling (procs k) (p_next_sibling pr) l2' 0 ∧ none_finished k target l1' ∧
      (hm' = true ↔ some_match k target l1')) as Hnext.
  { intros Hf hm' Hhm. exists (length l2). split; [cbn; lia|]. split; [done|]. exists (l1 ++ [z]), l2.
    split_and!; [by rewrite <-app_assoc|done|by rewrite tail_of_app|done|by eapply none_finished_snoc|].
    rewrite (some_match_snoc _ _ _ _ _ Hz), Hhm, Hm. done. }
  destruct (matches target pr) eqn:Em.
  - case_decide as Es.
    + assert (finished target pr = true) as Hf by (unfold finished; rewrite Em; by apply bool_decide_eq_true).
      destruct (Hre z pr) as (h & l0 & vm & la & Hst & Hrp); [|done|done|].
      { rewrite El. apply elem_of_app. right. by constructor. }
      rewrite El in Hfam. eapply (wp_reap k caller target wstatus l1 z l2 pr h l0 vm la); [done..|].
      intros k' R. apply wp_ret. by exists l1, z, l2, pr.
    + apply wp_ret. apply Hnext; [|split; [by right|done]]. unfold finished. rewrite Em. by apply bool_decide_eq_false.
  - apply wp_ret. apply Hnext; [unfold finished; by rewrite Em|]. split; [by left|]. by intros [|].
Qed.

(** The caller sleeps in [waitpid] and the scheduler has moved on. *)
Record blocked k (caller : Z) (q : Z → list Z) (sl : list Z) (k' : K) : Prop := {
  bl_waiting : ∃ c, procs k !! caller = Some c ∧ procs k' = <[caller := with_waiting true c]> (procs k);
  bl_switched : switched (kernel_idle_task (k_sched k)) q sl (k_sched k');
  bl_rest : (k_vms k', k_vfs k', k_net k', next_pid k', next_tid k') = (k_vms k, k_vfs k, k_net k, next_pid k, next_tid k)
}.

(** The scheduler when thread [t] with a number of its own runs. *)
Definition on_cpu k (t : Z) (q : Z → list Z) (sl : list Z) : Prop :=
  Tick.inv (k_sched k) q sl ∧ ∃ th, threads (k_sched k) !! t = Some th ∧ th_tid th ≠ 0.

(** C16: [sys_waitpid], every outcome. If a child that matches has exited, the
    first one in the list is reaped: its pid is returned, its status is in the
    caller's memory, it is out of the list and its address space is gone, and
    every other process is as it was. Otherwise the result is [-ECHILD] when no
    child matches and 0 under [WNOHANG], both without any effect; and else the
    caller is marked as waiting and the processor goes to the thread the
    scheduler picks. The call never gets stuck. *)
Theorem sys_waitpid_outcomes k t caller l target wstatus options q sl :
  running k t caller → on_cpu k t q sl → family k caller l →
  (∀ z pz, z ∈ l → procs k !! z = Some pz → finished target pz = true →
     ∃ h l0 vm la, status_ok k wstatus vm ∧ reapable k pz h l0 vm la) →
  wp (sys_waitpid target wstatus options) k (λ r k',
    (∃ l1 z l2 pr, l = l1 ++ z :: l2 ∧ r = Some (p_pid pr) ∧ reaped k caller target wstatus l1 z l2 pr k') ∨
    none_finished k target l ∧
      (¬ some_match k target l ∧ r = Some (u32 (- ECHILD)) ∧ k' = k ∨
       some_match k target l ∧ has options WNOHANG = true ∧ r = Some 0 ∧ k' = k ∨
       some_match k target l ∧ has options WNOHANG = false ∧ r = None ∧ blocked k caller q sl k')).
Proof.
  intros Hrun (Hinv & th & Hth & Htid) Hfam Hre. pose proof Hfam as [(c & Hc & _) _ _]. unfold sys_waitpid.
  wp_step. eapply wp_current_thread; [done|]. wp_step. eapply wp_current_process; [done|].
  wp_step. eapply wp_mono; [by apply wp_waitpid_pass|]. intros [[]|pid] k1.
  - intros (-> & Hnf & Hm). pose proof (proj1 Hm eq_refl) as Hsm.
    destruct (has options WNOHANG) eqn:Eo; [apply wp_ret; right; split; [done|]; right; by left|].
    wp_step. eapply wp_assign; [exact Hc|].
    pose proof (wp_exit_switch (k_sched k) q sl th Hinv) as Hs.
    destruct Hrun as (Et & _). rewrite Et in Hs. specialize (Hs Hth Htid). unfold wp, bind in Hs.
    wp_step. apply wp_zoom. cbn [k_sched set_procs]. destruct (sched_dequeue t (k_sched k)) as [[[] s1]|] eqn:E1; [|done].
    eapply wp_intro; [exact E1|]. wp_step. apply wp_zoom. cbn [k_sched set_sched set_procs].
    destruct (sched_switch_next s1) as [[[] s2]|] eqn:E2; [|done]. eapply wp_intro; [exact E2|]. apply wp_ret.
    right. split; [done|]. right. right. split_and!; [done..|]. split; [by exists c|done|done].
  - intros (-> & Hnf & Hm). apply wp_ret. right. split; [done|]. left. split; [|done]. intros H. by apply Hm in H.
  - intros (l1 & z & l2 & pr & -> & -> & R). apply wp_ret. left. by exists l1, z, l2, pr.
Qed.

(** The main thread of a waiting parent: it can be scheduled and does not run. *)
Definition parent_thread k (t : Z) (pp : process_t) (thp : thread_t) : Prop :=
  threads (k_sched k) !! p_main_thread pp = Some thp ∧ schedulable thp ∧ p_main_thread pp ≠ 0 ∧ p_main_thread pp ≠ t.

(** The ready queues after the parent was woken. *)
Definition woken (q : Z → list Z) (pp : process_t) (thp : thread_t) : Z → list Z :=
  if p_is_waiting pp then <[th_priority thp := q (th_priority thp) ++ [p_main_thread pp]]> q else q.

(** Up to the wake-up, [sys_exit] marks the process and takes its thread out
    of the scheduler, which gives [s1]. *)
Lemma wp_sys_exit k t proc pr status q sl pp (Q : unit → K → Prop) :
  running k t proc → on_cpu k t q sl → procs k !! proc = Some pr →
  p_parent pr ≠ 0 → p_parent pr ≠ proc → procs k !! p_parent pr = Some pp →
  (∀ s1, Tick.quiet s1 q sl → kernel_idle_task s1 = kernel_idle_task (k_sched k) →
     (∀ p thp, p ≠ t → threads (k_sched k) !! p = Some thp → ∃ n, threads s1 !! p = Some (set_next n thp)) →
     wp (when (p_is_waiting pp) (sched_enqueue (p_main_thread pp)) ;; sched_switch_next) s1
       (λ _ s', Q tt (set_sched s' (set_procs (<[proc := with_exit status pr]> (procs k)) k)))) →
  wp (sys_exit status) k Q.
Proof.
  intros Hrun (Hinv & th & Hth & Htid) Hpr Hp0 Hself Hpp HQ. pose proof Hrun as (Et & _). unfold sys_exit.
  wp_step. eapply wp_current_thread; [done|]. wp_step. eapply wp_current_process; [done|].
  wp_step. eapply wp_assign; [exact Hpr|]. wp_step. apply wp_zoom. cbn [k_sched set_procs]. rewrite <- Et in Hth |- * at 1.
  eapply wp_mono; [by apply (wp_dequeue_current (k_sched k) q sl th)|]. intros [] s1 [Hq1 F1].
  specialize (HQ s1 Hq1 (frame_idle _ _ _ F1)).
  wp_step. eapply wp_deref; [cbn; apply lookup_insert_eq|]. cbn [p_parent with_exit].
  rewrite (proj2 (Z.eqb_neq _ _) Hp0). cbn [negb when]. do 2 wp_step.
  eapply wp_deref; [cbn; rewrite lookup_insert_ne; [exact Hpp|by apply not_eq_sym]|].
  assert (∀ p thp, p ≠ t → threads (k_sched k) !! p = Some thp → ∃ n, threads s1 !! p = Some (set_next n thp)) as Hthr.
  { intros p thp Hp. apply (frame_thread _ _ _ _ _ F1). rewrite Et. congruence. }
  specialize (HQ Hthr). apply wp_elim in HQ as ([] & s' & (u & s2 & E1 & E2)%bind_inv & HQ).
  destruct (p_is_waiting pp); cbn [when] in *.
  - apply wp_zoom. eapply wp_intro; [exact E1|]. apply wp_zoom. by eapply wp_intro; [exact E2|].
  - injection E1 as _ <-. apply wp_ret. apply wp_zoom. by eapply wp_intro; [exact E2|].
Qed.

(** C17: [sys_exit] makes the process a zombie that keeps its status and takes
    its thread off the processor for good. If the parent is waiting and its
    main thread is in no list, as [sys_waitpid] leaves it, the thread goes to
    the end of its ready queue, and the processor to the thread the scheduler
    then picks. The mark of a waiting parent stays until the parent runs again:
    if another child has exited meanwhile and the parent is still where that
    exit put it, at the end of its ready queue, it is made ready a second time
    and the queues are no longer well formed. *)
Theorem sys_exit_wakes_parent k t proc pr status q sl pp thp :
  running k t proc → on_cpu k t q sl → procs k !! proc = Some pr →
  p_parent pr ≠ 0 → p_parent pr ≠ proc → procs k !! p_parent pr = Some pp →
  (p_is_waiting pp = true → parent_thread k t pp thp) →
  let exited k' := procs k' = <[proc := with_exit status pr]> (procs k) ∧
    (k_vms k', k_vfs k', k_net k') = (k_vms k, k_vfs k, k_net k) in
  ((p_is_waiting pp = true → unqueued q (p_main_thread pp) ∧ p_main_thread pp ∉ sl) →
   wp (sys_exit status) k (λ _ k', exited k' ∧
     switched (kernel_idle_task (k_sched k)) (woken q pp thp) sl (k_sched k'))) ∧
  (∀ l, p_is_waiting pp = true → q (th_priority thp) = l ++ [p_main_thread pp] →
   wp (sys_exit status) k (λ _ k', exited k' ∧ ¬ consistent (k_sched k'))).
Proof.
  intros Hrun Hcpu Hpr Hp0 Hself Hpp Hw exited. split.
  - intros Hfree. eapply wp_sys_exit; [done..|]. intros s1 Hq1 Hid Hthr. unfold woken. destruct (p_is_waiting pp) eqn:Ew; cbn [when].
    + destruct (Hw eq_refl) as (Hpt & Hsch & Hn0 & Hnt), (Hfree eq_refl) as [Hu Hns]. destruct (Hthr _ _ Hnt Hpt) as [n Hpt1].
      wp_step. eapply wp_mono; [apply (wp_enqueue_quiet s1 q sl _ (set_next n thp) Hq1); [done|done|done|done|by destruct Hsch]|].
      intros [] s2 [Q2 F2]. eapply wp_mono; [by apply (wp_sched_switch_next s2)|]. intros [] s3 Hsw.
      split; [done|]. by rewrite (frame_idle _ _ _ F2), Hid in Hsw.
    + do 2 wp_step. eapply wp_mono; [by apply (wp_sched_switch_next s1 q sl)|]. intros [] s3 Hsw. split; [done|]. by rewrite Hid in Hsw.
  - intros l Ew Eq. eapply wp_sys_exit; [done..|]. intros s1 Hq1 Hid Hthr. rewrite Ew. cbn [when].
    destruct (Hw Ew) as (Hpt & Hsch & Hn0 & Hnt). destruct (Hthr _ _ Hnt Hpt) as [n Hpt1].
    eapply wp_mono; [apply (wp_enqueue_twice s1 q sl _ (set_next n thp) l Hq1); [done|by destruct Hsch|done|done]|].
    intros [] s3 Hno. split; [done|]. intros (q' & sl' & V). by apply (Hno q' sl').
Qed.

(** C30: nobody adopts the children of a process that is reaped. Their parent
    pointer keeps the address of the control block that was freed, and when
    such a child exits, [sys_exit] reads through it. *)
Theorem sys_exit_after_parent k caller target wstatus l1 z l2 pr k' c pc k2 t status :
  reaped k caller target wstatus l1 z l2 pr k' → z ≠ 0 → c ≠ z → procs k !! c = Some pc → p_parent pc = z →
  procs k2 = procs k' → running k2 t c →
  (p_parent <$> procs k' !! c = Some z) ∧ procs k' !! z = None ∧ sys_exit status k2 = None.
Proof.
  intros R Hz Hcz Hc Hpar E2 Hrun.
  assert (∃ pc', procs k' !! c = Some pc' ∧ p_parent pc' = z) as (pc' & Hc' & Hp').
  { pose proof (re_others _ _ _ _ _ _ _ _ _ R c Hcz) as H. rewrite Hc in H. cbn in H.
    destruct (procs k' !! c) as [pc'|]; [|done]. exists pc'. split; [done|]. rewrite <-Hpar.
    injection H as _ _ _ _ _ H _. done. }
  pose proof (re_gone _ _ _ _ _ _ _ _ _ R) as Hgone. split_and!; [by rewrite Hc', <-Hp'|done|].
  unfold sys_exit. apply bind_fault. eapply wp_current_thread; [done|]. apply bind_fault. eapply wp_current_process; [done|].
  apply bind_fault. eapply wp_assign; [by rewrite E2|]. set (k3 := set_procs _ k2).
  assert (procs k3 !! c = Some (with_exit status pc')) as H3 by (unfold k3; cbn; apply lookup_insert_eq).
  assert (procs k3 !! z = None) as Hz3 by (unfold k3; cbn; by rewrite lookup_insert_ne, E2 by done).
  unfold bind at 1, on_sched at 1, zoom at 1. destruct (sched_dequeue t (k_sched k3)) as [[[] s1]|]; [|done].
  set (k4 := set_sched s1 k3). assert (procs k4 = procs k3) as E4 by reflexivity.
  apply bind_fault. eapply wp_deref; [rewrite E4; exact H3|]. cbn [p_parent with_exit]. rewrite Hp'.
  rewrite (proj2 (Z.eqb_neq _ _) Hz). cbn [negb when]. unfold bind at 1. unfold bind at 1. unfold process, deref. by rewrite E4, Hz3.
Qed.
End waiting.

(* ------------------------------------------------------------------ *)
(** ** Witnesses *)

#[local] Existing Instance ram_drivers.

(** The process at 1000 runs in the first space of [demo_copy_memory] and has
    one heap area; its child at 2000 has exited with status 7 and has a child
    of its own at 3000; process 4000 waits. *)
Definition demo_spaces : vms pmm := Vms demo_copy_memory
  {[ 10 := Vmspace 1 20; 11 := Vmspace 2 0; 12 := Vmspace 3 0 ]}
  {[ 1 := demo_user; 2 := demo_other; 3 := demo_user ]}
  {[ 20 := Vma 4194304 4222976 139 0 ]} 12 8192 30 [] (Spinlock 0 false, true).
Definition demo_procs : gmap Z process_t :=
  {[ 1000 := Process 1 10 200 PROCESS_ALIVE 0 4000 false 0 4194304 4222976 2000 0;
     2000 := Process 2 11 300 PROCESS_ZOMBIE 7 1000 false 0 0 0 3000 0;
     3000 := Process 3 11 0 PROCESS_ALIVE 0 2000 false 0 0 0 0 0;
     4000 := Process 4 10 300 PROCESS_ALIVE 0 0 true 0 0 0 1000 0 ]}.
Definition demo_kernel : kernel pmm ramfs := Kernel demo demo_spaces demo_vfs demo_net demo_procs 5 3 ∅.

Lemma demo_kernel_running : running demo_kernel 200 1000.
Proof. split; [reflexivity|]. eexists. split; reflexivity. Qed.

Lemma demo_kernel_cpu : on_cpu demo_kernel 200 (λ _, []) [].
Proof. split; [apply demo_inv|]. eexists. split; [reflexivity|discriminate]. Qed.

Lemma demo_child : procs demo_kernel !! 2000 = Some (Process 2 11 300 PROCESS_ZOMBIE 7 1000 false 0 0 0 3000 0).
Proof. reflexivity. Qed.

Lemma demo_kernel_family : family demo_kernel 1000 [2000].
Proof.
  split; [|apply NoDup_singleton|by intros ?%list_elem_of_singleton]. eexists. split; [reflexivity|].
  cbn [chain]. split; [reflexivity|]. split; [discriminate|]. eexists. split; [exact demo_child|reflexivity].
Qed.

(** The status goes to page 1030. *)
Lemma demo_status : status_ok demo_kernel 4218980 demo_other.
Proof.
  right. split; [lia|]. split; [lia|]. split; [exact (cr_vm _ _ _ demo_ready)|].
  assert (below 4 (λ j, data_atb demo_copy_memory demo_user (4218980 + j) &&
    has (entry demo_copy_memory demo_user ((4218980 + j) / 4096)) ARCH_PD_PT_READWRITE &&
    negb (page_of (entry demo_copy_memory demo_user ((4218980 + j) / 4096)) =? 40960)) = true) as Hb by (vm_compute; reflexivity).
  intros j Hj. pose proof (below_ok _ _ Hb j Hj) as H. cbn beta in H.
  apply andb_true_iff in H as [[H1 H2]%andb_true_iff H3%negb_true_iff%Z.eqb_neq].
  split; [split; [by apply data_atb_ok|exact H2]|exact H3].
Qed.

Lemma demo_reapable : reapable demo_kernel (Process 2 11 300 PROCESS_ZOMBIE 7 1000 false 0 0 0 3000 0) 2 0 demo_other [].
Proof.
  split; [right; by eexists|reflexivity|]. split; [reflexivity| |reflexivity|exact (be_vm _ _ _ _ _ demo_beside)|reflexivity|constructor].
  eexists. split; [reflexivity|discriminate].
Qed.

Lemma demo_waitable z pz :
  z ∈ [2000] → procs demo_kernel !! z = Some pz → finished 2 pz = true →
  ∃ h l0 vm la, status_ok demo_kernel 4218980 vm ∧ reapable demo_kernel pz h l0 vm la.
Proof.
  intros ->%list_elem_of_singleton Hz _. rewrite demo_child in Hz. injection Hz as <-.
  exists 2, 0, demo_other, []. split; [exact demo_status|exact demo_reapable].
Qed.

Lemma demo_waitpid_result : fst <$> sys_waitpid 2 4218980 0 demo_kernel = Some (Some 2).
Proof. vm_compute. reflexivity. Qed.

Lemma sys_waitpid_outcomes_witness : ∃ k',
  sys_waitpid 2 4218980 0 demo_kernel = Some (Some 2, k') ∧ procs k' !! 2000 = None ∧ family k' 1000 [] ∧
  pbyte (mem (k_vms k')) (49152 + 100) = 7.
Proof.
  destruct (wp_elim _ _ _ (sys_waitpid_outcomes demo_kernel 200 1000 [2000] 2 4218980 0 (λ _, []) []
    demo_kernel_running demo_kernel_cpu demo_kernel_family demo_waitable)) as (r & k' & E & H).
  pose proof demo_waitpid_result as Hr. rewrite E in Hr. injection Hr as ->. exists k'. split; [exact E|].
  destruct H as [(l1 & z & l2 & pr & El & _ & R)|(_ & [(_ & H & _)|[(_ & _ & H & _)|(_ & _ & H & _)]])];
    [|discriminate H|discriminate H|discriminate H].
  destruct l1 as [|x l1]; [|destruct l1; discriminate El]. injection El as <- <-.
  destruct (re_child _ _ _ _ _ _ _ _ _ R) as [Hz _]. rewrite demo_child in Hz. injection Hz as <-.
  split; [exact (re_gone _ _ _ _ _ _ _ _ _ R)|]. split; [exact (re_family _ _ _ _ _ _ _ _ _ R)|].
  exact (re_status _ _ _ _ _ _ _ _ _ R ltac:(discriminate) 0 ltac:(lia)).
Defined.

(** Process 1000 exits while 4000 waits for it: thread 300 of the parent runs.
    If another exit has made thread 300 ready already, the queues break. *)
Definition demo_parent : process_t := Process 4 10 300 PROCESS_ALIVE 0 0 true 0 0 0 1000 0.

Lemma demo_parent_thread : parent_thread demo_kernel 200 demo_parent (demo_thread 2 2 THREAD_STATE_NEW).
Proof. split; [reflexivity|]. split; [split; simpl; lia|]. split; discriminate. Qed.

Lemma sys_exit_wakes_parent_witness : ∃ k' s1 k'',
  sys_exit 9 demo_kernel = Some (tt, k') ∧
  (p_exit_code <$> procs k' !! 1000 = Some 9) ∧ g_current_thread (k_sched k') = 300 ∧
  sched_enqueue 300 demo = Some (tt, s1) ∧ sys_exit 9 (set_sched s1 demo_kernel) = Some (tt, k'') ∧ ¬ consistent (k_sched k'').
Proof.
  destruct (sys_exit_wakes_parent demo_kernel 200 1000
    (Process 1 10 200 PROCESS_ALIVE 0 4000 false 0 4194304 4222976 2000 0) 9 (λ _, []) []
    demo_parent (demo_thread 2 2 THREAD_STATE_NEW)
    demo_kernel_running demo_kernel_cpu ltac:(reflexivity) ltac:(discriminate) ltac:(discriminate) ltac:(reflexivity)
    (λ _, demo_parent_thread)) as [H _].
  destruct (wp_elim _ _ _ (H (λ _, conj (demo_unqueued 300) (not_elem_of_nil 300)))) as ([] & k' & E & [Hp _] & _ & Hc & _).
  destruct demo_inv as [Q1 C1 U1 N1 R1].
  destruct (wp_elim _ _ _ (wp_ready_parked demo (λ _, []) [] 300 (demo_thread 2 2 THREAD_STATE_NEW) Q1 C1 U1 N1 R1
    demo_new ltac:(split; simpl; lia) ltac:(discriminate) ltac:(discriminate) (demo_unqueued 300) (not_elem_of_nil 300)))
    as ([] & s1 & E1 & V1 & Hc1).
  assert (match sched_enqueue 300 demo with
    | Some (_, x) => from_option (λ th, (th_tid th =? 1) && (th_process th =? 1000)) false (threads x !! 200) &&
        from_option (λ th, (th_tid th =? 2) && (th_priority th =? 2) && (th_passed th =? 0)) false (threads x !! 300)
    | None => false end = true) as F by (vm_compute; reflexivity).
  rewrite E1 in F. apply andb_true_iff in F as [F' F].
  destruct (threads s1 !! 200) as [th2|] eqn:T2; [|discriminate F']. apply andb_true_iff in F' as [O1%Z.eqb_eq O2%Z.eqb_eq].
  destruct (threads s1 !! 300) as [th3|] eqn:T3; [|discriminate F].
  apply andb_true_iff in F as [[P1%Z.eqb_eq P2%Z.eqb_eq]%andb_true_iff P3%Z.eqb_eq].
  destruct (sys_exit_wakes_parent (set_sched s1 demo_kernel) 200 1000
    (Process 1 10 200 PROCESS_ALIVE 0 4000 false 0 4194304 4222976 2000 0) 9 (<[2 := [300]]> (λ _, [])) []
    demo_parent th3
    ltac:(split; [exact Hc1|]; exists th2; split; [exact T2|exact O2])
    ltac:(split; [exact V1|]; exists th2; split; [exact T2|lia])
    ltac:(reflexivity) ltac:(discriminate) ltac:(discriminate) ltac:(reflexivity)
    ltac:(intros _; split; [exact T3|]; split; [split; lia|]; split; discriminate)) as [_ H2].
  destruct (wp_elim _ _ _ (H2 [] ltac:(reflexivity) ltac:(rewrite P2; reflexivity))) as ([] & k'' & E2 & _ & Hno).
  exists k', s1, k''. split; [exact E|]. split; [rewrite Hp; vm_compute; reflexivity|]. split; [rewrite Hc; vm_compute; reflexivity|].
  split; [exact E1|]. split; [exact E2|exact Hno].
Defined.

(** Process 3000 on the processor after its parent has been reaped. *)
Definition demo_orphan (k : kernel pmm ramfs) : kernel pmm ramfs :=
  set_sched (set_threads (<[200 := Thread 1 3000 0 80 0 0 0 0 THREAD_STATE_RUNNING 1 THREAD_MODE_USER 0 0 0]> (threads demo)) demo) k.

Lemma sys_exit_after_parent_witness : ∃ k',
  sys_waitpid 2 4218980 0 demo_kernel = Some (Some 2, k') ∧ (p_parent <$> procs k' !! 3000 = Some 2000) ∧
  procs k' !! 2000 = None ∧ sys_exit 0 (demo_orphan k') = None.
Proof.
  destruct (wp_elim _ _ _ (wp_waitpid_pass demo_kernel 1000 [2000] 2 4218980 demo_kernel_family demo_waitable)) as (r & k' & E & H).
  assert (sys_waitpid 2 4218980 0 demo_kernel = match r with inr pid => Some (Some pid, k') | _ => sys_waitpid 2 4218980 0 demo_kernel end) as Es.
  { destruct r as [b|pid]; [reflexivity|]. unfold sys_waitpid.
    erewrite bind_run; [|reflexivity]. erewrite bind_run; [|reflexivity]. by erewrite bind_run; [|exact E]. }
  pose proof demo_waitpid_result as Hr. rewrite Es in Hr. destruct r as [b|pid].
  { destruct H as (_ & Hn & _). destruct (Hn 2000) as (py & Hy & Hf); [by constructor|].
    rewrite demo_child in Hy. injection Hy as <-. discriminate Hf. }
  injection Hr as ->. destruct H as (l1 & z & l2 & pr & El & _ & R).
  destruct l1 as [|x l1]; [|destruct l1; discriminate El]. injection El as <- <-.
  exists k'. split; [exact Es|].
  exact (sys_exit_after_parent demo_kernel 1000 2 4218980 [] 2000 [] pr k' 3000
    (Process 3 11 0 PROCESS_ALIVE 0 2000 false 0 0 0 0 0) (demo_orphan k') 200 0 R
    ltac:(discriminate) ltac:(discriminate) ltac:(reflexivity) ltac:(reflexivity) ltac:(reflexivity)
    ltac:(split; [reflexivity|]; eexists; split; reflexivity)).
Defined.
