(* ===== verification/Fault.v ===== *)
(** * Page faults, the heap break and kernel stacks

    What [pf_handle], [sys_sbrk] and [alloc_kernel_stack] of [Proc] do to the
    address space of the running process. *)

From S2P Require Import Prelude Chain Range FrameAlloc Pmm Paging VaAlloc Cow Net Vfs VfsPath Vmspace Sched Tick UserCopy Proc ProcSpec.

Section areas.
Context `{FA : FrameAllocator St}.
Implicit Types (v : vms St).

Definition covers (w : vma_t) (addr : Z) : bool := (vma_start w <=? addr) && (addr <? vma_end w).

(** The first area of the list that satisfies [P], or 0. *)
Inductive first_such v (P : vma_t → bool) : list Z → Z → Prop :=
  | FS_none : first_such v P [] 0
  | FS_here p l w : vmas v !! p = Some w → P w = true → first_such v P (p :: l) p
  | FS_later p l w r : vmas v !! p = Some w → P w = false → first_such v P l r → first_such v P (p :: l) r.
Definition first_area v (addr : Z) : list Z → Z → Prop := first_such v (λ w, covers w addr).
Definition heap_area v : list Z → Z → Prop := first_such v (λ w, has (vma_flags w) VMA_HEAP).

(** The search through a list of areas. *)
Lemma wp_search v P h l :
  chain vma_next (vmas v) h l 0 → NoDup l →
  wp (while_n (vma_fuel v) (λ curr,
    if curr =? 0 then ret (inr 0)
    else c ← vma curr; if P c : bool then ret (inr curr) else ret (inl (vma_next c))) h) v
    (λ r v', v' = v ∧ first_such v P l r).
Proof.
  intros Hc Hnd.
  apply (wp_while_n (λ t curr v1, v1 = v ∧ ∃ l2, t = length l2 ∧ chain vma_next (vmas v) curr l2 0 ∧
    ∀ r, first_such v P l2 r → first_such v P l r) _ _ _ (length l)).
  { split; [done|]. by exists l. }
  { unfold vma_fuel. pose proof (chain_size _ _ _ _ _ Hnd Hc). lia. }
  intros t curr v1 (-> & l2 & -> & Hc2 & Hl). destruct l2 as [|p l2]; cbn [chain] in Hc2.
  { subst curr. change (0 =? 0) with true. cbn iota. apply wp_ret. split; [done|]. apply Hl. constructor. }
  destruct Hc2 as (-> & Hp & w & Hw & Hc2). rewrite (proj2 (Z.eqb_neq _ _) Hp).
  wp_step. eapply wp_deref; [exact Hw|]. destruct (P w) eqn:Ec; apply wp_ret.
  - split; [done|]. apply Hl. by econstructor.
  - exists (length l2). split; [cbn; lia|]. split; [done|]. exists l2. split_and!; [done|done|].
    intros r Hr. apply Hl. by econstructor.
Qed.

Lemma wp_vmspace_find_vma v sp sv l addr :
  spaces v !! sp = Some sv → chain vma_next (vmas v) (vma_list sv) l 0 → NoDup l →
  wp (vmspace_find_vma sp addr) v (λ r v', v' = v ∧ first_area v addr l r).
Proof.
  intros Hs Hc Hnd. unfold vmspace_find_vma. wp_step. eapply wp_deref; [exact Hs|]. do 2 wp_step.
  by apply (wp_search v (λ w, covers w addr)).
Qed.

Lemma first_such_elem v P l r : first_such v P l r → r ≠ 0 → ∃ w, r ∈ l ∧ vmas v !! r = Some w ∧ P w = true.
Proof.
  induction 1 as [|p l w Hp Hc|p l w r Hp Hc _ IH]; intros Hr; [done| |].
  - exists w. split; [by constructor|done].
  - destruct (IH Hr) as (x & ? & ? & ?). exists x. split; [by constructor|done].
Qed.

Lemma first_such_fun v P l r r' : first_such v P l r → first_such v P l r' → r = r'.
Proof. intros H. revert r'. induction H; intros r'; inversion 1; subst; try done; try congruence. by apply IHfirst_such. Qed.
End areas.

(** A page without the mark is left to the rest of the handler. *)
Lemma wp_handle_cow_unmarked `{FA : FrameAllocator St} (s : vmst St) vm v off :
  vm_ok s vm → 0 <= v < 1048576 → 0 <= off < 4096 → has (entry s vm v) PT_COW = false →
  wp (hal_vmm_handle_cow vm (4096 * v + off)) s (λ r s', r = false ∧ s' = s).
Proof.
  intros V Hv Ho Hc. unfold hal_vmm_handle_cow. destruct (vo_pd_frame s vm V) as [Hpf _]. unfold entry in Hc.
  destruct (present (pde s vm (v / 1024))) eqn:E.
  - wp_step. eapply wp_mono; [by apply wp_get_pte_ptr|]. intros q ? [-> ->].
    destruct (vo_table s vm V (v / 1024) ltac:(lia) E) as (Hf & _).
    rewrite (proj2 (Z.eqb_neq _ 0)) by (unfold KERNEL_BASE; destruct Hf; lia).
    wp_step. apply (wp_ldw s _ (table s vm (v / 1024)) (v mod 1024)); [done|lia|done|]. rewrite Hc. by apply wp_ret.
  - destruct (page_index_off v off Hv Ho) as (E1 & E2 & _). unfold get_pte_ptr. rewrite E1, E2.
    do 2 wp_step. apply (wp_ldw s _ (pd_phys vm) (v / 1024)); [done|lia|by rewrite (vo_pd s vm V)|].
    fold (pde s vm (v / 1024)) (present (pde s vm (v / 1024))). rewrite E. apply wp_ret. by apply wp_ret.
Qed.

Section faults.
Context `{FA : FrameAllocator St} {D : Type} {DR : Drivers D}.
Notation K := (kernel St D).
Implicit Types (k : K) (s : vmst St).

(** The process at [p] runs in space [vm], which has the areas [l]. *)
Record in_space k (t p : Z) (pr : process_t) (sv : vmspace_t) (vm : arch_vm_t) (l : list Z) : Prop := {
  is_running : running k t p;
  is_proc : procs k !! p = Some pr;
  is_space : spaces (k_vms k) !! p_vmspace pr = Some sv;
  is_arch : archs (k_vms k) !! vs_arch sv = Some vm;
  is_vm : vm_ok (mem (k_vms k)) vm;
  is_areas : chain vma_next (vmas (k_vms k)) (vma_list sv) l 0 ∧ NoDup l
}.

(** One page was added, backed by a frame that was free. *)
Definition page_added s vm (v fl : Z) s' : Prop :=
  vm_ok s' vm ∧ (∃ f, entry s' vm v = pte_word f fl ∧ refs s f = 0 ∧ refs s' f = 1 ∧ ¬ part_of s' vm f) ∧
  (∀ p, 0 <= p < 1048576 → p ≠ v → entry s' vm p = entry s vm p) ∧ ∀ g, 0 < refs s g → refs s' g = refs s g.

(** Nothing was added; a new page table may have been. *)
Definition no_page_added s vm s' : Prop :=
  vm_ok s' vm ∧ (∀ p, 0 <= p < 1048576 → entry s' vm p = entry s vm p) ∧
  (∀ g, 0 < refs s g → refs s' g = refs s g) ∧ ∀ g, refs s g = 0 → refs s' g = 0 ∨ part_of s' vm g.

(** What a fault at [addr] leads to: [true] when it is resolved, [false] when
    the handler panics. *)
Inductive fault_outcome k vm (l : list Z) (addr error : Z) : bool → K → Prop :=
  | PF_no_area : first_area (k_vms k) addr l 0 → fault_outcome k vm l addr error false k
  | PF_read_only a w : first_area (k_vms k) addr l a → a ≠ 0 → vmas (k_vms k) !! a = Some w →
      has error PF_ERR_WRITE = true → has (vma_flags w) VMA_WRITE = false → fault_outcome k vm l addr error false k
  | PF_cow a w new s' : first_area (k_vms k) addr l a → a ≠ 0 → vmas (k_vms k) !! a = Some w →
      (has error PF_ERR_WRITE = true → has (vma_flags w) VMA_WRITE = true) →
      has (entry (mem (k_vms k)) vm (addr / 4096)) PT_COW = true →
      cow_resolved (mem (k_vms k)) vm (addr / 4096) new s' → fault_outcome k vm l addr error true (with_mem s' k)
  | PF_demand a w s' : first_area (k_vms k) addr l a → a ≠ 0 → vmas (k_vms k) !! a = Some w →
      (has error PF_ERR_WRITE = true → has (vma_flags w) VMA_WRITE = true) → has error PF_ERR_PRESENT = false →
      has (entry (mem (k_vms k)) vm (addr / 4096)) PT_COW = false →
      page_added (mem (k_vms k)) vm (addr / 4096) (public_flags_to_arch_flags (demand_flags (vma_flags w))) s' →
      fault_outcome k vm l addr error true (with_mem s' k)
  | PF_no_memory a w s' : first_area (k_vms k) addr l a → a ≠ 0 → vmas (k_vms k) !! a = Some w →
      (has error PF_ERR_WRITE = true → has (vma_flags w) VMA_WRITE = true) → has error PF_ERR_PRESENT = false →
      has (entry (mem (k_vms k)) vm (addr / 4096)) PT_COW = false →
      no_page_added (mem (k_vms k)) vm s' → starved (mem (k_vms k)) vm 1 s' → fault_outcome k vm l addr error false (with_mem s' k)
  | PF_other a w : first_area (k_vms k) addr l a → a ≠ 0 → vmas (k_vms k) !! a = Some w →
      (has error PF_ERR_WRITE = true → has (vma_flags w) VMA_WRITE = true) →
      has error PF_ERR_PRESENT = true → has (entry (mem (k_vms k)) vm (addr / 4096)) PT_COW = false →
      fault_outcome k vm l addr error false k.

Lemma undo_none s vm v fl frm s' : undo_inv s vm v 0 fl frm 0 s' → no_page_added s vm s'.
Proof.
  intros U. pose proof U as [V' _ Hgone _ Hout _ _ Hold Hnew _]. split_and!; [done| |done|].
  - intros p Hp. apply Hout; [done|lia].
  - intros g Hg. destruct (Hnew g Hg) as [|[_ [|(i & Hi & _)]]]; [auto|auto|lia].
Qed.

Lemma wp_demand s vm v flags :
  vm_ok s vm → 0 <= v < 1048575 →
  wp (va_alloc_region vm (4096 * v) PAGE_SIZE flags) s (λ ok s',
    if ok : bool then page_added s vm v (public_flags_to_arch_flags flags) s'
    else no_page_added s vm s' ∧ starved s vm 1 s').
Proof.
  intros V Hv. change PAGE_SIZE with (4096 * 1). eapply wp_mono; [apply wp_va_alloc_region; [done|lia|lia|lia]|].
  intros [] s'.
  - intros (frm & I). pose proof I as [V' _ Hin Hout Hfrm _ Hold _ _ _ _]. specialize (Hin 0 ltac:(lia)).
    destruct (Hfrm 0 ltac:(lia)) as (H1 & H2 & H3 & _). rewrite Z.add_0_r in Hin. split_and!; [done| | |done].
    + by exists (frm 0).
    + intros p Hp Hne. apply Hout; [done|lia].
  - intros (n & frm & Hn & U & Hs). replace n with 0 in U by lia. split; [by eapply undo_none|done].
Qed.


(* ------------------------------------------------------------------ *)
(** ** The heap break *)

Lemma align_up_page b : 0 <= b < 1048576 → align_up (4096 * b) PAGE_SIZE = 4096 * b.
Proof.
  intros Hb. pose proof (proj2 (page_bounds b 0 ltac:(lia) ltac:(lia) ltac:(lia))) as H.
  rewrite Z.mul_0_r, !Z.add_0_r, u32_small in H by ulia. done.
Qed.

(** [vmspace_extend_heap] by one page. *)
Lemma wp_extend_one (v : vms St) sp sv vm l a w b :
  spaces v !! sp = Some sv → archs v !! vs_arch sv = Some vm → vm_ok (mem v) vm →
  chain vma_next (vmas v) (vma_list sv) l 0 → NoDup l → heap_area v l a → a ≠ 0 → vmas v !! a = Some w →
  0 <= b < 1048575 →
  wp (vmspace_extend_heap sp (4096 * b) (4096 * (b + 1))) v (λ ok v', ∃ s',
    if ok : bool then v' = set_vmas (<[a := with_vma_end (4096 * (b + 1)) w]> (vmas v)) (set_mem s' v) ∧
                      page_added (mem v) vm b 7 s'
    else v' = set_mem s' v ∧ no_page_added (mem v) vm s' ∧ starved (mem v) vm 1 s').
Proof.
  intros Hs Ha V Hc Hnd Hh Ha0 Hw Hb. unfold vmspace_extend_heap.
  apply wp_bind, wp_assert; [apply page_bool|]. apply wp_bind, wp_assert; [apply page_bool|].
  rewrite (proj2 (Z.leb_gt _ _)) by lia. wp_step. eapply wp_deref; [exact Hs|]. do 2 wp_step. wp_step.
  eapply wp_mono; [by apply (wp_search v (λ w, has (vma_flags w) VMA_HEAP))|]. intros r ? [-> Hr].
  rewrite (first_such_fun _ _ _ _ _ Hr Hh) in *. rewrite (proj2 (Z.eqb_neq _ _) Ha0).
  wp_step. eapply wp_deref; [exact Ha|]. wp_step. apply wp_zoom.
  replace (u32 (4096 * (b + 1) - 4096 * b)) with PAGE_SIZE by (unfold PAGE_SIZE; ulia).
  eapply wp_mono; [by apply wp_demand|]. change (public_flags_to_arch_flags user_page_flags) with 7.
  intros [] s' H; cbn [negb].
  - wp_step. eapply wp_assign; [exact Hw|]. apply wp_ret. exists s'. done.
  - apply wp_ret. by exists s'.
Qed.

(** A negative increment only moves the break: the page stays mapped, with
    its frame. Growing again maps a new frame over it: the old frame keeps its
    count although nothing maps it there any more, and the data it held is not
    in the heap when the break is back. *)
Theorem sys_sbrk_shrink_regrow k t p pr sv vm l a w b f :
  in_space k t p pr sv vm l → p_brk pr = 4096 * (b + 1) → 0 <= b < 1048574 →
  heap_area (k_vms k) l a → a ≠ 0 → vmas (k_vms k) !! a = Some w →
  page_of (entry (mem (k_vms k)) vm b) = f → 0 < refs (mem (k_vms k)) f →
  wp (r1 ← sys_sbrk (-4096);
      pages ← gets (λ k, mem (k_vms k));
      r2 ← sys_sbrk 4096;
      ret (r1, pages, r2)) k (λ r k',
    r.1.1 = 4096 * (b + 1) ∧ r.1.2 = mem (k_vms k) ∧
    (r.2 = 4096 * b ∧ p_brk <$> procs k' !! p = Some (4096 * (b + 1)) ∧
       page_of (entry (mem (k_vms k')) vm b) ≠ f ∧ refs (mem (k_vms k')) f = refs (mem (k_vms k)) f ∨
     r.2 = u32 (-1) ∧ p_brk <$> procs k' !! p = Some (4096 * b))).
Proof.
  intros [Hrun Hp Hs Ha V [Hc Hnd]] Hbrk Hb Hh Ha0 Hw Hf Hr. unfold sys_sbrk.
  wp_step. wp_step. eapply wp_current_process; [done|]. wp_step. eapply wp_deref; [exact Hp|]. rewrite Hbrk.
  change (-4096 =? 0) with false. cbv iota. replace (u32 (4096 * (b + 1) + -4096)) with (4096 * b) by ulia.
  rewrite !align_up_page by lia. rewrite (proj2 (Z.ltb_ge _ _)) by lia. wp_step. apply wp_ret. cbn [negb].
  wp_step. eapply wp_assign; [exact Hp|]. apply wp_ret. do 2 wp_step. cbn [k_vms set_procs].
  set (k1 := set_procs _ k). wp_step. wp_step. eapply (wp_current_process k1 t); [done|].
  wp_step. eapply wp_deref; [apply lookup_insert_eq|]. cbn [p_brk with_brk p_vmspace].
  change (4096 =? 0) with false. cbv iota. replace (u32 (4096 * b + 4096)) with (4096 * (b + 1)) by ulia.
  rewrite !align_up_page by lia. rewrite (proj2 (Z.ltb_lt _ _)) by lia. wp_step. apply wp_zoom.
  change (k_vms k1) with (k_vms k).
  eapply wp_mono; [eapply (wp_extend_one (k_vms k) (p_vmspace pr) sv vm l a w b); [done..|lia]|]. intros [] v' (s' & Hv'); cbn [negb].
  - destruct Hv' as [-> (V' & (f' & He & Hf0 & Hf1 & _) & _ & Hold)]. wp_step. eapply wp_assign; [apply lookup_insert_eq|].
    apply wp_ret. wp_step. cbn. split; [done|]. split; [done|]. left. rewrite lookup_insert_eq. split_and!; [done|done| |by apply Hold].
    rewrite He. destruct (owned_frame s' f' (vo_mem _ _ V') ltac:(lia)) as [Hff _].
    destruct (pte_word_ok f' 7 (frame_u32 s' f' (vo_mem _ _ V') Hff) (proj1 (proj2 Hff))) as (_ & -> & _). intros ->. lia.
  - destruct Hv' as [-> _]. apply wp_ret. wp_step. cbn. split; [done|]. split; [done|]. right. by rewrite lookup_insert_eq.
Qed.

(* ------------------------------------------------------------------ *)
(** ** Kernel stacks *)

(** The first page of the slot of thread [tid], and the stack of a kernel
    thread: sixteen pages, each with a frame of its own. *)
Definition stack_page (tid : Z) : Z := 987138 + 16 * tid.
Definition stack_mapped (s : vmst St) ka (tid : Z) (frm : Z → Z) : Prop :=
  (∀ i, 0 <= i < 16 → entry s ka (stack_page tid + i) = pte_word (frm i) (public_flags_to_arch_flags PAGE_READWRITE) ∧
     present (entry s ka (stack_page tid + i)) = true ∧ refs s (frm i) = 1) ∧
  ∀ i j, 0 <= i < 16 → 0 <= j < 16 → frm i = frm j → i = j.

(** What the call for another thread keeps. *)
Record stacks_kept (s s' : vmst St) ka (tid : Z) : Prop := {
  sk_vm : vm_ok s' ka;
  sk_pages : ∀ p, 0 <= p < 1048576 → ¬ (stack_page tid <= p < stack_page tid + 16) → entry s' ka p = entry s ka p;
  sk_refs : ∀ g, 0 < refs s g → refs s' g = refs s g
}.

Lemma stack_mapped_kept s s' ka tid tid' frm :
  stack_mapped s ka tid frm → stacks_kept s s' ka tid' → tid ≠ tid' → 0 <= tid < 3839 → stack_mapped s' ka tid frm.
Proof.
  intros [H Hinj] [_ Hp Hr] Hne Ht. split; [|done]. intros i Hi. destruct (H i Hi) as (He & Hpr & H1).
  rewrite Hp by (unfold stack_page; lia). rewrite Hr by lia. done.
Qed.

Lemma wp_alloc_kernel_stack (v : vms St) kv ka tid :
  spaces v !! g_kernel_vmspace v = Some kv → archs v !! vs_arch kv = Some ka → vm_ok (mem v) ka → 0 <= tid < 3839 →
  wp (alloc_kernel_stack tid 0) v (λ r v', ∃ s', v' = set_mem s' v ∧ stacks_kept (mem v) s' ka tid ∧
    (r = 0 ∧ starved (mem v) ka 16 s' ∨
     r = 4096 * (stack_page tid + 16) ∧ ∃ frm, stack_mapped s' ka tid frm ∧ ∀ i, 0 <= i < 16 → refs (mem v) (frm i) = 0)).
Proof.
  intros Hs Ha V Ht. unfold alloc_kernel_stack, PROCESS_KERNEL_STACK_SIZE. change PROCESS_KERNEL_STACKS_START with (4096 * 987138).
  replace (u32 (4096 * 987138 + tid * 65536)) with (4096 * stack_page tid) by (unfold stack_page; ulia).
  replace (u32 (4096 * stack_page tid + 65536)) with (4096 * (stack_page tid + 16)) by (unfold stack_page; ulia).
  do 2 wp_step. wp_step. eapply wp_deref; [exact Hs|]. wp_step. eapply wp_deref; [exact Ha|]. wp_step. apply wp_zoom.
  change 65536 with (4096 * 16). unfold stack_page in *.
  eapply wp_mono; [apply (wp_va_alloc_region (mem v) ka (987138 + 16 * tid) 16); [done|lia|lia|lia]|]. intros [] s' H; cbn [negb].
  - destruct H as (frm & I). change (0 =? 0) with true. cbn iota. apply wp_ret. exists s'. split; [done|].
    pose proof I as [V' _ Hin Hout Hfrm Hinj Hold _ _ _ _]. split; [by split|]. right. split; [done|]. exists frm. split; [split; [|done]|].
    + intros i Hi. unfold stack_page. rewrite Hin by done. destruct (Hfrm i Hi) as (_ & H1 & _ & Hf). split_and!; [done| |done].
      by destruct (pte_word_ok (frm i) (public_flags_to_arch_flags PAGE_READWRITE) (frame_u32 s' _ (vo_mem _ _ V') Hf) (proj1 (proj2 Hf)))
        as (_ & _ & ->).
    + intros i Hi. by destruct (Hfrm i Hi).
  - destruct H as (k & frm & Hk & U & Hst). apply wp_ret. exists s'. split; [done|]. split; [|by left].
    pose proof U as [V' _ _ _ Hout _ _ Hold _ _]. split; [done| |done]. intros p Hp Hn. unfold stack_page in Hn. apply Hout; [done|lia].
Qed.

End faults.

(* ------------------------------------------------------------------ *)
(** ** Witnesses *)

#[local] Existing Instance ram_drivers.

Definition demo_process : process_t := Process 1 10 200 PROCESS_ALIVE 0 4000 false 0 4194304 4222976 2000 0.
Definition demo_heap_area : vma_t := Vma 4194304 4222976 139 0.

Lemma demo_in_space : in_space demo_kernel 200 1000 demo_process (Vmspace 1 20) demo_user [20].
Proof.
  split; [exact demo_kernel_running|reflexivity|reflexivity|reflexivity|exact (cr_vm _ _ _ demo_ready)|].
  split; [|apply NoDup_singleton]. cbn [chain]. split; [reflexivity|]. split; [discriminate|].
  exists demo_heap_area. split; reflexivity.
Qed.


Lemma sys_sbrk_shrink_regrow_witness : ∃ r k',
  (r1 ← sys_sbrk (-4096); pages ← gets (λ k, mem (k_vms k)); r2 ← sys_sbrk 4096; ret (r1, pages, r2)) demo_kernel
    = Some (r, k') ∧ r.1.1 = 4222976 ∧ r.2 = 4218880 ∧
  page_of (entry (mem (k_vms k')) demo_user 1030) ≠ 49152 ∧ refs (mem (k_vms k')) 49152 = 1.
Proof.
  assert (heap_area (k_vms demo_kernel) [20] 20) as Hh by (apply (FS_here _ _ _ _ demo_heap_area); reflexivity).
  destruct (wp_elim _ _ _ (sys_sbrk_shrink_regrow demo_kernel 200 1000 demo_process (Vmspace 1 20) demo_user [20] 20
    demo_heap_area 1030 49152 demo_in_space ltac:(reflexivity) ltac:(lia) Hh ltac:(discriminate) ltac:(reflexivity)
    ltac:(vm_compute; reflexivity) ltac:(vm_compute; reflexivity))) as (r & k' & E & H1 & _ & H).
  assert ((λ x, x.1.2) <$> (r1 ← sys_sbrk (-4096); pages ← gets (λ k, mem (k_vms k)); r2 ← sys_sbrk 4096; ret (r1, pages, r2))
    demo_kernel = Some 4218880) as F by (vm_compute; reflexivity).
  rewrite E in F. injection F as F. cbn in F. exists r, k'. split; [exact E|]. split; [exact H1|]. split; [exact F|].
  destruct H as [(_ & _ & Hne & Hr)|(H & _)]; [|rewrite F in H; discriminate H].
  split; [exact Hne|]. rewrite Hr. vm_compute. reflexivity.
Defined.

(** A machine of 64 frames, and the calls for threads 5 and 6. *)
Definition stack_m : range_t := Range 0 262144.
Definition stack_usable : list range_t := [Range 8192 262144].
Definition stack_memory : vmst pmm :=
  Vmst (match pmm_init stack_m stack_usable [] pmm_boot with Some (_, x) => x | None => pmm_boot end) (λ _, 0) 262144.

Lemma stack_memory_ok : mem_ok stack_memory.
Proof.
  assert (range_ok stack_m ∧ page_aligned stack_m ∧ FRAME_SIZE <= end_ stack_m - start stack_m ∧
    (∀ r, r ∈ stack_usable → below_top r ∧ start stack_m <= start r) ∧ ∀ r, r ∈ @nil range_t → below_top r) as (H1 & H2 & H3 & H4 & H5).
  { split_and!; [split; unfold is_u32; simpl; lia|unfold page_aligned, FRAME_SIZE; simpl; lia|unfold FRAME_SIZE; simpl; lia|
      |by intros r ?%not_elem_of_nil].
    intros r ->%list_elem_of_singleton. unfold below_top, range_ok, is_u32, FRAME_SIZE; simpl; lia. }
  destruct (wp_elim _ _ _ (wp_pmm_init stack_m stack_usable [] H1 H2 H3 H4 H5)) as ([] & a & E & I & R & _).
  unfold stack_memory. rewrite E. assert (pmm_ok a) as Ok by (split; [done|by rewrite R]). split; [done| |simpl; ulia].
  simpl. unfold limit. rewrite (pi_total a I), R. vm_compute. split; discriminate.
Qed.

Definition stack_spaces (m : vmst pmm) (ka : arch_vm_t) : vms pmm :=
  Vms m {[ 12 := Vmspace 3 0 ]} {[ 3 := ka ]} ∅ 12 8192 30 [] (Spinlock 0 false, true).

Definition two_stacks (v : vms pmm) : option (Z * Z) :=
  match alloc_kernel_stack 5 0 v with
  | Some (r1, v1) => (λ x, (r1, x.1)) <$> alloc_kernel_stack 6 0 v1
  | None => None
  end.

Lemma two_stacks_run :
  match hal_vm_empty_arch_vm_create stack_memory with Some (Some ka, s) => two_stacks (stack_spaces s ka) | _ => None end =
  Some (4096 * (stack_page 5 + 16), 4096 * (stack_page 6 + 16)).
Proof. vm_compute. reflexivity. Qed.

