(* ===== verification/Elf.v ===== *)
(** * Loading ELF images

    [kernel/src/elf32.c]: the checks on the header and the program headers, and
    the segments, which are written through the window on physical memory. The
    image is a buffer of its file size in kernel memory; reading outside it is
    a fault. *)

From S2P Require Import Prelude Chain Range Buf FrameAlloc Sched Pmm Paging VaAlloc Cow Vmspace UserCopy.

Definition ELF_MAGIC : buf := [127; 69; 76; 70].
Definition ELF_BITNESS_32BIT : Z := 1.
Definition ELF_ENDIANNESS_LITTLE : Z := 1.
Definition ELF_TYPE_EXECUTABLE : Z := 2.
Definition ELF_INSTRUCTION_SET_X86 : Z := 3.
Definition ELF_PROGRAM_TYPE_LOAD : Z := 1.
Definition ELF_PROGRAM_FLAG_WRITABLE : Z := 2.

(** [elf32_header_t], without the fields that are not read. *)
Record elf32_header_t := ElfHeader {
  eh_magic : buf;
  eh_wordsize : Z;
  eh_endianness : Z;
  eh_type : Z;
  eh_instruction_set : Z;
  program_entry_pos : Z;
  phdr_table_pos : Z;
  shdr_table_pos : Z;
  phdr_table_entry_size : Z;
  phdr_table_entry_count : Z;
  shdr_table_entry_count : Z;
  section_names_index : Z
}.
Definition sizeof_elf32_header : Z := 52.

(** [elf32_prog_hdr]. *)
Record elf32_prog_hdr := ProgHdr {
  ph_type : Z; ph_off : Z; ph_vaddr : Z; ph_file_size : Z; ph_mem_size : Z; ph_flags : Z
}.
Definition sizeof_elf32_sec_hdr : Z := 40.

Definition read_header : M buf elf32_header_t :=
  mg ← get_bytes 0 4; ws ← b8 4; en ← b8 5; ty ← b16 16; set ← b16 18;
  entry ← b32 24; phpos ← b32 28; shpos ← b32 32;
  phsz ← b16 42; phn ← b16 44; shn ← b16 48; names ← b16 50;
  ret (ElfHeader mg ws en ty set entry phpos shpos phsz phn shn names).

(** The program header at offset [o]. *)
Definition read_prog_hdr (o : Z) : M buf elf32_prog_hdr :=
  ty ← b32 o; off ← b32 (o + 4); va ← b32 (o + 8); fsz ← b32 (o + 16); msz ← b32 (o + 20); fl ← b32 (o + 24);
  ret (ProgHdr ty off va fsz msz fl).

(** [".text"] with its end. *)
Definition text_name : buf := [46; 116; 101; 120; 116; 0].

(** [strcmp] of the string at offset [o] with [".text"] is 0. *)
Definition is_text (o : Z) : M buf bool :=
  r ← scan_range 0 6 (λ i,
        c ← b8 (o + i);
        ret (if c =? text_name !!! Z.to_nat i then None else Some tt));
  ret (match r with None => true | Some _ => false end).

(** [*text_base]: the address of the first section with that name, or 0. The
    section table is not checked against the size of the image. *)
Definition find_text_base (hdr : elf32_header_t) : M buf Z :=
  let sec i := u32 (shdr_table_pos hdr + sizeof_elf32_sec_hdr * i) in
  shstrtab_off ← b32 (sec (section_names_index hdr) + 16);
  r ← scan_range 0 (shdr_table_entry_count hdr) (λ i,
        name ← b32 (sec i);
        t ← is_text (u32 (shstrtab_off + name));
        if t : bool then a ← b32 (sec i + 12); ret (Some a) else ret None);
  ret (default 0 r).

Definition elf_header_ok (hdr : elf32_header_t) : bool :=
  bool_decide (eh_magic hdr = ELF_MAGIC) && (eh_wordsize hdr =? ELF_BITNESS_32BIT) &&
  (eh_endianness hdr =? ELF_ENDIANNESS_LITTLE) && (eh_type hdr =? ELF_TYPE_EXECUTABLE) &&
  (eh_instruction_set hdr =? ELF_INSTRUCTION_SET_X86).

Section ops.
Context `{FA : FrameAllocator St}.
Notation V := (vms St).

(** A byte and a run of bytes stored through the window on physical memory. *)
Definition window_stb (p b : Z) : M (vmst St) unit :=
  w ← ldw (p - p mod 4); stw (p - p mod 4) (put_byte w (p mod 4) b).
Definition window_put (p : Z) (bytes : buf) : M (vmst St) unit :=
  for_range 0 (blen bytes) (λ i, window_stb (p + i) (bytes !!! Z.to_nat i)).

(** One page of a segment: cleared, then the part of the file that falls in it. *)
Definition load_page (a : arch_vm_t) (elf : buf) (file_data va_start file_size page_va : Z) : M (vmst St) unit :=
  phys ← hal_vm_virt_to_phys a page_va;
  let kva := u32 (phys + KERNEL_BASE) in
  page_zero kva ;;
  let intersect_start := MAX page_va va_start in
  let intersect_end := MIN (u32 (page_va + PAGE_SIZE)) (u32 (va_start + file_size)) in
  when (intersect_start <? intersect_end)
    (let dest_offset := intersect_start - page_va in
     let src_offset := intersect_start - va_start in
     let bytes_to_copy := intersect_end - intersect_start in
     bytes ← peek (get_bytes (file_data + src_offset) bytes_to_copy) elf;
     window_put (kva + dest_offset) bytes).

(** [file_data] is an offset in the image. *)
Definition load_segment (vmspace va_start mem_size : Z) (elf : buf) (file_data file_size flags : Z) : M V Z :=
  let pages_start := align_down va_start PAGE_SIZE in
  let pages_end := align_up (u32 (va_start + mem_size)) PAGE_SIZE in
  let alloc_size := u32 (pages_end - pages_start) in
  vma ← vma_create va_start mem_size (Z.lor flags VMA_USER);
  if vma =? 0 then ret (-1)
  else
    vmspace_add_vma vmspace vma ;;
    v ← space vmspace;
    a ← arch (vs_arch v);
    ok ← on_mem (va_alloc_region a pages_start alloc_size
           (Z.lor (Z.lor PAGE_PRESENT PAGE_USER) (if has flags PAGE_READWRITE then PAGE_READWRITE else 0)));
    if negb ok then ret (-1)
    else
      while_n va_fuel (λ page_va,
        if page_va <? pages_end then
          on_mem (load_page a elf file_data va_start file_size page_va) ;;
          ret (inl (u32 (page_va + PAGE_SIZE)))
        else ret (inr 0)) pages_start.

(** The result, [*entry] and [*text_base]. *)
Definition elf32_load (vmspace : Z) (elf : buf) : M V (Z * Z * Z) :=
  v ← space vmspace;
  let elf_size := blen elf in
  if elf_size <? sizeof_elf32_header then ret (-1, 0, 0)
  else
    hdr ← peek read_header elf;
    if negb (elf_header_ok hdr) then ret (-1, 0, 0)
    else
      text_base ← peek (find_text_base hdr) elf;
      let phdr_size := u32 (phdr_table_entry_count hdr * phdr_table_entry_size hdr) in
      if (elf_size <? phdr_table_pos hdr) || (elf_size <? u32 (phdr_table_pos hdr + phdr_size)) then ret (-1, 0, text_base)
      else
        r ← scan_range 0 (phdr_table_entry_count hdr) (λ i,
              ph ← peek (read_prog_hdr (phdr_table_pos hdr + i * phdr_table_entry_size hdr)) elf;
              if negb (ph_type ph =? ELF_PROGRAM_TYPE_LOAD) || (ph_mem_size ph =? 0) then ret None
              else if (elf_size <? ph_off ph) || (elf_size <? u32 (ph_off ph + ph_file_size ph)) then ret (Some tt)
              else
                let flags := Z.lor PAGE_USER (if has (ph_flags ph) ELF_PROGRAM_FLAG_WRITABLE then PAGE_READWRITE else 0) in
                r ← load_segment vmspace (ph_vaddr ph) (ph_mem_size ph) elf (ph_off ph) (ph_file_size ph) flags;
                ret (if r =? 0 then None else Some tt));
        match r with
        | Some _ => ret (-1, 0, text_base)
        | None => ret (0, program_entry_pos hdr, text_base)
        end.
End ops.

(* ------------------------------------------------------------------ *)
(** ** Stores through the window on physical memory *)

Section spec.
Context `{FA : FrameAllocator St}.
Notation V := (vms St).
Implicit Types (s : vmst St) (vm : arch_vm_t).

(** A data frame: in use and no page table. *)
Definition data_frame_of s vm (f : Z) : Prop := 0 < refs s f ∧ ¬ part_of s vm f.

Lemma data_frame_same q vm s s' f : same_but q vm s s' → data_frame_of s vm f → data_frame_of s' vm f.
Proof. intros S [H1 H2]. unfold data_frame_of. by rewrite (same_refs _ _ _ _ _ S), (same_part _ _ _ _ _ S). Qed.

Lemma wp_window_stb s vm f o b :
  vm_ok s vm → data_frame_of s vm f → 0 <= o < 4096 → 0 <= b < 256 →
  wp (window_stb (f + KERNEL_BASE + o) b) s (λ _ s', same_but (-1) vm s s' ∧
    ∀ y, pbyte s' y = if decide (y = f + o) then b else pbyte s y).
Proof.
  intros V [Hr Hn] Ho Hb. destruct (owned_frame s f (vo_mem _ _ V) Hr) as [Hf Hpos]. pose proof Hf as (_ & Hm & _).
  unfold window_stb. assert (KERNEL_BASE mod 4 = 0) as Hk by reflexivity.
  wp_step. apply (wp_ldw s _ f (o / 4)); [done|lia|lia|].
  apply (wp_stw s _ f (o / 4)); [done|lia|lia|]. intros s' W.
  replace ((f + KERNEL_BASE + o) mod 4) with ((f + o) mod 4) in W by lia.
  assert (is_u32 (put_byte (words s (f + 4 * (o / 4))) ((f + o) mod 4) b)) as Hu
    by (apply put_byte_word; [apply (mo_words _ (vo_mem _ _ V))|lia|done]).
  split; [by apply (wrote_data s s' vm f (o / 4) _ V Hf Hn ltac:(lia) Hu W)|]. intros y. unfold pbyte.
  destruct (decide (y - y mod 4 = f + 4 * (o / 4))) as [E|E].
  - assert (words s' (f + 4 * (o / 4)) = put_byte (words s (f + 4 * (o / 4))) ((f + o) mod 4) b) as Ew.
    { rewrite <-(wr_in _ _ _ _ _ _ W 0) by lia. f_equal. lia. }
    rewrite E, Ew, byte_of_put_byte by lia. do 2 case_decide; try done; lia.
  - rewrite (wr_out _ _ _ _ _ _ W) by (intros j Hj; lia). rewrite decide_False; [done|]. intros ->. lia.
Qed.

Lemma wp_window_put s vm f o bytes :
  vm_ok s vm → data_frame_of s vm f → bytes_ok bytes → 0 <= o → o + blen bytes <= 4096 →
  wp (window_put (f + KERNEL_BASE + o) bytes) s (λ _ s', same_but (-1) vm s s' ∧
    ∀ y, pbyte s' y = if decide (f + o <= y < f + o + blen bytes)
                      then bytes !!! Z.to_nat (y - f - o) else pbyte s y).
Proof.
  intros V Df Hb Ho He. unfold window_put. pose proof (blen_nonneg bytes) as Hl.
  eapply wp_mono; [apply (wp_for_range (λ k s', same_but (-1) vm s s' ∧
    ∀ y, pbyte s' y = if decide (f + o <= y < f + o + k) then bytes !!! Z.to_nat (y - f - o) else pbyte s y))|].
  - split; [by apply same_but_refl|]. intros y. rewrite decide_False; [done|lia].
  - intros k s1 Hk (S & Hy). rewrite <-Z.add_assoc.
    assert (is_u8 (bytes !!! Z.to_nat k)) as Hu.
    { unfold bytes_ok in Hb. rewrite Forall_lookup in Hb. unfold blen in Hk.
      destruct (lookup_lt_is_Some_2 bytes (Z.to_nat k) ltac:(lia)) as [x Hx].
      rewrite (list_lookup_total_correct _ _ _ Hx). by eapply Hb. }
    eapply wp_mono; [apply (wp_window_stb s1 vm f (o + k)); [apply S|by eapply data_frame_same|lia|ulia]|].
    intros [] s2 [S2 Hy2]. split; [by eapply same_but_trans|]. intros y. rewrite Hy2, Hy.
    repeat case_decide; try lia; try done. subst y. f_equal. f_equal. lia.
  - intros [] s'. by rewrite Z.max_r.
Qed.

Lemma wp_page_clear s vm f :
  vm_ok s vm → data_frame_of s vm f →
  wp (page_zero (f + KERNEL_BASE)) s (λ _ s', same_but (-1) vm s s' ∧
    ∀ y, pbyte s' y = if decide (f <= y < f + 4096) then 0 else pbyte s y).
Proof.
  intros V [Hr Hn]. pose proof (vo_mem _ _ V) as Mm. destruct (owned_frame s f Mm Hr) as [Hf Hpos]. pose proof Hf as (_ & Hm & _).
  rewrite <-(mem_window s f Mm Hf). eapply wp_mono; [by apply wp_page_zero|]. intros [] s' W.
  destruct (wrote_outside s s' vm f 1024 _ V W Hm ltac:(lia) ltac:(ulia) Hn) as (V' & He & Hp & _). split.
  - split; [done|apply W|apply W|done|]. intros p Hpr _. by apply He.
  - intros y. unfold pbyte. case_decide as Hy.
    + replace (y - y mod 4) with (f + 4 * (0 + (y - y mod 4 - f) / 4)) by lia.
      rewrite (wr_in _ _ _ _ _ _ W) by lia. unfold byte_of. by rewrite Z.div_0_l by lia.
    + rewrite (wr_out _ _ _ _ _ _ W); [done|]. intros i Hi. lia.
Qed.

(* ------------------------------------------------------------------ *)
(** ** Segments *)

(** What a segment's memory holds: the bytes of the file, then zeros. *)
Definition image (elf : buf) (file_data va_start file_size va : Z) : Z :=
  if decide (va_start <= va < va_start + file_size) then elf !!! Z.to_nat (file_data + (va - va_start)) else 0.

Lemma sub_bytes_total (elf : buf) off n :
  0 <= off → 0 <= n → off + n <= blen elf → bytes_ok elf →
  ∃ x, sub_bytes off n elf = Some x ∧ blen x = n ∧ bytes_ok x ∧
    ∀ i, 0 <= i < n → x !!! Z.to_nat i = elf !!! Z.to_nat (off + i).
Proof.
  intros Ho Hn He Hb. eexists. pose proof (sub_bytes_is_Some off n elf Ho Hn He) as E. split; [exact E|].
  split; [by apply sub_bytes_length in E|]. split; [by apply Forall_take, Forall_drop|]. intros i Hi.
  unfold blen in He. rewrite !list_lookup_total_alt. rewrite lookup_take_lt by lia. rewrite lookup_drop.
  do 2 f_equal. lia.
Qed.

(** The page at [page_va], of a frame [f] of its own, becomes its part of the
    segment; no other byte of memory changes. *)
Lemma wp_load_page s vm elf file_data va_start file_size v f :
  vm_ok s vm → data_frame_of s vm f → 0 <= v < 1048575 →
  present (entry s vm v) = true → page_of (entry s vm v) = f →
  bytes_ok elf → 0 <= va_start → 0 <= file_size → va_start + file_size < 4294967296 →
  0 <= file_data → file_data + file_size <= blen elf →
  wp (load_page vm elf file_data va_start file_size (4096 * v)) s (λ _ s', same_but (-1) vm s s' ∧
    ∀ y, pbyte s' y = if decide (f <= y < f + 4096)
                      then image elf file_data va_start file_size (4096 * v + (y - f)) else pbyte s y).
Proof.
  intros V Df Hv Hp Hpg Hb Hva Hfs Hve Hfd Hfe. unfold load_page. wp_step.
  rewrite <-(Z.add_0_r (4096 * v)) at 1.
  eapply wp_mono; [apply wp_hal_vm_virt_to_phys; [done|lia|lia]|]. intros pa s' [-> ->].
  rewrite Hp, Hpg, Z.add_0_r. destruct (owned_frame s f (vo_mem _ _ V) (proj1 Df)) as [Hf _].
  assert (u32 (f + KERNEL_BASE) = f + KERNEL_BASE) as -> by exact (mem_window s f (vo_mem _ _ V) Hf).
  wp_step. eapply wp_mono; [by apply wp_page_clear|]. intros [] s1 [S1 Hy1].
  unfold PAGE_SIZE, MAX, MIN. rewrite !u32_small by ulia.
  set (a := if _ >? _ then _ else _). set (b := if _ <? _ then _ else _).
  assert (a = Z.max (4096 * v) va_start) as Ea by (unfold a; case_match; lia).
  assert (b = Z.min (4096 * v + 4096) (va_start + file_size)) as Eb by (unfold b; case_match; lia).
  clearbody a b. destruct (Z.ltb_spec a b) as [Hlt|Hge]; simpl.
  - destruct (sub_bytes_total elf (file_data + (a - va_start)) (b - a)) as (x & Ex & Hl & Hx & Hi); [lia|lia|lia|done|].
    unfold peek, get_bytes. wp_step. rewrite Ex. apply wp_ret. simpl.
    eapply wp_mono; [apply (wp_window_put s1 vm f (a - 4096 * v) x); [apply S1|by eapply data_frame_same|done|lia|lia]|].
    intros [] s2 [S2 Hy2]. split; [by eapply same_but_trans|]. intros y. rewrite Hy2, Hy1, Hl. unfold image.
    repeat case_decide; try lia; try done. rewrite Hi by lia. do 2 f_equal. lia.
  - apply wp_ret. split; [done|]. intros y. rewrite Hy1. case_decide; [|done]. unfold image.
    rewrite decide_False; [done|lia].
Qed.

(** The segment's pages, [n] of them from page [v] on, are in memory as the
    image says, in a space otherwise as before. *)
Definition loaded s vm (v n fl : Z) (content : Z → Z) s' : Prop :=
  vm_ok s' vm ∧
  (∀ p, 0 <= p < 1048576 → ¬ (v <= p < v + n) → entry s' vm p = entry s vm p) ∧
  (∀ g, 0 < refs s g → refs s' g = refs s g) ∧
  (∀ va, data_at s vm va → ¬ (v <= va / 4096 < v + n) → data_at s' vm va ∧ reads vm s' va = reads vm s va) ∧
  ∀ va, 4096 * v <= va < 4096 * (v + n) →
    data_at s' vm va ∧ reads vm s' va = Some (content va) ∧
    entry s' vm (va / 4096) = pte_word (page_of (entry s' vm (va / 4096))) fl.

(** The loop: the first [k] pages are done. *)
Definition filled s1 vm (v k : Z) (frm : Z → Z) (content : Z → Z) s2 : Prop :=
  same_but (-1) vm s1 s2 ∧
  (∀ i o, 0 <= i < k → 0 <= o < 4096 → pbyte s2 (frm i + o) = content (4096 * (v + i) + o)) ∧
  ∀ y, (∀ i, 0 <= i < k → ¬ (frm i <= y < frm i + 4096)) → pbyte s2 y = pbyte s1 y.

Lemma filled_page s vm v n fl frm s1 k content s2 s3 :
  va_inv s vm v n fl frm s1 → 0 <= k < n → filled s1 vm v k frm content s2 → same_but (-1) vm s2 s3 →
  (∀ y, pbyte s3 y = if decide (frm k <= y < frm k + 4096) then content (4096 * (v + k) + (y - frm k)) else pbyte s2 y) →
  filled s1 vm v (k + 1) frm content s3.
Proof.
  intros I Hk (S2 & H2 & K2) S3 H3. split_and!; [by eapply same_but_trans| |].
  2:{ intros y Hy. rewrite H3, decide_False by (apply Hy; lia). apply K2. intros i Hi. apply Hy. lia. }
  intros i o Hi Ho. rewrite H3.
  destruct (vi_frm _ _ _ _ _ _ _ I k Hk) as (_ & _ & _ & _ & Mk & _).
  destruct (vi_frm _ _ _ _ _ _ _ I i ltac:(lia)) as (_ & _ & _ & _ & Mi & _).
  destruct (decide (i = k)) as [->|Hne].
  - rewrite decide_True by lia. f_equal. lia.
  - rewrite decide_False; [apply H2; lia|]. intros Hy. apply Hne, (vi_inj _ _ _ _ _ _ _ I); lia.
Qed.

Lemma filled_at s vm v n fl frm s1 content s2 va :
  0 <= v → v + n < 1048576 → va_inv s vm v n fl frm s1 → filled s1 vm v n frm content s2 →
  4096 * v <= va < 4096 * (v + n) →
  data_at s2 vm va ∧ reads vm s2 va = Some (content va) ∧
  entry s2 vm (va / 4096) = pte_word (page_of (entry s2 vm (va / 4096))) fl.
Proof.
  intros Hv Hn I (S & H & _) Hva. set (i := va / 4096 - v). assert (0 <= i < n) as Hi by lia.
  destruct (va_inv_page_of _ _ _ _ _ _ _ i I Hi) as [Hpg Hpr]. destruct (vi_frm _ _ _ _ _ _ _ I i Hi) as (H0 & H1 & Hn' & _).
  assert (entry s2 vm (va / 4096) = entry s1 vm (v + i)) as Ee.
  { rewrite (sb_entry _ _ _ _ S) by lia. f_equal. lia. }
  assert (data_at s2 vm va) as D.
  { unfold data_at. rewrite Ee, Hpg, Hpr, (same_refs _ _ _ _ _ S), (same_part _ _ _ _ _ S). split_and!; [lia|lia|done|lia|done]. }
  split; [done|]. rewrite reads_data by (apply S || done). unfold phys. rewrite Ee, Hpg. split; [|by apply (vi_in _ _ _ _ _ _ _ I)].
  rewrite H by lia. do 2 f_equal. lia.
Qed.

(** What was mapped before is as it was. *)
Lemma filled_beside s vm v n fl frm s1 content s2 va :
  vm_ok s vm → va_inv s vm v n fl frm s1 → filled s1 vm v n frm content s2 →
  data_at s vm va → ¬ (v <= va / 4096 < v + n) → data_at s2 vm va ∧ reads vm s2 va = reads vm s va.
Proof.
  intros V I (S & _ & K) D Ho. pose proof D as (Hr & Hp & Hc & Hn). set (g := page_of (entry s vm (va / 4096))) in *.
  destruct (owned_frame s g (vo_mem _ _ V) Hc) as [(_ & Hg & _) _].
  destruct (vi_data _ _ _ _ _ _ _ I g Hg Hc Hn) as [Hn1 Hw].
  assert (entry s2 vm (va / 4096) = entry s vm (va / 4096)) as Ee.
  { rewrite (sb_entry _ _ _ _ S) by lia. apply (vi_out _ _ _ _ _ _ _ I); lia. }
  assert (data_at s2 vm va) as D2.
  { unfold data_at. rewrite Ee. fold g. rewrite (same_refs _ _ _ _ _ S), (same_part _ _ _ _ _ S), (vi_old _ _ _ _ _ _ _ I) by done.
    done. }
  split; [done|]. rewrite !reads_data by (apply S || done). unfold phys. rewrite Ee. fold g. rewrite K.
  - unfold pbyte. set (x := g + va mod 4096). replace (x - x mod 4) with (g + (va mod 4096 - x mod 4)) by lia.
    rewrite Hw; [done|]. subst x. lia.
  - intros i Hi Hin. destruct (vi_frm _ _ _ _ _ _ _ I i Hi) as (H0 & _ & _ & _ & Hm & _).
    assert (g = frm i) as E by lia. rewrite E in Hc. lia.
Qed.

Lemma filled_loaded s vm v n fl frm s1 content s2 :
  vm_ok s vm → 0 <= v → v + n < 1048576 → va_inv s vm v n fl frm s1 → filled s1 vm v n frm content s2 →
  loaded s vm v n fl content s2.
Proof.
  intros V Hv Hn I F. pose proof F as (S & _ & _). split_and!; [apply S|..].
  - intros p Hp Ho. rewrite (sb_entry _ _ _ _ S) by lia. by apply (vi_out _ _ _ _ _ _ _ I).
  - intros g Hg. rewrite (same_refs _ _ _ _ _ S). by apply (vi_old _ _ _ _ _ _ _ I).
  - intros va D Ho. by eapply filled_beside.
  - intros va Hva. by eapply filled_at.
Qed.

(** The number of pages a segment touches. *)
Definition segment_pages (va mem_size : Z) : Z := (va + mem_size + 4095) / 4096 - va / 4096.

Lemma segment_bounds va mem_size :
  0 <= va → 0 <= mem_size → va + mem_size <= 4294963200 →
  align_down va PAGE_SIZE = 4096 * (va / 4096) ∧
  align_up (u32 (va + mem_size)) PAGE_SIZE = 4096 * (va / 4096 + segment_pages va mem_size) ∧
  0 <= segment_pages va mem_size ∧ va / 4096 + segment_pages va mem_size < 1048576.
Proof.
  intros Hv Hm He. unfold segment_pages. assert (is_pow2 PAGE_SIZE) as P by apply pow2_page.
  rewrite align_down_mod by (ulia || done). unfold PAGE_SIZE in *.
  assert (is_u32 (u32 (va + mem_size))) as Hu by ulia.
  destruct (align_up_mod (u32 (va + mem_size)) 4096 Hu P ltac:(ulia)) as [E1 E2].
  rewrite u32_small in * by ulia. split_and!; lia.
Qed.

(** Writing the pages of an allocated region. *)
Lemma wp_load_pages v0 vm elf file_data va_start file_size s v n fl frm :
  vm_ok s vm → va_inv s vm v n fl frm (mem v0) → 0 <= v → 0 <= n → v + n < 1048576 →
  bytes_ok elf → 0 <= va_start → 0 <= file_size → va_start + file_size < 4294967296 →
  0 <= file_data → file_data + file_size <= blen elf →
  wp (while_n va_fuel (λ page_va,
        if page_va <? 4096 * (v + n) then
          on_mem (load_page vm elf file_data va_start file_size page_va) ;;
          ret (inl (u32 (page_va + PAGE_SIZE)))
        else ret (inr 0)) (4096 * v)) v0 (λ r v', r = 0 ∧ ∃ s', v' = set_mem s' v0 ∧
    loaded s vm v n fl (image elf file_data va_start file_size) s').
Proof.
  intros V0 I Hv Hn He Hb Hva Hfs Hve Hfd Hfe. set (content := image _ _ _ _).
  apply (wp_while_n (λ t va (v1 : V), ∃ k s2, 0 <= k <= n ∧ va = 4096 * (v + k) ∧ t = Z.to_nat (n - k) ∧
    v1 = set_mem s2 v0 ∧ filled (mem v0) vm v k frm content s2) _ _ _ (Z.to_nat n)); [|unfold va_fuel; lia|].
  { exists 0, (mem v0). split_and!; [lia|lia|lia|f_equal; lia|by destruct v0|].
    split_and!; [apply same_but_refl, I|intros; lia|done]. }
  intros t va v1 (k & s2 & Hk & -> & -> & -> & F). destruct (Z.ltb_spec (4096 * (v + k)) (4096 * (v + n))) as [Hlt|Hge].
  2:{ apply wp_ret. split; [done|]. exists s2. split; [done|]. replace k with n in F by lia. by eapply filled_loaded. }
  wp_step. apply wp_zoom. assert (0 <= k < n) as Hkn by lia. pose proof F as (S2 & _ & _).
  destruct (va_inv_page_of _ _ _ _ _ _ _ k I Hkn) as [Hpg Hpr]. destruct (vi_frm _ _ _ _ _ _ _ I k Hkn) as (_ & H1 & Hn' & _).
  eapply wp_mono; [apply (wp_load_page s2 vm elf file_data va_start file_size (v + k) (frm k)); try done; [apply S2|..]|].
  - apply (data_frame_same _ _ _ _ _ S2). split; [lia|done].
  - lia.
  - rewrite (sb_entry _ _ _ _ S2) by lia. done.
  - rewrite (sb_entry _ _ _ _ S2) by lia. done.
  - intros [] s3 [S3 H3]. apply wp_ret. exists (Z.to_nat (n - (k + 1))). split; [lia|]. exists (k + 1), s3.
    unfold PAGE_SIZE. split_and!; [lia|lia|ulia|done|done|]. by eapply filled_page.
Qed.

(** What a segment's pages are mapped with. *)
Definition segment_flags (flags : Z) : Z :=
  public_flags_to_arch_flags
    (Z.lor (Z.lor PAGE_PRESENT PAGE_USER) (if has flags PAGE_READWRITE then PAGE_READWRITE else 0)).

(** The space [sp] with the tables of [vm] has [l] as its first area. *)
Definition space_of (v : V) (sp l : Z) vm : Prop :=
  ∃ sv, spaces v !! sp = Some sv ∧ vma_list sv = l ∧ archs v !! vs_arch sv = Some vm ∧ vm_ok (mem v) vm.

Lemma wp_area_added (v : V) sp sv va_start mem_size flags (rest : M V Z) (Q : Z → V → Prop) :
  spaces v !! sp = Some sv →
  (∀ v', mem v' = mem v → archs v' = archs v → spaces v' = spaces v → Q (-1) v') →
  (∀ p v', p ≠ 0 → mem v' = mem v → archs v' = archs v → spaces v' = <[sp := Vmspace (vs_arch sv) p]> (spaces v) →
     vmas v' !! p = Some (Vma va_start (u32 (va_start + mem_size)) flags (vma_list sv)) → wp rest v' Q) →
  wp (p ← vma_create va_start mem_size flags;
      if p =? 0 then ret (-1) else vmspace_add_vma sp p ;; rest) v Q.
Proof.
  intros Hs H0 H1. unfold vma_create. do 2 apply wp_bind. unfold kmalloc_object. do 4 wp_step.
  destruct (default true (head (vs_answers v))); do 3 wp_step; cbn beta.
  2:{ change (0 =? 0) with true. cbn iota. wp_step. change (0 =? 0) with true. cbn iota. wp_step. by apply H0. }
  destruct (Z.eqb_spec (vs_next_object v) 0) as [E|E]; [wp_step|do 3 wp_step].
  { change (0 =? 0) with true. cbn iota. wp_step. by apply H0. }
  rewrite (proj2 (Z.eqb_neq _ _)) by done. wp_step. unfold vmspace_add_vma. do 2 wp_step.
  { by rewrite (proj2 (Z.eqb_neq _ _)). }
  unfold space, vma_set, space_set. wp_step. eapply wp_deref; [exact Hs|]. wp_step.
  eapply wp_assign; [apply lookup_insert_eq|]. eapply wp_assign; [exact Hs|].
  apply (H1 (vs_next_object v)); [done..|]. apply lookup_insert_eq.
Qed.

(** What a segment asks for is inside the image and the address space. *)
Definition segment_ok (elf : buf) (va mem_size off file_size : Z) : Prop :=
  0 <= va ∧ 0 <= mem_size ∧ va + mem_size <= 4294963200 ∧
  0 <= off ∧ 0 <= file_size ∧ off + file_size <= blen elf ∧ va + file_size < 4294967296.

(** Loading a segment fails with -1, when memory runs out, in a space that has
    no page it did not have; or it returns 0 with the segment in memory and its
    area at the head of the list. *)
Lemma wp_load_segment (v : V) sp l vm va mem_size elf off file_size flags :
  space_of v sp l vm → bytes_ok elf → segment_ok elf va mem_size off file_size →
  wp (load_segment sp va mem_size elf off file_size flags) v (λ r v',
    (r = 0 ∧ (∃ l', space_of v' sp l' vm ∧ l' ≠ 0 ∧
                    vmas v' !! l' = Some (Vma va (va + mem_size) (Z.lor flags VMA_USER) l)) ∧
     loaded (mem v) vm (va / 4096) (segment_pages va mem_size) (segment_flags flags) (image elf off va file_size) (mem v'))
    ∨ (r = -1 ∧ vm_ok (mem v') vm ∧
       ∀ p, 0 <= p < 1048576 → present (entry (mem v') vm p) = false ∨ entry (mem v') vm p = entry (mem v) vm p)).
Proof.
  intros (sv & Hs & <- & Ha & V) Hb (Hva & Hm & He & Ho & Hf & Hof & Hvf).
  destruct (segment_bounds va mem_size Hva Hm He) as (E1 & E2 & Hn & Hend).
  unfold load_segment. rewrite E1, E2. apply (wp_area_added v sp sv); [done|..].
  { intros v' Em _ _. right. rewrite Em. auto. }
  intros p v1 Hp Em Ea Es Hnew. wp_step. eapply wp_deref; [by rewrite Es, lookup_insert_eq|].
  wp_step. eapply wp_deref; [by rewrite Ea|]. wp_step. apply wp_zoom.
  set (n := segment_pages va mem_size) in *.
  replace (u32 (4096 * (va / 4096 + n) - 4096 * (va / 4096))) with (4096 * n) by ulia.
  rewrite Em. eapply wp_mono; [apply wp_va_alloc_region; [done|lia|done|done]|]. intros ok s1 H. destruct ok; cbn [negb].
  - destruct H as (frm & I). eapply wp_mono; [eapply wp_load_pages; [exact V|exact I|lia|lia|done|done|lia|lia|lia|lia|lia]|].
    intros r v' (-> & s' & -> & L). left. split_and!; [done| |done].
    exists p. split_and!; [|done|by rewrite <-(u32_small (va + mem_size)) by ulia].
    eexists. simpl. rewrite Es, lookup_insert_eq, Ea. split_and!; [done|done|done|apply L].
  - destruct H as (k & frm & Hk & U & _). apply wp_ret. right. split_and!; [done|apply U|]. simpl. intros q Hq.
    destruct (decide (va / 4096 <= q < va / 4096 + k)) as [Hin|Hout].
    + left. rewrite <-(ui_gone _ _ _ _ _ _ _ _ U (q - va / 4096) ltac:(lia)). f_equal. f_equal. lia.
    + right. by apply (ui_out _ _ _ _ _ _ _ _ U).
Qed.

(* ------------------------------------------------------------------ *)
(** ** Whole images *)

Definition loadable (ph : elf32_prog_hdr) : Prop := ph_type ph = ELF_PROGRAM_TYPE_LOAD ∧ ph_mem_size ph ≠ 0.

Definition has_page (ph : elf32_prog_hdr) (p : Z) : Prop :=
  ph_vaddr ph / 4096 <= p < ph_vaddr ph / 4096 + segment_pages (ph_vaddr ph) (ph_mem_size ph).

Definition ph_page_flags (ph : elf32_prog_hdr) : Z :=
  segment_flags (Z.lor PAGE_USER (if has (ph_flags ph) ELF_PROGRAM_FLAG_WRITABLE then PAGE_READWRITE else 0)).

(** An executable image with program headers [ph 0], [ph 1], ..., whose
    segments are inside it and share no page. *)
Record program (elf : buf) (hdr : elf32_header_t) (ph : Z → elf32_prog_hdr) (text : Z) : Prop := {
  pr_bytes : bytes_ok elf;
  pr_size : sizeof_elf32_header <= blen elf < 4294967296;
  pr_hdr : read_header elf = Some (hdr, elf);
  pr_ok : elf_header_ok hdr = true;
  pr_text : find_text_base hdr elf = Some (text, elf);
  pr_table : 0 <= phdr_table_pos hdr ∧ 0 <= phdr_table_entry_count hdr ∧ 0 <= phdr_table_entry_size hdr ∧
    phdr_table_pos hdr + phdr_table_entry_count hdr * phdr_table_entry_size hdr <= blen elf;
  pr_ph : ∀ i, 0 <= i < phdr_table_entry_count hdr →
    read_prog_hdr (phdr_table_pos hdr + i * phdr_table_entry_size hdr) elf = Some (ph i, elf);
  pr_segment : ∀ i, 0 <= i < phdr_table_entry_count hdr → loadable (ph i) →
    segment_ok elf (ph_vaddr (ph i)) (ph_mem_size (ph i)) (ph_off (ph i)) (ph_file_size (ph i));
  pr_apart : ∀ i j p, 0 <= i < j → j < phdr_table_entry_count hdr → loadable (ph i) → loadable (ph j) →
    has_page (ph i) p → ¬ has_page (ph j) p
}.

(** The segment of [ph] is in memory. *)
Definition in_memory s vm (elf : buf) (ph : elf32_prog_hdr) : Prop := ∀ va, has_page ph (va / 4096) →
  data_at s vm va ∧ reads vm s va = Some (image elf (ph_off ph) (ph_vaddr ph) (ph_file_size ph) va) ∧
  entry s vm (va / 4096) = pte_word (page_of (entry s vm (va / 4096))) (ph_page_flags ph).

(** The first [k] segments are loaded in the memory that was [s]. *)
Definition prefix_loaded s vm elf (ph : Z → elf32_prog_hdr) (k : Z) s' : Prop :=
  (∀ i, 0 <= i < k → loadable (ph i) → in_memory s' vm elf (ph i)) ∧
  ∀ va, data_at s vm va → (∀ i, 0 <= i < k → loadable (ph i) → ¬ has_page (ph i) (va / 4096)) →
    data_at s' vm va ∧ reads vm s' va = reads vm s va.

Lemma prefix_skip s vm elf ph k s' :
  ¬ loadable (ph k) → prefix_loaded s vm elf ph k s' → prefix_loaded s vm elf ph (k + 1) s'.
Proof.
  intros Hk [H1 H2]. split.
  - intros i Hi Hl. destruct (decide (i = k)) as [->|]; [done|]. apply H1; [lia|done].
  - intros va D Ho. apply H2; [done|]. intros i Hi. apply Ho. lia.
Qed.

Lemma prefix_next s vm elf ph k s1 s2 :
  (∀ i p, 0 <= i < k → loadable (ph i) → has_page (ph i) p → ¬ has_page (ph k) p) → loadable (ph k) → 0 <= k →
  prefix_loaded s vm elf ph k s1 →
  loaded s1 vm (ph_vaddr (ph k) / 4096) (segment_pages (ph_vaddr (ph k)) (ph_mem_size (ph k))) (ph_page_flags (ph k))
    (image elf (ph_off (ph k)) (ph_vaddr (ph k)) (ph_file_size (ph k))) s2 →
  prefix_loaded s vm elf ph (k + 1) s2.
Proof.
  intros Hd Hl Hk [H1 H2] (_ & He & _ & Hb & Hi). split.
  - intros i Hik Hli va Hva. destruct (decide (i = k)) as [->|Hne]; [apply Hi; unfold has_page in Hva; lia|].
    pose proof (Hd i _ ltac:(lia) Hli Hva) as Hnk. destruct (H1 i ltac:(lia) Hli va Hva) as (D & R & E).
    destruct (Hb va D Hnk) as [D2 R2]. rewrite R2, He by (destruct D; (lia || done)). done.
  - intros va D Ho. destruct (H2 va D) as [D1 R1]; [intros i ?; apply Ho; lia|].
    destruct (Hb va D1 (Ho k ltac:(lia) Hl)) as [D2 R2]. by rewrite R2.
Qed.

(** One turn of the loop over the program headers. *)
Lemma wp_load_header s0 (v : V) sp vm elf hdr ph text k :
  program elf hdr ph text → 0 <= k < phdr_table_entry_count hdr →
  (∃ l, space_of v sp l vm) → prefix_loaded s0 vm elf ph k (mem v) →
  wp (if negb (ph_type (ph k) =? ELF_PROGRAM_TYPE_LOAD) || (ph_mem_size (ph k) =? 0) then ret None
      else if (blen elf <? ph_off (ph k)) || (blen elf <? u32 (ph_off (ph k) + ph_file_size (ph k))) then ret (Some tt)
      else
        r ← load_segment sp (ph_vaddr (ph k)) (ph_mem_size (ph k)) elf (ph_off (ph k)) (ph_file_size (ph k))
              (Z.lor PAGE_USER (if has (ph_flags (ph k)) ELF_PROGRAM_FLAG_WRITABLE then PAGE_READWRITE else 0));
        ret (if r =? 0 then None else Some tt)) v (λ r v', match r with
    | Some _ => vm_ok (mem v') vm
    | None => (∃ l, space_of v' sp l vm) ∧ prefix_loaded s0 vm elf ph (k + 1) (mem v')
    end).
Proof.
  intros P Hk [l S] F. destruct (decide (loadable (ph k))) as [Hl|Hl].
  2:{ assert (negb (ph_type (ph k) =? ELF_PROGRAM_TYPE_LOAD) || (ph_mem_size (ph k) =? 0) = true) as ->.
      { unfold loadable in Hl. apply orb_true_iff. rewrite negb_true_iff, Z.eqb_neq, Z.eqb_eq.
        destruct (decide (ph_mem_size (ph k) = 0)); [by right|left]. intros ?. by apply Hl. }
      wp_step. split; [eauto|]. by apply prefix_skip. }
  pose proof (pr_segment _ _ _ _ P k Hk Hl) as So. pose proof So as (Hs1 & Hs2 & Hs3 & Hs4 & Hs5 & Hs6 & Hs7).
  pose proof Hl as [Ht Hm]. pose proof (pr_size _ _ _ _ P) as Hsz.
  rewrite (proj2 (Z.eqb_eq _ _) Ht), (proj2 (Z.eqb_neq _ _) Hm). cbn [negb orb].
  rewrite u32_small by ulia. rewrite !(proj2 (Z.ltb_ge _ _)) by lia. cbn [orb].
  wp_step. eapply wp_mono; [by apply (wp_load_segment v sp l vm); [|apply P|]|].
  intros r v' [(-> & (l' & S' & _) & L)|(-> & Vo & _)]; apply wp_ret; [|exact Vo].
  split; [eauto|]. eapply prefix_next; [|done|lia|done|exact L].
  intros i p Hi Hli. eapply (pr_apart _ _ _ _ P); (lia || done).
Qed.

(** C18: loading a program. When memory suffices [elf32_load] returns 0, the
    program's entry and the address of its text, and every byte of every
    loadable segment's pages reads as the file's where the file has one and as
    zero elsewhere, on pages that are writable exactly if the segment is; what
    was mapped beside the segments reads as before. Otherwise it returns -1. *)
Theorem elf32_load_image (v : V) sp vm elf hdr ph text :
  (∃ l, space_of v sp l vm) → program elf hdr ph text →
  wp (elf32_load sp elf) v (λ r v', let '(code, entry, text_base) := r in
    text_base = text ∧ vm_ok (mem v') vm ∧
    ((code = 0 ∧ entry = program_entry_pos hdr ∧
      prefix_loaded (mem v) vm elf ph (phdr_table_entry_count hdr) (mem v')) ∨ (code = -1 ∧ entry = 0))).
Proof.
  intros S P. pose proof (pr_size _ _ _ _ P) as Hsz. pose proof (pr_table _ _ _ _ P) as (Hp & Hc & He & Hend).
  unfold elf32_load, peek. wp_step. destruct (S) as (l & sv & Hs & _). eapply wp_deref; [exact Hs|].
  rewrite (proj2 (Z.ltb_ge _ _)) by lia. wp_step. eapply wp_of_opt; [by rewrite (pr_hdr _ _ _ _ P)|]. cbn [fst].
  rewrite (pr_ok _ _ _ _ P). cbn [negb]. wp_step. eapply wp_of_opt; [by rewrite (pr_text _ _ _ _ P)|]. cbn [fst].
  rewrite !u32_small by ulia. rewrite !(proj2 (Z.ltb_ge _ _)) by lia. cbn [orb]. wp_step.
  apply (wp_scan_range (λ k v', (∃ l, space_of v' sp l vm) ∧ prefix_loaded (mem v) vm elf ph k (mem v'))).
  - split; [done|]. split; [intros; lia|done].
  - intros k v1 Hk [S1 F]. wp_step. eapply wp_of_opt; [by rewrite (pr_ph _ _ _ _ P)|]. cbn [fst].
    eapply wp_mono; [exact (wp_load_header (mem v) v1 sp vm elf hdr ph text k P Hk S1 F)|]. intros [[]|] v2 H; [|exact H]. apply wp_ret. split_and!; [done|done|by right].
  - intros v1 [(l1 & sv1 & _ & _ & _ & V1) F]. rewrite Z.max_r in F by done. apply wp_ret. split_and!; [done|done|by left].
Qed.

(** C31: what [elf32_load] does with an image it should refuse. A file that is
    too short or has a wrong header is refused and nothing changes; but the
    section header table is used without a check against the size of the
    file: when it ends outside, the kernel reads outside the file's memory. *)
Theorem elf32_load_untrusted (v : V) sp sv elf hdr :
  spaces v !! sp = Some sv →
  (blen elf < sizeof_elf32_header → elf32_load sp elf v = Some ((-1, 0, 0), v)) ∧
  (sizeof_elf32_header <= blen elf → read_header elf = Some (hdr, elf) →
   (elf_header_ok hdr = false → elf32_load sp elf v = Some ((-1, 0, 0), v)) ∧
   (elf_header_ok hdr = true →
    blen elf < u32 (shdr_table_pos hdr + sizeof_elf32_sec_hdr * section_names_index hdr) + 20 →
    elf32_load sp elf v = None)).
Proof.
  intros Hs. unfold elf32_load, space. rewrite (bind_run _ _ _ sv v) by (unfold deref; by rewrite Hs). split.
  { intros Hl. by rewrite (proj2 (Z.ltb_lt _ _)). }
  intros Hl Eh. rewrite (proj2 (Z.ltb_ge _ _)) by done. unfold peek. rewrite (bind_run _ _ _ hdr v) by (by rewrite Eh). split.
  { by intros ->. }
  intros -> Ho. cbn [negb]. unfold bind at 1, find_text_base at 1, bind at 1, b32 at 1, bind at 1, get_bytes at 1, sub_bytes at 1.
  assert (0 <= u32 (shdr_table_pos hdr + sizeof_elf32_sec_hdr * section_names_index hdr)) by ulia.
  rewrite (proj2 (Z.leb_gt _ (blen elf))) by lia. by rewrite andb_false_r.
Qed.
End spec.

(* ------------------------------------------------------------------ *)
(** ** Witnesses *)

Definition le16 (v : Z) : buf := le_of 2 v.
Definition le32 (v : Z) : buf := le_of 4 v.
Definition demo_elf_header (shdr : Z) : buf :=
  ELF_MAGIC ++ [1; 1; 1; 0; 0; 0; 0; 0; 0; 0; 0; 0] ++ le16 2 ++ le16 3 ++ le32 1 ++
  le32 4263934 ++ le32 52 ++ le32 shdr ++ le32 0 ++ le16 52 ++ le16 32 ++ le16 2 ++ le16 40 ++ le16 1 ++ le16 0.
Definition demo_prog_hdr (off va fsz msz fl : Z) : buf :=
  le32 1 ++ le32 off ++ le32 va ++ le32 va ++ le32 fsz ++ le32 msz ++ le32 fl ++ le32 4096.

(** Two segments, three bytes of text over the end of a page and two of data
    followed by six zeros; one section, [.text]. *)
Definition demo_elf : buf :=
  demo_elf_header 116 ++ demo_prog_hdr 162 4263934 3 3 5 ++ demo_prog_hdr 165 4300804 2 8 6 ++
  (le32 0 ++ le32 1 ++ le32 6 ++ le32 4263934 ++ le32 156 ++ le32 6 ++ le32 0 ++ le32 0 ++ le32 1 ++ le32 0) ++
  text_name ++ [144; 145; 195; 33; 34].
Definition demo_hdr : elf32_header_t := ElfHeader ELF_MAGIC 1 1 2 3 4263934 52 116 32 2 1 0.
Definition demo_ph (i : Z) : elf32_prog_hdr :=
  if i =? 0 then ProgHdr 1 162 4263934 3 3 5 else ProgHdr 1 165 4300804 2 8 6.
Definition demo_exec_vms : vms pmm :=
  Vms demo_copy_memory {[ 5 := Vmspace 1 0 ]} {[ 1 := demo_user ]} ∅ 0 8192 6 [] (Spinlock 0 false, true).

Lemma demo_program : program demo_elf demo_hdr demo_ph 4263934.
Proof.
  assert (∀ i, 0 <= i < phdr_table_entry_count demo_hdr → i = 0 ∨ i = 1) as H01 by (cbn; lia). split.
  - vm_compute. repeat (constructor; [split; [discriminate|reflexivity]|]). constructor.
  - vm_compute. split; [discriminate|reflexivity].
  - vm_compute. reflexivity.
  - vm_compute. reflexivity.
  - vm_compute. reflexivity.
  - vm_compute. repeat split; discriminate.
  - intros i [-> | ->]%H01; vm_compute; reflexivity.
  - intros i [-> | ->]%H01 _; vm_compute; repeat split; discriminate || reflexivity.
  - intros i j q Hi Hj _ _. change (phdr_table_entry_count demo_hdr) with 2 in *. destruct (H01 i) as [-> | ->]; [lia| |lia]. destruct (H01 j) as [-> | ->]; [lia|lia|].
    unfold has_page. change (demo_ph 0) with (ProgHdr 1 162 4263934 3 3 5). change (demo_ph 1) with (ProgHdr 1 165 4300804 2 8 6).
    cbn [ph_vaddr ph_mem_size]. unfold segment_pages. lia.
Qed.

Lemma elf32_load_image_witness : ∃ v',
  elf32_load 5 demo_elf demo_exec_vms = Some ((0, 4263934, 4263934), v') ∧
  reads demo_user (mem v') 4263936 = Some 195 ∧ reads demo_user (mem v') 4300806 = Some 0.
Proof.
  destruct (wp_elim _ _ _ (elf32_load_image demo_exec_vms 5 demo_user demo_elf demo_hdr demo_ph 4263934
    ltac:(exists 0, (Vmspace 1 0); split; [reflexivity|]; split; [reflexivity|]; split; [reflexivity|];
          apply vm_okb_ok; [apply demo_copy_memory_ok|vm_compute; reflexivity]) demo_program))
    as ([[r e] tb] & v' & E & -> & _ & H).
  assert (fst <$> elf32_load 5 demo_elf demo_exec_vms = Some (0, 4263934, 4263934)) as Er by (vm_compute; reflexivity).
  rewrite E in Er. cbn in Er. injection Er as -> ->.
  destruct H as [(_ & _ & H & _)|[H _]]; [|discriminate H].
  exists v'. split; [exact E|]. split.
  - destruct (H 0 ltac:(cbn; lia) ltac:(split; [reflexivity|discriminate]) 4263936) as (_ & -> & _);
      [vm_compute; split; [discriminate|reflexivity]|]. vm_compute. reflexivity.
  - destruct (H 1 ltac:(cbn; lia) ltac:(split; [reflexivity|discriminate]) 4300806) as (_ & -> & _);
      [vm_compute; split; [discriminate|reflexivity]|]. vm_compute. reflexivity.
Defined.

(** The header alone, with the section table it names missing. *)
Lemma elf32_load_untrusted_witness :
  elf32_load 5 [1; 2; 3] demo_exec_vms = Some ((-1, 0, 0), demo_exec_vms) ∧
  elf32_load 5 (demo_elf_header 116) demo_exec_vms = None.
Proof.
  split.
  - destruct (elf32_load_untrusted demo_exec_vms 5 (Vmspace 1 0) [1; 2; 3] demo_hdr eq_refl) as [H _].
    apply H. vm_compute. reflexivity.
  - destruct (elf32_load_untrusted demo_exec_vms 5 (Vmspace 1 0) (demo_elf_header 116) demo_hdr eq_refl) as [_ H].
    apply H; [vm_compute; discriminate|vm_compute; reflexivity..].
Defined.
