(* ===== verification/Exec.v ===== *)
(** * Program execution

    [kernel/src/proc/sys_exec.c] and [kernel/src/proc/exec_table.c]: loading a
    program into a new address space, the arguments on its stack, and the two
    calls that start programs. Strings and argument arrays are in memory, read
    and written through the loaded page directory; the heap is the list of the
    addresses it will answer with, and the addresses of the blocks that are in
    use are kept, so that a leak can be seen. *)

From S2P Require Import Prelude Chain Range FrameAlloc Pmm Paging VaAlloc Cow Buf Net Myfs Vfs Vmspace UserCopy Sched Proc Elf.

Definition USER_STACK_TOP : Z := 3221221376.
Definition USER_STACK_SIZE : Z := 65536.
Definition USER_STACK_BOTTOM : Z := USER_STACK_TOP - USER_STACK_SIZE.
Definition USER_HEAP_START : Z := 536870912.
Definition USER_HEAP_INITIAL : Z := 4096.
Definition EXEC_TABLE_MAX : Z := 16.

(** The path, in 64 bytes, and the address of the text. *)
Record exec_table_entry_t := ExecEntry { ee_path : buf; ee_load_base : Z }.

(** The addresses the compiler gives to the locals of [setup_user_stack_args]
    that are copied to user memory. *)
Record locals := Locals { l_user_argv_ptrs : Z; l_null_env : Z; l_argv_array_base : Z; l_argc : Z }.

(* ------------------------------------------------------------------ *)
(** ** Kernel accesses to memory *)

Section memory.
Context `{FA : FrameAllocator St}.
Notation V := (vms St).

Definition kld8 (a : Z) : M V Z := pd ← gets cr3; on_mem (cpu_ldb (cpu_vm pd) a).
Definition kst8 (a b : Z) : M V unit := pd ← gets cr3; on_mem (cpu_stb (cpu_vm pd) a b).
Definition kld32 (a : Z) : M V Z :=
  b0 ← kld8 a; b1 ← kld8 (a + 1); b2 ← kld8 (a + 2); b3 ← kld8 (a + 3);
  ret (b0 + 256 * b1 + 65536 * b2 + 16777216 * b3).
Definition kst32 (a v : Z) : M V unit := for_range 0 4 (λ i, kst8 (a + i) (byte_of v i)).

(** Strings of up to a mebibyte, more than any stack holds. *)
Definition string_fuel : nat := copy_fuel.

Definition kstrlen (s : Z) : M V Z :=
  while_n string_fuel (λ n, c ← kld8 (s + n); if c =? 0 then ret (inr n) else ret (inl (n + 1))) 0.

Definition kstring (s : Z) : M V buf :=
  n ← kstrlen s;
  while_n string_fuel (λ '(i, out), if i <? n then c ← kld8 (s + i); ret (inl (i + 1, out ++ [c])) else ret (inr out)) (0, []).

Definition kstrcpy (d s : Z) : M V unit :=
  if d =? 0 then ret tt
  else if s =? 0 then kst8 d 0
  else while_n string_fuel (λ i, c ← kld8 (s + i); kst8 (d + i) c ;; if c =? 0 then ret (inr tt) else ret (inl (i + 1))) 0.

(** [char *const argv[]]: the number of pointers before the null one. *)
Definition count_args (argv : Z) : M V Z :=
  while_n string_fuel (λ n, p ← kld32 (argv + 4 * n); if p =? 0 then ret (inr n) else ret (inl (n + 1))) 0.

(** [sp &= ~0x3]. *)
Definition align4 (sp : Z) : Z := Z.land sp (not32 3).

(** The loop that copies the strings, from the last argument to the first. *)
Definition push_strings (curr dst : Z) (l : locals) (argv argc stack_top : Z) : M V Z :=
  while_n (S (Z.to_nat argc)) (λ '(i, user_sp),
    if 0 <=? i then
      arg ← kld32 (argv + 4 * i);
      n ← kstrlen arg;
      let len := u32 (n + 1) in
      let user_sp := align4 (u32 (user_sp - len)) in
      vmspace_copy_to curr dst user_sp arg len ;;
      kst32 (l_user_argv_ptrs l + 4 * i) user_sp ;;
      ret (inl (i - 1, user_sp))
    else ret (inr user_sp)) (argc - 1, stack_top).

Definition setup_user_stack_args (curr dst : Z) (l : locals) (stack_top argc argv : Z) : M V Z :=
  kst32 (l_argc l) argc ;;
  user_sp ← push_strings curr dst l argv argc stack_top;
  kst32 (l_user_argv_ptrs l + 4 * argc) 0 ;;
  let ptr_array_size := u32 (4 * (argc + 1)) in
  let user_sp := align4 (u32 (user_sp - ptr_array_size)) in
  kst32 (l_argv_array_base l) user_sp ;;
  vmspace_copy_to curr dst user_sp (l_user_argv_ptrs l) ptr_array_size ;;
  kst32 (l_null_env l) 0 ;;
  let user_sp := u32 (user_sp - 4) in
  vmspace_copy_to curr dst user_sp (l_null_env l) 4 ;;
  let user_sp := u32 (user_sp - 4) in
  vmspace_copy_to curr dst user_sp (l_argv_array_base l) 4 ;;
  let user_sp := u32 (user_sp - 4) in
  vmspace_copy_to curr dst user_sp (l_argc l) 4 ;;
  ret user_sp.
End memory.

(* ------------------------------------------------------------------ *)
(** ** The calls *)

Section exec.
Context `{FA : FrameAllocator St} {D : Type} {DR : Drivers D}.
Notation K := (kernel St D).

(** The kernel, the table of programs, and the heap: the addresses it will
    answer with, 0 when they run out, and the blocks in use. *)
Record exec_st := ExecSt {
  x_kernel : K;
  g_exec_table : list exec_table_entry_t;
  g_exec_table_count : Z;
  x_answers : list Z;
  x_live : list Z
}.
Definition set_kernel k x := ExecSt k (g_exec_table x) (g_exec_table_count x) (x_answers x) (x_live x).
Definition set_exec_table t n x := ExecSt (x_kernel x) t n (x_answers x) (x_live x).
Definition set_heap_blocks a l x := ExecSt (x_kernel x) (g_exec_table x) (g_exec_table_count x) a l.

Definition on_kernel {A} (m : M K A) : M exec_st A := zoom x_kernel set_kernel m.
Definition on_spaces {A} (m : M (vms St) A) : M exec_st A := on_kernel (on_vms m).

Definition kmalloc_block : M exec_st Z :=
  a ← gets x_answers;
  let p := default 0 (head a) in
  modify (λ x, set_heap_blocks (tail a) (if p =? 0 then x_live x else p :: x_live x) x) ;;
  ret p.
Definition kfree_block (p : Z) : M exec_st unit := modify (λ x, set_heap_blocks (x_answers x) (remove_first p (x_live x)) x).

Definition kstrdup (s : Z) : M exec_st Z :=
  _ ← on_spaces (kstrlen s);
  p ← kmalloc_block;
  when (negb (p =? 0)) (on_spaces (kstrcpy p s)) ;;
  ret p.

(** [strncpy] of 63 bytes into a cleared entry. *)
Definition table_path (path : buf) : buf := take 63 path ++ replicate (64 - length (take 63 path)) 0.

Definition exec_table_add (path : buf) (load_base : Z) : M exec_st unit :=
  n ← gets g_exec_table_count;
  if EXEC_TABLE_MAX <=? n then ret tt
  else modify (λ x, set_exec_table (<[0%nat := ExecEntry (table_path path) load_base]> (g_exec_table x)) 1 x).

(** The result and [*entry]. *)
Definition exec_load_elf (vm path cwd : Z) : M exec_st (Z * Z) :=
  v ← on_spaces (space vm);
  a ← on_spaces (arch (vs_arch v));
  _ ← on_spaces (on_mem (hal_vm_virt_to_phys a path));
  name ← on_spaces (kstring path);
  fd ← on_kernel (on_vfs (vfs_open name cwd O_RDONLY (-1)));
  if fd <? 0 then ret (fd, 0)
  else
    '(r, st) ← on_kernel (on_vfs (vfs_fstat fd));
    if r <? 0 then _ ← on_kernel (on_vfs (vfs_close fd)); ret (- EIO, 0)
    else
      st ← of_opt st;
      data ← kmalloc_block;
      if data =? 0 then _ ← on_kernel (on_vfs (vfs_close fd)); ret (- Vfs.ENOMEM, 0)
      else
        '(nread, bytes) ← on_kernel (on_vfs (vfs_read fd (replicate (Z.to_nat (st_size st)) 0) (st_size st)));
        _ ← on_kernel (on_vfs (vfs_close fd));
        if (nread <? 0) || negb (u32 nread =? u32 (st_size st)) then kfree_block data ;; ret (- EIO, 0)
        else
          '(r, entry, text_base) ← on_spaces (elf32_load vm bytes);
          when (r =? 0) (name ← on_spaces (kstring path); exec_table_add name text_base) ;;
          kfree_block data ;;
          ret (r, entry).

(** The kernel's copy of the arguments. *)
Record captured_args_t := Captured { kargv : Z; ca_argc : Z }.

Definition capture_args (argv : Z) : M exec_st captured_args_t :=
  argc ← on_spaces (count_args argv);
  kargv ← kmalloc_block;
  for_range 0 argc (λ i,
    p ← on_spaces (kld32 (argv + 4 * i));
    s ← kstrdup p;
    on_spaces (kst32 (kargv + 4 * i) s)) ;;
  on_spaces (kst32 (kargv + 4 * argc) 0) ;;
  ret (Captured kargv argc).

Definition sys_execve (l : locals) (pathname argv : Z) : M exec_st Z :=
  kpath ← kstrdup pathname;
  captured ← capture_args argv;
  current ← on_kernel (on_sched dispatch_get_current);
  new_vm ← on_spaces vmspace_create;
  proc ← on_kernel current_process;
  pr ← on_kernel (process proc);
  '(r, entry) ← exec_load_elf new_vm kpath (p_cwd pr);
  if r <? 0 then on_spaces (vmspace_destroy new_vm) ;; ret (- ENOENT)
  else
    let stack_top := USER_STACK_BOTTOM + USER_STACK_SIZE in
    _ ← on_spaces (vmspace_map_stack new_vm stack_top USER_STACK_SIZE);
    _ ← on_spaces (vmspace_map_heap new_vm USER_HEAP_START USER_HEAP_INITIAL);
    on_kernel (process_set proc (with_heap_start USER_HEAP_START)) ;;
    on_kernel (process_set proc (with_brk (USER_HEAP_START + USER_HEAP_INITIAL))) ;;
    pr ← on_kernel (process proc);
    let old_vm := p_vmspace pr in
    on_kernel (process_set proc (with_vmspace new_vm)) ;;
    on_spaces (vmspace_switch new_vm) ;;
    curr ← on_kernel (process_arch proc);
    nv ← on_spaces (space new_vm);
    user_sp ← on_spaces (setup_user_stack_args curr (vs_arch nv) l stack_top (ca_argc captured) (kargv captured));
    on_spaces (vmspace_destroy old_vm) ;;
    for_range 0 (ca_argc captured) (λ i, p ← on_spaces (kld32 (kargv captured + 4 * i)); kfree_block p) ;;
    kfree_block (kargv captured) ;;
    kfree_block kpath ;;
    _ ← on_kernel (hal_thread_init current entry user_sp);
    ret 0.

Definition process_spawn (l : locals) (path argc argv p : Z) : M exec_st Z :=
  proc ← on_kernel process_create;
  vm ← on_spaces vmspace_create;
  on_kernel (process_set proc (with_vmspace vm)) ;;
  pr ← on_kernel (process proc);
  '(r, entry) ← exec_load_elf vm path (p_cwd pr);
  if r <? 0 then on_kernel (process_destroy proc) ;; ret (-1)
  else
    let stack_top := USER_STACK_BOTTOM + USER_STACK_SIZE in
    _ ← on_spaces (vmspace_map_stack vm stack_top USER_STACK_SIZE);
    curr_proc ← on_kernel current_process;
    curr ← on_kernel (process_arch curr_proc);
    dst ← on_spaces (space vm);
    user_sp ← on_spaces (setup_user_stack_args curr (vs_arch dst) l stack_top argc argv);
    t ← on_kernel (thread_create_user proc entry user_sp p);
    on_kernel (process_set proc (with_main_thread t)) ;;
    on_kernel (on_sched (sched_enqueue t)) ;;
    ret 0.
End exec.

(* ------------------------------------------------------------------ *)
(** ** Memory as bytes

    A set of addresses that are mapped to frames of their own, and the bytes
    there. The operations above become updates of a function. *)

Section view.
Context `{FA : FrameAllocator St}.
Notation Vm := (vmst St).
Notation V := (vms St).
Implicit Types (s : Vm) (vm : arch_vm_t) (v : V) (f g : Z → Z) (R : Z → Prop).

Record seen R vm s f : Prop := {
  se_data : ∀ a, R a → data_at s vm a ∧ a / 4096 ≠ KMAPPING_PAGE;
  se_inj : ∀ a b, R a → R b → phys s vm a = phys s vm b → a = b;
  se_byte : ∀ a, R a → pbyte s (phys s vm a) = f a
}.

(** [seen] in a state where the kernel can copy. *)
Record sees R h vm v f : Prop := {
  ss_ready : copy_ready v h vm;
  ss_seen : seen R vm (mem v) f
}.

Definition moved f (d a n : Z) : Z → Z := λ x, if (d <=? x) && (x <? d + n) then f (a + (x - d)) else f x.
Definition word f (a : Z) : Z := f a + 256 * f (a + 1) + 65536 * f (a + 2) + 16777216 * f (a + 3).
Definition put32 f (a w : Z) : Z → Z := λ x, if (a <=? x) && (x <? a + 4) then byte_of w (x - a) else f x.

Definition within (lo hi : Z) R : Prop := ∀ x, lo <= x < hi → R x.

Lemma seen_same q R vm s s' f :
  (q = -1 ∨ q = KMAPPING_PAGE) → same_but q vm s s' → seen R vm s f →
  ∀ a, R a → data_at s' vm a ∧ phys s' vm a = phys s vm a.
Proof.
  intros Hq S [H1 H2 H3] a Ha. destruct (H1 a Ha) as [D N]. eapply data_same; [exact S|done|].
  destruct Hq as [->| ->]; [|done]. destruct D as [? _]. lia.
Qed.

Lemma wp_kld8 R h vm v f a :
  sees R h vm v f → R a → wp (kld8 a) v (λ b v', b = f a ∧ v' = v).
Proof.
  intros [Y S] Ha. unfold kld8. do 2 wp_step. rewrite (cr_loaded _ _ _ Y), (cpu_vm_ok _ _ (cr_vm _ _ _ Y)).
  apply wp_zoom. eapply wp_mono; [apply wp_cpu_ldb; [apply Y|by apply S]|]. intros b s' [-> ->].
  split; [by apply (se_byte _ _ _ _ S)|]. by destruct v.
Qed.

Lemma wp_kst8 R h vm v f a b :
  sees R h vm v f → R a → 0 <= b < 256 → wp (kst8 a b) v (λ _ v', sees R h vm v' (<[a := b]> f)).
Proof.
  intros [Y S] Ha Hb. unfold kst8. do 2 wp_step. rewrite (cr_loaded _ _ _ Y), (cpu_vm_ok _ _ (cr_vm _ _ _ Y)).
  apply wp_zoom. eapply wp_mono; [apply wp_cpu_stb; [apply Y|by apply S|done]|]. intros [] s' [S' E].
  pose proof (seen_same (-1) R vm _ _ f ltac:(by left) S' S) as K. split.
  - destruct Y. split; try done; [apply S'|by eapply window_same].
  - split; cbn [mem set_mem].
    + intros x Hx. split; [by apply K|by apply S].
    + intros x y Hx Hy. rewrite (proj2 (K x Hx)), (proj2 (K y Hy)). by apply (se_inj _ _ _ _ S).
    + intros x Hx. rewrite (proj2 (K x Hx)), E. destruct (decide (x = a)) as [->|Hne].
      * by rewrite decide_True, fn_lookup_insert.
      * rewrite fn_lookup_insert_ne by done. rewrite decide_False; [by apply (se_byte _ _ _ _ S)|]. intros Ep. apply Hne. by eapply (se_inj _ _ _ _ S).
Qed.

Lemma sees_ext R h vm v f g : (∀ x, R x → f x = g x) → sees R h vm v f → sees R h vm v g.
Proof. intros E [Y [S1 S2 S3]]. split; [done|]. split; [done|done|]. intros x Hx. rewrite <-E by done. by apply S3. Qed.

Lemma wp_copied R h vm v f d a n :
  sees R h vm v f → within d (d + n) R → within a (a + n) R → d + n <= a ∨ a + n <= d →
  is_u32 d → is_u32 a → 0 <= n → d + n < 4294967296 → a + n < 4294967296 →
  wp (vmspace_copy_to h h d a n) v (λ _ v', sees R h vm v' (moved f d a n)).
Proof.
  intros [Y S] Hd Ha Hdis Ud Ua Hn Hde Hae. pose proof (cr_vm _ _ _ Y) as K.
  eapply wp_mono; [apply (wp_vmspace_copy_to v h vm d a n n); try done; [split; lia|]|].
  { split.
    - intros j Hj. apply S, Hd. lia.
    - intros j Hj. apply S, Ha. lia.
    - intros x y Hx Hy E. apply (se_inj _ _ _ _ S) in E; [lia|apply Hd; lia..].
    - intros x y Hx Hy E. apply (se_inj _ _ _ _ S) in E; [lia|apply Hd; lia|apply Ha; lia]. }
  intros r v' (_ & T & O). split; [by eapply copy_ready_after|].
  pose proof (seen_same _ R vm _ _ f ltac:(by right) (tr_same _ _ _ _ _ _ T) S) as E. split.
  - intros x Hx. split; [by apply E|by apply S].
  - intros x y Hx Hy. rewrite (proj2 (E x Hx)), (proj2 (E y Hy)). by apply (se_inj _ _ _ _ S).
  - intros x Hx. rewrite (proj2 (E x Hx)). unfold moved. destruct (Z.leb_spec d x), (Z.ltb_spec x (d + n)); cbn [andb].
    1:{ pose proof (tr_in _ _ _ _ _ _ T (x - d) ltac:(lia)) as I. replace (d + (x - d)) with x in I by lia.
        rewrite I. apply (se_byte _ _ _ _ S), Ha. lia. }
    all: rewrite (tr_out _ _ _ _ _ _ T); [by apply (se_byte _ _ _ _ S)|apply data_outside; [done|by apply S]|];
      intros j Hj Ep; apply (se_inj _ _ _ _ S) in Ep; [lia|done|apply Hd; lia].
Qed.

Lemma wp_kst32 R h vm v f a w :
  sees R h vm v f → within a (a + 4) R → wp (kst32 a w) v (λ _ v', sees R h vm v' (put32 f a w)).
Proof.
  intros S Ha. unfold kst32. eapply wp_mono;
    [apply (wp_for_range (λ j v', sees R h vm v' (λ x, if (a <=? x) && (x <? a + j) then byte_of w (x - a) else f x)))|].
  - eapply sees_ext; [|exact S]. intros x Hx. replace ((a <=? x) && (x <? a + 0)) with false by (symmetry; blia). done.
  - intros j v1 Hj S1. eapply wp_mono; [apply (wp_kst8 _ _ _ _ _ _ _ S1); [apply Ha; lia|apply byte_of_range]|]. intros [] v2 S2.
    eapply sees_ext; [|exact S2]. intros x Hx. cbn beta. destruct (decide (x = a + j)) as [->|Hne].
    + rewrite fn_lookup_insert. replace ((a <=? a + j) && (a + j <? a + (j + 1))) with true by (symmetry; blia).
      f_equal. lia.
    + rewrite fn_lookup_insert_ne by done. replace ((a <=? x) && (x <? a + (j + 1))) with ((a <=? x) && (x <? a + j)); [done|].
      destruct (Z.leb_spec a x), (Z.ltb_spec x (a + j)), (Z.ltb_spec x (a + (j + 1))); try done; lia.
  - intros [] v' S'. exact S'.
Qed.

Lemma wp_kld32 R h vm v f a :
  sees R h vm v f → within a (a + 4) R → wp (kld32 a) v (λ w v', w = word f a ∧ v' = v).
Proof.
  intros S Ha. unfold kld32.
  wp_step. eapply wp_mono; [apply (wp_kld8 _ _ _ _ _ _ S); apply Ha; lia|]. intros b0 v0 [-> ->].
  wp_step. eapply wp_mono; [apply (wp_kld8 _ _ _ _ _ _ S); apply Ha; lia|]. intros b1 v1 [-> ->].
  wp_step. eapply wp_mono; [apply (wp_kld8 _ _ _ _ _ _ S); apply Ha; lia|]. intros b2 v2 [-> ->].
  wp_step. eapply wp_mono; [apply (wp_kld8 _ _ _ _ _ _ S); apply Ha; lia|]. intros b3 v3 [-> ->].
  apply wp_ret. done.
Qed.

(** A string of nonzero bytes and its end. *)
Definition cstr f (p : Z) (l : buf) : Prop :=
  (∀ (i : nat) c, l !! i = Some c → f (p + Z.of_nat i) = c ∧ c ≠ 0) ∧ f (p + Z.of_nat (length l)) = 0.

Lemma wp_kstrlen R h vm v f p l :
  sees R h vm v f → cstr f p l → within p (p + Z.of_nat (length l) + 1) R → (length l < string_fuel)%nat →
  wp (kstrlen p) v (λ n v', n = Z.of_nat (length l) ∧ v' = v).
Proof.
  intros Sv [H1 H2] Hr Hf. unfold kstrlen.
  apply (wp_while_n (λ k n v', ∃ i : nat, (i <= length l)%nat ∧ n = Z.of_nat i ∧ k = (length l - i)%nat ∧ v' = v) _ _ _ (length l)).
  - exists 0%nat. split_and!; [lia|done|lia|done].
  - done.
  - intros k n v1 (i & Hi & -> & -> & ->). wp_step. eapply wp_mono; [apply (wp_kld8 _ _ _ _ _ _ Sv); apply Hr; lia|].
    intros c v2 [-> ->]. destruct (decide (i = length l)) as [->|Hne].
    + rewrite H2. change (0 =? 0) with true. cbn iota. apply wp_ret. done.
    + destruct (lookup_lt_is_Some_2 l i ltac:(lia)) as [c Hc]. destruct (H1 i c Hc) as [-> Hz].
      rewrite (proj2 (Z.eqb_neq _ _)) by done. apply wp_ret. exists (length l - S i)%nat. split; [lia|].
      exists (S i). split_and!; [lia|lia|done|done].
Qed.
End view.

(* ------------------------------------------------------------------ *)
(** ** Updates of memory *)

Lemma align4_mod sp : is_u32 sp → align4 sp = sp - sp mod 4.
Proof.
  intros H. unfold align4. change (not32 3) with (not32 (u32 (4 - 1))). fold (align_down sp 4).
  apply align_down_mod; [done|]. by exists 2.
Qed.

Lemma moved_in f d a n x : d <= x < d + n → moved f d a n x = f (a + (x - d)).
Proof. intros H. unfold moved. by replace ((d <=? x) && (x <? d + n)) with true by (symmetry; blia). Qed.
Lemma moved_out f d a n x : x < d ∨ d + n <= x → moved f d a n x = f x.
Proof. intros H. unfold moved. by replace ((d <=? x) && (x <? d + n)) with false by (symmetry; blia). Qed.
Lemma put32_out f a w x : x < a ∨ a + 4 <= x → put32 f a w x = f x.
Proof. intros H. unfold put32. by replace ((a <=? x) && (x <? a + 4)) with false by (symmetry; blia). Qed.
Lemma put32_in f a w x : a <= x < a + 4 → put32 f a w x = byte_of w (x - a).
Proof. intros H. unfold put32. by replace ((a <=? x) && (x <? a + 4)) with true by (symmetry; blia). Qed.

Lemma word_ext (f g : Z → Z) a b : (∀ i, 0 <= i < 4 → f (a + i) = g (b + i)) → word f a = word g b.
Proof.
  intros H. unfold word. pose proof (H 0 ltac:(lia)) as H0. rewrite !Z.add_0_r in H0.
  by rewrite H0, (H 1), (H 2), (H 3) by lia.
Qed.

Lemma word_put32 f a w : is_u32 w → word (put32 f a w) a = w.
Proof.
  intros H. unfold word. rewrite !put32_in by lia. replace (a - a) with 0 by lia. replace (a + 1 - a) with 1 by lia.
  replace (a + 2 - a) with 2 by lia. replace (a + 3 - a) with 3 by lia. unfold byte_of. cbn. unfold is_u32 in H. lia.
Qed.

Lemma cstr_ext (f g : Z → Z) p q l :
  (∀ i, 0 <= i <= Z.of_nat (length l) → g (q + i) = f (p + i)) → cstr f p l → cstr g q l.
Proof.
  intros E [H1 H2]. split; [|rewrite E by lia; exact H2]. intros i c Hc. pose proof (lookup_lt_Some _ _ _ Hc).
  rewrite E by lia. by apply H1.
Qed.

(** What a string takes on the stack, and the strings from the [i]th on. *)
Definition cell (l : buf) : Z := 4 * ((Z.of_nat (length l) + 4) / 4).
Definition args_size (args : list buf) : Z := foldr (λ l n, cell l + n) 0 args.
Definition place (top : Z) (args : list buf) (i : nat) : Z := top - args_size (drop i args).

Lemma cell_ok l : Z.of_nat (length l) + 1 <= cell l ∧ cell l mod 4 = 0.
Proof. unfold cell. lia. Qed.

Lemma args_size_ok args : 0 <= args_size args ∧ args_size args mod 4 = 0.
Proof. induction args as [|l args IH]; [done|]. cbn [args_size foldr]. fold (args_size args). pose proof (cell_ok l). lia. Qed.

Lemma place_step top args i l : args !! i = Some l → place top args i = place top args (S i) - cell l.
Proof. intros H. unfold place. rewrite (drop_S _ _ _ H). cbn [args_size foldr]. fold (args_size (drop (S i) args)). lia. Qed.

Lemma args_size_drop args i : args_size (drop i args) <= args_size args.
Proof.
  revert i. induction args as [|l args IH]; intros [|i]; try done. cbn [drop]. pose proof (IH i). pose proof (cell_ok l).
  cbn [args_size foldr]. fold (args_size args). lia.
Qed.

Lemma place_mono top args i j : (i <= j)%nat → place top args i <= place top args j.
Proof. intros H. unfold place. replace j with (i + (j - i))%nat by lia. rewrite <-drop_drop. pose proof (args_size_drop (drop i args) (j - i)). lia. Qed.

(* ------------------------------------------------------------------ *)
(** ** The arguments on the stack *)

Section args.
Context `{FA : FrameAllocator St}.
Notation V := (vms St).
Implicit Types (v : V) (f : Z → Z).

(** [obj] says which object a byte belongs to: the user stack, one of the
    locals, something else the kernel reads, or, with 0, none of interest. *)
Definition STACK : Z := 1.
Definition PTRS : Z := 2.
Definition ENV : Z := 3.
Definition BASE : Z := 4.
Definition ARGC : Z := 5.
Definition ARGS : Z := 6.

Variables (obj : Z → Z) (h : Z) (vm : arch_vm_t) (l : locals) (top argv : Z) (args : list buf).
Let n : Z := Z.of_nat (length args).

(** Bytes from [lo] to [hi] are the object. *)
Definition object (lo hi k : Z) : Prop := 0 <= lo ∧ hi < 4294967296 ∧ ∀ x, lo <= x < hi → obj x = k.

(** The strings, the array of pointers and the three words of the frame. *)
Definition stack_need : Z := args_size args + 4 * (n + 1) + 12.

Record laid_out : Prop := {
  lo_top : top mod 4 = 0;
  lo_stack : object (top - stack_need) top STACK;
  lo_ptrs : object (l_user_argv_ptrs l) (l_user_argv_ptrs l + 4 * (n + 1)) PTRS;
  lo_env : object (l_null_env l) (l_null_env l + 4) ENV;
  lo_base : object (l_argv_array_base l) (l_argv_array_base l + 4) BASE;
  lo_argc : object (l_argc l) (l_argc l + 4) ARGC
}.

(** The arguments as the kernel has them. *)
Definition kernel_args f : Prop := ∀ i a, args !! i = Some a →
  object (argv + 4 * Z.of_nat i) (argv + 4 * Z.of_nat i + 4) ARGS ∧
  object (word f (argv + 4 * Z.of_nat i)) (word f (argv + 4 * Z.of_nat i) + Z.of_nat (length a) + 1) ARGS ∧
  cstr f (word f (argv + 4 * Z.of_nat i)) a.

Notation mapped := (λ x, obj x ≠ 0).
Notation ptrs := (l_user_argv_ptrs l).

(** Arguments from the [j]th on are on the stack. *)
Definition pushed f (j : nat) : Prop := ∀ i a, (j <= i)%nat → args !! i = Some a →
  word f (ptrs + 4 * Z.of_nat i) = place top args i ∧ cstr f (place top args i) a.

Lemma object_within lo hi k : object lo hi k → k ≠ 0 → within lo hi mapped.
Proof. intros (_ & _ & H) Hk x Hx. cbn. rewrite H by done. done. Qed.

Lemma object_apart lo hi k lo' hi' k' : k ≠ k' → object lo hi k → object lo' hi' k' → ∀ x, lo <= x < hi → ¬ lo' <= x < hi'.
Proof. intros Hk (_ & _ & H) (_ & _ & H') x Hx Hx'. apply Hk. by rewrite <-(H x), <-(H' x). Qed.

Lemma object_ne lo hi k k' x : object lo hi k → k ≠ k' → lo <= x < hi → obj x ≠ k'.
Proof. intros (_ & _ & H) Hk Hx. by rewrite H. Qed.

Lemma object_disjoint lo hi k lo' hi' k' : k ≠ k' → lo < hi → lo' < hi' → object lo hi k → object lo' hi' k' → hi <= lo' ∨ hi' <= lo.
Proof.
  intros Hk H1 H2 O O'. pose proof (object_apart _ _ _ _ _ _ Hk O O' (Z.max lo lo')) as N. lia.
Qed.

Lemma object_sub lo hi k lo' hi' : object lo hi k → lo <= lo' → hi' <= hi → object lo' hi' k.
Proof. intros (H1 & H2 & H3) ? ?. split_and!; [lia|lia|]. intros x ?. apply H3. lia. Qed.

Lemma moved_other f d a m k x : object d (d + m) k → obj x ≠ k → moved f d a m x = f x.
Proof.
  intros (_ & _ & H) Hx. apply moved_out. destruct (decide (d <= x < d + m)) as [Hd|]; [|lia]. by destruct Hx; apply H.
Qed.
Lemma put32_other f a w k x : object a (a + 4) k → obj x ≠ k → put32 f a w x = f x.
Proof.
  intros (_ & _ & H) Hx. apply put32_out. destruct (decide (a <= x < a + 4)) as [Hd|]; [|lia]. by destruct Hx; apply H.
Qed.

Hypothesis L : laid_out.

Lemma place_range i : top - args_size args <= place top args i <= top ∧ place top args i mod 4 = 0.
Proof.
  unfold place. pose proof (args_size_drop args i). pose proof (args_size_ok (drop i args)). pose proof (lo_top L). lia.
Qed.

Lemma stack_bounds : 0 <= top - stack_need ∧ top < 4294967296 ∧ 0 <= args_size args ∧ 0 <= n.
Proof. destruct (lo_stack L) as (? & ? & _). pose proof (args_size_ok args). split_and!; try done; try lia; unfold n; lia. Qed.

(** One string, from [sp] down. *)
Lemma wp_push_string f v i a :
  sees mapped h vm v f → kernel_args f → args !! i = Some a → (length a < string_fuel)%nat →
  pushed f (S i) → let p := word f (argv + 4 * Z.of_nat i) in let sp := place top args i in
  wp (vmspace_copy_to h h sp p (Z.of_nat (length a) + 1) ;; kst32 (ptrs + 4 * Z.of_nat i) sp) v (λ _ v', ∃ f',
    sees mapped h vm v' f' ∧ pushed f' i ∧ ∀ x, obj x ≠ STACK → obj x ≠ PTRS → f' x = f x).
Proof.
  intros Sv A Hi Hf Hp p sp. destruct (A i a Hi) as (O1 & O2 & C). fold p in O2, C. pose proof (lookup_lt_Some _ _ _ Hi) as Hlt.
  pose proof (place_step top args i a Hi) as Hs. pose proof (proj1 (cell_ok a)) as Hc. pose proof (proj1 (place_range i)) as Hri. pose proof (proj1 (place_range (S i))) as Hrs.
  pose proof stack_bounds as Hsb. fold sp in Hs, Hri. unfold stack_need in Hsb.
  assert (object sp (sp + (Z.of_nat (length a) + 1)) STACK) as Os by (eapply object_sub; [apply (lo_stack L)|unfold stack_need; lia|lia]).
  assert (object (ptrs + 4 * Z.of_nat i) (ptrs + 4 * Z.of_nat i + 4) PTRS) as Op
    by (eapply object_sub; [apply (lo_ptrs L)|lia|unfold n; lia]).
  rewrite <-Z.add_assoc in O2. pose proof O2 as (? & ? & _).
  wp_step. eapply wp_mono; [apply (wp_copied mapped h vm v f); [exact Sv|exact (object_within _ _ _ Os ltac:(done))|exact (object_within _ _ _ O2 ltac:(done))| |ulia|ulia|lia|lia|lia]|].
  { eapply object_disjoint; [|lia|lia|exact Os|exact O2]. done. }
  intros r v1 S1. eapply wp_mono; [apply (wp_kst32 _ _ _ _ _ _ _ S1), (object_within _ _ _ Op); done|]. intros [] v2 S2.
  eexists. split; [exact S2|]. split.
  - intros j b Hj Hb. destruct (decide (j = i)) as [->|Hne].
    + rewrite Hi in Hb. injection Hb as <-. split; [apply word_put32; ulia|]. eapply cstr_ext; [|exact C]. intros x Hx.
      rewrite (put32_other _ _ _ PTRS) by (exact Op || (apply (object_ne _ _ _ _ _ Os); [done|lia])).
      rewrite moved_in by lia. f_equal. lia.
    + destruct (Hp j b ltac:(lia) Hb) as [Hw Hcs]. pose proof (lookup_lt_Some _ _ _ Hb).
      pose proof (place_mono top args (S i) j ltac:(lia)). pose proof (proj1 (place_range (S j))).
      pose proof (place_step top args j b Hb). pose proof (proj1 (cell_ok b)). pose proof (proj1 (place_range j)). split.
      * rewrite <-Hw. apply word_ext. intros x Hx. rewrite put32_out by lia. apply (moved_other _ _ _ _ STACK); [done|].
        apply (object_ne _ _ _ _ _ (lo_ptrs L)); [done|unfold n; lia].
      * eapply cstr_ext; [|exact Hcs]. intros x Hx. rewrite (put32_other _ _ _ PTRS); [|done|].
        -- apply moved_out. lia.
        -- apply (object_ne _ _ _ _ _ (lo_stack L)); [done|unfold stack_need; lia].
  - intros x H1 H2. rewrite (put32_other _ _ _ PTRS) by done. by apply (moved_other _ _ _ _ STACK).
Qed.

Lemma kernel_args_ext f g : (∀ x, obj x = ARGS → g x = f x) → kernel_args f → kernel_args g.
Proof.
  intros E A i a Hi. destruct (A i a Hi) as (O1 & O2 & C).
  assert (word g (argv + 4 * Z.of_nat i) = word f (argv + 4 * Z.of_nat i)) as ->
    by (apply word_ext; intros x Hx; apply E, O1; lia).
  split_and!; [done|done|]. eapply cstr_ext; [|exact C]. intros x Hx. apply E, O2. lia.
Qed.

Lemma align4_place i a :
  args !! i = Some a → align4 (u32 (place top args (S i) - u32 (Z.of_nat (length a) + 1))) = place top args i.
Proof.
  intros Hi. pose proof (place_step top args i a Hi) as Hs. destruct (place_range i) as [Hr Hm]. pose proof stack_bounds as Hb.
  pose proof (proj1 (place_range (S i))) as Hr'. unfold stack_need in Hb. unfold cell in Hs.
  rewrite (u32_small (Z.of_nat (length a) + 1)) by ulia. rewrite u32_small by ulia. rewrite align4_mod by ulia. lia.
Qed.

Lemma wp_push_strings f v :
  sees mapped h vm v f → kernel_args f → Forall (λ a : buf, (length a < string_fuel)%nat) args →
  wp (push_strings h h l argv n top) v (λ sp v', sp = place top args 0 ∧ ∃ f',
    sees mapped h vm v' f' ∧ pushed f' 0 ∧ ∀ x, obj x ≠ STACK → obj x ≠ PTRS → f' x = f x).
Proof.
  intros Sv A Hl. unfold push_strings.
  apply (wp_while_n (λ k '(i, sp) v1, i = Z.of_nat k - 1 ∧ sp = place top args k ∧ (k <= length args)%nat ∧ ∃ f1,
    sees mapped h vm v1 f1 ∧ pushed f1 k ∧ ∀ x, obj x ≠ STACK → obj x ≠ PTRS → f1 x = f x) _ _ _ (length args)).
  - split_and!; [done| |done|].
    + unfold place. rewrite drop_all. cbn. lia.
    + exists f. split_and!; [done| |done]. intros i a Hi Ha. apply lookup_lt_Some in Ha. lia.
  - unfold n. lia.
  - intros k [i sp] v1 (-> & -> & Hk & f1 & S1 & P1 & E1). destruct k as [|k].
    { rewrite (proj2 (Z.leb_gt _ _)) by lia. apply wp_ret. split; [done|]. by exists f1. }
    rewrite (proj2 (Z.leb_le _ _)) by lia. destruct (lookup_lt_is_Some_2 args k ltac:(lia)) as [a Ha].
    assert (kernel_args f1) as A1 by (apply (kernel_args_ext f); [intros x Hx; apply E1; by rewrite Hx|done]).
    destruct (A1 k a Ha) as (O1 & O2 & C). replace (Z.of_nat (S k) - 1) with (Z.of_nat k) by lia.
    assert (length a < string_fuel)%nat as Hf by (rewrite Forall_lookup in Hl; by apply (Hl k)).
    wp_step. eapply wp_mono; [apply (wp_kld32 _ _ _ _ _ _ S1), (object_within _ _ _ O1); done|]. intros p v2 [-> ->].
    wp_step. eapply wp_mono; [apply (wp_kstrlen _ _ _ _ _ _ a S1); [done|by apply (object_within _ _ _ O2)|done]|]. intros m v2 [-> ->].
    rewrite (align4_place k a Ha). pose proof O2 as (? & ? & _). rewrite u32_small by ulia.
    apply wp_assoc. wp_step. eapply wp_mono; [by apply (wp_push_string f1 v1 k a)|]. intros [] v2 (f2 & S2 & P2 & E2).
    apply wp_ret. exists k. split; [lia|]. split_and!; [lia|done|lia|]. exists f2. split_and!; [done|done|].
    intros x H1 H2. rewrite E2 by done. by apply E1.
Qed.

(** Where the array of pointers goes. *)
Definition array_at : Z := top - args_size args - 4 * (n + 1).

Lemma array_ok : array_at mod 4 = 0 ∧ 12 <= array_at ∧ array_at + 4 * (n + 1) <= top ∧ array_at + 4 * (n + 1) = place top args 0.
Proof.
  pose proof stack_bounds as H. pose proof (lo_top L). pose proof (args_size_ok args). unfold stack_need, array_at, place in *.
  rewrite drop_0. split_and!; lia.
Qed.

Lemma align4_array : align4 (u32 (place top args 0 - u32 (4 * (n + 1)))) = array_at.
Proof.
  pose proof array_ok. pose proof stack_bounds. rewrite (u32_small (4 * (n + 1))) by ulia.
  rewrite u32_small by ulia. rewrite align4_mod by ulia. lia.
Qed.

Lemma stack_part lo hi : array_at - 12 <= lo → hi <= top → object lo hi STACK.
Proof. intros H1 H2. eapply object_sub; [apply (lo_stack L)| |done]. unfold array_at, stack_need in *. lia. Qed.

(** A word of the frame: a local is stored on the stack below what is there. *)
Lemma wp_copy_word f v a sp k :
  sees mapped h vm v f → object a (a + 4) k → k ≠ STACK → k ≠ 0 → array_at - 12 <= sp → sp + 4 <= top →
  wp (vmspace_copy_to h h sp a 4) v (λ _ v', sees mapped h vm v' (moved f sp a 4)).
Proof.
  intros Sv O Hk Hz H1 H2. pose proof (stack_part sp (sp + 4) H1 H2) as Os. pose proof O as (? & ? & _). pose proof Os as (? & ? & _).
  apply wp_copied; [done|by apply (object_within _ _ _ Os)|by apply (object_within _ _ _ O)| |ulia|ulia|lia|lia|lia].
  eapply object_disjoint; [|lia|lia|exact Os|exact O]. done.
Qed.

(** The memory after the last copy, from the one the loop left. *)
Definition finished f : Z → Z :=
  let f2 := put32 f (ptrs + 4 * n) 0 in
  let f3 := put32 f2 (l_argv_array_base l) array_at in
  let f4 := moved f3 array_at ptrs (4 * (n + 1)) in
  let f5 := put32 f4 (l_null_env l) 0 in
  let f6 := moved f5 (array_at - 4) (l_null_env l) 4 in
  let f7 := moved f6 (array_at - 8) (l_argv_array_base l) 4 in
  moved f7 (array_at - 12) (l_argc l) 4.

Lemma stack_word d m : array_at - 12 <= d → d + m <= top → object d (d + m) STACK.
Proof. intros. by apply stack_part. Qed.

(** Reading [finished] at a byte that is in none of the objects written, or at
    a known place of the frame. *)
Ltac skip O := first
  [ rewrite (moved_other _ _ _ _ STACK) by first [apply stack_word; lia | apply (object_ne _ _ _ _ _ O); [done|lia]]
  | rewrite (put32_other _ _ _ ENV) by first [apply (lo_env L) | apply (object_ne _ _ _ _ _ O); [done|lia]]
  | rewrite (put32_other _ _ _ BASE) by first [apply (lo_base L) | apply (object_ne _ _ _ _ _ O); [done|lia]]
  | rewrite (put32_other _ _ _ PTRS) by first
      [apply (object_sub _ _ _ _ _ (lo_ptrs L)); lia | apply (object_ne _ _ _ _ _ O); [done|lia]] ].

Lemma finished_frame f :
  word (finished f) (array_at - 12) = word f (l_argc l) ∧
  word (finished f) (array_at - 8) = array_at ∧
  word (finished f) (array_at - 4) = 0.
Proof.
  pose proof array_ok as (_ & HA & HB & _). pose proof stack_bounds as HS. assert (is_u32 array_at) as Hu by ulia. split_and!.
  - apply word_ext. intros x Hx. unfold finished. rewrite moved_in by lia. pose proof (lo_argc L) as O.
    replace (l_argc l + (array_at - 12 + x - (array_at - 12))) with (l_argc l + x) by lia. repeat skip O. done.
  - etrans; [|apply (word_put32 (put32 f (ptrs + 4 * n) 0) (l_argv_array_base l) array_at Hu)]. apply word_ext. intros x Hx.
    unfold finished. rewrite moved_out by lia. rewrite moved_in by lia. pose proof (lo_base L) as O.
    replace (l_argv_array_base l + (array_at - 8 + x - (array_at - 8))) with (l_argv_array_base l + x) by lia. do 3 skip O. done.
  - etrans; [|apply (word_put32 f (l_null_env l) 0); done]. apply word_ext. intros x Hx.
    unfold finished. do 2 rewrite moved_out by lia. rewrite moved_in by lia.
    replace (l_null_env l + (array_at - 4 + x - (array_at - 4))) with (l_null_env l + x) by lia. by rewrite !put32_in by lia.
Qed.

Lemma finished_array f i : 0 <= i < n → word (finished f) (array_at + 4 * i) = word f (ptrs + 4 * i).
Proof.
  intros Hi. pose proof array_ok as (_ & HA & HB & _). pose proof stack_bounds as HS. apply word_ext. intros x Hx. unfold finished.
  do 3 rewrite moved_out by lia.
  rewrite (put32_other _ _ _ ENV) by first [apply (lo_env L)|apply (object_ne _ _ _ _ _ (stack_word (array_at + 4 * i) 4 ltac:(lia) ltac:(lia))); [done|lia]].
  rewrite moved_in by lia. replace (ptrs + (array_at + 4 * i + x - array_at)) with (ptrs + 4 * i + x) by lia.
  rewrite (put32_other _ _ _ BASE) by first [apply (lo_base L)|apply (object_ne _ _ _ _ _ (lo_ptrs L)); [done|lia]].
  by rewrite put32_out by lia.
Qed.

Lemma finished_end f : word (finished f) (array_at + 4 * n) = 0.
Proof.
  pose proof array_ok as (_ & HA & HB & _). pose proof stack_bounds as HS.
  etrans; [|apply (word_put32 f (ptrs + 4 * n) 0); done]. apply word_ext. intros x Hx. unfold finished.
  do 3 rewrite moved_out by lia.
  rewrite (put32_other _ _ _ ENV) by first [apply (lo_env L)|apply (object_ne _ _ _ _ _ (stack_word (array_at + 4 * n) 4 ltac:(lia) ltac:(lia))); [done|lia]].
  rewrite moved_in by lia. replace (ptrs + (array_at + 4 * n + x - array_at)) with (ptrs + 4 * n + x) by lia.
  by rewrite (put32_other _ _ _ BASE) by first [apply (lo_base L)|apply (object_ne _ _ _ _ _ (lo_ptrs L)); [done|lia]].
Qed.

Lemma finished_strings f x : place top args 0 <= x < top → finished f x = f x.
Proof.
  intros Hx. pose proof array_ok as (_ & HA & HB & HC). pose proof stack_bounds as HS. unfold finished.
  pose proof (stack_word x 1 ltac:(lia) ltac:(lia)) as O. do 3 rewrite moved_out by lia. rewrite (put32_other _ _ _ ENV)
    by first [apply (lo_env L)|apply (object_ne _ _ _ _ _ O); [done|lia]].
  rewrite moved_out by lia. do 2 skip O. done.
Qed.

Lemma wp_finish_args f v :
  sees mapped h vm v f →
  wp (kst32 (ptrs + 4 * n) 0 ;;
      let ptr_array_size := u32 (4 * (n + 1)) in
      let user_sp := align4 (u32 (place top args 0 - ptr_array_size)) in
      kst32 (l_argv_array_base l) user_sp ;;
      vmspace_copy_to h h user_sp ptrs ptr_array_size ;;
      kst32 (l_null_env l) 0 ;;
      let user_sp := u32 (user_sp - 4) in
      vmspace_copy_to h h user_sp (l_null_env l) 4 ;;
      let user_sp := u32 (user_sp - 4) in
      vmspace_copy_to h h user_sp (l_argv_array_base l) 4 ;;
      let user_sp := u32 (user_sp - 4) in
      vmspace_copy_to h h user_sp (l_argc l) 4 ;;
      ret user_sp) v (λ sp v', sp = array_at - 12 ∧ sees mapped h vm v' (finished f)).
Proof.
  intros Sv. pose proof array_ok as (_ & HA & HB & _). pose proof stack_bounds as HS.
  pose proof (lo_ptrs L) as Op. pose proof (stack_word array_at (4 * (n + 1)) ltac:(lia) ltac:(lia)) as Os.
  assert (object (ptrs + 4 * n) (ptrs + 4 * n + 4) PTRS) as Oe by (apply (object_sub _ _ _ _ _ Op); lia).
  pose proof Op as (? & ? & _). cbn zeta. rewrite align4_array. rewrite (u32_small (4 * (n + 1))) by ulia.
  replace (u32 (array_at - 4)) with (array_at - 4) by (rewrite u32_small; ulia).
  replace (u32 (array_at - 4 - 4)) with (array_at - 8) by (rewrite u32_small; ulia).
  replace (u32 (array_at - 8 - 4)) with (array_at - 12) by (rewrite u32_small; ulia).
  wp_step. eapply wp_mono; [apply (wp_kst32 _ _ _ _ _ _ _ Sv), (object_within _ _ _ Oe); done|].
  intros [] v2 S2. wp_step. eapply wp_mono; [apply (wp_kst32 _ _ _ _ _ _ _ S2), (object_within _ _ _ (lo_base L)); done|].
  intros [] v3 S3. wp_step. eapply wp_mono; [apply (wp_copied _ _ _ _ _ _ _ _ S3);
    [by apply (object_within _ _ _ Os)|by apply (object_within _ _ _ Op)| |ulia|ulia|lia|lia|lia]|].
  { eapply object_disjoint; [|lia|lia|exact Os|exact Op]. done. }
  intros r4 v4 S4. wp_step. eapply wp_mono; [apply (wp_kst32 _ _ _ _ _ _ _ S4), (object_within _ _ _ (lo_env L)); done|].
  intros [] v5 S5. wp_step. eapply wp_mono; [apply (wp_copy_word _ _ _ (array_at - 4) ENV S5 (lo_env L)); (done || lia)|].
  intros r6 v6 S6. wp_step. eapply wp_mono; [apply (wp_copy_word _ _ _ (array_at - 8) BASE S6 (lo_base L)); (done || lia)|].
  intros r7 v7 S7. wp_step. eapply wp_mono; [apply (wp_copy_word _ _ _ (array_at - 12) ARGC S7 (lo_argc L)); (done || lia)|].
  intros r8 v8 S8. apply wp_ret. split; [done|exact S8].
Qed.

(** C19: The stack [sys_execve] gives to a program. Whatever the number and the
    lengths of the arguments, as long as they fit, the program finds at its
    stack pointer, which is a multiple of 4, the number of arguments, a pointer
    to an array of that many pointers and a null one, and an empty
    environment; the [i]th pointer of the array leads to the bytes of the [i]th
    argument and a zero. The kernel's own copies are not changed. *)
Theorem exec_stack_layout f v :
  sees mapped h vm v f → kernel_args f → Forall (λ a : buf, (length a < string_fuel)%nat) args →
  wp (setup_user_stack_args h h l top n argv) v (λ sp v', sp = top - stack_need ∧ sp mod 4 = 0 ∧ ∃ g,
    (∀ x, obj x ≠ 0 → reads vm (mem v') x = Some (g x)) ∧
    word g sp = n ∧
    word g (sp + 8) = 0 ∧
    (∀ i a, args !! i = Some a → cstr g (word g (word g (sp + 4) + 4 * Z.of_nat i)) a) ∧
    word g (word g (sp + 4) + 4 * n) = 0 ∧
    (∀ x, obj x = ARGS → g x = f x)).
Proof.
  intros Sv A Hf. unfold setup_user_stack_args. pose proof array_ok as (HA & HA' & HB & HC). pose proof stack_bounds as HS.
  wp_step. eapply wp_mono; [apply (wp_kst32 _ _ _ _ _ _ _ Sv), (object_within _ _ _ (lo_argc L)); done|]. intros [] v0 S0.
  assert (∀ x, obj x ≠ ARGC → put32 f (l_argc l) n x = f x) as E0 by (intros x Hx; by apply (put32_other _ _ _ ARGC), Hx; apply L).
  assert (kernel_args (put32 f (l_argc l) n)) as A0 by (apply (kernel_args_ext f); [intros x Hx; apply E0; by rewrite Hx|done]).
  wp_step. eapply wp_mono; [by apply (wp_push_strings _ _ S0 A0)|]. intros sp v1 (-> & f1 & S1 & P1 & E1).
  eapply wp_mono; [by apply (wp_finish_args f1)|]. intros sp v2 [-> S2]. destruct (finished_frame f1) as (F1 & F2 & F3).
  split; [unfold stack_need, array_at; lia|]. split; [lia|]. exists (finished f1).
  replace (array_at - 12 + 8) with (array_at - 4) by lia. replace (array_at - 12 + 4) with (array_at - 8) by lia. rewrite F2.
  split_and!; [|rewrite F1|done| |apply finished_end|].
  - intros x Hx. destruct S2 as [Y S2]. rewrite reads_data; [|apply Y|by apply S2]. f_equal. by apply (se_byte _ _ _ _ S2).
  - etrans; [|apply (word_put32 f (l_argc l) n); ulia]. apply word_ext. intros x Hx.
    apply E1; apply (object_ne _ _ _ _ _ (lo_argc L)); (done || lia).
  - intros i a Ha. pose proof (lookup_lt_Some _ _ _ Ha). destruct (P1 i a ltac:(lia) Ha) as [Hw Hc].
    rewrite finished_array by (unfold n; lia). rewrite Hw. pose proof (place_step top args i a Ha). pose proof (proj1 (cell_ok a)).
    pose proof (place_mono top args 0 i ltac:(lia)). pose proof (proj1 (place_range (S i))).
    eapply cstr_ext; [|exact Hc]. intros x Hx. apply finished_strings. lia.
  - intros x Hx. assert (obj x ≠ STACK ∧ obj x ≠ PTRS ∧ obj x ≠ ENV ∧ obj x ≠ BASE ∧ obj x ≠ ARGC) as (H1 & H2 & H3 & H4 & H5) by (by rewrite Hx).
    unfold finished. repeat first [rewrite (moved_other _ _ _ _ STACK) by first [done|apply stack_word; lia]
      |rewrite (put32_other _ _ _ ENV) by first [done|apply L]|rewrite (put32_other _ _ _ BASE) by first [done|apply L]
      |rewrite (put32_other _ _ _ PTRS) by first [done|apply (object_sub _ _ _ _ _ (lo_ptrs L)); lia]]. rewrite E1, E0 by done. done.
Qed.
End args.

(* ------------------------------------------------------------------ *)
(** ** Witness *)

Lemma seen_list `{FA : FrameAllocator St} (R : Z → Prop) vm (s : vmst St) xs :
  (∀ a, R a → a ∈ xs) → forallb (λ a, data_atb s vm a && negb (a / 4096 =? KMAPPING_PAGE)) xs = true →
  NoDup (phys s vm <$> xs) → seen R vm s (λ a, pbyte s (phys s vm a)).
Proof.
  intros Hx Hb Hn. rewrite forallb_forall in Hb. split; [| |done].
  - intros a Ha. pose proof (Hb a (proj1 (list_elem_of_In _ _) (Hx a Ha))) as H. apply andb_true_iff in H as [H1 H2].
    split; [by apply data_atb_ok|blia].
  - intros a b Ha Hb' E. apply Hx in Ha, Hb'. apply list_elem_of_lookup in Ha as [i Hi]. apply list_elem_of_lookup in Hb' as [j Hj].
    assert (i = j) as ->; [|congruence].
    apply (NoDup_lookup _ i j (phys s vm a) Hn); rewrite list_lookup_fmap; [by rewrite Hi|rewrite Hj; cbn; by rewrite E].
Qed.

(** The arguments [ls -l] in a kernel page, the locals in another, and a page
    of user stack. *)
Definition demo_exec_memory : vmst pmm := Vmst demo_taken (words_of
  [(8192 + 4 * 1, 12288 + 7); (8192 + 4 * 960, 28672 + 3); (12288 + 4 * 6, 49152 + 7);
   (28672 + 4 * 16, 32768 + 3); (28672 + 4 * 17, 36864 + 3);
   (32768, 4026597388); (32772, 4026597392); (32780, 29548); (32784, 27693)]) 65536.
Definition demo_stack_vms : vms pmm :=
  Vms demo_exec_memory ∅ {[ 1 := demo_user ]} ∅ 0 8192 2 [] (Spinlock 0 false, true).
Definition demo_locals : locals := Locals 4026601472 4026601484 4026601488 4026601492.
Definition demo_args : list buf := [[108; 115]; [45; 108]].

Definition demo_obj (x : Z) : Z :=
  if (4026597376 <=? x) && (x <? 4026597396) then ARGS
  else if (4026601472 <=? x) && (x <? 4026601484) then PTRS
  else if (4026601484 <=? x) && (x <? 4026601488) then ENV
  else if (4026601488 <=? x) && (x <? 4026601492) then BASE
  else if (4026601492 <=? x) && (x <? 4026601496) then ARGC
  else if (4222944 <=? x) && (x <? 4222976) then STACK else 0.
Definition demo_bytes : list Z := seqZ 4026597376 20 ++ seqZ 4026601472 24 ++ seqZ 4222944 32.
Definition demo_view (a : Z) : Z := pbyte demo_exec_memory (phys demo_exec_memory demo_user a).

Lemma demo_object lo n k : (0 <=? lo) && (lo + n <? 4294967296) && below n (λ i, demo_obj (lo + i) =? k) = true → object demo_obj lo (lo + n) k.
Proof.
  rewrite !andb_true_iff. intros [[H1 H2] H3]. split_and!; [by apply Z.leb_le|by apply Z.ltb_lt|]. intros x Hx.
  pose proof (below_ok _ _ H3 (x - lo) ltac:(lia)) as H. cbn beta in H. replace (lo + (x - lo)) with x in H by lia. by apply Z.eqb_eq.
Qed.

Lemma demo_sees : sees (λ x, demo_obj x ≠ 0) 1 demo_user demo_stack_vms demo_view.
Proof.
  assert (mem_ok demo_exec_memory) as Mm.
  { destruct demo_copy_memory_ok as [H1 H2 _]. split; [exact H1|exact H2|]. apply words_of_u32. repeat constructor; vm_compute; discriminate. }
  split.
  - split; [split; [discriminate|reflexivity]|reflexivity| |vm_compute; reflexivity|reflexivity].
    apply vm_okb_ok; [exact Mm|]. vm_compute. reflexivity.
  - apply (seen_list _ _ _ demo_bytes).
    + intros a Ha. unfold demo_bytes. rewrite !elem_of_app, !elem_of_seqZ. unfold demo_obj in Ha.
      repeat (case_match eqn:E; [apply andb_true_iff in E as [?%Z.leb_le ?%Z.ltb_lt]; lia|clear E]). done.
    + vm_compute. reflexivity.
    + apply (bool_decide_unpack _). vm_compute. exact I.
Qed.

Lemma demo_laid_out : laid_out demo_obj demo_locals 4222976 demo_args.
Proof.
  split; [reflexivity|..].
  - by apply (demo_object 4222944 32).
  - by apply (demo_object 4026601472 12).
  - by apply (demo_object 4026601484 4).
  - by apply (demo_object 4026601488 4).
  - by apply (demo_object 4026601492 4).
Qed.

Lemma demo_kernel_args : kernel_args demo_obj 4026597376 demo_args demo_view.
Proof.
  intros [|[|i]] a Ha; [..|by destruct i]; injection Ha as <-.
  - assert (word demo_view 4026597376 = 4026597388) as E by (vm_compute; reflexivity). change (4026597376 + 4 * Z.of_nat 0) with 4026597376. rewrite E.
    split_and!; [by apply (demo_object 4026597376 4)|by apply (demo_object 4026597388 3)|].
    split; [|vm_compute; reflexivity]. intros [|[|i]] c Hc; [..|by destruct i]; injection Hc as <-; vm_compute; split; [reflexivity|discriminate| reflexivity|discriminate].
  - assert (word demo_view 4026597380 = 4026597392) as E by (vm_compute; reflexivity). change (4026597376 + 4 * Z.of_nat 1) with 4026597380. rewrite E.
    split_and!; [by apply (demo_object 4026597380 4)|by apply (demo_object 4026597392 3)|].
    split; [|vm_compute; reflexivity]. intros [|[|i]] c Hc; [..|by destruct i]; injection Hc as <-; vm_compute; split; [reflexivity|discriminate| reflexivity|discriminate].
Qed.

Lemma demo_args_short : Forall (λ a : buf, (length a < string_fuel)%nat) demo_args.
Proof. unfold demo_args, string_fuel, copy_fuel. apply Forall_cons_2; [cbn [length]; lia|]. apply Forall_cons_2; [cbn [length]; lia|]. apply Forall_nil_2. Qed.

(** The program finds [argc = 2] and [-l] behind the second pointer. *)
Lemma exec_stack_layout_witness : ∃ v' g,
  setup_user_stack_args 1 1 demo_locals 4222976 2 4026597376 demo_stack_vms = Some (4222944, v') ∧
  (∀ x, demo_obj x ≠ 0 → reads demo_user (mem v') x = Some (g x)) ∧
  word g 4222944 = 2 ∧ cstr g (word g (word g 4222948 + 4)) [45; 108].
Proof.
  destruct (wp_elim _ _ _ (exec_stack_layout demo_obj 1 demo_user demo_locals 4222976 4026597376 demo_args demo_laid_out
    demo_view demo_stack_vms demo_sees demo_kernel_args
    demo_args_short)) as (sp & v' & E & -> & _ & g & Hr & H1 & _ & Ha & _).
  exists v', g. split; [exact E|]. split; [exact Hr|]. split; [exact H1|]. exact (Ha 1%nat _ eq_refl).
Defined.
