(* ===== verification/Vi.v ===== *)
(** * The editor

    [userland/user_src/vi/vi.c]: the text of the editor, its cursor, the undo
    stack, search, files, the three modes and the picture it draws. Every line
    is a string of its own, so the text is a list of byte lists; reading or
    writing a line outside of its string and its end is a fault. The keyboard
    is a list of events, files are a map from names to contents, and what is
    written to the terminal is kept. *)

From stdpp Require Import strings.
From S2P Require Import Prelude.

Definition MAX_LINE_LEN : Z := 4096.
Definition UNDO_DEPTH : Z := 100.
Definition TAB_STOP : Z := 8.

(** The bytes of a string literal. *)
Definition bytes (s : string) : list Z := (λ c, Z.of_N (Ascii.N_of_ascii c)) <$> String.list_ascii_of_string s.
(** [%d]: an [int] has at most ten digits. *)
Fixpoint dec_digits (n : nat) (x : Z) (out : list Z) : list Z :=
  match n with
  | O => out
  | S n => let out := (48 + x mod 10) :: out in if x <? 10 then out else dec_digits n (x / 10) out
  end.
Definition dec (x : Z) : list Z := if x <? 0 then 45 :: dec_digits 10 (- x) [] else dec_digits 10 x [].

(** What [read] of one byte returns: the byte, nothing before the timeout, or
    an error. *)
Inductive event := Byte (b : Z) | Quiet | Broken.

(** [Editor], the pending keys of the normal mode, and the world outside: the
    files, the keys to come and the terminal. An unused undo slot has no lines. *)
Record Editor := Ed {
  e_lines : list (list Z);
  cx : Z;
  cy : Z;
  rx : Z;
  rowoff : Z;
  coloff : Z;
  screenrows : Z;
  screencols : Z;
  mode : Z;
  filename : list Z;
  dirty : bool;
  status : list Z;
  cmdbuf : list Z;
  cmdlen : Z;
  undo_stack : list (option (list (list Z)));
  undo_top : Z;
  search : list Z;
  search_dir : Z;
  yank_line : option (list Z);
  g_pending : bool;
  d_pending : bool;
  y_pending : bool;
  count_buf : Z;
  files : gmap (list Z) (list Z);
  input : list event;
  output : list Z
}.

Definition set_e_lines v (e : Editor) : Editor := Ed
  v (cx e) (cy e) (rx e) (rowoff e) (coloff e) (screenrows e) (screencols e) (mode e) (filename e) (dirty e)
  (status e) (cmdbuf e) (cmdlen e) (undo_stack e) (undo_top e) (search e) (search_dir e) (yank_line e) (g_pending e)
  (d_pending e) (y_pending e) (count_buf e) (files e) (input e) (output e).
Definition set_cx v (e : Editor) : Editor := Ed
  (e_lines e) v (cy e) (rx e) (rowoff e) (coloff e) (screenrows e) (screencols e) (mode e) (filename e) (dirty e)
  (status e) (cmdbuf e) (cmdlen e) (undo_stack e) (undo_top e) (search e) (search_dir e) (yank_line e) (g_pending e)
  (d_pending e) (y_pending e) (count_buf e) (files e) (input e) (output e).
Definition set_cy v (e : Editor) : Editor := Ed
  (e_lines e) (cx e) v (rx e) (rowoff e) (coloff e) (screenrows e) (screencols e) (mode e) (filename e) (dirty e)
  (status e) (cmdbuf e) (cmdlen e) (undo_stack e) (undo_top e) (search e) (search_dir e) (yank_line e) (g_pending e)
  (d_pending e) (y_pending e) (count_buf e) (files e) (input e) (output e).
Definition set_rx v (e : Editor) : Editor := Ed
  (e_lines e) (cx e) (cy e) v (rowoff e) (coloff e) (screenrows e) (screencols e) (mode e) (filename e) (dirty e)
  (status e) (cmdbuf e) (cmdlen e) (undo_stack e) (undo_top e) (search e) (search_dir e) (yank_line e) (g_pending e)
  (d_pending e) (y_pending e) (count_buf e) (files e) (input e) (output e).
Definition set_rowoff v (e : Editor) : Editor := Ed
  (e_lines e) (cx e) (cy e) (rx e) v (coloff e) (screenrows e) (screencols e) (mode e) (filename e) (dirty e)
  (status e) (cmdbuf e) (cmdlen e) (undo_stack e) (undo_top e) (search e) (search_dir e) (yank_line e) (g_pending e)
  (d_pending e) (y_pending e) (count_buf e) (files e) (input e) (output e).
Definition set_coloff v (e : Editor) : Editor := Ed
  (e_lines e) (cx e) (cy e) (rx e) (rowoff e) v (screenrows e) (screencols e) (mode e) (filename e) (dirty e)
  (status e) (cmdbuf e) (cmdlen e) (undo_stack e) (undo_top e) (search e) (search_dir e) (yank_line e) (g_pending e)
  (d_pending e) (y_pending e) (count_buf e) (files e) (input e) (output e).
Definition set_screenrows v (e : Editor) : Editor := Ed
  (e_lines e) (cx e) (cy e) (rx e) (rowoff e) (coloff e) v (screencols e) (mode e) (filename e) (dirty e) (status e)
  (cmdbuf e) (cmdlen e) (undo_stack e) (undo_top e) (search e) (search_dir e) (yank_line e) (g_pending e)
  (d_pending e) (y_pending e) (count_buf e) (files e) (input e) (output e).
Definition set_screencols v (e : Editor) : Editor := Ed
  (e_lines e) (cx e) (cy e) (rx e) (rowoff e) (coloff e) (screenrows e) v (mode e) (filename e) (dirty e) (status e)
  (cmdbuf e) (cmdlen e) (undo_stack e) (undo_top e) (search e) (search_dir e) (yank_line e) (g_pending e)
  (d_pending e) (y_pending e) (count_buf e) (files e) (input e) (output e).
Definition set_mode v (e : Editor) : Editor := Ed
  (e_lines e) (cx e) (cy e) (rx e) (rowoff e) (coloff e) (screenrows e) (screencols e) v (filename e) (dirty e)
  (status e) (cmdbuf e) (cmdlen e) (undo_stack e) (undo_top e) (search e) (search_dir e) (yank_line e) (g_pending e)
  (d_pending e) (y_pending e) (count_buf e) (files e) (input e) (output e).
Definition set_filename v (e : Editor) : Editor := Ed
  (e_lines e) (cx e) (cy e) (rx e) (rowoff e) (coloff e) (screenrows e) (screencols e) (mode e) v (dirty e)
  (status e) (cmdbuf e) (cmdlen e) (undo_stack e) (undo_top e) (search e) (search_dir e) (yank_line e) (g_pending e)
  (d_pending e) (y_pending e) (count_buf e) (files e) (input e) (output e).
Definition set_dirty v (e : Editor) : Editor := Ed
  (e_lines e) (cx e) (cy e) (rx e) (rowoff e) (coloff e) (screenrows e) (screencols e) (mode e) (filename e) v
  (status e) (cmdbuf e) (cmdlen e) (undo_stack e) (undo_top e) (search e) (search_dir e) (yank_line e) (g_pending e)
  (d_pending e) (y_pending e) (count_buf e) (files e) (input e) (output e).
Definition set_status v (e : Editor) : Editor := Ed
  (e_lines e) (cx e) (cy e) (rx e) (rowoff e) (coloff e) (screenrows e) (screencols e) (mode e) (filename e)
  (dirty e) v (cmdbuf e) (cmdlen e) (undo_stack e) (undo_top e) (search e) (search_dir e) (yank_line e)
  (g_pending e) (d_pending e) (y_pending e) (count_buf e) (files e) (input e) (output e).
Definition set_cmdbuf v (e : Editor) : Editor := Ed
  (e_lines e) (cx e) (cy e) (rx e) (rowoff e) (coloff e) (screenrows e) (screencols e) (mode e) (filename e)
  (dirty e) (status e) v (cmdlen e) (undo_stack e) (undo_top e) (search e) (search_dir e) (yank_line e)
  (g_pending e) (d_pending e) (y_pending e) (count_buf e) (files e) (input e) (output e).
Definition set_cmdlen v (e : Editor) : Editor := Ed
  (e_lines e) (cx e) (cy e) (rx e) (rowoff e) (coloff e) (screenrows e) (screencols e) (mode e) (filename e)
  (dirty e) (status e) (cmdbuf e) v (undo_stack e) (undo_top e) (search e) (search_dir e) (yank_line e)
  (g_pending e) (d_pending e) (y_pending e) (count_buf e) (files e) (input e) (output e).
Definition set_undo_stack v (e : Editor) : Editor := Ed
  (e_lines e) (cx e) (cy e) (rx e) (rowoff e) (coloff e) (screenrows e) (screencols e) (mode e) (filename e)
  (dirty e) (status e) (cmdbuf e) (cmdlen e) v (undo_top e) (search e) (search_dir e) (yank_line e) (g_pending e)
  (d_pending e) (y_pending e) (count_buf e) (files e) (input e) (output e).
Definition set_undo_top v (e : Editor) : Editor := Ed
  (e_lines e) (cx e) (cy e) (rx e) (rowoff e) (coloff e) (screenrows e) (screencols e) (mode e) (filename e)
  (dirty e) (status e) (cmdbuf e) (cmdlen e) (undo_stack e) v (search e) (search_dir e) (yank_line e) (g_pending e)
  (d_pending e) (y_pending e) (count_buf e) (files e) (input e) (output e).
Definition set_search v (e : Editor) : Editor := Ed
  (e_lines e) (cx e) (cy e) (rx e) (rowoff e) (coloff e) (screenrows e) (screencols e) (mode e) (filename e)
  (dirty e) (status e) (cmdbuf e) (cmdlen e) (undo_stack e) (undo_top e) v (search_dir e) (yank_line e)
  (g_pending e) (d_pending e) (y_pending e) (count_buf e) (files e) (input e) (output e).
Definition set_search_dir v (e : Editor) : Editor := Ed
  (e_lines e) (cx e) (cy e) (rx e) (rowoff e) (coloff e) (screenrows e) (screencols e) (mode e) (filename e)
  (dirty e) (status e) (cmdbuf e) (cmdlen e) (undo_stack e) (undo_top e) (search e) v (yank_line e) (g_pending e)
  (d_pending e) (y_pending e) (count_buf e) (files e) (input e) (output e).
Definition set_yank_line v (e : Editor) : Editor := Ed
  (e_lines e) (cx e) (cy e) (rx e) (rowoff e) (coloff e) (screenrows e) (screencols e) (mode e) (filename e)
  (dirty e) (status e) (cmdbuf e) (cmdlen e) (undo_stack e) (undo_top e) (search e) (search_dir e) v (g_pending e)
  (d_pending e) (y_pending e) (count_buf e) (files e) (input e) (output e).
Definition set_g_pending v (e : Editor) : Editor := Ed
  (e_lines e) (cx e) (cy e) (rx e) (rowoff e) (coloff e) (screenrows e) (screencols e) (mode e) (filename e)
  (dirty e) (status e) (cmdbuf e) (cmdlen e) (undo_stack e) (undo_top e) (search e) (search_dir e) (yank_line e) v
  (d_pending e) (y_pending e) (count_buf e) (files e) (input e) (output e).
Definition set_d_pending v (e : Editor) : Editor := Ed
  (e_lines e) (cx e) (cy e) (rx e) (rowoff e) (coloff e) (screenrows e) (screencols e) (mode e) (filename e)
  (dirty e) (status e) (cmdbuf e) (cmdlen e) (undo_stack e) (undo_top e) (search e) (search_dir e) (yank_line e)
  (g_pending e) v (y_pending e) (count_buf e) (files e) (input e) (output e).
Definition set_y_pending v (e : Editor) : Editor := Ed
  (e_lines e) (cx e) (cy e) (rx e) (rowoff e) (coloff e) (screenrows e) (screencols e) (mode e) (filename e)
  (dirty e) (status e) (cmdbuf e) (cmdlen e) (undo_stack e) (undo_top e) (search e) (search_dir e) (yank_line e)
  (g_pending e) (d_pending e) v (count_buf e) (files e) (input e) (output e).
Definition set_count_buf v (e : Editor) : Editor := Ed
  (e_lines e) (cx e) (cy e) (rx e) (rowoff e) (coloff e) (screenrows e) (screencols e) (mode e) (filename e)
  (dirty e) (status e) (cmdbuf e) (cmdlen e) (undo_stack e) (undo_top e) (search e) (search_dir e) (yank_line e)
  (g_pending e) (d_pending e) (y_pending e) v (files e) (input e) (output e).
Definition set_files v (e : Editor) : Editor := Ed
  (e_lines e) (cx e) (cy e) (rx e) (rowoff e) (coloff e) (screenrows e) (screencols e) (mode e) (filename e)
  (dirty e) (status e) (cmdbuf e) (cmdlen e) (undo_stack e) (undo_top e) (search e) (search_dir e) (yank_line e)
  (g_pending e) (d_pending e) (y_pending e) (count_buf e) v (input e) (output e).
Definition set_input v (e : Editor) : Editor := Ed
  (e_lines e) (cx e) (cy e) (rx e) (rowoff e) (coloff e) (screenrows e) (screencols e) (mode e) (filename e)
  (dirty e) (status e) (cmdbuf e) (cmdlen e) (undo_stack e) (undo_top e) (search e) (search_dir e) (yank_line e)
  (g_pending e) (d_pending e) (y_pending e) (count_buf e) (files e) v (output e).
Definition set_output v (e : Editor) : Editor := Ed
  (e_lines e) (cx e) (cy e) (rx e) (rowoff e) (coloff e) (screenrows e) (screencols e) (mode e) (filename e)
  (dirty e) (status e) (cmdbuf e) (cmdlen e) (undo_stack e) (undo_top e) (search e) (search_dir e) (yank_line e)
  (g_pending e) (d_pending e) (y_pending e) (count_buf e) (files e) (input e) v.

Definition upd {A} (set : A → Editor → Editor) (v : A) : M Editor unit := modify (set v).
Definition set_msg (s : list Z) : M Editor unit := upd set_status (take 255 s).

(* ------------------------------------------------------------------ *)
(** ** Keys *)

Definition KEY_ESC : Z := 27.
Definition KEY_UP : Z := 1000.
Definition KEY_DOWN : Z := 1001.
Definition KEY_LEFT : Z := 1002.
Definition KEY_RIGHT : Z := 1003.
Definition KEY_DEL : Z := 1004.
Definition KEY_HOME : Z := 1005.
Definition KEY_END : Z := 1006.
Definition KEY_PGUP : Z := 1007.
Definition KEY_PGDN : Z := 1008.
Definition KEY_BACKSPACE : Z := 127.
Definition KEY_CTRL_H : Z := 8.

(** A key, no more input for now, or the end of the program by [die]. *)
Inductive key_result := Key (k : Z) | Blocked | Died.

(** The loop that waits for the first byte. *)
Fixpoint first_byte (l : list event) : option Z * bool * list event :=
  match l with
  | Byte b :: l => (Some b, false, l)
  | Quiet :: l => first_byte l
  | Broken :: l => (None, true, l)
  | [] => (None, false, [])
  end.

(** One more [read]: a byte, if there is one. *)
Definition next_byte : M Editor (option Z) :=
  l ← gets input;
  match l with
  | Byte b :: l => upd set_input l ;; ret (Some b)
  | _ :: l => upd set_input l ;; ret None
  | [] => ret None
  end.

Definition tilde_key (c : Z) : Z :=
  if (c =? 49) || (c =? 55) then KEY_HOME else if c =? 51 then KEY_DEL
  else if (c =? 52) || (c =? 56) then KEY_END else if c =? 53 then KEY_PGUP else if c =? 54 then KEY_PGDN else KEY_ESC.
Definition bracket_key (c : Z) : Z :=
  if c =? 65 then KEY_UP else if c =? 66 then KEY_DOWN else if c =? 67 then KEY_RIGHT else if c =? 68 then KEY_LEFT
  else if c =? 72 then KEY_HOME else if c =? 70 then KEY_END else KEY_ESC.

Definition read_key : M Editor key_result :=
  l ← gets input;
  match first_byte l with
  | (None, died, l) => upd set_input l ;; ret (if died then Died else Blocked)
  | (Some c, _, l) =>
      upd set_input l ;;
      if negb (c =? 27) then ret (Key c)
      else
        s0 ← next_byte;
        match s0 with
        | None => ret (Key KEY_ESC)
        | Some s0 =>
            s1 ← next_byte;
            match s1 with
            | None => ret (Key KEY_ESC)
            | Some s1 =>
                if s0 =? 91 then
                  if (48 <=? s1) && (s1 <=? 57) then
                    s2 ← next_byte;
                    ret (Key (if default 0 s2 =? 126 then tilde_key s1 else KEY_ESC))
                  else ret (Key (bracket_key s1))
                else if s0 =? 79 then
                  ret (Key (if s1 =? 72 then KEY_HOME else if s1 =? 70 then KEY_END else KEY_ESC))
                else ret (Key KEY_ESC)
            end
        end
  end.

(* ------------------------------------------------------------------ *)
(** ** The text *)

Definition count (e : Editor) : Z := Z.of_nat (length (e_lines e)).
Definition zlen {A} (l : list A) : Z := Z.of_nat (length l).

(** [E.buf.lines[y]] *)
Definition row (y : Z) : M Editor (list Z) :=
  b ← gets e_lines;
  if y <? 0 then fault else of_opt (b !! Z.to_nat y).

(** [line[x]], with the zero at the end. *)
Definition char_at (line : list Z) (x : Z) : M Editor Z :=
  if (0 <=? x) && (x <=? zlen line) then ret (default 0 (line !! Z.to_nat x)) else fault.

Definition buf_insert_line (at_ : Z) (txt : list Z) : M Editor unit :=
  b ← gets e_lines;
  assert_ ((0 <=? at_) && (at_ <=? zlen b)) ;;
  upd set_e_lines (take (Z.to_nat at_) b ++ txt :: drop (Z.to_nat at_) b).

Definition buf_delete_line (at_ : Z) : M Editor unit :=
  b ← gets e_lines;
  assert_ ((0 <=? at_) && (at_ <? zlen b)) ;;
  upd set_e_lines (take (Z.to_nat at_) b ++ drop (S (Z.to_nat at_)) b).

Definition buf_set_line (at_ : Z) (txt : list Z) : M Editor unit :=
  b ← gets e_lines;
  assert_ ((0 <=? at_) && (at_ <? zlen b)) ;;
  upd set_e_lines (<[Z.to_nat at_ := txt]> b).

(** [line[x] = c] in place; a zero ends the line there. *)
Definition put_char (y x c : Z) : M Editor unit :=
  line ← row y;
  assert_ ((0 <=? x) && (x <? zlen line + (if c =? 0 then 1 else 0))) ;;
  buf_set_line y (if c =? 0 then take (Z.to_nat x) line else <[Z.to_nat x := c]> line).

(* ------------------------------------------------------------------ *)
(** ** Undo *)

Definition undo_slot (top : Z) : nat := Z.to_nat (top mod UNDO_DEPTH).

Definition undo_push : M Editor unit :=
  top ← gets undo_top;
  b ← gets e_lines;
  st ← gets undo_stack;
  upd set_undo_stack (<[undo_slot top := Some b]> st) ;;
  upd set_undo_top (top + 1).

Definition undo_pop : M Editor unit :=
  top ← gets undo_top;
  if top =? 0 then set_msg (bytes "Already at oldest change")
  else
    upd set_undo_top (top - 1) ;;
    st ← gets undo_stack;
    upd set_e_lines (default [] (default None (st !! undo_slot (top - 1)))) ;;
    n ← gets count;
    y ← gets cy;
    let y := if n <=? y then n - 1 else y in
    upd set_cy (if y <? 0 then 0 else y) ;;
    upd set_dirty true ;;
    set_msg (bytes "Undo").

(* ------------------------------------------------------------------ *)
(** ** Files *)

(** [fgets] of at most [n] bytes: what it reads and what is left. *)
Fixpoint fgets (n : nat) (s : list Z) : list Z * list Z :=
  match n, s with
  | S n, c :: s => if c =? 10 then ([c], s) else let '(l, s) := fgets n s in (c :: l, s)
  | _, _ => ([], s)
  end.

Fixpoint until_zero (s : list Z) : list Z :=
  match s with [] => [] | c :: s => if c =? 0 then [] else c :: until_zero s end.

(** [if (len && line[len - 1] == c) line[--len] = '\0'] *)
Definition strip_last (c : Z) (s : list Z) : list Z :=
  if bool_decide (last s = Some c) then take (length s - 1) s else s.

(** The loop of [file_open]; a turn reads a byte at least. *)
Fixpoint read_lines (n : nat) (s : list Z) : list (list Z) :=
  match n, s with
  | S n, _ :: _ =>
      let '(l, s) := fgets (Z.to_nat (MAX_LINE_LEN - 1)) s in
      strip_last 13 (strip_last 10 (until_zero l)) :: read_lines n s
  | _, _ => []
  end.

Definition file_open (fname : list Z) : M Editor unit :=
  upd set_filename (take 255 fname) ;;
  fs ← gets files;
  match fs !! fname with
  | None => buf_insert_line 0 []
  | Some s =>
      for_each (read_lines (length s) s) (λ l, n ← gets count; buf_insert_line n l) ;;
      n ← gets count;
      when (n =? 0) (buf_insert_line 0 [])
  end.

Section save.
(** Whether [fopen] for writing succeeds. *)
Variable can_write : list Z → bool.

Definition file_save : M Editor bool :=
  name ← gets filename;
  match name with
  | [] => set_msg (bytes "No filename (use :w <file>)") ;; ret false
  | _ =>
      if negb (can_write name) then set_msg (bytes "Can't write: " ++ name) ;; ret false
      else
        b ← gets e_lines;
        fs ← gets files;
        upd set_files (<[name := concat ((λ l, l ++ [10]) <$> b)]> fs) ;;
        upd set_dirty false ;;
        set_msg ([34] ++ name ++ [34; 32] ++ dec (zlen b) ++ bytes "L written") ;;
        ret true
  end.
End save.

(* ------------------------------------------------------------------ *)
(** ** The cursor *)

Definition cur_line_len : M Editor Z :=
  y ← gets cy;
  n ← gets count;
  if n <=? y then ret 0 else l ← row y; ret (zlen l).

Definition clamp_cx : M Editor unit :=
  max ← cur_line_len;
  m ← gets mode;
  let max := if negb (m =? 1) && (0 <? max) then max - 1 else max in
  let max := if max <? 0 then 0 else max in
  x ← gets cx;
  let x := if max <? x then max else x in
  upd set_cx (if x <? 0 then 0 else x).

(** The column after [cx] characters, with tabs. *)
Definition tab_next (col : Z) : Z := col + (TAB_STOP - col mod TAB_STOP).
Definition cx_to_rx (line : list Z) (x : Z) : M Editor Z :=
  while_n (S (Z.to_nat x)) (λ '(i, r),
    if i <? x then
      c ← char_at line i;
      ret (inl (i + 1, if c =? 9 then tab_next r else r + 1))
    else ret (inr r)) (0, 0).

Definition scroll : M Editor unit :=
  y ← gets cy;
  n ← gets count;
  x ← gets cx;
  r ← (if y <? n then l ← row y; cx_to_rx l x else ret 0);
  upd set_rx r ;;
  rows ← gets screenrows;
  cols ← gets screencols;
  off ← gets rowoff;
  when (y <? off) (upd set_rowoff y) ;;
  off ← gets rowoff;
  when (off + rows <=? y) (upd set_rowoff (y - rows + 1)) ;;
  off ← gets coloff;
  when (r <? off) (upd set_coloff r) ;;
  off ← gets coloff;
  when (off + cols <=? r) (upd set_coloff (r - cols + 1)).

(* ------------------------------------------------------------------ *)
(** ** Editing *)

Definition insert_char (c : Z) : M Editor unit :=
  y ← gets cy;
  n ← gets count;
  when (n <=? y) (buf_insert_line n []) ;;
  line ← row y;
  x ← gets cx;
  let x := if zlen line <? x then zlen line else x in
  upd set_cx x ;;
  assert_ (0 <=? x) ;;
  buf_set_line y (take (Z.to_nat x) line ++ u8 c :: drop (Z.to_nat x) line) ;;
  upd set_cx (x + 1) ;;
  upd set_dirty true.

Definition insert_newline : M Editor unit :=
  y ← gets cy;
  line ← row y;
  x ← gets cx;
  assert_ ((0 <=? x) && (x <=? zlen line)) ;;
  buf_set_line y (take (Z.to_nat x) line) ;;
  buf_insert_line (y + 1) (drop (Z.to_nat x) line) ;;
  upd set_cy (y + 1) ;;
  upd set_cx 0 ;;
  upd set_dirty true.

Definition delete_char_at_cursor : M Editor unit :=
  y ← gets cy;
  n ← gets count;
  if n <=? y then ret tt
  else
    line ← row y;
    x ← gets cx;
    if zlen line <=? x then
      when (y + 1 <? n)
        (next ← row (y + 1);
         buf_set_line y (line ++ next) ;;
         buf_delete_line (y + 1) ;;
         upd set_dirty true)
    else
      assert_ (0 <=? x) ;;
      buf_set_line y (take (Z.to_nat x) line ++ drop (S (Z.to_nat x)) line) ;;
      upd set_dirty true.

Definition backspace : M Editor unit :=
  x ← gets cx;
  y ← gets cy;
  if (x =? 0) && (y =? 0) then ret tt
  else if 0 <? x then
    line ← row y;
    assert_ (x <=? zlen line) ;;
    buf_set_line y (take (Z.to_nat (x - 1)) line ++ drop (Z.to_nat x) line) ;;
    upd set_cx (x - 1) ;;
    upd set_dirty true
  else
    prev ← row (y - 1);
    line ← row y;
    buf_set_line (y - 1) (prev ++ line) ;;
    buf_delete_line y ;;
    upd set_cy (y - 1) ;;
    upd set_cx (zlen prev) ;;
    upd set_dirty true.

(* ------------------------------------------------------------------ *)
(** ** Search *)

(** [strstr]: where the pattern first occurs. *)
Fixpoint find_at (pat s : list Z) : option Z :=
  if bool_decide (take (length pat) s = pat) then Some 0
  else match s with [] => None | _ :: s => Z.succ <$> find_at pat s end.

Definition do_search (dir : Z) : M Editor unit :=
  pat ← gets search;
  match pat with
  | [] => ret tt
  | _ =>
      start ← gets cy;
      n ← gets count;
      found ← scan_range 0 n (λ i,
        let r := Z.rem (start + dir * (i + 1) + n * 10) n in
        line ← row r;
        ret (match find_at pat line with Some p => Some (r, p) | None => None end));
      match found with
      | Some (r, p) =>
          upd set_cy r ;;
          upd set_cx p ;;
          rows ← gets screenrows;
          let off := r - Z.quot rows 2 in
          upd set_rowoff (if off <? 0 then 0 else off) ;;
          set_msg (47 :: pat)
      | None => set_msg (bytes "Pattern not found: " ++ pat)
      end
  end.

(* ------------------------------------------------------------------ *)
(** ** Commands *)

(** The program goes on, waits for input, or has ended. *)
Inductive outcome := Running | Waiting | Exited (code : Z).

Definition isspace (c : Z) : bool := (c =? 32) || ((9 <=? c) && (c <=? 13)).
Definition isupper (c : Z) : bool := (65 <=? c) && (c <=? 90).
Definition islower (c : Z) : bool := (97 <=? c) && (c <=? 122).
Definition isdigit (c : Z) : bool := (48 <=? c) && (c <=? 57).
Definition toupper (c : Z) : Z := if islower c then c - 32 else c.
Definition tolower (c : Z) : Z := if isupper c then c + 32 else c.
(** A table of 256 characters: a larger argument reads outside of it. *)
Definition iscntrl (c : Z) : M Editor bool :=
  if (0 <=? c) && (c <? 256) then ret ((c <? 32) || (c =? 127)) else fault.

Fixpoint digits (n : Z) (s : list Z) : Z :=
  match s with [] => n | c :: s => if isdigit c then digits (Z.min 2147483647 (n * 10 + (c - 48))) s else n end.
Fixpoint skip_space (s : list Z) : list Z :=
  match s with [] => [] | c :: s' => if isspace c then skip_space s' else s end.
Definition atoi (s : list Z) : Z :=
  match skip_space s with
  | c :: s => if c =? 45 then - digits 0 s else if c =? 43 then digits 0 s else digits 0 (c :: s)
  | [] => 0
  end.

Section keys.
Variable can_write : list Z → bool.

Definition exec_command : M Editor outcome :=
  b ← gets cmdbuf;
  let cmd := until_zero b in
  upd set_mode 0 ;;
  if bool_decide (cmd = bytes "q") then
    d ← gets dirty;
    if (d : bool) then set_msg (bytes "No write since last change (use :q! to force)") ;; ret Running
    else ret (Exited 0)
  else if bool_decide (cmd = bytes "q!") then ret (Exited 0)
  else if bool_decide (cmd = bytes "wq") || bool_decide (cmd = bytes "x") then
    ok ← file_save can_write;
    ret (if ok : bool then Exited 0 else Running)
  else if bool_decide (take 2 cmd = bytes "w ") then
    upd set_filename (take 255 (drop 2 cmd)) ;;
    _ ← file_save can_write;
    ret Running
  else if bool_decide (cmd = bytes "w") then _ ← file_save can_write; ret Running
  else if bool_decide (take 2 cmd = bytes "e ") then
    upd set_e_lines [] ;;
    file_open (drop 2 cmd) ;;
    upd set_cx 0 ;;
    upd set_cy 0 ;;
    upd set_dirty false ;;
    ret Running
  else if bool_decide (take 1 cmd = bytes "/") then
    upd set_search (take 255 (drop 1 cmd)) ;;
    upd set_search_dir 1 ;;
    do_search 1 ;;
    ret Running
  else
    let lineno := atoi cmd in
    if 0 <? lineno then
      n ← gets count;
      upd set_cy (if n <=? lineno - 1 then n - 1 else lineno - 1) ;;
      upd set_cx 0 ;;
      set_msg [] ;;
      ret Running
    else set_msg (bytes "Unknown command: " ++ cmd) ;; ret Running.

(* ------------------------------------------------------------------ *)
(** ** Normal mode *)

(** A branch of [normal_key] returns, or falls through to the end. *)
Definition branch : Type := M Editor (option outcome).
Definition fall (m : M Editor unit) : branch := m ;; ret None.

(** The inner loops of the word movements. *)
Definition skip_chars (line : list Z) (stop : Z → bool) (x : Z) : M Editor Z :=
  while_n (S (length line)) (λ x,
    if x <? zlen line then c ← char_at line x; if stop c then ret (inr x) else ret (inl (x + 1))
    else ret (inr x)) x.

Definition word_forward : M Editor unit :=
  y ← gets cy;
  line ← row y;
  x ← gets cx;
  x ← skip_chars line isspace x;
  x ← skip_chars line (λ c, negb (isspace c)) x;
  n ← gets count;
  if (zlen line <=? x) && (y + 1 <? n) then upd set_cy (y + 1) ;; upd set_cx 0
  else upd set_cx x.

(** [line] stays the line the cursor came from. *)
Definition word_backward : M Editor unit :=
  y ← gets cy;
  line ← row y;
  x ← gets cx;
  x ← (if (x =? 0) && (0 <? y) then upd set_cy (y - 1) ;; prev ← row (y - 1); ret (zlen prev) else ret x);
  let x := if 0 <? x then x - 1 else x in
  x ← while_n (S (Z.to_nat x)) (λ x,
        if 0 <? x then c ← char_at line x; if negb (isspace c) then ret (inr x) else ret (inl (x - 1)) else ret (inr x)) x;
  x ← while_n (S (Z.to_nat x)) (λ x,
        if 0 <? x then c ← char_at line (x - 1); if isspace c then ret (inr x) else ret (inl (x - 1)) else ret (inr x)) x;
  upd set_cx x.

Definition page_down : M Editor unit :=
  y ← gets cy;
  rows ← gets screenrows;
  n ← gets count;
  upd set_cy (if n <=? y + rows then n - 1 else y + rows) ;;
  clamp_cx.
Definition page_up : M Editor unit :=
  y ← gets cy;
  rows ← gets screenrows;
  upd set_cy (if y - rows <? 0 then 0 else y - rows) ;;
  clamp_cx.

Definition move_key (c rep : Z) : option branch :=
  if (c =? 104) || (c =? KEY_LEFT) then
    Some (fall (for_range 0 rep (λ _, x ← gets cx; when (0 <? x) (upd set_cx (x - 1)))))
  else if (c =? 108) || (c =? KEY_RIGHT) then
    Some (fall (for_range 0 rep (λ _,
      n ← cur_line_len;
      let max := if n - 1 <? 0 then 0 else n - 1 in
      x ← gets cx;
      when (x <? max) (upd set_cx (x + 1)))))
  else if (c =? 106) || (c =? KEY_DOWN) then
    Some (fall (for_range 0 rep (λ _, y ← gets cy; n ← gets count; when (y <? n - 1) (upd set_cy (y + 1))) ;; clamp_cx))
  else if (c =? 107) || (c =? KEY_UP) then
    Some (fall (for_range 0 rep (λ _, y ← gets cy; when (0 <? y) (upd set_cy (y - 1))) ;; clamp_cx))
  else if (c =? 48) || (c =? KEY_HOME) then Some (fall (upd set_cx 0))
  else if (c =? 36) || (c =? KEY_END) then
    Some (fall (n ← cur_line_len; upd set_cx (if 0 <? n then n - 1 else 0)))
  else if c =? 119 then Some (fall (for_range 0 rep (λ _, word_forward) ;; clamp_cx))
  else if c =? 98 then Some (fall (for_range 0 rep (λ _, word_backward)))
  else if c =? 71 then
    Some (fall (n ← gets count;
      let y := if 1 <? rep then rep - 1 else n - 1 in
      upd set_cy (if n <=? y then n - 1 else y) ;;
      upd set_cx 0))
  else if c =? 103 then
    Some (g ← gets g_pending;
      (if (g : bool) then upd set_cy 0 ;; upd set_cx 0 ;; upd set_g_pending false else upd set_g_pending true) ;;
      ret (Some Running))
  else if (c =? KEY_PGDN) || (c =? 6) then Some (fall page_down)
  else if (c =? KEY_PGUP) || (c =? 2) then Some (fall page_up)
  else None.

Definition insert_key (c : Z) : option branch :=
  if c =? 105 then Some (fall (upd set_mode 1))
  else if c =? 73 then Some (fall (upd set_cx 0 ;; upd set_mode 1))
  else if c =? 97 then
    Some (fall (n ← cur_line_len; x ← gets cx; when (x <? n) (upd set_cx (x + 1)) ;; upd set_mode 1))
  else if c =? 65 then Some (fall (n ← cur_line_len; upd set_cx n ;; upd set_mode 1))
  else if c =? 111 then
    Some (fall (undo_push ;;
      n ← cur_line_len;
      upd set_cx n ;;
      y ← gets cy;
      buf_insert_line (y + 1) [] ;;
      upd set_cy (y + 1) ;;
      upd set_cx 0 ;;
      upd set_mode 1 ;;
      upd set_dirty true))
  else if c =? 79 then
    Some (fall (undo_push ;;
      y ← gets cy;
      buf_insert_line y [] ;;
      upd set_cx 0 ;;
      upd set_mode 1 ;;
      upd set_dirty true))
  else None.

(** One turn of the loop of [dd]. *)
Definition delete_line : M Editor unit :=
  y ← gets cy;
  line ← row y;
  upd set_yank_line (Some line) ;;
  buf_delete_line y ;;
  n ← gets count;
  when (n =? 0) (buf_insert_line 0 []) ;;
  n ← gets count;
  upd set_cy (if n <=? y then n - 1 else y).

Definition delete_key (c rep : Z) : option branch :=
  if c =? 120 then
    Some (fall (undo_push ;; for_range 0 rep (λ _, delete_char_at_cursor) ;; clamp_cx))
  else if c =? 100 then
    Some (d ← gets d_pending;
      if (d : bool) then
        undo_push ;;
        for_range 0 rep (λ _, delete_line) ;;
        upd set_dirty true ;;
        upd set_d_pending false ;;
        ret None
      else upd set_d_pending true ;; ret (Some Running))
  else if c =? 68 then
    Some (fall (undo_push ;; y ← gets cy; x ← gets cx; put_char y x 0 ;; upd set_dirty true))
  else if c =? 121 then
    Some (p ← gets y_pending;
      if (p : bool) then
        y ← gets cy;
        line ← row y;
        upd set_yank_line (Some line) ;;
        set_msg (bytes "1 line yanked") ;;
        upd set_y_pending false ;;
        ret None
      else upd set_y_pending true ;; ret (Some Running))
  else None.

Definition paste (below : bool) : M Editor unit :=
  l ← gets yank_line;
  match l with
  | None => ret tt
  | Some l =>
      undo_push ;;
      y ← gets cy;
      buf_insert_line (if below then y + 1 else y) l ;;
      when below (upd set_cy (y + 1)) ;;
      upd set_cx 0 ;;
      upd set_dirty true
  end.

Definition toggle_case : M Editor unit :=
  y ← gets cy;
  line ← row y;
  x ← gets cx;
  when (x <? zlen line)
    (undo_push ;;
     c ← char_at line x;
     put_char y x (if isupper c then tolower c else toupper c) ;;
     when (x <? zlen line - 1) (upd set_cx (x + 1)) ;;
     upd set_dirty true).

Definition join_lines : M Editor unit :=
  y ← gets cy;
  n ← gets count;
  when (y + 1 <? n)
    (undo_push ;;
     l1 ← row y;
     l2 ← row (y + 1);
     buf_set_line y (match l2 with [] => l1 | _ => l1 ++ 32 :: l2 end) ;;
     buf_delete_line (y + 1) ;;
     upd set_cx (zlen l1) ;;
     upd set_dirty true).

(** [cmdbuf] starts with [s]. *)
Definition begin_command (s : list Z) : M Editor unit :=
  upd set_mode 2 ;;
  b ← gets cmdbuf;
  upd set_cmdbuf (s ++ 0 :: drop (S (length s)) b) ;;
  upd set_cmdlen (zlen s).

Definition change_key (c : Z) : option branch :=
  if c =? 112 then Some (fall (paste true))
  else if c =? 80 then Some (fall (paste false))
  else if c =? 117 then Some (fall undo_pop)
  else if c =? 114 then
    Some (r ← read_key;
      match r with
      | Blocked => ret (Some Waiting)
      | Died => ret (Some (Exited 1))
      | Key nc =>
          (if nc =? KEY_ESC then ret tt
           else
             undo_push ;;
             y ← gets cy;
             line ← row y;
             x ← gets cx;
             when (x <? zlen line) (put_char y x (u8 nc) ;; upd set_dirty true)) ;;
          ret None
      end)
  else if c =? 126 then Some (fall toggle_case)
  else if c =? 47 then Some (begin_command [47] ;; ret (Some Running))
  else if c =? 110 then Some (fall (d ← gets search_dir; do_search d))
  else if c =? 78 then Some (fall (d ← gets search_dir; do_search (- d)))
  else if c =? 58 then Some (begin_command [] ;; set_msg [] ;; ret (Some Running))
  else if c =? 74 then Some (fall join_lines)
  else None.

(** A count that no longer fits an [int] is undefined. *)
Definition add_digit (n d : Z) : M Editor outcome :=
  assert_ (n * 10 + d <? 2147483648) ;; upd set_count_buf (n * 10 + d) ;; ret Running.

Definition normal_branch (c rep : Z) : branch :=
  match move_key c rep with
  | Some m => m
  | None =>
      match insert_key c with
      | Some m => m
      | None =>
          match delete_key c rep with
          | Some m => m
          | None => match change_key c with Some m => m | None => ret None end
          end
      end
  end.

Definition normal_key (c : Z) : M Editor outcome :=
  g ← gets g_pending;
  d ← gets d_pending;
  y ← gets y_pending;
  n ← gets count_buf;
  if (49 <=? c) && (c <=? 57) && negb g && negb d && negb y then add_digit n (c - 48)
  else if (c =? 48) && (0 <? n) then add_digit n 0
  else
    let rep := if 0 <? n then n else 1 in
    upd set_count_buf 0 ;;
    r ← normal_branch c rep;
    match r with
    | Some o => ret o
    | None =>
        upd set_g_pending false ;;
        upd set_d_pending false ;;
        upd set_y_pending false ;;
        clamp_cx ;;
        ret Running
    end.

(* ------------------------------------------------------------------ *)
(** ** Keys of all modes *)

Definition insert_mode_key (c : Z) : M Editor unit :=
  if c =? KEY_ESC then
    x ← gets cx;
    when (0 <? x) (upd set_cx (x - 1)) ;;
    upd set_mode 0 ;;
    clamp_cx
  else if (c =? KEY_BACKSPACE) || (c =? KEY_CTRL_H) then backspace
  else if c =? KEY_DEL then delete_char_at_cursor
  else if (c =? 13) || (c =? 10) then undo_push ;; insert_newline
  else if c =? KEY_UP then
    y ← gets cy; upd set_cy (if y - 1 <? 0 then 0 else y - 1) ;; clamp_cx
  else if c =? KEY_DOWN then
    y ← gets cy; n ← gets count; upd set_cy (if n <=? y + 1 then n - 1 else y + 1) ;; clamp_cx
  else if c =? KEY_LEFT then x ← gets cx; when (0 <? x) (upd set_cx (x - 1))
  else if c =? KEY_RIGHT then x ← gets cx; n ← cur_line_len; when (x <? n) (upd set_cx (x + 1))
  else if c =? KEY_HOME then upd set_cx 0
  else if c =? KEY_END then n ← cur_line_len; upd set_cx n
  else
    k ← iscntrl c;
    when (negb k)
      (x ← gets cx;
       n ← cur_line_len;
       when ((x =? 0) && (n =? 0)) undo_push ;;
       insert_char c).

Definition put_cmd (i c : Z) : M Editor unit :=
  b ← gets cmdbuf;
  assert_ ((0 <=? i) && (i <? zlen b)) ;;
  upd set_cmdbuf (<[Z.to_nat i := c]> b).

Definition command_mode_key (c : Z) : M Editor outcome :=
  n ← gets cmdlen;
  if c =? KEY_ESC then upd set_mode 0 ;; put_cmd 0 0 ;; upd set_cmdlen 0 ;; ret Running
  else if (c =? 13) || (c =? 10) then exec_command
  else if (c =? KEY_BACKSPACE) && (0 <? n) then
    upd set_cmdlen (n - 1) ;;
    put_cmd (n - 1) 0 ;;
    when (n - 1 =? 0) (upd set_mode 0) ;;
    ret Running
  else
    k ← iscntrl c;
    when (negb k && (n <? 255)) (put_cmd n (u8 c) ;; upd set_cmdlen (n + 1) ;; put_cmd (n + 1) 0) ;;
    ret Running.

(** [process_key] once the key is read. *)
Definition on_key (c : Z) : M Editor outcome :=
  m ← gets mode;
  if m =? 0 then
    if c =? KEY_ESC then
      upd set_g_pending false ;;
      upd set_d_pending false ;;
      upd set_y_pending false ;;
      upd set_count_buf 0 ;;
      upd set_status [] ;;
      ret Running
    else normal_key c
  else if m =? 1 then insert_mode_key c ;; ret Running
  else if m =? 2 then command_mode_key c
  else ret Running.

Definition process_key : M Editor outcome :=
  r ← read_key;
  match r with
  | Key c => on_key c
  | Blocked => ret Waiting
  | Died => ret (Exited 1)
  end.
End keys.

(* ------------------------------------------------------------------ *)
(** ** The picture

    [Abuf] is the list of the bytes appended so far. *)

Definition ESC : Z := 27.
Definition csi (s : string) : list Z := ESC :: bytes ("[" +:+ s).
Definition crlf : list Z := [13; 10].
(** [%*s] and [%*d] *)
Definition pad_left (w : Z) (s : list Z) : list Z := replicate (Z.to_nat (w - zlen s)) 32 ++ s.
(** [ab_appendf]: what [vsnprintf] gives has to fit 511 bytes. *)
Definition appendf (s : list Z) : M Editor (list Z) := assert_ (zlen s <? 512) ;; ret s.

(** The columns of a tab that are in the window. *)
Fixpoint draw_tab (n : nat) (coloff cols col drawn : Z) : list Z * Z * Z :=
  match n with
  | O => ([], col, drawn)
  | S n =>
      if drawn <? cols then
        let shown := coloff <=? col in
        let '(out, col', drawn') := draw_tab n coloff cols (col + 1) (if shown then drawn + 1 else drawn) in
        (if shown then 32 :: out else out, col', drawn')
      else ([], col, drawn)
  end.

Fixpoint draw_text (coloff cols : Z) (line : list Z) (col drawn : Z) : list Z :=
  match line with
  | [] => []
  | c :: line =>
      if drawn <? cols then
        if c =? 9 then
          let '(out, col, drawn) := draw_tab (Z.to_nat (TAB_STOP - col mod TAB_STOP)) coloff cols col drawn in
          out ++ draw_text coloff cols line col drawn
        else if coloff <=? col then c :: draw_text coloff cols line (col + 1) (drawn + 1)
        else draw_text coloff cols line (col + 1) drawn
      else []
  end.

Definition numw : Z := 4.

Definition draw_row (y : Z) : M Editor (list Z) :=
  off ← gets rowoff;
  n ← gets count;
  rows ← gets screenrows;
  cols ← gets screencols;
  let filerow := y + off in
  body ← (if n <=? filerow then
      if (n =? 0) && (y =? Z.quot rows 3) then
        let welcome := bytes "mivim -- version 0.1  (stdlib only)" in
        let wlen := Z.min (zlen welcome) cols in
        let pad := Z.quot (cols - wlen) 2 in
        num ← appendf (csi "90m" ++ pad_left numw (dec 0) ++ 32 :: csi "0m");
        ret (num ++ replicate (Z.to_nat (pad - 1)) 32 ++ take (Z.to_nat wlen) welcome)
      else appendf (csi "90m" ++ pad_left numw [] ++ 32 :: csi "0m" ++ [126])
    else
      cur ← gets cy;
      let rel := filerow - cur in
      num ← appendf (if rel =? 0 then csi "33m" ++ pad_left numw (dec (filerow + 1)) ++ 32 :: csi "0m"
                     else csi "90m" ++ pad_left numw (dec (Z.abs rel)) ++ 32 :: csi "0m");
      line ← row filerow;
      coff ← gets coloff;
      ret (num ++ draw_text coff cols line 0 0));
  ret (body ++ csi "K" ++ crlf).

Definition draw_rows : M Editor (list Z) :=
  rows ← gets screenrows;
  while_n (S (Z.to_nat rows)) (λ '(y, out),
    if y <? rows then l ← draw_row y; ret (inl (y + 1, out ++ l)) else ret (inr out)) (0, []).

Definition draw_status : M Editor (list Z) :=
  m ← gets mode;
  name ← gets filename;
  d ← gets dirty;
  y ← gets cy;
  n ← gets count;
  x ← gets cx;
  cols ← gets screencols;
  let mode_str := if m =? 1 then bytes "INSERT" else if m =? 2 then bytes "COMMAND" else bytes "NORMAL" in
  let shown := match name with [] => bytes "[No Name]" | _ => take 40 name end in
  let left_ := 32 :: mode_str ++ bytes " | " ++ shown ++ (if d : bool then bytes " [+]" else []) ++ [32] in
  let right_ := 32 :: dec (y + 1) ++ 47 :: dec n ++ 58 :: dec (x + 1) ++ [32] in
  let rlen := zlen right_ in
  let llen := Z.min (zlen left_) cols in
  assert_ (llen <=? 128) ;;
  assert_ (negb (llen + rlen <=? cols) || (rlen <=? 32)) ;;
  ret (csi "7m" ++ take (Z.to_nat llen) (take 127 left_ ++ [0]) ++ replicate (Z.to_nat (cols - llen - rlen)) 32 ++
       (if llen + rlen <=? cols then take (Z.to_nat rlen) (take 31 right_ ++ [0]) else []) ++ csi "m" ++ crlf).

Definition draw_message : M Editor (list Z) :=
  m ← gets mode;
  b ← gets cmdbuf;
  s ← gets status;
  cols ← gets screencols;
  ret (csi "K" ++ (if m =? 2 then 58 :: until_zero b else take (Z.to_nat cols) s)).

Definition refresh_screen : M Editor unit :=
  scroll ;;
  rows ← draw_rows;
  st ← draw_status;
  msg ← draw_message;
  y ← gets cy;
  yo ← gets rowoff;
  r ← gets rx;
  xo ← gets coloff;
  m ← gets mode;
  n ← gets screenrows;
  k ← gets cmdlen;
  let screen_cy := y - yo + 1 in
  let screen_cx := r - xo + (numw + 1) + 1 in
  place ← appendf (if m =? 2 then csi "" ++ dec (n + 2) ++ 59 :: dec (k + 2) ++ [72]
                   else csi "" ++ dec screen_cy ++ 59 :: dec screen_cx ++ [72]);
  out ← gets output;
  upd set_output (out ++ csi "?25l" ++ csi "H" ++ rows ++ st ++ msg ++ place ++ csi "?25h").

(* ------------------------------------------------------------------ *)
(** ** The program *)

(** [init]: the files, the keys and the terminal are as they were. *)
Definition init : M Editor unit := modify (λ e,
  Ed [] 0 0 0 0 0 (25 - 2) 70 0 [] false [] (replicate 256 0) 0 (replicate 100 None) 0 [] 1 None
    false false false 0 (files e) (input e) (output e)).

(** [main] up to its loop; [name] is the argument, if there is one. *)
Definition main_start (name : option (list Z)) : M Editor unit :=
  init ;;
  (match name with Some f => file_open f | None => buf_insert_line 0 [] end) ;;
  set_msg (bytes "mivim ready  --  :w save  :q quit  i insert  ESC normal").

(** One turn of the loop. *)
Definition main_turn (can_write : list Z → bool) : M Editor outcome :=
  refresh_screen ;; process_key can_write.

(** The keys [ks], one after the other, until the program ends. *)
Fixpoint run_keys (can_write : list Z → bool) (ks : list Z) : M Editor outcome :=
  match ks with
  | [] => ret Running
  | k :: ks => r ← on_key can_write k; match r with Running => run_keys can_write ks | _ => ret r end
  end.
