(* ===== verification/ViSpec.v ===== *)
(** * The editor: invariant, typing, undo and picture

    The cursor is always inside the text and no key makes the editor leave its
    buffers, apart from the keys named in the theorem; what is typed, saved and
    read again is the same text; undo takes back a change; and the picture is a
    window on the text with its tabs filled in. *)

From stdpp Require Import strings.
From S2P Require Import Prelude Vi.

(* ------------------------------------------------------------------ *)
(** ** The invariant *)

Definition line_ok (l : list Z) : Prop := Forall (λ c, 0 < c < 256) l.
Definition text_ok (b : list (list Z)) : Prop := b ≠ [] ∧ Forall line_ok b.

(** The slots of the changes that can be taken back are in use. *)
Definition undo_ok (st : list (option (list (list Z)))) (top : Z) : Prop :=
  length st = 100%nat ∧ 0 <= top ∧
  ∀ k, 0 <= k < top → ∃ b, st !! undo_slot k = Some (Some b) ∧ text_ok b.

Definition event_ok (ev : event) : Prop := match ev with Byte b => 0 <= b < 256 | _ => True end.

Record rest_of (st : list (option (list (list Z)))) (top : Z) (yank : option (list Z)) (cmd : list Z) (n cnt dir : Z)
    (fs : gmap (list Z) (list Z)) (inp : list event) (rows cols md : Z) : Prop := {
  ro_undo : undo_ok st top;
  ro_yank : ∀ l, yank = Some l → line_ok l;
  ro_cmd : length cmd = 256%nat ∧ 0 <= n <= 255;
  ro_count : 0 <= cnt < 2147483648;
  ro_dir : dir = 1;
  ro_files : map_Forall (λ _, Forall (λ c, 0 <= c < 256)) fs;
  ro_input : Forall event_ok inp;
  ro_screen : rows = 23 ∧ cols = 70;
  ro_mode : md = 0 ∨ md = 1 ∨ md = 2
}.
Definition rest_ok (e : Editor) : Prop :=
  rest_of (undo_stack e) (undo_top e) (yank_line e) (cmdbuf e) (cmdlen e) (count_buf e) (search_dir e) (files e)
    (input e) (screenrows e) (screencols e) (mode e).

(** The cursor is on a line of the text. *)
Record on_line (b : list (list Z)) (x y : Z) (rest : Prop) : Prop := {
  ol_text : text_ok b;
  ol_cy : 0 <= y < Z.of_nat (length b);
  ol_cx : 0 <= x;
  ol_rest : rest
}.
Definition in_text (e : Editor) : Prop := on_line (e_lines e) (cx e) (cy e) (rest_ok e).

Lemma it_text e : in_text e → text_ok (e_lines e).
Proof. apply ol_text. Qed.
Lemma it_cy e : in_text e → 0 <= cy e < count e.
Proof. apply ol_cy. Qed.
Lemma it_cx e : in_text e → 0 <= cx e.
Proof. apply ol_cx. Qed.
Lemma it_rest e : in_text e → rest_ok e.
Proof. apply ol_rest. Qed.

(** And not behind its end. *)
Definition editor_ok (e : Editor) : Prop :=
  in_text e ∧ ∀ l, e_lines e !! Z.to_nat (cy e) = Some l → cx e <= zlen l.

Ltac vi_cbn := unfold upd, set_msg; cbn [e_lines cx cy rx rowoff coloff screenrows screencols mode filename dirty status cmdbuf cmdlen undo_stack
  undo_top search search_dir yank_line g_pending d_pending y_pending count_buf files input output
  set_e_lines set_cx set_cy set_rx set_rowoff set_coloff set_mode set_filename set_dirty set_status set_cmdbuf set_cmdlen set_undo_stack
  set_undo_top set_search set_search_dir set_yank_line set_g_pending set_d_pending set_y_pending set_count_buf set_files set_input set_output].

Ltac vi_step := lazymatch goal with
  | |- wp (upd _ _) _ _ => apply wp_modify
  | |- wp (set_msg _) _ _ => apply wp_modify
  | |- wp (fall _) _ _ => unfold fall; apply wp_bind
  | _ => wp_step
  end.

(** The tests of the goal, innermost first. *)
Ltac no_if x := lazymatch x with context [if _ then _ else _] => fail | _ => idtac end.
Ltac zcases := repeat (match goal with
  | |- context [?a <=? ?b] => no_if a; no_if b; destruct (Z.leb_spec a b)
  | |- context [?a <? ?b] => no_if a; no_if b; destruct (Z.ltb_spec a b)
  | |- context [?a =? ?b] => no_if a; no_if b; destruct (Z.eqb_spec a b)
  end; cbn [negb andb orb]).

Lemma in_text_row e : in_text e → ∃ l, e_lines e !! Z.to_nat (cy e) = Some l ∧ line_ok l.
Proof.
  intros [[_ Hl] Hy _ _]. unfold count in Hy. destruct (lookup_lt_is_Some_2 (e_lines e) (Z.to_nat (cy e)) ltac:(lia)) as [l E].
  exists l. split; [done|]. rewrite Forall_lookup in Hl. by eapply Hl.
Qed.

Lemma wp_text_row y l e (Q : list Z → Editor → Prop) :
  0 <= y → e_lines e !! Z.to_nat y = Some l → Q l e → wp (row y) e Q.
Proof.
  intros Hy El HQ. unfold row. wp_step. wp_step. rewrite (proj2 (Z.ltb_ge _ _)) by lia. by eapply wp_of_opt.
Qed.

Lemma wp_char_at l x e (Q : Z → Editor → Prop) :
  0 <= x <= zlen l → Q (default 0 (l !! Z.to_nat x)) e → wp (char_at l x) e Q.
Proof. intros Hx HQ. unfold char_at. replace ((0 <=? x) && (x <=? zlen l)) with true by (symmetry; blia). by apply wp_ret. Qed.

Lemma wp_insert_line at_ txt e (Q : unit → Editor → Prop) :
  0 <= at_ <= count e →
  Q tt (set_e_lines (take (Z.to_nat at_) (e_lines e) ++ txt :: drop (Z.to_nat at_) (e_lines e)) e) → wp (buf_insert_line at_ txt) e Q.
Proof.
  intros H HQ. unfold buf_insert_line. do 3 wp_step. apply wp_assert; [unfold count, zlen in *; blia|]. exact HQ.
Qed.

Lemma wp_delete_line at_ e (Q : unit → Editor → Prop) :
  0 <= at_ < count e →
  Q tt (set_e_lines (take (Z.to_nat at_) (e_lines e) ++ drop (S (Z.to_nat at_)) (e_lines e)) e) → wp (buf_delete_line at_) e Q.
Proof.
  intros H HQ. unfold buf_delete_line. do 3 wp_step. apply wp_assert; [unfold count, zlen in *; blia|]. exact HQ.
Qed.

Lemma wp_set_line at_ txt e (Q : unit → Editor → Prop) :
  0 <= at_ < count e → Q tt (set_e_lines (<[Z.to_nat at_ := txt]> (e_lines e)) e) → wp (buf_set_line at_ txt) e Q.
Proof.
  intros H HQ. unfold buf_set_line. do 3 wp_step. apply wp_assert; [unfold count, zlen in *; blia|]. exact HQ.
Qed.

Lemma wp_cur_line_len l e (Q : Z → Editor → Prop) :
  in_text e → e_lines e !! Z.to_nat (cy e) = Some l → Q (zlen l) e → wp cur_line_len e Q.
Proof.
  intros K El HQ. pose proof (it_cy _ K). unfold cur_line_len. do 4 wp_step. rewrite (proj2 (Z.leb_gt _ _)) by lia.
  wp_step. apply (wp_text_row _ l); [lia|done|]. by apply wp_ret.
Qed.

(** Where the cursor is after [clamp_cx]. *)
Definition clamped (m len x : Z) : Z := Z.min x (if (m =? 1) || (len <=? 0) then len else len - 1).

Lemma wp_clamp_cx l e (Q : unit → Editor → Prop) :
  in_text e → e_lines e !! Z.to_nat (cy e) = Some l → Q tt (set_cx (clamped (mode e) (zlen l) (cx e)) e) → wp clamp_cx e Q.
Proof.
  intros K El HQ. pose proof (it_cx _ K). unfold clamp_cx. wp_step. apply (wp_cur_line_len l); [done|done|]. do 4 wp_step.
  apply wp_modify. match goal with |- Q tt (set_cx ?x e) => replace x with (clamped (mode e) (zlen l) (cx e)) end; [done|].
  cbn zeta. unfold clamped, zlen in *. clear HQ. zcases; lia.
Qed.

Lemma wp_clamp_ok e : in_text e → wp clamp_cx e (λ _ e', editor_ok e').
Proof.
  intros K. destruct (in_text_row e K) as (l & El & _). apply (wp_clamp_cx l); [done|done|]. pose proof (it_cx _ K).
  split; [destruct K; split; try done|]; vi_cbn; unfold clamped, zlen in *.
  - destruct (orb _ _) eqn:E; blia.
  - intros l' E'. rewrite El in E'. injection E' as <-. destruct (orb _ _); lia.
Qed.

Lemma wp_undo_push e (Q : unit → Editor → Prop) :
  text_ok (e_lines e) → undo_ok (undo_stack e) (undo_top e) →
  (∀ st top, undo_ok st top → Q tt (set_undo_top top (set_undo_stack st e))) → wp undo_push e Q.
Proof.
  intros T (Hl & Ht & Hs) HQ. unfold undo_push. repeat vi_step. apply HQ.
  split; [by rewrite length_insert|]. split; [lia|]. intros k Hk.
  assert (undo_slot (undo_top e) < length (undo_stack e))%nat as Hlt by (rewrite Hl; unfold undo_slot, UNDO_DEPTH; lia).
  destruct (decide (undo_slot k = undo_slot (undo_top e))) as [->|Hne].
  - exists (e_lines e). by rewrite list_lookup_insert_eq.
  - rewrite list_lookup_insert_ne by done. apply Hs. destruct (decide (k = undo_top e)) as [->|]; [done|lia].
Qed.

Lemma text_insert b n l : Forall line_ok b → line_ok l → text_ok (take n b ++ l :: drop n b).
Proof.
  intros Hb Hl. split; [by destruct (take n b)|]. apply Forall_app_2; [by apply Forall_take|]. apply Forall_cons_2; [done|by apply Forall_drop].
Qed.
Lemma text_set b n l : text_ok b → line_ok l → text_ok (<[n := l]> b).
Proof. intros [Hn Hb] Hl. split; [by destruct b, n|]. by apply Forall_insert. Qed.
Lemma lines_delete b n : Forall line_ok b → Forall line_ok (take n b ++ drop (S n) b).
Proof. intros Hb. apply Forall_app_2; [by apply Forall_take|by apply Forall_drop]. Qed.
Lemma length_text_insert {A} (b : list A) n l : (n <= length b)%nat → length (take n b ++ l :: drop n b) = S (length b).
Proof. intros H. rewrite length_app, length_take. cbn [length]. rewrite length_drop. lia. Qed.
Lemma length_text_delete {A} (b : list A) n : (n < length b)%nat → length (take n b ++ drop (S n) b) = (length b - 1)%nat.
Proof. intros H. rewrite length_app, length_take, length_drop. lia. Qed.

Lemma rest_push e st top : rest_ok e → undo_ok st top → rest_ok (set_undo_top top (set_undo_stack st e)).
Proof. intros [] U. by split. Qed.
Lemma rest_mode e m : rest_ok e → m = 0 ∨ m = 1 ∨ m = 2 → rest_ok (set_mode m e).
Proof. intros [] U. by split. Qed.

(** What a branch of [normal_key] leaves. *)
Definition leaves (r : option outcome) (e : Editor) : Prop := match r with Some _ => editor_ok e | None => in_text e end.

(** The fields of the invariant that did not change, by computation. *)
Ltac same_text K := destruct K; split; [assumption|vi_cbn; unfold count in *; vi_cbn; lia|vi_cbn; lia|assumption].

Lemma wp_fall m e : wp m e (λ _ e', in_text e') → wp (fall m) e leaves.
Proof. intros H. vi_step. eapply wp_mono; [exact H|]. intros [] e' H'. by apply wp_ret. Qed.

Lemma wp_skip_chars line stop x e :
  0 <= x → wp (skip_chars line stop x) e (λ x' e', e' = e ∧ x <= x').
Proof.
  intros Hx. unfold skip_chars. apply (wp_while_n (λ k y e', e' = e ∧ x <= y ∧ k = Z.to_nat (zlen line - y)) _ _ _ (Z.to_nat (zlen line - x))).
  - done.
  - unfold zlen. lia.
  - intros k y e' (-> & Hy & ->). destruct (Z.ltb_spec y (zlen line)) as [Hlt|]; [|by apply wp_ret].
    wp_step. apply wp_char_at; [lia|]. destruct (stop _); apply wp_ret; [done|].
    exists (Z.to_nat (zlen line - (y + 1))). split; [lia|]. split_and!; [done|lia|done].
Qed.

Lemma wp_word_forward e : in_text e → wp word_forward e (λ _ e', in_text e').
Proof.
  intros K. destruct (in_text_row e K) as (l & El & _). pose proof (it_cy _ K). pose proof (it_cx _ K). unfold word_forward.
  do 2 vi_step. vi_step. apply (wp_text_row _ l); [lia|done|]. do 2 vi_step.
  vi_step. eapply wp_mono; [by apply wp_skip_chars|]. intros x1 ? [-> H1].
  vi_step. eapply wp_mono; [apply wp_skip_chars; lia|]. intros x2 ? [-> H2]. do 2 vi_step.
  destruct (Z.leb_spec (zlen l) x2), (Z.ltb_spec (cy e + 1) (count e)); cbn [andb]; repeat vi_step; same_text K.
Qed.

(** The two loops of [word_backward] go left from [x]. *)
Lemma wp_go_left (line : list Z) (at_ : Z → Z) (stay : Z → bool) x e (Q : Z → Editor → Prop) :
  0 <= x → (∀ y, 0 < y <= x → 0 <= at_ y <= zlen line) → (∀ y, 0 <= y <= x → Q y e) →
  wp (while_n (S (Z.to_nat x)) (λ x,
    if 0 <? x then c ← char_at line (at_ x); if stay c then ret (inr x) else ret (inl (x - 1)) else ret (inr x)) x) e Q.
Proof.
  intros Hx Ha HQ. apply (wp_while_n (λ k y e', e' = e ∧ 0 <= y <= x ∧ k = Z.to_nat y) _ _ _ (Z.to_nat x)); [split_and!; done || lia|lia|].
  intros k y e' (-> & Hy & ->). destruct (Z.ltb_spec 0 y); [|apply wp_ret; by apply HQ].
  wp_step. apply wp_char_at; [apply Ha; lia|]. destruct (stay _); apply wp_ret; [by apply HQ|].
  exists (Z.to_nat (y - 1)). split; [lia|]. split_and!; [done|lia|lia|done].
Qed.

(** [b] is safe where the cursor does not go to the line above. *)
Lemma wp_word_backward e :
  editor_ok e → cy e = 0 ∨ 0 < cx e → wp word_backward e (λ _ e', editor_ok e' ∧ cy e' = cy e).
Proof.
  intros [K Hx] Hc. destruct (in_text_row e K) as (l & El & _). pose proof (it_cy _ K). pose proof (it_cx _ K). pose proof (Hx l El).
  unfold word_backward. do 2 vi_step. vi_step. apply (wp_text_row _ l); [lia|done|]. do 2 vi_step.
  replace ((cx e =? 0) && (0 <? cy e)) with false by (symmetry; blia). do 2 vi_step. cbn zeta.
  set (x := if 0 <? cx e then cx e - 1 else cx e). assert (0 <= x <= cx e) by (subst x; destruct (Z.ltb_spec 0 (cx e)); lia).
  vi_step. apply (wp_go_left l (λ x, x) (λ c, negb (isspace c))); [lia|lia|]. intros y Hy.
  vi_step. apply (wp_go_left l (λ x, x - 1) isspace); [lia|lia|]. intros z Hz. vi_step. split; [|done]. split; [same_text K|].
  vi_cbn. intros l' E. assert (l' = l) by congruence. subst l'. lia.
Qed.

Definition key_ok (e : Editor) (c : Z) : Prop :=
  (0 <= c < 256 ∨ 1000 <= c <= 1008) ∧
  (mode e = 0 → c = 98 → cy e = 0 ∨ 0 < cx e ∧ count_buf e <= 1) ∧
  (mode e = 0 → 48 <= c <= 57 → count_buf e < 214748364) ∧
  (mode e = 1 → c ≠ KEY_PGUP ∧ c ≠ KEY_PGDN) ∧
  (mode e = 2 → c < 256).

Lemma wp_move_key c rep e m :
  move_key c rep = Some m → editor_ok e → 0 < rep → (c = 98 → cy e = 0 ∨ 0 < cx e ∧ rep = 1) → wp m e leaves.
Proof.
  intros Hm [K Hcx] Hr Hb. destruct (in_text_row e K) as (l & El & _). pose proof (it_cy _ K) as Hy. pose proof (it_cx _ K) as Hx.
  unfold move_key in Hm. repeat (case_match; [injection Hm as <-; try apply wp_fall|]); [..|discriminate Hm].
  - eapply wp_mono; [apply (wp_for_range (λ _ e', in_text e')); [done|]|by intros [] e' ?]. intros _ e1 _ K1.
    do 2 vi_step. destruct (Z.ltb_spec 0 (cx e1)); cbn [when]; vi_step; [same_text K1|done].
  - eapply wp_mono; [apply (wp_for_range (λ _ e', in_text e')); [done|]|by intros [] e' ?]. intros _ e1 _ K1.
    destruct (in_text_row e1 K1) as (l1 & E1 & _). vi_step. apply (wp_cur_line_len l1); [done|done|]. do 2 vi_step.
    pose proof (it_cx _ K1). destruct (Z.ltb_spec (cx e1) (if zlen l1 - 1 <? 0 then 0 else zlen l1 - 1)); cbn [when]; vi_step; [same_text K1|done].
  - vi_step. eapply wp_mono; [apply (wp_for_range (λ _ e', in_text e')); [done|]|].
    + intros _ e1 _ K1. pose proof (it_cy _ K1). do 4 vi_step. destruct (Z.ltb_spec (cy e1) (count e1 - 1)); cbn [when]; vi_step; [same_text K1|done].
    + intros [] e1 K1. eapply wp_mono; [by apply wp_clamp_ok|]. by intros [] e2 [? _].
  - vi_step. eapply wp_mono; [apply (wp_for_range (λ _ e', in_text e')); [done|]|].
    + intros _ e1 _ K1. pose proof (it_cy _ K1). do 2 vi_step. destruct (Z.ltb_spec 0 (cy e1)); cbn [when]; vi_step; [same_text K1|done].
    + intros [] e1 K1. eapply wp_mono; [by apply wp_clamp_ok|]. by intros [] e2 [? _].
  - vi_step. same_text K.
  - vi_step. apply (wp_cur_line_len l); [done|done|]. vi_step. assert (0 <= (if 0 <? zlen l then zlen l - 1 else 0)) by (zcases; lia). same_text K.
  - vi_step. eapply wp_mono; [apply (wp_for_range (λ _ e', in_text e')); [done|]|].
    + intros _ e1 _ K1. by apply wp_word_forward.
    + intros [] e1 K1. eapply wp_mono; [by apply wp_clamp_ok|]. by intros [] e2 [? _].
  - destruct Hb as [Hb0|[Hb0 ->]]; [blia|..].
    + eapply wp_mono; [apply (wp_for_range (λ _ e', editor_ok e' ∧ cy e' = 0)); [done|]|by intros [] e' [[? _] _]].
      intros _ e1 _ [K1 Hy1]. eapply wp_mono; [apply wp_word_backward; [done|by left]|]. intros [] e2 [? ->]. done.
    + unfold for_range. change (Z.to_nat (1 - 0)) with 1%nat. cbn [for_n]. vi_step.
      eapply wp_mono; [apply wp_word_backward; [done|by right]|]. intros [] e2 [[? _] _]. by apply wp_ret.
  - repeat vi_step. assert (0 <= (if count e <=? (if 1 <? rep then rep - 1 else count e - 1) then count e - 1 else
      (if 1 <? rep then rep - 1 else count e - 1)) < count e) by (zcases; lia). same_text K.
  - vi_step. vi_step. destruct (g_pending e); repeat vi_step; cbn [leaves].
    + split; [same_text K|]. vi_cbn. intros l0 _. unfold zlen. lia.
    + split; [same_text K|exact Hcx].
  - unfold page_down. repeat vi_step. eapply wp_mono; [apply wp_clamp_ok|by intros [] e2 [? _]].
    pose proof (ro_screen _ _ _ _ _ _ _ _ _ _ _ _ (it_rest _ K)). assert (0 <= (if count e <=? cy e + screenrows e then count e - 1 else cy e + screenrows e) < count e) by (zcases; lia). same_text K.
  - unfold page_up. repeat vi_step. eapply wp_mono; [apply wp_clamp_ok|by intros [] e2 [? _]].
    pose proof (ro_screen _ _ _ _ _ _ _ _ _ _ _ _ (it_rest _ K)). assert (0 <= (if cy e - screenrows e <? 0 then 0 else cy e - screenrows e) < count e) by (zcases; lia). same_text K.
Qed.

Lemma undo_of e : in_text e → undo_ok (undo_stack e) (undo_top e).
Proof. intros K. apply (it_rest _ K). Qed.

Lemma wp_push e (Q : unit → Editor → Prop) :
  in_text e → (∀ e', in_text e' → e_lines e' = e_lines e → cy e' = cy e → cx e' = cx e → yank_line e' = yank_line e → mode e' = mode e →
    Q tt e') → wp undo_push e Q.
Proof.
  intros K HQ. apply wp_undo_push; [apply K|by apply undo_of|]. intros st top U. apply HQ; try done.
  destruct K. split; try assumption. by apply rest_push.
Qed.

(** A line of the text is replaced, one is put in, one is taken out. *)
Lemma in_text_set e y l : in_text e → line_ok l → in_text (set_e_lines (<[y := l]> (e_lines e)) e).
Proof.
  intros K Hl. destruct K as [T Y X R]. split; [by apply text_set| |done|done]. unfold count in *. vi_cbn. by rewrite length_insert.
Qed.

Lemma in_text_insert e (y : Z) l :
  in_text e → 0 <= y <= count e → line_ok l → in_text (set_e_lines (take (Z.to_nat y) (e_lines e) ++ l :: drop (Z.to_nat y) (e_lines e)) e).
Proof.
  intros K Hy Hl. destruct K as [[T1 T2] Y X R]. split; [by apply text_insert| |done|done]. unfold count in *. vi_cbn.
  rewrite length_text_insert by lia. lia.
Qed.

Lemma wp_insert_key c e m : insert_key c = Some m → editor_ok e → wp m e leaves.
Proof.
  intros Hm [K Hcx]. destruct (in_text_row e K) as (l & El & _). pose proof (it_cy _ K) as Hy. pose proof (it_cx _ K) as Hx.
  assert (∀ e', in_text e' → in_text (set_mode 1 e')) as Hmode.
  { intros e' [? ? ? ?]. split; try assumption. apply rest_mode; tauto. }
  unfold insert_key in Hm. repeat (case_match; [injection Hm as <-; try apply wp_fall|]); [..|discriminate Hm].
  - vi_step. by apply Hmode.
  - vi_step. vi_step. vi_step. apply Hmode. same_text K.
  - vi_step. apply (wp_cur_line_len l); [done|done|]. do 3 vi_step. destruct (Z.ltb_spec (cx e) (zlen l)); cbn [when]; repeat vi_step; apply Hmode; [same_text K|done].
  - vi_step. apply (wp_cur_line_len l); [done|done|]. repeat vi_step. apply Hmode. unfold zlen. same_text K.
  - vi_step. apply wp_push; [done|]. intros e1 K1 E1 E2 _ _ _. vi_step. apply (wp_cur_line_len l); [done|congruence|]. do 4 vi_step.
    pose proof (it_cy _ K1). vi_step. apply wp_insert_line; [unfold count in *; vi_cbn; lia|]. repeat vi_step.
    pose proof (in_text_insert e1 (cy e1 + 1) [] K1 ltac:(lia) ltac:(by apply Forall_nil_2)) as [T Y X R].
    change (in_text (set_dirty true (set_mode 1 (set_cx 0 (set_cy (cy e1 + 1) (set_e_lines (take (Z.to_nat (cy e1 + 1)) (e_lines e1) ++
      [] :: drop (Z.to_nat (cy e1 + 1)) (e_lines e1)) (set_cx (zlen l) e1))))))).
    split; [exact T| |vi_cbn; lia|by apply (rest_mode _ 1 R); tauto].
    unfold count in *. vi_cbn. rewrite length_text_insert by lia. lia.
  - vi_step. apply wp_push; [done|]. intros e1 K1 E1 E2 _ _ _. do 2 vi_step. pose proof (it_cy _ K1).
    vi_step. apply wp_insert_line; [lia|]. repeat vi_step.
    pose proof (in_text_insert e1 (cy e1) [] K1 ltac:(lia) ltac:(by apply Forall_nil_2)) as [T Y X R].
    split; [exact T|exact Y|vi_cbn; lia|by apply (rest_mode _ 1 R); tauto].
Qed.

Lemma wp_delete_char e : editor_ok e → wp delete_char_at_cursor e (λ _ e', editor_ok e').
Proof.
  intros [K Hcx]. destruct (in_text_row e K) as (l & El & Hl). pose proof (it_cy _ K) as Hy. pose proof (it_cx _ K) as Hx.
  assert (Z.to_nat (cy e) < length (e_lines e))%nat as Hlt by (unfold count in *; lia).
  unfold delete_char_at_cursor. do 4 vi_step. rewrite (proj2 (Z.leb_gt _ _)) by lia. vi_step. apply (wp_text_row _ l); [lia|done|]. do 2 vi_step.
  pose proof (Hcx l El). destruct (Z.leb_spec (zlen l) (cx e)).
  - destruct (Z.ltb_spec (cy e + 1) (count e)); cbn [when]; [|by apply wp_ret].
    destruct (lookup_lt_is_Some_2 (e_lines e) (Z.to_nat (cy e + 1)) ltac:(unfold count in *; lia)) as [l2 E2].
    assert (line_ok l2) as Hl2 by (pose proof (proj2 (it_text _ K)) as F; rewrite Forall_lookup in F; by eapply F).
    vi_step. apply (wp_text_row _ l2); [lia|done|]. vi_step. apply wp_set_line; [done|]. vi_step. apply wp_delete_line.
    { unfold count in *. vi_cbn. rewrite length_insert. lia. }
    vi_step. assert (line_ok (l ++ l2)) as H12 by (by apply Forall_app_2). destruct K as [[T1 T2] Y X R]. split; [split; [split| | |exact R]|].
    + vi_cbn. intros E. apply (f_equal length) in E. rewrite length_text_delete, length_insert in E by (rewrite length_insert; unfold count in *; lia).
      unfold count in *. cbn [length] in E. lia.
    + vi_cbn. apply lines_delete. by apply Forall_insert.
    + unfold count in *. vi_cbn. rewrite length_text_delete, length_insert by (rewrite length_insert; lia). lia.
    + exact X.
    + vi_cbn. intros l' E'. rewrite lookup_app_l in E' by (rewrite length_take, length_insert; unfold count in *; lia).
      rewrite lookup_take_lt, list_lookup_insert_eq in E' by lia. injection E' as <-. unfold zlen in *. rewrite length_app. lia.
  - vi_step. apply wp_assert; [blia|]. vi_step. apply wp_set_line; [done|]. vi_step.
    split; [apply (in_text_set e); [done|]; apply Forall_app_2; [by apply Forall_take|by apply Forall_drop]|].
    vi_cbn. intros l' E'. rewrite list_lookup_insert_eq in E' by done. injection E' as <-. unfold zlen in *.
    rewrite length_app, length_take, length_drop. lia.
Qed.

Lemma wp_put_char e y x c l (Q : unit → Editor → Prop) :
  in_text e → 0 <= y → e_lines e !! Z.to_nat y = Some l → 0 <= x < zlen l + (if c =? 0 then 1 else 0) → 0 <= c < 256 →
  (∀ l', line_ok l' → Q tt (set_e_lines (<[Z.to_nat y := l']> (e_lines e)) e)) → wp (put_char y x c) e Q.
Proof.
  intros K Hy El Hx Hc HQ. unfold put_char. vi_step. apply (wp_text_row _ l); [done|done|]. vi_step. apply wp_assert; [blia|].
  pose proof (lookup_lt_Some _ _ _ El). apply wp_set_line; [unfold count; lia|]. apply HQ.
  pose proof (proj2 (it_text _ K)) as F. rewrite Forall_lookup in F. pose proof (F _ _ El) as Hl.
  destruct (Z.eqb_spec c 0); [by apply Forall_take|]. apply Forall_insert; [done|lia].
Qed.

Lemma wp_delete_line_cmd e : in_text e → wp delete_line e (λ _ e', in_text e').
Proof.
  intros K. destruct (in_text_row e K) as (l & El & Hl). pose proof (it_cy _ K) as Hy. unfold delete_line.
  do 2 vi_step. vi_step. apply (wp_text_row _ l); [lia|done|]. do 2 vi_step. vi_step. apply wp_delete_line; [done|]. do 2 vi_step.
  set (b := take _ _ ++ _). assert (length b = length (e_lines e) - 1)%nat as Hb by (apply length_text_delete; unfold count in *; lia).
  assert (Forall line_ok b) as Fb by (apply lines_delete, (it_text _ K)).
  assert (rest_ok (set_yank_line (Some l) e)) as R by (destruct (it_rest _ K); split; try assumption; by intros ? [= <-]).
  vi_step. change (count (set_e_lines b (set_yank_line (Some l) e))) with (Z.of_nat (length b)).
  destruct (Z.eqb_spec (Z.of_nat (length b)) 0) as [E0|E0]; cbn [when].
  - apply wp_insert_line; [unfold count; vi_cbn; lia|]. do 3 vi_step. unfold count in *. vi_cbn. destruct b; [|cbn in E0; lia].
    change (take (Z.to_nat 0) ([] : list (list Z)) ++ [] :: drop (Z.to_nat 0) []) with [[] : list Z].
    split; vi_cbn; [|cbn [length]; zcases; lia|apply K|exact R]. split; [done|]. apply Forall_cons_2; [by apply Forall_nil_2|by apply Forall_nil_2].
  - apply wp_ret. do 3 vi_step. unfold count in *. vi_cbn. split; vi_cbn; [|zcases; lia|apply K|exact R].
    split; [|done]. intros ->. by apply E0.
Qed.

Lemma wp_delete_key c rep e m : delete_key c rep = Some m → editor_ok e → wp m e leaves.
Proof.
  intros Hm [K Hcx]. destruct (in_text_row e K) as (l & El & Hl). pose proof (it_cy _ K) as Hy. pose proof (it_cx _ K) as Hx.
  unfold delete_key in Hm. repeat (case_match; [injection Hm as <-; try apply wp_fall|]); [..|discriminate Hm].
  - vi_step. apply wp_push; [done|]. intros e1 K1 E1 E2 E3 _ _. vi_step. eapply wp_mono; [apply (wp_for_range (λ _ e', editor_ok e'))|].
    + split; [done|]. intros l' E'. rewrite E3. apply Hcx. by rewrite <-E1, <-E2.
    + intros _ e2 _ K2. by apply wp_delete_char.
    + intros [] e2 [K2 _]. eapply wp_mono; [by apply wp_clamp_ok|]. by intros [] e3 [? _].
  - vi_step. vi_step. destruct (d_pending e).
    + vi_step. apply wp_push; [done|]. intros e1 K1 _ _ _ _ _. vi_step. eapply wp_mono; [apply (wp_for_range (λ _ e', in_text e')); [done|]|].
      * intros _ e2 _ K2. by apply wp_delete_line_cmd.
      * intros [] e2 K2. repeat vi_step. exact K2.
    + repeat vi_step. split; [exact K|exact Hcx].
  - vi_step. apply wp_push; [done|]. intros e1 K1 E1 E2 E3 _ _. do 4 vi_step. vi_step. pose proof (Hcx l El).
    apply (wp_put_char e1 _ _ _ l); [done|lia|by rewrite E1, E2|rewrite E3; change (0 =? 0) with true; cbn iota; lia|lia|]. intros l' Hl'. vi_step. by apply (in_text_set e1).
  - vi_step. vi_step. destruct (y_pending e).
    + do 2 vi_step. vi_step. apply (wp_text_row _ l); [lia|done|]. repeat vi_step. destruct K as [? ? ? R]. split; try assumption.
      destruct R. split; try assumption. by intros ? [= <-].
    + repeat vi_step. split; [exact K|exact Hcx].
Qed.

Lemma find_at_range pat s p : pat ≠ [] → find_at pat s = Some p → 0 <= p < zlen s.
Proof.
  intros Hp. revert p. induction s as [|c s IH]; intros p E; cbn [find_at] in E; case_bool_decide as Ht.
  - by destruct pat.
  - done.
  - injection E as <-. unfold zlen. cbn [length]. lia.
  - destruct (find_at pat s) as [q|]; [|done]. cbn in E. injection E as <-. pose proof (IH q eq_refl). unfold zlen in *. cbn [length]. lia.
Qed.

Lemma wp_do_search dir e :
  in_text e → dir = 1 ∨ dir = -1 → wp (do_search dir) e (λ _ e', in_text e' ∧ (editor_ok e → editor_ok e')).
Proof.
  intros K Hd. unfold do_search. do 2 vi_step. destruct (search e) as [|p0 pat] eqn:Ep; [by apply wp_ret|]. do 4 vi_step.
  pose proof (it_cy _ K) as Hy. set (n := count e) in *. vi_step.
  apply (wp_scan_range (λ _ e', e' = e)); [done| |].
  - intros i e1 Hi ->. set (r := Z.rem (cy e + dir * (i + 1) + n * 10) n).
    assert (0 <= r < n) as Hr by (subst r; rewrite Z.rem_mod_nonneg by nia; apply Z.mod_pos_bound; lia).
    unfold n, count in Hr. destruct (lookup_lt_is_Some_2 (e_lines e) (Z.to_nat r) ltac:(lia)) as [l El].
    vi_step. apply (wp_text_row _ l); [lia|done|]. vi_step. destruct (find_at (p0 :: pat) l) as [p|] eqn:Ef; [|done].
    apply find_at_range in Ef; [|done]. repeat vi_step. assert (in_text e) as K' by done. split; [|intros _; split].
    1,2: destruct K'; split; [assumption|vi_cbn; lia|vi_cbn; lia|assumption].
    vi_cbn. intros l' E'. assert (l' = l) by congruence. subst. lia.
  - intros e1 ->. vi_step. split; [exact K|]. intros [_ H]. split; [exact K|exact H].
Qed.

Definition key_range (c : Z) : Prop := 0 <= c < 256 ∨ 1000 <= c <= 1008.

Lemma first_byte_ok l r d l' : Forall event_ok l → first_byte l = (r, d, l') → Forall event_ok l' ∧ ∀ b, r = Some b → 0 <= b < 256.
Proof.
  intros H. revert r d l'. induction H as [|ev l Hev Hl IH]; intros r d l' E; [by injection E as <- <- <-|].
  destruct ev; cbn in E; [injection E as <- <- <-|by eapply IH|injection E as <- <- <-]; [|done]. split; [done|]. intros ? [= <-]. exact Hev.
Qed.

Lemma wp_next_byte e (Q : option Z → Editor → Prop) :
  Forall event_ok (input e) → (∀ r l, Forall event_ok l → (∀ b, r = Some b → 0 <= b < 256) → Q r (set_input l e)) → wp next_byte e Q.
Proof.
  intros H HQ. unfold next_byte. do 2 vi_step. destruct (input e) as [|[b| |] l] eqn:E.
  - apply wp_ret. assert (set_input [] e = e) as <- by (rewrite <-E; by destruct e). by apply HQ.
  - inversion_clear H. repeat vi_step. apply HQ; [done|]. by intros ? [= <-].
  - inversion_clear H. repeat vi_step. by apply HQ.
  - inversion_clear H. repeat vi_step. by apply HQ.
Qed.

Lemma wp_read_key e :
  Forall event_ok (input e) → wp read_key e (λ r e', (∃ l, e' = set_input l e ∧ Forall event_ok l) ∧ ∀ k, r = Key k → key_range k).
Proof.
  intros H. unfold read_key. do 2 vi_step. destruct (first_byte (input e)) as [[r d] l] eqn:E.
  destruct (first_byte_ok _ _ _ _ H E) as [Hl Hb]. destruct r as [c|].
  2:{ repeat vi_step. split; [by exists l|]. by destruct d. }
  assert (∀ e' k, e' = e' → (∃ l, e' = set_input l e ∧ Forall event_ok l) → key_range k →
    wp (ret (Key k)) e' (λ r e', (∃ l, e' = set_input l e ∧ Forall event_ok l) ∧ ∀ k, r = Key k → key_range k)) as Hret.
  { intros e' k _ He Hk. apply wp_ret. split; [done|]. by intros ? [= <-]. }
  assert (key_range KEY_ESC) as HE by (left; unfold KEY_ESC; lia).
  vi_step. vi_step. pose proof (Hb c eq_refl). destruct (Z.eqb_spec c 27); cbn [negb]; [|apply Hret; [done|by exists l|by left]].
  vi_step. apply wp_next_byte; [exact Hl|]. intros [s0|] l0 Hl0 _; [|apply Hret; [done|by exists l0|done]].
  vi_step. apply wp_next_byte; [exact Hl0|]. intros [s1|] l1 Hl1 _; [|apply Hret; [done|by exists l1|done]].
  assert (∀ k, key_range (tilde_key k)) as HT by (intros k; unfold tilde_key; repeat case_match; unfold key_range, KEY_HOME, KEY_DEL, KEY_END, KEY_PGUP, KEY_PGDN, KEY_ESC; lia).
  assert (∀ k, key_range (bracket_key k)) as HB by (intros k; unfold bracket_key; repeat case_match; unfold key_range, KEY_UP, KEY_DOWN, KEY_RIGHT, KEY_LEFT, KEY_HOME, KEY_END, KEY_ESC; lia).
  destruct (s0 =? 91).
  - destruct ((48 <=? s1) && (s1 <=? 57)); [|apply Hret; [done|by exists l1|apply HB]].
    vi_step. apply wp_next_byte; [exact Hl1|]. intros s2 l2 Hl2 _. apply Hret; [done|by exists l2|]. destruct (_ =? 126); [apply HT|done].
  - destruct (s0 =? 79); apply Hret; try done; [by exists l1| |by exists l1].
    repeat case_match; unfold key_range, KEY_HOME, KEY_END, KEY_ESC; lia.
Qed.

Lemma editor_input e l : Forall event_ok l → editor_ok e → editor_ok (set_input l e).
Proof. intros Hl [[? ? ? R] H]. split; [|exact H]. split; try assumption. destruct R. by split. Qed.

Lemma wp_paste below e : in_text e → wp (paste below) e (λ _ e', in_text e').
Proof.
  intros K. unfold paste. do 2 vi_step. destruct (yank_line e) as [l|] eqn:Ey; [|by apply wp_ret].
  assert (line_ok l) as Hl by (by apply (it_rest _ K)). vi_step. apply wp_push; [done|]. intros e1 K1 E1 E2 _ _ _. do 2 vi_step.
  pose proof (it_cy _ K1) as Hy. destruct below; cbn [when].
  - vi_step. apply wp_insert_line; [lia|]. repeat vi_step. pose proof (in_text_insert e1 (cy e1 + 1) l K1 ltac:(lia) Hl) as [T Y X R].
    split; [exact T| |vi_cbn; lia|exact R]. vi_cbn. unfold count in *. rewrite length_text_insert by lia. lia.
  - vi_step. apply wp_insert_line; [lia|]. repeat vi_step. pose proof (in_text_insert e1 (cy e1) l K1 ltac:(lia) Hl) as [T Y X R].
    split; [exact T|exact Y|vi_cbn; lia|exact R].
Qed.

Lemma wp_undo_pop e : in_text e → wp undo_pop e (λ _ e', in_text e').
Proof.
  intros K. unfold undo_pop. do 2 vi_step. destruct (undo_of _ K) as (Hl & Ht & Hs). destruct (Z.eqb_spec (undo_top e) 0); [vi_step; exact K|].
  repeat vi_step. destruct (Hs (undo_top e - 1) ltac:(lia)) as (b & Eb & [Tb Fb]). unfold count. vi_cbn. rewrite Eb. cbn [default from_option]. change (default [] (id (Some b))) with b.
  assert (0 < length b)%nat by (destruct b; [done|cbn; lia]). destruct K as [T Y X R].
  split; vi_cbn; [done|cbn zeta; zcases; lia|done|]. destruct R as [U ? ? ? ? ? ? ? ?]. split; try assumption.
  destruct U as (? & ? & U). split_and!; [done|vi_cbn; lia|]. intros k Hk. apply U. change (0 <= k < undo_top e - 1) in Hk. lia.
Qed.

Lemma wp_toggle_case e : in_text e → wp toggle_case e (λ _ e', in_text e').
Proof.
  intros K. destruct (in_text_row e K) as (l & El & Hl). pose proof (it_cy _ K) as Hy. pose proof (it_cx _ K) as Hx. unfold toggle_case.
  do 2 vi_step. vi_step. apply (wp_text_row _ l); [lia|done|]. do 2 vi_step. destruct (Z.ltb_spec (cx e) (zlen l)) as [Hlt|]; cbn [when]; [|by apply wp_ret].
  vi_step. apply wp_push; [done|]. intros e1 K1 E1 E2 E3 _ _. vi_step. apply wp_char_at; [lia|].
  destruct (lookup_lt_is_Some_2 l (Z.to_nat (cx e)) ltac:(unfold zlen in *; lia)) as [c Ec]. rewrite Ec. change (default 0 (Some c)) with c.
  assert (0 < c < 256) as Hc by (unfold line_ok in Hl; rewrite Forall_lookup in Hl; by eapply Hl).
  assert (0 < (if isupper c then tolower c else toupper c) < 256) as Hc'.
  { unfold tolower, toupper, isupper, islower. zcases; lia. }
  set (c' := if isupper c then _ else _) in *. clearbody c'.
  vi_step. apply (wp_put_char e1 _ _ _ l); [done|lia|by rewrite E1|destruct (c' =? 0); lia|lia|]. intros l' Hl'. pose proof (in_text_set e1 (Z.to_nat (cy e)) l' K1 Hl') as [T Y X R].
  destruct (Z.ltb_spec (cx e) (zlen l - 1)); cbn [when]; repeat vi_step; (split; [exact T|exact Y|vi_cbn; lia|exact R]).
Qed.

Lemma wp_join_lines e : in_text e → wp join_lines e (λ _ e', in_text e').
Proof.
  intros K. destruct (in_text_row e K) as (l & El & Hl). pose proof (it_cy _ K) as Hy. unfold join_lines. do 4 vi_step.
  destruct (Z.ltb_spec (cy e + 1) (count e)); cbn [when]; [|by apply wp_ret].
  destruct (lookup_lt_is_Some_2 (e_lines e) (Z.to_nat (cy e + 1)) ltac:(unfold count in *; lia)) as [l2 E2].
  assert (line_ok l2) as Hl2 by (pose proof (proj2 (it_text _ K)) as F; rewrite Forall_lookup in F; by eapply F).
  vi_step. apply wp_push; [done|]. intros e1 K1 E1 E2' _ _ _. vi_step. apply (wp_text_row _ l); [lia|by rewrite E1|]. vi_step.
  apply (wp_text_row _ l2); [lia|by rewrite E1|]. vi_step. apply wp_set_line; [unfold count in *; rewrite E1; lia|]. vi_step. apply wp_delete_line.
  { unfold count in *. vi_cbn. rewrite length_insert, E1. lia. }
  repeat vi_step. set (j := match l2 with [] => l | _ => _ end). assert (line_ok j) as Hj.
  { subst j. destruct l2; [done|]. apply Forall_app_2; [done|]. apply Forall_cons_2; [lia|done]. }
  destruct K1 as [[T1 T2] Y X R]. unfold count in *. rewrite E1 in *. split; vi_cbn; [split|..|unfold zlen; lia|exact R].
  - intros E. apply (f_equal length) in E. rewrite length_text_delete, length_insert in E by (rewrite length_insert; lia). cbn [length] in E. lia.
  - apply lines_delete. by apply Forall_insert.
  - rewrite length_text_delete, length_insert by (rewrite length_insert; lia). lia.
Qed.

Lemma wp_begin_command s e (Q : unit → Editor → Prop) :
  editor_ok e → (length s < 255)%nat → (∀ e', editor_ok e' → Q tt e') → wp (begin_command s) e Q.
Proof.
  intros [K H] Hs HQ. unfold begin_command. repeat vi_step. apply HQ. destruct K as [T Y X R]. split; [|exact H]. split; try assumption.
  destruct R as [? ? [Hc Hn] ? ? ? ? ? ?]. split; try assumption; vi_cbn; [|tauto]. split; [|unfold zlen; lia].
  rewrite length_app. cbn [length]. rewrite length_drop, Hc. lia.
Qed.

Lemma wp_change_key c e m : change_key c = Some m → editor_ok e → wp m e leaves.
Proof.
  intros Hm [K Hcx]. destruct (in_text_row e K) as (l & El & Hl). pose proof (it_cy _ K) as Hy. pose proof (it_cx _ K) as Hx.
  pose proof (ro_dir _ _ _ _ _ _ _ _ _ _ _ _ (it_rest _ K)) as Hd.
  unfold change_key in Hm. repeat (case_match; [injection Hm as <-; try apply wp_fall|]); [..|discriminate Hm].
  - by apply wp_paste.
  - by apply wp_paste.
  - by apply wp_undo_pop.
  - vi_step. eapply wp_mono; [apply wp_read_key, (it_rest _ K)|]. intros r e0 [(inp & -> & Hi) Hk]. destruct (editor_input e inp Hi (conj K Hcx)) as [K0 _].
    destruct r as [k| |]; [|by apply wp_ret..]. pose proof (Hk k eq_refl) as Hkr. destruct (Z.eqb_spec k KEY_ESC).
    { repeat vi_step. exact K0. }
    vi_step. vi_step. apply wp_push; [done|]. intros e1 K1 E1 E2 E3 _ _. do 2 vi_step. vi_step. apply (wp_text_row _ l); [rewrite E2; exact (proj1 Hy)|by rewrite E1, E2|].
    do 2 vi_step. rewrite E3. change (cx (set_input inp e)) with (cx e).
    destruct (Z.ltb_spec (cx e) (zlen l)); cbn [when]; [|repeat vi_step; exact K1]. vi_step.
    apply (wp_put_char e1 _ _ _ l); [done|rewrite E2; exact (proj1 Hy)|by rewrite E1, E2|destruct (_ =? 0); lia|unfold u8; lia|].
    intros l' Hl'. repeat vi_step. by apply (in_text_set e1).
  - by apply wp_toggle_case.
  - vi_step. apply wp_begin_command; [by split|cbn; lia|]. intros e' K'. by apply wp_ret.
  - do 2 vi_step. eapply wp_mono; [apply wp_do_search; [done|by left]|]. by intros [] e' [? _].
  - do 2 vi_step. eapply wp_mono; [apply wp_do_search; [done|right; lia]|]. by intros [] e' [? _].
  - vi_step. apply wp_begin_command; [by split|cbn; lia|]. intros e' K'. repeat vi_step. exact K'.
  - by apply wp_join_lines.
Qed.

(* ------------------------------------------------------------------ *)
(** ** Files *)

Lemma fgets_split n s : let '(l, s') := fgets n s in s = l ++ s'.
Proof.
  revert s. induction n as [|n IH]; intros [|c s]; cbn [fgets]; try done. destruct (c =? 10); [done|].
  pose proof (IH s) as H. destruct (fgets n s) as [l s']. by rewrite H.
Qed.

Lemma until_zero_ok s : Forall (λ c, 0 <= c < 256) s → line_ok (until_zero s).
Proof.
  induction 1 as [|c s Hc _ IH]; cbn [until_zero]; [by apply Forall_nil_2|]. destruct (Z.eqb_spec c 0); [by apply Forall_nil_2|].
  apply Forall_cons_2; [lia|done].
Qed.

Lemma strip_last_ok c s : line_ok s → line_ok (strip_last c s).
Proof. intros H. unfold strip_last. case_bool_decide; [by apply Forall_take|done]. Qed.

Lemma read_lines_ok n s : Forall (λ c, 0 <= c < 256) s → Forall line_ok (read_lines n s).
Proof.
  revert s. induction n as [|n IH]; intros s Hs; [by apply Forall_nil_2|]. cbn [read_lines]. destruct s as [|c s]; [by apply Forall_nil_2|].
  pose proof (fgets_split (Z.to_nat (MAX_LINE_LEN - 1)) (c :: s)) as E. destruct (fgets _ _) as [l s']. rewrite E in Hs.
  apply Forall_app in Hs as [H1 H2]. apply Forall_cons_2; [|by apply IH]. by apply strip_last_ok, strip_last_ok, until_zero_ok.
Qed.

(** The lines of the file after those that are there. *)
Lemma wp_append_lines ls e :
  wp (for_each ls (λ l, n ← gets count; buf_insert_line n l)) e (λ _ e', e' = set_e_lines (e_lines e ++ ls) e).
Proof.
  eapply wp_mono; [apply (wp_for_each (λ done_ e', e' = set_e_lines (e_lines e ++ done_) e))|].
  - rewrite app_nil_r. by destruct e.
  - intros done_ l e1 _ ->. do 2 vi_step. apply wp_insert_line; [unfold count; lia|]. unfold count. rewrite Nat2Z.id. vi_cbn.
    by rewrite firstn_all, drop_all, <-app_assoc.
  - by intros [] e' ->.
Qed.

Lemma wp_file_open f e :
  e_lines e = [] → map_Forall (λ _, Forall (λ c, 0 <= c < 256)) (files e) →
  wp (file_open f) e (λ _ e', ∃ b, e' = set_e_lines b (set_filename (take 255 f) e) ∧ text_ok b ∧
    b = match files e !! f with Some (c :: s) => read_lines (length (c :: s)) (c :: s) | _ => [[]] end).
Proof.
  intros H0 Hf. unfold file_open. do 2 vi_step. do 2 vi_step. change (files (set_filename (take 255 f) e)) with (files e).
  assert (text_ok [[]]) as T0 by (split; [done|]; by repeat constructor).
  destruct (files e !! f) as [s|] eqn:Es.
  - vi_step. eapply wp_mono; [apply wp_append_lines|]. intros [] e1 ->. vi_cbn. rewrite H0, app_nil_l. do 2 vi_step. unfold count. vi_cbn.
    destruct s as [|c s].
    + cbn [length read_lines]. change (Z.of_nat 0 =? 0) with true. cbn [when]. apply wp_insert_line; [unfold count; vi_cbn; lia|]. vi_cbn. by exists [[]].
    + assert (length (read_lines (length (c :: s)) (c :: s)) ≠ 0%nat) as Hn.
      { cbn [length read_lines]. destruct (fgets _ _). cbn [length]. lia. }
      rewrite (proj2 (Z.eqb_neq _ _)) by lia. cbn [when]. apply wp_ret. eexists. split; [reflexivity|]. split; [|done].
      split; [by intros E; rewrite E in Hn|]. apply read_lines_ok. by apply (Hf f).
  - apply wp_insert_line; [unfold count; lia|]. vi_cbn. rewrite H0. by exists [[]].
Qed.

Lemma line_bytes l : line_ok l → Forall (λ c, 0 <= c < 256) l.
Proof. intros H. apply (Forall_impl _ _ _ H). intros c Hc. cbn in *. lia. Qed.

Lemma saved_bytes b : Forall line_ok b → Forall (λ c, 0 <= c < 256) (concat ((λ l, l ++ [10]) <$> b)).
Proof.
  induction 1 as [|l b Hl _ IH]; [by apply Forall_nil_2|]. cbn [fmap list_fmap concat]. apply Forall_app_2; [|exact IH].
  apply Forall_app_2; [by apply line_bytes|]. apply Forall_cons_2; [lia|by apply Forall_nil_2].
Qed.

Lemma wp_file_save cw e :
  editor_ok e → wp (file_save cw) e (λ _ e', editor_ok e').
Proof.
  intros [K H]. unfold file_save. do 2 vi_step. destruct (filename e) as [|c name] eqn:En; [repeat vi_step; by split|].
  destruct (cw (c :: name)); cbn [negb]; repeat vi_step; [|by split]. destruct K as [T Y X R]. split; [|exact H].
  split; try assumption. destruct R. split; try assumption. vi_cbn. apply map_Forall_insert_2; [|done]. apply saved_bytes, T.
Qed.

Lemma wp_exec_command cw e : editor_ok e → wp (exec_command cw) e (λ _ e', editor_ok e').
Proof.
  intros K. assert (editor_ok (set_mode 0 e)) as K0.
  { destruct K as [[T Y X R] H]. split; [|exact H]. split; try assumption. apply rest_mode; tauto. }
  unfold exec_command. do 2 vi_step. set (cmd := until_zero _). clearbody cmd. do 2 vi_step. set (e0 := set_mode 0 e) in *. clearbody e0. clear K e.
  pose proof (it_cy _ (proj1 K0)) as Hy.
  case_bool_decide; [do 2 vi_step; destruct (dirty e0); repeat vi_step; exact K0|].
  case_bool_decide; [vi_step; exact K0|].
  destruct (_ || _).
  { vi_step. eapply wp_mono; [by apply wp_file_save|]. intros r e1 K1. by apply wp_ret. }
  case_bool_decide.
  { do 2 vi_step. vi_step. eapply wp_mono; [by apply wp_file_save|]. intros r e1 K1. by apply wp_ret. }
  case_bool_decide.
  { vi_step. eapply wp_mono; [by apply wp_file_save|]. intros r e1 K1. by apply wp_ret. }
  case_bool_decide.
  { do 2 vi_step. vi_step. pose proof (it_rest _ (proj1 K0)) as R. eapply wp_mono; [apply wp_file_open; [done|apply R]|].
    intros [] e1 (b & -> & T & _). repeat vi_step. assert (0 < length b)%nat by (destruct b; [by destruct T|cbn; lia]). split.
    - split; [exact T|vi_cbn; lia|vi_cbn; lia|exact R].
    - vi_cbn. intros l _. unfold zlen. lia. }
  case_bool_decide.
  { do 2 vi_step. do 2 vi_step. vi_step. eapply wp_mono; [apply (wp_do_search 1); [|by left]|].
    - destruct K0 as [[T Y X R] _]. split; try assumption. destruct R. by split.
    - intros [] e1 [_ K1]. apply wp_ret. apply K1. destruct K0 as [[T Y X R] H']. split; [|exact H']. split; try assumption. destruct R. by split. }
  destruct (Z.ltb_spec 0 (atoi cmd)); repeat vi_step; [|exact K0].
  assert (0 <= (if count e0 <=? atoi cmd - 1 then count e0 - 1 else atoi cmd - 1) < count e0) by (zcases; lia).
  destruct K0 as [K0 _]. split; [same_text K0|]. vi_cbn. intros l _. unfold zlen. lia.
Qed.

Lemma wp_insert_char c e : editor_ok e → 0 < c < 256 → wp (insert_char c) e (λ _ e', editor_ok e').
Proof.
  intros [K H] Hc. destruct (in_text_row e K) as (l & El & Hl). pose proof (it_cy _ K) as Hy. pose proof (it_cx _ K) as Hx. pose proof (H l El).
  unfold insert_char. do 4 vi_step. vi_step. rewrite (proj2 (Z.leb_gt _ _)) by lia. cbn [when]. vi_step. vi_step. apply (wp_text_row _ l); [lia|done|].
  do 2 vi_step. rewrite (proj2 (Z.ltb_ge (zlen l) (cx e))) by lia. do 2 vi_step. vi_step. apply wp_assert; [blia|]. vi_step.
  apply wp_set_line; [done|]. repeat vi_step. replace (u8 c) with c by (unfold u8; lia).
  assert (line_ok (take (Z.to_nat (cx e)) l ++ c :: drop (Z.to_nat (cx e)) l)) as Hl'.
  { apply Forall_app_2; [by apply Forall_take|]. apply Forall_cons_2; [lia|by apply Forall_drop]. }
  pose proof (in_text_set e (Z.to_nat (cy e)) _ K Hl') as [T Y X R]. split; [split; [exact T|exact Y|vi_cbn; lia|exact R]|].
  vi_cbn. intros l' E'. rewrite list_lookup_insert_eq in E' by (unfold count in *; lia). injection E' as <-. unfold zlen in *.
  rewrite length_app, length_take. cbn [length]. rewrite length_drop. lia.
Qed.

Lemma wp_insert_newline e : editor_ok e → wp insert_newline e (λ _ e', editor_ok e').
Proof.
  intros [K H]. destruct (in_text_row e K) as (l & El & Hl). pose proof (it_cy _ K) as Hy. pose proof (it_cx _ K) as Hx. pose proof (H l El).
  unfold insert_newline. do 2 vi_step. vi_step. apply (wp_text_row _ l); [lia|done|]. do 2 vi_step. vi_step. apply wp_assert; [blia|]. vi_step.
  apply wp_set_line; [done|]. pose proof (in_text_set e (Z.to_nat (cy e)) (take (Z.to_nat (cx e)) l) K ltac:(by apply Forall_take)) as K1.
  vi_step. pose proof (it_cy _ K1) as Hy1. apply wp_insert_line; [change (cy (set_e_lines _ e)) with (cy e) in Hy1; lia|]. repeat vi_step.
  pose proof (in_text_insert _ (cy e + 1) (drop (Z.to_nat (cx e)) l) K1 ltac:(change (cy (set_e_lines _ e)) with (cy e) in Hy1; lia) ltac:(by apply Forall_drop)) as [T Y X R].
  split; [split; [exact T| |vi_cbn; lia|exact R]|vi_cbn; intros l' _; unfold zlen; lia].
  vi_cbn. rewrite length_text_insert; rewrite length_insert; unfold count in *; lia.
Qed.

Lemma wp_backspace e : editor_ok e → wp backspace e (λ _ e', editor_ok e').
Proof.
  intros [K H]. destruct (in_text_row e K) as (l & El & Hl). pose proof (it_cy _ K) as Hy. pose proof (it_cx _ K) as Hx. pose proof (H l El).
  unfold backspace. do 4 vi_step. destruct (Z.eqb_spec (cx e) 0), (Z.eqb_spec (cy e) 0); cbn [andb]; try (vi_step; by split).
  2,3: rewrite (proj2 (Z.ltb_lt _ _)) by lia; vi_step; apply (wp_text_row _ l); [lia|done|]; vi_step; apply wp_assert; [blia|]; vi_step;
    apply wp_set_line; [done|]; repeat vi_step.
  2,3: pose proof (in_text_set e (Z.to_nat (cy e)) (take (Z.to_nat (cx e - 1)) l ++ drop (Z.to_nat (cx e)) l) K
      ltac:(apply Forall_app_2; [by apply Forall_take|by apply Forall_drop])) as [T Y X R]; split; [split; [exact T|exact Y|vi_cbn; lia|exact R]|];
    vi_cbn; intros l' E'; rewrite list_lookup_insert_eq in E' by (unfold count in *; lia); injection E' as <-; unfold zlen in *;
    rewrite length_app, length_take, length_drop; lia.
  rewrite (proj2 (Z.ltb_ge _ _)) by lia.
  destruct (lookup_lt_is_Some_2 (e_lines e) (Z.to_nat (cy e - 1)) ltac:(unfold count in *; lia)) as [p Ep].
  assert (line_ok p) as Hp by (pose proof (proj2 (it_text _ K)) as F; rewrite Forall_lookup in F; by eapply F).
  vi_step. apply (wp_text_row _ p); [lia|done|]. vi_step. apply (wp_text_row _ l); [lia|done|]. vi_step. apply wp_set_line; [lia|]. vi_step.
  apply wp_delete_line; [unfold count in *; vi_cbn; rewrite length_insert; lia|]. repeat vi_step.
  destruct K as [[T1 T2] Y X R]. unfold count in *. split; [split; [split| | |exact R]|].
  - vi_cbn. intros E. apply (f_equal length) in E. rewrite length_text_delete, length_insert in E by (rewrite length_insert; lia). cbn [length] in E. lia.
  - vi_cbn. apply lines_delete. apply Forall_insert; [done|]. by apply Forall_app_2.
  - vi_cbn. rewrite length_text_delete, length_insert by (rewrite length_insert; lia). lia.
  - vi_cbn. unfold zlen. lia.
  - vi_cbn. intros l' E'. rewrite lookup_app_l in E' by (rewrite length_take, length_insert; lia).
    rewrite lookup_take_lt, list_lookup_insert_eq in E' by lia. injection E' as <-. unfold zlen. rewrite length_app. lia.
Qed.

Lemma wp_insert_mode_key c e :
  editor_ok e → mode e = 1 → key_range c → c ≠ KEY_PGUP → c ≠ KEY_PGDN → wp (insert_mode_key c) e (λ _ e', editor_ok e').
Proof.
  intros [K H] Hm Hr N1 N2. destruct (in_text_row e K) as (l & El & Hl). pose proof (it_cy _ K) as Hy. pose proof (it_cx _ K) as Hx. pose proof (H l El) as Hlen.
  unfold insert_mode_key.
  destruct (c =? KEY_ESC) eqn:?.
  { do 2 vi_step. assert (∀ x, 0 <= x → in_text (set_mode 0 (set_cx x e))) as Kx.
    { intros x Hx0. destruct K as [T Y X R]. split; [exact T|exact Y|exact Hx0|]. apply (rest_mode (set_cx x e)); [exact R|tauto]. }
    vi_step. destruct (Z.ltb_spec 0 (cx e)); cbn [when]; repeat vi_step; apply wp_clamp_ok; [apply Kx; lia|].
    destruct K as [T Y X R]. split; [exact T|exact Y|exact X|]. apply rest_mode; [exact R|tauto]. }
  destruct (_ || _); [by apply wp_backspace|]. destruct (c =? KEY_DEL) eqn:?; [by apply wp_delete_char|].
  destruct ((c =? 13) || (c =? 10)).
  { vi_step. apply wp_push; [done|]. intros e1 K1 E1 E2 E3 _ _. apply wp_insert_newline. split; [done|]. intros l' E'. rewrite E3. apply H. by rewrite <-E1, <-E2. }
  destruct (c =? KEY_UP) eqn:?.
  { repeat vi_step. apply wp_clamp_ok. assert (0 <= (if cy e - 1 <? 0 then 0 else cy e - 1) < count e) by (zcases; lia). same_text K. }
  destruct (c =? KEY_DOWN) eqn:?.
  { repeat vi_step. apply wp_clamp_ok. assert (0 <= (if count e <=? cy e + 1 then count e - 1 else cy e + 1) < count e) by (zcases; lia). same_text K. }
  assert (∀ x, 0 <= x <= zlen l → editor_ok (set_cx x e)) as Kx.
  { intros x Hx0. split; [same_text K|]. vi_cbn. intros l' E'. assert (l' = l) by congruence. subst. lia. }
  destruct (c =? KEY_LEFT) eqn:?.
  { do 2 vi_step. destruct (Z.ltb_spec 0 (cx e)); cbn [when]; vi_step; [apply Kx; lia|by split]. }
  destruct (c =? KEY_RIGHT) eqn:?.
  { do 2 vi_step. vi_step. apply (wp_cur_line_len l); [done|done|]. destruct (Z.ltb_spec (cx e) (zlen l)); cbn [when]; vi_step; [apply Kx; lia|by split]. }
  destruct (c =? KEY_HOME) eqn:?; [vi_step; apply Kx; unfold zlen; lia|].
  destruct (c =? KEY_END) eqn:?; [vi_step; apply (wp_cur_line_len l); [done|done|]; vi_step; apply Kx; unfold zlen; lia|].
  vi_step. unfold iscntrl. assert (0 <= c < 256) as Hc by (unfold key_range, KEY_PGUP, KEY_PGDN, KEY_DEL, KEY_UP, KEY_DOWN, KEY_LEFT, KEY_RIGHT, KEY_HOME, KEY_END in *; blia).
  replace ((0 <=? c) && (c <? 256)) with true by (symmetry; blia). vi_step. destruct ((c <? 32) || (c =? 127)) eqn:Ec; cbn [negb when]; [by apply wp_ret|].
  do 2 vi_step. vi_step. apply (wp_cur_line_len l); [done|done|]. vi_step. destruct (_ && _); cbn [when].
  - apply wp_push; [done|]. intros e1 K1 E1 E2 E3 _ _. apply wp_insert_char; [|blia]. split; [done|]. intros l' E'. rewrite E3. apply H. by rewrite <-E1, <-E2.
  - vi_step. apply wp_insert_char; [by split|blia].
Qed.

Lemma wp_put_cmd i c e (Q : unit → Editor → Prop) :
  editor_ok e → 0 <= i < 256 → (∀ b, length b = 256%nat → editor_ok (set_cmdbuf b e) → Q tt (set_cmdbuf b e)) → wp (put_cmd i c) e Q.
Proof.
  intros [[T Y X R] H] Hi HQ. unfold put_cmd. do 2 vi_step. destruct (ro_cmd _ _ _ _ _ _ _ _ _ _ _ _ R) as [Hl Hn].
  vi_step. apply wp_assert; [unfold zlen; rewrite Hl; blia|]. vi_step. apply HQ; [by rewrite length_insert|]. split; [|exact H].
  split; try assumption. destruct R. split; try assumption. vi_cbn. by rewrite length_insert.
Qed.

Lemma editor_cmdlen e n : editor_ok e → 0 <= n <= 255 → editor_ok (set_cmdlen n e).
Proof. intros [[T Y X R] H] Hn. split; [|exact H]. split; try assumption. destruct R as [? ? [? ?] ? ? ? ? ? ?]. by split. Qed.
Lemma editor_mode0 e : editor_ok e → editor_ok (set_mode 0 e).
Proof. intros [[T Y X R] H]. split; [|exact H]. split; try assumption. apply rest_mode; tauto. Qed.

Lemma wp_command_mode_key cw c e : editor_ok e → 0 <= c < 256 → wp (command_mode_key cw c) e (λ _ e', editor_ok e').
Proof.
  intros K Hc. unfold command_mode_key. do 2 vi_step. pose proof (ro_cmd _ _ _ _ _ _ _ _ _ _ _ _ (it_rest _ (proj1 K))) as [Hl Hn].
  destruct (c =? KEY_ESC).
  { do 2 vi_step. vi_step. apply wp_put_cmd; [by apply editor_mode0|lia|]. intros b Hb Kb. repeat vi_step. apply editor_cmdlen; [done|lia]. }
  destruct (_ || _); [by apply wp_exec_command|]. destruct (Z.eqb_spec c KEY_BACKSPACE), (Z.ltb_spec 0 (cmdlen e)); cbn [andb].
  { do 2 vi_step. vi_step. apply wp_put_cmd; [apply editor_cmdlen; [done|lia]|lia|]. intros b Hb Kb. vi_step.
    destruct (_ =? 0); cbn [when]; repeat vi_step; [by apply editor_mode0|done]. }
  all: vi_step; unfold iscntrl; replace ((0 <=? c) && (c <? 256)) with true by (symmetry; blia); vi_step; vi_step;
    destruct (negb _ && (cmdlen e <? 255)) eqn:E; cbn [when]; [|repeat vi_step; exact K];
    vi_step; (apply wp_put_cmd; [done|lia|]); intros b Hb Kb; do 2 vi_step;
    (apply wp_put_cmd; [apply editor_cmdlen; [done|blia]|blia|]); intros b' Hb' Kb'; repeat vi_step; exact Kb'.
Qed.

Lemma wp_normal_key c e :
  editor_ok e → (c = 98 → cy e = 0 ∨ 0 < cx e ∧ count_buf e <= 1) → (48 <= c <= 57 → count_buf e < 214748364) →
  wp (normal_key c) e (λ _ e', editor_ok e').
Proof.
  intros K Hb Hd. unfold normal_key. do 8 vi_step. pose proof (ro_count _ _ _ _ _ _ _ _ _ _ _ _ (it_rest _ (proj1 K))) as Hn.
  assert (∀ n, 0 <= n < 2147483648 → editor_ok (set_count_buf n e)) as Kn.
  { intros n Hn'. destruct K as [[T Y X R] H]. split; [|exact H]. split; try assumption. destruct R. by split. }
  destruct (_ && negb (y_pending e)) eqn:E1.
  { unfold add_digit. vi_step. apply wp_assert; [blia|]. repeat vi_step. apply Kn. blia. }
  destruct ((c =? 48) && _) eqn:E2.
  { unfold add_digit. vi_step. apply wp_assert; [blia|]. repeat vi_step. apply Kn. blia. }
  do 2 vi_step. pose proof (Kn 0 ltac:(lia)) as K0. set (rep := if 0 <? count_buf e then count_buf e else 1).
  assert (0 < rep ∧ (count_buf e <= 1 → rep = 1)) as [Hr Hr1] by (subst rep; destruct (Z.ltb_spec 0 (count_buf e)); lia).
  vi_step. eapply (wp_mono _ _ leaves).
  - unfold normal_branch. destruct (move_key c rep) as [m|] eqn:Em; [eapply wp_move_key; [exact Em|done|done|]|].
    { intros ->. destruct (Hb eq_refl) as [?|[? ?]]; [by left|right]. split; [done|by apply Hr1]. }
    destruct (insert_key c) as [m|] eqn:Ei; [by eapply wp_insert_key|].
    destruct (delete_key c rep) as [m|] eqn:Ed; [by eapply wp_delete_key|].
    destruct (change_key c) as [m|] eqn:Ec; [by eapply wp_change_key|]. apply wp_ret. apply K0.
  - intros [o|] e1 K1; [by apply wp_ret|]. do 6 vi_step. vi_step. eapply wp_mono; [apply wp_clamp_ok; exact K1|]. intros [] e2 K2. by apply wp_ret.
Qed.

Lemma wp_on_key cw c e : editor_ok e → key_ok e c → wp (on_key cw c) e (λ _ e', editor_ok e').
Proof.
  intros K (Hr & Hb & Hd & H1 & H2). unfold on_key. do 2 vi_step.
  destruct (Z.eqb_spec (mode e) 0) as [E|N0].
  { destruct (c =? KEY_ESC); [|apply wp_normal_key; auto]. repeat vi_step. destruct K as [[T Y X R] H]. split; [|exact H].
    split; try assumption. destruct R. by split. }
  destruct (Z.eqb_spec (mode e) 1) as [E|N1].
  { vi_step. destruct (H1 E). eapply wp_mono; [by apply wp_insert_mode_key|]. intros [] e' K'. by apply wp_ret. }
  destruct (Z.eqb_spec (mode e) 2) as [E|N2].
  { apply wp_command_mode_key; [done|]. pose proof (H2 E). lia. }
  by apply wp_ret.
Qed.

(** C26: The editor stays inside its buffers. In a state where the cursor is on
    a character of the text or at the end of a line, every key that is [key_ok]
    leads, without a fault, to such a state again, in all three modes: movement
    with counts, insertion, deletion, joining, yank and paste, undo, search,
    replacement, commands that save, open, quit, search and go to a line. Not
    [key_ok] are [b] where it can go to the line above, digits after a count
    that would no longer fit an [int], and the special keys that are classified
    as characters, which do fault: the page keys while inserting, and every
    special key in a command. *)
Theorem vi_key_safe cw c e :
  editor_ok e →
  (key_ok e c → wp (on_key cw c) e (λ _ e', editor_ok e')) ∧
  (mode e = 1 ∧ (c = KEY_PGUP ∨ c = KEY_PGDN) ∨ mode e = 2 ∧ KEY_UP <= c <= KEY_PGDN → on_key cw c e = None).
Proof.
  intros K. split; [by apply wp_on_key|]. unfold KEY_UP, KEY_PGDN. intros H. unfold on_key. apply bind_fault. vi_step.
  destruct H as [[-> Hc]|[-> Hc]].
  - change (1 =? 0) with false. change (1 =? 1) with true. cbn iota. unfold bind.
    assert (insert_mode_key c e = None) as -> by (by destruct Hc as [-> | ->]). done.
  - change (2 =? 0) with false. change (2 =? 1) with false. change (2 =? 2) with true. cbn iota. unfold command_mode_key, KEY_ESC, KEY_BACKSPACE. apply bind_fault. vi_step. rewrite !(proj2 (Z.eqb_neq c _)) by lia. cbn [orb andb].
    unfold bind, iscntrl. by rewrite (proj2 (Z.ltb_ge c 256)), andb_false_r by lia.
Qed.

(** C32: The movement [b] from the first column of a line to the line above looks
    for the word in the line it came from: when the line above is longer by two
    characters or more, it reads behind the end of that line. *)
Theorem vi_word_back_overruns cw e line prev :
  mode e = 0 → count_buf e <= 1 → cx e = 0 → 0 < cy e →
  e_lines e !! Z.to_nat (cy e) = Some line → e_lines e !! Z.to_nat (cy e - 1) = Some prev → zlen line + 1 < zlen prev →
  on_key cw 98 e = None.
Proof.
  intros Hm Hc Hx Hy El Ep Hl. unfold on_key. apply bind_fault. vi_step. rewrite Hm. cbn [Z.eqb]. change (98 =? KEY_ESC) with false. cbn iota.
  unfold normal_key. do 4 (apply bind_fault; vi_step). change ((49 <=? 98) && (98 <=? 57)) with false. change (98 =? 48) with false. cbn [andb].
  replace (if 0 <? count_buf e then count_buf e else 1) with 1 by (zcases; lia). apply bind_fault. vi_step.
  change (normal_branch 98 1) with (fall (for_range 0 1 (λ _, word_backward))). unfold fall, for_range. change (Z.to_nat (1 - 0)) with 1%nat.
  cbn [for_n]. unfold bind at 1 2 3. enough (word_backward (set_count_buf 0 e) = None) as -> by done. set (e0 := set_count_buf 0 e).
  unfold word_backward. apply bind_fault. vi_step. apply bind_fault. apply (wp_text_row _ line); [change (cy e0) with (cy e); lia|done|].
  apply bind_fault. vi_step. change (cx e0) with (cx e). change (cy e0) with (cy e). rewrite Hx, (proj2 (Z.ltb_lt 0 (cy e))) by lia.
  change ((0 =? 0) && true) with true. cbn iota. apply bind_fault. do 2 vi_step. vi_step. apply (wp_text_row _ prev); [lia|done|]. vi_step. rewrite (proj2 (Z.ltb_lt _ _)) by (unfold zlen in *; lia). cbn zeta.
  unfold bind at 1. cbn [while_n]. rewrite (proj2 (Z.ltb_lt _ _)) by (unfold zlen in *; lia). unfold bind, char_at.
  by replace ((0 <=? zlen prev - 1) && (zlen prev - 1 <=? zlen line)) with false by (symmetry; blia).
Qed.

(* ------------------------------------------------------------------ *)
(** ** Lines of a text *)

Fixpoint split_lines (s : list Z) : list (list Z) :=
  match s with
  | [] => [[]]
  | c :: s =>
      if c =? 10 then [] :: split_lines s
      else match split_lines s with l :: ls => (c :: l) :: ls | [] => [[c]] end
  end.
Definition saved (b : list (list Z)) : list Z := concat ((λ l, l ++ [10]) <$> b).

Lemma split_lines_ne s : split_lines s ≠ [].
Proof. destruct s as [|c s]; [done|]. cbn. destruct (c =? 10); [done|]. by destruct (split_lines s). Qed.

Lemma split_lines_plain u s : 10 ∉ u → split_lines (u ++ s) = match split_lines s with l :: ls => (u ++ l) :: ls | [] => [u] end.
Proof.
  induction u as [|c u IH]; intros Hu; cbn [app].
  - destruct (split_lines s) eqn:E; [by apply split_lines_ne in E|done].
  - apply not_elem_of_cons in Hu as [Hc Hu]. cbn [split_lines]. rewrite (proj2 (Z.eqb_neq _ _)) by congruence. rewrite IH by done.
    by destruct (split_lines s).
Qed.

Lemma split_lines_nl u s : 10 ∉ u → split_lines (u ++ 10 :: s) = u :: split_lines s.
Proof. intros Hu. rewrite split_lines_plain by done. cbn [split_lines Z.eqb]. change (10 =? 10) with true. cbn iota. by rewrite app_nil_r. Qed.

Lemma split_lines_one u : 10 ∉ u → split_lines u = [u].
Proof. intros Hu. rewrite <-(app_nil_r u) at 1. rewrite split_lines_plain by done. cbn. by rewrite app_nil_r. Qed.

(** A line that [file_open] reads back as it was written. *)
Definition plain_line (l : list Z) : Prop := (length l < 4095)%nat ∧ 10 ∉ l ∧ last l ≠ Some 13.

Lemma fgets_line n l s : (length l < n)%nat → 10 ∉ l → fgets n (l ++ 10 :: s) = (l ++ [10], s).
Proof.
  revert n. induction l as [|c l IH]; intros [|n] Hn Hl; cbn [length] in Hn; try lia; cbn [app fgets].
  - done.
  - apply not_elem_of_cons in Hl as [Hc Hl]. rewrite (proj2 (Z.eqb_neq _ _)) by congruence. by rewrite IH by (done || lia).
Qed.

Lemma until_zero_id s : Forall (λ c, c ≠ 0) s → until_zero s = s.
Proof. induction 1 as [|c s Hc _ IH]; [done|]. cbn. rewrite (proj2 (Z.eqb_neq _ _)) by done. by rewrite IH. Qed.

Lemma line_ok_ne0 l : line_ok l → Forall (λ c, c ≠ 0) l.
Proof. intros H. apply (Forall_impl _ _ _ H). intros c Hc. cbn in *. lia. Qed.

Lemma strip_line l : line_ok l → last l ≠ Some 13 → strip_last 13 (strip_last 10 (until_zero (l ++ [10]))) = l.
Proof.
  intros Hl Hr. rewrite until_zero_id.
  2:{ apply Forall_app_2; [by apply line_ok_ne0|]. apply Forall_cons_2; [lia|by apply Forall_nil_2]. }
  unfold strip_last at 2. rewrite bool_decide_true by apply last_snoc. rewrite length_app. cbn [length].
  replace (length l + 1 - 1)%nat with (length l) by lia. rewrite take_app_length. unfold strip_last. by rewrite bool_decide_false.
Qed.

Lemma read_saved n b : Forall line_ok b → Forall plain_line b → (length (saved b) <= n)%nat → read_lines n (saved b) = b.
Proof.
  intros Hb Hp. revert n. induction Hb as [|l b Hl Hb IH]; intros n Hn.
  - by destruct n.
  - apply Forall_cons in Hp as [(P1 & P2 & P3) Hp]. unfold saved in *. cbn [fmap list_fmap concat] in *. rewrite <-app_assoc in *. cbn [app] in *.
    set (s := concat _) in *. rewrite length_app in Hn. cbn [length] in Hn. destruct n as [|n]; [lia|].
    replace (read_lines (S n) (l ++ 10 :: s)) with (let '(x, y) := fgets (Z.to_nat (MAX_LINE_LEN - 1)) (l ++ 10 :: s) in
      strip_last 13 (strip_last 10 (until_zero x)) :: read_lines n y) by (cbn [read_lines]; by destruct l).
    rewrite fgets_line by (done || (unfold MAX_LINE_LEN; lia)). rewrite strip_line by done. f_equal. apply IH; [done|lia].
Qed.

(* ------------------------------------------------------------------ *)
(** ** Typing *)

Definition printable (c : Z) : Prop := 32 <= c < 256 ∧ c ≠ 127.
Definition typed (c : Z) : Prop := printable c ∨ c = 10.

(** The cursor between [u] and [v] of a line. *)
Record cursor_at (e : Editor) (pre : list (list Z)) (u v : list Z) (post : list (list Z)) : Prop := {
  ca_ok : editor_ok e;
  ca_lines : e_lines e = pre ++ (u ++ v) :: post;
  ca_cy : cy e = zlen pre;
  ca_cx : cx e = zlen u
}.

Lemma cursor_row e pre u v post : cursor_at e pre u v post → e_lines e !! Z.to_nat (cy e) = Some (u ++ v).
Proof. intros [_ El Ey _]. rewrite El, Ey. unfold zlen. rewrite Nat2Z.id, lookup_app_r by lia. by rewrite Nat.sub_diag. Qed.

Lemma insert_middle {A} (pre : list A) x y post : <[length pre := y]> (pre ++ x :: post) = pre ++ y :: post.
Proof. replace (length pre) with (length pre + 0)%nat by lia. by rewrite insert_app_r. Qed.

Lemma wp_type_char cw e pre u v post c :
  cursor_at e pre u v post → mode e = 1 → printable c →
  wp (on_key cw c) e (λ o e', o = Running ∧ cursor_at e' pre (u ++ [c]) v post ∧ mode e' = 1 ∧ files e' = files e).
Proof.
  intros C Hm [Hc Hc7]. pose proof C as [K El Ey Ex]. pose proof (cursor_row _ _ _ _ _ C) as Er.
  assert (key_ok e c) as Kk by (unfold key_ok, KEY_PGUP, KEY_PGDN; rewrite Hm; split_and!; lia).
  eapply wp_mono; [apply (wp_and _ _ _ (λ o e', o = Running ∧ e_lines e' = pre ++ ((u ++ [c]) ++ v) :: post ∧ cy e' = cy e ∧ cx e' = cx e + 1 ∧
    mode e' = 1 ∧ files e' = files e) (wp_on_key cw c e K Kk))|].
  2:{ intros o e' (K' & -> & H1 & H2 & H3 & H4 & H5). split_and!; try done. split; [done|done|by rewrite H2|]. rewrite H3, Ex. unfold zlen. rewrite length_app. cbn [length]. lia. }
  assert (∀ e1, in_text e1 → e_lines e1 = e_lines e → cy e1 = cy e → cx e1 = cx e → mode e1 = 1 → files e1 = files e →
    wp (insert_char c) e1 (λ _ e', e_lines e' = pre ++ ((u ++ [c]) ++ v) :: post ∧ cy e' = cy e ∧ cx e' = cx e + 1 ∧ mode e' = 1 ∧ files e' = files e)) as Hins.
  { intros e1 K1 E1 E2 E3 E4 E5. pose proof (it_cy _ K1) as Hy. unfold insert_char. do 4 vi_step. vi_step. rewrite (proj2 (Z.leb_gt _ _)) by lia. cbn [when]. vi_step.
    vi_step. apply (wp_text_row _ (u ++ v)); [lia|by rewrite E1, E2|]. do 2 vi_step. rewrite E3, Ex.
    rewrite (proj2 (Z.ltb_ge _ _)) by (unfold zlen; rewrite length_app; lia). do 2 vi_step. vi_step. apply wp_assert; [unfold zlen; blia|]. vi_step.
    apply wp_set_line; [exact Hy|]. repeat vi_step. vi_cbn. split_and!; try done. rewrite E1, El, E2, Ey. unfold zlen. rewrite !Nat2Z.id, insert_middle.
    rewrite take_app_length, drop_app_length. replace (u8 c) with c by (unfold u8; lia). by rewrite <-!app_assoc. }
  unfold on_key. do 2 vi_step. rewrite Hm. change (1 =? 0) with false. change (1 =? 1) with true. cbn iota. vi_step. unfold insert_mode_key.
  unfold KEY_ESC, KEY_BACKSPACE, KEY_CTRL_H, KEY_DEL, KEY_UP, KEY_DOWN, KEY_LEFT, KEY_RIGHT, KEY_HOME, KEY_END.
  repeat match goal with |- context [c =? ?k] => rewrite (proj2 (Z.eqb_neq c k)) by lia end. cbn [orb]. vi_step. unfold iscntrl.
  replace ((0 <=? c) && (c <? 256)) with true by (symmetry; blia). vi_step. rewrite (proj2 (Z.ltb_ge c 32)), (proj2 (Z.eqb_neq c 127)) by lia. cbn [orb negb when].
  do 2 vi_step. vi_step. apply (wp_cur_line_len (u ++ v)); [apply K|done|]. vi_step. destruct (_ && _); cbn [when].
  - apply wp_undo_push; [apply K|apply undo_of, K|]. intros st top U. eapply wp_mono; [apply (Hins (set_undo_top top (set_undo_stack st e))); try done|].
    + destruct (proj1 K) as [T Y X R]. split; try assumption. by apply rest_push.
    + intros [] e' H'. by apply wp_ret.
  - vi_step. eapply wp_mono; [apply (Hins e); try done; apply K|]. intros [] e' H'. by apply wp_ret.
Qed.

Lemma wp_type_newline cw e pre u v post :
  cursor_at e pre u v post → mode e = 1 →
  wp (on_key cw 10) e (λ o e', o = Running ∧ cursor_at e' (pre ++ [u]) [] v post ∧ mode e' = 1 ∧ files e' = files e).
Proof.
  intros C Hm. pose proof C as [K El Ey Ex]. pose proof (cursor_row _ _ _ _ _ C) as Er.
  assert (key_ok e 10) as Kk by (unfold key_ok, KEY_PGUP, KEY_PGDN; rewrite Hm; split_and!; lia).
  eapply wp_mono; [apply (wp_and _ _ _ (λ o e', o = Running ∧ e_lines e' = (pre ++ [u]) ++ v :: post ∧ cy e' = cy e + 1 ∧ cx e' = 0 ∧
    mode e' = 1 ∧ files e' = files e) (wp_on_key cw 10 e K Kk))|].
  2:{ intros o e' (K' & -> & H1 & H2 & H3 & H4 & H5). split_and!; try done. split; [done|done| |done].
      rewrite H2, Ey. unfold zlen. rewrite length_app. cbn [length]. lia. }
  unfold on_key. do 2 vi_step. rewrite Hm. change (1 =? 0) with false. change (1 =? 1) with true. cbn iota. vi_step. unfold insert_mode_key.
  change (10 =? KEY_ESC) with false. change ((10 =? KEY_BACKSPACE) || (10 =? KEY_CTRL_H)) with false. change (10 =? KEY_DEL) with false.
  change ((10 =? 13) || (10 =? 10)) with true. cbn iota. vi_step.
  apply wp_undo_push; [apply K|apply undo_of, K|]. intros st top U. set (e1 := set_undo_top top (set_undo_stack st e)).
  pose proof (it_cy _ (proj1 K)) as Hy. unfold insert_newline. do 2 vi_step. vi_step. apply (wp_text_row _ (u ++ v)); [change (cy e1) with (cy e); lia|done|].
  do 2 vi_step. change (cx e1) with (cx e). change (cy e1) with (cy e). rewrite Ex. vi_step. apply wp_assert; [unfold zlen; rewrite length_app; blia|].
  vi_step. apply wp_set_line; [exact Hy|]. vi_step. apply wp_insert_line; [unfold count in *; vi_cbn; change (e_lines e1) with (e_lines e); rewrite length_insert; lia|].
  repeat vi_step. vi_cbn. split_and!; try done. change (e_lines e1) with (e_lines e). rewrite El, Ey. unfold zlen.
  replace (Z.to_nat (Z.of_nat (length pre) + 1)) with (S (length pre)) by lia. rewrite !Nat2Z.id, insert_middle, take_app_length, drop_app_length.
  replace (pre ++ u :: post) with ((pre ++ [u]) ++ post) by (by rewrite <-app_assoc). replace (S (length pre)) with (length (pre ++ [u])) by (rewrite length_app; cbn; lia).
  by rewrite take_app_length, drop_app_length.
Qed.

Lemma run_keys_app cw ks1 ks2 e (Q : outcome → Editor → Prop) :
  wp (run_keys cw ks1) e (λ o e', o = Running ∧ wp (run_keys cw ks2) e' Q) → wp (run_keys cw (ks1 ++ ks2)) e Q.
Proof.
  revert e. induction ks1 as [|k ks1 IH]; intros e H; cbn [run_keys app] in *.
  - by destruct H as [_ H].
  - unfold wp, bind in *. destruct (on_key cw k e) as [[[] e']|]; [by apply IH|..]; by destruct H.
Qed.

(** The text that is typed goes between [u] and [v]. *)
Lemma wp_type cw ks : ∀ e pre u v post,
  cursor_at e pre u v post → mode e = 1 → Forall typed ks → 10 ∉ u → 10 ∉ v →
  wp (run_keys cw ks) e (λ o e', o = Running ∧ editor_ok e' ∧ mode e' = 1 ∧ files e' = files e ∧
    e_lines e' = pre ++ split_lines (u ++ ks ++ v) ++ post).
Proof.
  induction ks as [|c ks IH]; intros e pre u v post C Hm Hk Hu Hv; cbn [run_keys].
  - apply wp_ret. destruct C as [K El Ey Ex]. split_and!; try done. rewrite El, split_lines_one; [done|]. rewrite elem_of_app. tauto.
  - apply Forall_cons in Hk as [[Hc| ->] Hk]; apply wp_bind.
    + eapply wp_mono; [by apply (wp_type_char cw e pre u v post)|]. intros o e1 (-> & C1 & Hm1 & Hf1).
      eapply wp_mono; [apply (IH e1 pre (u ++ [c]) v post); try done|].
      { rewrite elem_of_app, list_elem_of_singleton. intros [?|E]; [done|]. destruct Hc. lia. }
      intros o e2 (-> & K2 & Hm2 & Hf2 & E2). split_and!; try done; [congruence|]. rewrite E2. by rewrite <-!app_assoc.
    + eapply wp_mono; [by apply (wp_type_newline cw e pre u v post)|]. intros o e1 (-> & C1 & Hm1 & Hf1).
      eapply wp_mono; [apply (IH e1 (pre ++ [u]) [] v post); try done; apply not_elem_of_nil|].
      intros o e2 (-> & K2 & Hm2 & Hf2 & E2). split_and!; try done; [congruence|]. rewrite E2, app_nil_l, <-app_assoc.
      cbn [app]. by rewrite split_lines_nl.
Qed.

(* ------------------------------------------------------------------ *)
(** ** Commands *)

Lemma wp_escape cw e :
  editor_ok e → mode e = 1 → wp (on_key cw 27) e (λ o e', o = Running ∧ editor_ok e' ∧ mode e' = 0 ∧ files e' = files e ∧ e_lines e' = e_lines e).
Proof.
  intros K Hm. assert (key_ok e 27) as Kk by (unfold key_ok, KEY_PGUP, KEY_PGDN; rewrite Hm; split_and!; lia).
  eapply wp_mono; [apply (wp_and _ _ _ (λ o e', o = Running ∧ mode e' = 0 ∧ files e' = files e ∧ e_lines e' = e_lines e) (wp_on_key cw 27 e K Kk))|].
  2:{ intros o e' (K' & -> & ? & ? & ?). done. }
  unfold on_key. do 2 vi_step. rewrite Hm. change (1 =? 0) with false. change (1 =? 1) with true. cbn iota. vi_step. unfold insert_mode_key.
  change (27 =? KEY_ESC) with true. cbn iota. destruct (in_text_row e (proj1 K)) as (l & El & _). do 2 vi_step.
  assert (∀ x, 0 <= x → in_text (set_mode 0 (set_cx x e))) as Kx.
  { intros x Hx0. destruct (proj1 K) as [T Y X R]. split; [exact T|exact Y|exact Hx0|]. apply (rest_mode (set_cx x e)); [exact R|tauto]. }
  assert (set_cx (cx e) e = e) as Ee by (by destruct e). pose proof (it_cx _ (proj1 K)).
  vi_step. destruct (Z.ltb_spec 0 (cx e)); cbn [when]; repeat vi_step.
  - apply (wp_clamp_cx l); [apply Kx; lia|done|]. by apply wp_ret.
  - rewrite <-Ee. apply (wp_clamp_cx l); [by apply Kx|done|]. by apply wp_ret.
Qed.

(** A command line that holds [s]. *)
Record command_line (e : Editor) (s : list Z) : Prop := {
  cl_ok : editor_ok e;
  cl_mode : mode e = 2;
  cl_buf : ∃ rest, cmdbuf e = s ++ 0 :: rest;
  cl_len : cmdlen e = zlen s
}.

Lemma wp_colon cw e :
  editor_ok e → mode e = 0 → wp (on_key cw 58) e (λ o e', o = Running ∧ command_line e' [] ∧ files e' = files e ∧ e_lines e' = e_lines e).
Proof.
  intros K Hm. assert (key_ok e 58) as Kk by (unfold key_ok; rewrite Hm; split_and!; lia).
  eapply wp_mono; [apply (wp_and _ _ _ (λ o e', o = Running ∧ mode e' = 2 ∧ (∃ rest, cmdbuf e' = 0 :: rest) ∧ cmdlen e' = 0 ∧ files e' = files e ∧ e_lines e' = e_lines e)
    (wp_on_key cw 58 e K Kk))|].
  2:{ intros o e' (K' & -> & ? & ? & ? & ? & ?). split_and!; try done. }
  unfold on_key. do 2 vi_step. rewrite Hm. change (0 =? 0) with true. change (58 =? KEY_ESC) with false. cbn iota. unfold normal_key. do 8 vi_step.
  change ((49 <=? 58) && (58 <=? 57)) with false. change (58 =? 48) with false. cbn [andb]. do 2 vi_step.
  set (rep := if 0 <? count_buf e then _ else _). change (normal_branch 58 rep) with (begin_command [] ;; set_msg [] ;; ret (Some Running)).
  unfold begin_command. repeat vi_step. vi_cbn. split_and!; try done. eexists. reflexivity.
Qed.

Lemma wp_command_char cw e s c :
  command_line e s → printable c → (length s < 255)%nat →
  wp (on_key cw c) e (λ o e', o = Running ∧ command_line e' (s ++ [c]) ∧ files e' = files e ∧ e_lines e' = e_lines e).
Proof.
  intros [K Hm [rest Eb] En] [Hc Hc7] Hs. assert (key_ok e c) as Kk by (unfold key_ok; rewrite Hm; split_and!; lia).
  pose proof (ro_cmd _ _ _ _ _ _ _ _ _ _ _ _ (it_rest _ (proj1 K))) as [Hl _]. rewrite Eb, length_app in Hl. cbn [length] in Hl.
  destruct rest as [|r0 rest]; [cbn in Hl; lia|].
  eapply wp_mono; [apply (wp_and _ _ _ (λ o e', o = Running ∧ mode e' = 2 ∧ cmdbuf e' = s ++ c :: 0 :: rest ∧ cmdlen e' = zlen s + 1 ∧ files e' = files e ∧ e_lines e' = e_lines e)
    (wp_on_key cw c e K Kk))|].
  2:{ intros o e' (K' & -> & H1 & H2 & H3 & H4 & H5). split_and!; try done. split; [done|done|exists rest; by rewrite <-app_assoc|].
      rewrite H3. unfold zlen. rewrite length_app. cbn [length]. lia. }
  unfold on_key. do 2 vi_step. rewrite Hm. change (2 =? 0) with false. change (2 =? 1) with false. change (2 =? 2) with true. cbn iota.
  unfold command_mode_key. do 2 vi_step. unfold KEY_ESC, KEY_BACKSPACE.
  repeat match goal with |- context [c =? ?k] => rewrite (proj2 (Z.eqb_neq c k)) by lia end. cbn [orb andb]. vi_step. unfold iscntrl.
  replace ((0 <=? c) && (c <? 256)) with true by (symmetry; blia). vi_step. rewrite (proj2 (Z.ltb_ge c 32)), (proj2 (Z.eqb_neq c 127)) by lia.
  rewrite En, (proj2 (Z.ltb_lt _ _)) by (unfold zlen; lia). cbn [orb negb andb when].
  unfold put_cmd. replace (u8 c) with c by (unfold u8; lia). vi_step. do 3 vi_step. rewrite Eb. vi_step. apply wp_assert; [unfold zlen; rewrite length_app; cbn [length]; blia|].
  do 2 vi_step. do 4 vi_step. vi_cbn. unfold zlen. rewrite Nat2Z.id, insert_middle. apply wp_assert; [rewrite length_app; cbn [length]; blia|].
  repeat vi_step. vi_cbn. split_and!; try done. replace (Z.to_nat (Z.of_nat (length s) + 1)) with (length (s ++ [c])) by (rewrite length_app; cbn [length]; lia).
  replace (s ++ c :: r0 :: rest) with ((s ++ [c]) ++ r0 :: rest) by (by rewrite <-app_assoc). by rewrite insert_middle, <-app_assoc.
Qed.

Lemma wp_command_text cw t : ∀ e s,
  command_line e s → Forall printable t → (length s + length t <= 255)%nat →
  wp (run_keys cw t) e (λ o e', o = Running ∧ command_line e' (s ++ t) ∧ files e' = files e ∧ e_lines e' = e_lines e).
Proof.
  induction t as [|c t IH]; intros e s C Ht Hl; cbn [run_keys length] in *.
  - apply wp_ret. by rewrite app_nil_r.
  - apply Forall_cons in Ht as [Hc Ht]. apply wp_bind. eapply wp_mono; [apply (wp_command_char cw e s c); [done|done|lia]|].
    intros o e1 (-> & C1 & F1 & E1). eapply wp_mono; [apply (IH e1 (s ++ [c])); [done|done|rewrite length_app; cbn [length]; lia]|].
    intros o e2 (-> & C2 & F2 & E2). split_and!; [done|by rewrite <-app_assoc in C2|congruence|congruence].
Qed.

Lemma until_zero_app s rest : Forall (λ c, c ≠ 0) s → until_zero (s ++ 0 :: rest) = s.
Proof. induction 1 as [|c s Hc _ IH]; [done|]. cbn. rewrite (proj2 (Z.eqb_neq _ _)) by done. by rewrite IH. Qed.

(** [:w name] *)
Lemma wp_save_command cw e f :
  command_line e (119 :: 32 :: f) → Forall printable f → f ≠ [] → (length f <= 253)%nat → cw f = true →
  wp (on_key cw 10) e (λ o e', o = Running ∧ editor_ok e' ∧ e_lines e' = e_lines e ∧ dirty e' = false ∧
    files e' = <[f := saved (e_lines e)]> (files e)).
Proof.
  intros [K Hm [rest Eb] En] Hf Hne Hl Hw. assert (key_ok e 10) as Kk by (unfold key_ok; rewrite Hm; split_and!; lia).
  eapply wp_mono; [apply (wp_and _ _ _ (λ o e', o = Running ∧ e_lines e' = e_lines e ∧ dirty e' = false ∧ files e' = <[f := saved (e_lines e)]> (files e))
    (wp_on_key cw 10 e K Kk))|].
  2:{ intros o e' (K' & -> & ? & ? & ?). done. }
  unfold on_key. do 2 vi_step. rewrite Hm. change (2 =? 0) with false. change (2 =? 1) with false. change (2 =? 2) with true. cbn iota.
  unfold command_mode_key. do 2 vi_step. change (10 =? KEY_ESC) with false. change ((10 =? 13) || (10 =? 10)) with true. cbn iota.
  unfold exec_command. do 2 vi_step. rewrite Eb, until_zero_app.
  2:{ do 2 (apply Forall_cons_2; [lia|]). apply (Forall_impl _ _ _ Hf). unfold printable. lia. }
  do 2 vi_step. rewrite (bool_decide_false (119 :: 32 :: f = bytes "q")) by (by intros [=]).
  rewrite (bool_decide_false (119 :: 32 :: f = bytes "q!")) by (by intros [=]). rewrite (bool_decide_false (119 :: 32 :: f = bytes "wq")) by (by intros [=]).
  rewrite (bool_decide_false (119 :: 32 :: f = bytes "x")) by (by intros [=]). cbn [orb]. rewrite (bool_decide_true (take 2 (119 :: 32 :: f) = bytes "w ")) by done.
  change (drop 2 (119 :: 32 :: f)) with f. rewrite take_ge by lia. do 2 vi_step. unfold file_save. vi_step. do 2 vi_step. vi_cbn.
  destruct f as [|c f]; [done|]. rewrite Hw. cbn [negb]. repeat vi_step. done.
Qed.

(** C27: What is typed is what is saved, and what is read again. From the normal
    mode, with the cursor between [u] and [v] of a line, the key [i], a text of
    printable characters and ends of lines, the escape key and [:w f] put the
    text there, split into lines at the ends of lines, and write every line of
    the text with an end of line to the file [f]. Opening [f] gives the same
    lines, provided they are shorter than 4095 characters and do not end in a
    carriage return. *)
Theorem vi_type_save_open cw e pre u v post text f :
  cursor_at e pre u v post → mode e = 0 → 10 ∉ u → 10 ∉ v → Forall typed text →
  Forall printable f → f ≠ [] → (length f <= 253)%nat → cw f = true →
  let b := pre ++ split_lines (u ++ text ++ v) ++ post in
  wp (run_keys cw (105 :: text ++ 27 :: 58 :: 119 :: 32 :: f ++ [10])) e (λ o e', o = Running ∧
    e_lines e' = b ∧ files e' !! f = Some (saved b) ∧ dirty e' = false ∧
    (Forall plain_line b → ∀ e2, files e2 = files e' → wp (main_start (Some f)) e2 (λ _ e3, e_lines e3 = b ∧ cy e3 = 0 ∧ cx e3 = 0))).
Proof.
  intros C Hm Hu Hv Ht Hf Hne Hl Hw b. apply (run_keys_app cw [105]). cbn [run_keys].
  assert (wp (on_key cw 105) e (λ o e', o = Running ∧ cursor_at e' pre u v post ∧ mode e' = 1)) as Hi.
  { pose proof C as [K El Ey Ex]. assert (key_ok e 105) as Kk by (unfold key_ok; rewrite Hm; split_and!; lia).
    eapply wp_mono; [apply (wp_and _ _ _ (λ o e', o = Running ∧ mode e' = 1 ∧ e_lines e' = e_lines e ∧ cy e' = cy e ∧ cx e' = cx e) (wp_on_key cw 105 e K Kk))|].
    2:{ intros o e' (K' & -> & H1 & H2 & H3 & H4). split_and!; try done. split; [done|congruence..]. }
    unfold on_key. do 2 vi_step. rewrite Hm. change (0 =? 0) with true. change (105 =? KEY_ESC) with false. cbn iota. unfold normal_key. do 8 vi_step.
    change ((49 <=? 105) && (105 <=? 57)) with false. change (105 =? 48) with false. cbn [andb]. do 2 vi_step.
    set (rep := if 0 <? count_buf e then _ else _). change (normal_branch 105 rep) with (fall (upd set_mode 1)). repeat vi_step.
    apply (wp_clamp_cx (u ++ v)); [|by apply (cursor_row _ _ _ _ _ C)|].
    - destruct (proj1 K) as [T Y X R]. split; [exact T|exact Y|exact X|]. destruct R. split; try assumption; vi_cbn; [lia|tauto].
    - apply wp_ret. vi_cbn. split_and!; try done. unfold clamped. change (1 =? 1) with true. cbn [orb]. rewrite Ex. unfold zlen. rewrite length_app. lia. }
  apply wp_bind. eapply wp_mono; [exact Hi|]. intros o e1 (-> & C1 & Hm1). apply wp_ret. split; [done|].
  apply run_keys_app. eapply wp_mono; [by apply (wp_type cw text e1 pre u v post)|]. intros o e2 (-> & K2 & Hm2 & F2 & E2). split; [done|].
  cbn [run_keys]. apply wp_bind. eapply wp_mono; [by apply wp_escape|]. intros o e3 (-> & K3 & Hm3 & F3 & E3).
  apply wp_bind. eapply wp_mono; [by apply wp_colon|]. intros o e4 (-> & C4 & F4 & E4).
  change (119 :: 32 :: f ++ [10]) with ((119 :: 32 :: f) ++ [10]). apply (run_keys_app cw (119 :: 32 :: f) [10] e4).
  eapply wp_mono; [apply (wp_command_text cw _ e4 []); [done| |cbn [length]; lia]|].
  { do 2 (apply Forall_cons_2; [unfold printable; lia|]). done. }
  intros o e5 (-> & C5 & F5 & E5). split; [done|]. cbn [run_keys]. apply wp_bind. eapply wp_mono; [by apply wp_save_command|].
  intros o e6 (-> & K6 & E6 & D6 & F6). apply wp_ret. assert (e_lines e5 = b) as Eb by (by rewrite E5, E4, E3, E2). rewrite Eb in *.
  assert (files e6 !! f = Some (saved b)) as Es by (rewrite F6; apply lookup_insert_eq). split_and!; try done.
  intros Hp e7 E7. unfold main_start. vi_step. unfold init. vi_step. vi_step.
  eapply wp_mono; [apply wp_file_open; [done|]|].
  { vi_cbn. rewrite E7. apply (it_rest _ (proj1 K6)). }
  intros [] e8 (b' & -> & _ & Hb'). vi_step. vi_cbn. split_and!; try done. rewrite Hb'. vi_cbn. rewrite E7, Es.
  pose proof (it_text _ (proj1 K6)) as [Tn Tf]. rewrite E6 in Tn, Tf. destruct (saved b) as [|c s] eqn:Esv.
  - destruct b as [|l bt] eqn:Ebt; [done|]. unfold saved in Esv. cbn in Esv. by destruct l.
  - rewrite <-Esv. apply read_saved; [done|done|lia].
Qed.

(* ------------------------------------------------------------------ *)
(** ** What operations leave alone

    Operations that change neither the text nor the undo stack, and operations
    that do not change the undo stack. *)

Definition same_undo (e e' : Editor) : Prop := undo_stack e' = undo_stack e ∧ undo_top e' = undo_top e.
Definition framed (lines : bool) (e e' : Editor) : Prop := same_undo e e' ∧ (lines = true → e_lines e' = e_lines e).
Definition frames (lines : bool) {A} (m : M Editor A) : Prop := ∀ e a e', m e = Some (a, e') → framed lines e e'.
Notation quiet := (frames true).
Notation keeps := (frames false).

Lemma framed_refl b e : framed b e e.
Proof. by repeat split. Qed.
Lemma framed_trans b e1 e2 e3 : framed b e1 e2 → framed b e2 e3 → framed b e1 e3.
Proof. intros [[H1 H2] H3] [[H4 H5] H6]. repeat split; [congruence..|]. intros Hb. by rewrite H6, H3. Qed.
Lemma quiet_keeps {A} (m : M Editor A) : quiet m → keeps m.
Proof. intros H e a e' E. destruct (H e a e' E) as [? _]. by split. Qed.

Section frame_rules.
Variable b : bool.
Lemma frames_ret {A} (a : A) : frames b (ret a).
Proof. intros e x e' [= _ <-]. apply framed_refl. Qed.
Lemma frames_gets {A} (f : Editor → A) : frames b (gets f).
Proof. intros e x e' [= _ <-]. apply framed_refl. Qed.
Lemma frames_fault {A} : frames b (fault : M Editor A).
Proof. intros e x e' [=]. Qed.
Lemma frames_bind {A B} (m : M Editor A) (k : A → M Editor B) : frames b m → (∀ a, frames b (k a)) → frames b (bind m k).
Proof. intros Hm Hk e x e' E. apply bind_inv in E as (a & e1 & E1 & E2). eapply framed_trans; [by eapply Hm|by eapply Hk]. Qed.
Lemma frames_when (c : bool) (m : M Editor unit) : frames b m → frames b (when c m).
Proof. destruct c; [done|]. intros _. apply frames_ret. Qed.
Lemma frames_assert (c : bool) : frames b (assert_ c : M Editor unit).
Proof. destruct c; [apply frames_ret|apply frames_fault]. Qed.
Lemma frames_of_opt {A} (o : option A) : frames b (of_opt o).
Proof. destruct o; [apply frames_ret|apply frames_fault]. Qed.
Lemma frames_while {A B} n (step : A → M Editor (A + B)) a : (∀ x, frames b (step x)) → frames b (while_n n step a).
Proof.
  intros Hs. revert a. induction n as [|n IH]; intros a; [apply frames_fault|]. cbn [while_n]. apply frames_bind; [apply Hs|].
  intros [x|y]; [apply IH|apply frames_ret].
Qed.
Lemma frames_for lo hi (body : Z → M Editor unit) : (∀ i, frames b (body i)) → frames b (for_range lo hi body).
Proof.
  intros Hs. unfold for_range. generalize (Z.to_nat (hi - lo)) as n. intros n. revert lo. induction n as [|n IH]; intros lo; [apply frames_ret|].
  cbn [for_n]. apply frames_bind; [apply Hs|]. intros []. apply IH.
Qed.
Lemma frames_scan {A} lo hi (body : Z → M Editor (option A)) : (∀ i, frames b (body i)) → frames b (scan_range lo hi body).
Proof.
  intros Hs. unfold scan_range. generalize (Z.to_nat (hi - lo)) as n. intros n. revert lo. induction n as [|n IH]; intros lo; [apply frames_ret|].
  cbn [scan_n]. apply frames_bind; [apply Hs|]. intros [a|]; [apply frames_ret|apply IH].
Qed.
End frame_rules.

(** One rule, or the assignment of a field outside of the frame. *)
Ltac frame_step :=
  lazymatch goal with
  | |- frames _ (ret _) => apply frames_ret
  | |- frames _ (gets _) => apply frames_gets
  | |- frames _ fault => apply frames_fault
  | |- frames _ (bind _ _) => apply frames_bind; [|intros ?]
  | |- frames _ (when _ _) => apply frames_when
  | |- frames _ (assert_ _) => apply frames_assert
  | |- frames _ (of_opt _) => apply frames_of_opt
  | |- frames _ (while_n _ _ _) => apply frames_while; intros ?
  | |- frames _ (for_range _ _ _) => apply frames_for; intros ?
  | |- frames _ (scan_range _ _ _) => apply frames_scan; intros ?
  | |- frames _ (upd _ _) => intros ? ? ? [= _ <-]; by repeat split
  | |- frames _ (set_msg _) => intros ? ? ? [= _ <-]; by repeat split
  | |- frames _ (match ?x with _ => _ end) => destruct x
  | |- frames _ (row _) => unfold row
  | |- frames _ (char_at _ _) => unfold char_at
  | |- frames _ cur_line_len => unfold cur_line_len
  | |- frames _ clamp_cx => unfold clamp_cx
  | |- frames _ (buf_insert_line _ _) => unfold buf_insert_line
  | |- frames _ (buf_delete_line _) => unfold buf_delete_line
  | |- frames _ (buf_set_line _ _) => unfold buf_set_line
  | |- frames _ (put_char _ _ _) => unfold put_char
  | |- frames _ (skip_chars _ _ _) => unfold skip_chars
  | |- frames _ next_byte => unfold next_byte
  end.
Ltac frame := repeat frame_step.

Lemma keeps_delete_char : keeps delete_char_at_cursor.
Proof. unfold delete_char_at_cursor. frame. Qed.
Lemma keeps_delete_line : keeps delete_line.
Proof. unfold delete_line. frame. Qed.
Lemma quiet_search dir : quiet (do_search dir).
Proof. unfold do_search. frame. Qed.
Lemma quiet_read_key : quiet read_key.
Proof. unfold read_key. frame. Qed.
Lemma quiet_begin s : quiet (begin_command s).
Proof. unfold begin_command. frame. Qed.
Lemma quiet_move c rep m : move_key c rep = Some m → quiet m.
Proof.
  unfold move_key. intros Hm. repeat (case_match; [injection Hm as <-; unfold fall, word_forward, word_backward, page_down, page_up; frame|]). discriminate Hm.
Qed.

(* ------------------------------------------------------------------ *)
(** ** Undo

    An operation that [saves] either changes neither the text nor the undo
    stack, or has pushed the text it found before it changes anything. *)

Definition pushed (e e' : Editor) : Prop :=
  undo_stack e' = <[undo_slot (undo_top e) := Some (e_lines e)]> (undo_stack e) ∧ undo_top e' = undo_top e + 1.
Definition saves {A} (m : M Editor A) : Prop := ∀ e a e', m e = Some (a, e') → framed true e e' ∨ pushed e e'.

Lemma quiet_saves {A} (m : M Editor A) : quiet m → saves m.
Proof. intros H e a e' E. left. by eapply H. Qed.

Lemma pushed_framed_l e e1 e2 : framed true e e1 → pushed e1 e2 → pushed e e2.
Proof. intros [[H1 H2] H3] [H4 H5]. unfold pushed. rewrite H4, H5, H1, H2, (H3 eq_refl). done. Qed.
Lemma pushed_framed_r b e e1 e2 : pushed e e1 → framed b e1 e2 → pushed e e2.
Proof. intros [H1 H2] [[H3 H4] _]. unfold pushed. by rewrite H3, H4. Qed.

Lemma saves_after {A B} (m : M Editor A) (k : A → M Editor B) : quiet m → (∀ a, saves (k a)) → saves (bind m k).
Proof.
  intros Hm Hk e x e' E. apply bind_inv in E as (a & e1 & E1 & E2). pose proof (Hm _ _ _ E1) as H1.
  destruct (Hk _ _ _ _ E2) as [H2|H2]; [left; by eapply framed_trans|right; by eapply pushed_framed_l].
Qed.
Lemma saves_then {A B} (m : M Editor A) (k : A → M Editor B) : saves m → (∀ a, quiet (k a)) → saves (bind m k).
Proof.
  intros Hm Hk e x e' E. apply bind_inv in E as (a & e1 & E1 & E2). pose proof (Hk _ _ _ _ E2) as H2.
  destruct (Hm _ _ _ E1) as [H1|H1]; [left; by eapply framed_trans|right; by eapply pushed_framed_r].
Qed.
Lemma saves_push {B} (k : unit → M Editor B) : (∀ a, keeps (k a)) → saves (bind undo_push k).
Proof.
  intros Hk e x e' E. apply bind_inv in E as (a & e1 & E1 & E2). right. pose proof (Hk _ _ _ _ E2) as H2.
  injection E1 as _ <-. eapply pushed_framed_r; [|exact H2]. done.
Qed.
Lemma saves_when c (m : M Editor unit) : saves m → saves (when c m).
Proof. destruct c; [done|]. intros _. apply quiet_saves, frames_ret. Qed.

Lemma saves_fall m : saves m → saves (fall m).
Proof. intros H. apply saves_then; [done|]. intros []. frame. Qed.

Lemma saves_insert c m : insert_key c = Some m → saves m.
Proof.
  unfold insert_key. intros Hm.
  do 4 (case_match; [injection Hm as <-; apply quiet_saves; unfold fall; frame|]).
  do 2 (case_match; [injection Hm as <-; apply saves_fall, saves_push; intros []; frame|]). discriminate Hm.
Qed.
Lemma saves_delete c rep m : delete_key c rep = Some m → saves m.
Proof.
  unfold delete_key. intros Hm. case_match.
  { injection Hm as <-. apply saves_fall, saves_push. intros []. frame; apply keeps_delete_char. }
  case_match.
  { injection Hm as <-. apply saves_after; [frame|]. intros []; [|apply quiet_saves; frame].
    apply saves_push. intros []. frame; apply keeps_delete_line. }
  case_match; [injection Hm as <-; apply saves_fall, saves_push; intros []; frame|].
  case_match; [injection Hm as <-; apply quiet_saves; frame|discriminate Hm].
Qed.

Lemma saves_paste below : saves (paste below).
Proof. apply saves_after; [frame|]. intros [l|]; [|apply quiet_saves; frame]. apply saves_push. intros []. frame. Qed.
Lemma saves_toggle : saves toggle_case.
Proof. repeat (apply saves_after; [frame|]; intros ?). apply saves_when, saves_push. intros []. frame. Qed.
Lemma saves_join : saves join_lines.
Proof. repeat (apply saves_after; [frame|]; intros ?). apply saves_when, saves_push. intros []. frame. Qed.
Lemma saves_change c m : c ≠ 117 → change_key c = Some m → saves m.
Proof.
  intros Hc. unfold change_key. assert ((c =? 117) = false) as -> by lia. intros Hm.
  case_match; [injection Hm as <-; apply saves_fall, saves_paste|].
  case_match; [injection Hm as <-; apply saves_fall, saves_paste|].
  case_match.
  { injection Hm as <-. apply saves_after; [apply quiet_read_key|]. intros [nc| |]; [|apply quiet_saves; frame..].
    apply saves_then; [|intros []; frame]. case_match; [apply quiet_saves; frame|]. apply saves_push. intros []. frame. }
  case_match; [injection Hm as <-; apply saves_fall, saves_toggle|].
  do 4 (case_match; [injection Hm as <-; apply quiet_saves; unfold fall; frame; first [apply quiet_begin|apply quiet_search]|]).
  case_match; [injection Hm as <-; apply saves_fall, saves_join|discriminate Hm].
Qed.

Lemma saves_normal_key c : c ≠ 117 → saves (normal_key c).
Proof.
  intros Hc. unfold normal_key. do 4 (apply saves_after; [frame|]; intros ?).
  case_match; [apply quiet_saves; unfold add_digit; frame|]. case_match; [apply quiet_saves; unfold add_digit; frame|].
  apply saves_after; [frame|]. intros []. apply saves_then; [|intros [?|]; frame]. unfold normal_branch.
  destruct (move_key c _) eqn:Em; [by eapply quiet_saves, quiet_move|].
  destruct (insert_key c) eqn:Ei; [by eapply saves_insert|].
  destruct (delete_key c _) eqn:Ed; [by eapply saves_delete|].
  destruct (change_key c) eqn:Ec; [by eapply saves_change|apply quiet_saves; frame].
Qed.

Lemma saves_on_key cw c e o e' : mode e = 0 → c ≠ 117 → on_key cw c e = Some (o, e') → framed true e e' ∨ pushed e e'.
Proof.
  intros Hm Hc E. revert E. unfold on_key. rewrite (bind_run _ _ _ _ _ (eq_refl : gets mode e = Some (mode e, e))), Hm.
  change (0 =? 0) with true. cbn iota. case_match; intros E; [left; by injection E as _ <-|]. by eapply saves_normal_key.
Qed.

Lemma undo_key cw e e1 e2 o :
  mode e1 = 0 → pushed e e1 → length (undo_stack e) = 100%nat → 0 <= undo_top e →
  on_key cw 117 e1 = Some (o, e2) → o = Running ∧ e_lines e2 = e_lines e ∧ undo_top e2 = undo_top e.
Proof.
  intros Hm [Hs Ht] Hl H0. unfold on_key. rewrite (bind_run _ _ _ _ _ (eq_refl : gets mode e1 = Some (mode e1, e1))), Hm.
  change (0 =? 0) with true. change (117 =? KEY_ESC) with false. cbn iota. unfold normal_key.
  do 4 (erewrite bind_run by reflexivity). change ((49 <=? 117) && (117 <=? 57)) with false. change (117 =? 48) with false. cbn [andb].
  erewrite bind_run by reflexivity. change (normal_branch 117 _) with (fall undo_pop). unfold fall. intros E.
  apply bind_inv in E as (r & e3 & E3 & E). apply bind_inv in E3 as ([] & e4 & E4 & [= <- <-]).
  apply bind_inv in E as ([] & e5 & [= <-] & E). apply bind_inv in E as ([] & e5 & [= <-] & E). apply bind_inv in E as ([] & e5 & [= <-] & E).
  apply bind_inv in E as ([] & e5 & E5 & [= <- <-]). assert (quiet clamp_cx) as Hq by frame. destruct (Hq _ _ _ E5) as [[_ ->] ->]; [|done].
  revert E4. unfold undo_pop. erewrite bind_run by reflexivity. cbn [undo_top set_count_buf]. rewrite Ht.
  assert ((undo_top e + 1 =? 0) = false) as -> by lia. do 6 (erewrite bind_run by reflexivity). intros [= <-]. vi_cbn.
  change (undo_stack (set_count_buf 0 e1)) with (undo_stack e1). rewrite Hs. replace (undo_top e + 1 - 1) with (undo_top e) by lia.
  rewrite list_lookup_insert_eq; [done|]. rewrite Hl. unfold undo_slot, UNDO_DEPTH. pose proof (Z.mod_pos_bound (undo_top e) 100). lia.
Qed.

(** C28: Undo takes back a change. When a key of the normal mode other than [u]
    changes the text and the editor is in the normal mode after it (deleting
    characters, lines and ends of lines, pasting, replacing, changing case,
    joining lines, each with its count), the key [u] brings back the text from
    before, and the undo stack is as high as it was. *)
Theorem vi_undo_restores cw c e o e1 :
  editor_ok e → key_ok e c → mode e = 0 → c ≠ 117 →
  on_key cw c e = Some (o, e1) → e_lines e1 ≠ e_lines e → mode e1 = 0 →
  wp (on_key cw 117) e1 (λ o e2, o = Running ∧ e_lines e2 = e_lines e ∧ undo_top e2 = undo_top e).
Proof.
  intros K Hk Hm Hc E Hd Hm1. pose proof (wp_run _ _ _ _ _ (wp_on_key cw c e K Hk) E) as K1.
  destruct (saves_on_key cw c e o e1 Hm Hc E) as [[_ Hf]|Hp]; [by destruct (Hd (Hf eq_refl))|].
  destruct (undo_of _ (proj1 K)) as (Hl & Ht & _).
  assert (key_ok e1 117) as K117 by (unfold key_ok; rewrite Hm1; split_and!; lia).
  destruct (wp_elim _ _ _ (wp_on_key cw 117 e1 K1 K117)) as (o2 & e2 & E2 & _). unfold wp. rewrite E2. by eapply undo_key.
Qed.

(* ------------------------------------------------------------------ *)
(** ** Instances *)

(** Two lines, [hi there] and [a], with the cursor on the second. *)
Definition demo_editor : Editor :=
  Ed [bytes "hi there"; bytes "a"] 0 1 0 0 0 23 70 0 [] false [] (replicate 256 0) 0 (replicate 100 None) 0 [] 1 None
    false false false 0 ∅ [] [].

Lemma demo_editor_ok : editor_ok demo_editor.
Proof.
  split; [|intros l [= <-]; cbv; discriminate]. split; [|cbn; lia|cbn; lia|].
  - split; [discriminate|]. repeat constructor.
  - split; cbn; try done; try lia. split_and!; [done|lia|]. intros k Hk. lia.
Qed.

(** [J] joins two lines; page up after [i] faults. *)
Lemma vi_key_safe_witness : wp (on_key (λ _, true) 74) demo_editor (λ _ e', editor_ok e') ∧
  wp (on_key (λ _, true) 105) demo_editor (λ _ e', on_key (λ _, true) KEY_PGUP e' = None).
Proof.
  split; [apply (vi_key_safe _ 74 demo_editor demo_editor_ok); unfold key_ok; cbn; lia|].
  destruct (vi_key_safe (λ _, true) 105 demo_editor demo_editor_ok) as [H _].
  specialize (H ltac:(unfold key_ok; cbn; lia)). apply wp_elim in H as (o & e' & E & K).
  assert (mode <$> (snd <$> on_key (λ _, true) 105 demo_editor) = Some 1) as Em by (vm_compute; reflexivity).
  unfold wp. rewrite E in *. injection Em as Em. apply (vi_key_safe _ KEY_PGUP e' K). auto.
Defined.

Lemma vi_word_back_overruns_witness : on_key (λ _, true) 98 demo_editor = None.
Proof. apply (vi_word_back_overruns _ _ (bytes "a") (bytes "hi there")); try reflexivity. cbn. lia. Defined.

Definition demo_deleted : Editor := default demo_editor (snd <$> on_key (λ _, true) 120 demo_editor).

Lemma vi_undo_restores_witness : e_lines demo_deleted = [bytes "hi there"; []] ∧
  wp (on_key (λ _, true) 117) demo_deleted (λ o e2, o = Running ∧ e_lines e2 = e_lines demo_editor ∧ undo_top e2 = undo_top demo_editor).
Proof.
  split; [vm_compute; reflexivity|].
  apply (vi_undo_restores _ 120 demo_editor Running); [exact demo_editor_ok| |reflexivity|lia|vm_compute; reflexivity| |vm_compute; reflexivity].
  - unfold key_ok. cbn. lia.
  - vm_compute. discriminate.
Defined.

Lemma vi_type_save_open_witness :
  let b := [bytes "hi there"; bytes "x"; bytes "ya"] in
  wp (run_keys (λ _, true) (105 :: [120; 10; 121] ++ 27 :: 58 :: 119 :: 32 :: [102] ++ [10])) demo_editor (λ o e', o = Running ∧
    e_lines e' = b ∧ files e' !! [102] = Some (saved b) ∧ dirty e' = false ∧
    (Forall plain_line b → ∀ e2, files e2 = files e' → wp (main_start (Some [102])) e2 (λ _ e3, e_lines e3 = b ∧ cy e3 = 0 ∧ cx e3 = 0))).
Proof.
  apply (vi_type_save_open (λ _, true) demo_editor [bytes "hi there"] [] (bytes "a") [] [120; 10; 121] [102]); try reflexivity.
  - split; [exact demo_editor_ok|reflexivity..].
  - apply not_elem_of_nil.
  - by apply (bool_decide_unpack (10 ∉ bytes "a")).
  - unfold typed, printable. rewrite !Forall_cons, Forall_nil. lia.
  - unfold printable. rewrite !Forall_cons, Forall_nil. lia.
  - discriminate.
  - cbn. lia.
Defined.
