(* ===== verification/Fat.v ===== *)
(** * The FAT driver of the boot loader

    [bootloader/stage2/src/disk.c], [mbr.c] and [fat.c]: sector reads through
    the BIOS, with retries and the conversion to cylinder, head and sector, the
    partition table, and the read-only FAT12 driver over them. The BIOS is a
    parameter; what is relied upon is stated in [BiosOk]. The buffers of the
    driver live at fixed addresses below 1 MB. *)

From S2P Require Import Prelude Buf.

(* ------------------------------------------------------------------ *)
(** ** The disk *)

Definition SECTOR_SIZE : Z := 512.

Record DiskAddressPacket := Dap {
  dap_size : Z;
  dap_reserved : Z;
  sector_count : Z;
  transfer_buffer_offset : Z;
  transfer_buffer_segment : Z;
  start_lba_low : Z;
  start_lba_high : Z
}.

Record disk_params_t := DiskParams {
  hdds_count : Z;
  drive_id : Z;
  cylinders : Z;
  sectors : Z;
  heads : Z;
  lba_support : bool
}.

(** The calls of the BIOS. A read is given what its buffer holds and returns
    what the buffer holds after it, also when it fails. *)
Class Bios (W : Type) := {
  bios_read_lba : Z → DiskAddressPacket → buf → W → (bool * buf) * W;
  bios_read_chs : Z → Z → Z → Z → Z → buf → W → (bool * buf) * W;
  bios_check_lba_support : Z → W → bool * W;
  bios_get_drive_params : Z → W → option (Z * Z * Z * Z * Z) * W;
  bios_disk_reset : Z → W → bool * W
}.

Definition call {W A} (f : W → A * W) : M W A := λ w, Some (f w).

Section disk.
Context {W : Type} `{Bios W}.

(** What [disk_params] points to is [p] before the call. *)
Definition disk_init (drive_number : Z) (p : disk_params_t) : M W (bool * disk_params_t) :=
  lba ← call (bios_check_lba_support drive_number);
  r ← call (bios_get_drive_params drive_number);
  ret (match r with
       | None => (false, DiskParams (hdds_count p) drive_number (cylinders p) (sectors p) (heads p) lba)
       | Some (_, hdds, cyls, hds, secs) => (true, DiskParams hdds drive_number cyls secs hds lba)
       end).

(** Cylinder, head and sector; a geometry of zero is a division by zero. *)
Definition disk_lba_to_chs (p : disk_params_t) (lba : Z) : M W (Z * Z * Z) :=
  assert_ (negb (sectors p =? 0) && negb (heads p =? 0)) ;;
  ret (u16 (lba / sectors p / heads p), u16 ((lba / sectors p) mod heads p), u16 (lba mod sectors p + 1)).

(** The three attempts, with a reset after each failure. *)
Fixpoint attempts (n : nat) (read : buf → W → (bool * buf) * W) (drive : Z) (b : buf) : M W (bool * buf) :=
  match n with
  | O => ret (false, b)
  | S n =>
      r ← call (read b);
      if (fst r : bool) then ret (true, snd r) else call (bios_disk_reset drive) ;; attempts n read drive (snd r)
  end.

(** [dest] is the address of the buffer that holds [old]. The packet names it
    by segment and offset: another place than [dest] is a fault. *)
Definition disk_read_sectors (p : disk_params_t) (lba count dest : Z) (old : buf) : M W (bool * buf) :=
  if lba_support p then
    let dap := Dap 16 0 count (Z.land dest 15) (Z.land (Z.shiftr dest 4) 65535) lba 0 in
    assert_ (transfer_buffer_segment dap * 16 + transfer_buffer_offset dap =? dest) ;;
    attempts 3 (bios_read_lba (drive_id p) dap) (drive_id p) old
  else
    '(c, h, s) ← disk_lba_to_chs p lba;
    attempts 3 (bios_read_chs (drive_id p) c h s count) (drive_id p) old.

Record partition_t := Partition { p_disk : disk_params_t; partitionOffset : Z; partitionSize : Z }.

Definition partition_read_sectors (part : partition_t) (lba sectors dest : Z) (old : buf) : M W (bool * buf) :=
  disk_read_sectors (p_disk part) (u32 (lba + partitionOffset part)) (u8 sectors) dest old.

Record mbr_partition_entry_t := MbrEntry { boot_flag : Z; lba_start : Z; total_sectors : Z }.

Definition partition_entry (mbr : buf) (i : Z) : M W mbr_partition_entry_t :=
  f ← peek (b8 (446 + 16 * i)) mbr;
  l ← peek (b32 (446 + 16 * i + 8)) mbr;
  t ← peek (b32 (446 + 16 * i + 12)) mbr;
  ret (MbrEntry f l t).

(** The entries, read from [mbr_union] at the address [at_]. *)
Definition mbr_partition_table_get (p : disk_params_t) (at_ : Z) (mbr : buf) : M W (option (list mbr_partition_entry_t) * buf) :=
  r ← disk_read_sectors p 0 1 at_ mbr;
  if negb (fst r) then ret (None, snd r)
  else
    sig ← peek (b16 510) (snd r);
    if negb (sig =? 43605) then ret (None, snd r)
    else
      e0 ← partition_entry (snd r) 0;
      e1 ← partition_entry (snd r) 1;
      e2 ← partition_entry (snd r) 2;
      e3 ← partition_entry (snd r) 3;
      ret (Some [e0; e1; e2; e3], snd r).
End disk.

(* ------------------------------------------------------------------ *)
(** ** The driver *)

Definition MAX_PATH_SIZE : Z := 256.
Definition MAX_FILE_HANDLES : Z := 10.
Definition ROOT_DIRECTORY_HANDLE : Z := -1.
Definition FAT_ATTRIBUTE_DIRECTORY : Z := 16.
Definition MEMORY_FAT_ADDR : Z := 131072.
Definition MEMORY_FAT_SIZE : Z := 65536.
Definition sizeof_fat_fileData : Z := 544.
Definition sizeof_FAT_Data : Z := 6496.

Record fat_file := FatFile { handle : Z; is_directory : bool; position : Z; file_size : Z }.
Record fat_fileData := FileData {
  buffer : buf;
  public : fat_file;
  opened : bool;
  first_cluster : Z;
  current_cluster : Z;
  current_sector_in_cluster : Z
}.

(** [fat_dirent], as far as it is used. *)
Record fat_dirent := Dirent {
  d_name : buf;
  attributes : Z;
  first_cluster_high : Z;
  first_cluster_low : Z;
  d_size : Z
}.
Definition sizeof_fat_dirent : Z := 32.
Definition decode_dirent (b : buf) : option fat_dirent :=
  fst <$> (n ← get_bytes 0 11;
           a ← b8 11;
           h ← b16 20;
           l ← b16 26;
           s ← b32 28;
           ret (Dirent n a h l s)) b.

Definition with_buffer (b : buf) (fd : fat_fileData) : fat_fileData :=
  FileData b (public fd) (opened fd) (first_cluster fd) (current_cluster fd) (current_sector_in_cluster fd).
Definition with_public (f : fat_file) (fd : fat_fileData) : fat_fileData :=
  FileData (buffer fd) f (opened fd) (first_cluster fd) (current_cluster fd) (current_sector_in_cluster fd).
Definition with_opened (o : bool) (fd : fat_fileData) : fat_fileData :=
  FileData (buffer fd) (public fd) o (first_cluster fd) (current_cluster fd) (current_sector_in_cluster fd).
Definition with_cluster (c s : Z) (fd : fat_fileData) : fat_fileData :=
  FileData (buffer fd) (public fd) (opened fd) (first_cluster fd) c s.
Definition with_position (p : Z) (f : fat_file) : fat_file := FatFile (handle f) (is_directory f) p (file_size f).
Definition with_size (n : Z) (f : fat_file) : fat_file := FatFile (handle f) (is_directory f) (position f) n.

(** A [fat_file *] points into the root directory or an open file. *)
Inductive file_ptr := Root | Opened (i : Z).
#[global] Instance file_ptr_eq : EqDecision file_ptr.
Proof. solve_decision. Defined.

Section fat.
Context {W : Type} `{Bios W}.

(** [FAT_Data], the static variables, the memory behind [FAT_Data] that holds
    the table, and the machine. *)
Record Fat := MkFat {
  bs : buf;
  root_directory : fat_fileData;
  opened_files : list fat_fileData;
  g_fat : buf;
  g_data_section_lba : Z;
  g_disk : option partition_t;
  world : W
}.
Definition set_bs b s := MkFat b (root_directory s) (opened_files s) (g_fat s) (g_data_section_lba s) (g_disk s) (world s).
Definition set_root f s := MkFat (bs s) f (opened_files s) (g_fat s) (g_data_section_lba s) (g_disk s) (world s).
Definition set_opened_files l s := MkFat (bs s) (root_directory s) l (g_fat s) (g_data_section_lba s) (g_disk s) (world s).
Definition set_g_fat b s := MkFat (bs s) (root_directory s) (opened_files s) b (g_data_section_lba s) (g_disk s) (world s).
Definition set_data_lba z s := MkFat (bs s) (root_directory s) (opened_files s) (g_fat s) z (g_disk s) (world s).
Definition set_g_disk d s := MkFat (bs s) (root_directory s) (opened_files s) (g_fat s) (g_data_section_lba s) d (world s).
Definition set_world w s := MkFat (bs s) (root_directory s) (opened_files s) (g_fat s) (g_data_section_lba s) (g_disk s) w.

Definition on_disk {A} (m : M W A) : M Fat A := zoom world set_world m.

(** Fields of the boot sector. *)
Definition bytes_per_sector : M Fat Z := b ← gets bs; peek (b16 11) b.
Definition sectors_per_cluster : M Fat Z := b ← gets bs; peek (b8 13) b.
Definition reserved_sectors : M Fat Z := b ← gets bs; peek (b16 14) b.
Definition fat_count : M Fat Z := b ← gets bs; peek (b8 16) b.
Definition dir_entry_count : M Fat Z := b ← gets bs; peek (b16 17) b.
Definition sectors_per_fat : M Fat Z := b ← gets bs; peek (b16 22) b.

Definition fat_read_boot_sector (disk : partition_t) : M Fat bool :=
  old ← gets bs;
  r ← on_disk (partition_read_sectors disk 0 1 MEMORY_FAT_ADDR old);
  modify (set_bs (snd r)) ;;
  ret (fst r).

Definition fat_read_fat (disk : partition_t) : M Fat bool :=
  res ← reserved_sectors;
  n ← sectors_per_fat;
  t ← gets g_fat;
  old ← of_opt (sub_bytes 0 (512 * u8 n) t);
  r ← on_disk (partition_read_sectors disk res n (MEMORY_FAT_ADDR + sizeof_FAT_Data) old);
  t ← of_opt (splice 0 (snd r) t);
  modify (set_g_fat t) ;;
  ret (fst r).

(** [*p], by the pointer. *)
Definition file_data (p : file_ptr) : M Fat fat_fileData :=
  match p with
  | Root => gets root_directory
  | Opened i => l ← gets opened_files; if i <? 0 then fault else of_opt (l !! Z.to_nat i)
  end.
Definition put_data (p : file_ptr) (fd : fat_fileData) : M Fat unit :=
  match p with
  | Root => modify (set_root fd)
  | Opened i =>
      l ← gets opened_files;
      if (0 <=? i) && (i <? Z.of_nat (length l)) then modify (set_opened_files (<[Z.to_nat i := fd]> l)) else fault
  end.
Definition update (p : file_ptr) (f : fat_fileData → fat_fileData) : M Fat unit :=
  fd ← file_data p; put_data p (f fd).

Definition buffer_addr (p : file_ptr) : Z :=
  match p with
  | Root => MEMORY_FAT_ADDR + 512
  | Opened i => MEMORY_FAT_ADDR + 512 + sizeof_fat_fileData * (1 + i)
  end.

(** [partition_read_sectors(disk, lba, 1, fd->buffer)] *)
Definition read_buffer (disk : partition_t) (p : file_ptr) (lba : Z) : M Fat bool :=
  fd ← file_data p;
  r ← on_disk (partition_read_sectors disk lba 1 (buffer_addr p) (buffer fd));
  update p (with_buffer (snd r)) ;;
  ret (fst r).

(** A product of two 16-bit fields that is no [int] is undefined. *)
Definition fat_initialize (disk : partition_t) : M Fat bool :=
  modify (set_g_disk (Some disk)) ;;
  ok ← fat_read_boot_sector disk;
  if negb ok then ret false
  else
    bps ← bytes_per_sector;
    spf ← sectors_per_fat;
    assert_ (bps * spf <? 2147483648) ;;
    if MEMORY_FAT_SIZE <=? u32 (sizeof_FAT_Data + bps * spf) then ret false
    else
      ok ← fat_read_fat disk;
      if negb ok then ret false
      else
        res ← reserved_sectors;
        fats ← fat_count;
        entries ← dir_entry_count;
        let root_dir_lba := res + spf * fats in
        let root_dir_size := sizeof_fat_dirent * entries in
        root ← gets root_directory;
        modify (set_root (FileData (buffer root) (FatFile ROOT_DIRECTORY_HANDLE true 0 root_dir_size) true root_dir_lba root_dir_lba 0)) ;;
        ok ← read_buffer disk Root root_dir_lba;
        if negb ok then ret false
        else
          assert_ (negb (bps =? 0)) ;;
          modify (set_data_lba (root_dir_lba + (root_dir_size + bps - 1) / bps)) ;;
          for_range 0 MAX_FILE_HANDLES (λ i, update (Opened i) (with_opened false)) ;;
          ret true.

Definition fat_cluster_to_lba (cluster : Z) : M Fat Z :=
  d ← gets g_data_section_lba;
  n ← sectors_per_cluster;
  ret (u32 (d + u32 (cluster - 2) * n)).

Definition fat_open_entry (disk : partition_t) (entry : fat_dirent) : M Fat (option file_ptr) :=
  h ← scan_range 0 MAX_FILE_HANDLES (λ i, fd ← file_data (Opened i); ret (if opened fd then None else Some i));
  match h with
  | None => ret None
  | Some h =>
      let c := u32 (first_cluster_low entry + Z.shiftl (first_cluster_high entry) 16) in
      update (Opened h) (λ fd,
        FileData (buffer fd) (FatFile h (negb (Z.land (attributes entry) FAT_ATTRIBUTE_DIRECTORY =? 0)) 0 (d_size entry)) (opened fd) c c 0) ;;
      lba ← fat_cluster_to_lba c;
      ok ← read_buffer disk (Opened h) lba;
      if negb ok then ret None
      else update (Opened h) (with_opened true) ;; ret (Some (Opened h))
  end.

Definition fat_next_cluster (current_cluster : Z) : M Fat Z :=
  t ← gets g_fat;
  e ← peek (b16 (u32 (current_cluster * 3) / 2)) t;
  ret (if current_cluster mod 2 =? 0 then Z.land e 4095 else Z.shiftr e 4).

(** [&g_data->root_directory] or [&g_data->opened_files[handle]] *)
Definition by_handle (h : Z) : file_ptr := if h =? ROOT_DIRECTORY_HANDLE then Root else Opened h.

(** The part of the loop of [fat_read] behind the copy: the next sector. The
    result says whether the loop is left. *)
Definition next_sector (disk : partition_t) (p : file_ptr) : M Fat bool :=
  fd ← file_data p;
  if handle (public fd) =? ROOT_DIRECTORY_HANDLE then
    update p (λ fd, with_cluster (u32 (current_cluster fd + 1)) (current_sector_in_cluster fd) fd) ;;
    fd ← file_data p;
    ok ← read_buffer disk p (current_cluster fd);
    ret (negb ok)
  else
    n ← sectors_per_cluster;
    let s := u32 (current_sector_in_cluster fd + 1) in
    (if n <=? s then
       c ← fat_next_cluster (current_cluster fd);
       update p (with_cluster c 0)
     else update p (with_cluster (current_cluster fd) s)) ;;
    fd ← file_data p;
    if 4088 <=? current_cluster fd then
      update p (λ fd, with_public (with_size (position (public fd)) (public fd)) fd) ;; ret true
    else
      lba ← fat_cluster_to_lba (current_cluster fd);
      ok ← read_buffer disk p (u32 (lba + current_sector_in_cluster fd));
      ret (negb ok).

(** One turn of the loop, with the bytes that are left and the bytes copied. *)
Definition read_step (disk : partition_t) (p : file_ptr) (a : Z * buf) : M Fat (Z * buf + buf) :=
  let '(byte_count, out) := a in
  if byte_count <=? 0 then ret (inr out)
  else
    fd ← file_data p;
    let o := position (public fd) mod SECTOR_SIZE in
    let left_in_buffer := SECTOR_SIZE - o in
    let take := if byte_count <? left_in_buffer then byte_count else left_in_buffer in
    bytes ← of_opt (sub_bytes o take (buffer fd));
    update p (λ fd, with_public (with_position (u32 (position (public fd) + take)) (public fd)) fd) ;;
    stop ← (if left_in_buffer =? take then next_sector disk p else ret false);
    ret (if (stop : bool) then inr (out ++ bytes) else inl (byte_count - take, out ++ bytes)).

Definition read_fuel (byte_count : Z) : nat := Z.to_nat (byte_count / SECTOR_SIZE + 3).

(** The bytes stored at [out]; the C function returns their number. *)
Definition fat_read (disk : partition_t) (file : file_ptr) (byte_count : Z) : M Fat buf :=
  fd ← file_data file;
  let p := by_handle (handle (public fd)) in
  fd ← file_data p;
  let rest := u32 (file_size (public fd) - position (public fd)) in
  let byte_count :=
    if negb (is_directory (public fd)) || negb (file_size (public fd) =? 0)
    then (if byte_count <? rest then byte_count else rest) else byte_count in
  while_n (read_fuel byte_count) (read_step disk p) (byte_count, []).

(** The entry, if it was read in full. *)
Definition fat_read_entry (disk : partition_t) (file : file_ptr) : M Fat (option fat_dirent) :=
  b ← fat_read disk file sizeof_fat_dirent;
  if blen b =? sizeof_fat_dirent then e ← of_opt (decode_dirent b); ret (Some e) else ret None.

Definition fat_close (file : file_ptr) : M Fat unit :=
  fd ← file_data file;
  if handle (public fd) =? ROOT_DIRECTORY_HANDLE then
    update file (λ fd, with_public (with_position 0 (public fd)) fd) ;;
    update Root (λ fd, with_cluster (first_cluster fd) (current_sector_in_cluster fd) fd)
  else update (Opened (handle (public fd))) (with_opened false).

(** Names are strings without their terminating zero. *)
Definition islower (c : Z) : bool := (97 <=? c) && (c <=? 122).
Definition toupper (c : Z) : Z := if islower c then c - 97 + 65 else c.
Fixpoint strchr (c : Z) (s : list Z) : option Z :=
  match s with
  | [] => None
  | x :: s => if x =? c then Some 0 else Z.succ <$> strchr c s
  end.

(** The padded name of a directory entry: a dot at the twelfth place counts as
    no dot. *)
Definition pad_to (n : nat) (s : list Z) : list Z := take n (s ++ replicate n 32).
Definition fat_name (name : list Z) : buf :=
  let ext := default 11 (strchr 46 name) in
  let base := pad_to 8 (toupper <$> take (Z.to_nat (if ext <? 8 then ext else 8)) name) in
  let suffix := if ext =? 11 then [] else toupper <$> take 3 (drop (Z.to_nat (ext + 1)) name) in
  base ++ pad_to 3 suffix.

(** The scan of a directory; [fuel] bounds its entries. *)
Definition fat_find_file (fuel : nat) (disk : partition_t) (file : file_ptr) (name : list Z) : M Fat (option fat_dirent) :=
  while_n fuel (λ _ : unit,
    e ← fat_read_entry disk file;
    ret (match e with
         | Some e => if bool_decide (d_name e = fat_name name) then inr (Some e) else inl tt
         | None => inr None
         end)) tt.

(** The loop of [fat_open]; a null pointer that is used is a fault. *)
Fixpoint fat_walk (n : nat) (fuel : nat) (disk : partition_t) (current : option file_ptr) (path : list Z) : M Fat (option file_ptr) :=
  match n, path with
  | _, [] => ret current
  | O, _ => fault
  | S n, _ =>
      let delim := strchr 47 path in
      let len := default (Z.of_nat (length path)) delim in
      assert_ (len <? MAX_PATH_SIZE) ;;
      cur ← of_opt current;
      e ← fat_find_file fuel disk cur (take (Z.to_nat len) path);
      fat_close cur ;;
      match e with
      | None => ret None
      | Some e =>
          if bool_decide (delim ≠ None) && (Z.land (attributes e) FAT_ATTRIBUTE_DIRECTORY =? 0) then ret None
          else
            next ← fat_open_entry disk e;
            fat_walk n fuel disk next (match delim with Some d => drop (Z.to_nat (d + 1)) path | None => [] end)
      end
  end.
Definition fat_open (fuel : nat) (disk : partition_t) (path : list Z) : M Fat (option file_ptr) :=
  let path := match path with 47 :: path => path | _ => path end in
  fat_walk (S (length path)) fuel disk (Some Root) path.

(** A negative number is an error, another the number of bytes. *)
Definition fat_read_file (fuel : nat) (path : list Z) : M Fat (Z * buf) :=
  d ← gets g_disk;
  match d with
  | None => ret (-1, [])
  | Some disk =>
      f ← fat_open fuel disk path;
      match f with
      | None => ret (-2, [])
      | Some f =>
          fd ← file_data f;
          b ← fat_read disk f (file_size (public fd));
          fat_close f ;;
          fd ← file_data f;
          if negb (blen b =? file_size (public fd)) then ret (-3, b) else ret (s32 (blen b), b)
      end
  end.
End fat.
Arguments Fat : clear implicits.
