(* ===== verification/FatSpec.v ===== *)
(** * What the FAT driver reads

    The promise of sector reads, discharged for the BIOS with both kinds of
    addressing; the files of a FAT volume as streams over their cluster
    chains; the root directory as a list of entries, and what a second lookup
    in it sees. *)

From S2P Require Import Prelude Buf Fat.

(* ------------------------------------------------------------------ *)
(** ** Sectors *)

Definition sector_range (f : Z → buf) (lba n : Z) : buf := concat (f <$> seqZ lba n).

Lemma sector_range_one f lba : sector_range f lba 1 = f lba.
Proof. unfold sector_range. change (seqZ lba 1) with [Z.of_nat 0 + lba]. cbn. by rewrite app_nil_r. Qed.

Lemma blen_sector_range f lba n : (∀ i, blen (f i) = 512) → 0 <= n → blen (sector_range f lba n) = 512 * n.
Proof.
  intros Hf Hn. unfold sector_range. rewrite <- (Z2Nat.id n Hn). generalize (Z.to_nat n) as k. intros k. revert lba. induction k as [|k IH]; intros lba; [done|].
  rewrite Nat2Z.inj_succ, seqZ_cons by lia. cbn [fmap list_fmap concat]. rewrite blen_app, Hf, Z.pred_succ, IH. lia.
Qed.

(** The documented behaviour of the drive [p]: a read of sectors it has either
    delivers them or fails; it fails at most twice in a row when it is reset
    in between. *)
Class BiosOk (W : Type) `{Bios W} (p : disk_params_t) := {
  disk_sector : Z → buf;
  disk_size : Z;
  bios_state : W → Prop;
  bios_errors : W → nat;
  bios_errors_few w : bios_state w → (bios_errors w <= 2)%nat;
  bios_read_lba_ok w seg off lba n old :
    bios_state w → 0 <= lba → 0 < n <= 127 → lba + n <= disk_size → blen old = 512 * n → lba_support p = true →
    let '((ok, b), w') := bios_read_lba (drive_id p) (Dap 16 0 n off seg lba 0) old w in
    bios_state w' ∧ blen b = 512 * n ∧
    if (ok : bool) then b = sector_range disk_sector lba n else (bios_errors w' < bios_errors w)%nat;
  bios_read_chs_ok w c h s n old :
    bios_state w → 0 <= c < cylinders p → 0 <= h < heads p → 1 <= s <= sectors p → 0 < n <= 127 →
    (c * heads p + h) * sectors p + (s - 1) + n <= disk_size → blen old = 512 * n →
    let '((ok, b), w') := bios_read_chs (drive_id p) c h s n old w in
    bios_state w' ∧ blen b = 512 * n ∧
    if (ok : bool) then b = sector_range disk_sector ((c * heads p + h) * sectors p + (s - 1)) n else (bios_errors w' < bios_errors w)%nat;
  bios_reset_ok w : bios_state w →
    let '(_, w') := bios_disk_reset (drive_id p) w in bios_state w' ∧ (bios_errors w' <= bios_errors w)%nat
}.

(** The geometry covers the drive. *)
Definition geometry_ok (p : disk_params_t) (size : Z) : Prop :=
  0 < sectors p < 65536 ∧ 0 < heads p < 65536 ∧ 0 <= cylinders p < 65536 ∧ size <= cylinders p * heads p * sectors p.

Section bios.
Context {W : Type} `{BiosOk W p}.

Lemma wp_attempts k (read : buf → W → (bool * buf) * W) n data : ∀ w old,
  (∀ w old, bios_state w → blen old = 512 * n →
    let '((ok, b), w') := read old w in
    bios_state w' ∧ blen b = 512 * n ∧ if (ok : bool) then b = data else (bios_errors w' < bios_errors w)%nat) →
  bios_state w → blen old = 512 * n → (bios_errors w < k)%nat →
  wp (attempts k read (drive_id p) old) w (λ r w', r = (true, data) ∧ bios_state w').
Proof.
  induction k as [|k IH]; intros w old Hr Hw Hl He; [lia|]. cbn [attempts]. apply wp_bind. unfold call at 1, wp at 1.
  pose proof (Hr w old Hw Hl) as H1. destruct (read old w) as [[ok b] w1]. destruct H1 as (Hw1 & Hb & H1). cbn [fst snd].
  destruct ok; [subst b; by apply wp_ret|]. apply wp_bind. unfold call, wp at 1.
  pose proof (bios_reset_ok w1 Hw1) as H2. destruct (bios_disk_reset (drive_id p) w1) as [r w2]. destruct H2 as [Hw2 H2].
  apply IH; [done|done|done|lia].
Qed.

Lemma seg_off dest : 0 <= dest < 1048576 → Z.land (Z.shiftr dest 4) 65535 * 16 + Z.land dest 15 = dest.
Proof.
  intros Hd. change 65535 with (Z.ones 16). change 15 with (Z.ones 4). rewrite !Z.land_ones, Z.shiftr_div_pow2 by lia.
  change (2 ^ 16) with 65536. change (2 ^ 4) with 16. rewrite (Z.mod_small (dest / 16)) by (split; [apply Z.div_pos|apply Z.div_lt_upper_bound]; lia).
  pose proof (Z.div_mod dest 16). lia.
Qed.

(** Both kinds of addressing read the same sectors. *)
Lemma wp_disk_read w lba n dest old :
  bios_state w → 0 <= lba → 0 < n <= 127 → lba + n <= disk_size → 0 <= dest < 1048576 → blen old = 512 * n →
  (lba_support p = false → geometry_ok p disk_size) →
  wp (disk_read_sectors p lba n dest old) w (λ r w', r = (true, sector_range disk_sector lba n) ∧ bios_state w').
Proof.
  intros Hw Hl Hn Hs Hd Ho Hg. pose proof (bios_errors_few w Hw) as Hf. unfold disk_read_sectors. destruct (lba_support p) eqn:El.
  - cbn zeta. wp_step. apply wp_assert; [cbn; rewrite seg_off by lia; apply Z.eqb_refl|].
    apply (wp_attempts _ _ n); [|done|done|lia]. intros w' old' Hw' Ho'. by apply bios_read_lba_ok.
  - destruct (Hg eq_refl) as (G1 & G2 & G3 & G4). wp_step. unfold disk_lba_to_chs. wp_step. apply wp_assert; [blia|]. apply wp_ret.
    assert (0 <= lba mod sectors p < sectors p) by (apply Z.mod_pos_bound; lia). pose proof (Z.div_mod lba (sectors p)) as E1.
    set (q := lba / sectors p) in *. assert (0 <= q) by (apply Z.div_pos; lia).
    assert (0 <= q mod heads p < heads p) by (apply Z.mod_pos_bound; lia). pose proof (Z.div_mod q (heads p)) as E2.
    set (c := q / heads p) in *. assert (0 <= c) by (apply Z.div_pos; lia).
    assert (c < cylinders p) by (apply Z.div_lt_upper_bound; [lia|]; apply Z.div_lt_upper_bound; lia).
    rewrite (u16_small c), (u16_small (q mod heads p)), (u16_small (lba mod sectors p + 1)) by (unfold is_u16; lia).
    assert ((c * heads p + q mod heads p) * sectors p + (lba mod sectors p + 1 - 1) = lba) as E by lia.
    apply (wp_attempts _ _ n); [|done|done|lia]. intros w' old' Hw' Ho'. 
    assert (1 <= lba mod sectors p + 1 <= sectors p) as Hs1 by lia. assert (0 <= c < cylinders p) as Hc by lia.
    assert ((c * heads p + q mod heads p) * sectors p + (lba mod sectors p + 1 - 1) + n <= disk_size) as Hfit by lia.
    pose proof (bios_read_chs_ok w' c (q mod heads p) (lba mod sectors p + 1) n old' Hw' Hc ltac:(lia) Hs1 Hn Hfit Ho') as R. by rewrite E in R.
Qed.
End bios.

(* ------------------------------------------------------------------ *)
(** ** The promise of a partition

    Reads inside the partition deliver its sectors. *)

Class Sectors (W : Type) `{Bios W} (part : partition_t) := {
  sector : Z → buf;
  sector_len i : blen (sector i) = 512;
  sector_bytes i : bytes_ok (sector i);
  part_sectors : Z;
  part_small : part_sectors <= 2147483648;
  reader : W → Prop;
  wp_partition_read w lba n dest old :
    reader w → 0 <= lba → 0 < n <= 127 → lba + n <= part_sectors → 0 <= dest < 1048576 → blen old = 512 * n →
    wp (partition_read_sectors part lba n dest old) w (λ r w', r = (true, sector_range sector lba n) ∧ reader w')
}.

(** A partition of a drive keeps it. *)
Section partition_of_drive.
Context {W : Type} `{BiosOk W p}.
Variables (off size : Z).
Hypothesis Hlen : ∀ i, blen (disk_sector i) = 512.
Hypothesis Hbytes : ∀ i, bytes_ok (disk_sector i).
Hypothesis Hoff : 0 <= off.
Hypothesis Hsize : 0 <= size <= 2147483648.
Hypothesis Hfits : off + size <= disk_size.
Hypothesis Hlast : off + size <= 4294967296.
Hypothesis Hgeo : lba_support p = false → geometry_ok p disk_size.

Lemma sector_range_shift f a lba n : sector_range f (lba + a) n = sector_range (λ i, f (i + a)) lba n.
Proof.
  unfold sector_range. unfold seqZ. rewrite <- !list_fmap_compose. f_equal. apply list_fmap_ext. intros i x _. cbn. f_equal. lia.
Qed.

#[refine] Definition partition_of_drive : Sectors W (Partition p off size) := {|
  sector := λ i, disk_sector (i + off);
  part_sectors := size;
  reader := bios_state
|}.
Proof.
  - intros i. apply Hlen.
  - intros i. apply Hbytes.
  - lia.
  - intros w lba n dest old Hw Hl Hn Hs Hd Ho. unfold partition_read_sectors. cbn [p_disk partitionOffset].
    rewrite u32_small, u8_small by (unfold is_u32, is_u8; lia). rewrite <- sector_range_shift. apply wp_disk_read; [done|lia|lia|lia|lia|done|done].
Defined.
End partition_of_drive.

(* ------------------------------------------------------------------ *)
(** ** One file of the driver

    The state with the data of one file and the machine replaced; operations
    on that file only move between such states. *)

Section file.
Context {W : Type} `{Sectors W part}.
Notation Fat := (Fat W).
Implicit Types (s : Fat) (fd : fat_fileData) (w : W).

Definition data_of (q : file_ptr) s : option fat_fileData :=
  match q with Root => Some (root_directory s) | Opened i => if i <? 0 then None else opened_files s !! Z.to_nat i end.
Definition with_data (q : file_ptr) fd w s : Fat :=
  match q with
  | Root => MkFat (bs s) fd (opened_files s) (g_fat s) (g_data_section_lba s) (g_disk s) w
  | Opened i => MkFat (bs s) (root_directory s) (<[Z.to_nat i := fd]> (opened_files s)) (g_fat s) (g_data_section_lba s) (g_disk s) w
  end.

Lemma with_data_id q fd s : data_of q s = Some fd → with_data q fd (world s) s = s.
Proof.
  destruct s as [b r l t d g w]. destruct q as [|i]; cbn; [by intros [= ->]|]. destruct (i <? 0); [done|]. intros E. by rewrite list_insert_id.
Qed.
Lemma with_data_twice q fd w fd' w' s : with_data q fd w (with_data q fd' w' s) = with_data q fd w s.
Proof. destruct q as [|i]; [done|]. cbn. by rewrite list_insert_insert_eq. Qed.
Lemma data_with q fd w s : is_Some (data_of q s) → data_of q (with_data q fd w s) = Some fd.
Proof.
  destruct q as [|i]; [done|]. cbn. destruct (i <? 0); intros [x Hx]; [done|]. apply list_lookup_insert_eq. by eapply lookup_lt_Some.
Qed.
Lemma data_other q r fd w s : (∀ i, q = Opened i → 0 <= i) → r ≠ q → data_of r (with_data q fd w s) = data_of r s.
Proof.
  intros Hq Hr. destruct q as [|i], r as [|j]; [done..|]. cbn. destruct (Z.ltb_spec j 0); [done|].
  apply list_lookup_insert_ne. specialize (Hq i eq_refl). intros E. apply Hr. f_equal. lia.
Qed.

Section one.
Variables (q : file_ptr) (s : Fat).
Hypothesis Hq : is_Some (data_of q s).
Notation st fd w := (with_data q fd w s).

Lemma wp_file_data fd w (Q : fat_fileData → Fat → Prop) : Q fd (st fd w) → wp (file_data q) (st fd w) Q.
Proof.
  pose proof (data_with q fd w s Hq) as E. destruct q as [|i]; [done|]. cbn in *. intros HQ. apply wp_bind, wp_gets. cbn.
  destruct (i <? 0); [done|]. by eapply wp_of_opt.
Qed.

Lemma wp_file_update f fd w (Q : unit → Fat → Prop) : Q tt (st (f fd) w) → wp (update q f) (st fd w) Q.
Proof.
  intros HQ. unfold update. apply wp_bind, wp_file_data. destruct q as [|i]; [done|]. cbn. apply wp_bind, wp_gets. cbn.
  rewrite length_insert. destruct Hq as [x Hx]. cbn in Hx. destruct (Z.ltb_spec i 0); [done|]. apply lookup_lt_Some in Hx. guard_true. apply wp_modify.
  unfold set_opened_files. cbn. by rewrite list_insert_insert_eq.
Qed.

Lemma buffer_addr_low : (length (opened_files s) <= 10)%nat → 0 <= buffer_addr q < 1048576.
Proof.
  intros Hl. destruct q as [|i]; [done|]. cbn in *. destruct (Z.ltb_spec i 0); destruct Hq as [x Hx]; [done|]. apply lookup_lt_Some in Hx.
  unfold MEMORY_FAT_ADDR, sizeof_fat_fileData. lia.
Qed.

Lemma wp_read_buffer lba fd w (Q : bool → Fat → Prop) :
  (length (opened_files s) <= 10)%nat → reader w → 0 <= lba < part_sectors → blen (buffer fd) = 512 →
  (∀ w', reader w' → Q true (st (with_buffer (sector lba) fd) w')) → wp (read_buffer part q lba) (st fd w) Q.
Proof.
  intros Hl Hw Hlba Hb HQ. unfold read_buffer. apply wp_bind, wp_file_data, wp_bind. unfold on_disk. apply wp_zoom.
  replace (world (st fd w)) with w by by destruct q.
  eapply wp_mono; [apply wp_partition_read; [done|lia|lia|lia|by apply buffer_addr_low|lia]|]. intros r w' [-> Hw']. cbn [fst snd]. rewrite sector_range_one.
  replace (set_world w' (st fd w)) with (st fd w') by by destruct q. apply wp_bind, wp_file_update, wp_ret. by apply HQ.
Qed.

Lemma st_bs fd w : bs (st fd w) = bs s.
Proof. by destruct q. Qed.
Lemma st_g_fat fd w : g_fat (st fd w) = g_fat s.
Proof. by destruct q. Qed.
Lemma st_data_lba fd w : g_data_section_lba (st fd w) = g_data_section_lba s.
Proof. by destruct q. Qed.

Lemma wp_spc spc fd w (Q : Z → Fat → Prop) :
  fst <$> b8 13 (bs s) = Some spc → Q spc (st fd w) → wp sectors_per_cluster (st fd w) Q.
Proof. intros E HQ. unfold sectors_per_cluster. apply wp_bind, wp_gets. rewrite st_bs. unfold peek. by eapply wp_of_opt. Qed.

Lemma wp_cluster_to_lba spc c fd w (Q : Z → Fat → Prop) :
  fst <$> b8 13 (bs s) = Some spc → Q (u32 (g_data_section_lba s + u32 (c - 2) * spc)) (st fd w) → wp (fat_cluster_to_lba c) (st fd w) Q.
Proof.
  intros E HQ. unfold fat_cluster_to_lba. apply wp_bind, wp_gets, wp_bind. eapply wp_spc; [exact E|]. apply wp_ret. by rewrite st_data_lba.
Qed.

(** The table entry of a cluster. *)
Definition fat_entry (t : buf) (c : Z) : option Z :=
  (λ e, if c mod 2 =? 0 then Z.land e 4095 else Z.shiftr e 4) <$> (fst <$> b16 (u32 (c * 3) / 2) t).

Lemma wp_next_cluster c n fd w (Q : Z → Fat → Prop) :
  fat_entry (g_fat s) c = Some n → Q n (st fd w) → wp (fat_next_cluster c) (st fd w) Q.
Proof.
  intros E HQ. unfold fat_next_cluster. apply wp_bind, wp_gets, wp_bind. rewrite st_g_fat. unfold fat_entry in E.
  destruct (fst <$> b16 _ _) as [e|] eqn:Ee; [|done]. injection E as <-. unfold peek. eapply wp_of_opt; [exact Ee|]. by apply wp_ret.
Qed.
End one.
End file.

(* ------------------------------------------------------------------ *)
(** ** Pieces of the contents *)

Definition slice {A} (pos n : Z) (l : list A) : list A := take (Z.to_nat n) (drop (Z.to_nat pos) l).

Lemma slice_app {A} pos a b (l : list A) :
  0 <= pos → 0 <= a → 0 <= b → slice pos (a + b) l = slice pos a l ++ slice (pos + a) b l.
Proof.
  intros. unfold slice. rewrite !Z2Nat.inj_add by lia. rewrite <- drop_drop. generalize (drop (Z.to_nat pos) l) as m. intros m.
  rewrite <- (take_drop (Z.to_nat a) (take (Z.to_nat a + Z.to_nat b) m)). rewrite take_take, skipn_firstn_comm. f_equal; f_equal; lia.
Qed.

Lemma slice_length {A} pos n (l : list A) : 0 <= pos → 0 <= n → pos + n <= Z.of_nat (length l) → Z.of_nat (length (slice pos n l)) = n.
Proof. intros. unfold slice. rewrite length_take, length_drop. lia. Qed.

Lemma drop_concat (L : list buf) k b :
  (∀ x, x ∈ L → blen x = 512) → L !! k = Some b → drop (512 * k) (concat L) = b ++ concat (drop (S k) L).
Proof.
  revert k. induction L as [|x L IH]; intros [|k] HL Hk; [done|done|injection Hk as ->; cbn; by rewrite !drop_0|].
  cbn [concat drop]. assert (length x = 512%nat) as Hx by (specialize (HL x ltac:(by left)); unfold blen in HL; lia).
  replace (512 * S k)%nat with (length x + 512 * k)%nat by lia. rewrite drop_app_add. apply IH; [|done]. intros y Hy. apply HL. by right.
Qed.

Lemma slice_concat (L : list buf) k b o n :
  (∀ x, x ∈ L → blen x = 512) → L !! Z.to_nat k = Some b → 0 <= k → 0 <= o → 0 <= n → o + n <= 512 →
  slice (512 * k + o) n (concat L) = slice o n b.
Proof.
  intros HL Hk ? ? ? ?. unfold slice. rewrite Z2Nat.inj_add, Z2Nat.inj_mul by lia. rewrite <- drop_drop. change (Z.to_nat 512) with 512%nat.
  rewrite (drop_concat L _ b) by done. assert (length b = 512%nat) as Hb by (apply list_elem_of_lookup_2, HL in Hk; unfold blen in Hk; lia).
  rewrite drop_app_le, take_app_le by (rewrite ?length_drop; lia). done.
Qed.

(* ------------------------------------------------------------------ *)
(** ** Files as streams *)

Section stream.
Context {W : Type} `{Sectors W part}.
Notation Fat := (Fat W).
Implicit Types (fd : fat_fileData) (w : W).
Variables (i : Z) (s : Fat) (spc : Z) (cl : list Z).
Notation q := (Opened i).
Notation st fd w := (with_data q fd w s).

(** The sectors of the clusters [cl], in order. *)
Definition chain_lba (k : Z) : Z := g_data_section_lba s + (default 0 (cl !! Z.to_nat (k / spc)) - 2) * spc + k mod spc.
Definition chain_length : Z := Z.of_nat (length cl) * spc.
Definition chain_content : buf := concat ((λ k, sector (chain_lba k)) <$> seqZ 0 chain_length).

(** The table links the clusters, and they lie in the partition. *)
Record chained : Prop := {
  ch_spc : fst <$> b8 13 (bs s) = Some spc;
  ch_pos : 0 < spc < 256;
  ch_files : (length (opened_files s) <= 10)%nat;
  ch_open : is_Some (data_of q s);
  ch_data : 0 <= g_data_section_lba s;
  ch_part c : c ∈ cl → 2 <= c < 4088 ∧ g_data_section_lba s + (c - 1) * spc <= part_sectors;
  ch_next j c : cl !! j = Some c → ∃ n, fat_entry (g_fat s) c = Some n ∧ match cl !! S j with Some c' => n = c' | None => 4088 <= n end
}.

(** The file at the position [pos] of the first [sz] bytes of the contents. *)
Record placed (k : Z) fd : Prop := {
  pl_cluster : cl !! Z.to_nat (k / spc) = Some (current_cluster fd);
  pl_sector : current_sector_in_cluster fd = k mod spc
}.
Record file_at (sz pos : Z) fd : Prop := {
  fa_handle : handle (public fd) = i;
  fa_file : is_directory (public fd) = false;
  fa_size : file_size (public fd) = sz;
  fa_pos : position (public fd) = pos;
  fa_range : 0 <= pos <= sz ∧ sz <= 512 * chain_length ∧ sz < 4294967296;
  fa_buf : blen (buffer fd) = 512;
  fa_here : pos < 512 * chain_length → placed (pos / 512) fd ∧ buffer fd = sector (chain_lba (pos / 512))
}.

Hypothesis Hc : chained.

Lemma chain_place k fd : placed k fd → 0 <= k → chain_lba k = g_data_section_lba s + (current_cluster fd - 2) * spc + current_sector_in_cluster fd.
Proof. intros [Hcl Hs] Hk. unfold chain_lba. rewrite Hcl, Hs. done. Qed.

Lemma chain_in_part k fd : placed k fd → 0 <= k → 2 <= current_cluster fd < 4088 ∧ 0 <= chain_lba k < part_sectors.
Proof.
  intros Hp Hk. pose proof (ch_pos Hc) as Hs. rewrite (chain_place k fd) by done. destruct Hp as [Hcl Hm]. rewrite Hm.
  destruct (ch_part Hc _ (list_elem_of_lookup_2 _ _ _ Hcl)) as [H1 H2]. pose proof (Z.mod_pos_bound k spc ltac:(lia)). pose proof (ch_data Hc). split; [done|nia].
Qed.

Lemma next_place k : 0 <= k → (k mod spc + 1 < spc → (k + 1) / spc = k / spc ∧ (k + 1) mod spc = k mod spc + 1) ∧
  (spc <= k mod spc + 1 → (k + 1) / spc = k / spc + 1 ∧ (k + 1) mod spc = 0).
Proof.
  intros Hk. pose proof (ch_pos Hc) as Hs. pose proof (Z.div_mod k spc ltac:(lia)) as E. pose proof (Z.mod_pos_bound k spc ltac:(lia)) as B.
  split; intros Hm.
  - assert (k + 1 = spc * (k / spc) + (k mod spc + 1)) as E1 by lia. split.
    + symmetry. apply (Z.div_unique _ _ _ (k mod spc + 1)); [left; lia|done].
    + symmetry. apply (Z.mod_unique _ _ (k / spc)); [left; lia|done].
  - assert (k + 1 = spc * (k / spc + 1) + 0) as E1 by lia. split.
    + symmetry. apply (Z.div_unique _ _ _ 0); [left; lia|done].
    + symmetry. apply (Z.mod_unique _ _ (k / spc + 1)); [left; lia|done].
Qed.

Lemma placed_range k fd : placed k fd → 0 <= k → k < chain_length.
Proof.
  intros [Hcl _] Hk. apply lookup_lt_Some in Hcl. pose proof (ch_pos Hc). pose proof (Z.div_mod k spc ltac:(lia)).
  pose proof (Z.mod_pos_bound k spc ltac:(lia)). assert (0 <= k / spc) by (apply Z.div_pos; lia). unfold chain_length. nia.
Qed.

(** Behind the last byte of a sector the driver moves on to the next one; at
    the end of the chain it leaves the loop. *)
Lemma wp_next_sector sz k fd w :
  reader w → 0 <= k → placed k fd → handle (public fd) = i → is_directory (public fd) = false → file_size (public fd) = sz →
  position (public fd) = 512 * (k + 1) → 512 * (k + 1) <= sz → sz <= 512 * chain_length → sz < 4294967296 → blen (buffer fd) = 512 → 0 <= i →
  wp (next_sector part q) (st fd w) (λ stop s', ∃ fd' w', s' = st fd' w' ∧ reader w' ∧ file_at sz (512 * (k + 1)) fd' ∧
    (stop = true → sz = 512 * (k + 1))).
Proof.
  intros Hw Hk Hp Hh Hd Hs Hpos Hle Hsz H32 Hb Hi. pose proof (ch_open Hc) as Ho. pose proof (ch_pos Hc) as Hspc. pose proof (ch_data Hc) as Hdl.
  destruct (next_place k Hk) as [N1 N2]. pose proof (Z.mod_pos_bound k spc ltac:(lia)) as Bm. pose proof part_small as Hps.
  unfold next_sector. wp_step. apply (wp_file_data _ _ Ho). rewrite Hh, (proj2 (Z.eqb_neq i _)) by (unfold ROOT_DIRECTORY_HANDLE; lia).
  wp_step. apply (wp_spc _ _ Ho spc); [apply (ch_spc Hc)|]. cbn zeta. rewrite (pl_sector _ _ Hp), (u32_small (k mod spc + 1)) by (unfold is_u32; lia).
  assert (∀ fd1, placed (k + 1) fd1 → public fd1 = public fd → blen (buffer fd1) = 512 →
    wp (fd2 ← file_data q;
        if 4088 <=? current_cluster fd2 then
          update q (λ fd, with_public (with_size (position (public fd)) (public fd)) fd) ;; ret true
        else lba ← fat_cluster_to_lba (current_cluster fd2); ok ← read_buffer part q (u32 (lba + current_sector_in_cluster fd2)); ret (negb ok))
      (st fd1 w) (λ stop s', ∃ fd' w', s' = st fd' w' ∧ reader w' ∧ file_at sz (512 * (k + 1)) fd' ∧ (stop = true → sz = 512 * (k + 1)))) as Go.
  { intros fd1 Hp1 Hpub Hb1. destruct (chain_in_part (k + 1) fd1 Hp1 ltac:(lia)) as [Hcc Hlba]. pose proof (chain_place (k + 1) fd1 Hp1 ltac:(lia)) as El.
    wp_step. apply (wp_file_data _ _ Ho). rewrite (proj2 (Z.leb_gt 4088 (current_cluster fd1))) by lia.
    wp_step. apply (wp_cluster_to_lba _ _ Ho spc); [apply (ch_spc Hc)|]. assert (0 <= (current_cluster fd1 - 2) * spc) by nia.
    assert (0 <= current_sector_in_cluster fd1 < spc) by (rewrite (pl_sector _ _ Hp1); apply Z.mod_pos_bound; lia).
    rewrite (u32_small (current_cluster fd1 - 2)) by (unfold is_u32; lia).
    rewrite (u32_small (g_data_section_lba s + _)) by (unfold is_u32; lia). rewrite u32_small by (unfold is_u32; lia). rewrite <- El.
    wp_step. apply (wp_read_buffer _ _ Ho); [apply (ch_files Hc)|done|done|done|]. intros w' Hw'. apply wp_ret. eexists _, w'. split; [done|]. split; [done|].
    split; [|done]. split; cbn; rewrite ?Hpub; [done..| |apply sector_len|]; [lia|]. intros _. replace (512 * (k + 1) / 512) with (k + 1) by (apply Z.div_unique_exact; lia).
    split; [|done]. by destruct Hp1. }
  wp_step. destruct (Z.leb_spec spc (k mod spc + 1)) as [Hlast|Hmid].
  - destruct (N2 Hlast) as [D1 M1]. destruct (ch_next Hc _ _ (pl_cluster _ _ Hp)) as (n & En & Hn). wp_step. apply (wp_next_cluster _ _ Ho _ n); [done|].
    apply (wp_file_update _ _ Ho). assert (Z.to_nat ((k + 1) / spc) = S (Z.to_nat (k / spc))) as Ej by (rewrite D1; assert (0 <= k / spc) by (apply Z.div_pos; lia); lia).
    destruct (cl !! S (Z.to_nat (k / spc))) as [c'|] eqn:Ec.
    + subst n. apply Go; [|done|done]. split; cbn; [by rewrite Ej|by rewrite M1].
    + wp_step. apply (wp_file_data _ _ Ho). cbn [with_cluster current_cluster]. rewrite (proj2 (Z.leb_le 4088 n)) by lia. wp_step. apply (wp_file_update _ _ Ho). apply wp_ret.
      assert (512 * chain_length <= 512 * (k + 1)) as Hend.
      { apply lookup_ge_None in Ec. pose proof (Z.div_mod (k + 1) spc ltac:(lia)) as E. rewrite M1, D1 in E. assert (0 <= k / spc) by (apply Z.div_pos; lia). unfold chain_length. nia. }
      eexists _, w. split; [done|]. split; [done|]. split; [|intros _; lia]. split; cbn; [done|done|lia|done|lia|done|lia].
  - destruct (N1 Hmid) as [D1 M1]. apply (wp_file_update _ _ Ho). apply Go; [|done|done]. split; cbn; [rewrite D1; apply Hp|by rewrite M1].
Qed.

Lemma chain_sector k : 0 <= k < chain_length → ((λ k, sector (chain_lba k)) <$> seqZ 0 chain_length) !! Z.to_nat k = Some (sector (chain_lba k)).
Proof. intros Hk. rewrite list_lookup_fmap, lookup_seqZ_lt by lia. cbn. do 3 f_equal. lia. Qed.

Lemma content_piece k o n : 0 <= k < chain_length → 0 <= o → 0 <= n → o + n <= 512 →
  slice (512 * k + o) n chain_content = slice o n (sector (chain_lba k)).
Proof.
  intros Hk Ho Hn Hl. apply (slice_concat _ k); [|by apply chain_sector|lia..]. intros x Hx. apply list_elem_of_fmap in Hx as (j & -> & _). apply sector_len.
Qed.

(** Sectors the next [n] bytes touch. *)
Definition touched (pos n : Z) : nat := if n <=? 0 then 0%nat else Z.to_nat ((pos + n - 1) / 512 - pos / 512 + 1).

Lemma sub_bytes_slice o n b : 0 <= o → 0 <= n → o + n <= blen b → sub_bytes o n b = Some (slice o n b).
Proof. intros. by rewrite sub_bytes_is_Some. Qed.

Lemma wp_read_step sz pos n out fd w :
  reader w → 0 <= i → file_at sz pos fd → 0 < n → pos + n <= sz →
  wp (read_step part q (n, out)) (st fd w) (λ r s', ∃ t fd' w', s' = st fd' w' ∧ reader w' ∧ 0 < t <= n ∧ file_at sz (pos + t) fd' ∧
    match r with
    | inl a => a = (n - t, out ++ slice pos t chain_content) ∧ (t = n ∨ t = 512 - pos mod 512)
    | inr b => t = n ∧ b = out ++ slice pos t chain_content
    end).
Proof.
  intros Hw Hi F Hn Hle. pose proof (ch_open Hc) as Ho. pose proof F as [Fh Fd Fs Fp (Fr & Fc & F32) Fb Fhere].
  destruct (Fhere ltac:(lia)) as [Pl Eb]. pose proof (Z.div_mod pos 512 ltac:(lia)) as Ep. pose proof (Z.mod_pos_bound pos 512 ltac:(lia)) as Bm.
  set (k := pos / 512) in *. assert (0 <= k) as Hk by (apply Z.div_pos; lia). pose proof (placed_range _ _ Pl Hk) as Hkr.
  unfold read_step. rewrite (proj2 (Z.leb_gt n 0)) by lia. wp_step. apply (wp_file_data _ _ Ho). unfold SECTOR_SIZE. rewrite Fp. cbn zeta.
  set (t := if n <? 512 - pos mod 512 then n else 512 - pos mod 512).
  assert (0 < t <= n ∧ t <= 512 - pos mod 512 ∧ (t = n ∨ t = 512 - pos mod 512)) as (Ht & Ht2 & Ht3) by (subst t; destruct (Z.ltb_spec n (512 - pos mod 512)); lia).
  wp_step. eapply wp_of_opt; [apply sub_bytes_slice; lia|]. wp_step. apply (wp_file_update _ _ Ho). rewrite Eb.
  rewrite <- (content_piece k (pos mod 512) t) by lia. rewrite <- Ep. rewrite u32_small by (unfold is_u32; lia).
  set (fd1 := with_public _ fd). wp_step. destruct (Z.eqb_spec (512 - pos mod 512) t) as [Et|Et].
  - eapply wp_mono; [apply (wp_next_sector sz k fd1); cbn; try done; try lia; by destruct Pl|]. intros stop s' (fd' & w' & -> & Hw' & F' & Hstop). apply wp_ret.
    exists t, fd', w'. replace (512 * (k + 1)) with (pos + t) in * by lia. split_and!; [done|done|lia|lia|done|]. destruct stop; [|done]. specialize (Hstop eq_refl). split; [lia|done].
  - apply wp_ret, wp_ret. exists t, fd1, w. split_and!; [done|done|lia|lia| |done..]. assert ((pos + t) / 512 = k) as Ek by (symmetry; apply (Z.div_unique _ _ _ (pos mod 512 + t)); lia).
    split; unfold fd1; cbn; [done|done|done|lia|lia|done|]. intros _. rewrite Ek. split; [by destruct Pl|done].
Qed.

Lemma touched_less pos n t : 0 <= pos → 0 < t <= n → t = n ∨ t = 512 - pos mod 512 → (touched (pos + t) (n - t) < touched pos n)%nat.
Proof.
  intros Hp Ht Hor. unfold touched. rewrite (proj2 (Z.leb_gt n 0)) by lia. assert (pos / 512 <= (pos + n - 1) / 512) by (apply Z.div_le_mono; lia).
  destruct (Z.leb_spec (n - t) 0); [lia|]. destruct Hor as [->|Et]; [lia|]. pose proof (Z.div_mod pos 512 ltac:(lia)).
  replace ((pos + t) / 512) with (pos / 512 + 1) by (apply (Z.div_unique _ _ _ 0); lia). replace (pos + t + (n - t) - 1) with (pos + n - 1) by lia.
  assert (pos / 512 + 1 <= (pos + n - 1) / 512) by (apply Z.div_le_lower_bound; lia). lia.
Qed.

Lemma touched_fuel pos n : 0 <= pos → 0 <= n → (touched pos n < read_fuel n)%nat.
Proof.
  intros Hp Hn. unfold touched, read_fuel, SECTOR_SIZE. assert (0 <= n / 512) by (apply Z.div_pos; lia). destruct (Z.leb_spec n 0); [lia|].
  assert ((pos + n - 1) / 512 <= pos / 512 + n / 512 + 1); [|lia]. apply Z.lt_succ_r, Z.div_lt_upper_bound; [lia|].
  pose proof (Z.div_mod pos 512 ltac:(lia)). pose proof (Z.mod_pos_bound pos 512 ltac:(lia)). pose proof (Z.div_mod n 512 ltac:(lia)). pose proof (Z.mod_pos_bound n 512 ltac:(lia)). lia.
Qed.

Lemma wp_fat_read sz pos n fd w :
  reader w → 0 <= i → file_at sz pos fd → 0 <= n →
  wp (fat_read part q n) (st fd w) (λ b s', ∃ fd' w', s' = st fd' w' ∧ reader w' ∧
    b = slice pos (Z.min n (sz - pos)) chain_content ∧ file_at sz (pos + Z.min n (sz - pos)) fd').
Proof.
  intros Hw Hi F Hn. pose proof (ch_open Hc) as Ho. pose proof F as [Fh Fd Fs Fp (Fr & Fc & F32) Fb Fhere].
  unfold fat_read. wp_step. apply (wp_file_data _ _ Ho). rewrite Fh. unfold by_handle. rewrite (proj2 (Z.eqb_neq i _)) by (unfold ROOT_DIRECTORY_HANDLE; lia).
  wp_step. apply (wp_file_data _ _ Ho). rewrite Fd, Fs, Fp. cbn [negb orb]. rewrite u32_small by (unfold is_u32; lia). cbn zeta.
  replace (if n <? sz - pos then n else sz - pos) with (Z.min n (sz - pos)) by (destruct (Z.ltb_spec n (sz - pos)); lia).
  set (N := Z.min n (sz - pos)). assert (0 <= N <= sz - pos) as HN by lia.
  apply (wp_while_n (λ m a s', ∃ fd w pos', s' = st fd w ∧ reader w ∧ file_at sz pos' fd ∧ pos <= pos' ∧ pos' + fst a = pos + N ∧ 0 <= fst a ∧
    snd a = slice pos (pos' - pos) chain_content ∧ m = touched pos' (fst a))) with (touched pos N).
  - exists fd, w, pos. cbn. rewrite Z.sub_diag. by split_and!; try lia.
  - apply touched_fuel; lia.
  - clear fd w Hw F Fh Fd Fs Fp Fb Fhere. intros m [k out] s' (fd & w & p1 & -> & Hw & F & Hp1 & E1 & Hk & Eo & ->). cbn [fst snd] in *.
    destruct (Z.eq_dec k 0) as [->|Hk0].
    { cbn [read_step]. change (0 <=? 0) with true. cbn iota. apply wp_ret. exists fd, w. split_and!; [done|done| |by replace (pos + N) with p1 by lia].
      rewrite Eo. f_equal. lia. }
    eapply wp_mono; [apply (wp_read_step sz p1); [done|done|done|lia|lia]|]. intros r s' (t & fd' & w' & -> & Hw' & Ht & F' & Hr).
    assert (out ++ slice p1 t chain_content = slice pos (p1 + t - pos) chain_content) as Eout.
    { rewrite Eo. replace (p1 + t - pos) with ((p1 - pos) + t) by lia. rewrite slice_app by lia. do 2 f_equal. lia. }
    destruct r as [a|b].
    + destruct Hr as [-> Hor]. cbn [fst snd]. exists (touched (p1 + t) (k - t)). split; [by apply touched_less; try lia|].
      exists fd', w', (p1 + t). rewrite Eout. by split_and!; try lia.
    + destruct Hr as [-> ->]. exists fd', w'. rewrite Eout. split_and!; [done|done|f_equal; lia|by replace (pos + N) with (p1 + k) by lia].
Qed.
End stream.

(* ------------------------------------------------------------------ *)
(** ** The root directory

    The root directory starts at the sector [lba] and has [n] entries. A lookup
    starts with what is in the buffer of the directory, [B], and goes on with
    the sectors that follow the first one. *)

Section root.
Context {W : Type} `{Sectors W part}.
Notation Fat := (Fat W).
Implicit Types (fd : fat_fileData) (w : W) (B : buf).
Variables (s : Fat) (lba n : Z).
Notation st fd w := (with_data Root fd w s).

Definition root_sector B (k : Z) : buf := if k =? 0 then B else sector (lba + k).
Definition entry_bytes B (j : Z) : buf := slice (32 * (j mod 16)) 32 (root_sector B (j / 16)).
Definition root_entries B : list fat_dirent := omap (λ j, decode_dirent (entry_bytes B j)) (seqZ 0 n).

Record root_at B (j : Z) fd : Prop := {
  ra_public : public fd = FatFile ROOT_DIRECTORY_HANDLE true (32 * j) (32 * n);
  ra_first : first_cluster fd = lba;
  ra_cluster : current_cluster fd = lba + j / 16;
  ra_buffer : buffer fd = root_sector B (j / 16)
}.

Hypothesis Hn : 0 < n < 65536.
Hypothesis Hlba : 0 <= lba ∧ lba + n / 16 < part_sectors.
Hypothesis Hfiles : (length (opened_files s) <= 10)%nat.

Lemma root_sector_len B k : blen B = 512 → blen (root_sector B k) = 512.
Proof. intros HB. unfold root_sector. destruct (k =? 0); [done|apply sector_len]. Qed.

Lemma dirent_decodes b : blen b = 32 → is_Some (decode_dirent b).
Proof.
  intros Hb. unfold decode_dirent, b8, b16, b32, get_bytes, bind. by repeat (rewrite sub_bytes_is_Some by lia; cbn).
Qed.

Lemma entry_len B j : blen B = 512 → 0 <= j → blen (entry_bytes B j) = 32.
Proof.
  intros HB Hj. unfold entry_bytes, blen. apply slice_length; [|lia|]; pose proof (Z.mod_pos_bound j 16 ltac:(lia)); [lia|].
  pose proof (root_sector_len B (j / 16) HB) as E. unfold blen in E. lia.
Qed.

Lemma next_entry j : 0 <= j →
  (j mod 16 < 15 → (j + 1) / 16 = j / 16) ∧ (j mod 16 = 15 → (j + 1) / 16 = j / 16 + 1).
Proof.
  intros Hj. pose proof (Z.div_mod j 16 ltac:(lia)). pose proof (Z.mod_pos_bound j 16 ltac:(lia)).
  split; intros Hm; symmetry; [apply (Z.div_unique _ _ _ (j mod 16 + 1))|apply (Z.div_unique _ _ _ 0)]; lia.
Qed.

Lemma wp_root_read B j fd w :
  reader w → blen B = 512 → root_at B j fd → 0 <= j < n →
  wp (fat_read part Root 32) (st fd w) (λ b s', ∃ fd' w', s' = st fd' w' ∧ reader w' ∧ b = entry_bytes B j ∧ root_at B (j + 1) fd').
Proof.
  intros Hw HB [Rp Rf Rc Rb] Hj. assert (is_Some (data_of Root s)) as Ho by by eexists. pose proof (Z.mod_pos_bound j 16 ltac:(lia)) as Bm.
  pose proof (Z.div_mod j 16 ltac:(lia)) as Ej. destruct (next_entry j ltac:(lia)) as [N1 N2].
  assert ((32 * j) mod 512 = 32 * (j mod 16)) as Em by (symmetry; apply (Z.mod_unique _ _ (j / 16)); lia).
  unfold fat_read. wp_step. apply (wp_file_data _ _ Ho). rewrite Rp. cbn [handle]. change (by_handle ROOT_DIRECTORY_HANDLE) with Root.
  wp_step. apply (wp_file_data _ _ Ho). rewrite Rp. cbn [is_directory file_size position negb orb].
  rewrite (proj2 (Z.eqb_neq (32 * n) 0)) by lia. cbn [negb]. rewrite u32_small by (unfold is_u32; lia). cbn zeta.
  replace (if 32 <? 32 * n - 32 * j then 32 else 32 * n - 32 * j) with 32 by (destruct (Z.ltb_spec 32 (32 * n - 32 * j)); lia).
  change (read_fuel 32) with 3%nat. cbn [while_n]. wp_step. unfold read_step. change (32 <=? 0) with false. cbn iota.
  wp_step. apply (wp_file_data _ _ Ho). rewrite Rp. cbn [position]. unfold SECTOR_SIZE. rewrite Em. cbn zeta.
  replace (if 32 <? 512 - 32 * (j mod 16) then 32 else 512 - 32 * (j mod 16)) with 32 by (destruct (Z.ltb_spec 32 (512 - 32 * (j mod 16))); lia).
  wp_step. eapply wp_of_opt; [rewrite Rb; apply sub_bytes_slice; [lia|lia|rewrite root_sector_len by done; lia]|]. fold (entry_bytes B j).
  wp_step. apply (wp_file_update _ _ Ho). rewrite Rp. cbn [position]. rewrite u32_small by (unfold is_u32; lia). wp_step.
  destruct (Z.eqb_spec (512 - 32 * (j mod 16)) 32) as [El|El].
  - assert (0 <= j / 16) by (apply Z.div_pos; lia). assert (j / 16 + 1 <= n / 16) by (apply Z.div_le_lower_bound; lia). pose proof part_small.
    unfold next_sector. wp_step. apply (wp_file_data _ _ Ho). cbn [public with_public with_position handle]. change (ROOT_DIRECTORY_HANDLE =? ROOT_DIRECTORY_HANDLE) with true. cbn iota.
    wp_step. apply (wp_file_update _ _ Ho). wp_step. apply (wp_file_data _ _ Ho). cbn [with_cluster with_public current_cluster]. rewrite Rc. rewrite u32_small by (unfold is_u32; lia).
    wp_step. apply (wp_read_buffer _ _ Ho); [done|done|lia|cbn; rewrite Rb; by apply root_sector_len|]. intros w' Hw'.
    apply wp_ret. apply wp_ret. cbn. unfold wp, ret. cbn. eexists _, w'. split; [done|]. split; [done|]. split; [done|].
    split; cbn; [unfold with_position; cbn; f_equal; lia|done|rewrite N2; lia|]. rewrite N2 by lia. unfold root_sector. rewrite (proj2 (Z.eqb_neq _ 0)) by lia. f_equal. lia.
  - apply wp_ret. apply wp_ret. unfold wp, ret, bind. cbn. eexists _, w. split; [done|]. split; [done|]. split; [done|].
    split; cbn; rewrite ?N1 by lia; [unfold with_position; cbn; f_equal; lia|done..].
Qed.

Lemma wp_root_end B fd w :
  root_at B n fd → wp (fat_read part Root 32) (st fd w) (λ b s', s' = st fd w ∧ b = []).
Proof.
  intros [Rp Rf Rc Rb]. assert (is_Some (data_of Root s)) as Ho by by eexists.
  unfold fat_read. wp_step. apply (wp_file_data _ _ Ho). rewrite Rp. cbn [handle]. change (by_handle ROOT_DIRECTORY_HANDLE) with Root.
  wp_step. apply (wp_file_data _ _ Ho). rewrite Rp. cbn [is_directory file_size position negb orb].
  rewrite (proj2 (Z.eqb_neq (32 * n) 0)) by lia. cbn [negb]. rewrite Z.sub_diag. done.
Qed.

(** The first entry of a name, with its place. *)
Definition first_named (name : list Z) (l : list fat_dirent) : option (nat * fat_dirent) := list_find (λ e, d_name e = fat_name name) l.
Definition entries_from B (j : Z) : list fat_dirent := omap (λ j, decode_dirent (entry_bytes B j)) (seqZ j (n - j)).

Lemma entries_from_cons B j : blen B = 512 → 0 <= j < n → ∃ e, decode_dirent (entry_bytes B j) = Some e ∧ entries_from B j = e :: entries_from B (j + 1).
Proof.
  intros HB Hj. destruct (dirent_decodes (entry_bytes B j)) as [e He]; [apply entry_len; [done|lia]|]. exists e. split; [done|]. unfold entries_from.
  rewrite seqZ_cons by lia. cbn [omap list_omap]. rewrite He. do 3 f_equal; lia.
Qed.

Lemma wp_root_find fuel name B : ∀ j fd w,
  reader w → blen B = 512 → root_at B j fd → 0 <= j <= n → n - j < Z.of_nat fuel →
  wp (fat_find_file fuel part Root name) (st fd w) (λ r s', ∃ fd' w', s' = st fd' w' ∧ reader w' ∧
    r = snd <$> first_named name (entries_from B j) ∧
    root_at B (match first_named name (entries_from B j) with Some (k, _) => j + Z.of_nat k + 1 | None => n end) fd').
Proof.
  unfold fat_find_file. induction fuel as [|fuel IH]; intros j fd w Hw HB R Hj Hf; [lia|]. cbn [while_n]. wp_step. wp_step. unfold fat_read_entry. wp_step.
  destruct (Z.eq_dec j n) as [->|Hjn].
  - eapply wp_mono; [by apply (wp_root_end B)|]. intros b s' [-> ->]. cbn [blen length]. change (Z.of_nat 0 =? sizeof_fat_dirent) with false. cbn iota.
    do 3 apply wp_ret. unfold entries_from. rewrite Z.sub_diag. exists fd, w. by split_and!.
  - destruct (entries_from_cons B j HB ltac:(lia)) as (e & He & El).
    eapply wp_mono; [apply (wp_root_read B j); [done|done|done|lia]|]. intros b s' (fd' & w' & -> & Hw' & -> & R').
    rewrite entry_len by (done || lia). change (32 =? sizeof_fat_dirent) with true. cbn iota. wp_step. eapply wp_of_opt; [exact He|]. do 2 apply wp_ret.
    rewrite El. unfold first_named in *. cbn [list_find]. destruct (decide (d_name e = fat_name name)) as [Hm|Hm].
    + rewrite bool_decide_eq_true_2 by done. apply wp_ret. exists fd', w'. cbn [fmap option_fmap option_map snd]. split_and!; [done|done|done|]. by rewrite Z.add_0_r.
    + rewrite bool_decide_eq_false_2 by done. eapply wp_mono; [apply (IH (j + 1)); [done|done|done|lia|lia]|].
      intros r s' (fd2 & w2 & -> & Hw2 & -> & R2). exists fd2, w2. split; [done|]. split; [done|].
      destruct (list_find _ (entries_from B (j + 1))) as [[k e']|]; cbn in *; [|done]. split; [done|].
      by replace (j + Z.of_nat (S k) + 1) with (j + 1 + Z.of_nat k + 1) by lia.
Qed.

(** Closing the directory starts over, with the sector that is in the buffer. *)
Lemma wp_root_close B j fd w (Q : unit → Fat → Prop) :
  root_at B j fd → (∀ fd', root_at (root_sector B (j / 16)) 0 fd' → Q tt (st fd' w)) → wp (fat_close Root) (st fd w) Q.
Proof.
  intros [Rp Rf Rc Rb] HQ. assert (is_Some (data_of Root s)) as Ho by by eexists. unfold fat_close. wp_step. apply (wp_file_data _ _ Ho). rewrite Rp.
  cbn [handle]. change (ROOT_DIRECTORY_HANDLE =? ROOT_DIRECTORY_HANDLE) with true. cbn iota. wp_step. apply (wp_file_update _ _ Ho). apply (wp_file_update _ _ Ho).
  apply HQ. split; cbn; [by rewrite Rp|done|rewrite Rf; change (0 / 16) with 0; lia|done].
Qed.

(** The sector in the buffer after a lookup. *)
Definition seen (name : list Z) B : Z := match first_named name (root_entries B) with Some (k, _) => Z.of_nat k + 1 | None => n end.

Lemma seen_range name B : blen B = 512 → 0 <= seen name B <= n.
Proof.
  intros HB. unfold seen. destruct (first_named name (root_entries B)) as [[k e]|] eqn:E; [|lia]. apply list_find_Some in E as (E & _). apply lookup_lt_Some in E.
  unfold root_entries in E. assert (length (omap (λ j, decode_dirent (entry_bytes B j)) (seqZ 0 n)) <= length (seqZ 0 n))%nat as L.
  { generalize (seqZ 0 n) as l. induction l as [|x l IH]; [done|]. cbn [omap list_omap]. destruct (decode_dirent _); cbn; lia. }
  rewrite length_seqZ in L. lia.
Qed.

Lemma wp_root_lookup fuel name B fd w :
  reader w → blen B = 512 → root_at B 0 fd → n < Z.of_nat fuel →
  wp (r ← fat_find_file fuel part Root name; fat_close Root ;; ret r) (st fd w) (λ r s', ∃ fd' w', s' = st fd' w' ∧ reader w' ∧
    r = snd <$> first_named name (root_entries B) ∧ root_at (root_sector B (seen name B / 16)) 0 fd').
Proof.
  intros Hw HB R Hf. wp_step. eapply wp_mono; [apply (wp_root_find fuel name B 0); [done|done|done|lia|lia]|]. intros r s' (fd' & w' & -> & Hw' & -> & R').
  assert (entries_from B 0 = root_entries B) as E by (unfold entries_from, root_entries; by rewrite Z.sub_0_r). rewrite E in *.
  wp_step. eapply wp_root_close; [exact R'|]. intros fd2 R2. apply wp_ret. exists fd2, w'. split_and!; [done..|]. unfold seen. by destruct (first_named name (root_entries B)) as [[k e]|].
Qed.
End root.

(* ------------------------------------------------------------------ *)
(** ** Whole files *)

Section whole.
Context {W : Type} `{Sectors W part}.
Notation Fat := (Fat W).
Implicit Types (s : Fat) (fd : fat_fileData) (w : W) (e : fat_dirent).

Definition entry_cluster e : Z := u32 (first_cluster_low e + Z.shiftl (first_cluster_high e) 16).

(** [i] is the handle the next file gets. *)
Record next_handle s (i : Z) : Prop := {
  nh_range : 0 <= i < 10;
  nh_files : length (opened_files s) = 10%nat;
  nh_used j : 0 <= j < i → ∃ fd, opened_files s !! Z.to_nat j = Some fd ∧ opened fd = true;
  nh_free : ∃ fd, opened_files s !! Z.to_nat i = Some fd ∧ opened fd = false ∧ blen (buffer fd) = 512
}.

(** The entry of a file whose bytes are in the clusters [cl]. *)
Record file_entry s i spc cl e : Prop := {
  fe_chain : chained i s spc cl;
  fe_first : cl !! 0%nat = Some (entry_cluster e);
  fe_file : Z.land (attributes e) FAT_ATTRIBUTE_DIRECTORY = 0;
  fe_size : 0 <= d_size e <= 512 * chain_length spc cl ∧ d_size e < 4294967296
}.

Lemma wp_find_handle s i (Q : option Z → Fat → Prop) :
  next_handle s i → Q (Some i) s →
  wp (scan_range 0 MAX_FILE_HANDLES (λ j, fd ← file_data (Opened j); ret (if opened fd then None else Some j))) s Q.
Proof.
  intros [Hr Hl Hu (fd & Ef & Eo & _)] HQ. apply (wp_scan_range (λ j s', s' = s ∧ j <= i)).
  - split; [done|lia].
  - intros j s' Hj [-> Hji]. wp_step. cbn [file_data]. wp_step. wp_step. rewrite (proj2 (Z.ltb_ge j 0)) by lia.
    destruct (Z.eq_dec j i) as [->|Hne].
    + eapply wp_of_opt; [exact Ef|]. apply wp_ret. by rewrite Eo.
    + destruct (Hu j ltac:(lia)) as (fdj & Ej & Oj). eapply wp_of_opt; [exact Ej|]. apply wp_ret. rewrite Oj. split; [done|lia].
  - intros s' [_ Hm]. unfold MAX_FILE_HANDLES in Hm. lia.
Qed.

Lemma wp_open_entry s i spc cl e :
  reader (world s) → next_handle s i → file_entry s i spc cl e →
  wp (fat_open_entry part e) s (λ r s', r = Some (Opened i) ∧ ∃ fd' w', s' = with_data (Opened i) fd' w' s ∧ reader w' ∧ file_at i s spc cl (d_size e) 0 fd').
Proof.
  intros Hw Hh [Hc Hfc Hfile Hsz]. pose proof (ch_open _ _ _ _ Hc) as Ho. pose proof (ch_pos _ _ _ _ Hc) as Hspc. pose proof Hh as [Hr Hl _ (fd & Ef & _ & Hb)].
  unfold fat_open_entry. wp_step. apply (wp_find_handle s i); [done|]. cbn zeta. fold (entry_cluster e). rewrite Hfile. change (negb (0 =? 0)) with false.
  assert (data_of (Opened i) s = Some fd) as Ed by (cbn; by rewrite (proj2 (Z.ltb_ge i 0)) by lia).
  rewrite <- (with_data_id (Opened i) fd s Ed) at 1. wp_step. apply (wp_file_update _ _ Ho). set (fd1 := FileData _ _ _ _ _ _).
  assert (placed spc cl 0 fd1) as Pl by (split; [by rewrite Z.div_0_l by lia|by rewrite Z.mod_0_l by lia]).
  destruct (chain_in_part i s spc cl Hc 0 fd1 Pl ltac:(lia)) as [Hcc Hlba]. pose proof (chain_place s spc cl 0 fd1 Pl ltac:(lia)) as El. change (current_cluster fd1) with (entry_cluster e) in *.
  change (current_sector_in_cluster fd1) with 0 in El. pose proof (ch_data _ _ _ _ Hc). pose proof part_small.
  wp_step. apply (wp_cluster_to_lba _ _ Ho spc); [apply (ch_spc _ _ _ _ Hc)|]. rewrite (u32_small (entry_cluster e - 2)) by (unfold is_u32; lia).
  rewrite u32_small by (unfold is_u32; lia). rewrite <- (Z.add_0_r (g_data_section_lba s + _)), <- El.
  wp_step. apply (wp_read_buffer _ _ Ho); [lia|done|done|done|]. intros w' Hw'. cbn [negb]. cbn iota. wp_step. apply (wp_file_update _ _ Ho). apply wp_ret.
  split; [done|]. eexists _, w'. split; [done|]. split; [done|]. split; cbn; [done..|lia|apply sector_len|]. intros _. by rewrite Z.div_0_l by lia.
Qed.

Lemma chained_root i s spc cl fd w : chained i s spc cl → chained i (with_data Root fd w s) spc cl.
Proof. intros [? ? ? ? ? ? ?]. by split. Qed.

Lemma file_at_root i s spc cl fd w sz pos fd' : file_at i (with_data Root fd w s) spc cl sz pos fd' ↔ file_at i s spc cl sz pos fd'.
Proof. by split; intros [? ? ? ? ? ? ?]; split. Qed.

Lemma strchr_none c name : c ∉ name → strchr c name = None.
Proof.
  induction name as [|x name IH]; [done|]. intros Hn. apply not_elem_of_cons in Hn as [H1 H2]. cbn. rewrite (proj2 (Z.eqb_neq x c)) by congruence. by rewrite IH.
Qed.

Lemma wp_open_in_root fuel s lba n B i spc cl name k e :
  reader (world s) → blen B = 512 → 0 < n < 65536 → 0 <= lba ∧ lba + n / 16 < part_sectors → n < Z.of_nat fuel →
  root_at lba n B 0 (root_directory s) → next_handle s i → file_entry s i spc cl e →
  47 ∉ name → name ≠ [] → (length name < 256)%nat → first_named name (root_entries lba n B) = Some (k, e) →
  wp (fat_open fuel part (47 :: name)) s (λ r s', r = Some (Opened i) ∧ ∃ fdr fd' w',
    s' = with_data (Opened i) fd' w' (with_data Root fdr w' s) ∧ reader w' ∧
    root_at lba n (root_sector lba B ((Z.of_nat k + 1) / 16)) 0 fdr ∧ file_at i s spc cl (d_size e) 0 fd').
Proof.
  intros Hw HB Hn Hlba Hf R Hh [Hc Hfc Hfile Hsz] Hns Hne Hl Hfind. unfold fat_open. destruct name as [|c0 name0]; [done|]. set (name := c0 :: name0) in *. cbn [length fat_walk]. rewrite strchr_none by done.
  change (default (Z.of_nat (length name)) None) with (Z.of_nat (length name)). cbn zeta. apply wp_bind, wp_assert; [unfold MAX_PATH_SIZE; lia|].
  wp_step. eapply wp_of_opt; [done|]. rewrite Nat2Z.id, take_ge by done. assert (data_of Root s = Some (root_directory s)) as Er by done.
  rewrite <- (with_data_id Root (root_directory s) s Er) at 1. pose proof (nh_files _ _ Hh) as Hl10.
  wp_step. eapply wp_mono; [apply (wp_root_find s lba n Hn Hlba ltac:(lia) fuel name B 0); [done|done|done|lia|lia]|]. intros r s' (fd' & w' & -> & Hw' & -> & R').
  assert (entries_from lba n B 0 = root_entries lba n B) as E by (unfold entries_from, root_entries; by rewrite Z.sub_0_r). rewrite E, Hfind in *.
  wp_step. eapply (wp_root_close s lba n ltac:(lia) B); [exact R'|]. intros fdr Rr. cbn [fmap option_fmap option_map snd].
  rewrite (bool_decide_eq_false_2 (None ≠ None)) by (intros Hx; by apply Hx). cbn [andb].
  wp_step. set (s1 := with_data Root fdr w' s).
  eapply wp_mono; [apply (wp_open_entry s1 i spc cl e); [done|by destruct Hh|split; [by apply chained_root|done..]]|].
  intros r s2 [-> (fd2 & w2 & -> & Hw2 & F2)]. apply wp_ret. split; [done|]. exists fdr, fd2, w2. split; [done|]. split; [done|]. split; [|exact (proj1 (file_at_root i s spc cl fdr w' _ _ fd2) F2)].
  by replace (0 + Z.of_nat k + 1) with (Z.of_nat k + 1) in Rr by lia.
Qed.

Lemma wp_close_file s i spc cl sz pos fd w (Q : unit → Fat → Prop) :
  chained i s spc cl → 0 <= i → file_at i s spc cl sz pos fd →
  Q tt (with_data (Opened i) (with_opened false fd) w s) → wp (fat_close (Opened i)) (with_data (Opened i) fd w s) Q.
Proof.
  intros Hc Hi [Fh _ _ _ _ _ _] HQ. pose proof (ch_open _ _ _ _ Hc) as Ho. unfold fat_close. wp_step. apply (wp_file_data _ _ Ho). rewrite Fh.
  rewrite (proj2 (Z.eqb_neq i _)) by (unfold ROOT_DIRECTORY_HANDLE; lia). by apply (wp_file_update _ _ Ho).
Qed.

Lemma chain_content_len s spc cl : 0 <= spc → blen (chain_content s spc cl) = 512 * chain_length spc cl.
Proof.
  intros Hs. unfold chain_content. assert (0 <= chain_length spc cl) as Hl by (unfold chain_length; nia).
  change (concat ((λ k, sector (chain_lba s spc cl k)) <$> seqZ 0 (chain_length spc cl))) with (sector_range (λ k, sector (chain_lba s spc cl k)) 0 (chain_length spc cl)).
  apply blen_sector_range; [|done]. intros j. apply sector_len.
Qed.

Lemma chain_content_bytes s spc cl : bytes_ok (chain_content s spc cl).
Proof.
  unfold chain_content. generalize (seqZ 0 (chain_length spc cl)) as l. intros l. induction l as [|k l IH]; [constructor|]. cbn [fmap list_fmap concat].
  apply Forall_app. split; [apply sector_bytes|done].
Qed.

Lemma wp_read_in_root fuel s lba n B i spc cl name k e :
  g_disk s = Some part → reader (world s) → blen B = 512 → 0 < n < 65536 → 0 <= lba ∧ lba + n / 16 < part_sectors → n < Z.of_nat fuel →
  root_at lba n B 0 (root_directory s) → next_handle s i → file_entry s i spc cl e →
  47 ∉ name → name ≠ [] → (length name < 256)%nat → first_named name (root_entries lba n B) = Some (k, e) →
  wp (fat_read_file fuel (47 :: name)) s (λ r s', r = (s32 (d_size e), slice 0 (d_size e) (chain_content s spc cl)) ∧ reader (world s') ∧
    g_disk s' = Some part ∧ next_handle s' i ∧ root_at lba n (root_sector lba B ((Z.of_nat k + 1) / 16)) 0 (root_directory s') ∧
    bs s' = bs s ∧ g_fat s' = g_fat s ∧ g_data_section_lba s' = g_data_section_lba s).
Proof.
  intros Hg Hw HB Hn Hlba Hf R Hh Hfe Hns Hne Hl Hfind. pose proof Hfe as [Hc Hfc Hfile Hsz]. pose proof (nh_range _ _ Hh) as Hi.
  unfold fat_read_file. wp_step. wp_step. rewrite Hg. wp_step.
  eapply wp_mono; [by apply (wp_open_in_root fuel s lba n B i spc cl name k e)|]. intros r s1 [-> (fdr & fd & w & -> & Hw1 & Rr & F)].
  set (s0 := with_data Root fdr w s). assert (chained i s0 spc cl) as Hc0 by by apply chained_root. pose proof (ch_open _ _ _ _ Hc0) as Ho.
  assert (file_at i s0 spc cl (d_size e) 0 fd) as F0 by exact (proj2 (file_at_root i s spc cl fdr w _ _ fd) F). pose proof F0 as [_ _ Fs _ _ _ _].
  wp_step. apply (wp_file_data _ _ Ho). rewrite Fs. wp_step. eapply wp_mono; [apply (wp_fat_read i s0 spc cl Hc0 (d_size e) 0 (d_size e)); [done|lia|done|lia]|].
  intros b s1 (fd1 & w1 & -> & Hw2 & -> & F1). rewrite Z.sub_0_r, Z.min_id in *. wp_step. eapply (wp_close_file s0); [done|lia|done|].
  wp_step. apply (wp_file_data _ _ Ho). cbn [with_opened public]. pose proof F1 as [_ _ Fs1 _ _ Fb1 _]. rewrite Fs1.
  change (chain_content s0 spc cl) with (chain_content s spc cl). pose proof (ch_pos _ _ _ _ Hc).
  assert (blen (slice 0 (d_size e) (chain_content s spc cl)) = d_size e) as El.
  { unfold blen. apply slice_length; [lia|lia|]. pose proof (chain_content_len s spc cl ltac:(lia)) as E. unfold blen in E. lia. }
  rewrite El, Z.eqb_refl. cbn [negb]. cbn iota. apply wp_ret. split; [done|]. split; [done|]. split; [done|]. split; [|done].
  destruct Hh as [Hr H10 Hu Hfr]. split; cbn; [done|by rewrite length_insert| |].
  - intros j Hj. destruct (Hu j Hj) as (fdj & Ej & Oj). exists fdj. by rewrite list_lookup_insert_ne by lia.
  - eexists. split; [apply list_lookup_insert_eq; lia|done].
Qed.
End whole.

(* ------------------------------------------------------------------ *)
(** ** Theorems *)

(** A disk read delivers the sectors, whichever way they are addressed.
    With a BIOS that fails at most twice in a row, [disk_read_sectors] returns
    true with the contents of the sectors [lba .. lba + n), through the address
    packet as well as through cylinder, head and sector, for every buffer below
    1 MB. *)
Theorem disk_read_delivers {W : Type} `{BiosOk W p} w lba n dest old :
  bios_state w → 0 <= lba → 0 < n <= 127 → lba + n <= disk_size → 0 <= dest < 1048576 → blen old = 512 * n →
  (lba_support p = false → geometry_ok p disk_size) →
  wp (disk_read_sectors p lba n dest old) w (λ r w', r = (true, sector_range disk_sector lba n) ∧ bios_state w').
Proof. apply wp_disk_read. Qed.

(** A file of the root directory is read completely. When the directory is
    as [fat_initialize] leaves it and its first entry with the padded name of
    [name] is a file whose size fits the chain of clusters that the table links
    from its first one, [fat_read_file] returns the size and the first bytes of
    the sectors of the chain, and the handle is free again. *)
Theorem fat_read_file_contents {W : Type} `{Sectors W part} fuel (s : Fat W) lba n i spc cl name k e :
  g_disk s = Some part → reader (world s) → 0 < n < 65536 → 0 <= lba ∧ lba + n / 16 < part_sectors → n < Z.of_nat fuel →
  root_at lba n (sector lba) 0 (root_directory s) → next_handle s i → file_entry s i spc cl e → d_size e < 2147483648 →
  47 ∉ name → name ≠ [] → (length name < 256)%nat → first_named name (root_entries lba n (sector lba)) = Some (k, e) →
  wp (fat_read_file fuel (47 :: name)) s (λ r s',
    r = (d_size e, slice 0 (d_size e) (chain_content s spc cl)) ∧ reader (world s') ∧ next_handle s' i).
Proof.
  intros Hg Hw Hn Hlba Hf R Hh Hfe Hsz Hns Hne Hl Hfind. pose proof (fe_size _ _ _ _ _ Hfe) as [Hs0 _].
  eapply wp_mono; [apply (wp_read_in_root fuel s lba n (sector lba) i spc cl name k e); try done; apply sector_len|].
  intros r s' (-> & Hw' & _ & Hh' & _). by rewrite s32_small by lia.
Qed.

Definition sector_entries (b : buf) : list fat_dirent := omap (λ j, decode_dirent (slice (32 * j) 32 b)) (seqZ 0 16).

Lemma entry_in_sector {W : Type} `{Sectors W part} lba n B j e (P : fat_dirent → Prop) :
  0 <= j < n → Forall (λ k, Forall P (sector_entries (sector (lba + k)))) (seqZ 1 (n / 16)) →
  (∃ k, 1 <= k <= n / 16 ∧ B = sector (lba + k)) → decode_dirent (entry_bytes lba B j) = Some e → P e.
Proof.
  intros Hj HF (k & Hk & ->) He. assert (0 <= j / 16) as H16 by (apply Z.div_pos; lia). assert (j / 16 <= n / 16) by (apply Z.div_le_mono; lia).
  set (k' := if j / 16 =? 0 then k else j / 16). assert (1 <= k' <= n / 16) as Hk' by (subst k'; destruct (Z.eqb_spec (j / 16) 0); lia).
  assert (entry_bytes lba (sector (lba + k)) j = slice (32 * (j mod 16)) 32 (sector (lba + k'))) as E.
  { unfold entry_bytes, root_sector. subst k'. by destruct (j / 16 =? 0). }
  rewrite E in He. rewrite Forall_forall in HF. specialize (HF k'). rewrite Forall_forall in HF. apply HF; [apply elem_of_seqZ; lia|].
  unfold sector_entries. apply list_elem_of_omap. exists (j mod 16). split; [|done]. apply elem_of_seqZ. pose proof (Z.mod_pos_bound j 16 ltac:(lia)). lia.
Qed.

(** A second lookup in the root directory can miss a file. Closing the
    directory sets its position back but leaves the last sector in the buffer:
    after a lookup that went through sixteen entries or more, a file whose
    entry is in the first sector of the directory, and in no other, is not
    found. *)
Theorem fat_second_lookup_misses {W : Type} `{Sectors W part} fuel (s : Fat W) lba n name1 name2 :
  reader (world s) → 0 < n < 65536 → 0 <= lba ∧ lba + n / 16 < part_sectors → n < Z.of_nat fuel → (length (opened_files s) <= 10)%nat →
  root_at lba n (sector lba) 0 (root_directory s) → 16 <= seen lba n name1 (sector lba) →
  Forall (λ k, Forall (λ e, d_name e ≠ fat_name name2) (sector_entries (sector (lba + k)))) (seqZ 1 (n / 16)) →
  wp (fat_find_file fuel part Root name1 ;; fat_close Root ;; fat_find_file fuel part Root name2) s (λ r _, r = None).
Proof.
  intros Hw Hn Hlba Hf H10 R Hseen HF. assert (data_of Root s = Some (root_directory s)) as Er by done.
  rewrite <- (with_data_id Root (root_directory s) s Er) at 1. set (B := sector lba) in *.
  wp_step. eapply wp_mono; [apply (wp_root_find s lba n Hn Hlba H10 fuel name1 B 0); [done|apply sector_len|done|lia|lia]|]. intros r s' (fd' & w' & -> & Hw' & _ & R').
  assert (entries_from lba n B 0 = root_entries lba n B) as E by (unfold entries_from, root_entries; by rewrite Z.sub_0_r). rewrite E in R'.
  replace (match first_named name1 (root_entries lba n B) with Some (k, _) => 0 + Z.of_nat k + 1 | None => n end) with (seen lba n name1 B) in R'
    by (unfold seen; by destruct (first_named name1 (root_entries lba n B)) as [[k e]|]).
  wp_step. eapply (wp_root_close s lba n H10 B); [exact R'|]. intros fdr Rr. pose proof (seen_range s lba n Hn H10 name1 B (sector_len _)) as Hsr.
  assert (1 <= seen lba n name1 B / 16) as Hk1 by (apply Z.div_le_lower_bound; lia). assert (seen lba n name1 B / 16 <= n / 16) as Hk2 by (apply Z.div_le_mono; lia).
  set (k := seen lba n name1 B / 16) in *. assert (root_sector lba B k = sector (lba + k)) as EB by (unfold root_sector; by rewrite (proj2 (Z.eqb_neq k 0)) by lia). rewrite EB in Rr.
  eapply wp_mono; [apply (wp_root_find s lba n Hn Hlba H10 fuel name2 (sector (lba + k)) 0); [done|apply sector_len|done|lia|lia]|]. intros r' s' (fd2 & w2 & _ & _ & -> & _).
  unfold first_named. destruct (list_find _ _) as [[j e]|] eqn:El; [|done]. exfalso. apply list_find_Some in El as (Ej & Hname & _).
  apply list_elem_of_lookup_2 in Ej. unfold entries_from in Ej. apply list_elem_of_omap in Ej as (x & Hx & He). apply elem_of_seqZ in Hx.
  by apply (entry_in_sector lba n (sector (lba + k)) x e (λ e, d_name e ≠ fat_name name2)); [lia|done|exists k; split; [lia|done]|..].
Qed.

(* ------------------------------------------------------------------ *)
(** ** An instance

    A drive of 64 sectors with a FAT12 volume: one sector per cluster, the
    table in sector 1, a root directory of 32 entries in sectors 2 and 3, and a
    file [A.TXT] of 600 bytes in the clusters 2 and 3, the sectors 4 and 5.
    Entry 20 is [B]. The drive fails twice before every read that succeeds. *)

Definition put (at_ : nat) (b l : buf) : buf := take at_ l ++ b ++ drop (at_ + length b) l.
Definition zeros : buf := replicate 512 0.
Definition entry_of (name : buf) (cluster size : Z) : buf := name ++ [32; 0; 0] ++ replicate 12 0 ++ le_of 2 cluster ++ le_of 4 size.
Definition name_a : buf := [65; 32; 32; 32; 32; 32; 32; 32; 84; 88; 84].
Definition name_b : buf := [66; 32; 32; 32; 32; 32; 32; 32; 32; 32; 32].
Definition demo_sector (i : Z) : buf :=
  if i =? 0 then put 11 ([0; 2; 1; 1; 0; 1; 32; 0; 0; 0; 0; 1; 0]) zeros
  else if i =? 1 then put 3 [3; 240; 255] zeros
  else if i =? 2 then put 0 (entry_of name_a 2 600) zeros
  else if i =? 3 then put 128 (entry_of name_b 2 600) zeros
  else if i =? 4 then replicate 512 7
  else if i =? 5 then replicate 512 8
  else zeros.

Definition demo_params : disk_params_t := DiskParams 1 128 2 8 4 true.
Definition demo_part : partition_t := Partition demo_params 0 64.

Definition demo_read (lba n : Z) (old : buf) (w : nat) : (bool * buf) * nat :=
  match w with O => ((true, sector_range demo_sector lba n), 2%nat) | S w => ((false, old), w) end.
#[local] Instance demo_bios : Bios nat := {|
  bios_read_lba drive dap := demo_read (start_lba_low dap) (sector_count dap);
  bios_read_chs drive c h s := demo_read ((c * 4 + h) * 8 + (s - 1));
  bios_check_lba_support drive w := (true, w);
  bios_get_drive_params drive w := (Some (0, 1, 2, 4, 8), w);
  bios_disk_reset drive w := (true, w)
|}.

Lemma demo_sector_len i : blen (demo_sector i) = 512.
Proof. unfold demo_sector. repeat (case_match; [reflexivity|]). reflexivity. Qed.

Lemma demo_sector_bytes i : bytes_ok (demo_sector i).
Proof. unfold demo_sector. repeat (case_match; [by apply bytes_ok_check|]). by apply bytes_ok_check. Qed.

Lemma demo_read_ok w lba n old :
  (w <= 2)%nat → 0 <= n → blen old = 512 * n →
  let '((ok, b), w') := demo_read lba n old w in
  (w' <= 2)%nat ∧ blen b = 512 * n ∧ if (ok : bool) then b = sector_range demo_sector lba n else (w' < w)%nat.
Proof.
  intros Hw Hn Ho. destruct w as [|w]; cbn [demo_read]; [|split_and!; [lia|done|lia]].
  split_and!; [lia|apply blen_sector_range; [apply demo_sector_len|done]|done].
Qed.

#[local, refine] Instance demo_bios_ok : BiosOk nat demo_params := {|
  disk_sector := demo_sector; disk_size := 64; bios_state w := (w <= 2)%nat; bios_errors w := w
|}.
Proof.
  - done.
  - intros w seg off lba n old Hw _ Hn _ Ho _. apply demo_read_ok; [done|lia|done].
  - intros w c h s n old Hw _ _ _ Hn _ Ho. apply demo_read_ok; [done|lia|done].
  - intros w Hw. cbn. split; [done|lia].
Defined.

Lemma disk_read_delivers_witness :
  wp (disk_read_sectors demo_params 4 2 131072 (zeros ++ zeros)) 2%nat (λ r w', r = (true, sector_range demo_sector 4 2) ∧ (w' <= 2)%nat).
Proof. refine (disk_read_delivers (p := demo_params) 2%nat 4 2 131072 (zeros ++ zeros) _ _ _ _ _ _ _); [cbn; lia|lia|lia|cbn; lia|lia|vm_compute; reflexivity|intros Hx; discriminate Hx]. Defined.

#[local] Instance demo_sectors : Sectors nat demo_part.
Proof. refine (partition_of_drive (p := demo_params) 0 64 demo_sector_len demo_sector_bytes _ _ _ _ _); cbn; try lia; discriminate. Defined.

Definition blank : fat_fileData := FileData zeros (FatFile 0 false 0 0) true 0 0 0.
Definition demo_fat : Fat nat :=
  default (MkFat [] blank [] [] 0 None 0%nat) (snd <$> fat_initialize demo_part (MkFat zeros blank (replicate 10 blank) zeros 0 None 0%nat)).
Definition demo_entry : fat_dirent := Dirent name_a 32 0 2 600.

Lemma demo_root : root_at 2 32 (sector 2) 0 (root_directory demo_fat).
Proof. split; vm_compute; reflexivity. Qed.

Lemma demo_handle : next_handle demo_fat 0.
Proof.
  split; [lia|vm_compute; reflexivity|lia|]. exists (with_opened false blank). split_and!; vm_compute; reflexivity.
Qed.

Lemma demo_fat_file : file_entry demo_fat 0 1 [2; 3] demo_entry.
Proof.
  split; [|reflexivity|reflexivity|vm_compute; intuition discriminate]. split; [vm_compute; reflexivity|lia|vm_compute; lia|vm_compute; by eexists|vm_compute; discriminate| |].
  - change (g_data_section_lba demo_fat) with 4. intros c Hc. change (part_sectors) with 64. rewrite !elem_of_cons, elem_of_nil in Hc. lia.
  - intros [|[|j]] c Hj; [injection Hj as <-; exists 3; by vm_compute|injection Hj as <-; exists 4095; by vm_compute|done].
Qed.

Lemma fat_read_file_contents_witness :
  wp (fat_read_file 33 (47 :: [97; 46; 116; 120; 116])) demo_fat (λ r s',
    r = (600, slice 0 600 (chain_content demo_fat 1 [2; 3])) ∧ reader (world s') ∧ next_handle s' 0).
Proof.
  apply (fat_read_file_contents 33 demo_fat 2 32 0 1 [2; 3] [97; 46; 116; 120; 116] 0 demo_entry).
  - vm_compute. reflexivity.
  - vm_compute. lia.
  - lia.
  - vm_compute. intuition discriminate.
  - lia.
  - exact demo_root.
  - exact demo_handle.
  - exact demo_fat_file.
  - reflexivity.
  - by apply (bool_decide_unpack (47 ∉ [97; 46; 116; 120; 116])).
  - discriminate.
  - cbn. lia.
  - vm_compute. reflexivity.
Defined.

Lemma fat_second_lookup_misses_witness :
  wp (fat_find_file 33 demo_part Root [97; 46; 116; 120; 116]) demo_fat (λ r _, r = Some demo_entry) ∧
  wp (fat_find_file 33 demo_part Root [98] ;; fat_close Root ;; fat_find_file 33 demo_part Root [97; 46; 116; 120; 116]) demo_fat (λ r _, r = None).
Proof.
  split; [vm_compute; reflexivity|]. apply (fat_second_lookup_misses 33 demo_fat 2 32).
  - vm_compute. lia.
  - lia.
  - vm_compute. intuition discriminate.
  - lia.
  - vm_compute. lia.
  - exact demo_root.
  - vm_compute. discriminate.
  - apply (bool_decide_unpack _). vm_compute. exact I.
Defined.
