(* ===== verification/BootInfo.v ===== *)
(** * Boot information

    The block of tags by which the boot loader tells the kernel its command
    line, the boot modules and the memory map: [multiboot2_build] of
    [bootloader/stage2/src/multiboot2.c] writes it and
    [kernel/src/kernel_boot_info.c] reads it, with the structures of
    [common/boot/bootparams.h] laid over a byte memory. Both run in low memory
    that is mapped one to one, so the two sides share the addresses, and address
    zero is memory. [strlen] and [strcpy] of the boot loader are those of the
    kernel. *)

From S2P Require Import Prelude Buf Range Strings.

(* ------------------------------------------------------------------ *)
(** ** Words in memory *)

Fixpoint wr_list (p : Z) (l : list Z) : M mem unit :=
  match l with [] => ret tt | c :: l => wr p c ;; wr_list (p + 1) l end.
Fixpoint rd_list (n : nat) (p : Z) : M mem (list Z) :=
  match n with O => ret [] | S n => c ← rd p; l ← rd_list n (p + 1); ret (c :: l) end.
Definition wr32 (p v : Z) : M mem unit := wr_list p (le_of 4 v).
Definition wr64 (p v : Z) : M mem unit := wr_list p (le_of 8 v).
Definition rd32 (p : Z) : M mem Z := b ← rd_list 4 p; ret (le_val b).
Definition rd64 (p : Z) : M mem Z := b ← rd_list 8 p; ret (le_val b).

(* ------------------------------------------------------------------ *)
(** ** The boot loader's side *)

Definition MB2_TAG_END : Z := 0.
Definition MB2_TAG_CMDLINE : Z := 1.
Definition MB2_TAG_MODULE : Z := 3.
Definition MB2_TAG_MMAP : Z := 6.
Definition MAX_MEMORY_REGIONS : Z := 256.

Definition MB2_ALIGN (x : Z) : Z := Z.land (u32 (x + 7)) (not32 7).

(** [MemoryRegionInternal], as far as it is passed on. *)
Record MemoryRegionInternal := RegionInternal { base : Z; length_ : Z; type_ : Z }.

Definition build_module (tag start size path : Z) : M mem Z :=
  wr32 tag MB2_TAG_MODULE ;;
  wr32 (tag + 8) start ;;
  wr32 (tag + 12) (u32 (start + size)) ;;
  strcpy (tag + 16) path ;;
  n ← strlen path;
  wr32 (tag + 4) (u32 (16 + n + 1)) ;;
  s ← rd32 (tag + 4);
  ret (tag + MB2_ALIGN s).

(** The loop over the modules, whose arrays are read from the index [i] on. *)
Fixpoint build_modules (k : nat) (tag : Z) (starts sizes paths : list Z) : M mem Z :=
  match k with
  | O => ret tag
  | S k =>
      match starts, sizes, paths with
      | a :: starts, n :: sizes, p :: paths => tag ← build_module tag a n p; build_modules k tag starts sizes paths
      | _, _, _ => fault
      end
  end.

Fixpoint build_entries (p : Z) (regions : list MemoryRegionInternal) : M mem unit :=
  match regions with
  | [] => ret tt
  | r :: regions =>
      wr64 p (base r) ;;
      wr64 (p + 8) (length_ r) ;;
      wr32 (p + 16) (type_ r) ;;
      wr32 (p + 20) 0 ;;
      build_entries (p + 24) regions
  end.

Definition multiboot2_build (buffer cmdline module_count : Z) (modules_start modules_size modules_paths : list Z)
    (regions : list MemoryRegionInternal) : M mem unit :=
  let tag := buffer + 8 in
  wr32 tag MB2_TAG_CMDLINE ;;
  n ← strlen cmdline;
  wr32 (tag + 4) (u32 (8 + n + 1)) ;;
  strcpy (tag + 8) cmdline ;;
  s ← rd32 (tag + 4);
  tag ← build_modules (Z.to_nat module_count) (tag + MB2_ALIGN s) modules_start modules_size modules_paths;
  wr32 tag MB2_TAG_MMAP ;;
  wr32 (tag + 8) 24 ;;
  wr32 (tag + 12) 0 ;;
  build_entries (tag + 16) regions ;;
  let size := u32 (16 + 24 * Z.of_nat (length regions)) in
  wr32 (tag + 4) size ;;
  let tag := tag + MB2_ALIGN size in
  wr32 tag MB2_TAG_END ;;
  wr32 (tag + 4) 8 ;;
  wr32 buffer (tag + MB2_ALIGN 8 - buffer).

(* ------------------------------------------------------------------ *)
(** ** The kernel's side *)

Definition EARLYALLOC_SIZE : Z := 5120.
Definition sizeof_KernelBootInfo : Z := 28.
Definition sizeof_module_t : Z := 32.
Definition sizeof_memory_region_t : Z := 20.

(** Fields of [KernelBootInfo], of [module_t] and of [memory_region_t]. *)
Definition kbi_cmdline : Z := 0.
Definition kbi_modules : Z := 4.
Definition kbi_module_count : Z := 8.
Definition kbi_region_count : Z := 12.
Definition kbi_regions : Z := 16.
Definition kbi_initrd_start : Z := 20.
Definition kbi_initrd_size : Z := 24.
Definition mod_name : Z := 0.
Definition mod_data_start : Z := 16.
Definition mod_data_size : Z := 20.
Definition mod_next : Z := 28.

(** Memory and the static [idx] of [early_alloc]. *)
Record Early := MkEarly { emem : mem; idx : Z }.
Definition set_emem m e := MkEarly m (idx e).
Definition set_idx i e := MkEarly (emem e) i.
Definition on_mem {A} (m : M mem A) : M Early A := zoom emem set_emem m.

Section kernel.
(** The address of the static buffer. *)
Variable ebuf : Z.

Definition early_alloc (len : Z) : M Early Z :=
  i ← gets idx;
  if EARLYALLOC_SIZE <=? u32 (i + len) then ret 0
  else modify (set_idx (u32 (i + len))) ;; ret (ebuf + i).

Definition parse_cmdline (kbi tag : Z) : M Early unit :=
  let src := tag + 8 in
  n ← on_mem (strlen src);
  let len := u32 (n + 1) in
  p ← early_alloc len;
  on_mem (wr32 (kbi + kbi_cmdline) p) ;;
  on_mem (memcpy p src len) ;;
  ret tt.

Definition parse_module (kbi tag : Z) : M Early unit :=
  m ← early_alloc sizeof_module_t;
  on_mem (memset m 0 sizeof_module_t) ;;
  a ← on_mem (rd32 (tag + 8));
  on_mem (wr32 (m + mod_data_start) a) ;;
  b ← on_mem (rd32 (tag + 12));
  on_mem (wr32 (m + mod_data_size) (u32 (b - a))) ;;
  n ← on_mem (strlen (tag + 16));
  let len := u32 (n + 1) in
  name ← early_alloc len;
  on_mem (memcpy name (tag + 16) len) ;;
  on_mem (wr32 (m + mod_name) name) ;;
  head ← on_mem (rd32 (kbi + kbi_modules));
  on_mem (wr32 (m + mod_next) head) ;;
  on_mem (wr32 (kbi + kbi_modules) m) ;;
  c ← on_mem (rd32 (kbi + kbi_module_count));
  on_mem (wr32 (kbi + kbi_module_count) (u32 (c + 1))).

(** One entry of the memory map. *)
Definition parse_region (kbi entry : Z) : M mem unit :=
  rc ← rd32 (kbi + kbi_region_count);
  when (rc <? MAX_MEMORY_REGIONS)
    (rs ← rd32 (kbi + kbi_regions);
     wr32 (kbi + kbi_region_count) (u32 (rc + 1)) ;;
     let r := rs + sizeof_memory_region_t * rc in
     a ← rd64 entry;
     wr64 r a ;;
     n ← rd64 (entry + 8);
     wr64 (r + 8) n ;;
     t ← rd32 (entry + 16);
     wr32 (r + 16) t).

Definition parse_mmap (kbi tag : Z) : M mem unit :=
  s ← rd32 (tag + 4);
  while_n (S (Z.to_nat s)) (λ entry,
    size ← rd32 (tag + 4);
    if entry <? tag + size then
      parse_region kbi entry ;;
      es ← rd32 (tag + 8);
      ret (inl (entry + es))
    else ret (inr tt)) (tag + 16).

(** One turn of the loop over the tags. *)
Definition parse_tag (mbi kbi tag : Z) : M Early (Z + unit) :=
  total ← on_mem (rd32 mbi);
  if tag <? mbi + total then
    t ← on_mem (rd32 tag);
    if t =? MB2_TAG_END then ret (inr tt)
    else
      (if t =? MB2_TAG_CMDLINE then parse_cmdline kbi tag
       else if t =? MB2_TAG_MODULE then parse_module kbi tag
       else if t =? MB2_TAG_MMAP then on_mem (parse_mmap kbi tag)
       else ret tt) ;;
      s ← on_mem (rd32 (tag + 4));
      ret (inl (tag + align_up s 8))
  else ret (inr tt).

(** A tag of size zero would be read for ever; other tags are at least eight
    bytes apart, which bounds the turns. *)
Definition parse_multiboot2_early (mbi : Z) : M Early Z :=
  kbi ← early_alloc sizeof_KernelBootInfo;
  on_mem (wr32 (kbi + kbi_module_count) 0) ;;
  total ← on_mem (rd32 mbi);
  while_n (S (Z.to_nat (total / 8))) (parse_tag mbi kbi) (mbi + 8) ;;
  ret kbi.
End kernel.

(** The ranges the frame allocator is given as free memory. *)
Definition usable_step (rs : Z) (i : Z) (list_ : list range_t) : M mem (list range_t) :=
  t ← rd32 (rs + sizeof_memory_region_t * i + 16);
  if t =? 1 then
    a ← rd64 (rs + sizeof_memory_region_t * i);
    n ← rd64 (rs + sizeof_memory_region_t * i + 8);
    ret (range_list_push list_ (Range (u32 a) (u32 (u64 (a + n)))))
  else ret list_.
Fixpoint fold_n {St A} (n : nat) (i : Z) (step : Z → A → M St A) (a : A) : M St A :=
  match n with O => ret a | S n => a ← step i a; fold_n n (i + 1) step a end.
Definition get_useable_memory_ranges (kbi : Z) : M mem (list range_t) :=
  n ← rd32 (kbi + kbi_region_count);
  rs ← rd32 (kbi + kbi_regions);
  fold_n (Z.to_nat n) 0 (usable_step rs) [].

(** The ranges it must not hand out: the modules are taken as an array that
    starts at the head of their list. *)
Definition used_step (mods : Z) (i : Z) (list_ : list range_t) : M mem (list range_t) :=
  a ← rd32 (mods + sizeof_module_t * i + mod_data_start);
  n ← rd32 (mods + sizeof_module_t * i + mod_data_size);
  ret (range_list_push list_ (Range a (u32 (a + n)))).
Definition get_used_memory_ranges (kernel_phys_range : range_t) (kbi : Z) : M mem (list range_t) :=
  a ← rd32 (kbi + kbi_initrd_start);
  n ← rd32 (kbi + kbi_initrd_size);
  let l := if negb (a =? 0) && negb (n =? 0) then range_list_push [] (Range a (u32 (a + n))) else [] in
  c ← rd32 (kbi + kbi_module_count);
  mods ← rd32 (kbi + kbi_modules);
  l ← fold_n (Z.to_nat c) 0 (used_step mods) l;
  ret (range_list_push l kernel_phys_range).
