(* ===== verification/BootInfoSpec.v ===== *)
(** * The boot information arrives

    What the boot loader writes is what the kernel reads: the tags as byte
    lists, the block that [multiboot2_build] leaves, what
    [parse_multiboot2_early] makes of such a block, and both together. *)

From S2P Require Import Prelude Buf Range Strings BootInfo.

(* ------------------------------------------------------------------ *)
(** ** Words *)

Lemma wp_wr_list m p l (Q : unit → mem → Prop) :
  bytes_ok l → mapped m p (Z.of_nat (length l)) → Q tt (blit m p l) → wp (wr_list p l) m Q.
Proof.
  revert m p. induction l as [|c l IH]; intros m p Hl Hm HQ; [done|]. apply Forall_cons in Hl as [Hc Hl]. cbn [wr_list]. wp_step. apply wp_wr.
  { specialize (Hm 0). rewrite Z.add_0_r in Hm. apply Hm. cbn. lia. }
  rewrite u8_small by done. apply IH; [done| |done]. intros i Hi. destruct (decide (p = p + 1 + i)); [lia|]. rewrite lookup_insert_ne by done.
  replace (p + 1 + i) with (p + (1 + i)) by lia. apply Hm. cbn. lia.
Qed.

Lemma wp_rd_list m p l (Q : list Z → mem → Prop) : bytes_at m p l → Q l m → wp (rd_list (length l) p) m Q.
Proof.
  revert p Q. induction l as [|c l IH]; intros p Q Hb HQ; [done|]. destruct Hb as [Hc Hb]. cbn [length rd_list]. wp_step. apply wp_rd with c; [done|].
  wp_step. apply IH; [done|]. by apply wp_ret.
Qed.

Lemma wp_wr32 m p v (Q : unit → mem → Prop) : mapped m p 4 → Q tt (blit m p (le_of 4 v)) → wp (wr32 p v) m Q.
Proof. intros Hm HQ. apply wp_wr_list; [apply le_of_ok|by rewrite length_le_of|done]. Qed.
Lemma wp_wr64 m p v (Q : unit → mem → Prop) : mapped m p 8 → Q tt (blit m p (le_of 8 v)) → wp (wr64 p v) m Q.
Proof. intros Hm HQ. apply wp_wr_list; [apply le_of_ok|by rewrite length_le_of|done]. Qed.
Lemma wp_rd32 m p v (Q : Z → mem → Prop) : bytes_at m p (le_of 4 v) → is_u32 v → Q v m → wp (rd32 p) m Q.
Proof.
  intros Hb Hv HQ. unfold rd32. wp_step. rewrite <- (length_le_of 4 v) at 1. apply wp_rd_list; [done|]. apply wp_ret. by rewrite le_val_of.
Qed.
Lemma wp_rd64 m p v (Q : Z → mem → Prop) : bytes_at m p (le_of 8 v) → is_u64 v → Q v m → wp (rd64 p) m Q.
Proof.
  intros Hb Hv HQ. unfold rd64. wp_step. rewrite <- (length_le_of 8 v) at 1. apply wp_rd_list; [done|]. apply wp_ret. by rewrite le_val_of.
Qed.

(* ------------------------------------------------------------------ *)
(** ** Areas of memory *)

(** Nothing but [lo .. hi) has changed, and what was memory still is. *)
Record only (lo hi : Z) (m m' : mem) : Prop := {
  on_same a : a < lo ∨ hi <= a → m' !! a = m !! a;
  on_mapped a : is_Some (m !! a) → is_Some (m' !! a)
}.

Lemma only_refl lo hi m : only lo hi m m.
Proof. by split. Qed.
Lemma only_trans lo hi m1 m2 m3 : only lo hi m1 m2 → only lo hi m2 m3 → only lo hi m1 m3.
Proof. intros [H1 H2] [H3 H4]. split; [intros a Ha; by rewrite H3, H1|auto]. Qed.
Lemma only_weaken lo hi lo' hi' m m' : only lo hi m m' → lo' <= lo → hi <= hi' → only lo' hi' m m'.
Proof. intros [H1 H2] ? ?. split; [|done]. intros a Ha. apply H1. lia. Qed.

Lemma only_blit m p l : only p (p + Z.of_nat (length l)) m (blit m p l).
Proof.
  split; [intros a Ha; by apply blit_lookup_ne|]. revert m p. induction l as [|c l IH]; intros m p a Ha; [done|]. cbn [blit]. apply IH.
  destruct (decide (p = a)) as [->|]; [rewrite lookup_insert_eq; by eexists|by rewrite lookup_insert_ne].
Qed.

Lemma only_mapped lo hi m m' p n : only lo hi m m' → mapped m p n → mapped m' p n.
Proof. intros [_ H] Hm i Hi. by apply H, Hm. Qed.

Lemma only_bytes lo hi m m' p l : only lo hi m m' → p + Z.of_nat (length l) <= lo ∨ hi <= p → bytes_at m p l → bytes_at m' p l.
Proof.
  intros H. revert p. induction l as [|c l IH]; intros p Hp; [done|]. cbn in *. intros [H1 H2]. rewrite (on_same _ _ _ _ H) by lia. split; [done|]. apply IH; [lia|done].
Qed.

Lemma only_cstr lo hi m m' p l : only lo hi m m' → p + Z.of_nat (length l) + 1 <= lo ∨ hi <= p → cstr m p l → cstr m' p l.
Proof. intros H Hp. rewrite !cstr_bytes. intros [H1 H2]. split; [|done]. eapply only_bytes; [done| |done]. rewrite length_app. cbn. lia. Qed.

Lemma mapped_sub m p n q k : mapped m p n → p <= q → q + k <= p + n → mapped m q k.
Proof. intros H ? ? i Hi. replace (q + i) with (p + (q - p + i)) by lia. apply H. lia. Qed.

Lemma cstr_length_bytes m p l : cstr m p l → bytes_at m p (l ++ [0]).
Proof. by intros [H _]%cstr_bytes. Qed.

(** Copying a string with its end. *)
Lemma wp_memcpy m dst src l (Q : Z → mem → Prop) :
  bytes_at m src l → bytes_ok l → mapped m dst (Z.of_nat (length l)) →
  dst + Z.of_nat (length l) <= src ∨ src + Z.of_nat (length l) <= dst →
  Q dst (blit m dst l) → wp (memcpy dst src (Z.of_nat (length l))) m Q.
Proof.
  intros Hb Hu Hm Hd HQ. unfold memcpy. wp_step.
  eapply wp_mono; [apply (wp_for_range (λ i m', m' = blit m dst (take (Z.to_nat i) l)))|].
  - done.
  - intros j m' Hj ->. destruct (lookup_lt_is_Some_2 l (Z.to_nat j)) as [c Hc]; [lia|]. wp_step. apply wp_rd with c.
    { rewrite blit_lookup_ne by (rewrite length_take; lia). pose proof (bytes_at_lookup _ _ _ _ _ Hb Hc) as E. by rewrite Z2Nat.id in E by lia. }
    apply wp_wr; [apply mapped_blit with (n := Z.of_nat (length l)); [done|lia]|].
    replace (Z.to_nat (j + 1)) with (S (Z.to_nat j)) by lia. rewrite (take_S_r l _ c) by done. rewrite blit_snoc. apply lookup_lt_Some in Hc as Hlt.
    rewrite length_take, Nat.min_l, Z2Nat.id by lia. rewrite u8_small; [done|]. unfold bytes_ok in Hu. rewrite Forall_forall in Hu. apply Hu. by eapply list_elem_of_lookup_2.
  - intros [] m' ->. apply wp_ret. rewrite Z.max_r, Nat2Z.id, take_ge by lia. done.
Qed.

Lemma wp_memset0 m p n (Q : Z → mem → Prop) :
  0 <= n → mapped m p n → Q p (blit m p (replicate (Z.to_nat n) 0)) → wp (memset p 0 n) m Q.
Proof.
  intros Hn Hm HQ. unfold memset. wp_step.
  eapply wp_mono; [apply (wp_for_range (λ i m', m' = blit m p (replicate (Z.to_nat i) 0)))|].
  - done.
  - intros j m' Hj ->. apply wp_wr; [apply mapped_blit with (n := n); [done|lia]|]. change (u8 0) with 0.
    replace (Z.to_nat (j + 1)) with (Z.to_nat j + 1)%nat by lia. rewrite replicate_add. change (replicate 1 0) with [0]. rewrite blit_snoc, length_replicate, Z2Nat.id by lia. done.
  - intros [] m' ->. apply wp_ret. rewrite Z.max_r by lia. done.
Qed.

(* ------------------------------------------------------------------ *)
(** ** Tags *)

Inductive tag :=
  | TCmd (c : list Z)
  | TMod (start end_ : Z) (path : list Z)
  | TMap (rs : list MemoryRegionInternal)
  | TEnd.

Definition entry_bytes (r : MemoryRegionInternal) : list Z := le_of 8 (base r) ++ le_of 8 (length_ r) ++ le_of 4 (type_ r) ++ le_of 4 0.
Definition tag_type (t : tag) : Z :=
  match t with TCmd _ => MB2_TAG_CMDLINE | TMod _ _ _ => MB2_TAG_MODULE | TMap _ => MB2_TAG_MMAP | TEnd => MB2_TAG_END end.
Definition tag_body (t : tag) : list Z :=
  match t with
  | TCmd c => c ++ [0]
  | TMod a e p => le_of 4 a ++ le_of 4 e ++ p ++ [0]
  | TMap rs => le_of 4 24 ++ le_of 4 0 ++ concat (entry_bytes <$> rs)
  | TEnd => []
  end.
Definition tag_size (t : tag) : Z := 8 + Z.of_nat (length (tag_body t)).
Definition tag_bytes (t : tag) : list Z := le_of 4 (tag_type t) ++ le_of 4 (tag_size t) ++ tag_body t.

Definition align8 (n : Z) : Z := 8 * ((n + 7) / 8).
Definition tags_len (ts : list tag) : Z := foldr (λ t n, align8 (tag_size t) + n) 0 ts.
Fixpoint tags_at (m : mem) (p : Z) (ts : list tag) : Prop :=
  match ts with [] => True | t :: ts => bytes_at m p (tag_bytes t) ∧ tags_at m (p + align8 (tag_size t)) ts end.

Lemma align8_range n : n <= align8 n < n + 8.
Proof. unfold align8. pose proof (Z.div_mod (n + 7) 8 ltac:(lia)). pose proof (Z.mod_pos_bound (n + 7) 8 ltac:(lia)). lia. Qed.

Lemma land_not7 x : 0 <= x < 4294967296 → Z.land x (not32 7) = 8 * (x / 8).
Proof.
  intros Hx. change (Z.land x (not32 7)) with (align_down x 8). rewrite align_down_mod; [|done|exists 3; split; [lia|done]]. pose proof (Z.div_mod x 8). lia.
Qed.

Lemma mb2_align n : 0 <= n < 4294967288 → MB2_ALIGN n = align8 n.
Proof. intros Hn. unfold MB2_ALIGN, align8. rewrite u32_small by (unfold is_u32; lia). apply land_not7. lia. Qed.
Lemma align_up_8 n : 0 <= n < 4294967288 → align_up n 8 = align8 n.
Proof. intros Hn. unfold align_up, align_down. replace (n + 8 - 1) with (n + 7) by lia. rewrite u32_small by (unfold is_u32; lia). apply land_not7. lia. Qed.

(** Reads and writes of one area after another: a part of the memory is what
    was written there last. *)
Lemma blit_keeps m q r p l :
  bytes_at m p l → q + Z.of_nat (length r) <= p ∨ p + Z.of_nat (length l) <= q → bytes_at (blit m q r) p l.
Proof. intros. by apply bytes_at_blit. Qed.

Ltac lens := rewrite ?length_app, ?length_le_of, ?length_replicate in *; cbn [length] in *; try lia.
Ltac kept := repeat first [apply blit_bytes | apply bytes_at_blit; [solve [lens]|]].
Ltac only_step := eapply only_trans; [|eapply only_weaken; [apply only_blit|lens|lens]].
Ltac room := repeat apply mapped_blit; match goal with H : mapped _ _ _ |- _ => solve [eapply mapped_sub; [exact H|lens|lens]] end.

Lemma bytes_at_join m p q l1 l2 : bytes_at m p l1 → q = p + Z.of_nat (length l1) → bytes_at m q l2 → bytes_at m p (l1 ++ l2).
Proof. intros H1 -> H2. by apply bytes_at_app. Qed.

Lemma cstr_kept m q r p l : q + Z.of_nat (length r) <= p ∨ p + Z.of_nat (length l) + 1 <= q → cstr m p l → cstr (blit m q r) p l.
Proof. intros Hd. rewrite !cstr_bytes. intros [H1 H2]. split; [|done]. apply bytes_at_blit; [|done]. rewrite length_app. cbn. lia. Qed.
Ltac str_kept := repeat (apply cstr_kept; [lens|]); assumption.

Lemma wp_build_module m p a n path s (Q : Z → mem → Prop) :
  0 < p → is_u32 a → is_u32 (a + n) → 0 <> path → cstr m path s → Forall is_u8 s → Z.of_nat (length s) < 65536 →
  mapped m p (tag_size (TMod a (a + n) s)) →
  path + Z.of_nat (length s) + 1 <= p ∨ p + tag_size (TMod a (a + n) s) <= path →
  (∀ m', bytes_at m' p (tag_bytes (TMod a (a + n) s)) → only p (p + tag_size (TMod a (a + n) s)) m m' →
    Q (p + align8 (tag_size (TMod a (a + n) s))) m') →
  wp (build_module p a n path) m Q.
Proof.
  intros Hp Ha He Hpath Hs Hu Hl Hm Hd HQ. unfold tag_bytes, tag_size in *. cbn [tag_type tag_body] in *. rewrite !length_app, !length_le_of in *. cbn [length] in *.
  unfold build_module. rewrite (u32_small (a + n)) by done. wp_step. apply wp_wr32; [room|]. wp_step. apply wp_wr32; [room|]. wp_step. apply wp_wr32; [room|].
  wp_step. eapply wp_mono; [apply (strcpy_ok _ _ _ s); [str_kept|done|lia|lia|room|lia]|]. intros r m1 [-> ->].
  wp_step. eapply wp_mono; [apply (strlen_ok _ _ s); [apply cstr_kept; [lens|]; str_kept|lia]|]. intros k m1 [-> ->].
  rewrite u32_small by (unfold is_u32; lia). wp_step. apply wp_wr32; [room|]. wp_step. eapply wp_rd32; [apply blit_bytes|unfold is_u32; lia|]. apply wp_ret.
  replace (8 + Z.of_nat (4 + (4 + (length s + 1)))) with (16 + Z.of_nat (length s) + 1) in * by lia. rewrite mb2_align by lia. apply HQ.
  - apply (bytes_at_join _ _ (p + 4)); [kept|lens|]. apply (bytes_at_join _ _ (p + 8)); [kept|lens|].
    apply (bytes_at_join _ _ (p + 12)); [kept|lens|]. apply (bytes_at_join _ _ (p + 16)); [kept|lens|]. kept.
  - repeat only_step. apply only_refl.
Qed.

Lemma tag_bytes_length t : Z.of_nat (length (tag_bytes t)) = tag_size t.
Proof. unfold tag_bytes, tag_size. rewrite !length_app, !length_le_of. lia. Qed.
Lemma tag_size_pos t : 8 <= tag_size t.
Proof. unfold tag_size. lia. Qed.
Lemma tags_len_nonneg ts : 0 <= tags_len ts.
Proof. induction ts as [|t ts IH]; cbn; [lia|]. pose proof (align8_range (tag_size t)). pose proof (tag_size_pos t). unfold tags_len in IH. lia. Qed.

Lemma only_tags lo hi m m' p ts : only lo hi m m' → p + tags_len ts <= lo ∨ hi <= p → tags_at m p ts → tags_at m' p ts.
Proof.
  intros Ho. revert p. induction ts as [|t ts IH]; intros p Hp; [done|]. cbn [tags_at tags_len foldr] in *. fold (tags_len ts) in *. intros [H1 H2]. pose proof (align8_range (tag_size t)).
  pose proof (tag_size_pos t). pose proof (tags_len_nonneg ts). split; [eapply only_bytes; [done|rewrite tag_bytes_length; lia|done]|]. apply IH; [lia|done].
Qed.
Lemma tags_at_app m p ts1 ts2 : tags_at m p (ts1 ++ ts2) ↔ tags_at m p ts1 ∧ tags_at m (p + tags_len ts1) ts2.
Proof.
  revert p. induction ts1 as [|t ts1 IH]; intros p; [cbn; rewrite Z.add_0_r; tauto|]. cbn [app tags_at tags_len foldr]. rewrite IH. fold (tags_len ts1).
  replace (p + (align8 (tag_size t) + tags_len ts1)) with (p + align8 (tag_size t) + tags_len ts1) by lia. tauto.
Qed.
Lemma tags_len_app ts1 ts2 : tags_len (ts1 ++ ts2) = tags_len ts1 + tags_len ts2.
Proof. unfold tags_len. induction ts1 as [|t ts1 IH]; cbn; [lia|]. rewrite IH. lia. Qed.

(** A module as the boot loader has it: where it lies, and its path. *)
Record bmod := BMod { bm_start : Z; bm_size : Z; bm_ptr : Z; bm_path : list Z }.
Definition mod_tag (x : bmod) : tag := TMod (bm_start x) (bm_start x + bm_size x) (bm_path x).
(** A string outside of [lo .. hi). *)
Record text_at (m : mem) (lo hi ptr : Z) (s : list Z) : Prop := {
  tx_ptr : ptr ≠ 0;
  tx_str : cstr m ptr s;
  tx_u8 : Forall is_u8 s;
  tx_len : Z.of_nat (length s) < 65536;
  tx_out : ptr + Z.of_nat (length s) + 1 <= lo ∨ hi <= ptr
}.
Record bmod_ok (m : mem) (lo hi : Z) (x : bmod) : Prop := {
  bo_start : is_u32 (bm_start x);
  bo_end : is_u32 (bm_start x + bm_size x);
  bo_text : text_at m lo hi (bm_ptr x) (bm_path x)
}.

Lemma text_only m m' lo hi lo' hi' ptr s : only lo' hi' m m' → lo <= lo' → hi' <= hi → text_at m lo hi ptr s → text_at m' lo hi ptr s.
Proof. intros Ho ? ? [H1 H2 H3 H4 H5]. split; [done| |done..]. eapply only_cstr; [done|lia|done]. Qed.

Lemma wp_build_modules lo hi mods : ∀ m p,
  0 < p → lo <= p → p + tags_len (mod_tag <$> mods) <= hi → mapped m p (tags_len (mod_tag <$> mods)) → Forall (bmod_ok m lo hi) mods →
  wp (build_modules (length mods) p (bm_start <$> mods) (bm_size <$> mods) (bm_ptr <$> mods)) m (λ r m',
    r = p + tags_len (mod_tag <$> mods) ∧ tags_at m' p (mod_tag <$> mods) ∧ only p (p + tags_len (mod_tag <$> mods)) m m').
Proof.
  induction mods as [|x mods IH]; intros m p Hp Hlo Hhi Hm Hok.
  { apply wp_ret. cbn. split; [lia|]. split; [done|apply only_refl]. }
  apply Forall_cons in Hok as [[B1 B2 [T1 T2 T3 T4 T5]] Hok]. cbn [fmap list_fmap length build_modules] in *. cbn [tags_len foldr tags_at] in *. fold (tags_len (mod_tag <$> mods)) in *.
  pose proof (align8_range (tag_size (mod_tag x))) as A. pose proof (tag_size_pos (mod_tag x)) as P8. pose proof (tags_len_nonneg (mod_tag <$> mods)) as N0.
  set (L := tags_len (mod_tag <$> mods)) in *. set (z := tag_size (mod_tag x)) in *.
  wp_step. apply (wp_build_module m p (bm_start x) (bm_size x) (bm_ptr x) (bm_path x)); [done|done|done|lia|done|done|done| | |].
  { change (tag_size _) with z. eapply mapped_sub; [done|lia|lia]. }
  { change (tag_size _) with z. lia. }
  change (TMod (bm_start x) (bm_start x + bm_size x) (bm_path x)) with (mod_tag x). fold z. intros m1 H1 O1.
  eapply wp_mono; [apply IH; [lia|lia|lia| |]|].
  - eapply only_mapped; [exact O1|]. eapply mapped_sub; [done|lia|lia].
  - eapply Forall_impl; [exact Hok|]. intros y [Y1 Y2 Y3]. split; [done..|]. eapply text_only; [exact O1|lia|lia|done].
  - intros r m2 (-> & H2 & O2). split; [lia|]. split.
    + split; [eapply only_bytes; [exact O2|rewrite tag_bytes_length; fold z; lia|done]|done].
    + eapply only_trans; eapply only_weaken; [exact O1|lia|lia|exact O2|lia|lia].
Qed.

Lemma entry_bytes_length r : length (entry_bytes r) = 24%nat.
Proof. unfold entry_bytes. by rewrite !length_app, !length_le_of. Qed.
Lemma entries_length rs : length (concat (entry_bytes <$> rs)) = (24 * length rs)%nat.
Proof. induction rs as [|r rs IH]; [done|]. cbn [fmap list_fmap concat length]. rewrite length_app, entry_bytes_length, IH. lia. Qed.

Lemma wp_build_entries rs : ∀ m p,
  mapped m p (24 * Z.of_nat (length rs)) →
  wp (build_entries p rs) m (λ _ m', bytes_at m' p (concat (entry_bytes <$> rs)) ∧ only p (p + 24 * Z.of_nat (length rs)) m m').
Proof.
  induction rs as [|r rs IH]; intros m p Hm. { apply wp_ret. split; [done|apply only_refl]. }
  cbn [length] in Hm. cbn [build_entries fmap list_fmap concat length]. wp_step. apply wp_wr64; [room|]. wp_step. apply wp_wr64; [room|]. wp_step. apply wp_wr32; [room|]. wp_step. apply wp_wr32; [room|].
  set (m1 := blit _ (p + 20) _). assert (only p (p + 24) m m1) as O1 by (repeat only_step; apply only_refl).
  assert (bytes_at m1 p (entry_bytes r)) as B1.
  { unfold entry_bytes. apply (bytes_at_join _ _ (p + 8)); [kept|lens|]. apply (bytes_at_join _ _ (p + 16)); [kept|lens|]. apply (bytes_at_join _ _ (p + 20)); [kept|lens|]. kept. }
  eapply wp_mono; [apply IH; eapply only_mapped; [exact O1|eapply mapped_sub; [done|lia|lia]]|]. intros [] m2 [B2 O2]. split.
  - apply (bytes_at_join _ _ (p + 24)); [|rewrite entry_bytes_length; lia|done]. eapply only_bytes; [exact O2|rewrite entry_bytes_length; lia|done].
  - eapply only_trans; eapply only_weaken; [exact O1|lia|lia|exact O2|lia|lia].
Qed.

Definition all_tags (c : list Z) (mods : list bmod) (rs : list MemoryRegionInternal) : list tag := TCmd c :: (mod_tag <$> mods) ++ [TMap rs; TEnd].
Definition block_len (ts : list tag) : Z := 8 + tags_len ts.

Lemma tmap_size rs : tag_size (TMap rs) = 16 + 24 * Z.of_nat (length rs).
Proof. unfold tag_size. cbn [tag_body]. rewrite !length_app, !length_le_of, entries_length. lia. Qed.
Lemma tcmd_size c : tag_size (TCmd c) = 9 + Z.of_nat (length c).
Proof. unfold tag_size. cbn [tag_body]. rewrite length_app. cbn. lia. Qed.
Lemma all_tags_len c mods rs :
  tags_len (all_tags c mods rs) = align8 (tag_size (TCmd c)) + (tags_len (mod_tag <$> mods) + (align8 (tag_size (TMap rs)) + 8)).
Proof. unfold all_tags. cbn [tags_len foldr]. fold (tags_len ((mod_tag <$> mods) ++ [TMap rs; TEnd])). rewrite tags_len_app. reflexivity. Qed.

(** The end of the block: the memory map, the last tag and the total. *)
Lemma wp_build_end m buf p rs (Q : unit → mem → Prop) :
  0 < buf → buf + 8 <= p → p - buf + align8 (tag_size (TMap rs)) + 8 < 4294967288 →
  mapped m buf (p - buf + align8 (tag_size (TMap rs)) + 8) →
  (∀ m', tags_at m' p [TMap rs; TEnd] → bytes_at m' buf (le_of 4 (p + align8 (tag_size (TMap rs)) + 8 - buf)) →
    (∀ a, buf + 4 <= a < p → m' !! a = m !! a) → only buf (p + align8 (tag_size (TMap rs)) + 8) m m' → Q tt m') →
  wp (wr32 p MB2_TAG_MMAP ;; wr32 (p + 8) 24 ;; wr32 (p + 12) 0 ;; build_entries (p + 16) rs ;;
      let size := u32 (16 + 24 * Z.of_nat (length rs)) in
      wr32 (p + 4) size ;;
      let tag := p + MB2_ALIGN size in
      wr32 tag MB2_TAG_END ;; wr32 (tag + 4) 8 ;; wr32 buf (tag + MB2_ALIGN 8 - buf)) m Q.
Proof.
  intros Hb Hp Hsm Hm HQ. rewrite tmap_size in *. pose proof (align8_range (16 + 24 * Z.of_nat (length rs))) as A. set (z := 16 + 24 * Z.of_nat (length rs)) in *.
  wp_step. apply wp_wr32; [room|]. wp_step. apply wp_wr32; [room|]. wp_step. apply wp_wr32; [room|]. set (m1 := blit _ (p + 12) _).
  assert (only p (p + 16) m m1) as O1 by (repeat only_step; apply only_refl).
  wp_step. eapply wp_mono; [apply wp_build_entries; eapply only_mapped; [exact O1|eapply mapped_sub; [exact Hm|lia|lia]]|]. intros [] m2 [B2 O2]. cbn zeta.
  rewrite (u32_small z) by (unfold is_u32; lia). rewrite mb2_align by lia. change (MB2_ALIGN 8) with 8.
  assert (only p (p + z) m m2) as O12 by (eapply only_trans; eapply only_weaken; [exact O1|lia|lia|exact O2|lia|lia]).
  assert (mapped m2 buf (p - buf + align8 z + 8)) as Hm2 by (eapply only_mapped; [exact O12|done]).
  wp_step. apply wp_wr32; [room|]. wp_step. apply wp_wr32; [room|]. wp_step. apply wp_wr32; [room|]. apply wp_wr32; [room|]. set (m3 := blit _ buf _).
  assert (bytes_at m2 p (le_of 4 MB2_TAG_MMAP)) as T1 by (eapply only_bytes; [exact O2|lens|unfold m1; kept]).
  assert (bytes_at m2 (p + 8) (le_of 4 24)) as T2 by (eapply only_bytes; [exact O2|lens|unfold m1; kept]).
  assert (bytes_at m2 (p + 12) (le_of 4 0)) as T3 by (eapply only_bytes; [exact O2|lens|unfold m1; kept]).
  pose proof (entries_length rs) as Lr. apply HQ.
  - cbn [tags_at]. rewrite tmap_size. fold z. split_and!; [|unfold m3; unfold tag_bytes; cbn [tag_type tag_body tag_size]; rewrite app_nil_r|done].
    + unfold tag_bytes. rewrite tmap_size. cbn [tag_type tag_body]. fold z. apply (bytes_at_join _ _ (p + 4)); [unfold m3; kept; done|lens|].
      apply (bytes_at_join _ _ (p + 8)); [unfold m3; kept|lens|]. apply (bytes_at_join _ _ (p + 12)); [unfold m3; kept; done|lens|].
      apply (bytes_at_join _ _ (p + 16)); [unfold m3; kept; done|lens|]. unfold m3. kept; done.
    + apply (bytes_at_join _ _ (p + align8 z + 4)); [kept|lens|]. kept.
  - unfold m3. kept.
  - intros a Ha. unfold m3. rewrite !blit_lookup_ne by lens. apply (on_same _ _ _ _ O12). lia.
  - eapply only_trans; [eapply only_weaken; [exact O12|lia|lia]|]. unfold m3. repeat only_step. apply only_refl.
Qed.

Lemma bytes_same m m' p l : (∀ a, p <= a < p + Z.of_nat (length l) → m' !! a = m !! a) → bytes_at m p l → bytes_at m' p l.
Proof.
  revert p. induction l as [|c l IH]; intros p Hs; [done|]. cbn [bytes_at length] in *. intros [H1 H2]. rewrite Hs by lia. split; [done|]. apply IH; [|done]. intros a Ha. apply Hs. lia.
Qed.
Lemma tags_same m m' p ts : (∀ a, p <= a < p + tags_len ts → m' !! a = m !! a) → tags_at m p ts → tags_at m' p ts.
Proof.
  revert p. induction ts as [|t ts IH]; intros p Hs; [done|]. cbn [tags_at tags_len foldr] in *. fold (tags_len ts) in *. intros [H1 H2].
  pose proof (align8_range (tag_size t)). pose proof (tag_size_pos t). pose proof (tags_len_nonneg ts).
  split; [eapply bytes_same; [|done]; rewrite tag_bytes_length; intros a Ha; apply Hs; lia|]. apply IH; [|done]. intros a Ha. apply Hs. lia.
Qed.

Lemma wp_multiboot2_build m buf cmd c mods rs :
  let n := block_len (all_tags c mods rs) in
  0 < buf → n < 4294967288 → mapped m buf n → text_at m buf (buf + n) cmd c → Forall (bmod_ok m buf (buf + n)) mods →
  wp (multiboot2_build buf cmd (Z.of_nat (length mods)) (bm_start <$> mods) (bm_size <$> mods) (bm_ptr <$> mods) rs) m (λ _ m',
    bytes_at m' buf (le_of 4 n) ∧ tags_at m' (buf + 8) (all_tags c mods rs) ∧ only buf (buf + n) m m').
Proof.
  intros n Hb Hn Hm [T1 T2 T3 T4 T5] Hmods. assert (n = 8 + tags_len (all_tags c mods rs)) as En by done. rewrite all_tags_len in En. clearbody n. pose proof (align8_range (tag_size (TCmd c))) as A1. pose proof (align8_range (tag_size (TMap rs))) as A2.
  pose proof (tags_len_nonneg (mod_tag <$> mods)) as N0. pose proof (tag_size_pos (TMap rs)). set (L := tags_len (mod_tag <$> mods)) in *. set (zm := tag_size (TMap rs)) in *. rewrite tcmd_size in *.
  set (zc := 9 + Z.of_nat (length c)) in *. unfold multiboot2_build. cbn zeta. replace (buf + 8 + 4) with (buf + 12) by lia. replace (buf + 8 + 8) with (buf + 16) by lia.
  wp_step. apply wp_wr32; [room|]. wp_step. eapply wp_mono; [apply (strlen_ok _ _ c); [str_kept|lia]|]. intros k m1 [-> ->].
  replace (8 + Z.of_nat (length c) + 1) with zc by lia. rewrite (u32_small zc) by (unfold is_u32; lia). wp_step. apply wp_wr32; [room|].
  wp_step. eapply wp_mono; [apply (strcpy_ok _ _ _ c); [str_kept|done|lia|lia|room|lia]|]. intros r m1 [-> ->]. set (m1 := blit _ (buf + 16) _).
  assert (only (buf + 8) (buf + 8 + zc) m m1) as O1 by (repeat only_step; apply only_refl).
  assert (bytes_at m1 (buf + 8) (tag_bytes (TCmd c))) as B1.
  { unfold tag_bytes. rewrite tcmd_size. fold zc. cbn [tag_type tag_body]. apply (bytes_at_join _ _ (buf + 12)); [unfold m1; kept|lens|]. apply (bytes_at_join _ _ (buf + 16)); [unfold m1; kept|lens|]. unfold m1. kept. }
  wp_step. eapply (wp_rd32 _ _ zc); [unfold m1; kept|unfold is_u32; lia|]. rewrite mb2_align by lia. rewrite Nat2Z.id. wp_step.
  eapply wp_mono; [apply (wp_build_modules buf (buf + n)); fold L; [lia|lia|lia| |]|].
  { eapply only_mapped; [exact O1|eapply mapped_sub; [exact Hm|lia|lia]]. }
  { eapply Forall_impl; [exact Hmods|]. intros y [Y1 Y2 Y3]. split; [done..|]. eapply text_only; [exact O1|lia|lia|done]. }
  fold L. intros p m2 (-> & B2 & O2). set (p := buf + 8 + align8 zc + L). assert (only (buf + 8) p m m2) as O12 by (eapply only_trans; eapply only_weaken; [exact O1|lia|lia|exact O2|lia|lia]).
  apply (wp_build_end m2 buf p rs); fold zm; [done|lia|lia| |].
  { eapply only_mapped; [exact O12|eapply mapped_sub; [exact Hm|lia|lia]]. }
  intros m3 B3 BT S3 O3. replace (p + align8 zm + 8 - buf) with n in BT by lia. split; [done|]. split.
  - unfold all_tags. cbn [tags_at]. rewrite tcmd_size. fold zc. split.
    + eapply bytes_same; [intros a Ha; apply S3; rewrite tag_bytes_length, tcmd_size in Ha; fold zc in Ha; lia|].
      eapply only_bytes; [exact O2|rewrite tag_bytes_length, tcmd_size; fold zc; lia|done].
    + apply tags_at_app. fold L. split; [|done]. eapply tags_same; [intros a Ha; fold L in Ha; apply S3; lia|done].
  - eapply only_trans; eapply only_weaken; [exact O12|lia|lia|exact O3|lia|lia].
Qed.

(* ------------------------------------------------------------------ *)
(** ** Structures of words *)

Definition words_bytes (vs : list Z) : list Z := concat (le_of 4 <$> vs).
Lemma words_length vs : length (words_bytes vs) = (4 * length vs)%nat.
Proof. unfold words_bytes. induction vs as [|v vs IH]; [done|]. cbn [fmap list_fmap concat length]. rewrite length_app, length_le_of, IH. lia. Qed.

Lemma words_get m p vs i v : bytes_at m p (words_bytes vs) → vs !! i = Some v → bytes_at m (p + 4 * Z.of_nat i) (le_of 4 v).
Proof.
  revert p i. unfold words_bytes. induction vs as [|x vs IH]; intros p [|i] Hb Hi; [done|done| |]; cbn [fmap list_fmap concat] in Hb; rewrite bytes_at_app, length_le_of in Hb; destruct Hb as [H1 H2].
  - injection Hi as ->. by rewrite Z.add_0_r.
  - replace (p + 4 * Z.of_nat (S i)) with (p + Z.of_nat 4 + 4 * Z.of_nat i) by lia. by apply IH.
Qed.
Lemma words_put m p vs i v : bytes_at m p (words_bytes vs) → (i < length vs)%nat → bytes_at (blit m (p + 4 * Z.of_nat i) (le_of 4 v)) p (words_bytes (<[i := v]> vs)).
Proof.
  revert p i. induction vs as [|x vs IH]; intros p i Hb Hi; [cbn in Hi; lia|]. unfold words_bytes in *. cbn [fmap list_fmap concat] in Hb. rewrite bytes_at_app, length_le_of in Hb. destruct Hb as [H1 H2].
  destruct i as [|i]; cbn [insert list_insert fmap list_fmap concat]; rewrite bytes_at_app, length_le_of.
  - rewrite Z.add_0_r. split; [apply blit_bytes|]. apply bytes_at_blit; [rewrite length_le_of; lia|done].
  - split; [apply bytes_at_blit; [rewrite !length_le_of; lia|done]|]. replace (p + 4 * Z.of_nat (S i)) with (p + Z.of_nat 4 + 4 * Z.of_nat i) by lia. apply IH; [done|cbn in Hi; lia].
Qed.

Definition region_bytes (r : MemoryRegionInternal) : list Z := le_of 8 (base r) ++ le_of 8 (length_ r) ++ le_of 4 (type_ r).
Lemma regions_length rs : length (concat (region_bytes <$> rs)) = (20 * length rs)%nat.
Proof. induction rs as [|r rs IH]; [done|]. cbn [fmap list_fmap concat length]. rewrite length_app, IH. unfold region_bytes. rewrite !length_app, !length_le_of. lia. Qed.

(** The list of modules from [p] on, inside of [lo .. hi); the name of a module
    lies behind it. *)
Fixpoint mods_at (m : mem) (lo hi p : Z) (l : list (Z * Z * list Z)) : Prop :=
  match l with
  | [] => p = 0
  | (a, n, s) :: l => ∃ pn nx, lo <= p ∧ p + 32 <= hi ∧ pn = p + 32 ∧ pn + Z.of_nat (length s) + 1 <= hi ∧ is_u32 nx ∧
      bytes_at m p (words_bytes [pn; 0; 0; 0; a; n; 0; nx]) ∧ cstr m pn s ∧ mods_at m lo hi nx l
  end.

Lemma mods_only lo' hi' m m' lo hi hi2 l p : only lo' hi' m m' → hi <= lo' ∨ hi' <= lo → hi <= hi2 → mods_at m lo hi p l → mods_at m' lo hi2 p l.
Proof.
  intros Ho Hd Hh. revert p. induction l as [|[[a n] s] l IH]; intros p; [done|]. intros (pn & nx & H1 & H2 & H3 & H4 & H5 & H6 & H7 & H8). exists pn, nx.
  split_and!; [lia..|done| | |by apply IH].
  - eapply only_bytes; [done| |done]. rewrite words_length. cbn. lia.
  - eapply only_cstr; [done|lia|done].
Qed.

(* ------------------------------------------------------------------ *)
(** ** Parsing *)

Section parse.
(** The early buffer, the block, and the memory at address zero where the
    regions go. *)
Variables (ebuf mbi total nr : Z).
Hypothesis Hebuf : 0 < ebuf ∧ ebuf + 5120 < 4294967296.
Hypothesis Hmbi : 0 < mbi ∧ mbi + total < 4294967296.
Hypothesis Hlow : 0 <= nr <= 256 ∧ 20 * nr <= ebuf ∧ 20 * nr <= mbi.
Hypothesis Hapart : ebuf + 5120 <= mbi ∨ mbi + total <= ebuf.

Definition cmd_at (m : mem) (lo hi pc : Z) (cmd : option (list Z)) : Prop :=
  match cmd with None => True | Some c => lo <= pc ∧ pc + Z.of_nat (length c) + 1 <= hi ∧ cstr m pc c end.

Record parsed (m0 m : mem) (i : Z) (cmd : option (list Z)) (mods : list (Z * Z * list Z)) (rs : list MemoryRegionInternal) (pc head cnt rc : Z) : Prop := {
  pa_idx : 28 <= i < 5120 ∧ Z.of_nat (length rs) <= nr;
  pa_fields : bytes_at m ebuf (words_bytes [pc; head; cnt; rc; 0; 0; 0]);
  pa_u32 : is_u32 pc ∧ is_u32 head ∧ is_u32 cnt ∧ is_u32 rc;
  pa_cmd : cmd_at m (ebuf + 28) (ebuf + i) pc cmd;
  pa_mods : mods_at m (ebuf + 28) (ebuf + i) head mods;
  pa_regions : bytes_at m 0 (concat (region_bytes <$> rs));
  pa_tags a : mbi <= a < mbi + total → m !! a = m0 !! a;
  pa_room : mapped m ebuf 5120;
  pa_low : mapped m 0 (20 * nr)
}.

Lemma wp_on_mem {A} (k : M mem A) m i (Q : A → Early → Prop) : wp k m (λ a m', Q a (MkEarly m' i)) → wp (on_mem k) (MkEarly m i) Q.
Proof. intros Hk. unfold on_mem. by apply wp_zoom. Qed.

Lemma wp_early_alloc m i len (Q : Z → Early → Prop) :
  0 <= i → 0 <= len → i + len < 5120 → Q (ebuf + i) (MkEarly m (i + len)) → wp (early_alloc ebuf len) (MkEarly m i) Q.
Proof.
  intros Hi Hl Hs HQ. unfold early_alloc. wp_step. wp_step. cbn [idx]. rewrite u32_small by (unfold is_u32; lia). unfold EARLYALLOC_SIZE.
  rewrite (proj2 (Z.leb_gt 5120 (i + len))) by lia. by repeat wp_step.
Qed.

Lemma parsed_tags m0 m i cmd mods rs pc head cnt rc p ts :
  parsed m0 m i cmd mods rs pc head cnt rc → mbi <= p → p + tags_len ts <= mbi + total → tags_at m0 p ts → tags_at m p ts.
Proof. intros K Hp Hl. apply tags_same. intros a Ha. apply (pa_tags _ _ _ _ _ _ _ _ _ _ K). lia. Qed.

(** A write to free memory of the early buffer. *)
Lemma parsed_write m0 m i cmd mods rs pc head cnt rc p l :
  parsed m0 m i cmd mods rs pc head cnt rc → ebuf + i <= p → p + Z.of_nat (length l) <= ebuf + 5120 →
  parsed m0 (blit m p l) i cmd mods rs pc head cnt rc.
Proof.
  intros [K1 K2 K3 K4 K5 K6 K7 K8 K9] Hp Hl. pose proof (only_blit m p l) as O. split.
  - lia.
  - eapply only_bytes; [exact O|rewrite words_length; cbn; lia|done].
  - done.
  - destruct cmd as [c|]; [|done]. cbn in *. destruct K4 as (? & ? & ?). split_and!; [lia|lia|]. eapply only_cstr; [exact O|lia|done].
  - eapply mods_only; [exact O| | |eassumption]; lia.
  - eapply only_bytes; [exact O|rewrite regions_length; lia|done].
  - intros a Ha. rewrite blit_lookup_ne by lia. by apply K7.
  - by apply mapped_blit.
  - by apply mapped_blit.
Qed.
Lemma parsed_raise m0 m i i' cmd mods rs pc head cnt rc :
  parsed m0 m i cmd mods rs pc head cnt rc → i <= i' < 5120 → parsed m0 m i' cmd mods rs pc head cnt rc.
Proof.
  intros [K1 K2 K3 K4 K5 K6 K7 K8 K9] Hi. split; [lia|done|done| | |done..].
  - destruct cmd as [c|]; [|done]. cbn in *. destruct K4 as (? & ? & ?). split_and!; [lia|lia|done].
  - eapply (mods_only 0 0 m m); [apply only_refl| | |eassumption]; lia.
Qed.

(** A write to one of the first words, the others staying as they are. *)
Lemma parsed_field m0 m i cmd cmd' mods mods' rs rs' pc pc' head head' cnt cnt' rc rc' k v :
  parsed m0 m i cmd mods rs pc head cnt rc → (k < 7)%nat →
  <[k := v]> [pc; head; cnt; rc; 0; 0; 0] = [pc'; head'; cnt'; rc'; 0; 0; 0] →
  is_u32 pc' ∧ is_u32 head' ∧ is_u32 cnt' ∧ is_u32 rc' → Z.of_nat (length rs') <= nr →
  (∀ m', only ebuf (ebuf + 28) m m' → cmd_at m' (ebuf + 28) (ebuf + i) pc' cmd') →
  (∀ m', only ebuf (ebuf + 28) m m' → mods_at m' (ebuf + 28) (ebuf + i) head' mods') →
  (∀ m', only ebuf (ebuf + 28) m m' → bytes_at m' 0 (concat (region_bytes <$> rs'))) →
  parsed m0 (blit m (ebuf + 4 * Z.of_nat k) (le_of 4 v)) i cmd' mods' rs' pc' head' cnt' rc'.
Proof.
  intros [K1 K2 K3 K4 K5 K6 K7 K8 K9] Hk E Hu Hn Hc Hm Hr. pose proof (only_blit m (ebuf + 4 * Z.of_nat k) (le_of 4 v)) as O. rewrite length_le_of in O.
  assert (only ebuf (ebuf + 28) m (blit m (ebuf + 4 * Z.of_nat k) (le_of 4 v))) as O' by (eapply only_weaken; [exact O|lia|lia]). split.
  - lia.
  - rewrite <- E. apply words_put; [done|cbn; lia].
  - done.
  - by apply Hc.
  - by apply Hm.
  - by apply Hr.
  - intros a Ha. rewrite blit_lookup_ne by (rewrite length_le_of; lia). by apply K7.
  - by apply mapped_blit.
  - by apply mapped_blit.
Qed.

Lemma parsed_cmd m0 m i pc head cnt rc cmd mods rs c :
  parsed m0 m i cmd mods rs pc head cnt rc → ebuf + 28 <= pc ∧ pc + Z.of_nat (length c) + 1 <= ebuf + i ∧ cstr m pc c → parsed m0 m i (Some c) mods rs pc head cnt rc.
Proof. intros [? ? ? ? ? ? ? ? ?] ?. by split. Qed.

Lemma tag_parts m p t : bytes_at m p (tag_bytes t) →
  bytes_at m p (le_of 4 (tag_type t)) ∧ bytes_at m (p + 4) (le_of 4 (tag_size t)) ∧ bytes_at m (p + 8) (tag_body t).
Proof.
  unfold tag_bytes. rewrite !bytes_at_app, !length_le_of. intros (H1 & H2 & H3). split; [done|]. split; [done|]. by replace (p + 8) with (p + Z.of_nat 4 + Z.of_nat 4) by lia.
Qed.

Lemma wp_parse_cmdline m0 m i cmd mods rs pc head cnt rc p c :
  parsed m0 m i cmd mods rs pc head cnt rc → mbi <= p → p + tag_size (TCmd c) <= mbi + total → bytes_at m p (tag_bytes (TCmd c)) →
  Forall (λ x, x ≠ 0) c → Forall is_u8 c → i + Z.of_nat (length c) + 1 < 5120 →
  wp (parse_cmdline ebuf ebuf p) (MkEarly m i) (λ _ e', ∃ m', e' = MkEarly m' (i + Z.of_nat (length c) + 1) ∧
    parsed m0 m' (i + Z.of_nat (length c) + 1) (Some c) mods rs (ebuf + i) head cnt rc).
Proof.
  intros K Hp Hl Hb Hnz Hu Hi. rewrite tcmd_size in Hl. apply tag_parts in Hb as (_ & _ & Hb). cbn [tag_body] in Hb. pose proof (pa_idx _ _ _ _ _ _ _ _ _ _ K) as [Hi0 Hr0].
  assert (cstr m (p + 8) c) as Hs by by apply cstr_bytes. unfold parse_cmdline. cbn zeta.
  wp_step. apply wp_on_mem. eapply wp_mono; [apply (strlen_ok _ _ c); [done|lia]|]. intros k m1 [-> ->]. rewrite u32_small by (unfold is_u32; lia).
  wp_step. apply wp_early_alloc; [lia|lia|lia|]. wp_step. apply wp_on_mem. unfold kbi_cmdline. apply wp_wr32; [eapply mapped_sub; [apply (pa_room _ _ _ _ _ _ _ _ _ _ K)|lia|lia]|].
  rewrite Z.add_0_r. set (m1 := blit m ebuf (le_of 4 (ebuf + i))). assert (only ebuf (ebuf + 4) m m1) as O1 by (eapply only_weaken; [apply only_blit|lens|lens]).
  wp_step. apply wp_on_mem. replace (Z.of_nat (length c) + 1) with (Z.of_nat (length (c ++ [0]))) by (rewrite length_app; cbn; lia).
  apply wp_memcpy.
  - eapply only_bytes; [exact O1|rewrite length_app; cbn; lia|done].
  - apply Forall_app. split; [done|]. by repeat constructor.
  - eapply only_mapped; [exact O1|]. eapply mapped_sub; [apply (pa_room _ _ _ _ _ _ _ _ _ _ K)|lia|rewrite length_app; cbn; lia].
  - rewrite length_app. cbn. lia.
  - apply wp_ret. eexists. split; [f_equal; rewrite length_app; cbn; lia|]. set (i' := i + Z.of_nat (length c) + 1).
    pose proof (parsed_field m0 m i cmd None mods mods rs rs pc (ebuf + i) head head cnt cnt rc rc 0%nat (ebuf + i) K ltac:(lia) eq_refl) as F. rewrite Z.add_0_r in F. fold m1 in F.
    assert (parsed m0 m1 i None mods rs (ebuf + i) head cnt rc) as K1.
    { apply F; [split; [unfold is_u32; lia|apply (pa_u32 _ _ _ _ _ _ _ _ _ _ K)]|done|done| |].
      - intros m' O. eapply mods_only; [exact O| | |apply (pa_mods _ _ _ _ _ _ _ _ _ _ K)]; lia.
      - intros m' O. eapply only_bytes; [exact O|rewrite regions_length; lia|apply (pa_regions _ _ _ _ _ _ _ _ _ _ K)]. }
    apply (parsed_cmd _ _ _ (ebuf + i) head cnt rc None). { apply parsed_raise with i; [|lia]. apply parsed_write; [exact K1|lia|rewrite length_app; cbn; lia]. }
    split_and!; [lia|lia|]. by apply blit_cstr.
Qed.

Notation K_room K := (pa_room _ _ _ _ _ _ _ _ _ _ K).

Lemma wp_parse_module m0 m i cmd mods rs pc head cnt rc p a e s :
  parsed m0 m i cmd mods rs pc head cnt rc → mbi <= p → p + tag_size (TMod a e s) <= mbi + total → bytes_at m p (tag_bytes (TMod a e s)) →
  is_u32 a → is_u32 e → Forall (λ x, x ≠ 0) s → Forall is_u8 s → i + 32 + Z.of_nat (length s) + 1 < 5120 → cnt + 1 < 4294967296 →
  wp (parse_module ebuf ebuf p) (MkEarly m i) (λ _ e', ∃ m', e' = MkEarly m' (i + 32 + Z.of_nat (length s) + 1) ∧
    parsed m0 m' (i + 32 + Z.of_nat (length s) + 1) cmd ((a, u32 (e - a), s) :: mods) rs pc (ebuf + i) (cnt + 1) rc).
Proof.
  intros K Hp Hl Hb Ha He Hnz Hu Hi Hcnt. unfold tag_size in Hl. cbn [tag_body] in Hl. rewrite !length_app, !length_le_of in Hl. cbn [length] in Hl.
  apply tag_parts in Hb as (_ & _ & Hb). cbn [tag_body] in Hb. rewrite !bytes_at_app, !length_le_of in Hb. destruct Hb as (Ba & Be & Bs & B0).
  replace (p + 8 + Z.of_nat 4) with (p + 12) in * by lia. replace (p + 12 + Z.of_nat 4) with (p + 16) in * by lia.
  pose proof (pa_idx _ _ _ _ _ _ _ _ _ _ K) as [Hi0 Hr0]. pose proof (pa_u32 _ _ _ _ _ _ _ _ _ _ K) as (Hpc & Hhd & Hct & Hrc). pose proof (K_room K) as Hm.
  assert (cstr m (p + 16) s) as Hs by (apply cstr_bytes; split; [by apply bytes_at_app|done]).
  pose (M := ebuf + i). pose (N := ebuf + i + 32). assert (M = ebuf + i) as EM by done. assert (N = M + 32) as EN by lia. clearbody M N.
  unfold parse_module, mod_data_start, mod_data_size, mod_name, mod_next, kbi_modules, kbi_module_count, sizeof_module_t.
  wp_step. apply wp_early_alloc; [lia|lia|lia|]. rewrite <- EM.
  wp_step. apply wp_on_mem, wp_memset0; [lia|room|]. wp_step. apply wp_on_mem. eapply (wp_rd32 _ _ a); [kept; done|done|].
  wp_step. apply wp_on_mem, wp_wr32; [room|]. wp_step. apply wp_on_mem. eapply (wp_rd32 _ _ e); [kept; done|done|].
  wp_step. apply wp_on_mem, wp_wr32; [room|].
  wp_step. apply wp_on_mem. eapply wp_mono; [apply (strlen_ok _ _ s); [str_kept|lia]|]. intros k m1 [-> ->]. cbn zeta. rewrite (u32_small (Z.of_nat (length s) + 1)) by (unfold is_u32; lia).
  wp_step. apply wp_early_alloc; [lia|lia|lia|]. replace (ebuf + (i + 32)) with N by lia.
  replace (Z.of_nat (length s) + 1) with (Z.of_nat (length (s ++ [0]))) by (rewrite length_app; cbn; lia).
  wp_step. apply wp_on_mem, wp_memcpy; [kept; by apply bytes_at_app|apply Forall_app; split; [done|by repeat constructor]|room|lens|].
  wp_step. apply wp_on_mem. rewrite Z.add_0_r. apply wp_wr32; [room|]. set (m1 := blit _ M (le_of 4 N)).
  set (u := u32 (e - a)). assert (is_u32 u) as Hu32 by apply u32_range.
  assert (parsed m0 m1 i cmd mods rs pc head cnt rc) as K1 by (unfold m1; repeat (apply parsed_write; [|lens|lens]); done).
  assert (bytes_at m1 M (words_bytes [N; 0; 0; 0; a; u; 0; 0])) as W1.
  { set (mz := blit m M (replicate (Z.to_nat 32) 0)). assert (bytes_at mz M (words_bytes [0; 0; 0; 0; 0; 0; 0; 0])) as W0 by apply (blit_bytes m M (replicate 32 0)).
    pose proof (words_put _ _ _ 4%nat a W0 ltac:(cbn; lia)) as W4. pose proof (words_put _ _ _ 5%nat u W4 ltac:(cbn; lia)) as W5. cbn [insert list_insert] in W5.
    assert (bytes_at (blit (blit (blit mz (M + 16) (le_of 4 a)) (M + 20) (le_of 4 u)) N (s ++ [0])) M (words_bytes [0; 0; 0; 0; a; u; 0; 0])) as W6.
    { apply bytes_at_blit; [rewrite words_length; cbn; lia|exact W5]. }
    pose proof (words_put _ _ _ 0%nat N W6 ltac:(cbn; lia)) as W7. rewrite Z.add_0_r in W7. exact W7. }
  assert (cstr m1 N s) as S1. { apply cstr_kept; [lens|]. by apply blit_cstr. }
  clearbody m1. pose proof (K_room K1) as Hm1. pose proof (words_get _ _ _ 1%nat head (pa_fields _ _ _ _ _ _ _ _ _ _ K1) eq_refl) as G1.
  wp_step. apply wp_on_mem. apply (wp_rd32 _ _ head); [exact G1|done|].
  wp_step. apply wp_on_mem. apply wp_wr32; [room|]. pose proof (words_put _ _ _ 7%nat head W1 ltac:(cbn; lia)) as W2. change (M + 4 * Z.of_nat 7) with (M + 28) in W2. cbn [insert list_insert] in W2.
  set (m2 := blit m1 (M + 28) (le_of 4 head)) in *. assert (parsed m0 m2 i cmd mods rs pc head cnt rc) as K2 by (apply parsed_write; [done|lia|lens]).
  assert (cstr m2 N s) as S2 by (apply cstr_kept; [lens|done]). clearbody m2. set (i' := i + 32 + Z.of_nat (length s) + 1).
  assert (parsed m0 m2 i' cmd mods rs pc head cnt rc) as K3 by (apply parsed_raise with i; [done|lia]). pose proof (K_room K3) as Hm3.
  wp_step. apply wp_on_mem, wp_wr32; [room|].
  assert (parsed m0 (blit m2 (ebuf + 4) (le_of 4 M)) i' cmd ((a, u, s) :: mods) rs pc M cnt rc) as K4.
  { apply (parsed_field m0 m2 i' cmd cmd mods ((a, u, s) :: mods) rs rs pc pc head M cnt cnt rc rc 1%nat M K3); [lia|done|split_and!; [done|unfold is_u32; lia|done|done]|done| | |].
    - intros m' O. pose proof (pa_cmd _ _ _ _ _ _ _ _ _ _ K3) as Hc. destruct cmd as [c|]; [|done]. destruct Hc as (? & ? & ?). split_and!; [lia|lia|]. eapply only_cstr; [exact O|lia|done].
    - intros m' O. exists N, head. split_and!; [lia|lia|lia|lia|done| | |].
      + eapply only_bytes; [exact O|rewrite words_length; cbn; lia|done].
      + eapply only_cstr; [exact O|lia|done].
      + eapply mods_only; [exact O| | |apply (pa_mods _ _ _ _ _ _ _ _ _ _ K3)]; lia.
    - intros m' O. eapply only_bytes; [exact O|rewrite regions_length; lia|apply (pa_regions _ _ _ _ _ _ _ _ _ _ K3)]. }
  set (m3 := blit m2 (ebuf + 4) (le_of 4 M)) in *. clearbody m3. pose proof (K_room K4) as Hm4. pose proof (words_get _ _ _ 2%nat cnt (pa_fields _ _ _ _ _ _ _ _ _ _ K4) eq_refl) as G2.
  wp_step. apply wp_on_mem. apply (wp_rd32 _ _ cnt); [exact G2|done|]. rewrite (u32_small (cnt + 1)) by (unfold is_u32 in *; lia).
  apply wp_on_mem, wp_wr32; [room|]. eexists. split; [f_equal; rewrite length_app; cbn; lia|].
  apply (parsed_field m0 m3 i' cmd cmd _ _ rs rs pc pc M M cnt (cnt + 1) rc rc 2%nat (cnt + 1) K4); [lia|done|split_and!; [done|unfold is_u32; lia|unfold is_u32 in *; lia|done]|done| | |].
  - intros m' O. pose proof (pa_cmd _ _ _ _ _ _ _ _ _ _ K4) as Hc. destruct cmd as [c|]; [|done]. destruct Hc as (? & ? & ?). split_and!; [lia|lia|]. eapply only_cstr; [exact O|lia|done].
  - intros m' O. eapply mods_only; [exact O| | |apply (pa_mods _ _ _ _ _ _ _ _ _ _ K4)]; lia.
  - intros m' O. eapply only_bytes; [exact O|rewrite regions_length; lia|apply (pa_regions _ _ _ _ _ _ _ _ _ _ K4)].
Qed.

(** A write behind the regions. *)
Lemma parsed_low m0 m i cmd mods rs pc head cnt rc p l :
  parsed m0 m i cmd mods rs pc head cnt rc → 20 * Z.of_nat (length rs) <= p → p + Z.of_nat (length l) <= 20 * nr →
  parsed m0 (blit m p l) i cmd mods rs pc head cnt rc.
Proof.
  intros [K1 K2 K3 K4 K5 K6 K7 K8 K9] Hp Hl. pose proof (only_blit m p l) as O. split.
  - lia.
  - eapply only_bytes; [exact O|rewrite words_length; cbn; lia|done].
  - done.
  - destruct cmd as [c|]; [|done]. cbn in *. destruct K4 as (? & ? & ?). split_and!; [lia|lia|]. eapply only_cstr; [exact O|lia|done].
  - eapply mods_only; [exact O| | |eassumption]; lia.
  - eapply only_bytes; [exact O|rewrite regions_length; lia|done].
  - intros a Ha. rewrite blit_lookup_ne by lia. by apply K7.
  - by apply mapped_blit.
  - by apply mapped_blit.
Qed.
Lemma parsed_region m0 m i cmd mods rs pc head cnt rc r :
  parsed m0 m i cmd mods rs pc head cnt rc → Z.of_nat (length rs) < nr → bytes_at m (20 * Z.of_nat (length rs)) (region_bytes r) →
  parsed m0 m i cmd mods (rs ++ [r]) pc head cnt rc.
Proof.
  intros [K1 K2 K3 K4 K5 K6 K7 K8 K9] Hn Hb. split; try done; [rewrite length_app; cbn; lia|].
  rewrite fmap_app, concat_app, bytes_at_app, regions_length. split; [done|]. cbn [fmap list_fmap concat]. rewrite app_nil_r. by replace (0 + Z.of_nat (20 * length rs)) with (20 * Z.of_nat (length rs)) by lia.
Qed.

Definition region_ok (r : MemoryRegionInternal) : Prop := is_u64 (base r) ∧ is_u64 (length_ r) ∧ is_u32 (type_ r).

Lemma wp_parse_region m0 m i cmd mods rs pc head cnt p r :
  parsed m0 m i cmd mods rs pc head cnt (Z.of_nat (length rs)) → mbi <= p → p + 24 <= mbi + total → bytes_at m p (entry_bytes r) →
  region_ok r → Z.of_nat (length rs) < nr →
  wp (parse_region ebuf p) m (λ _ m', parsed m0 m' i cmd mods (rs ++ [r]) pc head cnt (Z.of_nat (length rs) + 1)).
Proof.
  intros K Hp Hl Hb (Hr1 & Hr2 & Hr3) Hn. pose proof (pa_idx _ _ _ _ _ _ _ _ _ _ K) as [Hi0 Hr0]. pose proof (K_room K) as Hm. pose proof (pa_low _ _ _ _ _ _ _ _ _ _ K) as Hlm.
  pose proof (pa_u32 _ _ _ _ _ _ _ _ _ _ K) as (Hpc & Hhd & Hct & Hrc). set (n := Z.of_nat (length rs)) in *.
  unfold entry_bytes in Hb. rewrite !bytes_at_app, !length_le_of in Hb. destruct Hb as (B1 & B2 & B3 & _). change (Z.of_nat 8) with 8 in *. replace (p + 8 + 8) with (p + 16) in * by lia.
  unfold parse_region, kbi_region_count, kbi_regions, sizeof_memory_region_t, MAX_MEMORY_REGIONS. pose proof (pa_fields _ _ _ _ _ _ _ _ _ _ K) as F.
  wp_step. apply (wp_rd32 _ _ n); [exact (words_get _ _ _ 3%nat n F eq_refl)|done|]. rewrite (proj2 (Z.ltb_lt n 256)) by lia. cbn [when].
  wp_step. apply (wp_rd32 _ _ 0); [exact (words_get _ _ _ 4%nat 0 F eq_refl)|unfold is_u32; lia|]. rewrite (u32_small (n + 1)) by (unfold is_u32; lia). cbn zeta.
  wp_step. apply wp_wr32; [room|]. set (m1 := blit m (ebuf + 12) (le_of 4 (n + 1))).
  assert (parsed m0 m1 i cmd mods rs pc head cnt (n + 1)) as K1.
  { apply (parsed_field m0 m i cmd cmd mods mods rs rs pc pc head head cnt cnt n (n + 1) 3%nat (n + 1) K); [lia|done|split_and!; [done..|unfold is_u32; lia]|done| | |].
    - intros m' O. pose proof (pa_cmd _ _ _ _ _ _ _ _ _ _ K) as Hc. destruct cmd as [c|]; [|done]. destruct Hc as (? & ? & ?). split_and!; [lia|lia|]. eapply only_cstr; [exact O|lia|done].
    - intros m' O. eapply mods_only; [exact O| | |apply (pa_mods _ _ _ _ _ _ _ _ _ _ K)]; lia.
    - intros m' O. eapply only_bytes; [exact O|rewrite regions_length; lia|apply (pa_regions _ _ _ _ _ _ _ _ _ _ K)]. }
  assert (mapped m1 0 (20 * nr)) as Hlm1 by apply (pa_low _ _ _ _ _ _ _ _ _ _ K1).
  assert (only ebuf (ebuf + 28) m m1) as O1 by (eapply only_weaken; [apply only_blit|lens|lens]).
  assert (bytes_at m1 p (le_of 8 (base r))) as C1 by (eapply only_bytes; [exact O1|lens|done]). assert (bytes_at m1 (p + 8) (le_of 8 (length_ r))) as C2 by (eapply only_bytes; [exact O1|lens|done]).
  assert (bytes_at m1 (p + 16) (le_of 4 (type_ r))) as C3 by (eapply only_bytes; [exact O1|lens|done]). clearbody m1. set (q := 0 + 20 * n).
  wp_step. apply (wp_rd64 _ _ (base r)); [done|done|]. wp_step. apply wp_wr64; [room|]. wp_step. apply (wp_rd64 _ _ (length_ r)); [kept; done|done|]. wp_step. apply wp_wr64; [room|].
  wp_step. apply (wp_rd32 _ _ (type_ r)); [kept; done|done|]. apply wp_wr32; [room|]. apply parsed_region; [|done|].
  - repeat (apply parsed_low; [|subst q; lens|subst q; lens]). done.
  - replace (20 * Z.of_nat (length rs)) with q by (subst q; lia). unfold region_bytes. apply (bytes_at_join _ _ (q + 8)); [kept|lens|]. apply (bytes_at_join _ _ (q + 16)); [kept|lens|]. kept.
Qed.

Lemma wp_parse_mmap m0 m i cmd mods rs pc head cnt p rs0 :
  parsed m0 m i cmd mods rs pc head cnt (Z.of_nat (length rs)) → mbi <= p → p + tag_size (TMap rs0) <= mbi + total → bytes_at m0 p (tag_bytes (TMap rs0)) →
  Forall region_ok rs0 → Z.of_nat (length (rs ++ rs0)) <= nr →
  wp (parse_mmap ebuf p) m (λ _ m', parsed m0 m' i cmd mods (rs ++ rs0) pc head cnt (Z.of_nat (length (rs ++ rs0)))).
Proof.
  intros K Hp Hl Hb Hok Hn. rewrite length_app in Hn. rewrite tmap_size in Hl.
  assert (∀ m' rs' rc', parsed m0 m' i cmd mods rs' pc head cnt rc' → bytes_at m' p (tag_bytes (TMap rs0))) as Keep.
  { intros m' rs' rc' K'. eapply bytes_same; [|exact Hb]. rewrite tag_bytes_length, tmap_size. intros a Ha. apply (pa_tags _ _ _ _ _ _ _ _ _ _ K'). lia. }
  assert (∀ m', bytes_at m' p (tag_bytes (TMap rs0)) → bytes_at m' (p + 4) (le_of 4 (tag_size (TMap rs0))) ∧ bytes_at m' (p + 8) (le_of 4 24) ∧ bytes_at m' (p + 16) (concat (entry_bytes <$> rs0))) as Parts.
  { intros m' Hb'. apply tag_parts in Hb' as (_ & H2 & H3). split; [done|]. cbn [tag_body] in H3. rewrite !bytes_at_app, !length_le_of in H3. destruct H3 as (? & _ & ?). split; [done|].
    by replace (p + 16) with (p + 8 + Z.of_nat 4 + Z.of_nat 4) by lia. }
  rewrite tmap_size in Parts. set (z := 16 + 24 * Z.of_nat (length rs0)) in *. assert (is_u32 z) as Hz by (unfold is_u32; lia).
  unfold parse_mmap. destruct (Parts m (Keep _ _ _ K)) as (P4 & _ & _). wp_step. apply (wp_rd32 _ _ z); [done|done|].
  apply (wp_while_n (λ k entry m', ∃ rs1 rs2, rs0 = rs1 ++ rs2 ∧ k = length rs2 ∧ entry = p + 16 + 24 * Z.of_nat (length rs1) ∧
    parsed m0 m' i cmd mods (rs ++ rs1) pc head cnt (Z.of_nat (length (rs ++ rs1))))) with (length rs0).
  - exists [], rs0. rewrite app_nil_r. split_and!; [done|done|cbn; lia|done].
  - lia.
  - clear m K P4. intros k entry m (rs1 & rs2 & E0 & -> & -> & K). destruct (Parts m (Keep _ _ _ K)) as (P4 & P8 & P16). wp_step. apply (wp_rd32 _ _ z); [done|done|].
    assert (length rs0 = (length rs1 + length rs2)%nat) as Elen by by rewrite E0, length_app. destruct rs2 as [|r rs2].
    { rewrite (proj2 (Z.ltb_ge _ _)) by (cbn in Elen; lia). apply wp_ret. rewrite app_nil_r in E0. by subst rs1. }
    cbn [length] in Elen. rewrite (proj2 (Z.ltb_lt _ _)) by lia. rewrite E0 in P16. rewrite fmap_app, concat_app, bytes_at_app, entries_length in P16. destruct P16 as [_ P16]. cbn [fmap list_fmap concat] in P16. apply bytes_at_app in P16 as [Pr _].
    wp_step. eapply wp_mono; [apply (wp_parse_region m0 m i cmd mods (rs ++ rs1) pc head cnt _ r K); [lia|lia| | |rewrite length_app; lia]|].
    + by replace (p + 16 + 24 * Z.of_nat (length rs1)) with (p + 16 + Z.of_nat (24 * length rs1)) by lia.
    + rewrite E0 in Hok. apply Forall_app in Hok as [_ Hok]. by apply Forall_cons in Hok as [? _].
    + intros [] m' K'. destruct (Parts m' (Keep _ _ _ K')) as (_ & Q8 & _). wp_step. apply (wp_rd32 _ _ 24); [done|unfold is_u32; lia|]. apply wp_ret.
      exists (length rs2). split; [cbn; lia|]. exists (rs1 ++ [r]), rs2. rewrite E0, <- app_assoc. split_and!; [done|done|rewrite length_app; cbn; lia|].
      rewrite app_assoc. rewrite (length_app (rs ++ rs1)). cbn [length]. by replace (Z.of_nat (length (rs ++ rs1) + 1)) with (Z.of_nat (length (rs ++ rs1)) + 1) by lia.
Qed.

(** What a tag adds to what is known, what it takes of the early buffer, and
    when it is well formed. *)
Definition known : Type := option (list Z) * list (Z * Z * list Z) * list MemoryRegionInternal.
Definition absorb (k : known) (t : tag) : known :=
  let '(cmd, mods, rs) := k in
  match t with
  | TCmd c => (Some c, mods, rs)
  | TMod a e s => (cmd, (a, u32 (e - a), s) :: mods, rs)
  | TMap rs0 => (cmd, mods, rs ++ rs0)
  | TEnd => k
  end.
Definition tag_need (t : tag) : Z :=
  match t with TCmd c => Z.of_nat (length c) + 1 | TMod _ _ s => 32 + Z.of_nat (length s) + 1 | _ => 0 end.
Definition tags_need (ts : list tag) : Z := foldr (λ t n, tag_need t + n) 0 ts.
Definition text_ok (s : list Z) : Prop := Forall (λ x, x ≠ 0) s ∧ Forall is_u8 s.
Definition tag_ok (t : tag) : Prop :=
  match t with TCmd c => text_ok c | TMod a e s => is_u32 a ∧ is_u32 e ∧ text_ok s | TMap rs => Forall region_ok rs | TEnd => False end.

Definition parsed_as (m0 m : mem) (i : Z) (k : known) : Prop :=
  let '(cmd, mods, rs) := k in
  ∃ pc head, parsed m0 m i cmd mods rs pc head (Z.of_nat (length mods)) (Z.of_nat (length rs)) ∧ Z.of_nat (length mods) <= i.

Lemma need_nonneg ts : 0 <= tags_need ts.
Proof. induction ts as [|t ts IH]; cbn; [lia|]. unfold tags_need in IH. destruct t; cbn; lia. Qed.

(** One tag. *)
Lemma wp_absorb m0 m i k p t (Q : unit → Early → Prop) :
  parsed_as m0 m i k → bytes_at m0 p (tag_bytes t) → tag_ok t → mbi <= p → p + tag_size t <= mbi + total →
  i + tag_need t < 5120 → Z.of_nat (length (absorb k t).2) <= nr →
  (∀ m', parsed_as m0 m' (i + tag_need t) (absorb k t) → Q tt (MkEarly m' (i + tag_need t))) →
  wp (if tag_type t =? MB2_TAG_CMDLINE then parse_cmdline ebuf ebuf p
      else if tag_type t =? MB2_TAG_MODULE then parse_module ebuf ebuf p
      else if tag_type t =? MB2_TAG_MMAP then on_mem (parse_mmap ebuf p) else ret tt) (MkEarly m i) Q.
Proof.
  intros HK Hb0 Hok Hp Hl Hi Hn HQ. destruct k as [[cmd mods] rs]. destruct HK as (pc & head & K & Hmods).
  assert (bytes_at m p (tag_bytes t)) as Hb by (eapply bytes_same; [rewrite tag_bytes_length; intros a Ha; apply (pa_tags _ _ _ _ _ _ _ _ _ _ K); lia|done]).
  destruct t as [c|a e s|rs0|]; cbn [tag_type tag_need absorb snd] in *.
  - destruct Hok as [H1 H2]. change (MB2_TAG_CMDLINE =? MB2_TAG_CMDLINE) with true. cbn iota.
    eapply wp_mono; [apply (wp_parse_cmdline m0 m i cmd mods rs pc head _ _ p c K); try done; lia|]. intros [] e' (m' & -> & K').
    replace (i + Z.of_nat (length c) + 1) with (i + (Z.of_nat (length c) + 1)) in * by lia. apply HQ. eexists _, _. split; [exact K'|lia].
  - destruct Hok as (H1 & H2 & H3 & H4). change (MB2_TAG_MODULE =? MB2_TAG_CMDLINE) with false. change (MB2_TAG_MODULE =? MB2_TAG_MODULE) with true. cbn iota.
    pose proof (pa_idx _ _ _ _ _ _ _ _ _ _ K) as [Hi0 _]. eapply wp_mono; [apply (wp_parse_module m0 m i cmd mods rs pc head _ _ p a e s K); try done; lia|]. intros [] e' (m' & -> & K').
    replace (i + 32 + Z.of_nat (length s) + 1) with (i + (32 + Z.of_nat (length s) + 1)) in * by lia. apply HQ. eexists _, _.
    replace (Z.of_nat (length ((a, u32 (e - a), s) :: mods))) with (Z.of_nat (length mods) + 1) by (cbn; lia). split; [exact K'|lia].
  - change (MB2_TAG_MMAP =? MB2_TAG_CMDLINE) with false. change (MB2_TAG_MMAP =? MB2_TAG_MODULE) with false. change (MB2_TAG_MMAP =? MB2_TAG_MMAP) with true. cbn iota.
    apply wp_on_mem. eapply wp_mono; [by apply (wp_parse_mmap m0 m i cmd mods rs pc head _ p rs0 K)|]. intros [] m' K'. rewrite Z.add_0_r in *. apply HQ. eexists _, _. split; [exact K'|lia].
  - done.
Qed.

Lemma absorb_grows ts k : Z.of_nat (length k.2) <= Z.of_nat (length (foldl absorb k ts).2).
Proof.
  revert k. induction ts as [|t ts IH]; intros k; [done|]. cbn [foldl]. etrans; [|apply IH]. destruct k as [[cmd mods] rs], t; cbn; rewrite ?length_app; lia.
Qed.

Lemma type_not_end t : tag_ok t → (tag_type t =? MB2_TAG_END) = false.
Proof. by destruct t. Qed.

Lemma wp_parse_tags m0 ts : ∀ fuel p m i k,
  bytes_at m0 mbi (le_of 4 total) → is_u32 total →
  parsed_as m0 m i k → tags_at m0 p (ts ++ [TEnd]) → Forall tag_ok ts → mbi + 8 <= p → p + tags_len (ts ++ [TEnd]) = mbi + total →
  i + tags_need ts < 5120 → Z.of_nat (length (foldl absorb k ts).2) <= nr → (length ts < fuel)%nat →
  wp (while_n fuel (parse_tag ebuf mbi ebuf) p) (MkEarly m i) (λ _ e', ∃ m' i', e' = MkEarly m' i' ∧ parsed_as m0 m' i' (foldl absorb k ts)).
Proof.
  induction ts as [|t ts IH]; intros [|fuel] p m i k Ht Htu HK Htags Hok Hp Hend Hneed Hn Hf; [cbn in Hf; lia| |cbn in Hf; lia|].
  - destruct k as [[cmd mods] rs] eqn:Ek. pose proof HK as (pc & head & K & _). cbn [app tags_at tags_len foldr] in *. change (align8 (tag_size TEnd)) with 8 in *. destruct Htags as [Hb _].
    assert (bytes_at m p (tag_bytes TEnd)) as Hb' by (eapply bytes_same; [rewrite tag_bytes_length; change (tag_size TEnd) with 8; intros a Ha; apply (pa_tags _ _ _ _ _ _ _ _ _ _ K); lia|done]).
    assert (bytes_at m mbi (le_of 4 total)) as Hm by (eapply bytes_same; [rewrite length_le_of; intros a Ha; apply (pa_tags _ _ _ _ _ _ _ _ _ _ K); lia|done]).
    cbn [while_n]. wp_step. unfold parse_tag. wp_step. apply wp_on_mem, (wp_rd32 _ _ total); [done|done|]. rewrite (proj2 (Z.ltb_lt p _)) by lia.
    apply tag_parts in Hb' as (H1 & _ & _). wp_step. apply wp_on_mem, (wp_rd32 _ _ 0); [done|unfold is_u32; lia|]. change (0 =? MB2_TAG_END) with true. cbn iota. do 2 apply wp_ret.
    exists m, i. by split.
  - apply Forall_cons in Hok as [Hok1 Hok]. rewrite <- app_comm_cons in *. cbn [tags_at tags_len foldr tags_need foldl length] in *. fold (tags_len (ts ++ [TEnd])) in *. fold (tags_need ts) in *. destruct Htags as [Hb Htags].
    pose proof (align8_range (tag_size t)) as A. pose proof (tag_size_pos t) as P8. pose proof (tags_len_nonneg (ts ++ [TEnd])) as N0. pose proof (need_nonneg ts) as N1.
    assert (8 <= tags_len (ts ++ [TEnd])) as N8. { rewrite tags_len_app. cbn [tags_len foldr]. change (align8 (tag_size TEnd)) with 8. pose proof (tags_len_nonneg ts). lia. }
    assert (∀ m1 i1 k1 q l, parsed_as m0 m1 i1 k1 → mbi <= q → q + Z.of_nat (length l) <= mbi + total → bytes_at m0 q l → bytes_at m1 q l) as Keep.
    { intros m1 i1 [[c1 mo1] r1] q l (pc1 & h1 & K1 & _) ? ? ?. eapply bytes_same; [|done]. intros a Ha. apply (pa_tags _ _ _ _ _ _ _ _ _ _ K1). lia. }
    assert (is_u32 (tag_size t)) as Hsz by (unfold is_u32; lia). apply tag_parts in Hb as Hparts. destruct Hparts as (H1 & H2 & _).
    cbn [while_n]. wp_step. unfold parse_tag. wp_step. apply wp_on_mem, (wp_rd32 _ _ total); [eapply Keep; [done|lia|lens|done]|done|]. rewrite (proj2 (Z.ltb_lt p _)) by lia.
    wp_step. apply wp_on_mem, (wp_rd32 _ _ (tag_type t)); [eapply Keep; [done|lia|lens|done]|destruct t; by compute|]. rewrite type_not_end by done.
    wp_step. apply (wp_absorb m0 m i k p t); [done|done|done|lia|lia|lia|etrans; [apply (absorb_grows ts)|done]|]. intros m' K'.
    wp_step. apply wp_on_mem, (wp_rd32 _ _ (tag_size t)); [eapply Keep; [done|lia|lens|done]|done|]. apply wp_ret. rewrite align_up_8 by lia.
    apply IH; try done; lia.
Qed.

Definition fresh (m : mem) : Prop := bytes_at m ebuf (replicate 5120 0) ∧ mapped m 0 (20 * nr).

Lemma bytes_mapped m p l : bytes_at m p l → mapped m p (Z.of_nat (length l)).
Proof.
  intros Hb i Hi. destruct (lookup_lt_is_Some_2 l (Z.to_nat i)) as [c Hc]; [lia|]. pose proof (bytes_at_lookup _ _ _ _ _ Hb Hc) as E. rewrite Z2Nat.id in E by lia. by exists c.
Qed.

Lemma wp_parse_block m ts :
  fresh m → bytes_at m mbi (le_of 4 total) → total = block_len (ts ++ [TEnd]) → tags_at m (mbi + 8) (ts ++ [TEnd]) → Forall tag_ok ts →
  28 + tags_need ts < 5120 → Z.of_nat (length (foldl absorb (None, [], []) ts).2) <= nr →
  wp (parse_multiboot2_early ebuf mbi) (MkEarly m 0) (λ r e', r = ebuf ∧ ∃ m' i', e' = MkEarly m' i' ∧ parsed_as m m' i' (foldl absorb (None, [], []) ts)).
Proof.
  intros [Hz Hlm] Ht Etot Htags Hok Hneed Hn. pose proof (tags_len_nonneg (ts ++ [TEnd])) as N0. unfold block_len in Etot. assert (is_u32 total) as Htu by (unfold is_u32; lia).
  pose proof (need_nonneg ts) as N1. apply bytes_mapped in Hz as Hroom. rewrite length_replicate in Hroom. change (Z.of_nat 5120) with 5120 in Hroom.
  unfold parse_multiboot2_early, kbi_module_count, sizeof_KernelBootInfo. wp_step. apply wp_early_alloc; [lia|lia|lia|]. rewrite Z.add_0_r.
  assert (bytes_at m ebuf (words_bytes [0; 0; 0; 0; 0; 0; 0])) as W0.
  { change (replicate 5120 0) with (words_bytes [0; 0; 0; 0; 0; 0; 0] ++ replicate 5092 0) in Hz. by apply bytes_at_app in Hz as [? _]. }
  assert (parsed m m 28 None [] [] 0 0 0 0) as K0 by (split; [cbn; lia|done|done|done|done|done|done|done|done]).
  wp_step. apply wp_on_mem, wp_wr32; [room|]. change (0 + 28) with 28. set (m1 := blit m (ebuf + 8) (le_of 4 0)).
  assert (parsed m m1 28 None [] [] 0 0 0 0) as K1.
  { apply (parsed_field m m 28 None None [] [] [] [] 0 0 0 0 0 0 0 0 2%nat 0 K0); [lia|done|done|cbn; lia|done|done|done]. }
  wp_step. apply wp_on_mem, (wp_rd32 _ _ total); [|done|].
  { eapply bytes_same; [rewrite length_le_of; intros a Ha; apply (pa_tags _ _ _ _ _ _ _ _ _ _ K1); lia|done]. }
  wp_step. eapply wp_mono; [apply (wp_parse_tags m ts _ (mbi + 8) m1 28 (None, [], [])); try done|].
  - exists 0, 0. split; [done|cbn; lia].
  - lia.
  - assert (8 * Z.of_nat (length ts) + 8 <= tags_len (ts ++ [TEnd])) as Hlen.
    { rewrite tags_len_app. cbn [tags_len foldr]. change (align8 (tag_size TEnd)) with 8. enough (8 * Z.of_nat (length ts) <= tags_len ts) by lia. clear. induction ts as [|t ts IH]; [done|].
      cbn [tags_len foldr length]. fold (tags_len ts). pose proof (align8_range (tag_size t)). pose proof (tag_size_pos t). lia. }
    assert (Z.of_nat (length ts) <= total / 8) by (apply Z.div_le_lower_bound; lia). lia.
  - intros [] e' (m' & i' & -> & K'). apply wp_ret. split; [done|]. by exists m', i'.
Qed.
End parse.

(* ------------------------------------------------------------------ *)
(** ** Theorems *)

(** What the kernel has got: the command line, the modules as a list, and the
    regions, at address zero because their pointer is never set. *)
Definition handed_over (m : mem) (kbi : Z) (c : list Z) (mods : list (Z * Z * list Z)) (rs : list MemoryRegionInternal) : Prop :=
  ∃ pc head lo hi, is_u32 head ∧ 0 < lo ∧ bytes_at m kbi (words_bytes [pc; head; Z.of_nat (length mods); Z.of_nat (length rs); 0; 0; 0]) ∧
    cstr m pc c ∧ mods_at m lo hi head mods ∧ bytes_at m 0 (concat (region_bytes <$> rs)).

Definition info (x : bmod) : Z * Z * list Z := (bm_start x, bm_size x, bm_path x).

Lemma absorb_mods mods : ∀ cmd acc r,
  Forall (λ x, is_u32 (bm_size x)) mods → foldl absorb (cmd, acc, r) (mod_tag <$> mods) = (cmd, reverse (info <$> mods) ++ acc, r).
Proof.
  induction mods as [|x mods IH]; intros cmd acc r Hs; [done|]. apply Forall_cons in Hs as [Hx Hs]. cbn [fmap list_fmap foldl]. unfold mod_tag at 1. cbn [absorb].
  replace (bm_start x + bm_size x - bm_start x) with (bm_size x) by lia. rewrite u32_small by done. rewrite IH by done. rewrite reverse_cons, <- app_assoc. done.
Qed.

(** The memory the two sides work in. *)
Record boot_memory (m : mem) (ebuf mbi cmd : Z) (c : list Z) (mods : list bmod) (rs : list MemoryRegionInternal) : Prop := {
  bt_ebuf : 0 < ebuf ∧ ebuf + 5120 < 4294967296;
  bt_block : 0 < mbi ∧ mbi + block_len (all_tags c mods rs) < 4294967288;
  bt_low : Z.of_nat (length rs) <= 256 ∧ 20 * Z.of_nat (length rs) <= ebuf ∧ 20 * Z.of_nat (length rs) <= mbi;
  bt_apart : ebuf + 5120 <= mbi ∨ mbi + block_len (all_tags c mods rs) <= ebuf;
  bt_fresh : bytes_at m ebuf (replicate 5120 0);
  bt_low_room : mapped m 0 (20 * Z.of_nat (length rs));
  bt_room : mapped m mbi (block_len (all_tags c mods rs));
  bt_cmd : text_at m mbi (mbi + block_len (all_tags c mods rs)) cmd c;
  bt_mods : Forall (bmod_ok m mbi (mbi + block_len (all_tags c mods rs))) mods;
  bt_sizes : Forall (λ x, is_u32 (bm_size x)) mods;
  bt_regions : Forall region_ok rs;
  bt_early : 28 + (Z.of_nat (length c) + 1) + tags_need (mod_tag <$> mods) < 5120
}.

Lemma text_at_ok m lo hi p s : text_at m lo hi p s → text_ok s.
Proof. intros [_ Hc Hu _ _]. apply cstr_bytes in Hc as [_ ?]. by split. Qed.

Lemma tags_need_app ts1 ts2 : tags_need (ts1 ++ ts2) = tags_need ts1 + tags_need ts2.
Proof. unfold tags_need. induction ts1 as [|t ts1 IH]; cbn; [lia|]. rewrite IH. lia. Qed.

Lemma wp_boot_info m ebuf mbi cmd c mods rs :
  boot_memory m ebuf mbi cmd c mods rs →
  wp (on_mem (multiboot2_build mbi cmd (Z.of_nat (length mods)) (bm_start <$> mods) (bm_size <$> mods) (bm_ptr <$> mods) rs) ;;
      parse_multiboot2_early ebuf mbi) (MkEarly m 0)
    (λ kbi e', kbi = ebuf ∧ handed_over (emem e') kbi c (reverse (info <$> mods)) rs).
Proof.
  intros [T1 T2 T3 T4 T5 T6 T7 T8 T9 T10 T11 T12]. set (n := block_len (all_tags c mods rs)) in *.
  wp_step. apply wp_on_mem. eapply wp_mono; [by apply (wp_multiboot2_build m mbi cmd c mods rs); fold n; try done; lia|]. fold n. intros [] m1 (B1 & B2 & O).
  set (ts := TCmd c :: (mod_tag <$> mods) ++ [TMap rs]). assert (all_tags c mods rs = ts ++ [TEnd]) as Ets by (unfold all_tags, ts; cbn; by rewrite <- app_assoc).
  assert (foldl absorb (None, [], []) ts = (Some c, reverse (info <$> mods), rs)) as Ek.
  { unfold ts. cbn [foldl absorb]. rewrite foldl_app, absorb_mods by done. cbn. by rewrite app_nil_r. }
  eapply wp_mono; [apply (wp_parse_block ebuf mbi n (Z.of_nat (length rs)) T1 ltac:(lia) ltac:(lia) ltac:(lia) m1 ts)|].
  - split; [eapply only_bytes; [exact O|rewrite length_replicate; change (Z.of_nat 5120) with 5120; lia|done]|]. by eapply only_mapped.
  - done.
  - unfold n. by rewrite Ets.
  - by rewrite <- Ets.
  - unfold ts. apply Forall_cons. split; [by eapply text_at_ok|]. apply Forall_app. split; [|by repeat constructor]. apply Forall_fmap. eapply Forall_impl; [exact T9|].
    intros x [X1 X2 X3]. cbn. split_and!; [done|done|]. by eapply text_at_ok.
  - unfold ts. cbn [tags_need foldr]. fold (tags_need ((mod_tag <$> mods) ++ [TMap rs])). rewrite tags_need_app. cbn. lia.
  - rewrite Ek. cbn. lia.
  - intros r e' (-> & m' & i' & -> & K). split; [done|]. rewrite Ek in K. destruct K as (pc & head & K & _). cbn [emem].
    exists pc, head, (ebuf + 28), (ebuf + i'). destruct K as [_ K2 K3 (K4 & K5 & K6) K7 K8 _ _ _]. split_and!; [apply K3|lia|exact K2|exact K6|exact K7|exact K8].
Qed.

(** C40: The boot information arrives. What the boot loader puts into the block of
    tags, the kernel's parser finds again: the command line byte for byte, every
    module with its address, size and path, as a list in reverse order, and
    the regions of the memory map in order, for any number of modules that the
    early buffer holds and up to 256 regions. The pointer to the regions is
    never set, so they are at address 0, which has to be mapped and free. *)
Theorem boot_info_roundtrip m ebuf mbi cmd c mods rs :
  boot_memory m ebuf mbi cmd c mods rs →
  wp (on_mem (multiboot2_build mbi cmd (Z.of_nat (length mods)) (bm_start <$> mods) (bm_size <$> mods) (bm_ptr <$> mods) rs) ;;
      parse_multiboot2_early ebuf mbi) (MkEarly m 0)
    (λ kbi e', handed_over (emem e') kbi c (reverse (info <$> mods)) rs).
Proof. intros B. eapply wp_mono; [by apply wp_boot_info|]. by intros r e' [_ ?]. Qed.

(* ------------------------------------------------------------------ *)
(** ** The ranges given to the frame allocator *)

Definition usable (rs : list MemoryRegionInternal) : list range_t :=
  omap (λ r, if type_ r =? 1 then Some (Range (u32 (base r)) (u32 (u64 (base r + length_ r)))) else None) rs.

Lemma push_take l r : range_list_push (take 64 l) r = take 64 (l ++ [r]).
Proof.
  unfold range_list_push, MAX_USED_RANGES. rewrite length_take. destruct (Z.ltb_spec (Z.of_nat (64 `min` length l)) 64).
  - assert (length l < 64)%nat by lia. rewrite (take_ge l) by lia. rewrite take_ge by (rewrite length_app; cbn [length]; lia). done.
  - rewrite take_app_le by lia. done.
Qed.

Lemma region_parts m rs j r : bytes_at m 0 (concat (region_bytes <$> rs)) → rs !! j = Some r →
  bytes_at m (20 * Z.of_nat j) (le_of 8 (base r)) ∧ bytes_at m (20 * Z.of_nat j + 8) (le_of 8 (length_ r)) ∧ bytes_at m (20 * Z.of_nat j + 16) (le_of 4 (type_ r)).
Proof.
  intros Hb Hj. rewrite <- (take_drop_middle rs j r Hj) in Hb. rewrite fmap_app, concat_app, bytes_at_app, regions_length in Hb. destruct Hb as [_ Hb]. cbn [fmap list_fmap concat] in Hb.
  apply lookup_lt_Some in Hj. rewrite length_take, Nat.min_l in Hb by lia. replace (0 + Z.of_nat (20 * j)) with (20 * Z.of_nat j) in Hb by lia.
  apply bytes_at_app in Hb as [Hb _]. unfold region_bytes in Hb. rewrite !bytes_at_app, !length_le_of in Hb. change (Z.of_nat 8) with 8 in Hb. destruct Hb as (H1 & H2 & H3).
  by replace (20 * Z.of_nat j + 16) with (20 * Z.of_nat j + 8 + 8) by lia.
Qed.

Lemma wp_usable m rs k : ∀ j,
  bytes_at m 0 (concat (region_bytes <$> rs)) → Forall region_ok rs → (j + k = length rs)%nat →
  wp (fold_n k (Z.of_nat j) (usable_step 0) (take 64 (usable (take j rs)))) m (λ l m', m' = m ∧ l = take 64 (usable rs)).
Proof.
  induction k as [|k IH]; intros j Hb Hok Hk; cbn [fold_n]. { apply wp_ret. by rewrite (take_ge rs) by lia. }
  destruct (lookup_lt_is_Some_2 rs j) as [r Hr]; [lia|]. destruct (region_parts m rs j r Hb Hr) as (P1 & P2 & P3).
  assert (region_ok r) as (R1 & R2 & R3) by (rewrite Forall_forall in Hok; apply Hok; by eapply list_elem_of_lookup_2).
  wp_step. unfold usable_step, sizeof_memory_region_t. rewrite !Z.add_0_l. wp_step. apply (wp_rd32 _ _ (type_ r)); [done|done|].
  assert (usable (take (S j) rs) = usable (take j rs) ++ usable [r]) as E by (rewrite (take_S_r _ _ r) by done; unfold usable; apply omap_app).
  replace (Z.of_nat j + 1) with (Z.of_nat (S j)) by lia. destruct (type_ r =? 1) eqn:Et.
  - wp_step. apply (wp_rd64 _ _ (base r)); [done|done|]. wp_step. apply (wp_rd64 _ _ (length_ r)); [done|done|]. apply wp_ret. rewrite push_take.
    replace (usable (take j rs) ++ [Range (u32 (base r)) (u32 (u64 (base r + length_ r)))]) with (usable (take (S j) rs)); [apply IH; [done|done|lia]|].
    rewrite E. unfold usable at 2. cbn. by rewrite Et.
  - apply wp_ret. replace (usable (take j rs)) with (usable (take (S j) rs)); [apply IH; [done|done|lia]|]. rewrite E. unfold usable at 2. cbn. rewrite Et. by rewrite app_nil_r.
Qed.

(** From what was handed over, the frame allocator is told the memory of the
    regions of type 1, in order, cut to 32 bits and to the first 64 of them. *)
Theorem boot_usable_ranges m kbi c mods rs :
  handed_over m kbi c mods rs → Forall region_ok rs → Z.of_nat (length rs) <= 256 →
  wp (get_useable_memory_ranges kbi) m (λ l m', m' = m ∧ l = take 64 (usable rs)).
Proof.
  intros (pc & head & lo & hi & _ & _ & F & _ & _ & Hr) Hok Hn. unfold get_useable_memory_ranges, kbi_region_count, kbi_regions.
  wp_step. apply (wp_rd32 _ _ (Z.of_nat (length rs))); [exact (words_get _ _ _ 3%nat _ F eq_refl)|unfold is_u32; lia|].
  wp_step. apply (wp_rd32 _ _ 0); [exact (words_get _ _ _ 4%nat _ F eq_refl)|unfold is_u32; lia|]. rewrite Nat2Z.id. by apply (wp_usable m rs (length rs) 0).
Qed.

Lemma wp_used_step m mods i l p a n (Q : list range_t → mem → Prop) :
  p = mods + 32 * i → bytes_at m (p + 16) (le_of 4 a) → bytes_at m (p + 20) (le_of 4 n) → is_u32 a → is_u32 n →
  Q (range_list_push l (Range a (u32 (a + n)))) m → wp (used_step mods i l) m Q.
Proof.
  intros -> Ha Hn Ua Un HQ. unfold used_step, sizeof_module_t, mod_data_start, mod_data_size. wp_step. apply (wp_rd32 _ _ a); [done|done|]. wp_step. apply (wp_rd32 _ _ n); [done|done|]. by apply wp_ret.
Qed.

Lemma bytes_at_middle m p l i n : bytes_at m p l → (i + n <= length l)%nat → bytes_at m (p + Z.of_nat i) (take n (drop i l)).
Proof.
  intros Hb Hl. rewrite <- (take_drop i l), bytes_at_app, length_take, Nat.min_l in Hb by lia. destruct Hb as [_ Hb].
  rewrite <- (take_drop n (drop i l)), bytes_at_app in Hb. apply Hb.
Qed.

(** Only the module at the head of the list is reserved. The modules are read
    as an array, but the name of a module lies behind it: with two modules, the
    second range that is kept from the frame allocator is made of the letters
    17 to 24 of the path of the first one, whatever the second module is. *)
Theorem boot_second_module_unreserved m kbi c a n s y rs kernel :
  handed_over m kbi c [(a, n, s); y] rs → is_u32 a → is_u32 n → Forall is_u8 s → (24 <= length s)%nat →
  let w1 := le_val (take 4 (drop 16 s)) in
  let w2 := le_val (take 4 (drop 20 s)) in
  wp (get_used_memory_ranges kernel kbi) m (λ l m', m' = m ∧ l = [Range a (u32 (a + n)); Range w1 (u32 (w1 + w2)); kernel]).
Proof.
  intros (pc & head & lo & hi & Hu & _ & F & _ & (pn & nx & _ & _ & -> & _ & _ & B & S & _) & _) Ha Hn Hs Hl w1 w2.
  unfold get_used_memory_ranges, kbi_initrd_start, kbi_initrd_size, kbi_module_count, kbi_modules.
  wp_step. apply (wp_rd32 _ _ 0); [exact (words_get _ _ _ 5%nat _ F eq_refl)|unfold is_u32; lia|]. wp_step. apply (wp_rd32 _ _ 0); [exact (words_get _ _ _ 6%nat _ F eq_refl)|unfold is_u32; lia|].
  cbn zeta. change (negb (0 =? 0) && negb (0 =? 0)) with false. cbn iota. wp_step. apply (wp_rd32 _ _ 2); [exact (words_get _ _ _ 2%nat _ F eq_refl)|unfold is_u32; lia|].
  wp_step. apply (wp_rd32 _ _ head); [exact (words_get _ _ _ 1%nat _ F eq_refl)|done|]. change (Z.to_nat 2) with 2%nat. cbn [fold_n]. wp_step.
  wp_step. apply (wp_used_step m head 0 [] head a n); [lia|exact (words_get _ _ _ 4%nat _ B eq_refl)|exact (words_get _ _ _ 5%nat _ B eq_refl)|done|done|].
  assert (∀ i, (i + 4 <= length s)%nat → bytes_at m (head + 32 + Z.of_nat i) (le_of 4 (le_val (take 4 (drop i s)))) ∧ is_u32 (le_val (take 4 (drop i s)))) as W.
  { intros i Hi. assert (bytes_ok (take 4 (drop i s))) as Hok by (apply Forall_take, Forall_drop, Hs). assert (length (take 4 (drop i s)) = 4%nat) as E4 by (rewrite length_take, length_drop; lia).
    split; [|pose proof (le_val_bound _ Hok) as Hb; rewrite E4 in Hb; exact Hb]. pose proof (le_of_val _ Hok) as E. rewrite E4 in E. rewrite E. apply bytes_at_middle; [|lia].
    apply cstr_bytes in S as [S _]. by apply bytes_at_app in S as [? _]. }
  destruct (W 16%nat ltac:(lia)) as [W1 U1]. destruct (W 20%nat ltac:(lia)) as [W2 U2]. fold w1 in W1, U1. fold w2 in W2, U2.
  wp_step. apply (wp_used_step m head (0 + 1) _ (head + 32) w1 w2); [lia|exact W1|exact W2|done|done|]. apply wp_ret. by apply wp_ret.
Qed.

(* ------------------------------------------------------------------ *)
(** ** Instances *)

Definition demo_path (x : Z) : list Z := 47 :: replicate 24 x.
Definition demo_mods : list bmod := [BMod 3145728 4096 2000 (demo_path 97); BMod 3149824 8192 3000 (demo_path 98)].
Definition demo_regions : list MemoryRegionInternal := [RegionInternal 0 654336 1; RegionInternal 983040 65536 2; RegionInternal 1048576 133169152 1].
Definition demo_cmd : list Z := [97; 61; 98].
Definition demo_memory : mem :=
  blit (blit (blit (blit (blit (blit ∅ 0 (replicate 60 0)) 1000 (demo_cmd ++ [0])) 2000 (demo_path 97 ++ [0])) 3000 (demo_path 98 ++ [0]))
    100000 (replicate 5120 0)) 499712 (replicate 216 0).

Lemma demo_text m lo hi p s : bytes_at m p (s ++ [0]) → Forall (λ x, x ≠ 0) s → Forall is_u8 s → p ≠ 0 → Z.of_nat (length s) < 65536 →
  p + Z.of_nat (length s) + 1 <= lo ∨ hi <= p → text_at m lo hi p s.
Proof. intros. split; try done. by apply cstr_bytes. Qed.

Ltac far := rewrite ?length_replicate, ?length_app, ?words_length, ?regions_length; change (Z.of_nat 5120) with 5120; cbn [length demo_cmd demo_path demo_regions]; rewrite ?length_replicate; lia.

Lemma demo_boot_memory : boot_memory demo_memory 100000 499712 1000 demo_cmd demo_mods demo_regions.
Proof.
  assert (∀ x, 0 < x < 256 → Forall (λ y, y ≠ 0) (demo_path x) ∧ Forall is_u8 (demo_path x)) as Hpath.
  { intros x Hx. unfold is_u8. split; apply Forall_cons; (split; [lia|]); apply Forall_replicate; lia. }
  assert (block_len (all_tags demo_cmd demo_mods demo_regions) = 216) as En by (vm_compute; reflexivity).
  split; rewrite ?En.
  - lia.
  - lia.
  - cbn. lia.
  - lia.
  - unfold demo_memory. apply bytes_at_blit; [far|]. apply blit_bytes.
  - unfold demo_memory. do 5 apply mapped_blit. apply (bytes_mapped _ 0 (replicate 60 0)), blit_bytes.
  - apply (bytes_mapped _ 499712 (replicate 216 0)), blit_bytes.
  - apply demo_text; [|by repeat constructor|by repeat constructor|lia|cbn; lia|cbn; lia]. unfold demo_memory. do 4 (apply bytes_at_blit; [far|]). apply blit_bytes.
  - apply Forall_cons. split; [|apply Forall_cons; split; [|apply Forall_nil_2]]; split; cbn [bm_start bm_size bm_ptr bm_path]; try (unfold is_u32; lia).
    + apply demo_text; [|by apply Hpath|by apply Hpath|lia|cbn; lia|cbn; lia]. unfold demo_memory. do 3 (apply bytes_at_blit; [far|]). apply blit_bytes.
    + apply demo_text; [|by apply Hpath|by apply Hpath|lia|cbn; lia|cbn; lia]. unfold demo_memory. do 2 (apply bytes_at_blit; [far|]). apply blit_bytes.
  - unfold is_u32. repeat constructor; cbn; lia.
  - unfold region_ok, is_u64, is_u32. repeat constructor; cbn; lia.
  - cbn. lia.
Qed.

Lemma boot_info_roundtrip_witness :
  wp (on_mem (multiboot2_build 499712 1000 2 [3145728; 3149824] [4096; 8192] [2000; 3000] demo_regions) ;; parse_multiboot2_early 100000 499712) (MkEarly demo_memory 0)
    (λ kbi e', handed_over (emem e') kbi demo_cmd [(3149824, 8192, demo_path 98); (3145728, 4096, demo_path 97)] demo_regions).
Proof. exact (boot_info_roundtrip demo_memory 100000 499712 1000 demo_cmd demo_mods demo_regions demo_boot_memory). Defined.

(** The same information in the kernel's memory. *)
Definition demo_kernel : mem :=
  blit (blit (blit (blit (blit (blit (blit ∅ 0 (concat (region_bytes <$> demo_regions))) 4096 (words_bytes [7000; 5000; 2; 3; 0; 0; 0]))
    5000 (words_bytes [5032; 0; 0; 0; 3149824; 8192; 0; 6000])) 5032 (demo_path 98 ++ [0]))
    6000 (words_bytes [6032; 0; 0; 0; 3145728; 4096; 0; 0])) 6032 (demo_path 97 ++ [0])) 7000 (demo_cmd ++ [0]).

Lemma demo_handed_over : handed_over demo_kernel 4096 demo_cmd [(3149824, 8192, demo_path 98); (3145728, 4096, demo_path 97)] demo_regions.
Proof.
  exists 7000, 5000, 4000, 7000. split; [done|]. split; [lia|]. split. { unfold demo_kernel. do 5 (apply bytes_at_blit; [far|]). apply blit_bytes. }
  split. { unfold demo_kernel. apply blit_cstr. by repeat constructor. }
  split. { exists 5032, 6000. split_and!; [lia|lia|lia|cbn; lia|done| | |].
    - unfold demo_kernel. do 4 (apply bytes_at_blit; [far|]). apply blit_bytes.
    - unfold demo_kernel. do 3 (apply cstr_kept; [far|]). apply blit_cstr. by repeat constructor.
    - exists 6032, 0. split_and!; [lia|lia|lia|cbn; lia|done| | |done].
      + unfold demo_kernel. do 2 (apply bytes_at_blit; [far|]). apply blit_bytes.
      + unfold demo_kernel. apply cstr_kept; [far|]. apply blit_cstr. by repeat constructor. }
  unfold demo_kernel. do 6 (apply bytes_at_blit; [far|]). apply blit_bytes.
Qed.

Lemma boot_usable_ranges_witness :
  wp (get_useable_memory_ranges 4096) demo_kernel (λ l m', m' = demo_kernel ∧ l = [Range 0 654336; Range 1048576 134217728]).
Proof.
  apply (boot_usable_ranges demo_kernel 4096 demo_cmd _ demo_regions demo_handed_over); [|cbn; lia]. unfold region_ok. repeat constructor; cbn; lia.
Defined.

Lemma boot_second_module_unreserved_witness :
  wp (get_used_memory_ranges (Range 1048576 2097152) 4096) demo_kernel (λ l m', m' = demo_kernel ∧
    l = [Range 3149824 3158016; Range 1650614882 3301229764; Range 1048576 2097152]).
Proof.
  apply (boot_second_module_unreserved demo_kernel 4096 demo_cmd 3149824 8192 (demo_path 98) (3145728, 4096, demo_path 97) demo_regions (Range 1048576 2097152) demo_handed_over).
  - unfold is_u32. lia.
  - unfold is_u32. lia.
  - unfold is_u8. apply Forall_cons. split; [lia|]. apply Forall_replicate. lia.
  - cbn. lia.
Defined.
